(* ===== verification/_CoqProject ===== *)
-Q . S2P
Prelude.v
Async.v
RustStr.v
RustText.v
Net.v
Json.v
DbText.v
Multicast.v
MulticastHandlers.v
MulticastTables.v
MulticastProofs.v
MulticastTheorems.v
DbTextProofs.v
ProtectedText.v
Redact.v
RedactProofs.v
NixSource.v
Assets.v
AssetsProofs.v
NixBase32.v
CacheEgress.v
CacheEgressTheorems.v
Boot.v
BootProofs.v
BootStore.v
BootStoreProofs.v
BootRoutes.v
BootTheorems.v
BuildJobs.v
BuildJobsProofs.v
ProtectedMaterial.v
ProtectedProofs.v
BuildJobsTheorems.v
CacheArtifacts.v
CacheArtifactsProofs.v
Remediation.v
RemediationProofs.v
NarInfo.v
CacheSweep.v
CacheSweepProofs.v
NarInfoProofs.v
ClosureManifest.v
ClosureManifestProofs.v
ClosureTheorems.v
Retention.v
RetentionProofs.v
CachePurge.v
Scrub.v
ScrubProofs.v
CacheDemo.v
UploadGrant.v
Upload.v
UploadProofs.v
UploadDemo.v
Schedule.v
UpdateSchedule.v
WakeOnLan.v
Runtime.v
RuntimeStore.v
RuntimeSessions.v
RuntimeProofs.v
DescriptorProofs.v
SessionProofs.v
QuarantineProofs.v
ReconcileQueue.v
BundleProofs.v
RuntimeDemo.v
ManagedBoot.v
ManagedBootProofs.v
ManagedSync.v
ManagedReport.v
ManagedReportProofs.v
BuildSpec.v
BuildSpecProofs.v
BuildProfile.v
BuildLog.v
BuildLogProofs.v
BuildWorker.v
BuildWorkerProofs.v
BuildWorkerTheorems.v
