(* ===== verification/Prelude.v ===== *)
(** * Verification of Tiaris Nest

    Nest is the on-site appliance of the Tiaris service: it boots machines over
    the network, builds Nix closures for them and serves the results.  This
    library models the parts of it that decide and that keep state, and proves
    what they promise to each other and to the machines they serve.

    ** The program and its model

    Nest is one process of many Tokio tasks over a SQLite database.  A request
    handler validates its arguments, runs SQL statements or enters the critical
    section of a mutex, and may spawn other tasks.  Between two [await]s nothing
    else runs, so the model of a handler is a tree of atomic actions on a shared
    world (file [Async]): [run] executes it alone, [pstep] interleaves any number
    of handlers at every action.  What an action learns from outside (clocks,
    random identifiers, whether a statement fails, what a child process did) is
    an input, and every theorem quantifies over all inputs.  Operations that are
    single statements, and the ones that run before anything else at a start,
    are functions on the tables; a step relation then composes them.

    Shared files:
    - [Prelude]: Rust's [Result], fixed-width integers (a [Z] with its saturating
      and checked operations), report pages, lemmas on lists, maps and options,
      the tactics of the development.
    - [Async]: handlers, their two semantics, and [safe], the rely/guarantee
      predicate that connects them.  A component proves its handlers [safe] for
      an invariant and an evolution preorder; [pool_invariant] then gives both
      for every interleaving.  [owned] refines [safe] by what a handler has
      claimed and no other may change.
    - [RustStr], [RustText], [Net], [Json]: what the sources use of [str],
      [char], [u8], [std::net::IpAddr] and [serde_json::Value].

    Multicast distribution (src/netboot_multicast.rs):
    - [Multicast], [MulticastHandlers]: the signed policy, the in-memory
      coordinator, the multicast tables, each critical section and SQL statement;
      discovery and joining, gathering, the sender, receipts, finalization, the
      report queue, policy changes, start-up, shutdown and clean-up.
    - [MulticastTables], [MulticastProofs], [MulticastTheorems]: their proofs.

    The database (src/db.rs):
    - [DbText]: src/error.rs, and the validators and normalizers of stored values.
    - [BuildJobs]: the [nest_build_jobs] table: queueing (local and managed),
      claiming, progress, finishing, failing, retrying, cancelling, recovery
      after a crash, and the page of build evidence that is reported.
    - [CacheArtifacts]: the inventory of the binary cache, its generation, its
      report pages, protections and verification.
    - [Remediation]: the quarantine of stored jobs at a start, the ledger of
      protected jobs, and the completion of a purge; it acts on jobs, inventory
      and ledger together.
    - [BootStore]: devices, boot profiles and boot events, with the uniqueness
      and foreign-key rules of the schema.

    Booting:
    - [Boot]: src/boot.rs and the boot part of src/models.rs: choosing a profile
      and rendering iPXE scripts.
    - [BootRoutes]: src/routes/boot.rs, the handlers a booting machine calls,
      composed from [Boot] and [BootStore].

    Protected material:
    - [ProtectedText], [NixSource], [ProtectedMaterial]:
      src/protected_material.rs: the scanners over text, the lexer and the checks
      of account definitions in Nix modules, the screening of JSON documents and
      build specifications.
    - [Redact]: src/redact.rs.
    The job queue and the quarantine see them through the class
    [BuildJobs.Screening]; [ProtectedProofs] gives the instance, and
    [RemediationProofs.QuarantineLaws] says what the quarantine asks of it.

    The binary cache (src/cache.rs), over the entries of the cache root and of
    its nar directory, and the inventory; everything here runs under the cache
    mutation lock:
    - [NixBase32]: the digests.
    - [NarInfo]: reading, parsing, signing and verifying narinfo records.
    - [ClosureManifest]: the walk over a closure that builds its manifest, and
      the withdrawal of records that do not verify.
    - [CacheSweep]: mark-and-sweep, over what the file system lets it list, read
      and remove ([SweepIo]).
    - [Retention]: eviction in rounds, removal on request.
    - [CachePurge]: the withdrawal a protected build of [Remediation] owes.
    - [Scrub]: the verification of recorded artifacts.
    - [CacheDemo]: a small cache the theorems are applied to.

    Uploads to the software cache (src/software_cache_upload.rs):
    - [UploadGrant]: destinations, grants, the stored state of a grant.
    - [Upload]: applying a configuration, the upload pass, the report; the
      requests that are sent are part of the world.
    - [UploadProofs], [UploadDemo]: their proofs, and a grant that is uploaded.

    The workstation runtime (src/netboot.rs, src/netboot_transport.rs): the signed
    bundle that workstations boot:
    - [Runtime]: descriptors and the text their signature covers, archives and
      trees, boot grants, the classification of failures.
    - [RuntimeStore]: retries, admission by generation and version, download,
      import, promotion.
    - [RuntimeSessions]: boot sessions, the two routes, the report, scrub,
      quarantine and pruning.
    - [ReconcileQueue]: the queue of one request and its worker, a step relation.
    - [RuntimeProofs], [DescriptorProofs], [SessionProofs], [QuarantineProofs],
      [BundleProofs]: their proofs, over the frame rule [framed] and the weakest
      precondition [post]; [RuntimeDemo]: an appliance they are applied to.

    Management by Tiaris (src/manage.rs, src/pxe_discovery.rs):
    - [ManagedBoot]: the desired boot configuration, its validation, the
      transaction on the tables of [BootStore], the settings and the file for
      the PXE supervisor, the boot report and its cursor, the boot lane of a
      synchronization.
    - [ManagedReport]: the Nest report: evidence of jobs and artifacts, rotation
      behind the stored cursors, selection, cutting to size, acceptance.
    - [ManagedBootProofs], [ManagedSync], [ManagedReportProofs]: their proofs,
      with an appliance and a queue they are applied to.

    Builds (src/build.rs):
    - [BuildSpec]: the specification of a job and its validation, the identities
      of installer targets, admission, the capacity of the node, the meaning of
      what Nix reports.
    - [BuildProfile]: src/build/profile.rs: the providers of a nixpkgs commit, the
      profile derived for a detected commit, the scripts of the commit rendered to
      the reviewed ones, and their fingerprints; with its proofs.
    - [BuildWorker]: a worker, from the claim of a job over its checks, its build
      or copy, and its publication to the end, over the job table of [BuildJobs]
      and the inventory of [CacheArtifacts]; what a worker does outside of the
      tables is a log in the world.
    - [BuildLog]: what a build prints on its way into the stored log: framing
      (src/bounded_io.rs), the events of Nix (src/nix_log.rs), redaction, bounds.
    - [BuildSpecProofs] (with the canonical text that is hashed),
      [BuildLogProofs], [BuildWorkerProofs], [BuildWorkerTheorems]: their proofs,
      and a queue and a worker they are applied to.

    Serving, and the rest:
    - [Assets]: src/assets.rs and src/routes/files.rs over a tree of directories,
      files and symbolic links.
    - [CacheEgress]: src/cache_egress.rs and the records of src/state_files.rs:
      counting what the cache served, persisting it, restarting.
    - [Schedule], [UpdateSchedule]: src/appliance/schedule.rs and
      src/appliance/update_schedule.rs: signed maintenance schedules and windows.
    - [WakeOnLan]: src/wake_on_lan.rs.

    Names are the source's; a column or field carries its table or struct as a
    prefix.  A table with a one-column key is a [gmap], any other a list of rows
    in insertion order.  A SQL statement is one function on the tables; a
    statement a constraint refuses fails without effect.

    ** What is proved

    - Multicast: every interleaving of the handlers keeps the invariant of
      coordinator and tables and only evolves them forward
      ([multicast_interleavings_safe]); a transfer is finalized exactly once and
      stays so; the receipts of its event add up to its registrations; an offer names
      a batch that was joined and whose sender has started
      ([join_cohort_offers_are_sound]); report pages hold
      the oldest events, acknowledgement deletes exactly what was acknowledged;
      policies are fenced by generation.
    - Text and paths: normal forms, bounds, paths that cannot leave their root.
    - Build jobs: a transition system over the table and the workers, its
      invariant, at most one worker per job, the order of claims, cancellation,
      recovery, the fairness of the report page; over starts of the service,
      quarantine and purges included, a job that has left the queue does not return
      to it, and a finished one changes only by redaction and quarantine
      ([build_jobs_lifecycle]).
    - Cache inventory: one row per artifact; equal generations mean equal content
      ([inventory_generation_fences]); what is recorded reads back; pages cover
      the inventory exactly once and end.
    - Quarantine: after a start no stored job holds what the boundary refuses
      ([start_leaves_only_accepted_jobs]); the ledger is append-only and the jobs
      it names stay scrubbed through everything the queue does
      ([ledger_is_append_only]); a purge completes once.
    - Binary cache: a manifest describes exactly the closure of its root, each
      member once, signed and true of its bytes ([closure_manifest_is_exact]);
      when none is built there is a cause ([closure_manifest_fails_with_cause]);
      the sweep removes exactly what it lists and does not reach through what it
      reads ([sweep_removes_exactly_the_unreachable]), so verified closures of
      retained artifacts, written as Nix writes them and readable, verify after it
      ([sweep_keeps_verified_closures]); retention evicts in its order, stops
      when it may, and keeps the row and closure of what is wanted
      ([retention_keeps_protected]); a withdrawal takes every alias of what a
      protected build published; a scrub withdraws what it removes
      ([scrub_withdraws_what_it_removes]); base-32 digests have one spelling.
    - Uploads: however configurations and passes interleave, only items of grants
      that were handed over are sent, with the bytes promised, to the tree their
      token is for, a narinfo after its NAR ([only_granted_items_are_sent]); what
      a state counts as uploaded was ([recorded_uploads_happened]); the totals of
      a report add up.
    - Workstation runtime: accepted generations and versions never go back, however
      handlers interleave ([accepted_runtimes_never_go_back]); a signature binds
      every field of a descriptor; an import puts in place what was signed or
      nothing ([imported_bundle_is_the_signed_one]), a download holds exactly the
      bytes it must; a launch serves the grant it signed, to the end of its time;
      pruning never takes the bundle of a live session
      ([live_sessions_keep_their_bundle]); a bundle that fails its verification is
      replaced by one that passes and is neither active nor previous afterwards
      ([quarantine_falls_back_to_a_bootable_bundle]); failures back off; the worker ends with the
      newest request.
    - Protected material: a document is accepted exactly when every part of it is
      clean; what installer targets are excused from is exact; redaction ends and
      leaves no password hash, so no stored log ever holds one.
    - Boot: which profile is chosen, menus that are well formed and whose jumps
      have labels, consistency of the tables under interleaving, what each
      request reads and writes, one-time boots that are consumed, enrollment that
      is undone when its assignment fails, retention of discoveries and events.
    - Management: an accepted configuration leaves exactly the profiles and
      clients it names ([boot_configuration_is_applied_exactly]); no boot event is
      skipped by the cursor, however reports, configurations and boot requests
      interleave ([no_boot_event_is_skipped]); reports are cut to fit, group by
      group; every build job is reported again and again
      ([every_build_job_is_reported]).
    - Builds: an accepted installer target is bound to the document it came with,
      and the identity of a cohort determines every input of the build
      ([cohort_identity_determines_the_inputs]); however workers and requests
      interleave and whatever fails, the workers only take steps of the queue
      ([workers_refine_the_queue]), Nix is started only for what every check
      admitted ([no_build_starts_unchecked]), success is reported only after
      publication ([success_follows_publication]), and a turn ends, with its job
      finished ([turns_complete], [turns_end_with_finished_jobs]); lines do not
      depend on how output arrives, the stored log is the redacted whole cut at its
      front ([captured_log_is_the_redacted_whole]), the reader of events stays
      within its bounds.  The profile of a detected commit renames the reviewed
      providers one to one ([derived_profiles_rename_the_reviewed_providers]), no
      other provider passes as one of them ([rendering_hides_no_provider]), and
      content reviewed for one role admits nothing in another
      ([counterparts_stay_in_their_role]).
    - Serving: a file is answered exactly when its path leads to a regular file
      below the root without links; the answer is the requested part; totals
      that were persisted go back only with a new epoch, which begins when a start finds no
      record it can use ([egress_totals_never_go_back]).
    - Schedules: whatever happens to the inbox, the installed schedule only
      advances; the window is the weekly one it describes.
    - Wake-on-LAN: the packet carries the address; a request is sent once.

    Theorems that carry no claim id record further behaviour, among it where the
    code differs from its intention: a late cancellation that overwrites the
    progress of a finished job, a script whose jump has no label, a default
    profile lost by a refused request, an assignment to a disabled profile, a
    reserved tree reached by a path with a space, totals that go back after a
    failed write, bearer values that are not redacted, accounts hidden behind a
    Nix escape, a slice inside a character that panics, a script whose
    fingerprint panics, a strict parser that
    accepts a repeated field, references the sweep does not follow, a sweep that
    takes what a file it cannot read refers to, a scrub that
    leaves a closure without a member, a grant that is lost with its document, an
    answer of the wrong length that is never retried, a quarantine that undoes a
    promotion, a configuration that exchanges the addresses of two clients and
    is refused, a job that stays running because its row cannot be read, and
    events of Nix that are dropped with their text.

    ** Bounds and fuel

    Loops over data are structural where the data allows it.  Scanners and lexers
    take the length of the text as fuel; [redaction_terminates],
    [tokens_loop_fuel] and [nss_names_fuel] show that more makes no difference.
    The closure walk and the mark phase take the number of references in the
    records as fuel, eviction the number of candidates, alias following the
    number of rows; their specifications show that each ends within it.
    Reading the inventory page by page takes at most one page per artifact and
    one more ([inventory_pages_cover]).  A handler that waits in a loop (joining,
    watching the sender) is given a number of rounds; the safety theorems hold
    for every number, and what the loop answers when it ends does not depend on
    it.  The supervision of a build runs until the clock of the world passes its
    timeout; a round sleeps half a second or longer, so that one round more than
    twice the timeout in seconds is enough ([supervision_rounds]), and running out of
    rounds would be an abnormal end, which [turns_complete] excludes; the recovery of a job takes
    any number of attempts, and one is enough when the database answers
    ([turns_complete]).  Resolving a path follows at most 40 links, as the kernel does.  Integers
    are kept at their width where the source saturates, checks or converts;
    elsewhere the invariants state the ranges.

    ** Code outside the repository

    SHA-256, base64 and hexadecimal codecs, signatures, serde_json, timestamp,
    version and URL parsing, the zone database, percent-encoding, media types and
    Unicode case mapping are arguments (the classes [External], [Screening],
    [Serde], [ProtectedDeps], [EgressCodec], [Ed25519], [UploadDeps],
    [RuntimeDeps], [BuildDeps], [ProfileDeps], [WorkerDeps], [NixEvents], [Clock], [Zones] and section variables), with the laws that are
    relied on as classes ([ExternalLaws], [QuarantineLaws], [ClockLaws],
    [RuntimeLaws], [Base64Laws], [UploadLaws], [EgressCodecLaws], [JsonLaws],
    [ProfileLaws], [NixEventLaws]) or hypotheses; the witnesses instantiate them.

    ** What is not modelled

    Subprocesses and most files (Nix, udp-sender, disks, systemd), HTTP routing
    and headers: their answers are inputs.  In src/build.rs the review of the
    derivations that Nix would build, the generated flakes and command lines, and
    the evaluation of a commit's identities: they are questions to a Nix evaluator.  In
    src/cache.rs exports, replica imports and key generation.  In src/manage.rs
    enrolment, signed requests, wallpapers and staged protection snapshots.
    Software updates (src/software_updates.rs), appliance updates
    (src/appliance.rs), provisioning (src/provisioning) and configuration
    parsing (src/config.rs) apart from what is named above. *)

From stdpp Require Import base gmap sets list strings pretty sorting relations.
From Stdlib Require Import ZArith Lia.

#[local] Open Scope Z_scope.

(** ** Rust's [Result] *)

Inductive result (E A : Type) : Type :=
| Ok (a : A)
| Err (e : E).
Arguments Ok {E A} a.
Arguments Err {E A} e.

Definition is_ok {E A} (r : result E A) : bool :=
  match r with Ok _ => true | Err _ => false end.

Definition ok {E A} (r : result E A) : option A :=
  match r with Ok a => Some a | Err _ => None end.

Definition ok_or {E A} (e : E) (o : option A) : result E A :=
  match o with Some a => Ok a | None => Err e end.

Definition rbind {E A B} (r : result E A) (f : A → result E B) : result E B :=
  match r with Ok a => f a | Err e => Err e end.

Lemma rbind_Ok {E A B} (r : result E A) (f : A → result E B) b :
  rbind r f = Ok b ↔ ∃ a, r = Ok a ∧ f a = Ok b.
Proof. destruct r; simpl; split; [eauto|by intros (? & [= <-] & ?)|done|by intros (? & ? & ?)]. Qed.

(** [ensure!(b, e)]. *)
Definition ensure {E} (b : bool) (e : E) : result E unit :=
  if b then Ok tt else Err e.

Declare Scope nest_scope.
Delimit Scope nest_scope with nest.
(** Rust's [let x = r?; k] on a pure [Result]. *)
Notation "x ≔ r ?; k" := (rbind r (λ x, k))
  (at level 100, r at next level, k at level 200, right associativity) : nest_scope.

(** ** Fixed-width integers

    A machine integer is a [Z]; the width only matters where the source
    saturates, wraps or converts, and these operations say how. *)

Definition u16_max : Z := 65535.
Definition u32_max : Z := 4294967295.
Definition u64_max : Z := 18446744073709551615.
Definition i64_max : Z := 9223372036854775807.
Definition i64_min : Z := -9223372036854775808.
Definition i32_max : Z := 2147483647.

Definition is_u64 (x : Z) : Prop := 0 ≤ x ≤ u64_max.
Definition is_i64 (x : Z) : Prop := i64_min ≤ x ≤ i64_max.

Definition sat_add (max x y : Z) : Z := Z.min max (x + y).
Definition sat_sub (x y : Z) : Z := Z.max 0 (x - y).
Definition sat_mul (max x y : Z) : Z := Z.min max (x * y).
Definition sat_add_i64 (x y : Z) : Z := Z.max i64_min (Z.min i64_max (x + y)).
Definition sat_sub_i64 (x y : Z) : Z := Z.max i64_min (Z.min i64_max (x - y)).

(** [value.clamp(lo, hi)] (the source only calls it with [lo ≤ hi]). *)
Definition clamp (lo hi x : Z) : Z := Z.max lo (Z.min hi x).

(** [(lo..=hi).contains(&x)]. *)
Definition in_range (lo hi x : Z) : bool := (lo <=? x) && (x <=? hi).

(** [u16::try_from], [u64::try_from], [i64::try_from]: [None] is the error. *)
Definition try_unsigned (max x : Z) : option Z :=
  if in_range 0 max x then Some x else None.
Definition try_i64 (x : Z) : option Z :=
  if in_range i64_min i64_max x then Some x else None.

(** ** Automation shared by the components *)

Create HintDb nest discriminated.

(** Case analysis on every boolean test and decision of the goal and the
    context, turning integer tests into the propositions they decide. *)
Ltac bool_prop :=
  repeat match goal with
  | H : _ && _ = true |- _ => apply andb_true_iff in H; destruct H
  | H : _ || _ = false |- _ => apply orb_false_iff in H; destruct H
  | H : negb _ = true |- _ => apply negb_true_iff in H
  | H : negb _ = false |- _ => apply negb_false_iff in H
  | H : (_ <? _) = true |- _ => apply Z.ltb_lt in H
  | H : (_ <? _) = false |- _ => apply Z.ltb_ge in H
  | H : (_ <=? _) = true |- _ => apply Z.leb_le in H
  | H : (_ <=? _) = false |- _ => apply Z.leb_gt in H
  | H : (_ =? _) = true |- _ => apply Z.eqb_eq in H
  | H : (_ =? _) = false |- _ => apply Z.eqb_neq in H
  | H : bool_decide _ = true |- _ => apply bool_decide_eq_true in H
  | H : bool_decide _ = false |- _ => apply bool_decide_eq_false in H
  | H : is_true _ |- _ => unfold is_true in H
  end.

Lemma in_range_true lo hi x : in_range lo hi x = true ↔ lo ≤ x ≤ hi.
Proof. unfold in_range. rewrite andb_true_iff, !Z.leb_le. lia. Qed.

Lemma try_unsigned_Some max x y :
  try_unsigned max x = Some y ↔ x = y ∧ 0 ≤ x ≤ max.
Proof.
  unfold try_unsigned. destruct (in_range 0 max x) eqn:E.
  - apply in_range_true in E. naive_solver.
  - split; [done|]. intros [-> ?]. apply not_true_iff_false in E.
    destruct E. by apply in_range_true.
Qed.

(** ** Lists and finite maps *)

(** [iter().filter(p).count()]. *)
Definition count {A} (p : A → bool) (l : list A) : nat :=
  length (List.filter p l).

Lemma count_app {A} (p : A → bool) l k : count p (l ++ k) = (count p l + count p k)%nat.
Proof. unfold count. by rewrite List.filter_app, length_app. Qed.

Lemma count_Permutation {A} (p : A → bool) l k : l ≡ₚ k → count p l = count p k.
Proof.
  unfold count. induction 1 as [|x l k _ IH|x y l|l k m _ IH1 _ IH2]; simpl; [done| | |lia].
  - by destruct (p x); simpl; rewrite IH.
  - by destruct (p x), (p y).
Qed.

Lemma count_le {A} (p : A → bool) l : (count p l ≤ length l)%nat.
Proof. unfold count. induction l as [|x l IH]; simpl; [done|]. case_match; simpl; lia. Qed.

(** Two tests that exclude each other count at most the whole list. *)
Lemma count_disjoint_le {A} (p q : A → bool) l :
  (∀ x, x ∈ l → p x = true → q x = false) → (count p l + count q l ≤ length l)%nat.
Proof.
  unfold count. induction l as [|x l IH]; intros Hpq; simpl; [done|].
  assert (length (List.filter p l) + length (List.filter q l) ≤ length l)%nat.
  { apply IH. intros y Hy. apply Hpq. by right. }
  pose proof (Hpq x (list_elem_of_here _ _)). repeat case_match; simpl; naive_solver lia.
Qed.

Definition sum_Z (l : list Z) : Z := foldr Z.add 0 l.

Lemma sum_Z_app l k : sum_Z (l ++ k) = sum_Z l + sum_Z k.
Proof. induction l as [|x l IH]; simpl; lia. Qed.

Lemma sum_Z_Permutation l k : l ≡ₚ k → sum_Z l = sum_Z k.
Proof. induction 1; simpl in *; lia. Qed.

(** ** Report pages *)

Section Page.
Context {A : Type} (cost : A → Z).

(** The rows a window function keeps: those within both bounds by their running
    position and total, and the first in any case. *)
Fixpoint within_page (position total max_items budget : Z) (l : list A) : list A :=
  match l with
  | [] => []
  | row :: l =>
      let total := total + cost row in
      let rest := within_page (position + 1) total max_items budget l in
      if (position =? 1) || ((position <=? max_items) && (total <=? budget))
      then row :: rest else rest
  end.

Hypothesis cost_nonneg : ∀ row, 0 ≤ cost row.

Lemma within_page_later p t m b l : 1 < p → b < t ∨ m < p → within_page p t m b l = [].
Proof.
  revert p t. induction l as [|row l IH]; intros p t Hp Hb; simpl; [done|].
  pose proof (cost_nonneg row). rewrite IH by lia. rewrite (proj2 (Z.eqb_neq p 1)) by lia. simpl.
  destruct (_ && _) eqn:Hc; [|done]. apply andb_true_iff in Hc as [?%Z.leb_le ?%Z.leb_le]. lia.
Qed.

(** A page is a prefix, within both bounds after its first row. *)
Lemma within_page_spec p t m b l :
  1 ≤ p → ∃ rest, l = within_page p t m b l ++ rest ∧
    (Z.of_nat (length (within_page p t m b l)) ≤ Z.max (m + 1 - p) (if p =? 1 then 1 else 0)) ∧
    (t + sum_Z (cost <$> within_page p t m b l) ≤ b ∨
     (length (within_page p t m b l) ≤ if (p =? 1)%Z then 1 else 0)%nat).
Proof.
  revert p t. induction l as [|row l IH]; intros p t Hp; simpl.
  { exists []. split_and!; [done|case_match; simpl; lia|right; case_match; simpl; lia]. }
  pose proof (cost_nonneg row) as He. destruct (_ || _) eqn:Hc.
  - destruct (IH (p + 1) (t + cost row)) as (rest & Hl & Hlen & Hsum); [lia|].
    rewrite (proj2 (Z.eqb_neq (p + 1) 1)) in Hlen, Hsum by lia. cbv match in Hlen, Hsum.
    exists rest. simpl. split_and!; [by f_equal| |].
    + destruct (p =? 1) eqn:Hp1; bool_prop; simpl in Hc; [lia|]. bool_prop. lia.
    + set (w := within_page (p + 1) (t + cost row) m b l) in *.
      change (list_fmap A Z cost w) with (cost <$> w).
      destruct Hsum as [Hsum|Hsum]; [left; lia|].
      assert (w = []) as Hw by (destruct w; simpl in *; [done|lia]). rewrite Hw. simpl.
      destruct (p =? 1) eqn:Hp1; bool_prop; simpl in Hc; [right; lia|]. bool_prop. left. lia.
  - apply orb_false_iff in Hc as [Hp1 Hc]. bool_prop. rewrite (proj2 (Z.eqb_neq p 1)) by done.
    rewrite within_page_later.
    + exists (row :: l). split_and!; [done|simpl; lia|right; simpl; lia].
    + lia.
    + apply andb_false_iff in Hc as [?|?]; bool_prop; lia.
Qed.

Lemma within_page_nonempty t m b l : l ≠ [] → within_page 1 t m b l ≠ [].
Proof. by destruct l. Qed.
End Page.

(** [BTreeMap]s and [HashMap]s are [gmap]s; the sum and the number of the
    entries that satisfy a test are folds over their contents. *)
Definition map_sum `{Countable K} {V} (f : V → Z) (m : gmap K V) : Z :=
  sum_Z ((f ∘ snd) <$> map_to_list m).

Lemma map_sum_empty `{Countable K} {V} (f : V → Z) :
  map_sum f (∅ : gmap K V) = 0.
Proof. unfold map_sum. by rewrite map_to_list_empty. Qed.

Lemma map_sum_insert_new `{Countable K} {V} (f : V → Z) (m : gmap K V) k v :
  m !! k = None → map_sum f (<[k:=v]> m) = f v + map_sum f m.
Proof.
  intros Hk. unfold map_sum.
  by rewrite (sum_Z_Permutation _ _ (fmap_Permutation _ _ _ (map_to_list_insert _ _ _ Hk))).
Qed.

Lemma map_sum_delete `{Countable K} {V} (f : V → Z) (m : gmap K V) k v :
  m !! k = Some v → map_sum f m = f v + map_sum f (delete k m).
Proof.
  intros Hk. rewrite <- (insert_delete_id m k v Hk) at 1.
  apply map_sum_insert_new, lookup_delete_eq.
Qed.

Lemma map_sum_nonneg `{Countable K} {V} (f : V → Z) (m : gmap K V) :
  (∀ k v, m !! k = Some v → 0 ≤ f v) → 0 ≤ map_sum f m.
Proof.
  induction m as [|k v m Hk Hfst IH] using map_first_key_ind; intros Hf.
  - by rewrite map_sum_empty.
  - rewrite map_sum_insert_new by done.
    pose proof (Hf k v (lookup_insert_eq _ _ _)).
    assert (0 ≤ map_sum f m); [|lia]. apply IH. intros k' v' Hk'. apply (Hf k').
    rewrite lookup_insert_ne; congruence.
Qed.

(** Replacing an entry changes the sum by the difference. *)
Lemma map_sum_insert `{Countable K} {V} (f : V → Z) (m : gmap K V) k v :
  map_sum f (<[k:=v]> m) = f v + map_sum f m - from_option f 0 (m !! k).
Proof.
  destruct (m !! k) as [u|] eqn:Hk; simpl.
  - rewrite (map_sum_delete f m k u Hk), <- insert_delete_eq.
    rewrite map_sum_insert_new by apply lookup_delete_eq. lia.
  - rewrite map_sum_insert_new by done. lia.
Qed.

Lemma map_sum_lookup_le `{Countable K} {V} (f : V → Z) (m : gmap K V) k :
  (∀ k v, m !! k = Some v → 0 ≤ f v) → from_option f 0 (m !! k) ≤ map_sum f m.
Proof.
  intros Hf. destruct (m !! k) as [u|] eqn:Hk; simpl; [|by apply map_sum_nonneg].
  rewrite (map_sum_delete f m k u Hk).
  assert (0 ≤ map_sum f (delete k m)); [|lia]. apply map_sum_nonneg.
  intros k' v' [_ Hv]%lookup_delete_Some. eauto.
Qed.

Lemma map_sum_filter_weak_le `{Countable K} {V} (f : V → Z)
    (P : K * V → Prop) `{!∀ x, Decision (P x)} (m : gmap K V) :
  (∀ k v, m !! k = Some v → 0 ≤ f v) → map_sum f (filter P m) ≤ map_sum f m.
Proof.
  induction m as [|k v m Hk Hfst IH] using map_first_key_ind; intros Hf.
  - by rewrite map_filter_empty.
  - rewrite map_sum_insert_new by done.
    assert (map_sum f (filter P m) ≤ map_sum f m) as IH'.
    { apply IH. intros k' v' Hk'. apply (Hf k'). rewrite lookup_insert_ne; congruence. }
    destruct (decide (P (k, v))).
    + rewrite map_filter_insert_True, map_sum_insert_new; [lia| |done].
      apply map_lookup_filter_None; auto.
    + rewrite map_filter_insert_False by done.
      rewrite delete_id by done.
      specialize (Hf k v (lookup_insert_eq _ _ _)). lia.
Qed.

Lemma map_size_filter_le `{Countable K} {V}
    (P : K * V → Prop) `{!∀ x, Decision (P x)} (m : gmap K V) :
  (size (filter P m) ≤ size m)%nat.
Proof. apply map_subseteq_size, map_filter_subseteq. Qed.

#[export] Hint Resolve map_size_filter_le : nest.
