(* ===== verification/Async.v ===== *)
(** * Asynchronous handlers and their interleavings

    Nest is a set of Tokio tasks over shared state: the coordinator behind a
    mutex, the SQLite database, the state files.  Between two [await]s a task
    runs atomically, so a handler is modelled as a tree of atomic actions
    ([Step]) on the shared world, with [tokio::spawn] as [Spawn].  An action
    reads the outside world (clocks, random identifiers, whether a database
    statement fails, what a child process did) from an [input], over which all
    the theorems quantify.

    Two semantics are given to a handler: [run], the handler alone, and
    [pstep], any number of handlers interleaved at every action.  [safe] is the
    rely/guarantee predicate that connects them: a handler that is [safe] for
    an invariant [I] and an evolution preorder [G] preserves [I] and only
    evolves the world along [G], whatever else runs ([pool_invariant]).  *)

From stdpp Require Import base gmap list strings relations.
From Stdlib Require Import ZArith Lia.
From S2P Require Import Prelude.

Section Prog.
Context {In W : Type}.

Inductive prog (A : Type) : Type :=
| Ret (a : A)
| Step (B : Type) (act : In → W → B * W) (k : B → prog A)
| Spawn (task : prog unit) (k : prog A).

End Prog.

Arguments prog : clear implicits.
Arguments Ret {In W A} a.
Arguments Step {In W A B} act k.
Arguments Spawn {In W A} task k.

Section Semantics.
Context {In W : Type}.

#[global] Instance prog_ret : MRet (prog In W) := λ A a, Ret a.

#[global] Instance prog_bind : MBind (prog In W) :=
  λ A B (f : A → prog In W B),
  fix go (p : prog In W A) : prog In W B :=
    match p with
    | Ret a => f a
    | Step act k => Step act (λ b, go (k b))
    | Spawn t k => Spawn t (go k)
    end.

(** One atomic action, and its two common forms: reading from the input
    without touching the world, and a section that always succeeds. *)
Definition atomic {B} (act : In → W → B * W) : prog In W B := Step act Ret.
Definition read_input {B} (f : In → B) : prog In W B := atomic (λ i w, (f i, w)).
Definition section {B} (f : W → B * W) : prog In W B := atomic (λ _ w, f w).
Definition spawn (task : prog In W unit) : prog In W unit := Spawn task (Ret tt).

(** The handler alone: input [n] of [env] feeds its [n]-th action. *)
Fixpoint run {A : Type} (env : nat → In) (n : nat) (p : prog In W A) (w : W)
    : A * W * nat :=
  match p with
  | Ret a => (a, w, n)
  | Step act k =>
      let '(b, w') := act (env n) w in run env (S n) (k b) w'
  | Spawn _ k => run env n k w
  end.

(** The tasks a handler alone has spawned when it returns. *)
Fixpoint spawned {A : Type} (env : nat → In) (n : nat) (p : prog In W A) (w : W)
    : list (prog In W unit) :=
  match p with
  | Ret _ => []
  | Step act k =>
      let '(b, w') := act (env n) w in spawned env (S n) (k b) w'
  | Spawn t k => t :: spawned env n k w
  end.

(** Interleaving: a pool of tasks, [entry] the handlers that may start.  A task
    leaves the pool when it has returned or when its future is dropped (a
    client that disconnects), which can happen between any two actions. *)
Inductive pstep (entry : prog In W unit → Prop)
    : list (prog In W unit) * W → list (prog In W unit) * W → Prop :=
| pstep_arrive ts w p :
    entry p → pstep entry (ts, w) (ts ++ [p], w)
| pstep_act l r B (act : In → W → B * W) k i w :
    pstep entry (l ++ Step act k :: r, w)
                (l ++ k (act i w).1 :: r, (act i w).2)
| pstep_spawn l r t k w :
    pstep entry (l ++ Spawn t k :: r, w) (l ++ k :: r ++ [t], w)
| pstep_drop l r p w :
    pstep entry (l ++ p :: r, w) (l ++ r, w).

(** [safe I G p Q w0]: started when the world was [w0], whatever the others do
    along [G] while keeping [I], [p] keeps [I], evolves the world along [G] and
    returns [a] with [Q a w] for the world [w] of its last action. *)
Fixpoint safe (I : W → Prop) (G : relation W) {A : Type} (p : prog In W A)
    : (A → W → Prop) → W → Prop :=
  match p with
  | Ret a => λ Q w0, Q a w0
  | Step act k => λ Q w0, ∀ i w, I w → G w0 w →
      I (act i w).2 ∧ G w (act i w).2 ∧
      safe I G (k (act i w).1) Q (act i w).2
  | Spawn t k => λ Q w0,
      safe I G t (λ _ _, True) w0 ∧ safe I G k Q w0
  end.

Lemma run_bind {A B} (f : A → prog In W B) (p : prog In W A) env n w :
  run env n (p ≫= f) w =
  let '(a, w1, n1) := run env n p w in run env n1 (f a) w1.
Proof.
  revert n w. induction p as [A a|A X act k IH|A t _ k IH]; intros n w; simpl.
  - done.
  - destruct (act (env n) w) as [b w']. apply IH.
  - apply IH.
Qed.

Section Rules.
Context (I : W → Prop) (G : relation W) `{!PreOrder G}.

Lemma safe_mono {A} (p : prog In W A) (Q Q' : A → W → Prop) w0 :
  (∀ a w, Q a w → Q' a w) → safe I G p Q w0 → safe I G p Q' w0.
Proof.
  intros HQ. revert w0.
  induction p as [A a|A X act k IH|A t _ k IH]; intros w0; simpl; eauto.
  - intros H i w HI HG. destruct (H i w HI HG) as (?&?&?). eauto.
  - intros [??]. eauto.
Qed.

Lemma safe_bind {A B} (f : A → prog In W B) (p : prog In W A) Q w0 :
  safe I G p (λ a w, safe I G (f a) Q w) w0 → safe I G (p ≫= f) Q w0.
Proof.
  revert w0. induction p as [A a|A X act k IH|A t _ k IH]; intros w0; simpl.
  - done.
  - intros H i w HI HG. destruct (H i w HI HG) as (?&?&?). eauto.
  - intros [??]. eauto.
Qed.

(** The rules for proofs about handlers: what [p] guarantees is available to
    its continuation, with the invariant at the world it is started in. *)
Lemma safe_keep {A} (p : prog In W A) (Q : A → W → Prop) w0 :
  I w0 → safe I G p Q w0 → safe I G p (λ a w, I w ∧ G w0 w ∧ Q a w) w0.
Proof.
  revert w0. induction p as [A a|A X act k IH|A t _ k IH]; intros w0 HI; simpl.
  - intros HQ. split_and!; done.
  - intros H i w HIw HG. destruct (H i w HIw HG) as (HI'&HG'&Hs).
    split_and!; [done|done|]. eapply safe_mono; [|by apply IH].
    intros a w' (?&?&?). split_and!; [done| |done]. etrans; [done|]. by etrans.
  - intros [??]. eauto.
Qed.

Lemma safe_seq {A B} (f : A → prog In W B) (p : prog In W A) Q Q' w0 :
  I w0 → safe I G p Q w0 →
  (∀ a w, I w → G w0 w → Q a w → safe I G (f a) Q' w) →
  safe I G (p ≫= f) Q' w0.
Proof.
  intros HI Hp Hf. apply safe_bind. eapply safe_mono; [|by apply safe_keep].
  intros a w (?&?&?). by apply Hf.
Qed.

Lemma safe_atomic {B} (act : In → W → B * W) (Q : B → W → Prop) w0 :
  (∀ i w, I w → G w0 w →
     I (act i w).2 ∧ G w (act i w).2 ∧ Q (act i w).1 (act i w).2) →
  safe I G (atomic act) Q w0.
Proof. done. Qed.

Lemma safe_read {B} (f : In → B) (Q : B → W → Prop) w0 :
  (∀ i w, Q (f i) w) → safe I G (read_input f) Q w0.
Proof. intros H. apply safe_atomic. intros i w ? ?. split_and!; [done|reflexivity|apply H]. Qed.

Lemma safe_section {B} (f : W → B * W) (Q : B → W → Prop) w0 :
  (∀ w, I w → G w0 w → I (f w).2 ∧ G w (f w).2 ∧ Q (f w).1 (f w).2) →
  safe I G (section f) Q w0.
Proof. intros H. apply safe_atomic. intros _ w. apply H. Qed.

Lemma safe_spawn (t : prog In W unit) (Q : unit → W → Prop) w0 :
  safe I G t (λ _ _, True) w0 → Q tt w0 → safe I G (spawn t) Q w0.
Proof. done. Qed.

Lemma safe_run {A} (p : prog In W A) Q env n w :
  I w → safe I G p Q w →
  let '(a, w', _) := run env n p w in I w' ∧ G w w' ∧ Q a w'.
Proof.
  revert n w. induction p as [A a|A X act k IH|A t _ k IH]; intros n w HI; simpl.
  - intros HQ. split_and!; done.
  - intros H. destruct (H (env n) w HI (reflexivity w)) as (HI'&HG&Hs).
    specialize (IH _ Q (S n) _ HI' Hs).
    destruct (act (env n) w) as [b w']; simpl in *.
    destruct (run env (S n) (k b) w') as [[a w''] m].
    destruct IH as (?&?&?). split_and!; [done| |done]. by etrans.
  - intros [_ Hs]. by apply IH.
Qed.

(** The tasks of a pool are each safe since some past world. *)
Definition pool_ok (ts : list (prog In W unit)) (w : W) : Prop :=
  I w ∧ Forall (λ p : prog In W unit, ∃ w0, G w0 w ∧ safe I G p (λ _ _, True) w0) ts.

Lemma pool_ok_evolve ts w w' :
  G w w' → Forall (λ p : prog In W unit, ∃ w0, G w0 w ∧ safe I G p (λ _ _, True) w0) ts →
  Forall (λ p : prog In W unit, ∃ w0, G w0 w' ∧ safe I G p (λ _ _, True) w0) ts.
Proof.
  intros HG Hts. apply (Forall_impl _ _ _ Hts). intros p (w0&?&?). exists w0. split; [by etrans|done].
Qed.

Lemma pool_ok_step (entry : prog In W unit → Prop) ts w ts' w' :
  (∀ p w0, entry p → I w0 → safe I G p (λ _ _, True) w0) →
  pstep entry (ts, w) (ts', w') → pool_ok ts w → pool_ok ts' w' ∧ G w w'.
Proof.
  intros Hentry Hstep [HI Hall].
  inversion Hstep as [? ? p Hp|l r B act k i ?|l r t k ?|l r p ?]; subst; clear Hstep;
    try (apply Forall_app in Hall as [Hl Hr]; apply Forall_cons in Hr as [(w0&HG&Hs) Hr]).
  - split; [split; [done|]|reflexivity]. apply Forall_app. split; [done|].
    constructor; [|done]. exists w'. split; [reflexivity|auto].
  - destruct (Hs i w HI HG) as (HI'&HG'&Hs'). split; [split; [done|]|done].
    apply Forall_app. split; [eauto using pool_ok_evolve|].
    constructor; [|eauto using pool_ok_evolve]. eexists. split; [reflexivity|done].
  - destruct Hs as [Ht Hk]. split; [split; [done|]|reflexivity].
    apply Forall_app. split; [done|].
    constructor; [eauto|]. apply Forall_app. split; [done|]. constructor; eauto.
  - split; [split; [done|]|reflexivity]. apply Forall_app. done.
Qed.

(** The metatheorem: every interleaving of safe handlers keeps [I] and evolves
    along [G]. *)
Lemma pool_invariant (entry : prog In W unit → Prop) ts w ts' w' :
  (∀ p w0, entry p → I w0 → safe I G p (λ _ _, True) w0) →
  rtc (pstep entry) (ts, w) (ts', w') → pool_ok ts w → pool_ok ts' w' ∧ G w w'.
Proof.
  intros Hentry Hrtc. remember (ts, w) as c eqn:Ec. remember (ts', w') as c' eqn:Ec'.
  revert ts w ts' w' Ec Ec'.
  induction Hrtc as [[ts0 w0]|[ts0 w0] [ts1 w1] [ts2 w2] Hstep _ IH];
    intros ts w ts' w' ? ? Hok; simplify_eq.
  - split; [done|reflexivity].
  - destruct (pool_ok_step _ _ _ _ _ Hentry Hstep Hok) as [Hok1 HG1].
    destruct (IH _ _ _ _ eq_refl eq_refl Hok1) as [? ?]. split; [done|by etrans].
Qed.

Lemma pool_invariant_empty (entry : prog In W unit → Prop) w ts' w' :
  (∀ p w0, entry p → I w0 → safe I G p (λ _ _, True) w0) →
  rtc (pstep entry) ([], w) (ts', w') → I w → I w' ∧ G w w'.
Proof.
  intros Hentry Hrtc HI.
  destruct (pool_invariant _ _ _ _ _ Hentry Hrtc (conj HI (Forall_nil_2 _)))
    as [[? _] ?]. done.
Qed.

End Rules.

(** ** What one handler saw

    [returns I G p w0 seen a w]: started in [w0], among others that keep [I] and evolve the
    world along [G], [p] returned [a] in [w]; [seen] are the worlds right after each of its
    own actions, in order. *)
Inductive returns (I : W → Prop) (G : relation W) {A : Type} : prog In W A → W → list W → A → W → Prop :=
| returns_ret a w : returns I G (Ret a) w [] a w
| returns_step B (act : In → W → B * W) k i w0 w seen a w' :
    I w → G w0 w → returns I G (k (act i w).1) (act i w).2 seen a w' →
    returns I G (Step act k) w0 ((act i w).2 :: seen) a w'
| returns_spawn t k w0 seen a w :
    returns I G k w0 seen a w → returns I G (Spawn t k) w0 seen a w.

Section Returns.
Context (I : W → Prop) (G : relation W).

Lemma returns_step_inv {A B} (act : In → W → B * W) (k : B → prog In W A) w0 seen a w' :
  returns I G (Step act k) w0 seen a w' →
  ∃ i w rest, I w ∧ G w0 w ∧ seen = (act i w).2 :: rest ∧ returns I G (k (act i w).1) (act i w).2 rest a w'.
Proof.
  intros H. refine (match H in returns _ _ p w0 seen a w' return
    match p with Step act k => ∃ i w rest, I w ∧ G w0 w ∧ seen = (act i w).2 :: rest ∧
        returns I G (k (act i w).1) (act i w).2 rest a w' | _ => True end with
    | returns_step _ _ _ _ _ _ _ _ _ _ _ _ _ _ => _ | _ => Logic.I end). eauto 10.
Qed.
Lemma returns_spawn_inv {A} t (k : prog In W A) w0 seen a w :
  returns I G (Spawn t k) w0 seen a w → returns I G k w0 seen a w.
Proof. by inversion 1. Qed.
Lemma returns_ret_inv {A} (x : A) w0 seen a w : returns I G (Ret x) w0 seen a w → a = x ∧ w = w0 ∧ seen = [].
Proof. by inversion 1. Qed.

Lemma returns_bind {A B} (f : A → prog In W B) (p : prog In W A) w0 seen b w :
  returns I G (p ≫= f) w0 seen b w →
  ∃ before a w1 after, returns I G p w0 before a w1 ∧ returns I G (f a) w1 after b w ∧ seen = before ++ after.
Proof.
  revert w0 seen. induction p as [A a|A X act k IH|A t _ k IH]; intros w0 seen H; simpl in H.
  - exists [], a, w0, seen. split_and!; [constructor|done|done].
  - apply returns_step_inv in H as (i & w1 & rest & HI & HG & -> & H).
    apply IH in H as (before & a & w2 & after & H1 & H2 & ->).
    eexists (_ :: before), a, w2, after. split_and!; [by constructor|done|done].
  - apply returns_spawn_inv, IH in H as (before & a & w2 & after & H1 & H2 & ->).
    exists before, a, w2, after. split_and!; [by constructor|done|done].
Qed.

(** A handler that is safe returns with its postcondition. *)
Lemma safe_returns {A} (p : prog In W A) Q w0 seen a w :
  safe I G p Q w0 → returns I G p w0 seen a w → Q a w.
Proof.
  intros Hs H. induction H as [a w|B act k i w0 w seen a w' HI HG H IH|t k w0 seen a w H IH]; simpl in Hs.
  - done.
  - apply IH. by destruct (Hs i w HI HG) as (_ & _ & ?).
  - apply IH. by destruct Hs.
Qed.
End Returns.

(** A task that runs alone is one of the interleavings. *)
Lemma run_psteps {A} (entry : prog In W unit → Prop) l r (p : prog In W A) env n w :
  ∃ ts, rtc (pstep entry) (l ++ (p ≫= λ _, Ret tt) :: r, w) (l ++ Ret tt :: r ++ ts, (run env n p w).1.2).
Proof.
  revert r n w. induction p as [A a|A X act k IH|A t _ k IH]; intros r n w; simpl.
  - exists []. rewrite app_nil_r. apply rtc_refl.
  - destruct (act (env n) w) as [b w'] eqn:E. destruct (IH b r (S n) w') as [ts Hts]. exists ts.
    eapply rtc_l; [apply (pstep_act entry l r X act _ (env n))|]. rewrite E. exact Hts.
  - destruct (IH (r ++ [t]) n w) as [ts Hts]. exists (t :: ts).
    eapply rtc_l; [apply pstep_spawn|]. by rewrite <-app_assoc in Hts.
Qed.

(** A task that arrives and runs alone. *)
Lemma run_arrived {A} (entry : prog In W unit → Prop) ts (p : prog In W A) env n w :
  entry (p ≫= λ _, Ret tt) → ∃ ts', rtc (pstep entry) (ts, w) (ts', (run env n p w).1.2).
Proof.
  intros Hp. destruct (run_psteps entry ts [] p env n w) as [ts' H]. eexists.
  eapply rtc_l; [by apply pstep_arrive|exact H].
Qed.

End Semantics.

(** ** Parts of a world

    A handler of one component is also a handler of a larger system of which the
    component's world and inputs are parts. *)

Section Embedding.
Context {In W In' W' : Type} (input : In' → In) (get : W' → W) (put : W → W' → W').

Fixpoint embed {A : Type} (p : prog In W A) : prog In' W' A :=
  match p with
  | Ret a => Ret a
  | Step act k => Step (λ i w, let '(b, v) := act (input i) (get w) in (b, put v w)) (λ b, embed (k b))
  | Spawn t k => Spawn (embed t) (embed k)
  end.

(** What is safe for the part is safe for the whole, when the whole asks no more of
    a change of the part than the part guarantees. *)
Lemma safe_embed (I : W → Prop) (G : relation W) (I' : W' → Prop) (G' : relation W')
    {A} (p : prog In W A) (Q : A → W → Prop) w0 :
  (∀ v w, get (put v w) = v) →
  (∀ w, I' w → I (get w)) → (∀ w w', G' w w' → G (get w) (get w')) →
  (∀ v w, I' w → I v → G (get w) v → I' (put v w) ∧ G' w (put v w)) →
  safe I G p Q (get w0) → safe I' G' (embed p) (λ a w, Q a (get w)) w0.
Proof.
  intros Hget HI HG Hput. revert w0. induction p as [A a|A X act k IH|A t IHt k IH]; intros w0; simpl.
  - done.
  - intros H i w Hw Hg. destruct (H (input i) (get w) (HI w Hw) (HG _ _ Hg)) as (H1 & H2 & H3).
    destruct (act (input i) (get w)) as [b v]. simpl in *. destruct (Hput v w Hw H1 H2).
    split_and!; [done|done|]. apply IH. by rewrite Hget.
  - intros [Ht Hk]. split; [|by apply IH]. eapply (IHt (λ _ _, True)). exact Ht.
Qed.
End Embedding.

(** ** Fallible handlers

    [anyhow::Result] and [AppResult] handlers return a [result].  A database
    statement is one atomic action that either fails, leaving the database as
    it was, or takes effect; SQLite guarantees this for a statement and for a
    transaction.  [fault] is the input's answer to which of the two happens. *)

Class Faulty (In E : Type) := {
  fault : In → bool;
  db_error : E;
}.

Section Fallible.
Context {In W E : Type} `{!Faulty In E}.

Definition try_bind {A B} (p : prog In W (result E A))
    (f : A → prog In W (result E B)) : prog In W (result E B) :=
  p ≫= λ r, match r with Ok a => f a | Err e => Ret (Err e) end.

Definition query {B} (f : W → B * W) : prog In W (result E B) :=
  atomic (λ i w, if fault i then (Err db_error, w)
                 else let '(b, w') := f w in (Ok b, w')).

(** A statement whose outcome depends on the input (a fresh identifier) or may
    be refused by a constraint: the refusal leaves the database unchanged. *)
Definition checked_query {B} (f : In → W → option (B * W)) : prog In W (result E B) :=
  atomic (λ i w, if fault i then (Err db_error, w)
                 else match f i w with
                      | Some (b, w') => (Ok b, w')
                      | None => (Err db_error, w)
                      end).

Lemma run_try_bind {A B} (p : prog In W (result E A)) (f : A → prog In W (result E B))
    env n w :
  run env n (try_bind p f) w =
  let '(r, w1, n1) := run env n p w in
  match r with Ok a => run env n1 (f a) w1 | Err e => (Err e, w1, n1) end.
Proof.
  unfold try_bind. rewrite run_bind. by destruct (run env n p w) as [[[a|e] w1] n1].
Qed.

Lemma safe_try_bind (I : W → Prop) (G : relation W) {A B}
    (p : prog In W (result E A)) (f : A → prog In W (result E B)) Q w0 :
  safe I G p (λ r w, match r with
                     | Ok a => safe I G (f a) Q w
                     | Err e => Q (Err e) w
                     end) w0 →
  safe I G (try_bind p f) Q w0.
Proof.
  intros H. unfold try_bind. apply safe_bind. eapply safe_mono; [|exact H].
  intros [a|e] w; done.
Qed.

Lemma safe_try_seq (I : W → Prop) (G : relation W) `{!PreOrder G} {A B}
    (p : prog In W (result E A)) (f : A → prog In W (result E B)) Q
    (Q' : result E B → W → Prop) w0 :
  I w0 → safe I G p Q w0 →
  (∀ a w, I w → G w0 w → Q (Ok a) w → safe I G (f a) Q' w) →
  (∀ e w, I w → G w0 w → Q (Err e) w → Q' (Err e) w) →
  safe I G (try_bind p f) Q' w0.
Proof.
  intros HI Hp Hok Herr. unfold try_bind. eapply safe_seq; [done..|].
  intros [a|e] w HIw HG HQ; [by apply Hok|by apply Herr].
Qed.

Lemma safe_query (I : W → Prop) (G : relation W) `{!PreOrder G} {B}
    (f : W → B * W) (Q : result E B → W → Prop) w0 :
  (∀ w, I w → G w0 w → Q (Err db_error) w) →
  (∀ w, I w → G w0 w → I (f w).2 ∧ G w (f w).2 ∧ Q (Ok (f w).1) (f w).2) →
  safe I G (query f) Q w0.
Proof.
  intros Herr Hok. apply safe_atomic. intros i w HI HG. destruct (fault i).
  - split_and!; [done|reflexivity|by apply Herr].
  - specialize (Hok w HI HG). by destruct (f w).
Qed.

Lemma safe_checked_query (I : W → Prop) (G : relation W) `{!PreOrder G} {B}
    (f : In → W → option (B * W)) (Q : result E B → W → Prop) w0 :
  (∀ w, I w → G w0 w → Q (Err db_error) w) →
  (∀ i w b w', I w → G w0 w → f i w = Some (b, w') →
     I w' ∧ G w w' ∧ Q (Ok b) w') →
  safe I G (checked_query f) Q w0.
Proof.
  intros Herr Hok. apply safe_atomic. intros i w HI HG. destruct (fault i).
  - split_and!; [done|reflexivity|by apply Herr].
  - destruct (f i w) as [[b w']|] eqn:E'; [by eapply Hok|].
    split_and!; [done|reflexivity|by apply Herr].
Qed.

End Fallible.

Notation "x ←? p ; k" := (try_bind p (λ x, k))
  (at level 20, p at level 100, k at level 200) : nest_scope.
Notation "p ;;? k" := (try_bind p (λ _, k))
  (at level 100, k at level 200, right associativity) : nest_scope.

(** ** Interleaving with ownership

    [safe] lets every task rely on the same evolution of the world.  Where tasks
    take things from a shared pool and only the taker may give them back, a task also
    has to know that what it took is still its own.  [owned] is [safe] with a list of
    what the task holds: an action may rely on it, must leave what the others hold, and
    says what the task holds afterwards.  [owned_pool_invariant] is the metatheorem. *)

Section Ownership.
Context {In W K : Type} (I : W → Prop) (G : relation W) (res : W → list K) `{!PreOrder G}.

(** [res w] is everything that is held in [w]; [r] is what the others hold. *)
Fixpoint owned {A : Type} (p : prog In W A) : list K → (A → list K → W → Prop) → W → Prop :=
  match p with
  | Ret a => λ o Q w0, Q a o w0
  | Step act k => λ o Q w0, ∀ i w r, I w → G w0 w → res w ≡ₚ o ++ r →
      I (act i w).2 ∧ G w (act i w).2 ∧
      ∃ o', res (act i w).2 ≡ₚ o' ++ r ∧ owned (k (act i w).1) o' Q (act i w).2
  | Spawn t k => λ o Q w0, owned t [] (λ _ _ _, True) w0 ∧ owned k o Q w0
  end.

Lemma owned_mono {A} (p : prog In W A) (o : list K) (Q Q' : A → list K → W → Prop) w0 :
  (∀ a o w, Q a o w → Q' a o w) → owned p o Q w0 → owned p o Q' w0.
Proof.
  intros HQ. revert o w0. induction p as [A a|A X act k IH|A t _ k IH]; intros o w0; simpl; eauto.
  - intros H i w r HI HG Hr. destruct (H i w r HI HG Hr) as (? & ? & o' & ? & ?). eauto 8.
  - intros [? ?]. eauto.
Qed.

Lemma owned_bind {A B} (f : A → prog In W B) (p : prog In W A) o Q w0 :
  owned p o (λ a o w, owned (f a) o Q w) w0 → owned (p ≫= f) o Q w0.
Proof.
  revert o w0. induction p as [A a|A X act k IH|A t _ k IH]; intros o w0; simpl.
  - done.
  - intros H i w r HI HG Hr. destruct (H i w r HI HG Hr) as (? & ? & o' & ? & ?). eauto 8.
  - intros [? ?]. eauto.
Qed.

(** What the task guarantees is available to its continuation. *)
Lemma owned_keep {A} (p : prog In W A) o (Q : A → list K → W → Prop) w0 :
  I w0 → owned p o Q w0 → owned p o (λ a o w, I w ∧ G w0 w ∧ Q a o w) w0.
Proof.
  revert o w0. induction p as [A a|A X act k IH|A t _ k IH]; intros o w0 HI; simpl.
  - intros HQ. split_and!; done.
  - intros H i w r HIw HG Hr. destruct (H i w r HIw HG Hr) as (HI' & HG' & o' & Hr' & Ho).
    split_and!; [done|done|]. exists o'. split; [done|]. eapply owned_mono; [|by apply IH].
    intros a o2 w' (? & ? & ?). split_and!; [done| |done]. etrans; [done|]. by etrans.
  - intros [? ?]. eauto.
Qed.

Lemma owned_seq {A B} (f : A → prog In W B) (p : prog In W A) o Q Q' w0 :
  I w0 → owned p o Q w0 →
  (∀ a o w, I w → G w0 w → Q a o w → owned (f a) o Q' w) → owned (p ≫= f) o Q' w0.
Proof.
  intros HI Hp Hf. apply owned_bind. eapply owned_mono; [|by apply owned_keep].
  intros a o' w (? & ? & ?). by apply Hf.
Qed.

(** One action. *)
Lemma owned_atomic {B} (act : In → W → B * W) o (Q : B → list K → W → Prop) w0 :
  (∀ i w r, I w → G w0 w → res w ≡ₚ o ++ r →
     I (act i w).2 ∧ G w (act i w).2 ∧
     ∃ o', res (act i w).2 ≡ₚ o' ++ r ∧ Q (act i w).1 o' (act i w).2) →
  owned (atomic act) o Q w0.
Proof. done. Qed.

(** An action that only reads. *)
Lemma owned_read {B} (f : In → B) o (Q : B → list K → W → Prop) w0 :
  (∀ i w, I w → G w0 w → Q (f i) o w) → owned (read_input f) o Q w0.
Proof.
  intros H. apply owned_atomic. intros i w r HI HG Hr. cbn. split_and!; [done|reflexivity|].
  exists o. auto.
Qed.

(** What a task does not need stays with it. *)
Lemma owned_frame {A} (p : prog In W A) o x (Q : A → list K → W → Prop) w0 :
  owned p o Q w0 → owned p (o ++ x) (λ a o' w, ∃ o'', o' = o'' ++ x ∧ Q a o'' w) w0.
Proof.
  revert o w0. induction p as [A a|A X act k IH|A t _ k IH]; intros o w0; simpl.
  - eauto.
  - intros H i w r HI HG Hr. destruct (H i w (x ++ r) HI HG) as (? & ? & o' & Hr' & Ho).
    { by rewrite Hr, <- app_assoc. }
    split_and!; [done|done|]. exists (o' ++ x). split; [by rewrite <- app_assoc|by apply IH].
  - intros [? ?]. eauto.
Qed.

(** A task that runs alone. *)
Lemma owned_run {A} (p : prog In W A) o r Q env n w :
  I w → res w ≡ₚ o ++ r → owned p o Q w →
  ∃ a w' m, run env n p w = (a, w', m) ∧ I w' ∧ G w w' ∧ ∃ o', res w' ≡ₚ o' ++ r ∧ Q a o' w'.
Proof.
  revert o n w. induction p as [A a|A X act k IH|A t _ k IH]; intros o n w Hw Hr Ho; simpl.
  - exists a, w, n. split_and!; [done|done|reflexivity|]. eauto.
  - destruct (Ho (env n) w r Hw (reflexivity w) Hr) as (Hw' & HG & o' & Hr' & Ho').
    destruct (act (env n) w) as [b w']. simpl in *.
    destruct (IH b Q o' (S n) w' Hw' Hr' Ho') as (a & w2 & m & -> & ? & ? & ?).
    exists a, w2, m. split_and!; [done|done|by etrans|done].
  - destruct Ho as [_ Hk]. by eapply IH.
Qed.

(** ** Pools *)

(** Every task owns its part, what dropped tasks held is lost. *)
Definition owned_pool (ts : list (prog In W unit)) (w : W) : Prop :=
  I w ∧ ∃ os lost,
    Forall2 (λ (p : prog In W unit) o, ∃ w0, G w0 w ∧ owned p o (λ _ _ _, True) w0) ts os ∧
    res w ≡ₚ concat os ++ lost.

Lemma owned_parts_evolve ts os w w' :
  G w w' →
  Forall2 (λ (p : prog In W unit) o, ∃ w0, G w0 w ∧ owned p o (λ _ _ _, True) w0) ts os →
  Forall2 (λ (p : prog In W unit) o, ∃ w0, G w0 w' ∧ owned p o (λ _ _ _, True) w0) ts os.
Proof.
  intros HG H. eapply Forall2_impl; [exact H|]. intros p o (w0 & ? & ?). exists w0. split; [by etrans|done].
Qed.

Lemma owned_pool_step (entry : prog In W unit → Prop) ts w ts' w' :
  (∀ p w0, entry p → I w0 → owned p [] (λ _ _ _, True) w0) →
  pstep entry (ts, w) (ts', w') → owned_pool ts w → owned_pool ts' w' ∧ G w w'.
Proof.
  intros Hentry Hstep (HI & os & lost & Hall & Hres).
  inversion Hstep as [? ? p Hp|l r B act k i ?|l r t k ?|l r p ?]; subst; clear Hstep;
    try (apply Forall2_app_inv_l in Hall as (osl & osr' & Hl & Hr & ->);
         apply Forall2_cons_inv_l in Hr as (o & osr & (w0 & HG & Ho) & Hr & ->);
         rewrite concat_app in Hres; simpl in Hres).
  - split; [|reflexivity]. split; [done|]. exists (os ++ [[]]), lost. split.
    + apply Forall2_app; [done|]. constructor; [|done]. exists w'. split; [reflexivity|auto].
    + by rewrite concat_app, app_nil_r.
  - destruct (Ho i w (concat osl ++ concat osr ++ lost) HI HG) as (HI' & HG' & o' & Hres' & Ho').
    { rewrite Hres. solve_Permutation. }
    split; [|done]. split; [done|]. exists (osl ++ o' :: osr), lost. split.
    + apply Forall2_app; [by eapply owned_parts_evolve|]. constructor; [|by eapply owned_parts_evolve].
      eexists. split; [reflexivity|done].
    + rewrite Hres', concat_app. simpl. solve_Permutation.
  - destruct Ho as [Ht Hk]. split; [|reflexivity]. split; [done|]. exists (osl ++ o :: osr ++ [[]]), lost. split.
    + apply Forall2_app; [done|]. constructor; [eauto|]. apply Forall2_app; [done|]. constructor; eauto.
    + rewrite Hres, !concat_app. simpl. rewrite !concat_app, app_nil_r. solve_Permutation.
  - split; [|reflexivity]. split; [done|]. exists (osl ++ osr), (o ++ lost). split; [by apply Forall2_app|].
    rewrite Hres, concat_app. solve_Permutation.
Qed.

(** Every interleaving of owning tasks keeps [I] and evolves along [G]. *)
Lemma owned_pool_invariant (entry : prog In W unit → Prop) ts w ts' w' :
  (∀ p w0, entry p → I w0 → owned p [] (λ _ _ _, True) w0) →
  rtc (pstep entry) (ts, w) (ts', w') → owned_pool ts w → owned_pool ts' w' ∧ G w w'.
Proof.
  intros Hentry Hrtc. remember (ts, w) as c eqn:Ec. remember (ts', w') as c' eqn:Ec'.
  revert ts w ts' w' Ec Ec'.
  induction Hrtc as [[ts0 w0]|[ts0 w0] [ts1 w1] [ts2 w2] Hstep _ IH];
    intros ts w ts' w' ? ? Hok; simplify_eq.
  - split; [done|reflexivity].
  - destruct (owned_pool_step _ _ _ _ _ Hentry Hstep Hok) as [Hok1 HG1].
    destruct (IH _ _ _ _ eq_refl eq_refl Hok1) as [? ?]. split; [done|by etrans].
Qed.

End Ownership.
