(* ===== verification/RustStr.v ===== *)
(** * Rust strings

    A Rust [str] is a sequence of bytes that is valid UTF-8; it is modelled by
    Rocq's [string], whose characters are bytes.  The operations below are the
    ones the sources call on [str], [String], [u8] and [char].  Where Rust
    looks at characters (trimming Unicode white space, [is_control],
    [chars().take(n)]) the model groups the bytes of a character: a byte that is
    not a UTF-8 continuation byte starts a new one. *)

From stdpp Require Import base list strings pretty.
From Stdlib Require Import ZArith Lia Ascii.
From Stdlib Require String.
From S2P Require Import Prelude.

#[local] Open Scope Z_scope.

(** ** Bytes *)

Definition byte (a : ascii) : Z := Z.of_N (N_of_ascii a).
Definition char_of (z : Z) : ascii := ascii_of_N (Z.to_N z).

Definition is_digit (a : ascii) : bool := in_range 48 57 (byte a).
Definition is_lower (a : ascii) : bool := in_range 97 122 (byte a).
Definition is_upper (a : ascii) : bool := in_range 65 90 (byte a).
Definition is_alnum (a : ascii) : bool := is_digit a || is_lower a || is_upper a.
(** [u8::is_ascii_hexdigit]. *)
Definition is_hexdigit (a : ascii) : bool :=
  is_digit a || in_range 97 102 (byte a) || in_range 65 70 (byte a).
(** The bytes matched by [b'0'..=b'9' | b'a'..=b'f']. *)
Definition is_lower_hex (a : ascii) : bool := is_digit a || in_range 97 102 (byte a).
(** [u8::is_ascii_whitespace]: space, tab, line feed, form feed, return. *)
Definition is_ascii_whitespace (a : ascii) : bool :=
  (byte a =? 32) || (byte a =? 9) || (byte a =? 10) || (byte a =? 12) || (byte a =? 13).

Definition to_lower (a : ascii) : ascii :=
  if is_upper a then char_of (byte a + 32) else a.

(** [a] is one of the bytes of [s], as in [b"/_+-".contains(&a)]. *)
Definition byte_in (s : string) (a : ascii) : bool :=
  existsb (Ascii.eqb a) (String.list_ascii_of_string s).

(** The line feed of ["\n"], and the two quotes. *)
Definition nl : string := String "010" "".
Definition dquote : ascii := "034".
Definition squote : ascii := "039".

(** ** Strings as byte lists *)

Abbreviation bytes := String.list_ascii_of_string.
Abbreviation of_bytes := String.string_of_list_ascii.

(** [str::len]: the number of bytes. *)
Definition len (s : string) : Z := Z.of_nat (String.length s).
Definition is_empty (s : string) : bool := bool_decide (s = "").
Definition all_bytes (p : ascii → bool) (s : string) : bool := forallb p (bytes s).
Definition any_byte (p : ascii → bool) (s : string) : bool := existsb p (bytes s).
Definition to_ascii_lowercase (s : string) : string := of_bytes (to_lower <$> bytes s).

(** [starts_with], [strip_prefix], [ends_with], [strip_suffix]. *)
Fixpoint strip_prefix (p s : string) : option string :=
  match p, s with
  | EmptyString, _ => Some s
  | String a p', String b s' => if Ascii.eqb a b then strip_prefix p' s' else None
  | String _ _, EmptyString => None
  end.
Definition starts_with (p s : string) : bool :=
  match strip_prefix p s with Some _ => true | None => false end.

Definition srev (s : string) : string := of_bytes (rev (bytes s)).
Definition strip_suffix (p s : string) : option string :=
  srev <$> strip_prefix (srev p) (srev s).
Definition ends_with (p s : string) : bool :=
  match strip_suffix p s with Some _ => true | None => false end.

(** [s.contains(p)]. *)
Fixpoint contains (p s : string) : bool :=
  starts_with p s ||
  match s with EmptyString => false | String _ s' => contains p s' end.

(** [s.split(c)] on one byte, [split_once], and the last piece of [rsplit]. *)
Fixpoint split (c : ascii) (s : string) : list string :=
  match s with
  | EmptyString => [""]
  | String a s' =>
      if Ascii.eqb a c then "" :: split c s'
      else match split c s' with
           | [] => [String a ""]
           | x :: xs => String a x :: xs
           end
  end.

Fixpoint split_once (c : ascii) (s : string) : option (string * string) :=
  match s with
  | EmptyString => None
  | String a s' =>
      if Ascii.eqb a c then Some ("", s')
      else match split_once c s' with
           | Some (x, y) => Some (String a x, y)
           | None => None
           end
  end.

Definition rsplit_next (c : ascii) (s : string) : string := List.last (split c s) s.

(** [parts.join(sep)]. *)
Fixpoint join (sep : string) (parts : list string) : string :=
  match parts with
  | [] => ""
  | [x] => x
  | x :: xs => x +:+ sep +:+ join sep xs
  end.

(** [s.replace(a, b)] for single bytes. *)
Definition replace_byte (a b : ascii) (s : string) : string :=
  of_bytes ((λ c, if Ascii.eqb c a then b else c) <$> bytes s).

(** [s.trim_start_matches(c)], [s.trim_end_matches(c)] for one byte. *)
Fixpoint drop_while (p : ascii → bool) (l : list ascii) : list ascii :=
  match l with [] => [] | a :: l' => if p a then drop_while p l' else l end.
Definition trim_end_byte (c : ascii) (s : string) : string :=
  of_bytes (rev (drop_while (Ascii.eqb c) (rev (bytes s)))).
Definition trim_start_byte (c : ascii) (s : string) : string :=
  of_bytes (drop_while (Ascii.eqb c) (bytes s)).

(** ** Characters *)

(** The White_Space characters of Unicode by the length of their encoding. *)
Definition ws1 (a : ascii) : bool := in_range 9 13 (byte a) || (byte a =? 32).
Definition ws2 (a b : ascii) : bool :=
  (byte a =? 194) && ((byte b =? 133) || (byte b =? 160)).
Definition ws3 (a b c : ascii) : bool :=
  ((byte a =? 225) && (byte b =? 154) && (byte c =? 128))
  || ((byte a =? 226) && (byte b =? 128)
      && (in_range 128 138 (byte c) || (byte c =? 168) || (byte c =? 169) || (byte c =? 175)))
  || ((byte a =? 226) && (byte b =? 129) && (byte c =? 159))
  || ((byte a =? 227) && (byte b =? 128) && (byte c =? 128)).

Fixpoint trim_start_bytes (l : list ascii) : list ascii :=
  match l with
  | [] => []
  | a :: l1 =>
      if ws1 a then trim_start_bytes l1 else
      match l1 with
      | [] => l
      | b :: l2 =>
          if ws2 a b then trim_start_bytes l2 else
          match l2 with
          | [] => l
          | c :: l3 => if ws3 a b c then trim_start_bytes l3 else l
          end
      end
  end.

(** The same from the other end, on the reversed bytes. *)
Fixpoint trim_end_bytes_rev (l : list ascii) : list ascii :=
  match l with
  | [] => []
  | a :: l1 =>
      if ws1 a then trim_end_bytes_rev l1 else
      match l1 with
      | [] => l
      | b :: l2 =>
          if ws2 b a then trim_end_bytes_rev l2 else
          match l2 with
          | [] => l
          | c :: l3 => if ws3 c b a then trim_end_bytes_rev l3 else l
          end
      end
  end.

Definition trim_start (s : string) : string := of_bytes (trim_start_bytes (bytes s)).
Definition trim_end (s : string) : string :=
  of_bytes (rev (trim_end_bytes_rev (rev (bytes s)))).
Definition trim (s : string) : string := trim_end (trim_start s).

(** [chars()]: the bytes of each character. *)
Definition is_continuation (a : ascii) : bool := in_range 128 191 (byte a).
Fixpoint chars_of (l : list ascii) : list (list ascii) :=
  match l with
  | [] => []
  | a :: l' =>
      match chars_of l' with
      | (b :: cs) :: gs =>
          if is_continuation b then (a :: b :: cs) :: gs else [a] :: (b :: cs) :: gs
      | gs => [a] :: gs
      end
  end.
Definition chars (s : string) : list (list ascii) := chars_of (bytes s).
Definition of_chars (cs : list (list ascii)) : string := of_bytes (concat cs).

(** [char::is_control]: U+0000..U+001F and U+007F..U+009F. *)
Definition is_control (c : list ascii) : bool :=
  match c with
  | [a] => (byte a <? 32) || (byte a =? 127)
  | [a; b] => (byte a =? 194) && in_range 128 159 (byte b)
  | _ => false
  end.

(** [char::is_whitespace]. *)
Definition is_whitespace (c : list ascii) : bool :=
  match c with
  | [a] => ws1 a
  | [a; b] => ws2 a b
  | [a; b; d] => ws3 a b d
  | _ => false
  end.

(** [s.chars().take(n).collect()]. *)
Definition take_chars (n : nat) (s : string) : string := of_chars (take n (chars s)).

(** ** Numbers *)

(** The digits of [str::parse] for an unsigned type of maximum [max]: an
    optional [+], then at least one digit, no overflow. *)
Fixpoint parse_digits (max acc : Z) (l : list ascii) : option Z :=
  match l with
  | [] => Some acc
  | a :: l' =>
      if is_digit a then
        let acc' := acc * 10 + (byte a - 48) in
        if acc' <=? max then parse_digits max acc' l' else None
      else None
  end.
Definition parse_unsigned (max : Z) (s : string) : option Z :=
  match bytes s with
  | [] => None
  | a :: l => if Ascii.eqb a "+" then
                match l with [] => None | _ => parse_digits max 0 l end
              else parse_digits max 0 (a :: l)
  end.

(** [format!] of an integer. *)
Definition show (z : Z) : string := pretty z.

(** ** Lemmas *)

Lemma byte_bounds a : 0 ≤ byte a < 256.
Proof. unfold byte. pose proof (N_ascii_bounded a). lia. Qed.

Lemma bytes_of_bytes l : bytes (of_bytes l) = l.
Proof. apply String.list_ascii_of_string_of_list_ascii. Qed.

Lemma of_bytes_bytes s : of_bytes (bytes s) = s.
Proof. apply String.string_of_list_ascii_of_string. Qed.

Lemma bytes_app s t : bytes (s +:+ t) = bytes s ++ bytes t.
Proof. induction s as [|a s IH]; [done|]. simpl. by f_equal. Qed.

Lemma of_bytes_app l k : of_bytes (l ++ k) = of_bytes l +:+ of_bytes k.
Proof. induction l as [|a l IH]; [done|]. simpl. by rewrite IH. Qed.

Lemma len_bytes s : len s = Z.of_nat (length (bytes s)).
Proof. unfold len. f_equal. induction s; simpl; congruence. Qed.

Lemma len_app s t : len (s +:+ t) = len s + len t.
Proof. rewrite !len_bytes, bytes_app, length_app. lia. Qed.

Lemma len_nonneg s : 0 ≤ len s.
Proof. unfold len. lia. Qed.

Lemma str_app_cons a s t : String a s +:+ t = String a (s +:+ t).
Proof. reflexivity. Qed.

Lemma str_app_assoc s t u : (s +:+ t) +:+ u = s +:+ (t +:+ u).
Proof. induction s as [|a s IH]; [done|]. rewrite !str_app_cons. by f_equal. Qed.

Lemma str_app_nil_r s : s +:+ "" = s.
Proof. induction s as [|a s IH]; [done|]. rewrite str_app_cons. by f_equal. Qed.

Lemma bytes_inj s t : bytes s = bytes t → s = t.
Proof. intros H. rewrite <- (of_bytes_bytes s), H. apply of_bytes_bytes. Qed.

Lemma strip_prefix_Some p s t : strip_prefix p s = Some t ↔ s = p +:+ t.
Proof.
  revert s. induction p as [|a p IH]; intros s; simpl.
  - split; [by intros [= ->]|by intros ->].
  - destruct s as [|b s]; [done|]. destruct (Ascii.eqb_spec a b) as [->|Hne].
    + rewrite IH. split; [by intros ->|]. by intros [= ->].
    + split; [done|]. by intros [= ?].
Qed.

Lemma starts_with_true p s : starts_with p s = true ↔ ∃ t, s = p +:+ t.
Proof.
  unfold starts_with. destruct (strip_prefix p s) as [t|] eqn:E.
  - apply strip_prefix_Some in E. split; [|done]. by exists t.
  - split; [done|]. intros [t ->].
    assert (strip_prefix p (p +:+ t) = Some t) by by apply strip_prefix_Some.
    congruence.
Qed.

Lemma srev_involutive s : srev (srev s) = s.
Proof. unfold srev. by rewrite bytes_of_bytes, rev_involutive, of_bytes_bytes. Qed.

Lemma srev_app s t : srev (s +:+ t) = srev t +:+ srev s.
Proof. unfold srev. by rewrite bytes_app, rev_app_distr, of_bytes_app. Qed.

Lemma strip_suffix_Some p s t : strip_suffix p s = Some t ↔ s = t +:+ p.
Proof.
  unfold strip_suffix. rewrite fmap_Some. split.
  - intros (u & Hu & ->). apply strip_prefix_Some in Hu.
    rewrite <- (srev_involutive s), Hu, srev_app, srev_involutive. done.
  - intros ->. exists (srev t). rewrite srev_involutive. split; [|done].
    apply strip_prefix_Some. apply srev_app.
Qed.

Lemma all_bytes_app p s t : all_bytes p (s +:+ t) = all_bytes p s && all_bytes p t.
Proof. unfold all_bytes. by rewrite bytes_app, forallb_app. Qed.

Lemma all_bytes_forall p s : all_bytes p s = true ↔ ∀ a, In a (bytes s) → p a = true.
Proof. apply forallb_forall. Qed.

Lemma split_nonempty c s : split c s ≠ [].
Proof.
  induction s as [|a s IH]; [done|]. simpl. destruct (Ascii.eqb a c); [done|].
  by destruct (split c s).
Qed.

(** Joining the pieces of a split gives the string back. *)
Lemma join_cons_nonempty sep x xs :
  xs ≠ [] → join sep (x :: xs) = x +:+ sep +:+ join sep xs.
Proof. by destruct xs. Qed.

Lemma join_split c s : join (String c "") (split c s) = s.
Proof.
  induction s as [|a s IH]; [done|]. simpl. pose proof (split_nonempty c s) as Hne.
  destruct (Ascii.eqb_spec a c) as [->|Hc].
  - rewrite join_cons_nonempty, IH by done. done.
  - destruct (split c s) as [|x [|y ys]]; [done|simpl in *; congruence|].
    rewrite join_cons_nonempty in * by done. rewrite str_app_cons. by f_equal.
Qed.

Lemma split_pieces c s x : x ∈ split c s → c ∉ bytes x.
Proof.
  revert x. induction s as [|a s IH]; intros x; simpl.
  - rewrite list_elem_of_singleton. intros ->. apply not_elem_of_nil.
  - pose proof (split_nonempty c s) as Hne. destruct (Ascii.eqb_spec a c) as [->|Hc].
    + rewrite elem_of_cons. intros [->|?]; [apply not_elem_of_nil|auto].
    + destruct (split c s) as [|y ys]; [done|]. rewrite elem_of_cons in *.
      intros [->|?]; [|apply IH; rewrite elem_of_cons; auto].
      simpl. rewrite not_elem_of_cons. split; [done|]. apply IH. left.
Qed.

Lemma concat_chars_of l : concat (chars_of l) = l.
Proof.
  induction l as [|a l IH]; [done|]. simpl.
  destruct (chars_of l) as [|[|b cs] gs]; simpl in *; try (by f_equal).
  destruct (is_continuation b); simpl; by f_equal.
Qed.

Lemma of_chars_chars s : of_chars (chars s) = s.
Proof. unfold of_chars, chars. by rewrite concat_chars_of, of_bytes_bytes. Qed.

(** *** Characters of a prefix *)

(** Groups of bytes as [chars] makes them: each holds one starting byte and
    continuation bytes, and only the first may start with a continuation. *)
Definition starts_char (g : list ascii) : Prop :=
  ∃ a cs, g = a :: cs ∧ is_continuation a = false.
Definition char_group (g : list ascii) : Prop :=
  ∃ a cs, g = a :: cs ∧ Forall (λ c, is_continuation c = true) cs.
Definition well_grouped (gs : list (list ascii)) : Prop :=
  Forall char_group gs ∧ Forall starts_char (tail gs).

Lemma chars_of_group a cs k :
  Forall (λ c, is_continuation c = true) cs → k = [] ∨ starts_char k →
  chars_of (a :: cs ++ k) = (a :: cs) :: chars_of k.
Proof.
  intros Hcs Hk. revert a. induction Hcs as [|c cs Hc Hcs IH]; intros a; simpl.
  - destruct Hk as [->|(b & k' & -> & Hb)]; [done|]. simpl.
    destruct (chars_of k') as [|[|b' cs'] gs]; rewrite ?Hb; try done.
    destruct (is_continuation b'); by rewrite Hb.
  - pose proof (IH c) as IHc. simpl in IHc. rewrite IHc. by rewrite Hc.
Qed.

Lemma chars_of_concat gs : well_grouped gs → chars_of (concat gs) = gs.
Proof.
  intros [Hg Ht]. induction Hg as [|g gs (a & cs & -> & Hcs) Hg IH]; [done|].
  cbn [concat app tail] in *. rewrite chars_of_group; [|done|].
  - f_equal. apply IH. by destruct gs; [|inversion Ht].
  - destruct gs as [|g' gs]; [by left|]. right.
    inversion_clear Ht as [|? ? (b & cs' & -> & Hb) _]. simpl. by exists b, (cs' ++ concat gs).
Qed.

Lemma chars_of_well_grouped l : well_grouped (chars_of l).
Proof.
  induction l as [|a l [IHg IHt]]; [by split|]. simpl.
  destruct (chars_of l) as [|g gs] eqn:E; simpl in *.
  - split; [|done]. constructor; [|done]. by exists a, [].
  - inversion_clear IHg as [|? ? (b & cs & -> & Hcs) Hgs].
    destruct (is_continuation b) eqn:Hb; split; simpl.
    + constructor; [|done]. exists a, (b :: cs). split; [done|]. by constructor.
    + done.
    + constructor; [by exists a, []|]. constructor; [by exists b, cs|done].
    + constructor; [by exists b, cs|done].
Qed.

Lemma well_grouped_take n gs : well_grouped gs → well_grouped (take n gs).
Proof.
  intros [Hg Ht]. split; [by apply Forall_take|].
  destruct n as [|n], gs as [|g gs]; simpl; try done. by apply Forall_take.
Qed.

Lemma chars_take_chars n s : chars (take_chars n s) = take n (chars s).
Proof.
  unfold take_chars, of_chars, chars. rewrite bytes_of_bytes.
  apply chars_of_concat, well_grouped_take, chars_of_well_grouped.
Qed.

Lemma take_chars_length n s : (length (chars (take_chars n s)) ≤ n)%nat.
Proof. rewrite chars_take_chars, length_take. lia. Qed.

(** ** A text for a positive number

    Its binary digits below the leading one; concrete codecs are built on it. *)

Fixpoint bits (p : positive) : string :=
  match p with
  | xH => ""
  | xO p => String "0" (bits p)
  | xI p => String "1" (bits p)
  end.

Fixpoint from_bits (s : string) : positive :=
  match s with
  | EmptyString => xH
  | String c s => if Ascii.eqb c "0" then xO (from_bits s) else xI (from_bits s)
  end.

Lemma from_bits_bits p : from_bits (bits p) = p.
Proof. induction p as [p IH|p IH|]; simpl; by rewrite ?IH. Qed.

(** ** Decimal numbers are read back as written *)

Lemma pretty_digit x : (x < 10)%N →
  is_digit (pretty_N_char x) = true ∧ byte (pretty_N_char x) = 48 + Z.of_N x.
Proof.
  intros Hx.
  assert (x = 0 ∨ x = 1 ∨ x = 2 ∨ x = 3 ∨ x = 4 ∨ x = 5 ∨ x = 6 ∨ x = 7 ∨ x = 8 ∨ x = 9)%N
    as H by lia.
  repeat destruct H as [->|H]; try subst x; by vm_compute.
Qed.

Lemma parse_pretty_go max (x : N) s :
  (0 < x)%N → Z.of_N x ≤ max →
  parse_digits max 0 (bytes (pretty_N_go x s)) = parse_digits max (Z.of_N x) (bytes s).
Proof.
  revert s. induction (N.lt_wf_0 x) as [x _ IH]. intros s Hx Hmax.
  rewrite pretty_N_go_step by done.
  destruct (pretty_digit (x `mod` 10)) as [Hd Hb]; [by apply N.mod_lt|].
  pose proof (N.div_mod x 10 ltac:(done)) as Hdm.
  assert (∀ a, a * 10 + Z.of_N (x `mod` 10) = Z.of_N x →
    parse_digits max a (bytes (String (pretty_N_char (x `mod` 10)) s)) = parse_digits max (Z.of_N x) (bytes s)) as Hstep.
  { intros a Ha. cbn [bytes parse_digits]. rewrite Hd, Hb. 
    replace (a * 10 + (48 + Z.of_N (x `mod` 10) - 48)) with (Z.of_N x) by lia.
    by rewrite (proj2 (Z.leb_le _ _) Hmax). }
  destruct (decide (x `div` 10 = 0)%N) as [H0|H0].
  - rewrite H0, pretty_N_go_0. apply Hstep. lia.
  - rewrite IH; [apply Hstep; lia|apply N.div_lt; lia|by apply N.neq_0_lt_0|].
    pose proof (N.Div0.div_le_upper_bound x 10 x). lia.
Qed.

Lemma pretty_go_head (x : N) s :
  (0 < x)%N → ∃ a t, pretty_N_go x s = String a t ∧ is_digit a = true.
Proof.
  revert s. induction (N.lt_wf_0 x) as [x _ IH]. intros s Hx.
  rewrite pretty_N_go_step by done.
  destruct (pretty_digit (x `mod` 10)) as [Hd _]; [by apply N.mod_lt|].
  destruct (decide (x `div` 10 = 0)%N) as [H0|H0].
  - rewrite H0, pretty_N_go_0. eauto.
  - apply IH; [apply N.div_lt; lia|by apply N.neq_0_lt_0].
Qed.

(** A number that fits is read back as it was written. *)
Lemma parse_unsigned_show max z : 0 ≤ z ≤ max → parse_unsigned max (show z) = Some z.
Proof.
  intros Hz. unfold show. destruct z as [|p|p]; [|change (pretty (Zpos p)) with (pretty_N_go (Npos p) "")|lia].
  - change (parse_unsigned max (pretty 0)) with (if 0 <=? max then Some 0 else None).
    by rewrite (proj2 (Z.leb_le 0 max)) by lia.
  - pose proof (parse_pretty_go max (Npos p) "" ltac:(lia) ltac:(lia)) as Hp.
    destruct (pretty_go_head (Npos p) "" ltac:(lia)) as (a & t & E & Ha). rewrite E in *.
    unfold parse_unsigned. cbn [bytes] in *. 
    destruct (Ascii.eqb a "+") eqn:Ep; [apply Ascii.eqb_eq in Ep; by subst a|]. by rewrite Hp.
Qed.

Lemma pretty_go_digits (x : N) s :
  all_bytes is_digit s = true → all_bytes is_digit (pretty_N_go x s) = true.
Proof.
  revert s. induction (N.lt_wf_0 x) as [x _ IH]. intros s Hs.
  destruct (decide (0 < x)%N) as [Hx|Hx].
  - rewrite pretty_N_go_step by done. apply IH; [apply N.div_lt; lia|].
    unfold all_bytes in *. cbn [bytes forallb]. rewrite Hs, andb_true_r.
    apply pretty_digit, N.mod_lt. lia.
  - assert (x = 0)%N as -> by lia. by rewrite pretty_N_go_0.
Qed.

Lemma show_digits z : 0 ≤ z → all_bytes is_digit (show z) = true ∧ show z ≠ "".
Proof.
  intros Hz. unfold show.
  destruct z as [|p|p]; [done|change (pretty (Zpos p)) with (pretty_N_go (Npos p) "")|lia].
  split; [by apply pretty_go_digits|].
  destruct (pretty_go_head (Npos p) "" ltac:(lia)) as (a & u & -> & _). done.
Qed.
