(* ===== verification/RustText.v ===== *)
(** * Rust strings: searching, slicing, decoding

    More of [str], for the scanners: positions are byte offsets, as in Rust.
    A slice whose end is not on a character boundary panics; [boundary] tells
    which offsets are. *)

From stdpp Require Import base list strings.
From Stdlib Require Import Ascii ZArith Lia.
From S2P Require Import Prelude RustStr.

#[local] Open Scope Z_scope.

(** [&s[n..]], [&s[..n]]. *)
Fixpoint str_from (n : nat) (s : string) : string :=
  match n, s with
  | S n, String _ s => str_from n s
  | _, _ => s
  end.
Fixpoint str_to (n : nat) (s : string) : string :=
  match n, s with
  | S n, String a s => String a (str_to n s)
  | _, _ => ""
  end.

(** [s.is_char_boundary(n)] for [n ≤ s.len()]. *)
Definition boundary (n : nat) (s : string) : bool :=
  match str_from n s with String a _ => negb (is_continuation a) | EmptyString => true end.

(** [s.find(p)], for a text and for a test on bytes that are characters. *)
Fixpoint find (p s : string) : option nat :=
  if starts_with p s then Some 0%nat
  else match s with
       | EmptyString => None
       | String _ s => S <$> find p s
       end.
Fixpoint find_byte (f : ascii → bool) (s : string) : option nat :=
  match s with
  | EmptyString => None
  | String a s => if f a then Some 0%nat else S <$> find_byte f s
  end.

(** [s.find(f)] for a test on characters. *)
Fixpoint find_in_chars (f : list ascii → bool) (cs : list (list ascii)) : option nat :=
  match cs with
  | [] => None
  | c :: cs => if f c then Some 0%nat else Nat.add (length c) <$> find_in_chars f cs
  end.
Definition find_char (f : list ascii → bool) (s : string) : option nat :=
  find_in_chars f (chars s).

(** The offsets of [s.match_indices(c)] for one byte. *)
Fixpoint match_indices_from (i : nat) (c : ascii) (s : string) : list nat :=
  match s with
  | EmptyString => []
  | String a s =>
      if Ascii.eqb a c then i :: match_indices_from (S i) c s else match_indices_from (S i) c s
  end.
Definition match_indices (c : ascii) (s : string) : list nat := match_indices_from 0 c s.

(** [s.matches(p).count()] and [s.replace(p, r)] for a text that is not empty:
    the occurrences do not overlap.  [skip] bytes belong to the last one. *)
Fixpoint matches_from (skip : nat) (p s : string) : nat :=
  match s with
  | EmptyString => 0
  | String _ s' =>
      match skip with
      | S skip => matches_from skip p s'
      | O => if starts_with p s then S (matches_from (pred (String.length p)) p s')
             else matches_from 0 p s'
      end
  end.
Definition matches (p s : string) : nat := matches_from 0 p s.

Fixpoint replace_from (skip : nat) (p r s : string) : string :=
  match s with
  | EmptyString => ""
  | String a s' =>
      match skip with
      | S skip => replace_from skip p r s'
      | O => if starts_with p s then r +:+ replace_from (pred (String.length p)) p r s'
             else String a (replace_from 0 p r s')
      end
  end.
Definition replace (p r s : string) : string := replace_from 0 p r s.

(** [s.split_once(p)] for a text. *)
Definition split_once_str (p s : string) : option (string * string) :=
  i ← find p s; Some (str_to i s, str_from (i + String.length p) s).

(** [s.split(f)] for a test on characters. *)
Fixpoint split_chars (f : list ascii → bool) (cs : list (list ascii)) : list (list (list ascii)) :=
  match cs with
  | [] => [[]]
  | c :: cs =>
      if f c then [] :: split_chars f cs
      else match split_chars f cs with
           | [] => [[c]]
           | x :: xs => (c :: x) :: xs
           end
  end.
Definition split_by (f : list ascii → bool) (s : string) : list string :=
  of_chars <$> split_chars f (chars s).

(** [s.trim_matches(set)] for one-byte characters. *)
Definition trim_matches (set s : string) : string :=
  let start := drop_while (byte_in set) (bytes s) in
  of_bytes (rev (drop_while (byte_in set) (rev start))).

(** [s.lines()]: the line feed, and a carriage return before it, is dropped;
    a last empty line does not count. *)
Definition strip_cr (s : string) : string := default s (strip_suffix (String "013" "") s).
Definition lines (s : string) : list string :=
  let pieces := split "010" s in
  match rev pieces with
  | "" :: before => strip_cr <$> rev before
  | last :: before => (strip_cr <$> rev before) ++ [last]
  | [] => []
  end.

(** A one-byte character. *)
Definition char_in (set : string) (c : list ascii) : bool :=
  match c with [a] => byte_in set a | _ => false end.
Definition char_is (f : ascii → bool) (c : list ascii) : bool :=
  match c with [a] => f a | _ => false end.

Fixpoint take_while (f : ascii → bool) (l : list ascii) : list ascii :=
  match l with [] => [] | a :: l => if f a then a :: take_while f l else [] end.

(** [str::ends_with] and [contains] of any of several texts. *)
Definition ends_with_one (suffixes : list string) (s : string) : bool :=
  existsb (λ p, ends_with p s) suffixes.
Definition contains_one (parts : list string) (s : string) : bool :=
  existsb (λ p, contains p s) parts.

(** [String::from_utf8_lossy]: a maximal prefix of a character that is not
    completed becomes U+FFFD. *)
Definition replacement : list ascii := [char_of 239; char_of 191; char_of 189].
Definition byte_range (lo hi : Z) (a : ascii) : bool := in_range lo hi (byte a).
(** The range of the second byte of a character of three or four bytes. *)
Definition second_ok (a b : ascii) : bool :=
  let x := byte a in
  if x =? 224 then byte_range 160 191 b
  else if x =? 237 then byte_range 128 159 b
  else if x =? 240 then byte_range 144 191 b
  else if x =? 244 then byte_range 128 143 b
  else is_continuation b.

Fixpoint utf8_lossy (l : list ascii) : list ascii :=
  match l with
  | [] => []
  | a :: l1 =>
      if byte a <? 128 then a :: utf8_lossy l1
      else if byte_range 194 223 a then
        match l1 with
        | b :: l2 => if is_continuation b then a :: b :: utf8_lossy l2
                     else replacement ++ utf8_lossy l1
        | [] => replacement
        end
      else if byte_range 224 239 a then
        match l1 with
        | b :: l2 =>
            if second_ok a b then
              match l2 with
              | c :: l3 => if is_continuation c then a :: b :: c :: utf8_lossy l3
                           else replacement ++ utf8_lossy l2
              | [] => replacement
              end
            else replacement ++ utf8_lossy l1
        | [] => replacement
        end
      else if byte_range 240 244 a then
        match l1 with
        | b :: l2 =>
            if second_ok a b then
              match l2 with
              | c :: l3 =>
                  if is_continuation c then
                    match l3 with
                    | d :: l4 => if is_continuation d then a :: b :: c :: d :: utf8_lossy l4
                                 else replacement ++ utf8_lossy l3
                    | [] => replacement
                    end
                  else replacement ++ utf8_lossy l2
              | [] => replacement
              end
            else replacement ++ utf8_lossy l1
        | [] => replacement
        end
      else replacement ++ utf8_lossy l1
  end.

(** ** Lemmas *)

Lemma str_to_from n s : str_to n s +:+ str_from n s = s.
Proof.
  revert s. induction n as [|n IH]; intros s; [by destruct s|].
  destruct s as [|a s]; [done|]. simpl. rewrite str_app_cons. by rewrite IH.
Qed.

Lemma str_from_app p t : str_from (String.length p) (p +:+ t) = t.
Proof.
  induction p as [|a p IH]; [by destruct t|]. rewrite str_app_cons. exact IH.
Qed.

Lemma str_to_app x y : str_to (String.length x) (x +:+ y) = x.
Proof. induction x as [|a x IH]; [by destruct y|]. rewrite str_app_cons. cbn. by rewrite IH. Qed.

Lemma length_append x y : String.length (x +:+ y) = (String.length x + String.length y)%nat.
Proof. pose proof (len_app x y). unfold len in *. lia. Qed.

Lemma str_from_add x y n : str_from (String.length x + n) (x +:+ y) = str_from n y.
Proof. induction x as [|a x IH]; [done|]. rewrite str_app_cons. exact IH. Qed.

Lemma find_Some p s i : find p s = Some i → s = str_to i s +:+ p +:+ str_from (i + String.length p) s.
Proof.
  revert i. induction s as [|a s IH]; intros i; cbn [find].
  - destruct (starts_with p "") eqn:E; [|done]. intros [= <-].
    apply starts_with_true in E as [t Ht]. destruct p; [done|]. by rewrite str_app_cons in Ht.
  - destruct (starts_with p (String a s)) eqn:E.
    + intros [= <-]. apply starts_with_true in E as [t Ht]. rewrite Ht.
      cbn [str_to Nat.add]. by rewrite str_from_app.
    + destruct (find p s) as [j|] eqn:Ej; [|done]. simpl. intros [= <-].
      cbn [str_to Nat.add str_from]. rewrite str_app_cons. f_equal. by apply IH.
Qed.

Lemma find_None p s : find p s = None → contains p s = false.
Proof.
  induction s as [|a s IH]; cbn [find contains]; destruct (starts_with _ _); try done.
  destruct (find p s); [done|]. auto.
Qed.

Lemma contains_find p s : contains p s = match find p s with Some _ => true | None => false end.
Proof.
  induction s as [|a s IH]; cbn [find contains]; destruct (starts_with _ _); try done.
  rewrite IH. by destruct (find p s).
Qed.
