(* ===== verification/Net.v ===== *)
(** * Internet addresses as text

    [std::net::IpAddr]: its [FromStr], [Display] and [is_loopback], which the
    boot routes use on request headers.  The parsers follow the standard
    library's: each answers the value and the rest of the input, and leaves the
    input as it was when it fails. *)

From stdpp Require Import base list strings.
From Stdlib Require Import Ascii ZArith Lia.
From S2P Require Import Prelude RustStr.

#[local] Open Scope Z_scope.

(** An address by its four octets or its eight 16-bit segments. *)
Inductive IpAddr := V4 (octets : list Z) | V6 (segments : list Z).
#[global] Instance ip_addr_eq_dec : EqDecision IpAddr.
Proof. solve_decision. Defined.

Abbreviation parser A := (list ascii → option (A * list ascii)).

(** [char::to_digit(radix)]. *)
Definition to_digit (radix : Z) (a : ascii) : option Z :=
  let v := if in_range 48 57 (byte a) then Some (byte a - 48)
           else if in_range 97 122 (byte a) then Some (byte a - 87)
           else if in_range 65 90 (byte a) then Some (byte a - 55)
           else None in
  v ← v; if v <? radix then Some v else None.

Definition read_given_char (c : ascii) : parser unit := λ l,
  match l with
  | a :: l => if Ascii.eqb a c then Some (tt, l) else None
  | [] => None
  end.

(** The digits of [read_number]: at most [max_digits], no more than [max]. *)
Fixpoint read_digits (radix max : Z) (max_digits : nat) (count : nat) (acc : Z) (l : list ascii)
    : option (Z * nat * list ascii) :=
  match l with
  | a :: l' =>
      match to_digit radix a with
      | Some digit =>
          let acc' := acc * radix + digit in
          if max <? acc' then None else
          match max_digits with
          | O => None
          | S n => read_digits radix max n (S count) acc' l'
          end
      | None => Some (acc, count, l)
      end
  | [] => Some (acc, count, l)
  end.

(** [read_number(radix, Some(max_digits), allow_zero_prefix)] for an unsigned
    type of maximum [max]. *)
Definition read_number (radix max : Z) (max_digits : nat) (allow_zero_prefix : bool)
    : parser Z := λ l,
  let has_leading_zero := match l with a :: _ => Ascii.eqb a "0" | [] => false end in
  match read_digits radix max max_digits 0 0 l with
  | Some (value, count, rest) =>
      if (count =? 0)%nat then None
      else if negb allow_zero_prefix && has_leading_zero && (1 <? count)%nat then None
      else Some (value, rest)
  | None => None
  end.

(** [read_separator(sep, index, inner)]. *)
Definition read_separator {A} (sep : ascii) (index : nat) (inner : parser A) : parser A := λ l,
  match index with
  | O => inner l
  | S _ => match read_given_char sep l with Some (_, l') => inner l' | None => None end
  end.

Fixpoint read_octets (n index : nat) : parser (list Z) := λ l,
  match n with
  | O => Some ([], l)
  | S n =>
      match read_separator "." index (read_number 10 255 3 false) l with
      | Some (octet, l') =>
          match read_octets n (S index) l' with
          | Some (rest, l'') => Some (octet :: rest, l'')
          | None => None
          end
      | None => None
      end
  end.
Definition read_ipv4_addr : parser (list Z) := read_octets 4 0.

(** [read_groups] into [left] slots, from slot [i]: the groups, whether the last
    two were written as an IPv4 address, and the rest of the input. *)
Fixpoint read_groups (left i : nat) (l : list ascii) : list Z * bool * list ascii :=
  match left with
  | O => ([], false, l)
  | S left' =>
      let ipv4 := match left' with
                  | O => None
                  | S _ => read_separator ":" i read_ipv4_addr l
                  end in
      match ipv4 with
      | Some ([a; b; c; d], l') => ([a * 256 + b; c * 256 + d], true, l')
      | _ =>
          match read_separator ":" i (read_number 16 65535 4 true) l with
          | Some (group, l') =>
              let '(groups, v4, l'') := read_groups left' (S i) l' in (group :: groups, v4, l'')
          | None => ([], false, l)
          end
      end
  end.

Definition read_ipv6_addr : parser (list Z) := λ l,
  let '(head, head_ipv4, l1) := read_groups 8 0 l in
  if (length head =? 8)%nat then Some (head, l1)
  else if head_ipv4 then None else
  match read_given_char ":" l1 with
  | Some (_, l2) =>
      match read_given_char ":" l2 with
      | Some (_, l3) =>
          let '(tail, _, l4) := read_groups (8 - (length head + 1)) 0 l3 in
          Some (head ++ repeat 0 (8 - length head - length tail) ++ tail, l4)
      | None => None
      end
  | None => None
  end.

(** [str::parse::<IpAddr>()]: the whole text is one address. *)
Definition parse_ip (s : string) : option IpAddr :=
  let l := bytes s in
  match read_ipv4_addr l with
  | Some (octets, []) => Some (V4 octets)
  | Some (_, _ :: _) => None
  | None => match read_ipv6_addr l with
            | Some (segments, []) => Some (V6 segments)
            | _ => None
            end
  end.

(** [is_loopback]: 127.0.0.0/8 and ::1. *)
Definition is_loopback (ip : IpAddr) : bool :=
  match ip with
  | V4 (127 :: _) => true
  | V4 _ => false
  | V6 segments => bool_decide (segments = [0; 0; 0; 0; 0; 0; 0; 1])
  end.

(** [Display]. *)
Definition hex_digit (z : Z) : ascii := char_of (if z <? 10 then 48 + z else 87 + z).
Fixpoint hex_digits (fuel : nat) (z : Z) (acc : string) : string :=
  match fuel with
  | O => acc
  | S fuel => if (z <? 16) then String (hex_digit z) acc
              else hex_digits fuel (z / 16) (String (hex_digit (z mod 16)) acc)
  end.
Definition show_hex (z : Z) : string := hex_digits 4 z "".

Definition show_ipv4 (octets : list Z) : string := join "." (show <$> octets).

(** The first longest run of zero segments: its start and its length. *)
Fixpoint zero_runs (i : nat) (current longest : nat * nat) (segments : list Z) : nat * nat :=
  match segments with
  | [] => longest
  | s :: segments =>
      if s =? 0 then
        let current := (if (current.2 =? 0)%nat then i else current.1, S (current.2)) in
        zero_runs (S i) current (if (longest.2 <? current.2)%nat then current else longest) segments
      else zero_runs (S i) (0%nat, 0%nat) longest segments
  end.

Definition show_segments (segments : list Z) : string := join ":" (show_hex <$> segments).

Definition show_ipv6 (segments : list Z) : string :=
  match segments with
  | [0; 0; 0; 0; 0; 65535; hi; lo] =>
      "::ffff:" +:+ show_ipv4 [hi / 256; hi mod 256; lo / 256; lo mod 256]
  | _ =>
      let '(start, run) := zero_runs 0 (0, 0)%nat (0, 0)%nat segments in
      if (1 <? run)%nat
      then show_segments (take start segments) +:+ "::" +:+ show_segments (drop (start + run) segments)
      else show_segments segments
  end.

Definition show_ip (ip : IpAddr) : string :=
  match ip with V4 octets => show_ipv4 octets | V6 segments => show_ipv6 segments end.

(** Addresses of the well-known kinds, read and written. *)
Example ip_texts :
  parse_ip "127.0.0.1" = Some (V4 [127; 0; 0; 1]) ∧
  parse_ip "::1" = Some (V6 [0; 0; 0; 0; 0; 0; 0; 1]) ∧
  parse_ip "fe80::1:2" = Some (V6 [65152; 0; 0; 0; 0; 0; 1; 2]) ∧
  parse_ip "::ffff:10.0.0.7" = Some (V6 [0; 0; 0; 0; 0; 65535; 2560; 7]) ∧
  parse_ip "010.0.0.1" = None ∧ parse_ip "1.2.3" = None ∧ parse_ip "1::2::3" = None ∧
  show_ip (V6 [65152; 0; 0; 0; 0; 0; 1; 2]) = "fe80::1:2" ∧
  show_ip (V6 [0; 0; 0; 0; 0; 65535; 2560; 7]) = "::ffff:10.0.0.7" ∧
  show_ip (V6 [1; 0; 0; 4; 0; 0; 0; 8]) = "1:0:0:4::8".
Proof. vm_compute. repeat split. Qed.

(** Every octet and segment a text gives is in range. *)
Definition ip_ok (ip : IpAddr) : Prop :=
  match ip with
  | V4 octets => length octets = 4%nat ∧ Forall (λ o, 0 ≤ o ≤ 255) octets
  | V6 segments => length segments = 8%nat ∧ Forall (λ s, 0 ≤ s ≤ 65535) segments
  end.
