(* ===== verification/Json.v ===== *)
(** * JSON values

    [serde_json::Value] as the sources use it.  An object is a [BTreeMap], an
    association list in increasing key order; [obj_insert] keeps the order.  The
    codecs of serde_json are arguments of the definitions that use them. *)

From stdpp Require Import base list strings.
From Stdlib Require Import ZArith Lia.
From S2P Require Import Prelude.

#[local] Open Scope Z_scope.

(** [serde_json::Number]: a [u64], a negative [i64] or the bits of an [f64]. *)
Inductive Number := PosInt (n : Z) | NegInt (n : Z) | Float (bits : Z).

Inductive Value :=
| Null
| Bool (b : bool)
| Num (n : Number)
| Str (s : string)
| Array (items : list Value)
| Object (fields : list (string * Value)).

(** [Map::get], [Map::insert]. *)
Fixpoint obj_get (key : string) (fields : list (string * Value)) : option Value :=
  match fields with
  | [] => None
  | (k, v) :: fields => if bool_decide (k = key) then Some v else obj_get key fields
  end.

Fixpoint obj_insert (key : string) (value : Value) (fields : list (string * Value))
    : list (string * Value) :=
  match fields with
  | [] => [(key, value)]
  | (k, v) :: fields' =>
      if bool_decide (k = key) then (key, value) :: fields'
      else if bool_decide (String.le key k) then (key, value) :: fields
      else (k, v) :: obj_insert key value fields'
  end.

Definition as_object (v : Value) : option (list (string * Value)) :=
  match v with Object fields => Some fields | _ => None end.
Definition is_object (v : Value) : bool :=
  match v with Object _ => true | _ => false end.
Definition as_str (v : Value) : option string :=
  match v with Str s => Some s | _ => None end.
Definition as_array (v : Value) : option (list Value) :=
  match v with Array items => Some items | _ => None end.
(** [Value::get] on an object. *)
Definition get (key : string) (v : Value) : option Value :=
  fields ← as_object v; obj_get key fields.

Class Serde := {
  to_string : Value → string;
  from_str : string → option Value;
}.

Lemma obj_get_insert key value fields : obj_get key (obj_insert key value fields) = Some value.
Proof.
  induction fields as [|[k v] fields IH]; simpl; [by rewrite bool_decide_true|].
  case_bool_decide as Hk; simpl; [by rewrite bool_decide_true|].
  case_bool_decide; simpl; [by rewrite bool_decide_true|].
  by rewrite bool_decide_false.
Qed.

Lemma obj_get_insert_ne key key' value fields :
  key ≠ key' → obj_get key (obj_insert key' value fields) = obj_get key fields.
Proof.
  intros Hne. induction fields as [|[k v] fields IH]; simpl; [by rewrite bool_decide_false|].
  case_bool_decide as Hk; simpl.
  - rewrite !(bool_decide_false (_ = key)) by congruence. done.
  - case_bool_decide; simpl; [by rewrite (bool_decide_false (key' = key))|].
    by rewrite IH.
Qed.
