(* ===== verification/DbText.v ===== *)
(** * Text and path validation of the database layer

    The error type of [src/error.rs], the path sanitizer of [src/assets.rs] and
    the validators and normalizers of [src/db.rs], through which every value
    passes before it is stored: identifiers, digests, paths, progress texts,
    log and error bounds, boot profile and device fields. *)

From stdpp Require Import base gmap list strings.
From Stdlib Require Import Ascii ZArith Lia.
From S2P Require Import Prelude RustStr.

#[local] Open Scope Z_scope.
#[local] Open Scope nest_scope.

Inductive AppError :=
| Sqlx | Io | Validation (message : string) | NotFound | Unauthorized | Forbidden
| Config (message : string) | UnsafePath.

Definition status_code (e : AppError) : Z :=
  match e with
  | Validation _ => 400
  | NotFound => 404
  | Unauthorized => 401
  | Forbidden | UnsafePath => 403
  | Config _ => 500
  | Sqlx | Io => 500
  end.

Abbreviation AppResult A := (result AppError A).
Definition invalid {A} (message : string) : AppResult A := Err (Validation message).
Definition guard_valid (b : bool) (message : string) : AppResult unit :=
  if b then Ok tt else invalid message.

(** ** Paths *)

(** [std::path::Component] of a Unix path: empty pieces disappear, and so does
    [.] except at the start of a relative path. *)
Inductive Component := RootDir | CurDir | ParentDir | Normal (part : string).
#[global] Instance component_eq_dec : EqDecision Component.
Proof. solve_decision. Defined.

Definition piece_component (piece : string) : option Component :=
  if bool_decide (piece = "") || bool_decide (piece = ".") then None
  else if bool_decide (piece = "..") then Some ParentDir else Some (Normal piece).

Definition is_absolute (path : string) : bool := starts_with "/" path.

Definition components (path : string) : list Component :=
  let pieces := split "/" path in
  (if is_absolute path then [RootDir]
   else match pieces with
        | "." :: _ => [CurDir]
        | _ => []
        end) ++ omap piece_component pieces.

(** [sanitize_relative_path]; the [PathBuf] is its list of parts. *)
Fixpoint normal_parts (cs : list Component) : option (list string) :=
  match cs with
  | [] => Some []
  | Normal part :: cs => parts ← normal_parts cs; Some (part :: parts)
  | _ :: _ => None
  end.

Definition sanitize_relative_path (input : string) : AppResult (list string) :=
  let trimmed := trim input in
  if starts_with "/" trimmed || starts_with "\" trimmed then Err UnsafePath else
  if is_empty trimmed then Err UnsafePath else
  match normal_parts (components trimmed) with
  | None | Some [] => Err UnsafePath
  | Some parts => Ok parts
  end.

(** [urlencoding::encode], a dependency, is an argument. *)
Definition asset_url (urlencode : string → string) (public_base_url relative_path : string)
    : AppResult string :=
  parts ≔ sanitize_relative_path relative_path ?;
  Ok (trim_end_byte "/" public_base_url +:+ "/files/" +:+ join "/" (urlencode <$> parts)).

(** ** Bounds of [src/db.rs] *)

Definition MAX_DEVICE_HOSTNAME_CHARS : nat := 253.
Definition MAX_DEVICE_SERIAL_CHARS : nat := 128.
Definition MAX_DEVICE_NOTES_CHARS : nat := 2000.
Definition MAX_DEVICE_TAGS : nat := 50.
Definition MAX_DEVICE_TAG_CHARS : nat := 64.
Definition MAX_PROFILE_DESCRIPTION_CHARS : nat := 2000.
Definition MAX_PROFILE_RAW_SCRIPT_BYTES : Z := 64 * 1024.
Definition MAX_BUILD_LOG_BYTES : Z := 64 * 1024.
Definition MAX_BUILD_ERROR_CHARS : nat := 2000.
Definition MAX_BUILD_PROGRESS_STAGE_CHARS : nat := 48.
Definition MAX_BUILD_PROGRESS_MESSAGE_CHARS : nat := 160.
Definition MAX_CACHE_METADATA_BYTES : Z := 1024 * 1024.
Definition MAX_CACHE_ARTIFACT_METADATA_BYTES : Z := 24 * 1024 * 1024.
Definition ALLOWED_BUILD_STATES : list string :=
  ["queued"; "running"; "succeeded"; "failed"; "cancelled"].

(** ** Identifiers *)

Definition normalize_artifact_type (value field : string) : AppResult string :=
  let value := to_ascii_lowercase (trim value) in
  if bool_decide (value ∈ ["nixos_closure"; "netboot_artifact"; "desktop_image";
                           "system_generation"])
  then Ok value
  else invalid (field +:+ " must be one of nixos_closure, netboot_artifact, desktop_image, system_generation").

Definition normalize_input_revision (value : string) : AppResult string :=
  let value := trim value in
  if is_empty value then invalid "input_revision is required" else
  if bool_decide (256 < length (chars value))%nat || existsb is_control (chars value)
  then invalid "input_revision must be 256 characters or fewer and must not contain control characters"
  else Ok value.

(** [starts_with] and [ends_with] on a set of one-byte characters. *)
Definition starts_with_any (set s : string) : bool :=
  match bytes s with a :: _ => byte_in set a | [] => false end.
Definition ends_with_any (set s : string) : bool :=
  match rev (bytes s) with a :: _ => byte_in set a | [] => false end.

Definition normalize_build_target (value : option string) (default_target : string)
    : AppResult string :=
  let value := to_ascii_lowercase (trim (default default_target value)) in
  if is_empty value || (64 <? len value) || starts_with_any "-._" value
     || ends_with_any "-._" value
     || negb (all_bytes (λ a, is_lower a || is_digit a || byte_in "-_." a) value)
  then invalid "target must be a safe build target identifier"
  else Ok value.

Definition normalize_build_system (value : string) : AppResult string :=
  let value := trim value in
  if is_empty value || (64 <? len value) || starts_with "-" value || ends_with "-" value
     || negb (all_bytes (λ a, is_alnum a || byte_in "-_" a) value)
  then invalid "system must be a safe Nix system name such as x86_64-linux"
  else Ok value.

Definition normalize_sha256 (value field : string) (allow_empty : bool) : AppResult string :=
  let value := trim value in
  if allow_empty && is_empty value then Ok "" else
  if negb (len value =? 64) || negb (all_bytes is_hexdigit value)
  then invalid (field +:+ " must be a 64-character SHA-256 hex digest")
  else Ok (to_ascii_lowercase value).

Definition normalize_managed_id (value field : string) : AppResult string :=
  let value := trim value in
  if is_empty value then invalid (field +:+ " is required") else
  if (128 <? len value) || negb (all_bytes (λ a, is_alnum a || byte_in "-_." a) value)
  then invalid (field +:+ " must be a safe identifier of 128 characters or fewer")
  else Ok value.

Definition validate_build_status (status : string) : AppResult unit :=
  guard_valid (bool_decide (status ∈ ALLOWED_BUILD_STATES))
    ("status must be one of " +:+ join ", " ALLOWED_BUILD_STATES).

Definition terminal_status (status : string) : bool :=
  bool_decide (status ∈ ["succeeded"; "failed"; "cancelled"]).

Definition validate_terminal_build_status (status : string) : AppResult unit :=
  guard_valid (terminal_status status)
    "terminal build status must be succeeded, failed, or cancelled".

(** ** Bounded texts *)

(** The longest prefix of whole characters of at most [max] bytes. *)
Fixpoint take_fitting (room : Z) (cs : list (list ascii)) : list (list ascii) :=
  match cs with
  | [] => []
  | c :: cs => let size := Z.of_nat (length c) in
               if room <? size then [] else c :: take_fitting (room - size) cs
  end.

Definition bounded_bytes (value : string) (max_bytes : Z) : string :=
  if len value <=? max_bytes then value else of_chars (take_fitting max_bytes (chars value)).

Definition normalize_build_progress_percent (value : option Z) (status : string) : option Z :=
  match value with
  | Some value => Some (clamp 0 100 value)
  | None => if terminal_status status then Some 100
            else if bool_decide (status = "queued") then Some 0 else None
  end.

(** The byte loop of [bounded_progress_stage]: [acc] is [normalized] reversed. *)
Definition stage_byte (a : ascii) : option ascii :=
  if is_alnum a then Some (to_lower a)
  else if byte_in " -_./" a then Some "_"%char else None.

Fixpoint stage_loop (l acc : list ascii) (last_was_separator : bool) : list ascii :=
  match l with
  | [] => acc
  | a :: l =>
      match stage_byte a with
      | None => stage_loop l acc last_was_separator
      | Some ch =>
          let separator := Ascii.eqb ch "_" in
          if separator && (match acc with [] => true | _ => false end || last_was_separator)
          then stage_loop l acc last_was_separator
          else let acc := ch :: acc in
               if (MAX_BUILD_PROGRESS_STAGE_CHARS <=? length acc)%nat then acc
               else stage_loop l acc separator
      end
  end.

Definition bounded_progress_stage (value : string) : string :=
  let normalized := of_bytes (rev (stage_loop (bytes (trim value)) [] false)) in
  let normalized := trim_end_byte "_" (trim_start_byte "_" normalized) in
  if is_empty normalized then "running" else normalized.

(** [split_whitespace]: the maximal runs of characters that are not white space. *)
Fixpoint words (cs : list (list ascii)) (word : list (list ascii)) : list (list (list ascii)) :=
  match cs with
  | [] => match word with [] => [] | _ => [rev word] end
  | c :: cs =>
      if is_whitespace c then
        match word with [] => words cs [] | _ => rev word :: words cs [] end
      else words cs (c :: word)
  end.
Definition split_whitespace (s : string) : list string := of_chars <$> words (chars s) [].

Definition bounded_progress_message (value : string) : string :=
  let compact := of_chars (take MAX_BUILD_PROGRESS_MESSAGE_CHARS
    (List.filter (λ c, negb (is_control c)) (chars (join " " (split_whitespace value))))) in
  if is_empty compact then "Build progress updated" else compact.

Definition terminal_build_progress_stage (status : string) : string :=
  if bool_decide (status = "succeeded") then "succeeded"
  else if bool_decide (status = "cancelled") then "cancelled" else "failed".

(** [sanitize_report_field] and [truncate_chars]. *)
Definition sanitize_report_field (value : string) (max_chars : nat) (fallback : string)
    : string :=
  let cleaned := of_chars (take max_chars
    (List.filter (λ c, negb (is_control c)) (chars (trim value)))) in
  if is_empty cleaned then fallback else cleaned.
Definition truncate_chars (value : string) (max_chars : nat) : string :=
  take_chars max_chars value.

(** The code of a rejected job: the first needle its reason contains. *)
Definition REJECTION_CODES : list (string * string) := [
  ("contains protected material", "protected_material");
  ("build_spec must be", "invalid_build_spec");
  ("cache_metadata must be", "invalid_cache_metadata");
  ("managed_job_id", "invalid_job_identity");
  ("requested_artifact_type must be", "invalid_artifact_type");
  ("target must be", "invalid_target");
  ("system must be", "invalid_system");
  ("input_revision", "invalid_input_revision");
  ("input_config_hash must be", "invalid_input_config_hash") ].

Definition classify_validation_rejection (reason : string) : string :=
  match List.find (λ nc, contains nc.1 reason) REJECTION_CODES with
  | Some (_, code) => code
  | None => "rejected"
  end.

(** ** Paths, URLs, hashes and numbers *)

Definition validate_non_negative_i64 (value : Z) (field : string) : AppResult unit :=
  guard_valid (0 <=? value) (field +:+ " must be zero or greater").

Definition is_char (a : ascii) (c : list ascii) : bool := bool_decide (c = [a]).

Definition validate_absolute_path (value field : string) : AppResult unit :=
  if (4096 <? len value)
     || existsb (λ c, is_control c || is_char dquote c || is_char "\" c) (chars value)
  then invalid (field +:+ " contains unsupported characters") else
  if negb (is_absolute value) || bool_decide (value = "/")
  then invalid (field +:+ " must be an absolute normalized path") else
  if existsb (λ c, bool_decide (c = CurDir) || bool_decide (c = ParentDir)) (components value)
  then invalid (field +:+ " must be an absolute normalized path")
  else Ok tt.

Definition normalize_absolute_path (value field : string) : AppResult string :=
  let value := trim value in
  if is_empty value then invalid (field +:+ " is required") else
  _ ≔ validate_absolute_path value field ?; Ok value.

Definition normalize_optional_absolute_path (value field : string) : AppResult string :=
  let value := trim value in
  if is_empty value then Ok "" else
  _ ≔ validate_absolute_path value field ?; Ok value.

Definition normalize_optional_url (value field : string) : AppResult string :=
  let value := trim value in
  if is_empty value then Ok "" else
  if (2048 <? len value)
     || existsb (λ c, is_control c
                      || match c with [a] => is_ascii_whitespace a | _ => false end) (chars value)
  then invalid (field +:+ " contains unsupported characters") else
  if negb (starts_with "http://" value || starts_with "https://" value)
  then invalid (field +:+ " must be an http or https URL")
  else Ok (trim_end_byte "/" value).

Definition normalize_optional_store_path (value field : string) : AppResult string :=
  let value := trim value in
  if is_empty value then Ok "" else
  _ ≔ validate_absolute_path value field ?;
  if negb (starts_with "/nix/store/" value)
  then invalid (field +:+ " must be a /nix/store path") else Ok value.

Definition normalize_cache_relative_path (value field : string) : AppResult string :=
  let value := trim value in
  if is_empty value then Ok "" else
  match sanitize_relative_path value with
  | Ok _ => Ok value
  | Err _ => invalid (field +:+ " must be a relative cache path without traversal")
  end.

Definition normalize_optional_nix_hash (value field : string) : AppResult string :=
  let value := trim value in
  if is_empty value then Ok "" else
  if (160 <? len value) || any_byte (λ a, negb (is_alnum a || byte_in ":-_=" a)) value
  then invalid (field +:+ " is not a safe Nix hash") else Ok value.

Definition normalize_optional_cache_token (value field : string) : AppResult string :=
  let value := trim value in
  if is_empty value then Ok "" else
  if (32 <? len value)
     || negb (all_bytes (λ a, is_lower a || is_digit a || byte_in "-" a) value)
  then invalid (field +:+ " is invalid") else Ok value.

Definition validate_optional_timestamp (value : option string) (field : string)
    : AppResult unit :=
  match value with
  | Some value =>
      guard_valid (negb (bool_decide (64 < length (chars value))%nat
                         || existsb is_control (chars value)))
        (field +:+ " is invalid")
  | None => Ok tt
  end.

(** ** Boot profiles and devices *)

Definition validate_profile_name (name : string) : AppResult unit :=
  let trimmed := trim name in
  if is_empty trimmed then invalid "profile name is required" else
  if 120 <? len trimmed then invalid "profile name must be 120 characters or fewer" else
  guard_valid (negb (existsb is_control (chars trimmed)))
    "profile name must not contain control characters".

Definition validate_profile_description (value : option string) : AppResult unit :=
  guard_valid (match value with
               | Some value => bool_decide (length (chars value) ≤ MAX_PROFILE_DESCRIPTION_CHARS)%nat
               | None => true
               end)
    ("profile description must be " +:+ show (Z.of_nat MAX_PROFILE_DESCRIPTION_CHARS)
     +:+ " characters or fewer").

Definition validate_profile_raw_script (value : option string) : AppResult unit :=
  guard_valid (match value with
               | Some value => len (trim value) <=? MAX_PROFILE_RAW_SCRIPT_BYTES
               | None => true
               end)
    ("profile raw_script must be " +:+ show MAX_PROFILE_RAW_SCRIPT_BYTES +:+ " bytes or fewer").

Definition validate_limited_text (value field : string) (max_chars : nat)
    (allow_control : bool) : AppResult unit :=
  if bool_decide (max_chars < length (chars value))%nat
  then invalid (field +:+ " must be " +:+ show (Z.of_nat max_chars) +:+ " characters or fewer")
  else guard_valid (allow_control || negb (existsb is_control (chars value)))
         (field +:+ " must not contain control characters").

Definition validate_limited_optional_text (value : option string) (field : string)
    (max_chars : nat) (allow_control : bool) : AppResult unit :=
  match value with
  | Some value => validate_limited_text value field max_chars allow_control
  | None => Ok tt
  end.

Fixpoint validate_each_tag (tags : list string) : AppResult unit :=
  match tags with
  | [] => Ok tt
  | tag :: tags =>
      _ ≔ validate_limited_text tag "device tag" MAX_DEVICE_TAG_CHARS false ?;
      validate_each_tag tags
  end.

Definition validate_device_tags (tags : list string) : AppResult unit :=
  if bool_decide (MAX_DEVICE_TAGS < length tags)%nat
  then invalid ("device tags must include " +:+ show (Z.of_nat MAX_DEVICE_TAGS)
                +:+ " entries or fewer")
  else validate_each_tag tags.

Definition validate_device_metadata (hostname serial_number : option string) (notes : string)
    (tags : list string) : AppResult unit :=
  _ ≔ validate_limited_optional_text hostname "device hostname" MAX_DEVICE_HOSTNAME_CHARS false ?;
  _ ≔ validate_limited_optional_text serial_number "device serial number"
        MAX_DEVICE_SERIAL_CHARS false ?;
  _ ≔ validate_limited_text notes "device notes" MAX_DEVICE_NOTES_CHARS true ?;
  validate_device_tags tags.

Definition clean_str_ref (value : string) : option string :=
  let trimmed := trim value in if is_empty trimmed then None else Some trimmed.
