(* ===== verification/Multicast.v ===== *)
(** * Workstation multicast: data, policy, tables and atomic sections

    [src/netboot_multicast.rs]: a workstation that boots over the network can
    receive the root file system image by UDP multicast together with others.
    This file holds the component's data (the signed policy, requests, the
    in-memory coordinator, the SQLite rows), its pure checks, the sections it
    runs under the coordinator's mutex and its SQL statements and transactions,
    each as a function on the [World].  [MulticastHandlers] composes them into
    the asynchronous handlers, [MulticastProofs] proves them correct.

    An [Instant] and a [Duration] are a [Z] in milliseconds, a Unix timestamp a
    [Z] in seconds, an RFC 3339 text a [string], an [Ipv4Addr] the [u32] it
    converts to.  A table with a one-column primary key is a [gmap]; the
    registrations, whose [session_id] is [UNIQUE], are keyed by it. *)

From stdpp Require Import base gmap list strings sorting.
From Stdlib Require Import ZArith Lia.
From S2P Require Import Prelude RustStr.

#[local] Open Scope Z_scope.

Definition JOIN_SCHEMA : string := "tiaris.nest.squashfs-multicast-join.v1".
Definition OFFER_SCHEMA : string := "tiaris.nest.squashfs-multicast-offer.v1".
Definition RESULT_SCHEMA : string := "tiaris.nest.squashfs-multicast-result.v1".
Definition POLICY_SCHEMA : string := "tiaris.manage.workstation-multicast-policy.v1".
Definition REPORT_SCHEMA : string := "tiaris.manage.workstation-multicast-report.v1".
Definition TRANSPORT : string := "udpcast-v1".
Definition MINIMUM_ROOTFS_MULTICAST_RUNTIME_VERSION : string := "1.0.56".
Definition MAX_REQUEST_BYTES : Z := 1024.
Definition MAX_PENDING_SESSIONS : nat := 64.
Definition MAX_REPORT_EVENTS : Z := 256.
Definition MAX_REPORT_EVENT_BYTES : Z := 1024 * 1024.
Definition MAX_LATE_RECEIPTS : Z := 1000000000.
Definition RECEIPT_COLLECTION_SECONDS : Z := 30.
Definition FAILURE_COOLDOWN_SECONDS : Z := 15.

(** ** The signed policy *)

Inductive WorkstationMulticastMode := Automatic | HttpOnly.
#[global] Instance mode_eq_dec : EqDecision WorkstationMulticastMode.
Proof. solve_decision. Defined.

Record WorkstationMulticastPolicy := {
  pol_schema : string;
  pol_generation : Z;
  pol_mode : WorkstationMulticastMode;
  pol_multicast_domain_id : string;
  pol_qualification_revision : Z;
  pol_rendezvous_address : Z;
  pol_data_address : Z;
  pol_port_base : Z;
  pol_minimum_receivers : Z;
  pol_join_window_seconds : Z;
  pol_max_bitrate_bps : Z;
  pol_absolute_timeout_seconds : Z;
  pol_report_schema : string;
  pol_maximum_events_per_page : Z;
}.

(** The [n]-th octet of an address, from the most significant. *)
Definition octet (n : Z) (address : Z) : Z :=
  Z.land (Z.shiftr address (8 * (3 - n))) 255.

Definition organization_local_multicast (address : Z) : bool :=
  (octet 0 address =? 239) && in_range 192 195 (octet 1 address).

(** [u32::checked_add(1)]. *)
Definition checked_succ_u32 (x : Z) : option Z :=
  if x <? u32_max then Some (x + 1) else None.

Definition policy_validate (p : WorkstationMulticastPolicy) : result string unit :=
  if negb (bool_decide (pol_schema p = POLICY_SCHEMA))
     || (pol_generation p <? 0)
     || (pol_qualification_revision p <=? 0)
     || negb (bool_decide (pol_report_schema p = REPORT_SCHEMA))
     || negb (in_range 1 64 (pol_maximum_events_per_page p))
     || negb (in_range 2 30 (pol_minimum_receivers p))
     || negb (in_range 1 15 (pol_join_window_seconds p))
     || negb (in_range 1000000 1000000000 (pol_max_bitrate_bps p))
     || negb (in_range 15 120 (pol_absolute_timeout_seconds p))
     || negb (in_range 9000 9998 (pol_port_base p))
     || negb (pol_port_base p mod 2 =? 0)
     || negb (organization_local_multicast (pol_rendezvous_address p))
     || negb (organization_local_multicast (pol_data_address p))
     || negb (bool_decide (checked_succ_u32 (pol_rendezvous_address p)
                           = Some (pol_data_address p)))
  then Err "workstation multicast policy is invalid"
  else Ok tt.

Definition start_timeout_seconds (p : WorkstationMulticastPolicy) : Z :=
  Z.min (sat_add u16_max (pol_join_window_seconds p) 5) 15.

(** ** Requests *)

Record JoinRequest := {
  join_schema : string;
  join_join_token : string;
}.

Inductive MulticastOutcome :=
| NotAttempted | Verified | OfferUnavailable | OfferInvalid
| InterfaceUnavailable | JoinTimeout | SenderUnavailable | ReceiveTimeout
| ReceiverFailed | SizeMismatch | DigestMismatch.

Definition multicast_as_str (o : MulticastOutcome) : string :=
  match o with
  | NotAttempted => "not_attempted"
  | Verified => "verified"
  | OfferUnavailable => "offer_unavailable"
  | OfferInvalid => "offer_invalid"
  | InterfaceUnavailable => "interface_unavailable"
  | JoinTimeout => "join_timeout"
  | SenderUnavailable => "sender_unavailable"
  | ReceiveTimeout => "receive_timeout"
  | ReceiverFailed => "receiver_failed"
  | SizeMismatch => "size_mismatch"
  | DigestMismatch => "digest_mismatch"
  end.

Inductive FallbackOutcome := NotNeeded | HttpVerified | HttpFailed.

Definition fallback_as_str (o : FallbackOutcome) : string :=
  match o with
  | NotNeeded => "not_needed"
  | HttpVerified => "http_verified"
  | HttpFailed => "http_failed"
  end.

Record ResultRequest := {
  res_schema : string;
  res_join_token : string;
  res_multicast_outcome : MulticastOutcome;
  res_fallback_outcome : FallbackOutcome;
}.

Definition has_consistent_outcomes (r : ResultRequest) : bool :=
  match res_multicast_outcome r, res_fallback_outcome r with
  | Verified, NotNeeded => true
  | (NotAttempted | OfferUnavailable | OfferInvalid | InterfaceUnavailable
     | JoinTimeout | SenderUnavailable | ReceiveTimeout | ReceiverFailed
     | SizeMismatch | DigestMismatch), (HttpVerified | HttpFailed) => true
  | _, _ => false
  end.

Definition is_sha256 (value : string) : bool :=
  (len value =? 64) && all_bytes is_lower_hex value.

Definition validate_sha256 (value : string) : result string unit :=
  ensure (is_sha256 value) "multicast component identity is invalid".

(** ** The coordinator *)

Record MulticastOffer := {
  off_schema : string;
  off_transport : string;
  off_component_sha256 : string;
  off_size_bytes : Z;
  off_rendezvous_address : Z;
  off_port_base : Z;
  off_start_timeout_seconds : Z;
  off_receive_timeout_seconds : Z;
  off_absolute_timeout_seconds : Z;
}.

Record TransferKey := {
  key_component_sha256 : string;
  key_size_bytes : Z;
  key_interface_fingerprint : string;
}.
#[global] Instance transfer_key_eq_dec : EqDecision TransferKey.
Proof. solve_decision. Defined.

Inductive BatchPhase := Gathering | SenderStarting | Sending.
#[global] Instance phase_eq_dec : EqDecision BatchPhase.
Proof. solve_decision. Defined.

(** [bat_registrations] maps a session to its [discovery_deadline]. *)
Record Batch := {
  bat_transfer_id : string;
  bat_bundle_sha256 : string;
  bat_key : TransferKey;
  bat_interface_name : string;
  bat_artifact_path : string;
  bat_offer : MulticastOffer;
  bat_policy : WorkstationMulticastPolicy;
  bat_phase : BatchPhase;
  bat_gathering_deadline : Z;
  bat_registrations : gmap string Z;
}.

Definition with_phase (ph : BatchPhase) (b : Batch) : Batch := {|
  bat_transfer_id := bat_transfer_id b;
  bat_bundle_sha256 := bat_bundle_sha256 b;
  bat_key := bat_key b;
  bat_interface_name := bat_interface_name b;
  bat_artifact_path := bat_artifact_path b;
  bat_offer := bat_offer b;
  bat_policy := bat_policy b;
  bat_phase := ph;
  bat_gathering_deadline := bat_gathering_deadline b;
  bat_registrations := bat_registrations b;
|}.

Definition with_registrations (rs : gmap string Z) (b : Batch) : Batch := {|
  bat_transfer_id := bat_transfer_id b;
  bat_bundle_sha256 := bat_bundle_sha256 b;
  bat_key := bat_key b;
  bat_interface_name := bat_interface_name b;
  bat_artifact_path := bat_artifact_path b;
  bat_offer := bat_offer b;
  bat_policy := bat_policy b;
  bat_phase := bat_phase b;
  bat_gathering_deadline := bat_gathering_deadline b;
  bat_registrations := rs;
|}.

Definition batch_accepts_registration (b : Batch) (key : TransferKey)
    (policy_generation : Z) (session_id : string) : bool :=
  bool_decide (bat_phase b = Gathering)
  && bool_decide (bat_key b = key)
  && (pol_generation (bat_policy b) =? policy_generation)
  && bool_decide (size (bat_registrations b) < MAX_PENDING_SESSIONS)%nat
  && bool_decide (bat_registrations b !! session_id = None).

Record CoordinatorState := {
  co_policy : option WorkstationMulticastPolicy;
  co_policy_hash : string;
  co_lane_authorized : bool;
  co_batch : option Batch;
  co_cooldown_until : option Z;
}.

(** ** The tables *)

Record PolicyRow := {
  prow_generation : Z;
  prow_sha256 : string;
  prow_json : option string;
  prow_lane_authorized : bool;
  prow_updated_at : string;
}.

Record TransferRow := {
  tr_bundle_sha256 : string;
  tr_component_sha256 : string;
  tr_size_bytes : Z;
  tr_interface_fingerprint : string;
  tr_policy_generation : Z;
  tr_state : string;
  tr_registered_sessions : Z;
  tr_sender_outcome : string;
  tr_started_at : option string;
  tr_sender_finished_at : option string;
  tr_receipt_deadline : option Z;
  tr_finalized_at : option string;
  tr_updated_at : string;
}.

Record RegistrationRow := {
  reg_transfer_id : string;
  reg_multicast_outcome : option string;
  reg_fallback_outcome : option string;
  reg_receipt_recorded_at : option string;
}.

Record ReportState := {
  rs_instance_id : string;
  rs_next_event_id : Z;
  rs_acknowledged_through : Z;
  rs_events_omitted : Z;
  rs_late_receipts : Z;
  rs_updated_at : string;
}.

Record EventRow := {
  ev_json : string;
  ev_size_bytes : Z;
}.

(** The columns of [nest_boot_sessions] and [workstation_netboot_bundles] this
    component reads or writes. *)
Record BootSessionRow := {
  bs_join_token_sha256 : option string;
  bs_bundle_sha256 : string;
  bs_expires_at : Z;
  bs_cleanup_after : Z;
  bs_multicast_finalized_at : option string;
}.

Record BundleRow := {
  bun_runtime_version : string;
  bun_descriptor_json : string;
  bun_root_path : string;
  bun_retention_state : string;
  bun_last_served_at : option string;
  bun_updated_at : string;
}.

Record Db := {
  db_policy : PolicyRow;
  db_transfers : gmap string TransferRow;
  db_registrations : gmap string RegistrationRow;
  db_report : ReportState;
  db_events : gmap Z EventRow;
  db_sessions : gmap string BootSessionRow;
  db_bundles : gmap string BundleRow;
}.

(** The shared state: the coordinator behind its mutex, the atomic
    [shutting_down], the watch channels whose value is [true] (by transfer; the
    sender of a channel is shared by every clone of the batch), the database. *)
Record World := {
  w_coord : CoordinatorState;
  w_shutting_down : bool;
  w_cancelled : gset string;
  w_db : Db;
}.

Definition set_coord (c : CoordinatorState) (w : World) : World :=
  {| w_coord := c; w_shutting_down := w_shutting_down w;
     w_cancelled := w_cancelled w; w_db := w_db w |}.
Definition set_db (d : Db) (w : World) : World :=
  {| w_coord := w_coord w; w_shutting_down := w_shutting_down w;
     w_cancelled := w_cancelled w; w_db := d |}.

Definition set_batch (b : option Batch) (c : CoordinatorState) : CoordinatorState :=
  {| co_policy := co_policy c; co_policy_hash := co_policy_hash c;
     co_lane_authorized := co_lane_authorized c; co_batch := b;
     co_cooldown_until := co_cooldown_until c |}.
Definition set_cooldown (t : option Z) (c : CoordinatorState) : CoordinatorState :=
  {| co_policy := co_policy c; co_policy_hash := co_policy_hash c;
     co_lane_authorized := co_lane_authorized c; co_batch := co_batch c;
     co_cooldown_until := t |}.

Definition set_policy_row (r : PolicyRow) (d : Db) : Db :=
  {| db_policy := r; db_transfers := db_transfers d;
     db_registrations := db_registrations d; db_report := db_report d;
     db_events := db_events d; db_sessions := db_sessions d;
     db_bundles := db_bundles d |}.
Definition set_transfers (t : gmap string TransferRow) (d : Db) : Db :=
  {| db_policy := db_policy d; db_transfers := t;
     db_registrations := db_registrations d; db_report := db_report d;
     db_events := db_events d; db_sessions := db_sessions d;
     db_bundles := db_bundles d |}.
Definition set_db_registrations (r : gmap string RegistrationRow) (d : Db) : Db :=
  {| db_policy := db_policy d; db_transfers := db_transfers d;
     db_registrations := r; db_report := db_report d;
     db_events := db_events d; db_sessions := db_sessions d;
     db_bundles := db_bundles d |}.
Definition set_report (r : ReportState) (d : Db) : Db :=
  {| db_policy := db_policy d; db_transfers := db_transfers d;
     db_registrations := db_registrations d; db_report := r;
     db_events := db_events d; db_sessions := db_sessions d;
     db_bundles := db_bundles d |}.
Definition set_events (e : gmap Z EventRow) (d : Db) : Db :=
  {| db_policy := db_policy d; db_transfers := db_transfers d;
     db_registrations := db_registrations d; db_report := db_report d;
     db_events := e; db_sessions := db_sessions d;
     db_bundles := db_bundles d |}.
Definition set_sessions (s : gmap string BootSessionRow) (d : Db) : Db :=
  {| db_policy := db_policy d; db_transfers := db_transfers d;
     db_registrations := db_registrations d; db_report := db_report d;
     db_events := db_events d; db_sessions := s;
     db_bundles := db_bundles d |}.
Definition set_bundles (b : gmap string BundleRow) (d : Db) : Db :=
  {| db_policy := db_policy d; db_transfers := db_transfers d;
     db_registrations := db_registrations d; db_report := db_report d;
     db_events := db_events d; db_sessions := db_sessions d;
     db_bundles := b |}.

(** ** Code outside the repository

    SHA-256, the JSON codecs (serde), semantic versions and chrono's timestamp
    parser are arguments of the definitions that use them. *)

Record WorkstationMulticastTransferEvent := {
  event_id : Z;
  event_component_sha256 : string;
  event_registered_session_count : Z;
  event_multicast_verified_receipt_count : Z;
  event_missing_receipt_count : Z;
  event_fallback_counts : gmap string Z;
  event_payload_bytes : Z;
  event_estimated_unicast_bytes_avoided : Z;
  event_duration_milliseconds : Z;
}.

Class External := {
  sha256_hex : string → string;
  (** [serde_json::from_slice::<JoinRequest>] and [ResultRequest]. *)
  decode_join : string → option JoinRequest;
  decode_result : string → option ResultRequest;
  (** [serde_json::Value] and the policy's codecs. *)
  json_value : Type;
  policy_from_value : json_value → option WorkstationMulticastPolicy;
  policy_from_str : string → option WorkstationMulticastPolicy;
  policy_to_string : WorkstationMulticastPolicy → string;
  event_to_string : WorkstationMulticastTransferEvent → string;
  event_from_str : string → option WorkstationMulticastTransferEvent;
  (** [components.nix_store_squashfs] of a decoded descriptor. *)
  descriptor_squashfs : string → option (string * Z);
  (** [semver::Version]. *)
  version : Type;
  version_parse : string → option version;
  version_ltb : version → version → bool;
  (** [DateTime::parse_from_rfc3339(_).timestamp_millis()]. *)
  rfc3339_millis : string → option Z;
  uuid_valid : string → bool;
}.

Section Sections.
Context `{!External}.

Definition policy_sha256 (p : WorkstationMulticastPolicy) : string :=
  sha256_hex (policy_to_string p).

Definition join_token_from_nonce (nonce : string) : string :=
  sha256_hex (JOIN_SCHEMA +:+ nl +:+ nonce).

Definition stored_join_token_hash (nonce : string) : string :=
  sha256_hex (join_token_from_nonce nonce).

Definition parse_timestamp_millis (value : string) : option Z :=
  m ← rfc3339_millis value; try_unsigned u64_max m.

(** ** Sections under the coordinator's mutex *)

Definition get_policy (w : World)
    : option (WorkstationMulticastPolicy * string * bool) * World :=
  let c := w_coord w in
  ((λ p, (p, co_policy_hash c, co_lane_authorized c)) <$> co_policy c, w).

Definition remove_live_registration (transfer_id session_id : string) (w : World)
    : unit * World :=
  let c := w_coord w in
  match co_batch c with
  | None => (tt, w)
  | Some b =>
      if bool_decide (bat_transfer_id b = transfer_id)
         && bool_decide (bat_phase b = Gathering)
      then (tt, set_coord
                  (set_batch (Some (with_registrations
                     (delete session_id (bat_registrations b)) b)) c) w)
      else (tt, w)
  end.

(** A gathering batch is removed and its transfer returned; a batch whose
    sender runs only has its watch channel set. *)
Definition request_batch_cancellation (b : Batch) (w : World) : World :=
  {| w_coord := w_coord w; w_shutting_down := w_shutting_down w;
     w_cancelled := {[ bat_transfer_id b ]} ∪ w_cancelled w; w_db := w_db w |}.

Definition cancel_active (w : World) : option string * World :=
  let c := w_coord w in
  match co_batch c with
  | Some b =>
      if bool_decide (bat_phase b = Gathering)
      then (Some (bat_transfer_id b), set_coord (set_batch None c) w)
      else (None, request_batch_cancellation b w)
  | None => (None, w)
  end.

Record EligibleSession := {
  es_session_id : string;
  es_bundle_sha256 : string;
  es_component_sha256 : string;
  es_size_bytes : Z;
  es_root_path : string;
}.

Record NetworkSelection := {
  net_source_matches_public_base : bool;
  net_interface_name : string;
  net_interface_fingerprint : string;
  net_network_plan_fingerprint : string;
}.

Record Joined := {
  jn_transfer_id : string;
  jn_offer : MulticastOffer;
  jn_created : bool;
  jn_deadline : Z;
}.

Definition new_offer (p : WorkstationMulticastPolicy) (s : EligibleSession)
    : MulticastOffer := {|
  off_schema := OFFER_SCHEMA;
  off_transport := TRANSPORT;
  off_component_sha256 := es_component_sha256 s;
  off_size_bytes := es_size_bytes s;
  off_rendezvous_address := pol_rendezvous_address p;
  off_port_base := pol_port_base p;
  off_start_timeout_seconds := start_timeout_seconds p;
  off_receive_timeout_seconds := Z.min 30 (pol_absolute_timeout_seconds p);
  off_absolute_timeout_seconds := pol_absolute_timeout_seconds p;
|}.

(** The registration section of [join_cohort]: [c] is the coordinator once an
    expired cooldown has been cleared. *)
Definition join_register (p : WorkstationMulticastPolicy) (net : NetworkSelection)
    (s : EligibleSession) (now : Z) (fresh_id : string) (c : CoordinatorState)
    : option Joined * CoordinatorState :=
  let deadline := now + pol_join_window_seconds p * 1000 in
  let gathering_deadline := deadline - 500 in
  let key := {| key_component_sha256 := es_component_sha256 s;
                key_size_bytes := es_size_bytes s;
                key_interface_fingerprint := net_interface_fingerprint net |} in
  match co_batch c with
  | Some b =>
      if negb (batch_accepts_registration b key (pol_generation p) (es_session_id s))
      then (None, c) else
      let retained := filter (λ kv, now < kv.2) (bat_registrations b) in
      if bool_decide (MAX_PENDING_SESSIONS ≤ size retained)%nat
      then (None, set_batch (Some (with_registrations retained b)) c) else
      let deadline := bat_gathering_deadline b + 500 in
      let b' := with_registrations (<[es_session_id s := deadline]> retained) b in
      (Some {| jn_transfer_id := bat_transfer_id b; jn_offer := bat_offer b;
               jn_created := false; jn_deadline := deadline |},
       set_batch (Some b') c)
  | None =>
      let offer := new_offer p s in
      let b := {| bat_transfer_id := fresh_id;
                  bat_bundle_sha256 := es_bundle_sha256 s;
                  bat_key := key;
                  bat_interface_name := net_interface_name net;
                  bat_artifact_path := es_root_path s +:+ "/nix-store.squashfs";
                  bat_offer := offer;
                  bat_policy := p;
                  bat_phase := Gathering;
                  bat_gathering_deadline := gathering_deadline;
                  bat_registrations := {[ es_session_id s := deadline ]} |} in
      (Some {| jn_transfer_id := fresh_id; jn_offer := offer;
               jn_created := true; jn_deadline := deadline |},
       set_batch (Some b) c)
  end.

Definition join_section (p : WorkstationMulticastPolicy) (net : NetworkSelection)
    (s : EligibleSession) (now : Z) (fresh_id : string) (w : World)
    : option Joined * World :=
  let c := w_coord w in
  match co_cooldown_until c with
  | Some cooldown =>
      if now <? cooldown then (None, w) else
      let '(r, c') := join_register p net s now fresh_id (set_cooldown None c) in
      (r, set_coord c' w)
  | None =>
      let '(r, c') := join_register p net s now fresh_id c in (r, set_coord c' w)
  end.

(** What [join_cohort] undoes when its registration could not be persisted. *)
Definition join_undo (transfer_id session_id : string) (created : bool) (w : World)
    : unit * World :=
  let c := w_coord w in
  match co_batch c with
  | Some b =>
      if bool_decide (bat_transfer_id b = transfer_id) then
        if created then (tt, set_coord (set_batch None c) w)
        else (tt, set_coord (set_batch (Some (with_registrations
                    (delete session_id (bat_registrations b)) b)) c) w)
      else (tt, w)
  | None => (tt, w)
  end.

(** One look of [join_cohort]'s waiting loop: an offer, nothing, or go on. *)
Inductive Waited := WaitOffer | WaitNone | WaitMore.
Definition join_look (transfer_id : string) (w : World) : Waited * World :=
  match co_batch (w_coord w) with
  | Some b =>
      if bool_decide (bat_transfer_id b = transfer_id) then
        match bat_phase b with
        | SenderStarting | Sending => (WaitOffer, w)
        | Gathering => (WaitMore, w)
        end
      else (WaitNone, w)
  | None => (WaitNone, w)
  end.

Inductive Decision := Start | Fail | Ignore.

(** The decision of [expire_gathering]. *)
Definition expire_section (transfer_id : string) (w : World) : Decision * World :=
  let c := w_coord w in
  match co_batch c with
  | Some b =>
      if bool_decide (bat_transfer_id b = transfer_id)
         && bool_decide (bat_phase b = Gathering) then
        if pol_minimum_receivers (bat_policy b) <=? Z.of_nat (size (bat_registrations b))
        then (Start, set_coord (set_batch (Some (with_phase SenderStarting b)) c) w)
        else (Fail, set_coord (set_batch None c) w)
      else (Ignore, w)
  | None => (Ignore, w)
  end.

(** [coordinator.batch = None] when it still is [transfer_id]'s. *)
Definition drop_batch (transfer_id : string) (w : World) : unit * World :=
  let c := w_coord w in
  match co_batch c with
  | Some b => if bool_decide (bat_transfer_id b = transfer_id)
              then (tt, set_coord (set_batch None c) w) else (tt, w)
  | None => (tt, w)
  end.

(** The last section of [spawn_sender]. *)
Definition sender_done (transfer_id : string) (cooldown : option Z) (w : World)
    : unit * World :=
  let w' := (drop_batch transfer_id w).2 in
  match cooldown with
  | Some until => (tt, set_coord (set_cooldown (Some until) (w_coord w')) w')
  | None => (tt, w')
  end.

(** The two sections of [run_sender]: the batch it sends, and its phase. *)
Definition sender_batch (transfer_id : string) (w : World) : option Batch * World :=
  match co_batch (w_coord w) with
  | Some b => if bool_decide (bat_transfer_id b = transfer_id)
              then (Some b, w) else (None, w)
  | None => (None, w)
  end.
Definition sender_sending (transfer_id : string) (w : World) : unit * World :=
  let c := w_coord w in
  match co_batch c with
  | Some b => if bool_decide (bat_transfer_id b = transfer_id)
              then (tt, set_coord (set_batch (Some (with_phase Sending b)) c) w)
              else (tt, w)
  | None => (tt, w)
  end.

(** The arguments [run_sender] gives the pinned [udp-sender]; the address texts
    are [Ipv4Addr]'s. *)
Definition show_ipv4 (a : Z) : string :=
  show (octet 0 a) +:+ "." +:+ show (octet 1 a) +:+ "."
  +:+ show (octet 2 a) +:+ "." +:+ show (octet 3 a).
Definition sender_arguments (b : Batch) : list string :=
  let p := bat_policy b in
  ["--interface"; bat_interface_name b;
   "--mcast-rdv-address"; show_ipv4 (pol_rendezvous_address p);
   "--mcast-data-address"; show_ipv4 (pol_data_address p);
   "--portbase"; show (pol_port_base p);
   "--ttl"; "1";
   "--max-bitrate"; show (pol_max_bitrate_bps p);
   "--min-receivers"; show (pol_minimum_receivers p);
   "--min-wait"; show (pol_join_window_seconds p);
   "--start-timeout"; show (start_timeout_seconds p);
   "--retries-until-drop"; "5"; "--blocksize"; "1456";
   "--full-duplex"; "--nopointopoint"; "--nokbd"; "--no-progress"].

(** ** SQL statements and transactions *)

Definition alter_transfer (transfer_id : string) (P : TransferRow → bool)
    (f : TransferRow → TransferRow) (d : Db) : Z * Db :=
  match db_transfers d !! transfer_id with
  | Some t => if P t then (1, set_transfers (<[transfer_id := f t]> (db_transfers d)) d)
              else (0, d)
  | None => (0, d)
  end.

(** The query of [discover_inner]: the join token is unique. *)
Definition select_eligible (token_hash bundle : string) (now : Z) (d : Db)
    : option (string * BootSessionRow * BundleRow) :=
  head (omap (λ '(sid, s),
    if bool_decide (bs_join_token_sha256 s = Some token_hash)
       && bool_decide (bs_bundle_sha256 s = bundle)
       && (now <=? bs_expires_at s)
       && bool_decide (bs_multicast_finalized_at s = None)
    then match db_bundles d !! bundle with
         | Some b => if bool_decide (bun_retention_state b = "verified")
                     then Some (sid, s, b) else None
         | None => None
         end
    else None) (map_to_list (db_sessions d))).

Definition registrations_of (transfer_id : string) (d : Db) : gmap string RegistrationRow :=
  filter (λ kv, reg_transfer_id kv.2 = transfer_id) (db_registrations d).

(** The persistence transaction of [join_cohort]; [None] when a conversion, a
    key, a check or a foreign key refuses it. *)
Definition persist_registration (j : Joined) (p : WorkstationMulticastPolicy)
    (net : NetworkSelection) (s : EligibleSession) (now_text : string) (d : Db)
    : option Db :=
  d1 ← (if jn_created j then
          size_bytes ← try_i64 (es_size_bytes s);
          if bool_decide (db_transfers d !! jn_transfer_id j = None)
             && (0 <? size_bytes) && (0 <=? pol_generation p)
          then Some (set_transfers (<[jn_transfer_id j := {|
                 tr_bundle_sha256 := es_bundle_sha256 s;
                 tr_component_sha256 := es_component_sha256 s;
                 tr_size_bytes := size_bytes;
                 tr_interface_fingerprint := net_interface_fingerprint net;
                 tr_policy_generation := pol_generation p;
                 tr_state := "gathering";
                 tr_registered_sessions := 1;
                 tr_sender_outcome := "";
                 tr_started_at := None;
                 tr_sender_finished_at := None;
                 tr_receipt_deadline := None;
                 tr_finalized_at := None;
                 tr_updated_at := now_text |}]> (db_transfers d)) d)
          else None
        else Some d);
  t ← db_transfers d1 !! jn_transfer_id j;
  if bool_decide (db_registrations d1 !! es_session_id s = None)
     && bool_decide (is_Some (db_sessions d1 !! es_session_id s))
  then
    let d2 := set_db_registrations (<[es_session_id s := {|
                reg_transfer_id := jn_transfer_id j;
                reg_multicast_outcome := None;
                reg_fallback_outcome := None;
                reg_receipt_recorded_at := None |}]> (db_registrations d1)) d1 in
    Some (set_transfers (<[jn_transfer_id j := {|
            tr_bundle_sha256 := tr_bundle_sha256 t;
            tr_component_sha256 := tr_component_sha256 t;
            tr_size_bytes := tr_size_bytes t;
            tr_interface_fingerprint := tr_interface_fingerprint t;
            tr_policy_generation := tr_policy_generation t;
            tr_state := tr_state t;
            tr_registered_sessions := Z.of_nat (size (registrations_of (jn_transfer_id j) d2));
            tr_sender_outcome := tr_sender_outcome t;
            tr_started_at := tr_started_at t;
            tr_sender_finished_at := tr_sender_finished_at t;
            tr_receipt_deadline := tr_receipt_deadline t;
            tr_finalized_at := tr_finalized_at t;
            tr_updated_at := now_text |}]> (db_transfers d2)) d2)
  else None.

Definition with_tr_state (st : string) (now_text : string) (t : TransferRow) : TransferRow := {|
  tr_bundle_sha256 := tr_bundle_sha256 t; tr_component_sha256 := tr_component_sha256 t;
  tr_size_bytes := tr_size_bytes t;
  tr_interface_fingerprint := tr_interface_fingerprint t;
  tr_policy_generation := tr_policy_generation t;
  tr_state := st;
  tr_registered_sessions := tr_registered_sessions t;
  tr_sender_outcome := tr_sender_outcome t;
  tr_started_at := tr_started_at t;
  tr_sender_finished_at := tr_sender_finished_at t;
  tr_receipt_deadline := tr_receipt_deadline t;
  tr_finalized_at := tr_finalized_at t;
  tr_updated_at := now_text |}.

(** [UPDATE .. SET state = 'sender_starting' .. AND state = 'gathering']. *)
Definition mark_sender_starting (transfer_id now_text : string) (d : Db) : Z * Db :=
  alter_transfer transfer_id (λ t, bool_decide (tr_state t = "gathering"))
    (with_tr_state "sender_starting" now_text) d.

(** [UPDATE .. SET state = 'sending', started_at = ?]. *)
Definition mark_sending (transfer_id now_text : string) (d : Db) : Z * Db :=
  alter_transfer transfer_id (λ _, true) (λ t, {|
    tr_bundle_sha256 := tr_bundle_sha256 t; tr_component_sha256 := tr_component_sha256 t;
    tr_size_bytes := tr_size_bytes t;
    tr_interface_fingerprint := tr_interface_fingerprint t;
    tr_policy_generation := tr_policy_generation t;
    tr_state := "sending";
    tr_registered_sessions := tr_registered_sessions t;
    tr_sender_outcome := tr_sender_outcome t;
    tr_started_at := Some now_text;
    tr_sender_finished_at := tr_sender_finished_at t;
    tr_receipt_deadline := tr_receipt_deadline t;
    tr_finalized_at := tr_finalized_at t;
    tr_updated_at := now_text |}) d.

Definition with_finish (row_state outcome finished : string) (deadline : Z)
    (t : TransferRow) : TransferRow := {|
  tr_bundle_sha256 := tr_bundle_sha256 t; tr_component_sha256 := tr_component_sha256 t;
  tr_size_bytes := tr_size_bytes t;
  tr_interface_fingerprint := tr_interface_fingerprint t;
  tr_policy_generation := tr_policy_generation t;
  tr_state := row_state;
  tr_registered_sessions := tr_registered_sessions t;
  tr_sender_outcome := outcome;
  tr_started_at := tr_started_at t;
  tr_sender_finished_at := Some finished;
  tr_receipt_deadline := Some deadline;
  tr_finalized_at := tr_finalized_at t;
  tr_updated_at := finished |}.

(** The statement of [finish_transfer_row] (and of [shutdown]). *)
Definition finish_row (transfer_id row_state outcome finished : string) (now : Z)
    (d : Db) : Z * Db :=
  alter_transfer transfer_id (λ t, bool_decide (tr_finalized_at t = None))
    (with_finish row_state outcome finished (now + RECEIPT_COLLECTION_SECONDS)) d.

Definition active_state (st : string) : bool :=
  bool_decide (st ∈ ["gathering"; "sender_starting"; "sending"]).
Definition terminal_state (st : string) : bool :=
  bool_decide (st ∈ ["completed"; "failed"; "interrupted"]).

(** [initialize]'s interruption of what a previous process left active. *)
Definition interrupt_active (now_text : string) (receipt_deadline : Z) (d : Db) : unit * Db :=
  (tt, set_transfers ((λ t : TransferRow,
    if active_state (tr_state t) then {|
      tr_bundle_sha256 := tr_bundle_sha256 t; tr_component_sha256 := tr_component_sha256 t;
      tr_size_bytes := tr_size_bytes t;
      tr_interface_fingerprint := tr_interface_fingerprint t;
      tr_policy_generation := tr_policy_generation t;
      tr_state := "interrupted";
      tr_registered_sessions := tr_registered_sessions t;
      tr_sender_outcome := "service_restart";
      tr_started_at := tr_started_at t;
      tr_sender_finished_at := Some (default now_text (tr_sender_finished_at t));
      tr_receipt_deadline := Some (default receipt_deadline (tr_receipt_deadline t));
      tr_finalized_at := tr_finalized_at t;
      tr_updated_at := now_text |}
    else t) <$> db_transfers d) d).

(** The unfinalized terminal transfers [initialize] re-arms. *)
Definition pending_finalizations (d : Db) : list (string * option Z) :=
  omap (λ '(id, t),
    if bool_decide (tr_finalized_at t = None) && terminal_state (tr_state t)
    then Some (id, tr_receipt_deadline t) else None) (map_to_list (db_transfers d)).

(** The session a receipt is for: [record_result_inner]'s first query. *)
Definition select_receipt_session (token_hash bundle : string) (now : Z) (d : Db)
    : option (string * option string) :=
  head (omap (λ '(sid, s),
    if bool_decide (bs_join_token_sha256 s = Some token_hash)
       && bool_decide (bs_bundle_sha256 s = bundle)
       && (now <=? bs_cleanup_after s)
    then Some (sid, bs_multicast_finalized_at s) else None)
    (map_to_list (db_sessions d))).

Definition with_late_receipt (now_text : string) (r : ReportState) : ReportState := {|
  rs_instance_id := rs_instance_id r; rs_next_event_id := rs_next_event_id r;
  rs_acknowledged_through := rs_acknowledged_through r;
  rs_events_omitted := rs_events_omitted r;
  rs_late_receipts := Z.min (rs_late_receipts r + 1) MAX_LATE_RECEIPTS;
  rs_updated_at := now_text |}.

Definition count_late_receipt (now_text : string) (d : Db) : unit * Db :=
  (tt, set_report (with_late_receipt now_text (db_report d)) d).

(** The open registration of a session: its second query. *)
Definition select_open_registration (session_id : string) (d : Db)
    : option (string * option string * option string) :=
  r ← db_registrations d !! session_id;
  t ← db_transfers d !! reg_transfer_id r;
  if bool_decide (tr_finalized_at t = None)
  then Some (reg_transfer_id r, reg_multicast_outcome r, reg_fallback_outcome r)
  else None.

Definition record_receipt (transfer_id session_id multicast fallback now_text : string)
    (d : Db) : unit * Db :=
  match db_registrations d !! session_id with
  | Some r =>
      if bool_decide (reg_transfer_id r = transfer_id)
         && bool_decide (reg_multicast_outcome r = None)
         && bool_decide (reg_fallback_outcome r = None)
      then (tt, set_db_registrations (<[session_id := {|
                  reg_transfer_id := transfer_id;
                  reg_multicast_outcome := Some multicast;
                  reg_fallback_outcome := Some fallback;
                  reg_receipt_recorded_at := Some now_text |}]> (db_registrations d)) d)
      else (tt, d)
  | None => (tt, d)
  end.

(** [COUNT], [COUNT(multicast_outcome)] and the deadline of a transfer.  With no
    registration the aggregate still yields a row, with no deadline. *)
Definition receipt_counts (transfer_id : string) (d : Db) : Z * Z * option Z :=
  match db_transfers d !! transfer_id with
  | Some t =>
      let rs := registrations_of transfer_id d in
      let done := filter (λ kv, is_Some (reg_multicast_outcome kv.2)) rs in
      if bool_decide (rs = ∅) then (0, 0, None)
      else (Z.of_nat (size rs), Z.of_nat (size done), tr_receipt_deadline t)
  | None => (0, 0, None)
  end.

(** The reasons of the receipts that fell back to HTTP, counted. *)
Definition count_fallback (r : RegistrationRow) (acc : gmap string Z) : gmap string Z :=
  if bool_decide (reg_fallback_outcome r = Some "http_verified")
     || bool_decide (reg_fallback_outcome r = Some "http_failed")
  then let reason := default "missing_receipt" (reg_multicast_outcome r) in
       <[reason := sat_add u16_max (default 0 (acc !! reason)) 1]> acc
  else acc.

Definition fallback_counts (receipts : list RegistrationRow) : gmap string Z :=
  foldl (λ acc r, count_fallback r acc) ∅ receipts.

Definition verified_count (receipts : list RegistrationRow) : Z :=
  Z.of_nat (count (λ r, bool_decide (reg_multicast_outcome r = Some "verified")) receipts).

Definition receipts_of (transfer_id : string) (d : Db) : list RegistrationRow :=
  snd <$> map_to_list (registrations_of transfer_id d).

(** The event [finalize_transfer_event] builds; [None] when a conversion fails. *)
Definition build_event (t : TransferRow) (receipts : list RegistrationRow) (next_id : Z)
    : option WorkstationMulticastTransferEvent :=
  let verified := verified_count receipts in
  let fallbacks := fallback_counts receipts in
  registered ← try_unsigned u64_max (tr_registered_sessions t);
  let missing := sat_sub registered
                   (sat_add u64_max verified (map_sum id fallbacks)) in
  let duration :=
    match started ← tr_started_at t; parse_timestamp_millis started,
          finished ← tr_sender_finished_at t; parse_timestamp_millis finished with
    | Some started, Some finished => sat_sub finished started
    | _, _ => 0
    end in
  payload ← try_unsigned u64_max (tr_size_bytes t);
  count_registered ← try_unsigned u16_max (Z.min (tr_registered_sessions t) 64);
  count_verified ← try_unsigned u16_max (Z.min verified 64);
  count_missing ← try_unsigned u16_max (Z.min missing 64);
  Some {| event_id := next_id;
          event_component_sha256 := tr_component_sha256 t;
          event_registered_session_count := count_registered;
          event_multicast_verified_receipt_count := count_verified;
          event_missing_receipt_count := count_missing;
          event_fallback_counts := fallbacks;
          event_payload_bytes := payload;
          event_estimated_unicast_bytes_avoided :=
            sat_mul u64_max payload (sat_sub verified 1);
          event_duration_milliseconds := duration |}.

Definition with_omitted (now_text : string) (r : ReportState) : ReportState := {|
  rs_instance_id := rs_instance_id r; rs_next_event_id := rs_next_event_id r;
  rs_acknowledged_through := rs_acknowledged_through r;
  rs_events_omitted := sat_add_i64 (rs_events_omitted r) 1;
  rs_late_receipts := rs_late_receipts r; rs_updated_at := now_text |}.
Definition with_next_event (now_text : string) (r : ReportState) : ReportState := {|
  rs_instance_id := rs_instance_id r; rs_next_event_id := rs_next_event_id r + 1;
  rs_acknowledged_through := rs_acknowledged_through r;
  rs_events_omitted := rs_events_omitted r;
  rs_late_receipts := rs_late_receipts r; rs_updated_at := now_text |}.

(** Queue the event, or count it as omitted when the queue is full. *)
Definition queue_event (e : WorkstationMulticastTransferEvent) (now_text : string) (d : Db)
    : option Db :=
  let r := db_report d in
  let queued := filter (λ kv, rs_acknowledged_through r < kv.1) (db_events d) in
  let json := event_to_string e in
  if (MAX_REPORT_EVENTS <=? Z.of_nat (size queued))
     || (MAX_REPORT_EVENT_BYTES <? sat_add u64_max (map_sum ev_size_bytes queued) (len json))
  then Some (set_report (with_omitted now_text r) d)
  else
    if bool_decide (db_events d !! rs_next_event_id r = None)
       && (0 <? rs_next_event_id r) && (0 <? len json)
    then Some (set_report (with_next_event now_text r)
                 (set_events (<[rs_next_event_id r :=
                    {| ev_json := json; ev_size_bytes := len json |}]> (db_events d)) d))
    else None.

Definition finalize_session (now_text : string) (s : BootSessionRow) : BootSessionRow := {|
  bs_join_token_sha256 := bs_join_token_sha256 s; bs_bundle_sha256 := bs_bundle_sha256 s;
  bs_expires_at := bs_expires_at s; bs_cleanup_after := bs_cleanup_after s;
  bs_multicast_finalized_at := Some (default now_text (bs_multicast_finalized_at s)) |}.

Definition with_finalized (now_text : string) (t : TransferRow) : TransferRow := {|
  tr_bundle_sha256 := tr_bundle_sha256 t; tr_component_sha256 := tr_component_sha256 t;
  tr_size_bytes := tr_size_bytes t;
  tr_interface_fingerprint := tr_interface_fingerprint t;
  tr_policy_generation := tr_policy_generation t;
  tr_state := tr_state t;
  tr_registered_sessions := tr_registered_sessions t;
  tr_sender_outcome := tr_sender_outcome t;
  tr_started_at := tr_started_at t;
  tr_sender_finished_at := tr_sender_finished_at t;
  tr_receipt_deadline := tr_receipt_deadline t;
  tr_finalized_at := Some now_text;
  tr_updated_at := now_text |}.

(** Close a transfer: its sessions, its row, its registrations. *)
Definition close_transfer (transfer_id now_text : string) (t : TransferRow) (d : Db) : Db :=
  let members := registrations_of transfer_id d in
  let sessions := map_imap (λ sid s,
    Some (match members !! sid with Some _ => finalize_session now_text s | None => s end))
    (db_sessions d) in
  set_db_registrations (filter (λ kv, reg_transfer_id kv.2 ≠ transfer_id) (db_registrations d))
    (set_transfers (<[transfer_id := with_finalized now_text t]> (db_transfers d))
      (set_sessions sessions d)).

(** The transaction of [finalize_transfer_event]. *)
Definition finalize_tx (transfer_id now_report now_final : string) (d : Db) : option Db :=
  match db_transfers d !! transfer_id with
  | None => Some d
  | Some t =>
      match tr_finalized_at t with
      | Some _ => Some d
      | None =>
          event ← build_event t (receipts_of transfer_id d) (rs_next_event_id (db_report d));
          d1 ← queue_event event now_report d;
          Some (close_transfer transfer_id now_final t d1)
      end
  end.

(** The page of [report_page]: the oldest unacknowledged events. *)
Definition event_le (x y : Z * EventRow) : Prop := x.1 ≤ y.1.
#[global] Instance event_le_dec : RelDecision event_le.
Proof. unfold event_le. intros x y. apply _. Defined.

Definition select_events (after : Z) (limit : nat) (d : Db) : list (Z * EventRow) :=
  take limit (merge_sort event_le
    (map_to_list (filter (λ kv, after < kv.1) (db_events d)))).

Definition count_active (d : Db) : Z :=
  Z.of_nat (size (filter (λ kv, active_state (tr_state kv.2) = true) (db_transfers d))).

Definition with_acknowledged (through : Z) (now_text : string) (r : ReportState) : ReportState := {|
  rs_instance_id := rs_instance_id r; rs_next_event_id := rs_next_event_id r;
  rs_acknowledged_through := through;
  rs_events_omitted := rs_events_omitted r;
  rs_late_receipts := rs_late_receipts r; rs_updated_at := now_text |}.

(** The transaction of [acknowledge_report]. *)
Definition acknowledge_tx (instance : string) (through : Z) (now_text : string) (d : Db)
    : unit * Db :=
  let r := db_report d in
  let r' := if bool_decide (rs_instance_id r = instance)
               && (rs_acknowledged_through r <=? through)
            then with_acknowledged through now_text r else r in
  (tt, set_report r' (set_events (filter (λ kv, through < kv.1) (db_events d)) d)).

(** [cleanup_retained_transfers]: [expired] is SQLite's comparison of a
    [finalized_at] with seven days ago; registrations cascade. *)
Definition retained_le (x y : string * string) : Prop := String.le x.2 y.2.
#[global] Instance retained_le_dec : RelDecision retained_le.
Proof. unfold retained_le. intros x y. apply _. Defined.

Definition cleanup_tx (expired : string → bool) (d : Db) : Z * Db :=
  let victims := take 256 (merge_sort retained_le
    (omap (λ '(id, t), match tr_finalized_at t with
                       | Some f => if expired f then Some (id, f) else None
                       | None => None
                       end) (map_to_list (db_transfers d)))) in
  let ids : gset string := list_to_set victims.*1 in
  (Z.of_nat (length victims),
   set_db_registrations (filter (λ kv, reg_transfer_id kv.2 ∉ ids) (db_registrations d))
     (set_transfers (filter (λ kv, kv.1 ∉ ids) (db_transfers d)) d)).

Definition with_instance (instance now_text : string) (r : ReportState) : ReportState := {|
  rs_instance_id := instance; rs_next_event_id := rs_next_event_id r;
  rs_acknowledged_through := rs_acknowledged_through r;
  rs_events_omitted := rs_events_omitted r;
  rs_late_receipts := rs_late_receipts r; rs_updated_at := now_text |}.

Definition set_instance (instance now_text : string) (d : Db) : unit * Db :=
  if bool_decide (rs_instance_id (db_report d) = "")
  then (tt, set_report (with_instance instance now_text (db_report d)) d)
  else (tt, d).

Definition touch_bundle (bundle served now_text : string) (d : Db) : unit * Db :=
  match db_bundles d !! bundle with
  | Some b => (tt, set_bundles (<[bundle := {|
                 bun_runtime_version := bun_runtime_version b;
                 bun_descriptor_json := bun_descriptor_json b;
                 bun_root_path := bun_root_path b;
                 bun_retention_state := bun_retention_state b;
                 bun_last_served_at := Some served;
                 bun_updated_at := now_text |}]> (db_bundles d)) d)
  | None => (tt, d)
  end.

(** The statements of [apply_desired_policy]. *)
Definition disable_lane (now_text : string) (d : Db) : unit * Db :=
  let r := db_policy d in
  (tt, set_policy_row {| prow_generation := prow_generation r;
         prow_sha256 := prow_sha256 r; prow_json := prow_json r;
         prow_lane_authorized := false; prow_updated_at := now_text |} d).

Definition store_policy (p : WorkstationMulticastPolicy) (now_text : string) (d : Db)
    : unit * Db :=
  (tt, set_policy_row {| prow_generation := pol_generation p;
         prow_sha256 := policy_sha256 p; prow_json := Some (policy_to_string p);
         prow_lane_authorized := true; prow_updated_at := now_text |} d).

(** ** Reading the machine *)

(** What [run_sender] requires of the opened artifact and of its path. *)
Record FileMetadata := {
  md_is_file : bool;
  md_is_symlink : bool;
  md_mode : Z;
  md_nlink : Z;
  md_len : Z;
  md_dev : Z;
  md_ino : Z;
}.

(** [open_pinned_artifact]: [opened] is the descriptor's metadata, [path] the
    path's own ([symlink_metadata]), [parent] the device of its directory. *)
Definition open_pinned_artifact (opened path : option FileMetadata) (parent : option Z)
    (expected_size : Z) : result string unit :=
  match opened, path, parent with
  | Some m, Some pm, Some parent_dev =>
      if negb (md_is_file m) || negb (md_is_file pm) || negb (md_nlink m =? 1)
         || negb (md_len m =? expected_size) || negb (md_dev m =? md_dev pm)
         || negb (md_ino m =? md_ino pm) || negb (md_dev m =? parent_dev)
      then Err "canonical multicast artifact identity is invalid"
      else Ok tt
  | _, _, _ => Err "open canonical multicast artifact"
  end.

(** [binary_available] on the sender binary's [symlink_metadata]. *)
Definition binary_available (md : option FileMetadata) : bool :=
  match md with
  | Some m => md_is_file m && negb (md_is_symlink m)
              && negb (Z.land (md_mode m) 73 =? 0)
  | None => false
  end.

Record UrlParts := {
  url_scheme : string;
  url_username : string;
  url_password : option string;
  url_host_ipv4 : option Z;
}.

Record Ipv4Interface := {
  if_name : string;
  if_address : Z;
  if_up : bool;
  if_multicast : bool;
}.

(** [select_network]: the public base URL, the IPv4 interfaces, which of them
    are wireless, and the approved network plan's bytes. *)
Definition select_network (url : option UrlParts) (interfaces : option (list Ipv4Interface))
    (wireless : string → bool) (plan : option string) : result string NetworkSelection :=
  match url with
  | None => Err "public base URL"
  | Some u =>
      if negb (bool_decide (url_scheme u = "http"))
         || negb (bool_decide (url_username u = ""))
         || bool_decide (is_Some (url_password u))
      then Err "public base URL is not a production numeric HTTP origin" else
      match url_host_ipv4 u, interfaces with
      | None, _ => Err "public base URL host is not numeric IPv4"
      | Some _, None => Err "interfaces"
      | Some target, Some ifs =>
          match List.filter (λ i, (if_address i =? target) && if_up i && if_multicast i
                                  && negb (wireless (if_name i))) ifs with
          | [i] =>
              let fingerprint :=
                match plan with
                | Some b => if len b <=? 64 * 1024 then sha256_hex b else ""
                | None => ""
                end in
              if bool_decide (fingerprint = "")
              then Err "approved appliance network plan fingerprint is unavailable"
              else Ok {| net_source_matches_public_base := true;
                         net_interface_name := if_name i;
                         net_interface_fingerprint :=
                           sha256_hex ("wired" +:+ nl +:+ if_name i +:+ nl
                                       +:+ show_ipv4 target +:+ nl +:+ fingerprint);
                         net_network_plan_fingerprint := fingerprint |}
          | _ => Err "public base IPv4 did not select exactly one wired multicast interface"
          end
      end
  end.

(** The category [safe_reason] logs for an error message. *)
Definition safe_reason (message : string) : string :=
  let m := to_ascii_lowercase message in
  if contains "policy" m then "policy_invalid"
  else if contains "network" m || contains "interface" m then "network_unavailable"
  else if contains "artifact" m then "artifact_unavailable"
  else if contains "sender" m then "sender_failed"
  else if contains "database" m || contains "sqlite" m then "storage_unavailable"
  else "unavailable".
End Sections.
