(* ===== verification/MulticastHandlers.v ===== *)
(** * Workstation multicast: the asynchronous handlers

    The handlers of [src/netboot_multicast.rs] as [prog]s: every lock section,
    SQL statement and transaction of [Multicast] is one atomic action, in the
    order and under the conditions of the source.  Sleeping has no effect of its
    own, so a timer that starts a task is a task that starts at any time; a loop
    that waits is given a number of rounds ([fuel]), over which the theorems
    quantify. *)

From stdpp Require Import base gmap list strings.
From Stdlib Require Import ZArith Lia.
From S2P Require Import Prelude RustStr DbText Async Multicast.

#[local] Open Scope Z_scope.
#[local] Open Scope nest_scope.

(** ** What an action reads from outside *)

(** [child.try_wait()]. *)
Inductive ChildPoll := ChildRunning | ChildExited (success : bool) | ChildWaitFailed.

Record Input := {
  in_fault : bool;
  in_instant : Z;
  in_secs : Z;
  in_text : string;
  in_text2 : string;
  in_uuid : string;
  in_timer : bool;
  in_url : option UrlParts;
  in_interfaces : option (list Ipv4Interface);
  in_wireless : string → bool;
  in_plan : option string;
  in_binary : option FileMetadata;
  in_artifact : option FileMetadata * option FileMetadata * option Z;
  in_spawned : bool;
  in_child : ChildPoll;
  in_expired : string → bool;
}.

#[global] Instance multicast_faulty : Faulty Input string := {|
  fault := in_fault;
  db_error := "error returned from database";
|}.

Record Config := {
  cfg_multicast_emergency_disabled : bool;
  cfg_boot_assets_dir : string;
}.

Section Handlers.
Context `{!External} (config : Config).

Abbreviation task A := (prog Input World A).
Abbreviation fallible A := (prog Input World (result string A)).

Definition input_network (i : Input) : result string NetworkSelection :=
  select_network (in_url i) (in_interfaces i) (in_wireless i) (in_plan i).

(** A statement, a transaction that may be refused, and a read. *)
Definition stmt {B} (f : Input → Db → B * Db) : fallible B :=
  checked_query (λ i w, let '(b, d) := f i (w_db w) in Some (b, set_db d w)).
Definition transaction (f : Input → Db → option Db) : fallible unit :=
  checked_query (λ i w, d ← f i (w_db w); Some (tt, set_db d w)).
Definition select {B} (f : Db → B) : fallible B :=
  checked_query (λ _ w, Some (f (w_db w), w)).

(** ** Finishing and finalizing *)

Definition finish_transfer_row (transfer_id row_state outcome : string) : fallible unit :=
  finished ← read_input in_text;
  now ← read_input in_secs;
  stmt (λ _ d, finish_row transfer_id row_state outcome finished now d) ;;?
  Ret (Ok tt).

Definition finalize_transfer_event (transfer_id : string) : fallible unit :=
  transaction (λ i d, finalize_tx transfer_id (in_text i) (in_text2 i) d).

Definition schedule_finalization (transfer_id : string) : task unit :=
  spawn (_ ← finalize_transfer_event transfer_id; Ret tt).

(** ** The sender *)

Fixpoint sender_loop (fuel : nat) (transfer_id : string) (deadline : Z)
    : fallible (option bool) :=
  match fuel with
  | O => Ret (Err "udp-sender exceeded its absolute timeout")
  | S fuel =>
      stop ← section (λ w, (bool_decide (transfer_id ∈ w_cancelled w)
                             || w_shutting_down w, w));
      if stop : bool then Ret (Ok None) else
      polled ← read_input in_child;
      match polled with
      | ChildExited success => Ret (Ok (Some success))
      | ChildWaitFailed => Ret (Err "udp-sender wait failed")
      | ChildRunning =>
          now ← read_input in_instant;
          if deadline <=? now
          then Ret (Err "udp-sender exceeded its absolute timeout")
          else sender_loop fuel transfer_id deadline
      end
  end.

Definition run_sender (fuel : nat) (transfer_id : string) : fallible bool :=
  found ← section (sender_batch transfer_id);
  match found with
  | None => Ret (Err "multicast batch disappeared before sender start")
  | Some batch =>
      opened ← read_input (λ i, let '(o, p, d) := in_artifact i in
                 open_pinned_artifact o p d (key_size_bytes (bat_key batch)));
      match opened with
      | Err e => Ret (Err e)
      | Ok _ =>
          spawned ← read_input in_spawned;
          if negb spawned then Ret (Err "spawn pinned udp-sender") else
          section (sender_sending transfer_id) ≫= λ _,
          timestamp ← read_input in_text;
          rows ←? stmt (λ _ d, mark_sending transfer_id timestamp d);
          if negb (rows =? 1)
          then Ret (Err "multicast transfer was cancelled before sender persistence") else
          started ← read_input in_instant;
          status ←? sender_loop fuel transfer_id
                      (started + pol_absolute_timeout_seconds (bat_policy batch) * 1000);
          stmt (λ i d, touch_bundle (bat_bundle_sha256 batch) (in_text i) (in_text2 i) d) ;;?
          match status with
          | Some true => Ret (Ok true)
          | Some false => Ret (Err "udp-sender exited unsuccessfully")
          | None => Ret (Ok false)
          end
      end
  end.

Definition spawn_sender (fuel : nat) (transfer_id : string) : task unit :=
  outcome ← run_sender fuel transfer_id;
  let '(row_state, sender_outcome, cooldown) :=
    match outcome with
    | Ok true => ("completed", "completed", false)
    | Ok false => ("interrupted", "cancelled", true)
    | Err _ => ("failed", "sender_failed", true)
    end in
  _ ← finish_transfer_row transfer_id row_state sender_outcome;
  atomic (λ i w, sender_done transfer_id
            (if cooldown : bool then Some (in_instant i + FAILURE_COOLDOWN_SECONDS * 1000)
             else None) w) ≫= λ _,
  schedule_finalization transfer_id.

(** ** Gathering *)

Definition expire_gathering (fuel : nat) (transfer_id : string) : fallible unit :=
  decision ← section (expire_section transfer_id);
  match decision with
  | Start =>
      persisted ← stmt (λ i d, mark_sender_starting transfer_id (in_text i) d);
      match persisted with
      | Ok rows =>
          if rows =? 1 then
            spawn (spawn_sender fuel transfer_id) ≫= λ _, Ret (Ok tt)
          else
            section (drop_batch transfer_id) ≫= λ _, Ret (Ok tt)
      | Err error =>
          section (drop_batch transfer_id) ≫= λ _,
          finished ← finish_transfer_row transfer_id "failed" "storage_unavailable";
          match finished with
          | Ok _ => schedule_finalization transfer_id ≫= λ _, Ret (Err error)
          | Err _ => Ret (Err error)
          end
      end
  | Fail =>
      finish_transfer_row transfer_id "failed" "http_quorum_unavailable" ;;?
      schedule_finalization transfer_id ≫= λ _, Ret (Ok tt)
  | Ignore => Ret (Ok tt)
  end.

(** The guard of a registration that did not turn into an offer removes it. *)
Definition release_registration (transfer_id session_id : string) : task unit :=
  spawn (section (remove_live_registration transfer_id session_id)).

Fixpoint wait_loop (fuel : nat) (j : Joined) (session_id : string)
    : fallible (option MulticastOffer) :=
  match fuel with
  | O => release_registration (jn_transfer_id j) session_id ≫= λ _, Ret (Ok None)
  | S fuel =>
      seen ← section (join_look (jn_transfer_id j));
      match seen with
      | WaitOffer => Ret (Ok (Some (jn_offer j)))
      | WaitNone =>
          release_registration (jn_transfer_id j) session_id ≫= λ _, Ret (Ok None)
      | WaitMore =>
          expired ← read_input in_timer;
          if expired : bool
          then release_registration (jn_transfer_id j) session_id ≫= λ _, Ret (Ok None)
          else wait_loop fuel j session_id
      end
  end.

(** [join_cohort] once the session is registered. *)
Definition joined_cohort (fuel : nat) (p : WorkstationMulticastPolicy)
    (net : NetworkSelection) (s : EligibleSession) (j : Joined) : fallible (option MulticastOffer) :=
  persisted ← transaction (λ i d, persist_registration j p net s (in_text i) d);
  match persisted with
  | Err error =>
      section (join_undo (jn_transfer_id j) (es_session_id s) (jn_created j)) ≫= λ _,
      Ret (Err error)
  | Ok _ =>
      (if jn_created j
       then spawn (_ ← expire_gathering fuel (jn_transfer_id j); Ret tt)
       else Ret tt) ≫= λ _,
      wait_loop fuel j (es_session_id s)
  end.

Definition join_cohort (fuel : nat) (p : WorkstationMulticastPolicy)
    (net : NetworkSelection) (s : EligibleSession) : fallible (option MulticastOffer) :=
  now ← read_input in_instant;
  joined ← atomic (λ i w, join_section p net s now (in_uuid i) w);
  match joined with
  | None => Ret (Ok None)
  | Some j => joined_cohort fuel p net s j
  end.

Definition discover_inner (fuel : nat) (bundle_sha256 body : string)
    : fallible (option MulticastOffer) :=
  match validate_sha256 bundle_sha256 with
  | Err e => Ret (Err e)
  | Ok _ =>
  if is_empty body || (MAX_REQUEST_BYTES <? len body) then Ret (Ok None) else
  match decode_join body with
  | None => Ret (Err "join request")
  | Some request =>
  if negb (bool_decide (join_schema request = JOIN_SCHEMA))
     || negb (is_sha256 (join_join_token request)) then Ret (Ok None) else
  unavailable ← atomic (λ i w, (w_shutting_down w || cfg_multicast_emergency_disabled config
                                 || negb (binary_available (in_binary i)), w));
  if unavailable : bool then Ret (Ok None) else
  current ← section get_policy;
  match current with
  | None => Ret (Ok None)
  | Some (policy, _, lane_authorized) =>
  if negb lane_authorized || negb (bool_decide (pol_mode policy = Automatic))
  then Ret (Ok None) else
  network ← read_input input_network;
  match network with
  | Err _ => Ret (Ok None)
  | Ok net =>
  now ← read_input in_secs;
  row ←? select (select_eligible (sha256_hex (join_join_token request)) bundle_sha256 now);
  match row with
  | None => Ret (Ok None)
  | Some (session_id, session, bundle) =>
  let reserve := pol_join_window_seconds policy + pol_absolute_timeout_seconds policy + 120 in
  if (sat_sub_i64 (bs_expires_at session) now <? reserve)
     || (bs_cleanup_after session <? bs_expires_at session) then Ret (Ok None) else
  match version_parse (bun_runtime_version bundle),
        version_parse MINIMUM_ROOTFS_MULTICAST_RUNTIME_VERSION with
  | Some runtime, Some minimum =>
  if version_ltb runtime minimum then Ret (Ok None) else
  match descriptor_squashfs (bun_descriptor_json bundle) with
  | None => Ret (Err "descriptor")
  | Some (component_sha256, size_bytes) =>
  let expected_root := cfg_boot_assets_dir config +:+ "/netboot/" +:+ bundle_sha256 in
  if negb (bool_decide (components (bun_root_path bundle) = components expected_root)) then Ret (Ok None) else
  join_cohort fuel policy net
    {| es_session_id := session_id; es_bundle_sha256 := bundle_sha256;
       es_component_sha256 := component_sha256; es_size_bytes := size_bytes;
       es_root_path := expected_root |}
  end
  | _, _ => Ret (Err "version")
  end end end end end end.

(** The response: the offer with status 200, or 204 whatever went wrong. *)
Definition discover (fuel : nat) (bundle_sha256 body : string)
    : task (Z * option MulticastOffer) :=
  result ← discover_inner fuel bundle_sha256 body;
  match result with
  | Ok (Some offer) => Ret (200, Some offer)
  | Ok None => Ret (204, None)
  | Err _ => Ret (204, None)
  end.

(** ** Receipts *)

Definition maybe_finalize_complete_receipts (transfer_id : string) : fallible unit :=
  counts ←? select (receipt_counts transfer_id);
  let '(registered, recorded, deadline) := counts in
  if bool_decide (is_Some deadline) && (0 <? registered) && (registered =? recorded)
  then finalize_transfer_event transfer_id
  else Ret (Ok tt).

Definition record_result_inner (bundle_sha256 body : string) : fallible unit :=
  match validate_sha256 bundle_sha256 with
  | Err e => Ret (Err e)
  | Ok _ =>
  if is_empty body || (MAX_REQUEST_BYTES <? len body) then Ret (Ok tt) else
  match decode_result body with
  | None => Ret (Err "result request")
  | Some request =>
  if negb (bool_decide (res_schema request = RESULT_SCHEMA))
     || negb (is_sha256 (res_join_token request))
     || negb (has_consistent_outcomes request) then Ret (Ok tt) else
  now ← read_input in_secs;
  session ←? select (select_receipt_session (sha256_hex (res_join_token request))
                       bundle_sha256 now);
  match session with
  | None => Ret (Ok tt)
  | Some (_, Some _) => stmt (λ i d, count_late_receipt (in_text i) d)
  | Some (session_id, None) =>
  row ←? select (select_open_registration session_id);
  match row with
  | None => Ret (Ok tt)
  | Some (_, Some _, Some _) => Ret (Ok tt)
  | Some (transfer_id, _, _) =>
      stmt (λ i d, record_receipt transfer_id session_id
                     (multicast_as_str (res_multicast_outcome request))
                     (fallback_as_str (res_fallback_outcome request)) (in_text i) d) ;;?
      maybe_finalize_complete_receipts transfer_id
  end end end end.

(** ** The policy lane *)

Definition cancel_with (row_outcome : string) : fallible unit :=
  cancelled ← section cancel_active;
  match cancelled with
  | None => Ret (Ok tt)
  | Some transfer_id =>
      finish_transfer_row transfer_id "interrupted" row_outcome ;;?
      schedule_finalization transfer_id ≫= λ _, Ret (Ok tt)
  end.

Definition disable_coordinator (w : World) : unit * World :=
  let c := w_coord w in
  (tt, set_coord {| co_policy := (λ p, {|
           pol_schema := pol_schema p; pol_generation := pol_generation p;
           pol_mode := HttpOnly;
           pol_multicast_domain_id := pol_multicast_domain_id p;
           pol_qualification_revision := pol_qualification_revision p;
           pol_rendezvous_address := pol_rendezvous_address p;
           pol_data_address := pol_data_address p; pol_port_base := pol_port_base p;
           pol_minimum_receivers := pol_minimum_receivers p;
           pol_join_window_seconds := pol_join_window_seconds p;
           pol_max_bitrate_bps := pol_max_bitrate_bps p;
           pol_absolute_timeout_seconds := pol_absolute_timeout_seconds p;
           pol_report_schema := pol_report_schema p;
           pol_maximum_events_per_page := pol_maximum_events_per_page p |}) <$> co_policy c;
         co_policy_hash := co_policy_hash c; co_lane_authorized := false;
         co_batch := co_batch c; co_cooldown_until := co_cooldown_until c |} w).

Definition install_policy (p : WorkstationMulticastPolicy) (w : World) : unit * World :=
  let c := w_coord w in
  (tt, set_coord {| co_policy := Some p; co_policy_hash := policy_sha256 p;
         co_lane_authorized := true; co_batch := co_batch c;
         co_cooldown_until := co_cooldown_until c |} w).

Definition apply_desired_policy (desired : option json_value) : fallible unit :=
  match desired with
  | None =>
      stmt (λ i d, disable_lane (in_text i) d) ;;?
      section disable_coordinator ≫= λ _,
      cancel_with "policy_disabled"
  | Some value =>
      match policy_from_value value with
      | None => Ret (Err "decode workstation multicast policy")
      | Some policy =>
      match policy_validate policy with
      | Err e => Ret (Err e)
      | Ok _ =>
      let policy_hash := policy_sha256 policy in
      current ←? select (λ d, (prow_generation (db_policy d), prow_sha256 (db_policy d)));
      let '(generation, sha256) := current in
      if pol_generation policy <? generation then Ret (Ok tt) else
      if (pol_generation policy =? generation) && negb (is_empty sha256)
         && negb (bool_decide (sha256 = policy_hash))
      then Ret (Err "workstation multicast policy changed at an existing generation") else
      let replacing := negb (is_empty sha256) && negb (bool_decide (sha256 = policy_hash)) in
      stmt (λ i d, store_policy policy (in_text i) d) ;;?
      let disabling := bool_decide (pol_mode policy = HttpOnly) in
      section (install_policy policy) ≫= λ _,
      if disabling || replacing
      then cancel_with (if disabling then "policy_disabled" else "policy_changed")
      else Ret (Ok tt)
      end end
  end.

Definition ensure_report_instance : fallible unit :=
  current ←? select (λ d, rs_instance_id (db_report d));
  if is_empty current
  then stmt (λ i d, set_instance (in_uuid i) (in_text i) d)
  else Ret (Ok tt).

Fixpoint rearm (pending : list (string * option Z)) : task unit :=
  match pending with
  | [] => Ret tt
  | (transfer_id, _) :: pending =>
      schedule_finalization transfer_id ≫= λ _, rearm pending
  end.

Definition initialize : fallible unit :=
  ensure_report_instance ;;?
  now_text ← read_input in_text;
  now ← read_input in_secs;
  stmt (λ _ d, interrupt_active now_text (now + RECEIPT_COLLECTION_SECONDS) d) ;;?
  pending ←? select pending_finalizations;
  rearm pending ≫= λ _,
  row ←? select db_policy;
  if prow_lane_authorized row then
    match raw ← prow_json row; policy_from_str raw with
    | Some policy =>
        if is_ok (policy_validate policy)
           && (pol_generation policy =? prow_generation row)
           && bool_decide (policy_sha256 policy = prow_sha256 row)
        then section (λ w, let c := w_coord w in
               (tt, set_coord {| co_policy := Some policy;
                      co_policy_hash := prow_sha256 row; co_lane_authorized := true;
                      co_batch := co_batch c;
                      co_cooldown_until := co_cooldown_until c |} w)) ≫= λ _, Ret (Ok tt)
        else Ret (Ok tt)
    | None => Ret (Ok tt)
    end
  else Ret (Ok tt).

(** ** Reporting *)

Record WorkstationMulticastNodeSnapshot := {
  sn_state : string;
  sn_reason : string;
  sn_applied_policy_generation : Z;
  sn_applied_policy_sha256 : string;
  sn_active_transfer_count : Z;
  sn_report_time : string;
  sn_source_matches_public_base : bool;
  sn_interface_kind : string;
  sn_multicast_capable : bool;
  sn_network_plan_fingerprint : string;
  sn_events_omitted : Z;
  sn_evidence_complete : bool;
}.

Record WorkstationMulticastReport := {
  rp_schema : string;
  rp_report_instance_id : string;
  rp_snapshot : WorkstationMulticastNodeSnapshot;
  rp_events : list WorkstationMulticastTransferEvent;
}.

Definition decode_events (rows : list (Z * EventRow))
    : result string (list WorkstationMulticastTransferEvent) :=
  foldr (λ '(_, row) acc,
    match event_from_str (ev_json row), acc with
    | Some e, Ok es => Ok (e :: es)
    | None, _ => Err "event json"
    | _, Err e => Err e
    end) (Ok []) rows.

(** Whether a failure cooldown is still running; an old one is cleared. *)
Definition cooldown_section (now : Z) (w : World) : bool * World :=
  let c := w_coord w in
  match co_cooldown_until c with
  | Some deadline => if now <? deadline then (true, w)
                     else (false, set_coord (set_cooldown None c) w)
  | None => (false, w)
  end.

Definition snapshot_state (p : WorkstationMulticastPolicy) (binary cooldown network : bool)
    : string * string :=
  if cfg_multicast_emergency_disabled config then ("disabled", "emergency_disabled")
  else if bool_decide (pol_mode p = HttpOnly) then ("disabled", "http_only")
  else if negb binary || cooldown then ("degraded", "sender_unavailable")
  else if negb network then ("degraded", "network_unqualified")
  else ("ready", "ready").

Definition report_page : fallible (option WorkstationMulticastReport) :=
  current ← section get_policy;
  match current with
  | None => Ret (Ok None)
  | Some (policy, policy_hash, lane_authorized) =>
  if negb lane_authorized then Ret (Ok None) else
  report_state ←? select db_report;
  let limit := Z.to_nat (Z.min (pol_maximum_events_per_page policy) 64) in
  rows ←? select (select_events (rs_acknowledged_through report_state) limit);
  match decode_events rows with
  | Err e => Ret (Err e)
  | Ok events =>
  active ←? select count_active;
  cooldown ← atomic (λ i w, cooldown_section (in_instant i) w);
  network ← read_input input_network;
  binary ← read_input (λ i, binary_available (in_binary i));
  let '(state, reason) := snapshot_state policy binary cooldown (is_ok network) in
  report_time ← read_input in_text;
  match try_unsigned u16_max (Z.min active 1),
        try_unsigned u64_max (rs_events_omitted report_state) with
  | Some active_count, Some omitted =>
      Ret (Ok (Some {|
        rp_schema := REPORT_SCHEMA;
        rp_report_instance_id := rs_instance_id report_state;
        rp_snapshot := {|
          sn_state := state; sn_reason := reason;
          sn_applied_policy_generation := pol_generation policy;
          sn_applied_policy_sha256 := policy_hash;
          sn_active_transfer_count := active_count;
          sn_report_time := report_time;
          sn_source_matches_public_base :=
            match network with Ok n => net_source_matches_public_base n | Err _ => false end;
          sn_interface_kind := if is_ok network then "wired" else "unknown";
          sn_multicast_capable := is_ok network;
          sn_network_plan_fingerprint :=
            match network with Ok n => net_network_plan_fingerprint n | Err _ => "" end;
          sn_events_omitted := omitted;
          sn_evidence_complete := rs_events_omitted report_state =? 0 |};
        rp_events := events |}))
  | _, _ => Ret (Err "report conversion")
  end end end.

Definition acknowledge_report (report_instance_id : string) (acknowledged_through : Z)
    : fallible bool :=
  if negb (uuid_valid report_instance_id) || (acknowledged_through <? 0)
  then Ret (Ok false) else
  current ←? select db_report;
  if negb (bool_decide (rs_instance_id current = report_instance_id))
     || (acknowledged_through <? rs_acknowledged_through current)
     || (rs_next_event_id current <=? acknowledged_through)
  then Ret (Ok false) else
  stmt (λ i d, acknowledge_tx report_instance_id acknowledged_through (in_text i) d) ;;?
  Ret (Ok true).

(** ** Cancellation, shutdown and retention *)

Definition bundle_active (bundle_sha256 : string) (w : World) : bool * World :=
  (match co_batch (w_coord w) with
   | Some b => bool_decide (bat_bundle_sha256 b = bundle_sha256)
   | None => false
   end, w).

Fixpoint wait_bundle_idle (rounds : nat) (bundle_sha256 : string) : task unit :=
  match rounds with
  | O => Ret tt
  | S rounds =>
      active ← section (bundle_active bundle_sha256);
      if active : bool then wait_bundle_idle rounds bundle_sha256 else Ret tt
  end.

Definition cancel_for_bundle (bundle_sha256 : string) : fallible unit :=
  should_cancel ← section (bundle_active bundle_sha256);
  if negb should_cancel then Ret (Ok tt) else
  cancelled ← section cancel_active;
  (match cancelled with
   | Some transfer_id =>
       _ ← finish_transfer_row transfer_id "interrupted" "artifact_cancelled";
       schedule_finalization transfer_id
   | None => Ret tt
   end) ≫= λ _,
  wait_bundle_idle 50 bundle_sha256 ≫= λ _,
  still_active ← section (bundle_active bundle_sha256);
  if still_active : bool
  then Ret (Err "multicast sender did not release the canonical artifact")
  else Ret (Ok tt).

Definition begin_shutdown (w : World) : unit * World :=
  (tt, {| w_coord := w_coord w; w_shutting_down := true;
          w_cancelled := w_cancelled w; w_db := w_db w |}).

Fixpoint wait_idle (rounds : nat) : task unit :=
  match rounds with
  | O => Ret tt
  | S rounds =>
      idle ← section (λ w, (bool_decide (co_batch (w_coord w) = None), w));
      if idle : bool then Ret tt else wait_idle rounds
  end.

Definition shutdown : task unit :=
  section begin_shutdown ≫= λ _,
  cancelled ← section cancel_active;
  (match cancelled with
   | Some transfer_id =>
       timestamp ← read_input in_text;
       _ ← stmt (λ i d, finish_row transfer_id "interrupted" "service_shutdown"
                          timestamp (in_secs i) d);
       Ret tt
   | None => Ret tt
   end) ≫= λ _,
  wait_idle 50.

Definition cleanup_retained_transfers : fallible Z :=
  stmt (λ i d, cleanup_tx (in_expired i) d).

(** ** The handlers a running Nest starts *)

Definition ignore {A} (p : task A) : task unit := p ≫= λ _, Ret tt.

(** [keep] says that neither the start-up pass nor the retention pass, which
    alone rewrite or remove finalized transfers, is among them.  The guard of a
    dropped registration removes it from the batch at any time. *)
Inductive entry (keep : bool) : task unit → Prop :=
| entry_discover fuel bundle body : entry keep (ignore (discover fuel bundle body))
| entry_result bundle body : entry keep (ignore (record_result_inner bundle body))
| entry_policy desired : entry keep (ignore (apply_desired_policy desired))
| entry_report : entry keep (ignore report_page)
| entry_acknowledge instance through :
    entry keep (ignore (acknowledge_report instance through))
| entry_cancel bundle : entry keep (ignore (cancel_for_bundle bundle))
| entry_guard transfer session : entry keep (release_registration transfer session)
| entry_shutdown : entry keep shutdown
| entry_initialize : keep = false → entry keep (ignore initialize)
| entry_cleanup : keep = false → entry keep (ignore cleanup_retained_transfers).
End Handlers.
