(* ===== verification/MulticastTables.v ===== *)
(** * Workstation multicast: the tables' invariant

    The invariant of the multicast tables and the way they evolve, and that
    every statement and transaction of [Multicast] keeps both.  The handlers'
    theorems in [MulticastProofs] rest on these lemmas. *)

From stdpp Require Import base gmap list strings sorting.
From Stdlib Require Import ZArith Lia.
From S2P Require Import Prelude RustStr Multicast.

#[local] Open Scope Z_scope.

(** What the development assumes of code outside the repository: serde_json
    decodes an event back from its text, which is not empty, and the empty text
    is not a UUID. *)
Class ExternalLaws `{!External} := {
  event_roundtrip e : event_from_str (event_to_string e) = Some e;
  event_text_nonempty e : 0 < len (event_to_string e);
  uuid_nonempty id : uuid_valid id = true → id ≠ "";
}.

Section Tables.
Context {Ext : External} {Laws : ExternalLaws}.

(** The receipts a registration can hold: none, or a consistent pair. *)
Definition receipt_ok (r : RegistrationRow) : Prop :=
  (reg_multicast_outcome r = None ∧ reg_fallback_outcome r = None) ∨
  (reg_multicast_outcome r = Some "verified" ∧ reg_fallback_outcome r = Some "not_needed") ∨
  (∃ reason, reg_multicast_outcome r = Some reason ∧ reason ≠ "verified" ∧
     (reg_fallback_outcome r = Some "http_verified"
      ∨ reg_fallback_outcome r = Some "http_failed")).

Definition row_ok (t : TransferRow) : Prop :=
  0 < tr_size_bytes t ≤ i64_max ∧ 0 ≤ tr_registered_sessions t.

Record db_ok (d : Db) : Prop := {
  ok_acknowledged :
    0 ≤ rs_acknowledged_through (db_report d) < rs_next_event_id (db_report d);
  ok_omitted : 0 ≤ rs_events_omitted (db_report d) ≤ i64_max;
  ok_late : 0 ≤ rs_late_receipts (db_report d) ≤ MAX_LATE_RECEIPTS;
  ok_event_ids : ∀ id e, db_events d !! id = Some e →
    rs_acknowledged_through (db_report d) < id < rs_next_event_id (db_report d);
  ok_event_rows : ∀ id e, db_events d !! id = Some e →
    ev_size_bytes e = len (ev_json e) ∧
    ∃ event, ev_json e = event_to_string event ∧ event_id event = id;
  ok_event_count : Z.of_nat (size (db_events d)) ≤ MAX_REPORT_EVENTS;
  ok_event_bytes : map_sum ev_size_bytes (db_events d) ≤ MAX_REPORT_EVENT_BYTES;
  ok_transfers : ∀ id t, db_transfers d !! id = Some t → row_ok t;
  ok_registered : ∀ id t, db_transfers d !! id = Some t →
    Z.of_nat (size (registrations_of id d)) ≤ tr_registered_sessions t;
  ok_receipts : ∀ sid r, db_registrations d !! sid = Some r → receipt_ok r;
  ok_foreign : ∀ sid r, db_registrations d !! sid = Some r →
    is_Some (db_transfers d !! reg_transfer_id r);
}.

(** A finalized row keeps when it was finalized, how its sender ended and the
    transfer it describes. *)
Definition row_kept (t t' : TransferRow) : Prop :=
  tr_finalized_at t' = tr_finalized_at t ∧
  tr_sender_outcome t' = tr_sender_outcome t ∧
  tr_sender_finished_at t' = tr_sender_finished_at t ∧
  tr_receipt_deadline t' = tr_receipt_deadline t ∧
  tr_component_sha256 t' = tr_component_sha256 t ∧
  tr_size_bytes t' = tr_size_bytes t.

(** With [keep] no retention runs, and finalized rows stay. *)
Record db_evolves (keep : bool) (d d' : Db) : Prop := {
  ev_next : rs_next_event_id (db_report d) ≤ rs_next_event_id (db_report d');
  ev_ack : rs_acknowledged_through (db_report d) ≤ rs_acknowledged_through (db_report d');
  ev_omitted : rs_events_omitted (db_report d) ≤ rs_events_omitted (db_report d');
  ev_late : rs_late_receipts (db_report d) ≤ rs_late_receipts (db_report d');
  ev_instance : rs_instance_id (db_report d) ≠ "" →
    rs_instance_id (db_report d') = rs_instance_id (db_report d);
  ev_final : keep = true → ∀ id t,
    db_transfers d !! id = Some t → is_Some (tr_finalized_at t) →
    ∃ t', db_transfers d' !! id = Some t' ∧ row_kept t t';
}.

#[global] Instance row_kept_preorder : PreOrder row_kept.
Proof.
  split; [by intros t|]. intros t1 t2 t3. unfold row_kept. intuition congruence.
Qed.

#[global] Instance db_evolves_preorder keep : PreOrder (db_evolves keep).
Proof.
  split.
  - intros d. split; auto; try lia. intros _ id t Ht _. exists t. done.
  - intros d1 d2 d3 H12 H23. destruct H12, H23. split; try lia.
    + intros Hne. rewrite ev_instance1; [auto|]. by rewrite ev_instance0.
    + intros Hk id t Ht Hf.
      destruct (ev_final0 Hk id t Ht Hf) as (t2 & Ht2 & Hk2).
      destruct (ev_final1 Hk id t2 Ht2) as (t3 & Ht3 & Hk3).
      { destruct Hk2 as [-> _]. done. }
      exists t3. split; [done|]. by etrans.
Qed.

(** ** Statements that touch one part of the database *)

(** Replacing a row by one that keeps what the invariant and the evolution look
    at. *)
Lemma transfers_insert_ok keep d id t t' :
  db_ok d → db_transfers d !! id = Some t → row_ok t' →
  tr_registered_sessions t' = tr_registered_sessions t →
  (is_Some (tr_finalized_at t) → row_kept t t') →
  let d' := set_transfers (<[id := t']> (db_transfers d)) d in
  db_ok d' ∧ db_evolves keep d d'.
Proof.
  intros Hok Ht Hrow Hreg Hkept d'. destruct Hok. split.
  - split; simpl; auto.
    + intros id' u. rewrite lookup_insert. case_decide; naive_solver.
    + intros id' u. rewrite lookup_insert.
      change (registrations_of id' d') with (registrations_of id' d).
      case_decide; [|eauto]. intros [= <-]. subst id'. rewrite Hreg. eauto.
    + intros sid r Hr. rewrite lookup_insert. case_decide; eauto.
  - split; simpl; auto; try lia. intros _ id' u Hu Hf. rewrite lookup_insert.
    case_decide as Hid; [|exists u; done]. simplify_eq. eauto.
Qed.

Lemma alter_transfer_ok keep d id P f :
  db_ok d →
  (∀ t, row_ok t → row_ok (f t) ∧ tr_registered_sessions (f t) = tr_registered_sessions t) →
  (∀ t, P t = true → is_Some (tr_finalized_at t) → row_kept t (f t)) →
  db_ok (alter_transfer id P f d).2 ∧ db_evolves keep d (alter_transfer id P f d).2.
Proof.
  intros Hok Hf Hkept. unfold alter_transfer.
  destruct (db_transfers d !! id) as [t|] eqn:Ht; [|done].
  destruct (P t) eqn:HP; [|done]. simpl.
  destruct (Hf t) as [??]; [by eapply ok_transfers|].
  eapply transfers_insert_ok; eauto.
Qed.

Lemma finish_row_ok keep d id st outcome finished now :
  db_ok d →
  db_ok (finish_row id st outcome finished now d).2 ∧
  db_evolves keep d (finish_row id st outcome finished now d).2.
Proof.
  intros Hok. apply alter_transfer_ok; [done|by intros t ?|].
  intros t HP [f Hf]. bool_prop. congruence.
Qed.

Lemma mark_sender_starting_ok keep d id now :
  db_ok d →
  db_ok (mark_sender_starting id now d).2 ∧
  db_evolves keep d (mark_sender_starting id now d).2.
Proof. intros Hok. by apply alter_transfer_ok; [done|intros t ?|]. Qed.

Lemma mark_sending_ok keep d id now :
  db_ok d →
  db_ok (mark_sending id now d).2 ∧ db_evolves keep d (mark_sending id now d).2.
Proof. intros Hok. by apply alter_transfer_ok; [done|intros t ?|]. Qed.

(** A step that leaves events, transfers and registrations alone. *)
Lemma report_step_ok keep d r :
  db_ok d →
  rs_next_event_id r = rs_next_event_id (db_report d) →
  rs_acknowledged_through r = rs_acknowledged_through (db_report d) →
  rs_events_omitted (db_report d) ≤ rs_events_omitted r ≤ i64_max →
  rs_late_receipts (db_report d) ≤ rs_late_receipts r ≤ MAX_LATE_RECEIPTS →
  (rs_instance_id (db_report d) ≠ "" → rs_instance_id r = rs_instance_id (db_report d)) →
  db_ok (set_report r d) ∧ db_evolves keep d (set_report r d).
Proof.
  intros Hok Hnext Hack Hom Hlate Hinst. destruct Hok. split.
  - split; simpl; auto; try lia; rewrite ?Hnext, ?Hack; auto.
  - split; simpl; auto; try lia. intros _ id t Ht _. exists t. done.
Qed.

Lemma count_late_receipt_ok keep d now :
  db_ok d →
  db_ok (count_late_receipt now d).2 ∧ db_evolves keep d (count_late_receipt now d).2.
Proof.
  intros Hok. pose proof (ok_late _ Hok). pose proof (ok_omitted _ Hok).
  apply report_step_ok; simpl; auto; lia.
Qed.

Lemma set_instance_ok keep d instance now :
  db_ok d →
  db_ok (set_instance instance now d).2 ∧ db_evolves keep d (set_instance instance now d).2.
Proof.
  intros Hok. pose proof (ok_late _ Hok). pose proof (ok_omitted _ Hok).
  unfold set_instance. case_bool_decide as Hempty; [|done].
  apply report_step_ok; simpl; auto; [lia..|]. congruence.
Qed.

Lemma touch_bundle_ok keep d bundle served now :
  db_ok d →
  db_ok (touch_bundle bundle served now d).2 ∧
  db_evolves keep d (touch_bundle bundle served now d).2.
Proof.
  intros Hok. unfold touch_bundle. destruct (db_bundles d !! bundle); [|done].
  destruct Hok. split; split; simpl; auto; try lia.
  intros _ id t Ht _. exists t. done.
Qed.

Lemma set_policy_row_ok keep d r :
  db_ok d → db_ok (set_policy_row r d) ∧ db_evolves keep d (set_policy_row r d).
Proof.
  intros Hok. destruct Hok. split; split; simpl; auto; try lia.
  intros _ id t Ht _. exists t. done.
Qed.

(** ** Receipts *)

Lemma receipt_of_request_ok (r : ResultRequest) tid now :
  has_consistent_outcomes r = true →
  receipt_ok {| reg_transfer_id := tid;
                reg_multicast_outcome := Some (multicast_as_str (res_multicast_outcome r));
                reg_fallback_outcome := Some (fallback_as_str (res_fallback_outcome r));
                reg_receipt_recorded_at := Some now |}.
Proof.
  unfold has_consistent_outcomes, receipt_ok.
  destruct (res_multicast_outcome r), (res_fallback_outcome r); simpl; try done;
    intros _; right; first [by left | right; eexists; by eauto].
Qed.

Lemma registrations_of_insert id sid r (d : Db) :
  registrations_of id
    (set_db_registrations (<[sid := r]> (db_registrations d)) d) =
  if decide (reg_transfer_id r = id)
  then <[sid := r]> (registrations_of id d)
  else delete sid (registrations_of id d).
Proof.
  unfold registrations_of. simpl. rewrite map_filter_insert. simpl.
  destruct (decide (reg_transfer_id r = id)); [done|]. by rewrite map_filter_delete.
Qed.

Lemma record_receipt_ok keep d tid sid m f now :
  db_ok d →
  receipt_ok {| reg_transfer_id := tid; reg_multicast_outcome := Some m;
                reg_fallback_outcome := Some f; reg_receipt_recorded_at := Some now |} →
  db_ok (record_receipt tid sid m f now d).2 ∧
  db_evolves keep d (record_receipt tid sid m f now d).2.
Proof.
  intros Hok Hrec. unfold record_receipt.
  destruct (db_registrations d !! sid) as [r|] eqn:Hr; [|done].
  destruct (bool_decide (reg_transfer_id r = tid)) eqn:Ht; [|done]. bool_prop.
  destruct (_ && _); [|done]. simpl. destruct Hok. split.
  - split; simpl; auto.
    + intros id t Hid. rewrite registrations_of_insert. simpl.
      etrans; [|by eapply ok_registered0]. apply inj_le.
      case_decide; [|by apply map_subseteq_size, delete_subseteq].
      subst tid id. rewrite map_size_insert_Some; [done|].
      unfold registrations_of. rewrite map_lookup_filter, Hr. simpl.
      by rewrite option_guard_True.
    + intros sid' r'. rewrite lookup_insert. case_decide; [|eauto].
      by intros [= <-].
    + intros sid' r'. rewrite lookup_insert. case_decide; [|eauto].
      intros [= <-]. simpl. subst tid. eauto.
  - split; simpl; auto; try lia. intros _ id t Htr _. exists t. done.
Qed.

(** ** Registration *)

Lemma registrations_of_absent id d :
  db_ok d → db_transfers d !! id = None → registrations_of id d = ∅.
Proof.
  intros Hok Hid. apply map_eq. intros sid. rewrite lookup_empty.
  apply map_lookup_filter_None. right. intros r Hr. simpl. intros Heq.
  destruct (ok_foreign _ Hok _ _ Hr) as [t Ht]. congruence.
Qed.

Lemma new_transfer_ok keep d id t :
  db_ok d → db_transfers d !! id = None → row_ok t →
  let d' := set_transfers (<[id := t]> (db_transfers d)) d in
  db_ok d' ∧ db_evolves keep d d'.
Proof.
  intros Hok Hid Hrow d'. pose proof (registrations_of_absent _ _ Hok Hid) as Habs.
  destruct Hok. split.
  - split; simpl; auto.
    + intros id' u. rewrite lookup_insert. case_decide; naive_solver.
    + intros id' u. rewrite lookup_insert.
      change (registrations_of id' d') with (registrations_of id' d).
      case_decide; [|eauto]. intros [= <-]. subst id'. rewrite Habs, map_size_empty.
      destruct Hrow. lia.
    + intros sid r Hr. rewrite lookup_insert. case_decide; eauto.
  - split; simpl; auto; try lia. intros _ id' u Hu Hf.
    rewrite lookup_insert_ne by congruence. exists u. done.
Qed.

(** Inserting a registration and recounting its transfer. *)
Lemma add_registration_ok keep d id sid t t' r :
  db_ok d → db_transfers d !! id = Some t → db_registrations d !! sid = None →
  reg_transfer_id r = id → receipt_ok r →
  let d2 := set_db_registrations (<[sid := r]> (db_registrations d)) d in
  tr_registered_sessions t' = Z.of_nat (size (registrations_of id d2)) →
  tr_size_bytes t' = tr_size_bytes t → row_kept t t' →
  let d' := set_transfers (<[id := t']> (db_transfers d2)) d2 in
  db_ok d' ∧ db_evolves keep d d'.
Proof.
  intros Hok Ht Hsid Hr Hrec d2 Hcount Hsize Hkept d'.
  assert (∀ id', id' ≠ id → registrations_of id' d2 = registrations_of id' d) as Hother.
  { intros id' Hne. unfold d2. rewrite registrations_of_insert.
    rewrite decide_False by congruence. apply delete_id.
    unfold registrations_of. apply map_lookup_filter_None. by left. }
  destruct Hok. split.
  - split; simpl; auto.
    + intros id' u. rewrite lookup_insert. case_decide; [|eauto]. intros [= <-].
      destruct (ok_transfers0 _ _ Ht). split; [by rewrite Hsize|rewrite Hcount; lia].
    + intros id' u. rewrite lookup_insert.
      change (registrations_of id' d') with (registrations_of id' d2).
      case_decide; [|rewrite Hother by done; eauto].
      intros [= <-]. subst id'. rewrite Hcount. done.
    + intros sid' r'. rewrite lookup_insert. case_decide; [|eauto]. by intros [= <-].
    + intros sid' r'. rewrite !lookup_insert.
      repeat case_decide; try done; naive_solver.
  - split; simpl; auto; try lia. intros _ id' u Hu Hf. rewrite lookup_insert.
    case_decide; [|exists u; done]. simplify_eq. eauto.
Qed.

Lemma persist_registration_ok keep j p net s now d d' :
  db_ok d → persist_registration j p net s now d = Some d' →
  db_ok d' ∧ db_evolves keep d d'.
Proof.
  intros Hok H. unfold persist_registration in H.
  apply bind_Some in H as (d1 & H1 & H).
  assert (db_ok d1 ∧ db_evolves keep d d1) as [Hok1 Hev1].
  { destruct (jn_created j); [|by simplify_eq].
    apply bind_Some in H1 as (sz & Hsz & H1). unfold try_i64 in Hsz.
    destruct (in_range i64_min i64_max (es_size_bytes s)) eqn:Hr; [|done].
    apply in_range_true in Hr. simplify_eq.
    destruct (_ && _) eqn:Hc; [|done]. bool_prop. simplify_eq.
    apply new_transfer_ok; [done|done|]. split; simpl; lia. }
  apply bind_Some in H as (t & Ht & H).
  destruct (_ && _) eqn:Hc; [|done]. bool_prop. injection H as <-.
  edestruct (add_registration_ok keep d1 (jn_transfer_id j) (es_session_id s)) as [? ?];
    [done|done|done| | | | | |split; [done|by etrans]]; simpl; try done.
  by left.
Qed.

(** ** The report queue *)

Lemma queue_event_ok keep e now d d' :
  db_ok d → event_id e = rs_next_event_id (db_report d) →
  queue_event e now d = Some d' → db_ok d' ∧ db_evolves keep d d'.
Proof.
  intros Hok Hid H. unfold queue_event in H.
  assert (filter (λ kv, rs_acknowledged_through (db_report d) < kv.1) (db_events d)
          = db_events d) as Hall.
  { apply map_filter_id. intros id ev Hev. apply (ok_event_ids _ Hok) in Hev. simpl. lia. }
  rewrite Hall in H. pose proof (ok_omitted _ Hok). pose proof (ok_late _ Hok).
  destruct (_ || _) eqn:Hfull.
  - injection H as <-. apply report_step_ok; simpl; auto;
      unfold sat_add_i64, clamp, i64_min, i64_max in *; lia.
  - destruct (_ && _) eqn:Hc; [|done]. bool_prop. injection H as <-.
    unfold sat_add in *. destruct Hok. split.
    + split; simpl; auto; try lia.
      * intros id ev. rewrite lookup_insert. case_decide; [intros [= <-]; lia|].
        intros Hev. apply ok_event_ids0 in Hev. lia.
      * intros id ev. rewrite lookup_insert. case_decide; [|eauto].
        intros [= <-]. simpl. split; [done|]. exists e. split; [done|congruence].
      * rewrite map_size_insert_None by done. lia.
      * rewrite map_sum_insert_new by done. simpl.
        unfold MAX_REPORT_EVENT_BYTES, u64_max in *. lia.
    + split; simpl; auto; try lia. intros _ id t Ht _. exists t. done.
Qed.

Lemma acknowledge_tx_ok keep instance through now d :
  db_ok d → 0 ≤ through < rs_next_event_id (db_report d) →
  (rs_instance_id (db_report d) = instance ∨
   through ≤ rs_acknowledged_through (db_report d)) →
  db_ok (acknowledge_tx instance through now d).2 ∧
  db_evolves keep d (acknowledge_tx instance through now d).2.
Proof.
  intros Hok Hthrough Hcase. unfold acknowledge_tx. simpl. destruct Hok.
  set (r' := if _ : bool then _ else _).
  assert (rs_acknowledged_through r' = Z.max through (rs_acknowledged_through (db_report d))
          ∧ rs_next_event_id r' = rs_next_event_id (db_report d)
          ∧ rs_events_omitted r' = rs_events_omitted (db_report d)
          ∧ rs_late_receipts r' = rs_late_receipts (db_report d)
          ∧ rs_instance_id r' = rs_instance_id (db_report d)) as (Ha & Hn & Ho & Hl & Hi).
  { unfold r'. destruct (_ && _) eqn:Hc; simpl; bool_prop.
    - split_and!; try done. lia.
    - split_and!; try done. apply andb_false_iff in Hc as [Hc|Hc]; bool_prop;
        destruct Hcase; try congruence; lia. }
  assert (∀ ev, 0 ≤ len (ev_json ev)) as Hlen by (intros; apply len_nonneg).
  split.
  - split; simpl; rewrite ?Ha, ?Hn, ?Ho, ?Hl; auto; try lia.
    + intros id ev (Hev & Hlt)%map_lookup_filter_Some. apply ok_event_ids0 in Hev.
      simpl in *. lia.
    + intros id ev (Hev & _)%map_lookup_filter_Some. eauto.
    + etrans; [|done]. apply inj_le, map_size_filter_le.
    + etrans; [|done]. apply map_sum_filter_weak_le.
      intros id ev Hev. destruct (ok_event_rows0 _ _ Hev) as [-> _]. auto.
  - split; simpl; rewrite ?Ha, ?Hn, ?Ho, ?Hl, ?Hi; auto; try lia.
    intros _ id t Ht _. exists t. done.
Qed.

(** ** Finalization and retention *)

Lemma close_transfer_ok keep id now t d :
  db_ok d → db_transfers d !! id = Some t → tr_finalized_at t = None →
  db_ok (close_transfer id now t d) ∧ db_evolves keep d (close_transfer id now t d).
Proof.
  intros Hok Ht Hf. destruct Hok. unfold close_transfer. split.
  - split; simpl; auto.
    + intros id' u. rewrite lookup_insert. case_decide; [|eauto]. intros [= <-].
      by destruct (ok_transfers0 _ _ Ht).
    + intros id' u Hu. transitivity (Z.of_nat (size (registrations_of id' d))).
      { apply inj_le, map_subseteq_size, map_filter_subseteq_mono, map_filter_subseteq. }
      rewrite lookup_insert in Hu. case_decide; [|eauto]. simplify_eq. simpl. eauto.
    + intros sid r (Hr & _)%map_lookup_filter_Some. eauto.
    + intros sid r (Hr & Hne)%map_lookup_filter_Some. simpl in *.
      rewrite lookup_insert_ne by congruence. eauto.
  - split; simpl; auto; try lia. intros _ id' u Hu [f Hfu].
    rewrite lookup_insert_ne by congruence. exists u. done.
Qed.

Lemma build_event_id t rs next e : build_event t rs next = Some e → event_id e = next.
Proof. intros H. unfold build_event in H. by simplify_option_eq. Qed.

Lemma queue_event_transfers e now d d' :
  queue_event e now d = Some d' →
  db_transfers d' = db_transfers d ∧ db_registrations d' = db_registrations d
  ∧ db_sessions d' = db_sessions d.
Proof. unfold queue_event. intros H. repeat case_match; simplify_eq; done. Qed.

Lemma finalize_tx_ok keep id now1 now2 d d' :
  db_ok d → finalize_tx id now1 now2 d = Some d' → db_ok d' ∧ db_evolves keep d d'.
Proof.
  intros Hok H. unfold finalize_tx in H.
  destruct (db_transfers d !! id) as [t|] eqn:Ht; [|by simplify_eq].
  destruct (tr_finalized_at t) eqn:Hf; [by simplify_eq|].
  apply bind_Some in H as (e & He & H). apply bind_Some in H as (d1 & Hd1 & H).
  injection H as <-. pose proof (queue_event_transfers _ _ _ _ Hd1) as (Htr & _ & _).
  destruct (queue_event_ok keep e now1 d d1) as [Hok1 Hev1]; eauto using build_event_id.
  destruct (close_transfer_ok keep id now2 t d1) as [? ?]; [done|by rewrite Htr|done|].
  split; [done|by etrans].
Qed.

Lemma cleanup_tx_ok expired d :
  db_ok d → db_ok (cleanup_tx expired d).2 ∧ db_evolves false d (cleanup_tx expired d).2.
Proof.
  intros Hok. unfold cleanup_tx. simpl. set (ids := list_to_set _ : gset string).
  destruct Hok. split; [|by split].
  split; simpl; auto.
  - intros id t (Ht & _)%map_lookup_filter_Some. eauto.
  - intros id t (Ht & _)%map_lookup_filter_Some.
    transitivity (Z.of_nat (size (registrations_of id d))); [|eauto].
    apply inj_le, map_subseteq_size, map_filter_subseteq_mono, map_filter_subseteq.
  - intros sid r (Hr & _)%map_lookup_filter_Some. eauto.
  - intros sid r (Hr & Hin)%map_lookup_filter_Some. simpl in *.
    destruct (ok_foreign0 _ _ Hr) as [t Ht]. exists t.
    by apply map_lookup_filter_Some.
Qed.
(** [initialize] interrupts what a previous process left active.  A finalized
    row can still be in an active state, so its outcome may be rewritten. *)
Lemma interrupt_active_ok now deadline d :
  db_ok d →
  db_ok (interrupt_active now deadline d).2 ∧
  db_evolves false d (interrupt_active now deadline d).2.
Proof.
  intros Hok. unfold interrupt_active. simpl. destruct Hok. split; [|by split].
  split; simpl; auto.
  - intros id t (u & <- & Hu)%lookup_fmap_Some. apply ok_transfers0 in Hu.
    by destruct (active_state _).
  - intros id t (u & <- & Hu)%lookup_fmap_Some. apply ok_registered0 in Hu.
    by destruct (active_state _).
  - intros sid r Hr. rewrite lookup_fmap. apply fmap_is_Some. eauto.
Qed.
End Tables.
