(* ===== verification/MulticastProofs.v ===== *)
(** * Workstation multicast: the handlers are safe together

    The invariant of the shared world, and that every handler of
    [MulticastHandlers] keeps it and only evolves the world in the allowed way,
    whatever runs beside it. *)

From stdpp Require Import base gmap list strings relations.
From Stdlib Require Import ZArith Lia.
From S2P Require Import Prelude RustStr Async Multicast MulticastHandlers MulticastTables.

#[local] Open Scope Z_scope.
#[local] Open Scope nest_scope.

(** ** The invariant of the world *)

(** What a receiver relies on in an offer. *)
Record offer_ok (o : MulticastOffer) : Prop := {
  offer_schema : off_schema o = OFFER_SCHEMA ∧ off_transport o = TRANSPORT;
  offer_address : organization_local_multicast (off_rendezvous_address o) = true;
  offer_port : 9000 ≤ off_port_base o ≤ 9998 ∧ off_port_base o mod 2 = 0;
  offer_start : 1 ≤ off_start_timeout_seconds o ≤ 15;
  offer_receive : 15 ≤ off_receive_timeout_seconds o ≤ 30;
  offer_absolute : off_receive_timeout_seconds o ≤ off_absolute_timeout_seconds o ≤ 120;
}.

Definition policy_ok (p : WorkstationMulticastPolicy) : Prop := policy_validate p = Ok tt.

Record batch_ok (b : Batch) : Prop := {
  batch_policy : policy_ok (bat_policy b);
  batch_bound : (size (bat_registrations b) ≤ MAX_PENDING_SESSIONS)%nat;
  batch_offer : offer_ok (bat_offer b);
  batch_offer_key :
    off_component_sha256 (bat_offer b) = key_component_sha256 (bat_key b) ∧
    off_size_bytes (bat_offer b) = key_size_bytes (bat_key b);
}.

Record coord_ok (c : CoordinatorState) : Prop := {
  coord_policy : ∀ p, co_policy c = Some p → policy_ok p;
  coord_batch : ∀ b, co_batch c = Some b → batch_ok b;
}.

Create HintDb multicast.

Section Proofs.
Context {Ext : External} {Laws : ExternalLaws} (config : Config).

Definition inv (w : World) : Prop := db_ok (w_db w) ∧ coord_ok (w_coord w).

(** How the world may change: the tables as [db_evolves] says, and neither the
    shutdown nor a cancellation is ever taken back. *)
Record evolves (keep : bool) (w w' : World) : Prop := {
  evolves_db : db_evolves keep (w_db w) (w_db w');
  evolves_shutdown : w_shutting_down w = true → w_shutting_down w' = true;
  evolves_cancelled : w_cancelled w ⊆ w_cancelled w';
}.

#[global] Instance evolves_preorder keep : PreOrder (evolves keep).
Proof.
  split.
  - intros w. split; [reflexivity|done|done].
  - intros w1 w2 w3 [] []. split; [by etrans|auto|set_solver].
Qed.

(** ** Policies and offers *)

Lemma policy_validate_ok p :
  policy_ok p →
  pol_schema p = POLICY_SCHEMA ∧ 0 ≤ pol_generation p ∧ 0 < pol_qualification_revision p ∧
  1 ≤ pol_maximum_events_per_page p ≤ 64 ∧
  2 ≤ pol_minimum_receivers p ≤ 30 ∧ 1 ≤ pol_join_window_seconds p ≤ 15 ∧
  1000000 ≤ pol_max_bitrate_bps p ≤ 1000000000 ∧
  15 ≤ pol_absolute_timeout_seconds p ≤ 120 ∧
  9000 ≤ pol_port_base p ≤ 9998 ∧ pol_port_base p mod 2 = 0 ∧
  organization_local_multicast (pol_rendezvous_address p) = true ∧
  organization_local_multicast (pol_data_address p) = true ∧
  pol_data_address p = pol_rendezvous_address p + 1.
Proof.
  unfold policy_ok, policy_validate. intros Hv.
  destruct (_ || _) eqn:Hc in Hv; [done|].
  repeat match type of Hc with (_ || _) = false => apply orb_false_iff in Hc as [Hc ?] end.
  unfold in_range, checked_succ_u32 in *. bool_prop. repeat case_match; simplify_eq.
  split_and!; auto; lia.
Qed.

Lemma new_offer_ok p s : policy_ok p → offer_ok (new_offer p s).
Proof.
  intros H%policy_validate_ok. destruct_and! H.
  split; simpl; unfold start_timeout_seconds, sat_add, u16_max; auto; lia.
Qed.

Lemma join_register_ok p net s now fresh c :
  policy_ok p → coord_ok c →
  coord_ok (join_register p net s now fresh c).2 ∧
  ∀ j, (join_register p net s now fresh c).1 = Some j →
    offer_ok (jn_offer j) ∧ off_component_sha256 (jn_offer j) = es_component_sha256 s ∧
    off_size_bytes (jn_offer j) = es_size_bytes s.
Proof.
  intros Hp Hc. unfold join_register.
  destruct (co_batch c) as [b|] eqn:Hb; simpl.
  - pose proof (coord_batch _ Hc _ Hb) as Hbok. destruct Hbok, Hc.
    unfold batch_accepts_registration. destruct (_ && _) eqn:Hacc; simpl; [|by split].
    apply andb_true_iff in Hacc as [Hacc _]. bool_prop.
    pose proof (map_size_filter_le (λ kv : string * Z, now < kv.2) (bat_registrations b)).
    case_bool_decide; simpl; (split; [split; simpl; [done|]|]).
    + intros ? [= <-]. split; simpl; auto; lia.
    + done.
    + intros ? [= <-]. split; simpl; auto. rewrite map_size_insert. case_match; simpl; lia.
    + intros j [= <-]. simpl. match goal with H : bat_key b = _ |- _ => rewrite H in * end. simpl in *. intuition.
  - split; [split; simpl; [by destruct Hc|]|].
    + intros ? [= <-]. split; simpl; auto using new_offer_ok.
      rewrite map_size_singleton. unfold MAX_PENDING_SESSIONS. lia.
    + intros j [= <-]. simpl. auto using new_offer_ok.
Qed.
(** ** Sections under the mutex *)

Lemma coord_no_batch c : coord_ok c → coord_ok (set_batch None c).
Proof. intros []. by split. Qed.

Lemma coord_set_batch c b : coord_ok c → batch_ok b → coord_ok (set_batch (Some b) c).
Proof. intros [] Hb. split; [done|]. by intros ? [= <-]. Qed.

Lemma coord_set_cooldown c t : coord_ok c → coord_ok (set_cooldown t c).
Proof. intros []. by split. Qed.

Lemma batch_with_phase ph b : batch_ok b → batch_ok (with_phase ph b).
Proof. intros []. by split. Qed.

Lemma batch_delete sid b :
  batch_ok b → batch_ok (with_registrations (delete sid (bat_registrations b)) b).
Proof.
  intros []. split; simpl; auto. etrans; [|done].
  apply map_subseteq_size, delete_subseteq.
Qed.

(** A section that only works on the coordinator, the shutdown flag or the
    cancellations. *)
Definition coord_step (w w' : World) : Prop :=
  w_db w' = w_db w ∧ (w_shutting_down w = true → w_shutting_down w' = true) ∧
  w_cancelled w ⊆ w_cancelled w' ∧ coord_ok (w_coord w').

Lemma coord_step_refl w : inv w → coord_step w w.
Proof. intros [_ ?]. by unfold coord_step; split_and!. Qed.

Lemma coord_step_set w c : coord_ok c → coord_step w (set_coord c w).
Proof. intros ?. by unfold coord_step; split_and!. Qed.

Lemma inv_batch w b : inv w → co_batch (w_coord w) = Some b → batch_ok b.
Proof. intros [_ []] ?. auto. Qed.

Lemma inv_coord w : inv w → coord_ok (w_coord w).
Proof. by intros []. Qed.

#[local] Hint Resolve coord_no_batch coord_set_batch coord_set_cooldown batch_with_phase
  batch_delete coord_step_refl coord_step_set inv_batch inv_coord : multicast.

Ltac coord_cases f :=
  intros; unfold f; repeat case_match; simpl; eauto 8 with multicast.

Lemma remove_live_registration_step tid sid w :
  inv w → coord_step w (remove_live_registration tid sid w).2.
Proof. coord_cases remove_live_registration. Qed.

Lemma cancel_active_step w : inv w → coord_step w (cancel_active w).2.
Proof.
  coord_cases cancel_active. unfold coord_step. simpl.
  split_and!; eauto with multicast. set_solver.
Qed.

Lemma join_undo_step tid sid created w :
  inv w → coord_step w (join_undo tid sid created w).2.
Proof. coord_cases join_undo. Qed.

Lemma join_look_step tid w : inv w → coord_step w (join_look tid w).2.
Proof. coord_cases join_look. Qed.

Lemma expire_section_step tid w : inv w → coord_step w (expire_section tid w).2.
Proof. coord_cases expire_section. Qed.

Lemma drop_batch_step tid w : inv w → coord_step w (drop_batch tid w).2.
Proof. coord_cases drop_batch. Qed.

Lemma sender_done_step tid cooldown w : inv w → coord_step w (sender_done tid cooldown w).2.
Proof.
  intros Hw. pose proof (drop_batch_step tid w Hw) as (Hdb & Hs & Hc & Hok).
  unfold sender_done. destruct cooldown; simpl; split_and!; simpl;
    eauto with multicast.
Qed.

Lemma sender_sending_step tid w : inv w → coord_step w (sender_sending tid w).2.
Proof. coord_cases sender_sending. Qed.

Lemma sender_batch_step tid w : inv w → coord_step w (sender_batch tid w).2.
Proof. coord_cases sender_batch. Qed.

Lemma cooldown_section_step now w : inv w → coord_step w (cooldown_section now w).2.
Proof. coord_cases cooldown_section. Qed.

Lemma join_section_step p net s now fresh w :
  policy_ok p → inv w →
  coord_step w (join_section p net s now fresh w).2 ∧
  ∀ j, (join_section p net s now fresh w).1 = Some j →
    offer_ok (jn_offer j) ∧ off_component_sha256 (jn_offer j) = es_component_sha256 s ∧
    off_size_bytes (jn_offer j) = es_size_bytes s.
Proof.
  intros Hp Hw. unfold join_section.
  assert (∀ c, coord_ok c →
    let '(r, c') := join_register p net s now fresh c in
    coord_step w (r, set_coord c' w).2 ∧ ∀ j, (r, set_coord c' w).1 = Some j →
    offer_ok (jn_offer j) ∧ off_component_sha256 (jn_offer j) = es_component_sha256 s ∧
    off_size_bytes (jn_offer j) = es_size_bytes s) as Hreg.
  { intros c Hc. pose proof (join_register_ok p net s now fresh c Hp Hc) as Hj.
    destruct (join_register _ _ _ _ _ _). destruct Hj. simpl in *. eauto with multicast. }
  destruct (co_cooldown_until (w_coord w)).
  - case_match; [split; [by apply coord_step_refl|done]|].
    specialize (Hreg (set_cooldown None (w_coord w))). destruct (join_register _ _ _ _ _ _).
    apply Hreg. eauto with multicast.
  - specialize (Hreg (w_coord w)). destruct (join_register _ _ _ _ _ _).
    apply Hreg. eauto with multicast.
Qed.

(** A registration is in the batch that it names, which has its offer. *)
Definition registered_as (sid : string) (j : Joined) (w : World) : Prop :=
  ∃ b, co_batch (w_coord w) = Some b ∧ bat_transfer_id b = jn_transfer_id j ∧ bat_offer b = jn_offer j ∧
       is_Some (bat_registrations b !! sid).

Lemma join_section_registers p net s now fresh w j :
  (join_section p net s now fresh w).1 = Some j →
  registered_as (es_session_id s) j (join_section p net s now fresh w).2.
Proof.
  unfold join_section, join_register, registered_as. intros H.
  repeat (case_match; simplify_eq/=; try done); eexists; (split_and!; [done..|]);
    cbn; rewrite ?lookup_insert_eq, ?lookup_singleton_eq; by eexists.
Qed.

Lemma disable_coordinator_step w : inv w → coord_step w (disable_coordinator w).2.
Proof.
  intros [_ [Hp Hb]]. apply coord_step_set. split; simpl; [|done].
  intros p (q & Hq & ->)%fmap_Some_1. by apply Hp in Hq.
Qed.

Lemma install_policy_step p w :
  policy_ok p → inv w → coord_step w (install_policy p w).2.
Proof. intros Hp [_ [_ Hb]]. apply coord_step_set. split; simpl; [|done]. by intros ? [= <-]. Qed.

(** ** Rules for the handlers' actions *)

Section Safe.
Context (keep : bool).

Abbreviation holds p Q w0 := (safe (In:=Input) inv (evolves keep) p Q w0).
Abbreviation harmless p w0 := (safe (In:=Input) inv (evolves keep) p (λ _ _, True) w0).

Lemma safe_coord {B} (act : Input → World → B * World) (Q : B → World → Prop) w0 :
  (∀ i w, inv w → evolves keep w0 w →
     coord_step w (act i w).2 ∧ Q (act i w).1 (act i w).2) →
  holds (atomic act) Q w0.
Proof.
  intros H. apply safe_atomic. intros i w Hw HG.
  destruct (H i w Hw HG) as [(Hdb & Hs & Hc & Hok) HQ]. split_and!; [|split|done].
  - split; [by rewrite Hdb; apply Hw|done].
  - by rewrite Hdb.
  - done.
  - done.
Qed.

Lemma harmless_coord {B} (act : Input → World → B * World) w0 :
  (∀ i w, inv w → coord_step w (act i w).2) → harmless (atomic act) w0.
Proof. intros H. apply safe_coord. auto. Qed.

Lemma harmless_section {B} (f : World → B * World) w0 :
  (∀ w, inv w → coord_step w (f w).2) → harmless (section f) w0.
Proof. intros H. apply harmless_coord. auto. Qed.

Lemma harmless_read {B} (f : Input → B) w0 : harmless (read_input f) w0.
Proof. apply safe_read; [apply _|done]. Qed.

Lemma harmless_stmt {B} (f : Input → Db → B * Db) w0 :
  (∀ i d, db_ok d → db_evolves keep (w_db w0) d →
     db_ok (f i d).2 ∧ db_evolves keep d (f i d).2) →
  harmless (stmt f) w0.
Proof.
  intros H. apply safe_checked_query; [apply _|done|]. intros i w b w' [Hd Hc] [HG _ _] E.
  destruct (f i (w_db w)) as [b' d'] eqn:Ef. simplify_eq.
  destruct (H i (w_db w) Hd HG) as [??]. rewrite Ef in *. simpl in *.
  split_and!; [by split|by split|done].
Qed.

Lemma harmless_transaction (f : Input → Db → option Db) w0 :
  (∀ i d d', db_ok d → f i d = Some d' → db_ok d' ∧ db_evolves keep d d') →
  harmless (transaction f) w0.
Proof.
  intros H. apply safe_checked_query; [apply _|done|]. intros i w b w' [Hd Hc] _ E.
  apply bind_Some in E as (d' & Ef & E). simplify_eq.
  destruct (H _ _ _ Hd Ef) as [??]. split_and!; [by split|by split|done].
Qed.

Lemma safe_select {B} (f : Db → B) w0 :
  holds (select f) (λ r w, ∀ b, r = Ok b → b = f (w_db w)) w0.
Proof.
  apply safe_checked_query; [apply _|by intros ???|].
  intros i w b w' Hw _ [= <- <-]. split_and!; [done|reflexivity|by intros ? [= ->]].
Qed.

Lemma harmless_select {B} (f : Db → B) w0 : harmless (select f) w0.
Proof. eapply safe_mono; [|apply safe_select]. done. Qed.

Lemma harmless_seq {A B} (f : A → prog Input World B) p w0 :
  inv w0 → harmless p w0 →
  (∀ a w, inv w → evolves keep w0 w → harmless (f a) w) → harmless (p ≫= f) w0.
Proof. intros Hw Hp Hf. eapply safe_seq; [apply _|done|done|]. auto. Qed.

Lemma harmless_try {A B} (f : A → prog Input World (result string B)) p w0 :
  inv w0 → harmless p w0 →
  (∀ a w, inv w → evolves keep w0 w → harmless (f a) w) → harmless (try_bind p f) w0.
Proof. intros Hw Hp Hf. eapply safe_try_seq; [apply _|done|done|auto|done]. Qed.

Lemma harmless_spawn t w0 : harmless t w0 → harmless (spawn t) w0.
Proof. intros. by apply safe_spawn. Qed.

(** Walk through a handler: sequence, read, branch; sections and statements are
    closed by the step lemmas. *)
Ltac walk :=
  repeat first
    [ done
    | apply harmless_read
    | apply harmless_select
    | match goal with
      | |- safe _ _ (mbind _ _) _ _ => apply harmless_seq; [done| |intros ????]
      | |- safe _ _ (try_bind _ _) _ _ => apply harmless_try; [done| |intros ????]
      | |- safe _ _ (spawn _) _ _ => apply harmless_spawn
      | |- safe _ _ (match ?x with _ => _ end) _ _ => destruct x
      end ].

(** ** The handlers *)

Lemma finish_transfer_row_safe tid st outcome w0 :
  inv w0 → harmless (finish_transfer_row tid st outcome) w0.
Proof.
  intros Hw. unfold finish_transfer_row. walk.
  apply harmless_stmt. intros ? d Hd _. by apply finish_row_ok.
Qed.

Lemma finalize_transfer_event_safe tid w0 : harmless (finalize_transfer_event tid) w0.
Proof.
  apply harmless_transaction. intros i d d' Hd E. by eapply finalize_tx_ok.
Qed.

Lemma schedule_finalization_safe tid w0 : inv w0 → harmless (schedule_finalization tid) w0.
Proof.
  intros Hw. unfold schedule_finalization. walk. apply finalize_transfer_event_safe.
Qed.

#[local] Hint Resolve finish_transfer_row_safe finalize_transfer_event_safe
  schedule_finalization_safe : multicast.

Lemma sender_loop_safe fuel tid deadline w0 :
  inv w0 → harmless (sender_loop fuel tid deadline) w0.
Proof.
  revert w0. induction fuel as [|fuel IH]; intros w0 Hw; cbn [sender_loop]; [done|].
  walk. by apply IH.
Qed.

Lemma run_sender_safe fuel tid w0 : inv w0 → harmless (run_sender fuel tid) w0.
Proof.
  intros Hw. unfold run_sender. walk.
  - apply harmless_section. intros. by apply sender_batch_step.
  - apply harmless_section. intros. by apply sender_sending_step.
  - apply harmless_stmt. intros ? d Hd _. by apply mark_sending_ok.
  - by apply sender_loop_safe.
  - apply harmless_stmt. intros ? d Hd _. by apply touch_bundle_ok.
Qed.

Lemma spawn_sender_safe fuel tid w0 : inv w0 → harmless (spawn_sender fuel tid) w0.
Proof.
  intros Hw. unfold spawn_sender. apply harmless_seq; [done|by apply run_sender_safe|].
  intros outcome w Hi _. destruct (match outcome with Ok true => _ | _ => _ end)
    as [[row_state sender_outcome] cooldown]. walk; eauto with multicast.
  apply harmless_coord. intros. by apply sender_done_step.
Qed.

Lemma expire_gathering_safe fuel tid w0 : inv w0 → harmless (expire_gathering fuel tid) w0.
Proof.
  intros Hw. unfold expire_gathering.
  walk; eauto using spawn_sender_safe with multicast.
  - apply harmless_section. intros. by apply expire_section_step.
  - apply harmless_stmt. intros ? d Hd _. by apply mark_sender_starting_ok.
  - apply harmless_section. intros. by apply drop_batch_step.
  - apply harmless_section. intros. by apply drop_batch_step.
Qed.
(** *** Joining *)

Lemma release_registration_safe tid sid w0 : harmless (release_registration tid sid) w0.
Proof.
  apply harmless_spawn, harmless_section. intros. by apply remove_live_registration_step.
Qed.

(** What a workstation that registered as [j] can rely on when it is given an offer. *)
Definition offered (s : EligibleSession) (j : Joined) (r : result string (option MulticastOffer))
    (w : World) : Prop :=
  ∀ offer, r = Ok (Some offer) →
    offer = jn_offer j ∧ offer_ok offer ∧ off_component_sha256 offer = es_component_sha256 s ∧
    off_size_bytes offer = es_size_bytes s ∧
    ∃ b, co_batch (w_coord w) = Some b ∧ bat_transfer_id b = jn_transfer_id j ∧ bat_phase b ≠ Gathering.

Lemma released_safe s j sid w0 :
  inv w0 →
  holds (release_registration (jn_transfer_id j) sid ≫= λ _, Ret (Ok None)) (offered s j) w0.
Proof.
  intros Hw. eapply safe_seq; [apply _|done|apply release_registration_safe|].
  by intros a w _ _ _ offer [=].
Qed.

Lemma wait_loop_safe fuel s j sid w0 :
  inv w0 → offer_ok (jn_offer j) →
  off_component_sha256 (jn_offer j) = es_component_sha256 s →
  off_size_bytes (jn_offer j) = es_size_bytes s →
  holds (wait_loop fuel j sid) (offered s j) w0.
Proof.
  intros Hw Ho Hc Hs. revert w0 Hw. induction fuel as [|fuel IH]; intros w0 Hw;
    cbn [wait_loop]; [by apply released_safe|].
  eapply safe_seq; [apply _|done| |].
  - apply (safe_section _ _ (join_look (jn_transfer_id j)) (λ seen w, seen = WaitOffer →
      ∃ b, co_batch (w_coord w) = Some b ∧ bat_transfer_id b = jn_transfer_id j
           ∧ bat_phase b ≠ Gathering)).
    intros w Hi _. unfold join_look. repeat case_match; simpl;
      (split_and!; [done|reflexivity|]); try done; intros _; bool_prop;
      eexists; split_and!; eauto; congruence.
  - intros [] w Hi _ Hseen.
    + intros offer [= <-]. auto 10.
    + by apply released_safe.
    + eapply safe_seq; [apply _|done|apply harmless_read|].
      intros [] w' Hi' _ _; [by apply released_safe|by apply IH].
Qed.

Lemma joined_safe fuel p net s j w0 :
  inv w0 → offer_ok (jn_offer j) → off_component_sha256 (jn_offer j) = es_component_sha256 s →
  off_size_bytes (jn_offer j) = es_size_bytes s →
  holds (joined_cohort fuel p net s j) (offered s j) w0.
Proof.
  intros Hw Ho Hc Hs. unfold joined_cohort. eapply safe_seq; [apply _|done| |].
  { apply harmless_transaction. intros i d d' Hd E. by eapply persist_registration_ok. }
  intros [[]|e] w3 Hw3 _ _.
  - eapply safe_seq; [apply _|done| |].
    { instantiate (1 := λ _ _, True). destruct (jn_created j); [|done].
      apply harmless_spawn. walk. by apply expire_gathering_safe. }
    intros _ w4 Hw4 _ _. by apply wait_loop_safe.
  - eapply safe_seq; [apply _|done| |].
    { apply harmless_section. intros. by apply join_undo_step. }
    by intros _ w4 _ _ _ offer [=].
Qed.

Lemma join_cohort_safe fuel p net s w0 :
  inv w0 → policy_ok p → holds (join_cohort fuel p net s) (λ _ _, True) w0.
Proof.
  intros Hw Hp. unfold join_cohort.
  eapply safe_seq; [apply _|done|apply harmless_read|]. intros now w1 Hw1 _ _.
  eapply safe_seq; [apply _|done| |].
  { apply (safe_coord (λ i w, join_section p net s now (in_uuid i) w)
      (λ r _, ∀ j, r = Some j → offer_ok (jn_offer j) ∧
        off_component_sha256 (jn_offer j) = es_component_sha256 s ∧
        off_size_bytes (jn_offer j) = es_size_bytes s)).
    intros i w Hi _. by apply join_section_step. }
  intros [j|] w2 Hw2 _ Hj; [|done]. destruct (Hj j eq_refl) as (Ho & Hc & Hs).
  eapply safe_mono; [|by apply joined_safe]. done.
Qed.

Lemma discover_inner_safe fuel bundle body w0 :
  inv w0 → harmless (discover_inner config fuel bundle body) w0.
Proof.
  intros Hw. unfold discover_inner.
  destruct (validate_sha256 bundle); [|done]. destruct (_ || _); [done|].
  destruct (decode_join body) as [request|]; [|done]. destruct (_ || _); [done|].
  apply harmless_seq; [done|apply harmless_coord; intros; by apply coord_step_refl|].
  intros unavailable w1 Hw1 _. destruct unavailable; [done|].
  eapply safe_seq; [apply _|done| |].
  { apply (safe_section _ _ get_policy (λ r _, ∀ p h l, r = Some (p, h, l) → policy_ok p)).
    intros w Hi _. split_and!; [done|reflexivity|].
    intros p h l (q & Hq & [= -> _ _])%fmap_Some_1. by destruct (inv_coord w Hi); eauto. }
  intros [[[p h] l]|] w2 Hw2 _ Hp; [|done]. specialize (Hp p h l eq_refl).
  destruct (_ || _); [done|]. walk.
  eapply safe_mono; [|by apply join_cohort_safe]. done.
Qed.

(** *** Receipts *)

Lemma maybe_finalize_safe tid w0 :
  inv w0 → harmless (maybe_finalize_complete_receipts tid) w0.
Proof.
  intros Hw. unfold maybe_finalize_complete_receipts. walk.
  apply finalize_transfer_event_safe.
Qed.

Lemma record_result_inner_safe bundle body w0 :
  inv w0 → harmless (record_result_inner bundle body) w0.
Proof.
  intros Hw. unfold record_result_inner.
  destruct (validate_sha256 bundle); [|done]. destruct (_ || _); [done|].
  destruct (decode_result body) as [request|]; [|done].
  destruct (_ || _) eqn:Hc; [done|]. bool_prop.
  walk; try by apply maybe_finalize_safe.
  all: apply harmless_stmt; intros i d Hd _.
  all: first [by apply count_late_receipt_ok
             |by apply record_receipt_ok, receipt_of_request_ok].
Qed.
(** *** Policy, start-up, reports and shutdown *)

Lemma cancel_with_safe outcome w0 : inv w0 → harmless (cancel_with outcome) w0.
Proof.
  intros Hw. unfold cancel_with. walk; eauto with multicast.
  apply harmless_section. intros. by apply cancel_active_step.
Qed.

Lemma apply_desired_policy_safe desired w0 :
  inv w0 → harmless (apply_desired_policy desired) w0.
Proof.
  intros Hw. unfold apply_desired_policy. destruct desired as [value|].
  - destruct (policy_from_value value) as [p|]; [|done].
    destruct (policy_validate p) as [[]|] eqn:Hp; [|done].
    walk; try by apply cancel_with_safe.
    + apply harmless_stmt. intros ? d Hd _. by apply set_policy_row_ok.
    + apply harmless_section. intros. by apply install_policy_step.
  - walk; try by apply cancel_with_safe.
    + apply harmless_stmt. intros ? d Hd _. by apply set_policy_row_ok.
    + apply harmless_section. intros. by apply disable_coordinator_step.
Qed.

Lemma ensure_report_instance_safe w0 : inv w0 → harmless ensure_report_instance w0.
Proof.
  intros Hw. unfold ensure_report_instance. walk.
  apply harmless_stmt. intros ? d Hd _. by apply set_instance_ok.
Qed.

Lemma rearm_safe pending w0 : inv w0 → harmless (rearm pending) w0.
Proof.
  revert w0. induction pending as [|[tid ?] pending IH]; intros w0 Hw; [done|].
  cbn [rearm]. walk; eauto with multicast.
Qed.

Lemma report_page_safe w0 : inv w0 → harmless (report_page config) w0.
Proof.
  intros Hw. unfold report_page. walk.
  apply harmless_coord. intros. by apply cooldown_section_step.
Qed.

(** The acknowledgement is checked before its transaction; what was checked
    still holds in it, because identifiers only grow and an instance stays. *)
Lemma acknowledge_report_safe instance through w0 :
  inv w0 → harmless (acknowledge_report instance through) w0.
Proof.
  intros Hw. unfold acknowledge_report.
  destruct (_ || _) eqn:Hc; [done|]. bool_prop.
  eapply safe_try_seq; [apply _|done|apply safe_select| |done].
  intros current w1 Hw1 _ Hcur. specialize (Hcur _ eq_refl). subst current.
  destruct (_ || _) eqn:Hc; [done|]. bool_prop. walk.
  apply harmless_stmt. intros i d Hd Hev. apply acknowledge_tx_ok; [done| |].
  - destruct Hev. lia.
  - left. rewrite (ev_instance _ _ _ Hev); [done|]. subst instance. by apply uuid_nonempty.
Qed.

Lemma bundle_active_safe bundle w0 : harmless (section (bundle_active bundle)) w0.
Proof. apply harmless_section. intros. by apply coord_step_refl. Qed.

Lemma wait_bundle_idle_safe rounds bundle w0 :
  inv w0 → harmless (wait_bundle_idle rounds bundle) w0.
Proof.
  revert w0. induction rounds as [|rounds IH]; intros w0 Hw; [done|].
  cbn [wait_bundle_idle]. walk. by apply IH.
Qed.

Lemma cancel_for_bundle_safe bundle w0 : inv w0 → harmless (cancel_for_bundle bundle) w0.
Proof.
  intros Hw. unfold cancel_for_bundle.
  walk; eauto using bundle_active_safe, wait_bundle_idle_safe with multicast.
  apply harmless_section. intros. by apply cancel_active_step.
Qed.

Lemma wait_idle_safe rounds w0 : inv w0 → harmless (wait_idle rounds) w0.
Proof.
  revert w0. induction rounds as [|rounds IH]; intros w0 Hw; [done|].
  cbn [wait_idle]. walk. by apply IH.
Qed.

Lemma shutdown_safe w0 : inv w0 → harmless shutdown w0.
Proof.
  intros Hw. unfold shutdown. walk; eauto using wait_idle_safe.
  - apply harmless_section. intros. by apply cancel_active_step.
  - apply harmless_stmt. intros ? d Hd _. by apply finish_row_ok.
Qed.
End Safe.

Lemma initialize_safe w0 : inv w0 → safe inv (evolves false) initialize (λ _ _, True) w0.
Proof.
  intros Hw. unfold initialize.
  apply harmless_try; [done|by apply ensure_report_instance_safe|]. intros _ w1 Hw1 _.
  apply harmless_seq; [done|apply harmless_read|]. intros now_text w2 Hw2 _.
  apply harmless_seq; [done|apply harmless_read|]. intros now w3 Hw3 _.
  apply harmless_try; [done| |].
  { apply harmless_stmt. intros ? d Hd _. by apply interrupt_active_ok. }
  intros _ w4 Hw4 _. apply harmless_try; [done|apply harmless_select|].
  intros pending w5 Hw5 _. apply harmless_seq; [done|by apply rearm_safe|].
  intros _ w6 Hw6 _. apply harmless_try; [done|apply harmless_select|].
  intros row w7 Hw7 _. destruct (prow_lane_authorized row); [|done].
  destruct (raw ← prow_json row; policy_from_str raw) as [p|]; [|done].
  destruct (_ && _) eqn:Hc; [|done]. bool_prop.
  apply harmless_seq; [done| |done]. apply harmless_section.
  intros w Hi. apply coord_step_set. destruct (inv_coord w Hi). split; simpl; [|done].
  intros q [= <-]. unfold policy_ok. by destruct (policy_validate p) as [[]|].
Qed.

Lemma cleanup_safe w0 :
  safe inv (evolves false) cleanup_retained_transfers (λ _ _, True) w0.
Proof. apply harmless_stmt. intros i d Hd _. by apply cleanup_tx_ok. Qed.

Lemma ignore_safe keep {A} (p : prog Input World A) w0 :
  inv w0 → safe inv (evolves keep) p (λ _ _, True) w0 →
  safe inv (evolves keep) (ignore p) (λ _ _, True) w0.
Proof. intros Hw Hp. by apply harmless_seq. Qed.

Lemma entry_safe keep p w0 :
  entry config keep p → inv w0 → safe inv (evolves keep) p (λ _ _, True) w0.
Proof.
  intros [] Hw; subst; try apply ignore_safe; auto using record_result_inner_safe,
    apply_desired_policy_safe, report_page_safe, acknowledge_report_safe,
    cancel_for_bundle_safe, release_registration_safe, shutdown_safe,
    initialize_safe, cleanup_safe.
  unfold discover. apply harmless_seq; [done|by apply discover_inner_safe|].
  by intros [[]|] w _ _.
Qed.
End Proofs.
