(* ===== verification/MulticastTheorems.v ===== *)
(** * Workstation multicast: what the coordinator guarantees

    The theorems about [src/netboot_multicast.rs]: safety of every interleaving
    of its handlers, exactly-once finalization with receipts that add up, the
    report queue, the policy lane.  The witnesses run on a concrete instance of
    the code outside the repository. *)

From stdpp Require Import sorting relations countable base gmap list strings.
From Stdlib Require Import Ascii ZArith Lia.
From S2P Require Import Prelude RustStr Async Multicast MulticastHandlers.
From S2P Require Import MulticastTables MulticastProofs.

#[local] Open Scope Z_scope.
#[local] Open Scope nest_scope.

Section Lemmas.
Context {Ext : External} {Laws : ExternalLaws} (config : Config).

(** ** Receipts *)

Definition is_fallback (r : RegistrationRow) : bool :=
  bool_decide (reg_fallback_outcome r = Some "http_verified")
  || bool_decide (reg_fallback_outcome r = Some "http_failed").

(** Below the saturation of the 16-bit counters, the counts by reason add up to
    the receipts that fell back. *)
Lemma fallback_counts_sum rs :
  Z.of_nat (length rs) ≤ u16_max →
  map_sum id (fallback_counts rs) = Z.of_nat (count is_fallback rs) ∧
  ∀ k v, fallback_counts rs !! k = Some v → 0 ≤ v.
Proof.
  induction rs as [|r rs IH] using rev_ind; intros Hlen.
  { split; [apply map_sum_empty|]. intros k v. unfold fallback_counts. simpl.
    by rewrite lookup_empty. }
  rewrite length_app in Hlen. simpl in Hlen. destruct IH as [Hsum Hpos]; [lia|].
  unfold fallback_counts in *. rewrite foldl_app, count_app. simpl.
  set (acc := foldl _ ∅ rs) in *. unfold count_fallback. fold (is_fallback r).
  unfold count at 2. simpl. destruct (is_fallback r); simpl; [|by rewrite Nat.add_0_r].
  set (reason := default _ _). pose proof (count_le is_fallback rs).
  pose proof (map_sum_lookup_le id acc reason Hpos) as Hle.
  split.
  - rewrite map_sum_insert. unfold id at 1. unfold sat_add, u16_max in *. lia.
  - intros k v. rewrite lookup_insert. case_decide; [|eauto]. intros [= <-].
    destruct (acc !! reason) as [x|] eqn:Hx; simpl; [|unfold sat_add, u16_max; lia].
    apply Hpos in Hx. unfold sat_add, u16_max. lia.
Qed.

Lemma receipt_ok_exclusive r :
  receipt_ok r → bool_decide (reg_multicast_outcome r = Some "verified") = true →
  is_fallback r = false.
Proof.
  unfold is_fallback. intros Hr Hv. bool_prop.
  apply orb_false_iff; rewrite !bool_decide_eq_false.
  destruct Hr as [[??]|[[??]|(reason & ? & ? & [?|?])]]; split; congruence.
Qed.

Lemma receipts_of_ok id d r : db_ok d → r ∈ receipts_of id d → receipt_ok r.
Proof.
  intros Hok Hr. apply list_elem_of_fmap in Hr as ([sid r'] & -> & Hin).
  apply elem_of_map_to_list in Hin. simpl.
  apply map_lookup_filter_Some in Hin as [Hin _]. by eapply ok_receipts.
Qed.

Lemma receipts_of_length id d : length (receipts_of id d) = size (registrations_of id d).
Proof. unfold receipts_of. by rewrite length_fmap, length_map_to_list. Qed.

(** ** Finalization *)

Lemma build_event_total id t d next :
  db_ok d → db_transfers d !! id = Some t → tr_registered_sessions t ≤ u64_max →
  is_Some (build_event t (receipts_of id d) next).
Proof.
  intros Hok Ht Hreg. destruct (ok_transfers _ Hok _ _ Ht) as [Hsize Hpos].
  assert (∀ m x, 0 ≤ x ≤ m → try_unsigned m x = Some x) as Hconv
    by (intros; by apply try_unsigned_Some).
  unfold build_event. simpl. unfold verified_count, sat_sub, i64_max, u64_max, u16_max in *.
  repeat (rewrite Hconv by lia; simpl). done.
Qed.

Lemma queue_event_total e now d :
  db_ok d → ∃ d', queue_event e now d = Some d' ∧
    ((MAX_REPORT_EVENTS ≤ Z.of_nat (size (db_events d)) ∨
      MAX_REPORT_EVENT_BYTES < sat_add u64_max (map_sum ev_size_bytes (db_events d))
                                 (len (event_to_string e))) ∧
     db_events d' = db_events d ∧
     rs_next_event_id (db_report d') = rs_next_event_id (db_report d) ∧
     rs_events_omitted (db_report d') = sat_add_i64 (rs_events_omitted (db_report d)) 1
     ∨
     db_events d' = <[rs_next_event_id (db_report d) :=
       {| ev_json := event_to_string e; ev_size_bytes := len (event_to_string e) |}]>
       (db_events d) ∧
     rs_next_event_id (db_report d') = rs_next_event_id (db_report d) + 1 ∧
     rs_events_omitted (db_report d') = rs_events_omitted (db_report d)).
Proof.
  intros Hok. unfold queue_event.
  assert (filter (λ kv, rs_acknowledged_through (db_report d) < kv.1) (db_events d)
          = db_events d) as Hall.
  { apply map_filter_id. intros id ev Hev. apply (ok_event_ids _ Hok) in Hev. simpl. lia. }
  rewrite Hall. destruct (_ || _) eqn:Hfull.
  - eexists. split; [done|]. left. split; [|done].
    apply orb_true_iff in Hfull as [?|?]; bool_prop; auto.
  - assert (db_events d !! rs_next_event_id (db_report d) = None) as Hnew.
    { apply eq_None_not_Some. intros [ev Hev]. apply (ok_event_ids _ Hok) in Hev. lia. }
    rewrite bool_decide_true by done.
    pose proof (ok_acknowledged _ Hok). pose proof (event_text_nonempty e).
    rewrite !(proj2 (Z.ltb_lt _ _)) by lia. simpl. eexists. split; [done|]. by right.
Qed.

Lemma close_transfer_registrations id now t d :
  registrations_of id (close_transfer id now t d) = ∅.
Proof.
  apply map_eq. intros sid. rewrite lookup_empty. apply map_lookup_filter_None. right.
  intros r (_ & Hr)%map_lookup_filter_Some. done.
Qed.

Lemma close_transfer_sessions id now t d sid s :
  is_Some (registrations_of id d !! sid) → db_sessions d !! sid = Some s →
  db_sessions (close_transfer id now t d) !! sid = Some (finalize_session now s).
Proof.
  intros [r Hr] Hs. unfold close_transfer. simpl.
  by rewrite map_lookup_imap, Hs, Hr.
Qed.
(** ** The report page *)

Lemma decode_events_ok d rows :
  db_ok d → (∀ row, row ∈ rows → db_events d !! row.1 = Some row.2) →
  ∃ events, decode_events rows = Ok events ∧
    Forall2 (λ row e, event_id e = row.1 ∧ ev_json row.2 = event_to_string e) rows events.
Proof.
  intros Hok. induction rows as [|[id ev] rows IH]; intros Hrows.
  - exists []. by split; [|constructor].
  - destruct IH as (events & IHd & IHids); [by intros row Hin; apply Hrows; right|].
    assert (db_events d !! id = Some ev) as Hev by apply (Hrows (id, ev)), list_elem_of_here.
    destruct (ok_event_rows _ Hok _ _ Hev) as (_ & e & Hjson & He).
    exists (e :: events). split; [|by constructor].
    unfold decode_events in *. cbn [foldr]. by rewrite IHd, Hjson, event_roundtrip.
Qed.

Lemma select_events_spec after limit d :
  let page := select_events after limit d in
  ∃ rest, page ++ rest ≡ₚ map_to_list (filter (λ kv, after < kv.1) (db_events d)) ∧
    Sorted event_le (page ++ rest) ∧ (length page ≤ limit)%nat ∧
    (length page < limit → rest = [])%nat.
Proof.
  simpl. unfold select_events. set (l := merge_sort _ _). exists (drop limit l).
  rewrite take_drop. split_and!.
  - apply merge_sort_Permutation.
  - apply Sorted_merge_sort. intros x y. unfold event_le. lia.
  - rewrite length_take. lia.
  - rewrite length_take. intros ?. apply drop_ge. lia.
Qed.

Lemma event_le_sorted_ids (l : list (Z * EventRow)) :
  Sorted event_le l → NoDup l.*1 → StronglySorted Z.lt l.*1.
Proof.
  intros Hs Hnd. apply Sorted_StronglySorted in Hs; [|by unfold event_le; intros x y z; lia].
  induction Hs as [|x l Hs IH Hall]; simpl in *; [constructor|].
  inversion_clear Hnd as [|? ? Hx Hnd']. constructor; [auto|].
  apply Forall_fmap, Forall_forall. intros y Hy. simpl.
  pose proof (proj1 (Forall_forall _ _) Hall y Hy) as Hle. unfold event_le in Hle.
  assert (x.1 ≠ y.1); [|lia]. intros Heq. apply Hx. rewrite Heq. by apply (list_elem_of_fmap_2 fst).
Qed.
(** ** Handlers alone *)

Lemma run_stmt {B} (f : Input → Db → B * Db) env n w :
  run env n (stmt f) w =
  if in_fault (env n) then (Err db_error, w, S n)
  else (Ok (f (env n) (w_db w)).1, set_db (f (env n) (w_db w)).2 w, S n).
Proof.
  unfold stmt, checked_query, atomic. simpl. destruct (in_fault (env n)); [done|].
  by destruct (f _ _).
Qed.

Lemma run_select {B} (f : Db → B) env n w :
  run env n (select f) w =
  if in_fault (env n) then (Err db_error, w, S n) else (Ok (f (w_db w)), w, S n).
Proof. unfold select, checked_query, atomic. simpl. by destruct (in_fault (env n)). Qed.

(** Cancelling leaves the policy lane alone, and no batch gathering. *)
Lemma cancel_with_run outcome env n w :
  let '(r, w', _) := run env n (cancel_with outcome) w in
  db_policy (w_db w') = db_policy (w_db w) ∧
  co_policy (w_coord w') = co_policy (w_coord w) ∧
  co_lane_authorized (w_coord w') = co_lane_authorized (w_coord w) ∧
  (∀ b, co_batch (w_coord w') = Some b →
     co_batch (w_coord w) = Some b ∧ bat_phase b ≠ Gathering ∧
     bat_transfer_id b ∈ w_cancelled w').
Proof.
  unfold cancel_with. rewrite run_bind. simpl. unfold cancel_active.
  destruct (co_batch (w_coord w)) as [b|] eqn:Hb; simpl.
  - case_bool_decide as Hph; simpl.
    + destruct (in_fault _); simpl; [done|].
      unfold finish_row, alter_transfer. repeat case_match; simplify_eq/=; done.
    + split_and!; try done. intros b' Hb'. split_and!; [congruence..|]. set_solver.
  - split_and!; try done. intros b'. by rewrite Hb.
Qed.
(** ** The theorems *)

(** C1. Whatever handlers a running Nest starts, however their actions
    interleave, whichever statements fail and wherever a client disconnects:
    the shared world keeps its invariant (event identifiers between the
    acknowledged and the next one, at most 256 queued events of at most 1 MiB
    that all decode, receipts consistent, at most 64 live registrations, every
    offer and every policy in force valid), the report counters never go back
    and neither shutdown nor a cancellation is undone. *)
Theorem multicast_interleavings_safe keep w ts' w' :
  rtc (pstep (entry config keep)) ([], w) (ts', w') → inv w → inv w' ∧ evolves keep w w'.
Proof.
  intros Hsteps Hw. eapply pool_invariant_empty; [apply _| |done|done].
  intros p w0. apply entry_safe.
Qed.

(** C2. While a Nest runs without its retention pass, a finalized transfer
    stays in the table, finalized at the same time, with the same outcome,
    component and size, in every interleaving of the handlers. *)
Theorem finalization_is_permanent w ts' w' id t :
  rtc (pstep (entry config true)) ([], w) (ts', w') → inv w →
  db_transfers (w_db w) !! id = Some t → is_Some (tr_finalized_at t) →
  ∃ t', db_transfers (w_db w') !! id = Some t' ∧ row_kept t t'.
Proof.
  intros Hsteps Hw Ht Hf.
  destruct (pool_invariant_empty inv (evolves true) (entry config true) w ts' w')
    as [_ [[] _ _]]; auto. intros p w0. apply entry_safe.
Qed.

(** Finalizing an open transfer always succeeds when the invariant holds:
    it marks the row, closes the transfer's sessions, drops its registrations
    and queues exactly one event under the next identifier, or counts it as
    omitted when 256 events or 1 MiB are already waiting.  Finalizing again
    changes nothing. *)
Theorem finalize_exactly_once id now1 now2 d t :
  db_ok d → db_transfers d !! id = Some t → tr_finalized_at t = None →
  tr_registered_sessions t ≤ u64_max →
  ∃ d' e, finalize_tx id now1 now2 d = Some d' ∧
    build_event t (receipts_of id d) (rs_next_event_id (db_report d)) = Some e ∧
    db_transfers d' !! id = Some (with_finalized now2 t) ∧
    registrations_of id d' = ∅ ∧
    (∀ sid s, is_Some (registrations_of id d !! sid) → db_sessions d !! sid = Some s →
       db_sessions d' !! sid = Some (finalize_session now2 s)) ∧
    ((MAX_REPORT_EVENTS ≤ Z.of_nat (size (db_events d)) ∨
      MAX_REPORT_EVENT_BYTES < sat_add u64_max (map_sum ev_size_bytes (db_events d))
                                 (len (event_to_string e))) ∧
     db_events d' = db_events d ∧
     rs_next_event_id (db_report d') = rs_next_event_id (db_report d) ∧
     rs_events_omitted (db_report d') = sat_add_i64 (rs_events_omitted (db_report d)) 1
     ∨
     db_events d' = <[rs_next_event_id (db_report d) :=
       {| ev_json := event_to_string e; ev_size_bytes := len (event_to_string e) |}]>
       (db_events d) ∧
     rs_next_event_id (db_report d') = rs_next_event_id (db_report d) + 1 ∧
     rs_events_omitted (db_report d') = rs_events_omitted (db_report d)) ∧
    ∀ now3 now4, finalize_tx id now3 now4 d' = Some d'.
Proof.
  intros Hok Ht Hf Hreg.
  destruct (build_event_total id t d (rs_next_event_id (db_report d))) as [e He]; auto.
  destruct (queue_event_total e now1 d Hok) as (d1 & Hq & Hcase).
  pose proof (queue_event_transfers _ _ _ _ Hq) as (Htr & Hrg & Hss).
  assert (registrations_of id d1 = registrations_of id d) as Hrd.
  { unfold registrations_of. by rewrite Hrg. }
  exists (close_transfer id now2 t d1), e. split_and!; auto.
  - unfold finalize_tx. rewrite Ht, Hf, He. simpl. by rewrite Hq.
  - simpl. by rewrite lookup_insert_eq.
  - apply close_transfer_registrations.
  - intros sid s Hsid Hs. apply close_transfer_sessions; by rewrite ?Hrd, ?Hss.
  - intros now3 now4. unfold finalize_tx. simpl. by rewrite lookup_insert_eq.
Qed.

(** The receipts of a report event add up: for a transfer of at most 64
    sessions, verified receipts, receipts that fell back to HTTP and missing
    receipts together are the registered sessions, and the bytes avoided are
    those of every verified receiver but one (saturating). *)
Theorem event_receipts_add_up id d t next e :
  db_ok d → db_transfers d !! id = Some t → tr_registered_sessions t ≤ 64 →
  build_event t (receipts_of id d) next = Some e →
  event_registered_session_count e = tr_registered_sessions t ∧
  event_multicast_verified_receipt_count e + map_sum Datatypes.id (event_fallback_counts e)
    + event_missing_receipt_count e = tr_registered_sessions t ∧
  event_payload_bytes e = tr_size_bytes t ∧
  event_estimated_unicast_bytes_avoided e =
    sat_mul u64_max (tr_size_bytes t)
      (Z.max 0 (event_multicast_verified_receipt_count e - 1)).
Proof.
  intros Hok Ht H64 He. pose proof (ok_registered _ Hok _ _ Ht) as Hsize.
  rewrite <- receipts_of_length in Hsize.
  destruct (fallback_counts_sum (receipts_of id d)) as [Hsum _];
    [unfold u16_max; lia|].
  pose proof (count_disjoint_le
    (λ r, bool_decide (reg_multicast_outcome r = Some "verified")) is_fallback
    (receipts_of id d)) as Hle.
  assert (∀ x, x ∈ receipts_of id d →
    bool_decide (reg_multicast_outcome x = Some "verified") = true → is_fallback x = false)
    as Hex by eauto using receipt_ok_exclusive, receipts_of_ok.
  specialize (Hle Hex). unfold build_event in He. rewrite Hsum in He.
  apply bind_Some in He as (reg & [<- Hr]%try_unsigned_Some & He).
  apply bind_Some in He as (pay & [<- Hp]%try_unsigned_Some & He).
  apply bind_Some in He as (creg & [<- _]%try_unsigned_Some & He).
  apply bind_Some in He as (cver & [<- _]%try_unsigned_Some & He).
  apply bind_Some in He as (cmiss & [<- _]%try_unsigned_Some & He).
  injection He as <-. simpl. rewrite Hsum.
  unfold verified_count, sat_sub, sat_add, u64_max in *.
  split_and!; [lia|lia|done|]. f_equal. lia.
Qed.

(** C3. A workstation is only ever given the offer of the batch it is registered in, once that
    batch's sender has started.  However other handlers run between the actions of [join_cohort]: when
    it returns an offer, its second action had registered the session in a batch with this very
    offer, which is for the component and size of the workstation's own bundle, with an
    organization-local address, an even port and bounded timeouts; and in the world of its last
    look the coordinator's batch has the transfer id of the batch it had registered in, and its
    sender has started. *)
Theorem join_cohort_offers_are_sound keep fuel p net s w0 seen offer w :
  inv w0 → policy_ok p →
  returns inv (evolves keep) (join_cohort fuel p net s) w0 seen (Ok (Some offer)) w →
  offer_ok offer ∧ off_component_sha256 offer = es_component_sha256 s ∧
  off_size_bytes offer = es_size_bytes s ∧
  ∃ registered own b, seen !! 1%nat = Some registered ∧
    co_batch (w_coord registered) = Some own ∧ bat_offer own = offer ∧
    is_Some (bat_registrations own !! es_session_id s) ∧
    co_batch (w_coord w) = Some b ∧ bat_transfer_id b = bat_transfer_id own ∧ bat_phase b ≠ Gathering.
Proof.
  intros Hw Hp H. unfold join_cohort in H.
  apply returns_step_inv in H as (i1 & w1 & rest1 & Hw1 & _ & -> & H). cbn [fst snd] in H.
  apply returns_step_inv in H as (i2 & w2 & rest2 & Hw2 & _ & -> & H).
  set (joined := join_section p net s (in_instant i1) (in_uuid i2) w2) in *.
  destruct (join_section_step p net s (in_instant i1) (in_uuid i2) w2 Hp Hw2) as [Hstep Hj].
  fold joined in Hstep, Hj. pose proof (join_section_registers p net s (in_instant i1) (in_uuid i2) w2) as Hr.
  fold joined in Hr.
  assert (inv joined.2) as Hinv. { destruct Hstep as (Ed & _ & _ & ?). split; [rewrite Ed; apply Hw2|done]. }
  destruct (joined.1) as [j|] eqn:Ej.
  - destruct (Hj j eq_refl) as (Ho & Hc & Hs). destruct (Hr j eq_refl) as (own & Hown & Hid & Hoff & Hreg).
    eapply safe_returns in H; [|by apply (joined_safe keep)].
    destruct (H offer eq_refl) as (-> & _ & _ & _ & b & Hb & Hbid & Hph).
    split_and!; [done..|]. exists joined.2, own, b. split_and!; [done..|congruence|done].
  - by apply returns_ret_inv in H as [? _].
Qed.
(** A report page always decodes; it holds the oldest unacknowledged events
    in strictly increasing order, no more than the limit, each as it was
    queued, and it leaves a later event out only when the page is full. *)
Theorem report_page_oldest_first after limit d :
  db_ok d → ∃ events,
    decode_events (select_events after limit d) = Ok events ∧
    (length events ≤ limit)%nat ∧
    StronglySorted Z.lt (event_id <$> events) ∧
    (∀ e, e ∈ events → after < event_id e ∧
       ∃ row, db_events d !! event_id e = Some row ∧ ev_json row = event_to_string e) ∧
    (∀ id row, db_events d !! id = Some row → after < id →
       id ∈ event_id <$> events ∨
       (length events = limit ∧ ∀ e, e ∈ events → event_id e < id)).
Proof.
  intros Hok. destruct (select_events_spec after limit d) as (rest & Hperm & Hsort & Hlen & Hfull).
  set (page := select_events after limit d) in *.
  assert (∀ row, row ∈ page ++ rest → after < row.1 ∧ db_events d !! row.1 = Some row.2)
    as Hrows.
  { intros [id ev] Hin. rewrite Hperm in Hin. apply elem_of_map_to_list in Hin.
    by apply map_lookup_filter_Some in Hin as [??]. }
  destruct (decode_events_ok d page Hok) as (events & Hdec & Hall).
  { intros row Hin. apply Hrows, elem_of_app. by left. }
  assert (event_id <$> events = page.*1) as Hids.
  { clear -Hall. induction Hall as [|??? ? [??]]; simpl; by f_equal. }
  assert (length events = length page) as Hl by (symmetry; by eapply Forall2_length).
  assert (StronglySorted Z.lt (page ++ rest).*1) as Hss.
  { apply event_le_sorted_ids; [done|]. rewrite Hperm. apply NoDup_fst_map_to_list. }
  rewrite fmap_app in Hss.
  exists events. split_and!; [done|lia| | |].
  - rewrite Hids. by apply StronglySorted_app_1_l in Hss.
  - intros e He. apply list_elem_of_lookup in He as [i He].
    destruct (Forall2_lookup_r _ _ _ _ _ Hall He) as (row & Hi & Hid & Hjson).
    assert (row ∈ page ++ rest) as Hin%Hrows.
    { apply elem_of_app. left. by eapply list_elem_of_lookup_2. }
    rewrite Hid. destruct Hin. eauto.
  - intros id row Hrow Hid. rewrite Hids.
    assert ((id, row) ∈ page ++ rest) as Hin.
    { rewrite Hperm. by apply elem_of_map_to_list, map_lookup_filter_Some. }
    apply elem_of_app in Hin as [Hin|Hin].
    + left. by apply (list_elem_of_fmap_2 fst) in Hin.
    + right. split.
      * destruct (decide (length page < limit)%nat) as [Hlt|]; [|lia].
        rewrite (Hfull Hlt) in Hin. by apply not_elem_of_nil in Hin.
      * intros e He. apply (list_elem_of_fmap_2 event_id) in He. rewrite Hids in He.
        apply (list_elem_of_fmap_2 fst) in Hin.
        by eapply StronglySorted_app_1_elem_of in Hss.
Qed.

(** An acknowledgement is accepted exactly when it names this Nest's report
    instance and an identifier between the acknowledged and the next one; then
    exactly the events up to it are deleted and it becomes the acknowledged
    one.  Anything else changes nothing and answers false. *)
Theorem acknowledge_report_exact instance through env w :
  (∀ n, in_fault (env n) = false) →
  let '(r, w', _) := run env 0 (acknowledge_report instance through) w in
  let before := db_report (w_db w) in
  let valid := uuid_valid instance = true ∧ 0 ≤ through ∧ rs_instance_id before = instance ∧
               rs_acknowledged_through before ≤ through < rs_next_event_id before in
  (valid ∧ r = Ok true ∧ rs_acknowledged_through (db_report (w_db w')) = through ∧
   rs_next_event_id (db_report (w_db w')) = rs_next_event_id before ∧
   (∀ id, db_events (w_db w') !! id =
      if decide (through < id) then db_events (w_db w) !! id else None) ∧
   db_transfers (w_db w') = db_transfers (w_db w) ∧ w_coord w' = w_coord w)
  ∨ (¬ valid ∧ r = Ok false ∧ w' = w).
Proof.
  intros Hnf. unfold acknowledge_report.
  destruct (_ || _) eqn:Hc1; [right|bool_prop].
  { simpl. split_and!; [|done..]. intros (Hu & Hpos & _). rewrite Hu in Hc1. simpl in Hc1.
    bool_prop. lia. }
  rewrite run_try_bind, run_select, Hnf.
  destruct (_ || _) eqn:Hc2; [right|bool_prop].
  { simpl. split_and!; [|done..]. intros (_ & _ & Hi & ?). rewrite bool_decide_true in Hc2 by done.
    simpl in Hc2. apply orb_true_iff in Hc2 as [?|?]; bool_prop; lia. }
  rewrite run_try_bind, run_stmt, Hnf. simpl. left.
  rewrite bool_decide_true by done. rewrite (proj2 (Z.leb_le _ _)) by lia. simpl.
  split_and!; try done. intros id. rewrite map_lookup_filter.
  destruct (db_events (w_db w) !! id) as [ev|]; simpl; case_decide; try done.
  - by rewrite option_guard_True.
  - by rewrite option_guard_False.
Qed.
(** C4. Whatever a desired policy says and wherever a statement fails: the
    stored generation never goes back, a stored generation never changes its
    content, and a policy that is applied is valid, is in force in memory and
    in the table, and when it forbids multicast leaves no batch gathering and
    a running sender told to stop. *)
Theorem apply_desired_policy_fences env w value :
  let '(r, w', _) := run env 0 (apply_desired_policy (Some value)) w in
  let row := db_policy (w_db w) in
  let row' := db_policy (w_db w') in
  prow_generation row ≤ prow_generation row' ∧
  (prow_generation row' = prow_generation row → prow_sha256 row ≠ "" →
     prow_sha256 row' = prow_sha256 row) ∧
  (r = Ok tt → ∃ p, policy_from_value value = Some p ∧ policy_ok p ∧
     (pol_generation p < prow_generation row ∧ w' = w ∨
      prow_generation row' = pol_generation p ∧ prow_sha256 row' = policy_sha256 p ∧
      prow_lane_authorized row' = true ∧ co_policy (w_coord w') = Some p ∧
      co_lane_authorized (w_coord w') = true ∧
      (pol_mode p = HttpOnly → ∀ b, co_batch (w_coord w') = Some b →
         bat_phase b ≠ Gathering ∧ bat_transfer_id b ∈ w_cancelled w'))).
Proof.
  unfold apply_desired_policy.
  destruct (policy_from_value value) as [p|] eqn:Hv; [|done].
  destruct (policy_validate p) as [[]|] eqn:Hp; [|done].
  rewrite run_try_bind, run_select. destruct (in_fault (env 0%nat)); [done|].
  cbn [w_db prow_generation prow_sha256].
  destruct (_ <? _) eqn:Hlt; bool_prop.
  { simpl. split_and!; [lia|done|]. intros _. exists p. auto. }
  destruct (_ && _) eqn:Hsame; [done|]. bool_prop.
  assert (pol_generation p = prow_generation (db_policy (w_db w)) →
          prow_sha256 (db_policy (w_db w)) ≠ "" →
          policy_sha256 p = prow_sha256 (db_policy (w_db w))) as Hsha.
  { intros Hg Hne. rewrite Hg, Z.eqb_refl in Hsame. simpl in Hsame.
    apply andb_false_iff in Hsame as [Hs|Hs]; bool_prop; [|done].
    destruct (prow_sha256 _); [done|]. by simpl in Hs. }
  rewrite run_try_bind, run_stmt. destruct (in_fault _); [done|].
  rewrite run_bind. cbn [section atomic run]. simpl.
  set (w1 := set_coord _ _). destruct (_ || _) eqn:Hcancel.
  - match goal with |- context [cancel_with ?o] =>
      pose proof (cancel_with_run o env 3 w1) as Hrun;
      destruct (run env 3 (cancel_with o) w1) as [[r w'] n'] end.
    destruct Hrun as (Hrow & Hpol & Hlane & Hbatch). rewrite Hrow, Hpol, Hlane. simpl.
    split_and!; [done|done|]. intros _. exists p. split_and!; [done|done|right].
    split_and!; try done. intros _ b Hb. by destruct (Hbatch b Hb) as (_ & ? & ?).
  - apply orb_false_iff in Hcancel as [Hmode _]. simpl.
    split_and!; [done|done|]. intros _. exists p. split_and!; [done|done|right].
    split_and!; try done. intros Hm. by rewrite Hm in Hmode.
Qed.

(** [validate] accepts exactly the policies in the documented ranges: two
    to thirty receivers, a join window of at most fifteen seconds, at most
    1 Gbit/s and 120 seconds, an even port from 9000, two consecutive
    organization-local group addresses. *)
Theorem policy_validate_exact p :
  policy_validate p = Ok tt ↔
  pol_schema p = POLICY_SCHEMA ∧ 0 ≤ pol_generation p ∧ 0 < pol_qualification_revision p ∧
  pol_report_schema p = REPORT_SCHEMA ∧
  1 ≤ pol_maximum_events_per_page p ≤ 64 ∧
  2 ≤ pol_minimum_receivers p ≤ 30 ∧ 1 ≤ pol_join_window_seconds p ≤ 15 ∧
  1000000 ≤ pol_max_bitrate_bps p ≤ 1000000000 ∧
  15 ≤ pol_absolute_timeout_seconds p ≤ 120 ∧
  9000 ≤ pol_port_base p ≤ 9998 ∧ pol_port_base p mod 2 = 0 ∧
  organization_local_multicast (pol_rendezvous_address p) = true ∧
  organization_local_multicast (pol_data_address p) = true ∧
  pol_data_address p = pol_rendezvous_address p + 1 ∧
  pol_rendezvous_address p < u32_max.
Proof.
  unfold policy_validate, checked_succ_u32. split.
  - intros Hv. destruct (_ || _) eqn:Hc in Hv; [done|].
    repeat match type of Hc with (_ || _) = false => apply orb_false_iff in Hc as [Hc ?] end.
    unfold in_range in *. bool_prop. case_match; simplify_eq. bool_prop.
    split_and!; auto; lia.
  - intros H. destruct_and! H. destruct (_ || _) eqn:Hc; [exfalso|done].
    repeat match type of Hc with (_ || _) = true => apply orb_true_iff in Hc as [Hc|Hc] end;
      bool_prop; try (apply not_true_iff_false in Hc; rewrite in_range_true in Hc);
      try congruence; try lia.
    apply Hc. rewrite (proj2 (Z.ltb_lt _ _)) by done. congruence.
Qed.
End Lemmas.

(** ** A concrete instance

    The theorems quantify over the code outside the repository.  Here it is
    instantiated: events are written in binary with stdpp's [encode], hashes and
    versions are kept simple. *)
Module Demo.

Definition tuple (e : WorkstationMulticastTransferEvent) :=
  (event_id e, event_component_sha256 e, event_registered_session_count e,
   event_multicast_verified_receipt_count e, event_missing_receipt_count e,
   event_fallback_counts e, event_payload_bytes e,
   event_estimated_unicast_bytes_avoided e, event_duration_milliseconds e).

Definition untuple (t : Z * string * Z * Z * Z * gmap string Z * Z * Z * Z) :=
  let '(a, b, c, d, e, f, g, h, i) := t in
  {| event_id := a; event_component_sha256 := b; event_registered_session_count := c;
     event_multicast_verified_receipt_count := d; event_missing_receipt_count := e;
     event_fallback_counts := f; event_payload_bytes := g;
     event_estimated_unicast_bytes_avoided := h; event_duration_milliseconds := i |}.

#[local] Instance external : External := {|
  sha256_hex s := s;
  decode_join _ := None;
  decode_result _ := None;
  json_value := WorkstationMulticastPolicy;
  policy_from_value v := Some v;
  policy_from_str _ := None;
  policy_to_string p := pol_schema p;
  event_to_string e := String "e"%char (bits (encode (tuple e)));
  event_from_str s := match s with
                      | String _ s => untuple <$> decode (from_bits s)
                      | EmptyString => None
                      end;
  descriptor_squashfs _ := None;
  version := unit;
  version_parse _ := Some tt;
  version_ltb _ _ := false;
  rfc3339_millis _ := Some 0;
  uuid_valid s := bool_decide (s = "instance");
|}.

#[local] Instance laws : ExternalLaws.
Proof.
  split.
  - intros e. simpl. rewrite from_bits_bits, decode_encode. by destruct e.
  - intros e. unfold len. simpl. lia.
  - intros id. simpl. intros H. by bool_prop; subst.
Qed.

Definition policy : WorkstationMulticastPolicy := {|
  pol_schema := POLICY_SCHEMA; pol_generation := 4; pol_mode := Automatic;
  pol_multicast_domain_id := "domain"; pol_qualification_revision := 1;
  pol_rendezvous_address := 4022337537; pol_data_address := 4022337538;
  pol_port_base := 9000; pol_minimum_receivers := 2; pol_join_window_seconds := 10;
  pol_max_bitrate_bps := 100000000; pol_absolute_timeout_seconds := 60;
  pol_report_schema := REPORT_SCHEMA; pol_maximum_events_per_page := 16 |}.

Definition row (finalized : option string) : TransferRow := {|
  tr_bundle_sha256 := "b"; tr_component_sha256 := "c"; tr_size_bytes := 1000;
  tr_interface_fingerprint := "f"; tr_policy_generation := 4; tr_state := "completed";
  tr_registered_sessions := 3; tr_sender_outcome := "completed";
  tr_started_at := Some "a"; tr_sender_finished_at := Some "b";
  tr_receipt_deadline := Some 30; tr_finalized_at := finalized; tr_updated_at := "b" |}.

Definition receipt (m f : string) : RegistrationRow := {|
  reg_transfer_id := "open"; reg_multicast_outcome := Some m;
  reg_fallback_outcome := Some f; reg_receipt_recorded_at := Some "b" |}.

Definition db : Db := {|
  db_policy := {| prow_generation := 4; prow_sha256 := "h"; prow_json := None;
                  prow_lane_authorized := true; prow_updated_at := "" |};
  db_transfers := <["open" := row None]> {[ "closed" := row (Some "b") ]};
  db_registrations := <["s1" := receipt "verified" "not_needed"]>
                        {[ "s2" := receipt "join_timeout" "http_verified" ]};
  db_report := {| rs_instance_id := "instance"; rs_next_event_id := 1;
                  rs_acknowledged_through := 0; rs_events_omitted := 0;
                  rs_late_receipts := 0; rs_updated_at := "" |};
  db_events := ∅; db_sessions := ∅; db_bundles := ∅ |}.

Definition world : World := {|
  w_coord := {| co_policy := Some policy; co_policy_hash := "h"; co_lane_authorized := true;
                co_batch := None; co_cooldown_until := None |};
  w_shutting_down := false; w_cancelled := ∅; w_db := db |}.

Definition config : Config :=
  {| cfg_multicast_emergency_disabled := false; cfg_boot_assets_dir := "/assets" |}.

Definition input : Input := {|
  in_fault := false; in_instant := 0; in_secs := 0; in_text := "t"; in_text2 := "t";
  in_uuid := "u"; in_timer := true; in_url := None; in_interfaces := None;
  in_wireless := λ _, false; in_plan := None; in_binary := None;
  in_artifact := (None, None, None); in_spawned := false; in_child := ChildRunning;
  in_expired := λ _, false |}.

Lemma db_ok_db : db_ok db.
Proof.
  split; simpl; try (unfold i64_max, MAX_LATE_RECEIPTS; lia); try done.
  - intros id t. rewrite lookup_insert_Some, lookup_singleton_Some.
    intros [[_ <-]|[_ [_ <-]]]; unfold row_ok, i64_max; simpl; lia.
  - intros id t. rewrite lookup_insert_Some, lookup_singleton_Some.
    intros [[<- <-]|[_ [<- <-]]]; by vm_compute.
  - intros sid r. rewrite lookup_insert_Some, lookup_singleton_Some.
    intros [[_ <-]|[_ [_ <-]]]; [by right; left|right; right]. eexists. by eauto.
  - intros sid r. rewrite lookup_insert_Some, lookup_singleton_Some.
    intros [[_ <-]|[_ [_ <-]]]; by eexists.
Qed.

Lemma inv_world : inv world.
Proof.
  split; [apply db_ok_db|]. split; simpl; [|done]. by intros p [= <-].
Qed.

(** The start of a report request on the concrete world. *)
Lemma steps keep : rtc (pstep (entry config keep)) ([], world) ([ignore (report_page config)], world).
Proof. apply rtc_once, (pstep_arrive _ [] world). constructor. Qed.

Lemma multicast_interleavings_safe_witness : inv world ∧ evolves false world world.
Proof.
  exact (multicast_interleavings_safe config false _ _ _ (steps false) inv_world).
Defined.

Lemma finalization_is_permanent_witness :
  ∃ t', db_transfers (w_db world) !! "closed" = Some t' ∧ row_kept (row (Some "b")) t'.
Proof.
  apply (finalization_is_permanent config world [ignore (report_page config)]);
    [apply steps|apply inv_world|by vm_compute|by eexists].
Defined.

Lemma finalize_exactly_once_witness :
  ∃ d', finalize_tx "open" "n" "n" db = Some d' ∧ finalize_tx "open" "m" "m" d' = Some d'.
Proof.
  destruct (finalize_exactly_once "open" "n" "n" db (row None))
    as (d' & e & Hf & _ & _ & _ & _ & _ & Hagain);
    [apply db_ok_db|by vm_compute|done|done|].
  exists d'. split; [exact Hf|apply Hagain].
Defined.

Lemma event_receipts_add_up_witness :
  ∃ e, build_event (row None) (receipts_of "open" db) 1 = Some e ∧
    event_multicast_verified_receipt_count e = 1 ∧
    map_sum Datatypes.id (event_fallback_counts e) = 1 ∧ event_missing_receipt_count e = 1 ∧
    event_registered_session_count e = 3.
Proof.
  eexists. split; [vm_compute; reflexivity|].
  match goal with |- event_multicast_verified_receipt_count ?e = _ ∧ _ =>
    destruct (event_receipts_add_up "open" db (row None) 1 e) as [Hreg _];
      [apply db_ok_db|by vm_compute|done|by vm_compute|] end.
  split_and!; [by vm_compute..|exact Hreg].
Defined.

(** A workstation registers; another does, and the sender is started; the offer is returned. *)
Definition net : NetworkSelection :=
  {| net_source_matches_public_base := true; net_interface_name := "eth0";
     net_interface_fingerprint := "f"; net_network_plan_fingerprint := "p" |}.
Definition session : EligibleSession :=
  {| es_session_id := "s3"; es_bundle_sha256 := "b"; es_component_sha256 := "c";
     es_size_bytes := 1000; es_root_path := "/assets/netboot/b" |}.
Definition with_session : World := set_db (set_sessions {[ "s3" := {|
  bs_join_token_sha256 := None; bs_bundle_sha256 := "b"; bs_expires_at := 100; bs_cleanup_after := 200;
  bs_multicast_finalized_at := None |} ]} db) world.
Definition own_joined : option Joined * World := join_section policy net session 0 "u" with_session.
Definition own : Joined := default {| jn_transfer_id := ""; jn_offer := new_offer policy session; jn_created := false; jn_deadline := 0 |} own_joined.1.
Definition persisted : World :=
  default own_joined.2 (d ← persist_registration own policy net session "t" (w_db own_joined.2); Some (set_db d own_joined.2)).
Definition sender_started : World :=
  set_coord (set_batch (with_phase SenderStarting <$> co_batch (w_coord persisted)) (w_coord persisted)) persisted.

Lemma inv_with_session : inv with_session.
Proof. destruct inv_world as [[] ?]. split; [|done]. by split. Qed.
Lemma inv_joined : inv own_joined.2.
Proof.
  destruct (join_section_step policy net session 0 "u" with_session) as [(Ed & _ & _ & ?) _]; [done|apply inv_with_session|].
  split; [unfold own_joined; rewrite Ed; apply inv_with_session|done].
Qed.
Lemma inv_started : inv sender_started ∧ evolves true persisted sender_started.
Proof.
  split; [|by split; [reflexivity|..]]. split.
  - change (db_ok (w_db persisted)). unfold persisted.
    destruct (persist_registration own policy net session "t" (w_db own_joined.2)) as [d|] eqn:E; cbn [mbind option_bind default].
    + eapply (persist_registration_ok true) in E as [? _]; [done|apply inv_joined].
    + apply inv_joined.
  - split; [by intros p [= <-]|]. intros b [= <-].
    destruct inv_joined as [_ [_ Hb]]. specialize (Hb _ eq_refl). by destruct Hb.
Qed.

Lemma offer_returned : ∃ seen,
  returns inv (evolves true) (join_cohort 5 policy net session) with_session seen (Ok (Some (new_offer policy session))) sender_started
  ∧ seen !! 1%nat = Some own_joined.2.
Proof.
  eexists. split.
  - eapply (returns_step _ _ _ _ _ input with_session with_session); [apply inv_with_session|reflexivity|].
    eapply (returns_step _ _ _ _ _ input _ with_session); [apply inv_with_session|reflexivity|].
    eapply (returns_step _ _ _ _ _ input _ own_joined.2); [apply inv_joined|reflexivity|].
    apply returns_spawn.
    eapply (returns_step _ _ _ _ _ input _ sender_started); [apply inv_started|apply inv_started|].
    apply returns_ret.
  - reflexivity.
Qed.

Lemma join_cohort_offers_are_sound_witness : ∃ own b,
  co_batch (w_coord own_joined.2) = Some own ∧ co_batch (w_coord sender_started) = Some b ∧
  bat_transfer_id b = bat_transfer_id own ∧ bat_phase b ≠ Gathering.
Proof.
  destruct offer_returned as (seen & H & Hs).
  destruct (join_cohort_offers_are_sound true 5 policy net session with_session seen _ sender_started inv_with_session eq_refl H)
    as (_ & _ & _ & registered & own' & b & E & Hown & _ & _ & Hb & Hid & Hph).
  rewrite Hs in E. injection E as <-. exists own', b. split; [exact Hown|]. split; [exact Hb|]. split; [exact Hid|exact Hph].
Defined.

Lemma report_page_oldest_first_witness :
  ∃ events, decode_events (select_events 0 16 db) = Ok events ∧ (length events ≤ 16)%nat.
Proof.
  destruct (report_page_oldest_first 0 16 db db_ok_db) as (events & Hd & Hl & _).
  exists events. split; [exact Hd|exact Hl].
Defined.

Lemma acknowledge_report_exact_witness :
  (run (λ _, input) 0 (acknowledge_report "instance" 0) world).1.1 = Ok true.
Proof.
  pose proof (acknowledge_report_exact "instance" 0 (λ _, input) world (λ _, eq_refl)) as H.
  revert H. destruct (run _ _ _ _) as [[r w'] n]. simpl.
  intros [(_ & Hr & _)|[Hv _]]; [exact Hr|]. exfalso. apply Hv. by vm_compute.
Defined.

(** The next generation, which forbids multicast. *)
Definition http_only : WorkstationMulticastPolicy := {|
  pol_schema := POLICY_SCHEMA; pol_generation := 5; pol_mode := HttpOnly;
  pol_multicast_domain_id := "domain"; pol_qualification_revision := 1;
  pol_rendezvous_address := 4022337537; pol_data_address := 4022337538;
  pol_port_base := 9000; pol_minimum_receivers := 2; pol_join_window_seconds := 10;
  pol_max_bitrate_bps := 100000000; pol_absolute_timeout_seconds := 60;
  pol_report_schema := REPORT_SCHEMA; pol_maximum_events_per_page := 16 |}.

Lemma apply_desired_policy_fences_witness :
  let w' := (run (λ _, input) 0 (apply_desired_policy (Some http_only)) world).1.2 in
  prow_generation (db_policy (w_db w')) = 5 ∧ co_policy (w_coord w') = Some http_only.
Proof.
  pose proof (apply_desired_policy_fences (λ _, input) world http_only) as H.
  assert ((run (λ _, input) 0 (apply_desired_policy (Some http_only)) world).1.1 = Ok tt)
    as Hok by (vm_compute; reflexivity).
  revert H Hok. destruct (run _ _ _ _) as [[r w'] n]. simpl. intros (_ & _ & Happ) Hok.
  destruct (Happ Hok) as (p & [= <-] & _ & [[Hlt _]|(Hgen & _ & _ & Hpol & _)]).
  - exfalso. vm_compute in Hlt. discriminate Hlt.
  - split; [exact Hgen|exact Hpol].
Defined.
End Demo.
