(* ===== verification/DbTextProofs.v ===== *)
(** * Text and path validation: theorems

    What the validators and normalizers of [DbText] guarantee to the tables:
    normal forms that are stable under another normalization, bounds, and paths
    that cannot leave their root. *)

From stdpp Require Import base gmap list strings.
From Stdlib Require Import Ascii ZArith Lia.
From S2P Require Import Prelude RustStr DbText.

#[local] Open Scope Z_scope.
#[local] Open Scope nest_scope.

(** ** ASCII texts *)

(** A graphic ASCII byte: neither white space nor part of a longer character. *)
Definition graphic (a : ascii) : bool := in_range 33 126 (byte a).

(** Turn a goal or hypothesis about boolean tests on bytes into arithmetic. *)
Ltac byte_prop :=
  unfold is_alnum, is_hexdigit, is_lower_hex, ws1, ws2, ws3, is_digit, is_lower, is_upper,
    graphic, in_range in *;
  rewrite <- ?not_true_iff_false in *;
  repeat rewrite ?orb_true_iff, ?andb_true_iff, ?negb_true_iff, ?Z.eqb_eq, ?Z.leb_le in *.
Ltac byte_lia := byte_prop; lia.

Lemma trim_start_graphic a l : graphic a = true → trim_start_bytes (a :: l) = a :: l.
Proof.
  intros H. simpl. assert (ws1 a = false) as -> by byte_lia.
  destruct l as [|b l]; [done|]. assert (ws2 a b = false) as -> by byte_lia.
  destruct l as [|c l]; [done|]. by assert (ws3 a b c = false) as -> by byte_lia.
Qed.

Lemma trim_end_graphic a l : graphic a = true → trim_end_bytes_rev (a :: l) = a :: l.
Proof.
  intros H. simpl. assert (ws1 a = false) as -> by byte_lia.
  destruct l as [|b l]; [done|]. assert (ws2 b a = false) as -> by byte_lia.
  destruct l as [|c l]; [done|]. by assert (ws3 c b a = false) as -> by byte_lia.
Qed.

(** Trimming does nothing to a text whose first and last bytes are graphic. *)
Lemma trim_graphic s : all_bytes graphic s = true → trim s = s.
Proof.
  unfold all_bytes. rewrite forallb_forall. intros Hall.
  assert (trim_start s = s) as Hs.
  { unfold trim_start. destruct (bytes s) as [|a l] eqn:E.
    - by rewrite <- (of_bytes_bytes s), E.
    - rewrite trim_start_graphic by (apply Hall; by left). by rewrite <- E, of_bytes_bytes. }
  unfold trim. rewrite Hs. unfold trim_end.
  destruct (rev (bytes s)) as [|a l] eqn:E.
  - apply (f_equal (@rev _)) in E. rewrite rev_involutive in E.
    by rewrite <- (of_bytes_bytes s), E.
  - rewrite trim_end_graphic.
    + by rewrite <- E, rev_involutive, of_bytes_bytes.
    + apply Hall. apply in_rev. rewrite E. by left.
Qed.

Lemma all_bytes_impl p q s :
  (∀ a, p a = true → q a = true) → all_bytes p s = true → all_bytes q s = true.
Proof. unfold all_bytes. rewrite !forallb_forall. auto. Qed.

(** The bytes of a set text are graphic when the set's are. *)
Lemma byte_in_true set a : byte_in set a = true → In a (bytes set).
Proof.
  unfold byte_in. rewrite existsb_exists. intros (b & Hin & Hab).
  apply Ascii.eqb_eq in Hab. by subst.
Qed.

Lemma alnum_graphic a : is_alnum a = true → graphic a = true.
Proof.
  intros H. byte_lia.
Qed.

Lemma byte_in_graphic set a :
  forallb graphic (bytes set) = true → byte_in set a = true → graphic a = true.
Proof. rewrite forallb_forall. intros Hall Hin%byte_in_true. auto. Qed.

Lemma lower_is_alnum a : is_lower a = true → is_alnum a = true.
Proof. unfold is_alnum. intros ->. by rewrite orb_true_r. Qed.
Lemma digit_is_alnum a : is_digit a = true → is_alnum a = true.
Proof. unfold is_alnum. by intros ->. Qed.
Lemma hexdigit_is_alnum a : is_hexdigit a = true → is_alnum a = true.
Proof.
  intros H. byte_lia.
Qed.

Create HintDb text.
#[export] Hint Resolve alnum_graphic lower_is_alnum digit_is_alnum hexdigit_is_alnum : text.

(** ** Lower case *)

Lemma byte_char_of z : 0 ≤ z < 256 → byte (char_of z) = z.
Proof. intros H. unfold byte, char_of. rewrite N_ascii_embedding; lia. Qed.

Lemma to_lower_not_upper a : is_upper (to_lower a) = false.
Proof.
  unfold to_lower. destruct (is_upper a) eqn:E; [|done].
  unfold is_upper in *. apply in_range_true in E. apply not_true_iff_false.
  rewrite in_range_true, byte_char_of by lia. lia.
Qed.

Lemma to_lower_id a : is_upper a = false → to_lower a = a.
Proof. unfold to_lower. by intros ->. Qed.

Lemma to_ascii_lowercase_id s :
  all_bytes (λ a, negb (is_upper a)) s = true → to_ascii_lowercase s = s.
Proof.
  unfold all_bytes, to_ascii_lowercase. rewrite forallb_forall. intros Hall.
  rewrite <- (of_bytes_bytes s) at 2. f_equal. apply list_eq_Forall2.
  apply Forall2_fmap_l, Forall_Forall2_diag, Forall_forall. intros a Ha.
  apply to_lower_id. apply negb_true_iff, Hall. by apply list_elem_of_In.
Qed.

Lemma to_ascii_lowercase_no_upper s :
  all_bytes (λ a, negb (is_upper a)) (to_ascii_lowercase s) = true.
Proof.
  unfold all_bytes, to_ascii_lowercase. rewrite bytes_of_bytes, forallb_forall.
  intros a Ha. apply list_elem_of_In in Ha.
  apply list_elem_of_fmap in Ha as (b & -> & _). by rewrite to_lower_not_upper.
Qed.

Lemma len_to_ascii_lowercase s : len (to_ascii_lowercase s) = len s.
Proof. rewrite !len_bytes. unfold to_ascii_lowercase. by rewrite bytes_of_bytes, length_fmap. Qed.

Lemma hexdigit_to_lower a : is_hexdigit a = true → is_lower_hex (to_lower a) = true.
Proof.
  unfold to_lower, is_hexdigit, is_lower_hex, is_upper. intros H.
  destruct (in_range 65 90 (byte a)) eqn:E.
  - apply in_range_true in E. rewrite !orb_true_iff, !in_range_true in H.
    unfold is_digit in *. rewrite in_range_true in H.
    apply orb_true_iff. right. apply in_range_true. rewrite byte_char_of by lia. lia.
  - rewrite !orb_true_iff in H. destruct H as [[?|?]|H]; [apply orb_true_iff; auto..|].
    apply in_range_true in H. apply not_true_iff_false in E. rewrite in_range_true in E. lia.
Qed.

Lemma lower_hex_not_upper a : is_lower_hex a = true → is_upper a = false ∧ is_hexdigit a = true.
Proof.
  unfold is_lower_hex, is_hexdigit, is_upper, is_digit. intros H.
  rewrite orb_true_iff, !in_range_true in H. split.
  - apply not_true_iff_false. rewrite in_range_true. lia.
  - rewrite !orb_true_iff, !in_range_true. lia.
Qed.

Lemma is_empty_false s : s ≠ "" → is_empty s = false.
Proof. intros. unfold is_empty. by rewrite bool_decide_eq_false. Qed.
Lemma is_empty_true s : is_empty s = true ↔ s = "".
Proof. unfold is_empty. apply bool_decide_eq_true. Qed.

(** ** Normalizers *)

(** A text over a graphic alphabet is its own trimmed form. *)
Lemma normalized_text (p : ascii → bool) s :
  (∀ a, p a = true → graphic a = true) → all_bytes p s = true → trim s = s.
Proof. intros Hp Hs. apply trim_graphic. by eapply all_bytes_impl. Qed.

Lemma safe_id_graphic set a :
  forallb graphic (bytes set) = true → is_alnum a || byte_in set a = true → graphic a = true.
Proof.
  intros Hset. rewrite orb_true_iff. intros [?|?]; eauto using byte_in_graphic with text.
Qed.

Lemma normalize_managed_id_ok value field t :
  normalize_managed_id value field = Ok t →
  0 < len t ≤ 128 ∧ all_bytes (λ a, is_alnum a || byte_in "-_." a) t = true ∧
  normalize_managed_id t field = Ok t.
Proof.
  unfold normalize_managed_id. intros H. destruct (is_empty (trim value)) eqn:Hne; [done|].
  destruct (_ || _) eqn:Hc; [done|]. injection H as <-. bool_prop.
  assert (trim (trim value) = trim value) as Htrim.
  { eapply normalized_text; [|done]. intros a. by apply safe_id_graphic. }
  rewrite Htrim, Hne. split; [|split; [done|]].
  - destruct (trim value); [done|]. unfold len in *. simpl in *. lia.
  - rewrite (proj2 (Z.ltb_ge _ _)) by lia.
    match goal with E : all_bytes _ _ = true |- _ => by rewrite E end.
Qed.

Lemma normalize_sha256_ok value field allow_empty t :
  normalize_sha256 value field allow_empty = Ok t →
  (t = "" ∧ allow_empty = true ∨ len t = 64 ∧ all_bytes is_lower_hex t = true) ∧
  normalize_sha256 t field allow_empty = Ok t.
Proof.
  unfold normalize_sha256. intros H. destruct (_ && _) eqn:He.
  { simplify_eq. bool_prop. subst. split; [by left|done]. }
  destruct (_ || _) eqn:Hc; [done|]. injection H as <-. bool_prop.
  set (t := to_ascii_lowercase (trim value)).
  assert (all_bytes is_lower_hex t = true) as Hhex.
  { unfold t, to_ascii_lowercase, all_bytes in *. rewrite bytes_of_bytes, !forallb_forall in *.
    intros a Ha%list_elem_of_In. apply list_elem_of_fmap in Ha as (b & -> & Hb).
    apply hexdigit_to_lower. rewrite list_elem_of_In in Hb. auto. }
  assert (len t = 64) as Hlen by (unfold t; by rewrite len_to_ascii_lowercase).
  split; [by right|]. rewrite (normalized_text is_lower_hex t); [|intros a Ha; byte_lia|done].
  assert (is_empty t = false) as -> by (apply is_empty_false; by intros ->).
  rewrite andb_false_r, Hlen. simpl.
  assert (all_bytes is_hexdigit t = true) as ->.
  { eapply all_bytes_impl; [|done]. by intros a [_ ?]%lower_hex_not_upper. }
  f_equal. apply to_ascii_lowercase_id. eapply all_bytes_impl; [|done].
  intros a [-> _]%lower_hex_not_upper. done.
Qed.

Lemma normalize_build_system_ok value t :
  normalize_build_system value = Ok t →
  0 < len t ≤ 64 ∧ all_bytes (λ a, is_alnum a || byte_in "-_" a) t = true ∧
  normalize_build_system t = Ok t.
Proof.
  unfold normalize_build_system. intros H. destruct (_ || _) eqn:Hc in H; [done|].
  injection H as <-. assert (trim (trim value) = trim value) as Htrim.
  { bool_prop. eapply normalized_text; [|done]. intros a. by apply safe_id_graphic. }
  rewrite Htrim, Hc. bool_prop. split_and!; try done.
  destruct (trim value); [done|]. unfold len in *. simpl in *. lia.
Qed.

Lemma normalize_build_target_ok value dflt t :
  normalize_build_target value dflt = Ok t →
  0 < len t ≤ 64 ∧ ∀ dflt', normalize_build_target (Some t) dflt' = Ok t.
Proof.
  unfold normalize_build_target. intros H. destruct (_ || _) eqn:Hc in H; [done|].
  injection H as <-. set (t := to_ascii_lowercase _) in *. split.
  - bool_prop. split; [|lia]. destruct t; [done|]. unfold len in *. simpl in *. lia.
  - intros dflt'. change (default dflt' (Some t)) with t.
    assert (to_ascii_lowercase (trim t) = t) as Heq.
    { assert (trim t = t) as ->.
      { bool_prop. eapply normalized_text; [|done]. intros a Ha. apply (safe_id_graphic "-_."); [done|].
        apply orb_true_iff in Ha as [Ha|Ha]; [|apply orb_true_iff; by right].
        apply orb_true_iff. left. apply orb_true_iff in Ha as [?|?]; auto with text. }
      apply to_ascii_lowercase_id, to_ascii_lowercase_no_upper. }
    by rewrite Heq, Hc.
Qed.

(** Every identifier the tables store is in normal form: what a normalizer
    of [src/db.rs] returns is within its bound and alphabet, and normalizing
    it again gives it back unchanged. *)
Theorem normalizers_reach_a_fixpoint value field dflt allow_empty t :
  (normalize_managed_id value field = Ok t →
     0 < len t ≤ 128 ∧ all_bytes (λ a, is_alnum a || byte_in "-_." a) t = true ∧
     normalize_managed_id t field = Ok t) ∧
  (normalize_sha256 value field allow_empty = Ok t →
     (t = "" ∧ allow_empty = true ∨ len t = 64 ∧ all_bytes is_lower_hex t = true) ∧
     normalize_sha256 t field allow_empty = Ok t) ∧
  (normalize_build_system value = Ok t →
     0 < len t ≤ 64 ∧ normalize_build_system t = Ok t) ∧
  (normalize_build_target (Some value) dflt = Ok t →
     0 < len t ≤ 64 ∧ normalize_build_target (Some t) dflt = Ok t) ∧
  (normalize_artifact_type value field = Ok t → normalize_artifact_type t field = Ok t).
Proof.
  split_and!.
  - apply normalize_managed_id_ok.
  - apply normalize_sha256_ok.
  - intros (? & _ & ?)%normalize_build_system_ok. done.
  - intros [? Ht]%normalize_build_target_ok. auto.
  - unfold normalize_artifact_type. case_bool_decide as Hin; [|done]. intros [= <-].
    set (t := to_ascii_lowercase _) in *. assert (to_ascii_lowercase (trim t) = t) as ->.
    { clearbody t. set_unfold in Hin. by destruct_or! Hin; subst. }
    by rewrite bool_decide_true.
Qed.

Lemma normalizers_reach_a_fixpoint_witness :
  normalize_managed_id "job-1" "id" = Ok "job-1".
Proof.
  pose proof (normalizers_reach_a_fixpoint " job-1 " "id" "" false "job-1") as [H _].
  destruct H as (_ & _ & H); [by vm_compute|exact H].
Defined.

(** ** Progress stages *)

Definition us : ascii := "_"%char.
Definition stage_char (a : ascii) : bool := is_lower a || is_digit a || Ascii.eqb a us.

(** No two separators in a row. *)
Fixpoint no_double (l : list ascii) : Prop :=
  match l with
  | a :: ((b :: _) as l') => ¬ (a = us ∧ b = us) ∧ no_double l'
  | _ => True
  end.

(** The normal form, on the reversed bytes: [last] is the text's first byte. *)
Record stage_ok (l : list ascii) : Prop := {
  stage_chars : forallb stage_char l = true;
  stage_short : (length l ≤ MAX_BUILD_PROGRESS_STAGE_CHARS)%nat;
  stage_start : ∀ l' a, l = l' ++ [a] → a ≠ us;
  stage_single : no_double l;
}.

Lemma no_double_tail a l : no_double (a :: l) → no_double l.
Proof. destruct l; simpl; [done|]. by intros [_ ?]. Qed.

Lemma stage_byte_char a b : stage_byte a = Some b → stage_char b = true.
Proof.
  unfold stage_byte. destruct (is_alnum a) eqn:Ha.
  - intros [= <-]. unfold stage_char. apply orb_true_iff. left.
    unfold to_lower. destruct (is_upper a) eqn:Hu; [|byte_prop; lia].
    byte_prop. rewrite byte_char_of by lia. lia.
  - destruct (byte_in _ a); [|done]. by intros [= <-].
Qed.

Lemma stage_ok_nil : stage_ok [].
Proof. split; simpl; [done|lia| |done]. intros l' a H. by destruct l'. Qed.

Lemma stage_ok_push acc b :
  stage_ok acc → stage_char b = true →
  (S (length acc) ≤ MAX_BUILD_PROGRESS_STAGE_CHARS)%nat →
  (b = us → acc ≠ [] ∧ head acc ≠ Some us) → stage_ok (b :: acc).
Proof.
  intros [] Hb Hlen Hsep. split; simpl.
  - by rewrite Hb.
  - done.
  - intros l' a H. destruct l' as [|c l']; simplify_eq/=; [|by eapply stage_start0].
    intros ->. by destruct (Hsep eq_refl).
  - destruct acc as [|c acc]; [done|]. split; [|done]. intros [-> ->].
    by destruct (Hsep eq_refl).
Qed.

Lemma stage_loop_ok l acc sep :
  stage_ok acc → (length acc < MAX_BUILD_PROGRESS_STAGE_CHARS)%nat →
  (sep = true ↔ head acc = Some us) → stage_ok (stage_loop l acc sep).
Proof.
  revert acc sep. induction l as [|a l IH]; intros acc sep Hok Hlen Hsep; cbn [stage_loop]; [done|].
  destruct (stage_byte a) as [b|] eqn:Hb; [|by apply IH].
  destruct (_ && _) eqn:Hskip; [by apply IH|].
  assert (stage_ok (b :: acc)) as Hpush.
  { apply stage_ok_push; [done|by eapply stage_byte_char|lia|]. intros ->.
    simpl in Hskip. apply orb_false_iff in Hskip as [Hne Hs]. split.
    - by destruct acc.
    - intros Hh. apply Hsep in Hh. congruence. }
  destruct (Nat.leb _ _) eqn:Hfull; [done|]. apply Nat.leb_gt in Hfull.
  apply IH; [done|done|]. simpl. rewrite Ascii.eqb_eq. split; [by intros ->|by intros [= ->]].
Qed.

Lemma drop_while_us_id l : head l ≠ Some us → drop_while (Ascii.eqb us) l = l.
Proof.
  destruct l as [|a l]; [done|]. cbn [head drop_while]. intros Ha.
  destruct (Ascii.eqb_spec us a); congruence.
Qed.

(** Dropping a separator at the end keeps the normal form. *)
Lemma stage_ok_drop l :
  stage_ok l → stage_ok (drop_while (Ascii.eqb us) l) ∧
  (l ≠ [] → drop_while (Ascii.eqb us) l ≠ []) ∧
  head (drop_while (Ascii.eqb us) l) ≠ Some us.
Proof.
  intros Hok. destruct l as [|a l]; [done|]. cbn [drop_while].
  destruct (Ascii.eqb_spec us a) as [<-|Hne].
  - destruct l as [|b l].
    { exfalso. by apply (stage_start _ Hok [] us). }
    assert (b ≠ us) as Hb by (intros ->; destruct (stage_single _ Hok) as [Hd _]; by apply Hd).
    cbn [drop_while]. destruct (Ascii.eqb_spec us b); [congruence|]. split_and!; [|done|naive_solver].
    destruct Hok. split.
    + cbn [forallb] in *. by apply andb_true_iff in stage_chars0 as [_ ?].
    + simpl in *. lia.
    + intros l' c H. apply (stage_start0 (us :: l') c). by rewrite H.
    + by apply no_double_tail in stage_single0.
  - split_and!; [done|done|]. intros [= ->]. done.
Qed.

(** The loop reproduces a text that is already in normal form. *)
Lemma stage_byte_id a : stage_char a = true → stage_byte a = Some a.
Proof.
  unfold stage_char, stage_byte. rewrite orb_true_iff, Ascii.eqb_eq. intros [Ha| ->].
  - assert (is_alnum a = true) as -> by (apply orb_true_iff in Ha as [?|?]; auto with text).
    f_equal. apply to_lower_id. byte_lia.
  - done.
Qed.

Lemma stage_ok_app l k : stage_ok (l ++ k) → k ≠ [] ∨ l = [] → stage_ok k.
Proof.
  intros Hok Hk. induction l as [|a l IH]; [done|]. apply IH; [|naive_solver].
  destruct Hk as [Hk|]; [|done]. destruct Hok. split.
  - cbn [app forallb] in *. by apply andb_true_iff in stage_chars0 as [_ ?].
  - simpl in *. lia.
  - intros l' b H. apply (stage_start0 (a :: l')). simpl. by f_equal.
  - by apply no_double_tail in stage_single0.
Qed.

Lemma stage_loop_id l acc :
  stage_ok (rev l ++ acc) →
  stage_loop l acc (bool_decide (head acc = Some us)) = rev l ++ acc.
Proof.
  revert acc. induction l as [|b l IH]; intros acc Hok; [done|]. cbn [stage_loop].
  simpl rev in *. rewrite <- app_assoc in *. simpl app in *.
  assert (stage_ok (b :: acc)) as Hpush by (eapply stage_ok_app; [done|by left]).
  rewrite (stage_byte_id b).
  2: { pose proof (stage_chars _ Hpush) as H. simpl in H. by apply andb_true_iff in H as [? _]. }
  destruct (_ && _) eqn:Hskip.
  { exfalso. apply andb_true_iff in Hskip as [Hb Hs]. apply Ascii.eqb_eq in Hb. subst b.
    destruct acc as [|c acc]; [by apply (stage_start _ Hpush [] us)|].
    simpl in Hs. bool_prop. simplify_eq. destruct (stage_single _ Hpush) as [Hd _].
    by apply Hd. }
  destruct (Nat.leb _ _) eqn:Hfull.
  - apply Nat.leb_le in Hfull. pose proof (stage_short _ Hok) as Hshort.
    rewrite length_app in Hshort. destruct (rev l) as [|]; [done|]. simpl in *. lia.
  - rewrite <- IH by done. f_equal. symmetry. simpl.
    destruct (Ascii.eqb_spec b us) as [->|]; [by rewrite bool_decide_true|].
    rewrite bool_decide_false by congruence. by destruct (Ascii.eqb_spec b "_").
Qed.

Lemma rev_head_not_us l : stage_ok l → head (rev l) ≠ Some us.
Proof.
  intros Hok. destruct l as [|a l'] using rev_ind; [done|]. rewrite rev_app_distr. simpl.
  intros [= ->]. by apply (stage_start _ Hok l' us).
Qed.

(** The result of the stage normalizer as reversed bytes. *)
Lemma bounded_progress_stage_form value :
  ∃ l, bounded_progress_stage value = of_bytes (rev l) ∧ stage_ok l ∧ l ≠ [] ∧
       head l ≠ Some us.
Proof.
  unfold bounded_progress_stage. set (acc := stage_loop _ _ _).
  assert (stage_ok acc) as Hok.
  { apply stage_loop_ok; [apply stage_ok_nil|by vm_compute; lia|done]. }
  destruct (stage_ok_drop acc Hok) as (Hd & Hne & Hhead).
  assert (trim_end_byte "_" (trim_start_byte "_" (of_bytes (rev acc)))
          = of_bytes (rev (drop_while (Ascii.eqb us) acc))) as ->.
  { unfold trim_end_byte, trim_start_byte. fold us. rewrite !bytes_of_bytes.
    rewrite (drop_while_us_id (rev acc)) by by apply rev_head_not_us.
    by rewrite rev_involutive. }
  destruct (is_empty _) eqn:He.
  - exists (rev (bytes "running")). split_and!; [by vm_compute| |by vm_compute|by vm_compute].
    split; [by vm_compute|vm_compute; lia| |].
    + intros l' a. destruct (decide (a = us)) as [->|]; [|done]. intros H.
      apply (f_equal (@rev _)) in H. rewrite rev_app_distr in H. by vm_compute in H.
    + vm_compute. naive_solver.
  - exists (drop_while (Ascii.eqb us) acc). split_and!; [done|done| |done].
    intros H. rewrite H in He. done.
Qed.

Lemma no_double_snoc m x :
  no_double m → (∀ m' y, m = m' ++ [y] → ¬ (y = us ∧ x = us)) → no_double (m ++ [x]).
Proof.
  induction m as [|y m IHm]; [done|]. intros Hm Hlast.
  destruct m as [|z m]; simpl in *; [split; [|done]; by apply (Hlast [] y)|].
  destruct Hm as [? Hm]. split; [done|]. apply IHm; [done|].
  intros m' y' E. apply (Hlast (y :: m') y'). by rewrite E.
Qed.

Lemma no_double_rev k : no_double k → no_double (rev k).
Proof.
  induction k as [|a k IH]; [done|]. intros Hk.
  simpl. apply no_double_snoc; [by apply IH; eapply no_double_tail|].
  intros m' y E [-> ->]. apply (f_equal (@rev _)) in E.
  rewrite rev_involutive, rev_app_distr in E. subst k. destruct Hk as [Hk _]. by apply Hk.
Qed.

(** The normalizer returns a text that already has the normal form. *)
Lemma bounded_progress_stage_id l :
  stage_ok l → l ≠ [] → head l ≠ Some us →
  bounded_progress_stage (of_bytes (rev l)) = of_bytes (rev l).
Proof.
  intros Hok Hne Hhead. unfold bounded_progress_stage.
  rewrite (normalized_text stage_char (of_bytes (rev l))).
  2: { intros a. unfold stage_char. rewrite orb_true_iff, Ascii.eqb_eq.
       intros [Ha| ->]; [|done]. byte_lia. }
  2: { unfold all_bytes. rewrite bytes_of_bytes, forallb_forall. intros a Ha%in_rev.
       pose proof (stage_chars _ Hok) as H. rewrite forallb_forall in H. auto. }
  rewrite bytes_of_bytes.
  pose proof (stage_loop_id (rev l) []) as Hloop. simpl in Hloop.
  rewrite rev_involutive, app_nil_r in Hloop. rewrite Hloop by done.
  unfold trim_end_byte, trim_start_byte. fold us. rewrite !bytes_of_bytes.
  rewrite (drop_while_us_id (rev l)) by by apply rev_head_not_us.
  rewrite rev_involutive, (drop_while_us_id l) by done.
  destruct (is_empty _) eqn:He; [|done]. apply is_empty_true in He.
  apply (f_equal bytes) in He. rewrite bytes_of_bytes in He.
  destruct l using rev_ind; [done|]. by rewrite rev_app_distr in He.
Qed.

(** A stored progress stage is never empty, has at most 48 characters, all
    lower-case letters, digits or single separators, neither starts nor ends
    with a separator, and normalizing it again changes nothing. *)
Theorem progress_stage_normal_form value :
  let s := bounded_progress_stage value in
  0 < len s ≤ 48 ∧ all_bytes stage_char s = true ∧ no_double (bytes s) ∧
  starts_with_any "_" s = false ∧ ends_with_any "_" s = false ∧
  bounded_progress_stage s = s.
Proof.
  simpl. destruct (bounded_progress_stage_form value) as (l & -> & Hok & Hne & Hhead).
  assert (forallb stage_char (rev l) = true) as Hchars.
  { rewrite forallb_forall. intros a Ha%in_rev.
    pose proof (stage_chars _ Hok) as H. rewrite forallb_forall in H. auto. }
  unfold all_bytes, starts_with_any, ends_with_any. rewrite len_bytes, !bytes_of_bytes, rev_involutive.
  pose proof (stage_short _ Hok) as Hshort. unfold MAX_BUILD_PROGRESS_STAGE_CHARS in Hshort.
  split_and!.
  - rewrite length_rev. destruct l; [done|]. simpl. lia.
  - rewrite length_rev. lia.
  - done.
  - apply no_double_rev, Hok.
  - destruct l as [|a l'] using rev_ind; [done|]. rewrite rev_app_distr. simpl.
    pose proof (stage_start _ Hok l' a eq_refl). unfold byte_in. simpl.
    destruct (Ascii.eqb_spec a "_"); [done|done].
  - destruct l as [|a l']; [done|]. unfold byte_in. simpl.
    destruct (Ascii.eqb_spec a "_") as [->|]; [done|done].
  - by apply bounded_progress_stage_id.
Qed.

(** ** Bounded bytes *)

Lemma take_fitting_spec room cs :
  0 ≤ room → ∃ rest, cs = take_fitting room cs ++ rest ∧
    Z.of_nat (length (concat (take_fitting room cs))) ≤ room ∧
    (∀ c rest', rest = c :: rest' →
       room < Z.of_nat (length (concat (take_fitting room cs)) + length c)).
Proof.
  revert room. induction cs as [|c cs IH]; intros room Hroom; simpl; [by exists []; split_and!|].
  destruct (_ <? _) eqn:Hfit; bool_prop; simpl.
  - exists (c :: cs). split_and!; [done|done|]. intros c' r' [= -> ->]. lia.
  - destruct (IH (room - Z.of_nat (length c))) as (rest & Hrest & Hle & Hmax); [lia|].
    exists rest. split_and!.
    + by f_equal.
    + rewrite length_app. lia.
    + intros c' r' E. specialize (Hmax _ _ E). rewrite length_app. lia.
Qed.

Lemma bounded_bytes_len value max_bytes : 0 ≤ max_bytes → len (bounded_bytes value max_bytes) ≤ max_bytes.
Proof.
  intros Hmax. unfold bounded_bytes. destruct (_ <=? _) eqn:Hle; bool_prop; [done|].
  destruct (take_fitting_spec max_bytes (chars value) Hmax) as (rest & _ & Hlen & _).
  unfold of_chars. by rewrite len_bytes, bytes_of_bytes.
Qed.

(** Cutting a log to its byte limit keeps it within the limit, keeps a
    prefix made of whole characters, and cuts no earlier than it must: the next
    character would not have fitted. *)
Theorem bounded_bytes_longest_prefix value max_bytes :
  0 ≤ max_bytes → let t := bounded_bytes value max_bytes in
  len t ≤ max_bytes ∧ ∃ kept rest,
    chars value = kept ++ rest ∧ t = of_chars kept ∧
    (∀ c rest', rest = c :: rest' → max_bytes < len t + Z.of_nat (length c)).
Proof.
  intros Hmax. simpl. unfold bounded_bytes. destruct (_ <=? _) eqn:Hle; bool_prop.
  - split; [done|]. exists (chars value), []. split_and!; [by rewrite app_nil_r| |done].
    by rewrite of_chars_chars.
  - destruct (take_fitting_spec max_bytes (chars value) Hmax) as (rest & Hrest & Hlen & Hnext).
    unfold of_chars. rewrite len_bytes, bytes_of_bytes. split; [done|].
    exists (take_fitting max_bytes (chars value)), rest. split_and!; [done|done|].
    intros c r' E. specialize (Hnext c r' E). lia.
Qed.

Lemma bounded_bytes_longest_prefix_witness :
  len (bounded_bytes "abcdef" 3) ≤ 3 ∧ bounded_bytes "abcdef" 3 = "abc".
Proof.
  split; [|by vm_compute]. apply (bounded_bytes_longest_prefix "abcdef" 3). lia.
Defined.

(** ** Paths *)

Lemma normal_parts_spec cs parts :
  normal_parts cs = Some parts → cs = Normal <$> parts.
Proof.
  revert parts. induction cs as [|c cs IH]; intros parts H; [by injection H as <-|].
  destruct c; simpl in H; try done. apply bind_Some in H as (ps & Hps & [= <-]).
  simpl. f_equal. auto.
Qed.

Lemma components_normal path part :
  Normal part ∈ components path →
  part ≠ "" ∧ part ≠ "." ∧ part ≠ ".." ∧ "/"%char ∉ bytes part.
Proof.
  unfold components. rewrite elem_of_app. intros [H|H].
  { exfalso. destruct (is_absolute path).
    - by apply list_elem_of_singleton in H.
    - repeat case_match; simplify_eq; try (by apply not_elem_of_nil in H);
        by apply list_elem_of_singleton in H. }
  apply list_elem_of_omap in H as (piece & Hin & Hp).
  apply split_pieces in Hin. unfold piece_component in Hp.
  destruct (_ || _) eqn:Hc; [done|]. bool_prop. case_bool_decide; simplify_eq. done.
Qed.

Lemma components_not_root path : is_absolute path = false → RootDir ∉ components path.
Proof.
  unfold components. intros -> H. apply elem_of_app in H as [H|H].
  - repeat case_match; simplify_eq; try (by apply not_elem_of_nil in H);
      by apply list_elem_of_singleton in H.
  - apply list_elem_of_omap in H as (piece & _ & Hp). unfold piece_component in Hp.
    repeat case_match; simplify_eq.
Qed.

(** A path that [sanitize_relative_path] accepts cannot leave the root it
    is joined to: it has at least one part, and no part is empty, [.], [..] or
    contains a slash.  What it rejects is reported as an unsafe path. *)
Theorem sanitize_relative_path_stays_below input :
  match sanitize_relative_path input with
  | Ok parts => parts ≠ [] ∧ ∀ part, part ∈ parts →
      part ≠ "" ∧ part ≠ "." ∧ part ≠ ".." ∧ "/"%char ∉ bytes part
  | Err e => e = UnsafePath
  end.
Proof.
  unfold sanitize_relative_path. destruct (_ || _); [done|]. destruct (is_empty _); [done|].
  destruct (normal_parts _) as [[|p ps]|] eqn:H; [done| |done].
  apply normal_parts_spec in H. split; [done|]. intros part Hin.
  apply (components_normal (trim input)). rewrite H. by apply (list_elem_of_fmap_2 Normal).
Qed.

(** A stored absolute path starts at the root, is at most 4096 bytes long,
    has no parent component and holds neither a quote, a backslash nor a
    control character, so it can be quoted in a generated file. *)
Theorem absolute_path_is_contained value field t :
  normalize_absolute_path value field = Ok t →
  (∃ rest, t = ("/" +:+ rest)) ∧ len t ≤ 4096 ∧ t ≠ "/" ∧
  ParentDir ∉ components t ∧
  (∀ c, c ∈ chars t → is_control c = false ∧ c ≠ [dquote] ∧ c ≠ ["\"%char]).
Proof.
  unfold normalize_absolute_path, validate_absolute_path. intros H.
  destruct (is_empty _); [done|]. destruct (_ || _) eqn:H1 in H; [done|].
  destruct (_ || _) eqn:H2 in H; [done|]. destruct (existsb _ _) eqn:H3 in H; [done|].
  injection H as <-. bool_prop. split_and!; auto.
  - by apply starts_with_true.
  - intros Hin. rewrite <- not_true_iff_false, existsb_exists in H3. apply H3.
    exists ParentDir. by rewrite <- list_elem_of_In.
  - intros c Hc. match goal with E : existsb _ (chars _) = false |- _ => rename E into He end.
    rewrite <- not_true_iff_false, existsb_exists in He.
    destruct (is_control c || is_char dquote c || is_char "\" c) eqn:Hbad.
    + destruct He. exists c. by rewrite <- list_elem_of_In.
    + unfold is_char in Hbad. by bool_prop.
Qed.

Lemma absolute_path_is_contained_witness :
  ParentDir ∉ components "/var/lib/nest".
Proof.
  destruct (absolute_path_is_contained " /var/lib/nest" "path" "/var/lib/nest")
    as (_ & _ & _ & H & _); [by vm_compute|exact H].
Defined.

(** The check does not require a normalized path, although its message does:
    empty and [.] pieces do not appear among the components. *)
Example unnormalized_path_accepted :
  normalize_absolute_path "/nix/./store//x" "path" = Ok "/nix/./store//x".
Proof. by vm_compute. Qed.
