(* ===== verification/ProtectedText.v ===== *)
(** * Screening of text for protected material

    The text scanners of [src/protected_material.rs]: password hashes,
    activation secrets, URLs with credentials, literal credential assignments.
    [reqwest::Url::parse] is an argument.  A slice that is not on a character
    boundary panics in Rust; the one place where it can happen answers
    [Panicked]. *)

From stdpp Require Import base list strings.
From Stdlib Require Import Ascii ZArith Lia.
From S2P Require Import Prelude RustStr RustText DbText.

#[local] Open Scope Z_scope.
#[local] Open Scope nest_scope.

Inductive ProtectedMaterialKind :=
| ActivationSecrets | CredentialAssignment | CredentialUrl | ModularPasswordHash.
#[global] Instance kind_eq_dec : EqDecision ProtectedMaterialKind.
Proof. solve_decision. Defined.

Record ProtectedMaterialError := { pme_field : string; pme_kind : ProtectedMaterialKind }.

Definition kind_text (k : ProtectedMaterialKind) : string :=
  match k with
  | ActivationSecrets => "activation secrets"
  | CredentialAssignment => "a literal credential assignment"
  | CredentialUrl => "a credential-bearing URL"
  | ModularPasswordHash => "a modular password hash"
  end.

Definition error_text (e : ProtectedMaterialError) : string :=
  pme_field e +:+ " contains protected material (" +:+ kind_text (pme_kind e) +:+ ")".

(** How a check can end without accepting. *)
Inductive Failure := Protected (e : ProtectedMaterialError) | Panicked.
Definition protected {A} (field : string) (kind : ProtectedMaterialKind) : result Failure A :=
  Err (Protected {| pme_field := field; pme_kind := kind |}).

(** ** Keys *)

Definition canonical_key (value : string) : string :=
  of_bytes (to_lower <$> List.filter is_alnum (bytes value)).

Definition REFERENCED_SECRETS : list string :=
  ["password"; "passwd"; "token"; "apikey"; "secret"; "privatekey"; "credential"].
Definition REFERENCE_SUFFIXES : list string := ["file"; "path"; "ref"; "reference"].

Definition is_credential_reference_key (canonical : string) : bool :=
  contains_one REFERENCED_SECRETS canonical && ends_with_one REFERENCE_SUFFIXES canonical.

Definition CREDENTIAL_SUFFIXES : list string :=
  ["password"; "passwd"; "passwordhash"; "hashedpassword"; "passphrase"; "psk"; "wifipsk";
   "token"; "bearertoken"; "sessiontoken"; "apikey"; "secret"; "clientsecret";
   "secretaccesskey"; "accesskeyid"; "privatekey"; "authorization"; "credential";
   "credentials"; "cookie"; "sessionid"; "jwt"].

Definition is_credential_key (canonical : string) : bool :=
  ends_with_one CREDENTIAL_SUFFIXES canonical || is_credential_reference_key canonical.

(** ** Password hashes *)

Definition MODULAR_PASSWORD_HASH_PREFIXES : list string :=
  ["$1$"; "$2a$"; "$2b$"; "$2x$"; "$2y$"; "$5$"; "$6$"; "$7$"; "$y$"; "$gy$";
   "$argon2d$"; "$argon2i$"; "$argon2id$"].

(** [min_by_key] on the start: the first of the smallest. *)
Fixpoint first_min (l : list (nat * nat)) : option (nat * nat) :=
  match l with
  | [] => None
  | x :: l =>
      match first_min l with
      | Some y => if (x.1 <=? y.1)%nat then Some x else Some y
      | None => Some x
      end
  end.

Definition hash_starts (text : string) : list (nat * nat) :=
  let lower := to_ascii_lowercase text in
  omap (λ prefix, start ← find prefix lower; Some (start, String.length prefix))
    MODULAR_PASSWORD_HASH_PREFIXES.

Definition hash_byte (a : ascii) : bool := is_alnum a || byte_in "$./+=,-" a.

Definition next_modular_password_hash (text : string) : option (nat * nat) :=
  '(start, prefix_len) ← first_min (hash_starts text);
  let value_start := (start + prefix_len)%nat in
  Some (start, (value_start + length (take_while hash_byte (bytes (str_from value_start text))))%nat).

Definition contains_modular_password_hash (text : string) : bool :=
  bool_decide (is_Some (next_modular_password_hash text)).

(** ** Activation secrets *)

Definition not_alnum_char (c : list ascii) : bool := negb (char_is is_alnum c).

(** Some two neighbours satisfy [f] ([windows(2)]). *)
Fixpoint any_window {A} (f : A → A → bool) (l : list A) : bool :=
  match l with
  | x :: (y :: _) as l' => f x y || any_window f l'
  | _ => false
  end.

Definition contains_tiaris_activation_secret_reference (text : string) : bool :=
  let lower := to_ascii_lowercase text in
  let parts := List.filter (λ p, negb (is_empty p)) (split_by not_alnum_char lower) in
  existsb (λ p, bool_decide (p ∈ ["activationsecret"; "activationsecrets"])) parts
  || any_window (λ p q, bool_decide (p = "activation")
                        && bool_decide (q ∈ ["secret"; "secrets"])) parts.

(** ** References *)

Definition dq : string := String dquote "".
Definition sq : string := String squote "".
Definition TIARIS_LOCAL_ACCOUNT_SECRET_PREFIX : string :=
  "/var/lib/tiaris-agent/secrets/local-accounts/".

(** [strip_prefix(q).and_then(strip_suffix(q)).unwrap_or(s)]. *)
Definition unquoted (s : string) : string :=
  default s (v ← strip_prefix dq s; strip_suffix dq v).

Definition safe_runtime_secret_reference (value : string) : bool :=
  let value := unquoted (trim value) in
  if is_empty value || contains ".." value
     || existsb (λ c, is_control c || is_whitespace c) (chars value) then false else
  if starts_with TIARIS_LOCAL_ACCOUNT_SECRET_PREFIX value then false else
  if existsb (λ p, starts_with p value && (len p <? len value))
       ["/run/tiaris/secrets/"; "/run/secrets/"; "/run/agenix/"; "/run/credentials/"]
  then true else
  existsb (λ p, starts_with p value && ends_with ".path" value)
    ["config.sops.secrets."; "config.age.secrets."].

Definition safe_public_account_database_reference (canonical value : string) : bool :=
  bool_decide (canonical = "passwdfile")
  && bool_decide (trim value ∈ ["/etc/passwd"; dq +:+ "/etc/passwd" +:+ dq;
                                "${3:-/etc/passwd}"; "\${3:-/etc/passwd}"]).

(** ** Assignments *)

Definition is_quote (a : ascii) : bool := Ascii.eqb a squote || Ascii.eqb a dquote.
Definition key_byte (a : ascii) : bool := is_alnum a || byte_in "_-" a.

(** The text before [equals], last byte first, without trailing white space. *)
Definition before (text : string) (equals : nat) : list ascii :=
  drop_while is_ascii_whitespace (rev (bytes (str_to equals text))).

(** The key between the quote that ends [rest] and the one before it. *)
Definition quoted_key (quote : ascii) (rest : list ascii) : option string :=
  if existsb (Ascii.eqb quote) rest then
    match take_while (λ a, negb (Ascii.eqb a quote)) rest with
    | [] => None
    | key => Some (of_bytes (rev key))
    end
  else None.

Definition assignment_key (text : string) (equals : nat) : option string :=
  let l := before text equals in
  match l with
  | quote :: rest =>
      if is_quote quote then
        key ← quoted_key quote rest;
        if starts_with "$" key then None else Some key
      else
        let key := take_while key_byte l in
        let key :=
          match rev key, drop (length key) l with
          | first :: (_ :: _) as key', "\"%char :: _ =>
              if byte_in "nr" first then rev (tail (rev key)) else key
          | _, _ => key
          end in
        match key with [] => None | _ => Some (of_bytes (rev key)) end
  | [] => None
  end.

(** The offset at which the value that [l] starts with ends; [run] backslashes
    precede [l]. *)
Fixpoint value_end (l : list ascii) (pos run : nat) : nat :=
  match l with
  | [] => pos
  | a :: l =>
      if Ascii.eqb a "\" then value_end l (S pos) (S run)
      else if Nat.odd run && byte_in "nr" a then (pos - run)%nat
      else if byte_in ";," a || Ascii.eqb a "010" || Ascii.eqb a "013" then pos
      else value_end l (S pos) 0
  end.

Definition assignment_value (text : string) (start : nat) : string :=
  let remainder := trim_start (str_from start text) in
  trim (str_to (value_end (bytes remainder) 0 0) remainder).

(** *** Name service databases *)

Definition option_byte (a : ascii) : bool := is_alnum a || byte_in "_-." a.

Definition dotted_option_key (text : string) (equals : nat) : option string :=
  match take_while option_byte (before text equals) with
  | [] => None
  | key => Some (of_bytes (rev key))
  end.

Definition strip_nss_priority_wrapper (value : string) : string :=
  let order := omap (λ prefix,
    rest ← strip_prefix prefix value;
    let rest := trim_start rest in
    let digits := length (take_while is_digit (bytes rest)) in
    if (0 <? digits)%nat then Some (str_from digits rest) else None)
    ["lib.mkOrder"; "mkOrder"] in
  let plain := omap (λ prefix, strip_prefix prefix value)
    ["lib.mkBefore"; "mkBefore"; "lib.mkAfter"; "mkAfter"] in
  default value (head (order ++ plain)%list).

(** A name is consumed in every round, so [fuel] beyond the length of [rest]
    is never used up ([nss_names_fuel]). *)
Fixpoint nss_names_loop (fuel : nat) (rest : string) : bool :=
  if is_empty rest then true else
  match fuel with
  | O => false
  | S fuel =>
      let quote := if starts_with ("\" +:+ dq) rest then "\" +:+ dq else dq in
      match strip_prefix quote rest with
      | None => false
      | Some after_open =>
          match find quote after_open with
          | None => false
          | Some close =>
              let name := str_to close after_open in
              if is_empty name || negb (all_bytes option_byte name) then false
              else nss_names_loop fuel
                     (trim_start (str_from (close + String.length quote) after_open))
          end
      end
  end.
Definition nss_service_names_only (inner : string) : bool :=
  nss_names_loop (String.length inner) (trim inner).

Definition MAX_NSS_ASSIGNMENT_BYTES : nat := 4096.

Definition nss_service_list_value (text : string) (equals : nat) : result Failure bool :=
  let remainder := str_from (S equals) text in
  let limit := Nat.min (String.length remainder) MAX_NSS_ASSIGNMENT_BYTES in
  if negb (boundary limit remainder) then Err Panicked else
  let bounded := str_to limit remainder in
  match find ";" bounded with
  | None => Ok false
  | Some terminator =>
      let list := strip_nss_priority_wrapper (trim (str_to terminator bounded)) in
      match l ← strip_prefix "[" (trim list); strip_suffix "]" l with
      | None => Ok false
      | Some inner => Ok (nss_service_names_only inner)
      end
  end.

Definition safe_nixos_nss_database_assignment (text : string) (equals : nat)
    : result Failure bool :=
  match option ← dotted_option_key text equals; strip_prefix "system.nssDatabases." option with
  | None => Ok false
  | Some database =>
      if is_empty database || contains "." database then Ok false
      else nss_service_list_value text equals
  end.

(** One [=] of the text: is it a literal credential assignment? *)
Definition unsafe_assignment_at (text : string) (equals : nat) : result Failure bool :=
  let bytes := bytes text in
  if bool_decide ((0 < equals)%nat ∧ bytes !! (equals - 1)%nat = Some "="%char)
     || bool_decide (bytes !! S equals = Some "="%char) then Ok false else
  match assignment_key text equals with
  | None => Ok false
  | Some key =>
      let canonical := canonical_key key in
      if negb (is_credential_key canonical) then Ok false else
      let value := assignment_value text (S equals) in
      if bool_decide (value ∈ ["true"; "false"; "null"]) then Ok false else
      if bool_decide (canonical = "hashedpassword") && bool_decide (value = dq +:+ "!" +:+ dq)
      then Ok false else
      nss ≔ safe_nixos_nss_database_assignment text equals ?;
      if nss : bool then Ok false else
      if is_credential_reference_key canonical
         && (safe_runtime_secret_reference value
             || safe_public_account_database_reference canonical value)
      then Ok false else Ok true
  end.

Fixpoint any_unsafe (text : string) (positions : list nat) : result Failure bool :=
  match positions with
  | [] => Ok false
  | equals :: positions =>
      found ≔ unsafe_assignment_at text equals ?;
      if found : bool then Ok true else any_unsafe text positions
  end.

Definition contains_unsafe_credential_assignment (text : string) : result Failure bool :=
  any_unsafe text (match_indices "=" text).

(** ** URLs *)

Record Url := {
  url_username : string;
  url_password : option string;
  url_path_segments : option (list string);
  url_query_pairs : list (string * string);
  url_fragment : option string;
}.

Definition ascii_hex_digit_value (a : ascii) : option Z :=
  let x := byte a in
  if in_range 48 57 x then Some (x - 48)
  else if in_range 97 102 x then Some (x - 97 + 10)
  else if in_range 65 70 x then Some (x - 65 + 10)
  else None.

Fixpoint percent_decode (l : list ascii) : list ascii :=
  match l with
  | [] => []
  | a :: l1 =>
      match Ascii.eqb a "%", l1 with
      | true, h :: lo :: l3 =>
          match ascii_hex_digit_value h, ascii_hex_digit_value lo with
          | Some high, Some low => char_of (Z.lor (Z.shiftl high 4) low) :: percent_decode l3
          | _, _ => a :: percent_decode l1
          end
      | _, _ => a :: percent_decode l1
      end
  end.

Definition percent_decode_ascii_url_component (value : string) : string :=
  of_bytes (utf8_lossy (percent_decode (bytes value))).

Definition PROTECTED_URL_KEYS : list string :=
  ["token"; "accesstoken"; "refreshtoken"; "sessiontoken"; "bearertoken"; "auth";
   "authorization"; "password"; "passwd"; "passphrase"; "psk"; "wifipsk"; "secret";
   "clientsecret"; "secretaccesskey"; "accesskeyid"; "apikey"; "key"; "privatekey";
   "credential"; "credentials"; "cookie"; "sessionid"; "jwt"; "sig"; "xamzsignature";
   "xgoogsignature"; "sharedaccesssignature"].
Definition PROTECTED_URL_PARTS : list string :=
  ["authorization"; "apikey"; "apitoken"; "accesstoken"; "credential"; "credentials";
   "idtoken"; "key"; "password"; "passwd"; "refreshtoken"; "secret"; "token"].

Definition url_component_contains_protected_material (value : string) : bool :=
  let decoded := percent_decode_ascii_url_component value in
  if contains_modular_password_hash decoded then true else
  let lower := to_ascii_lowercase decoded in
  bool_decide (canonical_key lower ∈ PROTECTED_URL_KEYS)
  || existsb (λ part, bool_decide (part ∈ PROTECTED_URL_PARTS)) (split_by not_alnum_char lower).

(** [rest.split(['/', '?', '#']).next()] is the text before the first of them. *)
Definition authority (rest : string) : string :=
  match find_byte (byte_in "/?#") rest with Some end_ => str_to end_ rest | None => rest end.

Definition raw_url_authority_contains_percent (value : string) : bool :=
  match split_once_str "://" value with
  | None => false
  | Some (_, rest) => contains "%" (authority rest)
  end.

Section Urls.
Context (url_parse : string → option Url).

Definition credential_url (candidate : string) : bool :=
  let candidate := trim_matches ".:!?" candidate in
  if raw_url_authority_contains_percent candidate then true else
  match url_parse candidate with
  | None =>
      match split_once_str "://" candidate with
      | Some (_, rest) => contains "@" (authority rest)
      | None => false
      end
  | Some url =>
      negb (is_empty (url_username url))
      || match url_password url with Some _ => true | None => false end
      || existsb url_component_contains_protected_material (default [] (url_path_segments url))
      || existsb (λ kv, url_component_contains_protected_material kv.1
                        || url_component_contains_protected_material kv.2) (url_query_pairs url)
      || match url_fragment url with
         | Some fragment => url_component_contains_protected_material fragment
         | None => false
         end
  end.

Definition url_separator (c : list ascii) : bool :=
  is_whitespace c || char_in (dq +:+ "'`()[]{};,") c.

Definition contains_credential_url (text : string) : bool :=
  existsb credential_url (List.filter (contains "://") (split_by url_separator text)).

(** ** The check on a text *)

Definition validate_text (field text : string) : result Failure unit :=
  if contains_modular_password_hash text then protected field ModularPasswordHash else
  if contains_tiaris_activation_secret_reference text then protected field ActivationSecrets else
  if contains_credential_url text then protected field CredentialUrl else
  unsafe ≔ contains_unsafe_credential_assignment text ?;
  if unsafe : bool then protected field CredentialAssignment else Ok tt.

End Urls.
