(* ===== verification/Redact.v ===== *)
(** * Redaction of log and error texts

    [src/redact.rs].  Every loop consumes at least one byte of the remaining
    text in a round; it is given the length of the text as fuel. *)

From stdpp Require Import base list strings.
From Stdlib Require Import Ascii ZArith Lia.
From S2P Require Import Prelude RustStr RustText ProtectedText.

#[local] Open Scope Z_scope.

Definition REDACTION : string := "[REDACTED]".

(** The loop that most passes share: what [next] finds in the remaining text
    is replaced, and the search goes on behind it. *)
Fixpoint redact_loop (next : string → option (nat * nat)) (fuel : nat) (remaining : string)
    : string :=
  match fuel with
  | O => remaining
  | S fuel =>
      match next remaining with
      | None => remaining
      | Some (value_start, value_end) =>
          str_to value_start remaining +:+ REDACTION
          +:+ redact_loop next fuel (str_from value_end remaining)
      end
  end.

(** ** Values *)

(** The offset behind the closing quote in the characters after an opening one. *)
Fixpoint quoted_end (quote : ascii) (escaped : bool) (cs : list (list ascii)) (offset : nat)
    : option nat :=
  match cs with
  | [] => None
  | c :: cs =>
      if escaped then quoted_end quote false cs (offset + length c)
      else if bool_decide (c = ["\"%char]) then quoted_end quote true cs (offset + length c)
      else if bool_decide (c = [quote]) then Some (offset + length c)%nat
      else quoted_end quote false cs (offset + length c)
  end.

Definition value_stop (c : list ascii) : bool := is_whitespace c || char_in "&;," c.

Definition sensitive_value_end (text : string) (start : nat) : nat :=
  match chars (str_from start text) with
  | [] => start
  | first :: rest =>
      if bool_decide (first = [squote]) || bool_decide (first = [dquote]) then
        match first with
        | [quote] => default (String.length text) (quoted_end quote false rest (start + 1))
        | _ => start
        end
      else
        match find_in_chars value_stop (first :: rest) with
        | Some offset => (start + offset)%nat
        | None => String.length text
        end
  end.

(** ** Keys *)

Definition redact_key (text : string) (equals : nat) : option string :=
  let l := before text equals in
  match l with
  | quote :: rest =>
      if is_quote quote then quoted_key quote rest
      else match take_while key_byte l with [] => None | key => Some (of_bytes (rev key)) end
  | [] => None
  end.

Definition SENSITIVE_SUFFIXES : list string :=
  ["password"; "passwd"; "secret"; "secretkey"; "token"; "apikey"; "privatekey";
   "authorization"; "credential"; "credentials"].
Definition SENSITIVE_PARTS : list string :=
  ["password"; "passwd"; "secret"; "token"; "apikey"; "privatekey"; "credential"].

Definition sensitive_assignment_key (value : string) : bool :=
  let canonical := canonical_key value in
  existsb (λ part, bool_decide (canonical = part) || ends_with part canonical) SENSITIVE_SUFFIXES
  || (contains_one SENSITIVE_PARTS canonical && ends_with_one REFERENCE_SUFFIXES canonical).

(** The value after [separator], when its key is sensitive. *)
Definition sensitive_value_after (text : string) (separator : nat) : option (nat * nat) :=
  key ← redact_key text separator;
  if negb (sensitive_assignment_key key) then None else
  let value_start :=
    (S separator + length (take_while is_ascii_whitespace (bytes (str_from (S separator) text))))%nat in
  if bool_decide (value_start = String.length text) then None else
  let value_end := sensitive_value_end text value_start in
  if (value_start <? value_end)%nat then Some (value_start, value_end) else None.

Fixpoint find_value (f : nat → option (nat * nat)) (positions : list nat) : option (nat * nat) :=
  match positions with
  | [] => None
  | i :: positions => match f i with Some r => Some r | None => find_value f positions end
  end.

Definition next_sensitive_assignment (text : string) : option (nat * nat) :=
  let bytes := bytes text in
  find_value (λ equals,
    if bool_decide ((0 < equals)%nat ∧ bytes !! (equals - 1)%nat = Some "="%char)
       || bool_decide (bytes !! S equals = Some "="%char) then None
    else sensitive_value_after text equals) (match_indices "=" text).

Definition next_sensitive_quoted_key_value (text : string) : option (nat * nat) :=
  find_value (λ colon,
    match before text colon with
    | a :: _ => if is_quote a then sensitive_value_after text colon else None
    | [] => None
    end) (match_indices ":" text).

(** ** The passes *)

Definition redact_assignments (text : string) : string :=
  redact_loop next_sensitive_assignment (String.length text) text.

Definition redact_quoted_key_values (text : string) : string :=
  redact_loop next_sensitive_quoted_key_value (String.length text) text.

Definition redact_modular_password_hashes (text : string) : string :=
  redact_loop next_modular_password_hash (String.length text) text.

Fixpoint bearer_loop (fuel : nat) (remaining : string) : string :=
  match fuel with
  | O => remaining
  | S fuel =>
      match find "bearer " (to_ascii_lowercase remaining) with
      | None => remaining
      | Some start =>
          let value_start := (start + String.length "bearer ")%nat in
          let value_end := sensitive_value_end remaining value_start in
          str_to value_start remaining +:+
          (if bool_decide (value_end = value_start) then str_from value_start remaining
           else REDACTION +:+ bearer_loop fuel (str_from value_end remaining))
      end
  end.
Definition redact_bearer_values (text : string) : string := bearer_loop (String.length text) text.

Definition authority_stop (c : list ascii) : bool :=
  is_whitespace c || char_in (dq +:+ "/?#'`;,") c.

(** [rfind] of one byte. *)
Fixpoint rfind (c : ascii) (s : string) : option nat :=
  match s with
  | EmptyString => None
  | String a s =>
      match rfind c s with
      | Some i => Some (S i)
      | None => if Ascii.eqb a c then Some 0%nat else None
      end
  end.

(** [text] is the text from the source's [cursor]. *)
Fixpoint userinfo_loop (fuel : nat) (text : string) : string :=
  match fuel with
  | O => text
  | S fuel =>
      match find "://" text with
      | None => text
      | Some scheme_end =>
          let authority_start := (scheme_end + 3)%nat in
          let rest := str_from authority_start text in
          let authority := match find_char authority_stop rest with
                           | Some offset => str_to offset rest
                           | None => rest
                           end in
          str_to authority_start text +:+
          match rfind "@" authority with
          | None => userinfo_loop fuel rest
          | Some at_ => REDACTION +:+ "@" +:+ userinfo_loop fuel (str_from (S at_) rest)
          end
      end
  end.
Definition redact_url_userinfo (text : string) : string := userinfo_loop (String.length text) text.

Definition redact_sensitive_key_values (text : string) : string :=
  let redacted := redact_assignments text in
  let redacted := redact_quoted_key_values redacted in
  let redacted := redact_bearer_values redacted in
  let redacted := redact_url_userinfo redacted in
  redact_modular_password_hashes redacted.

Definition contains_sensitive_key_value (text : string) : bool :=
  negb (bool_decide (redact_sensitive_key_values text = text)).
