(* ===== verification/RedactProofs.v ===== *)
(** * Redaction: theorems

    The passes of [Redact] terminate, and what they leave holds no password
    hash.  Also what they miss. *)

From stdpp Require Import base list strings.
From Stdlib Require Import Ascii ZArith Lia.
From S2P Require Import Prelude RustStr RustText DbTextProofs ProtectedText Redact.

#[local] Open Scope Z_scope.

(** ** Searching in parts of a text *)

Lemma starts_with_app_sep p x c y :
  c ∉ bytes p → starts_with p (x +:+ String c y) = starts_with p x.
Proof.
  unfold starts_with. revert x. induction p as [|a p IH]; intros x Hc; [by destruct x|].
  cbn [bytes] in Hc. apply not_elem_of_cons in Hc as [Hne Hc].
  destruct x as [|b x].
  - change ("" +:+ String c y) with (String c y). cbn [strip_prefix].
    destruct (Ascii.eqb a c) eqn:E; [|done]. apply Ascii.eqb_eq in E. by subst.
  - rewrite str_app_cons. cbn [strip_prefix]. destruct (Ascii.eqb a b); [|done]. by apply IH.
Qed.

(** A text that holds a byte the pattern has not can be searched in halves. *)
Lemma contains_app_sep p x c y :
  c ∉ bytes p → p ≠ "" → contains p (x +:+ String c y) = contains p x || contains p y.
Proof.
  intros Hc Hp. induction x as [|a x IH].
  - change ("" +:+ String c y) with (String c y). cbn [contains].
    assert (starts_with p (String c y) = false) as ->.
    { etrans; [exact (starts_with_app_sep p "" c y Hc)|]. by destruct p. }
    by destruct p.
  - rewrite str_app_cons. cbn [contains]. rewrite <- str_app_cons, starts_with_app_sep by done.
    rewrite IH. by rewrite orb_assoc.
Qed.

Lemma starts_with_str_to p j s : starts_with p (str_to j s) = true → starts_with p s = true ∧ (String.length p ≤ j)%nat.
Proof.
  unfold starts_with. revert j s. induction p as [|a p IH]; intros j s; [intros _; split; [by destruct s|simpl; lia]|].
  destruct j, s as [|b s]; try done. cbn [str_to strip_prefix].
  destruct (Ascii.eqb a b); [|done]. intros H. apply IH in H as [??]. simpl. split; [done|lia].
Qed.

(** An occurrence within the first [j] bytes is found no later. *)
Lemma contains_str_to p j s :
  contains p (str_to j s) = true →
  ∃ k, find p s = Some k ∧ (k + String.length p ≤ j)%nat.
Proof.
  revert j. induction s as [|a s IH]; intros j.
  - destruct j; cbn [str_to contains find]; destruct (starts_with p "") eqn:E; try done; intros _;
      exists 0%nat; (split; [done|]); destruct p; simpl; try lia; done.
  - intros H. cbn [find]. destruct (starts_with p (String a s)) eqn:Es.
    + exists 0%nat. split; [done|]. destruct j as [|j].
      * cbn [str_to contains] in H. destruct (starts_with p "") eqn:E; [|done].
        by destruct p.
      * cbn [str_to contains] in H. apply orb_true_iff in H as [H|H].
        { by apply (starts_with_str_to p (S j) (String a s)) in H as [_ ?]. }
        apply IH in H as (k & _ & Hk). simpl. lia.
    + destruct j as [|j].
      * cbn [str_to contains] in H. destruct (starts_with p "") eqn:E; [|done].
        destruct p; [|done]. by unfold starts_with in Es.
      * cbn [str_to contains] in H. apply orb_true_iff in H as [H|H].
        { apply (starts_with_str_to p (S j) (String a s)) in H as [? _]. congruence. }
        apply IH in H as (k & -> & Hk). exists (S k). split; [done|lia].
Qed.

(** Lower-casing commutes with taking a text apart. *)
Lemma lower_app s t : to_ascii_lowercase (s +:+ t) = to_ascii_lowercase s +:+ to_ascii_lowercase t.
Proof. unfold to_ascii_lowercase. by rewrite bytes_app, fmap_app, of_bytes_app. Qed.

Lemma lower_str_to n s : to_ascii_lowercase (str_to n s) = str_to n (to_ascii_lowercase s).
Proof.
  revert n. induction s as [|a s IH]; intros [|n]; [done..|].
  unfold to_ascii_lowercase in *. simpl. by rewrite IH.
Qed.

Lemma length_str_from n s : String.length (str_from n s) = (String.length s - n)%nat.
Proof. revert s. induction n as [|n IH]; intros [|a s]; simpl; auto. Qed.

(** ** Termination *)

(** What a search finds is a non-empty part of a text that is not empty. *)
Definition advances (next : string → option (nat * nat)) : Prop :=
  ∀ s i j, next s = Some (i, j) → (i < j)%nat ∧ s ≠ "".

Lemma redact_loop_fuel next fuel s :
  advances next → (String.length s ≤ fuel)%nat →
  redact_loop next fuel s = redact_loop next (String.length s) s.
Proof.
  intros Hadv. assert (∀ n m s, (String.length s ≤ n)%nat → (String.length s ≤ m)%nat →
    redact_loop next n s = redact_loop next m s) as H; [|intros; apply H; lia].
  clear fuel s. induction n as [|n IH]; intros m s Hn Hm.
  - destruct s; [|simpl in Hn; lia]. destruct m; [done|]. simpl.
    destruct (next "") as [[i j]|] eqn:E; [|done]. by apply Hadv in E as [_ ?].
  - destruct m as [|m].
    { destruct s; [|simpl in Hm; lia]. simpl.
      destruct (next "") as [[i j]|] eqn:E; [|done]. by apply Hadv in E as [_ ?]. }
    simpl. destruct (next s) as [[i j]|] eqn:E; [|done]. apply Hadv in E as [Hij Hs].
    rewrite (IH m); [done| |]; rewrite length_str_from; destruct s; simpl in *; try done; lia.
Qed.

Lemma find_value_advances f positions i j :
  find_value f positions = Some (i, j) → ∃ k, k ∈ positions ∧ f k = Some (i, j).
Proof.
  induction positions as [|k positions IH]; simpl; [done|].
  destruct (f k) eqn:E; intros H; [exists k; split; [left|congruence]|].
  destruct (IH H) as (k' & ? & ?). exists k'. split; [by right|done].
Qed.

Lemma match_indices_nonempty c s k : k ∈ match_indices c s → s ≠ "".
Proof. intros H ->. by apply not_elem_of_nil in H. Qed.

Lemma sensitive_value_after_advances text k i j :
  sensitive_value_after text k = Some (i, j) → (i < j)%nat.
Proof.
  unfold sensitive_value_after. intros (key & _ & H)%bind_Some.
  destruct (negb _); [done|]. case_bool_decide; [done|].
  destruct (_ <? _)%nat eqn:E; [|done]. injection H as <- <-. by apply Nat.ltb_lt.
Qed.

Lemma next_sensitive_assignment_advances : advances next_sensitive_assignment.
Proof.
  intros s i j H. apply find_value_advances in H as (k & Hk & H).
  split; [|by eapply match_indices_nonempty]. destruct (_ || _); [done|].
  by eapply sensitive_value_after_advances.
Qed.

Lemma next_sensitive_quoted_advances : advances next_sensitive_quoted_key_value.
Proof.
  intros s i j H. apply find_value_advances in H as (k & Hk & H).
  split; [|by eapply match_indices_nonempty]. destruct (before s k) as [|a l]; [done|].
  destruct (is_quote a); [|done]. by eapply sensitive_value_after_advances.
Qed.

(** ** Password hashes *)

Definition no_hash (s : string) : Prop :=
  ∀ p, p ∈ MODULAR_PASSWORD_HASH_PREFIXES → contains p (to_ascii_lowercase s) = false.

Lemma first_min_None l : first_min l = None ↔ l = [].
Proof.
  destruct l as [|x l]; simpl; [done|]. destruct (first_min l) as [y|]; [|done].
  by destruct (_ <=? _)%nat.
Qed.

Lemma first_min_Some l x : first_min l = Some x → x ∈ l ∧ ∀ y, y ∈ l → (x.1 ≤ y.1)%nat.
Proof.
  revert x. induction l as [|z l IH]; intros x; simpl; [done|].
  destruct (first_min l) as [y|] eqn:E.
  - destruct (IH y eq_refl) as [Hy Hmin]. destruct (_ <=? _)%nat eqn:Hle; intros [= <-].
    + apply Nat.leb_le in Hle. split; [left|]. intros u [->|Hu]%elem_of_cons; [done|].
      specialize (Hmin u Hu). lia.
    + apply Nat.leb_gt in Hle. split; [by right|]. intros u [->|Hu]%elem_of_cons; [lia|auto].
  - intros [= <-]. apply first_min_None in E as ->. split; [left|].
    by intros u ->%list_elem_of_singleton.
Qed.

Lemma elem_of_hash_starts text i n :
  (i, n) ∈ hash_starts text ↔
  ∃ p, p ∈ MODULAR_PASSWORD_HASH_PREFIXES ∧ find p (to_ascii_lowercase text) = Some i ∧
       n = String.length p.
Proof.
  unfold hash_starts. rewrite list_elem_of_omap. split.
  - intros (p & Hp & (j & Hj & [= <- <-])%bind_Some). eauto.
  - intros (p & Hp & Hf & ->). exists p. split; [done|]. by rewrite Hf.
Qed.

Lemma contains_hash_false text : contains_modular_password_hash text = false ↔ no_hash text.
Proof.
  unfold contains_modular_password_hash, next_modular_password_hash, no_hash.
  rewrite bool_decide_eq_false. split.
  - intros H p Hp. rewrite contains_find. destruct (find p _) as [i|] eqn:E; [|done].
    destruct H. destruct (first_min (hash_starts text)) as [[j n]|] eqn:Em; [by eexists|].
    apply first_min_None in Em.
    assert ((i, String.length p) ∈ hash_starts text) as Hin by (apply elem_of_hash_starts; eauto).
    rewrite Em in Hin. by apply not_elem_of_nil in Hin.
  - intros H [x Hx]. destruct (first_min _) as [[j n]|] eqn:Em; [|done].
    apply first_min_Some in Em as [Hin _]. apply elem_of_hash_starts in Hin as (p & Hp & Hf & _).
    specialize (H p Hp). by rewrite contains_find, Hf in H.
Qed.

(** The prefixes are not empty and hold no bracket, and the replacement text
    holds no prefix. *)
Lemma prefix_facts p :
  p ∈ MODULAR_PASSWORD_HASH_PREFIXES →
  p ≠ "" ∧ "["%char ∉ bytes p ∧ "]"%char ∉ bytes p ∧ contains p "redacted" = false.
Proof.
  assert (forallb (λ p, negb (is_empty p) && negb (existsb (Ascii.eqb "[") (bytes p))
    && negb (existsb (Ascii.eqb "]") (bytes p)) && negb (contains p "redacted"))
    MODULAR_PASSWORD_HASH_PREFIXES = true) as Hall by by vm_compute.
  rewrite forallb_forall in Hall. intros Hp. apply list_elem_of_In in Hp.
  specialize (Hall p Hp). bool_prop.
  assert (∀ c, existsb (Ascii.eqb c) (bytes p) = false → c ∉ bytes p) as Hnot.
  { intros c Hc Hin. apply not_true_iff_false in Hc. apply Hc. apply existsb_exists. exists c.
    split; [by apply list_elem_of_In|apply Ascii.eqb_refl]. }
  split_and!; auto. intros ->. done.
Qed.

Lemma no_hash_redacted x y : no_hash x → no_hash y → no_hash (x +:+ REDACTION +:+ y).
Proof.
  intros Hx Hy p Hp. destruct (prefix_facts p Hp) as (Hne & Hl & Hr & Hin).
  rewrite !lower_app.
  change (to_ascii_lowercase REDACTION +:+ to_ascii_lowercase y)
    with (String "[" ("redacted" +:+ String "]" (to_ascii_lowercase y))).
  by rewrite !contains_app_sep, Hx, Hin, Hy.
Qed.

Lemma next_hash_before text i j :
  next_modular_password_hash text = Some (i, j) → no_hash (str_to i text) ∧ (i < j)%nat ∧ text ≠ "".
Proof.
  unfold next_modular_password_hash. destruct (first_min _) as [[k n]|] eqn:Em; [|done].
  intros [= <- <-]. apply first_min_Some in Em as [Hin Hmin].
  apply elem_of_hash_starts in Hin as (p & Hp & Hf & ->). destruct (prefix_facts p Hp) as [Hne _].
  split_and!.
  - intros q Hq. rewrite lower_str_to. destruct (contains q _) eqn:E; [exfalso|done].
    apply contains_str_to in E as (m & Hm & Hle).
    assert ((m, String.length q) ∈ hash_starts text) as Hin by (apply elem_of_hash_starts; eauto).
    specialize (Hmin _ Hin). simpl in Hmin. destruct (prefix_facts q Hq) as [Hq' _].
    destruct q; [done|]. simpl in *. lia.
  - destruct p; [done|]. simpl. lia.
  - intros ->. by destruct p.
Qed.

Lemma redact_hashes_clean fuel s :
  (String.length s ≤ fuel)%nat → no_hash (redact_loop next_modular_password_hash fuel s).
Proof.
  revert s. induction fuel as [|fuel IH]; intros s Hs; simpl.
  - destruct s; [|simpl in Hs; lia]. apply contains_hash_false. by vm_compute.
  - destruct (next_modular_password_hash s) as [[i j]|] eqn:E.
    + apply next_hash_before in E as (Hi & Hij & Hne). apply no_hash_redacted; [done|].
      apply IH. rewrite length_str_from. destruct s; simpl in *; [done|lia].
    + apply contains_hash_false. unfold contains_modular_password_hash. by rewrite E.
Qed.

(** Whatever a build or a command printed, what is kept of it holds no
    modular password hash: the scanner that guards stored documents finds none
    in a redacted text. *)
Theorem redacted_text_has_no_hash text :
  contains_modular_password_hash (redact_sensitive_key_values text) = false.
Proof. apply contains_hash_false. by apply redact_hashes_clean. Qed.

(** ** Every loop ends *)

Lemma quoted_end_ge quote escaped cs offset n :
  quoted_end quote escaped cs offset = Some n → (offset ≤ n)%nat.
Proof.
  revert escaped offset. induction cs as [|c cs IH]; intros escaped offset; simpl; [done|].
  destruct escaped; [intros H%IH; lia|]. case_bool_decide; [intros H1%IH; lia|].
  case_bool_decide; [intros [= <-]; lia|intros H1%IH; lia].
Qed.

Lemma sensitive_value_end_pos text start :
  text ≠ "" → (1 ≤ start)%nat → (1 ≤ sensitive_value_end text start)%nat.
Proof.
  intros Ht Hs. assert (1 ≤ String.length text)%nat by (destruct text; simpl; [done|lia]).
  unfold sensitive_value_end. destruct (chars _) as [|first rest]; [done|].
  destruct (_ || _).
  - destruct first as [|quote [|]]; [done| |done].
    destruct (quoted_end _ _ _ _) as [n|] eqn:E; simpl; [|done]. apply quoted_end_ge in E. lia.
  - destruct (find_in_chars _ _); lia.
Qed.

Lemma find_nonempty p s i : p ≠ "" → find p s = Some i → s ≠ "".
Proof. intros Hp H ->. by destruct p. Qed.

Lemma lower_empty s : to_ascii_lowercase s ≠ "" → s ≠ "".
Proof. by intros H ->. Qed.

(** Cutting the start off a text that is not empty shortens it below any bound
    on its length. *)
Lemma str_from_shorter n s m :
  s ≠ "" → (1 ≤ n)%nat → (String.length s ≤ S m)%nat → (String.length (str_from n s) ≤ m)%nat.
Proof. rewrite length_str_from. destruct s; simpl; [done|lia]. Qed.

Lemma bearer_loop_fuel n m s :
  (String.length s ≤ n)%nat → (String.length s ≤ m)%nat → bearer_loop n s = bearer_loop m s.
Proof.
  revert m s. induction n as [|n IH]; intros m s Hn Hm.
  - destruct s; [|simpl in Hn; lia]. by destruct m.
  - destruct m as [|m]; [destruct s; [done|simpl in Hm; lia]|]. cbn [bearer_loop].
    destruct (find _ _) as [i|] eqn:E; [|done]. case_bool_decide; [done|].
    apply find_nonempty, lower_empty in E; [|done].
    assert (1 ≤ sensitive_value_end s (i + String.length "bearer "))%nat.
    { apply sensitive_value_end_pos; [done|simpl; lia]. }
    rewrite (IH m); [done|by apply str_from_shorter..].
Qed.

Lemma userinfo_loop_fuel n m s :
  (String.length s ≤ n)%nat → (String.length s ≤ m)%nat → userinfo_loop n s = userinfo_loop m s.
Proof.
  revert m s. induction n as [|n IH]; intros m s Hn Hm.
  - destruct s; [|simpl in Hn; lia]. by destruct m.
  - destruct m as [|m]; [destruct s; [done|simpl in Hm; lia]|]. cbn [userinfo_loop].
    destruct (find _ _) as [i|] eqn:E; [|done]. apply find_nonempty in E; [|done].
    assert (String.length (str_from (i + 3) s) ≤ n)%nat by (apply str_from_shorter; [done|lia|done]).
    assert (String.length (str_from (i + 3) s) ≤ m)%nat by (apply str_from_shorter; [done|lia|done]).
    destruct (rfind _ _) as [k|]; f_equal; [do 2 f_equal|]; apply IH; try done;
      rewrite length_str_from; lia.
Qed.

(** The loops of the redaction end: each of them gives the same text with
    any number of rounds that is at least the length of the text, so none is
    cut short. *)
Theorem redaction_terminates text rounds :
  (String.length text ≤ rounds)%nat →
  redact_loop next_sensitive_assignment rounds text = redact_assignments text ∧
  redact_loop next_sensitive_quoted_key_value rounds text = redact_quoted_key_values text ∧
  redact_loop next_modular_password_hash rounds text = redact_modular_password_hashes text ∧
  bearer_loop rounds text = redact_bearer_values text ∧
  userinfo_loop rounds text = redact_url_userinfo text.
Proof.
  intros Hr. split_and!.
  - by apply redact_loop_fuel; [apply next_sensitive_assignment_advances|].
  - by apply redact_loop_fuel; [apply next_sensitive_quoted_advances|].
  - apply redact_loop_fuel; [|done]. intros s i j H. by apply next_hash_before in H as (_ & ? & ?).
  - by apply bearer_loop_fuel.
  - by apply userinfo_loop_fuel.
Qed.

Lemma redaction_terminates_witness :
  redact_loop next_sensitive_assignment 100 "token=abc x" = "token=[REDACTED] x".
Proof.
  destruct (redaction_terminates "token=abc x" 100) as [H _]; [simpl; lia|].
  rewrite H. vm_compute. reflexivity.
Defined.

(** A bearer value behind an empty one is kept: the loop gives up on the rest
    of the text when nothing follows the word before the next separator. *)
Example later_bearer_value_is_kept :
  redact_sensitive_key_values "Authorization: Bearer  opaque-token" =
    "Authorization: Bearer  opaque-token" ∧
  redact_sensitive_key_values "bearer , then bearer opaque-token" =
    "bearer , then bearer opaque-token" ∧
  redact_sensitive_key_values "then bearer opaque-token" = "then bearer [REDACTED]".
Proof. by vm_compute. Qed.
