(* ===== verification/NixSource.v ===== *)
(** * Accounts in Nix modules

    The lexer and the account checks of [src/protected_material.rs]: which
    generated Nix modules may own [users.users], and the exact overlay an
    installer target has to carry.  serde_json's codec of strings is an
    argument. *)

From stdpp Require Import base gmap list strings.
From Stdlib Require Import Ascii ZArith Lia.
From S2P Require Import Prelude RustStr RustText DbText ProtectedText.

#[local] Open Scope Z_scope.

Record InstallerTargetLocalAccount := {
  acc_username : string;
  acc_display_name : string;
  acc_groups : list string;
  acc_password_secret_ref : string;
}.

(** ** Tokens *)

Inductive NixTokenKind :=
| Identifier (value : string) | QuotedString (value : string)
| Dot | Equals | Dollar | LeftBrace | RightBrace | Other.
#[global] Instance token_kind_eq_dec : EqDecision NixTokenKind.
Proof. solve_decision. Defined.

Record NixToken := { tok_kind : NixTokenKind; tok_start : nat }.

(** The inner loops of the lexer: each answers what is left of the input. *)
Fixpoint skip_line (l : list ascii) : list ascii :=
  match l with
  | [] => []
  | a :: l' => if Ascii.eqb a "010" then l else skip_line l'
  end.

Fixpoint skip_comment (depth : nat) (l : list ascii) : option (list ascii) :=
  match depth, l with
  | O, _ => Some l
  | S _, [] => None
  | S d, a :: l1 =>
      match l1 with
      | b :: l2 =>
          if Ascii.eqb a "/" && Ascii.eqb b "*" then skip_comment (S depth) l2
          else if Ascii.eqb a "*" && Ascii.eqb b "/" then skip_comment d l2
          else skip_comment depth l1
      | [] => None
      end
  end.

Fixpoint skip_indented (l : list ascii) : option (list ascii) :=
  match l with
  | [] => None
  | a :: l1 =>
      match l1 with
      | b :: l2 =>
          if Ascii.eqb a squote && Ascii.eqb b squote then
            match l2 with
            | c :: l3 => if Ascii.eqb c squote then skip_indented l3 else Some l2
            | [] => Some l2
            end
          else skip_indented l1
      | [] => None
      end
  end.

(** The literal that starts at a quote (the quote is consumed): its bytes,
    last first, and the rest.  At the end of the input what was read counts as
    a literal when it ends in a quote. *)
Fixpoint scan_string (escaped : bool) (read l : list ascii) : option (list ascii * list ascii) :=
  match l with
  | [] => match read with a :: _ => if Ascii.eqb a dquote then Some (read, []) else None | [] => None end
  | a :: l =>
      if Ascii.eqb a dquote && negb escaped then Some (a :: read, l)
      else if Ascii.eqb a "\" && negb escaped then scan_string true (a :: read) l
      else scan_string false (a :: read) l
  end.

Definition is_alpha (a : ascii) : bool := is_lower a || is_upper a.
Definition identifier_byte (a : ascii) : bool := is_alnum a || byte_in "_-'" a.

Definition punctuation (a : ascii) : NixTokenKind :=
  if Ascii.eqb a "." then Dot
  else if Ascii.eqb a "=" then Equals
  else if Ascii.eqb a "$" then Dollar
  else if Ascii.eqb a "{" then LeftBrace
  else if Ascii.eqb a "}" then RightBrace
  else Other.

Section Nix.
Context (json_string_from_str : string → option string) (json_string : string → string).

(** The outer loop; a round consumes at least one byte, so the length of the
    input is fuel enough ([tokens_loop_fuel]). *)
Fixpoint tokens_loop (fuel index : nat) (l : list ascii) : option (list NixToken) :=
  match l with
  | [] => Some []
  | a :: l1 =>
      match fuel with
      | O => None
      | S fuel =>
          let continue rest := tokens_loop fuel (index + (length l - length rest)) rest in
          let second c := match l1 with b :: _ => Ascii.eqb b c | [] => false end in
          if is_ascii_whitespace a then continue l1
          else if Ascii.eqb a "#" then continue (skip_line l1)
          else if Ascii.eqb a "/" && second "*"%char then
            rest ← skip_comment 1 (tail l1); continue rest
          else if Ascii.eqb a squote && second squote then
            rest ← skip_indented (tail l1); continue rest
          else if Ascii.eqb a dquote then
            '(read, rest) ← scan_string false [a] l1;
            value ← json_string_from_str (of_bytes (rev read));
            tokens ← continue rest;
            Some ({| tok_kind := QuotedString value; tok_start := index |} :: tokens)
          else if is_alpha a || Ascii.eqb a "_" then
            let name := a :: take_while identifier_byte l1 in
            tokens ← continue (drop (length name) l);
            Some ({| tok_kind := Identifier (of_bytes name); tok_start := index |} :: tokens)
          else
            tokens ← continue l1;
            Some ({| tok_kind := punctuation a; tok_start := index |} :: tokens)
      end
  end.

Definition nix_tokens (source : string) : option (list NixToken) :=
  tokens_loop (String.length source) 0 (bytes source).

Definition nix_offset_is_code (source : string) (offset : nat) : bool :=
  match nix_tokens source with
  | Some tokens => existsb (λ t, Nat.eqb (tok_start t) offset) tokens
  | None => false
  end.

(** ** Attribute paths *)

Definition kind_at (tokens : list NixToken) (i : nat) : option NixTokenKind :=
  tok_kind <$> tokens !! i.
Definition is_kind (k : NixTokenKind) (o : option NixTokenKind) : bool := bool_decide (o = Some k).

(** The name of an identifier or a string. *)
Definition named (o : option NixTokenKind) : option string :=
  match o with Some (Identifier v | QuotedString v) => Some v | _ => None end.

Definition is_literal_users_users_root (tokens : list NixToken) (index : nat) : bool :=
  bool_decide (named (kind_at tokens index) = Some "users")
  && is_kind Dot (kind_at tokens (index + 1))
  && bool_decide (named (kind_at tokens (index + 2)) = Some "users").

Definition previous (tokens : list NixToken) (index : nat) : option NixTokenKind :=
  match index with O => None | S i => kind_at tokens i end.

Definition nix_token_is_attribute_segment (tokens : list NixToken) (index : nat) : bool :=
  is_kind Dot (previous tokens index)
  || is_kind Dot (kind_at tokens (index + 1))
  || (is_kind Equals (kind_at tokens (index + 1))
      && negb (is_kind Equals (kind_at tokens (index + 2)))
      && negb (is_kind Equals (previous tokens index))).

(** What is left of the tokens behind the brace that closes [depth] others. *)
Fixpoint close_braces (depth : nat) (tokens : list NixToken) : option (list NixToken) :=
  match depth with
  | O => Some tokens
  | S d =>
      match tokens with
      | [] => None
      | t :: tokens =>
          match tok_kind t with
          | LeftBrace => close_braces (S depth) tokens
          | RightBrace => close_braces d tokens
          | _ => close_braces depth tokens
          end
      end
  end.

(** The tokens of a path: neither braces nor anything else. *)
Fixpoint path_tokens (tokens : list NixToken) : list NixToken :=
  match tokens with
  | [] => []
  | t :: tokens =>
      match tok_kind t with
      | Other | LeftBrace | RightBrace => []
      | _ => t :: path_tokens tokens
      end
  end.

Definition dynamic_users_path_may_override_accounts (tokens : list NixToken) (index : nat) : bool :=
  if negb (is_kind Dollar (kind_at tokens index))
     || negb (is_kind LeftBrace (kind_at tokens (index + 1))) then false else
  match close_braces 1 (drop (index + 2) tokens) with
  | None => true
  | Some rest =>
      if is_kind Dot (kind_at rest 0) || is_kind Equals (kind_at rest 0)
      then existsb (λ t, bool_decide (tok_kind t = Equals)) (path_tokens (take 32 rest))
      else false
  end.

(** ** Modules that may not own accounts *)

Definition DANGEROUS_CONSTRUCTORS : list string :=
  ["listToAttrs"; "setAttrByPath"; "recursiveUpdate"; "mapAttrs"; "mapAttrs'"; "genAttrs";
   "nameValuePair"; "mkMerge"; "scopedImport"; "fromJSON"; "fromTOML"; "removeAttrs";
   "filterAttrs"].
Definition ACCOUNT_NAMES : list string := ["users"; "extraUsers"; "imports"; "import"; "inherit"].
Definition METAPROGRAMMING : list string :=
  ["imports"; "import"; "inherit"; "listToAttrs"; "setAttrByPath"; "recursiveUpdate"; "mapAttrs";
   "mapAttrs'"; "genAttrs"; "nameValuePair"; "mkMerge"; "scopedImport"; "fromJSON"; "fromTOML";
   "removeAttrs"; "filterAttrs"; "extraUsers"].

(** Some token, with its index, satisfies [f]. *)
Definition any_token (f : nat → NixToken → bool) (tokens : list NixToken) : bool :=
  existsb (λ it, f it.1 it.2) (imap (λ i t, (i, t)) tokens).

Definition nix_module_may_define_users (source : string) : bool :=
  match nix_tokens source with
  | None => true
  | Some tokens =>
      any_token (λ index token,
        match tok_kind token with
        | Identifier value =>
            bool_decide (value ∈ ACCOUNT_NAMES) || bool_decide (value ∈ DANGEROUS_CONSTRUCTORS)
        | QuotedString value =>
            nix_token_is_attribute_segment tokens index
            && (contains "${" value || bool_decide (value ∈ ACCOUNT_NAMES)
                || bool_decide (value ∈ DANGEROUS_CONSTRUCTORS))
        | Dollar => dynamic_users_path_may_override_accounts tokens index
        | _ => false
        end) tokens
  end.

Definition nix_blueprint_uses_account_metaprogramming (source : string) : bool :=
  match nix_tokens source with
  | None => true
  | Some tokens =>
      any_token (λ index token,
        match tok_kind token with
        | Identifier value => bool_decide (value ∈ METAPROGRAMMING)
        | QuotedString value =>
            nix_token_is_attribute_segment tokens index
            && (contains "${" value || bool_decide (value ∈ METAPROGRAMMING))
        | _ => false
        end) tokens
  end.

(** ** The shape of a blueprint module *)

(** The index of the token that closes the body, found while every
    [users.users] lies directly in it. *)
Fixpoint body_close (tokens : list NixToken) (body_index index depth : nat) (l : list NixToken)
    : option nat :=
  match l with
  | [] => None
  | t :: l =>
      if (body_index <? index)%nat && is_literal_users_users_root tokens index
         && negb (Nat.eqb depth 1) then None else
      match tok_kind t with
      | LeftBrace => body_close tokens body_index (S index) (S depth) l
      | RightBrace =>
          match depth with
          | O => None
          | S O => Some index
          | S d => body_close tokens body_index (S index) d l
          end
      | _ => body_close tokens body_index (S index) depth l
      end
  end.

Definition body_offset (source : string) : option nat :=
  if starts_with ("{ config, pkgs, lib, ... }:" +:+ nl +:+ "let" +:+ nl) source then
    let marker := nl +:+ "in" +:+ nl +:+ "{" +:+ nl in
    if negb (Nat.eqb (matches marker source) 1) then None
    else Some (default 0%nat (find marker source) + 4)%nat
  else if starts_with ("{ ... }:" +:+ nl +:+ "{" +:+ nl) source then Some 9%nat
  else None.

(** The first token that is a brace at [offset]. *)
Fixpoint brace_index (offset index : nat) (tokens : list NixToken) : option nat :=
  match tokens with
  | [] => None
  | t :: tokens =>
      if Nat.eqb (tok_start t) offset && bool_decide (tok_kind t = LeftBrace) then Some index
      else brace_index offset (S index) tokens
  end.

Definition nix_module_returns_literal_attrset_with_direct_user_assignments (source : string) : bool :=
  match offset ← body_offset source;
        tokens ← nix_tokens source;
        body_index ← brace_index offset 0 tokens;
        Some (tokens, body_index) with
  | None => false
  | Some (tokens, body_index) =>
      if existsb (λ t, bool_decide (tok_kind t = Identifier "let")
                       || bool_decide (tok_kind t = Identifier "in")) (drop (body_index + 1) tokens)
      then false else
      if existsb (is_literal_users_users_root tokens) (seq 0 body_index) then false else
      bool_decide (body_close tokens body_index body_index 0 (drop body_index tokens)
                   = Some (length tokens - 1)%nat)
      && ends_with ("}" +:+ nl) source
  end.

(** ** The two accounts of the appliance *)

Definition TIARIS_ADMIN_ACCOUNT_PREFIX : string := "  users.users.tiaris-admin = {" +:+ nl.
Definition TIARIS_KIOSK_ACCOUNT_PREFIX : string := "  users.users.tiaris-kiosk = {" +:+ nl.

(** A text with its apostrophes as double quotes. *)
Definition quoted_text (s : string) : string := replace_byte squote dquote s.

Definition canonical_public_ssh_key_line (line : string) : bool :=
  match v ← strip_prefix ("      " +:+ dq) line; strip_suffix dq v with
  | None => false
  | Some key =>
      match split_whitespace key with
      | [key_type; material] =>
          (bool_decide (key_type ∈ ["ssh-ed25519"; "ssh-rsa"])
           || starts_with "ecdsa-sha2-" key_type || starts_with "sk-ssh-" key_type)
          && (len material <=? 8192) && negb (is_empty material)
          && negb (len material mod 4 =? 1)
          && all_bytes (λ a, is_alnum a || byte_in "+/" a) (trim_end_byte "=" material)
          && match strip_prefix (trim_end_byte "=" material) material with
             | Some padding => (len padding <=? 2) && all_bytes (Ascii.eqb "=") padding
             | None => false
             end
      | _ => false
      end
  end.

(** The block after [prefix], up to the line that closes it. *)
Definition account_block (prefix source : string) : option string :=
  '(_, rest) ← split_once_str prefix source;
  '(block, _) ← split_once_str ("  };" +:+ nl) rest;
  Some block.

Definition admin_block_is_canonical (block : string) : bool :=
  match lines block with
  | normal :: description :: groups :: password :: more =>
      bool_decide (normal = "    isNormalUser = true;")
      && bool_decide (description = quoted_text
           "    description = 'Tiaris break-glass administrator';")
      && bool_decide (groups ∈ quoted_text <$>
           ["    extraGroups = [ 'wheel' 'networkmanager' 'video' 'audio' ];";
            "    extraGroups = [ 'wheel' 'networkmanager' 'video' 'audio' ] ++ [ 'docker' ];";
            "    extraGroups = [ 'wheel' 'video' 'audio' ];";
            "    extraGroups = [ 'wheel' 'video' 'audio' ] ++ [ 'docker' ];"])
      && bool_decide (password = quoted_text "    hashedPassword = '!';")
      && match more with
         | [] => true
         | first :: keys =>
             bool_decide (first = "    openssh.authorizedKeys.keys = [")
             && bool_decide (last more = Some "    ];")
             && forallb canonical_public_ssh_key_line (removelast keys)
         end
  | _ => false
  end.

Definition kiosk_block (groups : string) : string :=
  quoted_text ("    isNormalUser = true;" +:+ nl
    +:+ "    description = 'Tiaris kiosk session';" +:+ nl
    +:+ "    extraGroups = [ " +:+ groups +:+ " ];" +:+ nl
    +:+ "    hashedPassword = '!';" +:+ nl).

Definition reserved_account_blocks_are_canonical (source : string) : bool :=
  let admin_count := matches TIARIS_ADMIN_ACCOUNT_PREFIX source in
  let kiosk_count := matches TIARIS_KIOSK_ACCOUNT_PREFIX source in
  if (1 <? admin_count)%nat || (1 <? kiosk_count)%nat then false else
  (if Nat.eqb admin_count 1 then
     match account_block TIARIS_ADMIN_ACCOUNT_PREFIX source with
     | Some block => admin_block_is_canonical block
     | None => false
     end
   else true)
  && (if Nat.eqb kiosk_count 1 then
        match account_block TIARIS_KIOSK_ACCOUNT_PREFIX source with
        | Some block =>
            bool_decide (block = kiosk_block "'networkmanager' 'video' 'audio'")
            || bool_decide (block = kiosk_block "'video' 'audio'")
        | None => false
        end
      else true).

(** ** The accounts a module assigns *)

(** Where the source has the canonical assignment of a reserved account. *)
Definition reserved_offset (attribute source : string) : option nat :=
  if bool_decide (attribute = "tiaris-admin") then
    (Nat.add 2) <$> find TIARIS_ADMIN_ACCOUNT_PREFIX source
  else if bool_decide (attribute = "tiaris-kiosk") then
    (Nat.add 2) <$> find TIARIS_KIOSK_ACCOUNT_PREFIX source
  else None.

(** The loop over the tokens; [l] is what is left of them.  [observed] counts
    the assignments to the expected accounts, [reserved] those to the two of
    the appliance. *)
Fixpoint assignments_exact (source : string) (tokens : list NixToken) (index : nat)
    (l : list NixToken) (observed reserved : gmap string nat) : bool :=
  match l with
  | [] => bool_decide (map_Forall (λ _ n, n = 1%nat) observed)
  | token :: l =>
      let continue := assignments_exact source tokens (S index) l observed reserved in
      match tok_kind token with
      | Dollar => if dynamic_users_path_may_override_accounts tokens index then false else continue
      | Identifier first | QuotedString first =>
          if bool_decide (first = "users") && is_kind Equals (kind_at tokens (index + 1))
          then false else
          if negb (is_literal_users_users_root tokens index) then continue else
          match kind_at tokens (index + 3) with
          | Some Equals => false
          | Some Dot =>
              match kind_at tokens (index + 4) with
              | None | Some Dollar => false
              | Some (Identifier attribute | QuotedString attribute) =>
                  if contains "${" attribute then false else
                  let assigned := is_kind Equals (kind_at tokens (index + 5)) in
                  match observed !! attribute with
                  | Some count =>
                      if assigned
                      then assignments_exact source tokens (S index) l
                             (<[attribute := S count]> observed) reserved
                      else false
                  | None =>
                      match reserved !! attribute with
                      | Some count =>
                          if assigned
                             && bool_decide (reserved_offset attribute source
                                             = Some (tok_start token))
                             && Nat.eqb count 0
                          then assignments_exact source tokens (S index) l observed
                                 (<[attribute := S count]> reserved)
                          else false
                      | None => false
                      end
                  end
              | Some _ => continue
              end
          | _ => continue
          end
      | _ => continue
      end
  end.

Definition nix_user_assignment_contract_is_exact (source : string)
    (accounts : list InstallerTargetLocalAccount) : bool :=
  match nix_tokens source with
  | None => false
  | Some tokens =>
      assignments_exact source tokens 0 tokens
        (list_to_map ((λ a, (acc_username a, 0%nat)) <$> accounts))
        (list_to_map [("tiaris-admin", 0%nat); ("tiaris-kiosk", 0%nat)])
  end.

(** ** The overlay of an installer target *)

Definition account_overlay (account : InstallerTargetLocalAccount) : string :=
  "  users.users." +:+ json_string (acc_username account) +:+ " = {" +:+ nl
  +:+ "    isNormalUser = true;" +:+ nl
  +:+ "    description = " +:+ json_string (acc_display_name account) +:+ ";" +:+ nl
  +:+ "    extraGroups = ["
  +:+ foldr (λ group rest, " " +:+ json_string group +:+ rest) "" (acc_groups account)
  +:+ " ];" +:+ nl
  +:+ "    hashedPasswordFile = " +:+ dq +:+ TIARIS_LOCAL_ACCOUNT_SECRET_PREFIX
  +:+ acc_password_secret_ref account +:+ dq +:+ ";" +:+ nl
  +:+ "  };" +:+ nl.

Definition expected_overlay (accounts : list InstallerTargetLocalAccount) : string :=
  "  # Dynamic local-account profile overlay" +:+ nl
  +:+ foldr (λ account rest, account_overlay account +:+ rest) "" accounts.

Definition installer_target_generated_nix_has_exact_account_overlay (generated_nix : string)
    (accounts : list InstallerTargetLocalAccount) : bool :=
  if negb (reserved_account_blocks_are_canonical generated_nix)
     || nix_blueprint_uses_account_metaprogramming generated_nix
     || negb (nix_module_returns_literal_attrset_with_direct_user_assignments generated_nix)
  then false else
  match accounts with
  | [] =>
      negb (contains TIARIS_LOCAL_ACCOUNT_SECRET_PREFIX generated_nix)
      && nix_user_assignment_contract_is_exact generated_nix accounts
  | _ =>
      let overlay := expected_overlay accounts in
      match find overlay generated_nix with
      | None => false
      | Some overlay_offset =>
          Nat.eqb (matches overlay generated_nix) 1
          && nix_offset_is_code generated_nix
               (overlay_offset + default 0%nat (find "users.users" overlay))
          && Nat.eqb (matches TIARIS_LOCAL_ACCOUNT_SECRET_PREFIX generated_nix) (length accounts)
          && nix_user_assignment_contract_is_exact generated_nix accounts
      end
  end.

End Nix.
