(* ===== verification/Assets.v ===== *)
(** * Serving files

    [src/assets.rs] and [src/routes/files.rs]: the static, boot and binary cache
    routes.  The file system is a tree with symbolic links; [walk] is the
    kernel's path resolution, [lstat], [canonicalize] and [open_nofollow] what
    [std::fs] makes of it.  One request sees one tree.  A path is the list of
    its parts from the root of the tree; the text of a link is split as the
    kernel does.  [mime_guess] is an argument. *)

From stdpp Require Import base gmap list strings.
From Stdlib Require Import Ascii ZArith Lia.
From S2P Require Import Prelude RustStr DbText.

#[local] Open Scope Z_scope.
#[local] Open Scope nest_scope.

(** ** The file system *)

Inductive node :=
| Regular (contents : string)
| Directory (entries : list (string * node))
| Symlink (target : string)
| Special.

Inductive IoError := IoNotFound | IoNotADirectory | IoLoop.

Fixpoint child (entries : list (string * node)) (name : string) : option node :=
  match entries with
  | [] => None
  | (n, x) :: entries => if bool_decide (n = name) then Some x else child entries name
  end.

(** The node at a path that has no links, [.] or [..]. *)
Fixpoint node_at (t : node) (path : list string) : option node :=
  match path, t with
  | [], _ => Some t
  | name :: path, Directory entries => x ← child entries name; node_at x path
  | _ :: _, _ => None
  end.

Definition link_parts (target : string) : list string :=
  List.filter (λ p, negb (bool_decide (p = "") || bool_decide (p = "."))) (split "/" target).

(** Resolves [todo] from the directory [cur], following at most [links] links;
    the answer is the path without links. *)
Fixpoint walk (links : nat) (t : node) : list string → list string → result IoError (list string) :=
  fix go (cur todo : list string) :=
    match todo with
    | [] => Ok cur
    | name :: todo =>
        match node_at t cur with
        | Some (Directory entries) =>
            if bool_decide (name = "..") then go (removelast cur) todo else
            match child entries name with
            | None => Err IoNotFound
            | Some (Symlink target) =>
                match links with
                | O => Err IoLoop
                | S links =>
                    walk links t (if is_absolute target then [] else cur)
                      (link_parts target ++ todo)
                end
            | Some _ => go (cur ++ [name]) todo
            end
        | Some _ => Err IoNotADirectory
        | None => Err IoNotFound
        end
    end.

(** Linux follows at most 40 links in one resolution. *)
Definition MAXSYMLINKS : nat := 40.

Definition canonicalize (t : node) (path : list string) : result IoError (list string) :=
  walk MAXSYMLINKS t [] path.

(** The entry [name] of the directory [dir], itself not followed. *)
Definition entry_at (t : node) (dir : list string) (name : string) : result IoError node :=
  match node_at t dir with
  | Some (Directory entries) => ok_or IoNotFound (child entries name)
  | Some _ => Err IoNotADirectory
  | None => Err IoNotFound
  end.

(** [symlink_metadata] of [dir/name]. *)
Definition lstat (t : node) (dir : list string) (name : string) : result IoError node :=
  d ≔ canonicalize t dir ?; entry_at t d name.

(** [open] with [O_NOFOLLOW] of a canonical path; a link is [ELOOP]. *)
Definition open_nofollow (t : node) (path : list string) : result IoError node :=
  match node_at t path with
  | Some (Symlink _) => Err IoLoop
  | Some x => Ok x
  | None => Err IoNotFound
  end.

(** ** Ranges *)

(** The text as a [u64]. *)
Definition parse_u64 (s : string) : result unit Z := ok_or tt (parse_unsigned u64_max s).

Definition parse_byte_range (range : option string) (file_len : Z)
    : result unit (option (Z * Z)) :=
  match range with
  | None => Ok None
  | Some range =>
      let range := trim range in
      if is_empty range then Ok None else
      match strip_prefix "bytes=" range with
      | None => Err tt
      | Some spec =>
          if contains "," spec || (file_len =? 0) then Err tt else
          match split_once "-" spec with
          | None => Err tt
          | Some (start, end_) =>
              let start := trim start in
              let end_ := trim end_ in
              if is_empty start then
                suffix_len ≔ parse_u64 end_ ?;
                if suffix_len =? 0 then Err tt else
                Ok (Some (sat_sub file_len suffix_len, file_len - 1))
              else
                start ≔ parse_u64 start ?;
                if file_len <=? start then Err tt else
                end_ ≔ (if is_empty end_ then Ok (file_len - 1)
                        else e ≔ parse_u64 end_ ?; Ok (Z.min e (file_len - 1))) ?;
                if end_ <? start then Err tt else Ok (Some (start, end_))
          end
      end
  end.

(** ** Responses *)

Record Response := {
  rsp_status : Z;
  rsp_content_type : option string;
  rsp_content_range : option string;
  rsp_content_length : option string;
  rsp_cache_control : option string;
  rsp_body : string;
}.

Definition range_not_satisfiable_response (file_len : Z) : Response := {|
  rsp_status := 416; rsp_content_type := None;
  rsp_content_range := Some ("bytes */" +:+ show file_len);
  rsp_content_length := None; rsp_cache_control := None; rsp_body := "" |}.

(** The file from [start], at most [length] bytes of it ([seek], [take]). *)
Definition slice (contents : string) (start length : Z) : string :=
  of_bytes (take (Z.to_nat length) (drop (Z.to_nat start) (bytes contents))).

Section Assets.
Context (mime_guess : string → string).

(** [NotFound] and other errors of the file system, as the sources map them. *)
Definition io_error (e : IoError) : AppError :=
  match e with IoNotFound => NotFound | _ => Io end.

Definition map_err {E F A} (f : E → F) (r : result E A) : result F A :=
  match r with Ok a => Ok a | Err e => Err (f e) end.

(** [reject_symlink_components]: [parts] are the components below [current]. *)
Fixpoint reject_symlink_components (t : node) (current parts : list string) : AppResult unit :=
  match parts with
  | [] => Ok tt
  | part :: parts =>
      metadata ≔ map_err io_error (lstat t current part) ?;
      match metadata with
      | Symlink _ => Err UnsafePath
      | _ => reject_symlink_components t (current ++ [part]) parts
      end
  end.

Definition open_regular_file_no_symlink (t : node) (path : list string) : AppResult node :=
  map_err (λ e, match e with IoLoop => UnsafePath | IoNotFound => NotFound | _ => Io end)
    (open_nofollow t path).

(** The answer to a request for an open file. *)
Definition file_response (path : list string) (contents : string) (range : option string)
    : Response :=
  let file_len := len contents in
  let content_type := mime_guess (join "/" path) in
  match parse_byte_range range file_len with
  | Ok (Some (start, end_)) =>
      let length := end_ - start + 1 in
      {| rsp_status := 206; rsp_content_type := Some content_type;
         rsp_content_range :=
           Some ("bytes " +:+ show start +:+ "-" +:+ show end_ +:+ "/" +:+ show file_len);
         rsp_content_length := Some (show length); rsp_cache_control := None;
         rsp_body := slice contents start length |}
  | Ok None =>
      {| rsp_status := 200; rsp_content_type := Some content_type; rsp_content_range := None;
         rsp_content_length := Some (show file_len); rsp_cache_control := None;
         rsp_body := contents |}
  | Err _ => range_not_satisfiable_response file_len
  end.

Definition serve_file_from_root (t : node) (root : list string) (requested_path : string)
    (range : option string) : AppResult Response :=
  safe_path ≔ sanitize_relative_path requested_path ?;
  _x ≔ reject_symlink_components t root safe_path ?;
  root_canonical ≔ map_err (λ _, Io) (canonicalize t root) ?;
  full_canonical ≔ map_err io_error (canonicalize t (root ++ safe_path)) ?;
  if negb (bool_decide (root_canonical `prefix_of` full_canonical)) then Err UnsafePath else
  file ≔ open_regular_file_no_symlink t full_canonical ?;
  match file with
  | Regular contents => Ok (file_response full_canonical contents range)
  | _ => Err NotFound
  end.

(** ** The binary cache *)

Definition NIX_BASE32_ALPHABET : string := "0123456789abcdfghijklmnpqrsvwxyz".
Definition NAR_COMPRESSION_SUFFIXES : list string :=
  [".xz"; ".bz2"; ".zst"; ".gz"; ".lzip"; ".lz4"; ".br"].

Definition valid_nix_base32 (value : string) (expected_len : Z) : bool :=
  (len value =? expected_len) && all_bytes (byte_in NIX_BASE32_ALPHABET) value.

Fixpoint find_map {A B} (f : A → option B) (l : list A) : option B :=
  match l with
  | [] => None
  | x :: l => match f x with Some y => Some y | None => find_map f l end
  end.

Definition nar_member_hash (filename : string) : option string :=
  match strip_suffix ".nar" filename with
  | Some hash => Some hash
  | None =>
      find_map (λ compression,
        value ← strip_suffix compression filename; strip_suffix ".nar" value)
        NAR_COMPRESSION_SUFFIXES
  end.

Definition valid_nar_member_filename (filename : string) : bool :=
  match nar_member_hash filename with
  | None => false
  | Some without_nar => valid_nix_base32 without_nar 52
  end.

Definition is_binary_cache_member_path (requested_path : string) : bool :=
  if negb (bool_decide (trim requested_path = requested_path))
     || contains "//" requested_path || negb (is_ok (sanitize_relative_path requested_path))
  then false else
  match split "/" requested_path with
  | [filename] =>
      bool_decide (filename = "nix-cache-info")
      || match strip_suffix ".narinfo" filename with
         | Some hash => valid_nix_base32 hash 32
         | None => false
         end
  | [dir; filename] => bool_decide (dir = "nar") && valid_nar_member_filename filename
  | _ => false
  end.

Definition binary_cache_member_cache_control (requested_path : string) : string :=
  if starts_with "nar/" requested_path then "public, max-age=31536000, immutable"
  else "public, max-age=60".

Definition with_cache_control (value : string) (r : Response) : Response := {|
  rsp_status := rsp_status r; rsp_content_type := rsp_content_type r;
  rsp_content_range := rsp_content_range r; rsp_content_length := rsp_content_length r;
  rsp_cache_control := Some value; rsp_body := rsp_body r |}.

Definition serve_binary_cache_member_from_root (t : node) (root : list string)
    (requested_path : string) (range : option string) : AppResult Response :=
  if negb (is_binary_cache_member_path requested_path) then Err NotFound else
  response ≔ serve_file_from_root t root requested_path range ?;
  Ok (with_cache_control (binary_cache_member_cache_control requested_path) response).

(** ** The routes *)

Definition is_reserved_boot_namespace (path : string) : bool :=
  match split "/" (trim_start_byte "/" path) with
  | first :: _ => bool_decide (first = "netboot") || bool_decide (first = "netboot-quarantine")
  | [] => false
  end.

Definition boot_file (t : node) (boot_assets_dir : list string) (path : string)
    (range : option string) : AppResult Response :=
  if is_reserved_boot_namespace path then Err NotFound else
  serve_file_from_root t boot_assets_dir path range.

Definition static_file (t : node) (static_dir : list string) (path : string)
    (range : option string) : AppResult Response :=
  serve_file_from_root t static_dir path range.

End Assets.
