(* ===== verification/AssetsProofs.v ===== *)
(** * Serving files: theorems

    A request can only reach regular files below the directory it is served
    from, and what it is sent is the part of the file it asked for. *)

From stdpp Require Import base gmap list strings.
From Stdlib Require Import Ascii ZArith Lia.
From S2P Require Import Prelude RustStr DbText DbTextProofs Assets.

#[local] Open Scope Z_scope.
#[local] Open Scope nest_scope.

(** ** Path resolution *)

Lemma walk_nil n t cur : walk n t cur [] = Ok cur.
Proof. by destruct n. Qed.

Lemma walk_cons n t cur name todo :
  walk n t cur (name :: todo) =
  match node_at t cur with
  | Some (Directory entries) =>
      if bool_decide (name = "..") then walk n t (removelast cur) todo else
      match child entries name with
      | None => Err IoNotFound
      | Some (Symlink target) =>
          match n with
          | O => Err IoLoop
          | S n => walk n t (if is_absolute target then [] else cur) (link_parts target ++ todo)
          end
      | Some _ => walk n t (cur ++ [name]) todo
      end
  | Some _ => Err IoNotADirectory
  | None => Err IoNotFound
  end.
Proof. by destruct n. Qed.

(** The cases of one step of a resolution that succeeds. *)
Lemma walk_step n t cur name todo d :
  walk n t cur (name :: todo) = Ok d →
  ∃ entries, node_at t cur = Some (Directory entries) ∧
    ((name = ".." ∧ walk n t (removelast cur) todo = Ok d) ∨
     (name ≠ ".." ∧ ∃ x, child entries name = Some x ∧
       ((∀ target, x ≠ Symlink target) ∧ walk n t (cur ++ [name]) todo = Ok d ∨
        ∃ target m, x = Symlink target ∧ n = S m ∧
          walk m t (if is_absolute target then [] else cur) (link_parts target ++ todo) = Ok d))).
Proof.
  rewrite walk_cons. destruct (node_at t cur) as [[| entries | |]|]; try done.
  intros H. exists entries. split; [done|]. case_bool_decide; [by left|right].
  split; [done|]. destruct (child entries name) as [x|]; [|done]. exists x. split; [done|].
  destruct x; [by left|by left|right|by left]. destruct n; [done|]. eauto.
Qed.

(** Resolution is sequential: a prefix that resolves to [d] leaves the rest to
    be resolved from [d], with what remains of the links. *)
Lemma walk_app links t cur a b d e :
  walk links t cur a = Ok d → (∀ n, walk n t d b = Ok e) → walk links t cur (a ++ b) = Ok e.
Proof.
  intros H Hb. revert cur a H. induction links as [links IHl] using lt_wf_ind.
  intros cur a. revert cur. induction a as [|name a IH]; intros cur H.
  { rewrite walk_nil in H. injection H as <-. apply Hb. }
  apply walk_step in H as (entries & Hn & Hcase). cbn [app]. rewrite walk_cons, Hn.
  destruct Hcase as [[-> H]|(Hname & x & Hx & [[Hreal H]|(target & m & -> & -> & H)])].
  - rewrite bool_decide_true by done. auto.
  - rewrite bool_decide_false, Hx by done. destruct x; naive_solver.
  - rewrite bool_decide_false, Hx by done. rewrite app_assoc. auto with lia.
Qed.

(** One step below a directory, along an entry that is not a link. *)
Definition real_entry (t : node) (dir : list string) (name : string) : Prop :=
  name ≠ ".." ∧ ∃ entries x, node_at t dir = Some (Directory entries) ∧
    child entries name = Some x ∧ ∀ target, x ≠ Symlink target.

Lemma walk_real n t dir name :
  real_entry t dir name → walk n t dir [name] = Ok (dir ++ [name]).
Proof.
  intros (Hname & entries & x & Hdir & Hx & Hreal).
  rewrite walk_cons, Hdir, bool_decide_false, Hx by done. rewrite walk_nil.
  destruct x; naive_solver.
Qed.

Lemma canonicalize_real t p d name :
  canonicalize t p = Ok d → real_entry t d name →
  canonicalize t (p ++ [name]) = Ok (d ++ [name]).
Proof. intros Hd Hr. eapply walk_app; [exact Hd|]. intros n. by apply walk_real. Qed.

Lemma node_at_app t p q : node_at t (p ++ q) = x ← node_at t p; node_at x q.
Proof.
  revert t. induction p as [|name p IH]; intros t; simpl; [done|].
  destruct t; try done. destruct (child _ _); simpl; [apply IH|done].
Qed.

(** ** The link check *)

(** The parts the sanitizer answers are names. *)
Lemma sanitized_parts input parts :
  sanitize_relative_path input = Ok parts → parts ≠ [] ∧ Forall (λ p, p ≠ "..") parts.
Proof.
  unfold sanitize_relative_path. destruct (_ || _); [done|]. destruct (is_empty _); [done|].
  destruct (normal_parts _) as [[|p ps]|] eqn:H; [done| |done]. intros [= <-].
  apply normal_parts_spec in H. split; [done|]. apply Forall_forall. intros part Hin.
  apply (components_normal (trim input)). rewrite H. by apply (list_elem_of_fmap_2 Normal).
Qed.

(** The check passes exactly when the parts are real entries of the resolved
    root, one below the other. *)
Fixpoint real_path (t : node) (dir parts : list string) : Prop :=
  match parts with
  | [] => True
  | name :: parts => real_entry t dir name ∧ real_path t (dir ++ [name]) parts
  end.

Lemma lstat_ok t p d name :
  canonicalize t p = Ok d → lstat t p name = entry_at t d name.
Proof. unfold lstat. by intros ->. Qed.

Lemma reject_symlinks_real t root d parts :
  Forall (λ p, p ≠ "..") parts → canonicalize t root = Ok d →
  reject_symlink_components t root parts = Ok tt ↔ real_path t d parts.
Proof.
  intros Hparts. revert root d. induction Hparts as [|name parts Hname Hparts IH];
    intros root d Hd; simpl; [done|].
  rewrite (lstat_ok _ _ _ _ Hd). unfold entry_at, real_entry.
  destruct (node_at t d) as [[| entries | |]|] eqn:Hn; simpl;
    try (split; [done|intros ((_ & ? & ? & [=] & _) & _)]).
  destruct (child entries name) as [x|] eqn:Hx; simpl.
  2: { split; [done|]. intros ((_ & ? & ? & [= <-] & Hx' & _) & _). congruence. }
  assert ((∃ target, x = Symlink target) ∨ (∀ target, x ≠ Symlink target)) as [[target ->]|Hlink].
  { destruct x; eauto; by right. }
  { split; [done|]. intros ((_ & ? & ? & [= <-] & Hx' & Hl) & _).
    rewrite Hx in Hx'. injection Hx' as <-. by destruct (Hl target). }
  assert (real_entry t d name) as Hreal.
  { split; [done|]. by exists entries, x. }
  pose proof (canonicalize_real _ _ _ _ Hd Hreal) as Hd'.
  assert (∀ A (a b : A), match x with Symlink _ => a | _ => b end = b) as Hm.
  { intros A a b. destruct x; try done. by edestruct Hlink. }
  rewrite Hm, (IH _ _ Hd'). split; [|by intros [_ ?]].
  intros Hp. split; [|done]. split; [done|]. by exists entries, x.
Qed.

(** The parts of a real path name the node below the resolved root. *)
Lemma real_path_node t d parts x :
  Forall (λ p, p ≠ "..") parts → node_at t (d ++ parts) = Some x →
  parts ≠ [] → (∀ target, x ≠ Symlink target) → real_path t d parts.
Proof.
  intros Hparts. revert d. induction Hparts as [|name parts Hname Hparts IH]; intros d Hx Hne Hl;
    [done|].
  replace (d ++ name :: parts) with ((d ++ [name]) ++ parts) in Hx by by rewrite <- app_assoc.
  assert (∃ entries y, node_at t d = Some (Directory entries) ∧ child entries name = Some y ∧
    node_at y parts = Some x) as (entries & y & Hd & Hy & Hpx).
  { rewrite !node_at_app in Hx. destruct (node_at t d) as [[|entries| |]|]; try done.
    simpl in Hx. destruct (child entries name) as [y|] eqn:Hy; [|done]. by exists entries, y. }
  cbn [real_path]. split.
  - split; [done|]. exists entries, y. split_and!; [done..|]. intros target ->.
    destruct parts; simpl in Hpx; [|done]. injection Hpx as <-. by eapply Hl.
  - destruct parts as [|q parts]; [done|]. by apply IH.
Qed.

Lemma canonicalize_real_path t root d parts :
  canonicalize t root = Ok d → real_path t d parts → canonicalize t (root ++ parts) = Ok (d ++ parts).
Proof.
  revert root d. induction parts as [|name parts IH]; intros root d Hd Hp.
  - by rewrite !app_nil_r.
  - destruct Hp as [Hr Hp]. rewrite (cons_middle name root), (cons_middle name d), !app_assoc.
    apply IH; [by apply canonicalize_real|done].
Qed.

(** A response is only given for a request whose root resolves: the first link
    check fails otherwise. *)
Lemma reject_needs_root t root parts :
  parts ≠ [] → reject_symlink_components t root parts = Ok tt →
  ∃ d, canonicalize t root = Ok d.
Proof.
  destruct parts as [|name parts]; [done|]. intros _. simpl. unfold lstat.
  destruct (canonicalize t root) as [d|e]; [eauto|done].
Qed.

(** ** Ranges *)

Lemma parse_unsigned_nonneg max s z : parse_unsigned max s = Some z → 0 ≤ z.
Proof.
  assert (∀ l acc, 0 ≤ acc → parse_digits max acc l = Some z → 0 ≤ z) as Hd.
  { induction l as [|c l IH]; intros acc Hacc; simpl; [by intros [= <-]|].
    destruct (is_digit c) eqn:Hc; [|done]. destruct (_ <=? _); [|done]. apply IH.
    unfold is_digit in Hc. apply in_range_true in Hc. lia. }
  unfold parse_unsigned. destruct (bytes s) as [|c l]; [done|].
  destruct (Ascii.eqb c "+"); [|by apply Hd]. destruct l; [done|]. by apply Hd.
Qed.

Lemma parse_byte_range_inside range n first last :
  0 ≤ n → parse_byte_range range n = Ok (Some (first, last)) → 0 ≤ first ≤ last ∧ last < n.
Proof.
  intros Hn. unfold parse_byte_range, parse_u64, sat_sub. destruct range as [range|]; [|done].
  destruct (is_empty _); [done|]. destruct (strip_prefix _ _) as [spec|]; [|done].
  destruct (_ || _) eqn:Hc; [done|]. bool_prop.
  destruct (split_once _ _) as [[a b]|]; [|done]. destruct (is_empty (trim a)).
  - destruct (parse_unsigned _ _) as [k|] eqn:Hk; [|done]. apply parse_unsigned_nonneg in Hk.
    simpl. case_match; [done|]. intros [= <- <-]. bool_prop. lia.
  - destruct (parse_unsigned u64_max (trim a)) as [k|] eqn:Hk; [|done].
    apply parse_unsigned_nonneg in Hk. simpl. case_match; [done|]. bool_prop.
    destruct (is_empty (trim b)); simpl.
    + case_match; [done|]. intros [= <- <-]. bool_prop. lia.
    + destruct (parse_unsigned _ (trim b)) as [e|]; [|done]. simpl.
      case_match; [done|]. intros [= <- <-]. bool_prop. lia.
Qed.

Lemma len_slice contents first last :
  0 ≤ first ≤ last → last < len contents →
  len (slice contents first (last - first + 1)) = last - first + 1.
Proof.
  intros ? Hl. unfold slice. rewrite len_bytes in *. rewrite bytes_of_bytes, length_take, length_drop.
  lia.
Qed.

Lemma lookup_slice contents first k i :
  (i < Z.to_nat k)%nat →
  bytes (slice contents first k) !! i = bytes contents !! (Z.to_nat first + i)%nat.
Proof. intros Hi. unfold slice. by rewrite bytes_of_bytes, lookup_take_lt, lookup_drop. Qed.

Lemma trim_digits s : all_bytes is_digit s = true → trim s = s.
Proof. intros H. apply trim_graphic. eapply all_bytes_impl; [|exact H]. auto using alnum_graphic, digit_is_alnum. Qed.

Lemma contains_byte c s : contains (String c "") s = any_byte (Ascii.eqb c) s.
Proof.
  induction s as [|a s IH]; [done|]. cbn [contains]. rewrite IH. unfold starts_with, any_byte. simpl.
  by destruct (Ascii.eqb c a).
Qed.

Lemma split_once_app c x y :
  any_byte (Ascii.eqb c) x = false → split_once c (x +:+ String c y) = Some (x, y).
Proof.
  unfold any_byte. induction x as [|a x IH]; intros H.
  - change ("" +:+ String c y) with (String c y). cbn [split_once]. by rewrite Ascii.eqb_refl.
  - rewrite str_app_cons. cbn [split_once]. simpl in H. apply orb_false_iff in H as [Ha Hx]. rewrite Ascii.eqb_sym in Ha. rewrite Ha.
    by rewrite (IH Hx).
Qed.

Lemma digits_no_byte c s :
  is_digit c = false → all_bytes is_digit s = true → any_byte (Ascii.eqb c) s = false.
Proof.
  intros Hc Hs. apply not_true_iff_false. unfold any_byte. rewrite existsb_exists.
  intros (a & Hin & <-%Ascii.eqb_eq). rewrite all_bytes_forall in Hs. by rewrite Hs in Hc.
Qed.

Lemma any_byte_app p s t : any_byte p (s +:+ t) = any_byte p s || any_byte p t.
Proof. unfold any_byte. by rewrite bytes_app, existsb_app. Qed.

(** How a header of two decimal numbers is taken apart. *)
Lemma parse_byte_range_shape x y n :
  all_bytes is_digit x = true → all_bytes is_digit y = true →
  parse_byte_range (Some ("bytes=" +:+ x +:+ "-" +:+ y)) n =
  if n =? 0 then Err tt else
  if is_empty (trim x) then
    k ≔ parse_u64 (trim y) ?;
    if k =? 0 then Err tt else Ok (Some (sat_sub n k, n - 1))
  else
    k ≔ parse_u64 (trim x) ?;
    if n <=? k then Err tt else
    e ≔ (if is_empty (trim y) then Ok (n - 1)
         else e ≔ parse_u64 (trim y) ?; Ok (Z.min e (n - 1))) ?;
    if e <? k then Err tt else Ok (Some (k, e)).
Proof.
  intros Hx Hy. unfold parse_byte_range.
  assert (∀ s, all_bytes is_digit s = true → all_bytes graphic s = true) as Hg.
  { intros s. apply all_bytes_impl. auto using alnum_graphic, digit_is_alnum. }
  rewrite trim_graphic by (rewrite !all_bytes_app, (Hg x), (Hg y) by done; done).
  change (is_empty ("bytes=" +:+ x +:+ "-" +:+ y)) with false. cbn iota.
  rewrite (proj2 (strip_prefix_Some "bytes=" _ (x +:+ "-" +:+ y)) eq_refl).
  rewrite contains_byte, !any_byte_app, (digits_no_byte "," x), (digits_no_byte "," y) by done.
  change (x +:+ "-" +:+ y) with (x +:+ String "-" y).
  rewrite split_once_app by by apply digits_no_byte. done.
Qed.

Section Theorems.
Context (mime_guess : string → string).

Lemma served_below_root t root path range response :
  serve_file_from_root mime_guess t root path range = Ok response ↔
  ∃ parts d contents,
    sanitize_relative_path path = Ok parts ∧ canonicalize t root = Ok d ∧
    node_at t (d ++ parts) = Some (Regular contents) ∧
    response = file_response mime_guess (d ++ parts) contents range.
Proof.
  unfold serve_file_from_root. split.
  - destruct (sanitize_relative_path path) as [parts|e] eqn:Hs; [|done]. simpl.
    destruct (sanitized_parts _ _ Hs) as [Hne Hparts].
    destruct (reject_symlink_components t root parts) as [[]|e] eqn:Hrej; [|done]. simpl.
    destruct (reject_needs_root _ _ _ Hne Hrej) as [d Hd]. rewrite Hd. simpl.
    apply (reject_symlinks_real _ _ _ _ Hparts Hd) in Hrej.
    rewrite (canonicalize_real_path _ _ _ _ Hd Hrej). simpl.
    destruct (negb _); [done|]. unfold open_regular_file_no_symlink, open_nofollow.
    destruct (node_at t (d ++ parts)) as [[]|] eqn:Hn; simpl; try done.
    intros [= <-]. eauto 10.
  - intros (parts & d & contents & Hs & Hd & Hn & ->). rewrite Hs. simpl.
    destruct (sanitized_parts _ _ Hs) as [Hne Hparts].
    assert (real_path t d parts) as Hreal by by eapply real_path_node.
    rewrite (proj2 (reject_symlinks_real _ _ _ _ Hparts Hd) Hreal), Hd. simpl.
    rewrite (canonicalize_real_path _ _ _ _ Hd Hreal). simpl.
    rewrite bool_decide_true by by apply prefix_app_r. simpl.
    unfold open_regular_file_no_symlink, open_nofollow. by rewrite Hn.
Qed.

(** C39. A file request is answered exactly when its path, read as plain names
    below the resolved root directory, leads through directories and no link to
    a regular file; the answer is made from that file.  Every other request is
    refused, so no request reaches a file outside the directory. *)
Theorem served_exactly_below_root t root path range response :
  serve_file_from_root mime_guess t root path range = Ok response ↔
  ∃ parts d contents,
    sanitize_relative_path path = Ok parts ∧ canonicalize t root = Ok d ∧
    node_at t (d ++ parts) = Some (Regular contents) ∧
    response = file_response mime_guess (d ++ parts) contents range.
Proof. apply served_below_root. Qed.

(** What a response carries: the whole file with its length; or, for a
    range, the bytes [first] to [last] of the file, in order, with their number
    as [Content-Length] and the range and the size of the file as
    [Content-Range]; or, when the range cannot be satisfied, nothing. *)
Theorem response_is_the_requested_part path contents range :
  let r := file_response mime_guess path contents range in
  (rsp_status r = 200 ∧ rsp_body r = contents ∧ rsp_content_range r = None ∧
   rsp_content_length r = Some (show (len contents))) ∨
  (rsp_status r = 206 ∧ ∃ first last, 0 ≤ first ≤ last ∧ last < len contents ∧
   len (rsp_body r) = last - first + 1 ∧
   (∀ i, (i < Z.to_nat (last - first + 1))%nat →
      bytes (rsp_body r) !! i = bytes contents !! (Z.to_nat first + i)%nat) ∧
   rsp_content_length r = Some (show (len (rsp_body r))) ∧
   rsp_content_range r = Some ("bytes " +:+ show first +:+ "-" +:+ show last +:+ "/"
                               +:+ show (len contents))) ∨
  (rsp_status r = 416 ∧ rsp_body r = "" ∧ rsp_content_length r = None).
Proof.
  unfold file_response.
  destruct (parse_byte_range range (len contents)) as [[[first last]|]|[]] eqn:Hp; simpl;
    [|by left|by right; right].
  right; left. split; [done|]. apply parse_byte_range_inside in Hp as [Hle Hlt]; [|apply len_nonneg].
  exists first, last. rewrite len_slice by lia. split_and!; try done; try lia.
  intros i Hi. by apply lookup_slice.
Qed.

End Theorems.

(** The three forms of a range mean what HTTP says: [bytes=a-b] is the
    bytes from [a] to [b] or the end of the file, [bytes=a-] everything from
    [a], [bytes=-a] the last [a] bytes or the whole file; a range that starts
    behind the end, ends before its start or asks for nothing is refused. *)
Theorem byte_range_forms file_len a b :
  0 ≤ a ≤ u64_max → 0 ≤ b ≤ u64_max → 0 ≤ file_len →
  parse_byte_range (Some ("bytes=" +:+ show a +:+ "-" +:+ show b)) file_len =
    (if (a <? file_len) && (a <=? b) then Ok (Some (a, Z.min b (file_len - 1))) else Err tt) ∧
  parse_byte_range (Some ("bytes=" +:+ show a +:+ "-")) file_len =
    (if a <? file_len then Ok (Some (a, file_len - 1)) else Err tt) ∧
  parse_byte_range (Some ("bytes=-" +:+ show a)) file_len =
    (if (0 <? a) && (0 <? file_len) then Ok (Some (Z.max 0 (file_len - a), file_len - 1))
     else Err tt).
Proof.
  intros Ha Hb Hlen. destruct (show_digits a ltac:(lia)) as [Hda Hna].
  destruct (show_digits b ltac:(lia)) as [Hdb Hnb].
  change ("bytes=-" +:+ show a) with ("bytes=" +:+ "" +:+ "-" +:+ show a).
  replace ("bytes=" +:+ show a +:+ "-") with ("bytes=" +:+ show a +:+ "-" +:+ "")
    by by rewrite str_app_nil_r.
  rewrite !parse_byte_range_shape by done. rewrite !trim_digits by done.
  rewrite (is_empty_false (show a)), (is_empty_false (show b)) by done.
  unfold parse_u64. rewrite !parse_unsigned_show by lia. simpl. unfold sat_sub.
  split_and!; repeat (case_match; bool_prop; try done; try lia); repeat f_equal; lia.
Qed.

(** ** A concrete tree *)

Module AssetsDemo.

(** [/srv/link] is a link to [/srv/assets], which holds a loader, a link out of
    it and a workstation kernel under the protected name [netboot]. *)
Definition tree : node :=
  Directory
    [("srv", Directory
       [("assets", Directory
          [("ipxe.efi", Regular "loader");
           ("passwd", Symlink "/etc/passwd");
           ("netboot", Directory [("bundle", Directory [("bzImage", Regular "kernel")])])]);
        ("link", Symlink "assets")]);
     ("etc", Directory [("passwd", Regular "secret")])].
Definition root : list string := ["srv"; "link"].
Definition mime (_ : string) : string := "application/octet-stream".

Lemma served_exactly_below_root_witness :
  ∃ r, serve_file_from_root mime tree root " ipxe.efi" None = Ok r ∧ rsp_body r = "loader".
Proof.
  eexists. split.
  - apply (served_exactly_below_root mime tree root " ipxe.efi" None).
    exists ["ipxe.efi"], ["srv"; "assets"], "loader". split_and!; by vm_compute.
  - reflexivity.
Defined.

Lemma response_is_the_requested_part_witness :
  len (rsp_body (file_response mime [] "loader" (Some "bytes=1-3"))) = 3.
Proof.
  destruct (response_is_the_requested_part mime [] "loader" (Some "bytes=1-3"))
    as [(H & _)|[(_ & first & last & _ & _ & Hlen & _)|(H & _)]];
    [vm_compute in H; discriminate H| |vm_compute in H; discriminate H].
  reflexivity.
Defined.

Lemma byte_range_forms_witness :
  parse_byte_range (Some ("bytes=" +:+ show 1 +:+ "-" +:+ show 9)) 6 = Ok (Some (1, 5)).
Proof.
  destruct (byte_range_forms 6 1 9) as [H _]; [unfold u64_max; lia..|]. exact H.
Defined.

(** Links and parent directories are refused. *)
Example escapes_refused :
  serve_file_from_root mime tree root "passwd" None = Err UnsafePath ∧
  serve_file_from_root mime tree root "../../etc/passwd" None = Err UnsafePath.
Proof. by vm_compute. Qed.

(** The route for boot files refuses the protected trees by the first part of
    the requested path, but serves the path after trimming white space: a
    request that starts with a space reaches the files the check protects. *)
Theorem reserved_namespace_is_reached :
  (∀ range, boot_file mime tree root "netboot/bundle/bzImage" range = Err NotFound) ∧
  ∃ r, boot_file mime tree root " netboot/bundle/bzImage" None = Ok r ∧
       rsp_status r = 200 ∧ rsp_body r = "kernel".
Proof.
  split; [intros range; reflexivity|]. eexists. split_and!; [vm_compute; reflexivity|done|done].
Qed.

End AssetsDemo.
