(* ===== verification/NixBase32.v ===== *)
(** * Hash notations of Nix

    [parse_strong_sha256], [decode_nix_base32_sha256] and
    [encode_nix_base32_sha256] of [src/cache.rs]: a SHA-256 digest is read from
    SRI base64, hexadecimal or Nix's base32, which packs 256 bits into 52
    digits from the least significant end and must leave the four bits above
    them clear.  The codec is proved a bijection between digests and accepted
    texts.

    A digest ([[u8; 32]]) is a list of 32 bytes, each a [Z] below 256.  The
    standard base64 decoder is an argument. *)

From stdpp Require Import base list strings.
From Stdlib Require Import Ascii ZArith Lia.
From S2P Require Import Prelude RustStr Assets.

#[local] Open Scope Z_scope.
#[local] Open Scope nest_scope.

Abbreviation Digest := (list Z).

Definition is_byte (z : Z) : Prop := 0 ≤ z < 256.
Definition is_digest (d : Digest) : Prop := length d = 32%nat ∧ Forall is_byte d.

(** [iter().position(…)] over the alphabet. *)
Fixpoint position_in (l : list ascii) (a : ascii) : option nat :=
  match l with
  | [] => None
  | b :: l => if Ascii.eqb b a then Some 0%nat else S <$> position_in l a
  end.

Definition digit_value (a : ascii) : option Z :=
  Z.of_nat <$> position_in (bytes NIX_BASE32_ALPHABET) a.
Definition digit_char (v : Z) : ascii := nth (Z.to_nat v) (bytes NIX_BASE32_ALPHABET) "0"%char.

(** The array access [decoded[i]], in range where the code uses it, and
    [decoded[i] |= v]. *)
Definition byte_at (d : Digest) (i : nat) : Z := nth i d 0.
Definition or_at (i : nat) (v : Z) (d : Digest) : Digest := alter (λ b, Z.lor b v) i d.

(** One turn of the decoding loop. [u16] holds every shifted digit. *)
Definition decode_digit (position : nat) (a : ascii) (decoded : Digest) : result string Digest :=
  value ≔ ok_or "Nix base32 digest contained an invalid character" (digit_value a) ?;
  let bit := ((52 - 1 - position) * 5)%nat in
  let byte_index := (bit / 8)%nat in
  let shift := Z.of_nat (bit mod 8) in
  let shifted := Z.shiftl value shift in
  let decoded := or_at byte_index (Z.land shifted 255) decoded in
  if (S byte_index <? length decoded)%nat
  then Ok (or_at (S byte_index) (Z.land (Z.shiftr shifted 8) 255) decoded)
  else if 255 <? shifted then Err "Nix base32 digest had non-canonical high bits"
  else Ok decoded.

Fixpoint decode_digits (position : nat) (l : list ascii) (decoded : Digest)
    : result string Digest :=
  match l with
  | [] => Ok decoded
  | a :: l => decoded ≔ decode_digit position a decoded ?; decode_digits (S position) l decoded
  end.

Definition decode_nix_base32_sha256 (encoded : string) : result string Digest :=
  if negb (len encoded =? 52) then Err "SHA-256 Nix base32 digest must contain 52 characters"
  else decode_digits 0 (bytes encoded) (replicate 32 0).

(** The digit of [position], counted from the least significant end. *)
Definition encode_digit (digest : Digest) (position : nat) : ascii :=
  let bit := (position * 5)%nat in
  let byte_index := (bit / 8)%nat in
  let shift := Z.of_nat (bit mod 8) in
  let low := Z.shiftr (byte_at digest byte_index) shift in
  let value := if (S byte_index <? length digest)%nat
    then Z.lor low (Z.shiftl (byte_at digest (S byte_index)) (8 - shift)) else low in
  digit_char (Z.land value 31).

(** The loop writes [encoded[51 - position]] for every position. *)
Definition encode_nix_base32_sha256 (digest : Digest) : string :=
  of_bytes (reverse (encode_digit digest <$> seq 0 52)).

(** [hex::decode]: pairs of hexadecimal digits. *)
Definition hex_digit_value (a : ascii) : option Z :=
  if is_digit a then Some (byte a - 48)
  else if in_range 97 102 (byte a) then Some (byte a - 87)
  else if in_range 65 70 (byte a) then Some (byte a - 55) else None.

Fixpoint hex_decode (l : list ascii) : option (list Z) :=
  match l with
  | [] => Some []
  | a :: b :: l =>
      hi ← hex_digit_value a; lo ← hex_digit_value b; rest ← hex_decode l;
      Some (16 * hi + lo :: rest)
  | [_] => None
  end.

Definition hex_digit_char (z : Z) : ascii := char_of (if z <? 10 then z + 48 else z + 87).
Definition hex_encode (l : list Z) : string :=
  of_bytes (concat ((λ b, [hex_digit_char (b / 16); hex_digit_char (b mod 16)]) <$> l)).

Definition parse_strong_sha256 (base64_decode : string → option (list Z)) (value : string)
    : result string Digest :=
  decoded ≔ match strip_prefix "sha256-" value with
  | Some encoded => ok_or "NARInfo hash had invalid SRI base64" (base64_decode encoded)
  | None =>
      match strip_prefix "sha256:" value with
      | Some encoded =>
          if (len encoded =? 64) && all_bytes is_hexdigit encoded
          then ok_or "NARInfo hash had invalid hex" (hex_decode (bytes encoded))
          else decode_nix_base32_sha256 encoded
      | None => Err "NARInfo hash was not a strong SHA-256 hash"
      end
  end ?;
  if (length decoded =? 32)%nat then Ok decoded
  else Err "NARInfo hash did not contain a 256-bit digest".

(** ** Bits *)

(** Bit [k] of a byte array, least significant first. *)
Definition bit_at (d : Digest) (k : nat) : bool :=
  Z.testbit (byte_at d (k / 8)) (Z.of_nat (k mod 8)).

Lemma byte_testbit_high b j : is_byte b → 8 ≤ j → Z.testbit b j = false.
Proof.
  intros Hb Hj. destruct (decide (b = 0)) as [->|]; [by apply Z.testbit_0_l|].
  apply Z.bits_above_log2; [unfold is_byte in *; lia|].
  apply Z.log2_lt_pow2; [unfold is_byte in *; lia|].
  apply Z.lt_le_trans with (2 ^ 8); [unfold is_byte in *; lia|]. by apply Z.pow_le_mono_r.
Qed.

Lemma byte_at_is_byte d i : Forall is_byte d → is_byte (byte_at d i).
Proof.
  intros H. unfold byte_at. destruct (nth_in_or_default i d 0) as [Hin| ->];
    [|unfold is_byte; lia]. rewrite Forall_forall in H. apply H. by apply list_elem_of_In.
Qed.

Lemma is_byte_bits b : 0 ≤ b → (∀ j, 8 ≤ j → Z.testbit b j = false) → is_byte b.
Proof.
  intros Hb H. split; [done|]. destruct (decide (b = 0)) as [->|]; [lia|].
  change 256 with (2 ^ 8). apply Z.log2_lt_pow2; [lia|].
  destruct (decide (8 ≤ Z.log2 b)) as [Hl|]; [|lia].
  specialize (H _ Hl). rewrite Z.bit_log2 in H by lia. done.
Qed.

(** Two digests with the same 256 bits are equal. *)
Lemma digest_ext d e :
  is_digest d → is_digest e → (∀ k, (k < 256)%nat → bit_at d k = bit_at e k) → d = e.
Proof.
  intros [Hd Hdb] [He Heb] H. apply nth_ext with 0 0; [congruence|].
  intros i Hi. fold (byte_at d i) (byte_at e i). apply Z.bits_inj'. intros j Hj.
  destruct (decide (8 ≤ j)).
  - by rewrite !byte_testbit_high by eauto using byte_at_is_byte.
  - specialize (H (i * 8 + Z.to_nat j)%nat ltac:(lia)). unfold bit_at in H.
    rewrite Nat.div_add_l, Nat.div_small, Nat.add_0_r in H by lia.
    rewrite (Nat.add_comm (i * 8)), Nat.Div0.mod_add, Nat.mod_small in H by lia.
    by rewrite Z2Nat.id in H.
Qed.

Lemma byte_at_or_at i v d k :
  (i < length d)%nat →
  byte_at (or_at i v d) k = if decide (k = i) then Z.lor (byte_at d k) v else byte_at d k.
Proof.
  intros Hi. unfold byte_at, or_at. rewrite !nth_lookup.
  case_decide as Hk; subst.
  - rewrite list_lookup_alter_eq. by destruct (lookup_lt_is_Some_2 d i Hi) as [x ->].
  - by rewrite list_lookup_alter_ne by done.
Qed.

Lemma or_at_is_byte i v d : Forall is_byte d → is_byte v → Forall is_byte (or_at i v d).
Proof.
  intros Hd Hv. unfold or_at. apply Forall_lookup. intros k x Hk.
  destruct (decide (i = k)) as [->|]; [|rewrite list_lookup_alter_ne in Hk by done;
    by eapply Forall_lookup in Hk].
  rewrite list_lookup_alter_eq in Hk. destruct (d !! k) as [y|] eqn:E; [|done].
  injection Hk as <-. apply Forall_lookup_1 with (i := k) (x := y) in Hd; [|done].
  apply is_byte_bits; [apply Z.lor_nonneg; unfold is_byte in *; lia|].
  intros j Hj. rewrite Z.lor_spec, !byte_testbit_high by done. done.
Qed.

(** ** Digits *)

Lemma position_in_spec l a n : NoDup l → position_in l a = Some n ↔ l !! n = Some a.
Proof.
  intros Hl. revert n. induction Hl as [|b l Hb Hl IH]; intros n; [done|]. simpl.
  destruct (Ascii.eqb_spec b a) as [->|Hne].
  - destruct n as [|n]; simpl; [done|]. split; [done|]. intros Hn.
    apply list_elem_of_lookup_2 in Hn. done.
  - destruct n as [|n]; simpl.
    + split; [|naive_solver]. by destruct (position_in l a).
    + rewrite <-IH. destruct (position_in l a); naive_solver.
Qed.

Lemma alphabet_NoDup : NoDup (bytes NIX_BASE32_ALPHABET).
Proof. apply (bool_decide_unpack _). vm_compute. exact I. Qed.

Lemma digit_value_Some a v :
  digit_value a = Some v ↔ 0 ≤ v < 32 ∧ a = digit_char v.
Proof.
  unfold digit_value, digit_char. rewrite nth_lookup. split.
  - intros (n & Hn & ->)%fmap_Some.
    apply position_in_spec in Hn; [|apply alphabet_NoDup].
    rewrite Nat2Z.id, Hn. split; [|done].
    apply lookup_lt_Some in Hn. change (length _) with 32%nat in Hn. lia.
  - intros [Hv ->].
    assert (Z.to_nat v < length (bytes NIX_BASE32_ALPHABET))%nat as Hl
      by (change (length _) with 32%nat; lia).
    apply lookup_lt_is_Some in Hl as [b Hb]. rewrite Hb. cbn [from_option id].
    assert (position_in (bytes NIX_BASE32_ALPHABET) b = Some (Z.to_nat v)) as ->
      by (apply position_in_spec; [apply alphabet_NoDup|done]).
    simpl. by rewrite Z2Nat.id by lia.
Qed.

Lemma digit_testbit_high v j : 0 ≤ v < 32 → 5 ≤ j → Z.testbit v j = false.
Proof.
  intros Hv Hj. destruct (decide (v = 0)) as [->|]; [by apply Z.testbit_0_l|].
  apply Z.bits_above_log2; [lia|]. apply Z.log2_lt_pow2; [lia|].
  apply Z.lt_le_trans with (2 ^ 5); [lia|]. by apply Z.pow_le_mono_r.
Qed.

Lemma testbit_land_255 x j : 0 ≤ j < 8 → Z.testbit (Z.land x 255) j = Z.testbit x j.
Proof.
  intros Hj. rewrite Z.land_spec. change 255 with (Z.ones 8).
  by rewrite Z.ones_spec_low, andb_true_r by lia.
Qed.

Lemma land_255_is_byte x : is_byte (Z.land x 255).
Proof. change 255 with (Z.ones 8). rewrite Z.land_ones by lia. apply Z.mod_pos_bound. lia. Qed.

Lemma shifted_bound v s : 0 ≤ v < 32 → 0 ≤ s → (255 <? Z.shiftl v s) = (255 <? v * 2 ^ s).
Proof. intros. by rewrite Z.shiftl_mul_pow2. Qed.

(** The digit at [position] may be used: only the first has bits above 256. *)
Definition digit_fits (position : nat) (v : Z) : Prop := position = 0%nat → v < 2.

Lemma byte_split (k : nat) : ∃ q r, k = (q * 8 + r)%nat ∧ (r < 8)%nat ∧ (k / 8 = q)%nat ∧ (k mod 8 = r)%nat.
Proof.
  exists (k / 8)%nat, (k mod 8)%nat. pose proof (Nat.div_mod_eq k 8).
  pose proof (Nat.mod_upper_bound k 8). lia.
Qed.

Lemma or_at_bits i v d k :
  (i < length d)%nat → is_byte v →
  bit_at (or_at i v d) k
  = bit_at d k || (if decide (k / 8 = i)%nat then Z.testbit v (Z.of_nat (k mod 8)) else false).
Proof.
  intros Hi Hv. unfold bit_at. rewrite byte_at_or_at by done.
  case_decide; [by rewrite Z.lor_spec|by rewrite orb_false_r].
Qed.

Lemma decode_digit_spec position a d v :
  (position < 52)%nat → is_digest d → digit_value a = Some v →
  (digit_fits position v → ∃ d', decode_digit position a d = Ok d' ∧ is_digest d' ∧
    ∀ k, (k < 256)%nat → bit_at d' k
      = bit_at d k || Z.testbit v (Z.of_nat k - Z.of_nat ((51 - position) * 5))) ∧
  (¬ digit_fits position v → is_ok (decode_digit position a d) = false).
Proof.
  intros Hp [Hl Hb] Hv. pose proof (proj1 (proj1 (digit_value_Some _ _) Hv)) as Hv'.
  unfold decode_digit. rewrite Hv. cbn [ok_or rbind].
  change (52 - 1 - position)%nat with (51 - position)%nat.
  set (bit := ((51 - position) * 5)%nat).
  destruct (byte_split bit) as (bi & s & Hbit & Hs & -> & ->).
  assert (bi < 32)%nat as Hbi by lia.
  assert (length (or_at bi (Z.land (Z.shiftl v (Z.of_nat s)) 255) d) = 32%nat) as Hl1
    by (unfold or_at; by rewrite length_alter).
  assert (Forall is_byte (or_at bi (Z.land (Z.shiftl v (Z.of_nat s)) 255) d)) as Hb1
    by (apply or_at_is_byte; [done|apply land_255_is_byte]).
  rewrite Hl1. destruct (Nat.ltb_spec (S bi) 32) as [Hlt|Hge].
  - split; [|intros H; exfalso; apply H; intros ->; lia].
    intros _. eexists. split; [done|]. split; [split|].
    + unfold or_at at 1. by rewrite length_alter.
    + apply or_at_is_byte; [done|apply land_255_is_byte].
    + intros k Hk. rewrite !or_at_bits by (try apply land_255_is_byte; lia).
      destruct (byte_split k) as (q & r & -> & Hr & -> & ->).
      rewrite <-orb_assoc. f_equal.
      repeat case_decide; subst; try lia;
        rewrite ?testbit_land_255, ?Z.shiftr_spec, ?Z.shiftl_spec, ?orb_false_r, ?orb_false_l by lia;
        try (f_equal; lia).
      symmetry. destruct (decide (q < bi)%nat); [apply Z.testbit_neg_r; lia|].
      apply digit_testbit_high; [done|lia].
  - assert (bi = 31%nat) as -> by lia.
    rewrite shifted_bound by lia.
    assert (position = 0%nat ∧ s = 7%nat ∨ position = 1%nat ∧ s = 2%nat) as Hps by lia.
    split.
    + intros Hfit. assert ((255 <? v * 2 ^ Z.of_nat s) = false) as ->.
      { apply Z.ltb_ge. destruct Hps as [[-> ->]|[-> ->]]; [specialize (Hfit eq_refl)|];
          simpl; lia. }
      eexists. split; [done|]. split; [done|].
      intros k Hk. rewrite or_at_bits by (try apply land_255_is_byte; lia).
      destruct (byte_split k) as (q & r & -> & Hr & -> & ->). f_equal.
      case_decide; subst; [rewrite testbit_land_255, Z.shiftl_spec by lia; f_equal; lia|].
      symmetry. apply Z.testbit_neg_r. lia.
    + intros Hfit. destruct Hps as [[-> ->]|[-> ->]]; [|exfalso; apply Hfit; intros E1; lia].
      assert ((255 <? v * 2 ^ Z.of_nat 7) = true) as ->; [|done].
      apply Z.ltb_lt. assert (¬ v < 2) by (intros Hlt; apply Hfit; by intros _). simpl. lia.
Qed.

(** ** The two round trips *)

Lemma zero_digest : is_digest (replicate 32 0).
Proof. split; [done|]. apply Forall_replicate. unfold is_byte. lia. Qed.

Lemma bit_at_zero k : bit_at (replicate 32 0) k = false.
Proof.
  unfold bit_at, byte_at. rewrite nth_lookup.
  destruct (replicate 32 0 !! (k / 8)%nat) as [x|] eqn:E; [|apply Z.testbit_0_l].
  apply lookup_replicate in E as [-> _]. apply Z.testbit_0_l.
Qed.

(** The bit [k] a text of digits stands for, its first digit being number
    [position]. *)
Fixpoint text_bit (position : nat) (l : list ascii) (k : nat) : bool :=
  match l with
  | [] => false
  | a :: l =>
      match digit_value a with
      | Some v => Z.testbit v (Z.of_nat k - Z.of_nat ((51 - position) * 5))
      | None => false
      end || text_bit (S position) l k
  end.

Definition digits_fit (position : nat) (l : list ascii) : Prop :=
  ∀ i a, l !! i = Some a → ∃ v, digit_value a = Some v ∧ digit_fits (position + i) v.

Lemma decode_digits_spec position l d :
  (position + length l ≤ 52)%nat → is_digest d →
  (digits_fit position l → ∃ d', decode_digits position l d = Ok d' ∧ is_digest d' ∧
     ∀ k, (k < 256)%nat → bit_at d' k = bit_at d k || text_bit position l k) ∧
  (is_ok (decode_digits position l d) = true → digits_fit position l).
Proof.
  revert position d. induction l as [|a l IH]; intros position d Hp Hd; simpl in *.
  { split; [|by intros _ i b Hi]. intros _. exists d. split_and!; [done..|].
    intros. by rewrite orb_false_r. }
  split.
  - intros Hfit. destruct (Hfit 0%nat a eq_refl) as (v & Hv & Hf). rewrite Nat.add_0_r in Hf.
    destruct (proj1 (decode_digit_spec position a d v ltac:(lia) Hd Hv) Hf) as (d1 & -> & Hd1 & H1).
    destruct (IH (S position) d1 ltac:(lia) Hd1) as [IH1 _].
    destruct IH1 as (d' & Heq & Hd' & H').
    { intros i b Hi. rewrite Nat.add_succ_comm. by apply (Hfit (S i)). }
    exists d'. split_and!; [done..|]. intros k Hk. rewrite H', H1, Hv by done.
    by rewrite orb_assoc.
  - destruct (digit_value a) as [v|] eqn:Hv; [|by unfold decode_digit; rewrite Hv].
    destruct (decide (position = 0%nat → v < 2)) as [Hf|Hf].
    + destruct (proj1 (decode_digit_spec position a d v ltac:(lia) Hd Hv) Hf) as (d1 & -> & Hd1 & _).
      intros Hok. apply (IH (S position) d1) in Hok; [|lia|done].
      intros [|i] b Hi; simplify_eq/=; [exists v; by rewrite Nat.add_0_r|].
      rewrite <-Nat.add_succ_comm. by apply Hok.
    + by destruct (decode_digit position a d) eqn:E;
        [pose proof (proj2 (decode_digit_spec position a d v ltac:(lia) Hd Hv) Hf) as H;
         rewrite E in H|].
Qed.

(** Bit [5 p + j] of a text is bit [j] of its digit number [p] from the end. *)
Lemma text_bit_digit position l i a v j :
  (position + length l ≤ 52)%nat → digits_fit position l → l !! i = Some a →
  digit_value a = Some v → (j < 5)%nat →
  text_bit position l ((51 - (position + i)) * 5 + j) = Z.testbit v (Z.of_nat j).
Proof.
  revert position i. induction l as [|b l IH]; intros position i Hp Hfit Hi Hv Hj; [done|].
  simpl in Hp. simpl text_bit.
  destruct (Hfit 0%nat b eq_refl) as (w & Hw & _). rewrite Hw.
  assert (digits_fit (S position) l) as Hfit'.
  { intros n c Hn. rewrite Nat.add_succ_comm. by apply (Hfit (S n)). }
  pose proof (proj1 (proj1 (digit_value_Some _ _) Hw)) as Hwb.
  destruct i as [|i]; simplify_eq/=.
  - assert (text_bit (S position) l ((51 - (position + 0)) * 5 + j) = false) as ->.
    { clear IH Hfit. revert Hfit'. assert (S position + length l ≤ 52)%nat as Hl by lia.
      assert (position < S position)%nat as Hpos by lia. revert Hl Hpos.
      generalize (S position) as q. induction l as [|c l IHl]; intros q Hl Hpos Hfit'; [done|].
      simpl. destruct (Hfit' 0%nat c eq_refl) as (x & Hx & _). rewrite Hx.
      pose proof (proj1 (proj1 (digit_value_Some _ _) Hx)) as Hxb.
      rewrite (digit_testbit_high x) by (simpl in *; lia). simpl in *.
      apply IHl; [lia|lia|lia|]. intros n e Hn. rewrite Nat.add_succ_comm. by apply (Hfit' (S n)). }
    rewrite orb_false_r. f_equal. lia.
  - assert (i < length l)%nat by (by eapply lookup_lt_Some).
    rewrite Z.testbit_neg_r by lia. rewrite orb_false_l, <-Nat.add_succ_comm.
    apply IH; [lia|done..].
Qed.

(** What the encoder takes as the digit number [position]. *)
Lemma encode_digit_spec d position :
  is_digest d → (position < 52)%nat →
  ∃ v, digit_value (encode_digit d position) = Some v ∧ digit_fits (51 - position) v ∧
    ∀ j, (j < 5)%nat → Z.testbit v (Z.of_nat j)
      = bool_decide (position * 5 + j < 256)%nat && bit_at d (position * 5 + j).
Proof.
  intros [Hl Hb] Hp. unfold encode_digit. rewrite Hl. set (bit := (position * 5)%nat).
  destruct (byte_split bit) as (bi & s & Hbit & Hs & -> & ->).
  set (value := if (S bi <? 32)%nat
    then Z.lor (Z.shiftr (byte_at d bi) (Z.of_nat s))
           (Z.shiftl (byte_at d (S bi)) (8 - Z.of_nat s))
    else Z.shiftr (byte_at d bi) (Z.of_nat s)). exists (Z.land value 31).
  assert (0 ≤ Z.land value 31 < 32) as Hr.
  { change 31 with (Z.ones 5). rewrite Z.land_ones by lia. apply Z.mod_pos_bound. lia. }
  assert (∀ j, (j < 5)%nat → Z.testbit (Z.land value 31) (Z.of_nat j)
            = bool_decide (bit + j < 256)%nat && bit_at d (bit + j)) as Hbits.
  { intros j Hj. rewrite Z.land_spec. change 31 with (Z.ones 5).
    rewrite Z.ones_spec_low, andb_true_r by lia.
    unfold bit_at. destruct (byte_split (bit + j)) as (q & r & Hk & Hr' & -> & ->).
    pose proof (byte_at_is_byte d bi Hb). pose proof (byte_at_is_byte d (S bi) Hb).
    unfold value. destruct (Nat.ltb_spec (S bi) 32).
    - rewrite bool_decide_true by lia. simpl. rewrite Z.lor_spec, Z.shiftr_spec, Z.shiftl_spec by lia.
      assert (q = bi ∨ q = S bi) as [-> | ->] by lia.
      + rewrite (Z.testbit_neg_r (byte_at d (S bi))) by lia. rewrite orb_false_r. f_equal. lia.
      + rewrite (byte_testbit_high (byte_at d bi)) by (done || lia). rewrite orb_false_l. f_equal. lia.
    - rewrite Z.shiftr_spec by lia. case_bool_decide.
      + assert (q = bi) as -> by lia. simpl. f_equal. lia.
      + rewrite (byte_testbit_high (byte_at d bi)) by (done || lia). done. }
  split_and!; [by apply digit_value_Some| |done].
  intros Hpos. destruct (decide (Z.land value 31 = 0)) as [->|Hz]; [lia|].
  destruct (Z.le_gt_cases 1 (Z.log2 (Z.land value 31))) as [Hlog|Hlog];
    [|assert (Z.land value 31 < 2 ^ 1) by (apply Z.log2_lt_pow2; lia); lia].
  assert (Z.log2 (Z.land value 31) < 5) as Hlog' by (apply Z.log2_lt_pow2; lia).
  specialize (Hbits (Z.to_nat (Z.log2 (Z.land value 31))) ltac:(lia)).
  rewrite Z2Nat.id, Z.bit_log2, bool_decide_false in Hbits by lia. done.
Qed.

Lemma bytes_encode d i : (i < 52)%nat →
  bytes (encode_nix_base32_sha256 d) !! i = Some (encode_digit d (51 - i)).
Proof.
  intros Hi. unfold encode_nix_base32_sha256. rewrite bytes_of_bytes.
  rewrite reverse_lookup by (rewrite length_fmap, length_seq; lia).
  rewrite list_lookup_fmap, length_fmap, length_seq.
  rewrite lookup_seq_lt by lia. done.
Qed.

Lemma encode_fits d : is_digest d → digits_fit 0 (bytes (encode_nix_base32_sha256 d)).
Proof.
  intros Hd i a Hi.
  assert (i < 52)%nat as Hlt.
  { apply lookup_lt_Some in Hi. unfold encode_nix_base32_sha256 in Hi.
    rewrite bytes_of_bytes, length_reverse, length_fmap, length_seq in Hi. done. }
  rewrite bytes_encode in Hi by done. injection Hi as <-.
  destruct (encode_digit_spec d (51 - i) Hd ltac:(lia)) as (v & Hv & Hf & _).
  exists v. split; [done|]. replace (0 + i)%nat with (51 - (51 - i))%nat by lia. done.
Qed.

Lemma len_encode d : len (encode_nix_base32_sha256 d) = 52.
Proof.
  rewrite len_bytes. unfold encode_nix_base32_sha256.
  by rewrite bytes_of_bytes, length_reverse, length_fmap, length_seq.
Qed.

Lemma length_52 s : len s = 52 → length (bytes s) = 52%nat.
Proof. rewrite len_bytes. lia. Qed.

Lemma decode_encode d :
  is_digest d → decode_nix_base32_sha256 (encode_nix_base32_sha256 d) = Ok d.
Proof.
  intros Hd. unfold decode_nix_base32_sha256. rewrite len_encode. simpl negb.
  pose proof (length_52 _ (len_encode d)) as Hl.
  destruct (proj1 (decode_digits_spec 0 _ _ ltac:(rewrite Hl; lia) zero_digest) (encode_fits d Hd))
    as (d' & -> & Hd' & Hbits).
  f_equal. apply digest_ext; [done..|]. intros k Hk. rewrite Hbits, bit_at_zero by done.
  assert (∃ p j, k = p * 5 + j ∧ j < 5)%nat as (p & j & -> & Hj).
  { exists (k / 5)%nat, (k mod 5)%nat. pose proof (Nat.div_mod_eq k 5).
    pose proof (Nat.mod_upper_bound k 5). lia. }
  destruct (encode_digit_spec d p Hd ltac:(lia)) as (v & Hv & _ & Hv').
  pose proof (text_bit_digit 0 (bytes (encode_nix_base32_sha256 d)) (51 - p) (encode_digit d p) v j)
    as Ht.
  replace (51 - (0 + (51 - p)))%nat with p in Ht by lia. rewrite orb_false_l, Ht.
  - rewrite Hv', bool_decide_true by done. done.
  - rewrite Hl. lia.
  - by apply encode_fits.
  - rewrite bytes_encode by lia. do 2 f_equal. lia.
  - done.
  - done.
Qed.

Lemma encode_decode s d :
  decode_nix_base32_sha256 s = Ok d → is_digest d ∧ encode_nix_base32_sha256 d = s.
Proof.
  unfold decode_nix_base32_sha256. destruct (Z.eqb_spec (len s) 52) as [Hlen|]; [|done].
  simpl negb. intros Hdec. pose proof (length_52 _ Hlen) as Hl.
  destruct (decode_digits_spec 0 (bytes s) (replicate 32 0) ltac:(rewrite Hl; lia) zero_digest)
    as [Hfwd Hback].
  assert (digits_fit 0 (bytes s)) as Hfit by (apply Hback; by rewrite Hdec).
  destruct (Hfwd Hfit) as (d' & Heq & Hd & Hbits). cbv beta iota in Hdec. rewrite Heq in Hdec.
  injection Hdec as ->. split; [done|].
  apply bytes_inj, list_eq. intros i. destruct (decide (i < 52)%nat) as [Hi|Hi].
  2: { rewrite !lookup_ge_None_2; [done|lia|].
       rewrite (length_52 _ (len_encode d)). lia. }
  rewrite bytes_encode by done.
  destruct (lookup_lt_is_Some_2 (bytes s) i ltac:(lia)) as [a Ha]. rewrite Ha. f_equal.
  destruct (Hfit i a Ha) as (v & Hv & Hf).
  destruct (encode_digit_spec d (51 - i) Hd ltac:(lia)) as (w & Hw & Hg & Hw').
  apply digit_value_Some in Hv as [Hvb ->], Hw as [Hwb ->]. f_equal.
  apply Z.bits_inj'. intros j Hj. destruct (decide (5 ≤ j)).
  { by rewrite !digit_testbit_high by done. }
  rewrite <-(Z2Nat.id j) by done. rewrite Hw' by lia.
  pose proof (text_bit_digit 0 (bytes s) i (digit_char v) v (Z.to_nat j) ltac:(rewrite Hl; lia)
    Hfit Ha (proj2 (digit_value_Some _ _) (conj Hvb eq_refl)) ltac:(lia)) as Ht.
  simpl (0 + i)%nat in Ht. case_bool_decide as Hk.
  - rewrite Hbits, bit_at_zero by done. done.
  - symmetry. simpl. assert (i = 0%nat) as -> by lia. specialize (Hf eq_refl).
    assert (v = 0 ∨ v = 1) as [-> | ->] by lia; [apply Z.testbit_0_l|].
    rewrite Z.bits_above_log2; [done|lia|]. simpl. lia.
Qed.

(** C35. The texts the decoder accepts are exactly the encodings of digests: every
    digest has one accepted text, and decoding gives the digest back. *)
Theorem nix_base32_is_canonical s d :
  decode_nix_base32_sha256 s = Ok d ↔ is_digest d ∧ s = encode_nix_base32_sha256 d.
Proof.
  split.
  - intros [Hd Hs]%encode_decode. done.
  - intros [Hd ->]. by apply decode_encode.
Qed.

(** The digest [nix hash] prints as [d1cfa69c…]. *)
Example nix_base32_example :
  hex_encode <$> ok (decode_nix_base32_sha256 "1nf4kwd9jxqdhdciwh1xvmrb4rnqg7jqwvjwc7mxmwcpr2fadkyi")
  = Some "d1cfa69cc897f1daeb615c6e8ee579d866b272dd3d401e59830d77991a9fc4d9".
Proof. vm_compute. reflexivity. Qed.
