(* ===== verification/CacheEgress.v ===== *)
(** * Egress totals of the binary cache

    [src/cache_egress.rs], the record files of [src/state_files.rs] it is kept
    in, and the [/cache/*] route of [src/routes/files.rs].  The counters are
    atomics that requests update concurrently; the single reporting task takes
    snapshots and writes them to a record; a restart resumes from the record.

    The data directory is a map from names to contents.  Writing a record
    renames a complete file over it: the input says whether that succeeded,
    failed before the rename, or failed after it (syncing the directory).  A
    [DateTime] is a [Z] in nanoseconds; its texts are those of chrono, and the
    envelope's codec is serde_json's, both arguments. *)

From stdpp Require Import sorting base gmap list strings relations.
From Stdlib Require Import Ascii ZArith Lia.
From S2P Require Import Prelude Async RustStr Json DbText Assets.

#[local] Open Scope Z_scope.
#[local] Open Scope nest_scope.

Class EgressCodec := {
  envelope_to_vec : string → Z → Value → string;
  envelope_from_slice : string → option (string * Z * Value);
  datetime_to_string : Z → string;
  datetime_from_str : string → option Z;
  rfc3339_secs : Z → string;
}.

(** ** Record files *)

Abbreviation Disk := (gmap string string).

Inductive WriteOutcome := Written | FailedBefore | FailedAfter.

Section StateFiles.
Context `{!EgressCodec}.

Definition VERSION : Z := 1.

Definition valid_name (name : string) : bool :=
  in_range 1 128 (len name) && negb (starts_with "." name)
  && all_bytes (λ a, is_alnum a || byte_in ".-_" a) name.

Definition record_path (name : string) : result string string :=
  if valid_name name then Ok name else Err "state record name is not a plain file name".

Definition write_bytes (outcome : WriteOutcome) (name contents : string) (max_bytes : Z)
    (d : Disk) : result string unit * Disk :=
  if max_bytes <? len contents then (Err "state record exceeds its bound", d) else
  match record_path name with
  | Err e => (Err e, d)
  | Ok path =>
      match outcome with
      | Written => (Ok tt, <[path := contents]> d)
      | FailedBefore => (Err "write failed", d)
      | FailedAfter => (Err "directory sync failed", <[path := contents]> d)
      end
  end.

Definition read_bytes (name : string) (max_bytes : Z) (d : Disk) : result string (option string) :=
  path ≔ record_path name ?;
  match d !! path with
  | None => Ok None
  | Some contents =>
      if max_bytes <? len contents then Err "state record exceeds its bound"
      else Ok (Some contents)
  end.

Definition write (outcome : WriteOutcome) (name schema : string) (max_bytes : Z) (data : Value)
    (d : Disk) : result string unit * Disk :=
  write_bytes outcome name (envelope_to_vec schema VERSION data) max_bytes d.

Definition decode {T} (from_value : Value → option T) (contents schema : string)
    : result string T :=
  match envelope_from_slice contents with
  | None => Err "state record is not a JSON envelope"
  | Some (s, v, data) =>
      if negb (bool_decide (s = schema)) || negb (v =? VERSION) then Err "state record is another"
      else ok_or "state record data" (from_value data)
  end.

Definition read {T} (from_value : Value → option T) (name schema : string) (max_bytes : Z)
    (d : Disk) : option T :=
  match read_bytes name max_bytes d with
  | Ok (Some contents) => ok (decode from_value contents schema)
  | Ok None | Err _ => None
  end.

Definition remove (name : string) (d : Disk) : result string unit * Disk :=
  match record_path name with
  | Err e => (Err e, d)
  | Ok path => (Ok tt, delete path d)
  end.

(** [list]: the temporary files of interrupted writes, which it also clears, are
    not among the contents. *)
Definition list_records (suffix : string) (limit : nat) (d : Disk) : list string :=
  take limit (merge_sort String.le
    (List.filter (λ name, valid_name name && ends_with suffix name) (fst <$> map_to_list d))).

End StateFiles.

(** ** The counters *)

Definition RECORD : string := "cache-egress.json".
Definition RECORD_SCHEMA : string := "tiaris.nest.cache-egress".
Definition RECORD_MAX_BYTES : Z := 4096.

Record PersistedTotals := {
  pt_served_bytes_total : Z;
  pt_served_requests_total : Z;
  pt_missing_requests_total : Z;
  pt_counters_since : Z;
}.

Record CacheEgressSnapshot := {
  sn_served_bytes_total : Z;
  sn_served_requests_total : Z;
  sn_missing_requests_total : Z;
  sn_counters_since : string;
}.
#[global] Instance snapshot_eq_dec : EqDecision CacheEgressSnapshot.
Proof. solve_decision. Defined.

Record CacheEgressCounters := {
  served_bytes : Z;
  served_requests : Z;
  missing_requests : Z;
  counters_since : Z;
  persisted : option CacheEgressSnapshot;
}.

Inductive Egress := Served (bytes : Z) | Missing | Nothing.

(** The state the tasks share, and what an action learns from outside. *)
Record World := { w_counters : CacheEgressCounters; w_disk : Disk }.
Record Input := { in_tree : node; in_write : WriteOutcome }.
Abbreviation task := (prog Input World).

Definition set_counters (c : CacheEgressCounters) (w : World) : World :=
  {| w_counters := c; w_disk := w_disk w |}.

Definition starting_at (since : Z) : CacheEgressCounters := {|
  served_bytes := 0; served_requests := 0; missing_requests := 0;
  counters_since := since; persisted := None |}.

Definition saturating_add (counter delta : Z) : Z := sat_add u64_max counter delta.

Definition with_served_bytes (f : Z → Z) (c : CacheEgressCounters) : CacheEgressCounters := {|
  served_bytes := f (served_bytes c); served_requests := served_requests c;
  missing_requests := missing_requests c; counters_since := counters_since c;
  persisted := persisted c |}.
Definition with_served_requests (f : Z → Z) (c : CacheEgressCounters) : CacheEgressCounters := {|
  served_bytes := served_bytes c; served_requests := f (served_requests c);
  missing_requests := missing_requests c; counters_since := counters_since c;
  persisted := persisted c |}.
Definition with_missing_requests (f : Z → Z) (c : CacheEgressCounters) : CacheEgressCounters := {|
  served_bytes := served_bytes c; served_requests := served_requests c;
  missing_requests := f (missing_requests c); counters_since := counters_since c;
  persisted := persisted c |}.
Definition with_persisted (s : option CacheEgressSnapshot) (c : CacheEgressCounters)
    : CacheEgressCounters := {|
  served_bytes := served_bytes c; served_requests := served_requests c;
  missing_requests := missing_requests c; counters_since := counters_since c;
  persisted := s |}.

(** One atomic update of the counters, and one load. *)
Definition update (f : CacheEgressCounters → CacheEgressCounters) : task unit :=
  section (λ w, (tt, set_counters (f (w_counters w)) w)).
Definition load {A} (f : CacheEgressCounters → A) : task A := section (λ w, (f (w_counters w), w)).

Definition record_served (bytes : Z) : task unit :=
  update (with_served_bytes (λ n, saturating_add n bytes)) ≫= λ _,
  update (with_served_requests (λ n, saturating_add n 1)).

Definition record_missing : task unit :=
  update (with_missing_requests (λ n, saturating_add n 1)).

Definition record (egress : Egress) : task unit :=
  match egress with
  | Served bytes => record_served bytes
  | Missing => record_missing
  | Nothing => Ret tt
  end.

(** [HeaderValue::to_str] refuses nothing here: the length is decimal text. *)
Definition content_length (response : Response) : Z :=
  default 0 (value ← rsp_content_length response; parse_unsigned u64_max (trim value)).

Definition classify_cache_response (result : AppResult Response) (path_valid : bool) : Egress :=
  match result with
  | Ok response =>
      if (rsp_status response =? 200) || (rsp_status response =? 206)
      then Served (content_length response) else Nothing
  | Err NotFound => if path_valid then Missing else Nothing
  | Err _ => Nothing
  end.

(** ** The route *)

Definition cache_file (mime_guess : string → string) (root_dir : list string) (path : string)
    (range : option string) : task (AppResult Response) :=
  let path_valid := is_binary_cache_member_path path in
  tree ← read_input in_tree;
  let result := serve_binary_cache_member_from_root mime_guess tree root_dir path range in
  record (classify_cache_response result path_valid) ≫= λ _, Ret result.

Section Persistence.
Context `{!EgressCodec}.

(** [snapshot]: three loads; other tasks may run between them. *)
Definition snapshot : task CacheEgressSnapshot :=
  bytes ← load served_bytes;
  requests ← load served_requests;
  missing ← load (λ c, (missing_requests c, rfc3339_secs (counters_since c)));
  Ret {| sn_served_bytes_total := bytes; sn_served_requests_total := requests;
         sn_missing_requests_total := missing.1; sn_counters_since := missing.2 |}.

(** The same of counters nobody else can see yet. *)
Definition snapshot_of (c : CacheEgressCounters) : CacheEgressSnapshot := {|
  sn_served_bytes_total := served_bytes c; sn_served_requests_total := served_requests c;
  sn_missing_requests_total := missing_requests c;
  sn_counters_since := rfc3339_secs (counters_since c) |}.

(** serde's encoding of [PersistedTotals], and its decoder: a [u64] field is a
    non-negative integer, every field is required, no other is accepted. *)
Definition totals_to_value (t : PersistedTotals) : Value := Object
  [("counters_since", Str (datetime_to_string (pt_counters_since t)));
   ("missing_requests_total", Num (PosInt (pt_missing_requests_total t)));
   ("served_bytes_total", Num (PosInt (pt_served_bytes_total t)));
   ("served_requests_total", Num (PosInt (pt_served_requests_total t)))].

Definition as_u64 (v : Value) : option Z :=
  match v with Num (PosInt n) => try_unsigned u64_max n | _ => None end.

Definition totals_from_value (v : Value) : option PersistedTotals :=
  fields ← as_object v;
  if negb (forallb (λ f, bool_decide (f.1 ∈ ["served_bytes_total"; "served_requests_total";
             "missing_requests_total"; "counters_since"])) fields)
  then None else
  bytes ← (x ← obj_get "served_bytes_total" fields; as_u64 x);
  requests ← (x ← obj_get "served_requests_total" fields; as_u64 x);
  missing ← (x ← obj_get "missing_requests_total" fields; as_u64 x);
  since ← (x ← obj_get "counters_since" fields; s ← as_str x; datetime_from_str s);
  Some {| pt_served_bytes_total := bytes; pt_served_requests_total := requests;
          pt_missing_requests_total := missing; pt_counters_since := since |}.

Definition read_totals (d : Disk) : option PersistedTotals :=
  read totals_from_value RECORD RECORD_SCHEMA RECORD_MAX_BYTES d.

(** [chrono::Duration::days(1)]. *)
Definition DAY : Z := 86400 * 1000000000.

Definition restore_at (d : Disk) (now : Z) : CacheEgressCounters :=
  match read_totals d with
  | Some totals =>
      if pt_counters_since totals <=? now + DAY then
        let c := {| served_bytes := pt_served_bytes_total totals;
                    served_requests := pt_served_requests_total totals;
                    missing_requests := pt_missing_requests_total totals;
                    counters_since := pt_counters_since totals; persisted := None |} in
        with_persisted (Some (snapshot_of c)) c
      else starting_at now
  | None => starting_at now
  end.

(** The critical section of [persisted_snapshot], under the mutex of
    [persisted]; the caller's [counters_since] never changes. *)
Definition checkpoint (s : CacheEgressSnapshot) (i : Input) (w : World)
    : result string unit * World :=
  let c := w_counters w in
  if bool_decide (persisted c = Some s) then (Ok tt, w) else
  let '(written, d) := write (in_write i) RECORD RECORD_SCHEMA RECORD_MAX_BYTES
    (totals_to_value {| pt_served_bytes_total := sn_served_bytes_total s;
                        pt_served_requests_total := sn_served_requests_total s;
                        pt_missing_requests_total := sn_missing_requests_total s;
                        pt_counters_since := counters_since c |}) (w_disk w) in
  (written, {| w_counters := if is_ok written then with_persisted (Some s) c else c;
               w_disk := d |}).

Definition persisted_snapshot : task (CacheEgressSnapshot * result string unit) :=
  s ← snapshot;
  written ← atomic (checkpoint s);
  Ret (s, written).

End Persistence.

(** ** The process and its restarts *)

Section System.
Context `{!EgressCodec} (mime_guess : string → string) (root_dir : list string).

(** What the server was told: the totals, whether the write before it succeeded, and how
    many restarts had lost the record until then. *)
Record Report := { rp_snapshot : CacheEgressSnapshot; rp_persisted : bool; rp_epoch : nat }.

(** The reports, latest first. *)
Record Nest := {
  n_tasks : list (task unit);
  n_reporter : option (task (CacheEgressSnapshot * result string unit));
  n_world : World;
  n_reports : list Report;
  n_epoch : nat;
}.

Definition request (p : task unit) : Prop :=
  ∃ path range, p = (cache_file mime_guess root_dir path range ≫= λ _, Ret tt).

(** The process starts: [readable] when the record file, if there is one, can be read; it counts
    as missing otherwise. *)
Definition restart (readable : bool) (now : Z) (d : Disk) : World :=
  {| w_counters := restore_at (if readable then d else ∅) now; w_disk := d |}.

(** A start that passes over a record: it cannot be read, or the clock is more than a day
    behind it. *)
Definition loses_record (readable : bool) (now : Z) (d : Disk) : bool :=
  match read_totals d with
  | Some t => negb readable || (now + DAY <? pt_counters_since t)
  | None => false
  end.

(** Requests run concurrently with each other and with the one reporting task
    ([report_nest_state] of the management loop); the process can stop and
    start again at any point and with any clock. *)
Inductive nstep : Nest → Nest → Prop :=
| nstep_requests ts ts' rep w w' reps e :
    pstep request (ts, w) (ts', w') →
    nstep {| n_tasks := ts; n_reporter := rep; n_world := w; n_reports := reps; n_epoch := e |}
          {| n_tasks := ts'; n_reporter := rep; n_world := w'; n_reports := reps; n_epoch := e |}
| nstep_report ts w reps e :
    nstep {| n_tasks := ts; n_reporter := None; n_world := w; n_reports := reps; n_epoch := e |}
          {| n_tasks := ts; n_reporter := Some persisted_snapshot; n_world := w;
             n_reports := reps; n_epoch := e |}
| nstep_act ts B (act : Input → World → B * World) k i w reps e :
    nstep {| n_tasks := ts; n_reporter := Some (Step act k); n_world := w; n_reports := reps; n_epoch := e |}
          {| n_tasks := ts; n_reporter := Some (k (act i w).1); n_world := (act i w).2;
             n_reports := reps; n_epoch := e |}
| nstep_reported ts s written w reps e :
    nstep {| n_tasks := ts; n_reporter := Some (Ret (s, written)); n_world := w;
             n_reports := reps; n_epoch := e |}
          {| n_tasks := ts; n_reporter := None; n_world := w;
             n_reports := {| rp_snapshot := s; rp_persisted := is_ok written; rp_epoch := e |} :: reps;
             n_epoch := e |}
| nstep_restart ts rep w reps e readable now :
    nstep {| n_tasks := ts; n_reporter := rep; n_world := w; n_reports := reps; n_epoch := e |}
          {| n_tasks := []; n_reporter := None; n_world := restart readable now (w_disk w);
             n_reports := reps;
             n_epoch := if loses_record readable now (w_disk w) then S e else e |}.

(** A process that has just started. *)
Definition started (readable : bool) (now : Z) (d : Disk) : Nest := {|
  n_tasks := []; n_reporter := None; n_world := restart readable now d; n_reports := []; n_epoch := 0 |}.

End System.
