(* ===== verification/CacheEgressTheorems.v ===== *)
(** * Egress totals: theorems

    What the reported totals promise over concurrent requests and restarts, and
    that one request is counted as what was sent. *)

From stdpp Require Import sorting base gmap list strings relations.
From Stdlib Require Import Ascii ZArith Lia.
From S2P Require Import Prelude Async RustStr Json DbText DbTextProofs Assets AssetsProofs CacheEgress.

#[local] Open Scope Z_scope.
#[local] Open Scope nest_scope.

(** What is relied on of serde_json and chrono: a record that was written reads
    back as it was. *)
Definition totals_ok (t : PersistedTotals) : Prop :=
  0 ≤ pt_served_bytes_total t ≤ u64_max ∧ 0 ≤ pt_served_requests_total t ≤ u64_max ∧
  0 ≤ pt_missing_requests_total t ≤ u64_max.

Class EgressCodecLaws `{!EgressCodec} := {
  envelope_roundtrip t : totals_ok t →
    envelope_from_slice (envelope_to_vec RECORD_SCHEMA VERSION (totals_to_value t))
    = Some (RECORD_SCHEMA, VERSION, totals_to_value t);
  datetime_roundtrip t : datetime_from_str (datetime_to_string t) = Some t;
}.

Section Egress.
Context {codec : EgressCodec} {laws : EgressCodecLaws}.

(** ** The record *)

Lemma try_unsigned_id max x : 0 ≤ x ≤ max → try_unsigned max x = Some x.
Proof. intros H. by apply try_unsigned_Some. Qed.

Lemma totals_roundtrip t : totals_ok t → totals_from_value (totals_to_value t) = Some t.
Proof.
  intros (Hb & Hr & Hm). unfold totals_from_value, totals_to_value. simpl.
  rewrite datetime_roundtrip. simpl.
  rewrite !try_unsigned_id by done. simpl. by destruct t.
Qed.

Lemma read_totals_written t d :
  totals_ok t →
  len (envelope_to_vec RECORD_SCHEMA VERSION (totals_to_value t)) ≤ RECORD_MAX_BYTES →
  read_totals (<[RECORD := envelope_to_vec RECORD_SCHEMA VERSION (totals_to_value t)]> d) = Some t.
Proof.
  intros Ht Hlen. unfold read_totals, read, read_bytes.
  change (record_path RECORD) with (@Ok string string RECORD). simpl.
  rewrite lookup_insert_eq, (proj2 (Z.ltb_ge _ _)) by done.
  unfold decode. rewrite envelope_roundtrip by done. simpl.
  by rewrite totals_roundtrip.
Qed.

Lemma as_u64_bounds v n : as_u64 v = Some n → 0 ≤ n ≤ u64_max.
Proof. destruct v as [| |[]| | |]; try done. simpl. by intros [-> ?]%try_unsigned_Some. Qed.

Lemma totals_from_value_ok v t : totals_from_value v = Some t → totals_ok t.
Proof.
  unfold totals_from_value. intros (fields & _ & H)%bind_Some.
  destruct (negb _); [done|].
  apply bind_Some in H as (b & (x & _ & Hb%as_u64_bounds)%bind_Some & H).
  apply bind_Some in H as (r & (y & _ & Hr%as_u64_bounds)%bind_Some & H).
  apply bind_Some in H as (m & (z & _ & Hm%as_u64_bounds)%bind_Some & H).
  apply bind_Some in H as (since & _ & H). injection H as <-. done.
Qed.

Lemma read_totals_ok d t : read_totals d = Some t → totals_ok t.
Proof.
  unfold read_totals, read. destruct (read_bytes _ _ _) as [[contents|]|]; [|done..].
  unfold decode. destruct (envelope_from_slice _) as [[[s v] data]|]; [|done].
  destruct (_ || _); [done|]. destruct (totals_from_value data) as [u|] eqn:E; [|done].
  intros [= <-]. by eapply totals_from_value_ok.
Qed.

(** ** What requests do *)

Definition counters_ok (c : CacheEgressCounters) : Prop :=
  0 ≤ served_bytes c ≤ u64_max ∧ 0 ≤ served_requests c ≤ u64_max ∧
  0 ≤ missing_requests c ≤ u64_max.

(** Requests only ever raise the counters. *)
Definition grows (w w' : World) : Prop :=
  served_bytes (w_counters w) ≤ served_bytes (w_counters w') ∧
  served_requests (w_counters w) ≤ served_requests (w_counters w') ∧
  missing_requests (w_counters w) ≤ missing_requests (w_counters w') ∧
  counters_since (w_counters w) = counters_since (w_counters w') ∧
  persisted (w_counters w) = persisted (w_counters w') ∧ w_disk w = w_disk w'.

#[local] Instance grows_preorder : PreOrder grows.
Proof.
  split; [intros w; unfold grows; split_and!; first [lia|done]|].
  intros x y z (?&?&?&?&?&?) (?&?&?&?&?&?). unfold grows. split_and!; first [lia|congruence].
Qed.

Lemma saturating_add_bounds n d : 0 ≤ n ≤ u64_max → 0 ≤ d → n ≤ saturating_add n d ≤ u64_max.
Proof. unfold saturating_add, sat_add. lia. Qed.

(** A task whose every action keeps the counters in range and raises them,
    whatever the world it meets. *)
Fixpoint raises {A : Type} (p : task A) : Prop :=
  match p with
  | Ret _ => True
  | Step act k => ∀ i w, counters_ok (w_counters w) →
      counters_ok (w_counters (act i w).2) ∧ grows w (act i w).2 ∧ raises (k (act i w).1)
  | Spawn t k => raises t ∧ raises k
  end.

Lemma raises_bind {A B} (f : A → task B) (p : task A) :
  raises p → (∀ a, raises (f a)) → raises (p ≫= f).
Proof.
  intros Hp Hf. induction p as [A a|A X act k IH|A t _ k IH]; simpl in *.
  - apply Hf.
  - intros i w Hok. destruct (Hp i w Hok) as (?&?&?). split_and!; [done..|by apply IH].
  - destruct Hp. split; [done|by apply IH].
Qed.

Lemma raises_pool entry ts w ts' w' :
  (∀ p, entry p → raises p) → pstep entry (ts, w) (ts', w') →
  Forall raises ts → counters_ok (w_counters w) →
  Forall raises ts' ∧ counters_ok (w_counters w') ∧ grows w w'.
Proof.
  intros Hentry Hstep Hall Hok.
  inversion Hstep as [? ? p Hp|l r B act k i ?|l r t k ?|l r p ?]; subst; clear Hstep;
    try (apply Forall_app in Hall as [Hl Hr]; apply Forall_cons in Hr as [Hs Hr]).
  - split_and!; [|done|reflexivity]. apply Forall_app. auto.
  - destruct (Hs i w Hok) as (?&?&?). split_and!; [|done..]. apply Forall_app. auto.
  - destruct Hs. split_and!; [|done|reflexivity]. rewrite !Forall_app, Forall_cons, Forall_app. auto.
  - split_and!; [|done|reflexivity]. apply Forall_app. auto.
Qed.

Lemma record_raises egress :
  match egress with Served bytes => 0 ≤ bytes | _ => True end → raises (record egress).
Proof.
  intros Hpos. destruct egress as [bytes| |]; simpl; unfold counters_ok, grows; simpl; [| |done].
  - intros _ w1 (?&?&?). pose proof (saturating_add_bounds (served_bytes (w_counters w1)) bytes).
    split_and!; try lia; try done.
    intros _ w2 (?&?&?). pose proof (saturating_add_bounds (served_requests (w_counters w2)) 1).
    split_and!; try lia; done.
  - intros _ w1 (?&?&?).
    pose proof (saturating_add_bounds (missing_requests (w_counters w1)) 1).
    split_and!; try lia; done.
Qed.

Lemma classify_nonneg r valid :
  match classify_cache_response r valid with Served bytes => 0 ≤ bytes | _ => True end.
Proof.
  destruct r as [r|[]]; simpl; try done; [|by destruct valid]. destruct (_ || _); [|done].
  unfold content_length. destruct (rsp_content_length r) as [v|]; simpl; [|lia].
  destruct (parse_unsigned _ _) as [n|] eqn:E; simpl; [|lia]. by apply parse_unsigned_nonneg in E.
Qed.

Lemma request_raises mime root p : request mime root p → raises p.
Proof.
  intros (path & range & ->). unfold cache_file.
  apply raises_bind; [|done]. apply raises_bind.
  - intros i w Hok. simpl. split_and!; [done|reflexivity|done].
  - intros tree. apply raises_bind; [apply record_raises, classify_nonneg|done].
Qed.

(** ** Totals never go back *)

(** The order on snapshots of one epoch. *)
Definition snap_le (s t : CacheEgressSnapshot) : Prop :=
  sn_served_bytes_total s ≤ sn_served_bytes_total t ∧
  sn_served_requests_total s ≤ sn_served_requests_total t ∧
  sn_missing_requests_total s ≤ sn_missing_requests_total t ∧
  sn_counters_since s = sn_counters_since t.

#[local] Instance snap_le_preorder : PreOrder snap_le.
Proof.
  split; [intros s; unfold snap_le; split_and!; first [lia|done]|].
  intros x y z (?&?&?&?) (?&?&?&?). unfold snap_le. split_and!; first [lia|congruence].
Qed.

Definition totals_snapshot (t : PersistedTotals) : CacheEgressSnapshot := {|
  sn_served_bytes_total := pt_served_bytes_total t;
  sn_served_requests_total := pt_served_requests_total t;
  sn_missing_requests_total := pt_missing_requests_total t;
  sn_counters_since := rfc3339_secs (pt_counters_since t) |}.

(** The record on disk, as far as it is of the current epoch: a start that passes over the
    record leaves it there until the next write ([own] is then false). *)
Definition own_totals (own : bool) (w : World) : option PersistedTotals :=
  if own then read_totals (w_disk w) else None.

(** What is on disk, if anything, is at most [s]; [s] is at most what is on disk. *)
Definition disk_le (own : bool) (w : World) (s : CacheEgressSnapshot) : Prop :=
  ∀ t, own_totals own w = Some t → snap_le (totals_snapshot t) s.
Definition le_disk (own : bool) (s : CacheEgressSnapshot) (w : World) : Prop :=
  ∃ t, own_totals own w = Some t ∧ snap_le s (totals_snapshot t).

(** A snapshot between what is on disk and the counters. *)
Definition snap_nonneg (s : CacheEgressSnapshot) : Prop :=
  0 ≤ sn_served_bytes_total s ∧ 0 ≤ sn_served_requests_total s ∧ 0 ≤ sn_missing_requests_total s.
Definition between (own : bool) (w : World) (s : CacheEgressSnapshot) : Prop :=
  (disk_le own w s ∧ snap_nonneg s) ∧ snap_le s (snapshot_of (w_counters w)).

Lemma disk_le_trans own w s t : disk_le own w s → snap_le s t → disk_le own w t.
Proof. intros H Hst u Hu. etrans; [by apply H|done]. Qed.

(** The reporting task after one, two and three of its loads. *)
Definition loaded (b r m : Z) (c : CacheEgressCounters) : CacheEgressSnapshot := {|
  sn_served_bytes_total := b; sn_served_requests_total := r; sn_missing_requests_total := m;
  sn_counters_since := rfc3339_secs (counters_since c) |}.
Definition last_step (s : CacheEgressSnapshot) : task (CacheEgressSnapshot * result string unit) :=
  Step (checkpoint s) (λ written, Ret (s, written)).
Definition third_load (b r : Z) : task (CacheEgressSnapshot * result string unit) :=
  Step (λ _ w, ((missing_requests (w_counters w), rfc3339_secs (counters_since (w_counters w))), w))
    (λ m : Z * string, last_step {| sn_served_bytes_total := b; sn_served_requests_total := r;
       sn_missing_requests_total := m.1; sn_counters_since := m.2 |}).
Definition second_load (b : Z) : task (CacheEgressSnapshot * result string unit) :=
  Step (λ _ w, (served_requests (w_counters w), w)) (third_load b).

(** Where the reporting task can be: the counters it has not loaded yet can
    stand for the values it will load. *)
Inductive reporter_ok (own : bool) (w : World) : task (CacheEgressSnapshot * result string unit) → Prop :=
| reporter_begin : reporter_ok own w persisted_snapshot
| reporter_second b :
    between own w (loaded b (served_requests (w_counters w)) (missing_requests (w_counters w))
                 (w_counters w)) → reporter_ok own w (second_load b)
| reporter_third b r :
    between own w (loaded b r (missing_requests (w_counters w)) (w_counters w)) →
    reporter_ok own w (third_load b r)
| reporter_last s : between own w s → reporter_ok own w (last_step s)
| reporter_done s written :
    disk_le own w s → (is_ok written = true → le_disk own s w) → reporter_ok own w (Ret (s, written)).

(** What holds of the counters, the disk and what was persisted. *)
Record totals_kept (own : bool) (w : World) : Prop := {
  tk_counters : counters_ok (w_counters w);
  tk_disk : disk_le own w (snapshot_of (w_counters w));
  tk_since : ∀ t, own_totals own w = Some t → pt_counters_since t = counters_since (w_counters w);
  tk_persisted : ∀ s, persisted (w_counters w) = Some s → le_disk own s w;
}.

Record nest_ok (own : bool) (n : Nest) : Prop := {
  ok_pool : Forall raises (n_tasks n);
  ok_totals : totals_kept own (n_world n);
  ok_reporter : ∀ p, n_reporter n = Some p → reporter_ok own (n_world n) p;
  ok_epochs : ∀ r, r ∈ n_reports n → (rp_epoch r ≤ n_epoch n)%nat;
  ok_reports : ∀ r, r ∈ n_reports n → rp_persisted r = true → rp_epoch r = n_epoch n →
    le_disk own (rp_snapshot r) (n_world n);
  ok_order : StronglySorted (λ later earlier, rp_persisted earlier = true →
    rp_epoch earlier = rp_epoch later → snap_le (rp_snapshot earlier) (rp_snapshot later)) (n_reports n);
}.

Lemma grows_reporter own w w' p : grows w w' → reporter_ok own w p → reporter_ok own w' p.
Proof.
  intros (Hb & Hr & Hm & Hs & Hp & Hd).
  assert (own_totals own w' = own_totals own w) as Ho by (unfold own_totals; by rewrite Hd).
  assert (∀ s, disk_le own w s → disk_le own w' s) as Hdle by (intros s; unfold disk_le; by rewrite Ho).
  assert (∀ s s', between own w s → snap_le s s' → snap_le s' (snapshot_of (w_counters w')) →
    between own w' s') as Hbt.
  { intros s s' [[H1 (Hs1&Hs2&Hs3)] H2] Hss Hsc. split; [|done]. split.
    - apply Hdle. by eapply disk_le_trans.
    - destruct Hss as (?&?&?&_). unfold snap_nonneg. lia. }
  unfold snap_le in Hbt. destruct 1 as [|b [H1 H2]|b r [H1 H2]|s [H1 H2]|s written H1 H2].
  - constructor.
  - constructor. eapply Hbt; [by split| |]; destruct H2 as (?&?&?&?); simpl in *; rewrite <- ?Hs;
      split_and!; lia || done.
  - constructor. eapply Hbt; [by split| |]; destruct H2 as (?&?&?&?); simpl in *; rewrite <- ?Hs;
      split_and!; lia || done.
  - constructor. eapply Hbt; [by split| |]; destruct H2 as (?&?&?&?); simpl in *; rewrite <- ?Hs;
      split_and!; lia || done.
  - constructor; [by apply Hdle|]. intros Hw. destruct (H2 Hw) as (t & Ht & Hle).
    exists t. by rewrite Ho.
Qed.

Lemma snap_le_grows w w' : grows w w' → snap_le (snapshot_of (w_counters w)) (snapshot_of (w_counters w')).
Proof. intros (?&?&?&Hs&_). unfold snap_le. simpl. rewrite Hs. done. Qed.

(** What an action of the reporting task leaves true: the counters, and that
    nothing on disk is lost. *)
Record reporter_effect (own own' : bool) (w w' : World) : Prop := {
  re_counters : ∃ u, w_counters w' = with_persisted u (w_counters w);
  re_totals : totals_kept own' w';
  re_disk : ∀ u, le_disk own u w → le_disk own' u w';
}.

Lemma reporter_effect_refl own w : totals_kept own w → reporter_effect own own w w.
Proof. intros H. split; [|done|done]. exists (persisted (w_counters w)). by destruct (w_counters w). Qed.

(** A write that reached the disk. *)
Lemma checkpoint_written own w w' t s :
  between own w s → totals_kept own w → totals_snapshot t = s → pt_counters_since t = counters_since (w_counters w) →
  read_totals (w_disk w') = Some t →
  w_counters w' = w_counters w ∨ w_counters w' = with_persisted (Some s) (w_counters w) →
  disk_le true w' s ∧ le_disk true s w' ∧ reporter_effect own true w w'.
Proof.
  intros [[Hlo _] Hhi] [Hok Hdisk Hsince Hpers] Hts Hst Hread Hc.
  assert (disk_le true w' s) as Hlo' by (intros u Hu; cbn in Hu; rewrite Hread in Hu; injection Hu as <-; by rewrite Hts).
  assert (∀ u, snap_le u s → le_disk true u w') as Hle' by (intros u Hu; exists t; rewrite Hts; by split).
  assert (∀ u, le_disk own u w → le_disk true u w') as Hold.
  { intros u (t' & Ht' & Hu). apply Hle'. etrans; [exact Hu|by apply Hlo]. }
  assert (snapshot_of (w_counters w') = snapshot_of (w_counters w) ∧ counters_since (w_counters w') = counters_since (w_counters w) ∧
          counters_ok (w_counters w')) as (Hsn & Hcs & Hok') by by destruct Hc as [->| ->].
  split; [done|]. split; [by apply Hle'|]. split; [|split|done].
  - destruct Hc as [->| ->]; [exists (persisted (w_counters w)); by destruct (w_counters w)|by eexists].
  - done.
  - rewrite Hsn. by eapply disk_le_trans.
  - intros u Hu. cbn in Hu. rewrite Hread in Hu. injection Hu as <-. by rewrite Hcs.
  - intros u Hu. destruct Hc as [Hc|Hc]; rewrite Hc in Hu; [by apply Hold, Hpers|]. injection Hu as <-. by apply Hle'.
Qed.

(** One action of the reporting task. *)
Lemma checkpoint_ok own s i w :
  between own w s → totals_kept own w →
  let '(written, w') := checkpoint s i w in
  ∃ own', reporter_ok own' w' (Ret (s, written)) ∧ reporter_effect own own' w w'.
Proof.
  intros Hbt Htk. unfold checkpoint. pose proof (reporter_effect_refl own w Htk) as Hsame.
  pose proof Hbt as [[Hlo Hnn] Hhi]. pose proof Htk as [Hok _ _ Hpers].
  case_bool_decide as Hp; [exists own; split; [by constructor; auto|done]|].
  set (t := {| pt_served_bytes_total := _ |}).
  assert (totals_snapshot t = s ∧ totals_ok t) as [Hts Ht].
  { destruct Hhi as (?&?&?&Hs), Hok as (?&?&?), Hnn as (?&?&?). destruct s.
    unfold totals_snapshot, totals_ok. simpl in *. subst. split_and!; lia || done. }
  unfold write, write_bytes. change (record_path RECORD) with (@Ok string string RECORD). cbv iota.
  assert ({| w_counters := w_counters w; w_disk := w_disk w |} = w) as Hw by by destruct w.
  destruct (_ <? _) eqn:Hlen; [exists own; cbn [is_ok]; rewrite Hw; split; [by constructor|done]|]. bool_prop.
  pose proof (read_totals_written t (w_disk w) Ht Hlen) as Hread.
  destruct (in_write i); simpl; [|exists own; rewrite Hw; split; [by constructor|done]|].
  all: match goal with |- ∃ _, reporter_ok _ ?x _ ∧ _ =>
    destruct (checkpoint_written own w x t s Hbt Htk Hts eq_refl Hread ltac:(first [by left|by right])) as (? & ? & ?) end.
  all: exists true; split; [by constructor|done].
Qed.

Lemma reporter_act own w p :
  reporter_ok own w p → totals_kept own w →
  match p with
  | Step act k => ∀ i, ∃ own', reporter_ok own' (act i w).2 (k (act i w).1) ∧ reporter_effect own own' w (act i w).2
  | _ => True
  end.
Proof.
  intros Hr Htk. pose proof (reporter_effect_refl own w Htk) as Hsame.
  destruct Hr as [|b Hb|b r Hb|s Hb|s written]; [intros i; exists own; split; [|done]..| |done].
  - apply (reporter_second own w). split; [split|]; simpl; [apply Htk| |reflexivity].
    destruct Htk as [(?&?&?) _ _ _]. unfold snap_nonneg. simpl. lia.
  - by apply reporter_third.
  - by apply reporter_last.
  - intros i. pose proof (checkpoint_ok own s i w Hb Htk) as H. by destruct (checkpoint s i w) as [written w'].
Qed.

(** A start: it goes on from the record or passes over it. *)
Lemma restore_ok readable d now :
  totals_kept (negb (loses_record readable now d)) (restart readable now d).
Proof.
  assert (totals_kept false (restart readable now d) ∨ ∃ t, read_totals d = Some t ∧ loses_record readable now d = false)
    as [H|(t & Ht & Hl)].
  { unfold loses_record, restart, restore_at. destruct readable; [|left; by split].
    destruct (read_totals d) as [t|] eqn:Ht; [|left; by split]. cbn [negb orb].
    destruct (Z.leb_spec (pt_counters_since t) (now + DAY)) as [Hle|Hgt]; [|left; by split].
    right. exists t. split; [done|]. apply Z.ltb_ge. lia. }
  - destruct (loses_record readable now d) eqn:El; [done|]. cbn [negb].
    destruct (read_totals d) as [t|] eqn:Ht.
    + unfold loses_record in El. rewrite Ht in El. apply orb_false_iff in El as [->%negb_false_iff Hle%Z.ltb_ge].
      destruct H as [_ _ _ H]. unfold restart, restore_at in H. rewrite Ht, (proj2 (Z.leb_le _ _) Hle) in H.
      by destruct (H _ eq_refl) as (? & ? & _).
    + destruct H as [H1 H2 H3 H4]. split; [done| | |].
      * intros u Hu. cbn in Hu. by rewrite Ht in Hu.
      * intros u Hu. cbn in Hu. by rewrite Ht in Hu.
      * intros u (? & ? & _)%H4. done.
  - rewrite Hl. unfold loses_record in Hl. rewrite Ht in Hl. apply orb_false_iff in Hl as [->%negb_false_iff Hle%Z.ltb_ge].
    pose proof (read_totals_ok _ _ Ht) as Hok. unfold restart, restore_at. rewrite Ht, (proj2 (Z.leb_le _ _) Hle).
    split; unfold disk_le, le_disk, own_totals; cbn; rewrite ?Ht; [by destruct Hok as (?&?&?)|by intros ? [= <-]|by intros ? [= <-]|].
    intros u [= <-]. exists t. by split.
Qed.

Lemma nstep_ok mime root own n n' : nstep mime root n n' → nest_ok own n → ∃ own', nest_ok own' n'.
Proof.
  intros Hstep [Hpool Htk Hrep Heps Hreps Hord]. simpl in *.
  destruct Hstep as [ts ts' rep w w' reps e Hp|ts w reps e|ts B act k i w reps e|ts s written w reps e
                    |ts rep w reps e readable now]; simpl in *.
  - exists own. destruct (raises_pool _ _ _ _ _ (request_raises mime root) Hp Hpool (tk_counters _ _ Htk)) as (Hpool'&Hcnt'&Hg).
    pose proof Hg as (_&_&_&Hs&Hpp&Hd).
    assert (own_totals own w' = own_totals own w) as Ho by (unfold own_totals; by rewrite Hd).
    assert (∀ u, le_disk own u w → le_disk own u w') as Hle by (intros u; unfold le_disk; by rewrite Ho).
    destruct Htk as [_ Hdisk Hsince Hpers]. split; simpl; auto; [split; auto|].
    + intros t Ht. rewrite Ho in Ht. etrans; [by apply Hdisk|by apply snap_le_grows].
    + intros t. rewrite Ho, <- Hs. apply Hsince.
    + intros u. rewrite <- Hpp. auto.
    + intros p Hpr. by eapply grows_reporter; [|apply Hrep].
  - exists own. split; simpl; auto. intros p [= <-]. constructor.
  - destruct (reporter_act own w _ (Hrep _ eq_refl) Htk i) as (own' & Hr' & [_ Htk' Hkeep]).
    exists own'. split; simpl; auto. by intros p [= <-].
  - exists own. pose proof (Hrep _ eq_refl) as Hr. inversion Hr as [| | | |? ? Hlo Hhi]; subst. split; simpl; auto.
    + done.
    + intros r [->|Hin]%elem_of_cons; [done|by apply Heps].
    + intros r [->|Hin]%elem_of_cons Hb He; [by apply Hhi|by apply Hreps].
    + constructor; [done|]. apply Forall_forall. intros r Hin Hb He. cbn in He |- *.
      destruct (Hreps _ Hin Hb He) as (t & Ht & Hle). etrans; [exact Hle|by apply Hlo].
  - exists (negb (loses_record readable now (w_disk w))). pose proof (restore_ok readable (w_disk w) now) as Htk'.
    split; simpl; auto; [done| |].
    + intros r Hin%Heps. destruct (loses_record _ _ _); lia.
    + intros r Hin Hb He. destruct (loses_record _ _ _); [apply Heps in Hin; lia|].
      destruct (Hreps r Hin Hb He) as (t & Ht & Hle). destruct own; [|done]. by exists t.
Qed.

(** C40. Totals that reached the disk do not go back: whatever requests run, wherever the
    process stops and starts again and however writes fail, a report is at least every earlier
    report whose totals were persisted, and of the same epoch, unless the process was started
    between the two and passed over its record, which it does only when it cannot read the
    record or its clock is more than a day behind it; it then counts from zero in a new epoch. *)
Theorem egress_totals_never_go_back mime root d readable now n later between_them earlier old newer :
  rtc (nstep mime root) (started readable now d) n →
  n_reports n = newer ++ later :: between_them ++ earlier :: old →
  rp_persisted earlier = true → rp_epoch earlier = rp_epoch later →
  sn_served_bytes_total (rp_snapshot earlier) ≤ sn_served_bytes_total (rp_snapshot later) ∧
  sn_served_requests_total (rp_snapshot earlier) ≤ sn_served_requests_total (rp_snapshot later) ∧
  sn_missing_requests_total (rp_snapshot earlier) ≤ sn_missing_requests_total (rp_snapshot later) ∧
  sn_counters_since (rp_snapshot earlier) = sn_counters_since (rp_snapshot later).
Proof.
  intros Hrtc Hreps Hok He.
  assert (∃ own, nest_ok own n) as [own [_ _ _ _ _ Hord]].
  { assert (∃ own, nest_ok own (started readable now d)) as H0.
    { exists (negb (loses_record readable now d)).
      split; simpl; [done|apply restore_ok|done|by intros ? ?%not_elem_of_nil..|constructor]. }
    revert H0. induction Hrtc as [|? ? ? Hstep _ IH]; [done|].
    intros [own H0]. apply IH; [done|]. by eapply nstep_ok. }
  rewrite Hreps in Hord. apply StronglySorted_app_1_r in Hord.
  apply StronglySorted_inv in Hord as [_ Hall]. rewrite Forall_forall in Hall.
  apply (Hall earlier); [|done..]. apply elem_of_app. right. left.
Qed.

(** ** One request *)

(** The counters after a request that sent [r]. *)
Definition counted (r : AppResult Response) (member : bool) (c : CacheEgressCounters)
    : CacheEgressCounters :=
  match r with
  | Ok response =>
      if decide (rsp_status response = 416) then c else
      with_served_requests (λ n, Z.min u64_max (n + 1))
        (with_served_bytes (λ n, Z.min u64_max (n + len (rsp_body response))) c)
  | Err NotFound =>
      if member then with_missing_requests (λ n, Z.min u64_max (n + 1)) c else c
  | Err _ => c
  end.

Lemma content_length_file mime path contents range :
  len contents ≤ u64_max →
  let r := file_response mime path contents range in
  (rsp_status r = 200 ∨ rsp_status r = 206) ∧ content_length r = len (rsp_body r) ∨
  rsp_status r = 416.
Proof.
  intros Hlen. unfold file_response, content_length.
  assert (∀ n, 0 ≤ n ≤ u64_max → parse_unsigned u64_max (trim (show n)) = Some n) as Hshow.
  { intros n Hn. rewrite trim_digits by (apply show_digits; lia). by apply parse_unsigned_show. }
  destruct (parse_byte_range range (len contents)) as [[[first last]|]|[]] eqn:Hp; simpl; [| |by right].
  - left. split; [by right|]. apply parse_byte_range_inside in Hp as [Hle Hlt]; [|apply len_nonneg].
    rewrite len_slice by lia. by rewrite Hshow by lia.
  - left. split; [by left|]. pose proof (len_nonneg contents). by rewrite Hshow.
Qed.

(** A request to the cache is counted as what it was sent: the bytes of the
    body of a full or partial answer and one request, one miss when a member is
    not there, nothing for anything else.  Only member paths are ever served. *)
Theorem cache_request_is_counted mime root path range env w :
  (∀ d p contents, node_at (in_tree (env 0%nat)) (d ++ p) = Some (Regular contents) →
     len contents ≤ u64_max) →
  let '(r, w', _) := run env 0 (cache_file mime root path range) w in
  w_counters w' = counted r (is_binary_cache_member_path path) (w_counters w) ∧
  w_disk w' = w_disk w ∧
  (is_binary_cache_member_path path = false → r = Err NotFound ∧ w' = w).
Proof.
  intros Hfiles. unfold cache_file. rewrite run_bind. simpl.
  set (r := serve_binary_cache_member_from_root _ _ _ _ _). rewrite run_bind.
  assert (∀ resp, r = Ok resp →
    (rsp_status resp = 200 ∨ rsp_status resp = 206) ∧ content_length resp = len (rsp_body resp) ∨
    rsp_status resp = 416) as Hr.
  { intros resp. subst r. unfold serve_binary_cache_member_from_root. destruct (negb _); [done|].
    destruct (serve_file_from_root _ _ _ _ _) as [resp'|] eqn:E; [|done]. intros [= <-].
    apply served_below_root in E as (parts & d & contents & _ & _ & Hn & ->).
    apply (content_length_file mime (d ++ parts) contents range). by eapply Hfiles. }
  assert (is_binary_cache_member_path path = false → r = Err NotFound) as Hmember.
  { intros Hm. subst r. unfold serve_binary_cache_member_from_root. by rewrite Hm. }
  clearbody r. destruct r as [resp|e].
  - destruct (is_binary_cache_member_path path); [|discriminate (Hmember eq_refl)].
    simpl. destruct (Hr _ eq_refl) as [[Hs Hl]|Hs].
    + assert ((rsp_status resp =? 200) || (rsp_status resp =? 206) = true) as ->
        by (destruct Hs as [-> | ->]; done).
      simpl. rewrite decide_False by (destruct Hs; lia). rewrite Hl. done.
    + rewrite Hs. simpl. by rewrite decide_True.
  - destruct e, (is_binary_cache_member_path path) eqn:Hm; simpl; split_and!; try done;
      intros _; discriminate (Hmember eq_refl).
Qed.

End Egress.

(** ** A concrete codec and a concrete history *)

Module EgressDemo.

(** A record is written as the encoding of its four values. *)
Definition envelope (since : string) (m b r : Z) : Value := Object
  [("counters_since", Str since); ("missing_requests_total", Num (PosInt m));
   ("served_bytes_total", Num (PosInt b)); ("served_requests_total", Num (PosInt r))].

#[local] Instance codec : EgressCodec := {|
  envelope_to_vec _ _ v := match v with
    | Object [(_, Str since); (_, Num (PosInt m)); (_, Num (PosInt b)); (_, Num (PosInt r))] =>
        bits (encode (since, m, b, r))
    | _ => ""
    end;
  envelope_from_slice s := match stdpp.countable.decode (A := string * Z * Z * Z) (from_bits s) with
    | Some (since, m, b, r) => Some (RECORD_SCHEMA, VERSION, envelope since m b r)
    | None => None
    end;
  datetime_to_string t := bits (encode t);
  datetime_from_str s := stdpp.countable.decode (from_bits s);
  rfc3339_secs t := show t |}.

#[local] Instance codec_laws : EgressCodecLaws.
Proof.
  split.
  - intros t _. simpl. by rewrite from_bits_bits, decode_encode.
  - intros t. simpl. by rewrite from_bits_bits, decode_encode.
Qed.

(** A cache with one archive of five bytes. *)
Definition hash : string := "0000000000000000000000000000000000000000000000000000".
Definition member : string := "nar/" +:+ hash +:+ ".nar".
Definition tree : node :=
  Directory [("cache", Directory [("nar", Directory [(hash +:+ ".nar", Regular "12345")])])].
Definition mime (_ : string) : string := "application/octet-stream".
Definition input (w : WriteOutcome) : Input := {| in_tree := tree; in_write := w |}.
Definition get_member : task unit := cache_file mime ["cache"] member None ≫= λ _, Ret tt.

Definition snap (b r : Z) : CacheEgressSnapshot := {|
  sn_served_bytes_total := b; sn_served_requests_total := r; sn_missing_requests_total := 0;
  sn_counters_since := "7" |}.

Definition report (s : CacheEgressSnapshot) (persisted : bool) (e : nat) : Report :=
  {| rp_snapshot := s; rp_persisted := persisted; rp_epoch := e |}.

(** A report that nothing disturbs. *)
Lemma report_steps ts w reps e i :
  rtc (nstep mime ["cache"])
    {| n_tasks := ts; n_reporter := None; n_world := w; n_reports := reps; n_epoch := e |}
    {| n_tasks := ts; n_reporter := None; n_world := (checkpoint (snapshot_of (w_counters w)) i w).2;
       n_reports := report (snapshot_of (w_counters w))
                     (is_ok (checkpoint (snapshot_of (w_counters w)) i w).1) e :: reps; n_epoch := e |}.
Proof.
  eapply rtc_l; [apply nstep_report|]. do 3 (eapply rtc_l; [apply (nstep_act _ _ _ _ _ _ i)|]).
  eapply rtc_l; [apply (nstep_act _ _ _ _ (checkpoint (snapshot_of (w_counters w))) _ i)|].
  apply rtc_once, nstep_reported.
Qed.

Definition after_tree (t : node) : task unit :=
  (record (classify_cache_response
     (serve_binary_cache_member_from_root mime t ["cache"] member None)
     (is_binary_cache_member_path member)) ≫= λ _,
   Ret (serve_binary_cache_member_from_root mime t ["cache"] member None)) ≫= λ _, Ret tt.

Lemma after_tree_member : after_tree tree = (record (Served 5) ≫= λ _, Ret tt).
Proof.
  unfold after_tree.
  replace (classify_cache_response _ _) with (Served 5) by (vm_compute; reflexivity). reflexivity.
Qed.

(** A request for the member that nothing disturbs. *)
Lemma request_steps w reps e :
  rtc (nstep mime ["cache"])
    {| n_tasks := []; n_reporter := None; n_world := w; n_reports := reps; n_epoch := e |}
    {| n_tasks := []; n_reporter := None;
       n_world := set_counters (counted (Ok (file_response mime [] "12345" None)) true
                                  (w_counters w)) w;
       n_reports := reps; n_epoch := e |}.
Proof.
  eapply rtc_l.
  { apply nstep_requests, (pstep_arrive _ [] _ get_member). by exists member, None. }
  eapply rtc_l; [apply nstep_requests, (pstep_act _ [] [] _ _ after_tree (input Written))|].
  match goal with |- context [after_tree ?x] => change x with tree end.
  rewrite after_tree_member.
  eapply rtc_l; [apply nstep_requests, (pstep_act _ [] [] _ _ _ (input Written))|].
  eapply rtc_l; [apply nstep_requests, (pstep_act _ [] [] _ _ _ (input Written))|].
  eapply rtc_l; [apply nstep_requests, (pstep_drop _ [] [] (Ret tt))|]. done.
Qed.

(** Report, serve, stop and start again, report; start with a clock that is far behind, and
    report once more. *)
Lemma three_reports :
  ∃ n, rtc (nstep mime ["cache"]) (started true 7 ∅) n ∧
    n_reports n = [report {| sn_served_bytes_total := 0; sn_served_requests_total := 0;
                             sn_missing_requests_total := 0; sn_counters_since := show (6 - DAY) |} true 1;
                   report (snap 5 1) true 0; report (snap 5 1) true 0; report (snap 0 0) true 0].
Proof.
  eexists. split.
  - etrans; [apply (report_steps [] (restart true 7 ∅) [] 0 (input Written))|].
    etrans; [apply request_steps|]. etrans; [apply (report_steps [] _ _ _ (input Written))|].
    eapply rtc_l; [apply (nstep_restart _ _ _ _ _ _ _ true 8)|].
    etrans; [apply (report_steps [] _ _ _ (input Written))|].
    eapply rtc_l; [apply (nstep_restart _ _ _ _ _ _ _ true (6 - DAY))|].
    apply (report_steps [] _ _ _ (input Written)).
  - vm_compute. reflexivity.
Qed.

Lemma egress_totals_never_go_back_witness :
  sn_served_bytes_total (snap 0 0) ≤ sn_served_bytes_total (snap 5 1) ∧
  sn_counters_since (snap 0 0) = sn_counters_since (snap 5 1).
Proof.
  destruct three_reports as (n & Hn & Hreps).
  destruct (egress_totals_never_go_back mime ["cache"] ∅ true 7 n (report (snap 5 1) true 0)
    [report (snap 5 1) true 0] (report (snap 0 0) true 0) [] [_] Hn Hreps eq_refl eq_refl) as (H & _ & _ & H').
  split; [exact H|exact H'].
Defined.

Lemma small_files d p contents :
  node_at tree (d ++ p) = Some (Regular contents) → len contents ≤ u64_max.
Proof.
  generalize (d ++ p). intros [|a [|b [|c [|x l]]]]; simpl; try done; intros H;
    repeat (case_bool_decide; simpl in H; try done). injection H as <-. by vm_compute.
Qed.

Lemma cache_request_is_counted_witness :
  served_bytes (w_counters (run (λ _, input Written) 0
    (cache_file mime ["cache"] member None) (restart true 7 ∅)).1.2) = 5.
Proof.
  pose proof (cache_request_is_counted mime ["cache"] member None (λ _, input Written)
    (restart true 7 ∅) small_files) as H.
  assert ((run (λ _, input Written) 0 (cache_file mime ["cache"] member None) (restart true 7 ∅)).1.1
    = Ok (with_cache_control "public, max-age=31536000, immutable"
            (file_response mime [] "12345" None))) as Hr by (vm_compute; reflexivity).
  revert H Hr. destruct (run _ _ _ _) as [[r w'] n]. simpl. intros [Hc _] ->. rewrite Hc.
  vm_compute. reflexivity.
Defined.

(** A report whose write failed tells the server totals a restart forgets: the
    next report is lower, although the module's documentation says that the
    server never sees a total go backwards. *)
Theorem unpersisted_totals_go_back :
  ∃ n, rtc (nstep mime ["cache"]) (started true 7 ∅) n ∧
    n_reports n = [report (snap 0 0) true 0; report (snap 5 1) false 0].
Proof.
  eexists. split.
  - etrans; [apply request_steps|].
    etrans; [apply (report_steps [] _ _ _ (input FailedBefore))|].
    eapply rtc_l; [apply (nstep_restart _ _ _ _ _ _ _ true 7)|apply (report_steps [] _ _ _ (input Written))].
  - vm_compute. reflexivity.
Qed.

End EgressDemo.
