(* ===== verification/Boot.v ===== *)
(** * Network boot: profiles and iPXE scripts

    [src/models.rs] (boot profiles, devices, MAC addresses, tags) and
    [src/boot.rs]: which profile a machine boots and the iPXE scripts that are
    rendered for it.  A script is the list of its lines; [script_text] ends each
    with a line feed, as [writeln!] and the literals of the source do.
    Percent-encoding ([urlencoding::encode]) and Unicode lower-casing are
    arguments. *)

From stdpp Require Import sorting base gmap list strings.
From Stdlib Require Import Ascii ZArith Lia.
From S2P Require Import Prelude RustStr DbText.

#[local] Open Scope Z_scope.
#[local] Open Scope nest_scope.

(** ** [src/models.rs] *)

Inductive BootProfileType := LocalDisk | NestInstaller | CustomIpxe.
#[global] Instance profile_type_eq_dec : EqDecision BootProfileType.
Proof. solve_decision. Defined.

Definition profile_type_str (t : BootProfileType) : string :=
  match t with
  | LocalDisk => "local_disk"
  | NestInstaller => "nest_installer"
  | CustomIpxe => "custom_ipxe"
  end.

Definition profile_type_from_str (value : string) : AppResult BootProfileType :=
  if bool_decide (value = "local_disk") then Ok LocalDisk
  else if bool_decide (value = "nest_installer") then Ok NestInstaller
  else if bool_decide (value = "custom_ipxe") then Ok CustomIpxe
  else invalid ("unsupported boot profile type '" +:+ value +:+ "'").

Record Device := {
  dev_id : Z;
  dev_mac : string;
  dev_hostname : option string;
  dev_serial_number : option string;
  dev_last_seen_at : option string;
  dev_last_selected_profile_id : option Z;
  dev_notes : string;
  dev_tags : list string;
  dev_default_profile_id : option Z;
  dev_one_time_profile_id : option Z;
  dev_one_time_consumed_at : option string;
  dev_created_at : string;
  dev_updated_at : string;
}.

Record BootProfile := {
  prof_id : Z;
  prof_managed_profile_id : option string;
  prof_name : string;
  prof_description : string;
  prof_type : BootProfileType;
  prof_enabled : bool;
  prof_is_default : bool;
  prof_one_time : bool;
  prof_raw_script : option string;
  prof_created_at : string;
  prof_updated_at : string;
}.

(** Pairs of a text's bytes. *)
Fixpoint pairs (l : list ascii) : list string :=
  match l with
  | a :: b :: l => String a (String b "") :: pairs l
  | _ => []
  end.

Definition normalize_mac (input : string) : AppResult string :=
  let compact := to_ascii_lowercase (join "" (split ":" (replace_byte "-" ":" (trim input)))) in
  if negb (len compact =? 12) || negb (all_bytes is_hexdigit compact)
  then invalid ("invalid MAC address '" +:+ input +:+ "'")
  else Ok (join ":" (pairs (bytes compact))).

Definition clean_optional_string (value : option string) : option string :=
  s ← value; let trimmed := trim s in if is_empty trimmed then None else Some trimmed.

Fixpoint dedup (l : list string) : list string :=
  match l with
  | a :: ((b :: _) as l') => if bool_decide (a = b) then dedup l' else a :: dedup l'
  | _ => l
  end.

Definition clean_tags (tags : list string) : list string :=
  dedup (merge_sort String.le
    (List.filter (λ tag, negb (is_empty tag)) ((λ tag, to_ascii_lowercase (trim tag)) <$> tags))).

(** ** Selection *)

Inductive SelectionSource := OneTime | Assigned | AutomaticEnrollment | Menu.
#[global] Instance selection_source_eq_dec : EqDecision SelectionSource.
Proof. solve_decision. Defined.

Record ProfileSelection := {
  sel_profile : option BootProfile;
  sel_source : SelectionSource;
}.

Definition has_script (raw_script : option string) : bool :=
  match raw_script with Some script => negb (is_empty (trim script)) | None => false end.

Definition profile_has_boot_action (p : BootProfile) : bool :=
  match prof_type p with
  | LocalDisk | NestInstaller => true
  | CustomIpxe => has_script (prof_raw_script p)
  end.

Definition find_enabled_profile (profiles : list BootProfile) (id : Z) : option BootProfile :=
  List.find (λ p, (prof_id p =? id) && prof_enabled p && profile_has_boot_action p) profiles.

Definition menu_selection : ProfileSelection :=
  {| sel_profile := None; sel_source := Menu |}.

Definition enrollment_candidate (p : BootProfile) : bool :=
  prof_enabled p && prof_is_default p && negb (prof_one_time p)
  && bool_decide (prof_type p = NestInstaller) && profile_has_boot_action p.

Definition unambiguous_default_enrollment (profiles : list BootProfile) : option BootProfile :=
  match List.filter enrollment_candidate profiles with
  | [p] => Some p
  | _ => None
  end.

Definition choose_profile (device : option Device) (enabled_profiles : list BootProfile)
    (allow_automatic_enrollment : bool) : ProfileSelection :=
  match device with
  | Some device =>
      match id ← dev_one_time_profile_id device; find_enabled_profile enabled_profiles id with
      | Some p => {| sel_profile := Some p; sel_source := OneTime |}
      | None =>
          match id ← dev_default_profile_id device; find_enabled_profile enabled_profiles id with
          | Some p => {| sel_profile := Some p; sel_source := Assigned |}
          | None => menu_selection
          end
      end
  | None =>
      if allow_automatic_enrollment then
        match unambiguous_default_enrollment enabled_profiles with
        | Some p => {| sel_profile := Some p; sel_source := AutomaticEnrollment |}
        | None => menu_selection
        end
      else menu_selection
  end.

(** ** Scripts *)

Definition script_text (lines : list string) : string :=
  foldr (λ line rest, line +:+ nl +:+ rest) "" lines.

Definition ipxe_text (value : string) : string :=
  of_chars ((λ c, if is_control c then [" "%char] else c) <$> chars value).

Definition local_attempt (label_prefix failure_label : string) : list string := [
  "echo Starting the installed system";
  "iseq ${platform} efi && goto " +:+ label_prefix +:+ "_efi || goto " +:+ label_prefix +:+ "_bios";
  ":" +:+ label_prefix +:+ "_efi";
  "sanboot --no-describe --drive 0x80 || goto " +:+ label_prefix +:+ "_efi_handoff";
  "goto end";
  ":" +:+ label_prefix +:+ "_efi_handoff";
  "echo Returning control to UEFI for the next boot entry";
  "set tiaris-local-handoff 1";
  "exit 1";
  ":" +:+ label_prefix +:+ "_bios";
  "sanboot --no-describe --drive 0x80 || goto " +:+ failure_label;
  "goto end" ].

Definition local_body : list string :=
  local_attempt "local" "local_exit" ++
  [ ":local_exit"; "echo Returning failure to firmware for local boot"; "exit 1" ].

Definition ensure_trailing_newline (value : string) : string :=
  if ends_with nl value then value else value +:+ nl.

Definition ensure_ipxe_header (script : string) : string :=
  if starts_with "#!ipxe" (trim_start script) then ensure_trailing_newline script
  else "#!ipxe" +:+ nl +:+ ensure_trailing_newline script.

Definition render_profile_script (p : BootProfile) : AppResult string :=
  let header := [ "#!ipxe"; "echo Tiaris Nest: " +:+ ipxe_text (prof_name p) ] in
  match prof_type p with
  | LocalDisk => Ok (script_text (header ++ local_body))
  | NestInstaller =>
      Ok (script_text (header ++
        [ "echo Nest installer profiles require a per-client boot session"; "sleep 5"; "exit 1" ]))
  | CustomIpxe =>
      match prof_raw_script p with
      | Some script =>
          if negb (is_empty (trim script)) then Ok (ensure_ipxe_header script)
          else Ok (script_text (header ++
                 [ "echo Custom iPXE profile has no script configured"; "sleep 5"; "exit 1" ]))
      | None => Ok (script_text (header ++
                 [ "echo Custom iPXE profile has no script configured"; "sleep 5"; "exit 1" ]))
      end
  end.

Section Menu.
Context (urlencode lowercase : string → string).

Definition query_value (value : option string) (fallback : string) : string :=
  match value with Some v => urlencode v | None => fallback end.

(** [sort_by_cached_key]: default first, then by name, then by identifier. *)
Definition menu_le (x y : BootProfile) : Prop :=
  (prof_is_default x = true ∧ prof_is_default y = false) ∨
  (prof_is_default x = prof_is_default y ∧
   let a := lowercase (prof_name x) in let b := lowercase (prof_name y) in
   String.le a b ∧ (a = b → prof_id x ≤ prof_id y)).
#[global] Instance menu_le_dec : RelDecision menu_le.
Proof. unfold menu_le. intros x y. apply _. Defined.

Definition on_menu (p : BootProfile) : bool :=
  prof_enabled p && negb (prof_one_time p) && negb (bool_decide (prof_type p = LocalDisk))
  && profile_has_boot_action p.

Definition menu_profiles (profiles : list BootProfile) : list BootProfile :=
  merge_sort menu_le (List.filter on_menu profiles).

Definition IPXE_MENU_BACKGROUND_PATH : string := "assets/pxe-menu.png".

Definition menu_theme (public_base_url : string) : list string :=
  let background_url := match asset_url urlencode public_base_url IPXE_MENU_BACKGROUND_PATH with
                        | Ok url => url | Err _ => "" end in
  [ "# Tiaris boot menu theme, aligned with the ISO GRUB palette.";
    "console --x 1024 --y 864 --picture " +:+ background_url +:+
      " --left 280 --right 280 --top 260 --bottom 140 --depth 32 || console --x 1024 --y 768 --depth 32 || echo Tiaris Nest: using firmware text console";
    "colour --basic 0 --rgb 0x0e0f12 0"; "colour --basic 3 --rgb 0xeb9b46 1";
    "colour --basic 7 --rgb 0xa4a8b0 2"; "colour --basic 6 --rgb 0x6f747d 3";
    "colour --basic 4 --rgb 0x241a10 4"; "colour --basic 1 --rgb 0xdd0034 5";
    "colour --basic 6 --rgb 0x16b8b8 6"; "colour --basic 7 --rgb 0xffffff 7";
    "cpair --foreground 2 --background 0 0"; "cpair --foreground 2 --background 0 1";
    "cpair --foreground 1 --background 4 2"; "cpair --foreground 3 --background 0 3";
    "cpair --foreground 7 --background 0 4"; "cpair --foreground 7 --background 5 5";
    "cpair --foreground 6 --background 0 6"; "cpair --foreground 1 --background 4 7" ].

Definition menu_item (p : BootProfile) : string :=
  "item profile_" +:+ show (prof_id p) +:+ " " +:+ ipxe_text (prof_name p).

Definition menu_entry (public_base_url : string) (mac serial : option string) (p : BootProfile)
    : list string :=
  [ ":profile_" +:+ show (prof_id p);
    "chain --autofree " +:+ trim_end_byte "/" public_base_url +:+ "/boot/select/"
      +:+ show (prof_id p) +:+ "?mac=" +:+ query_value mac "${mac}"
      +:+ "&serial=" +:+ query_value serial "${serial}" +:+ " || goto failed";
    "goto end"; "" ].

Definition menu_lines (public_base_url : string) (profiles : list BootProfile)
    (mac serial : option string) (timeout_ms : Z) (try_local_boot_first : bool) : list string :=
  let entries := menu_profiles profiles in
  let timed := 0 <? timeout_ms in
  [ "#!ipxe" ]
  ++ (if try_local_boot_first
      then local_attempt "known_local" "known_menu" ++ [ ""; ":known_menu" ] else [])
  ++ menu_theme public_base_url
  ++ [ "set tiaris-title TIARIS";
       "set tiaris-subtitle PXE BOOT - NEST BOOT - X86_64 - UEFI" ]
  ++ (if timed
      then [ "set tiaris-timeout-copy Booting the highlighted entry automatically - press any key to pause";
             "set menu-timeout " +:+ show timeout_ms ] else [])
  ++ [ "menu ${tiaris-title}"; "item --gap ${tiaris-subtitle}"; "item --gap";
       "item --key l local Boot local disk" ]
  ++ (menu_item <$> entries)
  ++ [ "item --gap" ]
  ++ (if timed then [ "item --gap ${tiaris-timeout-copy}" ] else [])
  ++ [ "item --gap tiaris-nest - pxe - x86_64 - uefi";
       (if timed
        then "choose --timeout ${menu-timeout} --default local selected || goto local"
        else "choose --default local selected || goto local");
       "goto ${selected}"; "" ]
  ++ concat (menu_entry public_base_url mac serial <$> entries)
  ++ [ ":local" ] ++ local_body
  ++ [ ""; ":failed"; "echo Tiaris Nest failed to load the selected profile"; "sleep 5";
       "goto local"; ""; ":end" ].

Definition render_menu (public_base_url : string) (profiles : list BootProfile)
    (mac serial : option string) (timeout_ms : Z) (try_local_boot_first : bool) : string :=
  script_text (menu_lines public_base_url profiles mac serial timeout_ms try_local_boot_first).
End Menu.
