(* ===== verification/BootProofs.v ===== *)
(** * Network boot: profile selection, menus and identifiers

    Lemmas and theorems about [Boot]: which profile is chosen, that a rendered
    menu is the list of lines it was meant to be, that its jumps have labels,
    and the normal forms of MAC addresses and tags. *)

From stdpp Require Import sorting base gmap list strings pretty.
From Stdlib Require Import Ascii ZArith Lia.
From S2P Require Import Prelude RustStr DbText DbTextProofs Boot.

#[local] Open Scope Z_scope.
#[local] Open Scope nest_scope.

(** ** Selection *)

(** [p] can boot: it is listed, enabled and has something to run. *)
Definition bootable (profiles : list BootProfile) (p : BootProfile) : Prop :=
  p ∈ profiles ∧ prof_enabled p = true ∧ profile_has_boot_action p = true.

Lemma find_enabled_profile_Some profiles id p :
  find_enabled_profile profiles id = Some p → bootable profiles p ∧ prof_id p = id.
Proof.
  unfold find_enabled_profile. intros [Hin Hp]%List.find_some. bool_prop.
  unfold bootable. rewrite list_elem_of_In. done.
Qed.

Lemma find_enabled_profile_None profiles id :
  find_enabled_profile profiles id = None → ∀ p, bootable profiles p → prof_id p ≠ id.
Proof.
  intros Hn p (Hin & He & Ha) <-. rewrite list_elem_of_In in Hin.
  pose proof (List.find_none _ _ Hn p Hin) as Hf. simpl in Hf.
  by rewrite Z.eqb_refl, He, Ha in Hf.
Qed.

(** The enrolment profile exists when the list has exactly one candidate. *)
Lemma unambiguous_default_enrollment_Some profiles p :
  unambiguous_default_enrollment profiles = Some p ↔
  List.filter enrollment_candidate profiles = [p].
Proof.
  unfold unambiguous_default_enrollment.
  destruct (List.filter enrollment_candidate profiles) as [|q [|r l]]; naive_solver.
Qed.

Lemma enrollment_candidate_bootable profiles p :
  List.filter enrollment_candidate profiles = [p] →
  bootable profiles p ∧ prof_is_default p = true ∧ prof_one_time p = false ∧
  prof_type p = NestInstaller.
Proof.
  intros Hf. assert (Hin : In p (List.filter enrollment_candidate profiles)) by (rewrite Hf; by left).
  apply filter_In in Hin as [Hin Hc]. unfold enrollment_candidate in Hc. bool_prop.
  unfold bootable. rewrite list_elem_of_In. done.
Qed.

(** [id] is an assignment that some listed profile can serve. *)
Definition serves (profiles : list BootProfile) (id : option Z) (p : BootProfile) : Prop :=
  bootable profiles p ∧ id = Some (prof_id p).

Lemma assignment_found profiles (id : option Z) :
  match i ← id; find_enabled_profile profiles i with
  | Some p => serves profiles id p
  | None => ∀ p, ¬ serves profiles id p
  end.
Proof.
  destruct id as [i|]; simpl; [|by intros p [_ ?]].
  destruct (find_enabled_profile profiles i) as [p|] eqn:E.
  - apply find_enabled_profile_Some in E as [? <-]. by split.
  - intros p [Hb Hi]. simplify_eq. by eapply find_enabled_profile_None.
Qed.

(** What [choose_profile] promises: a decision table over what the device is
    assigned and what the list can serve. *)
Definition selection_spec (device : option Device) (profiles : list BootProfile)
    (allow : bool) (sel : ProfileSelection) : Prop :=
  match sel_source sel, sel_profile sel with
  | OneTime, Some p => ∃ d, device = Some d ∧ serves profiles (dev_one_time_profile_id d) p
  | Assigned, Some p => ∃ d, device = Some d ∧ serves profiles (dev_default_profile_id d) p ∧
      (∀ q, ¬ serves profiles (dev_one_time_profile_id d) q)
  | AutomaticEnrollment, Some p => device = None ∧ allow = true ∧
      List.filter enrollment_candidate profiles = [p] ∧ bootable profiles p ∧
      prof_type p = NestInstaller ∧ prof_one_time p = false
  | Menu, None =>
      match device with
      | Some d => ∀ q, ¬ serves profiles (dev_one_time_profile_id d) q ∧
                       ¬ serves profiles (dev_default_profile_id d) q
      | None => allow = false ∨ count enrollment_candidate profiles ≠ 1%nat
      end
  | _, _ => False
  end.

Lemma choose_profile_spec device profiles allow :
  let sel := choose_profile device profiles allow in
  selection_spec device profiles allow sel ∧
  (∀ p, sel_profile sel = Some p → bootable profiles p).
Proof.
  intros sel. subst sel. unfold choose_profile. destruct device as [d|].
  - pose proof (assignment_found profiles (dev_one_time_profile_id d)) as H1.
    destruct (dev_one_time_profile_id d ≫= _) as [p|].
    { split; [by exists d|]. intros q [= <-]. apply H1. }
    pose proof (assignment_found profiles (dev_default_profile_id d)) as H2.
    destruct (dev_default_profile_id d ≫= _) as [p|]; [|by split; [intros q; split|]].
    split; [by exists d|]. intros q [= <-]. apply H2.
  - destruct allow; [|by split; [left|]].
    destruct (unambiguous_default_enrollment profiles) as [p|] eqn:E.
    + apply unambiguous_default_enrollment_Some in E.
      destruct (enrollment_candidate_bootable _ _ E) as (?&?&?&?).
      split; [|by intros q [= <-]]. by split_and!.
    + split; [|done]. right. unfold count. intros Hlen.
      destruct (List.filter enrollment_candidate profiles) as [|p [|? ?]] eqn:Hf; [done| |done].
      assert (unambiguous_default_enrollment profiles = Some p)
        by by apply unambiguous_default_enrollment_Some. congruence.
Qed.

(** C36. [choose_profile] follows the decision table [selection_spec] for every
    device, list of profiles and setting: a one-time assignment that can boot
    wins over the device's default, which is used only when no listed profile
    serves the one-time assignment; an unknown device is enrolled automatically
    only when that is allowed and the list has exactly one default, permanent,
    runnable installer profile; in every other case the menu is shown.  A chosen
    profile is always listed, enabled and runnable. *)
Theorem choose_profile_decides device profiles allow :
  let sel := choose_profile device profiles allow in
  selection_spec device profiles allow sel ∧
  (∀ p, sel_profile sel = Some p → bootable profiles p).
Proof. apply choose_profile_spec. Qed.

(** ** Lines *)

Definition lf : ascii := "010"%char.
(** A text of one line. *)
Definition one_line (s : string) : bool := all_bytes (λ a, negb (Ascii.eqb a lf)) s.

Lemma one_line_app s t : one_line (s +:+ t) = one_line s && one_line t.
Proof. apply all_bytes_app. Qed.

Lemma split_cons_piece c x t :
  all_bytes (λ a, negb (Ascii.eqb a c)) x = true → split c (x +:+ String c t) = x :: split c t.
Proof.
  unfold all_bytes. induction x as [|a x IH].
  - intros _. change ("" +:+ String c t) with (String c t). cbn [split].
    by rewrite Ascii.eqb_refl.
  - intros [Ha Hx]%andb_true_iff. rewrite str_app_cons. cbn [split].
    apply negb_true_iff in Ha. rewrite Ha. by rewrite (IH Hx).
Qed.

Lemma split_no_sep c x :
  all_bytes (λ a, negb (Ascii.eqb a c)) x = true → split c x = [x].
Proof.
  unfold all_bytes. induction x as [|a x IH]; [done|].
  intros [Ha Hx]%andb_true_iff. cbn [split]. apply negb_true_iff in Ha. by rewrite Ha, (IH Hx).
Qed.

Lemma split_join c ws :
  ws ≠ [] → forallb (all_bytes (λ a, negb (Ascii.eqb a c))) ws = true →
  split c (join (String c "") ws) = ws.
Proof.
  induction ws as [|w [|v ws] IH]; [done| |]; intros _; cbn [forallb].
  - intros [Hw _]%andb_true_iff. by apply split_no_sep.
  - intros [Hw Hws]%andb_true_iff. rewrite join_cons_nonempty by done.
    change (String c "" +:+ ?r) with (String c r). rewrite split_cons_piece by done.
    f_equal. by apply IH.
Qed.

Lemma split_script_text lines :
  forallb one_line lines = true → split lf (script_text lines) = lines ++ [""].
Proof.
  induction lines as [|line lines IH]; [done|]. cbn [forallb].
  intros [Hl Hls]%andb_true_iff. cbn [script_text foldr].
  change (nl +:+ ?r) with (String lf r). rewrite split_cons_piece by done.
  cbn [app]. f_equal. by apply IH.
Qed.

Lemma graphic_no_byte a s :
  graphic a = false → all_bytes graphic s = true → all_bytes (λ b, negb (Ascii.eqb b a)) s = true.
Proof.
  intros Ha. apply all_bytes_impl. intros b Hb. destruct (Ascii.eqb_spec b a); [congruence|done].
Qed.

Lemma graphic_one_line s : all_bytes graphic s = true → one_line s = true.
Proof. apply graphic_no_byte. done. Qed.

Lemma all_bytes_trim_end_byte p c s : all_bytes p s = true → all_bytes p (trim_end_byte c s) = true.
Proof.
  unfold all_bytes, trim_end_byte. rewrite bytes_of_bytes, !forallb_forall. intros Hp a Ha.
  apply Hp. apply in_rev in Ha. apply in_rev.
  revert Ha. generalize (rev (bytes s)). intros l. induction l as [|b l IH]; [done|].
  simpl. destruct (Ascii.eqb c b); [auto|done].
Qed.

(** Decimal texts are graphic. *)
Lemma digit_of_N_graphic x : (x < 10)%N → graphic (pretty_N_char x) = true.
Proof.
  intros Hx. assert (x ∈ [0;1;2;3;4;5;6;7;8;9]%N) as Hin by (set_unfold; lia).
  set_unfold in Hin. destruct_or! Hin; subst; done.
Qed.

Lemma pretty_N_go_graphic x s :
  all_bytes graphic s = true → all_bytes graphic (pretty_N_go x s) = true.
Proof.
  revert s. induction (N.lt_wf_0 x) as [x _ IH]. intros s Hs.
  destruct (decide (0 < x)%N) as [Hx|Hx].
  - rewrite pretty_N_go_step by done. apply IH; [apply N.div_lt; lia|].
    unfold all_bytes in *. cbn [bytes forallb]. rewrite Hs, andb_true_r.
    apply digit_of_N_graphic. apply N.mod_lt. lia.
  - assert (x = 0)%N as -> by lia. by rewrite pretty_N_go_0.
Qed.

Lemma pretty_N_graphic (x : N) : all_bytes graphic (pretty x) = true.
Proof. unfold pretty, pretty_N. case_decide; [done|]. by apply pretty_N_go_graphic. Qed.

Lemma show_graphic z : all_bytes graphic (show z) = true.
Proof.
  unfold show. destruct z as [|p|p]; [done|apply pretty_N_graphic|].
  change (pretty (Z.neg p)) with ("-" +:+ pretty (N.pos p)).
  by rewrite all_bytes_app, pretty_N_graphic.
Qed.

(** In UTF-8 an ASCII byte is a character of its own: no continuation byte
    follows it.  Every Rust [str] has this. *)
Definition ascii_alone (s : string) : bool :=
  forallb (λ g, match g with a :: _ :: _ => 128 <=? byte a | _ => true end) (chars s).

(** [ipxe_text] leaves no control character, hence no line feed. *)
Lemma ipxe_text_one_line s : ascii_alone s = true → one_line (ipxe_text s) = true.
Proof.
  unfold ascii_alone, one_line, ipxe_text, of_chars, all_bytes.
  rewrite bytes_of_bytes, !forallb_forall. intros Hal a Ha.
  apply in_concat in Ha as (g & Hg & Ha).
  apply list_elem_of_In, list_elem_of_fmap in Hg as (c & -> & Hc).
  pose proof (chars_of_well_grouped (bytes s)) as [Hall _].
  rewrite Forall_forall in Hall. destruct (Hall c Hc) as (b & cs & -> & Hcs).
  destruct (Ascii.eqb_spec a lf) as [->|]; [exfalso|done].
  specialize (Hal (b :: cs)). rewrite <- list_elem_of_In in Hal. specialize (Hal Hc).
  destruct (is_control (b :: cs)) eqn:Hctl; [by destruct Ha as [[=]|[]]|].
  destruct Ha as [->|Ha]; [by destruct cs|].
  rewrite Forall_forall in Hcs. apply list_elem_of_In, Hcs in Ha. done.
Qed.

(** ** The menu *)

Section MenuProofs.
Context (urlencode lowercase : string → string).

#[local] Instance string_le_trans : Transitive String.le.
Proof. apply _. Qed.

Lemma menu_le_trans : Transitive (menu_le lowercase).
Proof.
  intros x y z. unfold menu_le. intros [[Hx Hy]|[Hxy [Hs Hi]]] [[Hy' Hz]|[Hyz [Hs' Hi']]].
  - left. done.
  - left. by rewrite Hx, <- Hyz.
  - left. by rewrite Hxy.
  - right. split; [congruence|]. split; [by etrans|]. intros Heq.
    assert (lowercase (prof_name x) = lowercase (prof_name y)) as E.
    { apply (anti_symm String.le); [done|]. by rewrite Heq. }
    etrans; [by apply Hi|]. apply Hi'. congruence.
Qed.

Lemma menu_le_total : Total (menu_le lowercase).
Proof.
  intros x y. unfold menu_le.
  destruct (prof_is_default x) eqn:Hx, (prof_is_default y) eqn:Hy;
    [|by left; left|by right; left|];
    (destruct (decide (lowercase (prof_name x) = lowercase (prof_name y))) as [E|E];
     [destruct (Z.le_ge_cases (prof_id x) (prof_id y));
      [left|right]; right; (split; [done|]); rewrite E; by split; [reflexivity|]|];
     destruct (total String.le (lowercase (prof_name x)) (lowercase (prof_name y)));
     [left|right]; right; (split; [done|]); split; [done|congruence|done|congruence]).
Qed.

Lemma menu_profiles_listed profiles p : p ∈ menu_profiles lowercase profiles → p ∈ profiles.
Proof.
  unfold menu_profiles. rewrite merge_sort_Permutation, list_elem_of_In, filter_In.
  rewrite <- list_elem_of_In. by intros [? _].
Qed.

(** The menu lists exactly the enabled, permanent, runnable profiles other
    than the local disk, each as often as the database returned it, with the
    default first, then by lower-cased name and identifier. *)
Theorem menu_profiles_sorted profiles :
  menu_profiles lowercase profiles ≡ₚ List.filter on_menu profiles ∧
  StronglySorted (menu_le lowercase) (menu_profiles lowercase profiles) ∧
  (∀ p, p ∈ menu_profiles lowercase profiles ↔
     bootable profiles p ∧ prof_one_time p = false ∧ prof_type p ≠ LocalDisk).
Proof.
  pose proof menu_le_total. pose proof menu_le_trans.
  assert (menu_profiles lowercase profiles ≡ₚ List.filter on_menu profiles) as Hp
    by apply merge_sort_Permutation.
  split_and!; [done|by apply StronglySorted_merge_sort; apply _|].
  intros p. rewrite Hp, list_elem_of_In, filter_In, <- list_elem_of_In.
  unfold on_menu, bootable. rewrite !andb_true_iff, !negb_true_iff, bool_decide_eq_false. tauto.
Qed.

(** Jumps and labels of a script. *)
Definition labels (lines : list string) : list string := omap (strip_prefix ":") lines.
Fixpoint goto_targets (words : list string) : list string :=
  match words with
  | [] => []
  | w :: ws => (if bool_decide (w = "goto") then take 1 ws else []) ++ goto_targets ws
  end.
(** The targets named by a command line; the text of a menu item is not one. *)
Definition jumps (line : string) : list string :=
  if starts_with "item " line then [] else goto_targets (split " " line).

Definition profile_label (p : BootProfile) : string := "profile_" +:+ show (prof_id p).
Definition no_space (s : string) : bool := all_bytes (λ a, negb (Ascii.eqb a " ")) s.

Lemma split_join_words ws :
  ws ≠ [] → forallb no_space ws = true → split " " (join " " ws) = ws.
Proof. apply split_join. Qed.

Lemma labels_app l k : labels (l ++ k) = labels l ++ labels k.
Proof. apply omap_app. Qed.

Lemma labels_items entries : labels (menu_item <$> entries) = [].
Proof. induction entries as [|p entries IH]; [done|]. exact IH. Qed.

Lemma labels_entries base mac serial entries :
  labels (concat (menu_entry urlencode base mac serial <$> entries)) = profile_label <$> entries.
Proof.
  induction entries as [|p entries IH]; [done|]. rewrite fmap_cons. cbn [concat].
  rewrite labels_app, IH. reflexivity.
Qed.

Definition known_labels (try_local_boot_first : bool) : list string :=
  if try_local_boot_first
  then ["known_local_efi"; "known_local_efi_handoff"; "known_local_bios"; "known_menu"] else [].
Definition tail_labels : list string :=
  ["local"; "local_efi"; "local_efi_handoff"; "local_bios"; "local_exit"; "failed"; "end"].

Lemma menu_labels base profiles mac serial timeout_ms try_local :
  labels (menu_lines urlencode lowercase base profiles mac serial timeout_ms try_local) =
  known_labels try_local ++ (profile_label <$> menu_profiles lowercase profiles) ++ tail_labels.
Proof.
  unfold menu_lines. rewrite !labels_app, labels_items, labels_entries.
  by destruct try_local, (0 <? timeout_ms).
Qed.

Lemma profile_labels_NoDup entries :
  NoDup (prof_id <$> entries) → NoDup (profile_label <$> entries).
Proof.
  intros Hnd. assert (profile_label <$> entries = (λ i, "profile_" +:+ show i) <$> (prof_id <$> entries))
    as -> by by rewrite <- list_fmap_compose.
  apply NoDup_fmap_2; [|done]. intros i j Hij. unfold show in Hij.
  apply (inj (String.append "profile_")) in Hij. by apply (inj pretty) in Hij.
Qed.

Lemma menu_profiles_NoDup profiles :
  NoDup (prof_id <$> profiles) → NoDup (prof_id <$> menu_profiles lowercase profiles).
Proof.
  intros Hnd.
  assert (prof_id <$> menu_profiles lowercase profiles ≡ₚ prof_id <$> List.filter on_menu profiles)
    as Hp by apply fmap_Permutation, merge_sort_Permutation.
  rewrite Hp. clear Hp. induction profiles as [|p profiles IH]; [done|]. apply NoDup_cons in Hnd as [Hp Hnd].
  cbn [List.filter]. destruct (on_menu p); [|auto]. apply NoDup_cons. split; [|auto].
  intros (q & Hq & Hin)%list_elem_of_fmap. apply Hp, list_elem_of_fmap. exists q. split; [done|].
  rewrite list_elem_of_In, filter_In, <- list_elem_of_In in Hin. by destruct Hin.
Qed.

Lemma profile_label_head p t :
  t ∈ known_labels true ++ tail_labels → profile_label p ≠ t.
Proof.
  unfold known_labels, tail_labels, profile_label. intros Ht <-.
  set_unfold in Ht. by destruct_or! Ht.
Qed.

Lemma menu_labels_NoDup profiles try_local :
  NoDup (prof_id <$> profiles) →
  NoDup (known_labels try_local ++ (profile_label <$> menu_profiles lowercase profiles) ++ tail_labels).
Proof.
  intros Hnd%menu_profiles_NoDup%profile_labels_NoDup.
  assert (∀ t, t ∈ profile_label <$> menu_profiles lowercase profiles →
    t ∉ known_labels true ++ tail_labels) as Hdis.
  { intros t (p & -> & _)%list_elem_of_fmap Hin. by eapply profile_label_head. }
  apply NoDup_app. split_and!.
  - destruct try_local; apply (bool_decide_unpack _); vm_compute; exact I.
  - intros t Ht Ht'. apply elem_of_app in Ht' as [Ht'|Ht'].
    + apply (Hdis t Ht'). destruct try_local; set_solver.
    + assert (NoDup (known_labels true ++ tail_labels)) as Hk
        by (apply (bool_decide_unpack _); vm_compute; exact I).
      apply NoDup_app in Hk as (_ & Hk & _). destruct try_local; [by eapply Hk|by apply elem_of_nil in Ht].
  - apply NoDup_app. split_and!; [done| |apply (bool_decide_unpack _); vm_compute; exact I].
    intros t Ht Ht'. apply (Hdis t Ht). set_solver.
Qed.

Section Fixed.
Context (base : string) (mac serial : option string).
Context (base_graphic : all_bytes graphic base = true).
Context (urlencode_graphic : ∀ s, all_bytes graphic (urlencode s) = true).

Lemma query_value_graphic value fallback :
  all_bytes graphic fallback = true → all_bytes graphic (query_value urlencode value fallback) = true.
Proof. by destruct value; simpl. Qed.

Definition select_url (p : BootProfile) : string :=
  trim_end_byte "/" base +:+ "/boot/select/" +:+ show (prof_id p) +:+ "?mac="
  +:+ query_value urlencode mac "${mac}" +:+ "&serial=" +:+ query_value urlencode serial "${serial}".

Lemma select_url_graphic p : all_bytes graphic (select_url p) = true.
Proof.
  unfold select_url.
  by rewrite !all_bytes_app, all_bytes_trim_end_byte, show_graphic, !query_value_graphic.
Qed.

Lemma chain_words p line :
  line ∈ menu_entry urlencode base mac serial p →
  line = ":" +:+ profile_label p ∨ line = "goto end" ∨ line = "" ∨
  line = join " " ["chain"; "--autofree"; select_url p; "||"; "goto"; "failed"].
Proof.
  unfold menu_entry, profile_label. rewrite !elem_of_cons, elem_of_nil.
  intros [->|[->|[->|[->|[]]]]]; [by left| |auto..].
  right; right; right. unfold select_url. cbn [join].
  rewrite !str_app_assoc. reflexivity.
Qed.

(** The [expect] on the built-in background path cannot fail. *)
Definition background_url : string :=
  trim_end_byte "/" base +:+ "/files/" +:+ urlencode "assets" +:+ "/" +:+ urlencode "pxe-menu.png".

Lemma background_asset : asset_url urlencode base IPXE_MENU_BACKGROUND_PATH = Ok background_url.
Proof.
  unfold asset_url.
  assert (sanitize_relative_path IPXE_MENU_BACKGROUND_PATH = Ok ["assets"; "pxe-menu.png"]) as ->
    by (vm_compute; reflexivity). reflexivity.
Qed.

Lemma background_url_graphic : all_bytes graphic background_url = true.
Proof.
  unfold background_url.
  by rewrite !all_bytes_app, all_bytes_trim_end_byte, !urlencode_graphic.
Qed.

Lemma graphic_no_space s : all_bytes graphic s = true → no_space s = true.
Proof. apply graphic_no_byte. done. Qed.

Definition console_words : list string :=
  ["console"; "--x"; "1024"; "--y"; "864"; "--picture"; background_url; "--left"; "280";
   "--right"; "280"; "--top"; "260"; "--bottom"; "140"; "--depth"; "32"; "||"; "console"; "--x";
   "1024"; "--y"; "768"; "--depth"; "32"; "||"; "echo"; "Tiaris"; "Nest:"; "using"; "firmware";
   "text"; "console"].

Lemma menu_theme_lines line :
  line ∈ menu_theme urlencode base →
  line = join " " console_words ∨ (one_line line = true ∧ jumps line = []).
Proof.
  unfold menu_theme. rewrite background_asset. set (console := "console --x 1024 --y 864 --picture " +:+ _).
  assert (console = join " " console_words) as Hc.
  { reflexivity. }
  clearbody console. rewrite elem_of_cons. intros [->|Hin]; [right; done|].
  rewrite elem_of_cons in Hin. destruct Hin as [->|Hin]; [by left|right].
  revert line Hin. apply Forall_forall. repeat constructor.
Qed.

Lemma join_words_one_line ws :
  forallb one_line ws = true → one_line (join " " ws) = true.
Proof.
  induction ws as [|w [|v ws] IH]; [done| |]; cbn [forallb]; intros [Hw Hws]%andb_true_iff; [done|].
  rewrite join_cons_nonempty by done. by rewrite !one_line_app, Hw, IH.
Qed.

(** Every line of a menu: one line, and its jumps go to [local], [failed],
    [end], the chosen item or a label of the local boot attempts. *)
Definition static_targets (try_local : bool) : list string :=
  "${selected}" :: known_labels try_local ++ tail_labels.
Definition line_ok (try_local : bool) (line : string) : Prop :=
  one_line line = true ∧ ∀ t, t ∈ jumps line → t ∈ static_targets try_local.

Definition line_okb (try_local : bool) (line : string) : bool :=
  one_line line && forallb (λ t, bool_decide (t ∈ static_targets try_local)) (jumps line).

Lemma lines_ok_b try_local lines :
  forallb (line_okb try_local) lines = true → Forall (line_ok try_local) lines.
Proof.
  rewrite forallb_forall, Forall_forall. intros H line Hl. rewrite list_elem_of_In in Hl.
  specialize (H line Hl). unfold line_okb in H. apply andb_true_iff in H as [H1 H2].
  split; [done|]. intros t Ht. rewrite forallb_forall in H2. rewrite list_elem_of_In in Ht.
  specialize (H2 t Ht). by apply bool_decide_eq_true in H2.
Qed.

Lemma menu_theme_ok try_local : Forall (line_ok try_local) (menu_theme urlencode base).
Proof.
  rewrite Forall_forall. intros line [->|[Hl Hj]]%menu_theme_lines.
  - pose proof background_url_graphic as Hg. split.
    + apply join_words_one_line. cbn [console_words forallb]. by rewrite (graphic_one_line background_url) by done.
    + intros t. unfold jumps. change (starts_with "item " (join " " console_words)) with false.
      rewrite split_join_words; [|done|].
      * cbn [console_words goto_targets]. rewrite (bool_decide_false (background_url = "goto")).
        { intros Ht. vm_compute in Ht. inversion Ht. }
        intros He. apply (f_equal len) in He. unfold background_url in He.
        rewrite !len_app in He. pose proof (len_nonneg "/"). pose proof (len_nonneg (trim_end_byte "/" base)).
        pose proof (len_nonneg (urlencode "assets")). pose proof (len_nonneg (urlencode "pxe-menu.png")).
        change (len "goto") with 4 in He. change (len "/files/") with 7 in He. lia.
      * cbn [console_words forallb]. by rewrite (graphic_no_space background_url) by done.
  - split; [done|]. rewrite Hj. intros t Ht. by apply elem_of_nil in Ht.
Qed.

Lemma entries_ok try_local entries :
  Forall (line_ok try_local) (concat (menu_entry urlencode base mac serial <$> entries)).
Proof.
  induction entries as [|p entries IH]; [constructor|]. rewrite fmap_cons. cbn [concat].
  apply Forall_app. split; [|done]. rewrite Forall_forall.
  pose proof (select_url_graphic p) as Hg. pose proof (show_graphic (prof_id p)) as Hs.
  intros line [->|[->|[->| ->]]]%chain_words; split; try done.
  - unfold profile_label. rewrite !one_line_app. by rewrite (graphic_one_line (show _)) by done.
  - intros t. unfold jumps. change (starts_with "item " (":" +:+ profile_label p)) with false.
    rewrite split_no_sep; [by intros ?%elem_of_nil|].
    unfold profile_label. rewrite !all_bytes_app. by rewrite (graphic_no_byte " " (show _)) by done.
  - intros t. change (jumps "goto end") with ["end"]. rewrite list_elem_of_singleton. intros ->.
    unfold static_targets, tail_labels. set_solver.
  - intros t Ht. vm_compute in Ht. inversion Ht.
  - apply join_words_one_line. cbn [forallb]. by rewrite (graphic_one_line (select_url p)) by done.
  - intros t. unfold jumps. set (ws := ["chain"; _; _; _; _; _]).
    change (starts_with "item " (join " " ws)) with false.
    rewrite split_join_words; [|done|cbn [ws forallb]; by rewrite (graphic_no_space (select_url p)) by done].
    subst ws. cbn [goto_targets]. rewrite (bool_decide_false (select_url p = "goto")).
    + intros Ht. vm_compute in Ht. assert (t = "failed") as -> by (by inversion Ht as [|? ? ? Ht']; [|inversion Ht']).
      unfold static_targets, tail_labels. set_solver.
    + intros He. apply (f_equal len) in He. unfold select_url in He. rewrite !len_app in He.
      change (len "goto") with 4 in He. change (len "/boot/select/") with 13 in He.
      pose proof (len_nonneg (trim_end_byte "/" base)). pose proof (len_nonneg (show (prof_id p))).
      pose proof (len_nonneg "?mac="). pose proof (len_nonneg "&serial=").
      pose proof (len_nonneg (query_value urlencode mac "${mac}")).
      pose proof (len_nonneg (query_value urlencode serial "${serial}")). lia.
Qed.

Lemma items_ok try_local entries :
  (∀ p, p ∈ entries → ascii_alone (prof_name p) = true) →
  Forall (line_ok try_local) (menu_item <$> entries).
Proof.
  intros Hn. rewrite Forall_fmap, Forall_forall. intros p Hp. unfold menu_item. simpl.
  split; [|intros t Ht; vm_compute in Ht; inversion Ht].
  rewrite !one_line_app, ipxe_text_one_line by auto.
  by rewrite (graphic_one_line (show _)) by apply show_graphic.
Qed.

Lemma timeout_line_ok try_local timeout_ms :
  line_ok try_local ("set menu-timeout " +:+ show timeout_ms).
Proof.
  pose proof (show_graphic timeout_ms) as Hg. split.
  - rewrite one_line_app. by rewrite (graphic_one_line (show _)) by done.
  - intros t. unfold jumps. change ("set menu-timeout " +:+ show timeout_ms)
      with (join " " ["set"; "menu-timeout"; show timeout_ms]).
    set (ws := ["set"; _; _]). change (starts_with "item " (join " " ws)) with false.
    rewrite split_join_words; [|done|cbn [ws forallb]; by rewrite (graphic_no_space (show _)) by done].
    subst ws. cbn [goto_targets take]. destruct (bool_decide (show timeout_ms = "goto"));
      intros Ht; vm_compute in Ht; inversion Ht.
Qed.

Lemma menu_lines_ok profiles timeout_ms try_local :
  (∀ p, p ∈ profiles → ascii_alone (prof_name p) = true) →
  Forall (line_ok try_local)
    (menu_lines urlencode lowercase base profiles mac serial timeout_ms try_local).
Proof.
  intros Hn. unfold menu_lines.
  repeat (apply Forall_app; split); try (apply lines_ok_b; by destruct try_local, (0 <? timeout_ms)).
  - apply menu_theme_ok.
  - destruct (0 <? timeout_ms); [|constructor].
    constructor; [|constructor; [|constructor]].
    + split; [done|]. intros t Ht. vm_compute in Ht. inversion Ht.
    + apply timeout_line_ok.
  - apply items_ok. intros p Hp. by apply Hn, menu_profiles_listed.
  - apply entries_ok.
Qed.
End Fixed.

(** A rendered menu is exactly the lines it was built from.  Whatever the
    profile names, the MAC address and the serial number a request brings are,
    no line is added or broken: splitting the script at line feeds gives back
    [menu_lines] (and the empty text after the last line feed).  [base] is the
    public URL, of visible ASCII characters like the output of percent-encoding. *)
Theorem menu_is_its_lines base profiles mac serial timeout_ms try_local :
  all_bytes graphic base = true →
  (∀ s, all_bytes graphic (urlencode s) = true) →
  (∀ p, p ∈ profiles → ascii_alone (prof_name p) = true) →
  split lf (render_menu urlencode lowercase base profiles mac serial timeout_ms try_local) =
  menu_lines urlencode lowercase base profiles mac serial timeout_ms try_local ++ [""].
Proof.
  intros Hb Hu Hn. apply split_script_text. apply forallb_forall. intros line Hl.
  pose proof (menu_lines_ok base mac serial Hb Hu profiles timeout_ms try_local Hn) as Hok.
  rewrite Forall_forall in Hok. apply Hok. by apply list_elem_of_In.
Qed.

(** Every jump of a menu arrives.  The labels of a menu are those of the
    local boot attempts, one per listed profile and [failed], [end]; no two are
    equal when profile identifiers are unique; every target of a [goto], after
    an error too, is one of them, or the label of the item chosen
    ([${selected}]), and every item offered has its label. *)
Theorem menu_jumps_resolve base profiles mac serial timeout_ms try_local :
  let lines := menu_lines urlencode lowercase base profiles mac serial timeout_ms try_local in
  all_bytes graphic base = true →
  (∀ s, all_bytes graphic (urlencode s) = true) →
  (∀ p, p ∈ profiles → ascii_alone (prof_name p) = true) →
  NoDup (prof_id <$> profiles) →
  NoDup (labels lines) ∧
  (∀ line t, line ∈ lines → t ∈ jumps line → t = "${selected}" ∨ t ∈ labels lines) ∧
  "local" ∈ labels lines ∧
  (∀ p, p ∈ menu_profiles lowercase profiles →
     menu_item p ∈ lines ∧ profile_label p ∈ labels lines).
Proof.
  intros lines Hb Hu Hn Hnd.
  pose proof (menu_lines_ok base mac serial Hb Hu profiles timeout_ms try_local Hn) as Hok.
  subst lines. rewrite menu_labels. split_and!.
  - by apply menu_labels_NoDup.
  - intros line t Hl Ht. rewrite Forall_forall in Hok. destruct (Hok line Hl) as [_ Hj].
    specialize (Hj t Ht). apply elem_of_cons in Hj as [->|Hj]; [by left|right].
    rewrite !elem_of_app. apply elem_of_app in Hj as [?|?]; auto.
  - rewrite !elem_of_app. right. right. left.
  - intros p Hp. split; [|rewrite !elem_of_app; right; left; by apply list_elem_of_fmap_2]. unfold menu_lines. rewrite !elem_of_app.
    do 6 right. left. by apply list_elem_of_fmap_2.
Qed.
End MenuProofs.

(** Concrete menus: two profiles, one named with a line feed in it. *)
Module MenuDemo.
Definition demo_urlencode (s : string) : string := "x".
Definition demo_profile (id : Z) (name : string) : BootProfile := {|
  prof_id := id; prof_managed_profile_id := None; prof_name := name; prof_description := "";
  prof_type := NestInstaller; prof_enabled := true; prof_is_default := false;
  prof_one_time := false; prof_raw_script := None; prof_created_at := ""; prof_updated_at := "" |}.
Definition demo_profiles : list BootProfile :=
  [demo_profile 7 ("Ward" +:+ nl +:+ "shell"); demo_profile 12 "Clinic"].

Lemma demo_names p : p ∈ demo_profiles → ascii_alone (prof_name p) = true.
Proof. revert p. apply Forall_forall. by repeat constructor. Qed.

Lemma menu_is_its_lines_witness :
  split lf (render_menu demo_urlencode id "http://nest" demo_profiles (Some "aa") None 5000 true) =
  menu_lines demo_urlencode id "http://nest" demo_profiles (Some "aa") None 5000 true ++ [""].
Proof.
  apply (menu_is_its_lines demo_urlencode id); [reflexivity|reflexivity|apply demo_names].
Defined.

Lemma menu_jumps_resolve_witness :
  NoDup (labels (menu_lines demo_urlencode id "http://nest" demo_profiles None None 0 false)).
Proof.
  apply (menu_jumps_resolve demo_urlencode id "http://nest" demo_profiles None None 0 false);
    [reflexivity|reflexivity|apply demo_names|].
  apply (bool_decide_unpack _). vm_compute. exact I.
Defined.
End MenuDemo.

(** The script of a local disk profile, unlike the menu, has no [end] label for
    the [goto end] that follows [sanboot]. *)
Theorem local_profile_jumps_nowhere p :
  prof_type p = LocalDisk → ascii_alone (prof_name p) = true →
  ∃ lines, render_profile_script p = Ok (script_text lines) ∧
    split lf (script_text lines) = lines ++ [""] ∧
    "goto end" ∈ lines ∧ "end" ∉ labels lines.
Proof.
  intros Hl Hn. unfold render_profile_script. rewrite Hl. eexists. split; [reflexivity|].
  split; [|split].
  - apply split_script_text. rewrite forallb_app. apply andb_true_iff. split; [|reflexivity].
    cbn [forallb]. rewrite one_line_app, ipxe_text_one_line by done. done.
  - rewrite elem_of_app. right. unfold local_body, local_attempt. do 4 right. left.
  - intros Hin. vm_compute in Hin.
    repeat (apply elem_of_cons in Hin as [[=]|Hin]). by apply elem_of_nil in Hin.
Qed.

(** ** MAC addresses *)

Definition canonical_mac (m : string) : Prop :=
  ∃ l, length l = 12%nat ∧ Forall (λ a, is_lower_hex a = true) l ∧ m = join ":" (pairs l).

Lemma lower_hex_graphic a : is_lower_hex a = true → graphic a = true.
Proof. intros [_ H]%lower_hex_not_upper. apply alnum_graphic. by apply hexdigit_is_alnum. Qed.

Lemma pairs_bytes (p : ascii → bool) l :
  Forall (λ a, p a = true) l → forallb (all_bytes p) (pairs l) = true.
Proof.
  revert l. fix IH 1. intros [|a [|b l]] Hl; [done..|]. cbn [pairs forallb].
  apply Forall_cons in Hl as [Ha Hl]. apply Forall_cons in Hl as [Hb Hl].
  rewrite (IH l Hl), andb_true_r. unfold all_bytes. cbn. by rewrite Ha, Hb.
Qed.

Lemma join_pairs l : Nat.even (length l) = true → join "" (pairs l) = of_bytes l.
Proof.
  revert l. fix IH 1. intros [|a [|b l]] Hl; [done..|]. cbn [pairs].
  specialize (IH l Hl). destruct (pairs l) as [|x xs] eqn:E.
  - simpl in IH. cbn [join of_bytes]. by rewrite <- IH.
  - rewrite join_cons_nonempty by done. rewrite IH. done.
Qed.

Lemma all_bytes_join p sep ws :
  all_bytes p sep = true → forallb (all_bytes p) ws = true → all_bytes p (join sep ws) = true.
Proof.
  intros Hs. induction ws as [|w [|v ws] IH]; [done| |]; cbn [forallb];
    intros [Hw Hws]%andb_true_iff; [done|].
  rewrite join_cons_nonempty by done. by rewrite !all_bytes_app, Hs, Hw, IH.
Qed.

Lemma replace_byte_absent a b s :
  all_bytes (λ c, negb (Ascii.eqb c a)) s = true → replace_byte a b s = s.
Proof.
  unfold all_bytes, replace_byte. rewrite forallb_forall. intros H.
  rewrite <- (of_bytes_bytes s) at 2. f_equal.
  revert H. generalize (bytes s). intros l. induction l as [|c l IH]; intros H; [done|].
  rewrite fmap_cons, IH by (intros; apply H; by right).
  pose proof (H c (or_introl eq_refl)) as Hc. apply negb_true_iff in Hc. by rewrite Hc.
Qed.

Lemma hex_bytes_lower s :
  all_bytes is_hexdigit (to_ascii_lowercase s) = true →
  Forall (λ a, is_lower_hex a = true) (bytes (to_ascii_lowercase s)).
Proof.
  unfold to_ascii_lowercase, all_bytes. rewrite bytes_of_bytes, forallb_forall, Forall_forall.
  intros H a Ha. specialize (H a). rewrite <- list_elem_of_In in H. specialize (H Ha).
  apply list_elem_of_fmap in Ha as (b & -> & _).
  rewrite <- (to_lower_id (to_lower b)) by apply to_lower_not_upper. by apply hexdigit_to_lower.
Qed.

Lemma normalize_mac_spec input :
  match normalize_mac input with
  | Ok m => canonical_mac m ∧ len m = 17
  | Err e => e = Validation ("invalid MAC address '" +:+ input +:+ "'")
  end.
Proof.
  unfold normalize_mac. set (compact := to_ascii_lowercase _).
  destruct (negb (len compact =? 12) || _) eqn:Hc; [done|]. bool_prop.
  assert (length (bytes compact) = 12%nat) as Hlen by (rewrite len_bytes in *; lia).
  split; [exists (bytes compact); split_and!; [done|by apply hex_bytes_lower|done]|].
  clearbody compact. destruct (bytes compact) as [|? l]; [done|].
  do 11 (destruct l as [|? l]; [done|]). by destruct l.
Qed.

Lemma normalize_mac_id m : canonical_mac m → normalize_mac m = Ok m.
Proof.
  intros (l & Hlen & Hhex & ->). unfold normalize_mac.
  assert (∀ c, is_lower_hex c = false →
    forallb (all_bytes (λ a, negb (Ascii.eqb a c))) (pairs l) = true) as Hno.
  { intros c Hc. apply pairs_bytes. apply (Forall_impl _ _ _ Hhex). intros a Ha.
    destruct (Ascii.eqb_spec a c); [congruence|done]. }
  rewrite trim_graphic.
  2:{ apply all_bytes_join; [done|]. apply pairs_bytes.
      apply (Forall_impl _ _ _ Hhex). apply lower_hex_graphic. }
  rewrite replace_byte_absent by (apply all_bytes_join; [done|by apply Hno]).
  rewrite split_join; [|by destruct l as [|? [|? ?]]|by apply Hno].
  rewrite join_pairs by by rewrite Hlen.
  rewrite to_ascii_lowercase_id.
  + assert ((len (of_bytes l) =? 12) = true) as -> by (rewrite len_bytes, bytes_of_bytes, Hlen; done).
    assert (all_bytes is_hexdigit (of_bytes l) = true) as ->; [|by rewrite bytes_of_bytes].
    unfold all_bytes. rewrite bytes_of_bytes, forallb_forall. intros a Ha.
    rewrite Forall_forall in Hhex. apply list_elem_of_In, Hhex in Ha.
    by apply lower_hex_not_upper.
  + unfold all_bytes. rewrite bytes_of_bytes, forallb_forall. intros a Ha.
    rewrite Forall_forall in Hhex. apply list_elem_of_In, Hhex in Ha.
    apply lower_hex_not_upper in Ha as [-> _]. done.
Qed.

(** [normalize_mac] answers the canonical form: six pairs of lower-case
    hexadecimal digits separated by colons.  Every canonical address is its own
    normal form, so normalizing is idempotent, and an address that is refused
    stays refused with its text in the message. *)
Theorem normalize_mac_canonical input :
  match normalize_mac input with
  | Ok m => canonical_mac m ∧ len m = 17
  | Err e => e = Validation ("invalid MAC address '" +:+ input +:+ "'")
  end ∧ (∀ m, canonical_mac m → normalize_mac m = Ok m).
Proof. split; [apply normalize_mac_spec|apply normalize_mac_id]. Qed.

(** ** Tags *)

(** *** Trimming twice, and lower-casing a trimmed text *)

Section Drop.
Context (t1 : ascii → bool) (t2 : ascii → ascii → bool) (t3 : ascii → ascii → ascii → bool).

(** Both trimming loops drop characters from the front of a list as long as
    [tests] recognise one there. *)
Fixpoint drop_chars (l : list ascii) : list ascii :=
  match l with
  | [] => []
  | a :: l1 =>
      if t1 a then drop_chars l1 else
      match l1 with
      | [] => l
      | b :: l2 =>
          if t2 a b then drop_chars l2 else
          match l2 with
          | [] => l
          | c :: l3 => if t3 a b c then drop_chars l3 else l
          end
      end
  end.

Abbreviation drop := drop_chars.

(** Nothing to drop at the front. *)
Definition settled_front (l : list ascii) : Prop :=
  match l with
  | [] => True
  | a :: l1 => t1 a = false ∧
      match l1 with
      | [] => True
      | b :: l2 => t2 a b = false ∧ match l2 with [] => True | c :: _ => t3 a b c = false end
      end
  end.

Lemma drop_settled_id l : settled_front l → drop l = l.
Proof.
  destruct l as [|a [|b [|c l]]]; cbn; [done|by intros [-> _]|by intros (-> & -> & _)|].
  by intros (-> & -> & ->).
Qed.

Lemma drop_spec l : settled_front (drop l) ∧ drop l `suffix_of` l.
Proof.
  revert l. fix IH 1. intros [|a l1]; [by split|]. cbn [drop_chars].
  destruct (t1 a) eqn:H1; [destruct (IH l1); split; [done|by apply suffix_cons_r]|].
  destruct l1 as [|b l2]; [by split; [split|]|].
  destruct (t2 a b) eqn:H2; [destruct (IH l2); split; [done|by do 2 apply suffix_cons_r]|].
  destruct l2 as [|c l3]; [by split; [split|]|].
  destruct (t3 a b c) eqn:H3; [destruct (IH l3); split; [done|by do 3 apply suffix_cons_r]|].
  by split; [split|].
Qed.

Lemma settled_front_prefix l k : settled_front l → k `prefix_of` l → settled_front k.
Proof.
  intros Hs [m ->]. destruct k as [|a [|b [|c k]]]; cbn in *; [done|by destruct Hs|naive_solver|done].
Qed.

Lemma drop_fmap (f : ascii → ascii) l :
  (∀ a, t1 (f a) = t1 a) → (∀ a b, t2 (f a) (f b) = t2 a b) →
  (∀ a b c, t3 (f a) (f b) (f c) = t3 a b c) → drop (f <$> l) = f <$> drop l.
Proof.
  intros H1 H2 H3. revert l. fix IH 1. intros [|a l1]; [done|].
  rewrite fmap_cons. cbn [drop_chars]. rewrite H1. destruct (t1 a); [apply IH|].
  destruct l1 as [|b l2]; [done|]. rewrite fmap_cons. rewrite H2. destruct (t2 a b); [apply IH|].
  destruct l2 as [|c l3]; [done|]. rewrite fmap_cons. rewrite H3. destruct (t3 a b c); [apply IH|done].
Qed.
End Drop.

Ltac as_drop_chars :=
  change trim_start_bytes with (drop_chars ws1 ws2 ws3) in *;
  change trim_end_bytes_rev with (drop_chars ws1 (λ a b, ws2 b a) (λ a b c, ws3 c b a)) in *.

Lemma trim_idemp s : trim (trim s) = trim s.
Proof.
  unfold trim, trim_start, trim_end. rewrite !bytes_of_bytes. as_drop_chars.
  set (t2 := λ a b, ws2 b a). set (t3 := λ a b c, ws3 c b a).
  pose proof (drop_spec ws1 ws2 ws3 (bytes s)) as [Hs _].
  set (k := drop_chars ws1 ws2 ws3 (bytes s)) in *.
  pose proof (drop_spec ws1 t2 t3 (rev k)) as [He [x Hx]].
  set (m := drop_chars ws1 t2 t3 (rev k)) in *.
  rewrite (drop_settled_id ws1 ws2 ws3 (rev m)), rev_involutive.
  - by rewrite (drop_settled_id ws1 t2 t3 m).
  - apply (settled_front_prefix _ _ _ k); [done|]. exists (rev x).
    by rewrite <- rev_app_distr, <- Hx, rev_involutive.
Qed.

Lemma to_lower_cases a :
  to_lower a = a ∨ (65 ≤ byte a ≤ 90 ∧ byte (to_lower a) = byte a + 32).
Proof.
  unfold to_lower, is_upper. destruct (in_range 65 90 (byte a)) eqn:E; [right|by left].
  apply in_range_true in E. by rewrite byte_char_of by lia.
Qed.

Lemma outside_letters z a :
  ¬ 65 ≤ z ≤ 90 → ¬ 97 ≤ z ≤ 122 → (byte (to_lower a) =? z) = (byte a =? z).
Proof.
  intros H1 H2. destruct (to_lower_cases a) as [->|[Ha ->]]; [done|].
  rewrite !(proj2 (Z.eqb_neq _ _)); [done|lia..].
Qed.

Lemma outside_letters_range lo hi a :
  hi < 65 ∨ 122 < lo → in_range lo hi (byte (to_lower a)) = in_range lo hi (byte a).
Proof.
  intros H. destruct (to_lower_cases a) as [->|[Ha ->]]; [done|].
  apply eq_true_iff_eq. rewrite !in_range_true. lia.
Qed.

Lemma fmap_rev {A B} (f : A → B) l : f <$> rev l = rev (f <$> l).
Proof. apply map_rev. Qed.

Lemma trim_lowercase s : trim (to_ascii_lowercase s) = to_ascii_lowercase (trim s).
Proof.
  assert (∀ a, ws1 (to_lower a) = ws1 a) as H1.
  { intros a. unfold ws1. by rewrite outside_letters_range, outside_letters by lia. }
  assert (∀ a b, ws2 (to_lower a) (to_lower b) = ws2 a b) as H2.
  { intros a b. unfold ws2. by rewrite !outside_letters by lia. }
  assert (∀ a b c, ws3 (to_lower a) (to_lower b) (to_lower c) = ws3 a b c) as H3.
  { intros a b c. unfold ws3. by rewrite !outside_letters, outside_letters_range by lia. }
  unfold trim, trim_start, trim_end, to_ascii_lowercase.
  rewrite !bytes_of_bytes. as_drop_chars. rewrite drop_fmap by done.
  rewrite <- !fmap_rev, drop_fmap by auto. by rewrite fmap_rev.
Qed.

(** *** Sorting and removing duplicates *)

Lemma dedup_cons a b l :
  dedup (a :: b :: l) = if bool_decide (a = b) then dedup (b :: l) else a :: dedup (b :: l).
Proof. reflexivity. Qed.

Lemma dedup_elem x l : x ∈ dedup l ↔ x ∈ l.
Proof.
  induction l as [|a [|b l] IH]; [done..|]. rewrite dedup_cons. case_bool_decide as E.
  - subst. rewrite IH, (elem_of_cons (b :: l)). set_solver.
  - by rewrite !(elem_of_cons _ _ a), IH.
Qed.

(** Strictly increasing texts. *)
Definition increasing : list string → Prop := StronglySorted (λ a b, String.le a b ∧ a ≠ b).

Lemma dedup_increasing l : StronglySorted String.le l → increasing (dedup l).
Proof.
  induction l as [|a [|b l] IH]; intros Hs; [constructor|repeat constructor|].
  apply StronglySorted_inv in Hs as [Hs Ha]. specialize (IH Hs). rewrite dedup_cons.
  case_bool_decide as E; [done|]. constructor; [done|]. rewrite Forall_forall in *.
  intros x Hx. rewrite dedup_elem in Hx. split; [by apply Ha|]. intros <-. apply E.
  apply StronglySorted_inv in Hs as [_ Hb]. rewrite Forall_forall in Hb.
  apply (anti_symm String.le); [apply Ha; left|].
  apply elem_of_cons in Hx as [->|Hx]; [reflexivity|by apply Hb].
Qed.

Lemma increasing_NoDup l : increasing l → NoDup l.
Proof.
  induction 1 as [|a l Hs IH Ha]; constructor; [|done]. rewrite Forall_forall in Ha.
  intros Hin. by destruct (Ha a Hin).
Qed.

Lemma increasing_dedup_id l : increasing l → dedup l = l.
Proof.
  induction 1 as [|a l Hs IH Ha]; [done|]. destruct l as [|b l]; [done|].
  rewrite dedup_cons, bool_decide_false, IH; [done|]. rewrite Forall_forall in Ha. by apply Ha; left.
Qed.

Lemma increasing_sort_id l : increasing l → merge_sort String.le l = l.
Proof.
  intros Hi. apply (StronglySorted_unique String.le).
  - apply StronglySorted_merge_sort; apply _.
  - unfold increasing in Hi. induction Hi as [|a l Hs IH Ha]; constructor; [done|].
    apply (Forall_impl _ _ _ Ha). by intros ? [? _].
  - apply merge_sort_Permutation.
Qed.

(** The normal form of one tag. *)
Definition clean_tag (tag : string) : string := to_ascii_lowercase (trim tag).

Lemma clean_tag_idemp tag : clean_tag (clean_tag tag) = clean_tag tag.
Proof.
  unfold clean_tag. rewrite trim_lowercase, trim_idemp.
  apply to_ascii_lowercase_id, to_ascii_lowercase_no_upper.
Qed.

Lemma clean_tags_elem tags t :
  t ∈ clean_tags tags ↔ t ≠ "" ∧ ∃ tag, tag ∈ tags ∧ t = clean_tag tag.
Proof.
  unfold clean_tags. rewrite dedup_elem, merge_sort_Permutation.
  rewrite list_elem_of_In, filter_In, <- list_elem_of_In, list_elem_of_fmap.
  rewrite negb_true_iff. unfold is_empty. rewrite bool_decide_eq_false.
  unfold clean_tag. naive_solver.
Qed.

Lemma clean_tags_increasing tags : increasing (clean_tags tags).
Proof. apply dedup_increasing, StronglySorted_merge_sort; apply _. Qed.

(** [clean_tags] answers the set of the trimmed, lower-cased, non-empty
    tags as a strictly increasing list: no tag is lost, repeated or out of
    order, and cleaning a cleaned list changes nothing. *)
Theorem clean_tags_normal_form tags :
  increasing (clean_tags tags) ∧ NoDup (clean_tags tags) ∧
  (∀ t, t ∈ clean_tags tags ↔ t ≠ "" ∧ ∃ tag, tag ∈ tags ∧ t = clean_tag tag) ∧
  clean_tags (clean_tags tags) = clean_tags tags.
Proof.
  pose proof (clean_tags_increasing tags) as Hi.
  split_and!; [done|by apply increasing_NoDup|apply clean_tags_elem|].
  unfold clean_tags at 1.
  assert ((λ tag, to_ascii_lowercase (trim tag)) <$> clean_tags tags = clean_tags tags) as ->.
  { rewrite <- (list_fmap_id (clean_tags tags)) at 2. apply list_fmap_ext.
    intros i t Ht. apply list_elem_of_lookup_2, clean_tags_elem in Ht as (_ & tag & _ & ->).
    apply clean_tag_idemp. }
  assert (List.filter (λ tag, negb (is_empty tag)) (clean_tags tags) = clean_tags tags) as ->.
  { apply List.forallb_filter_id, forallb_forall. intros t Ht.
    apply list_elem_of_In, clean_tags_elem in Ht as [Ht _]. by rewrite is_empty_false. }
  rewrite increasing_sort_id by done. by apply increasing_dedup_id.
Qed.
