(* ===== verification/BootStore.v ===== *)
(** * Devices, boot profiles and boot events in the database

    The [devices], [boot_profiles] and [boot_events] tables and the operations
    of [src/db.rs] on them.  A statement is one atomic action, so operations of
    several statements can interleave with others; uniqueness, the foreign keys
    and [ON DELETE SET NULL] are those of the schema ([src/migrations]), and a
    statement they refuse fails without effect. *)

From stdpp Require Import sorting base gmap list strings.
From Stdlib Require Import Ascii ZArith Lia.
From S2P Require Import Prelude Async RustStr Json DbText Boot.

#[local] Open Scope Z_scope.
#[local] Open Scope nest_scope.

(** ** Tables *)

Record DeviceRow := {
  dr_id : Z;
  dr_mac : string;
  dr_hostname : option string;
  dr_serial_number : option string;
  dr_last_seen_at : option string;
  dr_last_selected_profile_id : option Z;
  dr_notes : string;
  dr_tags : string;
  dr_default_profile_id : option Z;
  dr_one_time_profile_id : option Z;
  dr_one_time_consumed_at : option string;
  dr_created_at : string;
  dr_updated_at : string;
  dr_managed_client_id : option string;
  dr_managed_device_id : option string;
  dr_reinstall_request_id : option string;
}.

Record BootProfileRow := {
  pr_id : Z;
  pr_managed_profile_id : option string;
  pr_name : string;
  pr_description : string;
  pr_profile_type : string;
  pr_enabled : Z;
  pr_is_default : Z;
  pr_one_time : Z;
  pr_raw_script : option string;
  pr_created_at : string;
  pr_updated_at : string;
}.

Record NewBootEvent := {
  ne_device_id : option Z;
  ne_mac : option string;
  ne_serial_number : option string;
  ne_ip_address : option string;
  ne_user_agent : option string;
  ne_selected_profile_id : option Z;
  ne_selected_profile_name : option string;
  ne_known_device : bool;
}.

(** A boot event is what was recorded, with its identifier and time. *)
Record BootEvent := {
  ev_id : Z;
  ev_recorded : NewBootEvent;
  ev_created_at : string;
}.

Record BootDb := {
  devices : gmap Z DeviceRow;
  last_device : Z;
  profiles : gmap Z BootProfileRow;
  last_profile : Z;
  boot_events : gmap Z BootEvent;
  last_event : Z;
}.

Definition set_devices (m : gmap Z DeviceRow) (d : BootDb) : BootDb := {|
  devices := m; last_device := last_device d; profiles := profiles d;
  last_profile := last_profile d; boot_events := boot_events d; last_event := last_event d |}.
Definition set_profiles (m : gmap Z BootProfileRow) (d : BootDb) : BootDb := {|
  devices := devices d; last_device := last_device d; profiles := m;
  last_profile := last_profile d; boot_events := boot_events d; last_event := last_event d |}.
Definition set_events (m : gmap Z BootEvent) (d : BootDb) : BootDb := {|
  devices := devices d; last_device := last_device d; profiles := profiles d;
  last_profile := last_profile d; boot_events := m; last_event := last_event d |}.

(** *** Constraints *)

(** [mac TEXT UNIQUE COLLATE NOCASE], [serial_number TEXT UNIQUE] and
    [idx_devices_managed_client_id], where [NULL]s are distinct. *)
Definition same_key (x y : option string) : bool :=
  match x, y with
  | Some s, Some t => bool_decide (s = t)
  | _, _ => false
  end.
Definition same_mac (x y : DeviceRow) : bool :=
  bool_decide (to_ascii_lowercase (dr_mac x) = to_ascii_lowercase (dr_mac y)).
Definition same_serial (x y : DeviceRow) : bool :=
  same_key (dr_serial_number x) (dr_serial_number y).
Definition same_client (x y : DeviceRow) : bool :=
  same_key (dr_managed_client_id x) (dr_managed_client_id y).
Definition clashes (x y : DeviceRow) : bool := same_mac x y || same_serial x y || same_client x y.

Definition references (d : BootDb) (id : option Z) : bool :=
  match id with Some id => bool_decide (is_Some (profiles d !! id)) | None => true end.

(** A device row may be stored under [id]. *)
Definition device_allowed (d : BootDb) (id : Z) (row : DeviceRow) : bool :=
  forallb (λ '(other, row'), bool_decide (other = id) || negb (clashes row row'))
    (map_to_list (devices d))
  && references d (dr_last_selected_profile_id row)
  && references d (dr_default_profile_id row)
  && references d (dr_one_time_profile_id row).

(** [idx_boot_profiles_single_default], [idx_boot_profiles_managed_profile_id] and
    the [CHECK]s. *)
Definition is_flag (z : Z) : bool := (z =? 0) || (z =? 1).
Definition profile_allowed (d : BootDb) (id : Z) (row : BootProfileRow) : bool :=
  is_flag (pr_enabled row) && is_flag (pr_is_default row) && is_flag (pr_one_time row)
  && is_ok (profile_type_from_str (pr_profile_type row))
  && ((pr_is_default row =? 0) ||
      forallb (λ '(other, row'), bool_decide (other = id) || (pr_is_default row' =? 0))
        (map_to_list (profiles d)))
  && forallb (λ '(other, row'), bool_decide (other = id)
       || negb (same_key (pr_managed_profile_id row) (pr_managed_profile_id row')))
       (map_to_list (profiles d)).

(** *** Statements *)

(** [INSERT]s, with [AUTOINCREMENT] identifiers. *)
Definition insert_device (mk : Z → DeviceRow) (d : BootDb) : option (Z * BootDb) :=
  let id := last_device d + 1 in
  if (last_device d <? i64_max) && device_allowed d id (mk id) then
    Some (id, {| devices := <[id := mk id]> (devices d); last_device := id;
                 profiles := profiles d; last_profile := last_profile d;
                 boot_events := boot_events d; last_event := last_event d |})
  else None.

Definition insert_profile (mk : Z → BootProfileRow) (d : BootDb) : option (Z * BootDb) :=
  let id := last_profile d + 1 in
  if (last_profile d <? i64_max) && profile_allowed d id (mk id) then
    Some (id, {| devices := devices d; last_device := last_device d;
                 profiles := <[id := mk id]> (profiles d); last_profile := id;
                 boot_events := boot_events d; last_event := last_event d |})
  else None.

Definition event_allowed (d : BootDb) (e : NewBootEvent) : bool :=
  references d (ne_selected_profile_id e) &&
  match ne_device_id e with Some id => bool_decide (is_Some (devices d !! id)) | None => true end.

Definition insert_event (e : NewBootEvent) (now : string) (d : BootDb) : option (Z * BootDb) :=
  let id := last_event d + 1 in
  if (last_event d <? i64_max) && event_allowed d e then
    Some (id, {| devices := devices d; last_device := last_device d;
                 profiles := profiles d; last_profile := last_profile d;
                 boot_events := <[id := {| ev_id := id; ev_recorded := e;
                                           ev_created_at := now |}]> (boot_events d);
                 last_event := id |})
  else None.

(** [UPDATE devices SET ... WHERE id = ?] with a further condition. *)
Definition update_device_row (id : Z) (cond : DeviceRow → bool) (f : DeviceRow → DeviceRow)
    (d : BootDb) : option BootDb :=
  match devices d !! id with
  | Some row =>
      if cond row then
        if device_allowed d id (f row) then Some (set_devices (<[id := f row]> (devices d)) d)
        else None
      else Some d
  | None => Some d
  end.

Definition update_profile_row (id : Z) (f : BootProfileRow → BootProfileRow) (d : BootDb)
    : option BootDb :=
  match profiles d !! id with
  | Some row =>
      if profile_allowed d id (f row)
      then Some (set_profiles (<[id := f row]> (profiles d)) d) else None
  | None => Some d
  end.

(** [DELETE FROM devices WHERE ...]; events keep the rest of what they say. *)
Definition forget_device (gone : Z → bool) (e : BootEvent) : BootEvent := {|
  ev_id := ev_id e;
  ev_recorded := {|
    ne_device_id := id ← ne_device_id (ev_recorded e); if gone id then None else Some id;
    ne_mac := ne_mac (ev_recorded e); ne_serial_number := ne_serial_number (ev_recorded e);
    ne_ip_address := ne_ip_address (ev_recorded e);
    ne_user_agent := ne_user_agent (ev_recorded e);
    ne_selected_profile_id := ne_selected_profile_id (ev_recorded e);
    ne_selected_profile_name := ne_selected_profile_name (ev_recorded e);
    ne_known_device := ne_known_device (ev_recorded e) |};
  ev_created_at := ev_created_at e |}.

Definition delete_devices (gone : DeviceRow → bool) (d : BootDb) : Z * BootDb :=
  let removed := filter (λ '(_, row), gone row = true) (devices d) in
  (Z.of_nat (size removed),
   set_events (forget_device (λ id, bool_decide (is_Some (removed !! id))) <$> boot_events d)
     (set_devices (filter (λ '(_, row), gone row = false) (devices d)) d)).

(** [DELETE FROM boot_profiles WHERE id = ?]. *)
Definition unless (id : Z) (o : option Z) : option Z :=
  if bool_decide (o = Some id) then None else o.

Definition forget_profile_device (id : Z) (row : DeviceRow) : DeviceRow := {|
  dr_id := dr_id row; dr_mac := dr_mac row; dr_hostname := dr_hostname row;
  dr_serial_number := dr_serial_number row; dr_last_seen_at := dr_last_seen_at row;
  dr_last_selected_profile_id := unless id (dr_last_selected_profile_id row);
  dr_notes := dr_notes row; dr_tags := dr_tags row;
  dr_default_profile_id := unless id (dr_default_profile_id row);
  dr_one_time_profile_id := unless id (dr_one_time_profile_id row);
  dr_one_time_consumed_at := dr_one_time_consumed_at row;
  dr_created_at := dr_created_at row; dr_updated_at := dr_updated_at row;
  dr_managed_client_id := dr_managed_client_id row;
  dr_managed_device_id := dr_managed_device_id row;
  dr_reinstall_request_id := dr_reinstall_request_id row |}.

Definition forget_profile_event (id : Z) (e : BootEvent) : BootEvent := {|
  ev_id := ev_id e;
  ev_recorded := {|
    ne_device_id := ne_device_id (ev_recorded e);
    ne_mac := ne_mac (ev_recorded e); ne_serial_number := ne_serial_number (ev_recorded e);
    ne_ip_address := ne_ip_address (ev_recorded e);
    ne_user_agent := ne_user_agent (ev_recorded e);
    ne_selected_profile_id := unless id (ne_selected_profile_id (ev_recorded e));
    ne_selected_profile_name := ne_selected_profile_name (ev_recorded e);
    ne_known_device := ne_known_device (ev_recorded e) |};
  ev_created_at := ev_created_at e |}.

Definition delete_profile_row (id : Z) (d : BootDb) : Z * BootDb :=
  match profiles d !! id with
  | Some _ =>
      (1, {| devices := forget_profile_device id <$> devices d; last_device := last_device d;
             profiles := delete id (profiles d); last_profile := last_profile d;
             boot_events := forget_profile_event id <$> boot_events d;
             last_event := last_event d |})
  | None => (0, d)
  end.

(** ** What an action reads from outside *)

(** [netboot::BootSessionLaunch], what a signed installer boot needs. *)
Record BootSessionLaunch := {
  bl_schema : string;
  bl_bundle_sha256 : string;
  bl_kernel_url : string;
  bl_initrd_url : string;
  bl_context_url : string;
  bl_squashfs_url : string;
  bl_command_line : string;
  bl_expires_at : Z;
}.

Record RuntimeSettings := {
  rt_public_base_url : string;
  rt_menu_timeout_ms : Z;
}.

(** Whether the database refuses the statement, the clock, the runtime settings
    and what [netboot::create_boot_session] answers to its five arguments. *)
Record BootInput := {
  bi_fault : bool;
  bi_now : string;
  bi_runtime : RuntimeSettings;
  bi_session : string → option string → option string → option string →
               option BootSessionLaunch;
}.

#[global] Instance boot_faulty : Faulty BootInput AppError := {|
  fault := bi_fault;
  db_error := Sqlx;
|}.

Abbreviation handler A := (prog BootInput BootDb (AppResult A)).

Definition select {B} (f : BootDb → B) : handler B :=
  checked_query (λ _ d, Some (f d, d)).
Definition statement {B} (f : BootDb → option (B * BootDb)) : handler B :=
  checked_query (λ _ d, f d).
Definition execute (f : BootDb → option BootDb) : handler unit :=
  statement (λ d, d' ← f d; Some (tt, d')).
Definition now_rfc3339 : handler string := read_input (λ i, Ok (bi_now i)).
Definition pure {A} (r : AppResult A) : handler A := Ret r.

Section Store.
Context {serde : Serde}.

(** ** Rows and models *)

(** [serde_json::from_str::<Vec<String>>(..).unwrap_or_default()]. *)
Fixpoint strings_of (items : list Value) : option (list string) :=
  match items with
  | [] => Some []
  | Str s :: items => rest ← strings_of items; Some (s :: rest)
  | _ :: _ => None
  end.
Definition parse_tags (text : string) : list string :=
  default [] (v ← from_str text; items ← as_array v; strings_of items).
Definition tags_to_string (tags : list string) : string := to_string (Array (Str <$> tags)).

Definition device_from_row (row : DeviceRow) : Device := {|
  dev_id := dr_id row; dev_mac := dr_mac row; dev_hostname := dr_hostname row;
  dev_serial_number := dr_serial_number row; dev_last_seen_at := dr_last_seen_at row;
  dev_last_selected_profile_id := dr_last_selected_profile_id row;
  dev_notes := dr_notes row; dev_tags := parse_tags (dr_tags row);
  dev_default_profile_id := dr_default_profile_id row;
  dev_one_time_profile_id := dr_one_time_profile_id row;
  dev_one_time_consumed_at := dr_one_time_consumed_at row;
  dev_created_at := dr_created_at row; dev_updated_at := dr_updated_at row |}.

Definition profile_from_row (row : BootProfileRow) : AppResult BootProfile :=
  profile_type ≔ profile_type_from_str (pr_profile_type row) ?;
  Ok {| prof_id := pr_id row; prof_managed_profile_id := pr_managed_profile_id row;
        prof_name := pr_name row; prof_description := pr_description row;
        prof_type := profile_type;
        prof_enabled := negb (pr_enabled row =? 0);
        prof_is_default := negb (pr_is_default row =? 0);
        prof_one_time := negb (pr_one_time row =? 0);
        prof_raw_script := pr_raw_script row;
        prof_created_at := pr_created_at row; prof_updated_at := pr_updated_at row |}.

Fixpoint profile_rows_to_models (rows : list BootProfileRow) : AppResult (list BootProfile) :=
  match rows with
  | [] => Ok []
  | row :: rows =>
      p ≔ profile_from_row row ?;
      rest ≔ profile_rows_to_models rows ?;
      Ok (p :: rest)
  end.

Definition bool_to_i64 (b : bool) : Z := if b then 1 else 0.

(** ** Reading *)

Definition values_of {A} (m : gmap Z A) : list A := snd <$> map_to_list m.

(** [COALESCE(last_seen_at, created_at)]. *)
Definition seen_at (row : DeviceRow) : string := default (dr_created_at row) (dr_last_seen_at row).

(** [ORDER BY COALESCE(last_seen_at, created_at) DESC, mac ASC]. *)
Definition device_list_le (x y : DeviceRow) : Prop :=
  String.le (seen_at y) (seen_at x) ∧
  (seen_at x = seen_at y → String.le (dr_mac x) (dr_mac y)).
#[global] Instance device_list_le_dec : RelDecision device_list_le.
Proof. unfold device_list_le. intros x y. apply _. Defined.

Definition list_devices : handler (list Device) :=
  rows ←? select (λ d, merge_sort device_list_le (values_of (devices d)));
  pure (Ok (device_from_row <$> rows)).

Definition get_device (id : Z) : handler Device :=
  row ←? select (λ d, devices d !! id);
  pure (device ≔ ok_or NotFound row ?; Ok (device_from_row device)).

(** [WHERE mac = ?] compares without regard to ASCII case; at most one row has
    the address. *)
Definition find_mac (mac : string) (d : BootDb) : option DeviceRow :=
  List.find (λ row, bool_decide (to_ascii_lowercase (dr_mac row) = to_ascii_lowercase mac))
    (values_of (devices d)).
Definition find_serial (serial : string) (d : BootDb) : option DeviceRow :=
  List.find (λ row, bool_decide (dr_serial_number row = Some serial)) (values_of (devices d)).

Definition get_device_by_mac (mac : string) : handler (option Device) :=
  mac ←? pure (normalize_mac mac);
  row ←? select (find_mac mac);
  pure (Ok (device_from_row <$> row)).

Definition get_device_by_serial (serial : string) : handler (option Device) :=
  let serial := trim serial in
  if is_empty serial || (128 <? len serial) then pure (Ok None) else
  row ←? select (find_serial serial);
  pure (Ok (device_from_row <$> row)).

(** [ORDER BY name ASC], and [ORDER BY is_default DESC, name ASC]; rows of the
    same key, whose order SQL leaves open, come in identifier order. *)
Definition profile_name_le (x y : BootProfileRow) : Prop :=
  String.le (pr_name x) (pr_name y) ∧ (pr_name x = pr_name y → pr_id x ≤ pr_id y).
#[global] Instance profile_name_le_dec : RelDecision profile_name_le.
Proof. unfold profile_name_le. intros x y. apply _. Defined.
Definition profile_list_le (x y : BootProfileRow) : Prop :=
  pr_is_default y < pr_is_default x ∨
  (pr_is_default x = pr_is_default y ∧ profile_name_le x y).
#[global] Instance profile_list_le_dec : RelDecision profile_list_le.
Proof. unfold profile_list_le. intros x y. apply _. Defined.

Definition list_profiles : handler (list BootProfile) :=
  rows ←? select (λ d, merge_sort profile_name_le (values_of (profiles d)));
  pure (profile_rows_to_models rows).

Definition enabled_rows (d : BootDb) : list BootProfileRow :=
  merge_sort profile_list_le
    (List.filter (λ row, pr_enabled row =? 1) (values_of (profiles d))).

Definition list_enabled_profiles : handler (list BootProfile) :=
  rows ←? select enabled_rows;
  pure (profile_rows_to_models rows).

Definition get_profile (id : Z) : handler BootProfile :=
  row ←? select (λ d, profiles d !! id);
  pure (row ≔ ok_or NotFound row ?; profile_from_row row).

(** ** Devices that boot *)

Definition MAX_AUTO_DISCOVERED_DEVICES_RETAINED : Z := 2000.
Definition MAX_BOOT_EVENTS_RETAINED : Z := 10000.

Definition with_seen (now : string) (serial : option string) (row : DeviceRow) : DeviceRow := {|
  dr_id := dr_id row; dr_mac := dr_mac row; dr_hostname := dr_hostname row;
  dr_serial_number := serial; dr_last_seen_at := Some now;
  dr_last_selected_profile_id := dr_last_selected_profile_id row;
  dr_notes := dr_notes row; dr_tags := dr_tags row;
  dr_default_profile_id := dr_default_profile_id row;
  dr_one_time_profile_id := dr_one_time_profile_id row;
  dr_one_time_consumed_at := dr_one_time_consumed_at row;
  dr_created_at := dr_created_at row; dr_updated_at := now;
  dr_managed_client_id := dr_managed_client_id row;
  dr_managed_device_id := dr_managed_device_id row;
  dr_reinstall_request_id := dr_reinstall_request_id row |}.

(** [UPDATE devices SET last_seen_at = ?, updated_at = ? WHERE id = ?]. *)
Definition touch (id : Z) (now : string) : handler unit :=
  execute (update_device_row id (λ _, true) (λ row, with_seen now (dr_serial_number row) row)).

Definition discovered_row (mac : string) (serial : option string) (now : string) (id : Z)
    : DeviceRow := {|
  dr_id := id; dr_mac := mac; dr_hostname := None; dr_serial_number := serial;
  dr_last_seen_at := Some now; dr_last_selected_profile_id := None; dr_notes := "";
  dr_tags := "[]"; dr_default_profile_id := None; dr_one_time_profile_id := None;
  dr_one_time_consumed_at := None; dr_created_at := now; dr_updated_at := now;
  dr_managed_client_id := None; dr_managed_device_id := None;
  dr_reinstall_request_id := None |}.

(** A row that only discovery wrote, as [prune_auto_discovered_devices] and
    [remove_unclaimed_auto_discovered_device] test it. *)
Definition discovery_only (row : DeviceRow) : bool :=
  bool_decide (dr_managed_client_id row = None) && bool_decide (is_Some (dr_last_seen_at row))
  && bool_decide (dr_hostname row = None) && bool_decide (dr_default_profile_id row = None)
  && bool_decide (dr_one_time_profile_id row = None)
  && bool_decide (dr_notes row = "") && bool_decide (dr_tags row = "[]").

Definition unclaimed (row : DeviceRow) : bool :=
  discovery_only row && bool_decide (dr_managed_device_id row = None)
  && bool_decide (dr_reinstall_request_id row = None)
  && bool_decide (dr_one_time_consumed_at row = None)
  && bool_decide (dr_last_selected_profile_id row = None).

(** [ORDER BY COALESCE(last_seen_at, created_at) DESC, id DESC]. *)
Definition recent_le (x y : DeviceRow) : Prop :=
  String.le (seen_at y) (seen_at x) ∧ (seen_at x = seen_at y → dr_id y ≤ dr_id x).
#[global] Instance recent_le_dec : RelDecision recent_le.
Proof. unfold recent_le. intros x y. apply _. Defined.

Definition kept_discoveries (max_devices : Z) (d : BootDb) : list Z :=
  dr_id <$> take (Z.to_nat (Z.max max_devices 1))
    (merge_sort recent_le (List.filter discovery_only (values_of (devices d)))).

Definition prune_statement (max_devices : Z) (d : BootDb) : BootDb :=
  (delete_devices (λ row, discovery_only row
     && negb (bool_decide (dr_id row ∈ kept_discoveries max_devices d))) d).2.

Definition prune_auto_discovered_devices (max_devices : Z) : handler unit :=
  execute (λ d, Some (prune_statement max_devices d)).

Definition seen_device_serial_number (existing_id : Z) (existing_serial incoming_serial : option string)
    : handler (option string) :=
  match existing_serial, (s ← incoming_serial; clean_str_ref s) with
  | None, Some serial =>
      found ←? get_device_by_serial serial;
      match found with
      | Some serial_device =>
          if dev_id serial_device =? existing_id then pure (Ok (Some serial)) else pure (Ok None)
      | None => pure (Ok (Some serial))
      end
  | value, _ => pure (Ok value)
  end.

Definition upsert_seen_device_with_retention (mac : string) (serial_number : option string)
    (max_auto_devices : Z) : handler (Device * bool) :=
  mac ←? pure (normalize_mac mac);
  now ←? now_rfc3339;
  found ←? get_device_by_mac mac;
  match found with
  | Some existing =>
      serial ←? seen_device_serial_number (dev_id existing) (dev_serial_number existing) serial_number;
      execute (update_device_row (dev_id existing) (λ _, true) (with_seen now serial)) ;;?
      device ←? get_device (dev_id existing);
      pure (Ok (device, true))
  | None =>
      let serial := s ← serial_number; clean_str_ref s in
      by_serial ←? (match serial with
                    | Some serial => get_device_by_serial serial
                    | None => pure (Ok None)
                    end);
      match by_serial with
      | Some existing =>
          touch (dev_id existing) now ;;?
          device ←? get_device (dev_id existing);
          pure (Ok (device, true))
      | None =>
          statement (insert_device (discovered_row mac serial now)) ;;?
          inserted ←? get_device_by_mac mac;
          device ←? pure (ok_or NotFound inserted);
          prune_auto_discovered_devices max_auto_devices ;;?
          pure (Ok (device, false))
      end
  end.

Definition upsert_seen_device (mac : string) (serial_number : option string)
    : handler (Device * bool) :=
  upsert_seen_device_with_retention mac serial_number MAX_AUTO_DISCOVERED_DEVICES_RETAINED.

Definition touch_device_seen (device_id : Z) : handler Device :=
  now ←? now_rfc3339;
  touch device_id now ;;?
  get_device device_id.

Definition remove_unclaimed_auto_discovered_device (device_id : Z) : handler bool :=
  removed ←? statement (λ d, Some (delete_devices (λ row, (dr_id row =? device_id) && unclaimed row) d));
  pure (Ok (removed =? 1)).

(** ** Device administration *)

Record CreateDeviceRequest := {
  cd_mac : string;
  cd_hostname : option string;
  cd_serial_number : option string;
  cd_notes : option string;
  cd_tags : option (list string);
  cd_default_profile_id : option Z;
  cd_one_time_profile_id : option Z;
}.

Record UpdateDeviceRequest := {
  ud_hostname : option (option string);
  ud_serial_number : option (option string);
  ud_notes : option string;
  ud_tags : option (list string);
  ud_default_profile_id : option (option Z);
  ud_one_time_profile_id : option (option Z);
}.

Definition profile_fields_have_boot_action (profile_type : BootProfileType)
    (raw_script : option string) : bool :=
  match profile_type with
  | LocalDisk | NestInstaller => true
  | CustomIpxe => has_script raw_script
  end.

Definition validate_assignable_profile_fields (field : string) (enabled : bool)
    (profile_type : BootProfileType) (raw_script : option string) : AppResult unit :=
  if negb enabled then invalid (field +:+ " must target an enabled profile") else
  if negb (profile_fields_have_boot_action profile_type raw_script)
  then invalid (field +:+ " must target a profile with a runnable boot action")
  else Ok tt.

Definition validate_assignable_profile (p : BootProfile) (field : string) : AppResult unit :=
  validate_assignable_profile_fields field (prof_enabled p) (prof_type p) (prof_raw_script p).

Definition validate_profile_assignment_id (profile_id : option Z) (field : string)
    : handler unit :=
  match profile_id with
  | None => pure (Ok tt)
  | Some profile_id =>
      row ←? select (λ d, profiles d !! profile_id);
      pure (row ≔ ok_or (Validation (field +:+ " references an unknown boot profile")) row ?;
            p ≔ profile_from_row row ?;
            validate_assignable_profile p field)
  end.

Definition created_row (mac : string) (hostname serial : option string) (notes tags : string)
    (default_profile_id one_time_profile_id : option Z) (now : string) (id : Z) : DeviceRow := {|
  dr_id := id; dr_mac := mac; dr_hostname := hostname; dr_serial_number := serial;
  dr_last_seen_at := None; dr_last_selected_profile_id := None; dr_notes := notes;
  dr_tags := tags; dr_default_profile_id := default_profile_id;
  dr_one_time_profile_id := one_time_profile_id; dr_one_time_consumed_at := None;
  dr_created_at := now; dr_updated_at := now; dr_managed_client_id := None;
  dr_managed_device_id := None; dr_reinstall_request_id := None |}.

Definition create_device (input : CreateDeviceRequest) : handler Device :=
  mac ←? pure (normalize_mac (cd_mac input));
  now ←? now_rfc3339;
  let hostname := clean_optional_string (cd_hostname input) in
  let serial_number := clean_optional_string (cd_serial_number input) in
  let notes := default "" (cd_notes input) in
  let tags := clean_tags (default [] (cd_tags input)) in
  pure (validate_device_metadata hostname serial_number notes tags) ;;?
  validate_profile_assignment_id (cd_default_profile_id input) "device default_profile_id" ;;?
  validate_profile_assignment_id (cd_one_time_profile_id input) "device one_time_profile_id" ;;?
  statement (insert_device (created_row mac hostname serial_number notes (tags_to_string tags)
               (cd_default_profile_id input) (cd_one_time_profile_id input) now)) ;;?
  inserted ←? get_device_by_mac mac;
  pure (ok_or NotFound inserted).

Definition updated_row (hostname serial : option string) (notes tags : string)
    (default_profile_id one_time_profile_id : option Z) (now : string) (row : DeviceRow)
    : DeviceRow := {|
  dr_id := dr_id row; dr_mac := dr_mac row; dr_hostname := hostname;
  dr_serial_number := serial; dr_last_seen_at := dr_last_seen_at row;
  dr_last_selected_profile_id := dr_last_selected_profile_id row; dr_notes := notes;
  dr_tags := tags; dr_default_profile_id := default_profile_id;
  dr_one_time_profile_id := one_time_profile_id;
  dr_one_time_consumed_at := dr_one_time_consumed_at row;
  dr_created_at := dr_created_at row; dr_updated_at := now;
  dr_managed_client_id := dr_managed_client_id row;
  dr_managed_device_id := dr_managed_device_id row;
  dr_reinstall_request_id := dr_reinstall_request_id row |}.

Definition update_device (id : Z) (input : UpdateDeviceRequest) : handler Device :=
  current ←? get_device id;
  let hostname := default (dev_hostname current) (clean_optional_string <$> ud_hostname input) in
  let serial_number :=
    default (dev_serial_number current) (clean_optional_string <$> ud_serial_number input) in
  let notes := default (dev_notes current) (ud_notes input) in
  let tags := default (dev_tags current) (clean_tags <$> ud_tags input) in
  pure (validate_device_metadata hostname serial_number notes tags) ;;?
  let default_profile_id := default (dev_default_profile_id current) (ud_default_profile_id input) in
  let one_time_profile_id :=
    default (dev_one_time_profile_id current) (ud_one_time_profile_id input) in
  validate_profile_assignment_id default_profile_id "device default_profile_id" ;;?
  validate_profile_assignment_id one_time_profile_id "device one_time_profile_id" ;;?
  now ←? now_rfc3339;
  execute (update_device_row id (λ _, true)
    (updated_row hostname serial_number notes (tags_to_string tags)
       default_profile_id one_time_profile_id now)) ;;?
  get_device id.

Definition delete_device (id : Z) : handler unit :=
  affected ←? statement (λ d, Some (delete_devices (λ row, dr_id row =? id) d));
  pure (if affected =? 0 then Err NotFound else Ok tt).

Definition selected_row (profile_id : Z) (now : string) (row : DeviceRow) : DeviceRow := {|
  dr_id := dr_id row; dr_mac := dr_mac row; dr_hostname := dr_hostname row;
  dr_serial_number := dr_serial_number row; dr_last_seen_at := dr_last_seen_at row;
  dr_last_selected_profile_id := Some profile_id; dr_notes := dr_notes row;
  dr_tags := dr_tags row; dr_default_profile_id := dr_default_profile_id row;
  dr_one_time_profile_id := dr_one_time_profile_id row;
  dr_one_time_consumed_at := dr_one_time_consumed_at row;
  dr_created_at := dr_created_at row; dr_updated_at := now;
  dr_managed_client_id := dr_managed_client_id row;
  dr_managed_device_id := dr_managed_device_id row;
  dr_reinstall_request_id := dr_reinstall_request_id row |}.

Definition set_device_last_selected (device_id profile_id : Z) : handler unit :=
  now ←? now_rfc3339;
  execute (update_device_row device_id (λ _, true) (selected_row profile_id now)).

Definition consumed_row (profile_id : Z) (now : string) (row : DeviceRow) : DeviceRow := {|
  dr_id := dr_id row; dr_mac := dr_mac row; dr_hostname := dr_hostname row;
  dr_serial_number := dr_serial_number row; dr_last_seen_at := dr_last_seen_at row;
  dr_last_selected_profile_id := Some profile_id; dr_notes := dr_notes row;
  dr_tags := dr_tags row; dr_default_profile_id := dr_default_profile_id row;
  dr_one_time_profile_id := None; dr_one_time_consumed_at := Some now;
  dr_created_at := dr_created_at row; dr_updated_at := now;
  dr_managed_client_id := dr_managed_client_id row;
  dr_managed_device_id := dr_managed_device_id row;
  dr_reinstall_request_id := dr_reinstall_request_id row |}.

Definition consume_one_time_profile (device_id profile_id : Z) : handler unit :=
  now ←? now_rfc3339;
  execute (update_device_row device_id
    (λ row, bool_decide (dr_one_time_profile_id row = Some profile_id))
    (consumed_row profile_id now)).

(** ** Profile administration *)

Record CreateBootProfileRequest := {
  cp_name : string;
  cp_description : option string;
  cp_profile_type : BootProfileType;
  cp_enabled : option bool;
  cp_is_default : option bool;
  cp_one_time : option bool;
  cp_raw_script : option string;
}.

Record UpdateBootProfileRequest := {
  up_name : option string;
  up_description : option string;
  up_profile_type : option BootProfileType;
  up_enabled : option bool;
  up_is_default : option bool;
  up_one_time : option bool;
  up_raw_script : option (option string);
}.

Definition validate_profile_shape (profile_type : BootProfileType) (raw_script : option string)
    : AppResult unit :=
  guard_valid (bool_decide (profile_type = CustomIpxe) || negb (has_script raw_script))
    "raw_script is only supported for custom_ipxe profiles".

Definition without_default (row : BootProfileRow) : BootProfileRow := {|
  pr_id := pr_id row; pr_managed_profile_id := pr_managed_profile_id row;
  pr_name := pr_name row; pr_description := pr_description row;
  pr_profile_type := pr_profile_type row; pr_enabled := pr_enabled row; pr_is_default := 0;
  pr_one_time := pr_one_time row; pr_raw_script := pr_raw_script row;
  pr_created_at := pr_created_at row; pr_updated_at := pr_updated_at row |}.

Definition clear_default_profiles : handler unit :=
  execute (λ d, Some (set_profiles (without_default <$> profiles d) d)).

Definition assigned_to (profile_id : Z) (row : DeviceRow) : bool :=
  bool_decide (dr_default_profile_id row = Some profile_id)
  || bool_decide (dr_one_time_profile_id row = Some profile_id).

Definition validate_profile_has_no_device_assignments (profile_id : Z) : handler unit :=
  assigned_count ←? select (λ d, count (assigned_to profile_id) (values_of (devices d)));
  pure (guard_valid (bool_decide (assigned_count = 0%nat))
          "assigned profile must remain enabled and runnable").

Definition new_profile_row (name description : string) (profile_type : BootProfileType)
    (enabled is_default one_time : bool) (raw_script : option string) (now : string) (id : Z)
    : BootProfileRow := {|
  pr_id := id; pr_managed_profile_id := None; pr_name := trim name;
  pr_description := description; pr_profile_type := profile_type_str profile_type;
  pr_enabled := bool_to_i64 enabled; pr_is_default := bool_to_i64 is_default;
  pr_one_time := bool_to_i64 one_time; pr_raw_script := raw_script;
  pr_created_at := now; pr_updated_at := now |}.

Definition create_profile (input : CreateBootProfileRequest) : handler BootProfile :=
  pure (validate_profile_name (cp_name input)) ;;?
  let description := default "" (cp_description input) in
  let enabled := default true (cp_enabled input) in
  let is_default := default false (cp_is_default input) in
  let one_time := default false (cp_one_time input) in
  let raw_script := clean_optional_string (cp_raw_script input) in
  pure (validate_profile_description (Some description)) ;;?
  pure (validate_profile_raw_script raw_script) ;;?
  pure (validate_profile_shape (cp_profile_type input) raw_script) ;;?
  (if is_default then
     pure (validate_assignable_profile_fields "default profile" enabled
             (cp_profile_type input) raw_script) ;;?
     clear_default_profiles
   else pure (Ok tt)) ;;?
  now ←? now_rfc3339;
  id ←? statement (insert_profile (new_profile_row (cp_name input) description
          (cp_profile_type input) enabled is_default one_time raw_script now));
  get_profile id.

Definition changed_profile_row (name description : string) (profile_type : BootProfileType)
    (enabled is_default one_time : bool) (raw_script : option string) (now : string)
    (row : BootProfileRow) : BootProfileRow := {|
  pr_id := pr_id row; pr_managed_profile_id := pr_managed_profile_id row;
  pr_name := trim name; pr_description := description;
  pr_profile_type := profile_type_str profile_type;
  pr_enabled := bool_to_i64 enabled; pr_is_default := bool_to_i64 is_default;
  pr_one_time := bool_to_i64 one_time; pr_raw_script := raw_script;
  pr_created_at := pr_created_at row; pr_updated_at := now |}.

Definition update_profile (id : Z) (input : UpdateBootProfileRequest) : handler BootProfile :=
  current ←? get_profile id;
  let name := default (prof_name current) (up_name input) in
  pure (validate_profile_name name) ;;?
  let description := default (prof_description current) (up_description input) in
  let profile_type := default (prof_type current) (up_profile_type input) in
  let enabled := default (prof_enabled current) (up_enabled input) in
  let is_default := default (prof_is_default current) (up_is_default input) in
  let one_time := default (prof_one_time current) (up_one_time input) in
  let raw_script :=
    default (prof_raw_script current) (clean_optional_string <$> up_raw_script input) in
  pure (validate_profile_description (Some description)) ;;?
  pure (validate_profile_raw_script raw_script) ;;?
  pure (validate_profile_shape profile_type raw_script) ;;?
  (if is_default then
     pure (validate_assignable_profile_fields "default profile" enabled
             profile_type raw_script) ;;?
     clear_default_profiles
   else if negb (profile_fields_have_boot_action profile_type raw_script) || negb enabled
   then validate_profile_has_no_device_assignments id
   else pure (Ok tt)) ;;?
  now ←? now_rfc3339;
  execute (update_profile_row id
    (changed_profile_row name description profile_type enabled is_default one_time raw_script now)) ;;?
  get_profile id.

Definition delete_profile (id : Z) : handler unit :=
  affected ←? statement (λ d, Some (delete_profile_row id d));
  pure (if affected =? 0 then Err NotFound else Ok tt).

(** ** Boot events *)

(** [ORDER BY id DESC LIMIT n]. *)
Definition event_recent (x y : BootEvent) : Prop := ev_id y ≤ ev_id x.
#[global] Instance event_recent_dec : RelDecision event_recent.
Proof. unfold event_recent. intros x y. apply _. Defined.
Definition newest (n : Z) (l : list BootEvent) : list Z :=
  ev_id <$> take (Z.to_nat n) (merge_sort event_recent l).

Definition selected_boot (e : BootEvent) : bool :=
  ne_known_device (ev_recorded e)
  && bool_decide (is_Some (ne_selected_profile_id (ev_recorded e))).

Definition prune_events_statement (max_events : Z) (d : BootDb) : BootDb :=
  let all := values_of (boot_events d) in
  let keep := newest (Z.max max_events 1) all
              ++ newest (Z.max max_events 1) (List.filter selected_boot all) in
  set_events (filter (λ '(id, _), id ∈ keep) (boot_events d)) d.

Definition prune_boot_events (max_events : Z) : handler unit :=
  execute (λ d, Some (prune_events_statement max_events d)).

Definition get_boot_event (id : Z) : handler BootEvent :=
  row ←? select (λ d, boot_events d !! id);
  pure (ok_or NotFound row).

Definition insert_boot_event_with_retention (event : NewBootEvent) (max_events : Z)
    : handler BootEvent :=
  now ←? now_rfc3339;
  id ←? statement (insert_event event now);
  event ←? get_boot_event id;
  prune_boot_events max_events ;;?
  pure (Ok event).

Definition insert_boot_event (event : NewBootEvent) : handler BootEvent :=
  insert_boot_event_with_retention event MAX_BOOT_EVENTS_RETAINED.

(** [ORDER BY created_at DESC LIMIT ?]; events of one instant in identifier
    order. *)
Definition event_list_le (x y : BootEvent) : Prop :=
  String.le (ev_created_at y) (ev_created_at x) ∧
  (ev_created_at x = ev_created_at y → ev_id x ≤ ev_id y).
#[global] Instance event_list_le_dec : RelDecision event_list_le.
Proof. unfold event_list_le. intros x y. apply _. Defined.

Definition list_boot_events (limit : Z) : handler (list BootEvent) :=
  select (λ d, take (Z.to_nat (clamp 1 500 limit))
                 (merge_sort event_list_le (values_of (boot_events d)))).
End Store.
