(* ===== verification/BootStoreProofs.v ===== *)
(** * Devices, boot profiles and boot events: invariants

    The invariant of the three tables, how they may evolve, and that every
    statement and every operation of [BootStore] respects both, whatever else
    runs between its statements. *)

From stdpp Require Import sorting base gmap list strings.
From Stdlib Require Import Ascii ZArith Lia.
From S2P Require Import Prelude Async RustStr Json DbText DbTextProofs Boot BootProofs BootStore.

#[local] Open Scope Z_scope.
#[local] Open Scope nest_scope.

Create HintDb boot discriminated.

(** ** The invariant *)

Definition device_refs (d : BootDb) (row : DeviceRow) : Prop :=
  references d (dr_last_selected_profile_id row) = true ∧
  references d (dr_default_profile_id row) = true ∧
  references d (dr_one_time_profile_id row) = true.

(** A stored profile: flags and type are valid, its name was validated, only a
    custom profile has a script, and a default can boot. *)
Definition profile_row_ok (row : BootProfileRow) : Prop :=
  is_flag (pr_enabled row) = true ∧ is_flag (pr_is_default row) = true ∧
  is_flag (pr_one_time row) = true ∧
  validate_profile_name (pr_name row) = Ok tt ∧
  ∃ t, profile_type_from_str (pr_profile_type row) = Ok t ∧
    validate_profile_shape t (pr_raw_script row) = Ok tt ∧
    (pr_is_default row = 1 → pr_enabled row = 1 ∧
       profile_fields_have_boot_action t (pr_raw_script row) = true).

Definition event_refs (d : BootDb) (e : BootEvent) : Prop := event_allowed d (ev_recorded e) = true.

Record boot_ok (d : BootDb) : Prop := {
  ok_device_key id row :
    devices d !! id = Some row → dr_id row = id ∧ 0 < id ≤ last_device d;
  ok_device_mac id row : devices d !! id = Some row → canonical_mac (dr_mac row);
  ok_device_unique id row id' row' :
    devices d !! id = Some row → devices d !! id' = Some row' → id ≠ id' →
    clashes row row' = false;
  ok_device_refs id row : devices d !! id = Some row → device_refs d row;
  ok_profile_key id row :
    profiles d !! id = Some row → pr_id row = id ∧ 0 < id ≤ last_profile d;
  ok_profile_row id row : profiles d !! id = Some row → profile_row_ok row;
  ok_single_default id row id' row' :
    profiles d !! id = Some row → profiles d !! id' = Some row' →
    pr_is_default row = 1 → pr_is_default row' = 1 → id = id';
  ok_managed_unique id row id' row' m :
    profiles d !! id = Some row → profiles d !! id' = Some row' →
    pr_managed_profile_id row = Some m → pr_managed_profile_id row' = Some m → id = id';
  ok_event_key id e : boot_events d !! id = Some e → ev_id e = id ∧ 0 < id ≤ last_event d;
  ok_event_refs id e : boot_events d !! id = Some e → event_refs d e;
  ok_counters : 0 ≤ last_device d ∧ 0 ≤ last_profile d ∧ 0 ≤ last_event d;
}.

(** ** Evolution *)

(** Who writes the tables: the requests of machines and of the administrator only, or the
    synchronization with the service that manages the Nest too. *)
Class Writers := synchronizes : bool.

Definition managed (row : DeviceRow) : Prop := is_Some (dr_managed_client_id row).

(** An identifier never names another profile or event.  It names another machine only when
    the service that manages the device says so; a managed device stays so. *)
Definition same_device {writers : Writers} (row row' : DeviceRow) : Prop :=
  dr_created_at row' = dr_created_at row ∧ (managed row → managed row') ∧
  (dr_mac row' = dr_mac row ∧ dr_managed_client_id row' = dr_managed_client_id row ∨
   synchronizes = true ∧ managed row').
Definition same_event (e e' : BootEvent) : Prop :=
  let n := ev_recorded e in let n' := ev_recorded e' in
  ev_created_at e' = ev_created_at e ∧ ne_mac n' = ne_mac n ∧
  ne_serial_number n' = ne_serial_number n ∧ ne_ip_address n' = ne_ip_address n ∧
  ne_user_agent n' = ne_user_agent n ∧
  ne_selected_profile_name n' = ne_selected_profile_name n ∧
  ne_known_device n' = ne_known_device n.

(** A reference stays, or is cleared once the row it named is gone for good. *)
Definition kept_or_gone {A} (last : Z) (table : gmap Z A) (o o' : option Z) : Prop :=
  o' = o ∨ o' = None ∧ ∀ i, o = Some i → i ≤ last ∧ table !! i = None.
Definition event_kept (d : BootDb) (e e' : BootEvent) : Prop :=
  same_event e e' ∧
  kept_or_gone (last_device d) (devices d) (ne_device_id (ev_recorded e)) (ne_device_id (ev_recorded e')) ∧
  kept_or_gone (last_profile d) (profiles d) (ne_selected_profile_id (ev_recorded e))
    (ne_selected_profile_id (ev_recorded e')).

Record boot_evolves {writers : Writers} (d d' : BootDb) : Prop := {
  ev_counters : last_device d ≤ last_device d' ∧ last_profile d ≤ last_profile d' ∧
                last_event d ≤ last_event d';
  ev_devices id row' :
    devices d' !! id = Some row' → id ≤ last_device d →
    ∃ row, devices d !! id = Some row ∧ same_device row row';
  ev_profiles id row' :
    profiles d' !! id = Some row' → id ≤ last_profile d →
    ∃ row, profiles d !! id = Some row ∧ pr_created_at row' = pr_created_at row;
  ev_events id e' :
    boot_events d' !! id = Some e' → id ≤ last_event d →
    ∃ e, boot_events d !! id = Some e ∧ event_kept d' e e';
}.

#[global] Instance same_device_preorder {writers : Writers} : PreOrder same_device.
Proof.
  split; [intros x; unfold same_device; auto|]. unfold same_device. intros x y z (?&?&H1) (?&?&H2).
  split_and!; [congruence|auto|]. destruct H2 as [[-> ->]|?]; [|auto]. destruct H1 as [?|[? ?]]; auto.
Qed.
#[global] Instance same_event_preorder : PreOrder same_event.
Proof.
  split; [by intros x; split_and!; auto|]. intros x y z. unfold same_event. intros Hx Hy.
  destruct_and! Hx. destruct_and! Hy. split_and!; congruence.
Qed.
Lemma event_kept_refl d e : event_kept d e e.
Proof. split; [reflexivity|]. split; by left. Qed.
#[local] Hint Resolve event_kept_refl : core.

Lemma kept_or_gone_trans {A} last2 last3 (t2 t3 : gmap Z A) o1 o2 o3 :
  last2 ≤ last3 → (∀ i x, t3 !! i = Some x → i ≤ last2 → is_Some (t2 !! i)) →
  kept_or_gone last2 t2 o1 o2 → kept_or_gone last3 t3 o2 o3 → kept_or_gone last3 t3 o1 o3.
Proof.
  intros Hl Ht [->|[-> H1]] H2; [done|]. right. split; [by destruct H2 as [?|[? _]]|].
  intros i Hi. destruct (H1 i Hi) as [Hle Hn]. split; [lia|].
  destruct (t3 !! i) as [x|] eqn:E; [|done]. destruct (Ht i x E Hle) as [y Hy]. congruence.
Qed.

#[global] Instance boot_evolves_preorder {writers : Writers} : PreOrder boot_evolves.
Proof.
  split.
  - intros d. split; [lia|..]; intros id x Hx _; exists x; (split; [done|]); [reflexivity|reflexivity|apply event_kept_refl].
  - intros d1 d2 d3 [C1 D1 P1 E1] [C2 D2 P2 E2]. split; [lia|..].
    + intros id r3 H3 Hle. destruct (D2 id r3 H3) as (r2 & H2 & ?); [lia|].
      destruct (D1 id r2 H2 Hle) as (r1 & ? & ?). exists r1. split; [done|by etrans].
    + intros id r3 H3 Hle. destruct (P2 id r3 H3) as (r2 & H2 & ?); [lia|].
      destruct (P1 id r2 H2 Hle) as (r1 & ? & ?). exists r1. split; [done|congruence].
    + intros id r3 H3 Hle. destruct (E2 id r3 H3) as (r2 & H2 & (S2 & Kd2 & Kp2)); [lia|].
      destruct (E1 id r2 H2 Hle) as (r1 & ? & (S1 & Kd1 & Kp1)). exists r1. split; [done|]. split; [by etrans|]. split.
      * eapply kept_or_gone_trans; [| |exact Kd1|exact Kd2]; [lia|]. intros i x Hx Hi.
        destruct (D2 i x Hx Hi) as (y & ? & _). by exists y.
      * eapply kept_or_gone_trans; [| |exact Kp1|exact Kp2]; [lia|]. intros i x Hx Hi.
        destruct (P2 i x Hx Hi) as (y & ? & _). by exists y.
Qed.

(** ** Statements *)

Lemma device_allowed_spec d id row :
  device_allowed d id row = true ↔
  (∀ other row', devices d !! other = Some row' → other ≠ id → clashes row row' = false) ∧
  device_refs d row.
Proof.
  unfold device_allowed, device_refs. rewrite !andb_true_iff, forallb_forall.
  assert ((∀ x, In x (map_to_list (devices d)) →
     (let '(other, row') := x in bool_decide (other = id) || negb (clashes row row')) = true) ↔
   (∀ other row', devices d !! other = Some row' → other ≠ id → clashes row row' = false)) as ->;
    [|tauto].
  split.
  - intros H other row' Ho Hne. specialize (H (other, row')). simpl in H.
    rewrite <- list_elem_of_In, elem_of_map_to_list in H. specialize (H Ho).
    by rewrite bool_decide_false, orb_false_l, negb_true_iff in H.
  - intros H [other row']. rewrite <- list_elem_of_In, elem_of_map_to_list. intros Ho.
    case_bool_decide; [done|]. simpl. by rewrite (H other row').
Qed.

Lemma same_key_sym x y : same_key x y = same_key y x.
Proof. destruct x, y; [|done..]. by apply bool_decide_ext. Qed.

Lemma clashes_sym x y : clashes x y = clashes y x.
Proof.
  unfold clashes, same_mac, same_serial, same_client. rewrite (same_key_sym (dr_serial_number x)).
  rewrite (same_key_sym (dr_managed_client_id x)). f_equal. f_equal. by apply bool_decide_ext.
Qed.

Lemma profile_allowed_spec d id row :
  profile_allowed d id row = true → pr_is_default row = 1 →
  ∀ other row', profiles d !! other = Some row' → pr_is_default row' = 1 → other = id.
Proof.
  unfold profile_allowed. rewrite !andb_true_iff, orb_true_iff. intros [[_ [Hz|Hall]] _] H1;
    [bool_prop; lia|].
  intros other row' Ho H1'. rewrite forallb_forall in Hall. specialize (Hall (other, row')).
  rewrite <- list_elem_of_In, elem_of_map_to_list in Hall. specialize (Hall Ho). simpl in Hall.
  apply orb_true_iff in Hall as [H|H]; bool_prop; [done|lia].
Qed.

Lemma profile_allowed_managed d id row m :
  profile_allowed d id row = true → pr_managed_profile_id row = Some m →
  ∀ other row', profiles d !! other = Some row' → pr_managed_profile_id row' = Some m → other = id.
Proof.
  unfold profile_allowed. rewrite !andb_true_iff. intros [_ Hall] Hm other row' Ho Hm'.
  rewrite forallb_forall in Hall. specialize (Hall (other, row')).
  rewrite <- list_elem_of_In, elem_of_map_to_list in Hall. specialize (Hall Ho). simpl in Hall.
  rewrite Hm, Hm' in Hall. simpl in Hall. rewrite (bool_decide_true (m = m)) in Hall by done.
  destruct (decide (other = id)); [done|]. by rewrite bool_decide_false in Hall.
Qed.

Definition step {writers : Writers} (d d' : BootDb) : Prop := boot_ok d' ∧ boot_evolves d d'.

Lemma references_true d o :
  references d o = true ↔ ∀ id, o = Some id → is_Some (profiles d !! id).
Proof.
  destruct o as [id|]; simpl; [|by split]. rewrite bool_decide_eq_true. naive_solver.
Qed.

Lemma references_mono d d' o :
  (∀ id, is_Some (profiles d !! id) → is_Some (profiles d' !! id)) →
  references d o = true → references d' o = true.
Proof. rewrite !references_true. eauto. Qed.

Lemma device_refs_mono d d' row :
  (∀ id, is_Some (profiles d !! id) → is_Some (profiles d' !! id)) →
  device_refs d row → device_refs d' row.
Proof. intros Hp (?&?&?). split_and!; by eapply references_mono. Qed.

Lemma event_allowed_true d e :
  event_allowed d e = true ↔
  (∀ id, ne_selected_profile_id e = Some id → is_Some (profiles d !! id)) ∧
  (∀ id, ne_device_id e = Some id → is_Some (devices d !! id)).
Proof.
  unfold event_allowed. rewrite andb_true_iff, references_true.
  destruct (ne_device_id e) as [id|]; [|naive_solver]. rewrite bool_decide_eq_true. naive_solver.
Qed.

Lemma event_refs_mono d d' e :
  (∀ id, is_Some (profiles d !! id) → is_Some (profiles d' !! id)) →
  (∀ id, is_Some (devices d !! id) → is_Some (devices d' !! id)) →
  event_refs d e → event_refs d' e.
Proof. unfold event_refs. rewrite !event_allowed_true. naive_solver. Qed.

(** Writing one device row, new or not. *)
Lemma write_device_step {writers : Writers} d d' id row :
  boot_ok d → device_allowed d id row = true → dr_id row = id → canonical_mac (dr_mac row) →
  devices d' = <[id := row]> (devices d) → profiles d' = profiles d →
  boot_events d' = boot_events d → last_profile d' = last_profile d →
  last_event d' = last_event d → 0 < id ≤ last_device d' → last_device d ≤ last_device d' →
  (∀ row0, devices d !! id = Some row0 → same_device row0 row) →
  (id ≤ last_device d → is_Some (devices d !! id)) →
  step d d'.
Proof.
  intros [K M U R PK PR PS PM EK ER C] Ha Hid Hmac Hd Hp He Hlp Hle Hpos Hld Hsame Hold.
  apply device_allowed_spec in Ha as [Hun Hrefs].
  assert (∀ i, is_Some (profiles d !! i) → is_Some (profiles d' !! i)) as Hpm by by rewrite Hp.
  assert (∀ i, is_Some (devices d !! i) → is_Some (devices d' !! i)) as Hdm.
  { intros i. rewrite Hd. rewrite lookup_insert_is_Some. intros. destruct (decide (id = i)); auto. }
  split.
  - split; rewrite ?Hd, ?Hp, ?He, ?Hlp, ?Hle; auto; try lia.
    + intros i r [[<- <-]|[Hne Hr]]%lookup_insert_Some; [done|]. destruct (K i r Hr). split; [done|lia].
    + intros i r [[<- <-]|[Hne Hr]]%lookup_insert_Some; [done|eauto].
    + intros i r i' r' [[<- <-]|[Hne Hr]]%lookup_insert_Some [[<- <-]|[Hne' Hr']]%lookup_insert_Some Hii.
      * done.
      * by apply (Hun i').
      * rewrite clashes_sym. by apply (Hun i).
      * by apply (U i r i' r').
    + intros i r [[<- <-]|[Hne Hr]]%lookup_insert_Some; (eapply device_refs_mono; [done|]); eauto.
    + intros i e Hi. eapply event_refs_mono; eauto.
  - split; rewrite ?Hd, ?Hp, ?He, ?Hlp, ?Hle; [lia|..].
    + intros i r [[<- <-]|[Hne Hr]]%lookup_insert_Some Hi; [|by exists r].
      destruct (Hold Hi) as [row0 H0]. exists row0. auto.
    + intros i r Hr _. by exists r.
    + intros i r Hr _. by exists r.
Qed.

Lemma insert_device_step {writers : Writers} mk d id d' :
  boot_ok d → (∀ i, dr_id (mk i) = i ∧ canonical_mac (dr_mac (mk i))) →
  insert_device mk d = Some (id, d') → step d d'.
Proof.
  intros Hd Hmk. unfold insert_device. destruct (_ && _) eqn:Hc; [|done]. intros [= <- <-].
  apply andb_true_iff in Hc as [_ Ha]. destruct (ok_counters d Hd) as (?&?&?).
  assert (devices d !! (last_device d + 1) = None) as Hnone.
  { destruct (devices d !! _) eqn:E; [|done]. apply (ok_device_key d Hd) in E. lia. }
  eapply write_device_step; simpl; try done; try lia; [apply Hmk..|].
  intros row0. rewrite Hnone. done.
Qed.

Lemma change_device_row_step {writers : Writers} id cond f d d' :
  boot_ok d →
  (∀ row, dr_id (f row) = dr_id row ∧ same_device row (f row) ∧
          (canonical_mac (dr_mac row) → canonical_mac (dr_mac (f row)))) →
  update_device_row id cond f d = Some d' → step d d'.
Proof.
  intros Hd Hf. unfold update_device_row. destruct (devices d !! id) as [row|] eqn:Hr.
  - destruct (cond row); [|intros [= <-]; by split].
    destruct (device_allowed d id (f row)) eqn:Ha; [|done]. intros [= <-].
    destruct (ok_device_key d Hd id row Hr) as [Hk ?]. destruct (Hf row) as (Hi & Hs & Hm).
    eapply write_device_step; simpl; try done; try lia.
    + by eapply Hm, ok_device_mac.
    + intros row0. rewrite Hr. by intros [= <-].
  - intros [= <-]. by split.
Qed.

(** The columns that only the managed synchronization writes. *)
Definition keeps_identity (row row' : DeviceRow) : Prop :=
  dr_id row' = dr_id row ∧ dr_mac row' = dr_mac row ∧ dr_created_at row' = dr_created_at row ∧
  dr_managed_client_id row' = dr_managed_client_id row.

Lemma update_device_row_step {writers : Writers} id cond f d d' :
  boot_ok d → (∀ row, keeps_identity row (f row)) →
  update_device_row id cond f d = Some d' → step d d'.
Proof.
  intros Hd Hf. apply change_device_row_step; [done|]. intros row. destruct (Hf row) as (?&Hm&?&Hc).
  unfold same_device, managed. rewrite Hm, Hc. split_and!; auto.
Qed.

Lemma delete_devices_step {writers : Writers} gone d : boot_ok d → step d (delete_devices gone d).2.
Proof.
  intros [K M U R PK PR PS PM EK ER C]. unfold delete_devices. simpl.
  set (keep := filter (λ '(_, row), gone row = false) (devices d)).
  assert (∀ id row, keep !! id = Some row → devices d !! id = Some row) as Hk
    by by intros id row [? _]%map_lookup_filter_Some.
  split.
  - split; simpl; eauto.
    + intros id e [e0 [<- He]]%lookup_fmap_Some. by apply EK in He.
    + intros id e [e0 [<- He]]%lookup_fmap_Some. specialize (ER id e0 He).
      unfold event_refs in *. rewrite event_allowed_true in *. simpl. destruct ER as [ERp ERd].
      split; [done|]. intros i Hi. destruct (ne_device_id (ev_recorded e0)) as [j|] eqn:Hj; [|done].
      simpl in Hi. case_bool_decide as Hg; simplify_eq. destruct (ERd i eq_refl) as [row Hrow].
      exists row. apply map_lookup_filter_Some. split; [done|].
      apply not_true_iff_false. intros Hgone. apply Hg. exists row.
      by apply map_lookup_filter_Some.
  - split; simpl; [lia|..].
    + intros id row Hr _. exists row. split; [by apply Hk|reflexivity].
    + intros id row Hr _. by exists row.
    + intros id e [e0 [<- He]]%lookup_fmap_Some _. exists e0. split; [done|].
      split; [by split_and!|]. split; [|by left]. simpl.
      destruct (ne_device_id (ev_recorded e0)) as [j|]; simpl; [|by left]. case_bool_decide as Hg; [right|by left].
      destruct Hg as [row [Hrow Hgone]%map_lookup_filter_Some]. split; [done|]. intros i [= <-]. split; [by apply (K _ _ Hrow)|].
      destruct (keep !! j) as [row'|] eqn:E; [|done]. apply map_lookup_filter_Some in E as [E Hkeep]. congruence.
Qed.

(** Writing one profile row, new or not. *)
Lemma write_profile_step {writers : Writers} d d' id row :
  boot_ok d → profile_allowed d id row = true → profile_row_ok row → pr_id row = id →
  profiles d' = <[id := row]> (profiles d) → devices d' = devices d →
  boot_events d' = boot_events d → last_device d' = last_device d →
  last_event d' = last_event d → 0 < id ≤ last_profile d' → last_profile d ≤ last_profile d' →
  (∀ row0, profiles d !! id = Some row0 → pr_created_at row = pr_created_at row0) →
  (id ≤ last_profile d → is_Some (profiles d !! id)) →
  step d d'.
Proof.
  intros [K M U R PK PR PS PM EK ER C] Ha Hok Hid Hp Hd He Hld Hle Hpos Hlp Hsame Hold.
  assert (∀ i, is_Some (profiles d !! i) → is_Some (profiles d' !! i)) as Hpm.
  { intros i. rewrite Hp, lookup_insert_is_Some. intros. destruct (decide (id = i)); auto. }
  assert (∀ i, is_Some (devices d !! i) → is_Some (devices d' !! i)) as Hdm by by rewrite Hd.
  split.
  - split; rewrite ?Hd, ?Hp, ?He, ?Hld, ?Hle; auto; try lia.
    + intros i r Hr. eapply device_refs_mono; eauto.
    + intros i r [[<- <-]|[Hne Hr]]%lookup_insert_Some; [done|]. destruct (PK i r Hr). split; [done|lia].
    + intros i r [[<- <-]|[Hne Hr]]%lookup_insert_Some; [done|eauto].
    + intros i r i' r' [[<- <-]|[Hne Hr]]%lookup_insert_Some [[<- <-]|[Hne' Hr']]%lookup_insert_Some D D'.
      * done.
      * symmetry. by eapply profile_allowed_spec.
      * by eapply profile_allowed_spec.
      * by eapply PS.
    + intros i r i' r' m [[<- <-]|[Hne Hr]]%lookup_insert_Some [[<- <-]|[Hne' Hr']]%lookup_insert_Some D D'.
      * done.
      * symmetry. by eapply profile_allowed_managed.
      * by eapply profile_allowed_managed.
      * by eapply PM.
    + intros i e Hi. eapply event_refs_mono; eauto.
  - split; rewrite ?Hd, ?Hp, ?He, ?Hld, ?Hle; [lia|..].
    + intros i r Hr _. by exists r.
    + intros i r [[<- <-]|[Hne Hr]]%lookup_insert_Some Hi; [|by exists r].
      destruct (Hold Hi) as [row0 H0]. exists row0. auto.
    + intros i r Hr _. by exists r.
Qed.

Lemma insert_profile_step {writers : Writers} mk d id d' :
  boot_ok d → (∀ i, pr_id (mk i) = i ∧ profile_row_ok (mk i)) →
  insert_profile mk d = Some (id, d') → step d d'.
Proof.
  intros Hd Hmk. unfold insert_profile. destruct (_ && _) eqn:Hc; [|done]. intros [= <- <-].
  apply andb_true_iff in Hc as [_ Ha]. destruct (ok_counters d Hd) as (?&?&?).
  assert (profiles d !! (last_profile d + 1) = None) as Hnone.
  { destruct (profiles d !! _) eqn:E; [|done]. apply (ok_profile_key d Hd) in E. lia. }
  eapply write_profile_step; simpl; try done; try lia; [apply Hmk..|].
  intros row0. rewrite Hnone. done.
Qed.

Lemma update_profile_row_step {writers : Writers} id f d d' :
  boot_ok d →
  (∀ row, pr_id (f row) = pr_id row ∧ pr_created_at (f row) = pr_created_at row ∧
          profile_row_ok (f row)) →
  update_profile_row id f d = Some d' → step d d'.
Proof.
  intros Hd Hf. unfold update_profile_row. destruct (profiles d !! id) as [row|] eqn:Hr.
  - destruct (profile_allowed d id (f row)) eqn:Ha; [|done]. intros [= <-].
    destruct (ok_profile_key d Hd id row Hr) as [Hk ?]. destruct (Hf row) as (Hi&Hc&Ho).
    eapply write_profile_step; simpl; try done; try lia.
    intros row0. rewrite Hr. by intros [= <-].
  - intros [= <-]. by split.
Qed.

Lemma without_default_ok row : profile_row_ok row → profile_row_ok (without_default row).
Proof.
  intros (?&?&?&?&t&?&?&?). unfold profile_row_ok. simpl. split_and!; try done.
  exists t. by split_and!.
Qed.

Lemma clear_default_step {writers : Writers} d :
  boot_ok d → step d (set_profiles (without_default <$> profiles d) d).
Proof.
  intros [K M U R PK PR PS PM EK ER C].
  assert (∀ i, is_Some (profiles d !! i) → is_Some ((without_default <$> profiles d) !! i)) as Hm.
  { intros i. by rewrite lookup_fmap, fmap_is_Some. }
  split.
  - split; simpl; auto.
    + intros i r Hr. eapply device_refs_mono; eauto.
    + intros i r [r0 [<- Hr]]%lookup_fmap_Some. by apply PK in Hr.
    + intros i r [r0 [<- Hr]]%lookup_fmap_Some. eapply without_default_ok, PR. done.
    + intros i r i' r' [r0 [<- Hr]]%lookup_fmap_Some. simpl. done.
    + intros i r i' r' m [r0 [<- Hr]]%lookup_fmap_Some [r1 [<- Hr']]%lookup_fmap_Some. simpl. intros. by eapply (PM i r0 i' r1 m).
    + intros i e Hi. eapply event_refs_mono; eauto.
  - split; simpl; [lia|..].
    + intros i r Hr _. by exists r.
    + intros i r [r0 [<- Hr]]%lookup_fmap_Some _. by exists r0.
    + intros i r Hr _. by exists r.
Qed.

Lemma unless_Some id o i : unless id o = Some i ↔ o = Some i ∧ i ≠ id.
Proof. unfold unless. case_bool_decide; naive_solver. Qed.

Lemma unless_references id d d' o :
  profiles d' = delete id (profiles d) → references d o = true →
  references d' (unless id o) = true.
Proof.
  rewrite !references_true. intros Hp H i [Hi Hne]%unless_Some.
  rewrite Hp, lookup_delete_ne by done. auto.
Qed.

Lemma delete_profile_step {writers : Writers} id d : boot_ok d → step d (delete_profile_row id d).2.
Proof.
  intros Hok. pose proof Hok as [K M U R PK PR PS PM EK ER C]. unfold delete_profile_row.
  destruct (profiles d !! id) as [row|] eqn:Hr; [|by split]. simpl. split.
  - split; simpl.
    + intros i r [r0 [<- H]]%lookup_fmap_Some. by apply K in H.
    + intros i r [r0 [<- H]]%lookup_fmap_Some. by apply M in H.
    + intros i r i' r' [r0 [<- H]]%lookup_fmap_Some [r0' [<- H']]%lookup_fmap_Some Hne.
      by apply (U i r0 i' r0').
    + intros i r [r0 [<- H]]%lookup_fmap_Some. destruct (R i r0 H) as (?&?&?).
      unfold device_refs. simpl. split_and!; by eapply unless_references.
    + intros i r [_ H]%lookup_delete_Some. by apply PK.
    + intros i r [_ H]%lookup_delete_Some. by eapply PR.
    + intros i r i' r' [_ H]%lookup_delete_Some [_ H']%lookup_delete_Some. by eapply PS.
    + intros i r i' r' m [_ H]%lookup_delete_Some [_ H']%lookup_delete_Some. by eapply PM.
    + intros i e [e0 [<- H]]%lookup_fmap_Some. by apply EK in H.
    + intros i e [e0 [<- H]]%lookup_fmap_Some. specialize (ER i e0 H). unfold event_refs in *.
      rewrite event_allowed_true in *. destruct ER as [ERp ERd]. simpl. split.
      * intros j [Hj Hne]%unless_Some. rewrite lookup_delete_ne by done. auto.
      * intros j Hj. rewrite lookup_fmap, fmap_is_Some. auto.
    + done.
  - split; simpl; [lia|..].
    + intros i r [r0 [<- H]]%lookup_fmap_Some _. exists r0. split; [done|]. split_and!; auto.
    + intros i r [_ H]%lookup_delete_Some _. by exists r.
    + intros i e [e0 [<- H]]%lookup_fmap_Some _. exists e0. split; [done|].
      split; [by split_and!|]. split; [by left|]. simpl. unfold unless. case_bool_decide as Hg; [right|by left].
      split; [done|]. rewrite Hg. intros j [= <-]. split; [by apply (PK _ _ Hr)|]. apply lookup_delete_eq.
Qed.

Lemma insert_event_step {writers : Writers} e now d id d' :
  boot_ok d → insert_event e now d = Some (id, d') → step d d'.
Proof.
  intros Hok. pose proof Hok as [K M U R PK PR PS PM EK ER C]. unfold insert_event.
  destruct (_ && _) eqn:Hc; [|done]. intros [= <- <-]. apply andb_true_iff in Hc as [_ Ha].
  split.
  - split; simpl; auto; try lia.
    + intros i e' [[<- <-]|[Hne H]]%lookup_insert_Some; simpl; [lia|].
      destruct (EK i e' H). split; [done|lia].
    + intros i e' [[<- <-]|[Hne H]]%lookup_insert_Some; simpl; [done|]. by apply (ER i).
  - split; simpl; [lia|..].
    + intros i r Hr _. by exists r.
    + intros i r Hr _. by exists r.
    + intros i e' [[<- <-]|[Hne H]]%lookup_insert_Some Hi; [lia|]. by exists e'.
Qed.

Lemma prune_events_step {writers : Writers} n d : boot_ok d → step d (prune_events_statement n d).
Proof.
  intros [K M U R PK PR PS PM EK ER C]. unfold prune_events_statement. simpl.
  set (keep := filter _ (boot_events d)).
  assert (∀ i e, keep !! i = Some e → boot_events d !! i = Some e) as Hk
    by by intros i e [? _]%map_lookup_filter_Some.
  split.
  - split; simpl; eauto.
  - split; simpl; [lia|..].
    + intros i r Hr _. by exists r.
    + intros i r Hr _. by exists r.
    + intros i e He _. exists e. split; [by apply Hk|done].
Qed.

(** ** Operations *)

Abbreviation harmless p w0 := (safe boot_ok boot_evolves p (λ _ _, True) w0).

Lemma harmless_pure {writers : Writers} {A B} (r : AppResult A) (f : A → handler B) w0 :
  (∀ a, r = Ok a → harmless (f a) w0) → harmless (try_bind (pure r) f) w0.
Proof. intros H. destruct r as [a|e]; [by apply H|done]. Qed.

Lemma harmless_chain {writers : Writers} {A B} (f : A → handler B) p w0 :
  boot_ok w0 → harmless p w0 →
  (∀ a w, boot_ok w → boot_evolves w0 w → harmless (f a) w) → harmless (try_bind p f) w0.
Proof. intros Hw Hp Hf. eapply safe_try_seq; [apply _|done|done|auto|done]. Qed.

Lemma harmless_read_rows {writers : Writers} {B} (f : BootDb → B) w0 : harmless (select f) w0.
Proof.
  apply safe_checked_query; [apply _|done|]. intros i w b w' Hw _ [= <- <-].
  split_and!; [done|reflexivity|done].
Qed.

Lemma harmless_input {writers : Writers} {B} (f : BootInput → AppResult B) w0 : harmless (read_input f) w0.
Proof. apply safe_read; [apply _|done]. Qed.

Lemma harmless_now {writers : Writers} w0 : harmless now_rfc3339 w0.
Proof. apply safe_read; [apply _|done]. Qed.

Lemma harmless_statement {writers : Writers} {B} (f : BootDb → option (B * BootDb)) w0 :
  (∀ d b d', boot_ok d → f d = Some (b, d') → step d d') → harmless (statement f) w0.
Proof.
  intros Hf. apply safe_checked_query; [apply _|done|]. intros i w b w' Hw _ E.
  destruct (Hf w b w' Hw E). by split_and!.
Qed.

Lemma harmless_execute {writers : Writers} (f : BootDb → option BootDb) w0 :
  (∀ d d', boot_ok d → f d = Some d' → step d d') → harmless (execute f) w0.
Proof.
  intros Hf. apply harmless_statement. intros d b d' Hd.
  destruct (f d) as [d1|] eqn:E; simpl; [|done]. intros [= _ <-]. auto.
Qed.

(** Walk through an operation: sequence, read, branch; statements are closed by
    the step lemmas. *)
Ltac walk :=
  repeat first
    [ assumption
    | apply harmless_read_rows
    | apply harmless_now
    | apply harmless_input
    | match goal with
      | |- safe _ _ (pure _) _ _ => exact I
      | |- safe _ _ (Ret _) _ _ => exact I
      | |- safe _ _ (try_bind (pure _) _) _ _ => apply harmless_pure; intros ? ?
      | |- safe _ _ (try_bind _ _) _ _ => apply harmless_chain; [assumption| |intros ????]
      | |- safe _ _ (match ?x with _ => _ end) _ _ => destruct x eqn:?
      | |- safe _ _ (let '_ := ?x in _) _ _ => destruct x
      end
    | solve [auto 2 with boot nocore] ].

Section Operations.
Context {serde : Serde} {writers : Writers}.

Lemma list_devices_safe w0 : boot_ok w0 → harmless list_devices w0.
Proof. intros. unfold list_devices. walk. Qed.
Lemma get_device_safe id w0 : boot_ok w0 → harmless (get_device id) w0.
Proof. intros. unfold get_device. walk. Qed.
Lemma get_device_by_mac_safe mac w0 : boot_ok w0 → harmless (get_device_by_mac mac) w0.
Proof. intros. unfold get_device_by_mac. walk. Qed.
Lemma get_device_by_serial_safe serial w0 :
  boot_ok w0 → harmless (get_device_by_serial serial) w0.
Proof. intros. unfold get_device_by_serial. walk. Qed.
Lemma list_profiles_safe w0 : boot_ok w0 → harmless list_profiles w0.
Proof. intros. unfold list_profiles. walk. Qed.
Lemma list_enabled_profiles_safe w0 : boot_ok w0 → harmless list_enabled_profiles w0.
Proof. intros. unfold list_enabled_profiles. walk. Qed.
Lemma get_profile_safe id w0 : boot_ok w0 → harmless (get_profile id) w0.
Proof. intros. unfold get_profile. walk. Qed.
Lemma list_boot_events_safe limit w0 : harmless (list_boot_events limit) w0.
Proof. apply harmless_read_rows. Qed.
Lemma get_boot_event_safe id w0 : boot_ok w0 → harmless (get_boot_event id) w0.
Proof. intros. unfold get_boot_event. walk. Qed.

Lemma touch_safe id now w0 : harmless (touch id now) w0.
Proof. apply harmless_execute. intros d d' Hd. by apply update_device_row_step. Qed.

Lemma prune_auto_discovered_devices_safe n w0 : harmless (prune_auto_discovered_devices n) w0.
Proof. apply harmless_execute. intros d d' Hd [= <-]. by apply delete_devices_step. Qed.

#[local] Hint Resolve list_devices_safe get_device_safe get_device_by_mac_safe
  get_device_by_serial_safe list_profiles_safe list_enabled_profiles_safe get_profile_safe
  get_boot_event_safe touch_safe prune_auto_discovered_devices_safe : boot.

Lemma seen_device_serial_number_safe id old new w0 :
  boot_ok w0 → harmless (seen_device_serial_number id old new) w0.
Proof. intros. unfold seen_device_serial_number. walk. Qed.
#[local] Hint Resolve seen_device_serial_number_safe : boot.

Lemma normalize_mac_Ok input m : normalize_mac input = Ok m → canonical_mac m.
Proof. intros E. pose proof (normalize_mac_spec input) as H. rewrite E in H. apply H. Qed.

Lemma upsert_seen_device_with_retention_safe mac serial n w0 :
  boot_ok w0 → harmless (upsert_seen_device_with_retention mac serial n) w0.
Proof.
  intros Hw. unfold upsert_seen_device_with_retention. walk.
  - apply harmless_execute. intros db db' Hdb. by apply update_device_row_step.
  - apply harmless_statement. intros db new db' Hdb. apply insert_device_step; [done|].
    intros i. split; [done|]. by eapply normalize_mac_Ok.
Qed.

Lemma touch_device_seen_safe id w0 : boot_ok w0 → harmless (touch_device_seen id) w0.
Proof. intros. unfold touch_device_seen. walk. Qed.

Lemma remove_unclaimed_safe id w0 :
  boot_ok w0 → harmless (remove_unclaimed_auto_discovered_device id) w0.
Proof.
  intros. unfold remove_unclaimed_auto_discovered_device. walk.
  apply harmless_statement. intros db b db' Hdb [= _ <-]. by apply delete_devices_step.
Qed.

Lemma validate_profile_assignment_id_safe id field w0 :
  boot_ok w0 → harmless (validate_profile_assignment_id id field) w0.
Proof. intros. unfold validate_profile_assignment_id. walk. Qed.

#[local] Hint Resolve touch_device_seen_safe remove_unclaimed_safe
  upsert_seen_device_with_retention_safe validate_profile_assignment_id_safe : boot.

Lemma create_device_safe input w0 : boot_ok w0 → harmless (create_device input) w0.
Proof.
  intros. unfold create_device. walk.
  apply harmless_statement. intros db b db' Hdb. apply insert_device_step; [done|].
  intros i. split; [done|]. by eapply normalize_mac_Ok.
Qed.

Lemma update_device_safe id input w0 : boot_ok w0 → harmless (update_device id input) w0.
Proof.
  intros. unfold update_device. walk.
  apply harmless_execute. intros db db' Hdb. by apply update_device_row_step.
Qed.

Lemma delete_device_safe id w0 : boot_ok w0 → harmless (delete_device id) w0.
Proof.
  intros. unfold delete_device. walk. apply harmless_statement.
  intros db b db' Hdb [= _ <-]. by apply delete_devices_step.
Qed.

Lemma set_device_last_selected_safe id p w0 :
  boot_ok w0 → harmless (set_device_last_selected id p) w0.
Proof.
  intros. unfold set_device_last_selected. walk.
  apply harmless_execute. intros db db' Hdb. by apply update_device_row_step.
Qed.

Lemma consume_one_time_profile_safe id p w0 :
  boot_ok w0 → harmless (consume_one_time_profile id p) w0.
Proof.
  intros. unfold consume_one_time_profile. walk.
  apply harmless_execute. intros db db' Hdb. by apply update_device_row_step.
Qed.

Lemma clear_default_profiles_safe w0 : harmless clear_default_profiles w0.
Proof. apply harmless_execute. intros db db' Hdb [= <-]. by apply clear_default_step. Qed.

Lemma validate_profile_has_no_device_assignments_safe id w0 :
  boot_ok w0 → harmless (validate_profile_has_no_device_assignments id) w0.
Proof. intros. unfold validate_profile_has_no_device_assignments. walk. Qed.

#[local] Hint Resolve clear_default_profiles_safe
  validate_profile_has_no_device_assignments_safe : boot.

Lemma profile_type_round_trip t : profile_type_from_str (profile_type_str t) = Ok t.
Proof. by destruct t. Qed.

Lemma validate_profile_name_trim name :
  validate_profile_name name = Ok tt → validate_profile_name (trim name) = Ok tt.
Proof. unfold validate_profile_name. by rewrite trim_idemp. Qed.

Lemma bool_to_i64_flag b : is_flag (bool_to_i64 b) = true.
Proof. by destruct b. Qed.

Lemma validate_assignable_Ok field enabled t script :
  validate_assignable_profile_fields field enabled t script = Ok tt →
  enabled = true ∧ profile_fields_have_boot_action t script = true.
Proof.
  unfold validate_assignable_profile_fields. destruct enabled; [|done]. simpl.
  by destruct (profile_fields_have_boot_action t script).
Qed.

(** The row [create_profile] and [update_profile] write, validated. *)
Lemma validated_profile_row row name t enabled is_default script :
  pr_name row = trim name → pr_profile_type row = profile_type_str t →
  pr_enabled row = bool_to_i64 enabled → pr_is_default row = bool_to_i64 is_default →
  is_flag (pr_one_time row) = true → pr_raw_script row = script →
  validate_profile_name name = Ok tt → validate_profile_shape t script = Ok tt →
  (is_default = true → enabled = true ∧ profile_fields_have_boot_action t script = true) →
  profile_row_ok row.
Proof.
  intros Hn Ht He Hd Ho Hs Vn Vs Va. unfold profile_row_ok. rewrite Hn, Ht, He, Hd, Hs.
  split_and!; auto using bool_to_i64_flag, validate_profile_name_trim.
  exists t. split_and!; [apply profile_type_round_trip|done|].
  destruct is_default; [|done]. intros _. by destruct Va as [-> ->].
Qed.

(** The block that makes room for a new default: what follows it may rely on
    the validation. *)
Lemma harmless_new_default {B} (is_default : bool) field enabled t script (other : handler unit)
    (f : unit → handler B) w0 :
  boot_ok w0 → harmless other w0 →
  (∀ w, boot_ok w → (is_default = true → enabled = true ∧
       profile_fields_have_boot_action t script = true) → harmless (f tt) w) →
  harmless (try_bind (if is_default
                      then try_bind (pure (validate_assignable_profile_fields field enabled t script))
                             (λ _, clear_default_profiles)
                      else other) f) w0.
Proof.
  intros Hw Ho Hf. destruct is_default.
  - destruct (validate_assignable_profile_fields field enabled t script) as [[]|e] eqn:Va.
    + apply harmless_chain; [done|walk|]. intros [] w Hw' _. apply Hf; [done|].
      intros _. by eapply validate_assignable_Ok.
    + done.
  - apply harmless_chain; [done|done|]. intros [] w Hw' _. by apply Hf.
Qed.

Lemma create_profile_safe input w0 : boot_ok w0 → harmless (create_profile input) w0.
Proof.
  intros Hw. unfold create_profile. apply harmless_pure. intros [] Vn.
  do 3 (apply harmless_pure; intros [] ?).
  apply harmless_new_default; [done|done|]. intros w Hw' Va. walk.
  apply harmless_statement. intros db b db' Hdb. apply insert_profile_step; [done|].
  intros i. split; [done|]. eapply validated_profile_row; simpl; eauto using bool_to_i64_flag.
Qed.

Lemma update_profile_safe id input w0 : boot_ok w0 → harmless (update_profile id input) w0.
Proof.
  intros Hw. unfold update_profile. apply harmless_chain; [done|walk|]. intros current w Hw' _.
  do 4 (apply harmless_pure; intros [] ?).
  apply harmless_new_default; [done|walk|]. intros w' Hw'' Va. walk.
  apply harmless_execute. intros db db' Hdb. apply update_profile_row_step; [done|].
  intros row. split_and!; [done|done|].
  eapply validated_profile_row; simpl; eauto using bool_to_i64_flag.
Qed.

Lemma delete_profile_safe id w0 : boot_ok w0 → harmless (delete_profile id) w0.
Proof.
  intros. unfold delete_profile. walk. apply harmless_statement.
  intros db b db' Hdb [= E]. pose proof (delete_profile_step id db Hdb) as Hs. by rewrite E in Hs.
Qed.

Lemma insert_boot_event_with_retention_safe e n w0 :
  boot_ok w0 → harmless (insert_boot_event_with_retention e n) w0.
Proof.
  intros. unfold insert_boot_event_with_retention. walk.
  - apply harmless_statement. intros db b db' Hdb. by apply insert_event_step.
  - apply harmless_execute. intros db db' Hdb [= <-]. by apply prune_events_step.
Qed.
End Operations.

#[export] Hint Resolve list_devices_safe get_device_safe get_device_by_mac_safe
  get_device_by_serial_safe list_profiles_safe list_enabled_profiles_safe get_profile_safe
  get_boot_event_safe touch_device_seen_safe remove_unclaimed_safe
  upsert_seen_device_with_retention_safe create_device_safe update_device_safe
  delete_device_safe set_device_last_selected_safe consume_one_time_profile_safe
  create_profile_safe update_profile_safe delete_profile_safe
  insert_boot_event_with_retention_safe : boot.

(** ** Retention *)

(** In a sorted list without repetitions, an element that fewer than [n] others
    precede is among the first [n]; [p] holds of everything that may precede. *)
Lemma take_sorted_keeps {A} (R : relation A) (p : A → bool) (l : list A) n x :
  StronglySorted R l → NoDup l → x ∈ l →
  (∀ y, y ∈ l → R y x → y ≠ x → p y = true) → (count p l < n)%nat → x ∈ take n l.
Proof.
  intros Hs Hnd Hx Hp Hn. apply list_elem_of_split in Hx as (l1 & l2 & ->).
  assert (∀ y, y ∈ l1 → p y = true) as Hall.
  { intros y Hy. apply Hp; [set_solver| |].
    - apply StronglySorted_app in Hs as (Hs & _ & _). apply Hs; [done|left].
    - intros ->. apply NoDup_app in Hnd as (_ & Hnd & _). apply (Hnd x Hy). left. }
  rewrite count_app in Hn.
  assert (count p l1 = length l1) as Hc.
  { clear -Hall. unfold count. induction l1 as [|y l1 IH]; [done|]. simpl.
    rewrite Hall by left. simpl. f_equal. apply IH. intros z Hz. apply Hall. by right. }
  rewrite take_app, elem_of_app. right. destruct (n - length l1)%nat eqn:E; [lia|]. left.
Qed.

Lemma values_of_elem {A} (m : gmap Z A) x : x ∈ values_of m ↔ ∃ id, m !! id = Some x.
Proof.
  unfold values_of. rewrite list_elem_of_fmap. split.
  - intros ([id y] & -> & Hy%elem_of_map_to_list). by exists id.
  - intros [id Hx]. exists (id, x). split; [done|]. by apply elem_of_map_to_list.
Qed.

(** The rows of a table whose rows know their key are pairwise different. *)
Lemma values_of_NoDup {A} (key : A → Z) (m : gmap Z A) :
  (∀ id x, m !! id = Some x → key x = id) → NoDup (values_of m).
Proof.
  intros Hk. unfold values_of. apply (NoDup_fmap_1 key). rewrite <- list_fmap_compose.
  assert (key ∘ snd <$> map_to_list m = (map_to_list m).*1) as ->; [|apply NoDup_fst_map_to_list].
  apply list_fmap_ext. intros i [id x] Hi. simpl. apply Hk.
  apply elem_of_map_to_list. by eapply list_elem_of_lookup_2.
Qed.

Lemma count_sublist_filter {A} (p q : A → bool) (l : list A) :
  (count p (List.filter q l) ≤ count p l)%nat.
Proof.
  unfold count. induction l as [|a l IH]; [done|]. cbn [List.filter].
  destruct (q a), (p a) eqn:Hp; cbn [List.filter length]; rewrite ?Hp; simpl; lia.
Qed.

Lemma NoDup_filter_list {A} (p : A → bool) (l : list A) : NoDup l → NoDup (List.filter p l).
Proof.
  induction 1 as [|a l Ha Hl IH]; [constructor|]. cbn [List.filter]. destruct (p a); [|done].
  constructor; [|done]. rewrite list_elem_of_In, filter_In, <- list_elem_of_In. by intros [? _].
Qed.

#[global] Instance event_recent_trans : Transitive event_recent.
Proof. intros x y z. unfold event_recent. lia. Qed.
#[global] Instance event_recent_total : Total event_recent.
Proof. intros x y. unfold event_recent. lia. Qed.

(** Later events of a list. *)
Definition later (e e' : BootEvent) : bool := ev_id e <? ev_id e'.

Lemma newest_keeps n l e :
  NoDup l → (∀ x y, x ∈ l → y ∈ l → ev_id x = ev_id y → x = y) → e ∈ l →
  (count (later e) l < Z.to_nat n)%nat → ev_id e ∈ newest n l.
Proof.
  intros Hnd Hinj He Hc. unfold newest. apply list_elem_of_fmap_2.
  pose proof (merge_sort_Permutation event_recent l) as Hp.
  eapply (take_sorted_keeps event_recent (later e)).
  - apply StronglySorted_merge_sort; apply _.
  - by rewrite Hp.
  - by rewrite Hp.
  - intros y Hy HR Hne. rewrite Hp in Hy. unfold later, event_recent in *. apply Z.ltb_lt.
    destruct (decide (ev_id y = ev_id e)) as [Hid|]; [|lia]. by destruct Hne; apply Hinj.
  - by rewrite (count_Permutation _ _ _ Hp).
Qed.

Lemma newest_length n l : (length (newest n l) ≤ Z.to_nat n)%nat.
Proof. unfold newest. rewrite length_fmap, length_take. lia. Qed.

Lemma events_injective d x y :
  boot_ok d → x ∈ values_of (boot_events d) → y ∈ values_of (boot_events d) →
  ev_id x = ev_id y → x = y.
Proof.
  intros Hok [i Hx]%values_of_elem [j Hy]%values_of_elem Heq.
  destruct (ok_event_key d Hok _ _ Hx), (ok_event_key d Hok _ _ Hy). congruence.
Qed.

Lemma prune_events_keeps n d id e :
  boot_ok d → boot_events d !! id = Some e →
  let all := values_of (boot_events d) in
  (count (later e) all < Z.to_nat (Z.max n 1))%nat ∨
  (selected_boot e = true ∧
   (count (later e) (List.filter selected_boot all) < Z.to_nat (Z.max n 1))%nat) →
  boot_events (prune_events_statement n d) !! id = Some e.
Proof.
  intros Hok He all Hc. unfold prune_events_statement. simpl. apply map_lookup_filter_Some.
  split; [done|]. destruct (ok_event_key d Hok id e He) as [<- _].
  assert (e ∈ all) as Hin by (apply values_of_elem; eauto).
  assert (NoDup all) as Hnd.
  { apply (values_of_NoDup ev_id). intros i x Hx. by apply (ok_event_key d Hok) in Hx as [? _]. }
  apply elem_of_app. destruct Hc as [Hc|[Hs Hc]]; [left|right]; apply newest_keeps.
  - done.
  - intros x y. by apply events_injective.
  - done.
  - done.
  - by apply NoDup_filter_list.
  - intros x y. rewrite !list_elem_of_In, !filter_In, <- !list_elem_of_In. intros [? _] [? _].
    by apply (events_injective d).
  - rewrite list_elem_of_In, filter_In, <- list_elem_of_In. done.
  - done.
Qed.

Lemma map_size_in_list {A} (m : gmap Z A) (keep : list Z) :
  (∀ id x, m !! id = Some x → id ∈ keep) → (size m ≤ length keep)%nat.
Proof.
  intros H. rewrite <- length_map_to_list, <- (length_fmap fst).
  apply submseteq_length, NoDup_submseteq; [apply NoDup_fst_map_to_list|].
  intros id ([i x] & -> & Hx%elem_of_map_to_list)%list_elem_of_fmap. simpl. eauto.
Qed.

Lemma prune_events_bound n d :
  Z.of_nat (size (boot_events (prune_events_statement n d))) ≤ 2 * Z.max n 1.
Proof.
  unfold prune_events_statement. simpl. set (keep := _ ++ _).
  assert (size (filter (λ '(id, _), id ∈ keep) (boot_events d)) ≤ length keep)%nat as Hs.
  { apply map_size_in_list. by intros id e [_ Hid]%map_lookup_filter_Some. }
  assert (length keep ≤ 2 * Z.to_nat (Z.max n 1))%nat; [|lia].
  unfold keep. rewrite length_app.
  pose proof (newest_length (Z.max n 1) (values_of (boot_events d))).
  pose proof (newest_length (Z.max n 1) (List.filter selected_boot (values_of (boot_events d)))).
  lia.
Qed.

(** *** Discovered devices *)

#[global] Instance recent_le_trans : Transitive recent_le.
Proof.
  intros x y z [H1 H1'] [H2 H2']. split; [by etrans|]. intros Heq.
  assert (seen_at x = seen_at y) as E.
  { apply (anti_symm String.le); [by rewrite Heq|done]. }
  etrans; [apply H2'; congruence|by apply H1'].
Qed.
#[global] Instance recent_le_total : Total recent_le.
Proof.
  intros x y. unfold recent_le. destruct (decide (seen_at x = seen_at y)) as [E|E].
  - rewrite E. destruct (Z.le_ge_cases (dr_id x) (dr_id y)); [right|left]; by split.
  - destruct (total String.le (seen_at x) (seen_at y)); [right|left]; (split; [done|congruence]).
Qed.

(** [x] was seen later than [row], or at the same time with a later identifier. *)
Definition seen_later (row x : DeviceRow) : bool :=
  bool_decide (recent_le x row) && negb (dr_id x =? dr_id row).

Lemma devices_injective d x y :
  boot_ok d → x ∈ values_of (devices d) → y ∈ values_of (devices d) → dr_id x = dr_id y → x = y.
Proof.
  intros Hok [i Hx]%values_of_elem [j Hy]%values_of_elem Heq.
  destruct (ok_device_key d Hok _ _ Hx), (ok_device_key d Hok _ _ Hy). congruence.
Qed.

Lemma discovered_NoDup d :
  boot_ok d → NoDup (List.filter discovery_only (values_of (devices d))).
Proof.
  intros Hok. apply NoDup_filter_list, (values_of_NoDup dr_id). intros i x Hx.
  by apply (ok_device_key d Hok) in Hx as [? _].
Qed.

Lemma elem_of_filter_list {A} (p : A → bool) (l : list A) x :
  x ∈ List.filter p l ↔ x ∈ l ∧ p x = true.
Proof. rewrite !list_elem_of_In. apply filter_In. Qed.

Lemma prune_keeps n d id row :
  boot_ok d → devices d !! id = Some row →
  discovery_only row = false ∨
  (count (seen_later row) (List.filter discovery_only (values_of (devices d)))
     < Z.to_nat (Z.max n 1))%nat →
  devices (prune_statement n d) !! id = Some row.
Proof.
  intros Hok Hr Hkeep. unfold prune_statement, delete_devices. simpl.
  apply map_lookup_filter_Some. split; [done|]. destruct (discovery_only row) eqn:Hd; [|done].
  destruct Hkeep as [Hkeep|Hkeep]; [done|]. simpl. apply negb_false_iff, bool_decide_eq_true.
  unfold kept_discoveries. apply list_elem_of_fmap_2.
  set (l := List.filter discovery_only (values_of (devices d))) in *.
  pose proof (merge_sort_Permutation recent_le l) as Hp.
  assert (row ∈ values_of (devices d)) as Hin by (apply values_of_elem; eauto).
  eapply (take_sorted_keeps recent_le (seen_later row)).
  - apply StronglySorted_merge_sort; apply _.
  - rewrite Hp. by apply discovered_NoDup.
  - rewrite Hp. by apply elem_of_filter_list.
  - intros y Hy HR Hne. rewrite Hp in Hy. apply elem_of_filter_list in Hy as [Hy _].
    unfold seen_later. rewrite bool_decide_true by done. simpl. apply negb_true_iff, Z.eqb_neq.
    intros Hid. by apply Hne, (devices_injective d).
  - by rewrite (count_Permutation _ _ _ Hp).
Qed.

Lemma prune_bound n d :
  boot_ok d →
  Z.of_nat (count discovery_only (values_of (devices (prune_statement n d)))) ≤ Z.max n 1.
Proof.
  intros Hok. unfold count.
  assert (length (List.filter discovery_only (values_of (devices (prune_statement n d)))) ≤
          length (kept_discoveries n d))%nat as Hle.
  { rewrite <- (length_fmap dr_id). apply submseteq_length, NoDup_submseteq.
    - assert (boot_ok (prune_statement n d)) as Hok' by by apply (delete_devices_step (writers := true)).
      apply NoDup_fmap_2_strong; [|by apply discovered_NoDup].
      intros x y [Hx _]%elem_of_filter_list [Hy _]%elem_of_filter_list. by apply (devices_injective (prune_statement n d)).
    - intros id (row & -> & [[i Hi]%values_of_elem Hd]%elem_of_filter_list)%list_elem_of_fmap. unfold prune_statement, delete_devices in Hi. simpl in Hi.
      apply map_lookup_filter_Some in Hi as [_ Hg]. rewrite Hd in Hg. simpl in Hg.
      by apply negb_false_iff, bool_decide_eq_true in Hg. }
  unfold kept_discoveries in Hle. rewrite length_fmap, length_take in Hle. lia.
Qed.
