(* ===== verification/BootRoutes.v ===== *)
(** * The boot routes

    [src/routes/boot.rs]: what a machine that boots over the network is served.
    A request is its path and query values, the headers the handlers read
    ([User-Agent], [X-Forwarded-For], when they are text) and the peer address;
    a response is the script.  [netboot::create_boot_session] is answered by the
    input. *)

From stdpp Require Import sorting base gmap list strings.
From Stdlib Require Import Ascii ZArith Lia.
From S2P Require Import Prelude Async RustStr Net Json DbText Boot BootStore.

#[local] Open Scope Z_scope.
#[local] Open Scope nest_scope.

Definition MAX_BOOT_SERIAL_LEN : nat := 128.
Definition MAX_BOOT_USER_AGENT_LEN : nat := 256.

Record BootQuery := {
  bq_mac : option string;
  bq_serial : option string;
  bq_tiaris_check : option string;
}.

Record Headers := {
  hd_user_agent : option string;
  hd_x_forwarded_for : option string;
}.

(** ** Request values *)

Definition clean_text (value : string) (max_chars : nat) : option string :=
  let cleaned := of_chars ((λ c, if is_control c then [" "%char] else c) <$> chars value) in
  let trimmed := trim cleaned in
  if is_empty trimmed then None else Some (take_chars max_chars trimmed).

Definition clean_optional (value : option string) : option string :=
  value ← value; clean_text value MAX_BOOT_SERIAL_LEN.

Definition user_agent (headers : Headers) : option string :=
  value ← hd_user_agent headers; clean_text value MAX_BOOT_USER_AGENT_LEN.

(** [iter.rev().find_map(f)] over the pieces. *)
Fixpoint find_map {A B} (f : A → option B) (l : list A) : option B :=
  match l with
  | [] => None
  | a :: l => match f a with Some b => Some b | None => find_map f l end
  end.

Definition last_valid_forwarded_ip (value : string) : option string :=
  find_map (λ part, ip ← parse_ip (trim part); Some (show_ip ip)) (rev (split "," value)).

Definition peer_is_loopback (connect : option IpAddr) : bool :=
  match connect with Some ip => is_loopback ip | None => false end.

Definition remote_ip (connect : option IpAddr) (headers : Headers) : option string :=
  let forwarded :=
    if peer_is_loopback connect
    then value ← hd_x_forwarded_for headers; last_valid_forwarded_ip value
    else None in
  match forwarded with
  | Some ip => Some ip
  | None => show_ip <$> connect
  end.

Definition is_local_checker_request (query : BootQuery) (headers : Headers)
    (connect : option IpAddr) : bool :=
  if negb (bool_decide (bq_tiaris_check query = Some "1")) then false else
  if negb (peer_is_loopback connect) then false else
  match (value ← hd_x_forwarded_for headers; text ← last_valid_forwarded_ip value;
         parse_ip text) with
  | Some ip => is_loopback ip
  | None => true
  end.

Definition normalized_optional_mac (mac : option string) : AppResult (option string) :=
  match mac with
  | Some mac => m ≔ normalize_mac mac ?; Ok (Some m)
  | None => Ok None
  end.

(** [str::parse::<i64>()]: a sign, then digits; [-0] is zero. *)
Definition parse_i64 (s : string) : option Z :=
  match s with
  | String c rest =>
      if Ascii.eqb c "-" then
        match rest with
        | EmptyString => None
        | _ => n ← parse_digits (i64_max + 1) 0 (bytes rest); Some (- n)
        end
      else parse_unsigned i64_max s
  | EmptyString => None
  end.

Definition boot_profile_id_from_path (value : string) : AppResult Z :=
  match parse_i64 value with
  | Some parsed => if parsed <=? 0 then Err NotFound else Ok parsed
  | None => Err NotFound
  end.

Definition automatic_enrollment_allowed (checker known_device : bool) (mac : option string)
    : bool := negb checker && negb known_device && bool_decide (is_Some mac).
Definition automatic_local_handoff_allowed (checker known_device : bool) (mac : option string)
    : bool := negb checker && known_device && bool_decide (is_Some mac).

(** [netboot::render_ipxe_launch]. *)
Definition render_ipxe_launch (launch : BootSessionLaunch) : string := script_text [
  "#!ipxe";
  "echo Tiaris Nest: loading signed workstation installer runtime";
  "kernel " +:+ bl_kernel_url launch +:+ " " +:+ bl_command_line launch +:+ " || goto failed";
  "initrd " +:+ bl_initrd_url launch +:+ " || goto failed";
  "initrd --name context.json " +:+ bl_context_url launch
    +:+ " /etc/tiaris-installer/boot-context.json mode=600 mkdir=1 || goto failed";
  "boot || goto failed"; ":failed";
  "echo Tiaris Nest could not stage the installer runtime"; "sleep 5"; "exit 1" ].

Section Routes.
Context {serde : Serde} (urlencode lowercase : string → string).

Definition runtime_settings : handler RuntimeSettings := read_input (λ i, Ok (bi_runtime i)).

(** ** Installer sessions *)

(** The two columns of the device that bind an installer session. *)
Definition session_binding (id : Z) (d : BootDb) : option (option string * option string) :=
  row ← devices d !! id; Some (dr_managed_device_id row, dr_reinstall_request_id row).

Definition create_installer_launch (p : BootProfile) (mac : string) (device : option Device)
    : handler BootSessionLaunch :=
  profile_id ←? pure (ok_or (Config "Nest installer profile has no managed identity")
                        (prof_managed_profile_id p));
  binding ←? (match device with
              | Some device => select (session_binding (dev_id device))
              | None => pure (Ok None)
              end);
  read_input (λ i,
    ok_or (Config "could not create signed Nest boot session")
      (bi_session i mac (Some profile_id) (b ← binding; fst b) (b ← binding; snd b))).

Definition render_selected_profile (p : BootProfile) (mac : option string)
    (device : option Device) : handler string :=
  match prof_type p with
  | NestInstaller =>
      mac ←? pure (ok_or (Validation "a normalized MAC is required for Nest installer boot") mac);
      launch ←? create_installer_launch p mac device;
      pure (Ok (render_ipxe_launch launch))
  | _ =>
      runtime_settings ;;?
      pure (render_profile_script p)
  end.

(** ** Handlers *)

(** The device of a request: its row is created or touched, and it is known
    unless this request discovered it.  A health check touches nothing. *)
Definition request_device (checker : bool) (mac serial : option string)
    : handler (option Device * bool) :=
  if checker then pure (Ok (None, false)) else
  match mac with
  | Some mac =>
      seen ←? upsert_seen_device mac serial;
      pure (Ok (Some seen.1, seen.2))
  | None =>
      match serial with
      | Some serial =>
          found ←? get_device_by_serial serial;
          match found with
          | Some found =>
              touched ←? touch_device_seen (dev_id found);
              pure (Ok (Some touched, true))
          | None => pure (Ok (None, false))
          end
      | None => pure (Ok (None, false))
      end
  end.

Definition or_else {A} (x y : option A) : option A :=
  match x with Some _ => x | None => y end.

Definition request_event (device : option Device) (mac serial : option string)
    (connect : option IpAddr) (headers : Headers) (selected : option BootProfile)
    (known_device : bool) : NewBootEvent := {|
  ne_device_id := dev_id <$> device;
  ne_mac := or_else mac (dev_mac <$> device);
  ne_serial_number := or_else serial (d ← device; dev_serial_number d);
  ne_ip_address := remote_ip connect headers;
  ne_user_agent := user_agent headers;
  ne_selected_profile_id := prof_id <$> selected;
  ne_selected_profile_name := prof_name <$> selected;
  ne_known_device := known_device |}.

(** Run [p]; on an error run [undo], whose own result is dropped, and fail. *)
Definition on_error {A} (p : handler A) (undo : handler unit) : handler A :=
  p ≫= λ r, match r with
            | Ok a => Ret (Ok a)
            | Err e => undo ≫= λ _, Ret (Err e)
            end.

Definition build_boot_script (mac serial : option string) (headers : Headers)
    (connect : option IpAddr) (checker : bool) : handler string :=
  mac ←? pure (normalized_optional_mac mac);
  let serial := clean_optional serial in
  requester ←? request_device checker mac serial;
  let device := requester.1 in
  let known_device := requester.2 in
  profiles ←? list_enabled_profiles;
  let selection_device := if known_device then device else None in
  let selection := choose_profile selection_device profiles
                     (automatic_enrollment_allowed checker known_device mac) in
  selected_script ←?
    (match sel_profile selection with
     | Some p =>
         on_error
           (script ←? render_selected_profile p (or_else mac (dev_mac <$> device)) device;
            pure (Ok (Some script)))
           (if bool_decide (sel_source selection = AutomaticEnrollment) then
              match device with
              | Some device =>
                  remove_unclaimed_auto_discovered_device (dev_id device) ;;? pure (Ok tt)
              | None => pure (Ok tt)
              end
            else pure (Ok tt))
     | None => pure (Ok None)
     end);
  (if checker then pure (Ok tt) else
   match device, sel_profile selection with
   | Some device, Some p =>
       match sel_source selection with
       | OneTime => consume_one_time_profile (dev_id device) (prof_id p)
       | Assigned | AutomaticEnrollment => set_device_last_selected (dev_id device) (prof_id p)
       | Menu => pure (Ok tt)
       end
   | _, _ => pure (Ok tt)
   end) ;;?
  (if checker then pure (Ok tt) else
   insert_boot_event (request_event device mac serial connect headers
                        (sel_profile selection) known_device) ;;? pure (Ok tt)) ;;?
  match selected_script with
  | Some script => pure (Ok script)
  | None =>
      runtime ←? runtime_settings;
      pure (Ok (render_menu urlencode lowercase (rt_public_base_url runtime) profiles mac serial
                  (rt_menu_timeout_ms runtime)
                  (automatic_local_handoff_allowed checker known_device mac)))
  end.

Definition boot_root (query : BootQuery) (headers : Headers) (connect : option IpAddr)
    : handler string :=
  build_boot_script (bq_mac query) (bq_serial query) headers connect
    (is_local_checker_request query headers connect).

Definition boot_mac (mac : string) (query : BootQuery) (headers : Headers)
    (connect : option IpAddr) : handler string :=
  build_boot_script (Some mac) (bq_serial query) headers connect
    (is_local_checker_request query headers connect).

Definition boot_serial (serial : string) (query : BootQuery) (headers : Headers)
    (connect : option IpAddr) : handler string :=
  build_boot_script (bq_mac query) (Some serial) headers connect
    (is_local_checker_request query headers connect).

Definition boot_select_profile (profile_id : string) (query : BootQuery) (headers : Headers)
    (connect : option IpAddr) : handler string :=
  profile_id ←? pure (boot_profile_id_from_path profile_id);
  p ←? get_profile profile_id;
  (if negb (prof_enabled p) || negb (profile_has_boot_action p)
   then pure (Err NotFound) else pure (Ok tt)) ;;?
  let checker := is_local_checker_request query headers connect in
  mac ←? pure (normalized_optional_mac (bq_mac query));
  let serial := clean_optional (bq_serial query) in
  requester ←? request_device checker mac serial;
  let device := requester.1 in
  let known_device := requester.2 in
  (match device with
   | Some device => set_device_last_selected (dev_id device) (prof_id p)
   | None => pure (Ok tt)
   end) ;;?
  script ←? render_selected_profile p (or_else mac (dev_mac <$> device)) device;
  (if checker then pure (Ok tt) else
   insert_boot_event (request_event device mac serial connect headers (Some p) known_device) ;;?
   pure (Ok tt)) ;;?
  pure (Ok script).

Definition boot_kexec (mac : string) : handler BootSessionLaunch :=
  mac ←? pure (normalize_mac mac);
  found ←? get_device_by_mac mac;
  device ←? pure (ok_or NotFound found);
  profile_id ←? pure (ok_or NotFound (dev_one_time_profile_id device));
  p ←? get_profile profile_id;
  (if negb (prof_enabled p) || negb (bool_decide (prof_type p = NestInstaller))
   then pure (Err NotFound) else pure (Ok tt)) ;;?
  create_installer_launch p (dev_mac device) (Some device).
End Routes.
