(* ===== verification/BootTheorems.v ===== *)
(** * Network boot: the theorems about the store and the routes

    Every interleaving of the boot routes and the administration of devices and
    profiles keeps the tables consistent; what a single request does to them;
    retention; and what the code does not guarantee. *)

From stdpp Require Import sorting base gmap list strings relations.
From Stdlib Require Import Ascii ZArith Lia.
From S2P Require Import Prelude Async RustStr Net Json DbText DbTextProofs Boot BootProofs BootStore BootStoreProofs BootRoutes.

#[local] Open Scope Z_scope.
#[local] Open Scope nest_scope.

(** No synchronization takes part. *)
Definition requests_only : Writers := false.

Section Routes.
Context {serde : Serde} (urlencode lowercase : string → string).

Section Safety.
Context {writers : Writers}.

(** ** Safety of the routes *)

Lemma upsert_seen_device_safe mac serial w0 :
  boot_ok w0 → harmless (upsert_seen_device mac serial) w0.
Proof. unfold upsert_seen_device. apply upsert_seen_device_with_retention_safe. Qed.

Lemma insert_boot_event_safe e w0 : boot_ok w0 → harmless (insert_boot_event e) w0.
Proof. unfold insert_boot_event. apply insert_boot_event_with_retention_safe. Qed.

#[local] Hint Resolve upsert_seen_device_safe insert_boot_event_safe : boot.

Lemma request_device_safe checker mac serial w0 :
  boot_ok w0 → harmless (request_device checker mac serial) w0.
Proof. intros. unfold request_device. walk. Qed.

Lemma create_installer_launch_safe p mac device w0 :
  boot_ok w0 → harmless (create_installer_launch p mac device) w0.
Proof. intros. unfold create_installer_launch. walk. Qed.

#[local] Hint Resolve request_device_safe create_installer_launch_safe : boot.

Lemma render_selected_profile_safe p mac device w0 :
  boot_ok w0 → harmless (render_selected_profile p mac device) w0.
Proof. intros. unfold render_selected_profile, runtime_settings. walk. Qed.

#[local] Hint Resolve render_selected_profile_safe : boot.

Lemma on_error_safe {A} (p : handler A) undo w0 :
  boot_ok w0 → harmless p w0 → (∀ w, boot_ok w → harmless undo w) →
  harmless (on_error p undo) w0.
Proof.
  intros Hw Hp Hu. unfold on_error. eapply safe_seq; [apply _|done|done|].
  intros [a|e] w Hw' _ _; [done|]. eapply safe_seq; [apply _|done|by apply Hu|done].
Qed.

Lemma build_boot_script_safe mac serial headers connect checker w0 :
  boot_ok w0 →
  harmless (build_boot_script urlencode lowercase mac serial headers connect checker) w0.
Proof.
  intros. unfold build_boot_script, runtime_settings. walk.
  apply on_error_safe; [done|walk|]. intros. walk.
Qed.

Lemma boot_select_profile_safe id query headers connect w0 :
  boot_ok w0 → harmless (boot_select_profile id query headers connect) w0.
Proof. intros. unfold boot_select_profile. walk. Qed.

Lemma boot_kexec_safe mac w0 : boot_ok w0 → harmless (boot_kexec mac) w0.
Proof. intros. unfold boot_kexec. walk. Qed.

(** ** Interleavings *)

Definition ignored {A} (p : handler A) : prog BootInput BootDb unit := p ≫= λ _, Ret tt.

(** The requests that can arrive. *)
Inductive boot_entry : prog BootInput BootDb unit → Prop :=
| enter_boot mac serial headers connect checker :
    boot_entry (ignored (build_boot_script urlencode lowercase mac serial headers connect checker))
| enter_select id query headers connect :
    boot_entry (ignored (boot_select_profile id query headers connect))
| enter_kexec mac : boot_entry (ignored (boot_kexec mac))
| enter_create_device input : boot_entry (ignored (create_device input))
| enter_update_device id input : boot_entry (ignored (update_device id input))
| enter_delete_device id : boot_entry (ignored (delete_device id))
| enter_create_profile input : boot_entry (ignored (create_profile input))
| enter_update_profile id input : boot_entry (ignored (update_profile id input))
| enter_delete_profile id : boot_entry (ignored (delete_profile id))
| enter_list_devices : boot_entry (ignored list_devices)
| enter_list_profiles : boot_entry (ignored list_profiles)
| enter_list_events limit : boot_entry (ignored (list_boot_events limit)).

Lemma ignored_safe {A} (p : handler A) w0 : boot_ok w0 → harmless p w0 → harmless (ignored p) w0.
Proof. intros. unfold ignored. eapply safe_seq; [apply _|done|done|done]. Qed.

Lemma boot_entry_safe p w0 : boot_entry p → boot_ok w0 → harmless p w0.
Proof.
  destruct 1; intros Hw; (apply ignored_safe; [done|]);
    auto using build_boot_script_safe, boot_select_profile_safe, boot_kexec_safe,
      create_device_safe, update_device_safe, delete_device_safe, create_profile_safe,
      update_profile_safe, delete_profile_safe, list_devices_safe, list_profiles_safe,
      list_boot_events_safe.
Qed.

End Safety.

(** C37. Any number of boot requests and administrative changes, interleaved at
    every database statement, failing or dropped anywhere, keep the tables
    consistent: MAC addresses canonical and unique, serial numbers unique, every
    reference to a profile or device in existence, at most one default profile,
    which is enabled and runnable, scripts only on custom profiles.  And they
    evolve by the rules: a device's row keeps its MAC address and the client it is
    managed as (only the synchronization, which takes no part here, changes those),
    the identifier of a row that was deleted is never given to another device,
    profile or event, and what a boot event says about its request never changes,
    but for its references to a device and to a profile, each of which stays as it
    is or is cleared once that row is gone for good. *)
Theorem boot_interleavings_consistent d ts' d' :
  boot_ok d → rtc (pstep boot_entry) ([], d) (ts', d') →
  boot_ok d' ∧ boot_evolves (writers := requests_only) d d'.
Proof.
  intros Hd Hsteps. eapply pool_invariant_empty; [apply _| |done|done].
  intros p w0. apply boot_entry_safe.
Qed.

#[local] Existing Instance requests_only.

(** ** Requests that only read *)

(** No action of [p] changes the tables, whatever they hold when it runs. *)
Fixpoint read_only {A} (p : prog BootInput BootDb A) : Prop :=
  match p with
  | Ret _ => True
  | Step act k => ∀ i d, (act i d).2 = d ∧ read_only (k (act i d).1)
  | Spawn _ _ => False
  end.

Lemma read_only_bind {A B} (p : prog BootInput BootDb A) (f : A → prog BootInput BootDb B) :
  read_only p → (∀ a, read_only (f a)) → read_only (p ≫= f).
Proof.
  intros Hp Hf. induction p as [A a|A X act k IH|A t _ k IH]; simpl in *; [apply Hf| |done].
  intros i d. destruct (Hp i d). split; [done|]. by apply IH.
Qed.

Lemma read_only_try {A B} (p : handler A) (f : A → handler B) :
  read_only p → (∀ a, read_only (f a)) → read_only (try_bind p f).
Proof. intros Hp Hf. apply read_only_bind; [done|]. by intros [a|e]. Qed.

Lemma read_only_try_pure {A B} (r : AppResult A) (f : A → handler B) :
  (∀ a, r = Ok a → read_only (f a)) → read_only (try_bind (pure r) f).
Proof. intros Hf. destruct r as [a|e]; [by apply Hf|done]. Qed.

Lemma read_only_select {B} (f : BootDb → B) : read_only (select f).
Proof. intros i d. simpl. by destruct (bi_fault i). Qed.

Lemma read_only_input {B} (f : BootInput → AppResult B) : read_only (read_input f).
Proof. by intros i d. Qed.

Ltac read_walk :=
  repeat match goal with
  | |- read_only (pure _) => exact I
  | |- read_only (Ret _) => exact I
  | |- read_only (select _) => apply read_only_select
  | |- read_only (read_input _) => apply read_only_input
  | |- read_only (try_bind (pure _) _) => apply read_only_try_pure; intros ? ?
  | |- read_only (try_bind _ _) => apply read_only_try; [|intros ?]
  | |- read_only (mbind _ _) => apply read_only_bind; [|intros ?]
  | |- read_only (match ?x with _ => _ end) => destruct x eqn:?
  end.

Lemma render_selected_profile_read_only p mac device :
  read_only (render_selected_profile p mac device).
Proof. unfold render_selected_profile, create_installer_launch, runtime_settings. read_walk. Qed.

Lemma list_enabled_profiles_read_only : read_only list_enabled_profiles.
Proof. unfold list_enabled_profiles. read_walk. Qed.

Lemma run_read_only {A} (p : prog BootInput BootDb A) env n d :
  read_only p → (run env n p d).1.2 = d.
Proof.
  revert n d. induction p as [A a|A X act k IH|A t _ k IH]; intros n d Hp; simpl in *; [done| |done].
  destruct (Hp (env n) d) as [Hd Hk]. destruct (act (env n) d) as [b d']. simpl in *. subst.
  by apply IH.
Qed.

(** On success both parts of a sequence succeeded. *)
Lemma run_try_Ok {A B} (p : handler A) (f : A → handler B) env n d b d' n' :
  run env n (try_bind p f) d = (Ok b, d', n') →
  ∃ a d1 n1, run env n p d = (Ok a, d1, n1) ∧ run env n1 (f a) d1 = (Ok b, d', n').
Proof.
  rewrite run_try_bind. destruct (run env n p d) as [[[a|e] d1] n1]; [|done]. eauto.
Qed.

Lemma run_pure_Ok {A} (r : AppResult A) env n d a d' n' :
  run env n (pure r) d = (Ok a, d', n') → r = Ok a ∧ d' = d ∧ n' = n.
Proof. intros [= -> -> ->]. done. Qed.

(** Health checks observe and change nothing.  A request that
    [is_local_checker_request] accepts comes from the loopback interface, and
    both routes then perform no action that writes to the tables, under any
    interleaving.  The boot route answers it with the menu, never with an
    installer session or the local boot hand-off. *)
Theorem checker_requests_only_read query headers connect :
  is_local_checker_request query headers connect = true →
  (∃ ip, connect = Some ip ∧ is_loopback ip = true) ∧
  (∀ mac serial,
     read_only (build_boot_script urlencode lowercase mac serial headers connect true) ∧
     ∀ env n d script d' n',
       run env n (build_boot_script urlencode lowercase mac serial headers connect true) d =
         (Ok script, d', n') →
       ∃ base profiles m timeout_ms,
         script = render_menu urlencode lowercase base profiles m (clean_optional serial)
                    timeout_ms false) ∧
  (∀ id, read_only (boot_select_profile id query headers connect)).
Proof.
  intros Hc. split_and!.
  - unfold is_local_checker_request, peer_is_loopback in Hc. destruct (negb _); [done|].
    destruct connect as [ip|]; simpl in Hc; [|done]. exists ip. split; [done|].
    by destruct (is_loopback ip).
  - intros mac serial. unfold build_boot_script, automatic_enrollment_allowed. cbn [negb andb].
    split.
    + unfold request_device, runtime_settings, list_enabled_profiles. cbn [negb andb]. read_walk.
      simpl in *. simplify_eq.
    + intros env n d script d' n' H.
      apply run_try_Ok in H as (m & d0 & n0 & Hm & H).
      apply run_try_Ok in H as (req & d1 & n1 & Hr & H).
      apply run_pure_Ok in Hr as ([= <-] & -> & ->). cbn [fst snd] in H.
      apply run_try_Ok in H as (profs & d2 & n2 & Hl & H).
      cbn [choose_profile menu_selection sel_profile sel_source] in H.
      do 3 (apply run_try_Ok in H as (? & ? & ? & [= <- <- <-] & H)).
      apply run_try_Ok in H as (rt & ? & ? & Hrt & H). apply run_pure_Ok in H as ([= <-] & _).
      by eexists _, _, _, _.
  - intros id. unfold boot_select_profile, get_profile, request_device. rewrite Hc.
    read_walk; first [apply render_selected_profile_read_only|by simplify_eq/=].
Qed.

(** ** One request, alone *)

Lemma run_select_Ok {B} (f : BootDb → B) env n d b d' n' :
  run env n (select f) d = (Ok b, d', n') → b = f d ∧ d' = d.
Proof. unfold select, checked_query. simpl. destruct (bi_fault _); [done|]. by intros [= <- <- _]. Qed.

Lemma run_statement_Ok {B} (f : BootDb → option (B * BootDb)) env n d b d' n' :
  run env n (statement f) d = (Ok b, d', n') → f d = Some (b, d').
Proof.
  unfold statement, checked_query. simpl. destruct (bi_fault _); [done|].
  destruct (f d) as [[b1 d1]|]; [|done]. by intros [= <- <- _].
Qed.

Lemma run_execute_Ok (f : BootDb → option BootDb) env n d u d' n' :
  run env n (execute f) d = (Ok u, d', n') → f d = Some d'.
Proof.
  intros H%run_statement_Ok. destruct (f d) as [d1|]; simpl in H; [|done]. by simplify_eq.
Qed.

Lemma run_now_Ok env n d now d' n' :
  run env n now_rfc3339 d = (Ok now, d', n') → now = bi_now (env n) ∧ d' = d.
Proof. by intros [= <- <- _]. Qed.

Lemma run_read_only_Ok {A} (p : handler A) env n d a d' n' :
  read_only p → run env n p d = (a, d', n') → d' = d.
Proof. intros Hp H. pose proof (run_read_only p env n d Hp) as Hd. by rewrite H in Hd. Qed.

(** Split a successful run of a sequence into the runs of its parts. *)
Ltac run_inv H :=
  repeat match type of H with
  | run _ _ (try_bind (pure _) _) _ = (Ok _, _, _) =>
      let a := fresh "a" in let E := fresh "E" in
      apply run_try_Ok in H as (a & ? & ? & E & H); apply run_pure_Ok in E as (E & -> & ->)
  | run _ _ (try_bind (select _) _) _ = (Ok _, _, _) =>
      let a := fresh "a" in let E := fresh "E" in
      apply run_try_Ok in H as (a & ? & ? & E & H); apply run_select_Ok in E as [-> ->]
  | run _ _ (try_bind now_rfc3339 _) _ = (Ok _, _, _) =>
      let a := fresh "now" in let E := fresh "E" in
      apply run_try_Ok in H as (a & ? & ? & E & H); apply run_now_Ok in E as [-> ->]
  | run _ _ (pure _) _ = (Ok _, _, _) => apply run_pure_Ok in H as (H & -> & ->)
  end.

Lemma find_mac_Some d m row :
  boot_ok d → find_mac m d = Some row →
  devices d !! dr_id row = Some row ∧
  to_ascii_lowercase (dr_mac row) = to_ascii_lowercase m.
Proof.
  intros Hok [Hin Hm]%List.find_some. bool_prop. split; [|done].
  apply list_elem_of_In, values_of_elem in Hin as [id Hr].
  by destruct (ok_device_key d Hok id row Hr) as [-> _].
Qed.

Lemma canonical_lowercase m : canonical_mac m → to_ascii_lowercase m = m.
Proof.
  intros (l & _ & Hl & ->). apply to_ascii_lowercase_id. apply all_bytes_join; [done|].
  apply pairs_bytes. apply (Forall_impl _ _ _ Hl). intros a Ha.
  by destruct (lower_hex_not_upper a Ha) as [-> _].
Qed.

Lemma get_device_by_mac_Ok m env n d r d' n' :
  canonical_mac m → run env n (get_device_by_mac m) d = (Ok r, d', n') →
  r = device_from_row <$> find_mac m d ∧ d' = d.
Proof.
  intros Hm H. unfold get_device_by_mac in H. rewrite normalize_mac_id in H by done.
  run_inv H. simplify_eq. done.
Qed.

Lemma get_device_Ok id env n d r d' n' :
  run env n (get_device id) d = (Ok r, d', n') →
  ∃ row, devices d !! id = Some row ∧ r = device_from_row row ∧ d' = d.
Proof.
  intros H. unfold get_device in H. run_inv H.
  destruct (devices d !! id) as [row|]; simplify_eq/=. eauto.
Qed.

Lemma update_device_row_Some id cond f d d' row :
  devices d !! id = Some row → update_device_row id cond f d = Some d' →
  d' = if cond row then set_devices (<[id := f row]> (devices d)) d else d.
Proof.
  intros Hr. unfold update_device_row. rewrite Hr. destruct (cond row); [|congruence].
  destruct (device_allowed d id (f row)); [congruence|done].
Qed.

Lemma seen_device_serial_number_read_only id old new :
  read_only (seen_device_serial_number id old new).
Proof. unfold seen_device_serial_number, get_device_by_serial. read_walk. Qed.

(** A machine whose address is stored is recognised: its row is touched, with
    the assignments it had, and nothing else changes. *)
Lemma upsert_known m serial k env n d row dev known d' n' :
  boot_ok d → canonical_mac m → find_mac m d = Some row →
  run env n (upsert_seen_device_with_retention m serial k) d = (Ok (dev, known), d', n') →
  known = true ∧ ∃ now s, dev = device_from_row (with_seen now s row) ∧
    d' = set_devices (<[dr_id row := with_seen now s row]> (devices d)) d.
Proof.
  intros Hok Hm Hrow H. unfold upsert_seen_device_with_retention in H.
  rewrite normalize_mac_id in H by done. run_inv H. simplify_eq.
  apply run_try_Ok in H as (found & d1 & n1 & Hf & H).
  apply get_device_by_mac_Ok in Hf as [-> ->]; [|done]. rewrite Hrow in H. cbn [fmap option_fmap option_map] in H.
  apply run_try_Ok in H as (s & d1 & n2 & Hs & H).
  apply run_read_only_Ok in Hs as ->; [|apply seen_device_serial_number_read_only].
  apply run_try_Ok in H as (u & d2 & n3 & Hu & H). apply run_execute_Ok in Hu.
  destruct (find_mac_Some _ _ _ Hok Hrow) as [Hlook _].
  eapply update_device_row_Some in Hu; [|done]. simpl in Hu.
  apply run_try_Ok in H as (dev1 & d3 & n4 & Hg & H). run_inv H. simplify_eq.
  apply get_device_Ok in Hg as (row1 & Hr1 & -> & ->). simpl in Hr1.
  rewrite lookup_insert_eq in Hr1. simplify_eq. eauto 10.
Qed.

Lemma insert_boot_event_Ok e k env n d ev d' n' :
  run env n (insert_boot_event_with_retention e k) d = (Ok ev, d', n') →
  ∃ now d1, insert_event e now d = Some (last_event d + 1, d1) ∧
    d' = prune_events_statement k d1 ∧
    ev = {| ev_id := last_event d + 1; ev_recorded := e; ev_created_at := now |}.
Proof.
  intros H. unfold insert_boot_event_with_retention in H. run_inv H.
  apply run_try_Ok in H as (id & d1 & n1 & Hi & H). apply run_statement_Ok in Hi.
  apply run_try_Ok in H as (ev1 & d2 & n2 & Hg & H). unfold get_boot_event in Hg. run_inv Hg.
  apply run_try_Ok in H as (u & d3 & n3 & Hp & H). apply run_execute_Ok in Hp. run_inv H.
  simplify_eq. exists (bi_now (env n)), d1.
  unfold insert_event in Hi. destruct (_ && _) eqn:Hc in Hi; [|done]. simplify_eq. simpl in *.
  rewrite lookup_insert_eq in Hg. simplify_eq/=. split_and!; [|done|done].
  unfold insert_event. by rewrite Hc.
Qed.

(** What a boot request does to the device it chose a profile for. *)
Definition note_selection (now : string) (device : option Device) (sel : ProfileSelection)
    (d : BootDb) : option BootDb :=
  match device, sel_profile sel with
  | Some device, Some p =>
      match sel_source sel with
      | OneTime => update_device_row (dev_id device)
                     (λ row, bool_decide (dr_one_time_profile_id row = Some (prof_id p)))
                     (consumed_row (prof_id p) now) d
      | Assigned | AutomaticEnrollment =>
          update_device_row (dev_id device) (λ _, true) (selected_row (prof_id p) now) d
      | Menu => Some d
      end
  | _, _ => Some d
  end.

Lemma note_selection_step now device sel d d' :
  boot_ok d → note_selection now device sel d = Some d' → boot_ok d'.
Proof.
  intros Hok. unfold note_selection. destruct device as [dev|]; [|by intros [= <-]].
  destruct (sel_profile sel) as [p|]; [|by intros [= <-]].
  destruct (sel_source sel); [intros H..|by intros [= <-]];
    by eapply update_device_row_step in H as [? _].
Qed.

Lemma on_error_Ok {A} (p : handler A) undo env n d a d' n' :
  run env n (on_error p undo) d = (Ok a, d', n') → run env n p d = (Ok a, d', n').
Proof.
  unfold on_error. rewrite run_bind. destruct (run env n p d) as [[[a1|e] d1] n1]; [done|].
  rewrite run_bind. by destruct (run env n1 undo d1) as [[? ?] ?].
Qed.

Lemma note_selection_Ok device sel env n d u d' n' :
  run env n (match device, sel_profile sel with
             | Some device, Some p =>
                 match sel_source sel with
                 | OneTime => consume_one_time_profile (dev_id device) (prof_id p)
                 | Assigned | AutomaticEnrollment =>
                     set_device_last_selected (dev_id device) (prof_id p)
                 | Menu => pure (Ok tt)
                 end
             | _, _ => pure (Ok tt)
             end) d = (Ok u, d', n') →
  ∃ now, note_selection now device sel d = Some d'.
Proof.
  intros H. exists (bi_now (env n)). unfold note_selection.
  destruct device as [dev|], (sel_profile sel) as [p|]; [|by run_inv H..].
  destruct (sel_source sel); unfold consume_one_time_profile, set_device_last_selected in H;
    run_inv H; first [by apply run_execute_Ok in H|done].
Qed.

(** The parts of a successful boot request: the device it is for, the profiles
    it chose from, what it noted on the device, and the event it recorded. *)
Lemma build_boot_script_Ok mac serial headers connect env n d script d' n' :
  run env n (build_boot_script urlencode lowercase mac serial headers connect false) d =
    (Ok script, d', n') →
  ∃ m device known d1 profs now d2 now' d3,
    normalized_optional_mac mac = Ok m ∧
    (∃ n0 n1, run env n0 (request_device false m (clean_optional serial)) d =
       (Ok (device, known), d1, n1)) ∧
    profile_rows_to_models (enabled_rows d1) = Ok profs ∧
    let sel := choose_profile (if known then device else None) profs
                 (automatic_enrollment_allowed false known m) in
    note_selection now device sel d1 = Some d2 ∧
    insert_event (request_event device m (clean_optional serial) connect headers
                    (sel_profile sel) known) now' d2 = Some (last_event d2 + 1, d3) ∧
    d' = prune_events_statement MAX_BOOT_EVENTS_RETAINED d3 ∧
    (∀ p, sel_profile sel = Some p → prof_type p ≠ NestInstaller →
       render_profile_script p = Ok script).
Proof.
  intros H. unfold build_boot_script in H. run_inv H. rename a into m.
  apply run_try_Ok in H as ([device known] & d1 & n1 & Hr & H). cbn [fst snd] in H.
  apply run_try_Ok in H as (profs & d2 & n2 & Hl & H).
  unfold list_enabled_profiles in Hl. run_inv Hl.
  set (sel := choose_profile _ _ _) in H.
  apply run_try_Ok in H as (sscript & d2 & n3 & Hs & H).
  assert (d2 = d1 ∧ ∀ p, sel_profile sel = Some p → ∃ t, sscript = Some t ∧
    (prof_type p ≠ NestInstaller → render_profile_script p = Ok t)) as [-> Hscript].
  { destruct (sel_profile sel) as [p|]; [|by run_inv Hs; split].
    apply on_error_Ok in Hs. apply run_try_Ok in Hs as (t & d4 & n4 & Ht & Hs). run_inv Hs.
    pose proof Ht as Hd. apply run_read_only_Ok in Hd as ->; [|apply render_selected_profile_read_only].
    split; [done|]. intros q [= <-]. exists t. split; [congruence|]. intros Hne.
    unfold render_selected_profile in Ht. destruct (prof_type p); [|done|];
      apply run_try_Ok in Ht as (? & ? & ? & _ & Ht); by run_inv Ht. }
  apply run_try_Ok in H as (u & d2 & n4 & Hn & H). apply note_selection_Ok in Hn as [now Hn].
  apply run_try_Ok in H as (u' & d3 & n5 & He & H).
  apply run_try_Ok in He as (ev & d4 & n6 & He & He'). run_inv He'.
  unfold insert_boot_event in He. apply insert_boot_event_Ok in He as (now' & d5 & Hi & -> & _).
  exists m, device, known, d1, profs, now, d2, now', d5.
  split; [done|]. split; [eauto|]. split; [done|]. cbv zeta. fold sel.
  split; [done|]. split; [done|]. split.
  - destruct sscript; [by run_inv H|].
    apply run_try_Ok in H as (? & ? & ? & Hrt & H). run_inv H. by injection Hrt.
  - intros p Hp Hne. destruct (Hscript p Hp) as (t & -> & Ht). run_inv H. rewrite Ht by done. congruence.
Qed.

Lemma enabled_rows_elem d row :
  row ∈ enabled_rows d ↔ (∃ id, profiles d !! id = Some row) ∧ pr_enabled row = 1.
Proof.
  unfold enabled_rows. rewrite merge_sort_Permutation, elem_of_filter_list, values_of_elem.
  by rewrite Z.eqb_eq.
Qed.

Lemma profile_rows_to_models_elem rows profs p :
  profile_rows_to_models rows = Ok profs →
  p ∈ profs ↔ ∃ row, row ∈ rows ∧ profile_from_row row = Ok p.
Proof.
  revert profs. induction rows as [|row rows IH]; intros profs H; simpl in H.
  - simplify_eq. split; [by intros ?%elem_of_nil|]. by intros (? & ?%elem_of_nil & _).
  - destruct (profile_from_row row) as [q|] eqn:Hq; [|done]. simpl in H.
    destruct (profile_rows_to_models rows) as [rest|]; [|done]. simplify_eq/=.
    rewrite elem_of_cons, (IH rest) by done. split.
    + intros [->|(r & Hr & ?)]; [exists row; by split; [left|]|exists r; by split; [right|]].
    + intros (r & [->|Hr]%elem_of_cons & Hp); [left; congruence|eauto].
Qed.

Lemma profile_from_row_id row p : profile_from_row row = Ok p → prof_id p = pr_id row.
Proof.
  unfold profile_from_row. destruct (profile_type_from_str _); [|done]. simpl. by intros [= <-].
Qed.

(** The profiles a request chooses from have the identifiers of their rows. *)
Lemma enabled_profiles_unique d profs p q :
  boot_ok d → profile_rows_to_models (enabled_rows d) = Ok profs →
  p ∈ profs → q ∈ profs → prof_id p = prof_id q → p = q.
Proof.
  intros Hok Hm Hp Hq Heq. rewrite profile_rows_to_models_elem in Hp, Hq by done.
  destruct Hp as (r & Hr & Er), Hq as (r' & Hr' & Er').
  apply enabled_rows_elem in Hr as [[i Hi] _]. apply enabled_rows_elem in Hr' as [[j Hj] _].
  destruct (ok_profile_key d Hok i r Hi), (ok_profile_key d Hok j r' Hj).
  rewrite (profile_from_row_id _ _ Er), (profile_from_row_id _ _ Er') in Heq.
  assert (r = r') as -> by congruence. congruence.
Qed.

(** A device with a one-time assignment that can boot gets it. *)
Lemma one_time_chosen d profs prow p device allow :
  boot_ok d → profile_rows_to_models (enabled_rows d) = Ok profs →
  profiles d !! pr_id prow = Some prow → pr_enabled prow = 1 → profile_from_row prow = Ok p →
  profile_has_boot_action p = true → dev_one_time_profile_id device = Some (pr_id prow) →
  choose_profile (Some device) profs allow = {| sel_profile := Some p; sel_source := OneTime |}.
Proof.
  intros Hok Hm Hrow He Hp Ha Hone.
  assert (p ∈ profs) as Hin.
  { rewrite profile_rows_to_models_elem by done. exists prow. split; [|done].
    apply enabled_rows_elem. eauto. }
  assert (serves profs (dev_one_time_profile_id device) p) as Hs.
  { split; [|by rewrite (profile_from_row_id _ _ Hp)]. split_and!; [done| |done].
    unfold profile_from_row in Hp. destruct (profile_type_from_str _); [|done].
    simplify_eq/=. by rewrite He. }
  destruct (choose_profile_spec (Some device) profs allow) as [Hspec _]. unfold selection_spec in Hspec.
  destruct (choose_profile (Some device) profs allow) as [sp ss]. simpl in *.
  destruct ss, sp as [q|]; try done.
  - destruct Hspec as (d0 & [= <-] & [[Hq _] Hid]). rewrite Hone in Hid.
    assert (q = p) as ->; [|done]. eapply enabled_profiles_unique; [done..|].
    rewrite (profile_from_row_id _ _ Hp). congruence.
  - destruct Hspec as (d0 & [= <-] & _ & Hno). by destruct (Hno p).
  - by destruct Hspec.
  - by destruct (Hspec p).
Qed.

Lemma request_device_known m serial env n d row device known d' n' :
  boot_ok d → canonical_mac m → find_mac m d = Some row →
  run env n (request_device false (Some m) serial) d = (Ok (device, known), d', n') →
  known = true ∧ ∃ now s, device = Some (device_from_row (with_seen now s row)) ∧
    d' = set_devices (<[dr_id row := with_seen now s row]> (devices d)) d ∧ boot_ok d'.
Proof.
  intros Hok Hm Hrow H. unfold request_device in H.
  assert (boot_ok d') as Hok'.
  { pose proof (safe_run boot_ok boot_evolves _ _ env n d Hok
      (request_device_safe false (Some m) serial d Hok)) as Hs.
    unfold request_device in Hs. rewrite H in Hs. by destruct Hs. }
  apply run_try_Ok in H as ([dev kn] & d1 & n1 & Hu & H). run_inv H.
  cbn [fst snd] in H. injection H as <- <-. unfold upsert_seen_device in Hu.
  destruct (upsert_known _ _ _ _ _ _ _ _ _ _ _ Hok Hm Hrow Hu) as (-> & now & s & -> & ->).
  split; [done|]. eauto 10.
Qed.

Lemma insert_event_Some e now d id d3 :
  insert_event e now d = Some (id, d3) →
  id = last_event d + 1 ∧ devices d3 = devices d ∧ profiles d3 = profiles d ∧
  last_event d3 = last_event d + 1 ∧
  boot_events d3 = <[last_event d + 1 := {| ev_id := last_event d + 1; ev_recorded := e;
                                           ev_created_at := now |}]> (boot_events d).
Proof. unfold insert_event. destruct (_ && _); [|done]. by intros [= <- <-]. Qed.

Lemma inserted_event_kept e now d id d3 k :
  boot_ok d → insert_event e now d = Some (id, d3) →
  boot_events (prune_events_statement k d3) !! (last_event d + 1) =
  Some {| ev_id := last_event d + 1; ev_recorded := e; ev_created_at := now |}.
Proof.
  intros Hok Hi. assert (boot_ok d3) as Hok3 by by eapply insert_event_step.
  apply insert_event_Some in Hi as (_ & _ & _ & Hlast & Hev).
  set (ev := {| ev_id := _; ev_recorded := e; ev_created_at := now |}) in *.
  apply prune_events_keeps; [done|rewrite Hev; apply lookup_insert_eq|]. left.
  assert (count (later ev) (values_of (boot_events d3)) = 0%nat) as ->; [|lia].
  unfold count. destruct (List.filter _ _) as [|x l] eqn:Hf; [done|].
  assert (x ∈ List.filter (later ev) (values_of (boot_events d3))) as Hx by (rewrite Hf; left).
  apply elem_of_filter_list in Hx as [[i Hx]%values_of_elem Hl].
  apply (ok_event_key _ Hok3) in Hx. unfold later in Hl. simpl in *. bool_prop. lia.
Qed.

(** A one-time profile boots once.  When a machine whose address is stored
    asks to boot and its one-time assignment is enabled and runnable, a request
    that is answered has booted exactly that profile and taken the assignment
    back in the same request: the row of the device, and no other, now has no
    one-time profile, the time it was consumed and the profile as the last
    selected one, its permanent assignment is as before, and an event naming the
    device and the profile is in the log. *)
Theorem one_time_boot_is_consumed env n mac serial headers connect d script d' n' m row prow p :
  boot_ok d → normalize_mac mac = Ok m → find_mac m d = Some row →
  dr_one_time_profile_id row = Some (pr_id prow) → profiles d !! pr_id prow = Some prow →
  pr_enabled prow = 1 → profile_from_row prow = Ok p → profile_has_boot_action p = true →
  run env n (build_boot_script urlencode lowercase (Some mac) serial headers connect false) d =
    (Ok script, d', n') →
  ∃ row' e,
    devices d' = <[dr_id row := row']> (devices d) ∧ profiles d' = profiles d ∧
    dr_one_time_profile_id row' = None ∧ is_Some (dr_one_time_consumed_at row') ∧
    dr_last_selected_profile_id row' = Some (prof_id p) ∧
    dr_default_profile_id row' = dr_default_profile_id row ∧ dr_mac row' = dr_mac row ∧
    (prof_type p ≠ NestInstaller → render_profile_script p = Ok script) ∧
    boot_events d' !! (last_event d + 1) = Some e ∧
    ne_device_id (ev_recorded e) = Some (dr_id row) ∧
    ne_selected_profile_id (ev_recorded e) = Some (prof_id p) ∧
    ne_known_device (ev_recorded e) = true.
Proof.
  intros Hok Hmac Hrow Hone Hprow Hen Hp Ha H.
  apply build_boot_script_Ok in H as (m' & device & known & d1 & profs & now & d2 & now' & d3 &
    Hm & (n0 & n1 & Hreq) & Hprofs & Hn & Hi & -> & Hscript).
  cbn [normalized_optional_mac] in Hm. rewrite Hmac in Hm. cbn [rbind] in Hm. injection Hm as <-.
  apply request_device_known with (row := row) in Hreq
    as (-> & t & s & -> & Hd1 & Hok1); [|done|by eapply normalize_mac_Ok|done].
  set (row1 := with_seen t s row) in *.
  assert (choose_profile (Some (device_from_row row1)) profs
            (automatic_enrollment_allowed false true (Some m)) =
          {| sel_profile := Some p; sel_source := OneTime |}) as Hsel.
  { by eapply (one_time_chosen d1); subst d1. }
  rewrite Hsel in *. cbn [sel_profile] in *.
  assert (boot_ok d2) as Hok2 by by eapply note_selection_step. cbn [note_selection sel_profile sel_source] in Hn.
  assert (devices d1 !! dr_id row = Some row1) as Hlook by (subst d1; apply lookup_insert_eq).
  assert (prof_id p = pr_id prow) as Hid by by apply profile_from_row_id.
  eapply update_device_row_Some in Hn; [|exact Hlook].
  rewrite bool_decide_true in Hn by (simpl; congruence).
  exists (consumed_row (prof_id p) now row1). eexists.
  pose proof (inserted_event_kept _ _ _ _ _ MAX_BOOT_EVENTS_RETAINED Hok2 Hi) as Hev.
  assert (last_event d2 = last_event d) as Hle by by subst.
  rewrite Hle in Hev.
  apply insert_event_Some in Hi as (_ & Hdev & Hprof & _ & _).
  split_and!; [..|exact Hev|done|done|done]; try done.
  - change (devices d3 = <[dr_id row := consumed_row (prof_id p) now row1]> (devices d)).
    rewrite Hdev, Hn, Hd1. apply insert_insert_eq.
  - change (profiles d3 = profiles d). by rewrite Hprof, Hn, Hd1.
  - intros Hne. by apply Hscript.
Qed.

(** *** First contact *)

Lemma find_mac_None d m :
  boot_ok d → find_mac m d = None →
  ∀ id row, devices d !! id = Some row → to_ascii_lowercase (dr_mac row) ≠ to_ascii_lowercase m.
Proof.
  intros Hok Hn id row Hr Heq.
  assert (In row (values_of (devices d))) as Hin by (apply list_elem_of_In, values_of_elem; eauto).
  pose proof (List.find_none _ _ Hn row Hin) as Hf. simpl in Hf. bool_prop. done.
Qed.

Lemma insert_device_Some mk d id d' :
  insert_device mk d = Some (id, d') →
  id = last_device d + 1 ∧ devices d' = <[id := mk id]> (devices d) ∧ profiles d' = profiles d ∧
  boot_events d' = boot_events d.
Proof. unfold insert_device. destruct (_ && _); [|done]. by intros [= <- <-]. Qed.

(** A new address gets the next identifier, and a row of its own. *)
Lemma upsert_discovers m serial k env n d dev d' n' :
  boot_ok d → canonical_mac m →
  run env n (upsert_seen_device_with_retention m serial k) d = (Ok (dev, false), d', n') →
  find_mac m d = None ∧
  ∃ now s d0, insert_device (discovered_row m s now) d = Some (last_device d + 1, d0) ∧
    dev = device_from_row (discovered_row m s now (last_device d + 1)) ∧
    d' = prune_statement k d0.
Proof.
  intros Hok Hm H. unfold upsert_seen_device_with_retention in H.
  rewrite normalize_mac_id in H by done. run_inv H. injection E as <-.
  apply run_try_Ok in H as (found & d1 & n1 & Hf & H).
  apply get_device_by_mac_Ok in Hf as [-> ->]; [|done].
  destruct (find_mac m d) as [row|] eqn:Hnone; cbn [fmap option_fmap option_map] in H.
  { do 3 (apply run_try_Ok in H as (? & ? & ? & _ & H)). run_inv H. simplify_eq. }
  split; [done|]. apply run_try_Ok in H as (by_serial & d1 & n2 & Hs & H).
  apply run_read_only_Ok in Hs as ->; [|unfold get_device_by_serial; read_walk].
  destruct by_serial as [ex|].
  { do 2 (apply run_try_Ok in H as (? & ? & ? & _ & H)). run_inv H. simplify_eq. }
  apply run_try_Ok in H as (id & d0 & n3 & Hi & H). apply run_statement_Ok in Hi.
  apply run_try_Ok in H as (ins & d2 & n4 & Hg & H).
  apply get_device_by_mac_Ok in Hg as [-> ->]; [|done]. run_inv H.
  apply run_try_Ok in H as (u & d2 & n5 & Hp & H). apply run_execute_Ok in Hp. run_inv H. simplify_eq.
  assert (boot_ok d0) as Hok0 by (eapply insert_device_step; [done| |done]; by intros i).
  pose proof Hi as Hi'. apply insert_device_Some in Hi' as (-> & Hdev & _).
  exists (bi_now (env n)), (s ← serial; clean_str_ref s), d0. split_and!; [done| |done].
  destruct (find_mac m d0) as [row|] eqn:Hrow; simplify_eq/=.
  destruct (find_mac_Some _ _ _ Hok0 Hrow) as [Hr Hlow]. rewrite Hdev in Hr.
  apply lookup_insert_Some in Hr as [[_ <-]|[_ Hr]]; [done|].
  by destruct (find_mac_None _ _ Hok Hnone _ _ Hr).
Qed.

Lemma prune_statement_subseteq k d : devices (prune_statement k d) ⊆ devices d.
Proof. unfold prune_statement, delete_devices. simpl. apply map_filter_subseteq. Qed.

(** Removing the row a request discovered undoes the discovery. *)
Lemma discovery_undone m s now k d d0 :
  boot_ok d → find_mac m d = None →
  insert_device (discovered_row m s now) d = Some (last_device d + 1, d0) →
  let d' := (delete_devices (λ row, (dr_id row =? last_device d + 1) && unclaimed row)
               (prune_statement k d0)).2 in
  devices d' ⊆ devices d ∧ find_mac m d' = None ∧ profiles d' = profiles d.
Proof.
  intros Hok Hnone Hi d'. apply insert_device_Some in Hi as (_ & Hdev & Hprof & _).
  assert (devices d' ⊆ devices d) as Hsub.
  { apply map_subseteq_spec. intros id row Hr. unfold d', delete_devices in Hr. simpl in Hr.
    apply map_lookup_filter_Some in Hr as [Hr Hgone].
    eapply lookup_weaken in Hr; [|apply prune_statement_subseteq]. rewrite Hdev in Hr.
    apply lookup_insert_Some in Hr as [[<- <-]|[_ Hr]]; [|done].
    cbn [discovered_row dr_id] in Hgone. by rewrite Z.eqb_refl in Hgone. }
  split_and!; [done| |done].
  destruct (find_mac m d') as [row|] eqn:Hrow; [|done].
  apply List.find_some in Hrow as [Hin Hm]. bool_prop.
  apply list_elem_of_In, values_of_elem in Hin as [id Hr].
  eapply lookup_weaken in Hr; [|exact Hsub]. by destruct (find_mac_None _ _ Hok Hnone _ _ Hr).
Qed.

Section Faultless.
Context (env : nat → BootInput) (faultless : ∀ k, bi_fault (env k) = false).

Lemma run_try_of {A B} (q : handler A) (f : A → handler B) n d a d1 n1 :
  run env n q d = (Ok a, d1, n1) → run env n (try_bind q f) d = run env n1 (f a) d1.
Proof. intros H. by rewrite run_try_bind, H. Qed.

Lemma run_try_err {A B} (q : handler A) (f : A → handler B) n d e d1 n1 :
  run env n q d = (Err e, d1, n1) → run env n (try_bind q f) d = (Err e, d1, n1).
Proof. intros H. by rewrite run_try_bind, H. Qed.

Lemma run_on_error {A} (q : handler A) undo n d e d1 n1 u d2 n2 :
  run env n q d = (Err e, d1, n1) → run env n1 undo d1 = (u, d2, n2) →
  run env n (on_error q undo) d = (Err e, d2, n2).
Proof. intros H1 H2. unfold on_error. by rewrite run_bind, H1, run_bind, H2. Qed.

Lemma run_read_rows {B} (f : BootDb → B) n d : run env n (select f) d = (Ok (f d), d, S n).
Proof. unfold select, checked_query. simpl. by rewrite faultless. Qed.

Lemma run_statement {B} (f : BootDb → option (B * BootDb)) n d :
  run env n (statement f) d =
  match f d with Some (b, d') => (Ok b, d', S n) | None => (Err Sqlx, d, S n) end.
Proof. unfold statement, checked_query. simpl. rewrite faultless. by destruct (f d) as [[b d']|]. Qed.

Lemma run_pure {A} (r : AppResult A) n d : run env n (pure r) d = (r, d, n).
Proof. done. Qed.

Lemma run_list_enabled_profiles n d :
  run env n list_enabled_profiles d = (profile_rows_to_models (enabled_rows d), d, S n).
Proof. unfold list_enabled_profiles. by rewrite run_try_bind, run_read_rows. Qed.

Lemma run_create_installer_launch p mac device pid n d :
  prof_managed_profile_id p = Some pid →
  (∀ k a b c e, bi_session (env k) a b c e = None) →
  ∃ n', run env n (create_installer_launch p mac (Some device)) d =
    (Err (Config "could not create signed Nest boot session"), d, n').
Proof.
  intros Hp Hs. unfold create_installer_launch. rewrite Hp.
  erewrite run_try_of by apply run_pure. erewrite run_try_of by apply run_read_rows.
  simpl. rewrite Hs. by eexists.
Qed.

Lemma run_remove_unclaimed id n d :
  run env n (remove_unclaimed_auto_discovered_device id) d =
  let '(removed, d') := delete_devices (λ row, (dr_id row =? id) && unclaimed row) d in
  (Ok (removed =? 1), d', S n).
Proof. unfold remove_unclaimed_auto_discovered_device. by rewrite run_try_bind, run_statement. Qed.
End Faultless.

(** A first contact that cannot be served is not remembered.  When a
    machine with a new address is discovered and the only enrolment profile is
    chosen for it, but the installer session cannot be created, the request
    fails with that error and the discovery is undone: the address is unknown
    again, so the next attempt is a first contact too, no other row was added
    or changed, and profiles are as they were. *)
Theorem failed_enrollment_is_forgotten env n mac serial headers connect d m dev d1 n1 profs p pid :
  (∀ k, bi_fault (env k) = false) →
  (∀ k a b c e, bi_session (env k) a b c e = None) →
  boot_ok d → normalize_mac mac = Ok m →
  run env n (request_device false (Some m) (clean_optional serial)) d =
    (Ok (Some dev, false), d1, n1) →
  profile_rows_to_models (enabled_rows d) = Ok profs →
  List.filter enrollment_candidate profs = [p] → prof_managed_profile_id p = Some pid →
  ∃ d' n',
    run env n (build_boot_script urlencode lowercase (Some mac) serial headers connect false) d =
      (Err (Config "could not create signed Nest boot session"), d', n') ∧
    find_mac m d' = None ∧ devices d' ⊆ devices d ∧ profiles d' = profiles d.
Proof.
  intros Hnf Hns Hok Hmac Hreq Hprofs Hcand Hpid.
  pose proof (normalize_mac_Ok _ _ Hmac) as Hcan.
  pose proof Hreq as Hup. unfold request_device in Hup.
  apply run_try_Ok in Hup as ([dev' kn] & dx & nx & Hup & Hret).
  apply run_pure_Ok in Hret as ([= -> ->] & <- & <-).
  unfold upsert_seen_device in Hup.
  apply upsert_discovers in Hup as (Hnone & now & s & d0 & Hi & Hdev & Hd1); [|done..].
  assert (profiles d1 = profiles d) as Hpd.
  { rewrite Hd1. by apply insert_device_Some in Hi as (_ & _ & ? & _). }
  assert (enabled_rows d1 = enabled_rows d) as Her by (unfold enabled_rows; by rewrite Hpd).
  destruct (enrollment_candidate_bootable _ _ Hcand) as (_ & _ & _ & Htype).
  destruct (run_create_installer_launch env Hnf p m dev pid (S n1) d1 Hpid Hns) as [n2 Hlaunch].
  pose proof (discovery_undone m s now MAX_AUTO_DISCOVERED_DEVICES_RETAINED d d0 Hok Hnone Hi) as Hun.
  rewrite <- Hd1 in Hun.
  pose proof (run_remove_unclaimed env Hnf (dev_id dev) n2 d1) as Hrem. rewrite Hdev in Hrem.
  cbn [device_from_row dev_id discovered_row dr_id] in Hrem.
  destruct (delete_devices _ d1) as [removed d'] eqn:Hdel. cbn [snd] in Hun.
  destruct Hun as (Hsub & Hgone & Hpr). exists d', (S n2). split; [|by split_and!].
  unfold build_boot_script. cbn [normalized_optional_mac]. rewrite Hmac. cbn [rbind].
  erewrite run_try_of by apply run_pure. erewrite run_try_of by exact Hreq. cbn [fst snd].
  erewrite run_try_of by (rewrite run_list_enabled_profiles by done; by rewrite Her, Hprofs).
  cbn [automatic_enrollment_allowed negb andb]. rewrite bool_decide_true by eauto.
  assert (choose_profile None profs true =
    {| sel_profile := Some p; sel_source := AutomaticEnrollment |}) as ->.
  { unfold choose_profile. by rewrite (proj2 (unambiguous_default_enrollment_Some profs p)). }
  cbn [sel_profile sel_source or_else]. apply run_try_err. eapply run_on_error.
  - apply run_try_err. unfold render_selected_profile. rewrite Htype.
    erewrite run_try_of by apply run_pure. apply run_try_err. exact Hlaunch.
  - rewrite bool_decide_true by done. rewrite Hdev. cbn [device_from_row dev_id discovered_row dr_id].
    erewrite run_try_of by exact Hrem. reflexivity.
Qed.

(** ** Retention *)

(** Discovery cannot fill the table.  Pruning leaves at most [max n 1] rows
    that only discovery wrote; it never removes a row an operator or Tiaris has
    claimed in any way (a name, notes, tags, an assignment, a managed client),
    keeps every discovered row that fewer than [max n 1] others were seen after,
    and adds or changes nothing. *)
Theorem discovery_retention n d :
  boot_ok d →
  let d' := prune_statement n d in
  Z.of_nat (count discovery_only (values_of (devices d'))) ≤ Z.max n 1 ∧
  devices d' ⊆ devices d ∧
  (∀ id row, devices d !! id = Some row → discovery_only row = false →
     devices d' !! id = Some row) ∧
  (∀ id row, devices d !! id = Some row →
     (count (seen_later row) (List.filter discovery_only (values_of (devices d)))
        < Z.to_nat (Z.max n 1))%nat →
     devices d' !! id = Some row).
Proof.
  intros Hok d'. split_and!; [by apply prune_bound|apply prune_statement_subseteq|..];
    intros; apply prune_keeps; auto.
Qed.

(** The boot log is bounded and recent.  Recording an event answers with
    it and leaves at most twice the retention in the log; the new event is in
    it; an older event goes only when [max k 1] later ones are in the log, and a
    boot of a known device into a selected profile only when [max k 1] later
    ones of that kind are. *)
Theorem event_log_retention e k env n d ev d' n' :
  boot_ok d →
  run env n (insert_boot_event_with_retention e k) d = (Ok ev, d', n') →
  Z.of_nat (size (boot_events d')) ≤ 2 * Z.max k 1 ∧
  ev_recorded ev = e ∧ ev_id ev = last_event d + 1 ∧ boot_events d' !! ev_id ev = Some ev ∧
  devices d' = devices d ∧ profiles d' = profiles d ∧
  ∀ id old, boot_events d !! id = Some old → boot_events d' !! id = None →
    let all := values_of (<[ev_id ev := ev]> (boot_events d)) in
    (Z.to_nat (Z.max k 1) ≤ count (later old) all)%nat ∧
    (selected_boot old = true →
     (Z.to_nat (Z.max k 1) ≤ count (later old) (List.filter selected_boot all))%nat).
Proof.
  intros Hok H. apply insert_boot_event_Ok in H as (now & d3 & Hi & -> & ->).
  pose proof (inserted_event_kept _ _ _ _ _ k Hok Hi) as Hkept.
  assert (boot_ok d3) as Hok3 by by eapply insert_event_step.
  apply insert_event_Some in Hi as (_ & Hdev & Hprof & _ & Hev). cbn [ev_id ev_recorded].
  split_and!; [apply prune_events_bound|done|done|done|done|done|].
  intros id old Hold Hgone. rewrite <- Hev.
  assert (boot_events d3 !! id = Some old) as Hold3.
  { rewrite Hev, lookup_insert_ne; [done|]. apply (ok_event_key d Hok) in Hold. lia. }
  split.
  - apply Nat.nlt_ge. intros Hlt.
    assert (boot_events (prune_events_statement k d3) !! id = Some old); [|congruence].
    apply prune_events_keeps; auto.
  - intros Hs. apply Nat.nlt_ge. intros Hlt.
    assert (boot_events (prune_events_statement k d3) !! id = Some old); [|congruence].
    apply prune_events_keeps; auto.
Qed.
End Routes.

(** ** Schedules

    An interleaving as data: which task acts next, and what its action reads. *)

Section Schedules.
Context {In W : Type}.

Fixpoint act_nth (ts : list (prog In W unit)) (k : nat) (i : In) (w : W)
    : list (prog In W unit) * W :=
  match ts, k with
  | Step act f :: ts, O => let '(b, w') := act i w in (f b :: ts, w')
  | t :: ts, S k => let '(ts', w') := act_nth ts k i w in (t :: ts', w')
  | _, _ => (ts, w)
  end.

Fixpoint follow (schedule : list (nat * In)) (ts : list (prog In W unit)) (w : W)
    : list (prog In W unit) * W :=
  match schedule with
  | [] => (ts, w)
  | (k, i) :: schedule => let '(ts', w') := act_nth ts k i w in follow schedule ts' w'
  end.

Lemma act_nth_step (entry : prog In W unit → Prop) l ts k i w :
  rtc (pstep entry) (l ++ ts, w) (l ++ (act_nth ts k i w).1, (act_nth ts k i w).2).
Proof.
  revert l k. induction ts as [|t ts IH]; intros l k; [by destruct k|].
  destruct k as [|k].
  - destruct t as [a|B act f|t' k']; simpl; try reflexivity.
    destruct (act i w) as [b w'] eqn:E. simpl. apply rtc_once.
    pose proof (pstep_act entry l ts _ act f i w) as H. by rewrite E in H.
  - specialize (IH (l ++ [t]) k). rewrite <- !app_assoc in IH. simpl in IH.
    destruct t; simpl; destruct (act_nth ts k i w) as [ts' w']; done.
Qed.

Lemma follow_steps (entry : prog In W unit → Prop) schedule ts w :
  rtc (pstep entry) (ts, w) (follow schedule ts w).
Proof.
  revert ts w. induction schedule as [|[k i] schedule IH]; intros ts w; simpl; [reflexivity|].
  pose proof (act_nth_step entry [] ts k i w) as H. simpl in H.
  destruct (act_nth ts k i w) as [ts' w']. etrans; [exact H|]. apply IH.
Qed.

Lemma arrive_all (entry : prog In W unit → Prop) ts w :
  Forall entry ts → rtc (pstep entry) ([], w) (ts, w).
Proof.
  intros Hts. change ts with ([] ++ ts) at 1. generalize (@nil (prog In W unit)) as l.
  induction Hts as [|t ts Ht _ IH]; intros l; [rewrite app_nil_r; reflexivity|].
  eapply rtc_l; [by apply pstep_arrive|]. specialize (IH (l ++ [t])).
  by rewrite <- app_assoc in IH.
Qed.
End Schedules.

(** ** A small deployment

    Concrete tables, built by the operations themselves, on which the theorems
    are applied. *)

Module BootDemo.
#[local] Existing Instance requests_only.

#[global] Instance demo_serde : Serde := {|
  to_string := λ _, "[]";
  from_str := λ _, Some (Array []);
|}.

Definition empty_db : BootDb := {|
  devices := ∅; last_device := 0; profiles := ∅; last_profile := 0; boot_events := ∅;
  last_event := 0 |}.

Lemma empty_db_ok : boot_ok empty_db.
Proof. split; simpl; try lia; intros *; by rewrite lookup_empty. Qed.

Definition input (fault : bool) : BootInput := {|
  bi_fault := fault; bi_now := "2026-10-01T00:00:00+00:00";
  bi_runtime := {| rt_public_base_url := "http://nest"; rt_menu_timeout_ms := 5000 |};
  bi_session := λ _ _ _ _, None |}.
Definition demo_env (n : nat) : BootInput := input false.

Definition new_profile (name : string) (t : BootProfileType) (is_default : bool)
    (script : option string) : CreateBootProfileRequest := {|
  cp_name := name; cp_description := None; cp_profile_type := t; cp_enabled := None;
  cp_is_default := Some is_default; cp_one_time := None; cp_raw_script := script |}.

Definition demo_device : CreateDeviceRequest := {|
  cd_mac := "AA-BB-CC-00-11-22"; cd_hostname := Some "ward-1"; cd_serial_number := Some "SN1";
  cd_notes := None; cd_tags := None; cd_default_profile_id := None;
  cd_one_time_profile_id := Some 2 |}.

(** A default local-disk profile, a custom one, and a device bound once to it. *)
Definition demo_setup : handler unit :=
  create_profile (new_profile "Local disk" LocalDisk true None) ;;?
  create_profile (new_profile "Rescue" CustomIpxe false (Some "shell")) ;;?
  create_device demo_device ;;?
  pure (Ok tt).

Lemma demo_setup_safe w0 : boot_ok w0 → harmless demo_setup w0.
Proof. intros. unfold demo_setup. walk. Qed.

Definition demo_db : BootDb := (run demo_env 0 demo_setup empty_db).1.2.

Lemma demo_db_ok : boot_ok demo_db.
Proof.
  pose proof (safe_run boot_ok boot_evolves demo_setup _ demo_env 0 empty_db empty_db_ok
    (demo_setup_safe _ empty_db_ok)) as H.
  unfold demo_db. destruct (run demo_env 0 demo_setup empty_db) as [[r d] n].
  by destruct H.
Qed.

Definition demo_headers : Headers := {| hd_user_agent := Some "iPXE/1.21"; hd_x_forwarded_for := None |}.
Definition demo_peer : option IpAddr := Some (V4 [10; 0; 0; 9]).

Definition demo_check : BootQuery :=
  {| bq_mac := None; bq_serial := None; bq_tiaris_check := Some "1" |}.

Lemma checker_requests_only_read_witness :
  read_only (boot_select_profile "1" demo_check demo_headers (Some (V4 [127; 0; 0; 1]))).
Proof.
  apply (checker_requests_only_read id id demo_check demo_headers (Some (V4 [127; 0; 0; 1]))).
  vm_compute. reflexivity.
Defined.

Definition the {A} (dummy : A) (o : option A) : A := default dummy o.
Definition demo_row : DeviceRow :=
  the (discovered_row "" None "" 0) (find_mac "aa:bb:cc:00:11:22" demo_db).
Definition demo_prow : BootProfileRow :=
  the (new_profile_row "" "" LocalDisk true true true None "" 0) (profiles demo_db !! 2).
Definition demo_profile : BootProfile :=
  the (MenuDemo.demo_profile 0 "") (ok (profile_from_row demo_prow)).
Definition demo_run : AppResult string * BootDb * nat :=
  run demo_env 0 (build_boot_script id id (Some "aabbcc001122") None demo_headers demo_peer false)
    demo_db.

Lemma one_time_boot_is_consumed_witness :
  ∃ row', devices demo_run.1.2 !! 1 = Some row' ∧ dr_one_time_profile_id row' = None.
Proof.
  destruct (one_time_boot_is_consumed id id demo_env 0 "aabbcc001122" None demo_headers demo_peer
    demo_db (the "" (ok demo_run.1.1)) demo_run.1.2 demo_run.2 "aa:bb:cc:00:11:22"
    demo_row demo_prow demo_profile) as (row' & e & Hd & _ & Hone & _).
  - exact demo_db_ok.
  - vm_compute; reflexivity.
  - vm_compute; reflexivity.
  - vm_compute; reflexivity.
  - vm_compute; reflexivity.
  - vm_compute; reflexivity.
  - vm_compute; reflexivity.
  - vm_compute; reflexivity.
  - vm_compute; reflexivity.
  - exists row'. split; [|exact Hone]. rewrite Hd.
    assert (dr_id demo_row = 1) as -> by (vm_compute; reflexivity).
    apply lookup_insert_eq.
Defined.

(** An enrolment profile that Tiaris manages, and a machine never seen before. *)
Definition enroll_setup : handler unit :=
  create_profile (new_profile "Enrol" NestInstaller true None) ;;? pure (Ok tt).
Lemma enroll_setup_safe w0 : boot_ok w0 → harmless enroll_setup w0.
Proof. intros. unfold enroll_setup. walk. Qed.
Definition local_db : BootDb := (run demo_env 0 enroll_setup empty_db).1.2.
Lemma local_db_ok : boot_ok local_db.
Proof.
  pose proof (safe_run boot_ok boot_evolves enroll_setup _ demo_env 0 empty_db empty_db_ok
    (enroll_setup_safe _ empty_db_ok)) as H.
  unfold local_db. destruct (run demo_env 0 enroll_setup empty_db) as [[r d] n].
  by destruct H.
Qed.

Definition adopt (managed : string) (row : BootProfileRow) : BootProfileRow := {|
  pr_id := pr_id row; pr_managed_profile_id := Some managed; pr_name := pr_name row;
  pr_description := pr_description row; pr_profile_type := pr_profile_type row;
  pr_enabled := pr_enabled row; pr_is_default := pr_is_default row;
  pr_one_time := pr_one_time row; pr_raw_script := pr_raw_script row;
  pr_created_at := pr_created_at row; pr_updated_at := pr_updated_at row |}.
Definition enroll_row : BootProfileRow :=
  the (new_profile_row "" "" LocalDisk true true true None "" 0) (profiles local_db !! 1).
Definition enroll_db : BootDb := set_profiles (<[1 := adopt "p-1" enroll_row]> (profiles local_db)) local_db.

Lemma enroll_db_ok : boot_ok enroll_db.
Proof.
  assert (profiles local_db !! 1 = Some enroll_row) as Hrow by (vm_compute; reflexivity).
  eapply (write_profile_step local_db enroll_db 1 (adopt "p-1" enroll_row) local_db_ok);
    try reflexivity.
  - exact (ok_profile_row local_db local_db_ok 1 enroll_row Hrow).
  - split; [reflexivity|]. vm_compute. discriminate.
  - intros row0. rewrite Hrow. by intros [= <-].
  - intros _. by exists enroll_row.
Qed.

Definition enroll_request : AppResult (option Device * bool) * BootDb * nat :=
  run demo_env 0 (request_device false (Some "00:00:00:00:00:07") None) enroll_db.
Definition enroll_device : Device :=
  the (device_from_row (discovered_row "" None "" 0)) (r ← ok enroll_request.1.1; r.1).
Definition enroll_profile : BootProfile :=
  the (MenuDemo.demo_profile 0 "") (ok (profile_from_row (adopt "p-1" enroll_row))).

Lemma failed_enrollment_is_forgotten_witness :
  ∃ d' n', run demo_env 0 (build_boot_script id id (Some "000000000007") None demo_headers
      demo_peer false) enroll_db =
      (Err (Config "could not create signed Nest boot session"), d', n') ∧
    find_mac "00:00:00:00:00:07" d' = None.
Proof.
  destruct (failed_enrollment_is_forgotten id id demo_env 0 "000000000007" None demo_headers demo_peer
    enroll_db "00:00:00:00:00:07" enroll_device enroll_request.1.2 enroll_request.2
    [enroll_profile] enroll_profile "p-1") as (d' & n' & Hrun & Hgone & _).
  - reflexivity.
  - reflexivity.
  - exact enroll_db_ok.
  - vm_compute; reflexivity.
  - vm_compute; reflexivity.
  - vm_compute; reflexivity.
  - vm_compute; reflexivity.
  - vm_compute; reflexivity.
  - exists d', n'. split; [exact Hrun|exact Hgone].
Defined.

Lemma discovery_retention_witness :
  Z.of_nat (count discovery_only (values_of (devices (prune_statement 1 demo_db)))) ≤ Z.max 1 1.
Proof. destruct (discovery_retention 1 demo_db demo_db_ok) as [H _]. exact H. Defined.

Definition demo_event : NewBootEvent := {|
  ne_device_id := Some 1; ne_mac := None; ne_serial_number := None; ne_ip_address := None;
  ne_user_agent := None; ne_selected_profile_id := Some 2; ne_selected_profile_name := None;
  ne_known_device := true |}.
Definition demo_log : AppResult BootEvent * BootDb * nat :=
  run demo_env 0 (insert_boot_event_with_retention demo_event 3) demo_db.
Definition demo_logged : BootEvent :=
  the {| ev_id := 0; ev_recorded := demo_event; ev_created_at := "" |} (ok demo_log.1.1).

Lemma event_log_retention_witness : boot_events demo_log.1.2 !! ev_id demo_logged = Some demo_logged.
Proof.
  assert (run demo_env 0 (insert_boot_event_with_retention demo_event 3) demo_db =
          (Ok demo_logged, demo_log.1.2, demo_log.2)) as Hrun by (vm_compute; reflexivity).
  destruct (event_log_retention demo_event 3 demo_env 0 demo_db _ _ _ demo_db_ok Hrun)
    as (_ & _ & _ & H & _). exact H.
Defined.

(** ** What is not guaranteed *)

(** Making another profile the default clears the old default in a statement of
    its own: when the statement after it fails, no profile is the default. *)
Definition faulty_env (n : nat) : BootInput := input (bool_decide (n = 2%nat)).

Theorem failed_create_loses_the_default :
  let request := create_profile (new_profile "New" LocalDisk true None) in
  boot_ok demo_db ∧ count (λ row, pr_is_default row =? 1) (values_of (profiles demo_db)) = 1%nat ∧
  (run faulty_env 0 request demo_db).1.1 = Err Sqlx ∧
  count (λ row, pr_is_default row =? 1)
    (values_of (profiles (run faulty_env 0 request demo_db).1.2)) = 0%nat.
Proof. split; [exact demo_db_ok|]. by vm_compute. Qed.

(** An assignment is validated in one statement and written in another: a
    profile disabled between the two stays assigned, although
    [validate_profile_has_no_device_assignments] and
    [validate_profile_assignment_id] each refuse that state. *)
Definition assign_rescue : UpdateDeviceRequest := {|
  ud_hostname := None; ud_serial_number := None; ud_notes := None; ud_tags := None;
  ud_default_profile_id := Some (Some 2); ud_one_time_profile_id := Some None |}.
Definition release_rescue : UpdateDeviceRequest := {|
  ud_hostname := None; ud_serial_number := None; ud_notes := None; ud_tags := None;
  ud_default_profile_id := Some None; ud_one_time_profile_id := Some None |}.
Definition disable_rescue : UpdateBootProfileRequest := {|
  up_name := None; up_description := None; up_profile_type := None; up_enabled := Some false;
  up_is_default := None; up_one_time := None; up_raw_script := None |}.

(** Whether every assignment targets an enabled profile. *)
Definition assignments_enabled (d : BootDb) : bool :=
  forallb (λ row, match dr_default_profile_id row with
                  | Some id => match profiles d !! id with
                               | Some p => pr_enabled p =? 1
                               | None => false
                               end
                  | None => true
                  end) (values_of (devices d)).

Definition race_tasks : list (prog BootInput BootDb unit) :=
  [ignored (update_device 1 release_rescue); ignored (update_device 1 assign_rescue);
   ignored (update_profile 2 disable_rescue)].
Definition at_task (k : nat) : nat * BootInput := (k, input false).
Definition race_schedule : list (nat * BootInput) :=
  at_task <$> [0; 0; 0; 0; 1; 1; 2; 2; 2; 2; 2; 1; 1; 1]%nat.

Theorem assignment_race :
  ∃ ts' d', rtc (pstep (boot_entry id id)) ([], demo_db) (ts', d') ∧
    assignments_enabled demo_db = true ∧ assignments_enabled d' = false.
Proof.
  exists (follow race_schedule race_tasks demo_db).1, (follow race_schedule race_tasks demo_db).2.
  split_and!; [|vm_compute; reflexivity|vm_compute; reflexivity].
  etrans; [apply (arrive_all _ race_tasks)|].
  - repeat constructor.
  - rewrite <- surjective_pairing. apply follow_steps.
Qed.

(** A machine that has booted is deleted while another one boots, the statements of the two
    requests taking turns: the first machine's event no longer names its row. *)
Definition booted_db : BootDb := demo_run.1.2.
Definition boot_and_delete : list (prog BootInput BootDb unit) :=
  [ignored (build_boot_script id id (Some "aabbcc001133") None demo_headers demo_peer false);
   ignored (delete_device 1)].
Definition turns : list (nat * BootInput) := at_task <$> concat (repeat [0; 0; 1]%nat 20).
Definition after_turns : BootDb := (follow turns boot_and_delete booted_db).2.

Lemma first_boot_ok : boot_ok booted_db.
Proof.
  pose proof (safe_run boot_ok boot_evolves _ _ demo_env 0 demo_db demo_db_ok
    (build_boot_script_safe id id (Some "aabbcc001122") None demo_headers demo_peer false _ demo_db_ok)) as H.
  unfold booted_db, demo_run. destruct (run _ _ _ _) as [[r d] n]. by destruct H.
Qed.

Lemma boot_interleavings_consistent_witness :
  boot_ok after_turns ∧ last_event after_turns = 2 ∧ devices after_turns !! 1 = None ∧
  ∃ e e', boot_events booted_db !! 1 = Some e ∧ ne_device_id (ev_recorded e) = Some 1 ∧
    boot_events after_turns !! 1 = Some e' ∧ ne_device_id (ev_recorded e') = None ∧
    ne_mac (ev_recorded e') = ne_mac (ev_recorded e).
Proof.
  destruct (boot_interleavings_consistent id id booted_db (follow turns boot_and_delete booted_db).1 after_turns
    first_boot_ok) as [Hok [_ _ _ He]].
  { etrans; [apply (arrive_all _ boot_and_delete); repeat constructor|].
    unfold after_turns. rewrite <- surjective_pairing. apply follow_steps. }
  split; [exact Hok|]. split; [vm_compute; reflexivity|]. split; [vm_compute; reflexivity|].
  destruct (boot_events after_turns !! 1) as [e'|] eqn:E; [|vm_compute in E; discriminate E].
  destruct (He 1 e' E) as (e & He1 & ((_ & Hmac & _) & _)); [apply Z.leb_le; vm_compute; reflexivity|].
  exists e, e'. split; [exact He1|]. split.
  - assert (ne_device_id ∘ ev_recorded <$> boot_events booted_db !! 1 = Some (Some 1)) as H by (vm_compute; reflexivity).
    rewrite He1 in H. by injection H.
  - split; [reflexivity|]. split; [|exact Hmac].
    assert (ne_device_id ∘ ev_recorded <$> boot_events after_turns !! 1 = Some None) as H by (vm_compute; reflexivity).
    rewrite E in H. by injection H.
Defined.

(** A serial number is accepted up to 128 characters but looked up only up to
    128 bytes: a device stored with 65 two-byte characters is not found. *)
Definition e_acute : string := String "195" (String "169" "").
Definition long_serial : string := join "" (repeat e_acute 65).
Definition with_serial : CreateDeviceRequest := {|
  cd_mac := "00:00:00:00:00:01"; cd_hostname := None; cd_serial_number := Some long_serial;
  cd_notes := None; cd_tags := None; cd_default_profile_id := None;
  cd_one_time_profile_id := None |}.

Theorem long_serial_is_stored_but_not_found :
  let d := (run demo_env 0 (create_device with_serial) empty_db).1.2 in
  is_ok (run demo_env 0 (create_device with_serial) empty_db).1.1 = true ∧
  is_Some (find_serial long_serial d) ∧
  (run demo_env 0 (get_device_by_serial long_serial) d).1.1 = Ok None.
Proof. vm_compute. split_and!; [done|by eexists|done]. Qed.
End BootDemo.
