(* ===== verification/BuildJobs.v ===== *)
(** * The build job queue

    The [nest_build_jobs] table of [src/db.rs]: jobs are queued by a local
    request or by Tiaris, claimed by a worker of [src/build.rs], finished, failed
    or cancelled.  Every SQL statement is one function on the table; an
    operation is its validations followed by its statement.  The columns are
    grouped (what to build, progress, output) but otherwise as in the schema.
    [remediated] holds the jobs of [protected_build_job_remediations], whose
    rows are frozen. *)

From stdpp Require Import sorting base gmap list strings.
From Stdlib Require Import Ascii ZArith Lia.
From S2P Require Import Prelude RustStr Json DbText.

#[local] Open Scope Z_scope.
#[local] Open Scope nest_scope.

Record JobInputs := {
  ji_requested_artifact_type : string;
  ji_build_spec : string;
  ji_target : string;
  ji_system : string;
  ji_input_revision : string;
  ji_input_config_hash : string;
}.

Record JobProgress := {
  jp_percent : option Z;
  jp_stage : option string;
  jp_message : option string;
}.

Record JobOutput := {
  jo_path : string;
  jo_sha256 : string;
  jo_size_bytes : Z;
  jo_exit_code : option Z;
}.
Definition no_output : JobOutput :=
  {| jo_path := ""; jo_sha256 := ""; jo_size_bytes := 0; jo_exit_code := None |}.

Record BuildJobRow := {
  job_id : Z;
  job_managed_id : option string;
  job_inputs : JobInputs;
  job_status : string;
  job_progress : JobProgress;
  job_logs : string;
  job_error : string;
  job_rejection_code : string;
  job_output : JobOutput;
  job_cache_metadata : string;
  job_started_at : option string;
  job_completed_at : option string;
  job_cancel_requested_at : option string;
  job_created_at : string;
  job_updated_at : string;
}.

Record JobDb := {
  jobs : gmap Z BuildJobRow;
  last_id : Z;
  remediated : gset Z;
}.

Definition set_jobs (m : gmap Z BuildJobRow) (d : JobDb) : JobDb :=
  {| jobs := m; last_id := last_id d; remediated := remediated d |}.

(** What this component asks of the ones that screen text and documents for
    protected material ([src/redact.rs], [src/protected_material.rs]): a
    validator answers the message of its error. *)
Class Screening := {
  redact_sensitive_key_values : string → string;
  validate_build_spec : Value → option string;
  validate_cache_metadata : Value → option string;
}.

Section Jobs.
Context {serde : Serde} {screening : Screening}.

Definition bounded_log_text (value : string) : string :=
  bounded_bytes (redact_sensitive_key_values value) MAX_BUILD_LOG_BYTES.

Definition bounded_error_text (value : string) : string :=
  take_chars MAX_BUILD_ERROR_CHARS (redact_sensitive_key_values value).

Definition terminal_build_progress_message (status : string) (metadata : option Value) : string :=
  if bool_decide (status = "succeeded") then "Build completed and cached"
  else if bool_decide (status = "cancelled") then "Build cancelled by Tiaris"
  else
    let kind := metadata ← metadata; object ← as_object metadata;
                v ← obj_get "error_kind" object; as_str v in
    let kind_is k := bool_decide (kind = Some k) in
    if kind_is "out_of_memory" then "Build ran out of memory"
    else if kind_is "insufficient_memory" then "Nest memory is below the required minimum"
    else if kind_is "insufficient_swap" then "Nest swap is below the required minimum"
    else if kind_is "insufficient_disk_space" then "Nest disk space is insufficient"
    else if kind_is "package_build_failed" then "A package failed to build"
    else if kind_is "source_build_blocked"
    then "Blocked: requires building from source (not allowed for this Blueprint)"
    else if kind_is "nix_daemon_unavailable" then "Nix daemon is unavailable"
    else if kind_is "build_timeout" then "Build timed out"
    else "Build failed".

Definition metadata_to_string_with_limit (value : option Value) (field : string)
    (max_bytes : Z) : AppResult string :=
  let value := default (Object []) value in
  if negb (is_object value) then invalid (field +:+ " must be a JSON object") else
  match validate_cache_metadata value with
  | Some err => invalid (field +:+ ": " +:+ err)
  | None =>
      let encoded := to_string value in
      if max_bytes <? len encoded
      then invalid (field +:+ " must be " +:+ show max_bytes +:+ " bytes or fewer")
      else Ok encoded
  end.

Definition metadata_to_string (value : option Value) (field : string) : AppResult string :=
  metadata_to_string_with_limit value field MAX_CACHE_METADATA_BYTES.

Definition build_spec_to_string (value : option Value)
    (requested_artifact_type target system input_revision input_config_hash : string)
    : AppResult string :=
  let fields0 :=
    match value with
    | None => Some [ ("artifact_type", Str requested_artifact_type);
                     ("input_config_hash", Str input_config_hash);
                     ("input_revision", Str input_revision);
                     ("schema_version", Num (PosInt 1));
                     ("system", Str system); ("target", Str target) ]
    | Some value => as_object value
    end in
  match fields0 with
  | None => invalid "build_spec must be a JSON object"
  | Some fields =>
      let fields := obj_insert "artifact_type" (Str requested_artifact_type) fields in
      let fields := obj_insert "target" (Str target) fields in
      let fields := obj_insert "system" (Str system) fields in
      let fields := obj_insert "input_revision" (Str input_revision) fields in
      let fields := obj_insert "input_config_hash" (Str input_config_hash) fields in
      match validate_build_spec (Object fields) with
      | Some err => invalid err
      | None =>
          let encoded := to_string (Object fields) in
          if MAX_CACHE_METADATA_BYTES <? len encoded
          then invalid ("build_spec must be " +:+ show MAX_CACHE_METADATA_BYTES
                        +:+ " bytes or fewer")
          else Ok encoded
      end
  end.

(** ** Reading *)

(** A job as it is returned: the row with its two documents decoded. *)
Record BuildJob := {
  bj_row : BuildJobRow;
  bj_build_spec : Value;
  bj_cache_metadata : Value;
}.

Definition metadata_from_db (value field : string) : AppResult Value :=
  match from_str value with
  | None => Err (Config (field +:+ ": invalid"))
  | Some v => if is_object v then Ok v
              else Err (Config (field +:+ " must be a JSON object"))
  end.

Definition try_from_row (row : BuildJobRow) : AppResult BuildJob :=
  spec ≔ metadata_from_db (ji_build_spec (job_inputs row)) "build job build_spec" ?;
  metadata ≔ metadata_from_db (job_cache_metadata row) "build job cache_metadata" ?;
  Ok {| bj_row := row; bj_build_spec := spec; bj_cache_metadata := metadata |}.

Definition get_build_job (id : Z) (d : JobDb) : AppResult BuildJob :=
  match jobs d !! id with Some row => try_from_row row | None => Err NotFound end.

Definition rows (d : JobDb) : list BuildJobRow := snd <$> map_to_list (jobs d).

Definition has_managed_id (managed : string) (row : BuildJobRow) : bool :=
  bool_decide (job_managed_id row = Some managed).

(** [managed_job_id] is [UNIQUE]. *)
Definition find_managed (managed : string) (d : JobDb) : option BuildJobRow :=
  List.find (has_managed_id managed) (rows d).

Definition get_build_job_by_managed_id (managed : string) (d : JobDb) : AppResult BuildJob :=
  match find_managed managed d with Some row => try_from_row row | None => Err NotFound end.

Fixpoint build_job_rows_to_models (rows : list BuildJobRow) : AppResult (list BuildJob) :=
  match rows with
  | [] => Ok []
  | row :: rows =>
      job ≔ try_from_row row ?;
      rest ≔ build_job_rows_to_models rows ?;
      Ok (job :: rest)
  end.

(** [ORDER BY created_at DESC, id DESC]. *)
Definition job_ge (x y : BuildJobRow) : Prop :=
  String.le (job_created_at y) (job_created_at x) ∧
  (job_created_at x = job_created_at y → job_id y ≤ job_id x).
#[global] Instance job_ge_dec : RelDecision job_ge.
Proof. unfold job_ge. intros x y. apply _. Defined.

Definition list_build_jobs (d : JobDb) : AppResult (list BuildJob) :=
  build_job_rows_to_models (merge_sort job_ge (rows d)).

(** ** Queueing *)

Definition queued_progress : JobProgress :=
  {| jp_percent := Some 0; jp_stage := Some "queued";
     jp_message := Some "Waiting for Nest to claim the build" |}.

(** [INSERT] with [AUTOINCREMENT]; [None] when the identifiers are exhausted. *)
Definition insert_row (mk : Z → BuildJobRow) (d : JobDb) : option (Z * JobDb) :=
  if last_id d <? i64_max then
    let id := last_id d + 1 in
    Some (id, {| jobs := <[id := mk id]> (jobs d); last_id := id; remediated := remediated d |})
  else None.

Definition queued_row (managed : option string) (inputs : JobInputs) (metadata now : string)
    (id : Z) : BuildJobRow := {|
  job_id := id; job_managed_id := managed; job_inputs := inputs; job_status := "queued";
  job_progress := queued_progress; job_logs := ""; job_error := "";
  job_rejection_code := ""; job_output := no_output; job_cache_metadata := metadata;
  job_started_at := None; job_completed_at := None; job_cancel_requested_at := None;
  job_created_at := now; job_updated_at := now |}.

Record CreateBuildJobRequest := {
  cb_requested_artifact_type : string;
  cb_build_spec : option Value;
  cb_target : option string;
  cb_system : option string;
  cb_input_revision : string;
  cb_input_config_hash : string;
  cb_cache_metadata : option Value;
}.

(** The validations [create_build_job] and [upsert_managed_build_job] share. *)
Definition normalize_inputs (r : CreateBuildJobRequest) : AppResult JobInputs :=
  artifact ≔ normalize_artifact_type (cb_requested_artifact_type r) "requested_artifact_type" ?;
  target ≔ normalize_build_target (cb_target r) artifact ?;
  system ≔ normalize_build_system (default "x86_64-linux" (cb_system r)) ?;
  revision ≔ normalize_input_revision (cb_input_revision r) ?;
  config_hash ≔ normalize_sha256 (cb_input_config_hash r) "input_config_hash" false ?;
  spec ≔ build_spec_to_string (cb_build_spec r) artifact target system revision config_hash ?;
  Ok {| ji_requested_artifact_type := artifact; ji_build_spec := spec; ji_target := target;
        ji_system := system; ji_input_revision := revision;
        ji_input_config_hash := config_hash |}.

Definition create_build_job (r : CreateBuildJobRequest) (now : string) (d : JobDb)
    : AppResult BuildJob * JobDb :=
  match (inputs ≔ normalize_inputs r ?;
         metadata ≔ metadata_to_string (cb_cache_metadata r) "cache_metadata" ?;
         Ok (inputs, metadata)) with
  | Err e => (Err e, d)
  | Ok (inputs, metadata) =>
      match insert_row (queued_row None inputs metadata now) d with
      | None => (Err Sqlx, d)
      | Some (id, d') => (get_build_job id d', d')
      end
  end.

(** [ON CONFLICT(managed_job_id) DO UPDATE]: the inputs of a queued job are
    replaced, the metadata of a queued or running one. *)
Definition resync_row (inputs : JobInputs) (metadata now : string) (row : BuildJobRow)
    : BuildJobRow :=
  let queued := bool_decide (job_status row = "queued") in
  {| job_id := job_id row; job_managed_id := job_managed_id row;
     job_inputs := if queued then inputs else job_inputs row;
     job_status := job_status row;
     job_progress := if queued then queued_progress else job_progress row;
     job_logs := job_logs row; job_error := job_error row;
     job_rejection_code := job_rejection_code row; job_output := job_output row;
     job_cache_metadata :=
       if queued || bool_decide (job_status row = "running") then metadata
       else job_cache_metadata row;
     job_started_at := job_started_at row; job_completed_at := job_completed_at row;
     job_cancel_requested_at := job_cancel_requested_at row;
     job_created_at := job_created_at row; job_updated_at := now |}.

Definition upsert_row (managed : string) (inputs : JobInputs) (metadata now : string)
    (d : JobDb) : option JobDb :=
  match find_managed managed d with
  | Some row => Some (set_jobs (<[job_id row := resync_row inputs metadata now row]> (jobs d)) d)
  | None => snd <$> insert_row (queued_row (Some managed) inputs metadata now) d
  end.

Definition upsert_managed_build_job (managed_job_id : string) (r : CreateBuildJobRequest)
    (now : string) (d : JobDb) : AppResult BuildJob * JobDb :=
  match (managed ≔ normalize_managed_id managed_job_id "managed_job_id" ?;
         inputs ≔ normalize_inputs r ?;
         metadata ≔ metadata_to_string (cb_cache_metadata r) "cache_metadata" ?;
         Ok (managed, inputs, metadata)) with
  | Err e => (Err e, d)
  | Ok (managed, inputs, metadata) =>
      match upsert_row managed inputs metadata now d with
      | None => (Err Sqlx, d)
      | Some d' => (get_build_job_by_managed_id managed d', d')
      end
  end.
(** ** Rejection *)

Definition failed_progress (message : string) : JobProgress :=
  {| jp_percent := Some 100; jp_stage := Some "failed"; jp_message := Some message |}.

Definition reject_row (error code now : string) (row : BuildJobRow) : BuildJobRow := {|
  job_id := job_id row; job_managed_id := job_managed_id row; job_inputs := job_inputs row;
  job_status := "failed"; job_progress := failed_progress "Rejected by Nest validation";
  job_logs := job_logs row; job_error := error; job_rejection_code := code;
  job_output := job_output row; job_cache_metadata := job_cache_metadata row;
  job_started_at := job_started_at row;
  job_completed_at := Some (default now (job_completed_at row));
  job_cancel_requested_at := job_cancel_requested_at row;
  job_created_at := job_created_at row; job_updated_at := now |}.

Definition rejected_row (managed : string) (inputs : JobInputs) (error code now : string)
    (id : Z) : BuildJobRow := {|
  job_id := id; job_managed_id := Some managed; job_inputs := inputs; job_status := "failed";
  job_progress := failed_progress "Rejected by Nest validation"; job_logs := "";
  job_error := error; job_rejection_code := code; job_output := no_output;
  job_cache_metadata := "{}"; job_started_at := None; job_completed_at := Some now;
  job_cancel_requested_at := None; job_created_at := now; job_updated_at := now |}.

Definition record_rejected_managed_build_job (managed_job_id requested_artifact_type : string)
    (target system : option string) (input_revision input_config_hash reason now : string)
    (d : JobDb) : AppResult unit * JobDb :=
  match normalize_managed_id managed_job_id "managed_job_id" with
  | Err e => (Err e, d)
  | Ok managed =>
      let error := truncate_chars ("Nest rejected this build job: " +:+ reason) 2048 in
      let code := classify_validation_rejection reason in
      let inputs := {|
        ji_requested_artifact_type := sanitize_report_field requested_artifact_type 64 "unknown";
        ji_build_spec := "{}";
        ji_target := sanitize_report_field (default "" target) 64 "";
        ji_system := sanitize_report_field (default "" system) 64 "x86_64-linux";
        ji_input_revision := sanitize_report_field input_revision 256 "";
        ji_input_config_hash := sanitize_report_field input_config_hash 64 "" |} in
      match find_managed managed d with
      | Some row =>
          if bool_decide (job_status row = "queued")
          then (Ok tt, set_jobs (<[job_id row := reject_row error code now row]> (jobs d)) d)
          else (Ok tt, d)
      | None =>
          match insert_row (rejected_row managed inputs error code now) d with
          | Some (_, d') => (Ok tt, d')
          | None => (Err Sqlx, d)
          end
      end
  end.

(** ** Cancellation *)

(** The [SET] clause both cancellations share. *)
Definition cancel_row (now : string) (row : BuildJobRow) : BuildJobRow :=
  let queued := bool_decide (job_status row = "queued") in
  {| job_id := job_id row; job_managed_id := job_managed_id row; job_inputs := job_inputs row;
     job_status := if queued then "cancelled" else job_status row;
     job_progress := if queued
       then {| jp_percent := Some 100; jp_stage := Some "cancelled";
               jp_message := Some "Build cancelled before start" |}
       else {| jp_percent := Some (default 5 (jp_percent (job_progress row)));
               jp_stage := Some "cancelling";
               jp_message := Some "Cancellation requested; waiting for Nest to stop the build" |};
     job_logs := job_logs row; job_error := job_error row;
     job_rejection_code := job_rejection_code row; job_output := job_output row;
     job_cache_metadata := job_cache_metadata row; job_started_at := job_started_at row;
     job_completed_at := if queued then Some now else job_completed_at row;
     job_cancel_requested_at := if bool_decide (job_status row = "running") then Some now
                                else job_cancel_requested_at row;
     job_created_at := job_created_at row; job_updated_at := now |}.

Definition update_where (P : BuildJobRow → bool) (f : BuildJobRow → BuildJobRow) (d : JobDb)
    : Z * JobDb :=
  (Z.of_nat (size (filter (λ kv, P kv.2 = true) (jobs d))),
   set_jobs ((λ row, if P row then f row else row) <$> jobs d) d).

Definition active_status (status : string) : bool :=
  bool_decide (status ∈ ["queued"; "running"]).

(** One statement of [cancel_absent_managed_build_jobs], and its loop over the
    jobs it listed before. *)
Definition cancel_statement (id : Z) (now : string) (d : JobDb) : JobDb :=
  (update_where (λ row, job_id row =? id) (cancel_row now) d).2.

Definition absent_jobs (retained : list string) (d : JobDb) : list Z :=
  job_id <$> List.filter (λ row,
    match job_managed_id row with
    | Some managed => negb (bool_decide (managed ∈ retained)) && active_status (job_status row)
    | None => false
    end) (merge_sort job_ge (rows d)).

Definition cancel_absent_managed_build_jobs (retained : list string) (now : string) (d : JobDb)
    : AppResult Z * JobDb :=
  match list_build_jobs d with
  | Err e => (Err e, d)
  | Ok _ =>
      let ids := absent_jobs retained d in
      (Ok (Z.of_nat (length ids)), foldl (λ d id, cancel_statement id now d) d ids)
  end.

Fixpoint cancel_managed_build_jobs (ids : list string) (now : string) (cancelled : Z) (d : JobDb)
    : AppResult Z * JobDb :=
  match ids with
  | [] => (Ok cancelled, d)
  | id :: ids =>
      match normalize_managed_id id "managed_job_id" with
      | Err e => (Err e, d)
      | Ok managed =>
          let '(affected, d') :=
            update_where (λ row, has_managed_id managed row && active_status (job_status row))
              (cancel_row now) d in
          cancel_managed_build_jobs ids now (cancelled + affected) d'
      end
  end.

Definition build_job_cancel_requested (id : Z) (d : JobDb) : bool :=
  match jobs d !! id with
  | Some row => bool_decide (job_status row = "cancelled")
                || match job_cancel_requested_at row with
                   | Some value => negb (is_empty value)
                   | None => false
                   end
  | None => true
  end.

(** ** The worker *)

Definition fail_row (message error now : string) (row : BuildJobRow) : BuildJobRow := {|
  job_id := job_id row; job_managed_id := job_managed_id row; job_inputs := job_inputs row;
  job_status := "failed"; job_progress := failed_progress message;
  job_logs := job_logs row; job_error := error; job_rejection_code := job_rejection_code row;
  job_output := job_output row; job_cache_metadata := job_cache_metadata row;
  job_started_at := job_started_at row; job_completed_at := Some now;
  job_cancel_requested_at := job_cancel_requested_at row;
  job_created_at := job_created_at row; job_updated_at := now |}.

Definition is_running (row : BuildJobRow) : bool := bool_decide (job_status row = "running").

Definition recover_running_build_jobs (reason now : string) (d : JobDb) : Z * JobDb :=
  update_where is_running
    (fail_row "Build interrupted by Nest restart recovery" (bounded_error_text reason) now) d.

Definition fail_running_build_job_after_worker_error (id : Z) (reason now : string) (d : JobDb)
    : bool * JobDb :=
  let '(affected, d') :=
    update_where (λ row, (job_id row =? id) && is_running row)
      (fail_row "Build stopped safely after an internal worker error"
         (bounded_error_text reason) now) d in
  (0 <? affected, d').

(** [ORDER BY created_at ASC, id ASC]. *)
Definition job_le (x y : BuildJobRow) : Prop :=
  String.le (job_created_at x) (job_created_at y) ∧
  (job_created_at x = job_created_at y → job_id x ≤ job_id y).
#[global] Instance job_le_dec : RelDecision job_le.
Proof. unfold job_le. intros x y. apply _. Defined.

Definition claim_row (now : string) (row : BuildJobRow) : BuildJobRow := {|
  job_id := job_id row; job_managed_id := job_managed_id row; job_inputs := job_inputs row;
  job_status := "running";
  job_progress := {| jp_percent := Some 5; jp_stage := Some "claimed";
                     jp_message := Some "Build claimed by Nest" |};
  job_logs := ""; job_error := ""; job_rejection_code := job_rejection_code row;
  job_output := job_output row; job_cache_metadata := job_cache_metadata row;
  job_started_at := Some (default now (job_started_at row));
  job_completed_at := job_completed_at row; job_cancel_requested_at := None;
  job_created_at := job_created_at row; job_updated_at := now |}.

Definition is_queued (row : BuildJobRow) : bool := bool_decide (job_status row = "queued").

(** The [UPDATE .. RETURNING]: the row it returns is the updated one. *)
Definition claim_statement (now : string) (d : JobDb) : option BuildJobRow * JobDb :=
  match merge_sort job_le (List.filter is_queued (rows d)) with
  | [] => (None, d)
  | row :: _ =>
      let row' := claim_row now row in
      (Some row', set_jobs (<[job_id row := row']> (jobs d)) d)
  end.

Definition claim_next_build_job (now : string) (d : JobDb) : AppResult (option BuildJob) * JobDb :=
  match claim_statement now d with
  | (None, d') => (Ok None, d')
  | (Some row, d') => (job ≔ try_from_row row ?; Ok (Some job), d')
  end.

Definition with_logs (logs now : string) (row : BuildJobRow) : BuildJobRow := {|
  job_id := job_id row; job_managed_id := job_managed_id row; job_inputs := job_inputs row;
  job_status := job_status row; job_progress := job_progress row; job_logs := logs;
  job_error := job_error row; job_rejection_code := job_rejection_code row;
  job_output := job_output row; job_cache_metadata := job_cache_metadata row;
  job_started_at := job_started_at row; job_completed_at := job_completed_at row;
  job_cancel_requested_at := job_cancel_requested_at row;
  job_created_at := job_created_at row; job_updated_at := now |}.

Definition update_build_job_logs (id : Z) (logs now : string) (d : JobDb) : JobDb :=
  (update_where (λ row, (job_id row =? id) && is_running row)
     (with_logs (bounded_log_text logs) now) d).2.

Definition with_progress (p : JobProgress) (now : string) (row : BuildJobRow) : BuildJobRow := {|
  job_id := job_id row; job_managed_id := job_managed_id row; job_inputs := job_inputs row;
  job_status := job_status row; job_progress := p; job_logs := job_logs row;
  job_error := job_error row; job_rejection_code := job_rejection_code row;
  job_output := job_output row; job_cache_metadata := job_cache_metadata row;
  job_started_at := job_started_at row; job_completed_at := job_completed_at row;
  job_cancel_requested_at := job_cancel_requested_at row;
  job_created_at := job_created_at row; job_updated_at := now |}.

Definition update_build_job_progress (id : Z) (percent : option Z) (stage message now : string)
    (d : JobDb) : JobDb :=
  (update_where (λ row, (job_id row =? id) && is_running row)
     (with_progress {| jp_percent := normalize_build_progress_percent percent "running";
                       jp_stage := Some (bounded_progress_stage stage);
                       jp_message := Some (bounded_progress_message message) |} now) d).2.

(** ** Finishing *)

Record Finish := {
  fin_status : string;
  fin_logs : string;
  fin_error : string;
  fin_output : JobOutput;
  fin_cache_metadata : string;
  fin_cancelled_metadata : string;
  fin_stage : string;
  fin_message : string;
}.

(** [CASE WHEN cancel_requested_at IS NOT NULL AND ? = 1]: a requested
    cancellation wins over every other outcome. *)
Definition finish_row (f : Finish) (now : string) (row : BuildJobRow) : BuildJobRow :=
  let override := bool_decide (is_Some (job_cancel_requested_at row))
                  && negb (bool_decide (fin_status f = "cancelled")) in
  {| job_id := job_id row; job_managed_id := job_managed_id row; job_inputs := job_inputs row;
     job_status := if override then "cancelled" else fin_status f;
     job_progress := {| jp_percent := Some 100;
       jp_stage := Some (if override then "cancelled" else fin_stage f);
       jp_message := Some (if override then "Build cancelled by Tiaris" else fin_message f) |};
     job_logs := fin_logs f;
     job_error := if override then "build cancelled by Tiaris" else fin_error f;
     job_rejection_code := job_rejection_code row;
     job_output := if override then no_output else fin_output f;
     job_cache_metadata := if override then fin_cancelled_metadata f else fin_cache_metadata f;
     job_started_at := job_started_at row; job_completed_at := Some now;
     job_cancel_requested_at := job_cancel_requested_at row;
     job_created_at := job_created_at row; job_updated_at := now |}.

Definition not_remediated (d : JobDb) (row : BuildJobRow) : bool :=
  negb (bool_decide (job_id row ∈ remediated d)).

Definition finish_statement (id : Z) (f : Finish) (now : string) (d : JobDb) : JobDb :=
  (update_where (λ row, (job_id row =? id) && not_remediated d row) (finish_row f now) d).2.

Definition validate_finish (status logs error output_path output_sha256 : string)
    (output_size_bytes : Z) (exit_code : option Z) (cache_metadata : option Value)
    : AppResult Finish :=
  _ ≔ validate_terminal_build_status status ?;
  path ≔ normalize_optional_absolute_path output_path "output_path" ?;
  sha256 ≔ normalize_sha256 output_sha256 "output_sha256" true ?;
  _ ≔ validate_non_negative_i64 output_size_bytes "output_size_bytes" ?;
  metadata ≔ metadata_to_string cache_metadata "cache_metadata" ?;
  cancelled ≔ metadata_to_string (Some (Object [("cancelled", Bool true)])) "cache_metadata" ?;
  Ok {| fin_status := status; fin_logs := bounded_log_text logs;
        fin_error := bounded_error_text error;
        fin_output := {| jo_path := path; jo_sha256 := sha256;
                         jo_size_bytes := output_size_bytes; jo_exit_code := exit_code |};
        fin_cache_metadata := metadata; fin_cancelled_metadata := cancelled;
        fin_stage := terminal_build_progress_stage status;
        fin_message := terminal_build_progress_message status cache_metadata |}.

Definition finish_build_job (id : Z) (status logs error output_path output_sha256 : string)
    (output_size_bytes : Z) (exit_code : option Z) (cache_metadata : option Value)
    (now : string) (d : JobDb) : AppResult BuildJob * JobDb :=
  match validate_finish status logs error output_path output_sha256 output_size_bytes
          exit_code cache_metadata with
  | Err e => (Err e, d)
  | Ok f => let d' := finish_statement id f now d in (get_build_job id d', d')
  end.

(** ** Reports from elsewhere *)

Record Report := {
  rep_status : string;
  rep_progress : JobProgress;
  rep_logs : string;
  rep_error : string;
  rep_path : string;
  rep_sha256 : string;
  rep_size_bytes : Z;
  rep_started_at : option string;
  rep_completed_at : option string;
  rep_cache_metadata : string;
}.

Definition validate_report (status : string) (percent : option Z) (stage message : option string)
    (logs error output_path output_sha256 : string) (output_size_bytes : Z)
    (started_at completed_at : option string) (cache_metadata : option Value)
    : AppResult Report :=
  _ ≔ validate_build_status status ?;
  path ≔ normalize_optional_absolute_path output_path "output_path" ?;
  sha256 ≔ normalize_sha256 output_sha256 "output_sha256" true ?;
  _ ≔ validate_non_negative_i64 output_size_bytes "output_size_bytes" ?;
  _ ≔ validate_optional_timestamp started_at "started_at" ?;
  _ ≔ validate_optional_timestamp completed_at "completed_at" ?;
  metadata ≔ metadata_to_string cache_metadata "cache_metadata" ?;
  Ok {| rep_status := status;
        rep_progress := {| jp_percent := normalize_build_progress_percent percent status;
                           jp_stage := bounded_progress_stage <$> stage;
                           jp_message := bounded_progress_message <$> message |};
        rep_logs := bounded_log_text logs; rep_error := bounded_error_text error;
        rep_path := path; rep_sha256 := sha256; rep_size_bytes := output_size_bytes;
        rep_started_at := started_at; rep_completed_at := completed_at;
        rep_cache_metadata := metadata |}.

Definition report_row (r : Report) (now : string) (row : BuildJobRow) : BuildJobRow := {|
  job_id := job_id row; job_managed_id := job_managed_id row; job_inputs := job_inputs row;
  job_status := rep_status r; job_progress := rep_progress r; job_logs := rep_logs r;
  job_error := rep_error r; job_rejection_code := job_rejection_code row;
  job_output := {| jo_path := rep_path r; jo_sha256 := rep_sha256 r;
                   jo_size_bytes := rep_size_bytes r;
                   jo_exit_code := jo_exit_code (job_output row) |};
  job_cache_metadata := rep_cache_metadata r; job_started_at := rep_started_at r;
  job_completed_at := rep_completed_at r;
  job_cancel_requested_at := job_cancel_requested_at row;
  job_created_at := job_created_at row; job_updated_at := now |}.

Definition update_build_job_report (managed_job_id status : string) (percent : option Z)
    (stage message : option string) (logs error output_path output_sha256 : string)
    (output_size_bytes : Z) (started_at completed_at : option string)
    (cache_metadata : option Value) (now : string) (d : JobDb) : AppResult BuildJob * JobDb :=
  match (managed ≔ normalize_managed_id managed_job_id "managed_job_id" ?;
         report ≔ validate_report status percent stage message logs error output_path
                    output_sha256 output_size_bytes started_at completed_at cache_metadata ?;
         Ok (managed, report)) with
  | Err e => (Err e, d)
  | Ok (managed, report) =>
      let d' := (update_where (λ row, has_managed_id managed row && not_remediated d row)
                   (report_row report now) d).2 in
      (get_build_job_by_managed_id managed d', d')
  end.

(** ** The report page *)

(** [CASE]: active, rejected, finished. *)
Definition report_group (row : BuildJobRow) : nat :=
  if negb (terminal_status (job_status row)) then 0%nat
  else if negb (is_empty (job_rejection_code row)) then 1%nat else 2%nat.

(** SQLite's [LENGTH] of a text counts characters. *)
Definition sql_length (s : string) : Z := Z.of_nat (length (chars s)).

Definition estimated_bytes (row : BuildJobRow) : Z :=
  let i := job_inputs row in
  2048 + 4 * sum_Z [
    sql_length (default "" (job_managed_id row)); sql_length (ji_requested_artifact_type i);
    sql_length (ji_build_spec i); sql_length (ji_target i); sql_length (ji_system i);
    sql_length (ji_input_revision i); sql_length (ji_input_config_hash i);
    sql_length (job_status row); sql_length (default "" (jp_stage (job_progress row)));
    sql_length (default "" (jp_message (job_progress row))); sql_length (job_logs row);
    sql_length (job_error row); sql_length (job_rejection_code row);
    sql_length (jo_path (job_output row)); sql_length (jo_sha256 (job_output row));
    sql_length (job_cache_metadata row); sql_length (default "" (job_started_at row));
    sql_length (default "" (job_completed_at row));
    sql_length (default "" (job_cancel_requested_at row));
    sql_length (job_created_at row); sql_length (job_updated_at row) ].

(** [ORDER BY wrap_group, id DESC]: after the cursor first, newest first. *)
Definition wrap_group (cursor : option Z) (row : BuildJobRow) : Z :=
  match cursor with
  | None => 0
  | Some c => if job_id row <? c then 0 else 1
  end.
Definition rotation_le (cursor : option Z) (x y : BuildJobRow) : Prop :=
  wrap_group cursor x < wrap_group cursor y ∨
  (wrap_group cursor x = wrap_group cursor y ∧ job_id y ≤ job_id x).
#[global] Instance rotation_le_dec cursor : RelDecision (rotation_le cursor).
Proof. unfold rotation_le. intros x y. apply _. Defined.

Definition group_rotation (cursor : option Z) (g : nat) (d : JobDb) : list BuildJobRow :=
  merge_sort (rotation_le cursor)
    (List.filter (λ row, bool_decide (is_Some (job_managed_id row))
                         && Nat.eqb (report_group row) g) (rows d)).

(** [CASE (?4 % 4)]: the groups in the order of their priority. *)
Definition group_order (round : Z) : list nat :=
  if round mod 4 =? 1 then [2; 1; 0]%nat
  else if round mod 4 =? 2 then [1; 0; 2]%nat
  else [0; 1; 2]%nat.

(** [ORDER BY group_position, group_priority]: one job of each group in turn. *)
Fixpoint interleave (fuel : nat) (groups : list (list BuildJobRow)) : list BuildJobRow :=
  match fuel with
  | O => []
  | S fuel => omap head groups ++ interleave fuel (tail <$> groups)
  end.

Definition group_cursor (active rejection terminal : option Z) (g : nat) : option Z :=
  match g with O => active | S O => rejection | _ => terminal end.

Definition report_order (active rejection terminal : option Z) (round : Z) (d : JobDb)
    : list BuildJobRow :=
  interleave (size (jobs d))
    ((λ g, group_rotation (group_cursor active rejection terminal g) g d) <$> group_order round).

(** The jobs within both bounds by their running position and total. *)
Definition within_bounds (position total max_items budget : Z) (l : list BuildJobRow)
    : list BuildJobRow := within_page estimated_bytes position total max_items budget l.

Definition list_build_jobs_report_page (active rejection terminal : option Z) (round : Z)
    (max_items estimated_byte_budget : Z) (d : JobDb) : AppResult (list BuildJob) :=
  let max_items := Z.min (Z.max max_items 1) i64_max in
  let budget := Z.min (Z.max estimated_byte_budget 1) i64_max in
  build_job_rows_to_models
    (within_bounds 1 0 max_items budget (report_order active rejection terminal round d)).
End Jobs.
