(* ===== verification/BuildJobsProofs.v ===== *)
(** * The build job queue: theorems

    The life of a job as a transition system over the table and the workers
    that hold jobs, its invariant, and the behaviour of the operations. *)

From stdpp Require Import sorting relations base gmap list strings.
From Stdlib Require Import Ascii ZArith Lia.
From S2P Require Import Prelude RustStr Json DbText BuildJobs DbTextProofs.

#[local] Open Scope Z_scope.
#[local] Open Scope nest_scope.

Create HintDb jobs.

(** ** Invariant and evolution of the table *)

Record jobs_ok (d : JobDb) : Prop := {
  jobs_ids : ∀ id row, jobs d !! id = Some row → job_id row = id ∧ id ≤ last_id d;
  jobs_status : ∀ id row, jobs d !! id = Some row → job_status row ∈ ALLOWED_BUILD_STATES;
  jobs_unique : ∀ id1 id2 r1 r2 m,
    jobs d !! id1 = Some r1 → jobs d !! id2 = Some r2 →
    job_managed_id r1 = Some m → job_managed_id r2 = Some m → id1 = id2;
}.

(** A queued job may become anything, a running one never queued again, a
    finished one stays as it ended. *)
Definition allowed (s s' : string) : Prop :=
  s' = s ∨ s = "queued" ∨ (s = "running" ∧ s' ≠ "queued").

Record row_evolves (r r' : BuildJobRow) : Prop := {
  row_id : job_id r' = job_id r;
  row_managed : job_managed_id r' = job_managed_id r;
  row_created : job_created_at r' = job_created_at r;
  row_status : allowed (job_status r) (job_status r');
  row_inputs : job_status r ≠ "queued" → job_inputs r' = job_inputs r;
  row_final : terminal_status (job_status r) = true →
    job_status r' = job_status r ∧ job_output r' = job_output r ∧
    job_error r' = job_error r ∧ job_logs r' = job_logs r ∧
    job_cache_metadata r' = job_cache_metadata r ∧
    job_completed_at r' = job_completed_at r ∧
    job_rejection_code r' = job_rejection_code r;
}.

Definition jobs_evolve (d d' : JobDb) : Prop :=
  ∀ id row, jobs d !! id = Some row →
    ∃ row', jobs d' !! id = Some row' ∧ row_evolves row row'.

Lemma terminal_status_cases s :
  terminal_status s = true ↔ s = "succeeded" ∨ s = "failed" ∨ s = "cancelled".
Proof. unfold terminal_status. rewrite bool_decide_eq_true. set_solver. Qed.

#[global] Instance row_evolves_preorder : PreOrder row_evolves.
Proof.
  split.
  - intros r. by split; try left.
  - intros r1 r2 r3 [] []. split; try congruence.
    + unfold allowed in *. intuition congruence.
    + intros Hq. rewrite row_inputs1; [by apply row_inputs0|].
      unfold allowed in row_status0. intuition congruence.
    + intros Ht. destruct (row_final0 Ht) as (Hs & ?&?&?&?&?&?).
      rewrite <- Hs in Ht. destruct (row_final1 Ht) as (?&?&?&?&?&?&?).
      split_and!; congruence.
Qed.

#[global] Instance jobs_evolve_preorder : PreOrder jobs_evolve.
Proof.
  split.
  - intros d id row Hr. exists row. by split.
  - intros d1 d2 d3 H12 H23 id row Hr. destruct (H12 id row Hr) as (r2 & Hr2 & He2).
    destruct (H23 id r2 Hr2) as (r3 & Hr3 & He3). exists r3. split; [done|by etrans].
Qed.

(** ** Statements *)

Lemma update_where_lookup P f d id :
  jobs (update_where P f d).2 !! id = (λ row, if P row then f row else row) <$> jobs d !! id.
Proof. unfold update_where. simpl. by rewrite lookup_fmap. Qed.

Lemma update_where_ok P f d :
  jobs_ok d → (∀ id row, jobs d !! id = Some row → P row = true →
                 row_evolves row (f row) ∧ job_status (f row) ∈ ALLOWED_BUILD_STATES) →
  jobs_ok (update_where P f d).2 ∧ jobs_evolve d (update_where P f d).2.
Proof.
  intros Hok Hf.
  assert (∀ id row', jobs (update_where P f d).2 !! id = Some row' →
    ∃ row, jobs d !! id = Some row ∧ row_evolves row row' ∧
           job_status row' ∈ ALLOWED_BUILD_STATES) as Hback.
  { intros id row'. rewrite update_where_lookup. intros (row & Hr & ->)%fmap_Some_1.
    exists row. split; [done|]. destruct (P row) eqn:HP; [eauto|].
    split; [reflexivity|by eapply jobs_status]. }
  split.
  - split.
    + intros id row' (row & Hr & He & _)%Hback. rewrite (row_id _ _ He).
      by apply (jobs_ids _ Hok).
    + by intros id row' (row & _ & _ & ?)%Hback.
    + intros id1 id2 r1 r2 m (x1 & Hx1 & He1 & _)%Hback (x2 & Hx2 & He2 & _)%Hback.
      rewrite (row_managed _ _ He1), (row_managed _ _ He2). by apply (jobs_unique _ Hok).
  - intros id row Hr. rewrite update_where_lookup, Hr. simpl. eexists. split; [done|].
    destruct (P row) eqn:HP; [by eapply Hf|reflexivity].
Qed.

(** Replacing one row. *)
Lemma insert_existing_ok d row row' :
  jobs_ok d → jobs d !! job_id row = Some row → row_evolves row row' →
  job_status row' ∈ ALLOWED_BUILD_STATES →
  let d' := set_jobs (<[job_id row := row']> (jobs d)) d in jobs_ok d' ∧ jobs_evolve d d'.
Proof.
  intros Hok Hr He Hst d'.
  assert (∀ id r', jobs d' !! id = Some r' → ∃ r, jobs d !! id = Some r ∧ row_evolves r r' ∧
            job_status r' ∈ ALLOWED_BUILD_STATES) as Hback.
  { intros id r'. simpl. rewrite lookup_insert. case_decide as Hid.
    - intros [= <-]. subst id. eauto.
    - intros H. exists r'. split; [done|]. split; [reflexivity|by eapply jobs_status]. }
  split.
  - split.
    + intros id r' (r & Hr' & He' & _)%Hback. rewrite (row_id _ _ He').
      by apply (jobs_ids _ Hok).
    + by intros id r' (r & _ & _ & ?)%Hback.
    + intros id1 id2 r1 r2 m (x1 & Hx1 & He1 & _)%Hback (x2 & Hx2 & He2 & _)%Hback.
      rewrite (row_managed _ _ He1), (row_managed _ _ He2). by apply (jobs_unique _ Hok).
  - intros id r Hid. simpl. rewrite lookup_insert. case_decide as Heq.
    + subst id. simplify_eq. eauto.
    + exists r. by split.
Qed.

Lemma insert_row_ok mk d id d' :
  jobs_ok d → insert_row mk d = Some (id, d') →
  (∀ i, job_id (mk i) = i ∧ job_status (mk i) ∈ ALLOWED_BUILD_STATES) →
  (∀ m row i, job_managed_id (mk i) = Some m → jobs d !! job_id row = Some row →
     job_managed_id row ≠ Some m) →
  jobs_ok d' ∧ jobs_evolve d d' ∧ jobs d' !! id = Some (mk id) ∧ jobs d !! id = None.
Proof.
  intros Hok Hins Hmk Hfresh. unfold insert_row in Hins.
  destruct (_ <? _); simplify_eq/=. set (id := last_id d + 1).
  assert (jobs d !! id = None) as Hnew.
  { apply eq_None_not_Some. intros [row Hr]. apply (jobs_ids _ Hok) in Hr as [_ ?]. lia. }
  assert (∀ i row, jobs d !! i = Some row → jobs d !! job_id row = Some row) as Hself.
  { intros i row Hi. by destruct (jobs_ids _ Hok _ _ Hi) as [-> _]. }
  split_and!; [split| |simpl; by rewrite lookup_insert_eq|done]; simpl.
  - intros i row. rewrite lookup_insert. case_decide as Hi; [|].
    + intros [= <-]. subst i. split; [by destruct (Hmk id)|done].
    + intros Hr. apply (jobs_ids _ Hok) in Hr as [??]. split; [done|lia].
  - intros i row. rewrite lookup_insert. case_decide; [intros [= <-]; apply Hmk|].
    by apply jobs_status.
  - intros i1 i2 r1 r2 m. rewrite !lookup_insert. repeat case_decide; intros; simplify_eq; eauto.
    + exfalso. eapply Hfresh; eauto.
    + exfalso. eapply Hfresh; eauto.
    + by eapply jobs_unique.
  - intros i row Hr. simpl. rewrite lookup_insert_ne by congruence. exists row. by split.
Qed.

Lemma find_managed_Some d m row :
  jobs_ok d → find_managed m d = Some row →
  jobs d !! job_id row = Some row ∧ job_managed_id row = Some m.
Proof.
  intros Hok Hf. apply List.find_some in Hf as [Hin Hm].
  unfold has_managed_id in Hm. bool_prop. split; [|done].
  apply list_elem_of_In in Hin. unfold rows in Hin.
  apply list_elem_of_fmap in Hin as ([id r] & -> & Hin).
  apply elem_of_map_to_list in Hin. simpl. by destruct (jobs_ids _ Hok _ _ Hin) as [-> _].
Qed.

Lemma find_managed_None d m id row :
  find_managed m d = None → jobs d !! id = Some row → job_managed_id row ≠ Some m.
Proof.
  intros Hf Hr Hm. assert (has_managed_id m row = false) as Hn.
  - apply (List.find_none _ _ Hf), list_elem_of_In. unfold rows.
    apply (list_elem_of_fmap_2' _ _ (id, row)); [by apply elem_of_map_to_list|done].
  - unfold has_managed_id in Hn. by bool_prop.
Qed.

Lemma find_managed_intro d m id row :
  jobs_ok d → jobs d !! id = Some row → job_managed_id row = Some m →
  find_managed m d = Some row.
Proof.
  intros Hok Hr Hm. destruct (find_managed m d) as [row'|] eqn:Hf.
  - destruct (find_managed_Some _ _ _ Hok Hf) as [Hr' Hm'].
    assert (job_id row' = id) as <- by by eapply jobs_unique. congruence.
  - exfalso. by eapply find_managed_None.
Qed.

(** ** Operations *)

Section Ops.
Context {serde : Serde} {screening : Screening}.

Ltac in_states := unfold ALLOWED_BUILD_STATES; set_solver.

(** A change that may only happen to a job that is not finished. *)
Lemma row_evolves_open (r r' : BuildJobRow) :
  job_id r' = job_id r → job_managed_id r' = job_managed_id r →
  job_created_at r' = job_created_at r → job_inputs r' = job_inputs r →
  (job_status r = "queued" ∨ job_status r = "running" ∧ job_status r' ≠ "queued") →
  row_evolves r r'.
Proof.
  intros Hid Hm Hc Hi Hs. split; auto.
  - unfold allowed. tauto.
  - rewrite terminal_status_cases. intuition congruence.
Qed.

Lemma resync_row_evolves inputs metadata now row :
  row_evolves row (resync_row inputs metadata now row).
Proof.
  split; simpl; auto; [by left|..].
  - intros Hq. by rewrite bool_decide_false.
  - rewrite terminal_status_cases. intros Ht. split_and!; auto.
    rewrite !bool_decide_false by intuition congruence. done.
Qed.

Lemma cancel_row_evolves now row :
  job_status row ∈ ALLOWED_BUILD_STATES →
  row_evolves row (cancel_row now row) ∧
  job_status (cancel_row now row) ∈ ALLOWED_BUILD_STATES.
Proof.
  intros Hst. unfold cancel_row. case_bool_decide as Hq.
  - split; [|simpl; in_states]. apply row_evolves_open; auto.
  - split; [|done]. split; simpl; auto; [by left|]. intros _. split_and!; auto.
Qed.

Lemma cancel_statement_ok id now d :
  jobs_ok d → jobs_ok (cancel_statement id now d) ∧ jobs_evolve d (cancel_statement id now d).
Proof.
  intros Hok. apply update_where_ok; [done|]. intros i row Hr _.
  by eapply cancel_row_evolves, jobs_status.
Qed.

Lemma cancel_managed_ok ids now n d :
  jobs_ok d → jobs_ok (cancel_managed_build_jobs ids now n d).2 ∧
  jobs_evolve d (cancel_managed_build_jobs ids now n d).2.
Proof.
  revert n d. induction ids as [|id ids IH]; intros n d Hok; simpl; [by split|].
  destruct (normalize_managed_id _ _) as [managed|]; simpl; [|by split].
  destruct (update_where_ok (λ row, has_managed_id managed row && active_status (job_status row))
    (cancel_row now) d Hok) as [Hok' Hev].
  { intros i row Hr _. by eapply cancel_row_evolves, jobs_status. }
  destruct (IH (n + Z.of_nat (size (filter (λ kv, has_managed_id managed kv.2
    && active_status (job_status kv.2) = true) (jobs d)))) _ Hok') as [? ?].
  split; [done|by etrans].
Qed.

Lemma create_build_job_ok r now d :
  jobs_ok d → jobs_ok (create_build_job r now d).2 ∧ jobs_evolve d (create_build_job r now d).2.
Proof.
  intros Hok. unfold create_build_job. destruct (rbind _ _) as [[inputs metadata]|]; [|by split].
  destruct (insert_row _ d) as [[id d']|] eqn:Hins; [|by split].
  destruct (insert_row_ok _ _ _ _ Hok Hins) as (?&?&_); [by intros i; split; [|in_states]|done|].
  done.
Qed.

Lemma upsert_ok managed r now d :
  jobs_ok d → jobs_ok (upsert_managed_build_job managed r now d).2 ∧
  jobs_evolve d (upsert_managed_build_job managed r now d).2.
Proof.
  intros Hok. unfold upsert_managed_build_job.
  destruct (rbind _ _) as [[[m inputs] metadata]|]; [|by split].
  unfold upsert_row. destruct (find_managed m d) as [row|] eqn:Hfind.
  - apply find_managed_Some in Hfind as [Hr _]; [|done].
    apply insert_existing_ok; [done|done|apply resync_row_evolves|by simpl; eapply jobs_status].
  - destruct (insert_row _ d) as [[id d']|] eqn:Hins; simpl; [|by split].
    destruct (insert_row_ok _ _ _ _ Hok Hins) as (?&?&_);
      [by intros i; split; [|in_states]| |done].
    intros m' row i [= <-] Hr. by eapply find_managed_None.
Qed.

Lemma record_rejected_ok managed artifact target system revision hash reason now d :
  jobs_ok d →
  let d' := (record_rejected_managed_build_job managed artifact target system revision hash
               reason now d).2 in jobs_ok d' ∧ jobs_evolve d d'.
Proof.
  intros Hok. unfold record_rejected_managed_build_job. simpl.
  destruct (normalize_managed_id _ _) as [m|]; [|by split].
  destruct (find_managed m d) as [row|] eqn:Hfind.
  - apply find_managed_Some in Hfind as [Hr _]; [|done]. case_bool_decide as Hq; [|by split].
    apply insert_existing_ok; [done|done|apply row_evolves_open; auto|simpl; in_states].
  - destruct (insert_row _ d) as [[id d']|] eqn:Hins; simpl; [|by split].
    destruct (insert_row_ok _ _ _ _ Hok Hins) as (?&?&_);
      [by intros i; split; [|in_states]| |done].
    intros m' row i [= <-] Hr. by eapply find_managed_None.
Qed.

(** Statements guarded by [status = 'running']. *)
Lemma running_update_ok P f d :
  jobs_ok d → (∀ row, P row = true → is_running row = true) →
  (∀ row, job_id (f row) = job_id row ∧ job_managed_id (f row) = job_managed_id row ∧
          job_created_at (f row) = job_created_at row ∧ job_inputs (f row) = job_inputs row ∧
          (job_status (f row) = job_status row ∨ terminal_status (job_status (f row)) = true)) →
  jobs_ok (update_where P f d).2 ∧ jobs_evolve d (update_where P f d).2.
Proof.
  intros Hok HP Hf. apply update_where_ok; [done|]. intros id row Hr Hrow.
  apply HP in Hrow. unfold is_running in Hrow. bool_prop.
  destruct (Hf row) as (?&?&?&?&Hs). rewrite terminal_status_cases in Hs. split.
  - apply row_evolves_open; auto. right. split; [done|]. intuition congruence.
  - destruct Hs as [->|Hs]; [by eapply jobs_status|].
    unfold ALLOWED_BUILD_STATES. destruct_or! Hs; rewrite Hs; set_solver.
Qed.
(** ** Claims *)

#[local] Instance job_le_total : Total job_le.
Proof.
  intros x y. unfold job_le.
  destruct (decide (job_created_at x = job_created_at y)) as [->|Hne].
  - destruct (Z.le_ge_cases (job_id x) (job_id y)); [left|right]; (split; [reflexivity|auto]).
  - destruct (String.le_total (job_created_at x) (job_created_at y)); [left|right];
      (split; [done|congruence]).
Qed.

#[local] Instance job_le_trans : Transitive job_le.
Proof.
  intros x y z [H1 H1'] [H2 H2']. split; [by etrans|]. intros Heq.
  assert (job_created_at x = job_created_at y) as Hxy.
  { apply (anti_symm String.le); [done|]. by rewrite Heq. }
  etrans; [by apply H1'|]. apply H2'. congruence.
Qed.

Lemma elem_of_rows d row : jobs_ok d → row ∈ rows d ↔ jobs d !! job_id row = Some row.
Proof.
  intros Hok. unfold rows. rewrite list_elem_of_fmap. split.
  - intros ([id r] & -> & Hin%elem_of_map_to_list). simpl.
    by destruct (jobs_ids _ Hok _ _ Hin) as [-> _].
  - intros Hr. exists (job_id row, row). by rewrite elem_of_map_to_list.
Qed.

Lemma claim_statement_Some now d row' d' :
  jobs_ok d → claim_statement now d = (Some row', d') →
  ∃ row, row' = claim_row now row ∧ jobs d !! job_id row = Some row ∧
    job_status row = "queued" ∧ d' = set_jobs (<[job_id row := row']> (jobs d)) d ∧
    ∀ id r, jobs d !! id = Some r → job_status r = "queued" → job_le row r.
Proof.
  intros Hok. unfold claim_statement. set (l := List.filter is_queued (rows d)).
  assert (∀ r, r ∈ merge_sort job_le l ↔
            jobs d !! job_id r = Some r ∧ job_status r = "queued") as Hin.
  { intros r. rewrite merge_sort_Permutation. unfold l. rewrite list_elem_of_In, List.filter_In.
    rewrite <- list_elem_of_In, elem_of_rows by done. unfold is_queued.
    by rewrite bool_decide_eq_true. }
  pose proof (StronglySorted_merge_sort job_le l) as Hss.
  destruct (merge_sort job_le l) as [|row rest]; [done|]. intros [= <- <-].
  destruct (proj1 (Hin row)) as [Hr Hq]; [apply list_elem_of_here|].
  exists row. split_and!; auto. intros id r Hid Hrq.
  assert (r ∈ row :: rest) as Hmem.
  { apply Hin. by destruct (jobs_ids _ Hok _ _ Hid) as [-> _]. }
  apply elem_of_cons in Hmem as [->|Hmem]; [split; [reflexivity|lia]|].
  inversion_clear Hss as [|? ? _ Hall]. by apply (proj1 (Forall_forall _ _) Hall).
Qed.

Lemma claim_statement_None now d d' :
  jobs_ok d → claim_statement now d = (None, d') →
  d' = d ∧ ∀ id r, jobs d !! id = Some r → job_status r ≠ "queued".
Proof.
  intros Hok. unfold claim_statement. set (l := List.filter is_queued (rows d)).
  pose proof (merge_sort_Permutation job_le l) as Hp.
  destruct (merge_sort job_le l) as [|row rest]; [|done]. intros [= <-]. split; [done|].
  intros id r Hr Hq. assert (r ∈ l) as Hl.
  { unfold l. rewrite list_elem_of_In, List.filter_In, <- list_elem_of_In, elem_of_rows by done.
    unfold is_queued. rewrite bool_decide_eq_true.
    by destruct (jobs_ids _ Hok _ _ Hr) as [-> _]. }
  rewrite <- Hp in Hl. by apply not_elem_of_nil in Hl.
Qed.

(** ** Workers *)

(** The table and the jobs the workers of [src/build.rs] are executing. *)
Record Pool := {
  pool_db : JobDb;
  held : list Z;
}.

(** One statement by anyone.  A worker claims a job, reports on it and finishes
    it; a worker error fails it; a crash forgets what was held, and the restart
    recovers before any worker starts.  [cancel_statement] runs for a job that
    was listed earlier. *)
Inductive job_step : Pool → Pool → Prop :=
| step_create r now d h :
    job_step {| pool_db := d; held := h |}
             {| pool_db := (create_build_job r now d).2; held := h |}
| step_upsert managed r now d h :
    job_step {| pool_db := d; held := h |}
             {| pool_db := (upsert_managed_build_job managed r now d).2; held := h |}
| step_reject managed artifact target system revision hash reason now d h :
    job_step {| pool_db := d; held := h |}
             {| pool_db := (record_rejected_managed_build_job managed artifact target system
                              revision hash reason now d).2; held := h |}
| step_cancel id now d h :
    job_step {| pool_db := d; held := h |}
             {| pool_db := cancel_statement id now d; held := h |}
| step_cancel_managed ids now d h :
    job_step {| pool_db := d; held := h |}
             {| pool_db := (cancel_managed_build_jobs ids now 0 d).2; held := h |}
| step_claim now d h row d' :
    claim_statement now d = (Some row, d') →
    job_step {| pool_db := d; held := h |} {| pool_db := d'; held := job_id row :: h |}
| step_logs id logs now d h :
    job_step {| pool_db := d; held := h |}
             {| pool_db := update_build_job_logs id logs now d; held := h |}
| step_progress id percent stage message now d h :
    job_step {| pool_db := d; held := h |}
             {| pool_db := update_build_job_progress id percent stage message now d; held := h |}
| step_finish id f status logs error path sha size code metadata now d h :
    id ∈ h → validate_finish status logs error path sha size code metadata = Ok f →
    job_step {| pool_db := d; held := h |}
             {| pool_db := finish_statement id f now d; held := list_difference h [id] |}
| step_fail id reason now d h :
    job_step {| pool_db := d; held := h |}
             {| pool_db := (fail_running_build_job_after_worker_error id reason now d).2;
                held := list_difference h [id] |}
| step_crash d h :
    job_step {| pool_db := d; held := h |} {| pool_db := d; held := [] |}
| step_recover reason now d :
    job_step {| pool_db := d; held := [] |}
             {| pool_db := (recover_running_build_jobs reason now d).2; held := [] |}.

Record pool_ok (p : Pool) : Prop := {
  pool_jobs : jobs_ok (pool_db p);
  pool_nodup : NoDup (held p);
  pool_held : ∀ id, id ∈ held p → ∃ row,
    jobs (pool_db p) !! id = Some row ∧ job_status row = "running";
}.

Lemma validate_finish_status status logs error path sha size code metadata f :
  validate_finish status logs error path sha size code metadata = Ok f →
  fin_status f = status ∧ terminal_status status = true.
Proof.
  unfold validate_finish, validate_terminal_build_status, guard_valid.
  destruct (terminal_status status) eqn:Ht; simpl; [|done].
  repeat (match goal with |- context [rbind ?r _] => destruct r; simpl; [|done] end).
  by intros [= <-].
Qed.

Lemma finish_row_status f now row :
  terminal_status (fin_status f) = true → terminal_status (job_status (finish_row f now row)) = true.
Proof. intros Ht. unfold finish_row. simpl. by destruct (_ && _). Qed.

(** Statements that leave running jobs running. *)
Definition keeps_running (d d' : JobDb) : Prop :=
  ∀ id row, jobs d !! id = Some row → job_status row = "running" →
    ∃ row', jobs d' !! id = Some row' ∧ job_status row' = "running".

#[local] Instance keeps_running_trans : Transitive keeps_running.
Proof. intros d1 d2 d3 H12 H23 id row Hr Hs. destruct (H12 id row Hr Hs) as (?&?&?). eauto. Qed.

Lemma keeps_running_update P f d :
  (∀ row, P row = true → job_status row = "running" → job_status (f row) = "running") →
  keeps_running d (update_where P f d).2.
Proof.
  intros Hf id row Hr Hs. rewrite update_where_lookup, Hr. simpl. eexists. split; [done|].
  destruct (P row) eqn:HP; auto.
Qed.

Lemma keeps_running_replace d row row' :
  jobs d !! job_id row = Some row →
  (job_status row = "running" → job_status row' = "running") →
  keeps_running d (set_jobs (<[job_id row := row']> (jobs d)) d).
Proof.
  intros Hrow Hs id r Hr Hrs. simpl. rewrite lookup_insert. case_decide; [|eauto].
  subst id. simplify_eq. eauto.
Qed.

Lemma keeps_running_insert mk d id d' :
  jobs_ok d → insert_row mk d = Some (id, d') → keeps_running d d'.
Proof.
  intros Hok Hins i row Hr Hs. unfold insert_row in Hins.
  destruct (_ <? _); simplify_eq/=. exists row. split; [|done].
  rewrite lookup_insert_ne; [done|]. apply (jobs_ids _ Hok) in Hr. lia.
Qed.

Lemma keeps_running_cancel now row :
  job_status row = "running" → job_status (cancel_row now row) = "running".
Proof. intros Hs. unfold cancel_row. simpl. by rewrite Hs. Qed.

Lemma keeps_running_cancel_managed ids now n d :
  keeps_running d (cancel_managed_build_jobs ids now n d).2.
Proof.
  revert n d. induction ids as [|id ids IH]; intros n d; simpl.
  { intros i row Hr Hs. eauto. }
  destruct (normalize_managed_id _ _) as [m|]; simpl; [|intros i row Hr Hs; eauto].
  etrans; [|apply IH]. apply (keeps_running_update
    (λ row, has_managed_id m row && active_status (job_status row)) (cancel_row now)).
  intros row _. apply keeps_running_cancel.
Qed.

Lemma pool_ok_keep d d' h :
  pool_ok {| pool_db := d; held := h |} → jobs_ok d' → keeps_running d d' →
  pool_ok {| pool_db := d'; held := h |}.
Proof.
  intros [Hj Hn Hh] Hok Hkeep. split; simpl in *; auto.
  intros id Hin. destruct (Hh id Hin) as (row & Hr & Hs). eauto.
Qed.

(** Steps that end the job [id] keep it for the other holders. *)
Lemma pool_ok_release P f d h id :
  pool_ok {| pool_db := d; held := h |} → jobs_ok (update_where P f d).2 →
  (∀ row, P row = true → job_id row = id) →
  pool_ok {| pool_db := (update_where P f d).2; held := list_difference h [id] |}.
Proof.
  intros [Hj Hn Hh] Hok HP. split; cbn [held]; [done|by apply NoDup_list_difference|].
  intros i (Hin & Hne)%list_elem_of_difference. destruct (Hh i Hin) as (row & Hr & Hs).
  cbn [pool_db] in *. exists row. split; [|done]. rewrite update_where_lookup, Hr. simpl.
  destruct (P row) eqn:HPr; [|done]. apply HP in HPr.
  destruct (jobs_ids _ Hj _ _ Hr) as [Hid _]. set_solver.
Qed.

Lemma keeps_running_refl d : keeps_running d d.
Proof. intros id row Hr Hs. eauto. Qed.

#[local] Hint Resolve keeps_running_refl : jobs.

Lemma queue_ops_keep_running d :
  jobs_ok d →
  (∀ r now, keeps_running d (create_build_job r now d).2) ∧
  (∀ m r now, keeps_running d (upsert_managed_build_job m r now d).2) ∧
  (∀ m a t sy rv h rs now,
     keeps_running d (record_rejected_managed_build_job m a t sy rv h rs now d).2).
Proof.
  intros Hok. split_and!.
  - intros r now. unfold create_build_job. destruct (rbind _ _) as [[i m]|]; [|eauto with jobs].
    destruct (insert_row _ d) as [[id d']|] eqn:Hi; [|eauto with jobs].
    by eapply keeps_running_insert.
  - intros m r now. unfold upsert_managed_build_job.
    destruct (rbind _ _) as [[[m' i] md]|]; [|eauto with jobs]. unfold upsert_row.
    destruct (find_managed m' d) as [row|] eqn:Hf.
    + apply find_managed_Some in Hf as [Hr _]; [|done]. by apply keeps_running_replace.
    + destruct (insert_row _ d) as [[id d']|] eqn:Hi; simpl; [|eauto with jobs].
      by eapply keeps_running_insert.
  - intros m a t sy rv h rs now. unfold record_rejected_managed_build_job.
    destruct (normalize_managed_id _ _) as [m'|]; [|eauto with jobs].
    destruct (find_managed m' d) as [row|] eqn:Hf.
    + apply find_managed_Some in Hf as [Hr _]; [|done].
      case_bool_decide as Hq; [|eauto with jobs]. apply keeps_running_replace; [done|].
      rewrite Hq. done.
    + destruct (insert_row _ d) as [[id d']|] eqn:Hi; simpl; [|eauto with jobs].
      by eapply keeps_running_insert.
Qed.

Lemma claim_step_ok now d h row d' :
  pool_ok {| pool_db := d; held := h |} → claim_statement now d = (Some row, d') →
  pool_ok {| pool_db := d'; held := job_id row :: h |} ∧ jobs_evolve d d'.
Proof.
  intros Hok Hclaim. pose proof (pool_jobs _ Hok) as Hj. cbn [pool_db] in *.
  destruct (claim_statement_Some _ _ _ _ Hj Hclaim) as (row0 & -> & Hr & Hq & -> & _).
  destruct (insert_existing_ok d row0 (claim_row now row0)) as [Hj' Hev]; auto.
  { apply row_evolves_open; auto. }
  { simpl. unfold ALLOWED_BUILD_STATES. set_solver. }
  split; [|done]. destruct Hok as [_ Hn Hh]. split; simpl in *; [done| |].
  - constructor; [|done]. intros Hin. destruct (Hh _ Hin) as (row & Hr' & Hs). congruence.
  - intros id. rewrite elem_of_cons, lookup_insert. intros [->|Hin].
    + rewrite decide_True by done. eauto.
    + case_decide; [eauto|]. auto.
Qed.

Lemma finish_step_ok id f now d h :
  pool_ok {| pool_db := d; held := h |} → id ∈ h → terminal_status (fin_status f) = true →
  pool_ok {| pool_db := finish_statement id f now d; held := list_difference h [id] |} ∧
  jobs_evolve d (finish_statement id f now d).
Proof.
  intros Hok Hin Hterm. pose proof (pool_jobs _ Hok) as Hj. cbn [pool_db] in *.
  destruct (update_where_ok (λ row, (job_id row =? id) && not_remediated d row)
    (finish_row f now) d Hj) as [Hj' Hev].
  { intros i row Hr Hc. bool_prop. pose proof (finish_row_status f now row Hterm) as Ht.
    rewrite terminal_status_cases in Ht. split.
    - apply row_evolves_open; auto. right. destruct (pool_held _ Hok id Hin) as (r' & Hr' & Hs).
      simpl in Hr'. destruct (jobs_ids _ Hj _ _ Hr) as [Hid _].
      split; [congruence|]. intuition congruence.
    - unfold ALLOWED_BUILD_STATES. destruct_or! Ht; rewrite Ht; set_solver. }
  split; [|done]. apply pool_ok_release; [done|done|].
  by intros row [?%Z.eqb_eq _]%andb_true_iff.
Qed.

(** Reports of a worker: guarded by [status = 'running'], which they keep. *)
Lemma job_report_step_ok id f d h :
  pool_ok {| pool_db := d; held := h |} →
  (∀ row, job_id (f row) = job_id row ∧ job_managed_id (f row) = job_managed_id row ∧
          job_created_at (f row) = job_created_at row ∧ job_inputs (f row) = job_inputs row ∧
          job_status (f row) = job_status row) →
  let d' := (update_where (λ row, (job_id row =? id) && is_running row) f d).2 in
  pool_ok {| pool_db := d'; held := h |} ∧ jobs_evolve d d'.
Proof.
  intros Hok Hf. pose proof (pool_jobs _ Hok) as Hj. cbn [pool_db] in *.
  destruct (running_update_ok (λ row, (job_id row =? id) && is_running row) f d Hj) as [??].
  { by intros row [_ ?]%andb_true_iff. }
  { intros row. destruct (Hf row) as (?&?&?&?&?). split_and!; auto. }
  split; [|done]. eapply pool_ok_keep; [done..|]. apply keeps_running_update.
  intros row _ Hs. destruct (Hf row) as (_&_&_&_&->). done.
Qed.

(** One step keeps the invariant and evolves the table. *)
Lemma job_step_ok p p' :
  pool_ok p → job_step p p' → pool_ok p' ∧ jobs_evolve (pool_db p) (pool_db p').
Proof.
  intros Hok Hstep. pose proof (pool_jobs _ Hok) as Hj.
  pose proof (queue_ops_keep_running _ Hj) as (Hk1 & Hk2 & Hk3).
  destruct Hstep as
    [r now d h|m r now d h|m a t sy rv hs rs now d h|id now d h|ids now d h
    |now d h row d' Hclaim|id logs now d h|id pc st ms now d h
    |id f status logs err path sha size code md now d h Hin Hval|id reason now d h|d h
    |reason now d]; cbn [pool_db] in *.
  - destruct (create_build_job_ok r now d Hj). eauto using pool_ok_keep.
  - destruct (upsert_ok m r now d Hj). eauto using pool_ok_keep.
  - destruct (record_rejected_ok m a t sy rv hs rs now d Hj). eauto using pool_ok_keep.
  - destruct (cancel_statement_ok id now d Hj). split; [|done].
    eapply pool_ok_keep; [done..|]. apply keeps_running_update. intros row _.
    apply keeps_running_cancel.
  - destruct (cancel_managed_ok ids now 0 d Hj).
    eauto using pool_ok_keep, keeps_running_cancel_managed.
  - by eapply claim_step_ok.
  - apply job_report_step_ok; [done|]. by intros row.
  - apply job_report_step_ok; [done|]. by intros row.
  - destruct (validate_finish_status _ _ _ _ _ _ _ _ _ Hval) as [<- Hterm].
    by apply finish_step_ok.
  - unfold fail_running_build_job_after_worker_error.
    set (msg := "Build stopped safely after an internal worker error").
    destruct (running_update_ok (λ row, (job_id row =? id) && is_running row)
      (fail_row msg (bounded_error_text reason) now) d Hj) as [Hj' Hev];
      [by intros row [_ ?]%andb_true_iff|by intros row; split_and!; auto|].
    split; [|done]. apply pool_ok_release; [done|done|].
    by intros row [?%Z.eqb_eq _]%andb_true_iff.
  - split; [|reflexivity]. split; simpl; [done|constructor|]. intros id Hin.
    by apply not_elem_of_nil in Hin.
  - unfold recover_running_build_jobs.
    set (msg := "Build interrupted by Nest restart recovery").
    destruct (running_update_ok is_running (fail_row msg (bounded_error_text reason) now) d Hj)
      as [??]; [done|by intros row; split_and!; auto|].
    split; [|done]. split; simpl; [done|constructor|]. intros id Hin.
    by apply not_elem_of_nil in Hin.
Qed.

Lemma job_steps_ok p p' :
  pool_ok p → rtc job_step p p' → pool_ok p' ∧ jobs_evolve (pool_db p) (pool_db p').
Proof.
  intros Hok Hsteps. revert Hok. induction Hsteps as [p|p1 p2 p3 H12 _ IH]; intros Hok.
  - by split.
  - destruct (job_step_ok _ _ Hok H12) as [Hok2 Hev]. destruct (IH Hok2). split; [done|by etrans].
Qed.

(** ** Finished jobs and cancellations *)

Lemma finish_statement_lookup id f now d row :
  jobs d !! id = Some row → job_id row = id → id ∉ remediated d →
  jobs (finish_statement id f now d) !! id = Some (finish_row f now row).
Proof.
  intros Hr Hid Hrem. unfold finish_statement. rewrite update_where_lookup, Hr. simpl.
  unfold not_remediated. rewrite Hid, Z.eqb_refl, bool_decide_false by done. done.
Qed.

(** ** Report page *)

Lemma estimated_bytes_nonneg row : 0 ≤ estimated_bytes row.
Proof. unfold estimated_bytes, sql_length. simpl. lia. Qed.
End Ops.
