(* ===== verification/ProtectedMaterial.v ===== *)
(** * Screening of documents for protected material

    The JSON part of [src/protected_material.rs]: build specifications and
    cache metadata, and the contract an installer target's expected state has
    to satisfy before the references it carries are taken out of the scan.
    SHA-256, [Uuid::parse_str] and serde_json's string codec are arguments. *)

From stdpp Require Import base gmap list strings.
From Stdlib Require Import Ascii ZArith Lia.
From S2P Require Import Prelude RustStr RustText Json DbText ProtectedText NixSource BuildJobs.

#[local] Open Scope Z_scope.
#[local] Open Scope nest_scope.

Class ProtectedDeps := {
  url_parse : string → option Url;
  json_string_from_str : string → option string;
  json_string : string → string;
  (** [Uuid::parse_str(text)], written hyphenated. *)
  uuid_hyphenated : string → option string;
  sha256_hex_of : string → string;
}.

Section Protected.
Context `{!ProtectedDeps}.

Definition INSTALLER_TARGET_BUILD_INPUT_KIND : string := "installer_target_nixos_module".
Definition EXPECTED_STATE_V2_SCHEMA : string := "tiaris.blueprint.expected-state.v2".
Definition LOCAL_ACCOUNT_PASSWORD_HASH_CHECK_KIND : string := "local-account-password-hash".
Definition LOCAL_ACCOUNT_REFERENCE_DOMAIN : string := "tiaris-local-account-v2" +:+ String "000" "".

(** ** Documents *)

Definition json_credential_value_is_safe_reference (canonical : string) (value : Value) : bool :=
  match value with
  | Bool _ | Null => true
  | _ =>
      (bool_decide (canonical = "hashedpassword") && bool_decide (as_str value = Some "!"))
      || (is_credential_reference_key canonical
          && match as_str value with
             | Some s => safe_runtime_secret_reference s
             | None => false
             end)
  end.

(** The checks on one field of an object, before its value is visited. *)
Definition validate_key (field key : string) (value : Value) : result Failure unit :=
  let canonical := canonical_key key in
  if bool_decide (canonical = "activationsecrets") then protected field ActivationSecrets else
  if is_credential_key canonical && negb (json_credential_value_is_safe_reference canonical value)
  then protected field CredentialAssignment else Ok tt.

Fixpoint validate_json (field : string) (value : Value) : result Failure unit :=
  match value with
  | Object fields =>
      (fix go (fields : list (string * Value)) :=
         match fields with
         | [] => Ok tt
         | (key, v) :: fields =>
             _k ≔ validate_key field key v ?;
             _v ≔ validate_json field v ?;
             go fields
         end) fields
  | Array items =>
      (fix go (items : list Value) :=
         match items with
         | [] => Ok tt
         | v :: items => _v ≔ validate_json field v ?; go items
         end) items
  | Str text => validate_text url_parse field text
  | Null | Bool _ | Num _ => Ok tt
  end.

Definition GENERATED_NIX : string := "build_spec.build_input.generated_nix".
Definition DESKTOP_MODULE_NIX : string := "build_spec.build_input.desktop_module_nix".
Definition EXPECTED_STATE : string := "build_spec.build_input.expected_state".

Definition validate_cache_metadata (value : Value) : result Failure unit :=
  validate_json "cache_metadata" value.
Definition validate_generated_nix (value : string) : result Failure unit :=
  validate_text url_parse GENERATED_NIX value.
Definition validate_desktop_module_nix (value : string) : result Failure unit :=
  validate_text url_parse DESKTOP_MODULE_NIX value.
Definition validate_expected_state (value : Value) : result Failure unit :=
  validate_json EXPECTED_STATE value.

(** A check that only runs when there is something to check. *)
Definition when_some {A} (o : option A) (f : A → result Failure unit) : result Failure unit :=
  match o with Some a => f a | None => Ok tt end.

Definition validate_reusable_build_spec (build_spec : Value) : result Failure unit :=
  _i ≔ when_some (get "build_input" build_spec) (λ build_input,
    _g ≔ when_some (v ← get "generated_nix" build_input; as_str v) validate_generated_nix ?;
    _d ≔ when_some (v ← get "desktop_module_nix" build_input; as_str v)
           validate_desktop_module_nix ?;
    when_some (get "expected_state" build_input) validate_expected_state) ?;
  validate_json "build_spec" build_spec.

(** ** The expected state of an installer target *)

Definition object_has_exact_keys (object : list (string * Value)) (expected : list string) : bool :=
  Nat.eqb (length object) (length expected)
  && forallb (λ key, bool_decide (is_Some (obj_get key object))) expected.

Definition safe_group_name (value : string) : bool :=
  negb (is_empty value) && (len value <=? 64)
  && all_bytes (λ a, is_lower a || is_digit a || byte_in "_-" a) value.

Definition safe_lower_sha256 (value : string) : bool :=
  (len value =? 64) && all_bytes is_lower_hex value.

Definition safe_local_account_username (value : string) : bool :=
  if is_empty value || (32 <? len value) then false else
  match bytes value with
  | first :: rest =>
      (is_lower first || Ascii.eqb first "_")
      && forallb (λ a, is_lower a || is_digit a || byte_in "_-" a) rest
      && negb (bool_decide (value ∈ ["root"; "tiaris-admin"; "tiaris-kiosk"; "nobody"; "systemd"]))
  | [] => false
  end.

Definition local_account_secret_ref (revision profile_generation username : string) : string :=
  sha256_hex_of (LOCAL_ACCOUNT_REFERENCE_DOMAIN +:+ revision +:+ ":" +:+ profile_generation
                 +:+ String "000" "" +:+ username).

Record InstallerTargetExpectedStateContract := {
  con_projection : Value;
  con_blueprint_revision_id : string;
  con_accounts : list InstallerTargetLocalAccount;
}.

Definition invalid_state {A} : result Failure A := protected EXPECTED_STATE CredentialAssignment.
Definition required {A} (o : option A) : result Failure A :=
  match o with Some a => Ok a | None => invalid_state end.
Definition filter_opt {A} (f : A → bool) (o : option A) : option A :=
  match o with Some a => if f a then Some a else None | None => None end.

(** [Map::remove]. *)
Definition obj_remove (key : string) (fields : list (string * Value)) : list (string * Value) :=
  List.filter (λ f, negb (bool_decide (f.1 = key))) fields.

(** One check of the state: the check as the scanner will see it, and the
    references found so far. *)
Definition project_check (revision : string) (profile_generation : option string) (check : Value)
    (refs : gmap string string) : result Failure (Value * gmap string string) :=
  match check with
  | Object fields =>
      if negb (bool_decide ((v ← obj_get "kind" fields; as_str v)
                            = Some LOCAL_ACCOUNT_PASSWORD_HASH_CHECK_KIND))
      then Ok (check, refs) else
      if negb (object_has_exact_keys fields ["id"; "kind"; "expected"]) then invalid_state else
      check_id ≔ required (v ← obj_get "id" fields; as_str v) ?;
      expected ≔ required (v ← obj_get "expected" fields; as_object v) ?;
      if negb (object_has_exact_keys expected ["username"; "password_secret_ref"])
      then invalid_state else
      username ≔ required (filter_opt safe_local_account_username
                             (v ← obj_get "username" expected; as_str v)) ?;
      if negb (bool_decide (check_id = "identity.local-account." +:+ username +:+ ".password"))
      then invalid_state else
      secret_ref ≔ required (filter_opt safe_lower_sha256
                               (v ← obj_get "password_secret_ref" expected; as_str v)) ?;
      generation ≔ required profile_generation ?;
      if negb (bool_decide (secret_ref = local_account_secret_ref revision generation username))
         || bool_decide (is_Some (refs !! username))
      then invalid_state else
      Ok (Object (obj_insert "expected" (Object (obj_remove "password_secret_ref" expected)) fields),
          <[username := secret_ref]> refs)
  | _ => Ok (check, refs)
  end.

Fixpoint project_checks (revision : string) (profile_generation : option string)
    (checks : list Value) (refs : gmap string string)
    : result Failure (list Value * gmap string string) :=
  match checks with
  | [] => Ok ([], refs)
  | check :: checks =>
      r ≔ project_check revision profile_generation check refs ?;
      rest ≔ project_checks revision profile_generation checks r.2 ?;
      Ok (r.1 :: rest.1, rest.2)
  end.

Definition project_groups (groups : list Value) : result Failure (list string) :=
  required (mapM (λ group, filter_opt safe_group_name (as_str group)) groups).

Definition safe_display_name (value : string) : bool :=
  negb (is_empty value) && (len value <=? 256) && negb (contains ":" value)
  && negb (existsb is_control (chars value)).

(** One account of the inventory, with the reference its check carried. *)
Definition project_account (account : Value) (refs : gmap string string)
    : result Failure (InstallerTargetLocalAccount * gmap string string) :=
  fields ≔ required (as_object account) ?;
  if negb (object_has_exact_keys fields ["username"; "display_name"; "admin"; "groups"])
  then invalid_state else
  username ≔ required (filter_opt safe_local_account_username
                         (v ← obj_get "username" fields; as_str v)) ?;
  display_name ≔ required (filter_opt safe_display_name
                             (v ← obj_get "display_name" fields; as_str v)) ?;
  _admin ≔ required (v ← obj_get "admin" fields; match v with Bool b => Some b | _ => None end) ?;
  groups ≔ required (filter_opt (λ g, (length g <=? 32)%nat)
                       (v ← obj_get "groups" fields; as_array v)) ?;
  groups ≔ project_groups groups ?;
  secret_ref ≔ required (refs !! username) ?;
  Ok ({| acc_username := username; acc_display_name := display_name; acc_groups := groups;
         acc_password_secret_ref := secret_ref |}, delete username refs).

Fixpoint project_accounts (accounts : list Value) (refs : gmap string string)
    : result Failure (list InstallerTargetLocalAccount * gmap string string) :=
  match accounts with
  | [] => Ok ([], refs)
  | account :: accounts =>
      r ≔ project_account account refs ?;
      rest ≔ project_accounts accounts r.2 ?;
      Ok (r.1 :: rest.1, rest.2)
  end.

Definition is_inventory_check (check : Value) : bool :=
  bool_decide ((v ← get "kind" check; as_str v) = Some "local-account-inventory").

Definition as_u64 (v : Value) : option Z :=
  match v with Num (PosInt n) => Some n | _ => None end.

Definition installer_target_expected_state_public_projection (value : Value)
    : result Failure InstallerTargetExpectedStateContract :=
  object ≔ required (as_object value) ?;
  if negb (bool_decide ((v ← obj_get "schema" object; as_str v) = Some EXPECTED_STATE_V2_SCHEMA))
     || negb (bool_decide ((v ← obj_get "compiler_version" object; as_u64 v) = Some 2))
  then invalid_state else
  deployment ≔ required (v ← obj_get "deployment" object; as_object v) ?;
  revision_text ≔ required (v ← obj_get "blueprint_revision_id" deployment; as_str v) ?;
  revision ≔ required (filter_opt (λ h, bool_decide (h = revision_text))
                         (uuid_hyphenated revision_text)) ?;
  let profile_generation :=
    filter_opt safe_lower_sha256
      (v ← obj_get "local_account_profile_generation_sha256" deployment; as_str v) in
  checks ≔ required (filter_opt (λ c, (length c <=? 128)%nat)
                       (v ← obj_get "checks" object; as_array v)) ?;
  projected ≔ project_checks revision profile_generation checks ∅ ?;
  let refs := projected.2 in
  match List.filter is_inventory_check projected.1 with
  | [inventory] =>
      if negb (bool_decide ((v ← get "id" inventory; as_str v)
                            = Some "identity.local-account.inventory")) then invalid_state else
      inventory_accounts ≔ required (filter_opt (λ a, (length a <=? 128)%nat)
        (e ← get "expected" inventory; v ← get "accounts" e; as_array v)) ?;
      if Bool.eqb (bool_decide (is_Some profile_generation))
           (match inventory_accounts with [] => true | _ => false end)
         || negb (Nat.eqb (size refs) (length inventory_accounts))
      then invalid_state else
      accounts ≔ project_accounts inventory_accounts refs ?;
      if negb (bool_decide (accounts.2 = ∅)) then invalid_state else
      Ok {| con_projection := Object (obj_insert "checks" (Array projected.1) object);
            con_blueprint_revision_id := revision_text;
            con_accounts := accounts.1 |}
  | _ => invalid_state
  end.

(** ** Installer targets *)

Definition validate_installer_target_expected_state (value : Value) : result Failure unit :=
  contract ≔ installer_target_expected_state_public_projection value ?;
  validate_json EXPECTED_STATE (con_projection contract).

Definition installer_target_generated_nix_public_projection (generated_nix : string)
    (accounts : list InstallerTargetLocalAccount) : result Failure string :=
  if negb (installer_target_generated_nix_has_exact_account_overlay json_string_from_str json_string
             generated_nix accounts)
  then protected GENERATED_NIX CredentialAssignment else
  Ok (foldl (λ projection account,
        replace (dq +:+ TIARIS_LOCAL_ACCOUNT_SECRET_PREFIX +:+ acc_password_secret_ref account
                 +:+ dq)
          (dq +:+ "/run/credentials/validated-local-account-reference" +:+ dq) projection)
        generated_nix accounts).

Definition validate_installer_target_generated_nix (generated_nix : string) (expected_state : Value)
    : result Failure unit :=
  contract ≔ installer_target_expected_state_public_projection expected_state ?;
  projection ≔ installer_target_generated_nix_public_projection generated_nix
                 (con_accounts contract) ?;
  validate_text url_parse GENERATED_NIX projection.

Definition validate_installer_target_non_blueprint_module (field module : string)
    : result Failure unit :=
  if nix_module_may_define_users json_string_from_str module
  then protected field CredentialAssignment else validate_text url_parse field module.

(** Replaces a field of the build input where it is present ([pointer_mut]). *)
Definition replace_input (key : string) (value : Value) (build_spec : Value) : Value :=
  match build_spec with
  | Object fields =>
      match obj_get "build_input" fields with
      | Some (Object input) =>
          match obj_get key input with
          | Some _ => Object (obj_insert "build_input" (Object (obj_insert key value input)) fields)
          | None => build_spec
          end
      | _ => build_spec
      end
  | _ => build_spec
  end.

Definition validate_build_spec (build_spec : Value) : result Failure unit :=
  let input key := i ← get "build_input" build_spec; get key i in
  let installer_target_kind :=
    bool_decide ((v ← input "kind"; as_str v) = Some INSTALLER_TARGET_BUILD_INPUT_KIND) in
  let installer_target :=
    bool_decide ((v ← get "target" build_spec; as_str v) = Some "installer_target") in
  if negb (Bool.eqb installer_target_kind installer_target)
  then protected "build_spec" CredentialAssignment else
  if installer_target_kind then
    expected_state ≔ required (input "expected_state") ?;
    contract ≔ installer_target_expected_state_public_projection expected_state ?;
    if negb (bool_decide ((v ← get "blueprint_revision_id" build_spec; as_str v)
                          = Some (con_blueprint_revision_id contract)))
    then protected "build_spec" CredentialAssignment else
    let generated_nix := default "" (v ← input "generated_nix"; as_str v) in
    projection ≔ installer_target_generated_nix_public_projection generated_nix
                   (con_accounts contract) ?;
    validate_reusable_build_spec
      (replace_input "generated_nix" (Str projection)
         (replace_input "expected_state" (con_projection contract) build_spec))
  else validate_reusable_build_spec build_spec.

End Protected.
