(* ===== verification/ProtectedProofs.v ===== *)
(** * Protected material: theorems

    What the screening of documents guarantees, that the lexer of Nix modules
    ends, what escapes it, and the screening the job queue is composed with. *)

From stdpp Require Import sorting base gmap list strings relations.
From Stdlib Require Import Ascii ZArith Lia.
From S2P Require Import Prelude RustStr RustText Json DbText DbTextProofs ProtectedText Redact RedactProofs NixSource BuildJobs BuildJobsProofs ProtectedMaterial.

#[local] Open Scope Z_scope.
#[local] Open Scope nest_scope.

(** ** Values inside values *)

(** [inside u v]: [u] is [v], an item of it or the value of one of its fields,
    at any depth. *)
Inductive inside : Value → Value → Prop :=
| inside_refl v : inside v v
| inside_item u v items : v ∈ items → inside u v → inside u (Array items)
| inside_field u v key fields : (key, v) ∈ fields → inside u v → inside u (Object fields).

(** Induction on a document through its items and fields. *)
Lemma value_nested_ind (P : Value → Prop) :
  P Null → (∀ b, P (Bool b)) → (∀ n, P (Num n)) → (∀ s, P (Str s)) →
  (∀ items, Forall P items → P (Array items)) →
  (∀ fields, Forall (λ f : string * Value, P f.2) fields → P (Object fields)) →
  ∀ v, P v.
Proof.
  intros Hn Hb Hnum Hs Ha Ho. fix IH 1. intros [| | | |items|fields];
    [exact Hn|apply Hb|apply Hnum|apply Hs| |].
  - apply Ha. induction items as [|v items IHi]; constructor; [apply IH|exact IHi].
  - apply Ho. induction fields as [|[k v] fields IHf]; constructor; [apply IH|exact IHf].
Qed.

Section Screening.
Context {deps : ProtectedDeps}.

(** Nothing protected at this place of a document. *)
Definition clean_here (field : string) (u : Value) : Prop :=
  match u with
  | Str text => validate_text url_parse field text = Ok tt
  | Object fields => ∀ key v, (key, v) ∈ fields → validate_key field key v = Ok tt
  | _ => True
  end.

Lemma validate_array field items :
  validate_json field (Array items) = Ok tt ↔
  Forall (λ v, validate_json field v = Ok tt) items.
Proof.
  induction items as [|v items IH]; simpl; [by split|]. rewrite Forall_cons, <- IH. simpl.
  destruct (validate_json field v) as [[]|e]; simpl; split; try done; by intros [??].
Qed.

Lemma validate_object field fields :
  validate_json field (Object fields) = Ok tt ↔
  Forall (λ f, validate_key field f.1 f.2 = Ok tt ∧ validate_json field f.2 = Ok tt) fields.
Proof.
  induction fields as [|[k v] fields IH]; simpl; [by split|]. rewrite Forall_cons, <- IH. simpl.
  destruct (validate_key field k v) as [[]|e]; simpl; [|by split; [|intros [[??]?]]].
  destruct (validate_json field v) as [[]|e]; simpl; split; try done; by intros [[??]?].
Qed.

Lemma validate_json_everywhere field v :
  validate_json field v = Ok tt ↔ ∀ u, inside u v → clean_here field u.
Proof.
  induction v as [| | |s|items IH|fields IH] using value_nested_ind;
    try (split; [intros _ u Hu; by inversion Hu|done]).
  - split; [intros H u Hu; by inversion Hu; subst|]. intros H. apply (H (Str s)). constructor.
  - rewrite validate_array, Forall_forall. rewrite Forall_forall in IH. split.
    + intros H u Hu. inversion Hu as [|u' w its Hw Hin|]; subst; [done|].
      by apply (IH w Hw); [apply H|].
    + intros H w Hw. apply (IH w Hw). intros u Hu. apply H. by econstructor.
  - rewrite validate_object, Forall_forall. rewrite Forall_forall in IH. split.
    + intros H u Hu. inversion Hu as [| |u' w key fs Hw Hin]; subst.
      * intros key w Hw. apply (H (key, w) Hw).
      * apply (IH (key, w) Hw); [apply (H (key, w) Hw)|done].
    + intros H [key w] Hw. split.
      * exact (H (Object fields) (inside_refl _) key w Hw).
      * apply (IH (key, w) Hw). intros u Hu. apply H. by econstructor.
Qed.

(** What a field of an accepted document can be. *)
Lemma validate_key_ok field key v :
  validate_key field key v = Ok tt →
  canonical_key key ≠ "activationsecrets" ∧
  (is_credential_key (canonical_key key) = true →
   v = Null ∨ (∃ b, v = Bool b) ∨
   ∃ s, v = Str s ∧ (s = "!" ∨ safe_runtime_secret_reference s = true)).
Proof.
  unfold validate_key. case_bool_decide; [done|].
  destruct (is_credential_key _) eqn:Hc; simpl; [|done].
  destruct (json_credential_value_is_safe_reference _ _) eqn:Hs; [|done].
  intros _. split; [done|intros _]. destruct v as [|b| |s| |]; eauto; simpl in Hs;
    rewrite ?andb_false_r in Hs; try done.
  right; right. exists s. split; [done|]. apply orb_true_iff in Hs as [Hs|Hs]; bool_prop; [left|by right].
  congruence.
Qed.

(** A document is accepted exactly when every text in it passes the text
    check and every field of every object in it the check of its key, at any
    depth; so in an accepted document a field that names a credential holds
    nothing but null, a boolean, the locked marker or a reference to a secret. *)
Theorem accepted_documents_are_clean field v :
  (validate_json field v = Ok tt ↔ ∀ u, inside u v → clean_here field u) ∧
  (validate_json field v = Ok tt → ∀ fields key w, inside (Object fields) v → (key, w) ∈ fields →
     is_credential_key (canonical_key key) = true →
     w = Null ∨ (∃ b, w = Bool b) ∨
     ∃ s, w = Str s ∧ (s = "!" ∨ safe_runtime_secret_reference s = true)).
Proof.
  split; [apply validate_json_everywhere|]. intros H fields key w Hin Hw.
  rewrite validate_json_everywhere in H.
  exact (proj2 (validate_key_ok field key w (H _ Hin key w Hw))).
Qed.

(** ** The exemption of installer targets *)

Lemma required_Ok {A} (o : option A) a : required o = Ok a ↔ o = Some a.
Proof. destruct o; simpl; [|done]. split; congruence. Qed.

Lemma filter_opt_Some {A} (f : A → bool) o a : filter_opt f o = Some a ↔ o = Some a ∧ f a = true.
Proof.
  destruct o as [x|]; simpl; [|split; [done|by intros [??]]]. destruct (f x) eqn:E; split.
  - by intros [= <-].
  - by intros [[= <-] _].
  - done.
  - intros [[= <-] ?]. congruence.
Qed.

Lemma as_str_Some v s : as_str v = Some s ↔ v = Str s.
Proof. destruct v; simpl; split; congruence. Qed.

Lemma as_object_Some v fields : as_object v = Some fields ↔ v = Object fields.
Proof. destruct v; simpl; split; congruence. Qed.

Lemma as_array_Some v items : as_array v = Some items ↔ v = Array items.
Proof. destruct v; simpl; split; congruence. Qed.

Lemma get_str key fields s :
  (v ← obj_get key fields; as_str v) = Some s ↔ obj_get key fields = Some (Str s).
Proof.
  rewrite bind_Some. setoid_rewrite as_str_Some. split; [by intros (? & ? & ->)|eauto].
Qed.

(** [check'] is [check] without a reference that is the digest of the revision,
    the profile generation and the account it belongs to. *)
Definition exempted (revision generation username secret_ref : string) (check check' : Value)
    : Prop :=
  ∃ fields expected,
    check = Object fields ∧ obj_get "expected" fields = Some (Object expected) ∧
    obj_get "username" expected = Some (Str username) ∧
    obj_get "password_secret_ref" expected = Some (Str secret_ref) ∧
    secret_ref = local_account_secret_ref revision generation username ∧
    check' = Object (obj_insert "expected"
                       (Object (obj_remove "password_secret_ref" expected)) fields).

Lemma project_check_exact revision generation check refs check' refs' :
  project_check revision generation check refs = Ok (check', refs') →
  (check' = check ∧ refs' = refs) ∨
  ∃ g username secret_ref, generation = Some g ∧ refs !! username = None ∧
    exempted revision g username secret_ref check check' ∧ refs' = <[username := secret_ref]> refs.
Proof.
  unfold project_check. destruct check as [| | | | |fields]; try (intros [= <- <-]; by left).
  destruct (negb (bool_decide _)); [intros [= <- <-]; by left|].
  destruct (negb _); [done|].
  intros (check_id & _ & H)%rbind_Ok.
  apply rbind_Ok in H as (expected & He%required_Ok & H).
  apply bind_Some in He as (e & He & ->%as_object_Some).
  destruct (negb _); [done|].
  apply rbind_Ok in H as (username & [Hu%get_str _]%required_Ok%filter_opt_Some & H).
  destruct (negb _); [done|].
  apply rbind_Ok in H as (secret_ref & [Hr%get_str _]%required_Ok%filter_opt_Some & H).
  apply rbind_Ok in H as (g & ->%required_Ok & H).
  destruct (_ || _) eqn:Hc; [done|]. injection H as <- <-. bool_prop.
  right. exists g, username, secret_ref. split_and!; [done| | |done].
  - by apply eq_None_not_Some.
  - exists fields, expected. done.
Qed.

(** The references a map of accounts carries are all derived. *)
Definition derived (revision : string) (generation : option string) (refs : gmap string string)
    : Prop :=
  ∀ username secret_ref, refs !! username = Some secret_ref →
    ∃ g, generation = Some g ∧ secret_ref = local_account_secret_ref revision g username.

Definition check_kept (revision : string) (generation : option string) (check check' : Value)
    : Prop :=
  check' = check ∨
  ∃ g username secret_ref, generation = Some g ∧ exempted revision g username secret_ref check check'.

Lemma project_checks_exact revision generation checks refs checks' refs' :
  project_checks revision generation checks refs = Ok (checks', refs') →
  derived revision generation refs →
  Forall2 (check_kept revision generation) checks checks' ∧ derived revision generation refs'.
Proof.
  revert refs checks'. induction checks as [|check checks IH]; intros refs checks'; simpl.
  { intros [= <- <-]. auto. }
  intros ([check' refs1] & Hc & H)%rbind_Ok Hd. simpl in H.
  apply rbind_Ok in H as ([rest refs2] & Hrest & H). injection H as <- <-. simpl.
  apply project_check_exact in Hc as [[-> ->]|(g & username & secret_ref & -> & Hnew & Hex & ->)].
  - destruct (IH _ _ Hrest Hd). split; [|done]. constructor; [by left|done].
  - destruct (IH _ _ Hrest) as [Hall ?].
    { destruct Hex as (fields & expected & _ & _ & _ & _ & Href & _).
      intros u r [[<- <-]|[_ Hr]]%lookup_insert_Some; [eauto|by apply Hd]. }
    split; [|done]. constructor; [right; eauto|done].
Qed.

Lemma project_account_exact account refs a refs' :
  project_account account refs = Ok (a, refs') →
  refs !! acc_username a = Some (acc_password_secret_ref a) ∧ refs' = delete (acc_username a) refs.
Proof.
  unfold project_account. intros (fields & _ & H)%rbind_Ok. destruct (negb _); [done|].
  apply rbind_Ok in H as (username & _ & H). apply rbind_Ok in H as (display & _ & H).
  apply rbind_Ok in H as (admin & _ & H). apply rbind_Ok in H as (groups & _ & H).
  apply rbind_Ok in H as (groups' & _ & H). apply rbind_Ok in H as (secret_ref & Hr%required_Ok & H).
  by injection H as <- <-.
Qed.

Lemma project_accounts_exact accounts refs l refs' :
  project_accounts accounts refs = Ok (l, refs') →
  NoDup (acc_username <$> l) ∧ refs' ⊆ refs ∧
  (∀ a, a ∈ l → refs !! acc_username a = Some (acc_password_secret_ref a)).
Proof.
  revert refs l. induction accounts as [|account accounts IH]; intros refs l; simpl.
  { intros [= <- <-]. split_and!; [constructor|done|by intros ? ?%not_elem_of_nil]. }
  intros ([a refs1] & Ha & H)%rbind_Ok. apply rbind_Ok in H as ([rest refs2] & Hrest & H).
  injection H as <- <-. simpl in *. apply project_account_exact in Ha as [Hlook ->].
  destruct (IH _ _ Hrest) as (Hnd & Hsub & Hin). split_and!.
  - constructor; [|done]. intros (b & Hb & Hbin)%list_elem_of_fmap.
    specialize (Hin b Hbin). rewrite <- Hb, lookup_delete_eq in Hin. done.
  - etrans; [exact Hsub|apply delete_subseteq].
  - intros b [->|Hb]%elem_of_cons; [done|]. specialize (Hin b Hb).
    by apply lookup_delete_Some in Hin as [_ ?].
Qed.

(** What an installer target is excused from is exact: the document that
    is scanned is the expected state itself, except that password checks lose a
    reference that is the digest of the blueprint revision, the profile
    generation and the account; the accounts are distinct and carry these
    digests. *)
Theorem installer_exemption_is_exact value contract :
  installer_target_expected_state_public_projection value = Ok contract →
  ∃ object checks checks' generation,
    value = Object object ∧ obj_get "checks" object = Some (Array checks) ∧
    con_projection contract = Object (obj_insert "checks" (Array checks') object) ∧
    Forall2 (check_kept (con_blueprint_revision_id contract) generation) checks checks' ∧
    NoDup (acc_username <$> con_accounts contract) ∧
    (∀ a, a ∈ con_accounts contract → ∃ g, generation = Some g ∧
       acc_password_secret_ref a =
         local_account_secret_ref (con_blueprint_revision_id contract) g (acc_username a)).
Proof.
  unfold installer_target_expected_state_public_projection.
  intros (object & ->%required_Ok%as_object_Some & H)%rbind_Ok. destruct (_ || _); [done|].
  apply rbind_Ok in H as (deployment & _ & H).
  apply rbind_Ok in H as (revision_text & _ & H).
  apply rbind_Ok in H as (revision & [_ Hrev]%required_Ok%filter_opt_Some & H). bool_prop. subst revision.
  set (generation := filter_opt safe_lower_sha256 _) in H. clearbody generation.
  apply rbind_Ok in H as (checks & [Hc _]%required_Ok%filter_opt_Some & H).
  apply bind_Some in Hc as (v & Hc & ->%as_array_Some).
  apply rbind_Ok in H as ([checks' refs] & Hp & H). simpl in H.
  destruct (List.filter _ _) as [|inventory [|]]; [done| |done]. destruct (negb _); [done|].
  apply rbind_Ok in H as (accounts & _ & H). destruct (_ || _); [done|].
  apply rbind_Ok in H as ([l refs'] & Ha & H). destruct (negb _); [done|]. injection H as <-.
  apply project_checks_exact in Hp as [Hall Hder]; [|by intros ? ? ?%lookup_empty_Some].
  apply project_accounts_exact in Ha as (Hnd & _ & Hin).
  exists object, checks, checks', generation. simpl. split_and!; auto.
Qed.

End Screening.

(** ** The lexer ends *)

Lemma skip_line_length l : (length (skip_line l) ≤ length l)%nat.
Proof. induction l as [|a l IH]; simpl; [done|]. destruct (Ascii.eqb _ _); simpl; lia. Qed.

Lemma skip_comment_length depth l rest :
  skip_comment depth l = Some rest → (length rest ≤ length l)%nat.
Proof.
  revert depth. induction l as [l IH] using (induction_ltof1 _ (@length ascii)).
  unfold ltof in IH. intros depth. destruct depth as [|d].
  { destruct l; simpl; by intros [= <-]. }
  destruct l as [|a [|b l2]]; [done|done|].
  change (skip_comment (S d) (a :: b :: l2)) with
    (if Ascii.eqb a "/" && Ascii.eqb b "*" then skip_comment (S (S d)) l2
     else if Ascii.eqb a "*" && Ascii.eqb b "/" then skip_comment d l2
     else skip_comment (S d) (b :: l2)).
  destruct (_ && _); [|destruct (_ && _)]; intros H; apply IH in H; simpl in *; lia.
Qed.

Lemma skip_indented_length l rest : skip_indented l = Some rest → (length rest ≤ length l)%nat.
Proof.
  induction l as [l IH] using (induction_ltof1 _ (@length ascii)). unfold ltof in IH.
  destruct l as [|a [|b l2]]; [done|done|].
  change (skip_indented (a :: b :: l2)) with
    (if Ascii.eqb a squote && Ascii.eqb b squote then
       match l2 with
       | c :: l3 => if Ascii.eqb c squote then skip_indented l3 else Some l2
       | [] => Some l2
       end
     else skip_indented (b :: l2)).
  destruct (_ && _); [destruct l2 as [|c l3]; [|destruct (Ascii.eqb _ _)]|]; intros H;
    try (injection H as <-; simpl; lia); apply IH in H; simpl in *; lia.
Qed.

Lemma scan_string_length escaped read l r rest :
  scan_string escaped read l = Some (r, rest) → (length rest ≤ length l)%nat.
Proof.
  revert escaped read. induction l as [|a l IH]; intros escaped read; simpl.
  - destruct read as [|b read]; [done|]. destruct (Ascii.eqb _ _); [|done]. by intros [= _ <-].
  - destruct (_ && _); [intros [= _ <-]; lia|].
    destruct (_ && _); intros H; apply IH in H; lia.
Qed.

Lemma tokens_loop_fuel parse n m index l :
  (length l ≤ n)%nat → (length l ≤ m)%nat →
  tokens_loop parse n index l = tokens_loop parse m index l.
Proof.
  revert m index l. induction n as [|n IH]; intros m index l Hn Hm.
  { destruct l; [|simpl in Hn; lia]. by destruct m. }
  destruct l as [|a l1]; [by destruct m|]. destruct m as [|m]; [simpl in Hm; lia|].
  cbn [tokens_loop]. simpl in Hn, Hm.
  assert (∀ i rest, (length rest ≤ length l1)%nat →
    tokens_loop parse n i rest = tokens_loop parse m i rest) as Hrest by (intros; apply IH; lia).
  assert (length (tail l1) ≤ length l1)%nat by (destruct l1; simpl; lia).
  destruct (is_ascii_whitespace a); [by apply Hrest|].
  destruct (Ascii.eqb a "#"); [apply Hrest, skip_line_length|].
  destruct (_ && _).
  { destruct (skip_comment _ _) as [rest|] eqn:E; [|done]. apply skip_comment_length in E.
    apply Hrest. lia. }
  destruct (_ && _).
  { destruct (skip_indented _) as [rest|] eqn:E; [|done]. apply skip_indented_length in E.
    apply Hrest. lia. }
  destruct (Ascii.eqb a dquote).
  { destruct (scan_string _ _ _) as [[r rest]|] eqn:E; [|done]. apply scan_string_length in E.
    simpl. destruct (parse _); simpl; [|done]. by rewrite Hrest. }
  destruct (_ || _).
  - rewrite Hrest; [done|]. cbn [length drop]. rewrite length_drop. lia.
  - by rewrite Hrest.
Qed.

(** Trimming never lengthens a text. *)
Lemma length_trim_start_bytes l : (length (trim_start_bytes l) ≤ length l)%nat.
Proof.
  induction l as [l IH] using (induction_ltof1 _ length); unfold ltof in IH.
  destruct l as [|a l1]; [done|]. cbn [trim_start_bytes].
  destruct (ws1 a); [etrans; [apply IH|]; simpl; lia|].
  destruct l1 as [|b l2]; [done|].
  destruct (ws2 a b); [etrans; [apply IH|]; simpl; lia|].
  destruct l2 as [|c l3]; [done|].
  destruct (ws3 a b c); [etrans; [apply IH|]; simpl; lia|done].
Qed.
Lemma length_trim_end_bytes l : (length (trim_end_bytes_rev l) ≤ length l)%nat.
Proof.
  induction l as [l IH] using (induction_ltof1 _ length); unfold ltof in IH.
  destruct l as [|a l1]; [done|]. cbn [trim_end_bytes_rev].
  destruct (ws1 a); [etrans; [apply IH|]; simpl; lia|].
  destruct l1 as [|b l2]; [done|].
  destruct (ws2 b a); [etrans; [apply IH|]; simpl; lia|].
  destruct l2 as [|c l3]; [done|].
  destruct (ws3 c b a); [etrans; [apply IH|]; simpl; lia|done].
Qed.
Lemma string_length_bytes s : String.length s = length (bytes s).
Proof. induction s; simpl; congruence. Qed.
Lemma length_trim_start s : (String.length (trim_start s) ≤ String.length s)%nat.
Proof.
  rewrite !string_length_bytes. unfold trim_start. rewrite bytes_of_bytes.
  apply length_trim_start_bytes.
Qed.
Lemma length_trim s : (String.length (trim s) ≤ String.length s)%nat.
Proof.
  etrans; [|apply length_trim_start]. unfold trim, trim_end.
  rewrite !string_length_bytes, bytes_of_bytes, length_rev.
  etrans; [apply length_trim_end_bytes|]. by rewrite length_rev.
Qed.

(** The loop over service names ends before its fuel does: each round removes
    at least the quotes of a name. *)
Lemma nss_names_fuel n k rest :
  (String.length rest ≤ n)%nat → (String.length rest ≤ k)%nat →
  nss_names_loop n rest = nss_names_loop k rest.
Proof.
  revert k rest. induction n as [|n IH]; intros k rest Hn Hk.
  { destruct rest; [by destruct k|simpl in Hn; lia]. }
  destruct k as [|k]; [destruct rest; [done|simpl in Hk; lia]|].
  cbn [nss_names_loop]. destruct (is_empty rest); [done|].
  set (quote := if starts_with _ rest then _ else _).
  destruct (strip_prefix quote rest) as [after|] eqn:E; [|done].
  destruct (find quote after) as [close|]; [|done].
  destruct (_ || _); [done|].
  apply strip_prefix_Some in E.
  assert (1 ≤ String.length quote)%nat by (subst quote; destruct (starts_with _ _); simpl; lia).
  assert (String.length rest = String.length quote + String.length after)%nat
    by (rewrite E, !string_length_bytes, bytes_app, length_app; lia).
  pose proof (length_trim_start (str_from (close + String.length quote) after)) as Hlen.
  rewrite length_str_from in Hlen. apply IH; lia.
Qed.

(** ** Composition with the job queue *)

Definition failure_text (f : Failure) : string :=
  match f with Protected e => error_text e | Panicked => "panicked" end.

(** The screening of the job queue.  A panic ends the operation without any
    effect, as a refusal does. *)
#[global] Instance nest_screening {deps : ProtectedDeps} : Screening := {|
  BuildJobs.redact_sensitive_key_values := Redact.redact_sensitive_key_values;
  BuildJobs.validate_build_spec v :=
    match ProtectedMaterial.validate_build_spec v with
    | Ok _ => None | Err e => Some (failure_text e) end;
  BuildJobs.validate_cache_metadata v :=
    match ProtectedMaterial.validate_cache_metadata v with
    | Ok _ => None | Err e => Some (failure_text e) end |}.

Lemma contains_app_l p x y : contains p x = true → contains p (x +:+ y) = true.
Proof.
  induction x as [|a x IH]; cbn [contains].
  - rewrite orb_false_r. intros H. apply starts_with_true in H as [t Ht].
    destruct p; [|done]. by destruct y.
  - rewrite str_app_cons. cbn [contains]. rewrite !orb_true_iff. intros [H|H]; [left|right; auto].
    apply starts_with_true in H as [t Ht]. apply starts_with_true. exists (t +:+ y).
    by rewrite <- str_app_assoc, <- Ht, str_app_cons.
Qed.

Lemma no_hash_app_l x y : no_hash (x +:+ y) → no_hash x.
Proof.
  intros H p Hp. specialize (H p Hp). rewrite lower_app in H.
  apply not_true_iff_false. intros Hx. by rewrite contains_app_l in H.
Qed.

(** A prefix of whole characters is a prefix. *)
Lemma bounded_bytes_prefix value max : 0 ≤ max → ∃ rest, value = bounded_bytes value max +:+ rest.
Proof.
  intros Hmax. unfold bounded_bytes. destruct (_ <=? _); [exists ""; by rewrite str_app_nil_r|].
  destruct (take_fitting_spec max (chars value) Hmax) as (rest & Hrest & _).
  exists (of_chars rest). rewrite <- (of_chars_chars value) at 1. rewrite Hrest at 1.
  unfold of_chars. by rewrite concat_app, of_bytes_app.
Qed.

Section Composed.
Context {serde : Serde} {deps : ProtectedDeps}.

Lemma bounded_log_text_clean value : no_hash (bounded_log_text value).
Proof.
  unfold bounded_log_text.
  destruct (bounded_bytes_prefix (BuildJobs.redact_sensitive_key_values value) MAX_BUILD_LOG_BYTES)
    as [rest Hrest]; [by vm_compute|].
  apply (no_hash_app_l _ rest). rewrite <- Hrest. by apply redact_hashes_clean.
Qed.

Definition logs_clean (d : JobDb) : Prop :=
  ∀ id row, jobs d !! id = Some row → no_hash (job_logs row).

Lemma no_hash_empty : no_hash "".
Proof. apply contains_hash_false. by vm_compute. Qed.

Lemma logs_clean_update P f d :
  logs_clean d → (∀ row, no_hash (job_logs row) → no_hash (job_logs (f row))) →
  logs_clean (update_where P f d).2.
Proof.
  intros Hd Hf id row'. rewrite update_where_lookup, fmap_Some. intros (row & Hrow & ->).
  specialize (Hd _ _ Hrow). destruct (P row); auto.
Qed.

Lemma logs_clean_insert d id row rem :
  logs_clean d → no_hash (job_logs row) →
  ∀ last, logs_clean {| jobs := <[id := row]> (jobs d); last_id := last; remediated := rem |}.
Proof.
  intros Hd Hrow last i r Hr. simpl in Hr. apply lookup_insert_Some in Hr as [[_ <-]|[_ Hr]];
    [done|by eapply Hd].
Qed.

Lemma logs_clean_insert_row mk d id d' :
  logs_clean d → (∀ id, no_hash (job_logs (mk id))) → insert_row mk d = Some (id, d') →
  logs_clean d'.
Proof.
  intros Hd Hmk. unfold insert_row. destruct (_ <? _); [|done]. intros [= <- <-].
  by apply logs_clean_insert.
Qed.

Lemma rows_clean d row : logs_clean d → row ∈ rows d → no_hash (job_logs row).
Proof.
  intros Hd (kv & -> & Hin)%list_elem_of_fmap. destruct kv as [id row].
  apply elem_of_map_to_list in Hin. by eapply Hd.
Qed.

Lemma find_managed_clean managed d row :
  logs_clean d → find_managed managed d = Some row → no_hash (job_logs row).
Proof.
  intros Hd H. apply List.find_some in H as [Hin _]. apply list_elem_of_In in Hin.
  by eapply rows_clean.
Qed.

Lemma cancel_managed_clean ids now n d :
  logs_clean d → logs_clean (cancel_managed_build_jobs ids now n d).2.
Proof.
  revert n d. induction ids as [|id ids IH]; intros n d Hd; simpl; [done|].
  destruct (normalize_managed_id _ _); [|done]. apply IH. by apply logs_clean_update.
Qed.

Lemma finish_logs status logs error path sha size code metadata f :
  validate_finish status logs error path sha size code metadata = Ok f →
  fin_logs f = bounded_log_text logs.
Proof.
  unfold validate_finish.
  repeat (match goal with |- context [rbind ?r _] => destruct r; simpl; [|done] end).
  by intros [= <-].
Qed.

Lemma create_clean r now d : logs_clean d → logs_clean (create_build_job r now d).2.
Proof.
  intros Hd. unfold create_build_job. destruct (rbind _ _) as [[inputs metadata]|]; [|done].
  destruct (insert_row _ d) as [[id d']|] eqn:E; [|done]. simpl.
  eapply logs_clean_insert_row; [exact Hd| |exact E]. intros; apply no_hash_empty.
Qed.

Lemma upsert_clean managed r now d : logs_clean d → logs_clean (upsert_managed_build_job managed r now d).2.
Proof.
  intros Hd. unfold upsert_managed_build_job.
  destruct (rbind _ _) as [[[m inputs] metadata]|]; [|done]. unfold upsert_row.
  destruct (find_managed m d) as [row|] eqn:Hf.
  - apply (find_managed_clean _ _ _ Hd) in Hf. by apply logs_clean_insert.
  - destruct (insert_row _ d) as [[id d']|] eqn:E; [|done]. simpl.
    eapply logs_clean_insert_row; [exact Hd| |exact E]. intros; apply no_hash_empty.
Qed.

Lemma reject_clean managed artifact target system revision hash reason now d :
  logs_clean d →
  logs_clean (record_rejected_managed_build_job managed artifact target system revision hash
                reason now d).2.
Proof.
  intros Hd. unfold record_rejected_managed_build_job.
  destruct (normalize_managed_id _ _) as [m|]; [|done].
  destruct (find_managed m d) as [row|] eqn:Hf.
  - case_bool_decide; [|done]. apply (find_managed_clean _ _ _ Hd) in Hf. by apply logs_clean_insert.
  - destruct (insert_row _ d) as [[id d']|] eqn:E; [|done]. simpl.
    eapply logs_clean_insert_row; [exact Hd| |exact E]. intros; apply no_hash_empty.
Qed.

Lemma claim_clean now d row d' :
  logs_clean d → claim_statement now d = (Some row, d') → logs_clean d'.
Proof.
  intros Hd. unfold claim_statement. destruct (merge_sort _ _) as [|r l]; [done|].
  intros [= _ <-]. apply logs_clean_insert; [done|]. apply no_hash_empty.
Qed.

Lemma job_step_clean p p' : job_step p p' → logs_clean (pool_db p) → logs_clean (pool_db p').
Proof.
  destruct 1; simpl; intros Hd; auto using create_clean, upsert_clean, reject_clean,
    cancel_managed_clean; try (by eapply claim_clean); try (by apply logs_clean_update).
  - apply logs_clean_update; [done|]. intros; apply bounded_log_text_clean.
  - apply logs_clean_update; [done|]. intros row _. simpl.
    match goal with E : validate_finish _ _ _ _ _ _ _ _ = Ok _ |- _ => rewrite (finish_logs _ _ _ _ _ _ _ _ _ E) end.
    apply bounded_log_text_clean.
Qed.

(** C38. The job queue composed with the real redaction: whatever the workers,
    the server and crashes do, no log that is stored holds a modular password
    hash. *)
Theorem stored_logs_hold_no_hash p p' :
  rtc job_step p p' → logs_clean (pool_db p) →
  ∀ id row, jobs (pool_db p') !! id = Some row →
    contains_modular_password_hash (job_logs row) = false.
Proof.
  intros Hrtc Hd id row Hrow. apply contains_hash_false.
  assert (logs_clean (pool_db p')) as Hd'; [|by eapply Hd'].
  clear Hrow. induction Hrtc as [|x y z Hs _ IH]; [done|]. apply IH. by eapply job_step_clean.
Qed.

End Composed.

(** ** Concrete documents *)

Module ProtectedDemo.

(** String literals without escapes; one digest. *)
#[local] Instance deps : ProtectedDeps := {|
  url_parse _ := None;
  json_string_from_str s := v ← strip_prefix dq s; strip_suffix dq v;
  json_string s := dq +:+ s +:+ dq;
  uuid_hyphenated s := Some s;
  sha256_hex_of _ := "aaaaaaaaaaaaaaaaaaaaaaaaaaaaaaaaaaaaaaaaaaaaaaaaaaaaaaaaaaaaaaaa" |}.

#[local] Instance serde : Serde := {| to_string _ := "{}"; from_str _ := Some (Object []) |}.

Definition digest : string := sha256_hex_of "".

Definition document : Value := Object
  [("accounts", Array [Object [("hashedPassword", Str "!"); ("name", Str "student")]]);
   ("passwordFile", Str "/run/secrets/admin")].

Lemma accepted_documents_are_clean_witness :
  validate_json "build_spec" document = Ok tt ∧ clean_here "build_spec" (Str "student").
Proof.
  assert (validate_json "build_spec" document = Ok tt) as Hok by (vm_compute; reflexivity).
  split; [exact Hok|].
  apply (proj1 (proj1 (accepted_documents_are_clean "build_spec" document)) Hok).
  eapply inside_field; [left|]. eapply inside_item; [left|].
  eapply inside_field; [right; left|]. apply inside_refl.
Defined.

(** The expected state of an installer target with one account. *)
Definition state : Value := Object
  [("checks", Array
      [Object [("expected", Object [("password_secret_ref", Str digest); ("username", Str "ann")]);
               ("id", Str "identity.local-account.ann.password");
               ("kind", Str "local-account-password-hash")];
       Object [("expected", Object [("accounts", Array
                  [Object [("admin", Bool false); ("display_name", Str "Ann");
                           ("groups", Array [Str "users"]); ("username", Str "ann")]])]);
               ("id", Str "identity.local-account.inventory");
               ("kind", Str "local-account-inventory")]]);
   ("compiler_version", Num (PosInt 2));
   ("deployment", Object [("blueprint_revision_id", Str "r1");
                          ("local_account_profile_generation_sha256", Str digest)]);
   ("schema", Str "tiaris.blueprint.expected-state.v2")].

Lemma installer_exemption_is_exact_witness :
  ∃ contract, installer_target_expected_state_public_projection state = Ok contract ∧
    NoDup (acc_username <$> con_accounts contract).
Proof.
  destruct (installer_target_expected_state_public_projection state) as [contract|e] eqn:E;
    [|vm_compute in E; discriminate E].
  exists contract. split; [reflexivity|].
  destruct (installer_exemption_is_exact state contract E) as (o & c & c' & g & _ & _ & _ & _ & H & _).
  exact H.
Defined.

(** A running job whose worker prints a password hash. *)
Definition running : BuildJobRow := {|
  job_id := 1; job_managed_id := None;
  job_inputs := {| ji_requested_artifact_type := "nixos_closure"; ji_build_spec := "{}";
                   ji_target := "t"; ji_system := "x86_64-linux"; ji_input_revision := "r";
                   ji_input_config_hash := digest |};
  job_status := "running"; job_progress := queued_progress; job_logs := ""; job_error := "";
  job_rejection_code := ""; job_output := no_output; job_cache_metadata := "{}";
  job_started_at := Some "a"; job_completed_at := None; job_cancel_requested_at := None;
  job_created_at := "a"; job_updated_at := "a" |}.
Definition before_logs : JobDb := {| jobs := {[ 1 := running ]}; last_id := 1; remediated := ∅ |}.
Definition after_logs : JobDb := update_build_job_logs 1 "user: $6$salt$hash" "b" before_logs.

Lemma stored_logs_hold_no_hash_witness :
  job_logs <$> jobs after_logs !! 1 = Some "user: [REDACTED]" ∧
  ∀ id row, jobs after_logs !! id = Some row →
    contains_modular_password_hash (job_logs row) = false.
Proof.
  split; [vm_compute; reflexivity|].
  apply (stored_logs_hold_no_hash {| pool_db := before_logs; held := [1] |}
           {| pool_db := after_logs; held := [1] |}).
  - apply rtc_once, step_logs.
  - intros id row. simpl. rewrite lookup_singleton_Some. intros [_ <-]. apply no_hash_empty.
Defined.

(** The lexer takes the escape [''$] of an indented string for its end, so what
    Nix reads as code after such a string is taken for the text of another: a
    module that Nix would let define an account is accepted. *)
Definition hidden_users_module : string :=
  "{ ... }: { x = '' ''$ ''; users.users.mallory = { }; y = '' ''$ ''; }".

Example hidden_users_are_accepted :
  nix_module_may_define_users json_string_from_str hidden_users_module = false ∧
  validate_installer_target_non_blueprint_module "extra_module" hidden_users_module = Ok tt ∧
  nix_module_may_define_users json_string_from_str
    "{ ... }: { users.users.mallory = { }; }" = true.
Proof. by vm_compute. Qed.

(** The value of a name service option is cut to 4096 bytes without regard to
    characters: a document with a two-byte character across that offset makes
    the check panic. *)
Fixpoint repeat_text (n : nat) (s : string) : string :=
  match n with O => "" | S n => s +:+ repeat_text n s end.
Definition long_option : string :=
  "system.nssDatabases.passwd = xx" +:+ repeat_text 2100 (of_bytes [char_of 195; char_of 169]).

Example long_option_panics : validate_generated_nix long_option = Err Panicked.
Proof. vm_compute. reflexivity. Qed.

End ProtectedDemo.
