(* ===== verification/BuildJobsTheorems.v ===== *)
(** * The build job queue: what it guarantees

    The theorems about the job table of [src/db.rs], with witnesses on a
    concrete codec and a concrete table. *)

From stdpp Require Import sorting relations base gmap list strings.
From Stdlib Require Import Ascii ZArith Lia.
From S2P Require Import Prelude RustStr Json DbText BuildJobs DbTextProofs BuildJobsProofs.

#[local] Open Scope Z_scope.
#[local] Open Scope nest_scope.

Section Theorems.
Context {serde : Serde} {screening : Screening}.

(** A worker claims the oldest queued job, by creation time and then by
    identifier; the claim marks it running and clears a stale cancellation,
    and touches no other job.  It claims nothing only if nothing is queued. *)
Theorem claim_takes_the_oldest now d :
  jobs_ok d →
  match claim_statement now d with
  | (Some row', d') => ∃ row,
      jobs d !! job_id row = Some row ∧ job_status row = "queued" ∧
      row' = claim_row now row ∧ jobs d' = <[job_id row := row']> (jobs d) ∧
      job_status row' = "running" ∧ job_cancel_requested_at row' = None ∧
      (∀ id r, jobs d !! id = Some r → job_status r = "queued" →
         String.le (job_created_at row) (job_created_at r) ∧
         (job_created_at row = job_created_at r → job_id row ≤ job_id r))
  | (None, d') => d' = d ∧ ∀ id r, jobs d !! id = Some r → job_status r ≠ "queued"
  end.
Proof.
  intros Hok. destruct (claim_statement now d) as [[row'|] d'] eqn:Hc.
  - destruct (claim_statement_Some _ _ _ _ Hok Hc) as (row & -> & Hr & Hq & -> & Hmin).
    exists row. split_and!; auto.
  - by apply claim_statement_None in Hc.
Qed.

(** A requested cancellation wins over any outcome a worker reports: the
    job ends cancelled, with no output and no exit code.  Without one, it ends
    with the reported status and output.  Either way it is complete at 100%. *)
Theorem finish_honours_cancellation id f status logs error path sha size code metadata now d row :
  validate_finish status logs error path sha size code metadata = Ok f →
  jobs d !! id = Some row → job_id row = id → id ∉ remediated d →
  ∃ row', jobs (finish_build_job id status logs error path sha size code metadata now d).2 !! id
            = Some row' ∧
    job_completed_at row' = Some now ∧ jp_percent (job_progress row') = Some 100 ∧
    (is_Some (job_cancel_requested_at row) ∧ job_status row' = "cancelled" ∧
       (status ≠ "cancelled" → job_output row' = no_output) ∨
     job_cancel_requested_at row = None ∧ job_status row' = status ∧
       jo_size_bytes (job_output row') = size ∧ jo_exit_code (job_output row') = code ∧
       0 ≤ size) ∧
    len (job_logs row') ≤ MAX_BUILD_LOG_BYTES.
Proof.
  intros Hval Hr Hid Hrem. unfold finish_build_job. rewrite Hval. cbn [snd].
  rewrite (finish_statement_lookup id f now d row) by done. eexists. split; [done|].
  assert (fin_status f = status ∧ fin_logs f = bounded_log_text logs ∧
          jo_size_bytes (fin_output f) = size ∧ jo_exit_code (fin_output f) = code ∧ 0 ≤ size)
    as (Hs & Hl & Hsize & Hcode & Hpos).
  { revert Hval. unfold validate_finish, validate_terminal_build_status,
      validate_non_negative_i64, guard_valid.
    destruct (terminal_status status); simpl; [|done].
    destruct (normalize_optional_absolute_path _ _); simpl; [|done].
    destruct (normalize_sha256 _ _ _); simpl; [|done].
    destruct (0 <=? size) eqn:Hz; simpl; [|done].
    destruct (metadata_to_string metadata _); simpl; [|done].
    destruct (metadata_to_string _ _); simpl; [|done].
    intros [= <-]. bool_prop. by split_and!. }
  split_and!; simpl; auto.
  - destruct (job_cancel_requested_at row) as [c|] eqn:Hc; [left|right].
    + rewrite bool_decide_true by done. simpl. case_bool_decide as Hcs; simpl.
      * split_and!; [done|done|]. intros. congruence.
      * by split_and!.
    + rewrite bool_decide_false by by intros []. simpl. by split_and!.
  - rewrite Hl. unfold bounded_log_text. apply bounded_bytes_len. by vm_compute.
Qed.

(** A managed job this Nest refuses is always recorded under a well-formed
    identifier: a queued or new job becomes failed with an enumerated code and
    a bounded error, and a job that has already started or ended is left as it
    is. *)
Theorem rejection_is_recorded managed m artifact target system revision hash reason now d :
  jobs_ok d → normalize_managed_id managed "managed_job_id" = Ok m → last_id d < i64_max →
  let '(r, d') := record_rejected_managed_build_job managed artifact target system revision
                    hash reason now d in
  r = Ok tt ∧ ∃ row', find_managed m d' = Some row' ∧
    match find_managed m d with
    | Some row => if bool_decide (job_status row = "queued")
                  then job_status row' = "failed" ∧
                       job_rejection_code row' = classify_validation_rejection reason
                  else d' = d
    | None => job_status row' = "failed" ∧
              job_rejection_code row' = classify_validation_rejection reason ∧
              (length (chars (job_error row')) ≤ 2048)%nat
    end.
Proof.
  intros Hok Hm Hlast. unfold record_rejected_managed_build_job. rewrite Hm.
  destruct (find_managed m d) as [row|] eqn:Hf.
  - case_bool_decide as Hq; [|by split; [|exists row]]. split; [done|].
    destruct (find_managed_Some _ _ _ Hok Hf) as [Hr Hmm].
    set (row' := reject_row _ _ _ row). exists row'. split; [|done].
    destruct (insert_existing_ok d row row') as [Hok' _]; [done|done| | |].
    { apply row_evolves_open; auto. }
    { simpl. unfold ALLOWED_BUILD_STATES. set_solver. }
    apply (find_managed_intro _ _ (job_id row)); [done|by simpl; rewrite lookup_insert_eq|done].
  - unfold insert_row. rewrite (proj2 (Z.ltb_lt _ _)) by done.
    split; [done|]. set (row' := rejected_row _ _ _ _ _ _). exists row'.
    split; [|split_and!; [done|done|apply take_chars_length]].
    destruct (insert_row_ok (rejected_row m {|
        ji_requested_artifact_type := sanitize_report_field artifact 64 "unknown";
        ji_build_spec := "{}"; ji_target := sanitize_report_field (default "" target) 64 "";
        ji_system := sanitize_report_field (default "" system) 64 "x86_64-linux";
        ji_input_revision := sanitize_report_field revision 256 "";
        ji_input_config_hash := sanitize_report_field hash 64 "" |}
        (truncate_chars ("Nest rejected this build job: " +:+ reason) 2048)
        (classify_validation_rejection reason) now) d (last_id d + 1)
        {| jobs := <[last_id d + 1 := row']> (jobs d); last_id := last_id d + 1;
           remediated := remediated d |}) as (Hok' & _ & Hnew & _); [done| | | |].
    + unfold insert_row. by rewrite (proj2 (Z.ltb_lt _ _)) by done.
    + intros i. split; [done|]. simpl. unfold ALLOWED_BUILD_STATES. set_solver.
    + intros m' row i [= <-] Hr. by eapply find_managed_None.
    + by apply (find_managed_intro _ _ (last_id d + 1)).
Qed.

(** ** Creation *)

Lemma build_spec_fields value a t sy rv h text :
  build_spec_to_string value a t sy rv h = Ok text →
  ∃ fields, text = to_string (Object fields) ∧
    obj_get "artifact_type" fields = Some (Str a) ∧ obj_get "target" fields = Some (Str t) ∧
    obj_get "system" fields = Some (Str sy) ∧ obj_get "input_revision" fields = Some (Str rv) ∧
    obj_get "input_config_hash" fields = Some (Str h).
Proof.
  unfold build_spec_to_string. destruct (match value with None => _ | _ => _ end) as [fields|];
    [|done]. destruct (validate_build_spec _); [done|]. destruct (_ <? _); [done|].
  intros [= <-]. eexists. split; [done|].
  split_and!; rewrite ?obj_get_insert_ne by done; apply obj_get_insert.
Qed.

Lemma metadata_to_string_object value field text :
  metadata_to_string value field = Ok text → ∃ fields, text = to_string (Object fields).
Proof.
  unfold metadata_to_string, metadata_to_string_with_limit.
  destruct (is_object _) eqn:Ho; simpl; [|done].
  destruct (validate_cache_metadata _); [done|]. destruct (_ <? _); [done|].
  intros [= <-]. destruct (default _ value) as [| | | | |fields]; try done. eauto.
Qed.

(** A job that is accepted is queued under a fresh identifier with its
    inputs in normal form, can be read back as it was returned, and its build
    specification states the very inputs the row was stored with, whatever the
    request's own specification said. *)
Theorem created_job_is_queued_as_specified r now d job d' :
  (∀ v, from_str (to_string v) = Some v) → jobs_ok d →
  create_build_job r now d = (Ok job, d') →
  let row := bj_row job in let i := job_inputs row in
  jobs d !! job_id row = None ∧ jobs d' = <[job_id row := row]> (jobs d) ∧
  job_status row = "queued" ∧ job_managed_id row = None ∧
  get_build_job (job_id row) d' = Ok job ∧
  get "artifact_type" (bj_build_spec job) = Some (Str (ji_requested_artifact_type i)) ∧
  get "target" (bj_build_spec job) = Some (Str (ji_target i)) ∧
  get "system" (bj_build_spec job) = Some (Str (ji_system i)) ∧
  get "input_revision" (bj_build_spec job) = Some (Str (ji_input_revision i)) ∧
  get "input_config_hash" (bj_build_spec job) = Some (Str (ji_input_config_hash i)).
Proof.
  intros Hserde Hok Hcreate. unfold create_build_job in Hcreate.
  destruct (normalize_inputs r) as [inputs|] eqn:Hin; simpl in Hcreate; [|done].
  destruct (metadata_to_string (cb_cache_metadata r) _) as [metadata|] eqn:Hmd;
    simpl in Hcreate; [|done].
  destruct (insert_row _ d) as [[id d1]|] eqn:Hins; [|done].
  injection Hcreate as Hget <-.
  destruct (insert_row_ok _ _ _ _ Hok Hins) as (_ & _ & Hnew & Hfresh);
    [by intros i; split; [|simpl; unfold ALLOWED_BUILD_STATES; set_solver]|done|].
  assert (∃ fields, ji_build_spec inputs = to_string (Object fields) ∧
    obj_get "artifact_type" fields = Some (Str (ji_requested_artifact_type inputs)) ∧
    obj_get "target" fields = Some (Str (ji_target inputs)) ∧
    obj_get "system" fields = Some (Str (ji_system inputs)) ∧
    obj_get "input_revision" fields = Some (Str (ji_input_revision inputs)) ∧
    obj_get "input_config_hash" fields = Some (Str (ji_input_config_hash inputs)))
    as (fields & Hspec & Hfields).
  { unfold normalize_inputs in Hin.
    repeat (match type of Hin with context [rbind ?x _] => destruct x eqn:? ; simpl in Hin; [|done] end).
    injection Hin as <-. simpl. by apply (build_spec_fields (cb_build_spec r)). }
  destruct (metadata_to_string_object _ _ _ Hmd) as (mfields & Hm).
  unfold get_build_job in Hget. rewrite Hnew in Hget. unfold try_from_row, metadata_from_db in Hget.
  simpl in Hget. rewrite Hspec, Hm, !Hserde in Hget. simpl in Hget. injection Hget as <-.
  unfold insert_row in Hins. destruct (_ <? _); simplify_eq/=.
  split_and!; try done; try by apply Hfields.
  unfold get_build_job. simpl. rewrite lookup_insert_eq. unfold try_from_row, metadata_from_db.
  simpl. by rewrite Hspec, !Hserde.
Qed.

(** ** Cancellation *)

Lemma cancel_row_settled now row :
  active_status (job_status row) = true →
  job_status (cancel_row now row) ≠ "queued" ∧
  (job_status (cancel_row now row) = "running" →
     job_cancel_requested_at (cancel_row now row) = Some now).
Proof.
  unfold active_status, cancel_row. intros Ha. bool_prop. simpl.
  case_bool_decide as Hq; [by split|]. split; [done|]. intros Hr.
  by rewrite bool_decide_true.
Qed.

(** A settled job: not queued, and if running then told to stop. *)
Definition settled (row : BuildJobRow) : Prop :=
  job_status row ≠ "queued" ∧
  (job_status row = "running" → is_Some (job_cancel_requested_at row)).

Lemma cancel_row_keeps_settled now row : settled row → settled (cancel_row now row).
Proof.
  intros [Hq Hr]. unfold settled, cancel_row. simpl.
  rewrite (bool_decide_false (job_status row = "queued")) by done. split; [done|].
  intros Hs. by rewrite bool_decide_true.
Qed.

(** What one identifier of the list does to a row. *)
Definition cancel_if (now : string) (row : BuildJobRow) (m : string) : BuildJobRow :=
  if has_managed_id m row && active_status (job_status row) then cancel_row now row else row.

Lemma cancel_managed_lookup ids now n d k :
  (cancel_managed_build_jobs ids now n d).1 = Ok k → ∃ ms,
    Forall2 (λ text m, normalize_managed_id text "managed_job_id" = Ok m) ids ms ∧
    ∀ id, jobs (cancel_managed_build_jobs ids now n d).2 !! id =
          (λ row, foldl (cancel_if now) row ms) <$> jobs d !! id.
Proof.
  revert n d. induction ids as [|text ids IH]; intros n d Hres; simpl in *.
  - exists []. split; [constructor|]. intros id. by destruct (jobs d !! id).
  - destruct (normalize_managed_id text _) as [m|] eqn:Hm; [|done]. simpl in *.
    destruct (IH _ _ Hres) as (ms & Hms & Hlook). exists (m :: ms).
    split; [by constructor|]. intros id. rewrite Hlook. simpl.
    rewrite lookup_fmap. by destruct (jobs d !! id).
Qed.

Lemma cancel_if_managed now row m : job_managed_id (cancel_if now row m) = job_managed_id row.
Proof. unfold cancel_if. by destruct (_ && _). Qed.

Lemma cancel_if_settles now row m :
  (settled row → settled (cancel_if now row m)) ∧
  (job_managed_id row = Some m → settled (cancel_if now row m)).
Proof.
  unfold cancel_if, has_managed_id. split.
  - intros Hs. destruct (_ && _); [by apply cancel_row_keeps_settled|done].
  - intros Hm. rewrite bool_decide_true by done. simpl.
    destruct (active_status (job_status row)) eqn:Ha.
    + destruct (cancel_row_settled now row Ha) as [Hq Hr]. split; [done|]. intros Hs.
      by rewrite Hr.
    + unfold active_status in Ha. bool_prop. split; set_solver.
Qed.

Lemma cancel_fold_settles now ms row m :
  job_managed_id row = Some m → settled row ∨ m ∈ ms → settled (foldl (cancel_if now) row ms).
Proof.
  revert row. induction ms as [|m' ms IH]; intros row Hm Hcase; simpl.
  - destruct Hcase as [|Hin]; [done|]. by apply not_elem_of_nil in Hin.
  - apply IH; [by rewrite cancel_if_managed|]. destruct (cancel_if_settles now row m') as [H1 H2].
    destruct Hcase as [|Hin]; [auto|]. apply elem_of_cons in Hin as [->|]; auto.
Qed.

(** After Tiaris withdraws jobs, none of them is still queued, and the
    worker of each one that is running sees the request to stop. *)
Theorem withdrawn_jobs_stop ids now n d k text m id row :
  (cancel_managed_build_jobs ids now n d).1 = Ok k → now ≠ "" →
  text ∈ ids → normalize_managed_id text "managed_job_id" = Ok m →
  jobs d !! id = Some row → job_managed_id row = Some m →
  (∀ v, job_cancel_requested_at row = Some v → v ≠ "") →
  let d' := (cancel_managed_build_jobs ids now n d).2 in
  ∃ row', jobs d' !! id = Some row' ∧ job_status row' ≠ "queued" ∧
    (job_status row' = "running" → build_job_cancel_requested id d' = true).
Proof.
  intros Hres Hnow Hin Hm Hr Hmr Hreq. simpl.
  destruct (cancel_managed_lookup _ _ _ _ _ Hres) as (ms & Hms & Hlook).
  rewrite Hlook, Hr. eexists. split; [done|].
  destruct (cancel_fold_settles now ms row m) as [Hq Hrun]; [done|right|].
  { apply list_elem_of_lookup in Hin as [i Hi].
    destruct (Forall2_lookup_l _ _ _ _ _ Hms Hi) as (m' & Hi' & Hm').
    assert (m' = m) as -> by congruence. by eapply list_elem_of_lookup_2. }
  split; [done|]. intros Hs. unfold build_job_cancel_requested. rewrite Hlook, Hr. simpl.
  destruct (Hrun Hs) as [v Hv]. rewrite Hv.
  assert (v ≠ "") as Hne.
  { clear -Hv Hreq Hnow. revert row Hreq Hv. induction ms as [|m' ms IH]; intros row Hreq Hv;
      simpl in *; [by apply Hreq|]. apply (IH (cancel_if now row m')); [|done].
    intros u. unfold cancel_if. destruct (_ && _); [|apply Hreq]. simpl.
    case_bool_decide; [by intros [= <-]|apply Hreq]. }
  rewrite is_empty_false by done. by rewrite orb_true_r.
Qed.

(** ** The report page *)

Lemma interleave_elem fuel groups x :
  (∀ g, g ∈ groups → (length g ≤ fuel)%nat) →
  x ∈ interleave fuel groups ↔ ∃ g, g ∈ groups ∧ x ∈ g.
Proof.
  revert groups. induction fuel as [|fuel IH]; intros groups Hlen; simpl.
  - split; [intros H; by apply not_elem_of_nil in H|]. intros (g & Hg & Hx).
    specialize (Hlen g Hg). destruct g; [by apply not_elem_of_nil in Hx|simpl in *; lia].
  - rewrite elem_of_app, list_elem_of_omap, IH.
    + split.
      * intros [(g & Hg & Hx)|(g & Hg & Hx)].
        -- exists g. split; [done|]. destruct g; simplify_eq/=. left.
        -- apply list_elem_of_fmap in Hg as (g' & -> & Hg'). exists g'. split; [done|].
           destruct g'; [by apply not_elem_of_nil in Hx|by right].
      * intros (g & Hg & Hx). destruct g as [|y g]; [by apply not_elem_of_nil in Hx|].
        apply elem_of_cons in Hx as [->|Hx]; [left; by exists (y :: g)|right].
        exists g. split; [|done]. by apply (list_elem_of_fmap_2' tail _ (y :: g)).
    + intros g Hg. apply list_elem_of_fmap in Hg as (g' & -> & Hg').
      specialize (Hlen g' Hg'). destruct g'; simpl in *; lia.
Qed.

Lemma report_order_elem a r t round d row :
  jobs_ok d →
  row ∈ report_order a r t round d ↔
  jobs d !! job_id row = Some row ∧ is_Some (job_managed_id row).
Proof.
  intros Hok. unfold report_order. set (cursor := group_cursor a r t). rewrite interleave_elem.
  - rewrite <- elem_of_rows by done. split.
    + intros (g & Hg & Hx). apply list_elem_of_fmap in Hg as (k & -> & _).
      cbv beta in Hx. unfold group_rotation in Hx. rewrite (merge_sort_Permutation (rotation_le (cursor k))) in Hx.
      rewrite list_elem_of_In, List.filter_In, <- list_elem_of_In in Hx.
      destruct Hx as [? Hx]. by bool_prop.
    + intros [Hin Hm]. set (k := report_group row). exists (group_rotation (cursor k) k d). split.
      * apply (list_elem_of_fmap_2 (λ g, group_rotation (cursor g) g d)).
        assert (k ∈ [0; 1; 2]%nat) as Hk
          by (unfold k, report_group; repeat case_match; set_solver).
        unfold group_order. repeat case_match; set_solver.
      * unfold group_rotation. rewrite (merge_sort_Permutation (rotation_le (cursor k))).
        rewrite list_elem_of_In, List.filter_In, <- list_elem_of_In. split; [done|].
        rewrite bool_decide_true by done. apply Nat.eqb_refl.
  - intros g Hg. apply list_elem_of_fmap in Hg as (k & -> & _). cbv beta. unfold group_rotation.
    rewrite (merge_sort_Permutation (rotation_le (cursor k))).
    etrans; [apply (count_le (λ row, _))|]. unfold rows.
    by rewrite length_fmap, length_map_to_list.
Qed.

Lemma rows_to_models_rows l js : build_job_rows_to_models l = Ok js → bj_row <$> js = l.
Proof.
  revert js. induction l as [|row l IH]; intros js H; simpl in H; [by injection H as <-|].
  destruct (try_from_row row) as [job|] eqn:Hj; simpl in H; [|done].
  destruct (build_job_rows_to_models l) as [rest|] eqn:Hr; simpl in H; [|done].
  injection H as <-. simpl. f_equal; [|by apply IH].
  unfold try_from_row in Hj. destruct (metadata_from_db _ _); simpl in Hj; [|done].
  destruct (metadata_from_db _ _); simpl in Hj; [|done]. by injection Hj as <-.
Qed.

(** A page of build evidence is a prefix of the rotated order of the
    managed jobs, holds at most the requested number of jobs and, beyond its
    first one, at most the byte budget; it is empty only when there is no
    managed job, so one oversized job cannot block reporting. *)
Theorem report_page_is_bounded_and_live a r t round max_items budget d page :
  jobs_ok d → list_build_jobs_report_page a r t round max_items budget d = Ok page →
  (∃ rest, report_order a r t round d = (bj_row <$> page) ++ rest) ∧
  Z.of_nat (length page) ≤ Z.max 1 max_items ∧
  (sum_Z (estimated_bytes <$> (bj_row <$> page)) ≤ Z.max 1 budget ∨ (length page ≤ 1)%nat) ∧
  (∀ job, job ∈ page → is_Some (job_managed_id (bj_row job))) ∧
  (page = [] → ∀ id row, jobs d !! id = Some row → job_managed_id row = None).
Proof.
  intros Hok Hpage. unfold list_build_jobs_report_page in Hpage.
  apply rows_to_models_rows in Hpage. set (m := Z.min (Z.max max_items 1) i64_max) in *.
  set (b := Z.min (Z.max budget 1) i64_max) in *.
  set (order := report_order a r t round d) in *.
  destruct (within_page_spec estimated_bytes estimated_bytes_nonneg 1 0 m b order)
    as (rest & Horder & Hlen & Hsum); [done|].
  change (within_page estimated_bytes 1 0 m b order) with (within_bounds 1 0 m b order) in *.
  rewrite <- Hpage in *. rewrite length_fmap in *. cbn [Z.eqb Pos.eqb] in *.
  assert (1 ≤ m) as Hm by (unfold m, i64_max; lia).
  split_and!; [by exists rest|lia| | |].
  - destruct Hsum as [Hsum|Hsum]; [left; lia|by right].
  - intros job Hin. apply (list_elem_of_fmap_2 bj_row) in Hin.
    assert (bj_row job ∈ order) as Ho by (rewrite Horder; apply elem_of_app; by left).
    unfold order in Ho. by rewrite report_order_elem in Ho by done; destruct Ho.
  - intros -> id row Hr. destruct (job_managed_id row) eqn:Hm'; [exfalso|done].
    assert (row ∈ order) as Hin.
    { apply report_order_elem; [done|]. split; [|by eexists].
      by destruct (jobs_ids _ Hok _ _ Hr) as [-> _]. }
    destruct order as [|row0 order']; [by apply not_elem_of_nil in Hin|].
    simpl in Hpage. done.
Qed.

(** The statement of [cancel_absent_managed_build_jobs] has no guard on the
    status: when a listed job finishes before it runs, the finished job is left
    reporting that its cancellation is still pending. *)
Theorem late_cancellation_overwrites_progress id now d row :
  jobs_ok d → jobs d !! id = Some row → job_status row = "succeeded" →
  ∃ row', jobs (cancel_statement id now d) !! id = Some row' ∧
    job_status row' = "succeeded" ∧ jp_stage (job_progress row') = Some "cancelling".
Proof.
  intros Hok Hr Hs. unfold cancel_statement. rewrite update_where_lookup, Hr. simpl.
  destruct (jobs_ids _ Hok _ _ Hr) as [-> _]. rewrite Z.eqb_refl. eexists. split; [done|].
  unfold cancel_row. simpl. by rewrite Hs.
Qed.
End Theorems.

(** ** Witnesses *)
Module JobsDemo.

(** A codec for JSON values: a tree of stdpp, encoded in binary. *)
Abbreviation leaf := (bool + (Z * Z) + string)%type.

Definition number_pair (n : Number) : Z * Z :=
  match n with PosInt z => (0, z) | NegInt z => (1, z) | Float z => (2, z) end.
Definition pair_number (p : Z * Z) : Number :=
  if p.1 =? 0 then PosInt p.2 else if p.1 =? 1 then NegInt p.2 else Float p.2.

Fixpoint tree (v : Value) : gen_tree leaf :=
  match v with
  | Null => GenNode 0 []
  | Bool b => GenLeaf (inl (inl b))
  | Num n => GenLeaf (inl (inr (number_pair n)))
  | Str s => GenLeaf (inr s)
  | Array items => GenNode 1 (tree <$> items)
  | Object fields => GenNode 2 ((λ kv, GenNode 3 [GenLeaf (inr kv.1); tree kv.2]) <$> fields)
  end.

Fixpoint untree (t : gen_tree leaf) : option Value :=
  match t with
  | GenNode 0 _ => Some Null
  | GenLeaf (inl (inl b)) => Some (Bool b)
  | GenLeaf (inl (inr p)) => Some (Num (pair_number p))
  | GenLeaf (inr s) => Some (Str s)
  | GenNode 1 items => Some (Array (omap untree items))
  | GenNode 2 fields =>
      Some (Object (omap (λ t, match t with
                               | GenNode 3 [GenLeaf (inr k); v] => v' ← untree v; Some (k, v')
                               | _ => None
                               end) fields))
  | _ => None
  end.

Lemma untree_tree : ∀ v, untree (tree v) = Some v.
Proof.
  fix IH 1. intros [|b|n|s|items|fields]; simpl; try done.
  - by destruct n.
  - do 2 f_equal. induction items as [|v items IHi]; simpl; [done|]. rewrite IH. simpl.
    by f_equal.
  - do 2 f_equal. induction fields as [|[k v] fields IHf]; simpl; [done|]. rewrite IH. simpl.
    by f_equal.
Qed.

#[local] Instance serde : Serde := {|
  to_string v := bits (encode (tree v));
  from_str s := t ← decode (from_bits s); untree t;
|}.
#[local] Instance screening : Screening := {|
  redact_sensitive_key_values s := s;
  validate_build_spec _ := None;
  validate_cache_metadata _ := None;
|}.

Lemma codec v : from_str (to_string v) = Some v.
Proof.
  simpl. rewrite from_bits_bits, decode_encode. apply untree_tree.
Qed.

Definition empty_db : JobDb := {| jobs := ∅; last_id := 0; remediated := ∅ |}.

Definition request : CreateBuildJobRequest := {|
  cb_requested_artifact_type := " Nixos_Closure"; cb_build_spec := None; cb_target := None;
  cb_system := None; cb_input_revision := "rev1";
  cb_input_config_hash :=
    "00000000000000000000000000000000000000000000000000000000000000AB";
  cb_cache_metadata := None |}.

Definition queued : JobDb := (upsert_managed_build_job "job-1" request "t1" empty_db).2.

Lemma empty_ok : jobs_ok empty_db.
Proof. split; simpl; intros; simplify_map_eq. Qed.

Lemma queued_ok : jobs_ok queued.
Proof. apply upsert_ok, empty_ok. Qed.

Lemma claim_takes_the_oldest_witness :
  ∃ row, (claim_statement "t2" queued).1 = Some (claim_row "t2" row).
Proof.
  pose proof (claim_takes_the_oldest "t2" queued queued_ok) as H.
  assert (bool_decide (job_id <$> (claim_statement "t2" queued).1 = Some 1) = true) as Hid
    by (vm_compute; reflexivity).
  destruct (claim_statement "t2" queued) as [[row'|] d'] eqn:Hc; [|done].
  destruct H as (row & _ & _ & -> & _). by exists row.
Defined.

Definition running : JobDb := (cancel_managed_build_jobs ["job-1"] "t3" 0
  (claim_statement "t2" queued).2).2.

Lemma finish_honours_cancellation_witness :
  ∃ f row row', validate_finish "succeeded" "done" "" "" "" 0 (Some 0) None = Ok f ∧
    jobs running !! 1 = Some row ∧
    jobs (finish_build_job 1 "succeeded" "done" "" "" "" 0 (Some 0) None "t4" running).2 !! 1
      = Some row' ∧ job_completed_at row' = Some "t4".
Proof.
  destruct (validate_finish "succeeded" "done" "" "" "" 0 (Some 0) None) as [f|e] eqn:Hf;
    [|exfalso; by apply (f_equal is_ok) in Hf; vm_compute in Hf].
  destruct (jobs running !! 1) as [row|] eqn:Hr;
    [|exfalso; by apply (f_equal (λ o, match o with Some _ => true | None => false end)) in Hr;
      vm_compute in Hr].
  assert (job_id row = 1) as Hid.
  { apply (f_equal (λ o, default 0 (job_id <$> o))) in Hr. by vm_compute in Hr. }
  destruct (finish_honours_cancellation 1 f "succeeded" "done" "" "" "" 0 (Some 0) None "t4"
    running row Hf Hr Hid) as (row' & Hr' & Hc & _).
  { change (remediated running) with (remediated empty_db). apply not_elem_of_empty. }
  exists f, row, row'. split_and!; [done|done|exact Hr'|exact Hc].
Defined.

Lemma rejection_is_recorded_witness :
  (record_rejected_managed_build_job "job-9" "x" None None "r" "h" "target must be safe" "t"
     queued).1 = Ok tt.
Proof.
  pose proof (rejection_is_recorded "job-9" "job-9" "x" None None "r" "h" "target must be safe"
    "t" queued queued_ok) as H.
  destruct (record_rejected_managed_build_job _ _ _ _ _ _ _ _ _) as [r d'].
  destruct H as [-> _]; [vm_compute; reflexivity|vm_compute; reflexivity|reflexivity].
Defined.

Lemma created_job_is_queued_as_specified_witness :
  ∃ job d', create_build_job request "t1" empty_db = (Ok job, d') ∧
    job_status (bj_row job) = "queued".
Proof.
  destruct (create_build_job request "t1" empty_db) as [[job|e] d'] eqn:Hc;
    [|exfalso; by apply (f_equal (λ x, is_ok x.1)) in Hc; vm_compute in Hc].
  exists job, d'. split; [done|].
  apply (created_job_is_queued_as_specified request "t1" empty_db job d' codec empty_ok Hc).
Defined.

Lemma withdrawn_jobs_stop_witness :
  ∃ row', jobs (cancel_managed_build_jobs ["job-1"] "t3" 0 queued).2 !! 1 = Some row' ∧
    job_status row' ≠ "queued".
Proof.
  destruct (jobs queued !! 1) as [row|] eqn:Hr;
    [|exfalso; by apply (f_equal (λ o, match o with Some _ => true | None => false end)) in Hr;
      vm_compute in Hr].
  assert (job_managed_id row = Some "job-1" ∧ job_cancel_requested_at row = None) as [Hm Hreq].
  { split; [apply (f_equal (λ o, o ≫= job_managed_id)) in Hr
           |apply (f_equal (λ o, o ≫= job_cancel_requested_at)) in Hr];
      vm_compute in Hr; by symmetry. }
  destruct (withdrawn_jobs_stop ["job-1"] "t3" 0 queued 1 "job-1" "job-1" 1 row)
    as (row' & Hr' & Hq & _);
    [vm_compute; reflexivity|done|apply list_elem_of_here|vm_compute; reflexivity|done|done|
     by rewrite Hreq|].
  exists row'. split; [exact Hr'|exact Hq].
Defined.

Lemma report_page_is_bounded_and_live_witness :
  ∃ page, list_build_jobs_report_page None None None 0 8 100000 queued = Ok page ∧
    Z.of_nat (length page) ≤ 8.
Proof.
  destruct (list_build_jobs_report_page None None None 0 8 100000 queued) as [page|e] eqn:Hp;
    [|exfalso; by apply (f_equal is_ok) in Hp; vm_compute in Hp].
  exists page. split; [done|].
  by destruct (report_page_is_bounded_and_live None None None 0 8 100000 queued page queued_ok Hp)
    as (_ & H & _).
Defined.

Definition finished : JobDb :=
  {| jobs := {[ 1 := {| job_id := 1; job_managed_id := Some "job-1";
       job_inputs := {| ji_requested_artifact_type := "nixos_closure"; ji_build_spec := "";
                        ji_target := "t"; ji_system := "s"; ji_input_revision := "r";
                        ji_input_config_hash := "h" |};
       job_status := "succeeded";
       job_progress := {| jp_percent := Some 100; jp_stage := Some "succeeded";
                          jp_message := None |};
       job_logs := ""; job_error := ""; job_rejection_code := ""; job_output := no_output;
       job_cache_metadata := ""; job_started_at := None; job_completed_at := Some "t4";
       job_cancel_requested_at := None; job_created_at := "t1"; job_updated_at := "t4" |} ]};
     last_id := 1; remediated := ∅ |}.

Lemma finished_ok : jobs_ok finished.
Proof.
  split; simpl.
  - intros id row [<- <-]%lookup_singleton_Some. done.
  - intros id row [<- <-]%lookup_singleton_Some. unfold ALLOWED_BUILD_STATES. set_solver.
  - by intros id1 id2 r1 r2 m [<- _]%lookup_singleton_Some [<- _]%lookup_singleton_Some.
Qed.

Lemma late_cancellation_overwrites_progress_witness :
  ∃ row', jobs (cancel_statement 1 "t5" finished) !! 1 = Some row' ∧
    jp_stage (job_progress row') = Some "cancelling".
Proof.
  edestruct (late_cancellation_overwrites_progress 1 "t5" finished) as (row' & Hr & _ & Hs);
    [apply finished_ok|vm_compute; reflexivity|reflexivity|].
  exists row'. split; [exact Hr|exact Hs].
Defined.
End JobsDemo.
