(* ===== verification/CacheArtifacts.v ===== *)
(** * Cache artifacts

    The inventory of the binary cache in [src/db.rs]: the tables
    [nest_cache_artifacts], [managed_cache_protections] and
    [cache_inventory_state], whose generation the triggers of the schema advance
    with every row that is inserted, updated or deleted.  Every SQL statement is
    one function on the tables, an operation its validations followed by its
    statements.  Times are inputs: [now] is the text [now_rfc3339] produced. *)

From stdpp Require Import sorting base gmap list strings.
From Stdlib Require Import Ascii ZArith Lia.
From S2P Require Import Prelude RustStr Json DbText BuildJobs.

#[local] Open Scope Z_scope.
#[local] Open Scope nest_scope.

(** What an artifact is and where it is; every column that is written together
    by [upsert_cache_artifact]. *)
Record ArtifactData := {
  ad_managed_artifact_id : option string;
  ad_size_bytes : Z;
  ad_path : string;
  ad_store_path : string;
  ad_narinfo_path : string;
  ad_nar_url : string;
  ad_file_hash : string;
  ad_nar_hash : string;
  ad_nar_size_bytes : Z;
  ad_closure_size_bytes : Z;
  ad_closure_file_size_bytes : Z;
  ad_compression : string;
  ad_references_json : string;
  ad_serving_url : string;
  ad_source_build_job_id : option string;
  ad_cache_metadata : string;
}.

Record CacheArtifactRow := {
  ca_id : Z;
  ca_artifact_type : string;
  ca_hash : string;
  ca_data : ArtifactData;
  ca_verification_status : string;
  ca_last_verified_at : option string;
  ca_created_at : string;
  ca_updated_at : string;
}.

Record CacheDb := {
  artifacts : gmap Z CacheArtifactRow;
  last_artifact : Z;
  protections : gmap (string * string) string;
  instance_id : string;
  generation : Z;
}.

(** [nest_cache_inventory_insert], [_update] and [_delete]: the generation
    advances once for each of the [n] rows a statement changes. *)
Definition changed (n : nat) (m : gmap Z CacheArtifactRow) (c : CacheDb) : CacheDb := {|
  artifacts := m; last_artifact := last_artifact c; protections := protections c;
  instance_id := instance_id c; generation := generation c + Z.of_nat n |}.

Definition set_protections (m : gmap (string * string) string) (c : CacheDb) : CacheDb := {|
  artifacts := artifacts c; last_artifact := last_artifact c; protections := m;
  instance_id := instance_id c; generation := generation c |}.

Definition artifact_rows (c : CacheDb) : list CacheArtifactRow := snd <$> map_to_list (artifacts c).

Definition artifact_key (row : CacheArtifactRow) : string * string :=
  (ca_artifact_type row, ca_hash row).

Definition find_artifact (key : string * string) (c : CacheDb) : option CacheArtifactRow :=
  List.find (λ row, bool_decide (artifact_key row = key)) (artifact_rows c).

Section Artifacts.
Context {serde : Serde} {screening : Screening}.

(** ** Reading *)

(** An artifact as it is returned: the row with its documents decoded. *)
Record CacheArtifact := {
  art_row : CacheArtifactRow;
  art_references : Value;
  art_cache_metadata : Value;
}.

Definition json_from_db (value field : string) : AppResult Value :=
  ok_or (Config (field +:+ ": invalid")) (from_str value).

Definition artifact_from_row (row : CacheArtifactRow) : AppResult CacheArtifact :=
  references ≔ json_from_db (ad_references_json (ca_data row)) "cache artifact references_json" ?;
  metadata ≔ metadata_from_db (ad_cache_metadata (ca_data row)) "cache artifact metadata" ?;
  Ok {| art_row := row; art_references := references; art_cache_metadata := metadata |}.

Fixpoint cache_artifact_rows_to_models (rows : list CacheArtifactRow)
    : AppResult (list CacheArtifact) :=
  match rows with
  | [] => Ok []
  | row :: rows =>
      artifact ≔ artifact_from_row row ?;
      rest ≔ cache_artifact_rows_to_models rows ?;
      Ok (artifact :: rest)
  end.

Definition count_cache_artifacts (c : CacheDb) : Z := Z.of_nat (size (artifacts c)).

(** [ORDER BY created_at DESC, id DESC]. *)
Definition artifact_ge (x y : CacheArtifactRow) : Prop :=
  String.le (ca_created_at y) (ca_created_at x) ∧
  (ca_created_at x = ca_created_at y → ca_id y ≤ ca_id x).
#[global] Instance artifact_ge_dec : RelDecision artifact_ge.
Proof. unfold artifact_ge. intros x y. apply _. Defined.

Record CacheArtifactRoot := {
  root_id : Z;
  root_artifact_type : string;
  root_hash : string;
  root_path : string;
  root_store_path : string;
  root_narinfo_path : string;
  root_nar_url : string;
  root_source_build_job_id : option string;
  root_size_bytes : Z;
  root_closure_file_size_bytes : Z;
  root_created_at : string;
}.

Definition root_of (row : CacheArtifactRow) : CacheArtifactRoot :=
  let a := ca_data row in
  {| root_id := ca_id row; root_artifact_type := ca_artifact_type row; root_hash := ca_hash row;
     root_path := ad_path a; root_store_path := ad_store_path a;
     root_narinfo_path := ad_narinfo_path a; root_nar_url := ad_nar_url a;
     root_source_build_job_id := ad_source_build_job_id a; root_size_bytes := ad_size_bytes a;
     root_closure_file_size_bytes := ad_closure_file_size_bytes a;
     root_created_at := ca_created_at row |}.

Definition list_cache_artifact_roots (c : CacheDb) : list CacheArtifactRoot :=
  root_of <$> merge_sort artifact_ge (artifact_rows c).

Definition build_job_retention_states (d : JobDb) : list (option string * string) :=
  (λ row, (job_managed_id row, job_status row)) <$> merge_sort job_ge (rows d).

(** [ORDER BY id]. *)
Definition id_le (x y : CacheArtifactRow) : Prop := ca_id x ≤ ca_id y.
#[global] Instance id_le_dec : RelDecision id_le.
Proof. unfold id_le. intros x y. apply _. Defined.
Definition id_ge (x y : CacheArtifactRow) : Prop := ca_id y ≤ ca_id x.
#[global] Instance id_ge_dec : RelDecision id_ge.
Proof. unfold id_ge. intros x y. apply _. Defined.

Definition next_cache_artifact (after : Z) (c : CacheDb) : AppResult (option CacheArtifact) :=
  match merge_sort id_le (List.filter (λ row, after <? ca_id row) (artifact_rows c)) with
  | [] => Ok None
  | row :: _ => artifact ≔ artifact_from_row row ?; Ok (Some artifact)
  end.

Definition list_cache_artifacts (c : CacheDb) : AppResult (list CacheArtifact) :=
  cache_artifact_rows_to_models (merge_sort artifact_ge (artifact_rows c)).

Definition get_cache_artifact_by_key (artifact_type hash : string) (c : CacheDb)
    : AppResult CacheArtifact :=
  match find_artifact (artifact_type, hash) c with
  | Some row => artifact_from_row row
  | None => Err NotFound
  end.

(** ** The inventory report *)

Definition artifact_estimate (row : CacheArtifactRow) : Z :=
  let a := ca_data row in
  2048 + 4 * sum_Z [
    sql_length (default "" (ad_managed_artifact_id a)); sql_length (ca_artifact_type row);
    sql_length (ca_hash row); sql_length (ad_path a); sql_length (ad_store_path a);
    sql_length (ad_narinfo_path a); sql_length (ad_nar_url a); sql_length (ad_file_hash a);
    sql_length (ad_nar_hash a); sql_length (ad_compression a); sql_length (ad_references_json a);
    sql_length (ad_serving_url a); sql_length (default "" (ad_source_build_job_id a));
    sql_length (ad_cache_metadata a); sql_length (ca_created_at row);
    sql_length (ca_updated_at row) ].

(** The rows that satisfy the bounds on their running position and total. *)
Definition artifacts_within (position total max_items budget : Z) (l : list CacheArtifactRow)
    : list CacheArtifactRow := within_page artifact_estimate position total max_items budget l.

(** [?1 IS NULL OR id < ?1]. *)
Definition below (cursor : option Z) (row : CacheArtifactRow) : bool :=
  match cursor with None => true | Some c => ca_id row <? c end.

(** The rows after the cursor, newest first. *)
Definition ranked (cursor : option Z) (c : CacheDb) : list CacheArtifactRow :=
  merge_sort id_ge (List.filter (below cursor) (artifact_rows c)).

Definition page_rows (cursor : option Z) (max_items estimated_byte_budget : Z) (c : CacheDb)
    : list CacheArtifactRow * bool :=
  let max_items := Z.min (Z.max max_items 1) i64_max in
  let budget := Z.min (Z.max estimated_byte_budget 1) i64_max in
  let page := artifacts_within 1 0 max_items budget (ranked cursor c) in
  let remaining := length (List.filter (below cursor) (artifact_rows c)) in
  (page, Nat.eqb (length page) remaining).

Definition list_cache_artifacts_report_page (cursor : option Z)
    (max_items estimated_byte_budget : Z) (c : CacheDb)
    : AppResult (list CacheArtifact * bool) :=
  let '(page, complete) := page_rows cursor max_items estimated_byte_budget c in
  models ≔ cache_artifact_rows_to_models page ?;
  Ok (models, complete).

Definition cache_inventory_state (c : CacheDb) : string * Z := (instance_id c, generation c).

(** ** Protections *)

(** The loop of [replace_managed_cache_protections] over the given keys. *)
Fixpoint protect_keys (now : string) (keys : list (string * string))
    (m : gmap (string * string) string) : AppResult (gmap (string * string) string) :=
  match keys with
  | [] => Ok m
  | (artifact_type, hash) :: keys =>
      artifact_type ≔ normalize_artifact_type artifact_type "artifact_type" ?;
      hash ≔ normalize_sha256 hash "hash" false ?;
      protect_keys now keys (<[(artifact_type, hash) := now]> m)
  end.

(** One transaction: a key that is refused leaves everything as it was. *)
Definition replace_managed_cache_protections (keys : list (string * string)) (complete : bool)
    (now : string) (c : CacheDb) : AppResult unit * CacheDb :=
  match protect_keys now keys (protections c) with
  | Err e => (Err e, c)
  | Ok m =>
      (Ok tt, set_protections
                (if complete then filter (λ kv, kv.2 = now) m else m) c)
  end.

Definition list_managed_cache_protections (c : CacheDb) : gset (string * string) :=
  dom (protections c).

(** ** Verification *)

(** [julianday] of a stored time in milliseconds, an argument; [now_ms] is
    [julianday('now')]. *)
Definition due (julianday : string → option Z) (now_ms : Z) (row : CacheArtifactRow) : bool :=
  match ca_last_verified_at row ≫= julianday with
  | None => true
  | Some at_ms => (at_ms <=? now_ms - 86400000) || (now_ms + 300000 <? at_ms)
  end.

(** [ORDER BY COALESCE(last_verified_at, ''), created_at, id]. *)
Definition verification_le (x y : CacheArtifactRow) : Prop :=
  let vx := default "" (ca_last_verified_at x) in
  let vy := default "" (ca_last_verified_at y) in
  String.le vx vy ∧
  (vx = vy → String.le (ca_created_at x) (ca_created_at y) ∧
             (ca_created_at x = ca_created_at y → ca_id x ≤ ca_id y)).
#[global] Instance verification_le_dec : RelDecision verification_le.
Proof. unfold verification_le. intros x y. apply _. Defined.

Definition due_rows (julianday : string → option Z) (now_ms limit : Z) (c : CacheDb)
    : list CacheArtifactRow :=
  take (Z.to_nat (Z.max limit 1))
    (merge_sort verification_le (List.filter (due julianday now_ms) (artifact_rows c))).

Definition cache_artifacts_due_for_verification (julianday : string → option Z)
    (now_ms limit : Z) (c : CacheDb) : AppResult (list CacheArtifact) :=
  cache_artifact_rows_to_models (due_rows julianday now_ms limit c).

Definition verified_row (now : string) (row : CacheArtifactRow) : CacheArtifactRow := {|
  ca_id := ca_id row; ca_artifact_type := ca_artifact_type row; ca_hash := ca_hash row;
  ca_data := ca_data row; ca_verification_status := "ready"; ca_last_verified_at := Some now;
  ca_created_at := ca_created_at row; ca_updated_at := ca_updated_at row |}.

Definition mark_cache_artifact_verified (id : Z) (now : string) (c : CacheDb) : CacheDb :=
  match artifacts c !! id with
  | Some row => changed 1 (<[id := verified_row now row]> (artifacts c)) c
  | None => c
  end.

Definition delete_cache_artifact (id : Z) (c : CacheDb) : CacheDb :=
  match artifacts c !! id with
  | Some _ => changed 1 (delete id (artifacts c)) c
  | None => c
  end.

(** ** Recording *)

Fixpoint validate_references (items : list Value) : AppResult unit :=
  match items with
  | [] => Ok tt
  | Str reference :: items =>
      _ ≔ normalize_optional_store_path reference "reference" ?;
      validate_references items
  | _ :: _ => invalid "references must contain strings only"
  end.

Definition references_to_string (value : option Value) : AppResult string :=
  let value := default (Array []) value in
  match as_array value with
  | None => invalid "references must be a JSON array"
  | Some items =>
      if 10000 <? Z.of_nat (length items)
      then invalid "references must contain 10000 entries or fewer" else
      _ ≔ validate_references items ?;
      Ok (to_string value)
  end.

Record CreateCacheArtifactRequest := {
  cr_artifact_type : string;
  cr_hash : string;
  cr_size_bytes : Z;
  cr_path : string;
  cr_store_path : option string;
  cr_narinfo_path : option string;
  cr_nar_url : option string;
  cr_file_hash : option string;
  cr_nar_hash : option string;
  cr_nar_size_bytes : option Z;
  cr_closure_size_bytes : option Z;
  cr_closure_file_size_bytes : option Z;
  cr_compression : option string;
  cr_references : option Value;
  cr_serving_url : option string;
  cr_source_build_job_id : option string;
  cr_cache_metadata : option Value;
}.

Definition normalize_optional_id (value : option string) (field : string)
    : AppResult (option string) :=
  match value with
  | None => Ok None
  | Some value => id ≔ normalize_managed_id value field ?; Ok (Some id)
  end.

(** The validations of [upsert_cache_artifact], in its order. *)
Definition normalize_artifact (managed_artifact_id : option string)
    (r : CreateCacheArtifactRequest) : AppResult ((string * string) * ArtifactData) :=
  managed ≔ normalize_optional_id managed_artifact_id "managed_artifact_id" ?;
  artifact_type ≔ normalize_artifact_type (cr_artifact_type r) "artifact_type" ?;
  hash ≔ normalize_sha256 (cr_hash r) "hash" false ?;
  _ ≔ validate_non_negative_i64 (cr_size_bytes r) "size_bytes" ?;
  path ≔ normalize_absolute_path (cr_path r) "path" ?;
  store_path ≔ normalize_optional_store_path (default "" (cr_store_path r)) "store_path" ?;
  narinfo_path ≔
    normalize_optional_absolute_path (default "" (cr_narinfo_path r)) "narinfo_path" ?;
  nar_url ≔ normalize_cache_relative_path (default "" (cr_nar_url r)) "nar_url" ?;
  file_hash ≔ normalize_optional_nix_hash (default "" (cr_file_hash r)) "file_hash" ?;
  nar_hash ≔ normalize_optional_nix_hash (default "" (cr_nar_hash r)) "nar_hash" ?;
  let nar_size := default 0 (cr_nar_size_bytes r) in
  let closure_size := default 0 (cr_closure_size_bytes r) in
  let closure_file_size := default 0 (cr_closure_file_size_bytes r) in
  _ ≔ validate_non_negative_i64 nar_size "nar_size_bytes" ?;
  _ ≔ validate_non_negative_i64 closure_size "closure_size_bytes" ?;
  _ ≔ validate_non_negative_i64 closure_file_size "closure_file_size_bytes" ?;
  compression ≔ normalize_optional_cache_token (default "" (cr_compression r)) "compression" ?;
  references_json ≔ references_to_string (cr_references r) ?;
  serving_url ≔ normalize_optional_url (default "" (cr_serving_url r)) "serving_url" ?;
  source ≔ normalize_optional_id (cr_source_build_job_id r) "source_build_job_id" ?;
  metadata ≔ metadata_to_string_with_limit (cr_cache_metadata r) "cache_metadata"
    MAX_CACHE_ARTIFACT_METADATA_BYTES ?;
  Ok ((artifact_type, hash),
      {| ad_managed_artifact_id := managed; ad_size_bytes := cr_size_bytes r; ad_path := path;
         ad_store_path := store_path; ad_narinfo_path := narinfo_path; ad_nar_url := nar_url;
         ad_file_hash := file_hash; ad_nar_hash := nar_hash; ad_nar_size_bytes := nar_size;
         ad_closure_size_bytes := closure_size;
         ad_closure_file_size_bytes := closure_file_size; ad_compression := compression;
         ad_references_json := references_json; ad_serving_url := serving_url;
         ad_source_build_job_id := source; ad_cache_metadata := metadata |}).

Definition new_artifact (key : string * string) (a : ArtifactData) (now : string) (id : Z)
    : CacheArtifactRow := {|
  ca_id := id; ca_artifact_type := key.1; ca_hash := key.2; ca_data := a;
  ca_verification_status := "pending"; ca_last_verified_at := None;
  ca_created_at := now; ca_updated_at := now |}.

(** [DO UPDATE SET]: the identity, the time of creation and the result of the
    last verification stay. *)
Definition resynced_artifact (a : ArtifactData) (now : string) (row : CacheArtifactRow)
    : CacheArtifactRow := {|
  ca_id := ca_id row; ca_artifact_type := ca_artifact_type row; ca_hash := ca_hash row;
  ca_data := a; ca_verification_status := ca_verification_status row;
  ca_last_verified_at := ca_last_verified_at row; ca_created_at := ca_created_at row;
  ca_updated_at := now |}.

(** [managed_artifact_id TEXT UNIQUE], for the row [id] to be written. *)
Definition managed_taken (id : Z) (managed : option string) (c : CacheDb) : bool :=
  bool_decide (is_Some managed) &&
  existsb (λ row, negb (ca_id row =? id)
                  && bool_decide (ad_managed_artifact_id (ca_data row) = managed))
    (artifact_rows c).

(** The [INSERT .. ON CONFLICT(artifact_type, hash) DO UPDATE].  SQLite draws
    the identifier of the new row first, so an update uses one up as well;
    [None] when the identifiers are exhausted or the managed identifier belongs
    to another row. *)
Definition upsert_statement (key : string * string) (a : ArtifactData) (now : string)
    (c : CacheDb) : option CacheDb :=
  if i64_max <=? last_artifact c then None else
  let id := last_artifact c + 1 in
  let row := match find_artifact key c with
             | Some row => resynced_artifact a now row
             | None => new_artifact key a now id
             end in
  if managed_taken (ca_id row) (ad_managed_artifact_id a) c then None else
  Some {| artifacts := <[ca_id row := row]> (artifacts c); last_artifact := id;
          protections := protections c; instance_id := instance_id c;
          generation := generation c + 1 |}.

Definition upsert_cache_artifact (managed_artifact_id : option string)
    (r : CreateCacheArtifactRequest) (now : string) (c : CacheDb)
    : AppResult CacheArtifact * CacheDb :=
  match normalize_artifact managed_artifact_id r with
  | Err e => (Err e, c)
  | Ok ((artifact_type, hash), a) =>
      match upsert_statement (artifact_type, hash) a now c with
      | None => (Err Sqlx, c)
      | Some c' => (get_cache_artifact_by_key artifact_type hash c', c')
      end
  end.

Definition create_cache_artifact (r : CreateCacheArtifactRequest) (now : string) (c : CacheDb)
    : AppResult CacheArtifact * CacheDb := upsert_cache_artifact None r now c.
End Artifacts.
