(* ===== verification/CacheArtifactsProofs.v ===== *)
(** * What the cache inventory promises

    The invariant of the artifact table and how it evolves, the round trip of a
    recorded artifact, paging through the inventory, and the replacement of
    protections. *)

From stdpp Require Import sorting base gmap list strings relations.
From Stdlib Require Import Ascii ZArith Lia.
From S2P Require Import Prelude RustStr Json DbText BuildJobs BuildJobsTheorems CacheArtifacts.

#[local] Open Scope Z_scope.
#[local] Open Scope nest_scope.

(** ** The invariant *)

Record cache_ok (c : CacheDb) : Prop := {
  co_ids : ∀ id row, artifacts c !! id = Some row → ca_id row = id ∧ id ≤ last_artifact c;
  co_keys : ∀ i j x y, artifacts c !! i = Some x → artifacts c !! j = Some y →
              artifact_key x = artifact_key y → i = j;
  co_managed : ∀ i j x y m, artifacts c !! i = Some x → artifacts c !! j = Some y →
              ad_managed_artifact_id (ca_data x) = Some m →
              ad_managed_artifact_id (ca_data y) = Some m → i = j;
}.

(** How an inventory may change: forward, with the generation telling. *)
Record cache_evolves (c c' : CacheDb) : Prop := {
  ce_last : last_artifact c ≤ last_artifact c';
  ce_generation : generation c ≤ generation c';
  ce_same : generation c' = generation c → artifacts c' = artifacts c;
  ce_instance : instance_id c' = instance_id c;
  ce_identity : ∀ id row', artifacts c' !! id = Some row' → id ≤ last_artifact c →
    ∃ row, artifacts c !! id = Some row ∧ artifact_key row' = artifact_key row ∧
           ca_created_at row' = ca_created_at row;
}.

#[global] Instance cache_evolves_refl : Reflexive cache_evolves.
Proof. intros c. split; [done..|]. intros id row' H _. by exists row'. Qed.

#[global] Instance cache_evolves_trans : Transitive cache_evolves.
Proof.
  intros a b c [l1 g1 s1 i1 d1] [l2 g2 s2 i2 d2]. split; [lia..| |congruence|].
  - intros H. rewrite s2, s1; [done|lia..].
  - intros id row' Hc Hid. destruct (d2 id row' Hc) as (row & Hb & Hk & Ht); [lia|].
    destruct (d1 id row Hb Hid) as (row0 & Ha & Hk0 & Ht0).
    exists row0. split_and!; congruence.
Qed.

Lemma elem_of_artifact_rows c row :
  row ∈ artifact_rows c ↔ ∃ id, artifacts c !! id = Some row.
Proof.
  unfold artifact_rows. rewrite list_elem_of_fmap. split.
  - intros ([id r] & -> & H%elem_of_map_to_list). by exists id.
  - intros [id H]. exists (id, row). split; [done|]. by apply elem_of_map_to_list.
Qed.

Lemma find_artifact_Some c key row :
  cache_ok c → find_artifact key c = Some row →
  artifacts c !! ca_id row = Some row ∧ artifact_key row = key.
Proof.
  intros Hok [Hin Hk]%find_some. apply bool_decide_eq_true in Hk.
  apply list_elem_of_In, elem_of_artifact_rows in Hin as [id Hid].
  by destruct (co_ids _ Hok _ _ Hid) as [-> _].
Qed.

Lemma find_artifact_None c key id row :
  find_artifact key c = None → artifacts c !! id = Some row → artifact_key row ≠ key.
Proof.
  intros Hf Hr Hk. assert (row ∈ artifact_rows c) as Hin by (apply elem_of_artifact_rows; eauto).
  apply list_elem_of_In in Hin. by apply (find_none _ _ Hf), bool_decide_eq_false in Hin.
Qed.

Lemma find_artifact_intro c id row :
  cache_ok c → artifacts c !! id = Some row → find_artifact (artifact_key row) c = Some row.
Proof.
  intros Hok Hr. destruct (find_artifact _ c) as [row'|] eqn:Hf.
  - apply find_artifact_Some in Hf as [Hr' Hk]; [|done].
    assert (ca_id row' = id) as E by by eapply co_keys. congruence.
  - by destruct (find_artifact_None _ _ _ _ Hf Hr).
Qed.

Lemma managed_taken_false id m c :
  managed_taken id (Some m) c = false →
  ∀ i row, artifacts c !! i = Some row → ad_managed_artifact_id (ca_data row) = Some m →
           ca_id row = id.
Proof.
  unfold managed_taken. rewrite bool_decide_true, andb_true_l by by eexists.
  intros H i row Hr Hm. apply not_true_iff_false in H. destruct (decide (ca_id row = id)); [done|].
  destruct H. apply existsb_exists. exists row. split.
  - apply list_elem_of_In, elem_of_artifact_rows. by exists i.
  - apply andb_true_iff. split; [apply negb_true_iff; lia|by apply bool_decide_eq_true].
Qed.

(** Writing [row] in place of the row with its identifier, or as a new one. *)
Lemma cache_ok_write c row last g :
  cache_ok c → last_artifact c ≤ last → ca_id row ≤ last →
  (∀ i x, artifacts c !! i = Some x → artifact_key x = artifact_key row → i = ca_id row) →
  (∀ i x m, artifacts c !! i = Some x → ad_managed_artifact_id (ca_data row) = Some m →
     ad_managed_artifact_id (ca_data x) = Some m → i = ca_id row) →
  cache_ok {| artifacts := <[ca_id row := row]> (artifacts c); last_artifact := last;
              protections := protections c; instance_id := instance_id c; generation := g |}.
Proof.
  intros Hok Hlast Hid Hkey Hman. split; simpl.
  - intros id x [[<- <-]|[_ Hx]]%lookup_insert_Some; [done|].
    apply Hok in Hx as [? ?]. split; [done|lia].
  - intros i j x y [[<- <-]|[_ Hx]]%lookup_insert_Some [[<- <-]|[_ Hy]]%lookup_insert_Some E; [done|..].
    + symmetry. by eapply Hkey.
    + by eapply Hkey.
    + by eapply co_keys.
  - intros i j x y m [[<- <-]|[_ Hx]]%lookup_insert_Some [[<- <-]|[_ Hy]]%lookup_insert_Some Ex Ey; [done|..].
    + symmetry. by eapply Hman.
    + by eapply Hman.
    + by eapply co_managed.
Qed.

Lemma cache_ok_frame c m last g ps inst :
  cache_ok c → last_artifact c ≤ last →
  (∀ id row', m !! id = Some row' → ∃ row, artifacts c !! id = Some row ∧
     ca_id row' = ca_id row ∧ artifact_key row' = artifact_key row ∧
     ad_managed_artifact_id (ca_data row') = ad_managed_artifact_id (ca_data row)) →
  cache_ok {| artifacts := m; last_artifact := last; protections := ps;
              instance_id := inst; generation := g |}.
Proof.
  intros Hok Hlast Hm. split; simpl.
  - intros id row' (row & Hr & Hid & _)%Hm. rewrite Hid. apply Hok in Hr as [? ?].
    split; [done|lia].
  - intros i j x y (x0 & Hx & _ & Kx & _)%Hm (y0 & Hy & _ & Ky & _)%Hm E.
    eapply (co_keys _ Hok); [done..|congruence].
  - intros i j x y k (x0 & Hx & _ & _ & Mx)%Hm (y0 & Hy & _ & _ & My)%Hm Ex Ey.
    eapply (co_managed _ Hok _ _ _ _ k); [done..|congruence|congruence].
Qed.

Section Ops.
Context {serde : Serde} {screening : Screening}.

(** What the statement of an upsert leaves. *)
Lemma upsert_statement_spec key a now c c' :
  cache_ok c → upsert_statement key a now c = Some c' →
  cache_ok c' ∧ cache_evolves c c' ∧ generation c' = generation c + 1 ∧
  protections c' = protections c ∧
  ∃ row, artifact_key row = key ∧ ca_data row = a ∧ ca_updated_at row = now ∧
    artifacts c' = <[ca_id row := row]> (artifacts c) ∧
    match find_artifact key c with
    | Some old => row = resynced_artifact a now old
    | None => row = new_artifact key a now (last_artifact c + 1)
    end.
Proof.
  intros Hok. unfold upsert_statement. destruct (_ <=? _) eqn:Hmax; [done|].
  set (row := match find_artifact key c with Some _ => _ | None => _ end).
  destruct (managed_taken _ _ _) eqn:Htaken; [done|]. intros [= <-].
  assert (artifact_key row = key ∧ ca_data row = a ∧ ca_updated_at row = now ∧
          ca_id row ≤ last_artifact c + 1 ∧
          (∀ i x, artifacts c !! i = Some x → artifact_key x = key → i = ca_id row) ∧
          (ca_id row ≤ last_artifact c → ∃ old, artifacts c !! ca_id row = Some old ∧
             artifact_key row = artifact_key old ∧ ca_created_at row = ca_created_at old))
    as (Hkey & Ha & Hnow & Hid & Huniq & Hold).
  { unfold row. destruct (find_artifact key c) as [old|] eqn:Hf.
    - apply find_artifact_Some in Hf as [Hr Hk]; [|done]. pose proof (co_ids _ Hok _ _ Hr).
      split_and!; [done..|simpl; lia| |by exists old].
      intros i x Hx Hkx. eapply (co_keys _ Hok); [done..|congruence].
    - split_and!; [by destruct key|done|done|simpl; lia| |simpl; lia].
      intros i x Hx Hkx. by destruct (find_artifact_None _ _ _ _ Hf Hx). }
  split_and!; [| |done|done|].
  - apply cache_ok_write; [done|lia|done|by rewrite Hkey|].
    intros i x m Hx Hm Hxm. rewrite Ha in Hm. rewrite Hm in Htaken.
    rewrite <- (managed_taken_false _ _ _ Htaken i x Hx Hxm). by destruct (co_ids _ Hok _ _ Hx).
  - split; simpl; [lia..|done|].
    intros id row' [[<- <-]|[_ Hr]]%lookup_insert_Some Hle; [|by exists row'].
    destruct (Hold Hle) as (old & Ho & Hk & Ht). by exists old.
  - exists row. split_and!; try done. unfold row. by destruct (find_artifact key c).
Qed.

Lemma mark_evolves id now c :
  cache_ok c → cache_ok (mark_cache_artifact_verified id now c) ∧
               cache_evolves c (mark_cache_artifact_verified id now c).
Proof.
  intros Hok. unfold mark_cache_artifact_verified.
  destruct (artifacts c !! id) as [row|] eqn:Hr; [|by split].
  assert (∀ i r', <[id := verified_row now row]> (artifacts c) !! i = Some r' →
    ∃ r, artifacts c !! i = Some r ∧ ca_id r' = ca_id r ∧ artifact_key r' = artifact_key r ∧
      ad_managed_artifact_id (ca_data r') = ad_managed_artifact_id (ca_data r) ∧
      ca_created_at r' = ca_created_at r) as Hold.
  { intros i r' [[<- <-]|[_ Hi]]%lookup_insert_Some; [by exists row|by exists r']. }
  split.
  - apply (cache_ok_frame c); [done|done|]. intros i r' (r & ? & ? & ? & ? & _)%Hold. by exists r.
  - split; simpl; [done|lia|lia|done|]. intros i r' (r & ? & _ & ? & _ & ?)%Hold _. by exists r.
Qed.

Lemma delete_evolves id c :
  cache_ok c → cache_ok (delete_cache_artifact id c) ∧
               cache_evolves c (delete_cache_artifact id c).
Proof.
  intros Hok. unfold delete_cache_artifact.
  destruct (artifacts c !! id) as [row|] eqn:Hr; [|by split].
  split.
  - apply (cache_ok_frame c); [done|done|]. intros i r' [_ Hi]%lookup_delete_Some. by exists r'.
  - split; simpl; [done|lia|lia|done|]. intros i r' [_ Hi]%lookup_delete_Some _. by exists r'.
Qed.

Lemma replace_protections_evolves keys complete now c :
  cache_ok c → cache_ok (replace_managed_cache_protections keys complete now c).2 ∧
               cache_evolves c (replace_managed_cache_protections keys complete now c).2.
Proof.
  intros Hok. unfold replace_managed_cache_protections.
  destruct (protect_keys _ _ _) as [m|e]; [|by split]. simpl. split.
  - apply (cache_ok_frame c); [done|done|]. intros i r Hi. by exists r.
  - split; simpl; [done|lia|done|done|]. intros i r Hi _. by exists r.
Qed.

(** ** The inventory over time *)

(** What the cache, the API and Tiaris do to the inventory. *)
Inductive cache_step : CacheDb → CacheDb → Prop :=
| cache_recorded managed r now c :
    cache_step c (upsert_cache_artifact managed r now c).2
| cache_verified id now c : cache_step c (mark_cache_artifact_verified id now c)
| cache_deleted id c : cache_step c (delete_cache_artifact id c)
| cache_protected keys complete now c :
    cache_step c (replace_managed_cache_protections keys complete now c).2.

Lemma cache_step_ok c c' : cache_step c c' → cache_ok c → cache_ok c' ∧ cache_evolves c c'.
Proof.
  intros [managed r now c0|id now c0|id c0|keys complete now c0] Hok.
  - unfold upsert_cache_artifact. destruct (normalize_artifact _ _) as [[[t h] a]|e];
      [|split; [done|simpl; reflexivity]].
    destruct (upsert_statement _ _ _ _) as [c1|] eqn:E; [|split; [done|simpl; reflexivity]].
    apply upsert_statement_spec in E as (? & ? & _); [by split|done].
  - by apply mark_evolves.
  - by apply delete_evolves.
  - by apply replace_protections_evolves.
Qed.

(** Whatever is recorded, verified, deleted and protected, in any order:
    the inventory keeps one row per artifact type and hash and per managed
    identifier, an identifier is never given to another artifact, and a reported
    generation stands for one content: equal generations of one instance mean
    the same artifacts, and the generation never decreases. *)
Theorem inventory_generation_fences c c' :
  cache_ok c → rtc cache_step c c' →
  cache_ok c' ∧ generation c ≤ generation c' ∧ instance_id c' = instance_id c ∧
  (generation c' = generation c → artifacts c' = artifacts c) ∧
  (∀ id row', artifacts c' !! id = Some row' → id ≤ last_artifact c →
     ∃ row, artifacts c !! id = Some row ∧ artifact_key row' = artifact_key row ∧
            ca_created_at row' = ca_created_at row).
Proof.
  intros Hok Hrtc. assert (cache_ok c' ∧ cache_evolves c c') as [Hok' [_ ? ? ? ?]]; [|done].
  induction Hrtc as [c|c1 c2 c3 Hs _ IH]; [by split|].
  destruct (cache_step_ok _ _ Hs Hok) as [Hok2 Hev]. destruct (IH Hok2) as [Hok3 Hev'].
  split; [done|by etrans].
Qed.

(** ** Recording an artifact *)

Lemma references_to_string_Ok value text :
  references_to_string value = Ok text → text = to_string (default (Array []) value).
Proof.
  unfold references_to_string. destruct (as_array _); [|done]. destruct (_ <? _); [done|].
  intros (? & _ & H)%rbind_Ok. by injection H.
Qed.

Lemma metadata_to_string_Ok value field limit text :
  metadata_to_string_with_limit value field limit = Ok text →
  text = to_string (default (Object []) value) ∧ is_object (default (Object []) value) = true ∧
  validate_cache_metadata (default (Object []) value) = None.
Proof.
  unfold metadata_to_string_with_limit. destruct (is_object _) eqn:Ho; [|done]. simpl.
  destruct (validate_cache_metadata _); [done|]. destruct (_ <? _); [done|]. by intros [= <-].
Qed.

Lemma validate_non_negative_Ok value field u :
  validate_non_negative_i64 value field = Ok u → 0 ≤ value.
Proof. unfold validate_non_negative_i64, guard_valid. destruct (Z.leb_spec 0 value); done. Qed.

Lemma normalize_artifact_Ok managed r key a :
  normalize_artifact managed r = Ok (key, a) →
  ad_references_json a = to_string (default (Array []) (cr_references r)) ∧
  ad_cache_metadata a = to_string (default (Object []) (cr_cache_metadata r)) ∧
  is_object (default (Object []) (cr_cache_metadata r)) = true ∧
  0 ≤ ad_size_bytes a ∧ 0 ≤ ad_nar_size_bytes a ∧ 0 ≤ ad_closure_size_bytes a ∧
  0 ≤ ad_closure_file_size_bytes a.
Proof.
  unfold normalize_artifact. cbv zeta. intros H.
  repeat (apply rbind_Ok in H as (? & ? & H)). injection H as <- <-. simpl.
  repeat match goal with
  | H : references_to_string _ = Ok _ |- _ => apply references_to_string_Ok in H
  | H : metadata_to_string_with_limit _ _ _ = Ok _ |- _ =>
      apply metadata_to_string_Ok in H as (? & ? & _)
  | H : validate_non_negative_i64 _ _ = Ok _ |- _ => apply validate_non_negative_Ok in H
  end.
  split_and!; done.
Qed.

(** Recording an artifact: with the codec that reads what it wrote, a valid
    request fails only when identifiers have run out or its managed identifier
    belongs to another artifact, and then changes nothing; otherwise the answer
    and every later lookup of the key give exactly the normalized request, with
    its references and metadata as documents.  An artifact that was known keeps
    its identifier, its time of creation and its last verification. *)
Theorem recorded_artifact_reads_back managed r now c key a :
  (∀ v, from_str (to_string v) = Some v) → cache_ok c →
  normalize_artifact managed r = Ok (key, a) →
  let target := match find_artifact key c with
                | Some old => ca_id old | None => last_artifact c + 1 end in
  let '(res, c') := upsert_cache_artifact managed r now c in
  if (i64_max <=? last_artifact c) || managed_taken target (ad_managed_artifact_id a) c
  then res = Err Sqlx ∧ c' = c
  else ∃ row,
    res = Ok {| art_row := row; art_references := default (Array []) (cr_references r);
                art_cache_metadata := default (Object []) (cr_cache_metadata r) |} ∧
    get_cache_artifact_by_key key.1 key.2 c' = res ∧
    artifacts c' = <[target := row]> (artifacts c) ∧
    ca_id row = target ∧ artifact_key row = key ∧ ca_data row = a ∧
    match find_artifact key c with
    | Some old => ca_created_at row = ca_created_at old ∧
                  ca_last_verified_at row = ca_last_verified_at old
    | None => ca_created_at row = now ∧ ca_last_verified_at row = None
    end.
Proof.
  intros Hserde Hok Hnorm. cbv zeta. set (target := match find_artifact _ _ with Some _ => _ | _ => _ end).
  unfold upsert_cache_artifact. rewrite Hnorm. destruct key as [t h].
  assert (upsert_statement (t, h) a now c = None ↔
    (i64_max <=? last_artifact c) || managed_taken target (ad_managed_artifact_id a) c = true)
    as Hnone.
  { unfold upsert_statement, target. destruct (_ <=? _); [done|]. simpl.
    destruct (find_artifact _ c); simpl; destruct (managed_taken _ _ _); done. }
  destruct (upsert_statement _ _ _ _) as [c1|] eqn:E.
  - destruct (_ || _) eqn:Hb; [discriminate (proj2 Hnone eq_refl)|].
    apply upsert_statement_spec in E as (Hok1 & _ & _ & _ & row & Hk & Ha & _ & Hc1 & Hrow); [|done].
    assert (ca_id row = target) as Hid
      by (unfold target; destruct (find_artifact (t, h) c); by rewrite Hrow).
    assert (get_cache_artifact_by_key t h c1 = artifact_from_row row) as Hget.
    { unfold get_cache_artifact_by_key. rewrite <- Hk.
      rewrite (find_artifact_intro c1 (ca_id row) row); [done|done|]. rewrite Hc1. apply lookup_insert_eq. }
    exists row. simpl. rewrite Hget. rewrite <- Hid. split_and!; try done.
    + unfold artifact_from_row, json_from_db, metadata_from_db. rewrite Ha.
      destruct (normalize_artifact_Ok _ _ _ _ Hnorm) as (-> & -> & Hobj & _).
      rewrite !Hserde. simpl. by rewrite Hobj.
    + by destruct (find_artifact (t, h) c); rewrite Hrow.
  - by rewrite (proj1 Hnone eq_refl).
Qed.

(** ** Paging *)

Lemma artifact_estimate_nonneg row : 0 ≤ artifact_estimate row.
Proof. unfold artifact_estimate, sql_length. simpl. lia. Qed.

#[local] Instance id_ge_total : Total id_ge.
Proof. intros x y. unfold id_ge. lia. Qed.
#[local] Instance id_ge_trans : Transitive id_ge.
Proof. intros x y z. unfold id_ge. lia. Qed.

(** A report of the whole inventory, page after page: the cursor of the next
    page is the last identifier of this one. *)
Fixpoint all_pages (fuel : nat) (cursor : option Z) (max_items budget : Z) (c : CacheDb)
    : list (list CacheArtifactRow) :=
  match fuel with
  | O => []
  | S fuel =>
      let '(page, complete) := page_rows cursor max_items budget c in
      page :: if complete then []
              else all_pages fuel (ca_id <$> last page) max_items budget c
  end.

(** The rows below a cursor that is in the order are the rest of the order. *)

Lemma NoDup_artifact_rows c : cache_ok c → NoDup (artifact_rows c).
Proof.
  intros Hok. apply NoDup_fmap_2_strong; [|apply NoDup_map_to_list].
  intros [i x] [j y] Hx%elem_of_map_to_list Hy%elem_of_map_to_list E. simpl in E. subst y.
  destruct (co_ids _ Hok _ _ Hx) as [<- _], (co_ids _ Hok _ _ Hy) as [<- _]. done.
Qed.

Lemma elem_of_ranked cursor c row :
  row ∈ ranked cursor c ↔ row ∈ artifact_rows c ∧ below cursor row = true.
Proof. unfold ranked. by rewrite merge_sort_Permutation, !list_elem_of_In, filter_In. Qed.

Lemma NoDup_ranked cursor c : cache_ok c → NoDup (ranked cursor c).
Proof.
  intros Hok. unfold ranked. rewrite merge_sort_Permutation.
  apply NoDup_ListNoDup, List.NoDup_filter, NoDup_ListNoDup. by apply NoDup_artifact_rows.
Qed.

Lemma ranked_sorted cursor c : StronglySorted id_ge (ranked cursor c).
Proof. apply StronglySorted_merge_sort; apply _. Qed.

Lemma same_id c x y :
  cache_ok c → x ∈ artifact_rows c → y ∈ artifact_rows c → ca_id x = ca_id y → x = y.
Proof.
  intros Hok [i Hx]%elem_of_artifact_rows [j Hy]%elem_of_artifact_rows E.
  destruct (co_ids _ Hok _ _ Hx), (co_ids _ Hok _ _ Hy). congruence.
Qed.

(** The rows below a row of the order are the rest of the order. *)
Lemma ranked_suffix c cursor page row rest :
  cache_ok c → ranked cursor c = page ++ row :: rest → ranked (Some (ca_id row)) c = rest.
Proof.
  intros Hok Hr. pose proof (ranked_sorted cursor c) as Hs. pose proof (NoDup_ranked cursor c Hok) as Hnd.
  assert (∀ x, x ∈ page ++ row :: rest ↔ x ∈ artifact_rows c ∧ below cursor x = true) as Hel
    by (intros; by rewrite <- Hr, elem_of_ranked).
  rewrite Hr in Hs, Hnd. apply StronglySorted_app in Hs as (Hpage & _ & Hs).
  apply StronglySorted_inv in Hs as [Hs Hrest]. rewrite Forall_forall in Hrest.
  apply NoDup_app in Hnd as (_ & Hdisj & Hnd). apply NoDup_cons in Hnd as [Hnin Hnd].
  assert (row ∈ artifact_rows c ∧ below cursor row = true) as [Hrow Hbel] by (apply Hel; set_solver).
  apply (StronglySorted_unique_strong id_ge); [|apply ranked_sorted|done|].
  { intros x y [Hx _]%elem_of_ranked Hy H1 H2. unfold id_ge in *.
    assert (y ∈ artifact_rows c) by (apply (Hel y); set_solver). eapply same_id; [done..|lia]. }
  apply NoDup_Permutation; [by apply NoDup_ranked|done|]. intros x. rewrite elem_of_ranked. simpl. split.
  - intros [Hx Hlt%Z.ltb_lt]. assert (x ∈ page ++ row :: rest) as Hin.
    { apply Hel. split; [done|]. destruct cursor; simpl in *; [|done]. bool_prop. apply Z.ltb_lt. lia. }
    apply elem_of_app in Hin as [Hin|[->|Hin]%elem_of_cons]; [|lia|done].
    assert (id_ge x row) as Hge by (apply Hpage; set_solver). unfold id_ge in Hge. lia.
  - intros Hx. assert (x ∈ artifact_rows c) as Hin by (apply (Hel x); set_solver).
    split; [done|]. apply Z.ltb_lt. pose proof (Hrest x Hx) as Hge. unfold id_ge in Hge.
    destruct (decide (ca_id x = ca_id row)) as [E|]; [|lia].
    by rewrite (same_id c x row) in Hx by done.
Qed.

(** The bounds of a page: more than one row only within both. *)
Definition page_bounded (max_items budget : Z) (page : list CacheArtifactRow) : Prop :=
  Z.of_nat (length page) ≤ Z.max 1 max_items ∧
  (sum_Z (artifact_estimate <$> page) ≤ Z.max 1 budget ∨ (length page ≤ 1)%nat).

Lemma page_rows_spec cursor max_items budget c :
  let '(page, complete) := page_rows cursor max_items budget c in
  ∃ rest, ranked cursor c = page ++ rest ∧ (complete = true ↔ rest = []) ∧
    page_bounded max_items budget page ∧ (page = [] → ranked cursor c = []).
Proof.
  unfold page_rows, artifacts_within.
  set (m := Z.min (Z.max max_items 1) i64_max). set (b := Z.min (Z.max budget 1) i64_max).
  destruct (within_page_spec artifact_estimate artifact_estimate_nonneg 1 0 m b (ranked cursor c))
    as (rest & Hr & Hlen & Hsum); [done|].
  pose proof (within_page_nonempty artifact_estimate 0 m b (ranked cursor c)) as Hne.
  set (page := within_page _ _ _ _ _ _) in *. cbn [Z.eqb Pos.eqb] in *.
  assert (length (List.filter (below cursor) (artifact_rows c)) = length page + length rest)%nat as Hrem.
  { rewrite <- length_app, <- Hr. unfold ranked. by rewrite merge_sort_Permutation. }
  exists rest. split_and!; [done| | |].
  - rewrite Hrem, Nat.eqb_eq. destruct rest; simpl; [split; [done|lia]|split; [lia|done]].
  - unfold m, b, i64_max in *. split; [lia|]. destruct Hsum; [left; lia|by right].
  - intros E. destruct (ranked cursor c); [done|]. by destruct Hne.
Qed.

Lemma all_pages_spec fuel cursor max_items budget c :
  cache_ok c → (length (ranked cursor c) < fuel)%nat →
  concat (all_pages fuel cursor max_items budget c) = ranked cursor c ∧
  Forall (page_bounded max_items budget) (all_pages fuel cursor max_items budget c).
Proof.
  intros Hok. revert cursor. induction fuel as [|fuel IH]; intros cursor Hlt; [lia|]. cbn [all_pages].
  pose proof (page_rows_spec cursor max_items budget c) as Hp.
  destruct (page_rows _ _ _ _) as [page complete]. destruct Hp as (rest & Hr & Hc & Hb & Hne).
  destruct complete.
  { rewrite (proj1 Hc eq_refl), app_nil_r in Hr. split; [by rewrite Hr; apply app_nil_r|by constructor]. }
  destruct (last page) as [row|] eqn:Hlast.
  2:{ apply last_None in Hlast as ->. specialize (Hne eq_refl). rewrite Hne in Hr.
      destruct rest; [|done]. by destruct Hc as [_ Hc]; specialize (Hc eq_refl). }
  apply last_Some in Hlast as [front ->]. rewrite <- app_assoc in Hr. simpl in Hr.
  pose proof (ranked_suffix _ _ _ _ _ Hok Hr) as Hs. simpl.
  destruct (IH (Some (ca_id row))) as [Hcat Hall].
  { rewrite Hs. rewrite Hr in Hlt. rewrite length_app in Hlt. simpl in Hlt. lia. }
  split; [|by constructor]. by rewrite Hcat, Hs, <- app_assoc, Hr.
Qed.

(** Reading the inventory page by page ends, and the pages together are
    every artifact exactly once, newest first; each page holds at most the
    requested number of artifacts and, beyond its first one, at most the byte
    budget. *)
Theorem inventory_pages_cover max_items budget c :
  cache_ok c →
  let pages := all_pages (S (size (artifacts c))) None max_items budget c in
  concat pages ≡ₚ artifact_rows c ∧ StronglySorted id_ge (concat pages) ∧
  NoDup (ca_id <$> concat pages) ∧ Forall (page_bounded max_items budget) pages.
Proof.
  intros Hok. cbv zeta.
  assert (ranked None c ≡ₚ artifact_rows c) as Hperm.
  { unfold ranked. rewrite merge_sort_Permutation. by rewrite (filter_ext_in _ (λ _, true)), filter_true. }
  destruct (all_pages_spec (S (size (artifacts c))) None max_items budget c Hok) as [-> Hall].
  { rewrite Hperm. unfold artifact_rows. rewrite length_fmap, length_map_to_list. lia. }
  split_and!; [done|apply ranked_sorted| |done].
  apply NoDup_fmap_2_strong; [|by apply NoDup_ranked].
  intros x y [Hx _]%elem_of_ranked [Hy _]%elem_of_ranked. by apply same_id with c.
Qed.

(** ** Protections *)

Lemma protect_keys_spec now keys m m' :
  protect_keys now keys m = Ok m' →
  ∀ k, m' !! k = Some now ∧ (∃ t h, (t, h) ∈ keys ∧
         normalize_artifact_type t "artifact_type" = Ok k.1 ∧
         normalize_sha256 h "hash" false = Ok k.2) ∨
       m' !! k = m !! k ∧ ¬ (∃ t h, (t, h) ∈ keys ∧
         normalize_artifact_type t "artifact_type" = Ok k.1 ∧
         normalize_sha256 h "hash" false = Ok k.2).
Proof.
  revert m. induction keys as [|[t h] keys IH]; intros m; simpl.
  { intros [= <-] k. right. split; [done|]. intros (? & ? & ?%not_elem_of_nil & _). done. }
  intros (t' & Ht & (h' & Hh & H)%rbind_Ok)%rbind_Ok k.
  destruct (IH _ H k) as [[Hk (t0 & h0 & Hin & ?)]|[Hk Hno]].
  - left. split; [done|]. exists t0, h0. split; [by right|done].
  - destruct (decide ((t', h') = k)) as [<-|Hne].
    + left. rewrite lookup_insert_eq in Hk. split; [done|]. exists t, h. split; [left|done].
    + right. rewrite lookup_insert_ne in Hk by done. split; [done|].
      intros (t0 & h0 & [[= -> ->]|Hin]%elem_of_cons & E1 & E2); [|by eauto 10].
      destruct k as [k1 k2]. simpl in *. congruence.
Qed.

(** A complete list of protections replaces the old one: when no protection
    carries the present time yet, exactly the normalized keys of the list are
    protected afterwards; an incomplete list only adds; a list with an invalid
    key changes nothing; and artifacts and generation are left alone. *)
Theorem protections_are_replaced keys complete now c :
  (∀ k at_, protections c !! k = Some at_ → at_ ≠ now) →
  let '(res, c') := replace_managed_cache_protections keys complete now c in
  let asked k := ∃ t h, (t, h) ∈ keys ∧ normalize_artifact_type t "artifact_type" = Ok k.1 ∧
                        normalize_sha256 h "hash" false = Ok k.2 in
  artifacts c' = artifacts c ∧ generation c' = generation c ∧
  match res with
  | Ok _ => ∀ k, k ∈ list_managed_cache_protections c' ↔
                 asked k ∨ complete = false ∧ k ∈ list_managed_cache_protections c
  | Err _ => c' = c
  end.
Proof.
  intros Hnew. unfold replace_managed_cache_protections.
  destruct (protect_keys now keys (protections c)) as [m|e] eqn:E; [|done]. cbv zeta.
  split_and!; [done..|]. intros k. unfold list_managed_cache_protections. rewrite !elem_of_dom.
  destruct (protect_keys_spec _ _ _ _ E k) as [[Hk Hask]|[Hk Hask]].
  - split; [by left|]. intros _. destruct complete; simpl; [|by rewrite Hk].
    exists now. by apply map_lookup_filter_Some.
  - destruct complete; simpl.
    + split; [|intros [?|[? _]]; done]. intros [x [Hx Hxn]%map_lookup_filter_Some].
      rewrite Hk in Hx. simpl in Hxn. by destruct (Hnew _ _ Hx).
    + rewrite Hk. split; [by right|]. by intros [?|[_ ?]].
Qed.
End Ops.

(** ** A concrete inventory *)

Module InventoryDemo.

#[local] Existing Instance JobsDemo.serde.
#[local] Existing Instance JobsDemo.screening.

Definition empty_cache : CacheDb := {|
  artifacts := ∅; last_artifact := 0; protections := ∅; instance_id := "nest-1"; generation := 0 |}.

Definition hash : string := "00000000000000000000000000000000000000000000000000000000000000AB".
Definition lower_hash : string := "00000000000000000000000000000000000000000000000000000000000000ab".

Definition request : CreateCacheArtifactRequest := {|
  cr_artifact_type := " Nixos_Closure"; cr_hash := hash; cr_size_bytes := 12;
  cr_path := "/var/cache/a"; cr_store_path := None; cr_narinfo_path := None; cr_nar_url := None;
  cr_file_hash := None; cr_nar_hash := None; cr_nar_size_bytes := None;
  cr_closure_size_bytes := None; cr_closure_file_size_bytes := Some 7; cr_compression := None;
  cr_references := None; cr_serving_url := None; cr_source_build_job_id := Some "job-1";
  cr_cache_metadata := None |}.

Definition recorded : CacheDb := (create_cache_artifact request "t1" empty_cache).2.

Lemma empty_cache_ok : cache_ok empty_cache.
Proof. split; simpl; intros; simplify_map_eq. Qed.

Lemma recorded_ok : cache_ok recorded.
Proof. exact (proj1 (cache_step_ok _ _ (cache_recorded None request "t1" empty_cache) empty_cache_ok)). Qed.

Lemma inventory_generation_fences_witness :
  generation recorded = 1 ∧
  generation (mark_cache_artifact_verified 1 "t2" recorded) = 2 ∧
  cache_ok (mark_cache_artifact_verified 1 "t2" recorded).
Proof.
  split; [vm_compute; reflexivity|]. split; [vm_compute; reflexivity|].
  refine (proj1 (inventory_generation_fences empty_cache _ empty_cache_ok _)).
  eapply rtc_l; [apply (cache_recorded None request "t1")|].
  eapply rtc_l; [apply (cache_verified 1 "t2")|]. apply rtc_refl.
Defined.

Lemma recorded_artifact_reads_back_witness :
  ∃ key a row, normalize_artifact None request = Ok (key, a) ∧
    get_cache_artifact_by_key key.1 key.2 recorded =
      Ok {| art_row := row; art_references := Array []; art_cache_metadata := Object [] |} ∧
    ca_data row = a ∧ ca_created_at row = "t1".
Proof.
  destruct (normalize_artifact None request) as [[key a]|e] eqn:Hn;
    [|exfalso; apply (f_equal is_ok) in Hn; vm_compute in Hn; discriminate Hn].
  pose proof (recorded_artifact_reads_back None request "t1" empty_cache key a JobsDemo.codec
    empty_cache_ok Hn) as H. cbv zeta in H.
  change (find_artifact key empty_cache) with (@None CacheArtifactRow) in H.
  unfold recorded, create_cache_artifact.
  destruct (upsert_cache_artifact None request "t1" empty_cache) as [res c'].
  assert ((i64_max <=? last_artifact empty_cache)
    || managed_taken (last_artifact empty_cache + 1) (ad_managed_artifact_id a) empty_cache = false) as Hb.
  { unfold managed_taken. change (artifact_rows empty_cache) with (@nil CacheArtifactRow).
    simpl. by rewrite andb_false_r. }
  rewrite Hb in H. destruct H as (row & Hres & Hget & _ & _ & _ & Ha & Ht & _).
  exists key, a, row. split; [reflexivity|]. split; [rewrite Hres in Hget; exact Hget|].
  split; [exact Ha|exact Ht].
Defined.

Lemma inventory_pages_cover_witness :
  concat (all_pages (S (size (artifacts recorded))) None 1 1 recorded) ≡ₚ artifact_rows recorded ∧
  length (artifact_rows recorded) = 1%nat.
Proof.
  split; [exact (proj1 (inventory_pages_cover 1 1 recorded recorded_ok))|vm_compute; reflexivity].
Defined.

Lemma protections_are_replaced_witness :
  let c' := (replace_managed_cache_protections [("nixos_closure", hash)] true "t1" recorded).2 in
  artifacts c' = artifacts recorded ∧ ("nixos_closure", lower_hash) ∈ list_managed_cache_protections c'.
Proof.
  assert (∀ k at_, protections recorded !! k = Some at_ → at_ ≠ "t1") as Hold.
  { intros k at_ Hk. change (protections recorded) with (∅ : gmap (string * string) string) in Hk.
    by rewrite lookup_empty in Hk. }
  pose proof (protections_are_replaced [("nixos_closure", hash)] true "t1" recorded Hold) as H.
  destruct (replace_managed_cache_protections [("nixos_closure", hash)] true "t1" recorded)
    as [res c'] eqn:E. destruct H as (Ha & _ & H). split; [exact Ha|].
  assert (is_ok res = true) as Hres.
  { transitivity (is_ok (replace_managed_cache_protections [("nixos_closure", hash)] true "t1" recorded).1);
      [by rewrite E|vm_compute; reflexivity]. }
  destruct res as [u|e]; [|discriminate Hres]. apply H. left.
  exists "nixos_closure", hash. split; [left|]. split; vm_compute; reflexivity.
Defined.
End InventoryDemo.
