(* ===== verification/Remediation.v ===== *)
(** * Quarantine of protected build jobs

    At every start [migrate] of [src/db.rs] screens the stored build jobs with
    the boundary that new jobs pass: a job it refuses is scrubbed and entered in
    the ledger [protected_build_job_remediations]; the cache then withdraws what
    the job published and completes the entry.  The operations act on three
    tables together: the jobs ([BuildJobs]), the cache inventory
    ([CacheArtifacts]) and the ledger.  A transaction that fails leaves the
    tables as they were. *)

From stdpp Require Import sorting base gmap list strings.
From Stdlib Require Import Ascii ZArith Lia.
From S2P Require Import Prelude RustStr Json DbText BuildJobs CacheArtifacts.

#[local] Open Scope Z_scope.
#[local] Open Scope nest_scope.

Record RemediationRow := {
  rem_job_id : Z;
  rem_managed_job_id : option string;
  rem_original_status : string;
  rem_rule : string;
  rem_build_spec_sha256 : string;
  rem_cache_purge_status : string;
  rem_created_at : string;
  rem_updated_at : string;
  rem_purged_at : option string;
}.

(** The tables.  [remediated] of the job table is the set of job identifiers of
    the ledger, which the statements of the job queue consult. *)
Record NestDb := {
  nd_jobs : JobDb;
  nd_cache : CacheDb;
  nd_ledger : gmap Z RemediationRow;
}.

Definition set_nd_jobs (j : JobDb) (d : NestDb) : NestDb :=
  {| nd_jobs := j; nd_cache := nd_cache d; nd_ledger := nd_ledger d |}.

Definition active_build_job_count (d : JobDb) : Z :=
  Z.of_nat (length (List.filter (λ row, active_status (job_status row)) (rows d))).

Section Remediation.
Context {serde : Serde} {screening : Screening} (sha256_hex : string → string).

(** ** Quarantine *)

Definition REASON : string := "protected reusable input removed during Nest upgrade".

Definition safe_spec : Value := Object
  [("schema_version", Num (PosInt 1)); ("security_quarantine", Str REASON)].

Definition safe_metadata (status : string) : Value := Object
  [("security_quarantine", Object
      [("reason", Str REASON); ("scope", Str "static_binary_cache"); ("status", Str status);
       ("store_gc", Str "operator_managed")])].

Definition rule_of (protected_spec protected_metadata : bool) : string :=
  if protected_spec then
    if protected_metadata then "protected_build_spec_and_cache_metadata"
    else "protected_build_spec"
  else "protected_cache_metadata".

Definition RULES : list string :=
  ["protected_build_spec"; "protected_cache_metadata"; "protected_build_spec_and_cache_metadata"].

(** The [CHECK] constraints of the ledger. *)
Definition remediation_valid (r : RemediationRow) : bool :=
  bool_decide (rem_original_status r ∈ ALLOWED_BUILD_STATES) &&
  bool_decide (rem_rule r ∈ RULES) &&
  (len (rem_build_spec_sha256 r) =? 64) &&
  all_bytes (λ a, is_digit a || in_range 97 102 (byte a)) (rem_build_spec_sha256 r) &&
  bool_decide (rem_cache_purge_status r ∈ ["pending_purge"; "purged"]).

Definition remediation_of (row : BuildJobRow) (rule now : string) : RemediationRow := {|
  rem_job_id := job_id row; rem_managed_job_id := job_managed_id row;
  rem_original_status := job_status row; rem_rule := rule;
  rem_build_spec_sha256 := sha256_hex (ji_build_spec (job_inputs row));
  rem_cache_purge_status := "pending_purge"; rem_created_at := now; rem_updated_at := now;
  rem_purged_at := None |}.

Definition with_build_spec (spec : string) (i : JobInputs) : JobInputs := {|
  ji_requested_artifact_type := ji_requested_artifact_type i; ji_build_spec := spec;
  ji_target := ji_target i; ji_system := ji_system i; ji_input_revision := ji_input_revision i;
  ji_input_config_hash := ji_input_config_hash i |}.

Definition quarantined_row (now : string) (row : BuildJobRow) : BuildJobRow := {|
  job_id := job_id row; job_managed_id := job_managed_id row;
  job_inputs := with_build_spec (to_string safe_spec) (job_inputs row);
  job_status := "failed";
  job_progress := failed_progress "Build quarantined during Nest security upgrade";
  job_logs := "";
  job_error := "Build quarantined because reusable input failed the protected-material boundary";
  job_rejection_code := job_rejection_code row; job_output := job_output row;
  job_cache_metadata := to_string (safe_metadata "pending_purge");
  job_started_at := job_started_at row;
  job_completed_at := Some (default now (job_completed_at row));
  job_cancel_requested_at := job_cancel_requested_at row;
  job_created_at := job_created_at row; job_updated_at := now |}.

Definition redacted_row (logs error now : string) (row : BuildJobRow) : BuildJobRow := {|
  job_id := job_id row; job_managed_id := job_managed_id row; job_inputs := job_inputs row;
  job_status := job_status row; job_progress := job_progress row;
  job_logs := logs; job_error := error;
  job_rejection_code := job_rejection_code row; job_output := job_output row;
  job_cache_metadata := job_cache_metadata row; job_started_at := job_started_at row;
  job_completed_at := job_completed_at row;
  job_cancel_requested_at := job_cancel_requested_at row;
  job_created_at := job_created_at row; job_updated_at := now |}.

(** [INSERT .. ON CONFLICT(job_id) DO NOTHING]. *)
Definition enter_ledger (r : RemediationRow) (d : NestDb) : option NestDb :=
  if negb (remediation_valid r) then None else
  match nd_ledger d !! rem_job_id r with
  | Some _ => Some d
  | None =>
      let j := nd_jobs d in
      Some {| nd_jobs := {| jobs := jobs j; last_id := last_id j;
                            remediated := {[ rem_job_id r ]} ∪ remediated j |};
              nd_cache := nd_cache d;
              nd_ledger := <[rem_job_id r := r]> (nd_ledger d) |}
  end.

Definition update_job (id : Z) (f : BuildJobRow → BuildJobRow) (d : NestDb) : NestDb :=
  set_nd_jobs (update_where (λ row, job_id row =? id) f (nd_jobs d)).2 d.

Definition is_protected (verdict : option string) : bool := bool_decide (is_Some verdict).

(** The body of the loop for one of the rows that were listed; the answer tells
    whether the job was quarantined. *)
Definition quarantine_job (now : string) (row : BuildJobRow) (d : NestDb)
    : AppResult bool * NestDb :=
  match from_str (ji_build_spec (job_inputs row)) with
  | None => (Err (Config "build job build_spec: invalid"), d)
  | Some spec =>
      match from_str (job_cache_metadata row) with
      | None => (Err (Config "build job cache_metadata: invalid"), d)
      | Some metadata =>
          let protected_spec := is_protected (validate_build_spec spec) in
          let protected_metadata := is_protected (validate_cache_metadata metadata) in
          if protected_spec || protected_metadata then
            match enter_ledger
                    (remediation_of row (rule_of protected_spec protected_metadata) now) d with
            | None => (Err Sqlx, d)
            | Some d' => (Ok true, update_job (job_id row) (quarantined_row now) d')
            end
          else
          let logs := redact_sensitive_key_values (job_logs row) in
          let error := redact_sensitive_key_values (job_error row) in
          if negb (bool_decide (logs = job_logs row)) || negb (bool_decide (error = job_error row))
          then (Ok false, update_job (job_id row) (redacted_row logs error now) d)
          else (Ok false, d)
      end
  end.

(** Each iteration reads the clock: [now] answers per job. *)
Fixpoint quarantine_rows (now : Z → string) (l : list BuildJobRow) (quarantined : Z) (d : NestDb)
    : AppResult Z * NestDb :=
  match l with
  | [] => (Ok quarantined, d)
  | row :: l =>
      match quarantine_job (now (job_id row)) row d with
      | (Err e, d') => (Err e, d')
      | (Ok b, d') => quarantine_rows now l (quarantined + if b then 1 else 0) d'
      end
  end.

(** [ORDER BY id]. *)
Definition job_id_le (x y : BuildJobRow) : Prop := job_id x ≤ job_id y.
#[global] Instance job_id_le_dec : RelDecision job_id_le.
Proof. unfold job_id_le. intros x y. apply _. Defined.

Definition quarantine_protected_build_jobs (now : Z → string) (d : NestDb)
    : AppResult Z * NestDb :=
  quarantine_rows now (merge_sort job_id_le (rows (nd_jobs d))) 0 d.

(** ** Withdrawal *)

Record ProtectedBuildJobRemediation := {
  pr_job_id : Z;
  pr_managed_job_id : option string;
  pr_output_path : string;
}.

Definition pending (r : RemediationRow) : bool :=
  bool_decide (rem_cache_purge_status r = "pending_purge").

Definition remediation_le (x y : RemediationRow) : Prop := rem_job_id x ≤ rem_job_id y.
#[global] Instance remediation_le_dec : RelDecision remediation_le.
Proof. unfold remediation_le. intros x y. apply _. Defined.

Definition pending_protected_build_job_remediations (d : NestDb)
    : list ProtectedBuildJobRemediation :=
  omap (λ r, job ← jobs (nd_jobs d) !! rem_job_id r;
             Some {| pr_job_id := rem_job_id r; pr_managed_job_id := rem_managed_job_id r;
                     pr_output_path := jo_path (job_output job) |})
    (merge_sort remediation_le (List.filter pending (snd <$> map_to_list (nd_ledger d)))).

Definition protected_build_job_remediation_exists (job_id : Z) (d : NestDb) : bool :=
  bool_decide (is_Some (nd_ledger d !! job_id)).

(** Rows the withdrawn job published: by its managed identifier or by its output. *)
Definition associated (r : ProtectedBuildJobRemediation) (row : CacheArtifactRow) : bool :=
  (bool_decide (is_Some (pr_managed_job_id r))
   && bool_decide (ad_source_build_job_id (ca_data row) = pr_managed_job_id r))
  || (negb (is_empty (pr_output_path r))
      && bool_decide (ad_store_path (ca_data row) = pr_output_path r)).

Definition with_metadata (metadata now : string) (row : BuildJobRow) : BuildJobRow := {|
  job_id := job_id row; job_managed_id := job_managed_id row; job_inputs := job_inputs row;
  job_status := job_status row; job_progress := job_progress row; job_logs := job_logs row;
  job_error := job_error row; job_rejection_code := job_rejection_code row;
  job_output := job_output row; job_cache_metadata := metadata;
  job_started_at := job_started_at row; job_completed_at := job_completed_at row;
  job_cancel_requested_at := job_cancel_requested_at row;
  job_created_at := job_created_at row; job_updated_at := now |}.

Definition purged_row (now : string) (r : RemediationRow) : RemediationRow := {|
  rem_job_id := rem_job_id r; rem_managed_job_id := rem_managed_job_id r;
  rem_original_status := rem_original_status r; rem_rule := rem_rule r;
  rem_build_spec_sha256 := rem_build_spec_sha256 r; rem_cache_purge_status := "purged";
  rem_created_at := rem_created_at r; rem_updated_at := now; rem_purged_at := Some now |}.

Definition complete_protected_build_job_cache_purge (r : ProtectedBuildJobRemediation)
    (artifact_ids : list Z) (now : string) (d : NestDb) : AppResult unit * NestDb :=
  let cache := foldl (λ c id, delete_cache_artifact id c) (nd_cache d) artifact_ids in
  if existsb (λ id, bool_decide (is_Some (artifacts cache !! id))) artifact_ids
  then (Err (Config "protected build cache purge left selected artifact rows"), d) else
  if existsb (associated r) (artifact_rows cache)
  then (Err (Config "protected build cache purge left associated artifact rows"), d) else
  let d1 := update_job (pr_job_id r) (with_metadata (to_string (safe_metadata "purged")) now) d in
  match nd_ledger d !! pr_job_id r with
  | Some entry =>
      if pending entry
      then (Ok tt, {| nd_jobs := nd_jobs d1; nd_cache := cache;
                      nd_ledger := <[pr_job_id r := purged_row now entry]> (nd_ledger d) |})
      else (Err (Config "protected build cache purge ledger was not pending"), d)
  | None => (Err (Config "protected build cache purge ledger was not pending"), d)
  end.
End Remediation.
