(* ===== verification/RemediationProofs.v ===== *)
(** * What the quarantine promises

    After a start no stored job holds a document the boundary refuses; every
    refused job is in the ledger, which only grows and whose entries only advance
    from pending to purged; a purge is completed once and leaves no artifact of
    the job.  Then the life of a job over starts, requests, workers and purges. *)

From stdpp Require Import sorting base gmap list strings relations.
From Stdlib Require Import Ascii ZArith Lia.
From S2P Require Import Prelude RustStr Json DbText ProtectedText Redact RedactProofs BuildJobs BuildJobsProofs ProtectedMaterial ProtectedProofs BuildJobsTheorems CacheArtifacts CacheArtifactsProofs Remediation.

#[local] Open Scope Z_scope.
#[local] Open Scope nest_scope.

(** What the quarantine asks of the screening: that it accepts the documents the
    quarantine writes, and that the codec reads what it wrote. *)
Class QuarantineLaws {serde : Serde} {screening : Screening} : Prop := {
  codec_reads : ∀ v, from_str (to_string v) = Some v;
  safe_spec_accepted : BuildJobs.validate_build_spec safe_spec = None;
  redact_empty : BuildJobs.redact_sensitive_key_values "" = "";
  safe_metadata_accepted : ∀ status, status ∈ ["pending_purge"; "purged"] →
    BuildJobs.validate_cache_metadata (safe_metadata status) = None;
}.

(** The boundary of [src/protected_material.rs] keeps this contract. *)
#[global] Instance nest_quarantine_laws {serde : Serde} {deps : ProtectedDeps} :
  (∀ v, from_str (to_string v) = Some v) → QuarantineLaws.
Proof.
  intros Hcodec. split; [done|vm_compute; reflexivity|vm_compute; reflexivity|].
  intros status [->|[->|[]%not_elem_of_nil]%elem_of_cons]%elem_of_cons; vm_compute; reflexivity.
Qed.

Section Quarantine.
Context {serde : Serde} {screening : Screening} (sha256_hex : string → string).

Abbreviation spec_of row := (ji_build_spec (job_inputs row)).
Abbreviation redact := BuildJobs.redact_sensitive_key_values.

(** Both documents of a row are read and accepted. *)
Definition accepted (row : BuildJobRow) : Prop :=
  ∃ spec metadata, from_str (spec_of row) = Some spec ∧ from_str (job_cache_metadata row) = Some metadata ∧
    BuildJobs.validate_build_spec spec = None ∧ BuildJobs.validate_cache_metadata metadata = None.

Definition protected_spec (row : BuildJobRow) : bool :=
  match from_str (spec_of row) with
  | Some spec => is_protected (BuildJobs.validate_build_spec spec) | None => false end.
Definition protected_metadata (row : BuildJobRow) : bool :=
  match from_str (job_cache_metadata row) with
  | Some metadata => is_protected (BuildJobs.validate_cache_metadata metadata) | None => false end.
Definition refused (row : BuildJobRow) : bool := protected_spec row || protected_metadata row.
Definition readable (row : BuildJobRow) : Prop :=
  is_Some (from_str (spec_of row)) ∧ is_Some (from_str (job_cache_metadata row)).

(** The row a start leaves in place of [row]. *)
Definition outcome (now : string) (row : BuildJobRow) : BuildJobRow :=
  if refused row then quarantined_row now row
  else if bool_decide (redact (job_logs row) = job_logs row ∧ redact (job_error row) = job_error row)
  then row
  else redacted_row (redact (job_logs row)) (redact (job_error row)) now row.

Definition entry_of (now : string) (row : BuildJobRow) : RemediationRow :=
  remediation_of sha256_hex row (rule_of (protected_spec row) (protected_metadata row)) now.

Lemma is_protected_false v : is_protected v = false ↔ v = None.
Proof. unfold is_protected. rewrite bool_decide_eq_false, <- eq_None_not_Some. done. Qed.

Lemma accepted_refused row : readable row → accepted row ↔ refused row = false.
Proof.
  intros [[spec Hs] [meta Hm]]. unfold accepted, refused, protected_spec, protected_metadata.
  rewrite Hs, Hm, orb_false_iff, !is_protected_false. split.
  - intros (? & ? & [= <-] & [= <-] & ? & ?). done.
  - intros [? ?]. by exists spec, meta.
Qed.

Lemma outcome_id now row : job_id (outcome now row) = job_id row.
Proof. unfold outcome. destruct (refused row); [done|]. by case_bool_decide. Qed.

Definition ids_ok (j : JobDb) : Prop := ∀ id row, jobs j !! id = Some row → job_id row = id.

Lemma update_job_insert id f d row :
  ids_ok (nd_jobs d) → jobs (nd_jobs d) !! id = Some row →
  jobs (nd_jobs (update_job id f d)) = <[id := f row]> (jobs (nd_jobs d)).
Proof.
  intros Hids Hrow. apply map_eq. intros i. unfold update_job. simpl.
  change (jobs (update_where (λ row, job_id row =? id) f (nd_jobs d)).2 !! i = <[id := f row]> (jobs (nd_jobs d)) !! i).
  rewrite update_where_lookup. destruct (decide (id = i)) as [<-|Hne].
  - rewrite lookup_insert_eq, Hrow. simpl. by rewrite (Hids _ _ Hrow), Z.eqb_refl.
  - rewrite lookup_insert_ne by done. destruct (jobs (nd_jobs d) !! i) as [r|] eqn:Hi; [|done]. simpl.
    rewrite (Hids _ _ Hi), (proj2 (Z.eqb_neq i id)) by done. done.
Qed.

(** What the iteration for one row leaves. *)
Definition ledger_with (refused : bool) (r : RemediationRow) (m : gmap Z RemediationRow)
    : gmap Z RemediationRow :=
  if refused then
    match m !! rem_job_id r with Some _ => m | None => <[rem_job_id r := r]> m end
  else m.

Lemma quarantine_job_spec now row d b d' :
  ids_ok (nd_jobs d) → jobs (nd_jobs d) !! job_id row = Some row →
  quarantine_job sha256_hex now row d = (Ok b, d') →
  readable row ∧ b = refused row ∧
  jobs (nd_jobs d') = <[job_id row := outcome now row]> (jobs (nd_jobs d)) ∧
  nd_cache d' = nd_cache d ∧
  nd_ledger d' = ledger_with (refused row) (entry_of now row) (nd_ledger d) ∧
  (dom (nd_ledger d) = remediated (nd_jobs d) → dom (nd_ledger d') = remediated (nd_jobs d')) ∧
  last_id (nd_jobs d') = last_id (nd_jobs d).
Proof.
  intros Hids Hrow. unfold quarantine_job.
  unfold readable, outcome, refused, ledger_with, entry_of, protected_spec, protected_metadata.
  destruct (from_str (spec_of row)) as [spec|]; [|done].
  destruct (from_str (job_cache_metadata row)) as [meta|]; [|done].
  destruct (_ || _) eqn:Href.
  - unfold enter_ledger. destruct (negb _); [done|].
    set (e := remediation_of _ _ _ _). cbv zeta.
    destruct (nd_ledger d !! rem_job_id e) as [old|] eqn:Hold; intros [= <- <-].
    + split_and!; [by eexists..|done| |done|done|done|done]. by apply update_job_insert.
    + split_and!; [by eexists..|done| |done|done| |done].
      * set (d1 := Build_NestDb _ _ _). change (jobs (nd_jobs d)) with (jobs (nd_jobs d1)).
        by apply (update_job_insert _ _ d1).
      * simpl. intros Hd. by rewrite dom_insert_L, Hd.
  - cbv zeta. destruct (negb _ || negb _) eqn:Hch; intros [= <- <-].
    + split_and!; [by eexists..|done| |done|done|done|done].
      rewrite bool_decide_false; [by apply update_job_insert|]. intros [H1 H2].
      by rewrite !bool_decide_true in Hch.
    + apply orb_false_iff in Hch as [H1%negb_false_iff%bool_decide_eq_true H2%negb_false_iff%bool_decide_eq_true].
      split_and!; [by eexists..|done| |done|done|done|done].
      rewrite bool_decide_true by done. by rewrite insert_id.
Qed.

(** The loop: every listed row becomes its outcome, the rest stays. *)
Lemma quarantine_rows_spec now l k d n d' :
  ids_ok (nd_jobs d) → NoDup (job_id <$> l) →
  (∀ row, row ∈ l → jobs (nd_jobs d) !! job_id row = Some row) →
  quarantine_rows sha256_hex now l k d = (Ok n, d') →
  n = k + Z.of_nat (count refused l) ∧ nd_cache d' = nd_cache d ∧ ids_ok (nd_jobs d') ∧
  (∀ row, row ∈ l → readable row ∧
     jobs (nd_jobs d') !! job_id row = Some (outcome (now (job_id row)) row) ∧
     nd_ledger d' !! job_id row =
       if refused row then Some (default (entry_of (now (job_id row)) row) (nd_ledger d !! job_id row))
       else nd_ledger d !! job_id row) ∧
  (∀ id, id ∉ job_id <$> l → jobs (nd_jobs d') !! id = jobs (nd_jobs d) !! id ∧
                              nd_ledger d' !! id = nd_ledger d !! id) ∧
  (dom (nd_ledger d) = remediated (nd_jobs d) → dom (nd_ledger d') = remediated (nd_jobs d')).
Proof.
  revert k d. induction l as [|row l IH]; intros k d Hids Hnd Hl; cbn [quarantine_rows].
  { intros [= <- <-]. split_and!; [unfold count; simpl; lia|done|done| |done|done]. by intros ? ?%not_elem_of_nil. }
  destruct (quarantine_job _ _ _ _) as [[b|e] d1] eqn:E; [|done]. intros H.
  assert (jobs (nd_jobs d) !! job_id row = Some row) as Hrow by (apply Hl; left).
  apply quarantine_job_spec in E as (Hread & -> & Hj & Hc & Hled & Hdom & _); [|done|done].
  apply NoDup_cons in Hnd as [Hnin Hnd].
  assert (∀ id, id ≠ job_id row → jobs (nd_jobs d1) !! id = jobs (nd_jobs d) !! id ∧
                                   nd_ledger d1 !! id = nd_ledger d !! id) as Hother.
  { intros id Hne. rewrite Hj, Hled, lookup_insert_ne by done. split; [done|].
    unfold ledger_with. destruct (refused row); [|done].
    change (rem_job_id (entry_of (now (job_id row)) row)) with (job_id row).
    destruct (nd_ledger d !! job_id row); [done|]. by rewrite lookup_insert_ne. }
  assert (nd_ledger d1 !! job_id row = if refused row
    then Some (default (entry_of (now (job_id row)) row) (nd_ledger d !! job_id row))
    else nd_ledger d !! job_id row) as Hhere.
  { rewrite Hled. unfold ledger_with. destruct (refused row); [|done].
    change (rem_job_id (entry_of (now (job_id row)) row)) with (job_id row).
    destruct (nd_ledger d !! job_id row) as [old|] eqn:Ho; [by rewrite Ho|]. by rewrite lookup_insert_eq. }
  assert (ids_ok (nd_jobs d1)) as Hids1.
  { intros id r. rewrite Hj. intros [[<- <-]|[_ Hr]]%lookup_insert_Some; [apply outcome_id|by apply Hids]. }
  assert (∀ r, r ∈ l → job_id r ≠ job_id row) as Hne.
  { intros r Hr E. apply Hnin. rewrite <- E. by apply list_elem_of_fmap_2. }
  apply IH in H as (Hn & Hc' & Hids' & Hin & Hout & Hdom'); [|done|done|].
  2:{ intros r Hr. rewrite (proj1 (Hother _ (Hne r Hr))). apply Hl. by right. }
  split_and!; [|congruence|done| | |auto].
  - rewrite Hn. unfold count. simpl. destruct (refused row); simpl; lia.
  - intros r [->|Hr]%elem_of_cons.
    + destruct (Hout _ Hnin) as [-> ->]. split_and!; [done| |done]. by rewrite Hj, lookup_insert_eq.
    + destruct (Hin r Hr) as (? & Hjr & Hlr). destruct (Hother _ (Hne r Hr)) as [_ Ho].
      rewrite Ho in Hlr. done.
  - intros id Hid. cbn in Hid. apply not_elem_of_cons in Hid as [Hid Hidl].
    destruct (Hout _ Hidl) as [-> ->]. by apply Hother.
Qed.

Lemma elem_of_sorted_rows j row :
  row ∈ merge_sort job_id_le (rows j) ↔ ∃ id, jobs j !! id = Some row.
Proof.
  rewrite merge_sort_Permutation. unfold rows. rewrite list_elem_of_fmap. split.
  - intros ([id r] & -> & H%elem_of_map_to_list). by exists id.
  - intros [id H]. exists (id, row). split; [done|by apply elem_of_map_to_list].
Qed.

Lemma NoDup_sorted_rows j : ids_ok j → NoDup (job_id <$> merge_sort job_id_le (rows j)).
Proof.
  intros Hids. rewrite merge_sort_Permutation. unfold rows. rewrite <- list_fmap_compose.
  rewrite (list_fmap_ext _ fst); [apply NoDup_fst_map_to_list|].
  intros i [id r] H%list_elem_of_lookup_2%elem_of_map_to_list. by apply Hids.
Qed.

(** A start as a whole. *)
Lemma quarantine_spec now d n d' :
  ids_ok (nd_jobs d) → quarantine_protected_build_jobs sha256_hex now d = (Ok n, d') →
  n = Z.of_nat (count refused (rows (nd_jobs d))) ∧ nd_cache d' = nd_cache d ∧ ids_ok (nd_jobs d') ∧
  (∀ id, match jobs (nd_jobs d) !! id with
    | Some row => readable row ∧ jobs (nd_jobs d') !! id = Some (outcome (now id) row) ∧
        nd_ledger d' !! id = if refused row
          then Some (default (entry_of (now id) row) (nd_ledger d !! id)) else nd_ledger d !! id
    | None => jobs (nd_jobs d') !! id = None ∧ nd_ledger d' !! id = nd_ledger d !! id
    end) ∧
  (dom (nd_ledger d) = remediated (nd_jobs d) → dom (nd_ledger d') = remediated (nd_jobs d')).
Proof.
  intros Hids H. apply quarantine_rows_spec in H as (-> & Hc & Hids' & Hin & Hout & Hdom); [|done| |].
  - split_and!; [|done|done| |done].
    + rewrite Z.add_0_l. f_equal. apply count_Permutation, merge_sort_Permutation.
    + intros id. destruct (jobs (nd_jobs d) !! id) as [row|] eqn:Hrow.
      * rewrite <- (Hids _ _ Hrow). apply Hin, elem_of_sorted_rows. by exists id.
      * destruct (Hout id) as [-> ->]; [|done]. intros (row & -> & [i Hr]%elem_of_sorted_rows)%list_elem_of_fmap.
        by rewrite (Hids _ _ Hr), Hr in Hrow.
  - by apply NoDup_sorted_rows.
  - intros row [id Hr]%elem_of_sorted_rows. by rewrite (Hids _ _ Hr).
Qed.
End Quarantine.

Section Start.
Context `{laws : QuarantineLaws} (sha256_hex : string → string).

(** What a quarantined job is reduced to. *)
Definition scrubbed (row : BuildJobRow) : Prop :=
  job_status row = "failed" ∧ ji_build_spec (job_inputs row) = to_string safe_spec ∧
  job_logs row = "" ∧ ∃ status, status ∈ ["pending_purge"; "purged"] ∧
    job_cache_metadata row = to_string (safe_metadata status).

Lemma scrubbed_accepted row : scrubbed row → accepted row.
Proof.
  intros (_ & Hs & _ & status & Hin & Hm). exists safe_spec, (safe_metadata status).
  rewrite Hs, Hm, !codec_reads. split_and!; [done..|apply safe_spec_accepted|].
  by apply safe_metadata_accepted.
Qed.

Lemma quarantined_scrubbed now row : scrubbed (quarantined_row now row).
Proof. split_and!; [done..|]. exists "pending_purge". split; [left|done]. Qed.

Lemma accepted_readable row : accepted row → readable row.
Proof. intros (spec & meta & Hs & Hm & _). unfold readable. rewrite Hs, Hm. eauto. Qed.

Lemma outcome_accepted now row : readable row → accepted (outcome now row).
Proof.
  intros Hr. unfold outcome. destruct (refused row) eqn:Href.
  - apply scrubbed_accepted, quarantined_scrubbed.
  - apply accepted_refused in Href; [|done]. by case_bool_decide.
Qed.

(** A start over accepted rows quarantines nothing. *)
Lemma quarantine_accepted now l k d :
  Forall accepted l → ∃ d', quarantine_rows sha256_hex now l k d = (Ok k, d') ∧
                            nd_ledger d' = nd_ledger d.
Proof.
  intros Hl. revert d. induction Hl as [|row l Hrow _ IH]; intros d; [by exists d|].
  cbn [quarantine_rows].
  assert (∃ d1, quarantine_job sha256_hex (now (job_id row)) row d = (Ok false, d1) ∧
                nd_ledger d1 = nd_ledger d) as (d1 & -> & <-).
  { destruct Hrow as (spec & meta & Hs & Hm & Hvs & Hvm). unfold quarantine_job.
    rewrite Hs, Hm, Hvs, Hvm. simpl. case_match; eauto. }
  rewrite Z.add_0_r. apply IH.
Qed.

(** A start that succeeds leaves no job the boundary refuses.  Exactly the
    jobs it refused are scrubbed: failed, without logs, their documents replaced,
    and entered in the ledger with the digest of what they were asked to build;
    every other job keeps its documents and state and has its logs and error
    redacted.  Another start finds nothing to quarantine. *)
Theorem start_leaves_only_accepted_jobs now d n d' :
  ids_ok (nd_jobs d) → quarantine_protected_build_jobs sha256_hex now d = (Ok n, d') →
  n = Z.of_nat (count refused (rows (nd_jobs d))) ∧ nd_cache d' = nd_cache d ∧
  (∀ id row', jobs (nd_jobs d') !! id = Some row' → accepted row' ∧
     ∃ row, jobs (nd_jobs d) !! id = Some row ∧
       if refused row then
         scrubbed row' ∧ job_output row' = job_output row ∧
         nd_ledger d' !! id = Some (default (entry_of sha256_hex (now id) row) (nd_ledger d !! id))
       else
         job_inputs row' = job_inputs row ∧ job_cache_metadata row' = job_cache_metadata row ∧
         job_status row' = job_status row ∧ nd_ledger d' !! id = nd_ledger d !! id ∧
         job_logs row' = BuildJobs.redact_sensitive_key_values (job_logs row) ∧
         job_error row' = BuildJobs.redact_sensitive_key_values (job_error row)) ∧
  (∀ later, ∃ d2, quarantine_protected_build_jobs sha256_hex later d' = (Ok 0, d2) ∧
                  nd_ledger d2 = nd_ledger d').
Proof.
  intros Hids H. apply quarantine_spec in H as (-> & Hc & Hids' & Hall & _); [|done].
  assert (∀ id row', jobs (nd_jobs d') !! id = Some row' → ∃ row, jobs (nd_jobs d) !! id = Some row ∧
    readable row ∧ row' = outcome (now id) row ∧ nd_ledger d' !! id = if refused row
      then Some (default (entry_of sha256_hex (now id) row) (nd_ledger d !! id)) else nd_ledger d !! id) as Hrows.
  { intros id row' Hr'. specialize (Hall id). destruct (jobs (nd_jobs d) !! id) as [row|]; [|naive_solver].
    destruct Hall as (? & Hr & ?). exists row. rewrite Hr' in Hr. by injection Hr. }
  split_and!; [done|done| |].
  - intros id row' (row & Hr & Hread & -> & Hled)%Hrows. split; [by apply outcome_accepted|].
    exists row. split; [done|]. unfold outcome. destruct (refused row).
    + split_and!; [apply quarantined_scrubbed|done|done].
    + case_bool_decide as Hb; [destruct Hb|]; by split_and!.
  - intros later. apply quarantine_accepted, Forall_forall.
    intros row' (id & (row & _ & Hread & -> & _)%Hrows)%elem_of_sorted_rows. by apply outcome_accepted.
Qed.

Lemma rule_of_valid a b : rule_of a b ∈ RULES.
Proof. unfold RULES. destruct a, b; simpl; set_solver. Qed.

(** A start fails only over a row it cannot read. *)
Theorem start_succeeds_on_readable_rows now d :
  jobs_ok (nd_jobs d) →
  (∀ text, len (sha256_hex text) = 64 ∧
     all_bytes (λ a, is_digit a || in_range 97 102 (byte a)) (sha256_hex text) = true) →
  (∀ id row, jobs (nd_jobs d) !! id = Some row → readable row) →
  ∃ n d', quarantine_protected_build_jobs sha256_hex now d = (Ok n, d').
Proof.
  intros Hok Hsha Hread. unfold quarantine_protected_build_jobs.
  assert (Forall (λ row, readable row ∧ job_status row ∈ ALLOWED_BUILD_STATES)
    (merge_sort job_id_le (rows (nd_jobs d)))) as Hl.
  { apply Forall_forall. intros row [id Hr]%elem_of_sorted_rows. split; [by eapply Hread|by eapply jobs_status]. }
  clear Hok Hread. revert Hl. generalize (merge_sort job_id_le (rows (nd_jobs d))) as l.
  intros l Hl. generalize 0 as k. revert d. induction Hl as [|row l [Hr Hst] _ IH]; intros d k; [by eexists _, _|].
  cbn [quarantine_rows].
  assert (∃ b d1, quarantine_job sha256_hex (now (job_id row)) row d = (Ok b, d1)) as (b & d1 & ->); [|apply IH].
  destruct Hr as [[spec Hs] [meta Hm]]. unfold quarantine_job. rewrite Hs, Hm. cbv zeta.
  destruct (_ || _); [|case_match; eauto]. unfold enter_ledger.
  assert (∀ rule, rule ∈ RULES → remediation_valid (remediation_of sha256_hex row rule (now (job_id row))) = true)
    as Hvalid.
  { intros rule Hrule. unfold remediation_valid. simpl. destruct (Hsha (ji_build_spec (job_inputs row))) as [-> ->].
    by rewrite !bool_decide_true. }
  rewrite Hvalid; [|apply rule_of_valid]. simpl. destruct (nd_ledger d !! job_id row); eauto.
Qed.
End Start.

(** ** Withdrawal *)

Lemma delete_artifacts_lookup ids c id :
  artifacts (foldl (λ c id, delete_cache_artifact id c) c ids) !! id =
    if bool_decide (id ∈ ids) then None else artifacts c !! id.
Proof.
  revert c. induction ids as [|i ids IH]; intros c; cbn [foldl].
  { rewrite bool_decide_false; [done|apply not_elem_of_nil]. }
  rewrite IH. unfold delete_cache_artifact.
  assert (artifacts (match artifacts c !! i with
    | Some _ => changed 1 (delete i (artifacts c)) c | None => c end) !! id =
    if bool_decide (id = i) then None else artifacts c !! id) as ->.
  { destruct (bool_decide_reflect (id = i)) as [->|Hne];
      destruct (artifacts c !! i) as [row|] eqn:Hi; cbn [artifacts changed];
      [apply lookup_delete_eq|done|by apply lookup_delete_ne|done]. }
  destruct (bool_decide_reflect (id ∈ ids)), (bool_decide_reflect (id = i)),
    (bool_decide_reflect (id ∈ i :: ids)); set_solver.
Qed.

Lemma delete_artifacts_steps `{Serde, Screening} ids c :
  rtc cache_step c (foldl (λ c id, delete_cache_artifact id c) c ids).
Proof.
  revert c. induction ids as [|i ids IH]; intros c; [done|]. eapply rtc_l; [|apply IH]. constructor.
Qed.

Section Purge.
Context {serde : Serde} {screening : Screening}.

(** A purge is completed exactly once and completely.  It succeeds exactly
    when the entry of the job is pending and no artifact of the job is left
    besides those it removes; then the chosen artifacts and no others are gone,
    the job says so, the entry is closed, and completing it again is refused.
    In every other case nothing changes. *)
Theorem purge_completes_once r ids now d :
  let '(res, d') := complete_protected_build_job_cache_purge r ids now d in
  let clear := ∀ id row, artifacts (nd_cache d) !! id = Some row → id ∉ ids → associated r row = false in
  (res = Ok tt ↔ clear ∧ ∃ e, nd_ledger d !! pr_job_id r = Some e ∧ pending e = true) ∧
  match res with
  | Err _ => d' = d
  | Ok _ =>
      (∀ id, artifacts (nd_cache d') !! id =
             if bool_decide (id ∈ ids) then None else artifacts (nd_cache d) !! id) ∧
      (∀ row, row ∈ artifact_rows (nd_cache d') → associated r row = false) ∧
      (∃ e, nd_ledger d !! pr_job_id r = Some e ∧ 
            nd_ledger d' = <[pr_job_id r := purged_row now e]> (nd_ledger d)) ∧
      (∀ id, jobs (nd_jobs d') !! id =
         (λ row, if job_id row =? pr_job_id r
                 then with_metadata (to_string (safe_metadata "purged")) now row else row)
         <$> jobs (nd_jobs d) !! id) ∧
      ∀ ids' later, ∃ e, complete_protected_build_job_cache_purge r ids' later d' = (Err e, d')
  end.
Proof.
  destruct (complete_protected_build_job_cache_purge r ids now d) as [res d'] eqn:E.
  cbv zeta. unfold complete_protected_build_job_cache_purge in E.
  set (cache := foldl _ _ _) in E.
  assert (∀ id, artifacts cache !! id = if bool_decide (id ∈ ids) then None else artifacts (nd_cache d) !! id)
    as Hcache by apply delete_artifacts_lookup.
  assert (existsb (λ id, bool_decide (is_Some (artifacts cache !! id))) ids = false) as Hnone.
  { apply not_true_iff_false. intros (id & Hin%list_elem_of_In & Hb)%existsb_exists.
    rewrite Hcache, (bool_decide_true (id ∈ ids)) in Hb by done. by apply bool_decide_eq_true, is_Some_None in Hb. }
  rewrite Hnone in E.
  assert (existsb (associated r) (artifact_rows cache) = false ↔
    ∀ id row, artifacts (nd_cache d) !! id = Some row → id ∉ ids → associated r row = false) as Hassoc.
  { rewrite <- not_true_iff_false, existsb_exists. split.
    - intros Hno id row Hr Hid. apply not_true_iff_false. intros Ha. apply Hno. exists row. split; [|done].
      apply list_elem_of_In, elem_of_artifact_rows. exists id. by rewrite Hcache, bool_decide_false.
    - intros Hall (row & [id Hr]%list_elem_of_In%elem_of_artifact_rows & Ha).
      rewrite Hcache in Hr. case_bool_decide; [done|]. by rewrite (Hall id row) in Ha. }
  destruct (existsb (associated r) (artifact_rows cache)) eqn:Hex.
  { injection E as <- <-. split; [|done]. split; [done|]. intros [Hc%Hassoc _]. done. }
  destruct (nd_ledger d !! pr_job_id r) as [e|] eqn:He.
  2:{ injection E as <- <-. split; [|done]. split; [done|]. by intros [_ (? & ? & _)]. }
  destruct (pending e) eqn:Hp.
  2:{ injection E as <- <-. split; [|done]. split; [done|]. intros [_ (? & [= <-] & ?)]. congruence. }
  injection E as <- <-. split; [|split_and!].
  - split; [|done]. intros _. split; [by apply Hassoc|by exists e].
  - exact Hcache.
  - intros row Hin. apply not_true_iff_false. intros Ha. apply (not_true_iff_false _) in Hex. apply Hex.
    apply existsb_exists. exists row. split; [by apply list_elem_of_In|done].
  - by exists e.
  - intros id. apply update_where_lookup.
  - intros ids' later. unfold complete_protected_build_job_cache_purge. cbn [nd_ledger].
    rewrite lookup_insert_eq. repeat case_match; eauto. by vm_compute in H1.
Qed.
End Purge.

(** ** The tables over time *)

Section System.
Context `{laws : QuarantineLaws} (sha256_hex : string → string).

Record nest_ok (d : NestDb) : Prop := {
  no_jobs : jobs_ok (nd_jobs d);
  no_remediated : dom (nd_ledger d) = remediated (nd_jobs d);
  no_scrubbed : ∀ id, id ∈ dom (nd_ledger d) →
    ∃ row, jobs (nd_jobs d) !! id = Some row ∧ scrubbed row;
}.

Inductive nest_step : NestDb → NestDb → Prop :=
| nest_start now d : nest_step d (quarantine_protected_build_jobs sha256_hex now d).2
| nest_purge r ids now d : nest_step d (complete_protected_build_job_cache_purge r ids now d).2
| nest_cache d c : cache_step (nd_cache d) c →
    nest_step d {| nd_jobs := nd_jobs d; nd_cache := c; nd_ledger := nd_ledger d |}
| nest_jobs d h p : job_step {| pool_db := nd_jobs d; held := h |} p →
    pool_ok {| pool_db := nd_jobs d; held := h |} → nest_step d (set_nd_jobs (pool_db p) d).

(** An entry keeps what it records; once purged it keeps everything. *)
Definition entry_evolves (e e' : RemediationRow) : Prop :=
  rem_job_id e' = rem_job_id e ∧ rem_managed_job_id e' = rem_managed_job_id e ∧
  rem_original_status e' = rem_original_status e ∧ rem_rule e' = rem_rule e ∧
  rem_build_spec_sha256 e' = rem_build_spec_sha256 e ∧ rem_created_at e' = rem_created_at e ∧
  (pending e = false → e' = e).

Definition ledger_evolves (d d' : NestDb) : Prop :=
  ∀ id e, nd_ledger d !! id = Some e → ∃ e', nd_ledger d' !! id = Some e' ∧ entry_evolves e e'.

#[local] Instance ledger_evolves_preorder : PreOrder ledger_evolves.
Proof.
  split.
  - intros d id e He. exists e. unfold entry_evolves. by split_and!.
  - intros a b c Hab Hbc id e He. destruct (Hab id e He) as (e1 & He1 & E1).
    destruct (Hbc id e1 He1) as (e2 & He2 & E2). exists e2. split; [done|].
    destruct E1 as (? & ? & ? & ? & ? & ? & Hk1), E2 as (? & ? & ? & ? & ? & ? & Hk2).
    unfold entry_evolves. split_and!; [congruence..|].
    intros Hp. specialize (Hk1 Hp). subst e1. by apply Hk2.
Qed.

(** A scrubbed job stays as it is through everything the queue does. *)
Definition kept (id : Z) (d d' : JobDb) : Prop :=
  remediated d' = remediated d ∧
  ∀ row, jobs d !! id = Some row → scrubbed row → ∃ row', jobs d' !! id = Some row' ∧ scrubbed row'.

Lemma kept_refl id d : kept id d d.
Proof. split; [done|]. intros row Hr Hs. by exists row. Qed.

Lemma kept_update id P f d :
  (∀ row, jobs d !! id = Some row → scrubbed row → P row = true → scrubbed (f row)) → kept id d (update_where P f d).2.
Proof.
  intros Hf. split; [done|]. intros row Hr Hs. rewrite update_where_lookup, Hr. simpl.
  eexists. split; [done|]. destruct (P row) eqn:HP; auto.
Qed.

Lemma kept_insert id i new d last :
  (∀ row, jobs d !! i = Some row → scrubbed row → i = id → scrubbed new) →
  kept id d {| jobs := <[i := new]> (jobs d); last_id := last; remediated := remediated d |}.
Proof.
  intros Hn. split; [done|]. intros row Hr Hs. simpl. destruct (decide (i = id)) as [->|Hne].
  - rewrite lookup_insert_eq. eexists. split; [done|]. by eapply Hn.
  - rewrite lookup_insert_ne by done. by exists row.
Qed.

Lemma kept_insert_row id mk d i d' :
  jobs_ok d → insert_row mk d = Some (i, d') → kept id d d'.
Proof.
  intros Hok. unfold insert_row. destruct (_ <? _); [|done]. intros [= <- <-].
  apply kept_insert. intros row Hr. apply (jobs_ids _ Hok) in Hr as [_ ?]. lia.
Qed.

Lemma kept_trans id a b c : kept id a b → kept id b c → kept id a c.
Proof.
  intros [Hr1 H1] [Hr2 H2]. split; [congruence|]. intros row Hr Hs.
  destruct (H1 row Hr Hs) as (row1 & ? & ?). by eapply H2.
Qed.

Lemma scrubbed_with row row' :
  scrubbed row → job_status row' = job_status row → job_inputs row' = job_inputs row →
  job_logs row' = job_logs row → job_cache_metadata row' = job_cache_metadata row → scrubbed row'.
Proof. unfold scrubbed. by intros H -> -> -> ->. Qed.

Lemma scrubbed_failed row (status : string) :
  scrubbed row → status ≠ "failed" → bool_decide (job_status row = status) = false.
Proof. intros [-> _] Hne. by apply bool_decide_eq_false. Qed.

Lemma cancel_row_scrubbed now row : scrubbed row → scrubbed (cancel_row now row).
Proof.
  intros Hs. apply (scrubbed_with row); [done| |done..].
  simpl. by rewrite (scrubbed_failed _ "queued").
Qed.

Lemma kept_running id P f d :
  (∀ row, P row = true → is_running row = true) → kept id d (update_where P f d).2.
Proof.
  intros HP. apply kept_update. intros row _ Hs Hrow. apply HP in Hrow. unfold is_running in Hrow.
  by rewrite (scrubbed_failed _ "running") in Hrow.
Qed.

Lemma kept_upsert id managed r now d :
  jobs_ok d → kept id d (upsert_managed_build_job managed r now d).2.
Proof.
  intros Hok. unfold upsert_managed_build_job.
  destruct (rbind _ _) as [[[m inputs] metadata]|]; [|apply kept_refl]. unfold upsert_row.
  destruct (find_managed m d) as [row|] eqn:Hf; simpl.
  - apply find_managed_Some in Hf as [Hr _]; [|done]. apply kept_insert.
    intros row0 Hr0 Hs _. rewrite Hr in Hr0. injection Hr0 as <-.
    apply (scrubbed_with row); [done|done|..]; simpl;
      by rewrite ?(scrubbed_failed _ "queued"), ?(scrubbed_failed _ "running").
  - destruct (insert_row _ d) as [[i d1]|] eqn:Hi; simpl; [|apply kept_refl].
    by eapply kept_insert_row.
Qed.

Lemma kept_reject id managed artifact target system revision hash reason now d :
  jobs_ok d → kept id d (record_rejected_managed_build_job managed artifact target system
                           revision hash reason now d).2.
Proof.
  intros Hok. unfold record_rejected_managed_build_job.
  destruct (normalize_managed_id _ _) as [m|]; [|apply kept_refl].
  destruct (find_managed m d) as [row|] eqn:Hf; simpl.
  - apply find_managed_Some in Hf as [Hr _]; [|done].
    case_bool_decide as Hq; simpl; [|apply kept_refl]. apply kept_insert.
    intros row0 Hr0 [Hs _] _. congruence.
  - destruct (insert_row _ d) as [[i d1]|] eqn:Hi; simpl; [|apply kept_refl].
    by eapply kept_insert_row.
Qed.

Lemma kept_cancel_managed id ids now n d : kept id d (cancel_managed_build_jobs ids now n d).2.
Proof.
  revert n d. induction ids as [|i ids IH]; intros n d; cbn [cancel_managed_build_jobs]; [apply kept_refl|].
  destruct (normalize_managed_id _ _) as [m|]; [|apply kept_refl].
  destruct (update_where _ _ d) as [k d1] eqn:E. eapply kept_trans; [|apply IH].
  change d1 with (k, d1).2. rewrite <- E. apply kept_update. intros; by apply cancel_row_scrubbed.
Qed.

Lemma job_step_kept id h d p :
  job_step {| pool_db := d; held := h |} p → jobs_ok d → id ∈ remediated d → kept id d (pool_db p).
Proof.
  intros Hstep Hok Hrem. inversion Hstep; subst; cbn [pool_db] in *;
    auto using kept_upsert, kept_reject, kept_cancel_managed, kept_refl.
  - unfold create_build_job. destruct (rbind _ _) as [[inputs metadata]|]; [|apply kept_refl].
    destruct (insert_row _ d) as [[i d1]|] eqn:Hi; simpl; [|apply kept_refl].
    by eapply kept_insert_row.
  - apply kept_update. intros; by apply cancel_row_scrubbed.
  - match goal with E : claim_statement _ _ = _ |- _ => apply claim_statement_Some in E as (r & -> & Hr & Hq & -> & _); [|done] end.
    apply kept_insert. intros row0 Hr0 [Hs _] _. congruence.
  - apply kept_running. by intros row [_ ?]%andb_true_iff.
  - apply kept_running. by intros row [_ ?]%andb_true_iff.
  - apply kept_update. intros row Hr _ [_ Hn]%andb_true_iff. unfold not_remediated in Hn.
    by rewrite (proj1 (jobs_ids _ Hok _ _ Hr)), bool_decide_true in Hn.
  - unfold fail_running_build_job_after_worker_error.
    destruct (update_where _ _ d) as [k d1] eqn:E. change d1 with (k, d1).2. rewrite <- E.
    apply kept_running. by intros row [_ ?]%andb_true_iff.
  - by apply kept_running.
Qed.

(** No work on the queue touches the ledger. *)
Lemma job_step_remediated h d p :
  job_step {| pool_db := d; held := h |} p → remediated (pool_db p) = remediated d.
Proof.
  intros Hstep. inversion Hstep; subst; cbn [pool_db] in *; try done.
  - unfold create_build_job. destruct (rbind _ _) as [[inputs metadata]|]; [|done].
    unfold insert_row. by destruct (_ <? _).
  - unfold upsert_managed_build_job, upsert_row. destruct (rbind _ _) as [[[m inputs] metadata]|]; [|done].
    destruct (find_managed m d); [done|]. unfold insert_row. by destruct (_ <? _).
  - unfold record_rejected_managed_build_job. destruct (normalize_managed_id _ _) as [m|]; [|done].
    destruct (find_managed m d); [by case_bool_decide|]. unfold insert_row. by destruct (_ <? _).
  - apply (kept_cancel_managed 0).
  - match goal with E : claim_statement _ _ = _ |- _ => unfold claim_statement in E end.
    destruct (merge_sort _ _); by simplify_eq.
Qed.

Lemma jobs_ok_replace d d' row row' :
  jobs_ok d → jobs d !! job_id row = Some row → job_id row' = job_id row →
  job_managed_id row' = job_managed_id row → job_status row' ∈ ALLOWED_BUILD_STATES →
  jobs d' = <[job_id row := row']> (jobs d) → last_id d' = last_id d → jobs_ok d'.
Proof.
  intros Hok Hr Hid Hman Hst Hj Hlast.
  assert (∀ i x', jobs d' !! i = Some x' → ∃ x, jobs d !! i = Some x ∧ job_id x' = job_id x ∧
    job_managed_id x' = job_managed_id x ∧ job_status x' ∈ ALLOWED_BUILD_STATES) as Hold.
  { intros i x'. rewrite Hj. intros [[<- <-]|[_ Hx]]%lookup_insert_Some; [by exists row|].
    exists x'. split_and!; [done..|]. by eapply jobs_status. }
  split.
  - intros i x' (x & Hx & -> & _)%Hold. rewrite Hlast. by apply jobs_ids.
  - by intros i x' (x & _ & _ & _ & ?)%Hold.
  - intros i j x' y' m (x & Hx & _ & Hmx & _)%Hold (y & Hy & _ & Hmy & _)%Hold Ex Ey.
    eapply (jobs_unique _ Hok _ _ _ _ m); [done..|congruence|congruence].
Qed.

Lemma outcome_scrubbed now row : scrubbed row → scrubbed (outcome now row).
Proof.
  intros Hs. pose proof (scrubbed_accepted _ Hs) as Ha. unfold outcome.
  rewrite (proj1 (accepted_refused _ (accepted_readable _ Ha)) Ha).
  case_bool_decide; [done|]. apply (scrubbed_with row); [done..| |done].
  destruct Hs as (_ & _ & Hl & _). simpl. rewrite Hl. apply redact_empty.
Qed.

Lemma outcome_status now row :
  job_status row ∈ ALLOWED_BUILD_STATES → job_status (outcome now row) ∈ ALLOWED_BUILD_STATES.
Proof.
  intros Hst. unfold outcome. destruct (refused row); [|by case_bool_decide].
  simpl. unfold ALLOWED_BUILD_STATES. set_solver.
Qed.
Lemma outcome_managed now row : job_managed_id (outcome now row) = job_managed_id row.
Proof. unfold outcome. destruct (refused row); [done|by case_bool_decide]. Qed.

Lemma nest_ids d : nest_ok d → ids_ok (nd_jobs d).
Proof. intros Hok id row Hr. by destruct (jobs_ids _ (no_jobs _ Hok) _ _ Hr). Qed.

(** One iteration of the quarantine keeps the tables consistent, whatever its
    answer, and touches no other row. *)
Lemma quarantine_job_keeps now row d res d' :
  nest_ok d → jobs (nd_jobs d) !! job_id row = Some row →
  quarantine_job sha256_hex now row d = (res, d') →
  nest_ok d' ∧ ledger_evolves d d' ∧
  ∀ id, id ≠ job_id row → jobs (nd_jobs d') !! id = jobs (nd_jobs d) !! id.
Proof.
  intros Hok Hrow E. destruct res as [b|e].
  2:{ assert (d' = d) as ->; [|by split_and!]. unfold quarantine_job in E. by repeat case_match; simplify_eq. }
  apply quarantine_job_spec in E as (Hread & _ & Hj & _ & Hled & Hdom & Hlast); [|by apply nest_ids|done].
  split_and!.
  - split.
    + eapply jobs_ok_replace; [apply (no_jobs _ Hok)|exact Hrow|apply outcome_id|apply outcome_managed| |exact Hj|exact Hlast].
      apply outcome_status. eapply jobs_status; [apply (no_jobs _ Hok)|done].
    + apply Hdom, Hok.
    + intros id Hid. rewrite Hj. destruct (decide (job_id row = id)) as [<-|Hne].
      * rewrite lookup_insert_eq. eexists. split; [done|]. destruct (refused row) eqn:Href.
        -- unfold outcome. rewrite Href. apply quarantined_scrubbed.
        -- rewrite Hled in Hid. apply (no_scrubbed _ Hok) in Hid as (r & Hr & Hs).
           rewrite Hrow in Hr. injection Hr as <-. by apply outcome_scrubbed.
      * rewrite lookup_insert_ne by done. apply (no_scrubbed _ Hok). rewrite Hled in Hid.
        unfold ledger_with in Hid. destruct (refused row); [|done].
        destruct (nd_ledger d !! rem_job_id _); [done|]. rewrite dom_insert in Hid. set_solver.
  - intros id e He. exists e. split; [|by split_and!]. rewrite Hled. unfold ledger_with.
    destruct (refused row); [|done]. destruct (nd_ledger d !! rem_job_id _) eqn:Ho; [done|].
    rewrite lookup_insert_ne; [done|]. congruence.
  - intros id Hne. by rewrite Hj, lookup_insert_ne.
Qed.

Lemma quarantine_rows_keep now l k d :
  nest_ok d → NoDup (job_id <$> l) → (∀ row, row ∈ l → jobs (nd_jobs d) !! job_id row = Some row) →
  let d' := (quarantine_rows sha256_hex now l k d).2 in nest_ok d' ∧ ledger_evolves d d'.
Proof.
  revert k d. induction l as [|row l IH]; intros k d Hok Hnd Hl; cbn [quarantine_rows]; [done|].
  apply NoDup_cons in Hnd as [Hnin Hnd].
  destruct (quarantine_job _ _ _ _) as [res d1] eqn:E.
  apply quarantine_job_keeps in E as (Hok1 & Hev & Hother); [|done|apply Hl; left].
  destruct res as [b|e]; [|done].
  destruct (IH (k + if b then 1 else 0) d1) as [Hok2 Hev2]; [done|done| |].
  - intros r Hr. rewrite Hother; [apply Hl; by right|]. intros Heq. apply Hnin. rewrite <- Heq.
    by apply list_elem_of_fmap_2.
  - split; [done|]. by transitivity d1.
Qed.

Lemma purge_keeps r ids now d :
  nest_ok d → let d' := (complete_protected_build_job_cache_purge r ids now d).2 in
  nest_ok d' ∧ ledger_evolves d d'.
Proof.
  intros Hok. cbv zeta. unfold complete_protected_build_job_cache_purge.
  destruct (existsb _ ids); [done|]. destruct (existsb _ (artifact_rows _)); [done|].
  destruct (nd_ledger d !! pr_job_id r) as [e|] eqn:He; [|done].
  destruct (pending e) eqn:Hp; [|done]. cbn [snd].
  destruct (no_scrubbed _ Hok (pr_job_id r)) as (row & Hrow & Hs); [by apply elem_of_dom|].
  assert (job_id row = pr_job_id r) as Hid by by apply (nest_ids d).
  set (f := with_metadata _ now). set (d1 := update_job (pr_job_id r) f d).
  assert (jobs (nd_jobs d1) = <[pr_job_id r := f row]> (jobs (nd_jobs d))) as Hj
    by (apply update_job_insert; [by apply nest_ids|done]).
  assert (scrubbed (f row)) as Hsf.
  { destruct Hs as (? & ? & ? & _). split_and!; [done..|]. exists "purged". split; [set_solver|done]. }
  split; [split; cbn [nd_jobs nd_ledger]|].
  - rewrite <- Hid in Hj. eapply jobs_ok_replace; [apply (no_jobs _ Hok)| | | | |exact Hj|done]; [by rewrite Hid|done|done|].
    change (job_status row ∈ ALLOWED_BUILD_STATES).
    eapply jobs_status; [apply (no_jobs _ Hok)|exact Hrow].
  - rewrite dom_insert_lookup_L by by eexists. apply Hok.
  - intros id Hin. rewrite dom_insert_lookup_L in Hin by by eexists. rewrite Hj.
    destruct (decide (pr_job_id r = id)) as [<-|Hne]; [rewrite lookup_insert_eq; eauto|].
    rewrite lookup_insert_ne by done. by apply Hok.
  - intros id e0 He0. cbn [nd_ledger]. destruct (decide (pr_job_id r = id)) as [<-|Hne].
    + rewrite lookup_insert_eq. rewrite He in He0. injection He0 as <-. eexists. split; [done|].
      split_and!; [done..|]. intros Hf. congruence.
    + rewrite lookup_insert_ne by done. exists e0. split; [done|]. by split_and!.
Qed.

Lemma nest_step_ok d d' : nest_step d d' → nest_ok d → nest_ok d' ∧ ledger_evolves d d'.
Proof.
  intros [now d0|r ids now d0|d0 c Hc|d0 h p Hp Hpool] Hok.
  - apply quarantine_rows_keep; [done|by apply NoDup_sorted_rows, nest_ids|].
    intros row [id Hr]%elem_of_sorted_rows. by rewrite (nest_ids _ Hok _ _ Hr).
  - by apply purge_keeps.
  - split; [by destruct Hok; split|]. intros id e He. exists e. split; [done|]. by split_and!.
  - assert (∀ id, id ∈ dom (nd_ledger d0) → kept id (nd_jobs d0) (pool_db p)) as Hkept.
    { intros id Hid. eapply job_step_kept; [done|apply Hok|]. by rewrite <- (no_remediated _ Hok). }
    split; [split; cbn [nd_jobs nd_ledger set_nd_jobs]|].
    + apply (pool_jobs p). exact (proj1 (job_step_ok _ _ Hpool Hp)).
    + rewrite (no_remediated _ Hok). by rewrite (job_step_remediated _ _ _ Hp).
    + intros id Hid. destruct (no_scrubbed _ Hok id Hid) as (row & Hr & Hs).
      destruct (Hkept id Hid) as [_ Hk]. by eapply Hk.
    + intros id e He. exists e. split; [done|]. by split_and!.
Qed.

(** The ledger of protected jobs is append-only and binding: through any
    starts, purges, cache maintenance and work on the queue, an entry never
    disappears and keeps the identity, status, rule and digest it was made with,
    a closed entry never changes again, and the job it names stays scrubbed: no
    worker, report or resynchronisation brings documents or logs back. *)
Theorem ledger_is_append_only d d' :
  nest_ok d → rtc nest_step d d' →
  (∀ id e, nd_ledger d !! id = Some e → ∃ e', nd_ledger d' !! id = Some e' ∧ entry_evolves e e') ∧
  (∀ id, protected_build_job_remediation_exists id d' = true →
     ∃ row, jobs (nd_jobs d') !! id = Some row ∧ scrubbed row ∧ id ∈ remediated (nd_jobs d')).
Proof.
  intros Hok Hrtc. assert (nest_ok d' ∧ ledger_evolves d d') as [Hok' Hev].
  { induction Hrtc as [d|d1 d2 d3 Hs _ IH]; [by split|].
    destruct (nest_step_ok _ _ Hs Hok) as [Hok2 Hev]. destruct (IH Hok2) as [Hok3 Hev'].
    split; [done|]. by transitivity d2. }
  split; [exact Hev|]. intros id Hex%bool_decide_eq_true%elem_of_dom.
  destruct (no_scrubbed _ Hok' id Hex) as (row & Hr & Hs). exists row. split_and!; [done|done|].
  by rewrite <- (no_remediated _ Hok').
Qed.

(** ** The queue over starts *)

(** The tables and the jobs that workers execute.  A start screens the stored jobs before any
    worker runs; withdrawals are completed while they do. *)
Record Service := { sv_db : NestDb; sv_held : list Z }.
Definition service_pool (s : Service) : Pool := {| pool_db := nd_jobs (sv_db s); held := sv_held s |}.

Inductive service_step : Service → Service → Prop :=
| service_queue d h p : job_step {| pool_db := nd_jobs d; held := h |} p →
    service_step {| sv_db := d; sv_held := h |} {| sv_db := set_nd_jobs (pool_db p) d; sv_held := held p |}
| service_start now d :
    service_step {| sv_db := d; sv_held := [] |}
      {| sv_db := (quarantine_protected_build_jobs sha256_hex now d).2; sv_held := [] |}
| service_purge r ids now d h :
    service_step {| sv_db := d; sv_held := h |}
      {| sv_db := (complete_protected_build_job_cache_purge r ids now d).2; sv_held := h |}
| service_cache d h c : cache_step (nd_cache d) c →
    service_step {| sv_db := d; sv_held := h |}
      {| sv_db := {| nd_jobs := nd_jobs d; nd_cache := c; nd_ledger := nd_ledger d |}; sv_held := h |}.

Record service_ok (s : Service) : Prop := { so_tables : nest_ok (sv_db s); so_pool : pool_ok (service_pool s) }.

(** A text that starts have redacted, once or more or not at all. *)
Definition redacted : relation string := rtc (λ x y, y = BuildJobs.redact_sensitive_key_values x).

(** What becomes of a job that is not quarantined. *)
Record job_kept (r r' : BuildJobRow) : Prop := {
  kp_status : allowed (job_status r) (job_status r');
  kp_inputs : job_status r ≠ "queued" → job_inputs r' = job_inputs r;
  kp_final : terminal_status (job_status r) = true →
    job_status r' = job_status r ∧ job_cache_metadata r' = job_cache_metadata r ∧
    job_completed_at r' = job_completed_at r ∧
    redacted (job_logs r) (job_logs r') ∧ redacted (job_error r) (job_error r');
}.

(** What becomes of any job, in tables where it is quarantined or not. *)
Record job_evolves (d' : NestDb) (id : Z) (r r' : BuildJobRow) : Prop := {
  je_id : job_id r' = job_id r;
  je_managed : job_managed_id r' = job_managed_id r;
  je_created : job_created_at r' = job_created_at r;
  je_output : terminal_status (job_status r) = true →
    job_output r' = job_output r ∧ job_rejection_code r' = job_rejection_code r;
  je_kept : if decide (id ∈ dom (nd_ledger d')) then scrubbed r' else job_kept r r';
}.

Definition service_evolves (d d' : NestDb) : Prop :=
  ledger_evolves d d' ∧
  ∀ id row, jobs (nd_jobs d) !! id = Some row → ∃ row', jobs (nd_jobs d') !! id = Some row' ∧ job_evolves d' id row row'.

Lemma ledger_dom d d' : ledger_evolves d d' → dom (nd_ledger d) ⊆ dom (nd_ledger d').
Proof. intros H id [e He]%elem_of_dom. destruct (H id e He) as (e' & He' & _). apply elem_of_dom. by exists e'. Qed.

Lemma job_kept_trans r1 r2 r3 : job_kept r1 r2 → job_kept r2 r3 → job_kept r1 r3.
Proof.
  intros [S1 I1 F1] [S2 I2 F2]. split.
  - unfold allowed in *. intuition congruence.
  - intros Hq. rewrite I2; [by apply I1|]. unfold allowed in S1. intuition congruence.
  - intros Ht. destruct (F1 Ht) as (Hs & ? & ? & ? & ?). rewrite <- Hs in Ht.
    destruct (F2 Ht) as (? & ? & ? & ? & ?). split_and!; [congruence..|by etrans|by etrans].
Qed.

Lemma job_evolves_terminal d id r r' :
  job_evolves d id r r' → terminal_status (job_status r) = true → terminal_status (job_status r') = true.
Proof.
  intros [_ _ _ _ H] Ht. destruct (decide _) as [_|_].
  - by destruct H as [-> _].
  - by destruct (kp_final _ _ H Ht) as [-> _].
Qed.

#[local] Instance service_evolves_trans : Transitive service_evolves.
Proof.
  intros d1 d2 d3 [L12 J12] [L23 J23]. split; [by transitivity d2|]. intros id r1 H1.
  destruct (J12 id r1 H1) as (r2 & H2 & E12). destruct (J23 id r2 H2) as (r3 & H3 & E23). exists r3. split; [done|].
  pose proof (job_evolves_terminal _ _ _ _ E12) as Ht.
  destruct E12 as [I1 M1 C1 O1 K1], E23 as [I2 M2 C2 O2 K2]. split; [congruence..| |].
  - intros H. destruct (O1 H), (O2 (Ht H)). split; congruence.
  - destruct (decide (id ∈ dom (nd_ledger d3))) as [|Hn]; [done|].
    rewrite decide_False in K1 by (intros Hin; by apply Hn, (ledger_dom _ _ L23)). by eapply job_kept_trans.
Qed.

Lemma job_kept_refl r : job_kept r r.
Proof. split; [by left|done|]. intros _. split_and!; by try apply rtc_refl. Qed.

(** A row that stays as it is. *)
Lemma job_evolves_same d' id row : nest_ok d' → jobs (nd_jobs d') !! id = Some row → job_evolves d' id row row.
Proof.
  intros Hok Hr. split; [done..|]. destruct (decide _) as [Hin|_]; [|apply job_kept_refl].
  destruct (no_scrubbed _ Hok _ Hin) as (row' & Hr' & Hs). by simplify_eq.
Qed.

Lemma queue_evolves d j :
  nest_ok (set_nd_jobs j d) → jobs_evolve (nd_jobs d) j → service_evolves d (set_nd_jobs j d).
Proof.
  intros Hok Hev. split; [intros id e He; exists e; split; [done|by split_and!]|]. intros id row Hr.
  destruct (Hev id row Hr) as (row' & Hr' & [Hi Hm Hc Hs Hin Hf]). exists row'. split; [done|]. split; [done..| |].
  - intros Ht. by destruct (Hf Ht) as (_ & ? & _ & _ & _ & _ & ?).
  - destruct (decide _) as [Hd|_].
    + destruct (no_scrubbed _ Hok _ Hd) as (r2 & Hr2 & Hsc). cbn in Hr2. by simplify_eq.
    + split; [done..|]. intros Ht. destruct (Hf Ht) as (-> & _ & -> & -> & -> & -> & _). split_and!; by try apply rtc_refl.
Qed.

Lemma quarantine_job_evolves now row d res d' :
  nest_ok d → jobs (nd_jobs d) !! job_id row = Some row →
  quarantine_job sha256_hex now row d = (res, d') → service_evolves d d'.
Proof.
  intros Hok Hrow E. destruct (quarantine_job_keeps _ _ _ _ _ Hok Hrow E) as (Hok' & Hled & Hother). split; [done|].
  intros id r Hr. destruct (decide (id = job_id row)) as [->|Hne].
  2:{ exists r. rewrite Hother by done. split; [done|]. apply job_evolves_same; [done|]. by rewrite Hother. }
  rewrite Hrow in Hr. injection Hr as <-. destruct res as [b|e].
  2:{ assert (d' = d) as -> by (unfold quarantine_job in E; by repeat case_match; simplify_eq).
      exists row. split; [done|]. by apply job_evolves_same. }
  apply quarantine_job_spec in E as (_ & _ & Hj & _ & Hl & _ & _); [|by apply nest_ids|done].
  assert (jobs (nd_jobs d') !! job_id row = Some (outcome now row)) as Ho by by rewrite Hj, lookup_insert_eq.
  exists (outcome now row). split; [done|]. split.
  - apply outcome_id.
  - apply outcome_managed.
  - unfold outcome. destruct (refused row); [done|by case_bool_decide].
  - intros _. unfold outcome. destruct (refused row); [done|by case_bool_decide].
  - destruct (decide _) as [Hin|Hn].
    + destruct (no_scrubbed _ Hok' _ Hin) as (r2 & Hr2 & Hsc). by simplify_eq.
    + unfold outcome. destruct (refused row) eqn:Href.
      * destruct Hn. rewrite Hl. unfold ledger_with. apply elem_of_dom. change (rem_job_id (entry_of _ _ _)) with (job_id row).
        destruct (nd_ledger d !! job_id row) eqn:Hld; [by rewrite Hld|]. by rewrite lookup_insert_eq.
      * case_bool_decide; [apply job_kept_refl|]. split; [by left|done|]. intros _. cbn. split_and!; try done; by apply rtc_once.
Qed.

Lemma quarantine_rows_evolve now l k d :
  nest_ok d → NoDup (job_id <$> l) → (∀ row, row ∈ l → jobs (nd_jobs d) !! job_id row = Some row) →
  service_evolves d (quarantine_rows sha256_hex now l k d).2.
Proof.
  revert k d. induction l as [|row l IH]; intros k d Hok Hnd Hl; cbn [quarantine_rows].
  { split; [reflexivity|]. intros id r Hr. exists r. split; [done|]. by apply job_evolves_same. }
  apply NoDup_cons in Hnd as [Hnin Hnd]. destruct (quarantine_job _ _ _ _) as [res d1] eqn:E.
  assert (jobs (nd_jobs d) !! job_id row = Some row) as Hrow by (apply Hl; left).
  pose proof (quarantine_job_evolves _ _ _ _ _ Hok Hrow E) as Hev.
  apply quarantine_job_keeps in E as (Hok1 & _ & Hother); [|done|done].
  destruct res as [b|e]; [|done]. etrans; [exact Hev|]. apply IH; [done|done|].
  intros r Hr. rewrite Hother; [apply Hl; by right|]. intros Heq. apply Hnin. rewrite <- Heq. by apply list_elem_of_fmap_2.
Qed.

(** A completed withdrawal changes the metadata of a quarantined job, and no other row. *)
Lemma purge_jobs r ids now d id row :
  nest_ok d → jobs (nd_jobs d) !! id = Some row →
  let d' := (complete_protected_build_job_cache_purge r ids now d).2 in
  ∃ row', jobs (nd_jobs d') !! id = Some row' ∧
    (row' = row ∨ id ∈ dom (nd_ledger d') ∧ row' = with_metadata (to_string (safe_metadata "purged")) now row).
Proof.
  intros Hok Hr. cbv zeta. unfold complete_protected_build_job_cache_purge.
  destruct (existsb _ ids); [by eauto|]. destruct (existsb _ (artifact_rows _)); [by eauto|].
  destruct (nd_ledger d !! pr_job_id r) as [e|]; [|by eauto]. destruct (pending e); [|by eauto]. cbn [snd nd_jobs nd_ledger].
  unfold update_job, set_nd_jobs. cbn [nd_jobs]. rewrite update_where_lookup, Hr. simpl. eexists. split; [done|].
  rewrite (nest_ids _ Hok _ _ Hr). destruct (Z.eqb_spec id (pr_job_id r)) as [->|]; [right|by left].
  split; [|done]. rewrite dom_insert. set_solver.
Qed.

Lemma purge_evolves r ids now d :
  nest_ok d → service_evolves d (complete_protected_build_job_cache_purge r ids now d).2.
Proof.
  intros Hok. destruct (purge_keeps r ids now d Hok) as [Hok' Hled]. split; [done|]. intros id row Hr.
  destruct (purge_jobs r ids now d id row Hok Hr) as (row' & Hr' & [->|[Hin ->]]); (eexists; split; [exact Hr'|]).
  - by apply job_evolves_same.
  - split; [done..|]. rewrite decide_True by done. destruct (no_scrubbed _ Hok' _ Hin) as (r2 & Hr2 & Hsc). congruence.
Qed.

Lemma service_step_ok s s' : service_step s s' → service_ok s → service_ok s' ∧ service_evolves (sv_db s) (sv_db s').
Proof.
  intros [d h p Hp|now d|r ids now d h|d h c Hc] [Hok Hpool]; cbn [sv_db] in *.
  - destruct (nest_step_ok _ _ (nest_jobs d h p Hp Hpool) Hok) as [Hok' _].
    destruct (job_step_ok _ _ Hpool Hp) as [Hpool' Hev].
    split; [split; [done|by destruct p]|]. by apply queue_evolves.
  - destruct (nest_step_ok _ _ (nest_start now d) Hok) as [Hok' _]. split; [split; [done|]|].
    + split; [apply Hok'|constructor|]. by intros id ?%not_elem_of_nil.
    + apply quarantine_rows_evolve; [done|by apply NoDup_sorted_rows, nest_ids|].
      intros row [id Hr]%elem_of_sorted_rows. by rewrite (nest_ids _ Hok _ _ Hr).
  - destruct (purge_keeps r ids now d Hok) as [Hok' _]. split; [split; [done|]|by apply purge_evolves].
    split; [apply Hok'|apply Hpool|]. intros id Hin. destruct (pool_held _ Hpool id Hin) as (row & Hr & Hs).
    destruct (purge_jobs r ids now d id row Hok Hr) as (row' & Hr' & Hcases). exists row'. split; [done|].
    by destruct Hcases as [->|[_ ->]].
  - destruct (nest_step_ok _ _ (nest_cache d c Hc) Hok) as [Hok' _]. split; [by split|].
    split; [intros id e He; exists e; split; [done|by split_and!]|].
    intros id row Hr. exists row. split; [done|]. by apply job_evolves_same.
Qed.

(** C27. However statements of Tiaris, the local API, the workers, crashes, restarts with their
    screening of the stored jobs, and withdrawals of what protected jobs have published interleave:
    no job is executed by two workers, every held job is running, managed identifiers stay unique,
    and no job's row is lost.  A job that is not quarantined and has left the queue never returns to
    it and keeps what it was asked to build; a finished one keeps its status, output and metadata for
    ever, and its logs and error but for what starts redact in them.  A job whose documents a start
    has refused is in the ledger from then on: it is failed, its logs are empty and its documents are
    the replacements, and so it stays; of a finished job the output stays recorded. *)
Theorem build_jobs_lifecycle s s' :
  service_ok s → rtc service_step s s' →
  pool_ok (service_pool s') ∧ nest_ok (sv_db s') ∧
  dom (nd_ledger (sv_db s)) ⊆ dom (nd_ledger (sv_db s')) ∧
  ∀ id row, jobs (nd_jobs (sv_db s)) !! id = Some row →
    ∃ row', jobs (nd_jobs (sv_db s')) !! id = Some row' ∧ job_evolves (sv_db s') id row row'.
Proof.
  intros Hok Hrtc.
  assert (service_ok s' ∧ service_evolves (sv_db s) (sv_db s')) as [[Htab Hpool] [Hled Hjobs]].
  { induction Hrtc as [s|s1 s2 s3 Hs _ IH].
    - split; [done|]. split; [reflexivity|]. intros id row Hr. exists row. split; [done|]. apply job_evolves_same; [apply Hok|done].
    - destruct (service_step_ok _ _ Hs Hok) as [Hok2 Hev]. destruct (IH Hok2) as [Hok3 Hev']. split; [done|by etrans]. }
  split_and!; [done|done|by apply ledger_dom|done].
Qed.

End System.

(** With the real redaction, the logs a start leaves are ones the queue then keeps
    clean: the premise of [stored_logs_hold_no_hash]. *)
Theorem start_cleans_logs {serde : Serde} {deps : ProtectedDeps} sha256_hex now d n d' :
  ids_ok (nd_jobs d) → quarantine_protected_build_jobs sha256_hex now d = (Ok n, d') →
  logs_clean (nd_jobs d').
Proof.
  intros Hids H. apply quarantine_spec in H as (_ & _ & _ & Hall & _); [|done].
  intros id row' Hr'. specialize (Hall id). destruct (jobs (nd_jobs d) !! id) as [row|];
    [|destruct Hall; congruence].
  destruct Hall as (_ & Hr & _). rewrite Hr' in Hr. injection Hr as ->. unfold outcome.
  assert (no_hash (Redact.redact_sensitive_key_values (job_logs row))) as Hc by by apply redact_hashes_clean.
  destruct (refused row); [apply no_hash_empty|]. case_bool_decide as Hb; [|exact Hc].
  destruct Hb as [Hb _]. by rewrite <- Hb.
Qed.

(** ** A legacy job with a password *)

Module RemediationDemo.

#[local] Existing Instance JobsDemo.serde.
#[local] Existing Instance ProtectedDemo.deps.
#[local] Instance laws : QuarantineLaws := nest_quarantine_laws JobsDemo.codec.

Definition sha (_ : string) : string := ProtectedDemo.digest.
Definition now (_ : Z) : string := "t2".

Definition legacy : BuildJobRow := {|
  job_id := 1; job_managed_id := Some "job-1";
  job_inputs := {| ji_requested_artifact_type := "nixos_closure";
                   ji_build_spec := to_string (Object [("password", Str "x")]); ji_target := "t";
                   ji_system := "x86_64-linux"; ji_input_revision := "r";
                   ji_input_config_hash := "" |};
  job_status := "succeeded"; job_progress := queued_progress; job_logs := "token=abc";
  job_error := ""; job_rejection_code := ""; job_output := no_output;
  job_cache_metadata := to_string (Object []); job_started_at := None; job_completed_at := None;
  job_cancel_requested_at := None; job_created_at := "t1"; job_updated_at := "t1" |}.

Definition before_start : NestDb := {|
  nd_jobs := {| jobs := {[ 1 := legacy ]}; last_id := 1; remediated := ∅ |};
  nd_cache := InventoryDemo.empty_cache; nd_ledger := ∅ |}.

Definition after_start : NestDb := (quarantine_protected_build_jobs sha now before_start).2.

Lemma before_start_ok : nest_ok before_start.
Proof.
  split; [split; cbn [nd_jobs before_start jobs]| |].
  - intros id row [<- <-]%lookup_singleton_Some. simpl. lia.
  - intros id row [<- <-]%lookup_singleton_Some. simpl. unfold ALLOWED_BUILD_STATES. set_solver.
  - intros i j x y m [<- <-]%lookup_singleton_Some [<- <-]%lookup_singleton_Some _ _. done.
  - simpl. by rewrite dom_empty_L.
  - intros id. simpl. rewrite dom_empty_L. set_solver.
Qed.

Lemma start_quarantines : quarantine_protected_build_jobs sha now before_start = (Ok 1, after_start).
Proof.
  unfold after_start.
  assert ((quarantine_protected_build_jobs sha now before_start).1 = Ok 1) as H by (vm_compute; reflexivity).
  destruct (quarantine_protected_build_jobs sha now before_start) as [res d']. simpl in *. by rewrite H.
Qed.

Lemma start_leaves_only_accepted_jobs_witness :
  ids_ok (nd_jobs before_start) ∧
  quarantine_protected_build_jobs sha now before_start = (Ok 1, after_start) ∧
  ∃ row', jobs (nd_jobs after_start) !! 1 = Some row' ∧ accepted row'.
Proof.
  assert (ids_ok (nd_jobs before_start)) as Hids by apply (nest_ids _ before_start_ok).
  split; [exact Hids|]. split; [exact start_quarantines|].
  destruct (start_leaves_only_accepted_jobs sha now before_start 1 after_start Hids start_quarantines)
    as (_ & _ & Hall & _).
  destruct (jobs (nd_jobs after_start) !! 1) as [row'|] eqn:E.
  - exists row'. split; [reflexivity|]. exact (proj1 (Hall 1 row' E)).
  - exfalso. apply (f_equal (λ o, bool_decide (is_Some (job_id <$> o)))) in E. vm_compute in E. discriminate E.
Defined.

Definition withdrawal : ProtectedBuildJobRemediation :=
  {| pr_job_id := 1; pr_managed_job_id := Some "job-1"; pr_output_path := "" |}.

Lemma purge_completes_once_witness :
  (complete_protected_build_job_cache_purge withdrawal [] "t3" after_start).1 = Ok tt ∧
  ∃ e, complete_protected_build_job_cache_purge withdrawal [] "t4"
         (complete_protected_build_job_cache_purge withdrawal [] "t3" after_start).2 =
       (Err e, (complete_protected_build_job_cache_purge withdrawal [] "t3" after_start).2).
Proof.
  pose proof (purge_completes_once withdrawal [] "t3" after_start) as H.
  assert ((complete_protected_build_job_cache_purge withdrawal [] "t3" after_start).1 = Ok tt) as Hok
    by (vm_compute; reflexivity).
  destruct (complete_protected_build_job_cache_purge withdrawal [] "t3" after_start) as [res d'].
  simpl in *. subst res. destruct H as (_ & _ & _ & _ & _ & Hagain).
  split; [reflexivity|]. apply Hagain.
Defined.

Lemma ledger_is_append_only_witness :
  nest_ok before_start ∧ protected_build_job_remediation_exists 1 after_start = true ∧
  ∃ row, jobs (nd_jobs after_start) !! 1 = Some row ∧ scrubbed row.
Proof.
  split; [exact before_start_ok|].
  assert (protected_build_job_remediation_exists 1 after_start = true) as Hex by (vm_compute; reflexivity).
  split; [exact Hex|].
  assert (rtc (nest_step sha) before_start after_start) as Hsteps
    by (apply rtc_once; exact (nest_start sha now before_start)).
  destruct (proj2 (ledger_is_append_only sha before_start after_start before_start_ok Hsteps) 1 Hex)
    as (row & Hr & Hs & _).
  exists row. split; [exact Hr|exact Hs].
Defined.

(** Another job is queued, claimed and finished; the process is started again and quarantines the
    legacy job, which is then withdrawn. *)
Definition queued : NestDb :=
  set_nd_jobs (upsert_managed_build_job "job-2" JobsDemo.request "t1" (nd_jobs before_start)).2 before_start.
Definition claimed : NestDb := set_nd_jobs (claim_statement "t2" (nd_jobs queued)).2 queued.
Definition finishing : AppResult Finish :=
  validate_finish "succeeded" "built" "" "" "" 0 (Some 0) None.
Definition finish_of : Finish := match finishing with Ok f => f | Err _ => {|
  fin_status := ""; fin_logs := ""; fin_error := ""; fin_output := no_output;
  fin_cache_metadata := ""; fin_cancelled_metadata := ""; fin_stage := ""; fin_message := "" |} end.
Definition finished : NestDb := set_nd_jobs (finish_statement 2 finish_of "t3" (nd_jobs claimed)) claimed.
Definition started_again : NestDb := (quarantine_protected_build_jobs sha now finished).2.
Definition withdrawn : NestDb := (complete_protected_build_job_cache_purge withdrawal [] "t5" started_again).2.
Definition idle (d : NestDb) : Service := {| sv_db := d; sv_held := [] |}.

Lemma built_then_finished : rtc (service_step sha) (idle before_start) (idle finished).
Proof.
  eapply rtc_l; [apply (service_queue sha before_start [] {| pool_db := nd_jobs queued; held := [] |}), step_upsert|].
  eapply rtc_l; [apply (service_queue sha queued [] {| pool_db := nd_jobs claimed; held := [2] |})|].
  { destruct (claim_statement "t2" (nd_jobs queued)) as [[row|] d'] eqn:E; [|vm_compute in E; discriminate E].
    assert (job_id <$> (claim_statement "t2" (nd_jobs queued)).1 = Some 2) as Hid by (vm_compute; reflexivity).
    rewrite E in Hid. injection Hid as Hid. unfold claimed. rewrite E, <- Hid. by eapply step_claim. }
  apply rtc_once, (service_queue sha claimed [2] {| pool_db := nd_jobs finished; held := [] |}).
  apply (step_finish 2 finish_of "succeeded" "built" "" "" "" 0 (Some 0) None "t3" (nd_jobs claimed) [2]); [by left|].
  change (finishing = Ok finish_of). unfold finish_of.
  assert (is_ok finishing = true) as H by (vm_compute; reflexivity). by destruct finishing.
Qed.
Lemma restarted_and_withdrawn : rtc (service_step sha) (idle finished) (idle withdrawn).
Proof.
  unfold idle, withdrawn. eapply rtc_l; [apply (service_start sha now finished)|]. fold started_again.
  apply rtc_once. apply service_purge.
Qed.

Lemma idle_ok d : nest_ok d → service_ok (idle d).
Proof. intros H. split; [done|]. split; [apply H|constructor|]. by intros id ?%not_elem_of_nil. Qed.

Lemma build_jobs_lifecycle_witness :
  (∃ row, jobs (nd_jobs withdrawn) !! 1 = Some row ∧ scrubbed row ∧ job_output row = job_output legacy) ∧
  (∃ row row', jobs (nd_jobs finished) !! 2 = Some row ∧ job_status row = "succeeded" ∧
     jobs (nd_jobs withdrawn) !! 2 = Some row' ∧ job_status row' = "succeeded" ∧ redacted (job_logs row) (job_logs row')).
Proof.
  destruct (build_jobs_lifecycle sha (idle before_start) (idle finished) (idle_ok _ before_start_ok) built_then_finished)
    as (_ & Hok & _ & _).
  destruct (build_jobs_lifecycle sha (idle before_start) (idle withdrawn) (idle_ok _ before_start_ok)
    (rtc_trans _ _ _ built_then_finished restarted_and_withdrawn)) as (_ & _ & _ & Hall).
  destruct (build_jobs_lifecycle sha (idle finished) (idle withdrawn) (idle_ok _ Hok) restarted_and_withdrawn)
    as (_ & _ & _ & Hlater).
  split.
  - destruct (Hall 1 legacy eq_refl) as (row & Hr & [_ _ _ Hout Hk]). exists row. split; [exact Hr|]. split.
    + destruct (decide _) as [_|Hn]; [exact Hk|]. exfalso. apply Hn, elem_of_dom.
      assert (bool_decide (is_Some (nd_ledger withdrawn !! 1)) = true) as H by (vm_compute; reflexivity).
      by apply bool_decide_eq_true in H.
    + apply Hout. reflexivity.
  - destruct (jobs (nd_jobs finished) !! 2) as [row|] eqn:E.
    2:{ exfalso. apply (f_equal (λ o, bool_decide (is_Some (job_id <$> o)))) in E. vm_compute in E. discriminate E. }
    assert (job_status row = "succeeded") as Hst.
    { assert (job_status <$> jobs (nd_jobs finished) !! 2 = Some "succeeded") as H by (vm_compute; reflexivity).
      rewrite E in H. by injection H. }
    destruct (Hlater 2 row E) as (row' & Hr' & [_ _ _ _ Hk]). exists row, row'. split; [reflexivity|]. split; [exact Hst|].
    split; [exact Hr'|]. destruct (decide _) as [Hin|_].
    + exfalso. apply elem_of_dom in Hin. apply (bool_decide_eq_true (is_Some (nd_ledger withdrawn !! 2))) in Hin.
      vm_compute in Hin. discriminate Hin.
    + destruct (kp_final _ _ Hk) as (Hs & _ & _ & Hlogs & _); [by rewrite Hst|]. split; [congruence|exact Hlogs].
Defined.
End RemediationDemo.
