(* ===== verification/NarInfo.v ===== *)
(** * Signed store path records of the binary cache

    The narinfo files of [src/cache.rs]: their two parsers, the store path and
    NAR URL validators, the signature over a record and its fingerprint, how a
    mirrored record gets this node's signature, and reading members of the cache
    root without following links.

    The cache root is the map of its entries and the map of those of [nar/].
    Ed25519 and base64 are dependencies: a class of arguments. *)

From stdpp Require Import sorting base gmap list strings.
From Stdlib Require Import Ascii ZArith Lia.
From S2P Require Import Prelude RustStr RustText DbText Json Assets NixBase32 BootRoutes.

#[local] Open Scope Z_scope.
#[local] Open Scope nest_scope.

(** [ed25519_dalek] and the base64 engine; keys and signatures are their bytes. *)
Class Ed25519 := {
  base64_decode : string → option (list Z);
  base64_encode : list Z → string;
  verifying_key_from_bytes : list Z → option (list Z);
  is_weak : list Z → bool;
  signature_from_slice : list Z → option (list Z);
  verify_strict : list Z → string → list Z → bool;
  sign : list Z → string → list Z;
}.

(** ** Files *)

(** What a name of a directory stands for.  A link is what reading through it
    gives. *)
Inductive Entry :=
| CacheFile (contents : string)
| CacheLink (through : option string)
| CacheDirectory.

(** The cache root and its directory [nar].  When [nar] is a link to a directory,
    [cf_nar_link] is what that directory holds. *)
Record CacheFiles := {
  cf_root : gmap string Entry;
  cf_nar : option (gmap string Entry);
  cf_nar_link : option (gmap string Entry);
}.

Definition MAX_NARINFO_BYTES : Z := 1024 * 1024.

(** [String::from_utf8]. *)
Definition valid_utf8 (s : string) : bool := bool_decide (utf8_lossy (bytes s) = bytes s).

Definition read_safe_narinfo (files : CacheFiles) (filename : string) : result string string :=
  if contains "/" filename || contains "\" filename || negb (ends_with ".narinfo" filename)
  then Err "NARInfo filename was not a safe cache-root member" else
  match cf_root files !! filename with
  | Some (CacheFile contents) =>
      if MAX_NARINFO_BYTES <? len contents
      then Err "generated NARInfo was not a bounded regular file"
      else if valid_utf8 contents then Ok contents else Err "generated NARInfo was not UTF-8"
  | Some CacheDirectory => Err "generated NARInfo was not a bounded regular file"
  | Some (CacheLink _) | None => Err "open generated NARInfo"
  end.

Definition nar_char (a : ascii) : bool := is_alnum a || byte_in "._+-" a.

Definition validate_nar_url (relative : string) : result string string :=
  filename ≔ ok_or "NARInfo URL was outside the nar directory" (strip_prefix "nar/" relative) ?;
  if is_empty filename || (255 <? len filename) || contains "/" filename
     || negb (all_bytes nar_char filename)
  then Err "NARInfo URL was not a canonical relative cache URI" else Ok filename.

Definition open_nar_member_at (files : CacheFiles) (filename : string) : result string Entry :=
  nar ≔ ok_or "open cache nar directory" (cf_nar files) ?;
  match nar !! filename with
  | Some (CacheLink _) | None => Err "open cache NAR member"
  | Some entry => Ok entry
  end.

(** The open file is what it holds. *)
Definition open_cached_nar (files : CacheFiles) (nar_url : string) : result string string :=
  filename ≔ validate_nar_url nar_url ?;
  file ≔ open_nar_member_at files filename ?;
  match file with
  | CacheFile contents => Ok contents
  | _ => Err "cached NAR is not a regular file"
  end.

(** The size and digest of a member.  The file does not change meanwhile: its
    size is read again. *)
Definition hash_safe_cache_member (sha256 : string → Digest) (files : CacheFiles)
    (relative : string) : result string (Z * Digest) :=
  filename ≔ validate_nar_url relative ?;
  file ≔ open_nar_member_at files filename ?;
  match file with
  | CacheFile contents => Ok (len contents, sha256 contents)
  | _ => Err "generated NAR was not a regular file"
  end.

(** ** Store paths *)

Definition STORE : string := "/nix/store/".

Definition store_name_char (a : ascii) : bool := is_alnum a || byte_in "._+?=-" a.

Definition validate_store_path (value : string) : result string unit :=
  relative ≔ ok_or "store path was outside /nix/store" (strip_prefix STORE value) ?;
  if contains "/" relative then Err "store path contained non-canonical components" else
  match split_once "-" relative with
  | None => Err "store path omitted its Nix hash prefix"
  | Some (hash, name) =>
      if negb (len hash =? 32) || negb (all_bytes (byte_in NIX_BASE32_ALPHABET) hash)
         || is_empty name || negb (all_bytes store_name_char name)
      then Err "store path was not canonical" else Ok tt
  end.

Definition store_basename_hash (basename : string) : option string :=
  let hash := default "" (head (split "-" basename)) in
  if (len hash =? 32) && all_bytes is_alnum hash then Some (to_ascii_lowercase hash) else None.

Definition store_path_hash (store_path : string) : option string :=
  store_basename_hash (rsplit_next "/" store_path).

(** [Path::file_name]. *)
Definition file_name (path : string) : option string :=
  match last (components path) with Some (Normal name) => Some name | _ => None end.

Definition narinfo_filename_for_store_path (store_path : string) : result string string :=
  name ≔ ok_or "store path has no safe basename" (file_name store_path) ?;
  match split_once "-" name with
  | None => Err "store path basename did not include a Nix hash prefix"
  | Some (hash, _) =>
      if negb (len hash =? 32) || negb (all_bytes is_alnum hash)
      then Err "store path basename did not include a safe Nix hash prefix"
      else Ok (hash +:+ ".narinfo")
  end.

(** ** Records *)

Record ParsedNarInfo := {
  ni_store_path : string;
  ni_url : string;
  ni_compression : string;
  ni_file_hash : string;
  ni_file_size : Z;
  ni_nar_hash : string;
  ni_nar_size : Z;
  ni_references : list string;
  ni_signatures : list string;
}.

Definition no_narinfo : ParsedNarInfo := {|
  ni_store_path := ""; ni_url := ""; ni_compression := ""; ni_file_hash := "";
  ni_file_size := 0; ni_nar_hash := ""; ni_nar_size := 0; ni_references := [];
  ni_signatures := [] |}.

(** A reference by its full store path. *)
Definition absolute_reference (reference : string) : string :=
  if starts_with STORE reference then reference else STORE +:+ reference.

(** The assignment the loop of [parse_narinfo] makes for one field. *)
Definition set_field (key value : string) (n : ParsedNarInfo) : ParsedNarInfo :=
  let put (name : string) {A} (v old : A) : A := if bool_decide (key = name) then v else old in
  {| ni_store_path := put "StorePath" value (ni_store_path n);
     ni_url := put "URL" value (ni_url n);
     ni_compression := put "Compression" value (ni_compression n);
     ni_file_hash := put "FileHash" value (ni_file_hash n);
     ni_file_size := put "FileSize" (default 0 (parse_i64 value)) (ni_file_size n);
     ni_nar_hash := put "NarHash" value (ni_nar_hash n);
     ni_nar_size := put "NarSize" (default 0 (parse_i64 value)) (ni_nar_size n);
     ni_references := put "References" (absolute_reference <$> split_whitespace value)
                        (ni_references n);
     ni_signatures := put "Sig" (ni_signatures n ++ [value]) (ni_signatures n) |}.

Fixpoint read_fields (ls : list string) (n : ParsedNarInfo) : ParsedNarInfo :=
  match ls with
  | [] => n
  | line :: ls =>
      match split_once ":" line with
      | None => read_fields ls n
      | Some (key, value) => read_fields ls (set_field key (trim value) n)
      end
  end.

Definition parse_narinfo (raw : string) : result string ParsedNarInfo :=
  let n := read_fields (lines raw) no_narinfo in
  if is_empty (ni_store_path n) || negb (starts_with STORE (ni_store_path n))
     || is_empty (ni_url n) || is_empty (ni_file_hash n) || is_empty (ni_nar_hash n)
     || (ni_nar_size n <=? 0) || bool_decide (ni_signatures n = [])
  then Err "generated narinfo omitted required signed cache metadata" else Ok n.

Definition SINGLETON_FIELDS : list string :=
  ["StorePath"; "URL"; "Compression"; "FileHash"; "FileSize"; "NarHash"; "NarSize"; "References"].

(** The loop of [parse_narinfo_strict]: the singleton fields seen and the
    number of signatures. *)
Fixpoint strict_lines (ls seen : list string) (signatures : nat)
    : result string (list string * nat) :=
  match ls with
  | [] => Ok (seen, signatures)
  | line :: ls =>
      match split_once_str ": " line with
      | None => Err "generated NARInfo contained a malformed line"
      | Some (key, _) =>
          if bool_decide (key ∈ SINGLETON_FIELDS) then
            if bool_decide (key ∈ seen) then Err "generated NARInfo repeated a field"
            else strict_lines ls (key :: seen) signatures
          else strict_lines ls seen (if bool_decide (key = "Sig") then S signatures else signatures)
      end
  end.

Definition parse_narinfo_strict (raw : string) : result string ParsedNarInfo :=
  if negb (ends_with nl raw) then Err "generated NARInfo did not end with a complete record" else
  checked ≔ strict_lines (lines raw) [] 0 ?;
  let '(seen, signatures) := checked in
  if negb (forallb (λ field, bool_decide (field ∈ seen)) SINGLETON_FIELDS)
  then Err "generated NARInfo omitted a field"
  else if (signatures =? 0)%nat then Err "generated NARInfo omitted a cache signature"
  else parse_narinfo raw.

(** ** Signatures *)

Section Signatures.
Context {ed25519 : Ed25519}.

Definition sha256_digest (value : string) : result string Digest :=
  parse_strong_sha256 base64_decode value.

Definition parse_cache_public_key (public_key : string) : result string (string * list Z) :=
  match split_once ":" public_key with
  | Some (name, encoded) =>
      if is_empty name || is_empty encoded then Err "Nest cache public key had an invalid shape" else
      key_bytes ≔ ok_or "decode Nest cache public key" (base64_decode encoded) ?;
      if negb (length key_bytes =? 32)%nat then Err "Nest cache public key was not 256-bit" else
      verifying_key ≔ ok_or "parse Nest cache public key" (verifying_key_from_bytes key_bytes) ?;
      if is_weak verifying_key then Err "Nest cache public key must not be a weak Ed25519 key"
      else Ok (name, verifying_key)
  | None => Err "Nest cache public key had an invalid shape"
  end.

Definition narinfo_fingerprint (n : ParsedNarInfo) : result string string :=
  nar_hash ≔ sha256_digest (ni_nar_hash n) ?;
  Ok ("1;" +:+ ni_store_path n +:+ ";sha256:" +:+ encode_nix_base32_sha256 nar_hash +:+ ";"
      +:+ show (ni_nar_size n) +:+ ";" +:+ join "," (ni_references n)).

(** One signature of a record, under a key and its name. *)
Definition signature_verifies (key_name : string) (key : list Z) (fingerprint value : string)
    : bool :=
  match split_once ":" value with
  | None => false
  | Some (signature_name, encoded) =>
      bool_decide (signature_name = key_name) &&
      match signature_bytes ← base64_decode encoded; signature_from_slice signature_bytes with
      | Some signature => verify_strict key fingerprint signature
      | None => false
      end
  end.

Definition verify_narinfo_signature (n : ParsedNarInfo) (public_key : string)
    : result string unit :=
  key ≔ parse_cache_public_key public_key ?;
  fingerprint ≔ narinfo_fingerprint n ?;
  if existsb (signature_verifies key.1 key.2 fingerprint) (ni_signatures n) then Ok tt
  else Err "NARInfo did not carry a valid signature from the active Nest cache key".

(** The lines of a record that stay when this node signs it again. *)
Definition keep_line (key_name line : string) : bool :=
  match strip_prefix "Sig: " line with
  | Some existing => negb (starts_with (key_name +:+ ":") existing)
  | None => true
  end.

Definition append_own_signature (raw : string) (n : ParsedNarInfo) (signing_key : list Z)
    (key_name : string) : result string string :=
  fingerprint ≔ narinfo_fingerprint n ?;
  let own := key_name +:+ ":" +:+ base64_encode (sign signing_key fingerprint) in
  let kept := List.filter (keep_line key_name) (lines raw) in
  Ok (foldr (λ line signed, line +:+ nl +:+ signed) ("Sig: " +:+ own +:+ nl) kept).

(** ** Daemon path records *)

(** [PathInfo], read from the daemon's JSON. *)
Record PathInfo := {
  pi_nar_hash : string;
  pi_nar_size : Z;
  pi_references : list string;
  pi_signatures : list string;
}.

Fixpoint validate_store_paths (paths : list string) : result string unit :=
  match paths with
  | [] => Ok tt
  | path :: paths => _x ≔ validate_store_path path ?; validate_store_paths paths
  end.

Definition signed_record (store_path : string) (info : PathInfo) : ParsedNarInfo := {|
  ni_store_path := store_path; ni_url := ""; ni_compression := ""; ni_file_hash := "";
  ni_file_size := 0; ni_nar_hash := pi_nar_hash info; ni_nar_size := pi_nar_size info;
  ni_references := merge_sort String.le (pi_references info);
  ni_signatures := pi_signatures info |}.

(** [verify_signed_store_path_info], after serde has read [info]. *)
Definition verify_signed_store_path_info (store_path : string) (info : PathInfo)
    (public_key : string) : result string unit :=
  _x ≔ validate_store_path store_path ?;
  _y ≔ validate_store_paths (pi_references info) ?;
  if negb (0 <? pi_nar_size info) then Err "invalid signed NAR size"
  else verify_narinfo_signature (signed_record store_path info) public_key.

(** ** Cached records *)

Record CachedNarInfo := {
  cn_text : string;
  cn_store_path : string;
  cn_url : string;
  cn_compression : string;
  cn_file_hash : Digest;
  cn_file_size : Z;
  cn_nar_hash : Digest;
  cn_nar_size : Z;
  cn_references : gset string;
}.

(** [s.trim_start_matches(p)] for a non-empty text [p]: every leading [p]. *)
Fixpoint trim_start_str_from (fuel : nat) (p s : string) : string :=
  match fuel with
  | O => s
  | S fuel => match strip_prefix p s with Some s => trim_start_str_from fuel p s | None => s end
  end.
Definition trim_start_str (p s : string) : string := trim_start_str_from (String.length s) p s.

Definition basenames (references : list string) : gset string :=
  list_to_set (trim_start_str STORE <$> references).

Definition read_cached_narinfo (files : CacheFiles) (store_path : string)
    : result string CachedNarInfo :=
  filename ≔ narinfo_filename_for_store_path store_path ?;
  text ≔ read_safe_narinfo files filename ?;
  parsed ≔ parse_narinfo_strict text ?;
  if negb (bool_decide (ni_store_path parsed = store_path))
  then Err "cached NARInfo names another store path" else
  _x ≔ validate_nar_url (ni_url parsed) ?;
  file_hash ≔ sha256_digest (ni_file_hash parsed) ?;
  file_size ≔ ok_or "cached NARInfo FileSize" (try_unsigned u64_max (ni_file_size parsed)) ?;
  nar_hash ≔ sha256_digest (ni_nar_hash parsed) ?;
  nar_size ≔ ok_or "cached NARInfo NarSize" (try_unsigned u64_max (ni_nar_size parsed)) ?;
  Ok {| cn_text := text; cn_store_path := ni_store_path parsed; cn_url := ni_url parsed;
        cn_compression := ni_compression parsed; cn_file_hash := file_hash;
        cn_file_size := file_size; cn_nar_hash := nar_hash; cn_nar_size := nar_size;
        cn_references := basenames (ni_references parsed) |}.

End Signatures.

(** ** Interrupted exports *)

Definition INTERRUPTED_PREFIX : string := "NAR info file '".
Definition INTERRUPTED_SUFFIX : string := "' is corrupt: StorePath missing".

Definition interrupted_line (line : string) : option string :=
  start ← find INTERRUPTED_PREFIX line;
  candidate ← strip_suffix INTERRUPTED_SUFFIX
    (str_from (start + String.length INTERRUPTED_PREFIX) line);
  hash ← strip_suffix ".narinfo" candidate;
  if valid_nix_base32 hash 32 then Some candidate else None.

Definition interrupted_export_narinfo_filename (stderr : string) : option string :=
  find_map interrupted_line (lines (of_bytes (utf8_lossy (bytes stderr)))).
