(* ===== verification/CacheSweep.v ===== *)
(** * Mark and sweep of the binary cache

    [sweep_unreachable_blocking] of [src/cache.rs]: from the artifacts that stay
    and the listed seeds, follow the references of the narinfo files, then remove
    every other narinfo file of the cache root and every other file of [nar/].

    What the file system answers is a [SweepIo].  The code passes over every
    failure to read, be it of a narinfo file, of a directory, of one of its entries
    or of an entry's metadata; only a file that cannot be removed ends the sweep. *)

From stdpp Require Import sorting base gmap list strings.
From Stdlib Require Import Ascii ZArith Lia.
From S2P Require Import Prelude RustStr RustText Json DbText Assets BuildJobs CacheArtifacts NixBase32 NarInfo.

#[local] Open Scope Z_scope.
#[local] Open Scope nest_scope.

Record RetainedArtifactFiles := {
  rt_store_path : string;
  rt_nar_path : string;
  rt_narinfo_path : string;
  rt_nar_url : string;
}.

Definition retained_files (artifact : CacheArtifactRoot) : RetainedArtifactFiles := {|
  rt_store_path := root_store_path artifact; rt_nar_path := root_path artifact;
  rt_narinfo_path := root_narinfo_path artifact;
  rt_nar_url := trim_start_byte "/" (root_nar_url artifact) |}.

(** ** The file system *)

(** [io_read]: whether a narinfo file can be read.  [io_list]: what a directory is
    seen to hold, [None] when it cannot be opened; the entries whose metadata can be
    read, in any order.  [io_remove]: whether a file can be removed. *)
Record SweepIo := {
  io_read : string → bool;
  io_list : string → gmap string Entry → option (list (string * Entry));
  io_remove : string → bool;
}.

(** A directory lists each of its entries once or not at all. *)
Definition io_lists (io : SweepIo) : Prop :=
  ∀ path m l, io_list io path m = Some l → l ⊆+ map_to_list m.

(** No narinfo file fails to be read. *)
Definition io_reads (io : SweepIo) : Prop := ∀ name, io_read io name = true.

Section Sweep.
Context (io : SweepIo).

(** ** Marking *)

(** [fs::read_to_string]: links are followed. *)
Definition read_to_string (files : CacheFiles) (name : string) : option string :=
  if negb (io_read io name) then None else
  match cf_root files !! name with
  | Some (CacheFile contents) | Some (CacheLink (Some contents)) =>
      if valid_utf8 contents then Some contents else None
  | _ => None
  end.

Definition narinfo_name (hash : string) : string := hash +:+ ".narinfo".

(** The hashes a [References:] line adds to the queue, in order. *)
Definition reference_hashes (references : string) : list string :=
  omap store_basename_hash (split_whitespace references).

(** What one line of a narinfo file says. *)
Inductive Mention := MentionUrl (url : string) | MentionReferences (hashes : list string) | NoMention.

Definition mention (line : string) : Mention :=
  match strip_prefix "URL:" line with
  | Some url => MentionUrl (trim_start_byte "/" (trim url))
  | None =>
      match strip_prefix "References:" line with
      | Some references => MentionReferences (reference_hashes references)
      | None => NoMention
      end
  end.

(** The loop over the lines: the queue is a stack, its top first. *)
Fixpoint mark_lines (ls : list string) (visited : gset string) (queue : list string)
    (urls : gset string) : list string * gset string :=
  match ls with
  | [] => (queue, urls)
  | line :: ls =>
      match mention line with
      | MentionUrl url => mark_lines ls visited queue ({[url]} ∪ urls)
      | MentionReferences hashes =>
          let fresh := List.filter (λ h, bool_decide (h ∉ visited)) hashes in
          mark_lines ls visited (rev fresh ++ queue) urls
      | NoMention => mark_lines ls visited queue urls
      end
  end.

(** The marking loop; [None] when the fuel runs out. *)
Fixpoint mark (fuel : nat) (files : CacheFiles) (queue : list string) (visited urls : gset string)
    : option (gset string * gset string) :=
  match fuel with
  | O => None
  | S fuel =>
      match queue with
      | [] => Some (visited, urls)
      | hash :: queue =>
          if bool_decide (hash ∈ visited) then mark fuel files queue visited urls else
          let visited := {[hash]} ∪ visited in
          match read_to_string files (narinfo_name hash) with
          | None => mark fuel files queue visited urls
          | Some contents =>
              let '(queue, urls) := mark_lines (lines contents) visited queue urls in
              mark fuel files queue visited urls
          end
      end
  end.

(** How many hashes the narinfo files of the root can add to the queue. *)
Definition mentions (contents : string) : nat :=
  sum_list_with (λ line, match mention line with
                         | MentionReferences hashes => length hashes
                         | _ => 0%nat
                         end) (lines contents).
Definition entry_mentions (e : Entry) : nat :=
  match e with
  | CacheFile contents | CacheLink (Some contents) => mentions contents
  | _ => 0%nat
  end.
Definition mark_fuel (files : CacheFiles) (queue : list string) : nat :=
  S (length queue + sum_list_with (λ kv, entry_mentions kv.2) (map_to_list (cf_root files)))%nat.

Definition retained_roots (retained : list RetainedArtifactFiles) (extra_roots : list string)
    : list string :=
  omap (λ artifact, store_path_hash (rt_store_path artifact)) retained
  ++ omap store_path_hash extra_roots.

Definition retained_urls (retained : list RetainedArtifactFiles) : gset string :=
  list_to_set (List.filter (λ url, negb (is_empty url)) (rt_nar_url <$> retained)).

(** [live_files]: paths are compared by their components. *)
Definition live_file (retained : list RetainedArtifactFiles) (path : string) : bool :=
  existsb (λ artifact, bool_decide (components (rt_nar_path artifact) = components path)
                       || bool_decide (components (rt_narinfo_path artifact) = components path))
    retained.

(** ** Sweeping *)

(** One directory: remove the regular files that are [dead]. *)
Fixpoint remove_dead (dir_path : string) (dead : string → bool) (entries : list (string * Entry))
    (dir : gmap string Entry) (freed : Z) : result string Z * gmap string Entry :=
  match entries with
  | [] => (Ok freed, dir)
  | (name, entry) :: entries =>
      match entry with
      | CacheFile contents =>
          if negb (dead name) then remove_dead dir_path dead entries dir freed
          else if io_remove io (dir_path +:+ name)
          then remove_dead dir_path dead entries (delete name dir) (sat_add u64_max freed (len contents))
          else (Err "remove a cache member", dir)
      | _ => remove_dead dir_path dead entries dir freed
      end
  end.

Definition dead_narinfo (cache_root : string) (retained : list RetainedArtifactFiles)
    (live : gset string) (name : string) : bool :=
  valid_utf8 name &&
  match strip_suffix ".narinfo" name with
  | None => false
  | Some stem => negb (bool_decide (to_ascii_lowercase stem ∈ live)
                       || live_file retained (cache_root +:+ "/" +:+ name))
  end.

Definition dead_nar (cache_root : string) (retained : list RetainedArtifactFiles)
    (live_urls : gset string) (name : string) : bool :=
  negb (bool_decide ("nar/" +:+ of_bytes (utf8_lossy (bytes name)) ∈ live_urls)
        || live_file retained (cache_root +:+ "/nar/" +:+ name)).

Definition set_root (m : gmap string Entry) (files : CacheFiles) : CacheFiles :=
  {| cf_root := m; cf_nar := cf_nar files; cf_nar_link := cf_nar_link files |}.

(** What [nar] leads to, the directory or the one it is a link to. *)
Definition nar_dir (files : CacheFiles) : option (gmap string Entry) :=
  match cf_nar files with Some m => Some m | None => cf_nar_link files end.
Definition set_nar (m : gmap string Entry) (files : CacheFiles) : CacheFiles :=
  match cf_nar files with
  | Some _ => {| cf_root := cf_root files; cf_nar := Some m; cf_nar_link := cf_nar_link files |}
  | None => {| cf_root := cf_root files; cf_nar := None; cf_nar_link := Some m |}
  end.

(** [fs::read_dir] and [entries.flatten()]. *)
Definition entries_of (path : string) (m : gmap string Entry) : list (string * Entry) :=
  default [] (io_list io path m).

Definition sweep_unreachable_blocking (cache_root : string)
    (retained : list RetainedArtifactFiles) (extra_roots : list string) (files : CacheFiles)
    : result string Z * CacheFiles :=
  let queue := rev (retained_roots retained extra_roots) in
  match mark (mark_fuel files queue) files queue ∅ (retained_urls retained) with
  | None => (Err "out of fuel", files)
  | Some (live_hashes, live_urls) =>
      match remove_dead (cache_root +:+ "/") (dead_narinfo cache_root retained live_hashes)
              (entries_of cache_root (cf_root files)) (cf_root files) 0 with
      | (Err e, root) => (Err e, set_root root files)
      | (Ok freed, root) =>
          let files := set_root root files in
          match nar_dir files with
          | None => (Ok freed, files)
          | Some nar =>
              let '(res, nar) := remove_dead (cache_root +:+ "/nar/")
                (dead_nar cache_root retained live_urls) (entries_of (cache_root +:+ "/nar") nar) nar freed in
              (res, set_nar nar files)
          end
      end
  end.

End Sweep.
