(* ===== verification/CacheSweepProofs.v ===== *)
(** * Mark and sweep: proofs

    The marking loop stops and marks exactly what can be reached from the
    retained artifacts and the seeds through the records that can be read; the sweep
    removes exactly the narinfo and NAR files that are listed and not marked, and
    nothing that is marked even when a removal fails. *)

From stdpp Require Import sorting base gmap list strings.
From Stdlib Require Import Ascii ZArith Lia.
From S2P Require Import Prelude RustStr RustText Json DbText Assets BuildJobs CacheArtifacts NixBase32 NarInfo CacheSweep.

#[local] Open Scope Z_scope.
#[local] Open Scope nest_scope.

(** ** Reachability *)

Definition line_refers (hash line : string) : Prop :=
  match mention line with MentionReferences hashes => hash ∈ hashes | _ => False end.
Definition line_names (url line : string) : Prop :=
  match mention line with MentionUrl url' => url = url' | _ => False end.

(** What a narinfo file says. *)
Definition refers (contents hash : string) : Prop := Exists (line_refers hash) (lines contents).
Definition names_url (contents url : string) : Prop := Exists (line_names url) (lines contents).

Section Marking.
Context (io : SweepIo).

(** The hashes that can be reached from [roots] along the narinfo files that the
    sweep can read. *)
Inductive reachable (files : CacheFiles) (roots : list string) : string → Prop :=
| reachable_root hash : hash ∈ roots → reachable files roots hash
| reachable_step hash contents hash' :
    reachable files roots hash →
    read_to_string io files (narinfo_name hash) = Some contents →
    refers contents hash' → reachable files roots hash'.

(** The NAR files that reachable narinfo files name. *)
Definition reachable_url (files : CacheFiles) (roots : list string) (url : string) : Prop :=
  ∃ hash contents, reachable files roots hash ∧
    read_to_string io files (narinfo_name hash) = Some contents ∧ names_url contents url.

(** ** The marking loop *)

Lemma mark_lines_spec ls visited queue urls :
  let '(queue', urls') := mark_lines ls visited queue urls in
  (∀ h, h ∈ queue' ↔ h ∈ queue ∨ h ∉ visited ∧ Exists (line_refers h) ls) ∧
  (∀ u, u ∈ urls' ↔ u ∈ urls ∨ Exists (line_names u) ls) ∧
  (length queue' ≤ length queue + sum_list_with (λ line, match mention line with
     | MentionReferences hashes => length hashes | _ => 0%nat end) ls)%nat.
Proof.
  revert queue urls. induction ls as [|line ls IH]; intros queue urls; simpl.
  { split_and!; [intros h|intros u|lia]; rewrite Exists_nil; tauto. }
  assert (∀ h, Exists (line_refers h) (line :: ls) ↔ Exists (line_refers h) ls ∨
    match mention line with MentionReferences hashes => h ∈ hashes | _ => False end) as Hr
    by (intros h; rewrite Exists_cons; unfold line_refers at 1; tauto).
  assert (∀ u, Exists (line_names u) (line :: ls) ↔ Exists (line_names u) ls ∨
    match mention line with MentionUrl url => u = url | _ => False end) as Hn
    by (intros u; rewrite Exists_cons; unfold line_names at 1; tauto).
  destruct (mention line) as [url|hashes|].
  - specialize (IH queue ({[url]} ∪ urls)). destruct (mark_lines _ _ _ _) as [q' u'].
    destruct IH as (Hq & Hu & Hl). split_and!; [| |lia].
    + intros h. rewrite Hq, Hr. tauto.
    + intros u. rewrite Hu, Hn, elem_of_union, elem_of_singleton. tauto.
  - specialize (IH (rev (List.filter (λ h, bool_decide (h ∉ visited)) hashes) ++ queue) urls).
    destruct (mark_lines _ _ _ _) as [q' u']. destruct IH as (Hq & Hu & Hl). split_and!.
    + intros h. rewrite Hq, Hr, elem_of_app, !list_elem_of_In, <-in_rev.
      rewrite filter_In, bool_decide_eq_true. tauto.
    + intros u. rewrite Hu, Hn. tauto.
    + rewrite length_app, length_rev in Hl.
      pose proof (filter_length_le (λ h, bool_decide (h ∉ visited)) hashes). lia.
  - specialize (IH queue urls). destruct (mark_lines _ _ _ _) as [q' u'].
    destruct IH as (Hq & Hu & Hl). split_and!; [| |lia].
    + intros h. rewrite Hq, Hr. tauto.
    + intros u. rewrite Hu, Hn. tauto.
Qed.

(** What the entries not visited yet can still add to the queue. *)
Definition remaining (files : CacheFiles) (visited : gset string) : nat :=
  sum_list_with (λ kv, if bool_decide (kv.1 ∈ set_map (D := gset string) narinfo_name visited)
                       then 0%nat else entry_mentions kv.2) (map_to_list (cf_root files)).

Lemma sum_list_with_drop {A} (f g : A → nat) (l : list A) x n :
  x ∈ l → (∀ y, f y ≤ g y)%nat → (f x + n ≤ g x)%nat →
  (sum_list_with f l + n ≤ sum_list_with g l)%nat.
Proof.
  intros Hx Hle Hn.
  assert (∀ k, sum_list_with f k ≤ sum_list_with g k)%nat as Hall
    by (induction k as [|y k IH]; simpl; [lia|specialize (Hle y); lia]).
  induction Hx as [y l|y z l Hx IH]; simpl; [specialize (Hall l)|specialize (IH Hn); specialize (Hle z)]; lia.
Qed.

Lemma narinfo_name_inj h h' : narinfo_name h = narinfo_name h' → h = h'.
Proof.
  unfold narinfo_name. intros H.
  assert (strip_suffix ".narinfo" (h +:+ ".narinfo") = Some h) as H1 by by apply strip_suffix_Some.
  rewrite H in H1. apply strip_suffix_Some in H1. apply bytes_inj.
  apply (f_equal bytes) in H1. rewrite !bytes_app in H1. by apply app_inv_tail in H1.
Qed.

Lemma remaining_visit files visited hash contents :
  hash ∉ visited → read_to_string io files (narinfo_name hash) = Some contents →
  (remaining files ({[hash]} ∪ visited) + mentions contents ≤ remaining files visited)%nat.
Proof.
  intros Hv Hread. unfold remaining.
  assert (∃ e, cf_root files !! narinfo_name hash = Some e ∧ entry_mentions e = mentions contents)
    as (e & He & Hm).
  { unfold read_to_string in Hread. destruct (io_read io _); [|done]. cbn [negb] in Hread. destruct (cf_root files !! _) as [[c|[c|]|]|]; try done;
      destruct (valid_utf8 c); simplify_eq; eauto. }
  apply sum_list_with_drop with (narinfo_name hash, e).
  - by apply elem_of_map_to_list.
  - intros [name e']. simpl. rewrite set_map_union_L. repeat case_bool_decide; set_solver by lia.
  - simpl. rewrite bool_decide_true by set_solver. rewrite bool_decide_false; [lia|].
    intros (h & Hh & Hin)%elem_of_map. apply narinfo_name_inj in Hh. by subst.
Qed.

Lemma remaining_mono files visited hash :
  (remaining files ({[hash]} ∪ visited) ≤ remaining files visited)%nat.
Proof.
  unfold remaining. induction (map_to_list (cf_root files)) as [|[name e] l IH]; simpl; [done|].
  rewrite set_map_union_L in *. repeat case_bool_decide; try lia. set_solver.
Qed.

(** The loop invariant: everything marked or queued can be reached, and what a
    marked narinfo refers to is marked or queued. *)
Record mark_ok (files : CacheFiles) (roots : list string) (base : gset string)
    (queue : list string) (visited urls : gset string) : Prop := {
  mk_sound h : h ∈ visited ∨ h ∈ queue → reachable files roots h;
  mk_roots h : h ∈ roots → h ∈ visited ∨ h ∈ queue;
  mk_closed h contents h' : h ∈ visited →
    read_to_string io files (narinfo_name h) = Some contents → refers contents h' →
    h' ∈ visited ∨ h' ∈ queue;
  mk_urls u : u ∈ urls ↔ u ∈ base ∨ ∃ h contents, h ∈ visited ∧
    read_to_string io files (narinfo_name h) = Some contents ∧ names_url contents u;
}.

Lemma mark_ok_pop files roots base hash queue visited urls :
  hash ∈ visited → mark_ok files roots base (hash :: queue) visited urls →
  mark_ok files roots base queue visited urls.
Proof.
  intros Hv [Hs Hr Hc Hu]. split; [| | |done].
  - intros h Hh. apply Hs. set_solver.
  - intros h Hh. specialize (Hr h Hh). set_solver.
  - intros h c h' Hh Hread Href. specialize (Hc h c h' Hh Hread Href). set_solver.
Qed.

Lemma mark_ok_missing files roots base hash queue visited urls :
  read_to_string io files (narinfo_name hash) = None →
  mark_ok files roots base (hash :: queue) visited urls →
  mark_ok files roots base queue ({[hash]} ∪ visited) urls.
Proof.
  intros Hnone [Hs Hr Hc Hu]. split.
  - intros h Hh. apply Hs. set_solver.
  - intros h Hh. specialize (Hr h Hh). set_solver.
  - intros h c h' [->%elem_of_singleton|Hh]%elem_of_union Hread Href; [congruence|].
    specialize (Hc h c h' Hh Hread Href). set_solver.
  - intros u. rewrite Hu. split; [naive_solver set_solver|].
    intros [?|(h & c & [->%elem_of_singleton|Hh]%elem_of_union & Hread & Hn)]; [by left|congruence|].
    right. eauto.
Qed.

Lemma mark_ok_visit files roots base hash contents queue visited urls :
  read_to_string io files (narinfo_name hash) = Some contents →
  mark_ok files roots base (hash :: queue) visited urls →
  let '(queue', urls') := mark_lines (lines contents) ({[hash]} ∪ visited) queue urls in
  mark_ok files roots base queue' ({[hash]} ∪ visited) urls'.
Proof.
  intros Hread [Hs Hr Hc Hu].
  pose proof (mark_lines_spec (lines contents) ({[hash]} ∪ visited) queue urls) as Hspec.
  destruct (mark_lines _ _ _ _) as [q' u']. destruct Hspec as (Hq & Hu' & _). split.
  - intros h [Hh|[Hh|[_ Hh]]%Hq]; [apply Hs; set_solver..|].
    eapply reachable_step; [apply (Hs hash); set_solver|done..].
  - intros h Hh. rewrite Hq. specialize (Hr h Hh). set_solver.
  - intros h c h' [->%elem_of_singleton|Hh]%elem_of_union Hread' Href; rewrite Hq.
    + simplify_eq. destruct (decide (h' ∈ {[hash]} ∪ visited)); [by left|]. right. by right.
    + specialize (Hc h c h' Hh Hread' Href). set_solver.
  - intros u. rewrite Hu', Hu. split.
    + intros [[?|(h & c & Hh & Hrest)]|Hn]; [by left|right; exists h, c; set_solver|].
      right. exists hash, contents. set_solver.
    + intros [?|(h & c & [->%elem_of_singleton|Hh]%elem_of_union & Hread' & Hn)]; [by left; left| |].
      * simplify_eq. by right.
      * left. right. eauto.
Qed.

(** The marking loop stops within its fuel with exactly what is reachable. *)
Lemma mark_spec files roots base fuel queue visited urls :
  mark_ok files roots base queue visited urls →
  (length queue + remaining files visited < fuel)%nat →
  ∃ live live_urls, mark io fuel files queue visited urls = Some (live, live_urls) ∧
    (∀ h, h ∈ live ↔ reachable files roots h) ∧
    (∀ u, u ∈ live_urls ↔ u ∈ base ∨ reachable_url files roots u).
Proof.
  revert queue visited urls. induction fuel as [|fuel IH]; intros queue visited urls Hok Hfuel; [lia|].
  destruct queue as [|hash queue]; simpl in *.
  { exists visited, urls. split; [done|]. destruct Hok as [Hs Hr Hc Hu].
    assert (∀ h, h ∈ visited ↔ reachable files roots h) as Hiff.
    { intros h. split; [intros Hh; apply Hs; by left|]. induction 1 as [h Hh|h c h' _ IHh Hread Href].
      - apply Hr in Hh. set_solver.
      - destruct (Hc _ _ _ IHh Hread Href); set_solver. }
    split; [done|]. intros u. rewrite Hu. unfold reachable_url. setoid_rewrite Hiff. done. }
  case_bool_decide as Hv.
  { apply IH; [by eapply mark_ok_pop|lia]. }
  destruct (read_to_string io files (narinfo_name hash)) as [contents|] eqn:Hread.
  - pose proof (mark_ok_visit files roots base hash contents queue visited urls Hread Hok) as Hok'.
    pose proof (mark_lines_spec (lines contents) ({[hash]} ∪ visited) queue urls) as Hspec.
    destruct (mark_lines _ _ _ _) as [q' u']. destruct Hspec as (_ & _ & Hlen).
    apply IH; [done|].
    pose proof (remaining_visit files visited hash contents Hv Hread) as Hrem.
    unfold mentions in Hrem. lia.
  - apply IH; [by apply mark_ok_missing|]. pose proof (remaining_mono files visited hash). lia.
Qed.

Lemma mark_start files queue base :
  ∃ live live_urls, mark io (mark_fuel files queue) files queue ∅ base = Some (live, live_urls) ∧
    (∀ h, h ∈ live ↔ reachable files queue h) ∧
    (∀ u, u ∈ live_urls ↔ u ∈ base ∨ reachable_url files queue u).
Proof.
  apply mark_spec.
  - split; [intros h [?|?]; [set_solver|by constructor]|by right|set_solver|set_solver].
  - unfold mark_fuel, remaining. rewrite set_map_empty.
    assert (∀ l : list (string * Entry), sum_list_with (λ kv, if bool_decide (kv.1 ∈ (∅ : gset string))
      then 0%nat else entry_mentions kv.2) l = sum_list_with (λ kv, entry_mentions kv.2) l) as ->; [|lia].
    intros l. induction l as [|[name e] l IHl]; [done|]. cbn [sum_list_with fst snd].
    by rewrite IHl, bool_decide_false by set_solver.
Qed.

Lemma reachable_rev files roots h : reachable files (rev roots) h ↔ reachable files roots h.
Proof.
  split; (induction 1 as [h Hh|]; [|by eapply reachable_step]);
    apply reachable_root; revert Hh; rewrite !list_elem_of_In; apply in_rev || apply (proj2 (in_rev _ _)).
Qed.

Lemma reachable_url_rev files roots u :
  reachable_url files (rev roots) u ↔ reachable_url files roots u.
Proof. unfold reachable_url. by setoid_rewrite reachable_rev. Qed.

End Marking.

(** ** Removing files *)

(** What is wrong with an entry that the sweep may remove. *)
Definition doomed (dead : string → bool) (name : string) (e : Entry) : bool :=
  match e with CacheFile _ => dead name | _ => false end.
Definition entry_len (e : Entry) : Z := match e with CacheFile contents => len contents | _ => 0 end.

(** The bytes of the doomed entries of a list. *)
Definition doomed_len (dead : string → bool) (entries : list (string * Entry)) : Z :=
  sum_Z ((λ kv, if doomed dead kv.1 kv.2 then entry_len kv.2 else 0) <$> entries).

Section Removing.
Context (io : SweepIo) (dir_path : string) (dead : string → bool).

Lemma remove_dead_keeps entries dir freed name e :
  (∀ e', (name, e') ∈ entries → e' = e) → dir !! name = Some e → doomed dead name e = false →
  (remove_dead io dir_path dead entries dir freed).2 !! name = Some e.
Proof.
  revert dir freed. induction entries as [|[n [c|l|]] entries IH]; intros dir freed Hsame Hdir Hd;
    simpl; [done| |apply IH; set_solver..].
  destruct (dead n) eqn:Hdead; simpl; [|apply IH; set_solver].
  destruct (io_remove io _); [|done]. apply IH; [set_solver| |done].
  rewrite lookup_delete_ne; [done|]. intros ->.
  rewrite <-(Hsame (CacheFile c)) in Hd by set_solver. simpl in Hd. congruence.
Qed.

Lemma remove_dead_subset entries dir freed :
  (remove_dead io dir_path dead entries dir freed).2 ⊆ dir.
Proof.
  revert dir freed. induction entries as [|[n [c|l|]] entries IH]; intros dir freed;
    simpl; [done| |apply IH..].
  destruct (dead n); simpl; [|apply IH]. destruct (io_remove io _); [|done].
  etrans; [apply IH|]. apply delete_subseteq.
Qed.

Lemma remove_dead_listed entries dir freed name e :
  dir !! name = Some e → name ∉ entries.*1 →
  (remove_dead io dir_path dead entries dir freed).2 !! name = Some e.
Proof.
  revert dir freed. induction entries as [|[n [c|l|]] entries IH]; intros dir freed Hdir Hn;
    simpl in *; [done| |apply IH; set_solver..].
  destruct (dead n); simpl; [|apply IH; set_solver]. destruct (io_remove io _); [|done].
  apply IH; [|set_solver]. rewrite lookup_delete_ne; [done|set_solver].
Qed.

Lemma doomed_len_cons n e entries :
  doomed_len dead ((n, e) :: entries)
  = (if doomed dead n e then entry_len e else 0) + doomed_len dead entries.
Proof. done. Qed.

Lemma doomed_len_nonneg entries : 0 ≤ doomed_len dead entries.
Proof.
  induction entries as [|[n e] entries IH]; [done|].
  rewrite doomed_len_cons.
  destruct (doomed dead n e); [|lia].
  assert (0 ≤ entry_len e) by (destruct e; simpl; [apply len_nonneg|lia..]). lia.
Qed.

Lemma remove_dead_removes entries dir freed n :
  0 ≤ freed ≤ u64_max →
  (remove_dead io dir_path dead entries dir freed).1 = Ok n →
  (∀ name e, (name, e) ∈ entries → doomed dead name e = true →
     (remove_dead io dir_path dead entries dir freed).2 !! name = None) ∧
  n = Z.min u64_max (freed + doomed_len dead entries).
Proof.
  revert dir freed. induction entries as [|[m e] entries IH]; intros dir freed Hf Hok.
  { simpl in *. split; [set_solver|]. unfold doomed_len. simpl in *. simplify_eq. lia. }
  rewrite doomed_len_cons.
  pose proof (doomed_len_nonneg entries) as Hnn.
  assert (doomed dead m e = false →
    remove_dead io dir_path dead ((m, e) :: entries) dir freed
    = remove_dead io dir_path dead entries dir freed) as Hskip
    by (destruct e; simpl; [intros ->|..]; done).
  destruct (doomed dead m e) eqn:Hd.
  - destruct e as [c|l|]; simpl in Hd; [|done..]. simpl in Hok |- *. rewrite Hd in *. simpl in Hok |- *.
    destruct (io_remove io _); [|done]. pose proof (len_nonneg c) as Hc.
    assert (0 ≤ sat_add u64_max freed (len c) ≤ u64_max) as Hsat by (unfold sat_add; lia).
    destruct (IH _ _ Hsat Hok) as [Hgone ->]. split; [|unfold sat_add; lia].
    intros name e [[= -> ->]|Hin]%elem_of_cons Hde; [|by eapply Hgone].
    pose proof (remove_dead_subset entries (delete m dir) (sat_add u64_max freed (len c))) as Hsub.
    destruct (_ !! m) as [e'|] eqn:He'; [|done].
    apply (lookup_weaken _ _ _ _ He') in Hsub. by rewrite lookup_delete_eq in Hsub.
  - rewrite Hskip in * by done. destruct (IH _ _ Hf Hok) as [Hgone ->]. split; [|lia].
    intros name e' [[= -> ->]|Hin]%elem_of_cons Hde; [congruence|by eapply Hgone].
Qed.

(** The bytes of a directory go down by those of the files removed. *)
Lemma remove_dead_sum entries dir freed n :
  NoDup entries.*1 → (∀ name e, (name, e) ∈ entries → dir !! name = Some e) →
  (remove_dead io dir_path dead entries dir freed).1 = Ok n →
  map_sum entry_len (remove_dead io dir_path dead entries dir freed).2
  = map_sum entry_len dir - doomed_len dead entries.
Proof.
  revert dir freed. induction entries as [|[m e] entries IH]; intros dir freed Hnd Hin Hok;
    [unfold doomed_len; simpl; lia|].
  rewrite doomed_len_cons. apply NoDup_cons in Hnd as [Hm Hnd].
  assert (∀ dir' : gmap string Entry, (∀ name e', (name, e') ∈ entries → dir' !! name = dir !! name) →
    ∀ name e', (name, e') ∈ entries → dir' !! name = Some e') as Hsame.
  { intros dir' Hd name e' He'. rewrite (Hd name e' He'). apply Hin. set_solver. }
  destruct e as [c|l|]; simpl in Hok |- *; [|rewrite IH; [lia|done|by apply Hsame|done]..].
  destruct (dead m) eqn:Hdead; simpl in Hok |- *; [|rewrite IH; [lia|done|by apply Hsame|done]].
  destruct (io_remove io _); [|done]. rewrite IH; [|done| |done].
  - rewrite (map_sum_delete entry_len dir m (CacheFile c)) by (apply Hin; set_solver). simpl. lia.
  - apply Hsame. intros name e' He'. apply lookup_delete_ne. intros ->.
    apply Hm. apply list_elem_of_fmap. by exists (name, e').
Qed.

(** A directory, of which some entries are listed in whatever order. *)
Lemma remove_dead_dir entries dir freed :
  entries ⊆+ map_to_list dir → 0 ≤ freed ≤ u64_max →
  let '(res, dir') := remove_dead io dir_path dead entries dir freed in
  dir' ⊆ dir ∧
  (∀ name e, dir !! name = Some e → doomed dead name e = false ∨ (name, e) ∉ entries → dir' !! name = Some e) ∧
  ∀ n, res = Ok n →
    n = Z.min u64_max (freed + (map_sum entry_len dir - map_sum entry_len dir')) ∧
    map_sum entry_len dir' ≤ map_sum entry_len dir ∧
    ∀ name e, dir' !! name = Some e → (name, e) ∈ entries → doomed dead name e = false.
Proof.
  intros Hsubm Hf.
  pose proof (remove_dead_subset entries dir freed) as Hsub.
  pose proof (remove_dead_removes entries dir freed) as Hrem.
  pose proof (λ name e, remove_dead_keeps entries dir freed name e) as Hkeep.
  pose proof (remove_dead_sum entries dir freed) as Hsum.
  pose proof (remove_dead_listed entries dir freed) as Hlisted.
  pose proof (doomed_len_nonneg entries) as Hnn.
  assert (∀ name e, (name, e) ∈ entries → dir !! name = Some e) as Hin
    by (intros name e H; apply elem_of_map_to_list; by eapply elem_of_submseteq).
  assert (NoDup entries.*1) as Hnd.
  { destruct (submseteq_Permutation _ _ Hsubm) as [k Hk]. pose proof (NoDup_fst_map_to_list dir) as H.
    rewrite Hk, fmap_app in H. by apply NoDup_app in H as [H _]. }
  destruct (remove_dead _ _ _ _ _ _) as [res dir']. simpl in *. split_and!.
  - done.
  - intros name e He [Hd|Hd]; [|apply Hlisted; [done|]].
    + apply Hkeep; [|done..]. intros e' H%Hin. congruence.
    + intros ([n e'] & -> & H)%list_elem_of_fmap. simpl in *. pose proof (Hin _ _ H) as H2. rewrite He in H2. injection H2 as <-. done.
  - intros n ->. destruct (Hrem n Hf eq_refl) as [Hgone Hn]. rewrite (Hsum n Hnd Hin eq_refl).
    split_and!; [rewrite Hn; f_equal; lia|lia|].
    intros name e He Hl. destruct (doomed dead name e) eqn:Hd; [|done]. by rewrite (Hgone name e) in He.
Qed.

End Removing.

(** ** The sweep *)

Section Sweep.
Context (io : SweepIo) (lists : io_lists io).
Context (cache_root : string) (retained : list RetainedArtifactFiles) (extra_roots : list string).

Abbreviation roots := (retained_roots retained extra_roots).

(** A narinfo file the sweep sees and has no reason to keep. *)
Definition stale_narinfo (files : CacheFiles) (name : string) (e : Entry) : Prop :=
  (name, e) ∈ entries_of io cache_root (cf_root files) ∧
  ∃ contents stem, e = CacheFile contents ∧ valid_utf8 name = true ∧
    strip_suffix ".narinfo" name = Some stem ∧
    ¬ reachable io files roots (to_ascii_lowercase stem) ∧
    live_file retained (cache_root +:+ "/" +:+ name) = false.

(** A NAR file the sweep sees and has no reason to keep. *)
Definition stale_nar (files : CacheFiles) (name : string) (e : Entry) : Prop :=
  let url := "nar/" +:+ of_bytes (utf8_lossy (bytes name)) in
  (name, e) ∈ entries_of io (cache_root +:+ "/nar") (default ∅ (nar_dir files)) ∧
  ∃ contents, e = CacheFile contents ∧
    url ∉ retained_urls retained ∧ ¬ reachable_url io files roots url ∧
    live_file retained (cache_root +:+ "/nar/" +:+ name) = false.

Lemma doomed_narinfo files live name e :
  (∀ h, h ∈ live ↔ reachable io files (rev roots) h) →
  (name, e) ∈ entries_of io cache_root (cf_root files) ∧
    doomed (dead_narinfo cache_root retained live) name e = true ↔ stale_narinfo files name e.
Proof.
  intros Hlive. unfold doomed, stale_narinfo, dead_narinfo.
  destruct e as [c|l|]; [|naive_solver..].
  rewrite andb_true_iff. destruct (strip_suffix ".narinfo" name) as [stem|]; [|naive_solver].
  rewrite negb_true_iff, orb_false_iff, bool_decide_eq_false, Hlive, reachable_rev.
  naive_solver.
Qed.

Lemma doomed_nar files live_urls name e :
  (∀ u, u ∈ live_urls ↔ u ∈ retained_urls retained ∨ reachable_url io files (rev roots) u) →
  (name, e) ∈ entries_of io (cache_root +:+ "/nar") (default ∅ (nar_dir files)) ∧
    doomed (dead_nar cache_root retained live_urls) name e = true ↔ stale_nar files name e.
Proof.
  intros Hlive. unfold doomed, stale_nar, dead_nar.
  destruct e as [c|l|]; [|naive_solver..].
  rewrite negb_true_iff, orb_false_iff, bool_decide_eq_false, Hlive, reachable_url_rev.
  naive_solver.
Qed.

(** The entries of a directory after a sweep: nothing new or changed, nothing
    fresh lost; and nothing stale left once the sweep has succeeded. *)
Definition swept (stale : string → Entry → Prop) (done : bool) (dir dir' : gmap string Entry) : Prop :=
  dir' ⊆ dir ∧
  (∀ name e, dir !! name = Some e → ¬ stale name e → dir' !! name = Some e) ∧
  (done = true → ∀ name e, dir' !! name = Some e → ¬ stale name e).

Lemma swept_refl stale dir : swept stale false dir dir.
Proof. done. Qed.

Lemma entries_of_listed path m : entries_of io path m ⊆+ map_to_list m.
Proof. unfold entries_of. destruct (io_list io path m) eqn:E; [by eapply lists|apply submseteq_nil_l]. Qed.

Lemma remove_dead_swept path dir_path dead stale dir freed :
  (∀ name e, (name, e) ∈ entries_of io path dir ∧ doomed dead name e = true ↔ stale name e) → 0 ≤ freed ≤ u64_max →
  let '(res, dir') := remove_dead io dir_path dead (entries_of io path dir) dir freed in
  swept stale (is_ok res) dir dir' ∧
  ∀ n, res = Ok n → 0 ≤ n ≤ u64_max ∧ map_sum entry_len dir' ≤ map_sum entry_len dir ∧
    n = Z.min u64_max (freed + (map_sum entry_len dir - map_sum entry_len dir')).
Proof.
  intros Hiff Hf.
  pose proof (remove_dead_dir io dir_path dead _ dir freed (entries_of_listed path dir) Hf) as Hdir.
  destruct (remove_dead _ _ _ _ _ _) as [res dir']. destruct Hdir as (Hsub & Hkeep & Hok).
  split; [split_and!|].
  - done.
  - intros name e He Hs. apply Hkeep; [done|]. rewrite <-Hiff in Hs.
    destruct (doomed dead name e); [right; intros Hl; by apply Hs|by left].
  - intros Hres name e He [Hl Hd]%Hiff. destruct res as [n|]; [|done].
    destruct (Hok n eq_refl) as (_ & _ & H). by rewrite (H name e He Hl) in Hd.
  - intros n ->. destruct (Hok n eq_refl) as (-> & Hle & _). split_and!; [lia..|done].
Qed.

(** The bytes of the regular files of the cache. *)
Definition cache_bytes (files : CacheFiles) : Z :=
  map_sum entry_len (cf_root files) + map_sum entry_len (default ∅ (nar_dir files)).

Lemma sweep_spec files :
  let '(res, files') := sweep_unreachable_blocking io cache_root retained extra_roots files in
  swept (stale_narinfo files) (is_ok res) (cf_root files) (cf_root files') ∧
  (is_Some (cf_nar files) ↔ is_Some (cf_nar files')) ∧ (is_Some (nar_dir files) ↔ is_Some (nar_dir files')) ∧
  swept (stale_nar files) (is_ok res) (default ∅ (nar_dir files)) (default ∅ (nar_dir files')) ∧
  ∀ freed, res = Ok freed → freed = Z.min u64_max (cache_bytes files - cache_bytes files').
Proof.
  unfold sweep_unreachable_blocking.
  destruct (mark_start io files (rev roots) (retained_urls retained)) as (live & urls & -> & Hlive & Hurls).
  pose proof (remove_dead_swept cache_root (cache_root +:+ "/") _ _ (cf_root files) 0
    (λ name e, doomed_narinfo files live name e Hlive) ltac:(split; done)) as Hroot.
  destruct (remove_dead _ _ _ (entries_of _ _ (cf_root files)) _ 0) as [[freed|err] root];
    destruct Hroot as [Hswept Hfreed]; simpl in *.
  2: { split_and!; [done..|apply swept_refl|done]. }
  destruct (Hfreed freed eq_refl) as (Hrange & Hle & Hn). clear Hfreed.
  change (nar_dir (set_root root files)) with (nar_dir files).
  destruct (nar_dir files) as [nar|] eqn:Enar.
  - pose proof (remove_dead_swept (cache_root +:+ "/nar") (cache_root +:+ "/nar/")
      (dead_nar cache_root retained urls) (stale_nar files) nar freed) as Hnar.
    pose proof (λ name e, doomed_nar files urls name e Hurls) as Hiff. rewrite Enar in Hiff.
    specialize (Hnar Hiff Hrange).
    destruct (remove_dead _ _ _ (entries_of _ _ nar) _ _) as [res nar']. destruct Hnar as [Hswept' Hfreed].
    assert (nar_dir (set_nar nar' (set_root root files)) = Some nar' ∧
            cf_root (set_nar nar' (set_root root files)) = root ∧
            (is_Some (cf_nar files) ↔ is_Some (cf_nar (set_nar nar' (set_root root files))))) as (Hnd & Hcr & Hsome).
    { unfold set_nar, nar_dir, set_root. simpl. by destruct (cf_nar files). }
    rewrite Hnd, Hcr. split_and!; [|done|done|done|].
    + destruct Hswept as (H1 & H2 & H3). split_and!; [done..|]. intros _. by apply H3.
    + intros n ->. destruct (Hfreed n eq_refl) as (_ & Hle' & ->). unfold cache_bytes.
      rewrite Enar, Hnd, Hcr. simpl. lia.
  - change (nar_dir (set_root root files)) with (nar_dir files). rewrite Enar. split_and!; [done..|].
    + intros n [= <-]. unfold cache_bytes. change (nar_dir (set_root root files)) with (nar_dir files). rewrite Enar. simpl. lia.
Qed.

(** C30. The sweep removes exactly the narinfo and NAR files that it is shown and that
    nothing retained and no seed reaches along the narinfo files it can read: it changes
    no other entry, whatever fails; when it succeeds none of them is left, and it reports
    the bytes freed.  Files that the listing of a directory leaves out stay, and a narinfo
    file that cannot be read counts as one that names nothing: the code passes over these
    failures. *)
Theorem sweep_removes_exactly_the_unreachable files :
  let '(res, files') := sweep_unreachable_blocking io cache_root retained extra_roots files in
  swept (stale_narinfo files) (is_ok res) (cf_root files) (cf_root files') ∧
  (is_Some (cf_nar files) ↔ is_Some (cf_nar files')) ∧ (is_Some (nar_dir files) ↔ is_Some (nar_dir files')) ∧
  swept (stale_nar files) (is_ok res) (default ∅ (nar_dir files)) (default ∅ (nar_dir files')) ∧
  ∀ freed, res = Ok freed → freed = Z.min u64_max (cache_bytes files - cache_bytes files').
Proof. apply sweep_spec. Qed.

End Sweep.

Lemma remove_dead_all (io : SweepIo) dir_path dead entries dir freed :
  (∀ name, io_remove io name = true) → is_ok (remove_dead io dir_path dead entries dir freed).1 = true.
Proof.
  intros Hr. revert dir freed. induction entries as [|[n [x|l|]] entries IH]; intros dir freed; simpl;
    [done| |apply IH..]. destruct (dead n); simpl; [|apply IH]. rewrite Hr. apply IH.
Qed.

(** When every file can be removed the sweep succeeds. *)
Lemma sweep_total io cache_root retained extra_roots files :
  (∀ name, io_remove io name = true) →
  is_ok (sweep_unreachable_blocking io cache_root retained extra_roots files).1 = true.
Proof.
  intros Hr. unfold sweep_unreachable_blocking.
  destruct (mark_start io files (rev (retained_roots retained extra_roots)) (retained_urls retained))
    as (live & urls & -> & _).
  pose proof (remove_dead_all io (cache_root +:+ "/") (dead_narinfo cache_root retained live)
    (entries_of io cache_root (cf_root files)) (cf_root files) 0 Hr) as H1.
  destruct (remove_dead _ _ _ _ _ 0) as [[freed|e] root]; [|done].
  destruct (nar_dir _) as [nar|]; [|done].
  pose proof (remove_dead_all io (cache_root +:+ "/nar/") (dead_nar cache_root retained urls)
    (entries_of io (cache_root +:+ "/nar") nar) nar freed Hr) as H2.
  by destruct (remove_dead _ _ _ (entries_of _ _ nar) nar freed) as [[f|e] nar'].
Qed.
