(* ===== verification/NarInfoProofs.v ===== *)
(** * Signed store path records: proofs

    ASCII texts, what the two readers of a narinfo file agree on, canonical store
    paths, and that a mirrored record is trusted under both signatures. *)

From stdpp Require Import sorting base gmap list strings.
From Stdlib Require Import Ascii ZArith Lia.
From S2P Require Import Prelude RustStr RustText DbText DbTextProofs Json Assets AssetsProofs NixBase32 NarInfo CacheSweep.

#[local] Open Scope Z_scope.
#[local] Open Scope nest_scope.

(** ** ASCII texts *)

Definition ascii_byte (a : ascii) : bool := byte a <? 128.
Definition ascii_text (s : string) : bool := all_bytes ascii_byte s.
Abbreviation ascii_list := (Forall (λ a, ascii_byte a = true)).

Lemma ascii_text_list s : ascii_text s = true ↔ ascii_list (bytes s).
Proof.
  unfold ascii_text. rewrite all_bytes_forall, Forall_forall.
  by setoid_rewrite <-list_elem_of_In.
Qed.

Lemma ascii_text_app s t : ascii_text (s +:+ t) = true ↔ ascii_text s = true ∧ ascii_text t = true.
Proof. unfold ascii_text. by rewrite all_bytes_app, andb_true_iff. Qed.

Lemma utf8_lossy_ascii l : ascii_list l → utf8_lossy l = l.
Proof.
  induction 1 as [|a l Ha Hl IH]; [done|]. simpl. unfold ascii_byte in Ha. by rewrite Ha, IH.
Qed.

Lemma valid_utf8_ascii s : ascii_text s = true → valid_utf8 s = true.
Proof. intros H%ascii_text_list. apply bool_decide_eq_true. by apply utf8_lossy_ascii. Qed.

Lemma chars_of_ascii l : ascii_list l → chars_of l = (λ a, [a]) <$> l.
Proof.
  induction 1 as [|a l Ha Hl IH]; [done|]. simpl. rewrite IH.
  destruct Hl as [|b l Hb Hl]; simpl; [done|].
  assert (is_continuation b = false) as ->; [|done].
  unfold is_continuation, in_range. unfold ascii_byte in Hb. bool_prop. lia.
Qed.

Lemma is_whitespace_ascii a : is_whitespace [a] = ws1 a.
Proof. done. Qed.

Lemma trim_start_ascii l : ascii_list l → trim_start_bytes l = drop_while ws1 l.
Proof.
  induction 1 as [|a l Ha Hl IH]; [done|]. simpl. rewrite IH. destruct (ws1 a); [done|].
  assert (byte a < 128) as Hlt by (unfold ascii_byte in Ha; by apply Z.ltb_lt).
  destruct l as [|b l]; [done|].
  assert (ws2 a b = false) as -> by (unfold ws2; rewrite (proj2 (Z.eqb_neq _ _)); [done|lia]).
  destruct l as [|c l]; [done|].
  assert (ws3 a b c = false) as ->; [|done].
  unfold ws3. rewrite !(proj2 (Z.eqb_neq (byte a) _)) by lia. done.
Qed.

Lemma trim_end_ascii l : ascii_list l → trim_end_bytes_rev l = drop_while ws1 l.
Proof.
  induction 1 as [|a l Ha Hl IH]; [done|]. simpl. rewrite IH. destruct (ws1 a); [done|].
  assert (byte a < 128) as Hlt by (unfold ascii_byte in Ha; by apply Z.ltb_lt).
  destruct Hl as [|b l Hb Hl]; [done|].
  assert (byte b < 128) as Hlt' by (unfold ascii_byte in Hb; by apply Z.ltb_lt).
  assert (ws2 b a = false) as -> by (unfold ws2; rewrite (proj2 (Z.eqb_neq _ _)); [done|lia]).
  destruct Hl as [|c l Hc Hl]; [done|].
  assert (byte c < 128) as Hlt'' by (unfold ascii_byte in Hc; by apply Z.ltb_lt).
  assert (ws3 c b a = false) as ->; [|done].
  unfold ws3. rewrite !(proj2 (Z.eqb_neq (byte c) _)) by lia. done.
Qed.

Lemma drop_while_suffix p l : ∃ k, l = k ++ drop_while p l ∧ Forall (λ a, p a = true) k.
Proof.
  induction l as [|a l (k & Hk & Hall)]; simpl; [by exists []|].
  destruct (p a) eqn:Hp; [|by exists []]. exists (a :: k). split; [simpl; congruence|by constructor].
Qed.

(** A text is its trimmed part between white space. *)
Lemma trim_ascii s :
  ascii_text s = true → ∃ l r, bytes s = l ++ bytes (trim s) ++ r ∧
    Forall (λ a, ws1 a = true) l ∧ Forall (λ a, ws1 a = true) r.
Proof.
  intros Hs%ascii_text_list. unfold trim, trim_end, trim_start. rewrite !bytes_of_bytes.
  destruct (drop_while_suffix ws1 (bytes s)) as (l & Hl & Hall).
  rewrite trim_start_ascii by done.
  assert (ascii_list (rev (drop_while ws1 (bytes s)))) as Hrev.
  { apply Forall_rev. rewrite Hl in Hs. by apply Forall_app in Hs as [_ Hs]. }
  rewrite trim_end_ascii by done.
  destruct (drop_while_suffix ws1 (rev (drop_while ws1 (bytes s)))) as (r & Hr & Hall').
  exists l, (rev r). split_and!; [|done|by apply Forall_rev].
  rewrite <-rev_app_distr, <-Hr, rev_involutive. done.
Qed.

Lemma words_spaces l cs : Forall (λ a, ws1 a = true) l →
  words (((λ a, [a]) <$> l) ++ cs) [] = words cs [].
Proof. induction 1 as [|a l Ha Hl IH]; [done|]. cbn [fmap list_fmap app words].
  by rewrite is_whitespace_ascii, Ha. Qed.

Lemma words_end cs l word : Forall (λ a, ws1 a = true) l →
  words (cs ++ ((λ a, [a]) <$> l)) word = words cs word.
Proof.
  intros Hl. revert word. induction cs as [|c cs IH]; intros word; simpl.
  - destruct Hl as [|a l Ha Hl]; [done|]. cbn [fmap list_fmap words]. rewrite is_whitespace_ascii, Ha.
    pose proof (words_spaces l [] Hl) as Hw. rewrite app_nil_r in Hw. simpl in Hw.
    destruct word; by rewrite Hw.
  - destruct (is_whitespace c); [destruct word|]; by rewrite ?IH.
Qed.

Lemma split_whitespace_trim s :
  ascii_text s = true → split_whitespace (trim s) = split_whitespace s.
Proof.
  intros Hs. destruct (trim_ascii s Hs) as (l & r & Heq & Hl & Hr).
  apply ascii_text_list in Hs. unfold split_whitespace, chars. f_equal.
  rewrite (chars_of_ascii (bytes s)) by done. rewrite Heq in Hs |- *.
  apply Forall_app in Hs as [_ [Ht _]%Forall_app].
  rewrite chars_of_ascii by done. rewrite !fmap_app. by rewrite words_spaces, words_end.
Qed.

(** ** Store paths *)

Lemma split_once_Some c s x y :
  split_once c s = Some (x, y) → s = x +:+ String c y ∧ any_byte (Ascii.eqb c) x = false.
Proof.
  revert x y. induction s as [|a s IH]; intros x y; simpl; [done|].
  destruct (Ascii.eqb_spec a c) as [->|Hne]; [by intros [= <- <-]|].
  destruct (split_once c s) as [[x' y']|]; [|done]. intros [= <- <-].
  destruct (IH x' y' eq_refl) as [-> Hx]. split; [done|].
  unfold any_byte in *. simpl. rewrite Hx, orb_false_r. by apply Ascii.eqb_neq.
Qed.

Lemma split_no_byte c s : any_byte (Ascii.eqb c) s = false → split c s = [s].
Proof.
  unfold any_byte. induction s as [|a s IH]; simpl; [done|].
  intros [Ha Hs]%orb_false_iff. rewrite Ascii.eqb_sym in Ha. by rewrite Ha, (IH Hs).
Qed.

Lemma split_app c x y :
  any_byte (Ascii.eqb c) x = false → split c (x +:+ String c y) = x :: split c y.
Proof.
  unfold any_byte. induction x as [|a x IH]; intros H.
  - change ("" +:+ String c y) with (String c y). cbn [split]. by rewrite Ascii.eqb_refl.
  - rewrite str_app_cons. cbn [split]. simpl in H. apply orb_false_iff in H as [Ha Hx].
    rewrite Ascii.eqb_sym in Ha. by rewrite Ha, (IH Hx).
Qed.

(** A canonical store path, taken apart. *)
Record store_path_of (path hash name : string) : Prop := {
  sp_eq : path = STORE +:+ hash +:+ "-" +:+ name;
  sp_len : len hash = 32;
  sp_hash : all_bytes (byte_in NIX_BASE32_ALPHABET) hash = true;
  sp_name : name ≠ "" ∧ all_bytes store_name_char name = true;
}.

Lemma base32_alnum a : byte_in NIX_BASE32_ALPHABET a = true → is_alnum a = true ∧ is_upper a = false.
Proof.
  intros H%byte_in_true. simpl in H.
  repeat (destruct H as [<-|H]; [by vm_compute|]). done.
Qed.

Lemma base32_no_byte c s :
  byte_in NIX_BASE32_ALPHABET c = false → all_bytes (byte_in NIX_BASE32_ALPHABET) s = true →
  any_byte (Ascii.eqb c) s = false.
Proof.
  intros Hc Hs. apply not_true_iff_false. unfold any_byte. rewrite existsb_exists.
  intros (a & Hin & <-%Ascii.eqb_eq). rewrite all_bytes_forall in Hs. by rewrite Hs in Hc.
Qed.

Lemma store_name_no_slash name : all_bytes store_name_char name = true → any_byte (Ascii.eqb "/") name = false.
Proof.
  intros Hs. apply not_true_iff_false. unfold any_byte. rewrite existsb_exists.
  intros (a & Hin & <-%Ascii.eqb_eq). rewrite all_bytes_forall in Hs. by apply Hs in Hin.
Qed.

Lemma validate_store_path_Ok path :
  validate_store_path path = Ok tt ↔ ∃ hash name, store_path_of path hash name.
Proof.
  unfold validate_store_path. split.
  - destruct (strip_prefix STORE path) as [rel|] eqn:Ep; [|done]. cbn [ok_or rbind].
    apply strip_prefix_Some in Ep as ->. destruct (contains "/" rel); [done|].
    destruct (split_once "-" rel) as [[hash name]|] eqn:Es; [|done].
    apply split_once_Some in Es as [-> _].
    destruct (_ || _) eqn:Hb; [done|]. intros _. apply orb_false_iff in Hb as [Hb Hn].
    apply orb_false_iff in Hb as [Hb He]. apply orb_false_iff in Hb as [Hl Hh].
    apply negb_false_iff in Hl, Hh, Hn. apply Z.eqb_eq in Hl.
    exists hash, name. split; [done..|]. split; [|done]. intros ->. done.
  - intros (hash & name & [-> Hl Hh [Hne Hn]]).
    rewrite (proj2 (strip_prefix_Some _ _ _) eq_refl). cbn [ok_or rbind].
    assert (contains "/" (hash +:+ "-" +:+ name) = false) as ->.
    { rewrite contains_byte, !any_byte_app, (base32_no_byte _ hash), (store_name_no_slash name) by (done || reflexivity). done. }
    change (hash +:+ "-" +:+ name) with (hash +:+ String "-" name).
    rewrite split_once_app by (apply base32_no_byte; [reflexivity|done]).
    rewrite Hl, Hh, Hn. simpl. by rewrite is_empty_false.
Qed.

Lemma split_join_bytes c x y : split c (x +:+ String c y) = split c x ++ split c y.
Proof.
  induction x as [|a x IH].
  - change ("" +:+ String c y) with (String c y). cbn [split]. by rewrite Ascii.eqb_refl.
  - rewrite str_app_cons. cbn [split]. rewrite IH. destruct (Ascii.eqb a c); [done|].
    destruct (split c x) as [|z zs] eqn:E; [by apply split_nonempty in E|done].
Qed.

Lemma rsplit_next_last c x y :
  any_byte (Ascii.eqb c) y = false → rsplit_next c (x +:+ String c y) = y.
Proof.
  intros Hy. unfold rsplit_next. rewrite split_join_bytes, (split_no_byte c y) by done. apply last_last.
Qed.

Section StorePath.
Context (path hash name : string) (Hpath : store_path_of path hash name).

Lemma store_basename_hash_name : store_basename_hash (hash +:+ "-" +:+ name) = Some hash.
Proof.
  destruct Hpath as [_ Hl Hh _]. unfold store_basename_hash.
  change (hash +:+ "-" +:+ name) with (hash +:+ String "-" name).
  rewrite split_app by (apply base32_no_byte; [reflexivity|done]). simpl. rewrite Hl. simpl.
  rewrite (all_bytes_impl _ is_alnum hash (λ a H, proj1 (base32_alnum a H)) Hh).
  f_equal. apply to_ascii_lowercase_id.
  apply all_bytes_impl with (byte_in NIX_BASE32_ALPHABET); [|done].
  intros a Ha. by rewrite (proj2 (base32_alnum a Ha)).
Qed.

Lemma store_path_hash_path : store_path_hash path = Some hash.
Proof.
  unfold store_path_hash. rewrite <-store_basename_hash_name. f_equal.
  destruct Hpath as [-> _ Hh [_ Hn]].
  change (STORE +:+ hash +:+ "-" +:+ name) with ("/nix/store" +:+ String "/" (hash +:+ "-" +:+ name)).
  apply rsplit_next_last. rewrite !any_byte_app, (base32_no_byte _ hash), (store_name_no_slash name) by (done || reflexivity). done.
Qed.

Lemma narinfo_filename_path : narinfo_filename_for_store_path path = Ok (narinfo_name hash).
Proof.
  assert (file_name path = Some (hash +:+ "-" +:+ name)) as Hf.
  { destruct Hpath as [-> Hl Hh [Hne Hn]]. unfold file_name, components.
    change (STORE +:+ hash +:+ "-" +:+ name)
      with (String "/" ("nix" +:+ String "/" ("store" +:+ String "/" (hash +:+ "-" +:+ name)))).
    assert (any_byte (Ascii.eqb "/") (hash +:+ "-" +:+ name) = false) as Hs.
    { rewrite !any_byte_app, (base32_no_byte _ hash), (store_name_no_slash name)
        by (done || reflexivity). done. }
    cbn [split]. rewrite Ascii.eqb_refl, !split_app by reflexivity. rewrite split_no_byte by done.
    assert (piece_component (hash +:+ "-" +:+ name) = Some (Normal (hash +:+ "-" +:+ name))) as Hc.
    { unfold piece_component. assert (2 < len (hash +:+ "-" +:+ name)) as Hlen.
      { rewrite !len_app, Hl. pose proof (len_nonneg name). change (len "-") with 1. lia. }
      rewrite !bool_decide_false by (intros Heq; rewrite Heq in Hlen; vm_compute in Hlen; done). done. }
    rewrite last_app. cbn [omap list_omap]. 
    change (piece_component "") with (@None Component).
    change (piece_component "nix") with (Some (Normal "nix")).
    change (piece_component "store") with (Some (Normal "store")). rewrite Hc. done. }
  unfold narinfo_filename_for_store_path. rewrite Hf. cbn [ok_or rbind].
  destruct Hpath as [_ Hl Hh _].
  change (hash +:+ "-" +:+ name) with (hash +:+ String "-" name).
  rewrite split_once_app by (apply base32_no_byte; [reflexivity|done]).
  rewrite Hl, (all_bytes_impl _ is_alnum hash (λ a H, proj1 (base32_alnum a H)) Hh). done.
Qed.

End StorePath.

(** ** The lines of a record *)

Lemma split_all_bytes p c s x : all_bytes p s = true → x ∈ split c s → all_bytes p x = true.
Proof.
  revert x. induction s as [|a s IH]; intros x; unfold all_bytes in *; simpl.
  - intros _ ->%list_elem_of_singleton. done.
  - intros [Ha Hs]%andb_true_iff. specialize (IH) with (1 := Hs).
    destruct (Ascii.eqb a c).
    + intros [->|Hx]%elem_of_cons; [done|by apply IH].
    + destruct (split c s) as [|z zs] eqn:E; [by apply split_nonempty in E|].
      intros [->|Hx]%elem_of_cons; [|apply IH; set_solver]. simpl. rewrite Ha. apply IH. set_solver.
Qed.

Lemma strip_cr_all_bytes p s : all_bytes p s = true → all_bytes p (strip_cr s) = true.
Proof.
  unfold strip_cr. destruct (strip_suffix _ s) as [t|] eqn:E; [|done].
  apply strip_suffix_Some in E as ->. simpl. rewrite all_bytes_app. by intros [? _]%andb_true_iff.
Qed.

Lemma lines_all_bytes p s x : all_bytes p s = true → x ∈ lines s → all_bytes p x = true.
Proof.
  intros Hs. unfold lines.
  assert (∀ y, y ∈ rev (split "010" s) → all_bytes p y = true) as Hall.
  { intros y. rewrite list_elem_of_In, <-in_rev, <-list_elem_of_In. by apply split_all_bytes. }
  destruct (rev (split "010" s)) as [|l before]; [set_solver|].
  assert (x ∈ (strip_cr <$> rev before) → all_bytes p x = true) as Hb.
  { intros (y & -> & Hy)%list_elem_of_fmap. apply strip_cr_all_bytes, Hall.
    rewrite list_elem_of_In, <-in_rev, <-list_elem_of_In in Hy. set_solver. }
  destruct l as [|a l]; [done|]. intros [Hx|Hx%list_elem_of_singleton]%elem_of_app; [by apply Hb|].
  subst. apply Hall. set_solver.
Qed.

Definition REFERENCES : string := "References:".
Definition URL : string := "URL:".

Lemma mention_references v : mention (REFERENCES +:+ v) = MentionReferences (reference_hashes v).
Proof. done. Qed.

Lemma mention_url v : mention (URL +:+ v) = MentionUrl (trim_start_byte "/" (trim v)).
Proof. done. Qed.

Lemma read_fields_references ls n r :
  r ∈ ni_references (read_fields ls n) → r ∈ ni_references n ∨
  ∃ v, REFERENCES +:+ v ∈ ls ∧ r ∈ absolute_reference <$> split_whitespace (trim v).
Proof.
  revert n. induction ls as [|line ls IH]; intros n; simpl; [by left|].
  destruct (split_once ":" line) as [[key value]|] eqn:E; intros [H|(v & Hv & Hr)]%IH;
    try (right; exists v; set_solver); [|by left].
  simpl in H. case_bool_decide as Hk; [|by left]. right. exists value. split; [|done].
  apply split_once_Some in E as [-> _]. subst key. apply elem_of_cons. by left.
Qed.

Lemma read_fields_url ls n :
  ni_url (read_fields ls n) = ni_url n ∨
  ∃ v, URL +:+ v ∈ ls ∧ ni_url (read_fields ls n) = trim v.
Proof.
  revert n. induction ls as [|line ls IH]; intros n; simpl; [by left|].
  destruct (split_once ":" line) as [[key value]|] eqn:E.
  - destruct (IH (set_field key (trim value) n)) as [H|(v & Hv & H)]; [|right; exists v; set_solver].
    rewrite H. simpl. case_bool_decide as Hk; [|by left]. right. exists value. split; [|done].
    apply split_once_Some in E as [-> _]. subst key. apply elem_of_cons. by left.
  - destruct (IH n) as [H|(v & Hv & H)]; [by left|right; exists v; set_solver].
Qed.

Lemma parse_narinfo_Ok raw n : parse_narinfo raw = Ok n →
  n = read_fields (lines raw) no_narinfo ∧ ni_url n ≠ "".
Proof.
  unfold parse_narinfo. destruct (_ || _) eqn:E; [done|]. intros [= <-]. split; [done|].
  repeat (apply orb_false_iff in E as [E ?]). by eapply bool_decide_eq_false_1.
Qed.

Lemma parse_narinfo_strict_Ok raw n : parse_narinfo_strict raw = Ok n → parse_narinfo raw = Ok n.
Proof.
  unfold parse_narinfo_strict. destruct (negb _); [done|].
  intros ([seen sigs] & _ & H)%rbind_Ok. destruct (negb _); [done|]. by destruct (_ =? _)%nat.
Qed.

(** A narinfo file as Nix writes it: ASCII, its references by their base names. *)
Definition nix_written (raw : string) : Prop :=
  ascii_text raw = true ∧
  ∀ v w, REFERENCES +:+ v ∈ lines raw → w ∈ split_whitespace v → starts_with STORE w = false.

(** What the strict parser takes from such a file, the marking loop follows. *)
Lemma parsed_reference_marked raw n r hash name :
  nix_written raw → parse_narinfo_strict raw = Ok n → r ∈ ni_references n →
  store_path_of r hash name →
  ∃ v, REFERENCES +:+ v ∈ lines raw ∧ hash ∈ reference_hashes v.
Proof.
  intros [Hascii Hrel] (-> & _)%parse_narinfo_strict_Ok%parse_narinfo_Ok Hr Hpath.
  apply read_fields_references in Hr as [Hr|(v & Hv & Hr)]; [by apply not_elem_of_nil in Hr|].
  exists v. split; [done|].
  assert (ascii_text v = true) as Hva.
  { pose proof (lines_all_bytes ascii_byte raw _ Hascii Hv) as H. by apply ascii_text_app in H as [_ H]. }
  rewrite split_whitespace_trim in Hr by done.
  apply list_elem_of_fmap in Hr as (w & -> & Hw).
  unfold absolute_reference in Hpath. rewrite (Hrel v w Hv Hw) in Hpath.
  unfold reference_hashes. apply list_elem_of_omap. exists w. split; [done|].
  pose proof (store_basename_hash_name _ _ _ Hpath) as Hb. rewrite <-Hb. f_equal.
  pose proof (sp_eq _ _ _ Hpath) as Heq. apply (f_equal bytes) in Heq.
  rewrite !(bytes_app STORE) in Heq. apply app_inv_head in Heq. by apply bytes_inj.
Qed.

Lemma parsed_url_marked raw n filename :
  parse_narinfo_strict raw = Ok n → validate_nar_url (ni_url n) = Ok filename →
  ∃ v, URL +:+ v ∈ lines raw ∧ trim_start_byte "/" (trim v) = "nar/" +:+ filename ∧
    all_bytes nar_char filename = true.
Proof.
  intros (-> & Hne)%parse_narinfo_strict_Ok%parse_narinfo_Ok Hval.
  destruct (read_fields_url (lines raw) no_narinfo) as [H|(v & Hv & H)]; [done|].
  exists v. split; [done|]. rewrite H in Hval. unfold validate_nar_url in Hval.
  destruct (strip_prefix "nar/" (trim v)) as [f|] eqn:E; [|done]. simpl in Hval.
  destruct (_ || _) eqn:Eb; [done|]. injection Hval as ->.
  apply strip_prefix_Some in E. rewrite E. split; [|].
  - unfold trim_start_byte. rewrite bytes_app. simpl.
    change ("n"%char :: _) with (bytes ("nar/" +:+ filename)). by rewrite of_bytes_bytes.
  - apply orb_false_iff in Eb as [_ Eb]. by apply negb_false_iff.
Qed.

(** The same as a test. *)
Definition nix_writtenb (raw : string) : bool :=
  ascii_text raw &&
  forallb (λ line, match strip_prefix REFERENCES line with
                   | Some v => forallb (λ w, negb (starts_with STORE w)) (split_whitespace v)
                   | None => true
                   end) (lines raw).

Lemma nix_writtenb_spec raw : nix_writtenb raw = true → nix_written raw.
Proof.
  unfold nix_writtenb. intros [Ha Hl]%andb_true_iff. split; [done|]. intros v w Hv Hw.
  rewrite forallb_forall in Hl. apply list_elem_of_In in Hv. apply Hl in Hv.
  rewrite (proj2 (strip_prefix_Some REFERENCES _ v)) in Hv by done.
  rewrite forallb_forall in Hv. apply list_elem_of_In in Hw. apply Hv in Hw. by apply negb_true_iff.
Qed.
