(* ===== verification/ClosureManifest.v ===== *)
(** * Verified closure manifests

    [build_closure_manifest] of [src/cache.rs] walks the closure of a store path
    over the narinfo files of the cache, checks the signature of every record
    and the bytes of every NAR, and writes down what it found;
    [build_or_quarantine_closure_manifest] withdraws the records of a closure
    that does not verify.  A withdrawn record is renamed out of the served root
    and then archived; the input says how far that gets for each record. *)

From stdpp Require Import sorting base gmap list strings.
From Stdlib Require Import Ascii ZArith Lia.
From S2P Require Import Prelude RustStr RustText DbText Json Assets NixBase32 NarInfo ProtectedText ProtectedMaterial.

#[local] Open Scope Z_scope.
#[local] Open Scope nest_scope.

Definition CLOSURE_MANIFEST_SCHEMA : string := "tiaris.nest.closure-manifest.v1".
Definition CLOSURE_MANIFEST_VALIDATION_LEVEL : string := "compressed_file_hash".

(** Errors: a message, or [InvalidCachedNar]. *)
Inductive ManifestError :=
| ManifestFailed (message : string)
| InvalidCachedNar (reason : string) (filename : option string).

Definition lift {A} (r : result string A) : result ManifestError A := map_err ManifestFailed r.

Record ClosureManifestArtifact := {
  cm_store_path : string;
  cm_narinfo_path : string;
  cm_nar_url : string;
  cm_file_hash : string;
  cm_file_size_bytes : Z;
  cm_nar_hash : string;
  cm_nar_size_bytes : Z;
  cm_compression : string;
  cm_references : list string;
}.

Record VerifiedClosureManifest := {
  vc_manifest : Value;
  vc_manifest_sha256 : string;
  vc_root_narinfo : ParsedNarInfo;
  vc_root_narinfo_path : string;
  vc_root_nar_path : string;
  vc_total_file_size_bytes : Z;
}.

(** [BTreeSet] of texts, as the list of its elements. *)
Definition sorted_set (l : list string) : list string := merge_sort String.le (remove_dups l).

Definition with_references (refs : list string) (n : ParsedNarInfo) : ParsedNarInfo := {|
  ni_store_path := ni_store_path n; ni_url := ni_url n; ni_compression := ni_compression n;
  ni_file_hash := ni_file_hash n; ni_file_size := ni_file_size n; ni_nar_hash := ni_nar_hash n;
  ni_nar_size := ni_nar_size n; ni_references := refs; ni_signatures := ni_signatures n |}.

Definition compression_char (a : ascii) : bool := is_alnum a || byte_in "_-" a.

(** [u64::try_from(size).ok().filter(|size| *size > 0)]. *)
Definition positive_size (size : Z) : option Z := if 0 <? size then Some size else None.

(** ** Canonical JSON *)

Section Canonical.
Context {serde : Serde}.

Definition key_le (x y : string * string) : Prop := String.le x.1 y.1.
#[global] Instance key_le_dec : RelDecision key_le.
Proof. unfold key_le. intros x y. apply _. Defined.

(** [canonical_json_bytes]: the keys of an object are different. *)
Fixpoint canonical_json (v : Value) : string :=
  match v with
  | Array items => "[" +:+ join "," (canonical_json <$> items) +:+ "]"
  | Object fields =>
      let rendered := (λ kv, (kv.1, canonical_json kv.2)) <$> fields in
      "{" +:+ join "," ((λ kv, to_string (Str kv.1) +:+ ":" +:+ kv.2)
                          <$> merge_sort key_le rendered) +:+ "}"
  | v => to_string v
  end.

End Canonical.

(** ** Quarantine *)

Record CacheStore := {
  cs_files : CacheFiles;
  cs_quarantine : list (string * Entry);
}.

(** How far withdrawing a record gets: renamed and archived, not even renamed,
    or renamed to a hidden name of the cache root and left there. *)
Inductive QuarantineOutcome := Archived | UnpublishFails | ArchiveFails (hidden : string).

(** [ready]: the quarantine directory could be prepared and a batch created. *)
Record QuarantineInput := { q_ready : bool; q_outcome : string → QuarantineOutcome }.

Definition with_root (f : gmap string Entry → gmap string Entry) (s : CacheStore) : CacheStore := {|
  cs_files := {| cf_root := f (cf_root (cs_files s)); cf_nar := cf_nar (cs_files s);
                 cf_nar_link := cf_nar_link (cs_files s) |};
  cs_quarantine := cs_quarantine s |}.
Definition with_nar (f : gmap string Entry → gmap string Entry) (s : CacheStore) : CacheStore := {|
  cs_files := {| cf_root := cf_root (cs_files s); cf_nar := f <$> cf_nar (cs_files s);
                 cf_nar_link := cf_nar_link (cs_files s) |};
  cs_quarantine := cs_quarantine s |}.
Definition archive (name : string) (e : Entry) (s : CacheStore) : CacheStore := {|
  cs_files := cs_files s; cs_quarantine := cs_quarantine s ++ [(name, e)] |}.

(** The name of a narinfo file directly below the cache root. *)
Definition root_member (cache_root path : string) : option string :=
  match file_name path with
  | Some name =>
      if bool_decide (components path = components cache_root ++ [Normal name])
         && valid_utf8 name && ends_with ".narinfo" name && negb (contains "/" name)
      then Some name else None
  | None => None
  end.

Fixpoint first_occurrences (seen : list string) (l : list string) : list string :=
  match l with
  | [] => []
  | x :: l => if bool_decide (x ∈ seen) then first_occurrences seen l
              else x :: first_occurrences (x :: seen) l
  end.

Definition quarantine_candidates (cache_root : string) (paths : list string) (s : CacheStore)
    : list string :=
  first_occurrences []
    (List.filter (λ name, bool_decide (is_Some (cf_root (cs_files s) !! name)))
      (omap (root_member cache_root) paths)).

Fixpoint quarantine_each (i : QuarantineInput) (names : list string) (moved : nat) (s : CacheStore)
    : result string nat * CacheStore :=
  match names with
  | [] => (Ok moved, s)
  | name :: names =>
      match cf_root (cs_files s) !! name with
      | None => (Err "unpublish invalid NARInfo", s)
      | Some e =>
          match q_outcome i name with
          | Archived =>
              quarantine_each i names (S moved) (archive name e (with_root (delete name) s))
          | UnpublishFails => (Err "unpublish invalid NARInfo", s)
          | ArchiveFails hidden =>
              (Err "archive unpublished NARInfo", with_root (λ m, <[hidden := e]> (delete name m)) s)
          end
      end
  end.

Definition quarantine_narinfo_records (i : QuarantineInput) (cache_root : string)
    (paths : list string) (s : CacheStore) : result string nat * CacheStore :=
  match quarantine_candidates cache_root paths s with
  | [] => (Ok 0%nat, s)
  | candidates =>
      if negb (q_ready i) then (Err "cache quarantine was not a private directory", s)
      else quarantine_each i candidates 0 s
  end.

Section Manifest.
Context {serde : Serde} {ed25519 : Ed25519} {deps : ProtectedDeps} (sha256 : string → Digest).

(** ** One member *)

Definition invalid_nar (actual_size file_size : Z) (actual expected : Digest) (filename : string)
    : ManifestError :=
  let content_named := negb (bool_decide (actual = expected)) &&
    match split_once_str ".nar" filename with
    | Some (hash, _) => bool_decide (ok (decode_nix_base32_sha256 hash) = Some expected)
    | None => false
    end in
  InvalidCachedNar (if negb (actual_size =? file_size)
                    then "compressed NAR size did not match NARInfo FileSize"
                    else "compressed NAR SHA-256 did not match NARInfo FileHash")
    (if content_named then Some filename else None).

(** The checks on the record and the bytes of [expected_store_path], its narinfo
    file being [filename]: the record, its references as a set, and what the
    manifest says of it. *)
Definition verify_member (files : CacheFiles) (trusted_public_key expected_store_path filename : string)
    : result ManifestError (ParsedNarInfo * ClosureManifestArtifact) :=
  raw ≔ lift (read_safe_narinfo files filename) ?;
  n ≔ lift (parse_narinfo_strict raw) ?;
  if negb (bool_decide (ni_store_path n = expected_store_path))
  then Err (ManifestFailed "referenced NARInfo StorePath did not match its cache filename") else
  _x ≔ lift (validate_store_path (ni_store_path n)) ?;
  if is_empty (ni_compression n) || negb (all_bytes compression_char (ni_compression n))
  then Err (ManifestFailed "NARInfo Compression was missing or invalid") else
  file_size ≔ ok_or (ManifestFailed "NARInfo FileSize was missing or invalid")
                    (positive_size (ni_file_size n)) ?;
  nar_size ≔ ok_or (ManifestFailed "NARInfo NarSize was missing or invalid")
                   (positive_size (ni_nar_size n)) ?;
  expected ≔ lift (sha256_digest (ni_file_hash n)) ?;
  _y ≔ lift (sha256_digest (ni_nar_hash n)) ?;
  _z ≔ lift (validate_store_paths (ni_references n)) ?;
  let n := with_references (sorted_set (ni_references n)) n in
  _s ≔ lift (verify_narinfo_signature n trusted_public_key) ?;
  actual ≔ lift (hash_safe_cache_member sha256 files (ni_url n)) ?;
  if negb (actual.1 =? file_size) || negb (bool_decide (actual.2 = expected)) then
    nar ≔ lift (validate_nar_url (ni_url n)) ?;
    Err (invalid_nar actual.1 file_size actual.2 expected nar)
  else
  Ok (n, {|
        cm_store_path := ni_store_path n; cm_narinfo_path := filename; cm_nar_url := ni_url n;
        cm_file_hash := ni_file_hash n; cm_file_size_bytes := file_size;
        cm_nar_hash := ni_nar_hash n; cm_nar_size_bytes := nar_size;
        cm_compression := ni_compression n; cm_references := ni_references n |}).

(** ** The walk *)

Record Walk := {
  wk_visited : gset string;
  wk_artifacts : list ClosureManifestArtifact;
  wk_total_file : Z;
  wk_total_nar : Z;
  wk_root : option (ParsedNarInfo * ClosureManifestArtifact);
}.

Definition walk_start : Walk := {|
  wk_visited := ∅; wk_artifacts := []; wk_total_file := 0; wk_total_nar := 0; wk_root := None |}.

(** A verified member is written down, unless a total overflows. *)
Definition walk_push (root_store_path : string) (m : ParsedNarInfo * ClosureManifestArtifact)
    (visited : gset string) (w : Walk) : result ManifestError Walk :=
  total_file ≔ ok_or (ManifestFailed "closure FileSize total overflowed")
    (try_unsigned u64_max (wk_total_file w + cm_file_size_bytes m.2)) ?;
  total_nar ≔ ok_or (ManifestFailed "closure NarSize total overflowed")
    (try_unsigned u64_max (wk_total_nar w + cm_nar_size_bytes m.2)) ?;
  Ok {| wk_visited := visited; wk_artifacts := wk_artifacts w ++ [m.2];
        wk_total_file := total_file; wk_total_nar := total_nar;
        wk_root := if bool_decide (cm_store_path m.2 = root_store_path) then Some m else wk_root w |}.

(** The loop over the queue, with the narinfo files inspected so far; [None]
    when the fuel runs out. *)
Fixpoint walk_closure (fuel : nat) (files : CacheFiles) (key root_store_path : string)
    (queue : list string) (w : Walk) (inspected : list string)
    : option (result ManifestError Walk * list string) :=
  match fuel with
  | O => None
  | S fuel =>
      match queue with
      | [] => Some (Ok w, inspected)
      | path :: queue =>
          match lift (validate_store_path path) with
          | Err e => Some (Err e, inspected)
          | Ok _ =>
              if bool_decide (path ∈ wk_visited w)
              then walk_closure fuel files key root_store_path queue w inspected else
              match lift (narinfo_filename_for_store_path path) with
              | Err e => Some (Err e, inspected)
              | Ok filename =>
                  let inspected := inspected ++ [filename] in
                  let visited := {[path]} ∪ wk_visited w in
                  match verify_member files key path filename with
                  | Err e => Some (Err e, inspected)
                  | Ok m =>
                      match walk_push root_store_path m visited w with
                      | Err e => Some (Err e, inspected)
                      | Ok w =>
                          let fresh := List.filter (λ r, bool_decide (r ∉ visited))
                                         (cm_references m.2) in
                          walk_closure fuel files key root_store_path (queue ++ fresh) w inspected
                      end
                  end
              end
          end
      end
  end.

(** The references of every readable record of the root bound the walk. *)
Definition entry_references (e : Entry) : nat :=
  match e with
  | CacheFile contents =>
      match parse_narinfo_strict contents with Ok n => length (ni_references n) | Err _ => 0%nat end
  | _ => 0%nat
  end.
Definition walk_fuel (files : CacheFiles) : nat :=
  (2 + sum_list_with (λ kv, entry_references kv.2) (map_to_list (cf_root files)))%nat.

(** ** The manifest *)

Definition artifact_value (a : ClosureManifestArtifact) : Value := Object
  [("compression", Str (cm_compression a)); ("file_hash", Str (cm_file_hash a));
   ("file_size_bytes", Num (PosInt (cm_file_size_bytes a)));
   ("nar_hash", Str (cm_nar_hash a)); ("nar_size_bytes", Num (PosInt (cm_nar_size_bytes a)));
   ("nar_url", Str (cm_nar_url a)); ("narinfo_path", Str (cm_narinfo_path a));
   ("provenance", Str "unknown"); ("references", Array (Str <$> cm_references a));
   ("store_path", Str (cm_store_path a))].

Definition artifact_le (x y : ClosureManifestArtifact) : Prop :=
  String.le (cm_store_path x) (cm_store_path y).
#[global] Instance artifact_le_dec : RelDecision artifact_le.
Proof. unfold artifact_le. intros x y. apply _. Defined.

Definition manifest_fields (root_store_path : string) (evaluated_derivation : option string)
    (w : Walk) : list (string * Value) :=
  let artifacts := merge_sort artifact_le (wk_artifacts w) in
  [("artifact_count", Num (PosInt (Z.of_nat (length artifacts))));
   ("artifacts", Array (artifact_value <$> artifacts));
   ("evaluated_derivation", match evaluated_derivation with Some d => Str d | None => Null end);
   ("root_store_path", Str root_store_path);
   ("schema", Str CLOSURE_MANIFEST_SCHEMA);
   ("total_file_size_bytes", Num (PosInt (wk_total_file w)));
   ("total_nar_size_bytes", Num (PosInt (wk_total_nar w)));
   ("validation_level", Str CLOSURE_MANIFEST_VALIDATION_LEVEL)].

Definition validate_derivation (evaluated_derivation : option string)
    : result ManifestError unit :=
  match evaluated_derivation with
  | None => Ok tt
  | Some path =>
      _x ≔ lift (validate_store_path path) ?;
      ensure (ends_with ".drv" path) (ManifestFailed "evaluated derivation was not a .drv store path")
  end.

Definition finish_manifest (cache_root root_store_path : string)
    (evaluated_derivation : option string) (w : Walk)
    : result ManifestError VerifiedClosureManifest :=
  let fields := manifest_fields root_store_path evaluated_derivation w in
  match validate_cache_metadata (Object fields) with
  | Err _ => Err (ManifestFailed "validate closure manifest protected-material boundary")
  | Ok _ =>
      let digest := hex_encode (sha256 (canonical_json (Object fields))) in
      root ≔ ok_or (ManifestFailed "closure omitted its root NARInfo") (wk_root w) ?;
      nar ≔ lift (validate_nar_url (cm_nar_url root.2)) ?;
      Ok {| vc_manifest := Object (obj_insert "manifest_sha256" (Str digest) fields);
            vc_manifest_sha256 := digest; vc_root_narinfo := root.1;
            vc_root_narinfo_path := cache_root +:+ "/" +:+ cm_narinfo_path root.2;
            vc_root_nar_path := cache_root +:+ "/nar/" +:+ nar;
            vc_total_file_size_bytes := wk_total_file w |}
  end.

(** The result, and the narinfo files that were inspected, in order. *)
Definition build_closure_manifest (files : CacheFiles) (cache_root root_store_path : string)
    (evaluated_derivation : option string) (trusted_public_key : string)
    : result ManifestError VerifiedClosureManifest * list string :=
  match (_x ≔ lift (validate_store_path root_store_path) ?;
         validate_derivation evaluated_derivation) with
  | Err e => (Err e, [])
  | Ok _ =>
      match walk_closure (walk_fuel files) files trusted_public_key root_store_path
              [root_store_path] walk_start [] with
      | None => (Err (ManifestFailed "out of fuel"), [])
      | Some (Err e, inspected) => (Err e, inspected)
      | Some (Ok w, inspected) =>
          (finish_manifest cache_root root_store_path evaluated_derivation w, inspected)
      end
  end.

(** [unlink_fails]: removing the corrupt NAR fails. *)
Definition build_or_quarantine_closure_manifest (i : QuarantineInput) (unlink_fails : bool)
    (cache_root root_store_path : string) (evaluated_derivation : option string)
    (trusted_public_key : string) (s : CacheStore)
    : result string VerifiedClosureManifest * CacheStore :=
  match build_closure_manifest (cs_files s) cache_root root_store_path evaluated_derivation
          trusted_public_key with
  | (Ok manifest, _) => (Ok manifest, s)
  | (Err error, inspected) =>
      let path name := cache_root +:+ "/" +:+ name in
      let root := path <$> option_list (head inspected) in
      let failed := path <$> option_list (last inspected) in
      let candidates := root ++ List.filter (λ p, bool_decide (p ∉ root)) failed in
      match quarantine_narinfo_records i cache_root candidates s with
      | (Err e, s) => (Err ("quarantine invalid closure NARInfo records: " +:+ e), s)
      | (Ok quarantined, s) =>
          match error with
          | InvalidCachedNar _ (Some filename) =>
              match cf_nar (cs_files s) with
              | None => (Err "open cache nar directory", s)
              | Some nar =>
                  if unlink_fails && bool_decide (is_Some (nar !! filename))
                  then (Err "remove corrupt cached NAR for re-export", s)
                  else (Err "closure manifest validation failed", with_nar (delete filename) s)
              end
          | _ => (Err "closure manifest validation failed", s)
          end
      end
  end.

End Manifest.
