(* ===== verification/ClosureManifestProofs.v ===== *)
(** * Verified closure manifests: proofs

    The walk stops, and when it succeeds the manifest describes exactly the
    closure of its root, every member of it signed and with the bytes its record
    names; a failure withdraws only records of the closure and never a payload
    that is what its name says. *)

From stdpp Require Import sorting base gmap list strings.
From Stdlib Require Import Ascii ZArith Lia.
From S2P Require Import Prelude RustStr RustText DbText Json Assets NixBase32 NarInfo ProtectedText ProtectedMaterial CacheSweep CacheSweepProofs ClosureManifest.

#[local] Open Scope Z_scope.
#[local] Open Scope nest_scope.

Lemma lift_Ok {A} (r : result string A) a : lift r = Ok a ↔ r = Ok a.
Proof. unfold lift, map_err. destruct r; naive_solver. Qed.

Lemma rbind_Err {E A B} (r : result E A) (f : A → result E B) e :
  rbind r f = Err e ↔ r = Err e ∨ ∃ a, r = Ok a ∧ f a = Err e.
Proof. destruct r; simpl; naive_solver. Qed.

Lemma ok_or_Ok {E A} (e : E) (o : option A) a : ok_or e o = Ok a ↔ o = Some a.
Proof. destruct o; naive_solver. Qed.

Lemma positive_size_Some z y : positive_size z = Some y ↔ y = z ∧ 0 < z.
Proof. unfold positive_size. destruct (Z.ltb_spec 0 z); naive_solver lia. Qed.

Lemma sorted_set_elem x l : x ∈ sorted_set l ↔ x ∈ l.
Proof. unfold sorted_set. rewrite merge_sort_Permutation. apply elem_of_remove_dups. Qed.

Lemma sorted_set_length l : (length (sorted_set l) ≤ length l)%nat.
Proof.
  unfold sorted_set. rewrite (Permutation_length (merge_sort_Permutation _ _)).
  apply submseteq_length, NoDup_submseteq; [apply NoDup_remove_dups|].
  intros x. by rewrite elem_of_remove_dups.
Qed.

Lemma validate_store_paths_Ok l x :
  validate_store_paths l = Ok x ↔ Forall (λ r, validate_store_path r = Ok tt) l.
Proof.
  destruct x. induction l as [|p l IH]; simpl; [by split|].
  rewrite Forall_cons, <-IH. destruct (validate_store_path p) as [[]|]; simpl; naive_solver.
Qed.

(** Take a successful chain of fallible steps apart. *)
Ltac inv_ok H :=
  repeat match type of H with
  | rbind _ _ = Ok _ => let x := fresh "x" in let Hx := fresh "Hx" in
      apply rbind_Ok in H as (x & Hx & H); cbv beta zeta in H;
      try rewrite lift_Ok in Hx; try rewrite ok_or_Ok in Hx
  | (if ?b then Err _ else _) = Ok _ => let Hb := fresh "Hb" in
      destruct b eqn:Hb; [discriminate H|]
  | (if ?b then _ else Err _) = Ok _ => let Hb := fresh "Hb" in
      destruct b eqn:Hb; [|discriminate H]
  end.

#[global] Instance artifact_le_total : Total artifact_le.
Proof. intros x y. unfold artifact_le. apply (total String.le). Qed.
#[global] Instance artifact_le_trans : Transitive artifact_le.
Proof. intros x y z. unfold artifact_le. apply transitivity. Qed.

Section Manifest.
Context {serde : Serde} {ed25519 : Ed25519} {deps : ProtectedDeps} (sha256 : string → Digest).
Context (files : CacheFiles) (key : string).

(** ** What a verified member is *)

(** The bytes of the NAR file that a URL names. *)
Definition nar_bytes (url contents : string) : Prop :=
  ∃ filename nar, validate_nar_url url = Ok filename ∧ cf_nar files = Some nar ∧
    nar !! filename = Some (CacheFile contents).

(** The record of [path] in [filename] is complete, signed by [key] and true of
    the bytes it names. *)
Record member_ok (path filename : string) (n : ParsedNarInfo) (a : ClosureManifestArtifact) : Prop := {
  mo_raw : ∃ raw n0, read_safe_narinfo files filename = Ok raw ∧ parse_narinfo_strict raw = Ok n0 ∧
    n = with_references (sorted_set (ni_references n0)) n0;
  mo_path : ni_store_path n = path;
  mo_valid : validate_store_path path = Ok tt;
  mo_references : Forall (λ r, validate_store_path r = Ok tt) (ni_references n);
  mo_signed : verify_narinfo_signature n key = Ok tt;
  mo_bytes : ∃ contents, nar_bytes (ni_url n) contents ∧ len contents = ni_file_size n ∧
    0 < ni_file_size n ∧ sha256_digest (ni_file_hash n) = Ok (sha256 contents);
  mo_nar : 0 < ni_nar_size n ∧ is_ok (sha256_digest (ni_nar_hash n)) = true;
  mo_compression : ni_compression n ≠ "" ∧ all_bytes compression_char (ni_compression n) = true;
  mo_artifact : a = {|
    cm_store_path := ni_store_path n; cm_narinfo_path := filename; cm_nar_url := ni_url n;
    cm_file_hash := ni_file_hash n; cm_file_size_bytes := ni_file_size n;
    cm_nar_hash := ni_nar_hash n; cm_nar_size_bytes := ni_nar_size n;
    cm_compression := ni_compression n; cm_references := ni_references n |};
}.

Lemma hash_member_Ok url size digest :
  hash_safe_cache_member sha256 files url = Ok (size, digest) ↔
  ∃ contents, nar_bytes url contents ∧ size = len contents ∧ digest = sha256 contents.
Proof.
  unfold hash_safe_cache_member, open_nar_member_at, nar_bytes.
  destruct (validate_nar_url url) as [filename|]; simpl; [|naive_solver].
  destruct (cf_nar files) as [nar|]; simpl; [|naive_solver].
  destruct (nar !! filename) as [[c|l|]|] eqn:E; simpl; naive_solver.
Qed.

Lemma validate_sorted l :
  Forall (λ r, validate_store_path r = Ok tt) (sorted_set l)
  ↔ Forall (λ r, validate_store_path r = Ok tt) l.
Proof. rewrite !Forall_forall. by setoid_rewrite sorted_set_elem. Qed.

(** The checks on a member are exactly these. *)
Lemma verify_member_Ok path filename n a :
  verify_member sha256 files key path filename = Ok (n, a) ↔ member_ok path filename n a.
Proof.
  split.
  - unfold verify_member. intros H. inv_ok H.
    destruct (_ || _) eqn:Hb1 in H; [by inv_ok H|]. injection H as <- <-.
    apply negb_false_iff, bool_decide_eq_true in Hb. destruct x1, x6, x7, x8 as [size digest].
    apply orb_false_iff in Hb0 as [Hc1 Hc2], Hb1 as [Hs Hd]. simpl in *.
    apply negb_false_iff in Hc2, Hs, Hd. apply Z.eqb_eq in Hs. apply bool_decide_eq_true in Hd. subst.
    apply positive_size_Some in Hx2 as [-> ?], Hx3 as [-> ?].
    apply hash_member_Ok in Hx8 as (contents & Hnar & Hlen & ->).
    apply validate_store_paths_Ok in Hx6.
    split; simpl; try done; [by exists x, x0|by apply validate_sorted|by exists contents| |].
    + by rewrite Hx5.
    + split; [|done]. intros Hc. by rewrite Hc in Hc1.
  - intros [(raw & n0 & Hraw & Hparse & ->) <- Hv Hr Hsig (contents & Hnar & Hlen & Hpos & Hfh)
            [Hns Hnh] [Hc1 Hc2] ->]. simpl in *.
    unfold verify_member. rewrite Hraw. simpl. rewrite Hparse. simpl.
    rewrite bool_decide_true, Hv by done. simpl.
    assert (is_empty (ni_compression n0) = false) as -> by by apply bool_decide_false.
    rewrite Hc2. simpl. unfold positive_size.
    rewrite (proj2 (Z.ltb_lt 0 _) Hpos), (proj2 (Z.ltb_lt 0 _) Hns). simpl.
    rewrite Hfh. simpl. destruct (sha256_digest (ni_nar_hash n0)); [|done]. simpl.
    rewrite (proj2 (validate_store_paths_Ok _ tt) (proj1 (validate_sorted _) Hr)). simpl.
    rewrite Hsig. simpl.
    rewrite (proj2 (hash_member_Ok _ (len contents) (sha256 contents))) by eauto. simpl.
    by rewrite Hlen, Z.eqb_refl, bool_decide_true by done.
Qed.

(** [path] is in the cache, signed and intact. *)
Definition verified (path : string) (n : ParsedNarInfo) (a : ClosureManifestArtifact) : Prop :=
  ∃ filename, narinfo_filename_for_store_path path = Ok filename ∧ member_ok path filename n a.

(** The closure of a store path along the signed references. *)
Inductive closure (root : string) : string → Prop :=
| closure_root : closure root root
| closure_reference path n a reference :
    closure root path → verified path n a → reference ∈ cm_references a → closure root reference.

Lemma verified_fun path n a n' a' : verified path n a → verified path n' a' → n = n' ∧ a = a'.
Proof.
  intros (f & Hf & Hm%verify_member_Ok) (f' & Hf' & Hm'%verify_member_Ok).
  rewrite Hf in Hf'. injection Hf' as <-. rewrite Hm in Hm'. by injection Hm' as -> ->.
Qed.

Lemma verified_path path n a : verified path n a → cm_store_path a = path.
Proof. intros (f & _ & H). rewrite (mo_artifact _ _ _ _ H). apply H. Qed.

(** A narinfo file is the record of one store path only. *)
Lemma verified_filename path n a path' n' a' :
  verified path n a → verified path' n' a' → cm_narinfo_path a = cm_narinfo_path a' → path = path'.
Proof.
  intros (f & _ & H) (f' & _ & H'). rewrite (mo_artifact _ _ _ _ H), (mo_artifact _ _ _ _ H').
  simpl. intros <-.
  destruct (mo_raw _ _ _ _ H) as (raw & n0 & Hr & Hp & ->).
  destruct (mo_raw _ _ _ _ H') as (raw' & n1 & Hr' & Hp' & ->).
  rewrite Hr in Hr'. injection Hr' as <-. rewrite Hp in Hp'. injection Hp' as <-.
  by rewrite <-(mo_path _ _ _ _ H), <-(mo_path _ _ _ _ H').
Qed.

(** ** The walk *)

Section Walk.
Context (root : string).

Record walk_ok (queue : list string) (w : Walk) : Prop := {
  wo_sound p : p ∈ wk_visited w ∨ p ∈ queue → closure root p;
  wo_root : root ∈ wk_visited w ∨ root ∈ queue;
  wo_visited p : p ∈ wk_visited w → ∃ n a, verified p n a ∧ a ∈ wk_artifacts w ∧
    ∀ r, r ∈ cm_references a → r ∈ wk_visited w ∨ r ∈ queue;
  wo_artifacts a : a ∈ wk_artifacts w → cm_store_path a ∈ wk_visited w ∧
    ∃ n, verified (cm_store_path a) n a;
  wo_nodup : NoDup (cm_store_path <$> wk_artifacts w);
  wo_file : wk_total_file w = sum_Z (cm_file_size_bytes <$> wk_artifacts w) ∧
            0 ≤ wk_total_file w ≤ u64_max;
  wo_nar : wk_total_nar w = sum_Z (cm_nar_size_bytes <$> wk_artifacts w) ∧
           0 ≤ wk_total_nar w ≤ u64_max;
  wo_found : root ∈ wk_visited w → ∃ m, wk_root w = Some m ∧ verified root m.1 m.2;
}.

Lemma walk_ok_start : walk_ok [root] walk_start.
Proof.
  split; simpl.
  - intros p [?| ->%list_elem_of_singleton]; [set_solver|constructor].
  - right. set_solver.
  - set_solver.
  - set_solver.
  - constructor.
  - split; [done|]. unfold u64_max. lia.
  - split; [done|]. unfold u64_max. lia.
  - set_solver.
Qed.

Lemma walk_ok_skip path queue w : path ∈ wk_visited w → walk_ok (path :: queue) w → walk_ok queue w.
Proof.
  intros Hp [Hs Hr Hv Ha Hn Hf Hnar Hroot]. split; [| | |done..].
  - intros p ?. apply Hs. set_solver.
  - set_solver.
  - intros p Hpv. destruct (Hv p Hpv) as (n & a & Hver & Hin & Hrefs). exists n, a.
    split_and!; [done..|]. intros r Hr'. specialize (Hrefs r Hr'). set_solver.
Qed.

Lemma walk_push_Ok m visited w w' :
  walk_push root m visited w = Ok w' ↔
  w' = {| wk_visited := visited; wk_artifacts := wk_artifacts w ++ [m.2];
          wk_total_file := wk_total_file w + cm_file_size_bytes m.2;
          wk_total_nar := wk_total_nar w + cm_nar_size_bytes m.2;
          wk_root := if bool_decide (cm_store_path m.2 = root) then Some m else wk_root w |} ∧
  0 ≤ wk_total_file w + cm_file_size_bytes m.2 ≤ u64_max ∧
  0 ≤ wk_total_nar w + cm_nar_size_bytes m.2 ≤ u64_max.
Proof.
  unfold walk_push. rewrite rbind_Ok. setoid_rewrite ok_or_Ok. setoid_rewrite rbind_Ok.
  setoid_rewrite ok_or_Ok. setoid_rewrite try_unsigned_Some. split.
  - intros (tf & [-> Htf] & tn & [-> Htn] & [= <-]). done.
  - intros (-> & Htf & Htn). eauto 10.
Qed.

Lemma walk_ok_push path queue w w' n a :
  path ∉ wk_visited w → verified path n a → walk_ok (path :: queue) w →
  walk_push root (n, a) ({[path]} ∪ wk_visited w) w = Ok w' →
  walk_ok (queue ++ List.filter (λ r, bool_decide (r ∉ {[path]} ∪ wk_visited w)) (cm_references a)) w'.
Proof.
  intros Hnew Hver Hok (-> & Hf' & Hn')%walk_push_Ok. simpl in *.
  pose proof (verified_path _ _ _ Hver) as Hpath.
  destruct Hok as [Hs Hr Hv Ha Hn [Hf Hfb] [Hnar Hnb] Hroot].
  assert (∀ r, r ∈ List.filter (λ r, bool_decide (r ∉ {[path]} ∪ wk_visited w)) (cm_references a)
    ↔ r ∈ cm_references a ∧ r ∉ {[path]} ∪ wk_visited w) as Hfresh.
  { intros r. by rewrite !list_elem_of_In, filter_In, bool_decide_eq_true. }
  assert (∀ r, r ∈ cm_references a → r ∈ {[path]} ∪ wk_visited w ∨
    r ∈ queue ++ List.filter (λ r, bool_decide (r ∉ {[path]} ∪ wk_visited w)) (cm_references a)) as Hrefs.
  { intros r Hr'. destruct (decide (r ∈ {[path]} ∪ wk_visited w)); [by left|].
    right. apply elem_of_app. right. by apply Hfresh. }
  split; simpl.
  - intros p [Hp|[Hp|[Hp _]%Hfresh]%elem_of_app]; [apply Hs; set_solver..|].
    eapply (closure_reference root path n a); [apply Hs; right; set_solver|done..].
  - set_solver.
  - intros p [->%elem_of_singleton|Hp]%elem_of_union.
    + exists n, a. split_and!; [done| |done]. set_solver.
    + destruct (Hv p Hp) as (n' & a' & Hver' & Hin & Hr'). exists n', a'.
      split_and!; [done|set_solver|]. intros r Hin'. specialize (Hr' r Hin'). set_solver.
  - intros a' [Hin| ->%list_elem_of_singleton]%elem_of_app.
    + destruct (Ha a' Hin) as [? ?]. split; [set_solver|done].
    + rewrite Hpath. split; [set_solver|by exists n].
  - rewrite fmap_app. apply NoDup_app. split_and!; [done| |apply NoDup_singleton].
    intros p (a' & -> & Hin)%list_elem_of_fmap Hp. simpl in Hp. apply list_elem_of_singleton in Hp.
    apply Ha in Hin as [Hin _]. rewrite Hp, Hpath in Hin. done.
  - rewrite fmap_app, sum_Z_app, Hf. simpl. lia.
  - rewrite fmap_app, sum_Z_app, Hnar. simpl. lia.
  - intros Hin. case_bool_decide as Hc; [exists (n, a); split; [done|by rewrite <-Hc, Hpath]|].
    apply Hroot. set_solver.
Qed.

(** What the records not visited yet can still add to the queue. *)
Definition unread (w : Walk) : nat :=
  sum_list_with (λ kv, if bool_decide (kv.1 ∈ cm_narinfo_path <$> wk_artifacts w)
                       then 0%nat else entry_references kv.2) (map_to_list (cf_root files)).

Lemma unread_push path queue w w' n a :
  path ∉ wk_visited w → verified path n a → walk_ok (path :: queue) w →
  walk_push root (n, a) ({[path]} ∪ wk_visited w) w = Ok w' →
  (unread w' + length (cm_references a) ≤ unread w)%nat.
Proof.
  intros Hnew Hver Hok (-> & _ & _)%walk_push_Ok.
  assert (cm_narinfo_path a ∉ cm_narinfo_path <$> wk_artifacts w) as Hfresh.
  { intros (a' & Heq & Hin)%list_elem_of_fmap.
    destruct (wo_artifacts _ _ Hok a' Hin) as [Hvis (n' & Hver')].
    rewrite <-(verified_filename _ _ _ _ _ _ Hver Hver' Heq) in Hvis. done. }
  destruct Hver as (f & _ & Hm). rewrite (mo_artifact _ _ _ _ Hm) in *. simpl in *.
  destruct (mo_raw _ _ _ _ Hm) as (raw & n0 & Hraw & Hparse & ->). simpl.
  assert (cf_root files !! f = Some (CacheFile raw)) as He.
  { unfold read_safe_narinfo in Hraw. destruct (_ || _); [done|].
    destruct (cf_root files !! f) as [[c|l|]|]; [|done..].
    destruct (_ <? _); [done|]. destruct (valid_utf8 c); [|done]. congruence. }
  unfold unread. apply sum_list_with_drop with (f, CacheFile raw); simpl.
  - by apply elem_of_map_to_list.
  - intros [name e]. simpl. rewrite fmap_app. repeat case_bool_decide; set_solver by lia.
  - rewrite fmap_app. simpl. rewrite bool_decide_true by set_solver.
    rewrite bool_decide_false by done. rewrite Hparse. simpl.
    pose proof (sorted_set_length (ni_references n0)). lia.
Qed.

(** Why a walk fails: a member of the closure does not verify, or the sizes of
    different members of it add up to more than a [u64]. *)
Definition unverifiable (path : string) : Prop := ∀ n a, ¬ verified path n a.
Definition too_big : Prop := ∃ l : list ClosureManifestArtifact,
  NoDup (cm_store_path <$> l) ∧
  Forall (λ a, closure root (cm_store_path a) ∧ ∃ n, verified (cm_store_path a) n a) l ∧
  (u64_max < sum_Z (cm_file_size_bytes <$> l) ∨ u64_max < sum_Z (cm_nar_size_bytes <$> l)).

Lemma verified_sizes path n a :
  verified path n a → 0 < cm_file_size_bytes a ∧ 0 < cm_nar_size_bytes a.
Proof.
  intros (f & _ & Hm). rewrite (mo_artifact _ _ _ _ Hm). simpl.
  destruct (mo_bytes _ _ _ _ Hm) as (c & _ & _ & ? & _), (mo_nar _ _ _ _ Hm). done.
Qed.

Lemma walk_push_Err path queue w n a e :
  path ∉ wk_visited w → verified path n a → walk_ok (path :: queue) w →
  walk_push root (n, a) ({[path]} ∪ wk_visited w) w = Err e → too_big.
Proof.
  intros Hnew Hver Hok Hpush. pose proof (verified_path _ _ _ Hver) as Hpath.
  pose proof (verified_sizes _ _ _ Hver) as [Hsf Hsn].
  exists (wk_artifacts w ++ [a]). destruct Hok as [Hs Hr Hv Ha Hn [Hf Hfb] [Hnar Hnb] Hroot].
  split_and!.
  - rewrite fmap_app. apply NoDup_app. split_and!; [done| |apply NoDup_singleton].
    intros p (a' & -> & Hin)%list_elem_of_fmap Hp. simpl in Hp. apply list_elem_of_singleton in Hp.
    apply Ha in Hin as [Hin _]. rewrite Hp, Hpath in Hin. done.
  - apply Forall_app. split; [|constructor; [|done]].
    + apply Forall_forall. intros a' Hin. destruct (Ha a' Hin) as [? ?]. split; [auto|done].
    + rewrite Hpath. split; [apply Hs; set_solver|by exists n].
  - rewrite !fmap_app, !sum_Z_app, <-Hf, <-Hnar. simpl.
    unfold walk_push, try_unsigned in Hpush. simpl in Hpush.
    destruct (in_range 0 u64_max (wk_total_file w + cm_file_size_bytes a)) eqn:Ef; simpl in Hpush.
    + destruct (in_range 0 u64_max (wk_total_nar w + cm_nar_size_bytes a)) eqn:En; [done|].
      right. destruct (decide (wk_total_nar w + cm_nar_size_bytes a ≤ u64_max)); [|lia].
      rewrite (proj2 (in_range_true _ _ _)) in En; [done|lia].
    + left. destruct (decide (wk_total_file w + cm_file_size_bytes a ≤ u64_max)); [|lia].
      rewrite (proj2 (in_range_true _ _ _)) in Ef; [done|lia].
Qed.

(** The narinfo files of the closure. *)
Definition closure_file (filename : string) : Prop :=
  ∃ path, closure root path ∧ narinfo_filename_for_store_path path = Ok filename.

(** A file of [nar/] whose bytes are not those its name promises. *)
Definition corrupt_nar (filename : string) : Prop :=
  ∃ nar contents hash rest expected, cf_nar files = Some nar ∧
    nar !! filename = Some (CacheFile contents) ∧ split_once_str ".nar" filename = Some (hash, rest) ∧
    decode_nix_base32_sha256 hash = Ok expected ∧ sha256 contents ≠ expected.

Definition error_ok (e : ManifestError) : Prop :=
  match e with InvalidCachedNar _ (Some filename) => corrupt_nar filename | _ => True end.

Lemma lift_error_ok {A} (r : result string A) e : lift r = Err e → error_ok e.
Proof. destruct r; [done|]. by intros [= <-]. Qed.

Lemma ok_or_error_ok {A} message (o : option A) e :
  ok_or (ManifestFailed message) o = Err e → error_ok e.
Proof. destruct o; [done|]. by intros [= <-]. Qed.

Lemma verify_member_error path filename e :
  verify_member sha256 files key path filename = Err e → error_ok e.
Proof.
  unfold verify_member. intros H.
  repeat match type of H with
  | rbind (lift _) _ = Err _ =>
      apply rbind_Err in H as [H|(? & ? & H)]; [by eapply lift_error_ok|]; cbv beta zeta in H
  | rbind (ok_or _ _) _ = Err _ =>
      apply rbind_Err in H as [H|(? & ? & H)];
      [by eapply ok_or_error_ok|]; cbv beta zeta in H
  | (if ?b then Err (ManifestFailed _) else _) = Err _ => destruct b; [by injection H as <-|]
  end.
  destruct (_ || _) eqn:Hb in H; [|done].
  apply rbind_Err in H as [H|(nar & Hnar & H)]; [by eapply lift_error_ok|].
  injection H as <-. apply lift_Ok in Hnar. unfold invalid_nar, error_ok. simpl.
  match goal with Hh : lift (hash_safe_cache_member _ _ _) = Ok ?m |- _ => 
    destruct m as [size digest]; apply lift_Ok, hash_member_Ok in Hh
      as (contents & (fname & dir & Hf & Hdir & Hc) & -> & ->) end.
  simpl in *. rewrite Hnar in Hf. injection Hf as <-.
  destruct (split_once_str ".nar" nar) as [[hash rest]|] eqn:Es; [|by rewrite andb_false_r].
  destruct (_ && _) eqn:E; [|done]. apply andb_true_iff in E as [E1 E2].
  apply negb_true_iff, bool_decide_eq_false in E1. apply bool_decide_eq_true in E2.
  destruct (decode_nix_base32_sha256 hash) as [d|] eqn:Ed; [|done]. injection E2 as ->.
  by repeat eexists.
Qed.

Definition outcome_ok (res : result ManifestError Walk) : Prop :=
  match res with
  | Ok w => walk_ok [] w
  | Err e => error_ok e ∧ ((∃ path, closure root path ∧ unverifiable path) ∨ too_big)
  end.

Lemma walk_closure_spec fuel queue w inspected :
  walk_ok queue w → (length queue + unread w < fuel)%nat →
  ∃ res more, walk_closure sha256 fuel files key root queue w inspected
      = Some (res, inspected ++ more) ∧
    outcome_ok res ∧ Forall closure_file more.
Proof.
  revert queue w inspected. induction fuel as [|fuel IH]; intros queue w inspected Hok Hfuel; [lia|].
  destruct queue as [|path queue]; simpl in Hfuel |- *.
  { exists (Ok w), []. by rewrite app_nil_r. }
  assert (closure root path) as Hcl by (apply (wo_sound _ _ Hok); set_solver).
  assert (∀ e, error_ok e → unverifiable path →
    outcome_ok (Err e)) as Hfail by (intros e He Hu; split; [done|left; eauto]).
  destruct (lift (validate_store_path path)) as [x|e] eqn:Ev.
  2: { exists (Err e), []. rewrite app_nil_r. split_and!; [done| |done].
       apply Hfail; [by eapply lift_error_ok|]. intros n a (f & _ & Hm).
       rewrite (mo_valid _ _ _ _ Hm) in Ev. done. }
  case_bool_decide as Hvis.
  { apply IH; [by eapply walk_ok_skip|lia]. }
  destruct (lift (narinfo_filename_for_store_path path)) as [f|e] eqn:Ef.
  2: { exists (Err e), []. rewrite app_nil_r. split_and!; [done| |done].
       apply Hfail; [by eapply lift_error_ok|]. intros n a (f & Hf & Hm). by rewrite Hf in Ef. }
  apply lift_Ok in Ef.
  assert (closure_file f) as Hcf by by exists path.
  destruct (verify_member sha256 files key path f) as [[n a]|e] eqn:Em.
  2: { exists (Err e), [f]. split_and!; [done| |by constructor].
       apply Hfail; [by eapply verify_member_error|].
       intros n a (f' & Hf & Hm%verify_member_Ok). rewrite Hf in Ef. injection Ef as ->. congruence. }
  assert (verified path n a) as Hver by (exists f; split; [done|by apply verify_member_Ok]).
  destruct (walk_push root (n, a) _ w) as [w'|e] eqn:Ep.
  2: { exists (Err e), [f]. split_and!; [done| |by constructor].
       split; [|right; by eapply walk_push_Err].
       unfold walk_push in Ep. apply rbind_Err in Ep as [Ep|(? & _ & Ep)]; [by eapply ok_or_error_ok|].
       apply rbind_Err in Ep as [Ep|(? & _ & Ep)]; [by eapply ok_or_error_ok|done]. }
  pose proof (unread_push path queue w w' n a Hvis Hver Hok Ep) as Hun.
  edestruct (IH (queue ++ List.filter (λ r, bool_decide (r ∉ {[path]} ∪ wk_visited w))
                            (cm_references a)) w' (inspected ++ [f]))
    as (res & more & Heq & Hres & Hmore).
  - by eapply walk_ok_push.
  - rewrite length_app.
    pose proof (filter_length_le (λ r, bool_decide (r ∉ {[path]} ∪ wk_visited w)) (cm_references a)).
    lia.
  - exists res, (f :: more). cbn [snd]. rewrite Heq, <-app_assoc. split_and!; [done..|by constructor].
Qed.

End Walk.

Lemma unread_start :
  unread walk_start = sum_list_with (λ kv, entry_references kv.2) (map_to_list (cf_root files)).
Proof.
  unfold unread, walk_start. cbn [wk_artifacts].
  induction (map_to_list (cf_root files)) as [|[name e] l IH]; [done|].
  cbn [sum_list_with fst snd]. rewrite IH, bool_decide_false; [done|]. simpl. set_solver.
Qed.

Lemma walk_from_root root :
  ∃ res inspected, walk_closure sha256 (walk_fuel files) files key root [root] walk_start []
      = Some (res, inspected) ∧ outcome_ok root res ∧ Forall (closure_file root) inspected.
Proof.
  destruct (walk_closure_spec root (walk_fuel files) [root] walk_start [])
    as (res & more & Heq & Hres & Hmore); [apply walk_ok_start| |by exists res, more].
  rewrite unread_start. unfold walk_fuel. simpl. lia.
Qed.

(** The first file inspected is that of the root. *)
Lemma walk_head fuel root queue w inspected res inspected' :
  walk_closure sha256 fuel files key root queue w inspected = Some (res, inspected') →
  ∃ more, inspected' = inspected ++ more.
Proof.
  revert queue w inspected. induction fuel as [|fuel IH]; intros queue w inspected; [done|].
  destruct queue as [|path queue]; simpl; [intros [= <- <-]; exists []; by rewrite app_nil_r|].
  destruct (lift (validate_store_path path)) as [u|]; [|intros [= <- <-]; exists []; by rewrite app_nil_r].
  case_bool_decide; [apply IH|].
  destruct (lift (narinfo_filename_for_store_path path)) as [f|];
    [|intros [= <- <-]; exists []; by rewrite app_nil_r].
  destruct (verify_member _ _ _ _ _) as [[n a]|]; [|intros [= <- <-]; by exists [f]].
  destruct (walk_push _ _ _ _); [|intros [= <- <-]; by exists [f]].
  intros (more & ->)%IH. exists (f :: more). by rewrite <-app_assoc.
Qed.

Lemma inspected_root root res inspected filename :
  validate_store_path root = Ok tt → narinfo_filename_for_store_path root = Ok filename →
  walk_closure sha256 (walk_fuel files) files key root [root] walk_start [] = Some (res, inspected) →
  head inspected = Some filename.
Proof.
  intros Hv Hf. assert (∃ k, walk_fuel files = S k) as [k ->] by (unfold walk_fuel; by eexists).
  simpl. rewrite Hv, Hf. simpl.
  rewrite bool_decide_false by set_solver.
  destruct (verify_member _ _ _ _ _) as [[n a]|]; [|by intros [= <- <-]].
  destruct (walk_push _ _ _ _); [|by intros [= <- <-]].
  by intros (more & ->)%walk_head.
Qed.

Definition artifacts_of (v : VerifiedClosureManifest) : option (list Value) :=
  x ← get "artifacts" (vc_manifest v); as_array x.

(** C28. A manifest that was built describes exactly the closure of its root: its
    artifacts are the members, each once and in order, each with a record signed
    by the trusted key that is true of the bytes it names; the totals it states of
    their files and of their NARs, and the total that is handed on beside it, are the
    sums over the members; and it names the root and the derivation it was asked for. *)
Theorem closure_manifest_is_exact cache_root root derivation v inspected :
  build_closure_manifest sha256 files cache_root root derivation key = (Ok v, inspected) →
  ∃ l root_artifact, artifacts_of v = Some (artifact_value <$> l) ∧
    get "artifact_count" (vc_manifest v) = Some (Num (PosInt (Z.of_nat (length l)))) ∧
    StronglySorted artifact_le l ∧ NoDup (cm_store_path <$> l) ∧
    (∀ path, path ∈ cm_store_path <$> l ↔ closure root path) ∧
    Forall (λ a, ∃ n, verified (cm_store_path a) n a) l ∧
    vc_total_file_size_bytes v = sum_Z (cm_file_size_bytes <$> l) ∧
    get "total_file_size_bytes" (vc_manifest v) = Some (Num (PosInt (sum_Z (cm_file_size_bytes <$> l)))) ∧
    get "total_nar_size_bytes" (vc_manifest v) = Some (Num (PosInt (sum_Z (cm_nar_size_bytes <$> l)))) ∧
    get "root_store_path" (vc_manifest v) = Some (Str root) ∧
    get "evaluated_derivation" (vc_manifest v) = Some (match derivation with Some d => Str d | None => Null end) ∧
    verified root (vc_root_narinfo v) root_artifact.
Proof.
  unfold build_closure_manifest. destruct (rbind _ _) as [x|e]; [|done].
  destruct (walk_from_root root) as (res & insp & -> & Hres & _). destruct res as [w|e]; [|done].
  intros [Hfin ->]%pair_eq. unfold finish_manifest in Hfin.
  destruct (validate_cache_metadata _) as [u|]; [|done].
  apply rbind_Ok in Hfin as ([n a] & Hroot%ok_or_Ok & Hfin).
  apply rbind_Ok in Hfin as (nar & _ & [= <-]).
  pose proof (merge_sort_Permutation artifact_le (wk_artifacts w)) as Hperm.
  set (l := merge_sort artifact_le (wk_artifacts w)) in *.
  destruct Hres as [Hs Hr Hv Ha Hn [Hf _] [Hnar _] Hfound].
  assert (∀ p, closure root p → p ∈ wk_visited w) as Hclosed.
  { induction 1 as [|p n' a' r _ IHp Hver Hin].
    - by destruct Hr as [?|?%not_elem_of_nil].
    - destruct (Hv p IHp) as (n'' & a'' & Hver' & _ & Hrefs).
      destruct (verified_fun _ _ _ _ _ Hver Hver') as [_ ->].
      by destruct (Hrefs r Hin) as [?|?%not_elem_of_nil]. }
  exists l, a. split_and!.
  - done.
  - done.
  - apply (StronglySorted_merge_sort artifact_le).
  - by rewrite Hperm.
  - intros p. rewrite Hperm. split.
    + intros (a' & -> & Hin)%list_elem_of_fmap. apply Hs. left. by apply Ha.
    + intros Hp%Hclosed. destruct (Hv p Hp) as (n' & a' & Hver & Hin & _).
      rewrite <-(verified_path _ _ _ Hver). by apply list_elem_of_fmap_2.
  - rewrite Hperm. apply Forall_forall. intros a' Hin. by apply Ha.
  - simpl. rewrite Hf. apply sum_Z_Permutation. by rewrite Hperm.
  - rewrite (sum_Z_Permutation _ (cm_file_size_bytes <$> wk_artifacts w)), <-Hf by by rewrite Hperm. done.
  - rewrite (sum_Z_Permutation _ (cm_nar_size_bytes <$> wk_artifacts w)), <-Hnar by by rewrite Hperm. done.
  - done.
  - done.
  - destruct Hfound as (m & Hm & Hver); [apply Hclosed; constructor|]. simpl.
    rewrite Hroot in Hm. by injection Hm as <-.
Qed.

(** C29. Whatever the cache holds, building a manifest returns; it fails only for a
    path or derivation that is not one, a member of the closure that does not
    verify, totals beyond a [u64], or texts the protected material boundary
    refuses. *)
Theorem closure_manifest_fails_with_cause cache_root root derivation e inspected :
  build_closure_manifest sha256 files cache_root root derivation key = (Err e, inspected) →
  validate_store_path root ≠ Ok tt ∨ validate_derivation derivation ≠ Ok tt ∨
  (∃ path, closure root path ∧ unverifiable path) ∨ too_big root ∨
  (∃ w, walk_ok root [] w ∧
     is_ok (validate_cache_metadata (Object (manifest_fields root derivation w))) = false).
Proof.
  unfold build_closure_manifest.
  destruct (validate_store_path root) as [[]|] eqn:Ev; [|by left]. cbn [lift map_err rbind].
  destruct (validate_derivation derivation) as [[]|] eqn:Ed; [|by right; left].
  destruct (walk_from_root root) as (res & insp & -> & Hres & _). destruct res as [w|e'].
  - intros [Hfin _]%pair_eq. unfold finish_manifest in Hfin.
    destruct (validate_cache_metadata _) as [u|] eqn:Em;
      [|do 4 right; exists w; split; [done|by rewrite Em]].
    exfalso. destruct (wo_found _ _ _ Hres) as ((n & a) & Hm & (f & Hf & Hver)).
    { by destruct (wo_root _ _ _ Hres) as [?|?%not_elem_of_nil]. }
    rewrite Hm in Hfin. simpl in Hfin, Hver. rewrite (mo_artifact _ _ _ _ Hver) in Hfin.
    simpl in Hfin.
    destruct (mo_bytes _ _ _ _ Hver) as (c & (nar & dir & Hnar & _) & _).
    by rewrite Hnar in Hfin.
  - intros _. destruct Hres as [_ [?|?]]; [by right; right; left|by do 3 right; left].
Qed.

End Manifest.
