(* ===== verification/ClosureTheorems.v ===== *)
(** * Closures survive the sweep

    Retention and verification meet here: the sweep follows the text of narinfo
    files, verification the parsed and signed records.  For records as Nix writes
    them a closure that verified before a sweep verifies after it with the same
    manifest, as long as its root is retained.  A failed verification withdraws
    records of that closure only. *)

From stdpp Require Import sorting base gmap list strings.
From Stdlib Require Import Ascii ZArith Lia.
From S2P Require Import Prelude RustStr RustText DbText DbTextProofs Json Assets AssetsProofs NixBase32 NarInfo ProtectedText ProtectedMaterial CacheSweep CacheSweepProofs NarInfoProofs ClosureManifest ClosureManifestProofs.

#[local] Open Scope Z_scope.
#[local] Open Scope nest_scope.

Lemma read_safe_narinfo_Ok files filename raw :
  read_safe_narinfo files filename = Ok raw ↔
  contains "/" filename || contains "\" filename || negb (ends_with ".narinfo" filename) = false ∧
  cf_root files !! filename = Some (CacheFile raw) ∧ len raw ≤ MAX_NARINFO_BYTES ∧
  valid_utf8 raw = true.
Proof.
  unfold read_safe_narinfo. destruct (_ || _); [by split; [|intros []]|].
  destruct (cf_root files !! filename) as [[c|l|]|];
    [|by split; [|intros (_ & [=] & _)]..].
  destruct (Z.ltb_spec MAX_NARINFO_BYTES (len c)).
  - split; [done|]. intros (_ & [= ->] & Hle & _). lia.
  - destruct (valid_utf8 c) eqn:E.
    + split; [by intros [= ->]|]. by intros (_ & [= ->] & _).
    + split; [done|]. intros (_ & [= ->] & _ & Hu). congruence.
Qed.

Lemma nar_char_ascii a : nar_char a = true → ascii_byte a = true.
Proof.
  unfold nar_char. intros [H|H]%orb_true_iff; apply Z.ltb_lt.
  - unfold is_alnum, is_digit, is_lower, is_upper, in_range in H. bool_prop; lia.
  - apply byte_in_true in H. simpl in H. repeat (destruct H as [<-|H]; [done|]). done.
Qed.

Section Closure.
Context {serde : Serde} {ed25519 : Ed25519} {deps : ProtectedDeps} (sha256 : string → Digest).
Context (io : SweepIo) (lists : io_lists io).
Context (cache_root : string) (retained : list RetainedArtifactFiles) (extra_roots : list string).
Context (key : string).

Abbreviation roots := (retained_roots retained extra_roots).

Definition all_nix_written (files : CacheFiles) : Prop :=
  ∀ name raw, cf_root files !! name = Some (CacheFile raw) → nix_written raw.

(** The sweep is told to keep this store path. *)
Definition kept_root (root : string) : Prop :=
  root ∈ rt_store_path <$> retained ∨ root ∈ extra_roots.

Lemma kept_root_hash root hash name :
  kept_root root → store_path_of root hash name → hash ∈ roots.
Proof.
  intros Hk Hp. pose proof (store_path_hash_path _ _ _ Hp) as Hh. unfold retained_roots.
  apply elem_of_app. destruct Hk as [(a & -> & Ha)%list_elem_of_fmap|Hk]; [left|right];
    apply list_elem_of_omap; eauto.
Qed.

(** The record and the NAR of a member, as the marking loop sees them. *)
Lemma member_files files path hash name n a :
  store_path_of path hash name → verified sha256 files key path n a →
  ∃ raw n0, cf_root files !! narinfo_name hash = Some (CacheFile raw) ∧
    (∀ io, io_reads io → read_to_string io files (narinfo_name hash) = Some raw) ∧ parse_narinfo_strict raw = Ok n0 ∧
    ni_url n = ni_url n0 ∧ (∀ r, r ∈ cm_references a ↔ r ∈ ni_references n0).
Proof.
  intros Hp (f & Hf & Hm). rewrite (narinfo_filename_path _ _ _ Hp) in Hf. injection Hf as <-.
  destruct (mo_raw _ _ _ _ _ _ _ Hm) as (raw & n0 & Hraw & Hparse & ->).
  apply read_safe_narinfo_Ok in Hraw as (_ & Hin & _ & Hutf8). exists raw, n0.
  split_and!; [done| |done..|].
  - intros io' Hr. unfold read_to_string. by rewrite Hr, Hin, Hutf8.
  - intros r. rewrite (mo_artifact _ _ _ _ _ _ _ Hm). simpl. apply sorted_set_elem.
Qed.

Lemma closure_reachable files root path :
  io_reads io → all_nix_written files → kept_root root → closure sha256 files key root path →
  ∀ hash name, store_path_of path hash name → reachable io files roots hash.
Proof.
  intros Hr0 Hnix Hk. induction 1 as [|path n a r Hcl IH Hver Hr]; intros hash name Hp.
  { apply reachable_root. by eapply kept_root_hash. }
  destruct (proj1 (validate_store_path_Ok path)) as (h & m & Hpath).
  { destruct Hver as (f & _ & Hm). apply (mo_valid _ _ _ _ _ _ _ Hm). }
  destruct (member_files _ _ _ _ _ _ Hpath Hver) as (raw & n0 & Hin & Hread & Hparse & _ & Hrefs).
  destruct (parsed_reference_marked raw n0 r hash name) as (v & Hv & Hh);
    [by eapply Hnix|done|by apply Hrefs|done|].
  apply (reachable_step io files roots h raw hash); [by eapply IH|by apply Hread|].
  unfold refers. apply Exists_exists. exists (REFERENCES +:+ v). split; [done|].
  unfold line_refers. by rewrite mention_references.
Qed.

(** Whatever the sweep did, the members of a retained closure are as they were. *)
Lemma sweep_keeps_member files files' res root path n a :
  sweep_unreachable_blocking io cache_root retained extra_roots files = (res, files') →
  io_reads io → all_nix_written files → kept_root root → closure sha256 files key root path →
  verified sha256 files key path n a → verified sha256 files' key path n a.
Proof.
  intros Hsweep Hr0 Hnix Hk Hcl Hver.
  pose proof (sweep_spec io lists cache_root retained extra_roots files) as Hspec.
  rewrite Hsweep in Hspec. destruct Hspec as ((_ & Hroot & _) & Hsome & _ & (_ & Hnar & _) & _).
  destruct (proj1 (validate_store_path_Ok path)) as (h & m & Hpath).
  { destruct Hver as (f & _ & Hm). apply (mo_valid _ _ _ _ _ _ _ Hm). }
  pose proof (closure_reachable _ _ _ Hr0 Hnix Hk Hcl _ _ Hpath) as Hreach.
  destruct (member_files _ _ _ _ _ _ Hpath Hver) as (raw & n0 & Hin & Hread & Hparse & Hurl & _).
  destruct Hver as (f & Hf & Hm). exists f. split; [done|].
  rewrite (narinfo_filename_path _ _ _ Hpath) in Hf. injection Hf as <-.
  destruct Hm as [(raw' & n1 & Hraw & Hp1 & Hn1) H1 H2 H3 H4 (c & (fn & d & Hfn & Hd & Hc) & Hrest) H5 H6 H7].
  split; [| | | | | | | |]; try done.
  - exists raw', n1. split_and!; [|done..].
    apply read_safe_narinfo_Ok in Hraw as (Hs & Hr & Hl & Hu). apply read_safe_narinfo_Ok.
    split_and!; [done| |done..]. apply Hroot; [done|].
    intros (_ & c' & stem & _ & _ & Hstem & Hnot & _). apply Hnot.
    apply strip_suffix_Some in Hstem. unfold narinfo_name in Hstem.
    assert (stem = h) as -> by (by apply narinfo_name_inj).
    rewrite to_ascii_lowercase_id; [done|].
    apply all_bytes_impl with (byte_in NIX_BASE32_ALPHABET); [|apply Hpath].
    intros b Hb. by rewrite (proj2 (base32_alnum b Hb)).
  - exists c. split; [|done]. unfold nar_dir in Hnar at 1. rewrite Hd in Hnar. simpl in Hnar.
    destruct (cf_nar files') as [d'|] eqn:Ed'; [|apply proj1 in Hsome; rewrite Hd in Hsome; by destruct Hsome].
    exists fn, d'. split_and!; [done..|]. unfold nar_dir in Hnar. rewrite Ed' in Hnar. simpl in Hnar. apply Hnar; [done|].
    intros (_ & c' & _ & _ & Hnot & _). apply Hnot. rewrite Hurl in Hfn.
    destruct (parsed_url_marked raw n0 fn Hparse Hfn) as (v & Hv & Htrim & Hchars).
    assert (of_bytes (utf8_lossy (bytes fn)) = fn) as ->.
    { rewrite utf8_lossy_ascii, of_bytes_bytes; [done|]. apply ascii_text_list.
      by eapply all_bytes_impl; [apply nar_char_ascii|]. }
    exists h, raw. split_and!; [done|by apply Hread|]. unfold names_url. apply Exists_exists.
    exists (URL +:+ v). split; [done|]. unfold line_names. by rewrite mention_url.
Qed.

(** ** The same walk *)

Lemma walk_more fuel fuel' files root queue w inspected r :
  walk_closure sha256 fuel files key root queue w inspected = Some r → (fuel ≤ fuel')%nat →
  walk_closure sha256 fuel' files key root queue w inspected = Some r.
Proof.
  revert fuel' queue w inspected.
  induction fuel as [|fuel IH]; intros [|fuel'] queue w inspected H Hle; [done..|lia|].
  simpl in *. destruct queue as [|path queue]; [done|].
  destruct (lift (validate_store_path path)) as [u|]; [|done].
  case_bool_decide; [apply IH; [done|lia]|].
  destruct (lift (narinfo_filename_for_store_path path)) as [f|]; [|done].
  destruct (verify_member _ _ _ _ _) as [m|]; [|done].
  destruct (walk_push _ _ _ _) as [w'|]; [|done]. apply IH; [done|lia].
Qed.

Lemma walk_same files files' fuel root queue w inspected w' inspected' :
  (∀ path n a, closure sha256 files key root path → verified sha256 files key path n a →
     verified sha256 files' key path n a) →
  walk_ok sha256 files key root queue w →
  walk_closure sha256 fuel files key root queue w inspected = Some (Ok w', inspected') →
  walk_closure sha256 fuel files' key root queue w inspected = Some (Ok w', inspected').
Proof.
  intros Hkeep. revert queue w inspected.
  induction fuel as [|fuel IH]; intros queue w inspected Hok H; [done|].
  destruct queue as [|path queue]; simpl in *; [done|].
  destruct (lift (validate_store_path path)) as [u|]; [|done].
  case_bool_decide as Hvis; [apply IH; [by eapply walk_ok_skip|done]|].
  destruct (lift (narinfo_filename_for_store_path path)) as [f|] eqn:Ef; [|done].
  apply lift_Ok in Ef.
  destruct (verify_member sha256 files key path f) as [[n a]|] eqn:Em; [|done].
  assert (verified sha256 files key path n a) as Hver
    by (exists f; split; [done|by apply verify_member_Ok]).
  assert (closure sha256 files key root path) as Hcl by (apply (wo_sound _ _ _ _ _ _ Hok); set_solver).
  destruct (Hkeep _ _ _ Hcl Hver) as (f' & Hf' & Hm'). rewrite Ef in Hf'. injection Hf' as <-.
  apply verify_member_Ok in Hm'. rewrite Hm'.
  destruct (walk_push _ _ _ _) as [w1|] eqn:Ep; [|done].
  apply IH; [by eapply walk_ok_push|done].
Qed.

Lemma sweep_keeps_closures files files' res root derivation v inspected :
  sweep_unreachable_blocking io cache_root retained extra_roots files = (res, files') →
  io_reads io → all_nix_written files → kept_root root →
  build_closure_manifest sha256 files cache_root root derivation key = (Ok v, inspected) →
  build_closure_manifest sha256 files' cache_root root derivation key = (Ok v, inspected).
Proof.
  intros Hsweep Hr0 Hnix Hk. unfold build_closure_manifest. destruct (rbind _ _) as [u|]; [|done].
  destruct (walk_from_root sha256 files key root) as (r & insp & Hr & _).
  destruct (walk_from_root sha256 files' key root) as (r' & insp' & Hr' & _).
  rewrite Hr, Hr'. destruct r as [w|e]; [|done]. intros H.
  assert (walk_closure sha256 (walk_fuel files) files' key root [root] walk_start []
          = Some (Ok w, insp)) as Hsame.
  { eapply walk_same; [|apply walk_ok_start|done]. intros path n a Hcl Hver.
    by eapply sweep_keeps_member. }
  apply (walk_more _ (walk_fuel files `max` walk_fuel files')) in Hsame, Hr'; [|lia..].
  rewrite Hsame in Hr'. by injection Hr' as <- <-.
Qed.

(** C31. A closure that verifies and whose root is retained verifies after a sweep
    with the same manifest, also when the sweep stopped at a file it could not remove or
    was not shown every file, provided that the narinfo files of the cache are written as
    Nix writes them (ASCII text that names its references by their base names; the sweep
    does not follow a reference written as an absolute path, which the reader of closures
    does) and that the sweep can read them. *)
Theorem sweep_keeps_verified_closures files files' res root derivation v inspected :
  sweep_unreachable_blocking io cache_root retained extra_roots files = (res, files') →
  io_reads io → all_nix_written files → kept_root root →
  build_closure_manifest sha256 files cache_root root derivation key = (Ok v, inspected) →
  build_closure_manifest sha256 files' cache_root root derivation key = (Ok v, inspected).
Proof. apply sweep_keeps_closures. Qed.

End Closure.

(** ** Withdrawing records *)

Lemma first_occurrences_spec seen l x : x ∈ first_occurrences seen l ↔ x ∈ l ∧ x ∉ seen.
Proof.
  revert seen. induction l as [|y l IH]; intros seen; simpl; [set_solver|].
  case_bool_decide as Hy; [rewrite IH; set_solver|].
  rewrite elem_of_cons, IH. destruct (decide (x = y)); set_solver.
Qed.

Section Quarantine.
Context (i : QuarantineInput).

(** The hidden name is fresh. *)
Definition fresh_hidden (s : CacheStore) : Prop :=
  ∀ name hidden, q_outcome i name = ArchiveFails hidden → cf_root (cs_files s) !! hidden = None.

Lemma quarantine_each_spec names moved s :
  fresh_hidden s → NoDup names →
  let '(res, s') := quarantine_each i names moved s in
  cf_nar (cs_files s') = cf_nar (cs_files s) ∧
  (∀ name e, name ∉ names → cf_root (cs_files s) !! name = Some e →
     cf_root (cs_files s') !! name = Some e) ∧
  (is_ok res = true → ∀ name, name ∈ names → cf_root (cs_files s') !! name = None) ∧
  (is_ok res = true → ∀ name, cf_root (cs_files s) !! name = None →
     cf_root (cs_files s') !! name = None).
Proof.
  intros Hfresh Hnd. revert moved s Hfresh.
  induction Hnd as [|name names Hn Hnd IH]; intros moved s Hfresh; simpl.
  { split_and!; [done..|set_solver|done]. }
  destruct (cf_root (cs_files s) !! name) as [e|] eqn:He; [|done].
  destruct (q_outcome i name) as [| |hidden] eqn:Ho; simpl; [|done|].
  - specialize (IH (S moved) (archive name e (with_root (delete name) s))).
    destruct (quarantine_each _ _ _ _) as [res s']. simpl in IH.
    destruct IH as (Hnar & Hkeep & Hgone & Hnone).
    { intros n' h' Hh. simpl. apply lookup_delete_None. right. by eapply Hfresh. }
    split_and!; [done| | |].
    + intros n' e' Hn' He'. apply Hkeep; [set_solver|]. rewrite lookup_delete_ne; set_solver.
    + intros Hok n' [->|Hn']%elem_of_cons; [|by apply Hgone].
      apply Hnone; [done|]. apply lookup_delete_eq.
    + intros Hok n' Hn'. apply Hnone; [done|]. apply lookup_delete_None. by right.
  - split_and!; [done| |done..]. intros n' e' Hn' He'.
    pose proof (Hfresh name hidden Ho) as Hh.
    rewrite lookup_insert_ne by congruence. rewrite lookup_delete_ne; set_solver.
Qed.

End Quarantine.

(** A plain name directly below an absolute cache root. *)
Definition plain_name (name : string) : Prop :=
  any_byte (Ascii.eqb "/") name = false ∧ ends_with ".narinfo" name = true ∧ valid_utf8 name = true.

Lemma components_member cache_root name :
  is_absolute cache_root = true → plain_name name →
  components (cache_root +:+ "/" +:+ name) = components cache_root ++ [Normal name].
Proof.
  intros Habs (Hs & Hsuf & _). unfold components.
  change (cache_root +:+ "/" +:+ name) with (cache_root +:+ String "/" name).
  assert (is_absolute (cache_root +:+ String "/" name) = true) as ->.
  { unfold is_absolute in *. apply starts_with_true in Habs as [t ->]. apply starts_with_true.
    exists (t +:+ String "/" name). by rewrite str_app_assoc. }
  rewrite Habs, split_join_bytes, (split_no_byte "/" name), omap_app by done. rewrite app_assoc. f_equal. simpl.
  assert (piece_component name = Some (Normal name)) as ->; [|done].
  unfold piece_component. rewrite !bool_decide_false; [done|..]; intros ->; by vm_compute in Hsuf.
Qed.

Lemma root_member_plain cache_root name :
  is_absolute cache_root = true → plain_name name →
  root_member cache_root (cache_root +:+ "/" +:+ name) = Some name.
Proof.
  intros Habs Hp. unfold root_member, file_name. rewrite components_member by done.
  rewrite last_snoc. destruct Hp as (Hs & -> & ->).
  by rewrite bool_decide_true, contains_byte, Hs.
Qed.

Lemma narinfo_filename_plain path filename :
  narinfo_filename_for_store_path path = Ok filename → plain_name filename.
Proof.
  unfold narinfo_filename_for_store_path. intros (n & _ & H)%rbind_Ok.
  destruct (split_once "-" n) as [[hash rest]|]; [|done].
  destruct (_ || _) eqn:Hb; [done|]. injection H as <-.
  apply orb_false_iff in Hb as [_ Hb]. apply negb_false_iff in Hb. unfold plain_name. split_and!.
  - rewrite any_byte_app. apply orb_false_iff. split; [|done].
    apply not_true_iff_false. unfold any_byte. rewrite existsb_exists.
    intros (a & Hin & <-%Ascii.eqb_eq). rewrite all_bytes_forall in Hb. by apply Hb in Hin.
  - unfold ends_with. by rewrite (proj2 (strip_suffix_Some ".narinfo" _ hash)).
  - apply valid_utf8_ascii, ascii_text_app. split; [|done].
    apply all_bytes_impl with is_alnum; [|done]. intros a Ha. apply nar_char_ascii.
    unfold nar_char. by rewrite Ha.
Qed.

Lemma first_occurrences_NoDup seen l : NoDup (first_occurrences seen l).
Proof.
  revert seen. induction l as [|y l IH]; intros seen; simpl; [constructor|].
  case_bool_decide; [done|]. constructor; [|done].
  rewrite first_occurrences_spec. set_solver.
Qed.

Lemma candidates_spec cache_root names s name :
  is_absolute cache_root = true → Forall plain_name names →
  name ∈ quarantine_candidates cache_root ((λ n, cache_root +:+ "/" +:+ n) <$> names) s
  ↔ name ∈ names ∧ is_Some (cf_root (cs_files s) !! name).
Proof.
  intros Habs Hplain. unfold quarantine_candidates.
  rewrite first_occurrences_spec, !list_elem_of_In, filter_In, bool_decide_eq_true.
  rewrite <-!list_elem_of_In, list_elem_of_omap.
  assert (∀ x, x ∈ names → root_member cache_root (cache_root +:+ "/" +:+ x) = Some x) as Hm.
  { intros x Hx. apply root_member_plain; [done|]. rewrite Forall_forall in Hplain. by apply Hplain. }
  split.
  - intros [[(p & (x & -> & Hx)%list_elem_of_fmap & Hp) Hs] _]. rewrite (Hm x Hx) in Hp. by injection Hp as <-.
  - intros [Hin Hs]. split; [|set_solver]. split; [|done].
    eexists. split; [apply list_elem_of_fmap; eauto|by apply Hm].
Qed.

Section Withdraw.
Context {serde : Serde} {ed25519 : Ed25519} {deps : ProtectedDeps} (sha256 : string → Digest).

Lemma build_error files cache_root root derivation key e inspected :
  build_closure_manifest sha256 files cache_root root derivation key = (Err e, inspected) →
  error_ok sha256 files e ∧ Forall (closure_file sha256 files key root) inspected ∧
  (validate_store_path root = Ok tt → validate_derivation derivation = Ok tt →
   ∀ filename, narinfo_filename_for_store_path root = Ok filename → head inspected = Some filename).
Proof.
  unfold build_closure_manifest. destruct (rbind _ _) as [u|e0] eqn:Ev.
  - destruct (walk_from_root sha256 files key root) as (res & insp & Hw & Hres & Hall). rewrite Hw.
    assert (∀ filename, validate_store_path root = Ok tt →
      narinfo_filename_for_store_path root = Ok filename → head insp = Some filename) as Hhead
      by (intros; by eapply inspected_root).
    destruct res as [w|e1]; intros [= He <-]; (split_and!; [|done|intros Hv _ f; by apply Hhead]);
      [|subst; apply Hres].
    unfold finish_manifest in He. destruct (validate_cache_metadata _); [|by injection He as <-].
    apply rbind_Err in He as [He|(m & _ & He)]; [by eapply ok_or_error_ok|].
    apply rbind_Err in He as [He|(nar & _ & [=])]. by eapply lift_error_ok.
  - intros [= <- <-]. split_and!; [|done|].
    + apply rbind_Err in Ev as [He|(x & _ & He)]; [by eapply lift_error_ok|].
      unfold validate_derivation in He. destruct derivation as [d|]; [|done].
      apply rbind_Err in He as [He|(y & _ & He)]; [by eapply lift_error_ok|].
      unfold ensure in He. destruct (ends_with ".drv" d); [done|]. by injection He as <-.
    + intros Hv Hd. rewrite Hv, Hd in Ev. done.
Qed.

Lemma quarantine_names i cache_root names s :
  is_absolute cache_root = true → Forall plain_name names → fresh_hidden i s →
  let '(res, s') :=
    quarantine_narinfo_records i cache_root ((λ n, cache_root +:+ "/" +:+ n) <$> names) s in
  cf_nar (cs_files s') = cf_nar (cs_files s) ∧
  (∀ name e, name ∉ names → cf_root (cs_files s) !! name = Some e →
     cf_root (cs_files s') !! name = Some e) ∧
  (is_ok res = true → ∀ name, name ∈ names → cf_root (cs_files s') !! name = None).
Proof.
  intros Habs Hplain Hfresh. unfold quarantine_narinfo_records.
  pose proof (candidates_spec cache_root names s) as Hc.
  assert (NoDup (quarantine_candidates cache_root ((λ n, cache_root +:+ "/" +:+ n) <$> names) s)) as Hnd
    by apply first_occurrences_NoDup.
  set (cs := quarantine_candidates _ _ _) in *.
  assert (let '(res, s') := quarantine_each i cs 0 s in
    cf_nar (cs_files s') = cf_nar (cs_files s) ∧
    (∀ name e, name ∉ names → cf_root (cs_files s) !! name = Some e →
       cf_root (cs_files s') !! name = Some e) ∧
    (is_ok res = true → ∀ name, name ∈ names → cf_root (cs_files s') !! name = None)) as Heach.
  { pose proof (quarantine_each_spec i cs 0 s Hfresh Hnd) as Hspec.
    destruct (quarantine_each i cs 0 s) as [res s']. destruct Hspec as (H1 & H2 & H3 & H4).
    split_and!; [done| |].
    - intros name e Hn He. apply H2; [|done]. by rewrite Hc by done; intros [? _].
    - intros Hok name Hn. destruct (cf_root (cs_files s) !! name) as [e|] eqn:He; [|by apply H4].
      apply H3; [done|]. apply Hc; [done..|]. by rewrite He. }
  destruct cs as [|c cs]; [done|]. destruct (q_ready i); [done|]. simpl. done.
Qed.

(** The names that are withdrawn: of the first record inspected and the last. *)
Definition withdrawn_names (cache_root : string) (inspected : list string) : list string :=
  let path n := cache_root +:+ "/" +:+ n in
  option_list (head inspected)
  ++ List.filter (λ n, bool_decide (path n ∉ path <$> option_list (head inspected)))
       (option_list (last inspected)).

Lemma withdrawn_paths cache_root inspected :
  let path n := cache_root +:+ "/" +:+ n in
  (path <$> option_list (head inspected))
  ++ List.filter (λ p, bool_decide (p ∉ path <$> option_list (head inspected)))
       (path <$> option_list (last inspected))
  = path <$> withdrawn_names cache_root inspected.
Proof.
  intros path. unfold withdrawn_names. rewrite fmap_app. f_equal.
  destruct (last inspected) as [x|]; simpl; [|done]. by repeat case_bool_decide.
Qed.

Lemma withdrawn_inspected cache_root inspected n :
  n ∈ withdrawn_names cache_root inspected → n ∈ inspected.
Proof.
  unfold withdrawn_names. rewrite elem_of_app, !list_elem_of_In, filter_In.
  intros [H|[H _]]; apply list_elem_of_In; apply list_elem_of_In in H.
  - destruct inspected as [|x l]; simpl in H; set_solver.
  - destruct (last inspected) as [x|] eqn:E; simpl in H; [|set_solver].
    apply list_elem_of_singleton in H as ->. apply last_Some in E as [l ->]. set_solver.
Qed.

(** A closure that does not verify: only records of that closure are withdrawn
    and only a NAR file whose bytes are not those its name promises is removed;
    the record of the root is no longer served.  A closure that verifies leaves
    everything as it is. *)
Theorem failed_closure_is_withdrawn i unlink_fails cache_root root derivation key s :
  is_absolute cache_root = true → fresh_hidden i s →
  let '(res, s') :=
    build_or_quarantine_closure_manifest sha256 i unlink_fails cache_root root derivation key s in
  (is_ok res = true → s' = s) ∧
  (∀ name e, cf_root (cs_files s) !! name = Some e → cf_root (cs_files s') !! name = Some e ∨
     closure_file sha256 (cs_files s) key root name) ∧
  (∀ name e nar, cf_nar (cs_files s) = Some nar → nar !! name = Some e →
     (∃ nar', cf_nar (cs_files s') = Some nar' ∧ nar' !! name = Some e) ∨
     corrupt_nar sha256 (cs_files s) name) ∧
  (res = Err "closure manifest validation failed" →
     validate_store_path root = Ok tt → validate_derivation derivation = Ok tt →
     ∀ filename, narinfo_filename_for_store_path root = Ok filename →
     cf_root (cs_files s') !! filename = None).
Proof.
  intros Habs Hfresh. unfold build_or_quarantine_closure_manifest.
  destruct (build_closure_manifest _ _ _ _ _ _) as [[v|e] inspected] eqn:Hb.
  { split_and!; [done|by left|left; eauto|done]. }
  apply build_error in Hb as (Herr & Hall & Hhead).
  cbv zeta. rewrite withdrawn_paths.
  assert (Forall plain_name (withdrawn_names cache_root inspected)) as Hplain.
  { apply Forall_forall. intros n Hn%withdrawn_inspected. rewrite Forall_forall in Hall.
    destruct (Hall n Hn) as (p & _ & Hp). by eapply narinfo_filename_plain. }
  pose proof (quarantine_names i cache_root _ s Habs Hplain Hfresh) as Hq.
  destruct (quarantine_narinfo_records _ _ _ _) as [[moved|e1] s1]; destruct Hq as (Hnar & Hkeep & Hgone).
  all: assert (∀ name e', cf_root (cs_files s) !! name = Some e' →
    cf_root (cs_files s1) !! name = Some e' ∨ closure_file sha256 (cs_files s) key root name) as Hroot
    by (intros name e' He'; destruct (decide (name ∈ withdrawn_names cache_root inspected)) as [Hn|Hn];
        [right; apply (proj1 (Forall_forall _ _) Hall); by apply (withdrawn_inspected cache_root)
        |left; by apply Hkeep]).
  2: { split_and!; [done|done|rewrite Hnar; left; eauto|done]. }
  assert (validate_store_path root = Ok tt → validate_derivation derivation = Ok tt →
    ∀ filename, narinfo_filename_for_store_path root = Ok filename →
    cf_root (cs_files s1) !! filename = None) as Hwithdrawn.
  { intros Hv Hd f Hf. apply Hgone; [done|]. unfold withdrawn_names.
    rewrite (Hhead Hv Hd f Hf). simpl. apply elem_of_cons. by left. }
  destruct e as [m|reason [fn|]]; simpl in *;
    [split_and!; [done|done|rewrite Hnar; left; eauto|done] | |
     split_and!; [done|done|rewrite Hnar; left; eauto|done]].
  destruct (cf_nar (cs_files s1)) as [nar1|] eqn:En1;
    [|split_and!; [done|done|by rewrite <-Hnar|done]].
  destruct (_ && _).
  { split_and!; [done|done| |done]. rewrite <-Hnar. intros name e' nar [= <-] He'. left.
    exists nar1. by rewrite En1. }
  simpl. rewrite En1. split; [done|]. split; [done|]. split; [|done].
  rewrite <-Hnar. intros name e' nar [= <-] He'. destruct (decide (name = fn)) as [->|Hne]; [by right|].
  left. eexists. split; [done|]. by rewrite lookup_delete_ne.
Qed.

End Withdraw.
