(* ===== verification/Retention.v ===== *)
(** * Retention of the binary cache

    [enforce_retention_locked], [remove_artifacts_by_key] and the withdrawal of
    protected builds of [src/cache.rs], over the inventory, the files and the
    mark-and-sweep.  Everything here runs under the cache mutation lock.  The
    sizes measured on disk, which files can be removed and which statements fail
    are inputs, numbered by the sweep they belong to. *)

From stdpp Require Import sorting base gmap list strings.
From Stdlib Require Import Ascii ZArith Lia.
From S2P Require Import Prelude RustStr RustText Json DbText Assets BuildJobs CacheArtifacts NixBase32 NarInfo CacheSweep.

#[local] Open Scope Z_scope.
#[local] Open Scope nest_scope.

Definition DISK_HEADROOM_BYTES : Z := 1024 * 1024 * 1024.

Definition retention_reclaim_bytes (cache_size maximum_cache : Z) (available : option Z)
    (minimum_available : Z) : Z :=
  let size_excess := sat_sub cache_size maximum_cache in
  let free_space_shortfall :=
    match available with Some a => sat_sub minimum_available a | None => 0 end in
  Z.max size_excess free_space_shortfall.

Record RetentionConfig := {
  rc_max_bytes : Z;
  rc_max_artifact_size_bytes : Z;
  rc_retain_recent_builds : nat;
  rc_root_dir : string;
}.

Definition minimum_available_bytes (c : RetentionConfig) : Z :=
  sat_add u64_max (rc_max_artifact_size_bytes c) DISK_HEADROOM_BYTES.

Record CacheWorld := { cw_db : CacheDb; cw_files : CacheFiles }.

(** [created_at], then [id]. *)
Definition root_le (x y : CacheArtifactRoot) : Prop :=
  String.le (root_created_at x) (root_created_at y) ∧
  (root_created_at x = root_created_at y → root_id x ≤ root_id y).
#[global] Instance root_le_dec : RelDecision root_le.
Proof. unfold root_le. intros x y. apply _. Defined.

Definition retention_candidates (db : CacheDb) : list CacheArtifactRoot :=
  merge_sort root_le (list_cache_artifact_roots db).

(** ** What may be evicted *)

Definition active_sources (jobs : JobDb) : gset string :=
  list_to_set (omap fst (List.filter (λ job, active_status job.2) (build_job_retention_states jobs))).

Definition recent_terminal_sources (retain : nat) (candidates : list CacheArtifactRoot) (jobs : JobDb)
    : gset string :=
  let candidate_sources : gset string := list_to_set (omap root_source_build_job_id candidates) in
  list_to_set (take retain
    (List.filter (λ id, bool_decide (id ∈ candidate_sources))
      (omap fst (List.filter (λ job, negb (active_status job.2)) (build_job_retention_states jobs))))).

Definition from_source (sources : gset string) (artifact : CacheArtifactRoot) : bool :=
  match root_source_build_job_id artifact with
  | Some id => bool_decide (id ∈ sources)
  | None => false
  end.

Definition hard_protected (db : CacheDb) (jobs : JobDb) (artifact : CacheArtifactRoot) : bool :=
  bool_decide ((root_artifact_type artifact, root_hash artifact) ∈ list_managed_cache_protections db)
  || from_source (active_sources jobs) artifact.

Definition eviction_order (retain : nat) (candidates : list CacheArtifactRoot) (db : CacheDb)
    (jobs : JobDb) : list CacheArtifactRoot :=
  let recent := recent_terminal_sources retain candidates jobs in
  let pass (evict_recent_terminal : bool) :=
    List.filter (λ a, bool_decide (from_source recent a = evict_recent_terminal))
      (List.filter (λ a, negb (hard_protected db jobs a)) candidates) in
  pass false ++ pass true.

(** What evicting an artifact is expected to free. *)
Definition eviction_estimate (artifact : CacheArtifactRoot) : Z :=
  Z.max (Z.max (root_closure_file_size_bytes artifact) (root_size_bytes artifact)) 1.

Section Retention.
(** What the file system answers the [n]-th sweep, and the size and free space measured before it
    (0 before the first). *)
Context (io : nat → SweepIo) (measure : nat → Z * option Z).
Context (delete_fails : Z → bool) (seed_roots : list string).

Definition reclaim_bytes (c : RetentionConfig) (n : nat) : Z :=
  retention_reclaim_bytes (measure n).1 (rc_max_bytes c) (measure n).2 (minimum_available_bytes c).

(** [sweep_unreachable_locked]. *)
Definition sweep_locked (n : nat) (c : RetentionConfig) (retained : list CacheArtifactRoot)
    (w : CacheWorld) : result string unit * CacheWorld :=
  match sweep_unreachable_blocking (io n) (rc_root_dir c)
          (retained_files <$> retained) seed_roots (cw_files w) with
  | (Ok _, files) => (Ok tt, {| cw_db := cw_db w; cw_files := files |})
  | (Err e, files) => (Err e, {| cw_db := cw_db w; cw_files := files |})
  end.

(** The inner loop: delete rows in order until their estimates cover [excess];
    what is left of the order, and the identifiers deleted. *)
Fixpoint evict_batch (order : list CacheArtifactRoot) (excess estimated : Z) (evicted : gset Z)
    (db : CacheDb) : result string (list CacheArtifactRoot * gset Z) * CacheDb :=
  match order with
  | [] => (Ok ([], evicted), db)
  | artifact :: rest =>
      if estimated <? excess then
        if delete_fails (root_id artifact) then (Err "delete cache artifact", db) else
        evict_batch rest excess (sat_add u64_max estimated (eviction_estimate artifact))
          ({[root_id artifact]} ∪ evicted) (delete_cache_artifact (root_id artifact) db)
      else (Ok (order, evicted), db)
  end.

(** The outer loop: a batch, one sweep for it, and measure again. *)
Fixpoint evict_rounds (fuel n : nat) (c : RetentionConfig) (candidates order : list CacheArtifactRoot)
    (evicted : gset Z) (w : CacheWorld) : result string unit * CacheWorld :=
  if (0 <? reclaim_bytes c n) && negb (bool_decide (order = [])) then
    match fuel with
    | O => (Err "out of fuel", w)
    | S fuel =>
        match evict_batch order (reclaim_bytes c n) 0 evicted (cw_db w) with
        | (Err e, db) => (Err e, {| cw_db := db; cw_files := cw_files w |})
        | (Ok (order, evicted), db) =>
            let retained := List.filter (λ a, bool_decide (root_id a ∉ evicted)) candidates in
            match sweep_locked n c retained {| cw_db := db; cw_files := cw_files w |} with
            | (Err e, w) => (Err e, w)
            | (Ok _, w) => evict_rounds fuel (S n) c candidates order evicted w
            end
        end
    end
  else (Ok tt, w).

Definition enforce_retention_locked (c : RetentionConfig) (jobs : JobDb) (w : CacheWorld)
    : result string unit * CacheWorld :=
  if rc_max_bytes c =? 0 then (Ok tt, w) else
  if reclaim_bytes c 0 =? 0 then (Ok tt, w) else
  let candidates := retention_candidates (cw_db w) in
  match sweep_locked 0 c candidates w with
  | (Err e, w) => (Err e, w)
  | (Ok _, w) =>
      if reclaim_bytes c 1 =? 0 then (Ok tt, w) else
      let order := eviction_order (rc_retain_recent_builds c) candidates (cw_db w) jobs in
      evict_rounds (length order) 1 c candidates order ∅ w
  end.

(** [try_enforce_retention]: skipped when the lock is taken. *)
Definition try_enforce_retention (lock_free : bool) (c : RetentionConfig) (jobs : JobDb)
    (w : CacheWorld) : result string bool * CacheWorld :=
  if (rc_max_bytes c =? 0) || lock_free then
    let '(res, w) := enforce_retention_locked c jobs w in
    (match res with Ok _ => Ok true | Err e => Err e end, w)
  else (Ok false, w).

(** ** Removal on request *)

Fixpoint delete_rows (ids : list Z) (db : CacheDb) : result string unit * CacheDb :=
  match ids with
  | [] => (Ok tt, db)
  | id :: ids =>
      if delete_fails id then (Err "delete cache artifact", db)
      else delete_rows ids (delete_cache_artifact id db)
  end.

Definition remove_artifacts_by_key (c : RetentionConfig) (keys : list (string * string))
    (w : CacheWorld) : result string unit * CacheWorld :=
  if bool_decide (keys = []) then (Ok tt, w) else
  let artifacts := list_cache_artifact_roots (cw_db w) in
  let doomed := List.filter
    (λ a, existsb (λ key, bool_decide (key = (root_artifact_type a, root_hash a))) keys) artifacts in
  if bool_decide (doomed = []) then (Ok tt, w) else
  match delete_rows (root_id <$> doomed) (cw_db w) with
  | (Err e, db) => (Err e, {| cw_db := db; cw_files := cw_files w |})
  | (Ok _, db) =>
      let retained := List.filter (λ a, bool_decide (root_id a ∉ root_id <$> doomed)) artifacts in
      sweep_locked 0 c retained {| cw_db := db; cw_files := cw_files w |}
  end.

End Retention.
