(* ===== verification/RetentionProofs.v ===== *)
(** * Retention: proofs

    Retention evicts in its order and no further than it has to, never a
    protected artifact, and leaves the closures of what is protected as they
    were. *)

From stdpp Require Import sorting base gmap list strings.
From Stdlib Require Import Ascii ZArith Lia.
From S2P Require Import Prelude RustStr RustText Json DbText Assets BuildJobs CacheArtifacts CacheArtifactsProofs NixBase32 NarInfo ProtectedText ProtectedMaterial CacheSweep CacheSweepProofs NarInfoProofs ClosureManifest ClosureManifestProofs ClosureTheorems Retention.

#[local] Open Scope Z_scope.
#[local] Open Scope nest_scope.

(** ** Rows *)

(** The inventory without some rows. *)
Definition without (ids : list Z) (db : CacheDb) : CacheDb :=
  foldl (λ c id, delete_cache_artifact id c) db ids.

Lemma delete_lookup id db id' :
  artifacts (delete_cache_artifact id db) !! id'
  = if decide (id' = id) then None else artifacts db !! id'.
Proof.
  unfold delete_cache_artifact. destruct (artifacts db !! id) as [row|] eqn:E; simpl; case_decide; subst.
  - apply lookup_delete_eq.
  - by apply lookup_delete_ne.
  - done.
  - done.
Qed.

Lemma without_lookup ids db id :
  artifacts (without ids db) !! id = if decide (id ∈ ids) then None else artifacts db !! id.
Proof.
  unfold without. revert db.
  induction ids as [|i ids IH]; intros db; [by rewrite decide_False by set_solver|].
  cbn [foldl]. rewrite IH, delete_lookup. repeat case_decide; set_solver.
Qed.

Lemma without_app ids ids' db : without (ids ++ ids') db = without ids' (without ids db).
Proof. apply foldl_app. Qed.

Lemma without_protections ids db : protections (without ids db) = protections db.
Proof.
  unfold without. revert db. induction ids as [|i ids IH]; intros db; simpl; [done|].
  rewrite IH. unfold delete_cache_artifact. by destruct (artifacts db !! i).
Qed.

Lemma eviction_estimate_pos a : 1 ≤ eviction_estimate a.
Proof. unfold eviction_estimate. lia. Qed.

Section Retention.
Context (io : nat → SweepIo) (lists : ∀ n, io_lists (io n)) (measure : nat → Z * option Z).
Context (delete_fails : Z → bool) (seed_roots : list string) (c : RetentionConfig).

Abbreviation reclaim := (reclaim_bytes measure c).

Lemma evict_batch_spec order excess estimated evicted db :
  let '(res, db') := evict_batch delete_fails order excess estimated evicted db in
  ∃ k, db' = without (root_id <$> take k order) db ∧
    match res with
    | Ok (rest, evicted') => rest = drop k order ∧
        evicted' = list_to_set (root_id <$> take k order) ∪ evicted ∧
        (order ≠ [] → estimated < excess → (0 < k)%nat)
    | Err _ => ∃ id, delete_fails id = true
    end.
Proof.
  revert estimated evicted db. induction order as [|a order IH]; intros estimated evicted db; simpl.
  { exists 0%nat. split_and!; [done|done|set_solver|done]. }
  destruct (Z.ltb_spec estimated excess) as [Hlt|Hge].
  - destruct (delete_fails (root_id a)) eqn:Hd; [exists 0%nat; eauto|].
    specialize (IH (sat_add u64_max estimated (eviction_estimate a)) ({[root_id a]} ∪ evicted)
      (delete_cache_artifact (root_id a) db)).
    destruct (evict_batch _ _ _ _ _ _) as [[[rest ev]|e] db'].
    + destruct IH as (k & -> & -> & -> & _). exists (S k). simpl.
      split_and!; [done|done|set_solver|lia].
    + destruct IH as (k & -> & Hf). exists (S k). done.
  - exists 0%nat. split_and!; [done|done|set_solver|lia].
Qed.

Lemma sweep_locked_db n retained w :
  cw_db (sweep_locked io seed_roots n c retained w).2 = cw_db w.
Proof. unfold sweep_locked. by destruct (sweep_unreachable_blocking _ _ _ _ _) as [[x|e] f]. Qed.

Lemma sweep_locked_ok n retained w :
  (∀ name, io_remove (io n) name = true) →
  (sweep_locked io seed_roots n c retained w).1 = Ok tt.
Proof.
  intros Hr. unfold sweep_locked.
  pose proof (sweep_total (io n) (rc_root_dir c) (retained_files <$> retained) seed_roots
    (cw_files w) Hr) as H.
  by destruct (sweep_unreachable_blocking _ _ _ _ _) as [[x|e] files].
Qed.

(** What a run of retention did: it deleted the first [k] rows of [order], and
    when it succeeded it stopped at measurement [n] for good reason. *)
Definition evicted_prefix (order : list CacheArtifactRoot) (from : nat) (res : result string unit)
    (db db' : CacheDb) : Prop :=
  ∃ k, db' = without (root_id <$> take k order) db ∧
    (is_ok res = true → ∃ n, (from ≤ n)%nat ∧ (∀ m, (from ≤ m < n)%nat → 0 < reclaim m) ∧
       (reclaim n ≤ 0 ∨ (length order ≤ k)%nat)).

Lemma evict_rounds_spec fuel n candidates order evicted w :
  (length order ≤ fuel)%nat →
  let '(res, w') := evict_rounds io measure delete_fails seed_roots
                      fuel n c candidates order evicted w in
  evicted_prefix order n res (cw_db w) (cw_db w') ∧
  ((∀ n name, io_remove (io n) name = true) → (∀ id, delete_fails id = false) → res = Ok tt).
Proof.
  revert n order evicted w. induction fuel as [|fuel IH]; intros n order evicted w Hlen.
  - destruct order; [|simpl in Hlen; lia]. simpl. rewrite andb_false_r. split; [|done].
    exists 0%nat. split; [done|]. intros _. exists n. split_and!; [done|lia|right; simpl; lia].
  - simpl. destruct ((0 <? reclaim n) && negb (bool_decide (order = []))) eqn:Hgo.
    2: { split; [|done]. exists 0%nat. split; [done|]. intros _. exists n. split_and!; [done|lia|].
         apply andb_false_iff in Hgo as [Hz|Ho]; [left; apply Z.ltb_ge in Hz; lia|right].
         apply negb_false_iff, bool_decide_eq_true in Ho as ->. simpl. lia. }
    apply andb_true_iff in Hgo as [Hpos%Z.ltb_lt Hne%negb_true_iff%bool_decide_eq_false].
    pose proof (evict_batch_spec order (reclaim n) 0 evicted (cw_db w)) as Hb.
    destruct (evict_batch _ _ _ _ _ _) as [[[rest ev]|e] db'].
    2: { destruct Hb as (k & -> & id & Hid). split; [by exists k|]. intros _ Hd. by rewrite Hd in Hid. }
    destruct Hb as (k & -> & -> & -> & Hk). specialize (Hk Hne Hpos).
    set (retained := List.filter _ candidates).
    pose proof (sweep_locked_db n retained {| cw_db := without (root_id <$> take k order) (cw_db w);
      cw_files := cw_files w |}) as Hdb.
    pose proof (sweep_locked_ok n retained {| cw_db := without (root_id <$> take k order) (cw_db w);
      cw_files := cw_files w |}) as Hok.
    destruct (sweep_locked _ _ _ _ _ _) as [[[]|e] w1]; simpl in Hdb.
    2: { split; [|intros Hr _; by specialize (Hok (Hr n))]. exists k. by rewrite Hdb. }
    specialize (IH (S n) (drop k order) (list_to_set (root_id <$> take k order) ∪ evicted) w1).
    rewrite length_drop in IH. specialize (IH ltac:(lia)).
    destruct (evict_rounds _ _ _ _ _ _ _ _ _ _ _) as [res w']. destruct IH as [(k' & Hw' & Hstop) Hres].
    split; [|done]. exists (k + k')%nat. split.
    + by rewrite Hw', Hdb, <-without_app, <-fmap_app, take_take_drop.
    + intros Hisok. destruct (Hstop Hisok) as (n' & Hn & Hall & Hwhy). exists n'. split_and!; [lia| |].
      * intros m Hm. destruct (decide (m = n)) as [->|]; [lia|]. apply Hall. lia.
      * destruct Hwhy as [?|Hl]; [by left|right]. rewrite length_drop in Hl. lia.
Qed.

Lemma enforce_retention_spec jobs w :
  let '(res, w') := enforce_retention_locked io measure delete_fails seed_roots
                      c jobs w in
  let order := eviction_order (rc_retain_recent_builds c) (retention_candidates (cw_db w))
                 (cw_db w) jobs in
  (rc_max_bytes c = 0 ∧ w' = w ∧ res = Ok tt ∨
   rc_max_bytes c ≠ 0 ∧ evicted_prefix order 0 res (cw_db w) (cw_db w')) ∧
  ((∀ n name, io_remove (io n) name = true) → (∀ id, delete_fails id = false) → res = Ok tt).
Proof.
  unfold enforce_retention_locked. destruct (Z.eqb_spec (rc_max_bytes c) 0) as [Hz|Hnz].
  { split; [by left|done]. }
  destruct (Z.eqb_spec (reclaim 0) 0) as [Hr|Hr].
  { split; [right; split; [done|]|done]. exists 0%nat. split; [done|]. intros _. exists 0%nat.
    split_and!; [done|lia|left; lia]. }
  assert (∀ n, 0 ≤ reclaim n) as Hnn
    by (intros n; unfold reclaim_bytes, retention_reclaim_bytes, sat_sub; lia).
  pose proof (sweep_locked_db 0 (retention_candidates (cw_db w)) w) as Hdb.
  pose proof (sweep_locked_ok 0 (retention_candidates (cw_db w)) w) as Hok.
  destruct (sweep_locked _ _ _ _ _ _) as [[[]|e] w1]; simpl in Hdb, Hok.
  2: { split; [right; split; [done|]|intros H _; by specialize (Hok (H 0%nat))].
       exists 0%nat. by rewrite Hdb. }
  destruct (Z.eqb_spec (reclaim 1) 0) as [Hr1|Hr1].
  { split; [right; split; [done|]|done]. exists 0%nat. split; [by rewrite Hdb|]. intros _. exists 1%nat.
    split_and!; [lia| |left; lia]. intros m Hm. assert (m = 0%nat) as -> by lia. specialize (Hnn 0%nat). lia. }
  rewrite Hdb. set (order := eviction_order _ _ _ _).
  pose proof (evict_rounds_spec (length order) 1 (retention_candidates (cw_db w)) order ∅ w1
    (Nat.le_refl _)) as Hspec.
  destruct (evict_rounds _ _ _ _ _ _ _ _ _ _ _) as [res w']. destruct Hspec as [(k & Hw & Hstop) Hres].
  split; [right; split; [done|]|done]. exists k. rewrite Hw, Hdb. split; [done|].
  intros Hisok. destruct (Hstop Hisok) as (n & Hn & Hall & Hwhy). exists n. split_and!; [lia| |done].
  intros m Hm. destruct (decide (m = 0%nat)) as [->|]; [specialize (Hnn 0%nat); lia|]. apply Hall. lia.
Qed.

(** Retention deletes the rows of a prefix of the eviction order: first those
    that are neither protected nor of a recent build, oldest first, then those of
    recent builds, oldest first.  It stops when a measurement shows nothing to
    reclaim, and otherwise only when nothing is left that may be evicted; it
    succeeds when no removal and no statement fails. *)
Theorem retention_evicts_in_order jobs w :
  let '(res, w') := enforce_retention_locked io measure delete_fails seed_roots
                      c jobs w in
  let order := eviction_order (rc_retain_recent_builds c) (retention_candidates (cw_db w))
                 (cw_db w) jobs in
  (rc_max_bytes c = 0 ∧ w' = w ∧ res = Ok tt ∨
   rc_max_bytes c ≠ 0 ∧ evicted_prefix order 0 res (cw_db w) (cw_db w')) ∧
  ((∀ n name, io_remove (io n) name = true) → (∀ id, delete_fails id = false) → res = Ok tt).
Proof. apply enforce_retention_spec. Qed.

(** ** What is protected stays *)

Section Protected.
Context {serde : Serde} {ed25519 : Ed25519} {deps : ProtectedDeps} (sha256 : string → Digest).
Context (key root : string) (derivation : option string).
Context (v : VerifiedClosureManifest) (inspected : list string).
Context (Hread : ∀ n, io_reads (io n)).

(** The closure of [root] verifies with this manifest, and the narinfo files are written as Nix
    writes them. *)
Definition intact (files : CacheFiles) : Prop :=
  all_nix_written files ∧
  build_closure_manifest sha256 files (rc_root_dir c) root derivation key = (Ok v, inspected).

Lemma sweep_locked_intact n retained w :
  root ∈ root_store_path <$> retained → intact (cw_files w) →
  intact (cw_files (sweep_locked io seed_roots n c retained w).2).
Proof.
  intros Hroot [Hnix Hb]. unfold sweep_locked.
  destruct (sweep_unreachable_blocking (io n) (rc_root_dir c)
    (retained_files <$> retained) seed_roots (cw_files w)) as [res files'] eqn:Hsweep.
  assert (intact files') as Hi; [|by destruct res].
  split.
  - pose proof (sweep_spec (io n) (lists n) (rc_root_dir c)
      (retained_files <$> retained) seed_roots (cw_files w)) as Hspec.
    rewrite Hsweep in Hspec. destruct Hspec as ((Hsub & _) & _).
    intros name raw Hin. by eapply Hnix, lookup_weaken.
  - eapply (sweep_keeps_closures sha256 (io n) (lists n)); [done|apply Hread|done| |done].
    left. rewrite <-list_fmap_compose. done.
Qed.

Lemma evict_rounds_intact fuel n candidates order evicted a w :
  root = root_store_path a → a ∈ candidates → root_id a ∉ root_id <$> order → root_id a ∉ evicted →
  intact (cw_files w) →
  intact (cw_files (evict_rounds io measure delete_fails seed_roots
                      fuel n c candidates order evicted w).2).
Proof.
  intros Hr Hin. revert n order evicted w.
  induction fuel as [|fuel IH]; intros n order evicted w Hord Hev Hi; simpl; destruct (_ && _); try done.
  pose proof (evict_batch_spec order (reclaim n) 0 evicted (cw_db w)) as Hb.
  destruct (evict_batch _ _ _ _ _ _) as [[[rest ev]|e] db']; [|done].
  destruct Hb as (k & -> & -> & -> & _).
  assert (root_id a ∉ list_to_set (root_id <$> take k order) ∪ evicted) as Hev'.
  { rewrite not_elem_of_union, elem_of_list_to_set. split; [|done]. intros H. apply Hord.
    rewrite <-(take_drop k order), fmap_app. apply elem_of_app. by left. }
  match goal with |- context [sweep_locked _ _ _ _ ?l ?x] => 
    pose proof (sweep_locked_intact n l x) as Hs end.
  destruct (sweep_locked _ _ _ _ _ _) as [[[]|e] w1]; simpl in Hs |- *.
  - apply IH; [|done|].
    + intros H. apply Hord. rewrite <-(take_drop k order), fmap_app. apply elem_of_app. by right.
    + apply Hs; [|done]. rewrite Hr. apply list_elem_of_fmap_2.
      rewrite list_elem_of_In, filter_In, bool_decide_eq_true, <-list_elem_of_In. done.
  - apply Hs; [|done]. rewrite Hr. apply list_elem_of_fmap_2.
    rewrite list_elem_of_In, filter_In, bool_decide_eq_true, <-list_elem_of_In. done.
Qed.

End Protected.

Lemma elem_of_candidates db a :
  a ∈ retention_candidates db ↔ ∃ id row, artifacts db !! id = Some row ∧ a = root_of row.
Proof.
  unfold retention_candidates, list_cache_artifact_roots.
  rewrite merge_sort_Permutation, list_elem_of_fmap. setoid_rewrite merge_sort_Permutation.
  setoid_rewrite elem_of_artifact_rows. naive_solver.
Qed.

Lemma elem_of_eviction_order retain candidates db jobs a :
  a ∈ eviction_order retain candidates db jobs →
  a ∈ candidates ∧ hard_protected db jobs a = false.
Proof.
  unfold eviction_order. rewrite elem_of_app, !list_elem_of_In, !filter_In.
  rewrite negb_true_iff, <-!list_elem_of_In. naive_solver.
Qed.

Lemma protected_not_evictable db jobs retain id row :
  cache_ok db → artifacts db !! id = Some row → hard_protected db jobs (root_of row) = true →
  id ∉ root_id <$> eviction_order retain (retention_candidates db) db jobs.
Proof.
  intros Hok Hrow Hhard (a & -> & Ha)%list_elem_of_fmap.
  apply elem_of_eviction_order in Ha as [(id' & row' & Hrow' & ->)%elem_of_candidates Hsoft].
  destruct (co_ids _ Hok _ _ Hrow') as [<- _].
  simpl in Hrow. rewrite Hrow' in Hrow. injection Hrow as ->. congruence.
Qed.

(** The artifact is one that Tiaris wants, or comes from a build that is queued or
    running. *)
Definition wanted (db : CacheDb) (jobs : JobDb) (row : CacheArtifactRow) : Prop :=
  artifact_key row ∈ list_managed_cache_protections db ∨
  ∃ id job, ad_source_build_job_id (ca_data row) = Some id ∧ job ∈ rows jobs ∧
    job_managed_id job = Some id ∧ job_status job ∈ ["queued"; "running"].

Lemma wanted_protected db jobs row : wanted db jobs row → hard_protected db jobs (root_of row) = true.
Proof.
  unfold hard_protected. rewrite orb_true_iff. intros [H|(id & job & Hs & Hjob & Hid & Hst)].
  - left. by apply bool_decide_eq_true.
  - right. unfold from_source. simpl. rewrite Hs. apply bool_decide_eq_true.
    apply elem_of_list_to_set, list_elem_of_omap. exists (job_managed_id job, job_status job).
    split; [|done]. apply list_elem_of_In, filter_In. split.
    + apply list_elem_of_In, (list_elem_of_fmap_2 (λ row, (job_managed_id row, job_status row))).
      by rewrite merge_sort_Permutation.
    + apply bool_decide_eq_true. exact Hst.
Qed.

(** C32. An artifact that Tiaris wants or that comes from a build still queued or
    running keeps its row, whatever retention removes and wherever it stops.  It keeps its
    whole closure too, so that the closure verifies with the same manifest as before, when
    the narinfo files of the cache are written as Nix writes them (ASCII text that names its
    references by their base names) and the sweeps can read them; files that cannot be
    removed and directories that cannot be listed do no harm. *)
Theorem retention_keeps_protected {serde : Serde} {ed25519 : Ed25519} {deps : ProtectedDeps}
    (sha256 : string → Digest) jobs w res w' id row :
  enforce_retention_locked io measure delete_fails seed_roots c jobs w = (res, w') →
  cache_ok (cw_db w) → artifacts (cw_db w) !! id = Some row →
  wanted (cw_db w) jobs row →
  artifacts (cw_db w') !! id = Some row ∧
  ∀ key derivation v inspected,
    (∀ n, io_reads (io n)) →
    intact sha256 key (ad_store_path (ca_data row)) derivation v inspected (cw_files w) →
    intact sha256 key (ad_store_path (ca_data row)) derivation v inspected (cw_files w').
Proof.
  intros Hret Hok Hrow Hhard%wanted_protected.
  pose proof (protected_not_evictable _ jobs (rc_retain_recent_builds c) id row Hok Hrow Hhard) as Hnot.
  assert (id = ca_id row) as Hid by (by destruct (co_ids _ Hok _ _ Hrow) as [<- _]).
  split.
  - pose proof (enforce_retention_spec jobs w) as Hspec. rewrite Hret in Hspec.
    destruct Hspec as [[(_ & -> & _)|(_ & k & -> & _)] _]; [done|].
    rewrite without_lookup, decide_False; [done|]. intros Hin. apply Hnot.
    rewrite <-(take_drop k (eviction_order _ _ _ _)), fmap_app. apply elem_of_app. by left.
  - intros key derivation v inspected Hread Hi. unfold enforce_retention_locked in Hret.
    destruct (rc_max_bytes c =? 0); [by simplify_eq|].
    destruct (reclaim 0 =? 0); [by simplify_eq|].
    assert (root_of row ∈ retention_candidates (cw_db w)) as Hin by (apply elem_of_candidates; eauto).
    pose proof (sweep_locked_intact sha256 key (ad_store_path (ca_data row)) derivation v inspected Hread 0
      (retention_candidates (cw_db w)) w) as Hs.
    pose proof (sweep_locked_db 0 (retention_candidates (cw_db w)) w) as Hdb.
    destruct (sweep_locked _ _ _ _ _ _) as [[[]|e] w1]; simpl in Hs, Hdb.
    2: { simplify_eq. apply Hs; [|done]. by apply (list_elem_of_fmap_2 root_store_path _ (root_of row)). }
    specialize (Hs (list_elem_of_fmap_2 root_store_path _ (root_of row) Hin) Hi).
    destruct (reclaim 1 =? 0); [by simplify_eq|]. rewrite Hdb in Hret.
    pose proof (evict_rounds_intact sha256 key (ad_store_path (ca_data row)) derivation v inspected Hread
      (length (eviction_order (rc_retain_recent_builds c) (retention_candidates (cw_db w)) (cw_db w) jobs))
      1 (retention_candidates (cw_db w))
      (eviction_order (rc_retain_recent_builds c) (retention_candidates (cw_db w)) (cw_db w) jobs)
      ∅ (root_of row) w1 eq_refl Hin) as Hr.
    simpl in Hr. rewrite <-Hid in Hr. rewrite Hret in Hr. apply Hr; [done|set_solver|done].
Qed.

End Retention.
