(* ===== verification/CachePurge.v ===== *)
(** * Withdrawal of protected builds from the cache

    [remediate_protected_build_job_locked] of [src/cache.rs]: every row that a
    quarantined build published, and every row naming the same root, is taken out
    of the inventory after its narinfo files were withdrawn and what only they
    needed was swept. *)

From stdpp Require Import sorting base gmap list strings relations.
From Stdlib Require Import Ascii ZArith Lia.
From S2P Require Import Prelude RustStr RustText Json DbText Assets NixBase32 BuildJobs CacheArtifacts CacheArtifactsProofs Remediation NarInfo CacheSweep ClosureManifest Retention RetentionProofs.

#[local] Open Scope Z_scope.
#[local] Open Scope nest_scope.

Definition artifact_matches_protected_job (artifact : CacheArtifactRoot)
    (remediation : ProtectedBuildJobRemediation) : bool :=
  match pr_managed_job_id remediation with
  | Some id => bool_decide (root_source_build_job_id artifact = Some id)
  | None => false
  end
  || (negb (is_empty (pr_output_path remediation))
      && bool_decide (root_store_path artifact = pr_output_path remediation)).

Definition same_nonempty (x y : string) : bool := negb (is_empty x) && bool_decide (x = y).

Definition cache_artifact_roots_alias (left right : CacheArtifactRoot) : bool :=
  same_nonempty (root_store_path left) (root_store_path right)
  || same_nonempty (root_path left) (root_path right)
  || same_nonempty (root_narinfo_path left) (root_narinfo_path right)
  || same_nonempty (root_nar_url left) (root_nar_url right).

(** The rows that alias a doomed row and are not doomed themselves. *)
Definition new_aliases (artifacts : list CacheArtifactRoot) (doomed_ids : gset Z) : list Z :=
  let doomed := List.filter (λ a, bool_decide (root_id a ∈ doomed_ids)) artifacts in
  root_id <$> List.filter (λ a, bool_decide (root_id a ∉ doomed_ids)
                                && existsb (λ seed, cache_artifact_roots_alias seed a) doomed) artifacts.

Fixpoint follow_aliases (fuel : nat) (artifacts : list CacheArtifactRoot) (doomed_ids : gset Z)
    : option (gset Z) :=
  match fuel with
  | O => None
  | S fuel =>
      match new_aliases artifacts doomed_ids with
      | [] => Some doomed_ids
      | aliases => follow_aliases fuel artifacts (doomed_ids ∪ list_to_set aliases)
      end
  end.

Definition matching_ids (artifacts : list CacheArtifactRoot) (r : ProtectedBuildJobRemediation)
    : gset Z :=
  list_to_set (root_id <$> List.filter (λ a, artifact_matches_protected_job a r) artifacts).

(** The parent of the recorded path is the cache root. *)
Definition below_root (cache_root path : string) : bool :=
  match last (components path) with
  | Some (Normal name) => bool_decide (components path = components cache_root ++ [Normal name])
  | _ => false
  end.

Definition root_narinfos (cache_root : string) (doomed : list CacheArtifactRoot) : list string :=
  concat ((λ a,
    match store_path_hash (root_store_path a) with
    | Some hash => [cache_root +:+ "/" +:+ hash +:+ ".narinfo"]
    | None => []
    end ++ (if below_root cache_root (root_narinfo_path a) then [root_narinfo_path a] else [])) <$> doomed).

(** [symlink_metadata] of a path directly below the cache root. *)
Definition still_published (cache_root path : string) (files : CacheFiles) : bool :=
  below_root cache_root path &&
  match file_name path with
  | Some name => bool_decide (is_Some (cf_root files !! name))
  | None => false
  end.

Record PurgeWorld := { pw_db : NestDb; pw_store : CacheStore }.

Section Purge.
Context {serde : Serde}.
Context (io : SweepIo).

Definition with_files (files : CacheFiles) (s : CacheStore) : CacheStore :=
  {| cs_files := files; cs_quarantine := cs_quarantine s |}.

Definition remediate_protected_build_job_locked (i : QuarantineInput) (cache_root : string)
    (seed_roots : list string) (now : string) (remediation : ProtectedBuildJobRemediation)
    (w : PurgeWorld) : result string unit * PurgeWorld :=
  let artifacts := list_cache_artifact_roots (nd_cache (pw_db w)) in
  match follow_aliases (S (length artifacts)) artifacts (matching_ids artifacts remediation) with
  | None => (Err "out of fuel", w)
  | Some doomed_ids =>
      let doomed := List.filter (λ a, bool_decide (root_id a ∈ doomed_ids)) artifacts in
      let narinfos := root_narinfos cache_root doomed in
      match quarantine_narinfo_records i cache_root narinfos (pw_store w) with
      | (Err e, s) => (Err e, {| pw_db := pw_db w; pw_store := s |})
      | (Ok _, s) =>
          let retained := List.filter (λ a, bool_decide (root_id a ∉ doomed_ids)) artifacts in
          match sweep_unreachable_blocking io cache_root
                  (retained_files <$> retained) seed_roots (cs_files s) with
          | (Err e, files) => (Err e, {| pw_db := pw_db w; pw_store := with_files files s |})
          | (Ok _, files) =>
              let w := {| pw_db := pw_db w; pw_store := with_files files s |} in
              if existsb (λ p, still_published cache_root p files) narinfos
              then (Err "protected build root NARInfo remained published after quarantine", w)
              else
                match complete_protected_build_job_cache_purge remediation (elements doomed_ids) now
                        (pw_db w) with
                | (Err _, db) => (Err "complete protected build cache purge",
                                  {| pw_db := db; pw_store := pw_store w |})
                | (Ok _, db) => (Ok tt, {| pw_db := db; pw_store := pw_store w |})
                end
          end
      end
  end.

(** [remediate_protected_build_jobs]: one after the other, the first failure
    ends it; the inputs are numbered by the job. *)
Fixpoint remediate_each (inputs : Z → QuarantineInput) (cache_root : string)
    (seed_roots : list string) (now : string) (pending : list ProtectedBuildJobRemediation)
    (completed : nat) (w : PurgeWorld) : result string nat * PurgeWorld :=
  match pending with
  | [] => (Ok completed, w)
  | r :: pending =>
      match remediate_protected_build_job_locked (inputs (pr_job_id r)) cache_root seed_roots now r w with
      | (Err e, w) => (Err e, w)
      | (Ok _, w) => remediate_each inputs cache_root seed_roots now pending (S completed) w
      end
  end.

Definition remediate_protected_build_jobs (inputs : Z → QuarantineInput) (cache_root : string)
    (seed_roots : list string) (now : string) (w : PurgeWorld) : result string nat * PurgeWorld :=
  remediate_each inputs cache_root seed_roots now
    (pending_protected_build_job_remediations (pw_db w)) 0 w.

End Purge.

(** ** Withdrawal of protected builds from the cache: proofs *)

Lemma count_mono {A} (p q : A → bool) l :
  (∀ x, p x = true → q x = true) → (count p l ≤ count q l)%nat.
Proof.
  intros H. unfold count. induction l as [|x l IH]; simpl; [done|].
  destruct (p x) eqn:Ep; [rewrite (H x Ep); simpl; lia|]. destruct (q x); simpl; lia.
Qed.

Lemma count_lt {A} (p q : A → bool) l x :
  (∀ x, p x = true → q x = true) → x ∈ l → p x = false → q x = true → (count p l < count q l)%nat.
Proof.
  intros H Hin Hp Hq. induction Hin as [x l|x y l Hin IH]; unfold count in *; simpl.
  - rewrite Hp, Hq. simpl. pose proof (count_mono p q l H). unfold count in *. lia.
  - specialize (IH Hp Hq). destruct (p y) eqn:Ep; [rewrite (H y Ep); simpl; lia|]. destruct (q y); simpl; lia.
Qed.

Section Aliases.
Context (l : list CacheArtifactRoot) (Hnd : NoDup (root_id <$> l)).

(** One alias step inside the inventory. *)
Definition alias_step (a b : CacheArtifactRoot) : Prop :=
  a ∈ l ∧ b ∈ l ∧ cache_artifact_roots_alias a b = true.

(** Rows that can be reached over aliases from rows of [start]. *)
Definition doomed_from (start : gset Z) (a : CacheArtifactRoot) : Prop :=
  a ∈ l ∧ ∃ seed, seed ∈ l ∧ root_id seed ∈ start ∧ rtc alias_step seed a.

Lemma same_id_root a b : a ∈ l → b ∈ l → root_id a = root_id b → a = b.
Proof.
  intros (i & Hi)%list_elem_of_lookup (j & Hj)%list_elem_of_lookup Heq.
  assert (i = j) as ->; [|congruence].
  eapply (NoDup_lookup (root_id <$> l)); [done|rewrite list_lookup_fmap, Hi|rewrite list_lookup_fmap, Hj].
  - done.
  - simpl. by rewrite Heq.
Qed.

Lemma elem_of_new_aliases ids id :
  id ∈ new_aliases l ids ↔ ∃ a seed, a ∈ l ∧ root_id a = id ∧ id ∉ ids ∧ seed ∈ l ∧
    root_id seed ∈ ids ∧ cache_artifact_roots_alias seed a = true.
Proof.
  unfold new_aliases. rewrite list_elem_of_fmap. setoid_rewrite list_elem_of_In.
  setoid_rewrite filter_In. setoid_rewrite andb_true_iff. setoid_rewrite existsb_exists.
  setoid_rewrite filter_In. setoid_rewrite bool_decide_eq_true. setoid_rewrite <-list_elem_of_In.
  split.
  - intros (a & -> & Ha & Hn & seed & [Hs Hin] & Hal). exists a, seed. done.
  - intros (a & seed & Ha & <- & Hn & Hs & Hin & Hal). eauto 10.
Qed.

Lemma follow_aliases_spec fuel start ids :
  (∀ a, a ∈ l → root_id a ∈ ids → doomed_from start a) → start ⊆ ids →
  (length l < fuel + count (λ a, bool_decide (root_id a ∈ ids)) l)%nat →
  ∃ ids', follow_aliases fuel l ids = Some ids' ∧ ids ⊆ ids' ∧
    ∀ a, a ∈ l → root_id a ∈ ids' ↔ doomed_from start a.
Proof.
  revert ids. induction fuel as [|fuel IH]; intros ids Hsound Hstart Hfuel.
  { pose proof (count_le (λ a, bool_decide (root_id a ∈ ids)) l). lia. }
  simpl. destruct (new_aliases l ids) as [|x xs] eqn:E.
  - exists ids. split_and!; [done..|]. intros a Ha. split; [by apply Hsound|].
    intros (_ & seed & Hs & Hin%Hstart & Hrtc). clear Ha.
    induction Hrtc as [b|b d a (Hb & Hd & Hal) Hrtc IHr]; [done|]. apply IHr; [done|].
    destruct (decide (root_id d ∈ ids)) as [|Hn]; [done|].
    assert (root_id d ∈ new_aliases l ids) as H by (apply elem_of_new_aliases; eauto 10).
    rewrite E in H. by apply not_elem_of_nil in H.
  - destruct (IH (ids ∪ list_to_set (x :: xs))) as (ids' & Hf & Hsub & Hiff).
    + intros a Ha [Hin|Hin]%elem_of_union; [by apply Hsound|].
      apply elem_of_list_to_set in Hin. rewrite <-E in Hin.
      apply elem_of_new_aliases in Hin as (a' & seed & Ha' & Hid & _ & Hs & Hsin & Hal).
      apply (same_id_root a' a) in Hid as ->; [|done..].
      destruct (Hsound seed Hs Hsin) as (_ & s0 & Hs0 & Hin0 & Hrtc). split; [done|].
      exists s0. split_and!; [done..|]. eapply rtc_r; [done|]. done.
    + set_solver.
    + assert (count (λ a, bool_decide (root_id a ∈ ids)) l
              < count (λ a, bool_decide (root_id a ∈ ids ∪ list_to_set (x :: xs))) l)%nat; [|lia].
      assert (x ∈ new_aliases l ids) as Hx by (rewrite E; set_solver).
      apply elem_of_new_aliases in Hx as (a & _ & Ha & Hid & Hn & _).
      apply count_lt with a; [|done|by rewrite bool_decide_false; [|rewrite Hid]|].
      * intros y Hy%bool_decide_eq_true. apply bool_decide_eq_true. set_solver.
      * apply bool_decide_eq_true. rewrite Hid. set_solver.
    + exists ids'. split_and!; [done| |done]. set_solver.
Qed.

End Aliases.

(** ** The withdrawal *)

Lemma roots_NoDup db : cache_ok db → NoDup (root_id <$> list_cache_artifact_roots db).
Proof.
  intros Hok. unfold list_cache_artifact_roots. rewrite <-list_fmap_compose, merge_sort_Permutation.
  apply NoDup_fmap_2_strong; [|by apply NoDup_artifact_rows].
  intros x y (i & Hi)%elem_of_artifact_rows (j & Hj)%elem_of_artifact_rows Heq. simpl in Heq.
  destruct (co_ids _ Hok _ _ Hi) as [<- _], (co_ids _ Hok _ _ Hj) as [<- _].
  rewrite Heq in Hi. congruence.
Qed.

Lemma elem_of_roots db id row : artifacts db !! id = Some row → root_of row ∈ list_cache_artifact_roots db.
Proof.
  intros H. unfold list_cache_artifact_roots. apply list_elem_of_fmap_2.
  rewrite merge_sort_Permutation. apply elem_of_artifact_rows. eauto.
Qed.

Lemma complete_purge_cache {serde : Serde} r ids now d d' :
  complete_protected_build_job_cache_purge r ids now d = (Ok tt, d') →
  nd_cache d' = without ids (nd_cache d).
Proof.
  unfold complete_protected_build_job_cache_purge. destruct (existsb _ ids); [done|].
  destruct (existsb _ _); [done|]. destruct (nd_ledger d !! _) as [entry|]; [|done].
  destruct (pending entry); [|done]. by intros [= <-].
Qed.

(** The rows a protected build published, and every row that names the same
    root over any number of aliases. *)
Definition withdrawn_row (db : CacheDb) (r : ProtectedBuildJobRemediation) (row : CacheArtifactRow)
    : Prop :=
  ∃ id0 row0, artifacts db !! id0 = Some row0 ∧ artifact_matches_protected_job (root_of row0) r = true ∧
    rtc (alias_step (list_cache_artifact_roots db)) (root_of row0) (root_of row).

(** A completed withdrawal: exactly those rows are gone from the inventory, the
    others are as they were, and none of their narinfo files is served. *)
Theorem purge_withdraws_every_alias {serde : Serde} io
    i cache_root seed_roots now r w w' :
  remediate_protected_build_job_locked io i cache_root seed_roots now r w
    = (Ok tt, w') →
  cache_ok (nd_cache (pw_db w)) →
  ∀ id row, artifacts (nd_cache (pw_db w)) !! id = Some row →
    (withdrawn_row (nd_cache (pw_db w)) r row →
       artifacts (nd_cache (pw_db w')) !! id = None ∧
       ∀ hash, store_path_hash (ad_store_path (ca_data row)) = Some hash →
         still_published cache_root (cache_root +:+ "/" +:+ hash +:+ ".narinfo")
           (cs_files (pw_store w')) = false) ∧
    (¬ withdrawn_row (nd_cache (pw_db w)) r row →
       artifacts (nd_cache (pw_db w')) !! id = Some row).
Proof.
  intros Hrun Hok id row Hrow. unfold remediate_protected_build_job_locked in Hrun.
  set (l := list_cache_artifact_roots (nd_cache (pw_db w))) in *.
  destruct (follow_aliases_spec l (roots_NoDup _ Hok) (S (length l)) (matching_ids l r) (matching_ids l r))
    as (ids & Hf & _ & Hids).
  { intros a Ha Hin. split; [done|]. exists a. split_and!; [done..|reflexivity]. }
  { done. }
  { lia. }
  rewrite Hf in Hrun. set (doomed := List.filter (λ a, bool_decide (root_id a ∈ ids)) l) in *.
  destruct (quarantine_narinfo_records _ _ _ _) as [[q|e] s]; [|done].
  destruct (sweep_unreachable_blocking _ _ _ _ _) as [[fr|e] files]; [|done].
  destruct (existsb _ _) eqn:Hpub; [done|].
  destruct (complete_protected_build_job_cache_purge _ _ _ _) as [[[]|e] db] eqn:Hc; [|done].
  injection Hrun as <-. cbn [pw_db pw_store cs_files with_files] in *.
  apply complete_purge_cache in Hc. rewrite Hc, without_lookup.
  assert (id = ca_id row) as Hid by by destruct (co_ids _ Hok _ _ Hrow) as [<- _].
  pose proof (elem_of_roots _ _ _ Hrow) as Hin.
  assert (id ∈ ids ↔ withdrawn_row (nd_cache (pw_db w)) r row) as Hiff.
  { rewrite Hid. rewrite (Hids (root_of row) Hin : root_id (root_of row) ∈ ids ↔ _). split.
    - intros (_ & seed & Hs & Hm & Hrtc).
      unfold matching_ids in Hm. apply elem_of_list_to_set, list_elem_of_fmap in Hm as (s' & Heq & Hs').
      rewrite list_elem_of_In, filter_In, <-list_elem_of_In in Hs'. destruct Hs' as [Hs' Hmatch].
      apply (same_id_root l (roots_NoDup _ Hok)) in Heq as ->; [|done..].
      unfold l, list_cache_artifact_roots in Hs'. apply list_elem_of_fmap in Hs' as (row0 & -> & Hr0).
      rewrite merge_sort_Permutation, elem_of_artifact_rows in Hr0. destruct Hr0 as [id0 Hr0].
      by exists id0, row0.
    - intros (id0 & row0 & Hr0 & Hm & Hrtc). split; [done|]. pose proof (elem_of_roots _ _ _ Hr0) as Hin0.
      exists (root_of row0). split_and!; [done| |done]. unfold matching_ids.
      apply elem_of_list_to_set, list_elem_of_fmap_2.
      by rewrite list_elem_of_In, filter_In, <-list_elem_of_In. }
  split; intros Hw.
  - rewrite decide_True by by apply elem_of_elements, Hiff. split; [done|].
    intros hash Hhash. apply not_true_iff_false. intros Hstill.
    apply not_true_iff_false in Hpub. apply Hpub. apply existsb_exists.
    exists (cache_root +:+ "/" +:+ hash +:+ ".narinfo"). split; [|done].
    unfold root_narinfos. apply in_concat. eexists. split.
    + apply in_map_iff. exists (root_of row). split; [reflexivity|].
      unfold doomed. rewrite filter_In, <-list_elem_of_In, bool_decide_eq_true. split; [done|].
      simpl. rewrite <-Hid. by apply Hiff.
    + simpl. rewrite Hhash. by left.
  - rewrite decide_False; [done|]. by intros ?%elem_of_elements%Hiff.
Qed.
