(* ===== verification/Scrub.v ===== *)
(** * The scrub of the binary cache

    [scrub_cache_artifacts_locked], [scrub_cache_artifact] and
    [verify_cache_artifact_blocking] of [src/cache.rs]: artifacts that are due are
    verified against the files; one that is missing or corrupt is withdrawn and
    its row deleted, and then every other row is verified as well.  All of it runs
    under the cache mutation lock.  What the file system and the statements do is
    an input of each artifact that is scrubbed. *)

From stdpp Require Import sorting base gmap list strings.
From Stdlib Require Import Ascii ZArith Lia.
From S2P Require Import Prelude RustStr RustText Json DbText Assets BuildJobs CacheArtifacts NixBase32 NarInfo ProtectedText ProtectedMaterial CacheSweep ClosureManifest.

#[local] Open Scope Z_scope.
#[local] Open Scope nest_scope.

(** ** Equality of JSON values

    The manifest that a stored one is compared with has no floating-point
    number, on which the comparison of [serde_json] is not that of the bits. *)

Definition number_eqb (x y : Number) : bool :=
  match x, y with
  | PosInt a, PosInt b => a =? b
  | NegInt a, NegInt b => a =? b
  | Float a, Float b => a =? b
  | _, _ => false
  end.

Fixpoint value_eqb (x y : Value) : bool :=
  match x, y with
  | Null, Null => true
  | Bool a, Bool b => Bool.eqb a b
  | Num a, Num b => number_eqb a b
  | Str a, Str b => bool_decide (a = b)
  | Array a, Array b =>
      (fix go (a b : list Value) : bool :=
         match a, b with
         | [], [] => true
         | v :: a, w :: b => value_eqb v w && go a b
         | _, _ => false
         end) a b
  | Object a, Object b =>
      (fix go (a b : list (string * Value)) : bool :=
         match a, b with
         | [], [] => true
         | (k, v) :: a, (l, w) :: b => bool_decide (k = l) && value_eqb v w && go a b
         | _, _ => false
         end) a b
  | _, _ => false
  end.

Record ScrubWorld := { sw_db : CacheDb; sw_store : CacheStore }.

(** What happens while one artifact is scrubbed: the three quarantines, the
    removal of a corrupt NAR, the statement that ends it, and the clock. *)
Record ScrubInput := {
  si_verify : QuarantineInput;
  si_unlink_fails : bool;
  si_mismatch : QuarantineInput;
  si_root : QuarantineInput;
  si_statement_fails : bool;
  si_now : string;
}.

Definition same_path (x y : string) : bool := bool_decide (components x = components y).

(** [Iterator::collect] into an [Option<Vec>]. *)
Fixpoint all_strings (items : list Value) : option (list string) :=
  match items with
  | [] => Some []
  | Str s :: items => (cons s) <$> all_strings items
  | _ :: _ => None
  end.

Section Scrub.
Context {serde : Serde} {ed25519 : Ed25519} {deps : ProtectedDeps} (sha256 : string → Digest).
(** [sha256_hex] of bytes that need not be text. *)
Context (sha256_hex : list Z → string).

Definition public_key_fingerprint (public_key : string) : string :=
  match split_once ":" public_key with
  | None => ""
  | Some (_, material) =>
      match base64_decode material with
      | Some bytes => if (length bytes =? 32)%nat then sha256_hex bytes else ""
      | None => ""
      end
  end.

(** [is_none_or]: a field that is absent agrees. *)
Definition agrees (field : option Value) (value : string) : bool :=
  match field with None => true | Some v => bool_decide (as_str v = Some value) end.

Definition inventory_matches (artifact : CacheArtifact) (verified : VerifiedClosureManifest)
    (public_key : string) : bool :=
  let a := ca_data (art_row artifact) in
  let root := vc_root_narinfo verified in
  let metadata := art_cache_metadata artifact in
  same_path (ad_path a) (vc_root_nar_path verified)
  && same_path (ad_narinfo_path a) (vc_root_narinfo_path verified)
  && bool_decide (ni_store_path root = ad_store_path a)
  && bool_decide (ni_url root = ad_nar_url a)
  && bool_decide (ni_file_hash root = ad_file_hash a)
  && bool_decide (ni_nar_hash root = ad_nar_hash a)
  && bool_decide (ni_compression root = ad_compression a)
  && ((ad_size_bytes a <=? 0) || (ni_file_size root =? ad_size_bytes a))
  && ((ad_nar_size_bytes a <=? 0) || (ni_nar_size root =? ad_nar_size_bytes a))
  && ((ad_closure_file_size_bytes a <=? 0)
      || (vc_total_file_size_bytes verified =? ad_closure_file_size_bytes a))
  && match as_array (art_references artifact) ≫= all_strings with
     | Some references =>
         bool_decide (list_to_set references =@{gset string} list_to_set (ni_references root))
     | None => false
     end
  && match get "closure_manifest" metadata with
     | None => true
     | Some manifest => value_eqb manifest (vc_manifest verified)
     end
  && agrees (get "closure_manifest_sha256" metadata) (vc_manifest_sha256 verified)
  && agrees (get "public_key_fingerprint" metadata) (public_key_fingerprint public_key).

Definition evaluated_derivation (artifact : CacheArtifact) : option string :=
  manifest ← get "closure_manifest" (art_cache_metadata artifact);
  derivation ← get "evaluated_derivation" manifest; as_str derivation.

Definition verify_cache_artifact_blocking (i : ScrubInput) (cache_root : string)
    (artifact : CacheArtifact) (public_key : string) (s : CacheStore)
    : result string bool * CacheStore :=
  match build_or_quarantine_closure_manifest sha256 (si_verify i) (si_unlink_fails i) cache_root
          (ad_store_path (ca_data (art_row artifact))) (evaluated_derivation artifact) public_key s with
  | (Err e, s) => (Err e, s)
  | (Ok verified, s) =>
      if inventory_matches artifact verified public_key then (Ok true, s) else
      match quarantine_narinfo_records (si_mismatch i) cache_root [vc_root_narinfo_path verified] s with
      | (Err e, s) => (Err e, s)
      | (Ok _, s) => (Ok false, s)
      end
  end.

Definition root_candidates (cache_root : string) (artifact : CacheArtifact) : list string :=
  let a := ca_data (art_row artifact) in
  match narinfo_filename_for_store_path (ad_store_path a) with
  | Ok filename => [cache_root +:+ "/" +:+ filename]
  | Err _ => []
  end ++ [ad_narinfo_path a].

Definition quarantine_cache_artifact_root (i : ScrubInput) (cache_root : string)
    (artifact : CacheArtifact) (s : CacheStore) : result string nat * CacheStore :=
  quarantine_narinfo_records (si_root i) cache_root (root_candidates cache_root artifact) s.

(** Whether the artifact was removed. *)
Definition scrub_cache_artifact (i : ScrubInput) (cache_root : string) (artifact : CacheArtifact)
    (public_key : string) (w : ScrubWorld) : result string bool * ScrubWorld :=
  let id := ca_id (art_row artifact) in
  match verify_cache_artifact_blocking i cache_root artifact public_key (sw_store w) with
  | (Ok true, s) =>
      let w := {| sw_db := sw_db w; sw_store := s |} in
      if si_statement_fails i then (Err "mark cache artifact", w) else
      (Ok false, {| sw_db := mark_cache_artifact_verified id (si_now i) (sw_db w); sw_store := s |})
  | (_, s) =>
      match quarantine_cache_artifact_root i cache_root artifact s with
      | (Err e, s) => (Err e, {| sw_db := sw_db w; sw_store := s |})
      | (Ok _, s) =>
          if si_statement_fails i
          then (Err "delete cache artifact", {| sw_db := sw_db w; sw_store := s |})
          else (Ok true, {| sw_db := delete_cache_artifact id (sw_db w); sw_store := s |})
      end
  end.

(** ** The two passes *)

Context (julianday : string → option Z).
(** The inputs of the [n]-th artifact, and the clock of the statement that selects it. *)
Context (inputs : nat → ScrubInput) (now_ms : nat → Z).

Definition next_due (n : nat) (db : CacheDb) : result string (option CacheArtifact) :=
  match cache_artifacts_due_for_verification julianday (now_ms n) 1 db with
  | Ok candidates => Ok (head candidates)
  | Err _ => Err "cache artifacts due for verification"
  end.

(** The bounded pass, [rounds] artifacts at most: how many were scrubbed and how
    many removed. *)
Fixpoint scrub_due (rounds n : nat) (cache_root public_key : string) (invalid : nat) (w : ScrubWorld)
    : result string (nat * nat) * ScrubWorld :=
  match rounds with
  | O => (Ok (n, invalid), w)
  | S rounds =>
      match next_due n (sw_db w) with
      | Err e => (Err e, w)
      | Ok None => (Ok (n, invalid), w)
      | Ok (Some artifact) =>
          match scrub_cache_artifact (inputs n) cache_root artifact public_key w with
          | (Err e, w) => (Err e, w)
          | (Ok removed, w) =>
              scrub_due rounds (S n) cache_root public_key
                (if removed then S invalid else invalid) w
          end
      end
  end.

(** The pass over every row. *)
Fixpoint scrub_all (fuel n : nat) (cursor : Z) (cache_root public_key : string) (invalid : nat)
    (w : ScrubWorld) : option (result string nat * ScrubWorld) :=
  match fuel with
  | O => None
  | S fuel =>
      match next_cache_artifact cursor (sw_db w) with
      | Err _ => Some (Err "next cache artifact", w)
      | Ok None => Some (Ok invalid, w)
      | Ok (Some artifact) =>
          match scrub_cache_artifact (inputs n) cache_root artifact public_key w with
          | (Err e, w) => Some (Err e, w)
          | (Ok removed, w) =>
              scrub_all fuel (S n) (ca_id (art_row artifact)) cache_root public_key
                (if removed then S invalid else invalid) w
          end
      end
  end.

Context (io : SweepIo).

(** [public_key]: what [ensure_signing_key] answers. *)
Definition scrub_cache_artifacts_locked (cache_root : string) (seed_roots : list string)
    (public_key : result string string) (limit : Z) (w : ScrubWorld)
    : result string nat * ScrubWorld :=
  match next_due 0 (sw_db w) with
  | Err e => (Err e, w)
  | Ok None => (Ok 0%nat, w)
  | Ok (Some _) =>
      match public_key with
      | Err e => (Err e, w)
      | Ok public_key =>
          match scrub_due (Z.to_nat (Z.max limit 1)) 0 cache_root public_key 0 w with
          | (Err e, w) => (Err e, w)
          | (Ok (_, O), w) => (Ok 0%nat, w)
          | (Ok (n, invalid), w) =>
              match scrub_all (S (size (artifacts (sw_db w)))) n 0 cache_root public_key invalid w with
              | None => (Err "out of fuel", w)
              | Some (Err e, w) => (Err e, w)
              | Some (Ok invalid, w) =>
                  match sweep_unreachable_blocking io cache_root
                          (retained_files <$> list_cache_artifact_roots (sw_db w)) seed_roots
                          (cs_files (sw_store w)) with
                  | (Err e, files) =>
                      (Err e, {| sw_db := sw_db w;
                                 sw_store := {| cs_files := files;
                                                cs_quarantine := cs_quarantine (sw_store w) |} |})
                  | (Ok _, files) =>
                      (Ok invalid, {| sw_db := sw_db w;
                                      sw_store := {| cs_files := files;
                                                     cs_quarantine := cs_quarantine (sw_store w) |} |})
                  end
              end
          end
      end
  end.

(** [try_scrub_cache_artifacts]: skipped when the lock is taken. *)
Definition try_scrub_cache_artifacts (lock_free : bool) (cache_root : string)
    (seed_roots : list string) (public_key : result string string) (limit : Z) (w : ScrubWorld)
    : result string (option nat) * ScrubWorld :=
  if lock_free then
    let '(res, w) := scrub_cache_artifacts_locked cache_root seed_roots public_key limit w in
    (match res with Ok n => Ok (Some n) | Err e => Err e end, w)
  else (Ok None, w).

End Scrub.
