(* ===== verification/ScrubProofs.v ===== *)
(** * The scrub: proofs

    A scrub only removes narinfo files and rows; a row it removes is no longer
    served, and when it removed one, every row that is left was verified during
    the run. *)

From stdpp Require Import sorting base gmap list strings.
From Stdlib Require Import Ascii ZArith Lia.
From S2P Require Import Prelude RustStr RustText Json DbText Assets BuildJobs CacheArtifacts CacheArtifactsProofs NixBase32 NarInfo ProtectedText ProtectedMaterial CacheSweep CacheSweepProofs ClosureManifest ClosureManifestProofs ClosureTheorems Scrub.

#[local] Open Scope Z_scope.
#[local] Open Scope nest_scope.

(** ** Narinfo files only go *)

Definition root_entry (s : CacheStore) (name : string) : option Entry := cf_root (cs_files s) !! name.

Definition shrinks (s s' : CacheStore) : Prop :=
  ∀ name, ends_with ".narinfo" name = true → root_entry s' name = root_entry s name ∨ root_entry s' name = None.

#[global] Instance shrinks_preorder : PreOrder shrinks.
Proof.
  split; [by left|]. intros s1 s2 s3 H12 H23 name Hn.
  destruct (H23 name Hn) as [->|]; [by apply H12|by right].
Qed.

Lemma shrinks_gone s s' name :
  shrinks s s' → ends_with ".narinfo" name = true → root_entry s name = None → root_entry s' name = None.
Proof. intros H Hn Hs. destruct (H name Hn) as [->|]; done. Qed.

(** The hidden names ([.tiaris-quarantine-<pid>-<nonce>-<index>]) are not those of
    narinfo files. *)
Definition plain_hidden (q : QuarantineInput) : Prop :=
  ∀ name hidden, q_outcome q name = ArchiveFails hidden → ends_with ".narinfo" hidden = false.

Section Quarantine.
Context (q : QuarantineInput) (Hq : plain_hidden q).

Lemma quarantine_each_shrinks names moved s : shrinks s (quarantine_each q names moved s).2.
Proof.
  revert moved s. induction names as [|name names IH]; intros moved s; simpl; [reflexivity|].
  destruct (cf_root (cs_files s) !! name) as [e|]; [|reflexivity].
  destruct (q_outcome q name) as [| |hidden] eqn:Ho; [|reflexivity|].
  - transitivity (archive name e (with_root (delete name) s)); [|apply IH].
    intros n _. unfold root_entry. simpl. destruct (decide (n = name)) as [->|Hne].
    + right. apply lookup_delete_eq.
    + left. by apply lookup_delete_ne.
  - intros n Hn. unfold root_entry. simpl.
    rewrite lookup_insert_ne by (intros <-; by rewrite (Hq _ _ Ho) in Hn).
    destruct (decide (n = name)) as [->|Hne]; [right; apply lookup_delete_eq|left; by apply lookup_delete_ne].
Qed.

Lemma quarantine_shrinks cache_root paths s :
  shrinks s (quarantine_narinfo_records q cache_root paths s).2.
Proof.
  unfold quarantine_narinfo_records. destruct (quarantine_candidates _ _ _); [reflexivity|].
  destruct (negb _); [reflexivity|]. apply quarantine_each_shrinks.
Qed.

Lemma quarantine_each_gone names moved s n s' :
  Forall (λ name, ends_with ".narinfo" name = true) names →
  quarantine_each q names moved s = (Ok n, s') → ∀ name, name ∈ names → root_entry s' name = None.
Proof.
  intros Hall. revert moved s. induction Hall as [|x names Hx Hall IH]; intros moved s; simpl; [set_solver|].
  destruct (cf_root (cs_files s) !! x) as [e|]; [|done].
  destruct (q_outcome q x) as [| |hidden]; [|done..]. intros Hrun name [->|Hin]%elem_of_cons.
  - pose proof (quarantine_each_shrinks names (S moved) (archive x e (with_root (delete x) s))) as Hs.
    rewrite Hrun in Hs. eapply shrinks_gone; [exact Hs|done|]. unfold root_entry. simpl.
    apply lookup_delete_eq.
  - by eapply IH.
Qed.

Lemma root_member_narinfo cache_root path name :
  root_member cache_root path = Some name → ends_with ".narinfo" name = true.
Proof.
  unfold root_member. destruct (file_name path) as [n|]; [|done].
  destruct (_ && _ && ends_with ".narinfo" n && _) eqn:E; [|done]. intros [= <-].
  apply andb_true_iff in E as [E _]. by apply andb_true_iff in E as [_ E].
Qed.

Lemma elem_of_candidates_quarantined cache_root paths s name :
  name ∈ quarantine_candidates cache_root paths s ↔
  (∃ path, path ∈ paths ∧ root_member cache_root path = Some name) ∧ is_Some (root_entry s name).
Proof.
  unfold quarantine_candidates, root_entry.
  rewrite first_occurrences_spec, !list_elem_of_In, filter_In, bool_decide_eq_true.
  rewrite <-!list_elem_of_In, list_elem_of_omap. split.
  - intros [[H1 H2] _]. done.
  - intros [H1 H2]. split; [done|]. apply not_elem_of_nil.
Qed.

(** What was asked to be withdrawn is not served any more. *)
Lemma quarantine_gone cache_root paths s n s' path name :
  quarantine_narinfo_records q cache_root paths s = (Ok n, s') →
  path ∈ paths → root_member cache_root path = Some name → root_entry s' name = None.
Proof.
  unfold quarantine_narinfo_records. intros Hrun Hin Hm.
  pose proof (elem_of_candidates_quarantined cache_root paths s) as Hc.
  assert (Forall (λ name, ends_with ".narinfo" name = true) (quarantine_candidates cache_root paths s)) as Hall.
  { apply Forall_forall. intros x ((p & _ & Hp) & _)%Hc. by eapply root_member_narinfo. }
  pose proof (quarantine_shrinks cache_root paths s) as Hs. unfold quarantine_narinfo_records in Hs.
  destruct (root_entry s name) as [e|] eqn:He.
  - assert (name ∈ quarantine_candidates cache_root paths s) as Hn by (apply Hc; eauto).
    destruct (quarantine_candidates cache_root paths s) as [|x l]; [by apply not_elem_of_nil in Hn|].
    destruct (negb _); [done|]. by eapply quarantine_each_gone.
  - rewrite Hrun in Hs. eapply shrinks_gone; [exact Hs|by eapply root_member_narinfo|done].
Qed.

(** Nothing fails: the quarantine succeeds. *)
Definition benign_quarantine : Prop := q_ready q = true ∧ ∀ name, q_outcome q name = Archived.

Lemma quarantine_each_total names moved s :
  benign_quarantine → NoDup names → (∀ name, name ∈ names → is_Some (root_entry s name)) →
  is_ok (quarantine_each q names moved s).1 = true.
Proof.
  intros Hb Hnd. revert moved s. induction Hnd as [|x names Hx Hnd IH]; intros moved s Hs; simpl; [done|].
  destruct (Hs x ltac:(by left)) as [e He]. unfold root_entry in He. rewrite He.
  rewrite (proj2 Hb x). apply IH. intros name Hn. unfold root_entry. simpl.
  rewrite lookup_delete_ne by (intros ->; done). apply Hs. by right.
Qed.

Lemma quarantine_total cache_root paths s :
  benign_quarantine → is_ok (quarantine_narinfo_records q cache_root paths s).1 = true.
Proof.
  intros Hb. unfold quarantine_narinfo_records.
  pose proof (λ name, proj1 (elem_of_candidates_quarantined cache_root paths s name)) as Hc.
  pose proof (first_occurrences_NoDup [] (List.filter (λ name, bool_decide (is_Some (cf_root (cs_files s) !! name)))
      (omap (root_member cache_root) paths))) as Hnd. fold (quarantine_candidates cache_root paths s) in Hnd.
  destruct (quarantine_candidates cache_root paths s) as [|x l]; [done|].
  rewrite (proj1 Hb). apply quarantine_each_total; [done..|]. intros name Hn. by apply Hc.
Qed.

End Quarantine.

(** ** One artifact *)

(** The fields of a row that a scrub leaves alone. *)
Definition same_artifact (row row' : CacheArtifactRow) : Prop :=
  ca_id row' = ca_id row ∧ artifact_key row' = artifact_key row ∧ ca_data row' = ca_data row.

#[global] Instance same_artifact_preorder : PreOrder same_artifact.
Proof.
  split; [done|]. intros x y z (H1 & H2 & H3) (H4 & H5 & H6). unfold same_artifact.
  by rewrite H4, H5, H6.
Qed.

(** Neither the canonical nor the recorded narinfo file of the row is served. *)
Definition unserved (cache_root : string) (row : CacheArtifactRow) (s : CacheStore) : Prop :=
  let a := ca_data row in
  (∀ filename, narinfo_filename_for_store_path (ad_store_path a) = Ok filename →
     root_entry s filename = None) ∧
  (∀ name, root_member cache_root (ad_narinfo_path a) = Some name → root_entry s name = None).

Lemma unserved_shrinks cache_root row s s' :
  shrinks s s' → unserved cache_root row s → unserved cache_root row s'.
Proof.
  intros Hs [H1 H2]. split.
  - intros f Hf. eapply shrinks_gone; [exact Hs| |by apply H1].
    by destruct (narinfo_filename_plain _ _ Hf) as (_ & ? & _).
  - intros n Hn. eapply shrinks_gone; [exact Hs| |by apply H2]. by eapply root_member_narinfo.
Qed.

Lemma unserved_same cache_root row row' s :
  same_artifact row row' → unserved cache_root row' s → unserved cache_root row s.
Proof. intros (_ & _ & H). unfold unserved. by rewrite H. Qed.

Definition input_ok (i : ScrubInput) : Prop :=
  plain_hidden (si_verify i) ∧ plain_hidden (si_mismatch i) ∧ plain_hidden (si_root i).

Definition benign (i : ScrubInput) : Prop :=
  benign_quarantine (si_root i) ∧ si_statement_fails i = false.

Section One.
Context {serde : Serde} {ed25519 : Ed25519} {deps : ProtectedDeps} (sha256 : string → Digest).
Context (sha256_hex : list Z → string) (cache_root key : string).

(** The files hold the closure of the artifact, and the row describes it. *)
Definition verifies (files : CacheFiles) (artifact : CacheArtifact) : Prop :=
  ∃ v inspected,
    build_closure_manifest sha256 files cache_root (ad_store_path (ca_data (art_row artifact)))
      (evaluated_derivation artifact) key = (Ok v, inspected) ∧
    inventory_matches sha256_hex artifact v key = true.

Lemma build_or_quarantine_shrinks q unlink_fails root derivation s :
  plain_hidden q →
  shrinks s (build_or_quarantine_closure_manifest sha256 q unlink_fails cache_root root derivation key s).2.
Proof.
  intros Hq. unfold build_or_quarantine_closure_manifest.
  destruct (build_closure_manifest _ _ _ _ _ _) as [[v|e] inspected]; [reflexivity|]. cbv zeta.
  set (paths := (_ <$> option_list (head inspected)) ++ _).
  pose proof (quarantine_shrinks q Hq cache_root paths s) as Hs.
  destruct (quarantine_narinfo_records q cache_root paths s) as [[n|m] s1]; simpl in Hs |- *; [|done].
  destruct e as [m|reason [fn|]]; try done. destruct (cf_nar (cs_files s1)) as [nar|]; [|done].
  destruct (_ && _); [done|]. intros name Hn. apply (Hs name Hn).
Qed.

Lemma verify_cache_artifact_spec i artifact s :
  input_ok i →
  let '(res, s') := verify_cache_artifact_blocking sha256 sha256_hex i cache_root artifact key s in
  shrinks s s' ∧ (res = Ok true → s' = s ∧ verifies (cs_files s) artifact).
Proof.
  intros (Hv & Hm & _). unfold verify_cache_artifact_blocking.
  pose proof (build_or_quarantine_shrinks (si_verify i) (si_unlink_fails i)
    (ad_store_path (ca_data (art_row artifact))) (evaluated_derivation artifact) s Hv) as Hs.
  unfold build_or_quarantine_closure_manifest in *.
  destruct (build_closure_manifest _ _ _ _ _ _) as [[v|e] inspected] eqn:Hb.
  - destruct (inventory_matches _ _ _ _) eqn:Hi.
    + split; [reflexivity|]. intros _. split; [done|]. by exists v, inspected.
    + pose proof (quarantine_shrinks _ Hm cache_root [vc_root_narinfo_path v] s) as Hs'.
      by destruct (quarantine_narinfo_records _ _ _ _) as [[n|e] s'].
  - destruct (match quarantine_narinfo_records _ _ _ _ with | (Ok _, _) => _ | (Err _, _) => _ end)
      as [[v|e'] s'] eqn:E; [|done].
    exfalso. revert E. clear. destruct (quarantine_narinfo_records _ _ _ _) as [[n|m] s1]; [|done].
    destruct e as [m|reason [fn|]]; [done| |done]. destruct (cf_nar (cs_files s1)); [|done].
    by destruct (_ && _).
Qed.

Definition scrubbed_away (artifact : CacheArtifact) (w w' : ScrubWorld) : Prop :=
  sw_db w' = delete_cache_artifact (ca_id (art_row artifact)) (sw_db w) ∧
  unserved cache_root (art_row artifact) (sw_store w').

Lemma scrub_cache_artifact_spec i artifact w :
  input_ok i → is_absolute cache_root = true →
  let '(res, w') := scrub_cache_artifact sha256 sha256_hex i cache_root artifact key w in
  shrinks (sw_store w) (sw_store w') ∧
  match res with
  | Ok false => sw_store w' = sw_store w ∧ verifies (cs_files (sw_store w)) artifact ∧
      sw_db w' = mark_cache_artifact_verified (ca_id (art_row artifact)) (si_now i) (sw_db w)
  | Ok true => scrubbed_away artifact w w'
  | Err _ => sw_db w' = sw_db w ∧ ¬ benign i
  end.
Proof.
  intros Hi Habs. unfold scrub_cache_artifact.
  pose proof (verify_cache_artifact_spec i artifact (sw_store w) Hi) as Hv.
  destruct (verify_cache_artifact_blocking _ _ _ _ _ _ _) as [res s]. destruct Hv as [Hs Hok].
  set (rest := match quarantine_cache_artifact_root i cache_root artifact s with
               | (Ok _, _) => _ | (Err _, _) => _ end).
  assert (let '(res, w') := rest in shrinks (sw_store w) (sw_store w') ∧
    match res with
    | Ok false => False
    | Ok true => scrubbed_away artifact w w'
    | Err _ => sw_db w' = sw_db w ∧ ¬ benign i
    end) as Hrest.
  { subst rest. unfold quarantine_cache_artifact_root. destruct Hi as (_ & _ & Hr).
    pose proof (quarantine_shrinks _ Hr cache_root (root_candidates cache_root artifact) s) as Hs'.
    pose proof (quarantine_gone _ Hr cache_root (root_candidates cache_root artifact) s) as Hg.
    pose proof (quarantine_total (si_root i) cache_root (root_candidates cache_root artifact) s) as Ht.
    destruct (quarantine_narinfo_records _ _ _ _) as [[n|e] s']; simpl in Hs', Ht.
    - destruct (si_statement_fails i) eqn:Hf.
      + split; [by transitivity s|]. split; [done|]. intros [_ Hb]. by rewrite Hb in Hf.
      + split; [by transitivity s|]. split; [done|]. split.
        * intros f Hfn. eapply Hg; [done| |apply root_member_plain; [done|by eapply narinfo_filename_plain]].
          unfold root_candidates. rewrite Hfn. by left.
        * intros name Hn. eapply Hg; [done| |exact Hn]. unfold root_candidates.
          apply elem_of_app. right. by left.
    - split; [by transitivity s|]. split; [done|]. intros [Hb _]. by apply Ht in Hb. }
  destruct res as [[]|e].
  - destruct (Hok eq_refl) as [-> Hver]. simpl.
    destruct (si_statement_fails i) eqn:Hf; (split; [reflexivity|]); [|done].
    split; [done|]. intros [_ Hb]. congruence.
  - destruct rest as [[[]|e'] w']; [done|by destruct Hrest|done].
  - destruct rest as [[[]|e'] w']; [done|by destruct Hrest|done].
Qed.

End One.

(** ** The passes *)

Definition ids_match (db : CacheDb) : Prop :=
  ∀ id row, artifacts db !! id = Some row → ca_id row = id.

Definition present (db : CacheDb) (row : CacheArtifactRow) : Prop :=
  artifacts db !! ca_id row = Some row.

Lemma elem_of_rows_present db row : ids_match db → row ∈ artifact_rows db ↔ present db row.
Proof.
  intros Hids. rewrite elem_of_artifact_rows. unfold present. split; [|eauto].
  intros [id Hrow]. by rewrite (Hids _ _ Hrow).
Qed.

(** [n] rows were removed between the two worlds, and what that means. *)
Record evolves (cache_root : string) (n : nat) (w w' : ScrubWorld) : Prop := {
  ev_store : shrinks (sw_store w) (sw_store w');
  ev_rows : ∀ id row', artifacts (sw_db w') !! id = Some row' →
    ∃ row, artifacts (sw_db w) !! id = Some row ∧ same_artifact row row';
  ev_gone : ∀ id row, artifacts (sw_db w) !! id = Some row → artifacts (sw_db w') !! id = None →
    unserved cache_root row (sw_store w');
  ev_size : size (artifacts (sw_db w)) = (size (artifacts (sw_db w')) + n)%nat;
}.

Lemma evolves_refl cache_root w : evolves cache_root 0 w w.
Proof.
  split; [reflexivity| | |lia].
  - intros id row' H. exists row'. split; [done|reflexivity].
  - intros id row H1 H2. congruence.
Qed.

Lemma evolves_trans cache_root n m w1 w2 w3 :
  evolves cache_root n w1 w2 → evolves cache_root m w2 w3 → evolves cache_root (n + m) w1 w3.
Proof.
  intros [Hs1 Hr1 Hg1 Hn1] [Hs2 Hr2 Hg2 Hn2]. split; [by transitivity (sw_store w2)| | |lia].
  - intros id row3 (row2 & H2 & H23)%Hr2. destruct (Hr1 _ _ H2) as (row1 & H1 & H12).
    exists row1. split; [done|by transitivity row2].
  - intros id row1 H1 H3. destruct (artifacts (sw_db w2) !! id) as [row2|] eqn:H2.
    + destruct (Hr1 _ _ H2) as (row & Hrow & Hsame). rewrite H1 in Hrow. injection Hrow as <-.
      eapply unserved_same; [exact Hsame|]. by apply (Hg2 id).
    + eapply unserved_shrinks; [exact Hs2|]. by apply (Hg1 id).
Qed.

Lemma evolves_ids cache_root n w w' : evolves cache_root n w w' → ids_match (sw_db w) → ids_match (sw_db w').
Proof.
  intros Hev Hids id row' (row & Hrow & [Hid _])%(ev_rows _ _ _ _ Hev). rewrite Hid. by apply Hids.
Qed.

Lemma mark_evolves_row cache_root row now db s s' :
  present db row → shrinks s s' →
  evolves cache_root 0 {| sw_db := db; sw_store := s |}
    {| sw_db := mark_cache_artifact_verified (ca_id row) now db; sw_store := s' |}.
Proof.
  intros Hrow Hs. unfold mark_cache_artifact_verified. unfold present in Hrow. rewrite Hrow.
  split; simpl; [done| | |].
  - intros id row' [[<- <-]|[Hne H]]%lookup_insert_Some; eexists; (split; [done|]); [done|reflexivity].
  - intros id row0 H1 [H2 _]%lookup_insert_None. congruence.
  - rewrite map_size_insert_Some by eauto. lia.
Qed.

Lemma delete_evolves_row cache_root row db s s' :
  present db row → shrinks s s' → unserved cache_root row s' →
  evolves cache_root 1 {| sw_db := db; sw_store := s |}
    {| sw_db := delete_cache_artifact (ca_id row) db; sw_store := s' |}.
Proof.
  intros Hrow Hs Hu. unfold delete_cache_artifact. unfold present in Hrow. rewrite Hrow.
  split; simpl; [done| | |].
  - intros id row' [Hne H]%lookup_delete_Some. exists row'. split; [done|reflexivity].
  - intros id row0 H1 [<-|H2]%lookup_delete_None; congruence.
  - rewrite map_size_delete_Some by eauto.
    assert (size (artifacts db) ≠ 0%nat); [|lia]. intros H0%map_size_empty_inv. rewrite H0 in Hrow.
    by rewrite lookup_empty in Hrow.
Qed.

(** Every row decodes. *)
Definition decodes {serde : Serde} (db : CacheDb) : Prop :=
  ∀ id row, artifacts db !! id = Some row → is_ok (artifact_from_row row) = true.

Lemma artifact_from_row_same {serde : Serde} row row' :
  same_artifact row row' → is_ok (artifact_from_row row') = is_ok (artifact_from_row row).
Proof.
  intros (_ & _ & H). unfold artifact_from_row. rewrite H.
  destruct (json_from_db _ _); simpl; [|done]. by destruct (metadata_from_db _ _).
Qed.

Lemma artifact_from_row_Ok {serde : Serde} row artifact :
  artifact_from_row row = Ok artifact → art_row artifact = row.
Proof.
  unfold artifact_from_row. intros (r & _ & H)%rbind_Ok. apply rbind_Ok in H as (m & _ & [= <-]). done.
Qed.

Lemma evolves_decodes {serde : Serde} cache_root n w w' :
  evolves cache_root n w w' → decodes (sw_db w) → decodes (sw_db w').
Proof.
  intros Hev Hd id row' (row & Hrow & Hsame)%(ev_rows _ _ _ _ Hev).
  rewrite (artifact_from_row_same _ _ Hsame). by eapply Hd.
Qed.

Lemma next_due_spec {serde : Serde} julianday now_ms n db :
  ids_match db →
  match next_due julianday now_ms n db with
  | Ok (Some artifact) => present db (art_row artifact)
  | Ok None => True
  | Err _ => ¬ decodes db
  end.
Proof.
  intros Hids. unfold next_due, cache_artifacts_due_for_verification.
  assert (∀ row, row ∈ due_rows julianday (now_ms n) 1 db → present db row) as Hin.
  { intros row H. apply elem_of_rows_present; [done|]. unfold due_rows in H.
    apply elem_of_take in H as (j & H & _). apply list_elem_of_lookup_2 in H.
    rewrite merge_sort_Permutation in H. apply list_elem_of_In, filter_In in H as [H _].
    by apply list_elem_of_In. }
  assert (∀ l, (∀ row, row ∈ l → present db row) → decodes db → is_ok (cache_artifact_rows_to_models l) = true) as Htot.
  { intros l Hl Hd. induction l as [|row l IH]; simpl; [done|].
    pose proof (Hd _ _ (Hl row ltac:(by left))) as Hrow.
    destruct (artifact_from_row row) as [a|]; simpl; [|done].
    assert (is_ok (cache_artifact_rows_to_models l) = true) as Hr by (apply IH; intros r Hr; apply Hl; by right).
    by destruct (cache_artifact_rows_to_models l). }
  specialize (Htot _ Hin). destruct (due_rows julianday (now_ms n) 1 db) as [|row l]; simpl; [done|].
  simpl in Htot. destruct (artifact_from_row row) as [a|e] eqn:Ha; simpl in Htot |- *.
  - destruct (cache_artifact_rows_to_models l); simpl in Htot |- *; [|intros Hd; by apply Htot in Hd].
    rewrite (artifact_from_row_Ok _ _ Ha). apply Hin. by left.
  - intros Hd. by apply Htot in Hd.
Qed.

Lemma next_cache_artifact_spec {serde : Serde} cursor db :
  ids_match db →
  match next_cache_artifact cursor db with
  | Ok (Some artifact) => present db (art_row artifact) ∧ cursor < ca_id (art_row artifact) ∧
      ∀ id row, artifacts db !! id = Some row → cursor < id → ca_id (art_row artifact) ≤ id
  | Ok None => ∀ id row, artifacts db !! id = Some row → id ≤ cursor
  | Err _ => ¬ decodes db
  end.
Proof.
  intros Hids. unfold next_cache_artifact.
  set (l := List.filter (λ row, cursor <? ca_id row) (artifact_rows db)).
  assert (∀ row, row ∈ merge_sort id_le l ↔ present db row ∧ cursor < ca_id row) as Hin.
  { intros row. rewrite merge_sort_Permutation. unfold l.
    rewrite list_elem_of_In, filter_In, <-list_elem_of_In, elem_of_rows_present by done. split; intros [? ?]; split; lia || done. }
  assert (StronglySorted id_le (merge_sort id_le l)) as Hsorted.
  { apply StronglySorted_merge_sort. unfold id_le. intros x y z ? ?. lia. intros x y. unfold id_le. lia. }
  destruct (merge_sort id_le l) as [|row rest].
  - intros id row Hrow. destruct (decide (id ≤ cursor)) as [|Hlt]; [done|exfalso].
    apply (not_elem_of_nil row), Hin. unfold present. rewrite (Hids _ _ Hrow). split; [done|lia].
  - destruct (proj1 (Hin row) ltac:(by left)) as [Hp Hlt].
    destruct (artifact_from_row row) as [a|e] eqn:Ha; simpl.
    + rewrite (artifact_from_row_Ok _ _ Ha). split_and!; [done..|]. intros id row' Hrow' Hid.
      assert (row' ∈ row :: rest) as [->|Hr]%elem_of_cons
        by (apply Hin; unfold present; rewrite (Hids _ _ Hrow'); done).
      * by rewrite <-(Hids _ _ Hrow').
      * apply StronglySorted_inv in Hsorted as [_ Hall]. rewrite Forall_forall in Hall.
        apply Hall in Hr. unfold id_le in Hr. by rewrite (Hids _ _ Hrow') in Hr.
    + intros Hd. specialize (Hd _ _ Hp). by rewrite Ha in Hd.
Qed.

Section Passes.
Context {serde : Serde} {ed25519 : Ed25519} {deps : ProtectedDeps} (sha256 : string → Digest).
Context (sha256_hex : list Z → string) (cache_root key : string).
Context (julianday : string → option Z) (inputs : nat → ScrubInput) (now_ms : nat → Z).
Context (Hinputs : ∀ n, input_ok (inputs n)) (Habs : is_absolute cache_root = true).

Abbreviation scrub_one i a w := (scrub_cache_artifact sha256 sha256_hex i cache_root a key w).

(** The artifact of the row verified against the files of a moment between. *)
Definition verified_between (w w' : ScrubWorld) (row' : CacheArtifactRow) : Prop :=
  ∃ s artifact, shrinks (sw_store w) s ∧ shrinks s (sw_store w') ∧
    same_artifact (art_row artifact) row' ∧ verifies sha256 sha256_hex cache_root key (cs_files s) artifact.

Lemma verified_between_widen w0 w w' w1 row row' :
  shrinks (sw_store w0) (sw_store w) → shrinks (sw_store w') (sw_store w1) → same_artifact row row' →
  verified_between w w' row → verified_between w0 w1 row'.
Proof.
  intros H0 H1 Hsame (s & a & Ha & Hb & Hr & Hv). exists s, a.
  split_and!; [by transitivity (sw_store w)|by transitivity (sw_store w')|by transitivity row|done].
Qed.

Lemma scrub_one_step i artifact w :
  input_ok i → present (sw_db w) (art_row artifact) →
  let '(res, w') := scrub_one i artifact w in
  match res with
  | Ok removed =>
      evolves cache_root (if removed then 1 else 0) w w' ∧
      (removed = true → artifacts (sw_db w') !! ca_id (art_row artifact) = None) ∧
      (removed = false → sw_store w' = sw_store w ∧
         ∀ row', artifacts (sw_db w') !! ca_id (art_row artifact) = Some row' → verified_between w w' row')
  | Err _ => evolves cache_root 0 w w' ∧ ¬ benign i
  end.
Proof.
  intros Hi Hp. pose proof (scrub_cache_artifact_spec sha256 sha256_hex cache_root key i artifact w Hi Habs) as H.
  destruct (scrub_one i artifact w) as [[[]|e] w']; destruct H as [Hs H].
  - destruct H as [Hdb Hu]. destruct w as [db s], w' as [db' s']. simpl in *. subst db'.
    split_and!; [by apply delete_evolves_row| |done].
    intros _. unfold delete_cache_artifact. unfold present in Hp. rewrite Hp. simpl. apply lookup_delete_eq.
  - destruct H as (Hst & Hv & Hdb). destruct w as [db s], w' as [db' s']. simpl in *. subst db' s'.
    assert (evolves cache_root 0 {| sw_db := db; sw_store := s |}
      {| sw_db := mark_cache_artifact_verified (ca_id (art_row artifact)) (si_now i) db; sw_store := s |}) as Hev
      by by apply mark_evolves_row.
    split_and!; [done..|]. intros _. split; [done|]. intros row' Hrow'.
    destruct (ev_rows _ _ _ _ Hev _ _ Hrow') as (row & Hrow & Hsame). unfold present in Hp. simpl in Hrow.
    rewrite Hp in Hrow. injection Hrow as <-. by exists s, artifact.
  - destruct H as [Hdb Hb]. destruct w as [db s], w' as [db' s']. simpl in *. subst db'. split; [|done].
    split; simpl; [done| | |lia].
    + intros id row' Hr. exists row'. split; [done|reflexivity].
    + intros id row H1 H2. congruence.
Qed.

Lemma scrub_due_spec rounds n invalid w :
  ids_match (sw_db w) →
  let '(res, w') := scrub_due sha256 sha256_hex julianday inputs now_ms rounds n cache_root key invalid w in
  ∃ k, evolves cache_root k w w' ∧
    (∀ n' invalid', res = Ok (n', invalid') →
       invalid' = (invalid + k)%nat ∧ (k = 0%nat → sw_store w' = sw_store w)) ∧
    (decodes (sw_db w) → (∀ j, benign (inputs j)) → is_ok res = true).
Proof.
  revert n invalid w. induction rounds as [|rounds IH]; intros n invalid w Hids; simpl.
  { exists 0%nat. split_and!; [apply evolves_refl|intros ? ? [= <- <-]; split; [lia|done]|done]. }
  pose proof (next_due_spec julianday now_ms n (sw_db w) Hids) as Hnext.
  destruct (next_due julianday now_ms n (sw_db w)) as [[artifact|]|e].
  - pose proof (scrub_one_step (inputs n) artifact w (Hinputs n) Hnext) as Hstep.
    destruct (scrub_one (inputs n) artifact w) as [[removed|e] w1].
    + destruct Hstep as (Hev & _ & Hkeep).
      specialize (IH (S n) (if removed then S invalid else invalid) w1 (evolves_ids _ _ _ _ Hev Hids)).
      destruct (scrub_due _ _ _ _ _ _ _ _ _ _ _) as [res w']. destruct IH as (k & Hev' & Hok & Htot).
      exists ((if removed then 1 else 0) + k)%nat. split_and!.
      * by eapply evolves_trans.
      * intros n' invalid' Hres. destruct (Hok _ _ Hres) as [-> Hsame].
        destruct removed; (split; [lia|]); [lia|]. intros Hk. rewrite Hsame by lia.
        by destruct (Hkeep eq_refl).
      * intros Hd. apply Htot. by eapply evolves_decodes.
    + destruct Hstep as [Hev Hb]. exists 0%nat. split_and!; [done..|]. intros _ H. by apply Hb in H.
  - exists 0%nat. split_and!; [apply evolves_refl|intros ? ? [= <- <-]; split; [lia|done]|done].
  - exists 0%nat. split_and!; [apply evolves_refl|done|]. intros Hd. by apply Hnext in Hd.
Qed.

Definition rows_after (cursor : Z) (db : CacheDb) : gset Z := filter (λ id, cursor < id) (dom (artifacts db)).

Lemma rows_after_lt cursor db db' id :
  (∀ j, is_Some (artifacts db' !! j) → is_Some (artifacts db !! j)) →
  is_Some (artifacts db !! id) → cursor < id →
  (size (rows_after id db') < size (rows_after cursor db))%nat.
Proof.
  intros Hsub Hid Hlt. apply subset_size. unfold rows_after. split.
  - intros j. rewrite !elem_of_filter, !elem_of_dom. intros [Hj Hs]. split; [lia|by apply Hsub].
  - intros H. specialize (H id). rewrite !elem_of_filter, !elem_of_dom in H.
    destruct H as [H _]; [done|]. lia.
Qed.

Lemma scrub_all_spec fuel n cursor invalid w :
  ids_match (sw_db w) → (size (rows_after cursor (sw_db w)) < fuel)%nat →
  ∃ res w', scrub_all sha256 sha256_hex inputs fuel n cursor cache_root key invalid w = Some (res, w') ∧
  ∃ k, evolves cache_root k w w' ∧
    (∀ invalid', res = Ok invalid' → invalid' = (invalid + k)%nat ∧
       ∀ id row', artifacts (sw_db w') !! id = Some row' → cursor < id → verified_between w w' row') ∧
    (decodes (sw_db w) → (∀ j, benign (inputs j)) → is_ok res = true).
Proof.
  revert n cursor invalid w. induction fuel as [|fuel IH]; intros n cursor invalid w Hids Hfuel; [lia|].
  simpl. pose proof (next_cache_artifact_spec cursor (sw_db w) Hids) as Hnext.
  destruct (next_cache_artifact cursor (sw_db w)) as [[artifact|]|e].
  - destruct Hnext as (Hp & Hlt & Hmin).
    pose proof (scrub_one_step (inputs n) artifact w (Hinputs n) Hp) as Hstep.
    destruct (scrub_one (inputs n) artifact w) as [[removed|e] w1].
    + destruct Hstep as (Hev & Hgone & Hkeep).
      destruct (IH (S n) (ca_id (art_row artifact)) (if removed then S invalid else invalid) w1)
        as (res & w' & -> & k & Hev' & Hok & Htot).
      { by eapply evolves_ids. }
      { assert (size (rows_after (ca_id (art_row artifact)) (sw_db w1)) < size (rows_after cursor (sw_db w)))%nat;
          [|lia]. apply rows_after_lt; [|eexists; exact Hp|done].
        intros j [row (row0 & ? & _)%(ev_rows _ _ _ _ Hev)]. eauto. }
      eexists _, _. split; [done|]. exists ((if removed then 1 else 0) + k)%nat. split_and!.
      * by eapply evolves_trans.
      * intros invalid' Hres. destruct (Hok _ Hres) as [-> Hver]. split; [destruct removed; lia|].
        intros id row' Hrow' Hid.
        destruct (ev_rows _ _ _ _ Hev' _ _ Hrow') as (row1 & Hrow1 & Hsame1).
        destruct (ev_rows _ _ _ _ Hev _ _ Hrow1) as (row0 & Hrow0 & _).
        pose proof (Hmin _ _ Hrow0 Hid) as Hge.
        destruct (decide (id = ca_id (art_row artifact))) as [->|Hne].
        -- destruct removed; [rewrite Hgone in Hrow1; done|]. destruct (Hkeep eq_refl) as [_ Hv].
           eapply verified_between_widen; [reflexivity|apply (ev_store _ _ _ _ Hev')|exact Hsame1|by apply Hv].
        -- eapply verified_between_widen; [apply (ev_store _ _ _ _ Hev)|reflexivity|reflexivity|].
           eapply Hver; [exact Hrow'|lia].
      * intros Hd. apply Htot. by eapply evolves_decodes.
    + destruct Hstep as [Hev Hb]. eexists _, _. split; [done|]. exists 0%nat.
      split_and!; [done..|]. intros _ H. by apply Hb in H.
  - eexists _, _. split; [done|]. exists 0%nat. split_and!; [apply evolves_refl| |done].
    intros invalid' [= <-]. split; [lia|]. intros id row' Hrow' Hid. apply Hnext in Hrow'. lia.
  - eexists _, _. split; [done|]. exists 0%nat. split_and!; [apply evolves_refl|done|].
    intros Hd. by apply Hnext in Hd.
Qed.

End Passes.

(** ** The whole scrub *)

Section Whole.
Context {serde : Serde} {ed25519 : Ed25519} {deps : ProtectedDeps} (sha256 : string → Digest).
Context (sha256_hex : list Z → string) (julianday : string → option Z).
Context (inputs : nat → ScrubInput) (now_ms : nat → Z).
Context (io : SweepIo) (lists : io_lists io).
Context (cache_root : string) (seed_roots : list string) (limit : Z).

Lemma sweep_evolves n w w' files :
  evolves cache_root n w w' → cf_root files ⊆ cf_root (cs_files (sw_store w')) →
  evolves cache_root n w {| sw_db := sw_db w'; sw_store := {| cs_files := files; cs_quarantine := cs_quarantine (sw_store w') |} |}.
Proof.
  intros Hev Hsub. rewrite <-(Nat.add_0_r n). eapply evolves_trans; [exact Hev|].
  split; simpl; [| | |lia].
  - intros name _. unfold root_entry. simpl. destruct (cf_root files !! name) as [e|] eqn:He; [|by right].
    left. symmetry. by eapply lookup_weaken.
  - intros id row' H. exists row'. split; [done|reflexivity].
  - intros id row H1 H2. congruence.
Qed.

(** A scrub only marks and removes rows.  A row it removes is not served any more,
    not even when the scrub then fails.  It counts what it removed; when that is
    nothing it changed no file, and otherwise every row that is left was verified
    against the files during the run.  It succeeds when every row decodes, the key
    is there and no file operation or statement fails. *)
Theorem scrub_withdraws_what_it_removes public_key w :
  (∀ n, input_ok (inputs n)) → is_absolute cache_root = true → ids_match (sw_db w) →
  (∀ id, is_Some (artifacts (sw_db w) !! id) → 0 < id) →
  let '(res, w') := scrub_cache_artifacts_locked sha256 sha256_hex julianday inputs now_ms io
                      cache_root seed_roots public_key limit w in
  (∃ k, evolves cache_root k w w' ∧ ∀ n, res = Ok n → n = k) ∧
  (res = Ok 0%nat → sw_store w' = sw_store w) ∧
  (∀ n key, res = Ok (S n) → public_key = Ok key →
     ∀ id row', artifacts (sw_db w') !! id = Some row' →
     verified_between sha256 sha256_hex cache_root key w w' row') ∧
  (decodes (sw_db w) → is_ok public_key = true → (∀ n, benign (inputs n)) → (∀ name, io_remove io name = true) →
   is_ok res = true).
Proof.
  intros Hin Habs Hids Hpos. unfold scrub_cache_artifacts_locked.
  pose proof (next_due_spec julianday now_ms 0 (sw_db w) Hids) as Hnext.
  assert (∃ k, evolves cache_root k w w ∧ ∀ n, Ok 0%nat = (Ok n : result string nat) → n = k) as Hrefl
    by (exists 0%nat; split; [apply evolves_refl|congruence]).
  assert (∀ e, ∃ k, evolves cache_root k w w ∧ ∀ n, Err e = (Ok n : result string nat) → n = k) as Hrefl'
    by (intros e; exists 0%nat; split; [apply evolves_refl|congruence]).
  destruct (next_due julianday now_ms 0 (sw_db w)) as [[artifact|]|e];
    [|by split_and!|by split_and!; [apply Hrefl'|..|intros Hd; apply Hnext in Hd]].
  destruct public_key as [key|e]; [|by split_and!; [apply Hrefl'|..]].
  pose proof (scrub_due_spec sha256 sha256_hex cache_root key julianday inputs now_ms Hin Habs
    (Z.to_nat (Z.max limit 1)) 0 0 w Hids) as Hdue.
  destruct (scrub_due _ _ _ _ _ _ _ _ _ _ _) as [[[n invalid]|e] w1]; destruct Hdue as (k & Hev & Hok & Htot).
  2: { split_and!; [by exists k| done..|]. intros Hd _ Hb _. by apply Htot. }
  destruct (Hok n invalid eq_refl) as [Hk Hsame]. simpl in Hk. subst invalid.
  destruct k as [|k].
  { split_and!; [|intros _; by apply Hsame|done|done]. exists 0%nat. split; [done|congruence]. }
  destruct (scrub_all_spec sha256 sha256_hex cache_root key inputs Hin Habs
    (S (size (artifacts (sw_db w1)))) n 0 (S k) w1) as (res & w2 & -> & j & Hev2 & Hok2 & Htot2).
  { by eapply evolves_ids. }
  { unfold rows_after. rewrite <-size_dom. apply Nat.lt_succ_r, subseteq_size. set_solver. }
  pose proof (evolves_trans _ _ _ _ _ _ Hev Hev2) as Hev12.
  destruct res as [invalid|e].
  2: { split_and!; [by eexists|done..|]. intros Hd _ Hb _. apply Htot2; [|done]. by eapply evolves_decodes. }
  pose proof (sweep_spec io lists cache_root
    (retained_files <$> list_cache_artifact_roots (sw_db w2)) seed_roots (cs_files (sw_store w2))) as Hsweep.
  pose proof (sweep_total io cache_root
    (retained_files <$> list_cache_artifact_roots (sw_db w2)) seed_roots (cs_files (sw_store w2))) as Hst.
  destruct (sweep_unreachable_blocking _ _ _ _ _) as [[freed|e] files]; destruct Hsweep as ((Hsub & _) & _);
    pose proof (sweep_evolves _ _ _ _ Hev12 Hsub) as Hev3.
  2: { split_and!; [by eexists|done..|]. intros _ _ _ Hr. by apply Hst in Hr. }
  destruct (Hok2 invalid eq_refl) as [-> Hver]. split_and!.
  - eexists. split; [exact Hev3|]. intros m [= <-]. lia.
  - intros [=].
  - intros m key' _ [= <-] id row' Hrow'. simpl in Hrow'.
    eapply (verified_between_widen sha256 sha256_hex cache_root key w w1 w2);
      [apply (ev_store _ _ _ _ Hev)| |reflexivity|eapply Hver; [exact Hrow'|]].
    + intros name _. unfold root_entry. simpl. destruct (cf_root files !! name) as [e|] eqn:He; [|by right].
      left. symmetry. by eapply lookup_weaken.
    + destruct (ev_rows _ _ _ _ Hev12 _ _ Hrow') as (row & Hrow & _). eapply Hpos. by exists row.
  - done.
Qed.

End Whole.
