(* ===== verification/CacheDemo.v ===== *)
(** * A small cache

    Two store paths, the first referring to the second, and a third nothing
    refers to: the theorems on closures, sweeps, retention and withdrawal applied
    to it, two records on which the readers of narinfo files disagree, and a record
    the sweep cannot read. *)

From stdpp Require Import sorting base gmap list strings relations.
From Stdlib Require Import Ascii ZArith Lia.
From S2P Require Import Prelude RustStr RustText Json DbText ProtectedText Assets NixBase32 BuildJobs ProtectedMaterial CacheArtifacts CacheArtifactsProofs Remediation NarInfo CacheSweep CacheSweepProofs NarInfoProofs ClosureManifest ClosureManifestProofs ClosureTheorems Retention RetentionProofs CachePurge Scrub ScrubProofs.

#[local] Open Scope Z_scope.
#[local] Open Scope nest_scope.

#[local] Instance demo_ed25519 : Ed25519 := {|
  base64_decode := λ _, Some (replicate 32 1);
  base64_encode := λ _, "AA==";
  verifying_key_from_bytes := Some;
  is_weak := λ _, false;
  signature_from_slice := Some;
  verify_strict := λ _ _ _, true;
  sign := λ _ _, replicate 64 1;
|}.

#[local] Instance demo_deps : ProtectedDeps := {|
  url_parse := λ _, None;
  json_string_from_str := Some;
  json_string := λ s, s;
  uuid_hyphenated := λ _, None;
  sha256_hex_of := λ _, "";
|}.

#[local] Instance demo_json : Serde := {| to_string := λ _, ""; from_str := λ _, None |}.

Fixpoint srepeat (n : nat) (s : string) : string :=
  match n with O => "" | S n => s +:+ srepeat n s end.

Definition hash_of (c : string) : string := srepeat 32 c.
Definition store_name (c : string) : string := hash_of c +:+ "-pkg".
Definition store_path (c : string) : string := STORE +:+ store_name c.
Definition nar_name (c : string) : string := srepeat 52 c +:+ ".nar.zst".
Definition zero_hash : string := "sha256:" +:+ srepeat 64 "0".
Definition narinfo_text (c references : string) : string :=
  "StorePath: " +:+ store_path c +:+ nl +:+ "URL: nar/" +:+ nar_name c +:+ nl +:+
  "Compression: zstd" +:+ nl +:+ "FileHash: " +:+ zero_hash +:+ nl +:+ "FileSize: 3" +:+ nl +:+
  "NarHash: " +:+ zero_hash +:+ nl +:+ "NarSize: 5" +:+ nl +:+
  "References: " +:+ references +:+ nl +:+ "Sig: nest:AA==" +:+ nl.

(** Every file has the digest of zeros. *)
Definition demo_sha256 (_ : string) : Digest := replicate 32 0.

Definition demo_files : CacheFiles := {|
  cf_root := {[ narinfo_name (hash_of "a") := CacheFile (narinfo_text "a" (store_name "b"));
                narinfo_name (hash_of "b") := CacheFile (narinfo_text "b" "");
                narinfo_name (hash_of "c") := CacheFile (narinfo_text "c" "") ]};
  cf_nar := Some {[ nar_name "a" := CacheFile "abc"; nar_name "b" := CacheFile "abc";
                    nar_name "c" := CacheFile "abc" ]};
  cf_nar_link := None |}.

Definition demo_key : string := "nest:AA==".
Definition ROOT : string := "/srv/cache".

Definition demo_manifest : VerifiedClosureManifest * list string :=
  match build_closure_manifest demo_sha256 demo_files ROOT (store_path "a") None demo_key with
  | (Ok v, inspected) => (v, inspected)
  | _ => ({| vc_manifest := Null; vc_manifest_sha256 := ""; vc_root_narinfo := no_narinfo;
             vc_root_narinfo_path := ""; vc_root_nar_path := ""; vc_total_file_size_bytes := 0 |}, [])
  end.

Lemma demo_build :
  build_closure_manifest demo_sha256 demo_files ROOT (store_path "a") None demo_key
  = (Ok demo_manifest.1, demo_manifest.2).
Proof. vm_compute. reflexivity. Qed.

Lemma demo_total : vc_total_file_size_bytes demo_manifest.1 = 6.
Proof. vm_compute. reflexivity. Qed.

Definition entry_nix_writtenb (x : string * Entry) : bool :=
  match x.2 with CacheFile raw => nix_writtenb raw | _ => true end.

Lemma nix_written_by_listing files :
  forallb entry_nix_writtenb (map_to_list (cf_root files)) = true → all_nix_written files.
Proof.
  intros H name raw Hin. apply nix_writtenb_spec. rewrite forallb_forall in H.
  apply (H (name, CacheFile raw)). apply list_elem_of_In. by apply elem_of_map_to_list.
Qed.

Lemma demo_nix_written : all_nix_written demo_files.
Proof. apply nix_written_by_listing. vm_compute. reflexivity. Qed.

(** ** Closures *)

Lemma closure_manifest_is_exact_witness :
  closure demo_sha256 demo_files demo_key (store_path "a") (store_path "b") ∧
  ∃ l, artifacts_of demo_manifest.1 = Some (artifact_value <$> l) ∧ length l = 2%nat ∧
    store_path "b" ∈ cm_store_path <$> l ∧ sum_Z (cm_nar_size_bytes <$> l) = 10.
Proof.
  destruct (closure_manifest_is_exact demo_sha256 demo_files demo_key ROOT (store_path "a") None
    _ _ demo_build) as (l & ra & Hl & Hcount & _ & _ & Hiff & _ & _ & _ & Hnar & _ & _ & Hra).
  assert (closure demo_sha256 demo_files demo_key (store_path "a") (store_path "b")) as Hb.
  { eapply closure_reference; [constructor|exact Hra|]. destruct Hra as (f & Hf & Hm).
    rewrite (mo_artifact _ _ _ _ _ _ _ Hm). simpl.
    assert (ni_references (vc_root_narinfo demo_manifest.1) = [store_path "b"]) as ->
      by (vm_compute; reflexivity). by apply list_elem_of_singleton. }
  split; [exact Hb|]. exists l. split; [exact Hl|]. split; [|split; [by apply Hiff|]].
  2: { assert (get "total_nar_size_bytes" (vc_manifest demo_manifest.1) = Some (Num (PosInt 10))) as H
         by (vm_compute; reflexivity). rewrite H in Hnar. injection Hnar. lia. }
  assert (get "artifact_count" (vc_manifest demo_manifest.1) = Some (Num (PosInt 2))) as H
    by (vm_compute; reflexivity).
  rewrite H in Hcount. injection Hcount. lia.
Defined.

(** Without the narinfo file of the second path. *)
Definition broken_files : CacheFiles := {|
  cf_root := delete (narinfo_name (hash_of "b")) (cf_root demo_files); cf_nar := cf_nar demo_files;
  cf_nar_link := None |}.

Lemma closure_manifest_fails_with_cause_witness :
  is_ok (build_closure_manifest demo_sha256 broken_files ROOT (store_path "a") None demo_key).1 = false ∧
  ((∃ path, closure demo_sha256 broken_files demo_key (store_path "a") path ∧
      unverifiable demo_sha256 broken_files demo_key path) ∨
   too_big demo_sha256 broken_files demo_key (store_path "a") ∨
   (∃ w, walk_ok demo_sha256 broken_files demo_key (store_path "a") [] w)).
Proof.
  split; [vm_compute; reflexivity|].
  destruct (build_closure_manifest demo_sha256 broken_files ROOT (store_path "a") None demo_key)
    as [[v|e] inspected] eqn:E; [exfalso; vm_compute in E; discriminate E|].
  destruct (closure_manifest_fails_with_cause demo_sha256 broken_files demo_key ROOT (store_path "a")
    None e inspected E) as [H|[H|[H|[H|(w & Hw & _)]]]].
  - exfalso. apply H. vm_compute. reflexivity.
  - exfalso. apply H. reflexivity.
  - by left.
  - by right; left.
  - right. right. by exists w.
Defined.

(** Every file is listed, read and removed. *)
Definition demo_io : SweepIo :=
  {| io_read := λ _, true; io_list := λ _ m, Some (map_to_list m); io_remove := λ _, true |}.
Lemma demo_lists : io_lists demo_io.
Proof. by intros path m l [= <-]. Qed.
Lemma demo_reads : io_reads demo_io.
Proof. done. Qed.

Definition demo_retained : list RetainedArtifactFiles :=
  [{| rt_store_path := store_path "a"; rt_nar_path := ""; rt_narinfo_path := ""; rt_nar_url := "" |}].
Definition demo_sweep : result string Z * CacheFiles :=
  sweep_unreachable_blocking demo_io ROOT demo_retained [] demo_files.

Lemma sweep_removes_exactly_the_unreachable_witness :
  ok demo_sweep.1 = Some (cache_bytes demo_files - cache_bytes demo_sweep.2) ∧
  cf_root demo_sweep.2 !! narinfo_name (hash_of "c") = None ∧
  cf_root demo_sweep.2 !! narinfo_name (hash_of "b") = Some (CacheFile (narinfo_text "b" "")).
Proof.
  pose proof (sweep_removes_exactly_the_unreachable demo_io
    demo_lists ROOT demo_retained [] demo_files) as H.
  fold demo_sweep in H.
  split; [|split; vm_compute; reflexivity].
  destruct demo_sweep as [res files'] eqn:E. destruct H as (_ & _ & _ & _ & Hfreed).
  destruct res as [n|e]; [|vm_compute in E; discriminate E].
  specialize (Hfreed n eq_refl). simpl. f_equal.
  rewrite Hfreed. apply Z.min_r.
  pose proof (f_equal snd E) as E'. simpl in E'. rewrite <-E'. vm_compute. discriminate.
Defined.

Lemma sweep_keeps_verified_closures_witness :
  build_closure_manifest demo_sha256 demo_sweep.2 ROOT (store_path "a") None demo_key
  = (Ok demo_manifest.1, demo_manifest.2).
Proof.
  apply (sweep_keeps_verified_closures demo_sha256 demo_io
    demo_lists ROOT demo_retained [] demo_key demo_files demo_sweep.2
    demo_sweep.1).
  - fold demo_sweep. apply surjective_pairing.
  - exact demo_reads.
  - exact demo_nix_written.
  - left. by apply list_elem_of_singleton.
  - exact demo_build.
Defined.

(** The same cache, withdrawing the root that no longer verifies. *)
Definition withdraw_input : QuarantineInput := {| q_ready := true; q_outcome := λ _, Archived |}.
Definition broken_store : CacheStore := {| cs_files := broken_files; cs_quarantine := [] |}.
Definition after_failure : result string VerifiedClosureManifest * CacheStore :=
  build_or_quarantine_closure_manifest demo_sha256 withdraw_input false ROOT (store_path "a") None
    demo_key broken_store.

Lemma failed_closure_is_withdrawn_witness :
  after_failure.1 = Err "closure manifest validation failed" ∧
  cf_root broken_files !! narinfo_name (hash_of "a") = Some (CacheFile (narinfo_text "a" (store_name "b"))) ∧
  cf_root (cs_files after_failure.2) !! narinfo_name (hash_of "a") = None.
Proof.
  assert (fresh_hidden withdraw_input broken_store) as Hfresh by (intros name hidden H; discriminate H).
  pose proof (failed_closure_is_withdrawn demo_sha256 withdraw_input false ROOT (store_path "a") None
    demo_key broken_store eq_refl Hfresh) as H.
  fold after_failure in H.
  assert (after_failure.1 = Err "closure manifest validation failed") as Hres by (vm_compute; reflexivity).
  destruct after_failure as [res s']. destruct H as (_ & _ & _ & H). simpl in Hres.
  split; [exact Hres|]. split; [vm_compute; reflexivity|].
  apply (H Hres); vm_compute; reflexivity.
Defined.

(** ** Inventory *)

Definition demo_row (id : Z) (c hash : string) : CacheArtifactRow := {|
  ca_id := id; ca_artifact_type := "nixos_closure"; ca_hash := hash;
  ca_data := {|
    ad_managed_artifact_id := None; ad_size_bytes := 3; ad_path := ""; ad_store_path := store_path c;
    ad_narinfo_path := ""; ad_nar_url := ""; ad_file_hash := ""; ad_nar_hash := "";
    ad_nar_size_bytes := 5; ad_closure_size_bytes := 5; ad_closure_file_size_bytes := 3;
    ad_compression := "zstd"; ad_references_json := ""; ad_serving_url := "";
    ad_source_build_job_id := Some hash; ad_cache_metadata := "" |};
  ca_verification_status := "verified"; ca_last_verified_at := None;
  ca_created_at := "t1"; ca_updated_at := "t1" |}.

(** A row for the first path, two for the third. *)
Definition demo_inventory : CacheDb := {|
  artifacts := {[ 1 := demo_row 1 "a" "job-1"; 2 := demo_row 2 "c" "job-2"; 3 := demo_row 3 "c" "job-3" ]};
  last_artifact := 3; protections := {[ ("nixos_closure", "job-1") := "t1" ]};
  instance_id := "i"; generation := 3 |}.

Lemma demo_inventory_rows id row :
  artifacts demo_inventory !! id = Some row →
  (id = 1 ∧ row = demo_row 1 "a" "job-1") ∨ (id = 2 ∧ row = demo_row 2 "c" "job-2") ∨
  (id = 3 ∧ row = demo_row 3 "c" "job-3").
Proof.
  cbn [artifacts demo_inventory]. intros [[<- <-]|[_ H]]%lookup_insert_Some; [by left|].
  apply lookup_insert_Some in H as [[<- <-]|[_ H]]; [by right; left|].
  apply lookup_singleton_Some in H as [<- <-]. by right; right.
Qed.

Lemma demo_inventory_ok : cache_ok demo_inventory.
Proof.
  split.
  - intros id row [[-> ->]|[[-> ->]|[-> ->]]]%demo_inventory_rows; simpl; lia.
  - intros i j x y [[-> ->]|[[-> ->]|[-> ->]]]%demo_inventory_rows
      [[-> ->]|[[-> ->]|[-> ->]]]%demo_inventory_rows H; done || discriminate H.
  - intros i j x y m [[-> ->]|[[-> ->]|[-> ->]]]%demo_inventory_rows _ H; discriminate H.
Qed.

Definition no_jobs : JobDb := {| jobs := ∅; last_id := 0; remediated := ∅ |}.

Definition demo_retention : RetentionConfig := {|
  rc_max_bytes := 1; rc_max_artifact_size_bytes := 0; rc_retain_recent_builds := 1; rc_root_dir := ROOT |}.
Definition demo_world : CacheWorld := {| cw_db := demo_inventory; cw_files := demo_files |}.

(** The cache is over its limit until the rows of the third path are gone. *)
Definition demo_measure (n : nat) : Z * option Z := (if decide (n < 3)%nat then 2 else 1, None).
Definition after_retention : result string unit * CacheWorld :=
  enforce_retention_locked (λ _, demo_io) demo_measure (λ _, false) [] demo_retention no_jobs
    demo_world.

Lemma retention_evicts_in_order_witness :
  after_retention.1 = Ok tt ∧
  (root_id <$> eviction_order 1 (retention_candidates demo_inventory) demo_inventory no_jobs) = [2; 3] ∧
  evicted_prefix demo_measure demo_retention
    (eviction_order 1 (retention_candidates demo_inventory) demo_inventory no_jobs) 0
    after_retention.1 demo_inventory (cw_db after_retention.2) ∧
  artifacts (cw_db after_retention.2) !! 3 = None.
Proof.
  pose proof (retention_evicts_in_order (λ _, demo_io) (λ _, demo_lists) demo_measure (λ _, false) []
    demo_retention no_jobs demo_world) as H. fold after_retention in H.
  destruct after_retention as [res w'] eqn:E. destruct H as [[(H & _)|[_ H]] Hok]; [discriminate H|].
  split; [by apply Hok|]. split; [vm_compute; reflexivity|]. split; [exact H|].
  apply (f_equal (λ x, (cw_db x.2))) in E. simpl in *. rewrite <-E. vm_compute. reflexivity.
Defined.

Lemma retention_keeps_protected_witness :
  wanted demo_inventory no_jobs (demo_row 1 "a" "job-1") ∧
  artifacts (cw_db after_retention.2) !! 1 = Some (demo_row 1 "a" "job-1") ∧
  build_closure_manifest demo_sha256 (cw_files after_retention.2) ROOT (store_path "a") None demo_key
  = (Ok demo_manifest.1, demo_manifest.2).
Proof.
  assert (wanted demo_inventory no_jobs (demo_row 1 "a" "job-1")) as Hhard.
  { left. apply elem_of_dom. eexists. reflexivity. }
  destruct (retention_keeps_protected (λ _, demo_io) (λ _, demo_lists) demo_measure (λ _, false) []
    demo_retention demo_sha256 no_jobs demo_world after_retention.1 after_retention.2 1
    (demo_row 1 "a" "job-1") (surjective_pairing _) demo_inventory_ok eq_refl Hhard) as [Hrow Hkeep].
  split; [exact Hhard|]. split; [exact Hrow|].
  destruct (Hkeep demo_key None demo_manifest.1 demo_manifest.2 (λ _, demo_reads) (conj demo_nix_written demo_build))
    as [_ H]. exact H.
Defined.

(** ** Withdrawal of a protected build *)

Definition demo_entry : RemediationRow := {|
  rem_job_id := 7; rem_managed_job_id := Some "job-2"; rem_original_status := "succeeded";
  rem_rule := "protected_build_spec"; rem_build_spec_sha256 := srepeat 64 "0";
  rem_cache_purge_status := "pending_purge"; rem_created_at := "t1"; rem_updated_at := "t1";
  rem_purged_at := None |}.
Definition demo_remediation : ProtectedBuildJobRemediation :=
  {| pr_job_id := 7; pr_managed_job_id := Some "job-2"; pr_output_path := "" |}.
Definition purge_world : PurgeWorld := {|
  pw_db := {| nd_jobs := no_jobs; nd_cache := demo_inventory; nd_ledger := {[ 7 := demo_entry ]} |};
  pw_store := {| cs_files := demo_files; cs_quarantine := [] |} |}.
Definition after_purge : result string unit * PurgeWorld :=
  remediate_protected_build_job_locked demo_io withdraw_input ROOT [] "t2"
    demo_remediation purge_world.

(** The third row shares the root of the second and goes with it. *)
Lemma purge_withdraws_every_alias_witness :
  after_purge.1 = Ok tt ∧
  artifacts (nd_cache (pw_db after_purge.2)) !! 3 = None ∧
  still_published ROOT (ROOT +:+ "/" +:+ hash_of "c" +:+ ".narinfo") (cs_files (pw_store after_purge.2))
    = false.
Proof.
  assert (after_purge.1 = Ok tt) as Hok by (vm_compute; reflexivity).
  split; [exact Hok|].
  assert (remediate_protected_build_job_locked demo_io withdraw_input ROOT [] "t2"
    demo_remediation purge_world = (Ok tt, after_purge.2)) as Hrun
    by (rewrite <-Hok; apply surjective_pairing).
  destruct (purge_withdraws_every_alias demo_io withdraw_input ROOT [] "t2"
    demo_remediation purge_world after_purge.2 Hrun demo_inventory_ok 3 (demo_row 3 "c" "job-3") eq_refl)
    as [H _].
  destruct H as [Hgone Hhash].
  - exists 2, (demo_row 2 "c" "job-2"). split; [reflexivity|]. split; [reflexivity|].
    apply rtc_once. split; [|split].
    + apply (elem_of_roots _ 2 (demo_row 2 "c" "job-2")). reflexivity.
    + apply (elem_of_roots _ 3 (demo_row 3 "c" "job-3")). reflexivity.
    + vm_compute. reflexivity.
  - split; [exact Hgone|]. apply Hhash. vm_compute. reflexivity.
Defined.

(** ** Records on which the readers disagree *)

(** [parse_narinfo_strict] looks for repeated fields before [": "] and
    [parse_narinfo] reads them before [":"]: a second [StorePath] without the
    space is accepted and replaces the first. *)
Lemma strict_parser_accepts_a_repeat :
  ni_store_path <$> ok (parse_narinfo_strict (narinfo_text "a" "" +:+ "StorePath:/nix/store/x: y" +:+ nl))
  = Some "/nix/store/x: y".
Proof. vm_compute. reflexivity. Qed.

(** The first path with its reference written as an absolute path: the reader of
    manifests follows it, the sweep does not and removes the second path. *)
Definition absolute_files : CacheFiles := {|
  cf_root := <[narinfo_name (hash_of "a") := CacheFile (narinfo_text "a" (store_path "b"))]>
               (cf_root demo_files);
  cf_nar := cf_nar demo_files;
  cf_nar_link := None |}.

Lemma sweep_misses_absolute_references :
  let files' := (sweep_unreachable_blocking demo_io ROOT demo_retained [] absolute_files).2 in
  is_ok (build_closure_manifest demo_sha256 absolute_files ROOT (store_path "a") None demo_key).1 = true ∧
  is_ok (build_closure_manifest demo_sha256 files' ROOT (store_path "a") None demo_key).1 = false.
Proof. vm_compute. done. Qed.

(** A narinfo file of a retained root that cannot be read while the sweep marks: the sweep
    ends well and removes what the file refers to. *)
Definition unread_io : SweepIo := {|
  io_read := λ name, negb (bool_decide (name = narinfo_name (hash_of "a")));
  io_list := λ _ m, Some (map_to_list m); io_remove := λ _, true |}.
Lemma sweep_forgets_what_it_cannot_read :
  let '(res, files') := sweep_unreachable_blocking unread_io ROOT demo_retained [] demo_files in
  is_ok res = true ∧
  is_ok (build_closure_manifest demo_sha256 demo_files ROOT (store_path "a") None demo_key).1 = true ∧
  is_ok (build_closure_manifest demo_sha256 files' ROOT (store_path "a") None demo_key).1 = false.
Proof. vm_compute. done. Qed.

(** ** A small cache, scrubbed

    The same cache with three rows: the first describes its closure, the
    second does not describe its path, and the third has no narinfo file. *)

(** A codec for the three documents of the rows. *)
#[local] Instance scrub_json : Serde := {|
  to_string := λ _, "";
  from_str s := if bool_decide (s = "[]") then Some (Array [])
                else if bool_decide (s = "{}") then Some (Object []) else Some (Array [Str s]) |}.

Definition scrub_row (id : Z) (c nar_hash references created_at : string) : CacheArtifactRow := {|
  ca_id := id; ca_artifact_type := "nixos_closure"; ca_hash := c;
  ca_data := {|
    ad_managed_artifact_id := None; ad_size_bytes := 3; ad_path := ROOT +:+ "/nar/" +:+ nar_name c;
    ad_store_path := store_path c; ad_narinfo_path := ROOT +:+ "/" +:+ narinfo_name (hash_of c);
    ad_nar_url := "nar/" +:+ nar_name c; ad_file_hash := zero_hash; ad_nar_hash := nar_hash;
    ad_nar_size_bytes := 5; ad_closure_size_bytes := 5; ad_closure_file_size_bytes := 0;
    ad_compression := "zstd"; ad_references_json := references; ad_serving_url := "";
    ad_source_build_job_id := None; ad_cache_metadata := "{}" |};
  ca_verification_status := "ready"; ca_last_verified_at := None;
  ca_created_at := created_at; ca_updated_at := created_at |}.

Definition row_a := scrub_row 1 "a" zero_hash (store_path "b") "t1".
Definition row_b := scrub_row 2 "b" "sha256:x" "[]" "t1".
Definition row_c := scrub_row 3 "c" zero_hash "[]" "t0".

Definition scrub_files : CacheFiles := {|
  cf_root := delete (narinfo_name (hash_of "c")) (cf_root demo_files); cf_nar := cf_nar demo_files;
  cf_nar_link := None |}.

Definition scrub_world : ScrubWorld := {|
  sw_db := {| artifacts := {[ 1 := row_a; 2 := row_b; 3 := row_c ]}; last_artifact := 3;
              protections := ∅; instance_id := "i"; generation := 3 |};
  sw_store := {| cs_files := scrub_files; cs_quarantine := [] |} |}.

Definition scrub_input (_ : nat) : ScrubInput := {|
  si_verify := withdraw_input; si_unlink_fails := false; si_mismatch := withdraw_input;
  si_root := withdraw_input; si_statement_fails := false; si_now := "t2" |}.

Definition after_scrub : result string nat * ScrubWorld :=
  scrub_cache_artifacts_locked demo_sha256 (λ _, "") (λ _, None) scrub_input (λ _, 0) demo_io
    ROOT [] (Ok demo_key) 1 scrub_world.

Lemma scrub_world_rows id row :
  artifacts (sw_db scrub_world) !! id = Some row →
  (id = 1 ∧ row = row_a) ∨ (id = 2 ∧ row = row_b) ∨ (id = 3 ∧ row = row_c).
Proof.
  cbn [artifacts sw_db scrub_world]. intros [[<- <-]|[_ H]]%lookup_insert_Some; [by left|].
  apply lookup_insert_Some in H as [[<- <-]|[_ H]]; [by right; left|].
  apply lookup_singleton_Some in H as [<- <-]. by right; right.
Qed.

Lemma scrub_withdraws_what_it_removes_witness :
  after_scrub.1 = Ok 2%nat ∧
  artifacts (sw_db after_scrub.2) !! 2 = None ∧
  unserved ROOT row_b (sw_store after_scrub.2) ∧
  ∃ row', artifacts (sw_db after_scrub.2) !! 1 = Some row' ∧
    verified_between demo_sha256 (λ _, "") ROOT demo_key scrub_world after_scrub.2 row'.
Proof.
  assert (∀ n, input_ok (scrub_input n)) as Hin
    by (intros n; repeat split; intros name hidden H; discriminate H).
  assert (ids_match (sw_db scrub_world)) as Hids
    by (intros id row [[-> ->]|[[-> ->]|[-> ->]]]%scrub_world_rows; reflexivity).
  assert (∀ id, is_Some (artifacts (sw_db scrub_world) !! id) → 0 < id) as Hpos
    by (intros id [row [[-> _]|[[-> _]|[-> _]]]%scrub_world_rows]; lia).
  pose proof (scrub_withdraws_what_it_removes demo_sha256 (λ _, "") (λ _, None) scrub_input (λ _, 0)
    demo_io demo_lists ROOT [] 1 (Ok demo_key) scrub_world Hin eq_refl Hids Hpos) as H.
  fold after_scrub in H.
  assert (after_scrub.1 = Ok 2%nat) as Hres by (vm_compute; reflexivity).
  assert (artifacts (sw_db after_scrub.2) !! 2 = None) as H2 by (vm_compute; reflexivity).
  assert (bool_decide (is_Some (artifacts (sw_db after_scrub.2) !! 1)) = true) as H1 by (vm_compute; reflexivity).
  destruct after_scrub as [res w']. cbn [fst snd] in *. subst res. destruct H as ((k & Hev & _) & _ & Hver & _).
  split; [reflexivity|]. split; [exact H2|]. split.
  - exact (ev_gone _ _ _ _ Hev 2 row_b eq_refl H2).
  - apply bool_decide_eq_true in H1 as [row' H1]. exists row'. split; [exact H1|].
    exact (Hver 1%nat demo_key eq_refl eq_refl 1 row' H1).
Defined.

(** The first row was verified before the second was withdrawn: the scrub ends
    well and leaves a row whose closure lacks a member. *)
Lemma scrub_leaves_a_broken_closure :
  after_scrub.1 = Ok 2%nat ∧
  bool_decide (is_Some (artifacts (sw_db after_scrub.2) !! 1)) = true ∧
  is_ok (build_closure_manifest demo_sha256 (cs_files (sw_store after_scrub.2)) ROOT (store_path "a")
           None demo_key).1 = false.
Proof. vm_compute. done. Qed.
