(* ===== verification/UploadGrant.v ===== *)
(** * Upload grants of the software cache

    The data of [src/software_cache_upload.rs]: the destination tree, the grants
    Manage signs, what a grant may name, and the stored state of a grant.  URL
    parsing, base64url, SHA-256 and the serde codecs are a class of arguments. *)

From stdpp Require Import sorting base gmap list strings.
From Stdlib Require Import Ascii ZArith Lia.
From S2P Require Import Prelude Async RustStr RustText Json DbText Assets NixBase32 NarInfo CacheEgress.

#[local] Open Scope Z_scope.
#[local] Open Scope nest_scope.

Definition GRANT_SCHEMA : string := "tiaris.software-cache.upload-grant.v1".
Definition MAX_GRANTS : nat := 32.
Definition MAX_GRANT_BYTES : Z := 4 * 1024 * 1024.
Definition MAX_UPLOAD_BYTES : Z := 4 * 1024 * 1024 * 1024.
Definition MAX_TOKEN_BYTES : Z := 512.
Definition MAX_CREDENTIALS_BYTES : nat := 4096.
Definition BACKOFF_BASE_SECONDS : Z := 60.
Definition BACKOFF_MAX_SECONDS : Z := 3600.
Definition STATE_SCHEMA : string := "tiaris.nest.software-cache-upload.v1".
Definition MAX_STATE_BYTES : Z := 1024 * 1024.
Definition GRANT_STATES : list string := ["pending"; "uploading"; "uploaded"; "failed"; "expired"].

(** ** Data *)

(** What [destination] reads of a [reqwest::Url]. *)
Record UploadUrl := {
  uu_scheme : string;
  uu_host : option string;
  uu_port : option Z;
  uu_path : string;
  uu_username : string;
  uu_password : option string;
  uu_query : option string;
  uu_fragment : option string;
}.

Record ManagedGrant := { mg_grant : string; mg_grant_id : option string }.

(** Times are in nanoseconds. *)
Record ManagedUpload := {
  mu_url : string;
  mu_token : string;
  mu_expires_at : Z;
  mu_grants : list ManagedGrant;
}.

Record Credentials := { cd_url : string; cd_token : string; cd_expires_at : Z }.
#[global] Instance credentials_eq_dec : EqDecision Credentials.
Proof. solve_decision. Defined.

Record Destination := { ds_base : string; ds_issuer : string; ds_scope : string }.

Record GrantPath := {
  gp_store_path : string;
  gp_nar_url : string;
  gp_compression : string;
  gp_file_hash : string;
  gp_file_size : Z;
  gp_nar_hash : string;
  gp_nar_size : Z;
  gp_references : list string;
}.

Record GrantFile := { gf_path : string; gf_sha256 : string; gf_size : Z }.

Record GrantPayload := {
  gr_schema : string;
  gr_issuer : string;
  gr_scope : string;
  gr_expires : Z;
  gr_manifest_id : option string;
  gr_paths : list GrantPath;
  gr_files : list GrantFile;
}.

Record GrantState := {
  gs_tree : string;
  gs_manifest_id : option string;
  gs_expires_at : Z;
  gs_state : string;
  gs_registered : bool;
  gs_error : string;
  gs_attempts : Z;
  gs_next_attempt_at : Z;
  gs_bytes_uploaded : Z;
  gs_received_at : string;
  gs_updated_at : string;
  gs_uploaded : gset Z;
  gs_failed : gmap Z string;
}.

Class UploadDeps := {
  parse_url : string → option UploadUrl;
  base64url_decode : string → option string;
  grant_from_slice : string → option GrantPayload;
  sha256_of : string → Digest;
  managed_from_value : Value → option ManagedUpload;
  state_to_value : GrantState → Value;
  state_from_value : Value → option GrantState;
  credentials_to_string : Credentials → string;
  credentials_from_string : string → option Credentials;
}.

(** ** The destination tree *)

Definition valid_issuer (issuer : string) : bool :=
  in_range 1 16 (len issuer) && all_bytes (λ a, is_lower a || is_digit a) issuer.

Definition valid_scope (scope : string) : bool :=
  (len scope =? 34) && starts_with "o-" scope && all_bytes is_lower_hex (str_from 2 scope).

Definition valid_token (token : string) : bool :=
  negb (is_empty token) && (len token <=? MAX_TOKEN_BYTES)
  && all_bytes (λ a, is_alnum a || byte_in ".-_" a) token.

Definition tree_of (d : Destination) : string := ds_issuer d +:+ "/" +:+ ds_scope d.

Definition from_tree (t : string) : option Destination :=
  match split_once "/" t with
  | Some (issuer, scope) =>
      if valid_issuer issuer && valid_scope scope
      then Some {| ds_base := ""; ds_issuer := issuer; ds_scope := scope |} else None
  | None => None
  end.

Section Grants.
Context {deps : UploadDeps} {ed25519 : Ed25519}.

Definition destination (url : string) (allow_loopback_http : bool) : result string Destination :=
  parsed ≔ ok_or "software cache upload URL is invalid" (parse_url url) ?;
  host ≔ ok_or "software cache upload URL has no host" (uu_host parsed) ?;
  let scheme_ok := bool_decide (uu_scheme parsed = "https")
    || (allow_loopback_http && bool_decide (uu_scheme parsed = "http")
        && bool_decide (host = "127.0.0.1")) in
  let host_ok := negb (is_empty host) && all_bytes (λ a, is_alnum a || byte_in ".-" a) host in
  match rest ← strip_prefix "/o/" (trim_end_byte "/" (uu_path parsed)); split_once "/" rest with
  | Some (issuer, scope) =>
      if negb (scheme_ok && host_ok && valid_issuer issuer && valid_scope scope)
      then Err "software cache upload URL must be https://<host>/o/<issuer>/o-<organization hex>" else
      if negb (is_empty (uu_username parsed)) || bool_decide (is_Some (uu_password parsed))
         || bool_decide (is_Some (uu_query parsed)) || bool_decide (is_Some (uu_fragment parsed))
         || (bool_decide (is_Some (uu_port parsed)) && negb allow_loopback_http)
      then Err "software cache upload URL must be a plain origin and tree path" else
      let origin := uu_scheme parsed +:+ "://" +:+ host +:+
        match uu_port parsed with Some port => ":" +:+ show port | None => "" end in
      Ok {| ds_base := origin +:+ "/o/" +:+ issuer +:+ "/" +:+ scope;
            ds_issuer := issuer; ds_scope := scope |}
  | None => Err "software cache upload URL must be https://<host>/o/<issuer>/o-<organization hex>"
  end.

(** ** What a grant may name *)

Definition nix32 (a : ascii) : bool := byte_in "0123456789abcdfghijklmnpqrsvwxyz" a.

(** A text that is not cut at a character boundary does not start with 32 bytes
    of the alphabet. *)
Definition store_hash (store_path : string) : option string :=
  name ← strip_prefix "/nix/store/" store_path;
  let hash := str_to 32 name in
  let rest := str_from 32 name in
  if (32 <=? len name) && all_bytes nix32 hash && starts_with "-" rest && (1 <? len rest)
     && all_bytes (λ a, is_alnum a || byte_in "+-._?=" a) (str_from 1 rest)
  then Some hash else None.

Definition compression_suffix (compression : string) : option string :=
  if bool_decide (compression = "none") then Some ""
  else if bool_decide (compression = "xz") then Some ".xz"
  else if bool_decide (compression = "zstd") then Some ".zst"
  else if bool_decide (compression = "bzip2") then Some ".bz2"
  else None.

Definition valid_nar_url (nar_url compression : string) : bool :=
  match suffix ← compression_suffix compression;
        name ← strip_prefix "nar/" nar_url; strip_suffix (".nar" +:+ suffix) name with
  | Some name => (len name =? 52) && all_bytes nix32 name
  | None => false
  end.

Definition source_revision (path : string) : option string :=
  name ← strip_prefix "manage-source/" path;
  revision ← strip_suffix ".tar" name;
  if (len revision =? 40) && all_bytes is_lower_hex revision then Some revision else None.

Definition size_ok (size : Z) : bool := in_range 1 MAX_UPLOAD_BYTES size.

Definition valid_path (p : GrantPath) : bool :=
  bool_decide (is_Some (store_hash (gp_store_path p)))
  && valid_nar_url (gp_nar_url p) (gp_compression p)
  && is_ok (sha256_digest (gp_file_hash p)) && is_ok (sha256_digest (gp_nar_hash p))
  && size_ok (gp_file_size p) && size_ok (gp_nar_size p)
  && forallb (λ r, bool_decide (is_Some (store_hash r))) (gp_references p).

Definition valid_file (f : GrantFile) : bool :=
  bool_decide (is_Some (source_revision (gf_path f)))
  && (len (gf_sha256 f) =? 64) && all_bytes is_hexdigit (gf_sha256 f) && size_ok (gf_size f).

Definition grant_id_of (payload : string) : string := hex_encode (take 16 (sha256_of payload)).

Definition decode_grant (text : string) (tree : Destination)
    : result string (string * GrantPayload) :=
  match split "." (trim text) with
  | [tug1; payload; mac] =>
      if negb (bool_decide (tug1 = "tug1")) then Err "upload grant is not a tug1 document" else
      if (MAX_GRANT_BYTES <? len text) || is_empty payload || is_empty mac
      then Err "upload grant is empty or too large" else
      decoded ≔ ok_or "upload grant payload is not base64url" (base64url_decode payload) ?;
      grant ≔ ok_or "upload grant payload is invalid" (grant_from_slice decoded) ?;
      if negb (bool_decide (gr_schema grant = GRANT_SCHEMA))
      then Err "upload grant has an unsupported schema" else
      if negb (bool_decide (gr_scope grant = ds_scope tree))
         || negb (bool_decide (gr_issuer grant = ds_issuer tree))
      then Err "upload grant is for another organization tree" else
      if bool_decide (gr_paths grant = []) && bool_decide (gr_files grant = [])
      then Err "upload grant names nothing" else
      if negb (forallb valid_path (gr_paths grant))
      then Err "upload grant names a malformed store path" else
      if negb (forallb valid_file (gr_files grant))
      then Err "upload grant names a malformed file" else
      Ok (grant_id_of payload, grant)
  | _ => Err "upload grant is not a tug1 document"
  end.

(** ** The stored state *)

Definition grant_file (id : string) : string := id +:+ ".grant".
Definition state_file (id : string) : string := id +:+ ".state.json".

Definition valid_grant_id (id : string) : bool := (len id =? 32) && all_bytes is_lower_hex id.

Definition valid_reason (reason : string) : bool :=
  (len reason <=? 64) && all_bytes (λ a, is_lower a || is_digit a || byte_in "_" a) reason.

Definition items (g : GrantPayload) : nat := length (gr_paths g) + length (gr_files g).

Definition is_valid (s : GrantState) (n : nat) : bool :=
  bool_decide (gs_state s ∈ GRANT_STATES)
  && bool_decide (is_Some (from_tree (gs_tree s)))
  && in_range 0 64 (gs_attempts s)
  && (0 <=? gs_bytes_uploaded s)
  && bool_decide (set_Forall (λ index, index < Z.of_nat n) (gs_uploaded s ∪ dom (gs_failed s)))
  && bool_decide (gs_uploaded s ## dom (gs_failed s))
  && bool_decide (map_Forall (λ _ reason, valid_reason reason = true) (gs_failed s))
  && valid_reason (gs_error s).

(** The fields that [held_grant] resets. *)
Definition restarted (s : GrantState) : GrantState := {|
  gs_tree := gs_tree s; gs_manifest_id := gs_manifest_id s; gs_expires_at := gs_expires_at s;
  gs_state := "pending"; gs_registered := false; gs_error := ""; gs_attempts := 0;
  gs_next_attempt_at := 0; gs_bytes_uploaded := 0; gs_received_at := gs_received_at s;
  gs_updated_at := gs_updated_at s; gs_uploaded := ∅; gs_failed := ∅ |}.

Definition new_state (tree : string) (manifest_id : option string) (expires : Z) (now : string)
    : GrantState := {|
  gs_tree := tree; gs_manifest_id := manifest_id; gs_expires_at := expires;
  gs_state := "pending"; gs_registered := false; gs_error := ""; gs_attempts := 0;
  gs_next_attempt_at := 0; gs_bytes_uploaded := 0; gs_received_at := now;
  gs_updated_at := now; gs_uploaded := ∅; gs_failed := ∅ |}.

(** ** What a local record must agree with *)

Definition narinfo_matches (n : CachedNarInfo) (p : GrantPath) : bool :=
  bool_decide (cn_store_path n = gp_store_path p)
  && bool_decide (cn_url n = gp_nar_url p)
  && bool_decide (cn_compression n = gp_compression p)
  && bool_decide (Some (cn_file_hash n) = ok (sha256_digest (gp_file_hash p)))
  && (cn_file_size n =? gp_file_size p)
  && bool_decide (Some (cn_nar_hash n) = ok (sha256_digest (gp_nar_hash p)))
  && (cn_nar_size n =? gp_nar_size p)
  && bool_decide (cn_references n = basenames (gp_references p)).

(** [checked_file], of a regular file with these contents. *)
Definition checked_file (contents : string) (size : Z) (expected : Digest) : option string :=
  if (len contents =? size) && bool_decide (sha256_of contents = expected)
  then Some contents else None.

(** ** Retries *)

Definition backoff_seconds (attempts : Z) : Z :=
  Z.min (sat_mul i64_max BACKOFF_BASE_SECONDS (Z.shiftl 1 (Z.max 0 (Z.min 6 attempts))))
    BACKOFF_MAX_SECONDS.

Inductive ItemOutcome := ItemUploaded (bytes : Z) | ItemRefused (reason : string)
  | ItemRetry (reason : string) | ItemQuota.

Definition classify (status uploaded : Z) : ItemOutcome :=
  if in_range 200 299 status then ItemUploaded uploaded
  else if status =? 507 then ItemQuota
  else if status =? 401 then ItemRetry "unauthorized"
  else if bool_decide (status ∈ [400; 403; 404; 409; 411; 413])
  then ItemRefused ("refused_" +:+ show status)
  else ItemRetry ("http_" +:+ show status).

End Grants.
