(* ===== verification/Upload.v ===== *)
(** * Uploads to the software cache

    The handlers of [src/software_cache_upload.rs]: applying the configuration of
    Manage, and the pass that uploads what is granted.  The directory of the
    grants is a map from names to contents; the requests that were sent are
    recorded with their answers, newest first.

    Writers hold the lock of the directory for a whole change; here each grant
    that a change touches is an action of its own, so that the readers, which take
    no lock, and other writers run between any two of them.  Within an action the
    document is written before the state and removed after it, and a document
    without a state is not held: what a reader could see inside is what it sees
    before or after.  The contents of an opened file do not change while it is
    checked and sent. *)

From stdpp Require Import sorting base gmap list strings.
From Stdlib Require Import Ascii ZArith Lia.
From S2P Require Import Prelude Async RustStr RustText Json DbText Assets NixBase32 NarInfo CacheEgress UploadGrant.

#[local] Open Scope Z_scope.
#[local] Open Scope nest_scope.

(** ** World *)

Inductive Answer := Status (code : Z) | Timeout | ConnectFailed | TransportFailed.

(** The requests, each with the URL it goes to and the Basic password. *)
Inductive Request :=
| Register (url token text : string)
| GetNarinfo (url token : string)
| PutFile (url token grant_id contents : string)
| PutNarinfo (url token grant_id text : string).

Record UploadWorld := {
  uw_dir : Disk;
  uw_credentials : option string;
  uw_sent : list (Request * Answer);
}.

(** What an action learns from outside: the clock, which writes and removals
    fail, how a request is answered, the files that are there, and whether reading
    one of them or building the HTTP client fails. *)
Record UploadInput := {
  ui_now : Z;
  ui_write : nat → WriteOutcome;
  ui_remove_fails : nat → bool;
  ui_answer : Answer;
  ui_files : CacheFiles;
  ui_sources : gmap string Entry;
  ui_check_fails : bool;
  ui_client_fails : bool;
}.

Abbreviation utask := (prog UploadInput UploadWorld).

Definition set_dir (d : Disk) (w : UploadWorld) : UploadWorld :=
  {| uw_dir := d; uw_credentials := uw_credentials w; uw_sent := uw_sent w |}.
Definition set_credentials (c : option string) (w : UploadWorld) : UploadWorld :=
  {| uw_dir := uw_dir w; uw_credentials := c; uw_sent := uw_sent w |}.
Definition record_sent (r : Request) (a : Answer) (w : UploadWorld) : UploadWorld :=
  {| uw_dir := uw_dir w; uw_credentials := uw_credentials w; uw_sent := (r, a) :: uw_sent w |}.

Definition timestamp (now : Z) : Z := now / 1000000000.

Record HeldGrant := {
  hg_id : string;
  hg_text : option string;
  hg_grant : option GrantPayload;
  hg_state : GrantState;
}.

(** Changes of a state. *)
Definition with_state (state : string) (s : GrantState) : GrantState := {|
  gs_tree := gs_tree s; gs_manifest_id := gs_manifest_id s; gs_expires_at := gs_expires_at s;
  gs_state := state; gs_registered := gs_registered s; gs_error := gs_error s;
  gs_attempts := gs_attempts s; gs_next_attempt_at := gs_next_attempt_at s;
  gs_bytes_uploaded := gs_bytes_uploaded s; gs_received_at := gs_received_at s;
  gs_updated_at := gs_updated_at s; gs_uploaded := gs_uploaded s; gs_failed := gs_failed s |}.
Definition with_registered (s : GrantState) : GrantState := {|
  gs_tree := gs_tree s; gs_manifest_id := gs_manifest_id s; gs_expires_at := gs_expires_at s;
  gs_state := gs_state s; gs_registered := true; gs_error := gs_error s;
  gs_attempts := gs_attempts s; gs_next_attempt_at := gs_next_attempt_at s;
  gs_bytes_uploaded := gs_bytes_uploaded s; gs_received_at := gs_received_at s;
  gs_updated_at := gs_updated_at s; gs_uploaded := gs_uploaded s; gs_failed := gs_failed s |}.
Definition with_uploaded (index bytes : Z) (s : GrantState) : GrantState := {|
  gs_tree := gs_tree s; gs_manifest_id := gs_manifest_id s; gs_expires_at := gs_expires_at s;
  gs_state := gs_state s; gs_registered := gs_registered s; gs_error := gs_error s;
  gs_attempts := gs_attempts s; gs_next_attempt_at := gs_next_attempt_at s;
  gs_bytes_uploaded := sat_add_i64 (gs_bytes_uploaded s) (Z.min bytes i64_max);
  gs_received_at := gs_received_at s; gs_updated_at := gs_updated_at s;
  gs_uploaded := {[ index ]} ∪ gs_uploaded s; gs_failed := gs_failed s |}.
Definition with_failed (index : Z) (reason : string) (s : GrantState) : GrantState := {|
  gs_tree := gs_tree s; gs_manifest_id := gs_manifest_id s; gs_expires_at := gs_expires_at s;
  gs_state := gs_state s; gs_registered := gs_registered s; gs_error := gs_error s;
  gs_attempts := gs_attempts s; gs_next_attempt_at := gs_next_attempt_at s;
  gs_bytes_uploaded := gs_bytes_uploaded s; gs_received_at := gs_received_at s;
  gs_updated_at := gs_updated_at s; gs_uploaded := gs_uploaded s;
  gs_failed := <[index := reason]> (gs_failed s) |}.
Definition with_updated_at (now : string) (s : GrantState) : GrantState := {|
  gs_tree := gs_tree s; gs_manifest_id := gs_manifest_id s; gs_expires_at := gs_expires_at s;
  gs_state := gs_state s; gs_registered := gs_registered s; gs_error := gs_error s;
  gs_attempts := gs_attempts s; gs_next_attempt_at := gs_next_attempt_at s;
  gs_bytes_uploaded := gs_bytes_uploaded s; gs_received_at := gs_received_at s;
  gs_updated_at := now; gs_uploaded := gs_uploaded s; gs_failed := gs_failed s |}.
Definition with_outcome (state error : string) (next attempts : Z) (s : GrantState) : GrantState := {|
  gs_tree := gs_tree s; gs_manifest_id := gs_manifest_id s; gs_expires_at := gs_expires_at s;
  gs_state := state; gs_registered := gs_registered s; gs_error := error;
  gs_attempts := attempts; gs_next_attempt_at := next;
  gs_bytes_uploaded := gs_bytes_uploaded s; gs_received_at := gs_received_at s;
  gs_updated_at := gs_updated_at s; gs_uploaded := gs_uploaded s; gs_failed := gs_failed s |}.

(** [s.trim_end_matches(p)] for a non-empty text [p]: every trailing [p]. *)
Definition trim_end_str (p s : string) : string := srev (trim_start_str (srev p) (srev s)).

Section Upload.
Context {deps : UploadDeps} {ed25519 : Ed25519} {codec : EgressCodec}.

(** ** Grants on disk *)

Definition read_grant_text (d : Disk) (id : string) : option string :=
  match read_bytes (grant_file id) MAX_GRANT_BYTES d with
  | Ok (Some contents) => if valid_utf8 contents then Some contents else None
  | _ => None
  end.

Definition held_grant (d : Disk) (id : string) : option HeldGrant :=
  if negb (valid_grant_id id) then None else
  state ← read state_from_value (state_file id) STATE_SCHEMA MAX_STATE_BYTES d;
  let text := read_grant_text d id in
  let decoded :=
    text ← text; tree ← from_tree (gs_tree state);
    match decode_grant text tree with
    | Ok (decoded, grant) => if bool_decide (decoded = id) then Some grant else None
    | Err _ => None
    end in
  let n := match decoded with Some grant => items grant | None => O end in
  if is_valid state n
  then Some {| hg_id := id; hg_text := text; hg_grant := decoded; hg_state := state |}
  else match decoded with
       | Some _ => Some {| hg_id := id; hg_text := text; hg_grant := decoded;
                           hg_state := restarted state |}
       | None => None
       end.

(** [received_at], then the id. *)
Definition held_le (x y : HeldGrant) : Prop :=
  String.le (gs_received_at (hg_state x)) (gs_received_at (hg_state y)) ∧
  (gs_received_at (hg_state x) = gs_received_at (hg_state y) → String.le (hg_id x) (hg_id y)).
#[global] Instance held_le_dec : RelDecision held_le.
Proof. unfold held_le. intros x y. apply _. Defined.

Definition held_grants (d : Disk) : list HeldGrant :=
  merge_sort held_le
    (omap (λ name, held_grant d (trim_end_str ".state.json" name))
       (list_records ".state.json" (4 * MAX_GRANTS) d)).

(** The two removals of a grant may fail, the second after the first. *)
Definition remove_grant (fails : nat → bool) (id : string) (d : Disk) : result string unit * Disk :=
  if fails 0%nat then (Err "remove", d) else
  match remove (state_file id) d with
  | (Err e, d) => (Err e, d)
  | (Ok _, d) => if fails 1%nat then (Err "remove", d) else remove (grant_file id) d
  end.

Definition store_state (outcome : WriteOutcome) (id : string) (s : GrantState) (d : Disk)
    : result string unit * Disk :=
  write outcome (state_file id) STATE_SCHEMA MAX_STATE_BYTES (state_to_value s) d.

(** One read of the directory. *)
Definition look {A} (f : Disk → A) : utask A := section (λ w, (f (uw_dir w), w)).

Definition update_state (id : string) (change : GrantState → GrantState) : utask (result string bool) :=
  atomic (λ i w,
    match held_grant (uw_dir w) id with
    | None => (Ok false, w)
    | Some held =>
        let s := with_updated_at (rfc3339_secs (ui_now i)) (change (hg_state held)) in
        match store_state (ui_write i 0%nat) id s (uw_dir w) with
        | (Ok _, d) => (Ok true, set_dir d w)
        | (Err e, d) => (Err e, set_dir d w)
        end
    end).

(** ** Credentials *)

Definition read_credentials (file : option string) : option Credentials :=
  contents ← file; credentials_from_string (str_to MAX_CREDENTIALS_BYTES contents).

Definition write_credentials (credentials : option Credentials) : utask (result string unit) :=
  atomic (λ i w,
    match credentials with
    | None => if ui_remove_fails i 0%nat then (Err "remove", w) else (Ok tt, set_credentials None w)
    | Some c =>
        if bool_decide (read_credentials (uw_credentials w) = Some c) then (Ok tt, w) else
        match ui_write i 0%nat with
        | Written => (Ok tt, set_credentials (Some (credentials_to_string c)) w)
        | _ => (Err "replace", w)
        end
    end).

(** ** Applying the configuration *)

(** Remove what [keep] does not name. *)
Fixpoint remove_grants (ids : list string) : utask (result string unit) :=
  match ids with
  | [] => Ret (Ok tt)
  | id :: ids =>
      try_bind (atomic (λ i w, let '(res, d) := remove_grant (ui_remove_fails i) id (uw_dir w) in
                               (res, set_dir d w)))
        (λ _, remove_grants ids)
  end.

Fixpoint remove_records (names : list string) : utask (result string unit) :=
  match names with
  | [] => Ret (Ok tt)
  | name :: names =>
      try_bind (atomic (λ i w, if ui_remove_fails i 0%nat then (Err "remove", w) else
                               let '(res, d) := remove name (uw_dir w) in (res, set_dir d w)))
        (λ _, remove_records names)
  end.

(** A grant that is not held yet: its document, then its state. *)
Definition record_grant (dest : Destination) (text id : string) (grant : GrantPayload)
    : utask (result string unit) :=
  atomic (λ i w,
    if bool_decide (is_Some (hg_id <$> held_grant (uw_dir w) id)) then (Ok tt, w) else
    let now := rfc3339_secs (ui_now i) in
    match write_bytes (ui_write i 0%nat) (grant_file id) (trim text) MAX_GRANT_BYTES (uw_dir w) with
    | (Err e, d) => (Err e, set_dir d w)
    | (Ok _, d) =>
        let '(res, d) := store_state (ui_write i 1%nat) id
          (new_state (tree_of dest) (gr_manifest_id grant) (gr_expires grant) now) d in
        (res, set_dir d w)
    end).

(** The grants in turn; the ids that are kept. *)
Fixpoint record_grants (dest : Destination) (grants : list ManagedGrant) (kept : gset string)
    : utask (result string (gset string)) :=
  match grants with
  | [] => Ret (Ok kept)
  | managed :: grants =>
      match decode_grant (mg_grant managed) dest with
      | Err _ => record_grants dest grants kept
      | Ok (id, grant) =>
          if match mg_grant_id managed with Some given => negb (bool_decide (given = id)) | None => false end
          then record_grants dest grants kept
          else try_bind (record_grant dest (mg_grant managed) id grant)
                 (λ _, record_grants dest grants ({[ id ]} ∪ kept))
      end
  end.

Definition apply_with (upload : option Value) (allow_loopback_http : bool)
    : utask (result string unit) :=
  match upload with
  | None | Some Null =>
      try_bind (write_credentials None) (λ _,
        look held_grants ≫= λ held, remove_grants (hg_id <$> held))
  | Some value =>
      match managed_from_value value with
      | None => Ret (Err "software_cache.upload is not {url, token, expires_at}")
      | Some upload =>
          match destination (mu_url upload) allow_loopback_http with
          | Err e => Ret (Err e)
          | Ok dest =>
              if negb (valid_token (mu_token upload))
              then Ret (Err "software cache upload token contains unsupported characters") else
              try_bind (write_credentials (Some {| cd_url := mu_url upload; cd_token := mu_token upload;
                                                   cd_expires_at := mu_expires_at upload |})) (λ _,
              try_bind (record_grants dest (take MAX_GRANTS (mu_grants upload)) ∅) (λ kept,
              look held_grants ≫= λ held,
              try_bind (remove_grants (List.filter (λ id, bool_decide (id ∉ kept)) (hg_id <$> held))) (λ _,
              look (list_records ".grant" (4 * MAX_GRANTS)) ≫= λ names,
              remove_records (List.filter (λ name, bool_decide (trim_end_str ".grant" name ∉ kept)) names))))
          end
      end
  end.

(** ** One item *)

Record Session := { ss_credentials : Credentials; ss_destination : Destination }.

Definition send (r : Request) : utask Answer :=
  atomic (λ i w, (ui_answer i, record_sent r (ui_answer i) w)).

Definition transport_error (a : Answer) : string :=
  match a with
  | Timeout => "timeout"
  | ConnectFailed => "connect_failed"
  | _ => "transport_failed"
  end.

Definition answered (a : Answer) (uploaded : Z) : ItemOutcome :=
  match a with
  | Status code => classify code uploaded
  | a => ItemRetry (transport_error a)
  end.

Definition base_url (session : Session) (path : string) : string :=
  ds_base (ss_destination session) +:+ "/" +:+ path.
Definition token (session : Session) : string := cd_token (ss_credentials session).

Definition put_file (session : Session) (id url contents : string) : utask ItemOutcome :=
  send (PutFile url (token session) id contents) ≫= λ a, Ret (answered a (len contents)).

Definition narinfo_url (session : Session) (hash : string) : string :=
  base_url session (hash +:+ ".narinfo").

Definition upload_path (session : Session) (id : string) (p : GrantPath) : utask ItemOutcome :=
  match store_hash (gp_store_path p) with
  | None => Ret (ItemRefused "invalid_store_path")
  | Some hash =>
      read_input (λ i, read_cached_narinfo (ui_files i) (gp_store_path p)) ≫= λ r,
      match r with
      | Err _ => Ret (ItemRefused "not_in_cache")
      | Ok narinfo =>
          if negb (narinfo_matches narinfo p) then Ret (ItemRefused "narinfo_mismatch") else
          send (GetNarinfo (narinfo_url session hash) (token session)) ≫= λ a,
          match a with
          | Status 200 => Ret (ItemUploaded 0)
          | _ =>
              read_input (λ i, (open_cached_nar (ui_files i) (gp_nar_url p), ui_check_fails i)) ≫= λ opened,
              match opened with
              | (Err _, _) | (Ok _, true) => Ret (ItemRefused "not_in_cache")
              | (Ok contents, false) =>
                  match checked_file contents (gp_file_size p) (cn_file_hash narinfo) with
                  | None => Ret (ItemRefused "nar_mismatch")
                  | Some nar =>
                      put_file session id (base_url session (gp_nar_url p)) nar ≫= λ o,
                      match o with
                      | ItemUploaded _ =>
                          send (PutNarinfo (narinfo_url session hash) (token session) id
                                  (cn_text narinfo)) ≫= λ a,
                          Ret (answered a (gp_file_size p + len (cn_text narinfo)))
                      | other => Ret other
                      end
                  end
              end
          end
      end
  end.

(** The digest of a granted file: 64 hexadecimal digits. *)
Definition file_digest (f : GrantFile) : option Digest :=
  match hex_decode (bytes (gf_sha256 f)) with
  | Some d => if (length d =? 32)%nat then Some d else None
  | None => None
  end.

Definition upload_file (session : Session) (id : string) (f : GrantFile) : utask ItemOutcome :=
  match source_revision (gf_path f), file_digest f with
  | Some revision, Some expected =>
      read_input (λ i, (ui_sources i !! (revision +:+ ".tar"), ui_check_fails i)) ≫= λ opened,
      match opened with
      | (Some (CacheFile contents), false) =>
          match checked_file contents (gf_size f) expected with
          | None => Ret (ItemRefused "file_mismatch")
          | Some contents => put_file session id (base_url session (gf_path f)) contents
          end
      | (Some CacheDirectory, false) => Ret (ItemRefused "file_mismatch")
      | _ => Ret (ItemRefused "file_unavailable")
      end
  | _, _ => Ret (ItemRefused "invalid_file")
  end.

(** ** One grant *)

Inductive GrantOutcome := Uploaded | Failed (reason : string) | Retry (reason : string) | Gone.

Inductive Item := ItemPath (p : GrantPath) | ItemFile (f : GrantFile).

Definition grant_items (g : GrantPayload) : list Item :=
  (ItemPath <$> gr_paths g) ++ (ItemFile <$> gr_files g).

Definition upload_item (session : Session) (id : string) (item : Item) : utask ItemOutcome :=
  match item with
  | ItemPath p => upload_path session id p
  | ItemFile f => upload_file session id f
  end.

Definition still_granted (id : string) (expires : Z) : utask bool :=
  atomic (λ i w, ((timestamp (ui_now i) <? expires)
                  && bool_decide (is_Some (hg_id <$> held_grant (uw_dir w) id)), w)).

(** The items from [index] on; [None] when every one of them was recorded. *)
Fixpoint upload_items (session : Session) (held : HeldGrant) (expires index : Z) (l : list Item)
    : utask (result string (option GrantOutcome)) :=
  match l with
  | [] => Ret (Ok None)
  | item :: l =>
      let id := hg_id held in
      if u32_max <? index then Ret (Err "out of range integral type conversion attempted") else
      if bool_decide (index ∈ gs_uploaded (hg_state held))
         || bool_decide (is_Some (gs_failed (hg_state held) !! index))
      then upload_items session held expires (index + 1) l else
      still_granted id expires ≫= λ granted,
      if negb granted then Ret (Ok (Some Gone)) else
      upload_item session id item ≫= λ outcome,
      match outcome with
      | ItemQuota => Ret (Ok (Some (Failed "quota_exceeded")))
      | ItemRetry reason => Ret (Ok (Some (Retry reason)))
      | ItemUploaded bytes =>
          try_bind (update_state id (with_uploaded index bytes)) (λ recorded,
          if negb recorded then Ret (Ok (Some Gone))
          else upload_items session held expires (index + 1) l)
      | ItemRefused reason =>
          try_bind (update_state id (with_failed index reason)) (λ recorded,
          if negb recorded then Ret (Ok (Some Gone))
          else upload_items session held expires (index + 1) l)
      end
  end.

(** [failed.values().next()]: the reason of the first item that failed. *)
Definition index_le (x y : Z * string) : Prop := x.1 ≤ y.1.
#[global] Instance index_le_dec : RelDecision index_le.
Proof. unfold index_le. intros x y. apply _. Defined.
Definition first_failure (m : gmap Z string) : option string :=
  snd <$> head (merge_sort index_le (map_to_list m)).

(** The registration: [None] when the upload goes on. *)
Definition register (session : Session) (held : HeldGrant) (text : string)
    : utask (result string (option GrantOutcome)) :=
  if gs_registered (hg_state held) then Ret (Ok None) else
  send (Register (base_url session "upload-grants") (token session) text) ≫= λ a,
  match answered a 0 with
  | ItemUploaded _ =>
      try_bind (update_state (hg_id held) with_registered) (λ recorded,
      Ret (Ok (if recorded then None else Some Gone)))
  | ItemRefused reason => Ret (Ok (Some (Failed ("grant_" +:+ reason))))
  | ItemQuota => Ret (Ok (Some (Failed "quota_exceeded")))
  | ItemRetry reason => Ret (Ok (Some (Retry reason)))
  end.

Definition upload_grant (session : Session) (held : HeldGrant) : utask (result string GrantOutcome) :=
  match hg_grant held, hg_text held with
  | Some grant, Some text =>
      let id := hg_id held in
      try_bind (update_state id (with_state "uploading")) (λ recorded,
      if negb recorded then Ret (Ok Gone) else
      try_bind (register session held text) (λ early,
      match early with
      | Some outcome => Ret (Ok outcome)
      | None =>
          try_bind (upload_items session held (gr_expires grant) 0 (grant_items grant)) (λ early,
          match early with
          | Some outcome => Ret (Ok outcome)
          | None =>
              look (λ d, held_grant d id) ≫= λ held,
              Ret (Ok (match held ≫= λ held, first_failure (gs_failed (hg_state held)) with
                       | Some reason => Failed reason
                       | None => Uploaded
                       end))
          end)
      end))
  | _, _ => Ret (Ok (Failed "grant_invalid"))
  end.

Definition finish_grant (held : HeldGrant) (outcome : GrantOutcome) (pass_started : Z)
    : utask (result string unit) :=
  let attempts := gs_attempts (hg_state held) in
  let finish change := try_bind (update_state (hg_id held) change) (λ _, Ret (Ok tt)) in
  match outcome with
  | Uploaded => finish (with_outcome "uploaded" "" 0 0)
  | Failed reason => finish (with_outcome "failed" reason 0 attempts)
  | Retry reason =>
      read_input ui_now ≫= λ now,
      finish (with_outcome "uploading" reason
                (timestamp (Z.max now pass_started) + backoff_seconds attempts)
                (Z.min (attempts + 1) 64))
  | Gone => Ret (Ok tt)
  end.

(** ** One pass *)

Definition unfinished (held : HeldGrant) : bool :=
  bool_decide (gs_state (hg_state held) ∈ ["pending"; "uploading"]).

Fixpoint expire_grants (held : list HeldGrant) (now : Z) : utask (result string unit) :=
  match held with
  | [] => Ret (Ok tt)
  | h :: held =>
      if (gs_expires_at (hg_state h) <=? timestamp now) && unfinished h
      then try_bind (update_state (hg_id h) (with_state "expired")) (λ _, expire_grants held now)
      else expire_grants held now
  end.

Definition due_grant (dest : Destination) (now : Z) (held : HeldGrant) : bool :=
  unfinished held && (gs_next_attempt_at (hg_state held) <=? timestamp now)
  && bool_decide (gs_tree (hg_state held) = tree_of dest).

Fixpoint upload_grants (session : Session) (held : list HeldGrant) (now : Z)
    : utask (result string unit) :=
  match held with
  | [] => Ret (Ok tt)
  | h :: held =>
      try_bind (upload_grant session h) (λ outcome,
      try_bind (finish_grant h outcome now) (λ _,
      match outcome with
      | Retry _ => Ret (Ok tt)
      | _ => upload_grants session held now
      end))
  end.

Definition upload_pass (allow_loopback_http : bool) (now : Z) : utask (result string unit) :=
  look held_grants ≫= λ held,
  try_bind (expire_grants held now) (λ _,
  section (λ w, (read_credentials (uw_credentials w), w)) ≫= λ credentials,
  match credentials with
  | None => Ret (Ok tt)
  | Some c =>
      if cd_expires_at c <=? now then Ret (Ok tt) else
      match destination (cd_url c) allow_loopback_http with
      | Err e => Ret (Err e)
      | Ok dest =>
          look held_grants ≫= λ held,
          match List.filter (due_grant dest now) held with
          | [] => Ret (Ok tt)
          | held =>
              read_input ui_client_fails ≫= λ fails,
              if fails : bool then Ret (Err "create the software cache upload client")
              else upload_grants {| ss_credentials := c; ss_destination := dest |} held now
          end
      end
  end).

(** [spawn]: the uploader starts a pass at the time of the clock. *)
Definition uploader : utask (result string unit) :=
  read_input ui_now ≫= λ now, upload_pass false now.

(** ** The report *)

Record UploadReport := {
  ur_grant_id : string;
  ur_manifest_id : option string;
  ur_state : string;
  ur_paths_total : nat;
  ur_paths_uploaded : nat;
  ur_files_total : nat;
  ur_files_uploaded : Z;
  ur_items_failed : nat;
  ur_bytes_uploaded : Z;
  ur_error : string;
  ur_updated_at : string;
}.

Definition report_of (held : HeldGrant) : UploadReport :=
  let paths_total := match hg_grant held with Some g => length (gr_paths g) | None => O end in
  let files_total := match hg_grant held with Some g => length (gr_files g) | None => O end in
  let s := hg_state held in
  let paths_uploaded := size (filter (λ index, index < Z.of_nat paths_total) (gs_uploaded s)) in
  {| ur_grant_id := hg_id held; ur_manifest_id := gs_manifest_id s; ur_state := gs_state s;
     ur_paths_total := paths_total; ur_paths_uploaded := paths_uploaded;
     ur_files_total := files_total;
     ur_files_uploaded := Z.of_nat (size (gs_uploaded s)) - Z.of_nat paths_uploaded;
     ur_items_failed := size (gs_failed s); ur_bytes_uploaded := gs_bytes_uploaded s;
     ur_error := gs_error s; ur_updated_at := gs_updated_at s |}.

Definition report (d : Disk) : list UploadReport := report_of <$> held_grants d.

End Upload.
