(* ===== verification/UploadProofs.v ===== *)
(** * Uploads: proofs

    Whatever Manage configures and however the tasks interleave, a request carries
    a token Manage gave to the tree it was given for, and what it sends is an item
    of a grant Manage handed over, with the bytes the grant promises; a narinfo
    follows its NAR. *)

From stdpp Require Import sorting base gmap list strings relations.
From Stdlib Require Import Ascii ZArith Lia.
From S2P Require Import Prelude Async RustStr RustText Json DbText Assets AssetsProofs NixBase32 NarInfo NarInfoProofs CacheEgress UploadGrant Upload.

#[local] Open Scope Z_scope.
#[local] Open Scope nest_scope.

(** What is relied on of serde: credentials read back are those written, and a
    text cut short is no document; a state that reads back is the one written. *)
Class UploadLaws (deps : UploadDeps) (codec : EgressCodec) : Prop := {
  credentials_read_back c c' :
    credentials_from_string (str_to MAX_CREDENTIALS_BYTES (credentials_to_string c)) = Some c' → c' = c;
  state_read_back s s' : state_from_value (state_to_value s) = Some s' → s' = s;
  envelope_read_back schema s x :
    envelope_from_slice (envelope_to_vec schema VERSION (state_to_value s)) = Some x →
    x = (schema, VERSION, state_to_value s);
  (** The indices are of type [u32]. *)
  state_indices v s index : state_from_value v = Some s → index ∈ gs_uploaded s ∪ dom (gs_failed s) → 0 ≤ index;
}.

(** ** Documents and trees *)

Section Decode.
Context {deps : UploadDeps} {ed25519 : Ed25519}.

(** Decoding depends on the tree, not on where it is served. *)
Lemma decode_grant_same_tree text d d' :
  ds_issuer d' = ds_issuer d → ds_scope d' = ds_scope d → decode_grant text d' = decode_grant text d.
Proof. intros Hi Hs. unfold decode_grant. by rewrite Hi, Hs. Qed.

Lemma valid_issuer_no_slash issuer : valid_issuer issuer = true → any_byte (Ascii.eqb "/") issuer = false.
Proof.
  unfold valid_issuer. intros [_ H]%andb_true_iff. apply not_true_iff_false. unfold any_byte.
  rewrite existsb_exists. intros (a & Hin & <-%Ascii.eqb_eq). rewrite all_bytes_forall in H.
  by apply H in Hin.
Qed.

Lemma destination_valid url allow d :
  destination url allow = Ok d → valid_issuer (ds_issuer d) = true ∧ valid_scope (ds_scope d) = true.
Proof.
  unfold destination. intros (u & _ & H)%rbind_Ok. apply rbind_Ok in H as (host & _ & H). revert H.
  destruct (strip_prefix "/o/" _ ≫= _) as [[issuer scope]|]; [|done].
  match goal with |- context [if ?c then _ else _] => destruct c eqn:Hv end; [done|].
  match goal with |- context [if ?c then _ else _] => destruct c end; [done|]. intros [= <-]. simpl.
  apply negb_false_iff in Hv. apply andb_true_iff in Hv as [Hv ->].
  by apply andb_true_iff in Hv as [_ ->].
Qed.

(** The tree of a destination names its issuer and scope. *)
Lemma from_tree_tree d :
  valid_issuer (ds_issuer d) = true → valid_scope (ds_scope d) = true →
  from_tree (tree_of d) = Some {| ds_base := ""; ds_issuer := ds_issuer d; ds_scope := ds_scope d |}.
Proof.
  intros Hi Hs. unfold from_tree, tree_of. change ("/" +:+ ds_scope d) with (String "/" (ds_scope d)).
  rewrite split_once_app by by apply valid_issuer_no_slash.
  by rewrite Hi, Hs.
Qed.
End Decode.

(** ** What may be sent *)

Section Sent.
Context {deps : UploadDeps} {ed25519 : Ed25519} {codec : EgressCodec} {laws : UploadLaws deps codec}.
(** The grants Manage handed over, and the credentials it gave. *)
Context (handed : string → Prop) (trusted : Credentials → Prop).

(** A grant for this tree that was handed over, with its id. *)
Definition granted (dest : Destination) (id : string) (g : GrantPayload) : Prop :=
  ∃ given, handed given ∧ decode_grant (trim given) dest = Ok (id, g).

Definition nar_of (p : GrantPath) (contents : string) : Prop :=
  len contents = gp_file_size p ∧ ok (sha256_digest (gp_file_hash p)) = Some (sha256_of contents).

Definition success (a : Answer) : bool :=
  match a with Status code => in_range 200 299 code | _ => false end.

Definition url_of (dest : Destination) (path : string) : string := ds_base dest +:+ "/" +:+ path.

Definition request_ok (token : string) (dest : Destination) (earlier : list (Request * Answer))
    (r : Request) : Prop :=
  match r with
  | Register url t text => t = token ∧ url = url_of dest "upload-grants" ∧
      ∃ given id g, handed given ∧ text = trim given ∧ decode_grant text dest = Ok (id, g)
  | GetNarinfo url t => t = token ∧
      ∃ id g p hash, granted dest id g ∧ p ∈ gr_paths g ∧ store_hash (gp_store_path p) = Some hash ∧
        url = url_of dest (hash +:+ ".narinfo")
  | PutFile url t id contents => t = token ∧ ∃ g, granted dest id g ∧
      ((∃ p, p ∈ gr_paths g ∧ url = url_of dest (gp_nar_url p) ∧ nar_of p contents) ∨
       (∃ f, f ∈ gr_files g ∧ url = url_of dest (gf_path f) ∧ len contents = gf_size f ∧
          file_digest f = Some (sha256_of contents)))
  | PutNarinfo url t id text => t = token ∧
      ∃ g p hash narinfo files contents answer, granted dest id g ∧ p ∈ gr_paths g ∧
        store_hash (gp_store_path p) = Some hash ∧ url = url_of dest (hash +:+ ".narinfo") ∧
        read_cached_narinfo files (gp_store_path p) = Ok narinfo ∧ narinfo_matches narinfo p = true ∧
        text = cn_text narinfo ∧
        (PutFile (url_of dest (gp_nar_url p)) token id contents, answer) ∈ earlier ∧
        success answer = true ∧ nar_of p contents
  end.

(** Sent with a token Manage gave, to the tree it gave it for, over HTTPS. *)
Definition sent_ok (earlier : list (Request * Answer)) (r : Request) : Prop :=
  ∃ c dest, trusted c ∧ destination (cd_url c) false = Ok dest ∧ request_ok (cd_token c) dest earlier r.

Fixpoint trace_ok (sent : list (Request * Answer)) : Prop :=
  match sent with
  | [] => True
  | (r, _) :: earlier => sent_ok earlier r ∧ trace_ok earlier
  end.

(** The item is in the tree: it was there, or it was sent and accepted. *)
Definition item_done (c : Credentials) (dest : Destination) (id : string) (item : Item) 
    (sent : list (Request * Answer)) : Prop :=
  match item with
  | ItemPath p => ∃ hash, store_hash (gp_store_path p) = Some hash ∧
      let url := url_of dest (hash +:+ ".narinfo") in
      (GetNarinfo url (cd_token c), Status 200) ∈ sent ∨
      ∃ text a, (PutNarinfo url (cd_token c) id text, a) ∈ sent ∧ success a = true
  | ItemFile f => ∃ contents a,
      (PutFile (url_of dest (gf_path f)) (cd_token c) id contents, a) ∈ sent ∧ success a = true
  end.

(** The item of this index of the grant is in the tree. *)
Definition recorded (sent : list (Request * Answer)) (id : string) (index : Z) : Prop :=
  ∃ c dest g item, trusted c ∧ destination (cd_url c) false = Ok dest ∧ granted dest id g ∧
    grant_items g !! Z.to_nat index = Some item ∧ item_done c dest id item sent.

(** ** The invariant *)

(** The documents on disk were handed over. *)
Definition dir_ok (d : Disk) : Prop :=
  ∀ id contents, d !! grant_file id = Some contents → ∃ given, handed given ∧ contents = trim given.

Definition credentials_ok (file : option string) : Prop :=
  ∀ c, read_credentials file = Some c → trusted c.

Definition read_state (d : Disk) (id : string) : option GrantState :=
  read state_from_value (state_file id) STATE_SCHEMA MAX_STATE_BYTES d.

(** What a state says was uploaded is in the tree. *)
Definition records_ok (d : Disk) (sent : list (Request * Answer)) : Prop :=
  ∀ id s index, read_state d id = Some s → index ∈ gs_uploaded s → recorded sent id index.

Definition upload_inv (w : UploadWorld) : Prop :=
  dir_ok (uw_dir w) ∧ records_ok (uw_dir w) (uw_sent w) ∧
  credentials_ok (uw_credentials w) ∧ trace_ok (uw_sent w).

Lemma recorded_suffix sent sent' id index :
  sent `suffix_of` sent' → recorded sent id index → recorded sent' id index.
Proof.
  intros Hs (c & dest & g & item & Hc & Hd & Hg & Hi & Hdone). exists c, dest, g, item. split_and!; [done..|].
  destruct item as [p|f]; simpl in *.
  - destruct Hdone as (hash & Hh & [H|(text & a & H & Ha)]); exists hash; (split; [done|]);
      [left|right; exists text, a; split; [|done]]; by eapply elem_of_suffix.
  - destruct Hdone as (contents & a & H & Ha). exists contents, a. split; [|done]. by eapply elem_of_suffix.
Qed.

(** Requests are only added. *)
Definition upload_evolves (w w' : UploadWorld) : Prop := uw_sent w `suffix_of` uw_sent w'.

#[global] Instance upload_evolves_preorder : PreOrder upload_evolves.
Proof.
  split; [intros w; by exists []|]. intros x y z [k1 H1] [k2 H2]. exists (k2 ++ k1). by rewrite H2, H1, app_assoc.
Qed.

Lemma grant_file_not_state x y : grant_file x ≠ state_file y.
Proof.
  unfold grant_file, state_file. intros H. apply (f_equal (λ s, last (bytes s))) in H. revert H.
  rewrite !bytes_app. change (bytes ".grant") with (bytes ".gran" ++ ["t"%char]).
  change (bytes ".state.json") with (bytes ".state.jso" ++ ["n"%char]).
  rewrite !app_assoc, !last_snoc. done.
Qed.

Lemma grant_file_inj x y : grant_file x = grant_file y → x = y.
Proof.
  unfold grant_file. intros H. apply (f_equal bytes) in H. rewrite !bytes_app in H.
  apply app_inv_tail in H. by apply bytes_inj.
Qed.

Lemma write_bytes_dir outcome name contents max d :
  (write_bytes outcome name contents max d).2 = d ∨
  (write_bytes outcome name contents max d).2 = <[name := contents]> d.
Proof.
  unfold write_bytes, record_path. destruct (max <? len contents); [by left|].
  destruct (valid_name name); [|by left]. destruct outcome; simpl; auto.
Qed.

Lemma store_state_dir outcome id s d :
  dir_ok d → dir_ok (store_state outcome id s d).2.
Proof.
  intros Hd. unfold store_state, write.
  destruct (write_bytes_dir outcome (state_file id) (envelope_to_vec STATE_SCHEMA VERSION (state_to_value s))
    MAX_STATE_BYTES d) as [->| ->]; [done|].
  intros id' contents. rewrite lookup_insert_ne; [apply Hd|]. intros H. by apply (grant_file_not_state id' id).
Qed.

Lemma dir_ok_subseteq d d' : d' ⊆ d → dir_ok d → dir_ok d'.
Proof. intros Hsub Hd id contents H. eapply Hd. by eapply lookup_weaken. Qed.

Lemma remove_subseteq name (d : Disk) : (remove name d).2 ⊆ d.
Proof. unfold remove. destruct (record_path name); simpl; [apply delete_subseteq|done]. Qed.

Lemma remove_grant_subseteq fails id d : (remove_grant fails id d).2 ⊆ d.
Proof.
  unfold remove_grant. destruct (fails 0%nat); [done|].
  pose proof (remove_subseteq (state_file id) d) as H. destruct (remove (state_file id) d) as [[u|e] d1]; [|done].
  simpl in H. destruct (fails 1%nat); [done|]. transitivity d1; [apply remove_subseteq|done].
Qed.

Lemma upload_inv_dir d w :
  upload_inv w → dir_ok d → records_ok d (uw_sent w) →
  upload_inv (set_dir d w) ∧ upload_evolves w (set_dir d w).
Proof. intros (_ & _ & Hc & Ht) Hd Hr. split; [by split_and!|]. unfold upload_evolves. reflexivity. Qed.

Lemma read_lookup d d' name :
  d' !! name = d !! name →
  read state_from_value name STATE_SCHEMA MAX_STATE_BYTES d' = read state_from_value name STATE_SCHEMA MAX_STATE_BYTES d.
Proof.
  intros H. unfold read, read_bytes, record_path. destruct (valid_name name); [|done]. simpl. by rewrite H.
Qed.

Lemma records_ok_subseteq d d' sent : d' ⊆ d → records_ok d sent → records_ok d' sent.
Proof.
  intros Hsub Hr id s index Hs Hin. eapply Hr; [|exact Hin]. unfold read_state in *.
  destruct (d' !! state_file id) as [contents|] eqn:E.
  - rewrite <-Hs. symmetry. apply read_lookup. rewrite E. symmetry. by eapply lookup_weaken.
  - exfalso. revert Hs. unfold read, read_bytes, record_path. destruct (valid_name _); [|done]. simpl. by rewrite E.
Qed.

Lemma records_ok_insert_grant d sent id contents :
  records_ok d sent → records_ok (<[grant_file id := contents]> d) sent.
Proof.
  intros Hr id' s index Hs. apply (Hr id'). unfold read_state in *. rewrite <-Hs. symmetry. apply read_lookup.
  apply lookup_insert_ne. apply grant_file_not_state.
Qed.

Lemma state_file_inj x y : state_file x = state_file y → x = y.
Proof.
  unfold state_file. intros H. apply (f_equal bytes) in H. rewrite !bytes_app in H.
  apply app_inv_tail in H. by apply bytes_inj.
Qed.

Lemma read_state_insert d id s s' :
  read_state (<[state_file id := envelope_to_vec STATE_SCHEMA VERSION (state_to_value s)]> d) id = Some s' → s' = s.
Proof.
  unfold read_state, read, read_bytes, record_path. destruct (valid_name _); [|done]. simpl.
  rewrite lookup_insert_eq. destruct (_ <? _); [done|]. unfold decode.
  destruct (envelope_from_slice _) as [x|] eqn:Ex; [|done]. apply envelope_read_back in Ex as ->.
  rewrite bool_decide_true by done. simpl. destruct (state_from_value _) as [s0|] eqn:Es; [|done].
  apply state_read_back in Es as ->. simpl. by intros [= <-].
Qed.

Lemma store_state_records outcome id s d sent :
  (∀ index, index ∈ gs_uploaded s → recorded sent id index) →
  records_ok d sent → records_ok (store_state outcome id s d).2 sent.
Proof.
  intros Hs Hr. unfold store_state, write.
  destruct (write_bytes_dir outcome (state_file id) (envelope_to_vec STATE_SCHEMA VERSION (state_to_value s))
    MAX_STATE_BYTES d) as [->| ->]; [done|].
  intros id' s' index Hs' Hin. destruct (decide (id' = id)) as [->|Hne].
  - apply read_state_insert in Hs' as ->. by apply Hs.
  - eapply Hr; [|exact Hin]. rewrite <-Hs'. symmetry. apply read_lookup. apply lookup_insert_ne.
    intros H%state_file_inj. done.
Qed.

(** ** Grants on disk *)

Definition decoded_items (h : HeldGrant) : nat :=
  match hg_grant h with Some g => items g | None => O end.

Lemma restarted_valid s n : is_Some (from_tree (gs_tree s)) → is_valid (restarted s) n = true.
Proof.
  intros H. unfold is_valid, restarted. simpl. rewrite !andb_true_iff, !bool_decide_eq_true.
  split_and!; done.
Qed.

Lemma held_grant_Some d id h :
  held_grant d id = Some h →
  hg_id h = id ∧ valid_grant_id id = true ∧ is_valid (hg_state h) (decoded_items h) = true ∧
  hg_text h = read_grant_text d id ∧
  ∀ g, hg_grant h = Some g → ∃ text t, hg_text h = Some text ∧
    from_tree (gs_tree (hg_state h)) = Some t ∧ decode_grant text t = Ok (id, g).
Proof.
  unfold held_grant. destruct (valid_grant_id id); [|done]. simpl.
  destruct (read _ _ _ _ _) as [s|]; [|done]. simpl.
  set (decoded := text ← read_grant_text d id; _). intros Hh.
  assert (∀ g, decoded = Some g → ∃ text t, read_grant_text d id = Some text ∧
    from_tree (gs_tree s) = Some t ∧ decode_grant text t = Ok (id, g)) as Hd.
  { subst decoded. clear Hh. intros g Hg. destruct (read_grant_text d id) as [text|]; [|done]. simpl in Hg.
    destruct (from_tree (gs_tree s)) as [t|]; [|done]. simpl in Hg.
    destruct (decode_grant text t) as [[id' g']|] eqn:Hdec; [|done]. case_bool_decide; [|done].
    injection Hg as <-. subst id'. by exists text, t. }
  destruct (is_valid s _) eqn:Hv.
  - injection Hh as <-. split_and!; [done|done|exact Hv|done|]. exact Hd.
  - destruct decoded as [g|]; [|done]. injection Hh as <-. simpl. split_and!; [done|done| |done|].
    + apply restarted_valid. destruct (Hd g eq_refl) as (text & t & _ & -> & _). done.
    + exact Hd.
Qed.

Lemma elem_of_held_grants d h : h ∈ held_grants d → held_grant d (hg_id h) = Some h.
Proof.
  unfold held_grants. rewrite merge_sort_Permutation. intros (name & _ & H)%list_elem_of_omap.
  pose proof (held_grant_Some _ _ _ H) as (-> & _). done.
Qed.

Lemma read_grant_text_ok d id text :
  dir_ok d → read_grant_text d id = Some text → ∃ given, handed given ∧ text = trim given.
Proof.
  intros Hd. unfold read_grant_text, read_bytes, record_path. destruct (valid_name (grant_file id)); [|done].
  simpl. destruct (d !! grant_file id) as [contents|] eqn:E; [|done]. destruct (_ <? _); [done|].
  destruct (valid_utf8 contents); [|done]. intros [= <-]. by eapply Hd.
Qed.

(** What the pass knows of a grant it took from the directory. *)
Definition held_ok (dest : Destination) (h : HeldGrant) : Prop :=
  ∀ g text, hg_grant h = Some g → hg_text h = Some text →
    granted dest (hg_id h) g ∧ ∃ given, handed given ∧ text = trim given ∧ decode_grant text dest = Ok (hg_id h, g).

Lemma held_grant_ok d dest h :
  dir_ok d → valid_issuer (ds_issuer dest) = true → valid_scope (ds_scope dest) = true →
  gs_tree (hg_state h) = tree_of dest → held_grant d (hg_id h) = Some h → held_ok dest h.
Proof.
  intros Hd Hi Hs Ht Hh g text Hg Htext.
  destruct (held_grant_Some _ _ _ Hh) as (_ & _ & _ & Hread & Hdec).
  destruct (Hdec g Hg) as (text' & t & Htext' & Hfrom & Hdecode). rewrite Htext in Htext'. injection Htext' as <-.
  rewrite Ht, (from_tree_tree dest Hi Hs) in Hfrom. injection Hfrom as <-.
  rewrite (decode_grant_same_tree text dest) in Hdecode by done.
  rewrite Htext in Hread. symmetry in Hread. destruct (read_grant_text_ok _ _ _ Hd Hread) as (given & Hgiven & ->).
  split; [by exists given|]. by exists given.
Qed.

(** ** The handlers keep it *)

Abbreviation usafe := (safe upload_inv upload_evolves).

Lemma held_state_uploaded d id h index :
  held_grant d id = Some h → index ∈ gs_uploaded (hg_state h) →
  ∃ s, read_state d id = Some s ∧ index ∈ gs_uploaded s.
Proof.
  unfold held_grant. destruct (negb _); [done|]. fold (read_state d id).
  destruct (read_state d id) as [s|]; [|done]. simpl. intros H Hin. exists s. split; [done|]. revert H Hin.
  destruct (is_valid s _); [by intros [= <-]|].
  destruct (read_grant_text d id ≫= _); [|done]. intros [= <-]. simpl. set_solver.
Qed.

Lemma update_state_safe id change w0 :
  (∀ w, upload_inv w → upload_evolves w0 w → ∀ s index, index ∈ gs_uploaded (change s) →
     index ∈ gs_uploaded s ∨ recorded (uw_sent w) id index) →
  usafe (update_state id change) (λ _ _, True) w0.
Proof.
  intros Hchange. apply safe_atomic. intros i w HI HG.
  destruct (held_grant (uw_dir w) id) as [h|] eqn:Hh; [|split; [exact HI|split; [reflexivity|done]]].
  set (s := with_updated_at (rfc3339_secs (ui_now i)) (change (hg_state h))).
  pose proof (store_state_dir (ui_write i 0%nat) id s (uw_dir w) (proj1 HI)) as Hd.
  assert (records_ok (store_state (ui_write i 0%nat) id s (uw_dir w)).2 (uw_sent w)) as Hr.
  { apply store_state_records; [|apply HI]. intros index Hin. simpl in Hin.
    destruct (Hchange w HI HG _ _ Hin) as [Hold|]; [|done].
    destruct (held_state_uploaded _ _ _ _ Hh Hold) as (s0 & Hs0 & Hin0). by eapply (proj1 (proj2 HI)). }
  cbv zeta. destruct (store_state _ _ _ _) as [[u|e] d]; simpl in *;
    destruct (upload_inv_dir d w HI Hd Hr) as [H1 H2]; (split; [exact H1|split; [exact H2|done]]).
Qed.

(** A change that adds nothing to what was uploaded. *)
Lemma update_plain_safe id change w0 :
  (∀ s, gs_uploaded (change s) = gs_uploaded s) → usafe (update_state id change) (λ _ _, True) w0.
Proof. intros H. apply update_state_safe. intros w _ _ s index Hin. left. by rewrite <-H. Qed.

Lemma look_safe {A} (f : Disk → A) w0 :
  usafe (look f) (λ a w, upload_inv w ∧ a = f (uw_dir w)) w0.
Proof. apply safe_section. intros w HI _. split; [exact HI|]. split; [reflexivity|]. by split. Qed.

Lemma send_safe r w0 :
  (∀ w, upload_inv w → upload_evolves w0 w → sent_ok (uw_sent w) r) →
  usafe (send r) (λ a w, (r, a) ∈ uw_sent w) w0.
Proof.
  intros H. apply safe_atomic. intros i w HI HG. simpl. assert (sent_ok (uw_sent w) r) as Hr by by apply H.
  destruct HI as (Hd & Hrec & Hc & Ht).
  split; [split_and!; [done| |done..]|].
  { intros id s index Hs Hin. eapply recorded_suffix; [|by eapply Hrec]. by exists [(r, ui_answer i)]. } split; [by exists [(r, ui_answer i)]|by left].
Qed.

(** [try_bind] for handlers of which only safety matters. *)
Lemma safe_try {A B} (p : utask (result string A)) (f : A → utask (result string B)) w0 :
  upload_inv w0 → usafe p (λ _ _, True) w0 →
  (∀ a w, upload_inv w → upload_evolves w0 w → usafe (f a) (λ _ _, True) w) →
  usafe (try_bind p f) (λ _ _, True) w0.
Proof. intros HI Hp Hf. eapply safe_try_seq; [apply _|done|exact Hp|intros a w H1 H2 _; by apply Hf|done]. Qed.

Section Session.
Context (c : Credentials) (dest : Destination).
Context (Hc : trusted c) (Hdest : destination (cd_url c) false = Ok dest).

Definition session : Session := {| ss_credentials := c; ss_destination := dest |}.

Definition outcome_ok (id : string) (item : Item) (o : ItemOutcome) (w : UploadWorld) : Prop :=
  ∀ b, o = ItemUploaded b → item_done c dest id item (uw_sent w).

Lemma answered_uploaded a n b : answered a n = ItemUploaded b → success a = true.
Proof.
  destruct a as [code| | |]; simpl; [|done..]. unfold classify. destruct (in_range 200 299 code); [done|].
  destruct (_ =? 507); [done|]. destruct (_ =? 401); [done|]. by case_bool_decide.
Qed.

Lemma put_file_safe id url contents w0 :
  upload_inv w0 →
  (∀ earlier, request_ok (cd_token c) dest earlier (PutFile url (cd_token c) id contents)) →
  usafe (put_file session id url contents) (λ o w, ∀ b, o = ItemUploaded b →
    ∃ a, (PutFile url (cd_token c) id contents, a) ∈ uw_sent w ∧ success a = true) w0.
Proof.
  intros HI H. unfold put_file. eapply safe_seq; [apply _|done|apply send_safe|].
  - intros w _ _. exists c, dest. by split_and!.
  - intros a w _ _ Hin b Hb. exists a. split; [exact Hin|]. by eapply answered_uploaded.
Qed.

Lemma checked_file_Some contents size expected nar :
  checked_file contents size expected = Some nar →
  nar = contents ∧ len contents = size ∧ sha256_of contents = expected.
Proof.
  unfold checked_file. destruct (_ && _) eqn:E; [|done]. intros [= <-].
  apply andb_true_iff in E as [?%Z.eqb_eq ?%bool_decide_eq_true]. done.
Qed.

Lemma narinfo_matches_hash n p :
  narinfo_matches n p = true → ok (sha256_digest (gp_file_hash p)) = Some (cn_file_hash n).
Proof.
  unfold narinfo_matches. rewrite !andb_true_iff, !bool_decide_eq_true.
  intros [[[[[[[_ _] _] H] _] _] _] _]. done.
Qed.

Lemma upload_path_safe id g p w0 :
  upload_inv w0 → granted dest id g → p ∈ gr_paths g →
  usafe (upload_path session id p) (outcome_ok id (ItemPath p)) w0.
Proof.
  intros HI Hg Hp. unfold upload_path. destruct (store_hash (gp_store_path p)) as [hash|] eqn:Hhash; [|done].
  eapply safe_seq; [apply _|done|apply (safe_read _ _ _ (λ r _, ∃ files,
    r = read_cached_narinfo files (gp_store_path p))); eauto|].
  intros r w1 HI1 _ [files ->]. destruct (read_cached_narinfo files (gp_store_path p)) as [n|] eqn:Hn; [|done].
  destruct (narinfo_matches n p) eqn:Hm; [|done]. cbn [negb].
  eapply safe_seq; [apply _|done|apply send_safe|].
  { intros w _ _. exists c, dest. split; [exact Hc|]. split; [exact Hdest|]. split; [reflexivity|].
    exists id, g, p, hash. by split_and!. }
  intros a w2 HI2 _ Hget.
  assert (usafe (read_input (λ i, (open_cached_nar (ui_files i) (gp_nar_url p), ui_check_fails i)) ≫= λ opened,
    match opened with
    | (Err _, _) | (Ok _, true) => Ret (ItemRefused "not_in_cache")
    | (Ok contents, false) =>
        match checked_file contents (gp_file_size p) (cn_file_hash n) with
        | None => Ret (ItemRefused "nar_mismatch")
        | Some nar =>
            put_file session id (base_url session (gp_nar_url p)) nar ≫= λ o,
            match o with
            | ItemUploaded _ =>
                send (PutNarinfo (narinfo_url session hash) (token session) id (cn_text n)) ≫= λ a,
                Ret (answered a (gp_file_size p + len (cn_text n)))
            | other => Ret other
            end
        end
    end) (outcome_ok id (ItemPath p)) w2) as Hsend.
  { eapply safe_seq; [apply _|done|apply (safe_read _ _ _ (λ _ _, True)); done|].
    intros [[contents|e] []] w3 HI3 _ _; [done| |done|done].
    destruct (checked_file contents (gp_file_size p) (cn_file_hash n)) as [nar|] eqn:Hnar; [|done].
    apply checked_file_Some in Hnar as (-> & Hsize & Hdigest).
    assert (nar_of p contents) as Hof by (split; [done|]; rewrite (narinfo_matches_hash n p Hm), Hdigest; done).
    eapply safe_seq; [apply _|done|apply put_file_safe; [done|]|].
    { intros earlier. split; [done|]. exists g. split; [done|]. left. by exists p. }
    intros o w4 HI4 _ Hput. destruct o as [b|reason|reason|]; [|done..].
    destruct (Hput b eq_refl) as (a4 & Hin4 & Hs4).
    eapply safe_seq; [apply _|done|apply send_safe|].
    { intros w _ HG. exists c, dest. split; [exact Hc|]. split; [exact Hdest|]. split; [reflexivity|].
      exists g, p, hash, n, files, contents, a4. split_and!; try done.
      eapply elem_of_suffix; [exact Hin4|exact HG]. }
    intros a5 w5 _ _ Hin5 b5 Hb5. exists hash. split; [exact Hhash|]. right.
    exists (cn_text n), a5. split; [exact Hin5|]. by eapply answered_uploaded. }
  assert (a = Status 200 ∨ a ≠ Status 200) as [->|Hne].
  { destruct a as [c0| | |]; [|right; discriminate..].
    destruct (decide (c0 = 200)) as [->|Hc0]; [by left|right; congruence]. }
  - intros b _. exists hash. split; [exact Hhash|]. by left.
  - destruct a as [c0| | |]; [|exact Hsend..].
    destruct c0 as [|c0|c0]; [exact Hsend| |exact Hsend].
    repeat (destruct c0 as [c0|c0|]; try exact Hsend). done.
Qed.

Lemma upload_file_safe id g f w0 :
  upload_inv w0 → granted dest id g → f ∈ gr_files g →
  usafe (upload_file session id f) (outcome_ok id (ItemFile f)) w0.
Proof.
  intros HI Hg Hf. unfold upload_file. destruct (source_revision (gf_path f)) as [revision|]; [|done].
  destruct (file_digest f) as [expected|] eqn:Hd; [|done].
  eapply safe_seq; [apply _|done|apply (safe_read _ _ _ (λ _ _, True)); done|].
  intros [[[contents|through|]|] []] w1 HI1 _ _; try done.
  destruct (checked_file contents (gf_size f) expected) as [nar|] eqn:Hnar; [|done].
  apply checked_file_Some in Hnar as (-> & Hsize & Hdigest).
  eapply safe_mono; [|apply put_file_safe; [done|]].
  - intros o w H b Hb. destruct (H b Hb) as (a & Hin & Hs). by exists contents, a.
  - intros earlier. split; [done|]. exists g. split; [done|]. right. exists f. by rewrite Hd, Hdigest.
Qed.

Lemma upload_item_safe id g item w0 :
  upload_inv w0 → granted dest id g → item ∈ grant_items g →
  usafe (upload_item session id item) (outcome_ok id item) w0.
Proof.
  unfold grant_items. intros HI Hg [(p & -> & Hp)%list_elem_of_fmap|(f & -> & Hf)%list_elem_of_fmap]%elem_of_app.
  - by eapply upload_path_safe.
  - by eapply upload_file_safe.
Qed.

Lemma upload_items_safe h g expires index l w0 :
  upload_inv w0 → granted dest (hg_id h) g → 0 ≤ index →
  (∀ k item, l !! k = Some item → grant_items g !! (Z.to_nat index + k)%nat = Some item) →
  usafe (upload_items session h expires index l) (λ _ _, True) w0.
Proof.
  intros HI Hg. revert index w0 HI. induction l as [|item l IH]; intros index w0 HI Hindex Hl; cbn [upload_items]; [done|].
  assert (∀ w, upload_inv w → usafe (upload_items session h expires (index + 1) l) (λ _ _, True) w) as Hnext.
  { intros w HIw. apply IH; [done|lia|]. intros k x Hx. rewrite <-(Hl (S k) x Hx). f_equal. lia. }
  destruct (u32_max <? index); [done|]. destruct (_ || _); [by apply Hnext|].
  eapply safe_seq; [apply _|done|by apply (safe_atomic _ _ _ (λ _ _, True))|].
  intros granted' w1 HI1 _ _. destruct granted'; [|done]. cbn [negb].
  pose proof (Hl 0%nat item eq_refl) as Hitem. rewrite Nat.add_0_r in Hitem.
  eapply safe_seq; [apply _|done|eapply upload_item_safe; [done|done|by eapply list_elem_of_lookup_2]|].
  intros o w2 HI2 _ Ho. destruct o as [b|reason|reason|]; [| |done..].
  - apply safe_try; [done| |intros [] w3 HI3 _; [by apply Hnext|done]].
    apply update_state_safe. intros w _ HG s x Hx. simpl in Hx.
    apply elem_of_union in Hx as [->%elem_of_singleton|]; [right|by left].
    eapply recorded_suffix; [exact HG|]. exists c, dest, g, item. split_and!; [done..|]. by eapply Ho.
  - apply safe_try; [done|by apply update_plain_safe|intros [] w3 HI3 _; [by apply Hnext|done]].
Qed.

Lemma register_safe h text w0 :
  upload_inv w0 → (∃ given g, handed given ∧ text = trim given ∧ decode_grant text dest = Ok (hg_id h, g)) →
  usafe (register session h text) (λ _ _, True) w0.
Proof.
  intros HI (given & g & Hgiven & Ht & Hdec). unfold register. destruct (gs_registered _); [done|].
  eapply safe_seq; [apply _|done|apply send_safe|].
  { intros w _ _. exists c, dest. split; [exact Hc|]. split; [exact Hdest|]. split; [reflexivity|].
    split; [reflexivity|]. by exists given, (hg_id h), g. }
  intros a w1 HI1 _ _. destruct (answered a 0); [|done..].
  apply safe_try; [done|by apply update_plain_safe|done].
Qed.

Lemma upload_grant_safe h w0 :
  upload_inv w0 → held_ok dest h → usafe (upload_grant session h) (λ _ _, True) w0.
Proof.
  intros HI Hok. unfold upload_grant. destruct (hg_grant h) as [g|] eqn:Hg; [|done].
  destruct (hg_text h) as [text|] eqn:Ht; [|done].
  destruct (Hok g text Hg Ht) as (Hgranted & given & Hgiven & Htext & Hdec).
  apply safe_try; [done|by apply update_plain_safe|]. intros [] w1 HI1 _; [|done]. cbn [negb].
  apply safe_try; [done|apply register_safe; [done|by exists given, g]|]. intros [o|] w2 HI2 _; [done|].
  apply safe_try; [done|eapply upload_items_safe; [done|done|lia|]|].
  { intros k item Hk. exact Hk. }
  intros [o|] w3 HI3 _; [done|]. eapply safe_seq; [apply _|done|apply look_safe|done].
Qed.

Lemma finish_grant_safe h outcome started w0 :
  upload_inv w0 → usafe (finish_grant h outcome started) (λ _ _, True) w0.
Proof.
  intros HI. unfold finish_grant. destruct outcome as [|reason|reason|]; [| | |done].
  - apply safe_try; [done|by apply update_plain_safe|done].
  - apply safe_try; [done|by apply update_plain_safe|done].
  - eapply safe_seq; [apply _|done|apply (safe_read _ _ _ (λ _ _, True)); done|].
    intros now w1 HI1 _ _. apply safe_try; [done|by apply update_plain_safe|done].
Qed.

Lemma upload_grants_safe l now w0 :
  upload_inv w0 → Forall (held_ok dest) l → usafe (upload_grants session l now) (λ _ _, True) w0.
Proof.
  intros HI Hall. revert w0 HI. induction Hall as [|h l Hh Hall IH]; intros w0 HI; cbn [upload_grants]; [done|].
  apply safe_try; [done|by apply upload_grant_safe|]. intros o w1 HI1 _.
  apply safe_try; [done|by apply finish_grant_safe|]. intros _ w2 HI2 _.
  destruct o; [by apply IH..|done|by apply IH].
Qed.

End Session.

(** ** A pass, and a configuration *)

Lemma expire_grants_safe l now w0 : upload_inv w0 → usafe (expire_grants l now) (λ _ _, True) w0.
Proof.
  revert w0. induction l as [|h l IH]; intros w0 HI; cbn [expire_grants]; [done|].
  destruct (_ && _); [|by apply IH]. apply safe_try; [done|by apply update_plain_safe|].
  intros _ w1 HI1 _. by apply IH.
Qed.

Lemma upload_pass_safe now w0 : upload_inv w0 → usafe (upload_pass false now) (λ _ _, True) w0.
Proof.
  intros HI. unfold upload_pass. eapply safe_seq; [apply _|done|apply look_safe|].
  intros held w1 HI1 _ _. apply safe_try; [done|by apply expire_grants_safe|]. intros _ w2 HI2 _.
  eapply safe_seq; [apply _|done|apply (safe_section _ _ _ (λ r _, ∀ c, r = Some c → trusted c))|].
  { intros w (H1 & H2 & H3 & H4) _. split; [by split_and!|]. split; [reflexivity|]. exact H3. }
  intros r w3 HI3 _ Hr. destruct r as [c|]; [|done]. specialize (Hr c eq_refl).
  destruct (cd_expires_at c <=? now); [done|]. destruct (destination (cd_url c) false) as [dest|] eqn:Hdest; [|done].
  destruct (destination_valid _ _ _ Hdest) as [Hi Hs].
  eapply safe_seq; [apply _|done|apply look_safe|]. intros held' w4 HI4 _ [HI4' ->].
  destruct (List.filter (due_grant dest now) (held_grants (uw_dir w4))) as [|h l] eqn:E; [done|].
  eapply safe_seq; [apply _|done|apply (safe_read _ _ _ (λ _ _, True)); done|].
  intros [] w5 HI5 _ _; [done|]. apply upload_grants_safe; [done..|]. rewrite <-E.
  apply Forall_forall. intros h' Hh'. apply list_elem_of_In, filter_In in Hh' as [Hin Hdue].
  apply list_elem_of_In, elem_of_held_grants in Hin. unfold due_grant in Hdue.
  apply andb_true_iff in Hdue as [_ Ht%bool_decide_eq_true]. eapply held_grant_ok; [apply HI4|done..].
Qed.

Lemma write_credentials_safe c w0 :
  (∀ c', c = Some c' → trusted c') → usafe (write_credentials c) (λ _ _, True) w0.
Proof.
  intros Hc. apply safe_atomic. intros i w HI _.
  assert (∀ f, credentials_ok f → upload_inv (set_credentials f w) ∧ upload_evolves w (set_credentials f w)) as Hset.
  { intros f Hf. destruct HI as (H1 & H2 & _ & H4). split; [by split_and!|by exists []]. }
  assert (upload_inv w ∧ upload_evolves w w ∧ True) as Hsame by (split; [exact HI|split; [reflexivity|done]]).
  destruct c as [c|].
  - case_bool_decide; [done|]. destruct (ui_write i 0%nat); [|done..].
    destruct (Hset (Some (credentials_to_string c))) as [H1 H2];
      [|split; [exact H1|split; [exact H2|done]]].
    intros c' Hread. unfold read_credentials in Hread. simpl in Hread.
    apply credentials_read_back in Hread as ->. by apply Hc.
  - destruct (ui_remove_fails i 0%nat); [done|].
    destruct (Hset None) as [H1 H2]; [|split; [exact H1|split; [exact H2|done]]]. intros c' [=].
Qed.

Lemma shrink_dir_safe (act : UploadInput → Disk → result string unit * Disk) w0 :
  (∀ i d, (act i d).2 ⊆ d) →
  usafe (atomic (λ i w, let '(res, d) := act i (uw_dir w) in (res, set_dir d w))) (λ _ _, True) w0.
Proof.
  intros Hsub. apply safe_atomic. intros i w HI _. specialize (Hsub i (uw_dir w)).
  destruct (act i (uw_dir w)) as [res d]. simpl in *. destruct HI as (H1 & H2 & H3 & H4).
  split; [|split; [by exists []|done]]. split_and!; [by eapply dir_ok_subseteq|by eapply records_ok_subseteq|done..].
Qed.

Lemma remove_grants_safe ids w0 : upload_inv w0 → usafe (remove_grants ids) (λ _ _, True) w0.
Proof.
  revert w0. induction ids as [|id ids IH]; intros w0 HI; cbn [remove_grants]; [done|].
  apply safe_try; [done|apply (shrink_dir_safe (λ i, remove_grant (ui_remove_fails i) id));
    intros i d; apply remove_grant_subseteq|].
  intros _ w1 HI1 _. by apply IH.
Qed.

Lemma remove_records_safe names w0 : upload_inv w0 → usafe (remove_records names) (λ _ _, True) w0.
Proof.
  revert w0. induction names as [|name names IH]; intros w0 HI; cbn [remove_records]; [done|].
  apply safe_try; [done| |intros _ w1 HI1 _; by apply IH].
  apply safe_atomic. intros i w HIw _. destruct (ui_remove_fails i 0%nat).
  { split; [exact HIw|split; [reflexivity|done]]. }
  pose proof (remove_subseteq name (uw_dir w)) as Hsub. destruct (remove name (uw_dir w)) as [res d]. simpl in *.
  destruct HIw as (H1 & H2 & H3 & H4). split; [|split; [by exists []|done]].
  split_and!; [by eapply dir_ok_subseteq|by eapply records_ok_subseteq|done..].
Qed.

Lemma record_grant_safe dest text id g w0 :
  handed text → usafe (record_grant dest text id g) (λ _ _, True) w0.
Proof.
  intros Ht. apply safe_atomic. intros i w HI _. case_bool_decide.
  { split; [exact HI|split; [reflexivity|done]]. }
  assert (∀ d, d = uw_dir w ∨ d = <[grant_file id := trim text]> (uw_dir w) →
    dir_ok d ∧ records_ok d (uw_sent w)) as Hdoc.
  { intros d [->| ->]; [split; apply HI|]. split; [|apply records_ok_insert_grant, HI].
    intros id' contents [[_ <-]|[_ Hin]]%lookup_insert_Some; [by exists text|]. by eapply (proj1 HI). }
  specialize (Hdoc _ (write_bytes_dir (ui_write i 0%nat) (grant_file id) (trim text) MAX_GRANT_BYTES (uw_dir w))).
  destruct (write_bytes (ui_write i 0%nat) (grant_file id) (trim text) MAX_GRANT_BYTES (uw_dir w)) as [[u|e] d].
  - simpl in Hdoc. destruct Hdoc as [Hd Hr].
    set (s := new_state (tree_of dest) (gr_manifest_id g) (gr_expires g) (rfc3339_secs (ui_now i))).
    pose proof (store_state_dir (ui_write i 1%nat) id s d Hd) as Hd'.
    pose proof (store_state_records (ui_write i 1%nat) id s d (uw_sent w)
      ltac:(intros index Hin; simpl in Hin; set_solver) Hr) as Hr'.
    cbv zeta. destruct (store_state _ _ _ _) as [res d']. simpl in *.
    destruct (upload_inv_dir d' w HI Hd' Hr') as [H1 H2]. split; [exact H1|split; [exact H2|done]].
  - simpl in *. destruct Hdoc as [Hd Hr].
    destruct (upload_inv_dir d w HI Hd Hr) as [H1 H2]. split; [exact H1|split; [exact H2|done]].
Qed.

Lemma record_grants_safe dest l kept w0 :
  upload_inv w0 → Forall (λ m, handed (mg_grant m)) l →
  usafe (record_grants dest l kept) (λ _ _, True) w0.
Proof.
  intros HI Hall. revert kept w0 HI. induction Hall as [|m l Hm Hall IH]; intros kept w0 HI; cbn [record_grants]; [done|].
  destruct (decode_grant (mg_grant m) dest) as [[id g]|]; [|by apply IH].
  destruct (match mg_grant_id m with Some _ => _ | None => _ end); [by apply IH|].
  apply safe_try; [done|by apply record_grant_safe|]. intros _ w1 HI1 _. by apply IH.
Qed.

(** Manage handed over the grants of the configuration and gave its credentials. *)
Definition configured (upload : option Value) : Prop :=
  ∀ value m, upload = Some value → managed_from_value value = Some m →
    Forall (λ g, handed (mg_grant g)) (mu_grants m) ∧
    trusted {| cd_url := mu_url m; cd_token := mu_token m; cd_expires_at := mu_expires_at m |}.

Lemma apply_with_safe upload w0 :
  upload_inv w0 → configured upload → usafe (apply_with upload false) (λ _ _, True) w0.
Proof.
  intros HI Hup.
  assert (usafe (try_bind (write_credentials None) (λ _, look held_grants ≫= λ held, remove_grants (hg_id <$> held)))
    (λ _ _, True) w0) as Hnone.
  { apply safe_try; [done|by apply write_credentials_safe|]. intros _ w1 HI1 _.
    eapply safe_seq; [apply _|done|apply look_safe|]. intros held w2 HI2 _ _. by apply remove_grants_safe. }
  assert (∀ value, upload = Some value → usafe
    match managed_from_value value with
    | None => Ret (Err "software_cache.upload is not {url, token, expires_at}")
    | Some upload =>
        match destination (mu_url upload) false with
        | Err e => Ret (Err e)
        | Ok dest =>
            if negb (valid_token (mu_token upload))
            then Ret (Err "software cache upload token contains unsupported characters") else
            try_bind (write_credentials (Some {| cd_url := mu_url upload; cd_token := mu_token upload;
                                                 cd_expires_at := mu_expires_at upload |})) (λ _,
            try_bind (record_grants dest (take MAX_GRANTS (mu_grants upload)) ∅) (λ kept,
            look held_grants ≫= λ held,
            try_bind (remove_grants (List.filter (λ id, bool_decide (id ∉ kept)) (hg_id <$> held))) (λ _,
            look (list_records ".grant" (4 * MAX_GRANTS)) ≫= λ names,
            remove_records (List.filter (λ name, bool_decide (trim_end_str ".grant" name ∉ kept)) names))))
        end
    end (λ _ _, True) w0) as Hsome.
  { intros value Hv. destruct (managed_from_value value) as [m|] eqn:Hm; [|done].
    destruct (Hup value m Hv Hm) as [Hgrants Hcred]. destruct (destination (mu_url m) false) as [dest|]; [|done].
    destruct (valid_token (mu_token m)); [|done]. cbn [negb].
    apply safe_try; [done|apply write_credentials_safe; by intros c' [= <-]|]. intros _ w1 HI1 _.
    apply safe_try; [done|apply record_grants_safe; [done|by apply Forall_take]|]. intros kept w2 HI2 _.
    eapply safe_seq; [apply _|done|apply look_safe|]. intros held w3 HI3 _ _.
    apply safe_try; [done|by apply remove_grants_safe|]. intros _ w4 HI4 _.
    eapply safe_seq; [apply _|done|apply look_safe|]. intros names w5 HI5 _ _. by apply remove_records_safe. }
  unfold apply_with. destruct upload as [[| | | | |]|]; [exact Hnone|by apply Hsome..|exact Hnone].
Qed.

(** ** Every interleaving *)

Inductive upload_entry : utask unit → Prop :=
| entry_apply upload : configured upload → upload_entry (apply_with upload false ≫= λ _, Ret tt)
| entry_uploader : upload_entry (uploader ≫= λ _, Ret tt).

Lemma upload_entry_safe p w0 : upload_entry p → upload_inv w0 → usafe p (λ _ _, True) w0.
Proof.
  intros [upload Hup|] HI; (eapply safe_seq; [apply _|done| |done]); [by apply apply_with_safe|].
  unfold uploader. eapply safe_seq; [apply _|done|apply (safe_read _ _ _ (λ _ _, True)); done|].
  intros now w1 HI1 _ _. by apply upload_pass_safe.
Qed.

End Sent.

Section Theorems.
Context {deps : UploadDeps} {ed25519 : Ed25519} {codec : EgressCodec} {laws : UploadLaws deps codec}.

(** C33. However configurations and passes interleave: every request carries a token
    that Manage gave, to the tree of the URL it came with, and sends nothing but
    an item of a grant Manage handed over, with the size and digest the grant
    promises; a narinfo agrees with the grant and is sent only after its NAR was
    accepted. *)
Theorem only_granted_items_are_sent handed trusted w0 ts w :
  upload_inv handed trusted w0 →
  rtc (pstep (upload_entry handed trusted)) ([], w0) (ts, w) →
  trace_ok handed trusted (uw_sent w).
Proof.
  intros HI Hrtc.
  destruct (pool_invariant_empty _ _ _ _ _ _ (upload_entry_safe handed trusted) Hrtc HI) as [(_ & _ & _ & H) _].
  exact H.
Qed.

(** C34. What the record of a grant says was uploaded is in the tree: each item it
    counts was found there or was sent and accepted. *)
Theorem recorded_uploads_happened handed trusted w0 ts w h index :
  upload_inv handed trusted w0 →
  rtc (pstep (upload_entry handed trusted)) ([], w0) (ts, w) →
  h ∈ held_grants (uw_dir w) → index ∈ gs_uploaded (hg_state h) →
  recorded handed trusted (uw_sent w) (hg_id h) index.
Proof.
  intros HI Hrtc Hh%elem_of_held_grants Hin.
  destruct (pool_invariant_empty _ _ _ _ _ _ (upload_entry_safe handed trusted) Hrtc HI) as [(_ & H & _) _].
  destruct (held_state_uploaded _ _ _ _ Hh Hin) as (s & Hs & Hs'). by eapply H.
Qed.

(** ** The report *)

Definition below_set (n : nat) : gset Z := list_to_set (seqZ 0 (Z.of_nat n)).

Lemma elem_of_below_set n x : x ∈ below_set n ↔ 0 ≤ x < Z.of_nat n.
Proof. unfold below_set. rewrite elem_of_list_to_set, elem_of_seqZ. lia. Qed.

Lemma size_below_set n : size (below_set n) = n.
Proof.
  unfold below_set. rewrite size_list_to_set by apply NoDup_seqZ. rewrite length_seqZ. lia.
Qed.

Lemma held_indices d h index :
  h ∈ held_grants d → index ∈ gs_uploaded (hg_state h) ∪ dom (gs_failed (hg_state h)) →
  index ∈ below_set (decoded_items h).
Proof.
  intros Hh%elem_of_held_grants Hin. rewrite elem_of_below_set.
  destruct (held_grant_Some _ _ _ Hh) as (_ & _ & Hv & _). split.
  - revert Hh Hin. unfold held_grant. destruct (negb _); [done|].
    destruct (read _ _ _ _ d) as [s|] eqn:Hr; [|done]. simpl. intros Hh.
    assert (hg_state h = s ∨ hg_state h = restarted s) as [->| ->].
    { destruct (is_valid s _); [injection Hh as <-; by left|].
      destruct (read_grant_text d (hg_id h) ≫= _); [|done]. injection Hh as <-. by right. }
    + revert Hr. unfold read. destruct (read_bytes _ _ _) as [[contents|]|]; [|done..]. unfold decode.
      destruct (envelope_from_slice contents) as [[[sc v] data]|]; [|done]. destruct (_ || _); [done|].
      destruct (state_from_value data) as [s'|] eqn:Es; [|done]. intros [= ->]. by eapply state_indices.
    + simpl. rewrite dom_empty_L. set_solver.
  - unfold is_valid in Hv. rewrite !andb_true_iff, !bool_decide_eq_true in Hv.
    destruct Hv as [[[[_ Hall] _] _] _]. by apply Hall.
Qed.

(** The totals of a report add up: what is uploaded and what failed are different
    items of the grant, paths and files each within their number. *)
Theorem upload_report_adds_up d r :
  r ∈ report d →
  (ur_paths_uploaded r ≤ ur_paths_total r)%nat ∧
  0 ≤ ur_files_uploaded r ≤ Z.of_nat (ur_files_total r) ∧
  Z.of_nat (ur_paths_uploaded r) + ur_files_uploaded r + Z.of_nat (ur_items_failed r)
    ≤ Z.of_nat (ur_paths_total r) + Z.of_nat (ur_files_total r).
Proof.
  intros (h & -> & Hh)%list_elem_of_fmap. pose proof (λ i, held_indices d h i Hh) as Hall.
  pose proof (elem_of_held_grants _ _ Hh) as Hheld.
  destruct (held_grant_Some _ _ _ Hheld) as (_ & _ & Hv & _).
  assert (gs_uploaded (hg_state h) ## dom (gs_failed (hg_state h))) as Hdisj.
  { unfold is_valid in Hv. rewrite !andb_true_iff, !bool_decide_eq_true in Hv.
    by destruct Hv as [[[_ ?] _] _]. }
  unfold report_of. simpl. set (s := hg_state h) in *.
  set (np := match hg_grant h with Some g => length (gr_paths g) | None => 0%nat end).
  set (nf := match hg_grant h with Some g => length (gr_files g) | None => 0%nat end).
  assert (decoded_items h = (np + nf)%nat) as Hn by (unfold decoded_items, np, nf, items; by destruct (hg_grant h)).
  rewrite Hn in Hall.
  set (P := filter (λ index, index < Z.of_nat np) (gs_uploaded s)).
  set (F := filter (λ index, ¬ index < Z.of_nat np) (gs_uploaded s)).
  assert (size P + size F = size (gs_uploaded s))%nat as Hsplit.
  { rewrite <-(filter_union_complement_L (λ index, index < Z.of_nat np) (gs_uploaded s) ∅) at 1.
    rewrite size_union by set_solver. reflexivity. }
  assert (size P ≤ np)%nat as HP.
  { rewrite <-(size_below_set np). apply subseteq_size. intros x [Hx Hin]%elem_of_filter.
    specialize (Hall x ltac:(set_solver)). rewrite elem_of_below_set in *. lia. }
  assert (size F ≤ nf)%nat as HF.
  { assert (size (list_to_set (seqZ (Z.of_nat np) (Z.of_nat nf)) : gset Z) = nf) as <-
      by (rewrite size_list_to_set by apply NoDup_seqZ; rewrite length_seqZ; lia).
    apply subseteq_size. intros x [Hx Hin]%elem_of_filter. rewrite elem_of_list_to_set, elem_of_seqZ.
    specialize (Hall x ltac:(set_solver)). rewrite elem_of_below_set in Hall. lia. }
  assert (size (gs_uploaded s) + size (gs_failed s) ≤ np + nf)%nat as Hsum.
  { rewrite <-size_dom, <-size_union by done. rewrite <-(size_below_set (np + nf)).
    apply subseteq_size. exact Hall. }
  split_and!; [exact HP|lia|lia|lia].
Qed.

End Theorems.
