(* ===== verification/UploadDemo.v ===== *)
(** * A grant, uploaded

    Manage hands over a grant for one store path of the cache of [CacheDemo]; the
    configuration and a pass run, and the theorems on uploads are applied. *)

From stdpp Require Import sorting base gmap list strings relations.
From Stdlib Require Import Ascii ZArith Lia.
From S2P Require Import Prelude Async RustStr RustText Json DbText Assets NixBase32 NarInfo CacheEgress CacheDemo UploadGrant Upload UploadProofs.

#[local] Open Scope Z_scope.
#[local] Open Scope nest_scope.

#[local] Existing Instance demo_ed25519.

Definition demo_scope : string := "o-" +:+ srepeat 32 "0".
Definition demo_url : UploadUrl := {|
  uu_scheme := "https"; uu_host := Some "c.example"; uu_port := None; uu_path := "/o/dev/" +:+ demo_scope;
  uu_username := ""; uu_password := None; uu_query := None; uu_fragment := None |}.
Definition demo_document : string := "tug1.P.M".
Definition demo_path : GrantPath := {|
  gp_store_path := store_path "b"; gp_nar_url := "nar/" +:+ nar_name "b"; gp_compression := "zstd";
  gp_file_hash := zero_hash; gp_file_size := 3; gp_nar_hash := zero_hash; gp_nar_size := 5;
  gp_references := [] |}.
Definition demo_grant : GrantPayload := {|
  gr_schema := GRANT_SCHEMA; gr_issuer := "dev"; gr_scope := demo_scope; gr_expires := 100;
  gr_manifest_id := None; gr_paths := [demo_path]; gr_files := [] |}.
Definition demo_upload : ManagedUpload := {|
  mu_url := "u"; mu_token := "t"; mu_expires_at := 100000000000;
  mu_grants := [{| mg_grant := demo_document; mg_grant_id := None |}] |}.
Definition demo_credentials : Credentials :=
  {| cd_url := "u"; cd_token := "t"; cd_expires_at := 100000000000 |}.

(** The states the grant goes through. *)
#[local] Instance grant_state_eq_dec : EqDecision GrantState.
Proof. solve_decision. Defined.
Definition pending_state : GrantState := new_state ("dev/" +:+ demo_scope) None 100 "T".
Definition uploading : GrantState := with_state "uploading" pending_state.
Definition sent_state : GrantState :=
  with_uploaded 0 (3 + len (narinfo_text "b" "")) (with_registered uploading).
Definition demo_states : list GrantState :=
  [pending_state; uploading; with_registered uploading; sent_state; with_outcome "uploaded" "" 0 0 sent_state].

#[local] Instance upload_deps : UploadDeps := {|
  parse_url := λ _, Some demo_url;
  base64url_decode := Some;
  grant_from_slice := λ _, Some demo_grant;
  sha256_of := demo_sha256;
  managed_from_value := λ _, Some demo_upload;
  state_to_value := λ s, match list_find (λ x, s = x) demo_states with
                         | Some (n, _) => Num (PosInt (Z.of_nat n)) | None => Null end;
  state_from_value := λ v, match v with Num (PosInt z) => demo_states !! Z.to_nat z | _ => None end;
  credentials_to_string := λ c, if bool_decide (c = demo_credentials) then "c" else "";
  credentials_from_string := λ s, if bool_decide (s = "c") then Some demo_credentials else None;
|}.

#[local] Instance upload_codec : EgressCodec := {|
  envelope_to_vec := λ schema _ v,
    match v with
    | Num (PosInt z) => if bool_decide (schema = STATE_SCHEMA) then "x" +:+ srepeat (Z.to_nat z) "x" else ""
    | _ => ""
    end;
  envelope_from_slice := λ s, if is_empty s then None else Some (STATE_SCHEMA, 1, Num (PosInt (len s - 1)));
  datetime_to_string := λ _, "";
  datetime_from_str := λ _, None;
  rfc3339_secs := λ _, "T";
|}.

Lemma len_srepeat n : len (srepeat n "x") = Z.of_nat n.
Proof.
  induction n as [|n IH]; [done|]. simpl srepeat. rewrite len_app, IH.
  change (len "x") with 1. lia.
Qed.

Lemma str_to_empty n : str_to n "" = "".
Proof. by destruct n. Qed.

#[local] Instance upload_laws : UploadLaws upload_deps upload_codec.
Proof.
  split.
  - intros c c'. cbn [credentials_to_string credentials_from_string upload_deps].
    destruct (decide (c = demo_credentials)) as [->|Hne].
    + destruct (bool_decide (str_to _ _ = "c")); congruence.
    + rewrite (bool_decide_false (c = _)) by done. rewrite str_to_empty. discriminate.
  - intros s s'. cbn [state_to_value state_from_value upload_deps].
    destruct (list_find (λ x, s = x) demo_states) as [[n x]|] eqn:E; [|discriminate].
    apply list_find_Some in E as (Hn & -> & _). rewrite Nat2Z.id, Hn. congruence.
  - intros schema s x. cbn [state_to_value envelope_to_vec envelope_from_slice upload_deps upload_codec].
    destruct (list_find (λ x, s = x) demo_states) as [[n y]|]; [|discriminate].
    case_bool_decide as Hs; [|discriminate]. rewrite Nat2Z.id.
    assert (is_empty ("x" +:+ srepeat n "x") = false) as -> by (apply bool_decide_eq_false; discriminate).
    rewrite len_app, len_srepeat. change (len "x") with 1. intros [= <-]. subst schema. unfold VERSION.
    by replace (1 + Z.of_nat n - 1) with (Z.of_nat n) by lia.
  - intros v s index. cbn [state_from_value upload_deps]. destruct v as [| |[z| |]| | |]; try discriminate.
    intros Hs%list_elem_of_lookup_2. revert Hs. unfold demo_states. rewrite !elem_of_cons, elem_of_nil.
    intros [->|[->|[->|[->|[->|[]]]]]]; cbn; rewrite dom_empty_L; intros Hx; set_solver by lia.
Qed.

(** Every write succeeds and every request is answered 201. *)
Definition demo_input (_ : nat) : UploadInput := {|
  ui_now := 5000000000; ui_write := λ _, Written; ui_remove_fails := λ _, false; ui_answer := Status 201;
  ui_files := demo_files; ui_sources := ∅; ui_check_fails := false; ui_client_fails := false |}.

Definition handed_demo (text : string) : Prop := text = demo_document.
Definition trusted_demo (c : Credentials) : Prop := c = demo_credentials.
Definition empty_world : UploadWorld := {| uw_dir := ∅; uw_credentials := None; uw_sent := [] |}.
Definition applied : UploadWorld := (run demo_input 0 (apply_with (Some (Bool true)) false) empty_world).1.2.
Definition after_pass : UploadWorld := (run demo_input 0 uploader applied).1.2.

Lemma empty_inv : upload_inv handed_demo trusted_demo empty_world.
Proof.
  split_and!; [intros id c H|intros id s index H|intros c H|done].
  - exfalso. revert H. cbn [uw_dir empty_world]. by rewrite lookup_empty.
  - exfalso. revert H. unfold read_state, read, read_bytes, record_path.
    destruct (valid_name _); [|done]. simpl. by rewrite lookup_empty.
  - done.
Qed.

Lemma demo_run : ∃ ts, rtc (pstep (upload_entry handed_demo trusted_demo)) ([], empty_world) (ts, after_pass).
Proof.
  destruct (run_arrived (upload_entry handed_demo trusted_demo) [] (apply_with (Some (Bool true)) false)
    demo_input 0 empty_world) as [ts1 H1].
  { constructor. intros value m _ [= <-]. split; [by repeat constructor|done]. }
  destruct (run_arrived (upload_entry handed_demo trusted_demo) ts1 uploader demo_input 0 applied) as [ts2 H2];
    [constructor|]. exists ts2. by etrans.
Qed.

Lemma only_granted_items_are_sent_witness :
  length (uw_sent after_pass) = 4%nat ∧ trace_ok handed_demo trusted_demo (uw_sent after_pass).
Proof.
  split; [vm_compute; reflexivity|]. destruct demo_run as [ts Hts].
  exact (only_granted_items_are_sent handed_demo trusted_demo empty_world ts after_pass empty_inv Hts).
Defined.

Definition final_grants : list HeldGrant := held_grants (uw_dir after_pass).

Lemma recorded_uploads_happened_witness :
  ∃ h, h ∈ final_grants ∧ gs_state (hg_state h) = "uploaded" ∧
    recorded handed_demo trusted_demo (uw_sent after_pass) (hg_id h) 0.
Proof.
  assert (gs_state ∘ hg_state <$> final_grants = ["uploaded"]) as Hs by (vm_compute; reflexivity).
  assert ((λ h, bool_decide (0 ∈ gs_uploaded (hg_state h))) <$> final_grants = [true]) as Hu
    by (vm_compute; reflexivity).
  destruct demo_run as [ts Hts].
  pose proof (λ h, recorded_uploads_happened handed_demo trusted_demo empty_world ts after_pass h 0 empty_inv Hts) as H.
  fold final_grants in H. destruct final_grants as [|h l]; [discriminate Hs|].
  injection Hs as Hs _. injection Hu as Hu _. exists h. split; [left|]. split; [exact Hs|].
  apply H; [left|]. by apply bool_decide_eq_true in Hu.
Defined.

Lemma upload_report_adds_up_witness :
  ∃ r, r ∈ report (uw_dir after_pass) ∧ ur_paths_uploaded r = 1%nat ∧ (ur_paths_uploaded r ≤ ur_paths_total r)%nat.
Proof.
  assert (ur_paths_uploaded <$> report (uw_dir after_pass) = [1%nat]) as Hr by (vm_compute; reflexivity).
  pose proof (upload_report_adds_up (uw_dir after_pass)) as H.
  destruct (report (uw_dir after_pass)) as [|r l]; [discriminate Hr|]. injection Hr as Hr _.
  exists r. split; [left|]. split; [exact Hr|]. apply (H r). left.
Defined.

(** The document of the grant is lost: the grant is neither held nor reported,
    although its state is there and says what was uploaded. *)
Lemma damaged_grant_is_dropped :
  let d := delete (grant_file (srepeat 32 "0")) (uw_dir after_pass) in
  bool_decide (is_Some (read_state d (srepeat 32 "0"))) = true ∧ report d = [].
Proof. vm_compute. done. Qed.
