(* ===== verification/Schedule.v ===== *)
(** * Signed maintenance schedules

    [src/appliance/schedule.rs].  The agent puts the schedule it receives from
    Tiaris into an inbox it owns; root verifies what is there and installs it as
    the control file.  The inbox is untrusted: only the checks made by root
    count.  Signatures, time parsing, the zone database and version numbers are
    arguments. *)

From stdpp Require Import base list strings relations.
From Stdlib Require Import Ascii ZArith Lia.
From S2P Require Import Prelude RustStr.

#[local] Open Scope Z_scope.
#[local] Open Scope nest_scope.

(** A JSON file: absent, there but refused when read (a link, too large, not a
    record), or a record. *)
Inductive Stored (A : Type) := Missing | Damaged | Holding (a : A).
Arguments Missing {A}.
Arguments Damaged {A}.
Arguments Holding {A} a.

(** UUIDs are numbers; the nil UUID is 0. *)
Definition is_nil (uuid : Z) : bool := uuid =? 0.

Record Schedule := {
  sch_timezone : string;
  sch_weekdays : list Z;
  sch_start : string;
  sch_duration_minutes : Z;
}.
#[global] Instance Schedule_eq_dec : EqDecision Schedule.
Proof. solve_decision. Defined.

Record RunNow := {
  rn_attempt_id : Z;
  rn_release_id : string;
  rn_package_snapshot_sha256 : option string;
  rn_system_closure_sha256 : option string;
}.
#[global] Instance RunNow_eq_dec : EqDecision RunNow.
Proof. solve_decision. Defined.

Record SignedPolicy := {
  sp_schema : string;
  sp_device_id : string;
  sp_device_incarnation_id : Z;
  sp_provisioning_session_id : Z;
  sp_revision : Z;
  sp_schedule : Schedule;
  sp_run_now : option RunNow;
  sp_signature : string;
}.
#[global] Instance SignedPolicy_eq_dec : EqDecision SignedPolicy.
Proof. solve_decision. Defined.

(** What of [DurableProvisioningState] identifies the installation. *)
Record Installation := {
  in_reserved_device_id : string;
  in_session_id : Z;
  in_management_key : string;
}.

(** [NaiveTime::parse_from_str(_, "%H:%M")] as hour and minute. *)
Class Clock := { parse_time : string → option (Z * Z) }.

Fixpoint weekdays_increasing (l : list Z) : bool :=
  match l with
  | x :: (y :: _) as l' => (x <? y) && weekdays_increasing l'
  | _ => true
  end.

Section Nixos.
Context {clock : Clock} (zone_file : string → bool) (version_text : string → option string)
  (signed : SignedPolicy → string → bool).

Definition require_hex (value : string) (length : Z) : result string unit :=
  ensure ((len value =? length)
          && all_bytes (λ a, is_digit a || in_range 97 102 (byte a)) value)
    "noncanonical hexadecimal identity".

Definition verify_run_now (now : RunNow) : result string unit :=
  _ ≔ ensure (negb (is_nil (rn_attempt_id now))
              && bool_decide (rn_package_snapshot_sha256 now = None))
        "NixOS immediate update requires closure identity" ?;
  closure ≔ ok_or "immediate closure digest missing" (rn_system_closure_sha256 now) ?;
  _ ≔ require_hex closure 64 ?;
  version ≔ ok_or "invalid version" (version_text (rn_release_id now)) ?;
  ensure (bool_decide (version = rn_release_id now)) "immediate release ID".

Definition zone_name (timezone : string) : bool :=
  negb (is_empty timezone) && (len timezone <=? 128) && negb (starts_with "/" timezone)
  && negb (existsb (λ s, is_empty s || bool_decide (s = ".") || bool_decide (s = ".."))
             (split "/" timezone))
  && all_bytes (λ a, is_alnum a || byte_in "/_+-" a) timezone.

(** [SignedPolicy::verify]. *)
Definition verify (state : Installation) (p : SignedPolicy) : result string unit :=
  let schedule := sp_schedule p in
  _ ≔ ensure (bool_decide (sp_schema p = "tiaris.nest.update-schedule.v1")
              && bool_decide (sp_device_id p = in_reserved_device_id state)
              && (sp_provisioning_session_id p =? in_session_id state)
              && negb (is_nil (sp_device_incarnation_id p)) && (0 <? sp_revision p))
        "schedule identity mismatch" ?;
  _ ≔ ensure (negb (Nat.eqb (length (sch_weekdays schedule)) 0)
              && (Z.of_nat (length (sch_weekdays schedule)) <=? 7)
              && forallb (λ d, d <=? 6) (sch_weekdays schedule)
              && weekdays_increasing (sch_weekdays schedule)
              && in_range 15 1440 (sch_duration_minutes schedule))
        "invalid maintenance schedule" ?;
  _ ≔ ensure ((len (sch_start schedule) =? 5)
              && bool_decide (is_Some (parse_time (sch_start schedule))))
        "invalid maintenance time" ?;
  _ ≔ ensure (zone_name (sch_timezone schedule)) "invalid maintenance timezone" ?;
  _ ≔ ensure (zone_file (sch_timezone schedule)) "unknown maintenance timezone" ?;
  _ ≔ match sp_run_now p with Some now => verify_run_now now | None => Ok tt end ?;
  ensure (signed p (in_management_key state)) "invalid signature".

Record Files := { inbox : Stored SignedPolicy; control : Stored SignedPolicy }.

(** [store]: the agent delivers a policy; [write_ok] tells whether the file could
    be replaced. *)
Definition store (is_nixos : bool) (policy : option SignedPolicy) (supported write_ok : bool)
    (f : Files) : result string unit * Files :=
  if negb is_nixos then (Ok tt, f) else
  match policy with
  | None => (Ok tt, f)
  | Some policy =>
      if negb supported then (Err "server supplied unsupported schedule", f) else
      if write_ok then (Ok tt, {| inbox := Holding policy; control := control f |})
      else (Err "write", f)
  end.

Definition validate_transition (previous incoming : SignedPolicy) : result string unit :=
  _ ≔ ensure ((sp_device_incarnation_id incoming =? sp_device_incarnation_id previous)
              && (sp_revision previous <=? sp_revision incoming))
        "schedule incarnation changed or revision replayed" ?;
  ensure (negb (sp_revision incoming =? sp_revision previous)
          || bool_decide (incoming = previous))
    "same schedule revision has different signed bytes".

Definition read_policy (s : Stored SignedPolicy) : result string SignedPolicy :=
  match s with Holding p => Ok p | _ => Err "signed schedule" end.

(** [verify_stored], run as root. *)
Definition verify_stored (root : bool) (state : option Installation) (write_ok : bool) (f : Files)
    : result string unit * Files :=
  let checked :=
    _ ≔ ensure root "schedule verification requires root" ?;
    state ≔ ok_or "provisioning state" state ?;
    previous ≔ match control f with
               | Missing => Ok None
               | s => p ≔ read_policy s ?; _ ≔ verify state p ?; Ok (Some p)
               end ?;
    match inbox f, previous with
    | Missing, Some previous => _ ≔ verify state previous ?; Ok None
    | Missing, None => Err "no authenticated maintenance schedule received"
    | s, _ =>
        incoming ≔ read_policy s ?;
        _ ≔ verify state incoming ?;
        _ ≔ match previous with
            | Some previous => validate_transition previous incoming
            | None => Ok tt
            end ?;
        Ok (Some incoming)
    end in
  match checked with
  | Err e => (Err e, f)
  | Ok None => (Ok tt, f)
  | Ok (Some incoming) =>
      if write_ok then (Ok tt, {| inbox := inbox f; control := Holding incoming |})
      else (Err "write", f)
  end.

(** ** The appliance over time *)

(** The agent delivers, root verifies, and anything may happen to the inbox. *)
Inductive schedule_step (state : Installation) : Files → Files → Prop :=
| deliver is_nixos policy supported write_ok f :
    schedule_step state f (store is_nixos policy supported write_ok f).2
| tamper s f : schedule_step state f {| inbox := s; control := control f |}
| install root loaded write_ok f :
    (∀ st, loaded = Some st → st = state) →
    schedule_step state f (verify_stored root loaded write_ok f).2.

(** [next] may follow [previous] in the control file. *)
Definition advances (previous next : SignedPolicy) : Prop :=
  sp_device_incarnation_id next = sp_device_incarnation_id previous ∧
  sp_revision previous ≤ sp_revision next ∧
  (sp_revision next = sp_revision previous → next = previous).

Definition controls (f f' : Files) : Prop :=
  match control f, control f' with
  | Holding p, Holding p' => advances p p'
  | Missing, _ => True
  | s, s' => s = s'
  end.

#[local] Instance advances_preorder : PreOrder advances.
Proof.
  split; [done|]. intros x y z (H1 & H2 & H3) (H4 & H5 & H6). split_and!; [congruence|lia|].
  intros E. assert (y = x) as -> by (apply H3; lia). by apply H6.
Qed.

Lemma ensure_Ok {E} b (e : E) u : ensure b e = Ok u ↔ b = true.
Proof. unfold ensure. destruct b; [by destruct u|done]. Qed.

Lemma validate_transition_Ok previous incoming u :
  validate_transition previous incoming = Ok u → advances previous incoming.
Proof.
  unfold validate_transition. intros (? & [Hi%Z.eqb_eq Hr%Z.leb_le]%ensure_Ok%andb_true_iff & H)%rbind_Ok.
  apply ensure_Ok, orb_true_iff in H as [H%negb_true_iff%Z.eqb_neq|H%bool_decide_eq_true].
  - split_and!; [done|done|]. lia.
  - by split_and!.
Qed.

(** What root installs has been verified and follows what was installed. *)
Lemma verify_stored_spec root state loaded write_ok f :
  (∀ st, loaded = Some st → st = state) →
  let f' := (verify_stored root loaded write_ok f).2 in
  inbox f' = inbox f ∧ (control f' = control f ∨
    ∃ p, control f' = Holding p ∧ inbox f = Holding p ∧ verify state p = Ok tt ∧
         match control f with Missing => True | Holding q => advances q p | Damaged => False end).
Proof.
  intros Hst. cbv zeta. unfold verify_stored.
  match goal with |- context [match ?t with Err e => (Err e, f) | _ => _ end] => destruct t as [[p|]|e] eqn:E end;
    [|by split; [|left]|by split; [|left]].
  destruct write_ok; [|by split; [|left]]. split; [done|]. right. exists p. split; [done|].
  apply rbind_Ok in E as (? & _ & E). apply rbind_Ok in E as (st & Hst' & E).
  assert (st = state) as -> by (apply Hst; destruct loaded; simpl in Hst'; congruence).
  apply rbind_Ok in E as (previous & Hprev & E).
  assert (∀ q, inbox f = Holding q → verify state q = Ok tt → q = p →
    match previous with Some o => advances o p | None => True end →
    inbox f = Holding p ∧ verify state p = Ok tt ∧
    match control f with Missing => True | Holding q => advances q p | Damaged => False end) as Hfin.
  { intros q Hin Hv -> Hadv. split_and!; [done|done|]. destruct (control f) as [| |o]; [done|done|].
    simpl in Hprev. apply rbind_Ok in Hprev as (u & _ & [= <-]). done. }
  destruct (inbox f) as [| |q]; [destruct previous; [|done]|done|].
  { by apply rbind_Ok in E as (? & _ & ?). }
  simpl in E. apply rbind_Ok in E as ([] & Hv & E). apply rbind_Ok in E as (? & Ht & [= <-]).
  apply (Hfin q); [done..|]. destruct previous as [o|]; [|done]. by eapply validate_transition_Ok.
Qed.

Lemma schedule_step_controls state f f' :
  schedule_step state f f' → controls f f' ∧
  (control f' = control f ∨ ∃ p, control f' = Holding p ∧ verify state p = Ok tt).
Proof.
  intros [is_nixos policy supported write_ok f0|s f0|root loaded write_ok f0 Hst]; unfold controls.
  - assert (control (store is_nixos policy supported write_ok f0).2 = control f0) as ->
      by (unfold store; by repeat case_match).
    split; [|by left]. by destruct (control f0).
  - split; [|by left]. simpl. by destruct (control f0).
  - destruct (verify_stored_spec root state loaded write_ok f0 Hst) as [_ [->|(p & -> & _ & Hv & Hadv)]].
    + split; [|by left]. by destruct (control f0).
    + split; [|right; by exists p]. by destruct (control f0).
Qed.

Lemma schedule_steps_controls state f f' :
  rtc (schedule_step state) f f' → controls f f' ∧
  (control f' = control f ∨ ∃ p, control f' = Holding p ∧ verify state p = Ok tt).
Proof.
  induction 1 as [f|f1 f2 f3 Hs _ [IHc IHv]].
  - split; [|by left]. unfold controls. by destruct (control f).
  - destruct (schedule_step_controls _ _ _ Hs) as [Hc Hv]. split.
    + unfold controls in *. destruct (control f1) as [| |p1]; [done| |].
      * rewrite <- Hc in IHc. done.
      * destruct (control f2) as [| |p2]; [done|done|]. destruct (control f3) as [| |p3]; [done|done|].
        by transitivity p2.
    + destruct IHv as [->|?]; [done|by right].
Qed.

(** Nothing that happens to the inbox can roll a schedule back: however the
    agent delivers, whatever is put into the inbox, and whenever root installs,
    the control file only ever changes to a policy that verifies for this
    installation, of the same incarnation and with a revision no lower than the
    installed one; the same revision is the same policy. *)
Theorem installed_schedule_only_advances state f f' :
  rtc (schedule_step state) f f' →
  (control f' = control f ∨ ∃ p, control f' = Holding p ∧ verify state p = Ok tt) ∧
  ∀ p, control f = Holding p → ∃ p', control f' = Holding p' ∧
    sp_device_incarnation_id p' = sp_device_incarnation_id p ∧ sp_revision p ≤ sp_revision p' ∧
    (sp_revision p' = sp_revision p → p' = p).
Proof.
  intros Hsteps. apply schedule_steps_controls in Hsteps as [Hc Hv]. split; [done|].
  intros p Hp. unfold controls in Hc. rewrite Hp in Hc.
  destruct (control f') as [| |p'] eqn:E; [done|done|]. by exists p'.
Qed.
End Nixos.

(** ** An appliance with a schedule *)

Module ScheduleDemo.

#[local] Instance clock : Clock := {| parse_time s := if bool_decide (s = "02:00") then Some (2, 0) else None |}.

Definition site : Installation :=
  {| in_reserved_device_id := "dev"; in_session_id := 7; in_management_key := "key" |}.
Definition policy (revision : Z) : SignedPolicy := {|
  sp_schema := "tiaris.nest.update-schedule.v1"; sp_device_id := "dev";
  sp_device_incarnation_id := 9; sp_provisioning_session_id := 7; sp_revision := revision;
  sp_schedule := {| sch_timezone := "Europe/Amsterdam"; sch_weekdays := [0; 3]; sch_start := "02:00";
                    sch_duration_minutes := 60 |};
  sp_run_now := None; sp_signature := "s" |}.
Definition known (_ : string) : bool := true.
Definition version (v : string) : option string := Some v.
Definition genuine (p : SignedPolicy) (_ : string) : bool := bool_decide (sp_signature p = "s").

(** Revision 2 is installed; an old policy is put back into the inbox and root
    runs again. *)
Definition installed : Files := {| inbox := Holding (policy 2); control := Holding (policy 2) |}.
Definition replayed : Files := {| inbox := Holding (policy 1); control := Holding (policy 2) |}.
Definition rerun : Files := (verify_stored known version genuine true (Some site) true replayed).2.

Lemma installed_schedule_only_advances_witness :
  rtc (schedule_step known version genuine site) installed rerun ∧
  ∃ p, control rerun = Holding p ∧ 2 ≤ sp_revision p.
Proof.
  assert (rtc (schedule_step known version genuine site) installed rerun) as Hsteps.
  { eapply rtc_l; [apply (tamper known version genuine site (Holding (policy 1)))|]. apply rtc_once.
    apply (install known version genuine site true (Some site) true replayed).
    intros st Hst. injection Hst as <-. reflexivity. }
  split; [exact Hsteps|].
  destruct (proj2 (installed_schedule_only_advances known version genuine site installed rerun Hsteps)
    (policy 2) eq_refl) as (p & Hp & _ & Hr & _).
  exists p. split; [exact Hp|exact Hr].
Defined.
End ScheduleDemo.
