(* ===== verification/UpdateSchedule.v ===== *)
(** * Maintenance windows

    [src/appliance/update_schedule.rs]: when an update may be applied.  The
    policy is delivered through an inbox and applied by root as in [Schedule];
    [includes] decides whether a moment lies in the weekly window, [readiness]
    whether a stored update may go ahead. *)

From stdpp Require Import base list strings relations.
From Stdlib Require Import Ascii ZArith Lia.
From S2P Require Import Prelude RustStr Schedule.

#[local] Open Scope Z_scope.
#[local] Open Scope nest_scope.

Record ImmediateUpdate := {
  im_attempt_id : Z;
  im_release_id : string;
  im_package_snapshot_sha256 : string;
}.
#[global] Instance ImmediateUpdate_eq_dec : EqDecision ImmediateUpdate.
Proof. solve_decision. Defined.

Record UpdatePolicy := {
  up_schema : string;
  up_device_id : string;
  up_device_incarnation_id : Z;
  up_provisioning_session_id : Z;
  up_revision : Z;
  up_schedule : Schedule;
  up_run_now : option ImmediateUpdate;
  up_signature : string;
}.
#[global] Instance UpdatePolicy_eq_dec : EqDecision UpdatePolicy.
Proof. solve_decision. Defined.

(** The time zone database: [zone] parses a name, [local] gives weekday (from
    Sunday), hour and minute of a moment there. *)
Class Zones := {
  zone : Type;
  parse_zone : string → option zone;
  local : zone → Z → Z * Z * Z;
}.

Section UpdateSchedule.
Context {clock : Clock} {zones : Zones} (signed : UpdatePolicy → string → bool).

(** [Schedule::validate]. *)
Definition validate_schedule (s : Schedule) : result string unit :=
  _ ≔ ok_or "invalid maintenance timezone" (parse_zone (sch_timezone s)) ?;
  ensure (negb (Nat.eqb (length (sch_weekdays s)) 0
                || (7 <? Z.of_nat (length (sch_weekdays s)))
                || existsb (λ day, 6 <? day) (sch_weekdays s)
                || negb (weekdays_increasing (sch_weekdays s))
                || negb (in_range 15 1440 (sch_duration_minutes s))
                || negb (len (sch_start s) =? 5)
                || bool_decide (parse_time (sch_start s) = None)))
    "invalid maintenance schedule".

(** [Schedule::includes], in [u32] arithmetic: every term is below [2 * 10080]. *)
Definition includes (s : Schedule) (now : Z) : result string bool :=
  _ ≔ validate_schedule s ?;
  tz ≔ ok_or "timezone" (parse_zone (sch_timezone s)) ?;
  start ≔ ok_or "time" (parse_time (sch_start s)) ?;
  let '(weekday, hour, minute) := local tz now in
  let current := weekday * 1440 + hour * 60 + minute in
  Ok (existsb (λ day,
        let beginning := day * 1440 + start.1 * 60 + start.2 in
        (current + 10080 - beginning) mod 10080 <? sch_duration_minutes s) (sch_weekdays s)).

Definition immediate_matches (i : ImmediateUpdate) (attempt : Z) (release snapshot : string) : bool :=
  (im_attempt_id i =? attempt) && bool_decide (im_release_id i = release)
  && bool_decide (im_package_snapshot_sha256 i = snapshot).

Definition immediate_invalid (now : ImmediateUpdate) : bool :=
  is_nil (im_attempt_id now) || is_empty (im_release_id now)
  || negb (len (im_package_snapshot_sha256 now) =? 64)
  || negb (all_bytes is_hexdigit (im_package_snapshot_sha256 now)).

Definition validate_policy (p : UpdatePolicy) (i : Installation) : result string unit :=
  _ ≔ validate_schedule (up_schedule p) ?;
  _ ≔ ensure (negb (negb (bool_decide (up_schema p = "tiaris.nest.update-schedule.v1"))
                    || negb (bool_decide (up_device_id p = in_reserved_device_id i))
                    || negb (up_provisioning_session_id p =? in_session_id i)
                    || is_nil (up_device_incarnation_id p)
                    || (up_revision p <? 1)
                    || match up_run_now p with Some now => immediate_invalid now | None => false end))
        "maintenance policy does not match this appliance installation" ?;
  ensure (signed p (in_management_key i)) "invalid signature".

Definition validate_for_installation (state : option Installation) (p : UpdatePolicy)
    : result string unit :=
  i ≔ ok_or "provisioning state" state ?;
  validate_policy p i.

Definition check_revision (previous next : UpdatePolicy) : result string unit :=
  ensure (negb (negb (up_provisioning_session_id next =? up_provisioning_session_id previous)
                || negb (up_device_incarnation_id next =? up_device_incarnation_id previous)
                || (up_revision next <? up_revision previous)
                || ((up_revision next =? up_revision previous)
                    && negb (bool_decide (next = previous)))))
    "maintenance policy replay or conflicting revision".

(** The control file also carries its owner and mode: [uc_safe] when it is a
    plain file only root can write. *)
Record UpdateFiles := {
  u_inbox : Stored UpdatePolicy;
  u_control : Stored UpdatePolicy;
  u_safe : bool;
}.

(** [store], by the unprivileged agent. *)
Definition store_update_policy (state : option Installation) (policy : option UpdatePolicy)
    (write_ok : bool) (f : UpdateFiles) : result string unit * UpdateFiles :=
  match policy with
  | None => (Ok tt, f)
  | Some policy =>
      match (_ ≔ validate_for_installation state policy ?;
             match u_inbox f with
             | Holding previous =>
                 _ ≔ check_revision previous policy ?;
                 Ok (bool_decide (previous = policy))
             | _ => Ok false
             end) with
      | Err e => (Err e, f)
      | Ok true => (Ok tt, f)
      | Ok false =>
          if write_ok
          then (Ok tt, {| u_inbox := Holding policy; u_control := u_control f; u_safe := u_safe f |})
          else (Err "write", f)
      end
  end.

Definition read_control (state : option Installation) (f : UpdateFiles)
    : result string (option UpdatePolicy) :=
  match u_control f with
  | Missing => Ok None
  | s =>
      if negb (u_safe f) then Err "unsafe root maintenance policy" else
      match s with
      | Holding p => _ ≔ validate_for_installation state p ?; Ok (Some p)
      | _ => Err "appliance state file"
      end
  end.

(** [apply], by root under the lock: [locked] when the lock was taken. *)
Definition apply_policy (state : option Installation) (locked write_ok : bool) (f : UpdateFiles)
    : result string unit * UpdateFiles :=
  let checked :=
    _ ≔ ensure locked "unsafe maintenance policy lock" ?;
    match u_inbox f with
    | Missing => Ok None
    | Damaged => Err "appliance state file"
    | Holding policy =>
        _ ≔ validate_for_installation state policy ?;
        previous ≔ read_control state f ?;
        match previous with
        | Some previous =>
            _ ≔ check_revision previous policy ?;
            Ok (if bool_decide (previous = policy) then None else Some policy)
        | None => Ok (Some policy)
        end
    end in
  match checked with
  | Err e => (Err e, f)
  | Ok None => (Ok tt, f)
  | Ok (Some policy) =>
      if write_ok
      then (Ok tt, {| u_inbox := u_inbox f; u_control := Holding policy; u_safe := true |})
      else (Err "write", f)
  end.

(** What of [StoredApplianceUpdate] the decision reads. *)
Record UpdateRequest := { ur_attempt_id : Z; ur_release_id : string; ur_snapshot_sha256 : string }.

Definition readiness (state : option Installation) (request : Stored UpdateRequest) (now : Z)
    (f : UpdateFiles) : result string string :=
  control ≔ read_control state f ?;
  match control with
  | None => Ok "legacy"
  | Some policy =>
      request ≔ match request with Holding r => Ok r | _ => Err "appliance state file" end ?;
      let immediate :=
        match up_run_now policy with
        | Some allow => immediate_matches allow (ur_attempt_id request) (ur_release_id request)
                          (ur_snapshot_sha256 request)
        | None => false
        end in
      if immediate then Ok "ready" else
      inside ≔ includes (up_schedule policy) now ?;
      Ok (if inside : bool then "ready" else "waiting")
  end.

Definition timezone (state : option Installation) (f : UpdateFiles) : option zone :=
  match read_control state f with
  | Ok (Some policy) => parse_zone (sch_timezone (up_schedule policy))
  | _ => None
  end.

(** ** The window *)

(** The clocks answer times of a day and moments of a week. *)
Class ClockLaws : Prop := {
  parse_time_range : ∀ s h m, parse_time s = Some (h, m) → 0 ≤ h < 24 ∧ 0 ≤ m < 60;
  local_range : ∀ tz now, let '(w, h, m) := local tz now in 0 ≤ w < 7 ∧ 0 ≤ h < 24 ∧ 0 ≤ m < 60;
}.

(** The minutes of the week, counted from Sunday 00:00, that a schedule covers:
    [duration] of them from its start on each of its days, around the week. *)
Definition covers (s : Schedule) (start : Z * Z) (minute : Z) : Prop :=
  ∃ day k, day ∈ sch_weekdays s ∧ 0 ≤ k < sch_duration_minutes s ∧
    minute = (day * 1440 + start.1 * 60 + start.2 + k) mod 10080.

Lemma window_arith current beginning duration :
  0 ≤ current < 10080 → 0 ≤ beginning < 10080 → duration ≤ 10080 →
  (current + 10080 - beginning) mod 10080 < duration ↔
  ∃ k, 0 ≤ k < duration ∧ current = (beginning + k) mod 10080.
Proof.
  intros Hc Hb Hd. split.
  - intros H. exists ((current + 10080 - beginning) mod 10080).
    pose proof (Z.mod_pos_bound (current + 10080 - beginning) 10080). split; [lia|].
    rewrite Zplus_mod_idemp_r. replace (beginning + (current + 10080 - beginning)) with (current + 1 * 10080) by lia.
    rewrite Z_mod_plus_full, Z.mod_small; lia.
  - intros (k & Hk & ->). pose proof (Z.mod_pos_bound (beginning + k) 10080) as Hm.
    replace ((beginning + k) mod 10080 + 10080 - beginning)
      with ((beginning + k) mod 10080 + (10080 - beginning)) by lia.
    rewrite Zplus_mod_idemp_l. replace (beginning + k + (10080 - beginning)) with (k + 1 * 10080) by lia.
    rewrite Z_mod_plus_full, Z.mod_small; lia.
Qed.

Lemma validate_schedule_Ok s :
  validate_schedule s = Ok tt →
  ∃ tz start, parse_zone (sch_timezone s) = Some tz ∧ parse_time (sch_start s) = Some start ∧
    15 ≤ sch_duration_minutes s ≤ 1440 ∧ Forall (λ day, day ≤ 6) (sch_weekdays s).
Proof.
  unfold validate_schedule. intros (tz & Htz & H)%rbind_Ok. apply ensure_Ok, negb_true_iff in H.
  repeat match goal with H : _ || _ = false |- _ => apply orb_false_iff in H as [H ?] end.
  destruct (parse_zone _) as [tz'|]; [|done].
  destruct (parse_time (sch_start s)) as [start|]; [|by rewrite bool_decide_true in *].
  exists tz', start. split; [done|]. split; [done|]. split.
  - match goal with H : negb (in_range _ _ _) = false |- _ => apply negb_false_iff, in_range_true in H end. lia.
  - apply Forall_forall. intros day Hin.
    match goal with H : existsb _ _ = false |- _ => rewrite <- not_true_iff_false, existsb_exists in H; rename H into Hno end.
    apply Z.nlt_ge. intros Hlt. apply Hno. exists day. split; [by apply list_elem_of_In|lia].
Qed.

(** The window of a schedule is what it says: a valid schedule admits a
    moment exactly when the local minute of the week is one of those it covers,
    [duration] minutes from its start on each of its days, running past midnight
    and past the end of the week. *)
Theorem window_is_weekly `{!ClockLaws} s now :
  validate_schedule s = Ok tt → Forall (λ day, 0 ≤ day) (sch_weekdays s) →
  ∃ tz start b, parse_zone (sch_timezone s) = Some tz ∧ parse_time (sch_start s) = Some start ∧
    includes s now = Ok b ∧
    let '(weekday, hour, minute) := local tz now in
    (b = true ↔ covers s start (weekday * 1440 + hour * 60 + minute)).
Proof.
  intros Hv Hday. destruct (validate_schedule_Ok s Hv) as (tz & [h m] & Htz & Htm & Hdur & Hdays).
  unfold includes. rewrite Hv. simpl. rewrite Htz, Htm. simpl.
  pose proof (local_range tz now) as Hl. destruct (local tz now) as [[w lh] lm] eqn:E. destruct Hl as (? & ? & ?).
  exists tz, (h, m). eexists. split; [done|]. split; [done|]. split; [reflexivity|].
  apply parse_time_range in Htm as [? ?].
  rewrite E, existsb_exists. unfold covers. simpl. split.
  - intros (day & Hin%list_elem_of_In & Hlt%Z.ltb_lt).
    pose proof (proj1 (Forall_forall _ _) Hday day Hin). pose proof (proj1 (Forall_forall _ _) Hdays day Hin).
    simpl in *. apply window_arith in Hlt as (k & Hk & ->); [by exists day, k|lia..].
  - intros (day & k & Hin & Hk & Heq). exists day. split; [by apply list_elem_of_In|]. apply Z.ltb_lt.
    pose proof (proj1 (Forall_forall _ _) Hday day Hin). pose proof (proj1 (Forall_forall _ _) Hdays day Hin).
    simpl in *. apply window_arith; [lia..|]. by exists k.
Qed.

(** An update goes ahead exactly when the applied policy names it or the window
    is open; without an applied policy the caller is told so. *)
Theorem readiness_is_the_policy state request now f p :
  read_control state f = Ok (Some p) →
  let named := match up_run_now p with
               | Some allow => im_attempt_id allow = ur_attempt_id request ∧
                   im_release_id allow = ur_release_id request ∧
                   im_package_snapshot_sha256 allow = ur_snapshot_sha256 request
               | None => False end in
  readiness state (Holding request) now f = Ok "ready" ↔ named ∨ includes (up_schedule p) now = Ok true.
Proof.
  intros Hc. cbv zeta. unfold readiness. rewrite Hc. simpl.
  assert (∀ allow, immediate_matches allow (ur_attempt_id request) (ur_release_id request) (ur_snapshot_sha256 request) = true
    ↔ im_attempt_id allow = ur_attempt_id request ∧ im_release_id allow = ur_release_id request ∧
      im_package_snapshot_sha256 allow = ur_snapshot_sha256 request) as Hm.
  { intros allow. unfold immediate_matches. rewrite !andb_true_iff, Z.eqb_eq, !bool_decide_eq_true. tauto. }
  destruct (up_run_now p) as [allow|].
  - rewrite <- Hm. destruct (immediate_matches _ _ _ _); [by split; [left|]|].
    destruct (includes _ _) as [[]|]; simpl; split; try done; try (by right); by intros [?|?].
  - destruct (includes _ _) as [[]|]; simpl; split; try done; try (by right); by intros [?|?].
Qed.

(** ** Application *)

Definition follows (previous next : UpdatePolicy) : Prop :=
  up_provisioning_session_id next = up_provisioning_session_id previous ∧
  up_device_incarnation_id next = up_device_incarnation_id previous ∧
  up_revision previous ≤ up_revision next ∧ (up_revision next = up_revision previous → next = previous).

Lemma check_revision_Ok previous next u : check_revision previous next = Ok u → follows previous next.
Proof.
  unfold check_revision. intros H%ensure_Ok%negb_true_iff. rewrite !orb_false_iff in H.
  destruct H as [[[H1%negb_false_iff%Z.eqb_eq H2%negb_false_iff%Z.eqb_eq] H3%Z.ltb_ge] H4].
  split_and!; [done|done|done|]. intros E. rewrite (proj2 (Z.eqb_eq _ _) E) in H4.
  by apply negb_false_iff, bool_decide_eq_true in H4.
Qed.

(** Root applies only policies that are valid for this installation and follow
    the applied one, whatever the inbox holds. *)
Theorem applied_policy_follows state locked write_ok f :
  let f' := (apply_policy state locked write_ok f).2 in
  u_inbox f' = u_inbox f ∧
  (f' = f ∨ ∃ p, u_control f' = Holding p ∧ u_safe f' = true ∧ u_inbox f = Holding p ∧
     validate_for_installation state p = Ok tt ∧
     match u_control f with Missing => True | Holding q => follows q p | Damaged => False end).
Proof.
  cbv zeta. unfold apply_policy.
  match goal with |- context [match ?t with Err e => (Err e, f) | _ => _ end] => destruct t as [[p|]|e] eqn:E end;
    [|by split; [|left]|by split; [|left]].
  destruct write_ok; [|by split; [|left]]. split; [done|]. right. exists p.
  apply rbind_Ok in E as (? & _ & E). destruct (u_inbox f) as [| |q]; [done|done|].
  apply rbind_Ok in E as ([] & Hv & E). apply rbind_Ok in E as (previous & Hprev & E).
  unfold read_control in Hprev. destruct (u_control f) as [| |o].
  - injection Hprev as <-. injection E as <-. by split_and!.
  - by destruct (negb (u_safe f)).
  - destruct (negb (u_safe f)); [done|]. apply rbind_Ok in Hprev as (? & _ & [= <-]).
    apply rbind_Ok in E as (? & Ht & E). case_bool_decide; [done|]. injection E as <-.
    split_and!; [done..|]. by eapply check_revision_Ok.
Qed.
End UpdateSchedule.

(** ** A nightly window *)

Module WindowDemo.

#[local] Instance clock : Clock := {| parse_time s := if bool_decide (s = "23:30") then Some (23, 30) else None |}.
#[local] Instance zones : Zones := {|
  zone := unit; parse_zone _ := Some tt;
  local _ now := ((now / 1440) mod 7, (now / 60) mod 24, now mod 60) |}.

Lemma demo_clock_laws : ClockLaws.
Proof.
  split.
  - intros s h m. simpl. case_bool_decide; [|done]. intros [= <- <-]. lia.
  - intros tz now. simpl. pose proof (Z.mod_pos_bound (now / 1440) 7).
    pose proof (Z.mod_pos_bound (now / 60) 24). pose proof (Z.mod_pos_bound now 60). lia.
Qed.

(** Saturday night, running into Sunday. *)
Definition saturday : Schedule := {|
  sch_timezone := "Europe/Amsterdam"; sch_weekdays := [6]; sch_start := "23:30";
  sch_duration_minutes := 120 |}.

Lemma window_is_weekly_witness :
  validate_schedule saturday = Ok tt ∧ includes saturday 45 = Ok true ∧ covers saturday (23, 30) 45.
Proof.
  assert (validate_schedule saturday = Ok tt) as Hv by (vm_compute; reflexivity).
  split; [exact Hv|]. split; [vm_compute; reflexivity|].
  assert (Forall (λ day, 0 ≤ day) (sch_weekdays saturday)) as Hdays
    by (constructor; [lia|constructor]).
  destruct (@window_is_weekly clock zones demo_clock_laws saturday 45 Hv Hdays)
    as (tz & start & b & _ & Hs & Hi & Hb).
  change (Some (23, 30) = Some start) in Hs. injection Hs as <-.
  assert (b = true) as -> by (vm_compute in Hi; congruence).
  exact (proj1 Hb eq_refl).
Defined.
End WindowDemo.
