(* ===== verification/WakeOnLan.v ===== *)
(** * Wake-on-LAN

    [src/wake_on_lan.rs]: Tiaris asks for machines to be woken; each request is
    broadcast once, its outcome kept as a receipt until Tiaris acknowledges it.
    The network and the database may refuse at any point. *)

From stdpp Require Import sorting base gmap list strings.
From Stdlib Require Import Ascii ZArith Lia.
From S2P Require Import Prelude RustStr DbText Boot BootProofs.

#[local] Open Scope Z_scope.

Definition MAX_REQUESTS : nat := 100.
Definition MAX_REPORTS : nat := 500.
Definition MAGIC_PACKET_PORTS : list Z := [9; 7].

Record ManagedWakeRequest := { wr_request_id : string; wr_mac : string }.

(** A row of [wake_on_lan_receipts]; its key is the request. *)
Record Receipt := {
  rc_mac : string;
  rc_state : string;
  rc_error_code : string;
  rc_created_at : string;
  rc_updated_at : string;
}.

(** The receipts and every datagram that was sent, with its port. *)
Record WakeWorld := {
  receipts : gmap string Receipt;
  datagrams : list (list Z * Z);
}.

(** ** The packet *)

Definition hex_value (a : ascii) : option Z :=
  if is_digit a then Some (byte a - 48)
  else if in_range 97 102 (byte a) then Some (byte a - 87)
  else if in_range 65 70 (byte a) then Some (byte a - 55)
  else None.

(** [u8::from_str_radix(_, 16)]: an optional sign and at least one digit. *)
Fixpoint hex_digits (acc : Z) (l : list ascii) : option Z :=
  match l with
  | [] => Some acc
  | a :: l =>
      d ← hex_value a;
      let acc := acc * 16 + d in
      if 255 <? acc then None else hex_digits acc l
  end.
Definition u8_from_hex (value : string) : option Z :=
  match bytes value with
  | [] => None
  | a :: l => if Ascii.eqb a "+" then match l with [] => None | _ => hex_digits 0 l end
              else hex_digits 0 (a :: l)
  end.

(** [collect::<Option<Vec<_>>>]. *)
Fixpoint all_some {A} (l : list (option A)) : option (list A) :=
  match l with
  | [] => Some []
  | o :: l => x ← o; rest ← all_some l; Some (x :: rest)
  end.

Definition magic_packet (mac : string) : option (list Z) :=
  match normalize_mac mac with
  | Err _ => None
  | Ok normalized =>
      octets ← all_some (u8_from_hex <$> split ":" normalized);
      if negb (Nat.eqb (length octets) 6) then None
      else Some (replicate 6 255 ++ concat (replicate 16 octets))
  end.

(** ** Sending *)

(** What one request meets: the socket, each of its datagrams, the two
    statements and the clock. *)
Record WakeInput := {
  wi_socket : bool;
  wi_send : nat → bool;
  wi_read : bool;
  wi_write : bool;
  wi_now : string;
}.

(** Datagrams until the first that fails. *)
Fixpoint send_all (send : nat → bool) (n : nat) (packet : list Z) (ports : list Z)
    : bool * list (list Z * Z) :=
  match ports with
  | [] => (true, [])
  | port :: ports =>
      if send n then let '(ok, out) := send_all send (S n) packet ports in (ok, (packet, port) :: out)
      else (false, [])
  end.

Definition send_magic_packet (i : WakeInput) (mac : string) : bool * list (list Z * Z) :=
  match magic_packet mac with
  | None => (false, [])
  | Some packet =>
      if wi_socket i
      then send_all (wi_send i) 0 packet (concat (replicate 3 MAGIC_PACKET_PORTS))
      else (false, [])
  end.

Definition receipt_of (i : WakeInput) (mac : string) : Receipt * list (list Z * Z) :=
  let row m s e := {| rc_mac := m; rc_state := s; rc_error_code := e;
                      rc_created_at := wi_now i; rc_updated_at := wi_now i |} in
  match normalize_mac mac with
  | Ok m =>
      let '(ok, out) := send_magic_packet i m in
      (if ok then row m "sent" "" else row m "failed" "broadcast_unavailable", out)
  | Err _ => (row (to_ascii_lowercase (trim mac)) "failed" "invalid_mac", [])
  end.

(** [trim], and between 1 and 64 bytes. *)
Definition usable_id (id : string) : bool := negb (is_empty id || (64 <? len id)).

(** The loop of [apply_requests]; [ON CONFLICT DO NOTHING] cannot apply after the
    test, as requests are applied one at a time. *)
Fixpoint apply_loop (requests : list ManagedWakeRequest) (inputs : nat → WakeInput) (n : nat)
    (w : WakeWorld) : AppResult unit * WakeWorld :=
  match requests with
  | [] => (Ok tt, w)
  | request :: requests =>
      let id := trim (wr_request_id request) in
      let i := inputs n in
      if negb (usable_id id) then apply_loop requests inputs (S n) w else
      if negb (wi_read i) then (Err Sqlx, w) else
      if bool_decide (is_Some (receipts w !! id)) then apply_loop requests inputs (S n) w else
      let '(row, out) := receipt_of i (wr_mac request) in
      let sent := {| receipts := receipts w; datagrams := datagrams w ++ out |} in
      if negb (wi_write i) then (Err Sqlx, sent) else
      apply_loop requests inputs (S n)
        {| receipts := <[id := row]> (receipts w); datagrams := datagrams sent |}
  end.

Definition apply_requests (requests : list ManagedWakeRequest) (inputs : nat → WakeInput)
    (w : WakeWorld) : AppResult unit * WakeWorld :=
  apply_loop (take MAX_REQUESTS requests) inputs 0 w.

(** ** Reporting *)

(** [ORDER BY updated_at, request_id]. *)
Definition receipt_le (x y : string * Receipt) : Prop :=
  String.le (rc_updated_at x.2) (rc_updated_at y.2) ∧
  (rc_updated_at x.2 = rc_updated_at y.2 → String.le x.1 y.1).
#[global] Instance receipt_le_dec : RelDecision receipt_le.
Proof. unfold receipt_le. intros x y. apply _. Defined.

Definition wake_report (w : WakeWorld) : list (string * string * string * string) :=
  (λ x, (x.1, rc_mac x.2, rc_state x.2, rc_error_code x.2)) <$>
    take MAX_REPORTS (merge_sort receipt_le (map_to_list (receipts w))).

Definition acknowledge (request_ids : list string) (w : WakeWorld) : WakeWorld :=
  {| receipts := foldl (λ m id, delete id m) (receipts w) (take MAX_REPORTS request_ids);
     datagrams := datagrams w |}.

(** ** What is proved *)

(** How an octet is written in a canonical address. *)
Definition hex_char (v : Z) : ascii := char_of (if v <? 10 then v + 48 else v + 87).
Definition hex_octet (o : Z) : string := String (hex_char (o / 16)) (String (hex_char (o mod 16)) "").

Lemma hex_value_lower a :
  is_lower_hex a = true →
  Ascii.eqb a "+" = false ∧ ∃ v, hex_value a = Some v ∧ 0 ≤ v < 16 ∧ hex_char v = a.
Proof.
  destruct a as [[] [] [] [] [] [] [] []]; vm_compute; try discriminate; intros _;
    (split; [reflexivity|eexists; split; [reflexivity|split; [split; [discriminate|reflexivity]|reflexivity]]]).
Qed.

Lemma u8_from_hex_pair a b :
  is_lower_hex a = true → is_lower_hex b = true →
  ∃ o, u8_from_hex (String a (String b "")) = Some o ∧ 0 ≤ o < 256 ∧
       hex_octet o = String a (String b "").
Proof.
  intros Ha Hb. apply hex_value_lower in Ha as (Hplus & x & Hx & Hx16 & Hcx).
  apply hex_value_lower in Hb as (_ & y & Hy & Hy16 & Hcy).
  unfold u8_from_hex. cbn [bytes]. rewrite Hplus. cbn [hex_digits]. rewrite Hx. cbn.
  rewrite Hy. cbn. rewrite (proj2 (Z.ltb_ge 255 _)) by lia. rewrite (proj2 (Z.ltb_ge 255 _)) by lia.
  exists (x * 16 + y). split; [done|]. split; [lia|]. unfold hex_octet.
  assert ((x * 16 + y) / 16 = x) as -> by (rewrite Z.div_add_l, Z.div_small; lia).
  assert ((x * 16 + y) mod 16 = y) as -> by (rewrite Z.add_comm, Z_mod_plus_full, Z.mod_small; lia).
  by rewrite Hcx, Hcy.
Qed.

Lemma octets_of_pairs l :
  Forall (λ a, is_lower_hex a = true) l → Nat.even (length l) = true →
  ∃ os, all_some (u8_from_hex <$> pairs l) = Some os ∧ Forall (λ o, 0 ≤ o < 256) os ∧
        hex_octet <$> os = pairs l ∧ (2 * length os = length l)%nat.
Proof.
  revert l. fix IH 1. intros [|a [|b l]] Hl Heven; [by exists []|done|].
  apply Forall_cons in Hl as [Ha Hl]. apply Forall_cons in Hl as [Hb Hl].
  destruct (IH l Hl Heven) as (os & Hos & Hr & Ho & Hlen).
  destruct (u8_from_hex_pair a b Ha Hb) as (o & Hu & Hur & Huo).
  exists (o :: os). cbn [pairs]. rewrite fmap_cons. cbn [all_some]. rewrite Hu. simpl. rewrite Hos. simpl.
  split_and!; [done|by constructor|by rewrite Huo; f_equal|lia].
Qed.

(** The packet for an address is the one the hardware expects: six bytes 255 and
    then the address sixteen times, where the address is the one whose canonical
    text was asked for; there is a packet exactly for the addresses that can be
    normalized. *)
Theorem magic_packet_wakes_the_address mac :
  match normalize_mac mac with
  | Ok m => ∃ octets, magic_packet mac = Some (replicate 6 255 ++ concat (replicate 16 octets)) ∧
              length octets = 6%nat ∧ Forall (λ o, 0 ≤ o < 256) octets ∧
              m = join ":" (hex_octet <$> octets)
  | Err _ => magic_packet mac = None
  end.
Proof.
  pose proof (normalize_mac_spec mac) as Hspec. unfold magic_packet.
  destruct (normalize_mac mac) as [m|e]; [|done]. destruct Hspec as [(l & Hlen & Hhex & ->) _].
  destruct (octets_of_pairs l Hhex) as (os & Hos & Hr & Ho & Hlo); [by rewrite Hlen|].
  assert (split ":" (join ":" (pairs l)) = pairs l) as ->.
  { apply split_join; [by destruct l as [|a [|b l]]|].
    apply pairs_bytes. apply (Forall_impl _ _ _ Hhex). intros a Ha.
    destruct a as [[] [] [] [] [] [] [] []]; vm_compute in Ha |- *; congruence. }
  rewrite Hos. simpl. assert (length os = 6%nat) as Hn by lia. rewrite Hn. simpl.
  exists os. split_and!; [done|done|done|by rewrite Ho].
Qed.

Lemma send_all_length send packet ports n :
  (length (send_all send n packet ports).2 ≤ length ports)%nat.
Proof.
  revert n. induction ports as [|port ports IH]; intros n; cbn [send_all]; [done|].
  destruct (send n); [|simpl; lia]. specialize (IH (S n)).
  destruct (send_all send (S n) packet ports) as [ok out]. simpl in *. lia.
Qed.

(** Every usable request of the list has a receipt, receipts are never replaced,
    and each new one accounts for at most six datagrams. *)
Lemma apply_loop_spec requests inputs n w w' :
  apply_loop requests inputs n w = (Ok tt, w') →
  receipts w ⊆ receipts w' ∧
  (∀ r, r ∈ requests → usable_id (trim (wr_request_id r)) = true →
     is_Some (receipts w' !! trim (wr_request_id r))) ∧
  ∃ out, datagrams w' = datagrams w ++ out ∧
    (length out + 6 * size (receipts w) ≤ 6 * size (receipts w'))%nat.
Proof.
  revert n w. induction requests as [|r requests IH]; intros n w; cbn [apply_loop].
  { intros [= <-]. split_and!; [done|by intros ? ?%not_elem_of_nil|]. exists []. by rewrite app_nil_r. }
  destruct (usable_id (trim (wr_request_id r))) eqn:Hu; simpl.
  2:{ intros H. destruct (IH _ _ H) as (H1 & H2 & H3). split_and!; [done| |done].
      intros q [->|Hq]%elem_of_cons; [congruence|by apply H2]. }
  destruct (wi_read (inputs n)); simpl; [|done].
  case_bool_decide as Hex.
  { intros H. destruct (IH _ _ H) as (H1 & H2 & H3). split_and!; [done| |done].
    intros q [->|Hq]%elem_of_cons; [|by apply H2]. intros _. destruct Hex as [x Hx].
    exists x. by eapply lookup_weaken. }
  apply eq_None_not_Some in Hex.
  destruct (receipt_of _ _) as [row out0] eqn:Hrow. destruct (wi_write (inputs n)); simpl; [|done].
  intros H. destruct (IH _ _ H) as (H1 & H2 & out & Hd & Hlen). simpl in *. split_and!.
  - etrans; [|exact H1]. by apply insert_subseteq.
  - intros q [->|Hq]%elem_of_cons; [|by apply H2]. intros _. exists row.
    eapply lookup_weaken; [|exact H1]. apply lookup_insert_eq.
  - exists (out0 ++ out). rewrite app_assoc. split; [done|]. rewrite map_size_insert_None in Hlen by done.
    rewrite length_app.
    assert (length out0 ≤ 6)%nat; [|lia]. unfold receipt_of in Hrow.
    destruct (normalize_mac _); [|by simplify_eq/=; lia].
    destruct (send_magic_packet _ _) as [ok sent] eqn:Hsend. injection Hrow as _ <-.
    unfold send_magic_packet in Hsend. destruct (magic_packet _); [|by simplify_eq/=; lia].
    destruct (wi_socket _); [|by simplify_eq/=; lia].
    pose proof (send_all_length (wi_send (inputs n)) l (concat (replicate 3 MAGIC_PACKET_PORTS)) 0) as Hall.
    rewrite Hsend in Hall. exact Hall.
Qed.

(** A request is broadcast once: when a list of requests has been applied, every
    usable request of it has a receipt, and applying it again sends nothing and
    changes nothing, however the network now answers. *)
Theorem wake_requests_are_sent_once requests inputs inputs' w w' w'' :
  apply_requests requests inputs w = (Ok tt, w') → apply_requests requests inputs' w' = (Ok tt, w'') →
  receipts w ⊆ receipts w' ∧
  (∀ r, r ∈ take MAX_REQUESTS requests → usable_id (trim (wr_request_id r)) = true →
     is_Some (receipts w' !! trim (wr_request_id r))) ∧ w'' = w'.
Proof.
  unfold apply_requests. intros H%apply_loop_spec H'. destruct H as (Hsub & Hall & _).
  split_and!; [done|done|]. revert Hall H'. generalize (take MAX_REQUESTS requests) as l, 0%nat as n.
  induction l as [|r l IH]; intros n Hall; cbn [apply_loop]; [by intros [= <-]|].
  destruct (usable_id (trim (wr_request_id r))) eqn:Hu; simpl; [|apply IH; intros; apply Hall; [by right|done]].
  destruct (wi_read (inputs' n)); simpl; [|done].
  rewrite bool_decide_true by (apply Hall; [left|done]). apply IH. intros; apply Hall; [by right|done].
Qed.

(** An acknowledged request is reported no more; the other receipts stay. *)
Theorem acknowledged_receipts_go ids w id :
  (length ids ≤ MAX_REPORTS)%nat →
  receipts (acknowledge ids w) !! id = if bool_decide (id ∈ ids) then None else receipts w !! id.
Proof.
  intros Hlen. unfold acknowledge. simpl. rewrite take_ge by done. clear Hlen.
  generalize (receipts w) as m. induction ids as [|i ids IH]; intros m; cbn [foldl].
  { rewrite bool_decide_false; [done|apply not_elem_of_nil]. }
  rewrite IH. destruct (decide (id = i)) as [->|Hne].
  - rewrite lookup_delete_eq, (bool_decide_true (i ∈ i :: ids)) by left. by case_bool_decide.
  - rewrite lookup_delete_ne by done. by rewrite (bool_decide_ext (id ∈ i :: ids) (id ∈ ids)) by set_solver.
Qed.
