(* ===== verification/Runtime.v ===== *)
(** * The workstation runtime: descriptors

    The pure half of [src/netboot.rs] and [src/netboot_transport.rs]: the signed
    descriptor of a workstation runtime and the text its signature covers, its
    validation, the desired state that names it, the archive and the tree it
    describes, the boot grant, and the classification of failures.  serde_json,
    SHA-256, Base64, Ed25519, [semver], [url] and [uuid] are arguments. *)

From stdpp Require Import base gmap list strings.
From Stdlib Require Import Ascii ZArith Lia.
From S2P Require Import Prelude RustStr RustText Json DbText Net NixBase32 NarInfo.

#[local] Open Scope Z_scope.
#[local] Open Scope nest_scope.

Definition DESCRIPTOR_SCHEMA : string := "tiaris.nest.workstation-netboot.v1".
Definition MANIFEST_SCHEMA : string := "tiaris.nest.workstation-netboot-manifest.v1".
Definition SIGNATURE_DOMAIN : string := "TIARIS-NEST-WORKSTATION-NETBOOT-V1".
Definition ARCHITECTURE : string := "x86_64-linux".
Definition FORMAT : string := "split-squashfs-v1".
Definition REQUIRED_NEST_PROTOCOL : Z := 4.
Definition COMPATIBILITY_EPOCH : Z := 1.
Definition MAX_BUNDLE_BYTES : Z := 8 * 1024 * 1024 * 1024.
Definition MAX_MANAGE_SOURCE_ARCHIVE_BYTES : Z := 256 * 1024 * 1024.
Definition FAILURE_INVALID_DESCRIPTOR : string := "invalid_descriptor".
Definition FAILURE_COMPATIBILITY_EPOCH_UNSUPPORTED : string := "compatibility_epoch_unsupported".
Definition FAILURE_INTEGRITY_MISMATCH : string := "integrity_mismatch".
Definition FAILURE_INSUFFICIENT_DISK_SPACE : string := "insufficient_disk_space".
Definition FAILURE_NETWORK_OR_SERVER : string := "network_or_server".
Definition FAILURE_LOCAL_IO_OR_PROCESSING : string := "local_io_or_processing".
Definition FAILURE_UNKNOWN : string := "unknown".
Definition MAX_MANIFEST_BYTES : Z := 256 * 1024.
Definition FAILURE_MESSAGE_MAX_CHARS : nat := 512.
Definition BOOT_CONTEXT_MAX_BYTES : Z := 64 * 1024.
Definition BOOT_GRANT_DOMAIN : string := "TIARIS-NEST-BOOT-GRANT-V1".
Definition COMPONENT_NAMES : list string := ["bzImage"; "initrd"; "nix-store.squashfs"].

(** ** Failures *)

(** An [anyhow::Error]: the code of the [CodedRuntimeFailure] in its chain, and
    the text that [to_string] writes, that of the outermost context. *)
Record Failure := { fl_code : option string; fl_text : string }.

Definition bail {A} (text : string) : result Failure A := Err {| fl_code := None; fl_text := text |}.
Definition coded_runtime_failure {A} (code detail : string) : result Failure A :=
  Err {| fl_code := Some code; fl_text := detail |}.
Definition require (ok : bool) (text : string) : result Failure unit :=
  if ok then Ok tt else bail text.
(** [r.context(text)] of an error of a library. *)
Definition or_context {E A} (text : string) (r : result E A) : result Failure A :=
  match r with Ok a => Ok a | Err _ => bail text end.
(** [r.context(text)] of an [anyhow::Result]. *)
Definition context {A} (text : string) (r : result Failure A) : result Failure A :=
  match r with Ok a => Ok a | Err e => Err {| fl_code := fl_code e; fl_text := text |} end.
Definition some_or {A} (text : string) (o : option A) : result Failure A :=
  match o with Some a => Ok a | None => bail text end.

Definition classify_failure (e : Failure) : string :=
  match fl_code e with
  | Some code => code
  | None =>
      let message := to_ascii_lowercase (fl_text e) in
      if contains_one ["signature"; "descriptor"; "watermark"] message
      then FAILURE_INVALID_DESCRIPTOR
      else if contains_one ["sha-256"; "manifest"; "archive"] message
      then FAILURE_INTEGRITY_MISMATCH
      else if contains "disk space" message then FAILURE_INSUFFICIENT_DISK_SPACE
      else if contains_one ["http"; "resolve"; "download"] message
      then FAILURE_NETWORK_OR_SERVER
      else FAILURE_LOCAL_IO_OR_PROCESSING
  end.

Definition normalize_failure_message (value : string) : string :=
  of_chars (take FAILURE_MESSAGE_MAX_CHARS
    ((λ c, if is_control c then [" "%char] else c) <$> chars value)).
Definition safe_failure_message (e : Failure) : string := normalize_failure_message (fl_text e).

Definition KNOWN_FAILURES : list string :=
  [FAILURE_INVALID_DESCRIPTOR; FAILURE_INTEGRITY_MISMATCH; FAILURE_INSUFFICIENT_DISK_SPACE;
   FAILURE_NETWORK_OR_SERVER; FAILURE_LOCAL_IO_OR_PROCESSING;
   FAILURE_COMPATIBILITY_EPOCH_UNSUPPORTED].
Definition normalize_failure_kind (value : string) : string :=
  if bool_decide (value = "" ∨ value ∈ KNOWN_FAILURES) then value else FAILURE_UNKNOWN.

(** ** Data *)

Record ComponentDescriptor := { cp_sha256 : string; cp_size_bytes : Z }.
#[global] Instance component_descriptor_eq_dec : EqDecision ComponentDescriptor.
Proof. solve_decision. Defined.

Record ComponentDescriptors := {
  cs_bz_image : ComponentDescriptor;
  cs_initrd : ComponentDescriptor;
  cs_nix_store_squashfs : ComponentDescriptor;
}.
#[global] Instance component_descriptors_eq_dec : EqDecision ComponentDescriptors.
Proof. solve_decision. Defined.

Definition component (cs : ComponentDescriptors) (name : string) : option ComponentDescriptor :=
  if bool_decide (name = "bzImage") then Some (cs_bz_image cs)
  else if bool_decide (name = "initrd") then Some (cs_initrd cs)
  else if bool_decide (name = "nix-store.squashfs") then Some (cs_nix_store_squashfs cs)
  else None.

Record WorkstationNetbootDescriptor := {
  wd_schema : string;
  wd_runtime_version : string;
  wd_manage_source_revision : string;
  wd_manage_source_sha256 : option string;
  wd_manage_source_size_bytes : option Z;
  wd_nixpkgs_revision : string;
  wd_architecture : string;
  wd_format : string;
  wd_required_nest_protocol : Z;
  wd_url : string;
  wd_sha256 : string;
  wd_size_bytes : Z;
  wd_manifest_sha256 : string;
  wd_components : ComponentDescriptors;
  wd_signature : string;
}.
#[global] Instance descriptor_eq_dec : EqDecision WorkstationNetbootDescriptor.
Proof. solve_decision. Defined.

Record WorkstationNetbootManifest := {
  wm_schema : string;
  wm_runtime_version : string;
  wm_architecture : string;
  wm_format : string;
  wm_required_nest_protocol : Z;
  wm_manage_source_revision : string;
  wm_nixpkgs_revision : string;
  wm_source_date_epoch : Z;
  wm_toplevel : string;
  wm_kernel_cmdline_template : string;
  wm_components : ComponentDescriptors;
  wm_provenance : gmap string string;
}.

Record BootGrantClaims := {
  bg_nest_device_id : string;
  bg_organization_id : string;
  bg_organization_slug : string;
  bg_manage_api_url : string;
  bg_bundle_sha256 : string;
  bg_profile_id : option string;
  bg_mac : string;
  bg_managed_device_id : option string;
  bg_reinstall_request_id : option string;
  bg_issued_at : Z;
  bg_expires_at : Z;
  bg_nonce : string;
}.

Record BootContext := {
  bx_api_url : string;
  bx_organization_slug : string;
  bx_bundle_sha256 : string;
  bx_profile_id : option string;
  bx_claims : BootGrantClaims;
  bx_signature : string;
}.

Record DesiredWorkstationNetboot := {
  dw_compatibility_epoch : Z;
  dw_descriptor : WorkstationNetbootDescriptor;
  dw_reconcile_generation : Z;
  dw_bundle_transport_url : option string;
}.

(** What is read of a [reqwest::Url]. *)
Record ReleaseUrl := {
  ru_scheme : string;
  ru_host : option string;
  ru_username : string;
  ru_password : option string;
  ru_segments : option (list string);
  ru_fragment : option string;
}.

(** An entry of the archive as [tar] reads it; [te_body] is what copying it
    yields, shorter than its declared size when the stream ends early. *)
Record TarEntry := {
  te_pax : bool;
  te_ustar : bool;
  te_path : string;
  te_is_file : bool;
  te_uid : Z;
  te_gid : Z;
  te_mode : Z;
  te_mtime : Z;
  te_size : Z;
  te_body : string;
}.

Class RuntimeDeps := {
  release_url : string → option ReleaseUrl;
  (** [semver::Version], with the texts of its parse errors. *)
  version : Type;
  version_parse : string → result string version;
  version_compare : version → version → comparison;
  (** The lower-case hexadecimal SHA-256 of a text. *)
  sha256_bytes : string → string;
  descriptor_to_string : WorkstationNetbootDescriptor → string;
  descriptor_from_str : string → option WorkstationNetbootDescriptor;
  desired_from_value : Value → result string DesiredWorkstationNetboot;
  u32_from_value : Value → result string Z;
  manifest_from_value : Value → option WorkstationNetbootManifest;
  context_to_vec : BootContext → string;
  (** [VerifyingKey::verify]. *)
  verify : list Z → string → list Z → bool;
  uuid_parses : string → bool;
  (** [URL_SAFE_NO_PAD]. *)
  base64url : list Z → string;
  base64url_length : string → option nat;
  (** The entries of a Zstandard tar archive. *)
  archive_entries : string → list (option TarEntry);
}.

Definition text_of_bytes (l : list Z) : string := of_bytes (char_of <$> l).

Section Runtime.
Context {deps : RuntimeDeps} {serde : Serde} {ed25519 : Ed25519}.

(** ** Desired state *)

Definition default_compatibility_epoch : Z := 1.

Definition validate_compatibility_epoch (epoch : Z) : result Failure unit :=
  if negb (epoch =? COMPATIBILITY_EPOCH)
  then coded_runtime_failure FAILURE_COMPATIBILITY_EPOCH_UNSUPPORTED
    ("workstation runtime compatibility epoch " +:+ show epoch +:+
     " is unsupported; this Nest supports epoch " +:+ show COMPATIBILITY_EPOCH)
  else Ok tt.

Definition decode_desired (value : Value) : result Failure DesiredWorkstationNetboot :=
  epoch ≔ (match get "compatibility_epoch" value with
           | None => Ok default_compatibility_epoch
           | Some v =>
               match u32_from_value v with
               | Ok n => Ok n
               | Err e => coded_runtime_failure FAILURE_INVALID_DESCRIPTOR
                            ("parse workstation runtime compatibility epoch: " +:+ e)
               end
           end) ?;
  _ ≔ validate_compatibility_epoch epoch ?;
  match desired_from_value value with
  | Ok d => Ok d
  | Err e => coded_runtime_failure FAILURE_INVALID_DESCRIPTOR
               ("parse workstation runtime desired state: " +:+ e)
  end.

(** ** Descriptors *)

(** The fields of the signed text, one to a line. *)
Definition source_identity (d : WorkstationNetbootDescriptor) : list string :=
  match wd_manage_source_sha256 d, wd_manage_source_size_bytes d with
  | Some sha256, Some size => [show size; sha256]
  | _, _ => []
  end.

Definition component_lines (c : ComponentDescriptor) : list string :=
  [show (cp_size_bytes c); cp_sha256 c].

Definition signature_lines (d : WorkstationNetbootDescriptor) : list string :=
  [SIGNATURE_DOMAIN; wd_runtime_version d; wd_manage_source_revision d; wd_nixpkgs_revision d]
  ++ source_identity d
  ++ [wd_architecture d; wd_format d; show (wd_required_nest_protocol d)]
  ++ component_lines (cs_bz_image (wd_components d))
  ++ component_lines (cs_initrd (wd_components d))
  ++ component_lines (cs_nix_store_squashfs (wd_components d))
  ++ [wd_manifest_sha256 d; show (wd_size_bytes d); wd_sha256 d; wd_url d].

Definition text_lines (lines : list string) : string :=
  foldr (λ line rest, line +:+ nl +:+ rest) "" lines.

Definition signature_message (d : WorkstationNetbootDescriptor) : string :=
  text_lines (signature_lines d).

Definition lower_hex (n : Z) (value : string) : bool :=
  (len value =? n) && all_bytes is_lower_hex value.

Definition validate_revision (value label : string) : result Failure unit :=
  require (lower_hex 40 value) ("workstation netboot " +:+ label +:+ " must be lowercase 40-hex").

Definition validate_sha256 (value label : string) : result Failure unit :=
  require (lower_hex 64 value) ("workstation netboot " +:+ label +:+ " must be lowercase 64-hex").

Definition within (max size : Z) : bool := negb ((size =? 0) || (max <? size)).

Definition validate_source_identity (d : WorkstationNetbootDescriptor) : result Failure unit :=
  match wd_manage_source_sha256 d, wd_manage_source_size_bytes d with
  | None, None => Ok tt
  | Some sha256, Some size =>
      _ ≔ validate_sha256 sha256 "Tiaris source SHA-256" ?;
      require (within MAX_MANAGE_SOURCE_ARCHIVE_BYTES size)
        "Tiaris source archive size is outside its bound"
  | _, _ => bail "Tiaris source archive identity is incomplete"
  end.

Fixpoint validate_components (cs : ComponentDescriptors) (names : list string)
    : result Failure unit :=
  match names with
  | [] => Ok tt
  | name :: names =>
      c ≔ some_or "fixed component" (component cs name) ?;
      _ ≔ validate_sha256 (cp_sha256 c) "component SHA-256" ?;
      _ ≔ require (within MAX_BUNDLE_BYTES (cp_size_bytes c))
            "workstation netboot component size is outside its bound" ?;
      validate_components cs names
  end.

Definition expected_name (d : WorkstationNetbootDescriptor) : string :=
  "tiaris-workstation-netboot-" +:+ wd_runtime_version d +:+ "-"
  +:+ str_to 12 (wd_manage_source_revision d) +:+ "-" +:+ ARCHITECTURE +:+ ".tar.zst".

Definition is_some {A} (o : option A) : bool := match o with Some _ => true | None => false end.

Definition release_url_ok (private : bool) (url : ReleaseUrl) : bool :=
  negb ((negb private && negb (bool_decide (ru_scheme url = "https")))
        || (private && negb (bool_decide (ru_scheme url = "http" ∨ ru_scheme url = "https")))
        || negb (is_some (ru_host url)) || negb (is_empty (ru_username url))
        || is_some (ru_password url) || is_some (ru_fragment url)).

Definition verify_descriptor_signature (d : WorkstationNetbootDescriptor) (trusted : string)
    : result Failure unit :=
  key_bytes ≔ some_or "decode workstation netboot trusted public key" (base64_decode (trim trusted)) ?;
  _ ≔ require (Nat.eqb (length key_bytes) 32) "workstation netboot trusted public key must be 32 bytes" ?;
  key ≔ some_or "parse workstation netboot key" (verifying_key_from_bytes key_bytes) ?;
  _ ≔ require (negb (is_weak key)) "workstation netboot trusted public key must not be weak" ?;
  signature_bytes ≔ some_or "decode workstation netboot signature" (base64_decode (trim (wd_signature d))) ?;
  _ ≔ require (bool_decide (base64_encode signature_bytes = wd_signature d))
        "workstation netboot signature is not canonical Base64" ?;
  signature ≔ some_or "parse workstation netboot signature" (signature_from_slice signature_bytes) ?;
  require (verify key (signature_message d) signature) "verify workstation netboot signature".

Definition validate_descriptor_with_policy (d : WorkstationNetbootDescriptor) (trusted : string)
    (private : bool) : result Failure unit :=
  _ ≔ require (bool_decide (wd_schema d = DESCRIPTOR_SCHEMA))
        "workstation netboot descriptor schema is unsupported" ?;
  _ ≔ or_context "workstation netboot runtime version is not canonical SemVer"
        (version_parse (wd_runtime_version d)) ?;
  _ ≔ validate_revision (wd_manage_source_revision d) "Tiaris source revision" ?;
  _ ≔ validate_source_identity d ?;
  _ ≔ validate_revision (wd_nixpkgs_revision d) "nixpkgs revision" ?;
  _ ≔ require (bool_decide (wd_architecture d = ARCHITECTURE) && bool_decide (wd_format d = FORMAT)
               && (wd_required_nest_protocol d =? REQUIRED_NEST_PROTOCOL))
        "workstation netboot descriptor target contract is incompatible" ?;
  _ ≔ validate_sha256 (wd_sha256 d) "bundle SHA-256" ?;
  _ ≔ validate_sha256 (wd_manifest_sha256 d) "manifest SHA-256" ?;
  _ ≔ require (within MAX_BUNDLE_BYTES (wd_size_bytes d))
        "workstation netboot bundle size is outside its bound" ?;
  _ ≔ validate_components (wd_components d) COMPONENT_NAMES ?;
  url ≔ some_or "parse workstation netboot URL" (release_url (wd_url d)) ?;
  _ ≔ require (release_url_ok private url)
        "workstation netboot URL must be an uncredentialed public HTTPS URL" ?;
  _ ≔ require (bool_decide (ru_segments url ≫= last = Some (expected_name d)))
        "workstation netboot URL does not bind the canonical filename" ?;
  if private then Ok tt else verify_descriptor_signature d trusted.

Definition validate_descriptor (d : WorkstationNetbootDescriptor) (trusted : string)
    : result Failure unit := validate_descriptor_with_policy d trusted false.

(** ** The qualification transport *)

Definition is_private (octets : list Z) : bool :=
  match octets with
  | [a; b; _; _] => (a =? 10) || ((a =? 172) && in_range 16 31 b) || ((a =? 192) && (b =? 168))
  | _ => false
  end.

(** [rest.rsplit_once(':')]'s second part. *)
Definition after_last (c : ascii) (s : string) : option string :=
  if any_byte (λ a, bool_decide (a = c)) s then Some (rsplit_next c s) else None.

Definition transport_url_ok (value : string) (d : WorkstationNetbootDescriptor) : option unit :=
  if 4096 <? len value then None else
  url ← release_url value;
  host ← ru_host url;
  octets ← match parse_ip host with Some (V4 octets) => Some octets | _ => None end;
  descriptor_url ← release_url (wd_url d);
  segments ← ru_segments descriptor_url;
  filename ← last segments;
  rest ← strip_prefix "http://" value;
  '(authority, _) ← split_once "/" rest;
  port_text ← after_last ":" authority;
  port ← parse_unsigned u16_max port_text;
  if (port =? 0) || negb (is_private octets) || is_empty filename
     || any_byte (λ a, negb (is_alnum a || byte_in "._+-" a)) filename
     || negb (bool_decide (value = "http://" +:+ show_ipv4 octets +:+ ":" +:+ show port +:+ "/" +:+ filename))
  then None else Some tt.

Definition validate_url (value : string) (d : WorkstationNetbootDescriptor) : result Failure unit :=
  some_or "workstation netboot descriptor transport URL is invalid" (transport_url_ok value d).

Definition validate_desired (desired : DesiredWorkstationNetboot) (key : string) (private : bool)
    : result Failure unit :=
  _ ≔ validate_descriptor_with_policy (dw_descriptor desired) key
        (private && negb (is_some (dw_bundle_transport_url desired))) ?;
  match dw_bundle_transport_url desired with
  | Some value => validate_url value (dw_descriptor desired)
  | None => Ok tt
  end.

Definition attempt_identity (descriptor_sha256 : string) (transport : option string) : string :=
  match transport with
  | None => descriptor_sha256
  | Some value => sha256_bytes ("TIARIS-WORKSTATION-TRANSPORT-V1" +:+ nl +:+ descriptor_sha256
                                +:+ nl +:+ sha256_bytes value +:+ nl)
  end.

Definition raw_attempt_identity (descriptor_sha256 : string) (transport : option Value) : string :=
  match transport with
  | None | Some Null => attempt_identity descriptor_sha256 None
  | Some (Str value) => attempt_identity descriptor_sha256 (Some value)
  | Some value => sha256_bytes ("TIARIS-WORKSTATION-MALFORMED-TRANSPORT-V1" +:+ nl
                    +:+ descriptor_sha256 +:+ nl +:+ to_string value +:+ nl)
  end.

Definition descriptor_digest (d : WorkstationNetbootDescriptor) : string :=
  sha256_bytes (descriptor_to_string d).

(** ** Precedence *)

Definition validate_reconcile_generation_precedence (stored : option (Z * string)) (generation : Z)
    (descriptor_sha256 : string) : result Failure unit :=
  match stored with
  | Some (stored_generation, stored_descriptor) =>
      if generation <? stored_generation
      then bail "workstation netboot stale reconcile generation was rejected"
      else if (generation =? stored_generation) && negb (bool_decide (stored_descriptor = descriptor_sha256))
      then bail "workstation netboot descriptor changed at the accepted reconcile generation"
      else Ok tt
  | None => Ok tt
  end.

Definition enforce_watermark_precedence (accepted_version accepted_descriptor candidate_version
    candidate_descriptor : string) : result Failure unit :=
  accepted ≔ or_context "stored netboot watermark is invalid" (version_parse accepted_version) ?;
  candidate ≔ (match version_parse candidate_version with
               | Ok v => Ok v
               | Err e => bail e
               end) ?;
  match version_compare candidate accepted with
  | Lt => coded_runtime_failure FAILURE_INVALID_DESCRIPTOR
            "workstation netboot signed downgrade was rejected"
  | Eq => if bool_decide (accepted_descriptor = candidate_descriptor) then Ok tt
          else coded_runtime_failure FAILURE_INVALID_DESCRIPTOR
            "workstation netboot descriptor changed at the accepted runtime version"
  | Gt => Ok tt
  end.

(** ** The bundle on disk *)

(** A file of a bundle directory: what [symlink_metadata] says of it, and its
    contents, unless reading it fails. *)
Record TreeFile := {
  tf_is_file : bool;
  tf_nlink : Z;
  tf_mode : Z;
  tf_contents : option string;
}.

(** What is at the root of a bundle; a name that is not UTF-8 is [None]. *)
Inductive Tree :=
| NoTree
| NotADir
| DirTree (entries : list (option string * TreeFile)).

Definition io_error {A} : result Failure A := bail "input/output error".

Definition find_file (entries : list (option string * TreeFile)) (name : string) : option TreeFile :=
  snd <$> List.find (λ e, bool_decide (e.1 = Some name)) entries.

Definition bundle_name (name : string) : bool :=
  bool_decide (name = "manifest.json" ∨ name ∈ COMPONENT_NAMES).

Fixpoint check_entries (entries : list (option string * TreeFile)) (names : gset string)
    : result Failure (gset string) :=
  match entries with
  | [] => Ok names
  | (name, file) :: entries =>
      name ≔ some_or "workstation netboot bundle filename is not UTF-8" name ?;
      _ ≔ require (negb (bool_decide (name ∈ names)))
            "workstation netboot bundle contains duplicate files" ?;
      _ ≔ require (bundle_name name) "workstation netboot bundle contains an unexpected file" ?;
      _ ≔ require (tf_is_file file && (tf_nlink file =? 1) && (Z.land (tf_mode file) 511 =? 420))
            "workstation netboot bundle file metadata is unsafe" ?;
      check_entries entries ({[ name ]} ∪ names)
  end.

Definition EXPECTED_NAMES : gset string :=
  list_to_set ["manifest.json"; "bzImage"; "initrd"; "nix-store.squashfs"].

Definition parse_canonical_manifest (body : string) : result Failure WorkstationNetbootManifest :=
  value ≔ some_or "parse workstation netboot manifest" (from_str body) ?;
  _ ≔ require (bool_decide (to_string value +:+ nl = body))
        "workstation netboot manifest is not canonical compact sorted JSON" ?;
  some_or "validate workstation netboot manifest" (manifest_from_value value).

Definition SQUASHFS_SLOT : string := "{squashfs_url}".

Definition validate_manifest (m : WorkstationNetbootManifest) (d : WorkstationNetbootDescriptor)
    : result Failure unit :=
  _ ≔ require (bool_decide (wm_schema m = MANIFEST_SCHEMA)
               && bool_decide (wm_runtime_version m = wd_runtime_version d)
               && bool_decide (wm_architecture m = wd_architecture d)
               && bool_decide (wm_format m = wd_format d)
               && (wm_required_nest_protocol m =? wd_required_nest_protocol d)
               && bool_decide (wm_manage_source_revision m = wd_manage_source_revision d)
               && bool_decide (wm_nixpkgs_revision m = wd_nixpkgs_revision d)
               && bool_decide (wm_components m = wd_components d))
        "workstation netboot manifest does not match its signed descriptor" ?;
  let static := replace SQUASHFS_SLOT "" (wm_kernel_cmdline_template m) in
  require (starts_with "/nix/store/" (wm_toplevel m)
           && negb (existsb is_whitespace (chars (wm_toplevel m)))
           && Nat.eqb (matches SQUASHFS_SLOT (wm_kernel_cmdline_template m)) 1
           && negb (contains "{" static || contains "}" static)
           && negb (bool_decide (wm_provenance m = ∅)))
    "workstation netboot manifest runtime metadata is invalid".

Definition read_file (entries : list (option string * TreeFile)) (name : string)
    : result Failure string :=
  match find_file entries name ≫= tf_contents with Some body => Ok body | None => io_error end.

Fixpoint check_components (entries : list (option string * TreeFile))
    (cs : ComponentDescriptors) (names : list string) : result Failure unit :=
  match names with
  | [] => Ok tt
  | name :: names =>
      expected ≔ some_or "fixed component" (component cs name) ?;
      body ≔ read_file entries name ?;
      _ ≔ require ((len body =? cp_size_bytes expected)
                   && bool_decide (sha256_bytes body = cp_sha256 expected))
            "workstation netboot component integrity mismatch" ?;
      check_components entries cs names
  end.

Definition verify_extracted_tree (root : Tree) (d : WorkstationNetbootDescriptor)
    : result Failure unit :=
  match root with
  | NoTree => io_error
  | NotADir => bail "workstation netboot bundle root is not a directory"
  | DirTree entries =>
      names ≔ check_entries entries ∅ ?;
      _ ≔ require (bool_decide (names = EXPECTED_NAMES))
            "workstation netboot bundle does not contain its exact component set" ?;
      body ≔ read_file entries "manifest.json" ?;
      _ ≔ require (negb (is_empty body) && (len body <=? MAX_MANIFEST_BYTES)
                   && bool_decide (sha256_bytes body = wd_manifest_sha256 d))
            "workstation netboot manifest SHA-256 mismatch" ?;
      manifest ≔ parse_canonical_manifest body ?;
      _ ≔ validate_manifest manifest d ?;
      check_components entries (wd_components d) COMPONENT_NAMES
  end.

(** ** The archive *)

Definition single_component_name (path : string) : result Failure string :=
  match components path with
  | [Normal name] =>
      if is_empty name || starts_with "." name
      then bail "workstation netboot archive path is unsafe" else Ok name
  | Normal _ :: _ => bail "workstation netboot archive path is nested"
  | _ => bail "workstation netboot archive path is unsafe"
  end.

Record Extraction := {
  ex_names : list string;
  ex_mtime : option Z;
  ex_files : list (option string * TreeFile);
}.

Definition extract_entry (d : WorkstationNetbootDescriptor) (e : TarEntry) (x : Extraction)
    : result Failure Extraction :=
  _ ≔ require (negb (te_pax e) && te_ustar e)
        "workstation netboot archive extensions are not permitted" ?;
  name ≔ single_component_name (te_path e) ?;
  _ ≔ require (negb (bool_decide (name ∈ ex_names x)))
        "workstation netboot archive contains a duplicate entry" ?;
  _ ≔ require (bundle_name name) "workstation netboot archive contains an unexpected entry" ?;
  _ ≔ require (te_is_file e && (te_uid e =? 0) && (te_gid e =? 0) && (te_mode e =? 420))
        "workstation netboot archive entry metadata is unsafe" ?;
  _ ≔ require (match ex_mtime x with Some previous => previous =? te_mtime e | None => true end)
        "workstation netboot archive timestamps are inconsistent" ?;
  declared ≔ (if bool_decide (name = "manifest.json")
              then _ ≔ require (within MAX_MANIFEST_BYTES (te_size e))
                         "workstation netboot manifest size is outside its bound" ?;
                   Ok (te_size e)
              else expected ≔ some_or "allowlisted component" (component (wd_components d) name) ?;
                   _ ≔ require (te_size e =? cp_size_bytes expected)
                         "workstation netboot archive component size does not match descriptor" ?;
                   Ok (cp_size_bytes expected)) ?;
  _ ≔ require (len (te_body e) =? declared) "workstation netboot archive entry was truncated" ?;
  Ok {| ex_names := ex_names x ++ [name]; ex_mtime := Some (te_mtime e);
        ex_files := ex_files x ++ [(Some name,
          {| tf_is_file := true; tf_nlink := 1; tf_mode := 420; tf_contents := Some (te_body e) |})] |}.

(** The entries of the stream; [None] is one that cannot be read or written. *)
Fixpoint extract_entries (d : WorkstationNetbootDescriptor) (es : list (option TarEntry))
    (x : Extraction) : result Failure Extraction :=
  match es with
  | [] => Ok x
  | None :: _ => io_error
  | Some e :: es => x ≔ extract_entry d e x ?; extract_entries d es x
  end.

Definition extract_and_verify (archive : list (option TarEntry)) (d : WorkstationNetbootDescriptor)
    : result Failure Tree :=
  x ≔ extract_entries d archive {| ex_names := []; ex_mtime := None; ex_files := [] |} ?;
  _ ≔ require (bool_decide (list_to_set (ex_names x) = EXPECTED_NAMES))
        "workstation netboot archive did not contain the exact component set" ?;
  _ ≔ require (bool_decide (ex_names x = ["bzImage"; "initrd"; "manifest.json"; "nix-store.squashfs"]))
        "workstation netboot archive entries are not sorted" ?;
  body ≔ read_file (ex_files x) "manifest.json" ?;
  _ ≔ require (bool_decide (sha256_bytes body = wd_manifest_sha256 d))
        "workstation netboot manifest SHA-256 mismatch" ?;
  manifest ≔ parse_canonical_manifest body ?;
  _ ≔ validate_manifest manifest d ?;
  _ ≔ require (bool_decide (ex_mtime x = Some (wm_source_date_epoch manifest)))
        "workstation netboot archive timestamp does not match its manifest" ?;
  _ ≔ verify_extracted_tree (DirTree (ex_files x)) d ?;
  Ok (DirTree (ex_files x)).

Fixpoint checked_sum (total : Z) (sizes : list Z) : result Failure Z :=
  match sizes with
  | [] => Ok total
  | size :: sizes =>
      if u64_max <? total + size then bail "workstation netboot expanded size overflow"
      else checked_sum (total + size) sizes
  end.

Definition expected_expanded_runtime_bytes (d : WorkstationNetbootDescriptor) : result Failure Z :=
  checked_sum 0 [cp_size_bytes (cs_bz_image (wd_components d));
                 cp_size_bytes (cs_initrd (wd_components d));
                 cp_size_bytes (cs_nix_store_squashfs (wd_components d)); MAX_MANIFEST_BYTES].

Definition download_progress_percent (downloaded total : Z) : Z :=
  1 + sat_mul u64_max downloaded 68 / total.

(** ** Boot grants *)

Definition grant_lines (c : BootGrantClaims) : list string :=
  [BOOT_GRANT_DOMAIN; bg_nest_device_id c; bg_organization_id c; bg_organization_slug c;
   bg_manage_api_url c; bg_bundle_sha256 c; default "" (bg_profile_id c); bg_mac c;
   default "" (bg_managed_device_id c); default "" (bg_reinstall_request_id c);
   show (bg_issued_at c); show (bg_expires_at c); bg_nonce c].

Definition boot_grant_message (c : BootGrantClaims) : string := text_lines (grant_lines c).

Definition is_safe_control_plane_id (value : string) : bool :=
  negb (is_empty value) && (len value <=? 128) && bool_decide (value = trim value)
  && all_bytes (λ a, is_alnum a || byte_in "_-" a) value.

Definition validate_organization_slug (value : string) : result Failure unit :=
  require (negb ((len value <? 2) || (64 <? len value) || starts_with "-" value
                 || ends_with "-" value
                 || negb (all_bytes (λ a, is_lower a || is_digit a || byte_in "-" a) value)))
    "boot session organization slug is invalid".

Definition valid_session_id (value : string) : bool :=
  (len value =? 22) && all_bytes (λ a, is_alnum a || byte_in "-_" a) value
  && bool_decide (base64url_length value = Some 16%nat).

(** *** The context archive *)

(** [{:08x}]. *)
Fixpoint hex_fixed (digits : nat) (z : Z) (acc : string) : string :=
  match digits with
  | O => acc
  | S n => hex_fixed n (z / 16) (String (hex_digit (z mod 16)) acc)
  end.
Definition hex8 (z : Z) : string := hex_fixed 8 z "".

Definition zeros (n : Z) : string := of_bytes (replicate (Z.to_nat n) "000"%char).
Definition pad_to (n : Z) (archive : string) : string :=
  archive +:+ zeros ((- len archive) mod n).
Definition pad_four (archive : string) : string := pad_to 4 archive.

Definition append_newc_entry (archive name : string) (mode mtime : Z) (body : string)
    : result Failure string :=
  if u32_max <? len body then bail "CPIO body exceeds u32" else
  let header := "070701" +:+ hex8 1 +:+ hex8 mode +:+ hex8 0 +:+ hex8 0 +:+ hex8 1 +:+ hex8 mtime
    +:+ hex8 (len body) +:+ hex8 0 +:+ hex8 0 +:+ hex8 0 +:+ hex8 0 +:+ hex8 (len name + 1)
    +:+ hex8 0 in
  if negb (len header =? 110) then bail "CPIO header length is invalid" else
  Ok (pad_four (pad_four (archive +:+ header +:+ name +:+ String "000" "") +:+ body)).

Definition newc_context_archive (body : string) (mtime : Z) : result Failure string :=
  if (mtime <? 0) || is_empty body then bail "Nest boot context archive inputs are invalid" else
  let mtime := mtime mod (u32_max + 1) in
  archive ≔ append_newc_entry "" "etc/tiaris-installer/boot-context.json" 33152 mtime body ?;
  archive ≔ append_newc_entry archive "TRAILER!!!" 0 mtime "" ?;
  Ok (pad_to 512 archive).

End Runtime.
