(* ===== verification/RuntimeStore.v ===== *)
(** * The workstation runtime: reconciliation

    The stateful half of [src/netboot.rs]: the tables [workstation_netboot_*] and
    [nest_boot_sessions], the bundle directories, the partial downloads and the
    session directories, with the handlers that change them.  A database statement
    or transaction is one action, and so is what a handler does with files between
    two [await]s.  Columns that no statement reads are left out ([created_at],
    [updated_at] but for the retry rows, the columns copied from a descriptor).

    The clock is part of the world and does not go back.  Timestamps are stored as
    text, in seconds or with microseconds; [Stamp] keeps which.  [src/disk.rs],
    [src/maintenance.rs], [src/manage_source.rs], the identity of the appliance and
    the multicast coordinator answer from the input. *)

From stdpp Require Import sorting base gmap list strings.
From Stdlib Require Import Ascii ZArith Lia.
From S2P Require Import Prelude Async RustStr RustText Json DbText Net NixBase32 NarInfo Multicast Boot Runtime.

#[local] Open Scope Z_scope.
#[local] Open Scope nest_scope.

Definition BOOT_GRANT_LIFETIME_SECONDS : Z := 10 * 60.
Definition BOOT_SESSION_RETENTION_SECONDS : Z := 24 * 60 * 60.
Definition BUNDLE_RETENTION_SECONDS : Z := 7 * 24 * 60 * 60.
Definition SCRUB_INTERVAL_SECONDS : Z := 12 * 60 * 60.
Definition RECONCILE_RETRY_BASE_SECONDS : Z := 30.
Definition RECONCILE_RETRY_MAX_SECONDS : Z := 30 * 60.
Definition MAX_RECONCILE_ATTEMPT_ROWS : nat := 128.
(** [manage_source::MANAGE_SOURCE_URL_TEMPLATE]. *)
Definition MANAGE_SOURCE_URL_TEMPLATE : string :=
  "tarball+file:///usr/share/tiaris-nest/manage-source/{revision}.tar".
Definition DOWNLOAD_PROGRESS_MAX_INTERVAL : Z := 5 * 1000000.

(** ** Timestamps *)

(** RFC 3339 with seconds, or with microseconds. *)
Inductive Stamp := AtSecs (seconds : Z) | AtMicros (micros : Z).

Definition stamp_seconds (s : Stamp) : Z :=
  match s with AtSecs s => s | AtMicros us => us / 1000000 end.

(** The order of the texts: a fraction sorts before the [Z] that ends seconds. *)
Definition stamp_lt (a b : Stamp) : bool :=
  (stamp_seconds a <? stamp_seconds b)
  || ((stamp_seconds a =? stamp_seconds b)
      && match a, b with
         | AtMicros _, AtSecs _ => true
         | AtMicros x, AtMicros y => x <? y
         | _, _ => false
         end).

(** ** Tables *)

Record RuntimeRow := {
  rr_epoch : Z;
  rr_descriptor_json : string;
  rr_descriptor_sha256 : string;
  rr_generation : Z;
  rr_state : string;
  rr_progress : Z;
  rr_bytes : Z;
  rr_total : Z;
  rr_failure_kind : string;
  rr_failure_message : string;
  rr_active : string;
  rr_previous : string;
  rr_last_verified : option Stamp;
}.

Record BundleRow := {
  bn_epoch : Z;
  bn_runtime_version : string;
  bn_descriptor_json : string;
  bn_root_path : string;
  bn_verified : bool;
  bn_verified_at : Z;
  bn_last_scrubbed : option Stamp;
  bn_retained_until : option Z;
}.

Record AttemptRow := {
  ar_failure_kind : string;
  ar_count : Z;
  ar_terminal : bool;
  ar_next : option Z;
  ar_updated : Z;
  ar_rowid : Z;
}.

Record SessionRow := {
  sn_nonce_sha256 : string;
  sn_join_token_sha256 : string;
  sn_mac : string;
  sn_profile_id : option string;
  sn_managed_device_id : option string;
  sn_reinstall_request_id : option string;
  sn_bundle : string;
  sn_context_path : string;
  sn_issued_at : Z;
  sn_expires_at : Z;
  sn_cleanup_after : Z;
}.

Abbreviation AttemptKey := (Z * Z * string)%type.

Record RuntimeWorld := {
  rw_clock : Z;
  rw_runtime : RuntimeRow;
  rw_bundles : gmap string BundleRow;
  rw_generations : gmap Z (Z * string);
  rw_watermarks : gmap (Z * string * string) (string * string);
  rw_attempts : gmap AttemptKey AttemptRow;
  rw_sessions : gmap string SessionRow;
  rw_trees : gmap string Tree;
  rw_parts : gmap string string;
  rw_contexts : gmap string string;
}.

Record RuntimeConfig := {
  rc_trusted_public_key : string;
  rc_allow_private : bool;
  rc_manage_source_template : string;
  rc_boot_assets_dir : string;
  rc_data_dir : string;
  rc_organization_id : string;
  rc_organization_slug : string;
  rc_api_url : string;
  rc_public_base_url : string;
}.

Record HttpResponse := {
  hr_status : Z;
  hr_content_length : option Z;
  hr_content_range : option string;
  hr_chunks : list (option string);
}.

(** What an action learns from outside: whether the statement or the work on files
    fails, the clock, the maintenance lease, the packaged source, free space, the
    coordinator, the HTTP answer, whether a partial file is unsafe, a file outside
    the served directory, fresh randomness, the identity of the appliance, and the
    order of rows that a query does not order. *)
Record RuntimeInput := {
  ri_fault : bool;
  ri_io : option string;
  ri_now : Z;
  ri_lease : result Failure bool;
  ri_manage_source : string → string → bool → bool;
  ri_space : result Failure unit;
  ri_cancel : result Failure unit;
  ri_transferring : string → bool;
  ri_response : result Failure HttpResponse;
  ri_part_unsafe : bool;
  ri_elsewhere : option string;
  ri_nonce : nat → Z;
  ri_session : nat → Z;
  ri_identity : result Failure (string * list Z);
  ri_tie : string → Z;
}.

(** [OsRng.fill_bytes] of an array of [n] bytes. *)
Definition fill_bytes (n : nat) (random : nat → Z) : list Z := (λ k, random k `mod` 256) <$> seq 0 n.

Abbreviation rtask := (prog RuntimeInput RuntimeWorld).

(** ** Changes of the world *)

Definition set_clock (t : Z) (w : RuntimeWorld) : RuntimeWorld := {|
  rw_clock := t; rw_runtime := rw_runtime w; rw_bundles := rw_bundles w;
  rw_generations := rw_generations w; rw_watermarks := rw_watermarks w;
  rw_attempts := rw_attempts w; rw_sessions := rw_sessions w; rw_trees := rw_trees w;
  rw_parts := rw_parts w; rw_contexts := rw_contexts w |}.
Definition set_runtime (r : RuntimeRow) (w : RuntimeWorld) : RuntimeWorld := {|
  rw_clock := rw_clock w; rw_runtime := r; rw_bundles := rw_bundles w;
  rw_generations := rw_generations w; rw_watermarks := rw_watermarks w;
  rw_attempts := rw_attempts w; rw_sessions := rw_sessions w; rw_trees := rw_trees w;
  rw_parts := rw_parts w; rw_contexts := rw_contexts w |}.
Definition set_bundles (b : gmap string BundleRow) (w : RuntimeWorld) : RuntimeWorld := {|
  rw_clock := rw_clock w; rw_runtime := rw_runtime w; rw_bundles := b;
  rw_generations := rw_generations w; rw_watermarks := rw_watermarks w;
  rw_attempts := rw_attempts w; rw_sessions := rw_sessions w; rw_trees := rw_trees w;
  rw_parts := rw_parts w; rw_contexts := rw_contexts w |}.
Definition set_generations (g : gmap Z (Z * string)) (w : RuntimeWorld) : RuntimeWorld := {|
  rw_clock := rw_clock w; rw_runtime := rw_runtime w; rw_bundles := rw_bundles w;
  rw_generations := g; rw_watermarks := rw_watermarks w;
  rw_attempts := rw_attempts w; rw_sessions := rw_sessions w; rw_trees := rw_trees w;
  rw_parts := rw_parts w; rw_contexts := rw_contexts w |}.
Definition set_watermarks (m : gmap (Z * string * string) (string * string)) (w : RuntimeWorld)
    : RuntimeWorld := {|
  rw_clock := rw_clock w; rw_runtime := rw_runtime w; rw_bundles := rw_bundles w;
  rw_generations := rw_generations w; rw_watermarks := m;
  rw_attempts := rw_attempts w; rw_sessions := rw_sessions w; rw_trees := rw_trees w;
  rw_parts := rw_parts w; rw_contexts := rw_contexts w |}.
Definition set_attempts (a : gmap AttemptKey AttemptRow) (w : RuntimeWorld) : RuntimeWorld := {|
  rw_clock := rw_clock w; rw_runtime := rw_runtime w; rw_bundles := rw_bundles w;
  rw_generations := rw_generations w; rw_watermarks := rw_watermarks w;
  rw_attempts := a; rw_sessions := rw_sessions w; rw_trees := rw_trees w;
  rw_parts := rw_parts w; rw_contexts := rw_contexts w |}.
Definition set_sessions (s : gmap string SessionRow) (w : RuntimeWorld) : RuntimeWorld := {|
  rw_clock := rw_clock w; rw_runtime := rw_runtime w; rw_bundles := rw_bundles w;
  rw_generations := rw_generations w; rw_watermarks := rw_watermarks w;
  rw_attempts := rw_attempts w; rw_sessions := s; rw_trees := rw_trees w;
  rw_parts := rw_parts w; rw_contexts := rw_contexts w |}.
Definition set_trees (t : gmap string Tree) (w : RuntimeWorld) : RuntimeWorld := {|
  rw_clock := rw_clock w; rw_runtime := rw_runtime w; rw_bundles := rw_bundles w;
  rw_generations := rw_generations w; rw_watermarks := rw_watermarks w;
  rw_attempts := rw_attempts w; rw_sessions := rw_sessions w; rw_trees := t;
  rw_parts := rw_parts w; rw_contexts := rw_contexts w |}.
Definition set_parts (p : gmap string string) (w : RuntimeWorld) : RuntimeWorld := {|
  rw_clock := rw_clock w; rw_runtime := rw_runtime w; rw_bundles := rw_bundles w;
  rw_generations := rw_generations w; rw_watermarks := rw_watermarks w;
  rw_attempts := rw_attempts w; rw_sessions := rw_sessions w; rw_trees := rw_trees w;
  rw_parts := p; rw_contexts := rw_contexts w |}.
Definition set_contexts (c : gmap string string) (w : RuntimeWorld) : RuntimeWorld := {|
  rw_clock := rw_clock w; rw_runtime := rw_runtime w; rw_bundles := rw_bundles w;
  rw_generations := rw_generations w; rw_watermarks := rw_watermarks w;
  rw_attempts := rw_attempts w; rw_sessions := rw_sessions w; rw_trees := rw_trees w;
  rw_parts := rw_parts w; rw_contexts := c |}.

Definition tick (i : RuntimeInput) (w : RuntimeWorld) : RuntimeWorld :=
  set_clock (Z.max (rw_clock w) (ri_now i)) w.
Definition seconds (w : RuntimeWorld) : Z := rw_clock w / 1000000.

(** ** Actions *)

Definition database_failure : Failure := {| fl_code := None; fl_text := "error returned from database" |}.

(** Work that is not a statement. *)
Definition act {B} (f : RuntimeInput → RuntimeWorld → result Failure B * RuntimeWorld)
    : rtask (result Failure B) := atomic (λ i w, f i (tick i w)).

(** A statement or a transaction, which may fail as a whole. *)
Definition stmt {B} (f : RuntimeInput → RuntimeWorld → result Failure B * RuntimeWorld)
    : rtask (result Failure B) :=
  act (λ i w, if ri_fault i then (Err database_failure, w) else f i w).

(** A statement that only reads, and one that only writes. *)
Definition select {B} (f : RuntimeInput → RuntimeWorld → B) : rtask (result Failure B) :=
  stmt (λ i w, (Ok (f i w), w)).
Definition update (f : RuntimeInput → RuntimeWorld → RuntimeWorld) : rtask (result Failure unit) :=
  stmt (λ i w, (Ok tt, f i w)).

(** Work on files that fails as a whole or takes effect. *)
Definition files {B} (f : RuntimeInput → RuntimeWorld → result Failure B * RuntimeWorld)
    : rtask (result Failure B) :=
  act (λ i w, match ri_io i with Some text => (bail text, w) | None => f i w end).

Definition lift {A} (r : result Failure A) : rtask (result Failure A) := Ret r.

Section Store.
Context {deps : RuntimeDeps} {serde : Serde} {ed25519 : Ed25519} (cfg : RuntimeConfig).

(** ** Paths *)

Definition bundle_root (sha256 : string) : string :=
  rc_boot_assets_dir cfg +:+ "/netboot/" +:+ sha256.
Definition session_root (id : string) : string := rc_data_dir cfg +:+ "/netboot/sessions/" +:+ id.
Definition context_file (id : string) : string := session_root id +:+ "/context.cpio".
Definition path_eq (a b : string) : bool := bool_decide (components a = components b).

Definition tree_at (w : RuntimeWorld) (sha256 : string) : Tree := default NoTree (rw_trees w !! sha256).
Definition is_dir (t : Tree) : bool := match t with DirTree _ => true | _ => false end.

(** ** The runtime row *)

(** The statements that take over a desired state, with no bytes downloaded. *)
Definition with_desired (epoch : Z) (json sha256 : string) (generation : Z) (status : string)
    (total : Z) (kind message : string) (r : RuntimeRow) : RuntimeRow := {|
  rr_epoch := epoch; rr_descriptor_json := json; rr_descriptor_sha256 := sha256;
  rr_generation := generation; rr_state := status; rr_progress := 0; rr_bytes := 0;
  rr_total := total; rr_failure_kind := kind; rr_failure_message := message;
  rr_active := rr_active r; rr_previous := rr_previous r; rr_last_verified := rr_last_verified r |}.

Definition with_progress (status : string) (progress bytes total : Z) (r : RuntimeRow) : RuntimeRow := {|
  rr_epoch := rr_epoch r; rr_descriptor_json := rr_descriptor_json r;
  rr_descriptor_sha256 := rr_descriptor_sha256 r; rr_generation := rr_generation r;
  rr_state := status; rr_progress := progress; rr_bytes := bytes; rr_total := total;
  rr_failure_kind := rr_failure_kind r; rr_failure_message := rr_failure_message r;
  rr_active := rr_active r; rr_previous := rr_previous r; rr_last_verified := rr_last_verified r |}.

Definition with_failure (status kind message : string) (progress : Z) (active previous : string)
    (r : RuntimeRow) : RuntimeRow := {|
  rr_epoch := rr_epoch r; rr_descriptor_json := rr_descriptor_json r;
  rr_descriptor_sha256 := rr_descriptor_sha256 r; rr_generation := rr_generation r;
  rr_state := status; rr_progress := progress; rr_bytes := rr_bytes r; rr_total := rr_total r;
  rr_failure_kind := kind; rr_failure_message := message;
  rr_active := active; rr_previous := previous; rr_last_verified := rr_last_verified r |}.

Definition with_last_verified (stamp : Stamp) (r : RuntimeRow) : RuntimeRow := {|
  rr_epoch := rr_epoch r; rr_descriptor_json := rr_descriptor_json r;
  rr_descriptor_sha256 := rr_descriptor_sha256 r; rr_generation := rr_generation r;
  rr_state := rr_state r; rr_progress := rr_progress r; rr_bytes := rr_bytes r; rr_total := rr_total r;
  rr_failure_kind := rr_failure_kind r; rr_failure_message := rr_failure_message r;
  rr_active := rr_active r; rr_previous := rr_previous r; rr_last_verified := Some stamp |}.

Definition set_runtime_state (status : string) (progress downloaded total : Z)
    : rtask (result Failure unit) :=
  update (λ _ w, set_runtime (with_progress status (clamp 0 100 progress) (Z.min downloaded i64_max)
                                (Z.min total i64_max) (rw_runtime w)) w).

Definition record_failure_for_attempt (epoch generation : Z) (descriptor_sha256 kind message : string)
    : rtask (result Failure unit) :=
  update (λ _ w,
    let r := rw_runtime w in
    if (rr_epoch r =? epoch) && bool_decide (rr_descriptor_sha256 r = descriptor_sha256)
       && (rr_generation r =? generation)
    then set_runtime (with_failure "failed" kind message (rr_progress r) (rr_active r)
                        (rr_previous r) r) w
    else w).

(** ** Retries *)

Definition attempt_due (now : Z) (row : option AttemptRow) : bool :=
  match row with
  | None => true
  | Some a => if ar_terminal a then false
              else match ar_next a with None => true | Some at_ => at_ <=? now end
  end.

Definition reconcile_attempt_is_due (epoch generation : Z) (identity : string)
    : rtask (result Failure bool) :=
  select (λ _ w, attempt_due (seconds w) (rw_attempts w !! (epoch, generation, identity))).

Definition retry_delay (count : Z) : Z :=
  Z.min RECONCILE_RETRY_MAX_SECONDS (RECONCILE_RETRY_BASE_SECONDS * 2 ^ Z.min count 6).

Definition next_rowid (rows : gmap AttemptKey AttemptRow) : Z :=
  1 + foldr Z.max 0 (ar_rowid ∘ snd <$> map_to_list rows).

Definition attempt_row (now : Z) (kind : string) (rowid : Z) (old : option AttemptRow) : AttemptRow :=
  let terminal := bool_decide (kind = FAILURE_INVALID_DESCRIPTOR) in
  match old with
  | None => {|
      ar_failure_kind := kind; ar_count := 1; ar_terminal := terminal;
      ar_next := if terminal then None else Some (now + RECONCILE_RETRY_BASE_SECONDS);
      ar_updated := now; ar_rowid := rowid |}
  | Some a => {|
      ar_failure_kind := kind; ar_count := ar_count a + 1; ar_terminal := terminal;
      ar_next := if terminal then None else Some (now + retry_delay (ar_count a));
      ar_updated := now; ar_rowid := ar_rowid a |}
  end.

(** [ORDER BY updated_at DESC, rowid DESC]. *)
Definition newer (a b : AttemptKey * AttemptRow) : Prop :=
  ar_updated b.2 < ar_updated a.2 ∨ (ar_updated a.2 = ar_updated b.2 ∧ ar_rowid b.2 ≤ ar_rowid a.2).
#[global] Instance newer_dec a b : base.Decision (newer a b).
Proof. unfold newer. apply _. Defined.

Definition newest_attempts (rows : gmap AttemptKey AttemptRow) : gmap AttemptKey AttemptRow :=
  list_to_map (take MAX_RECONCILE_ATTEMPT_ROWS (merge_sort newer (map_to_list rows))).

Definition attempt_allowed (epoch generation : Z) (identity : string) : bool :=
  (0 <? epoch) && (0 <=? generation) && (len identity =? 64).

Definition record_reconcile_attempt (epoch generation : Z) (identity kind : string)
    : rtask (result Failure unit) :=
  stmt (λ _ w,
    if negb (attempt_allowed epoch generation identity) then (Err database_failure, w) else
    let key := (epoch, generation, identity) in
    (Ok tt, set_attempts (<[key := attempt_row (seconds w) kind (next_rowid (rw_attempts w))
                                     (rw_attempts w !! key)]> (rw_attempts w)) w)) ;;?
  update (λ _ w, set_attempts (newest_attempts (rw_attempts w)) w).

Definition clear_reconcile_attempt (epoch generation : Z) (identity : string)
    : rtask (result Failure unit) :=
  update (λ _ w, set_attempts (delete (epoch, generation, identity) (rw_attempts w)) w).

(** ** Admission and promotion *)

Definition key_fingerprint : result Failure string :=
  key ≔ some_or "decode workstation netboot trust key" (base64_decode (trim (rc_trusted_public_key cfg))) ?;
  Ok (sha256_bytes (text_of_bytes key)).

Definition admit_reconcile_identity (d : WorkstationNetbootDescriptor) (descriptor_sha256 : string)
    (epoch generation : Z) : rtask (result Failure unit) :=
  fingerprint ←? lift key_fingerprint;
  stmt (λ _ w,
    let stored := rw_generations w !! epoch in
    let checked :=
      _ ≔ validate_reconcile_generation_precedence stored generation descriptor_sha256 ?;
      match rw_watermarks w !! (epoch, fingerprint, wd_architecture d) with
      | Some (accepted_version, accepted_descriptor) =>
          enforce_watermark_precedence accepted_version accepted_descriptor
            (wd_runtime_version d) descriptor_sha256
      | None => Ok tt
      end in
    match checked with
    | Err e => (Err e, w)
    | Ok _ =>
        (Ok tt,
         if match stored with Some (g, _) => g <? generation | None => true end
         then set_generations (<[epoch := (generation, descriptor_sha256)]> (rw_generations w)) w
         else w)
    end).

Definition verified_at_epoch (epoch : Z) (row : option BundleRow) : option BundleRow :=
  match row with
  | Some b => if bn_verified b && (bn_epoch b =? epoch) then Some b else None
  | None => None
  end.

Definition candidate_root (epoch : Z) (row : option BundleRow) : option string :=
  option_map bn_root_path (verified_at_epoch epoch row).

Definition set_retained (until : option Z) (b : BundleRow) : BundleRow := {|
  bn_epoch := bn_epoch b; bn_runtime_version := bn_runtime_version b;
  bn_descriptor_json := bn_descriptor_json b; bn_root_path := bn_root_path b;
  bn_verified := bn_verified b; bn_verified_at := bn_verified_at b;
  bn_last_scrubbed := bn_last_scrubbed b; bn_retained_until := until |}.

Definition retain_verified (until : option Z) (b : BundleRow) : BundleRow :=
  if bn_verified b then set_retained until b else b.

Definition retained_until (w : RuntimeWorld) : Z := seconds w + BUNDLE_RETENTION_SECONDS.

Definition promoted_bundles (sha256 : string) (w : RuntimeWorld) : gmap string BundleRow :=
  let old := rr_active (rw_runtime w) in
  let demoted :=
    if negb (is_empty old) && negb (bool_decide (old = sha256))
    then alter (retain_verified (Some (retained_until w))) old (rw_bundles w)
    else rw_bundles w in
  alter (retain_verified None) sha256 demoted.

Definition promoted_row (d : WorkstationNetbootDescriptor) (json descriptor_sha256 : string)
    (epoch generation : Z) (w : RuntimeWorld) : RuntimeRow :=
  let r := rw_runtime w in
  let size := Z.min (wd_size_bytes d) i64_max in {|
  rr_epoch := epoch; rr_descriptor_json := json; rr_descriptor_sha256 := descriptor_sha256;
  rr_generation := generation; rr_state := "ready"; rr_progress := 100; rr_bytes := size;
  rr_total := size; rr_failure_kind := ""; rr_failure_message := "";
  rr_active := wd_sha256 d;
  rr_previous := if negb (is_empty (rr_active r)) && negb (bool_decide (rr_active r = wd_sha256 d))
                 then rr_active r else rr_previous r;
  rr_last_verified := Some (AtMicros (rw_clock w)) |}.

Definition promote_existing (d : WorkstationNetbootDescriptor) (json descriptor_sha256 : string)
    (epoch generation : Z) : rtask (result Failure unit) :=
  fingerprint ←? lift key_fingerprint;
  candidate ←? select (λ _ w, candidate_root epoch (rw_bundles w !! wd_sha256 d));
  root_path ←? lift (some_or "workstation netboot candidate is not a verified local bundle" candidate);
  act (λ _ w, (require (path_eq root_path (bundle_root (wd_sha256 d)) && is_dir (tree_at w (wd_sha256 d)))
                 "workstation netboot verified bundle path is inconsistent", w)) ;;?
  stmt (λ _ w,
    if negb (bool_decide (rw_generations w !! epoch = Some (generation, descriptor_sha256)))
    then (bail "workstation netboot promotion lost its accepted reconcile identity", w)
    else if negb (bool_decide (candidate_root epoch (rw_bundles w !! wd_sha256 d)
                               = Some root_path))
    then (bail "workstation netboot candidate changed before its causal promotion", w)
    else
      (Ok tt,
       set_runtime (promoted_row d json descriptor_sha256 epoch generation w)
         (set_watermarks (<[(epoch, fingerprint, wd_architecture d)
                              := (wd_runtime_version d, descriptor_sha256)]> (rw_watermarks w))
            (set_bundles (promoted_bundles (wd_sha256 d) w) w)))).

(** ** Import *)

(** [DownloadProgressCheckpoint]. *)
Record Checkpoint := { ck_percent : Z; ck_bytes : Z; ck_at : Z }.

Definition new_checkpoint (now : Z) : Checkpoint := {| ck_percent := 1; ck_bytes := 0; ck_at := now |}.

Definition progress_due (c : Checkpoint) (percent bytes now : Z) (force : bool) : bool :=
  force || ((ck_bytes c <? bytes)
            && ((ck_percent c <? percent) || (DOWNLOAD_PROGRESS_MAX_INTERVAL <=? sat_sub now (ck_at c)))).

Definition clock_now : rtask (result Failure Z) := act (λ _ w, (Ok (rw_clock w), w)).

Definition persist_download_progress (c : Checkpoint) (downloaded total : Z) (force : bool)
    : rtask (result Failure Checkpoint) :=
  now ←? clock_now;
  let progress := download_progress_percent downloaded total in
  if negb (progress_due c progress downloaded now force) then lift (Ok c) else
  set_runtime_state "downloading" progress downloaded total ;;?
  now ←? clock_now;
  lift (Ok {| ck_percent := progress; ck_bytes := downloaded; ck_at := now |}).

Definition append_part (name body : string) (w : RuntimeWorld) : RuntimeWorld :=
  set_parts (<[name := default "" (rw_parts w !! name) +:+ body]> (rw_parts w)) w.

(** The loop over the chunks of the answer. *)
Fixpoint download_chunks (name : string) (total : Z) (chunks : list (option string))
    (downloaded : Z) (c : Checkpoint) : rtask (result Failure (Z * Checkpoint)) :=
  match chunks with
  | [] => lift (Ok (downloaded, c))
  | None :: _ => lift (bail "read workstation netboot body")
  | Some chunk :: chunks =>
      if u64_max <? downloaded + len chunk
      then lift (bail "workstation netboot download size overflow") else
      let downloaded := downloaded + len chunk in
      if total <? downloaded
      then lift (bail "workstation netboot download exceeded its signed size") else
      files (λ _ w, (Ok tt, append_part name chunk w)) ;;?
      c ←? persist_download_progress c downloaded total false;
      download_chunks name total chunks downloaded c
  end.

Definition download_answer (d : WorkstationNetbootDescriptor) (offset : Z) (response : HttpResponse)
    : result Failure unit :=
  let size := wd_size_bytes d in
  _ ≔ require (hr_status response =? (if 0 <? offset then 206 else 200))
        "workstation netboot download returned an unexpected HTTP status" ?;
  _ ≔ require (bool_decide (hr_content_length response = Some (size - offset)))
        "workstation netboot download length did not match the signed descriptor" ?;
  require ((offset <=? 0)
           || bool_decide (hr_content_range response
                = Some ("bytes " +:+ show offset +:+ "-" +:+ show (size - 1) +:+ "/" +:+ show size)))
    "workstation netboot resume response had an invalid Content-Range".

Definition restart_from_zero (d : WorkstationNetbootDescriptor) (offset : Z) (response : HttpResponse)
    : bool :=
  (0 <? offset) && (hr_status response =? 200)
  && bool_decide (hr_content_length response = Some (wd_size_bytes d)).

(** The size of the part that is there, after one that is too long is removed. *)
Definition resume_offset (name : string) (d : WorkstationNetbootDescriptor)
    : rtask (result Failure Z) :=
  files (λ i w,
    match rw_parts w !! name with
    | None => (Ok 0, w)
    | Some body =>
        if ri_part_unsafe i
        then (bail "workstation netboot partial path is not a regular file", w)
        else if wd_size_bytes d <? len body
        then (Ok 0, set_parts (delete name (rw_parts w)) w)
        else (Ok (len body), w)
    end).

(** [transport::get] and [send_release_request], with the first header check. *)
Definition request (d : WorkstationNetbootDescriptor) (transport : option string)
    : rtask (result Failure HttpResponse) :=
  (match transport with Some value => lift (validate_url value d) | None => lift (Ok tt) end) ;;?
  act (λ i w, (ri_response i, w)).

Definition download_bundle (d : WorkstationNetbootDescriptor) (name : string)
    (transport : option string) : rtask (result Failure unit) :=
  let size := wd_size_bytes d in
  lift (match transport with
        | Some value => _ ≔ validate_descriptor d (rc_trusted_public_key cfg) ?; validate_url value d
        | None => Ok tt
        end) ;;?
  now ←? clock_now;
  let c := new_checkpoint now in
  offset ←? resume_offset name d;
  if offset =? size then
    persist_download_progress c offset size true ;;? lift (Ok tt)
  else
    c ←? (if 0 <? offset then persist_download_progress c offset size true else lift (Ok c));
    response ←? request d transport;
    let restart := restart_from_zero d offset response in
    c ←? (if restart then persist_download_progress c 0 size true else lift (Ok c));
    let offset := if restart then 0 else offset in
    lift (download_answer d offset response) ;;?
    files (λ _ w, (Ok tt, if offset =? 0 then set_parts (<[name := ""]> (rw_parts w)) w
                          else append_part name "" w)) ;;?
    got ←? download_chunks name size (hr_chunks response) offset c;
    let '(downloaded, c) := got in
    files (λ _ w, (Ok tt, w)) ;;?
    lift (require (downloaded =? size) "workstation netboot download was truncated") ;;?
    persist_download_progress c downloaded size true ;;? lift (Ok tt).

Definition PART_SUFFIX : string := ".tar.zst.part".

Definition partial_name (d : WorkstationNetbootDescriptor) (transport : option string) : string :=
  wd_sha256 d +:+ "." +:+ attempt_identity (descriptor_digest d) transport +:+ PART_SUFFIX.

(** The partial downloads of this bundle. *)
Definition owned_part (d : WorkstationNetbootDescriptor) (name : string) : bool :=
  bool_decide (name = wd_sha256 d +:+ PART_SUFFIX)
  || match strip_prefix (wd_sha256 d +:+ ".") name ≫= strip_suffix PART_SUFFIX with
     | Some identity => lower_hex 64 identity
     | None => false
     end.

Definition discard_other_partials (d : WorkstationNetbootDescriptor) (current : string)
    : rtask (result Failure unit) :=
  files (λ i w,
    let others := filter (λ e, e.1 ≠ current ∧ owned_part d e.1 = true) (rw_parts w) in
    if ri_part_unsafe i && negb (bool_decide (others = ∅))
    then (bail "workstation netboot partial path is not a regular file", w)
    else (Ok tt, set_parts (filter (λ e, ¬ (e.1 ≠ current ∧ owned_part d e.1 = true)) (rw_parts w)) w)).

(** [crate::maintenance::lease_active()]. *)
Definition lease_active : rtask (result Failure bool) := act (λ i w, (ri_lease i, w)).

(** The verified stage replaces what is at its place, unless that verifies: that is moved to the
    quarantine, then the stage is renamed to its place, and the directory is synced.  Each step can
    fail and leaves what the ones before it have done. *)
Definition publish_verified_stage (stage : Tree) (d : WorkstationNetbootDescriptor)
    : rtask (result Failure unit) :=
  present ←? files (λ _ w,
    if is_ok (verify_extracted_tree (tree_at w (wd_sha256 d)) d) then (Ok true, w)
    else (Ok false, set_trees (delete (wd_sha256 d) (rw_trees w)) w));
  if (present : bool) then files (λ _ w, (Ok tt, w)) else
  files (λ _ w, match rw_trees w !! wd_sha256 d with
                | Some _ => (bail "atomically publish workstation netboot", w)
                | None => (Ok tt, set_trees (<[wd_sha256 d := stage]> (rw_trees w)) w)
                end) ;;?
  files (λ _ w, (Ok tt, w)).

Definition insert_bundle (d : WorkstationNetbootDescriptor) (epoch : Z) (w : RuntimeWorld)
    : RuntimeWorld :=
  let fresh version_ := {|
    bn_epoch := epoch; bn_runtime_version := version_;
    bn_descriptor_json := descriptor_to_string d; bn_root_path := bundle_root (wd_sha256 d);
    bn_verified := true; bn_verified_at := seconds w;
    bn_last_scrubbed := Some (AtSecs (seconds w)); bn_retained_until := Some (retained_until w) |} in
  match rw_bundles w !! wd_sha256 d with
  | None => set_bundles (<[wd_sha256 d := fresh (wd_runtime_version d)]> (rw_bundles w)) w
  | Some b => if bn_epoch b =? epoch
              then set_bundles (<[wd_sha256 d := fresh (bn_runtime_version b)]> (rw_bundles w)) w
              else w
  end.

Definition remove_part (name : string) : rtask (result Failure unit) :=
  act (λ i w, (Ok tt, match ri_io i with
                      | Some _ => w
                      | None => set_parts (delete name (rw_parts w)) w
                      end)).

(** Hashing the part, and the blocking extraction of it. *)
Definition hash_part (name : string) : rtask (result Failure string) :=
  files (λ _ w, (match rw_parts w !! name with
                 | Some body => Ok (sha256_bytes body)
                 | None => io_error
                 end, w)).

Definition extract_part (name : string) (d : WorkstationNetbootDescriptor)
    : rtask (result Failure Tree) :=
  files (λ _ w, (match rw_parts w !! name with
                 | Some body => extract_and_verify (archive_entries body) d
                 | None => io_error
                 end, w)).

Definition import_bundle (d : WorkstationNetbootDescriptor) (epoch : Z) (transport : option string)
    : rtask (result Failure bool) :=
  let size := wd_size_bytes d in
  existing ←? select (λ _ w, option_map bn_epoch (rw_bundles w !! wd_sha256 d));
  lift (match existing with
        | Some stored =>
            if stored =? epoch then Ok tt
            else coded_runtime_failure FAILURE_INVALID_DESCRIPTOR
              "workstation netboot bundle identity was already verified under another compatibility epoch"
        | None => Ok tt
        end) ;;?
  expanded ←? lift (expected_expanded_runtime_bytes d);
  act (λ i w, (ri_space i, w)) ;;?
  set_runtime_state "downloading" 1 0 size ;;?
  let part := partial_name d transport in
  discard_other_partials d part ;;?
  download_bundle d part transport ;;?
  set_runtime_state "verifying" 70 size size ;;?
  actual ←? hash_part part;
  if negb (bool_decide (actual = wd_sha256 d)) then
    remove_part part ;;? lift (bail "workstation netboot bundle SHA-256 mismatch")
  else
  set_runtime_state "extracting" 80 size size ;;?
  held ←? lease_active;
  if held : bool then set_runtime_state "held" 80 size size ;;? lift (Ok false) else
  extraction ← extract_part part d;
  match extraction with
  | Err e => remove_part part ;;? lift (Err e)
  | Ok stage =>
      held ←? lease_active;
      if held : bool then
        files (λ _ w, (Ok tt, w)) ;;?
        set_runtime_state "held" 90 size size ;;? lift (Ok false)
      else
      publish_verified_stage stage d ;;?
      remove_part part ;;?
      update (λ _ w, insert_bundle d epoch w) ;;?
      lift (Ok true)
  end.

(** ** Reconciliation *)

Definition already_ready (d : WorkstationNetbootDescriptor) (descriptor_sha256 : string)
    (epoch generation : Z) (w : RuntimeWorld) : bool :=
  let r := rw_runtime w in
  match rw_bundles w !! rr_active r with
  | Some b => (rr_epoch r =? epoch) && bool_decide (rr_descriptor_sha256 r = descriptor_sha256)
              && (rr_generation r =? generation) && bool_decide (rr_state r = "ready")
              && bool_decide (rr_active r = wd_sha256 d) && (bn_epoch b =? epoch)
  | None => false
  end.

Definition reconcile_desired_inner (desired : DesiredWorkstationNetboot) : rtask (result Failure unit) :=
  let d := dw_descriptor desired in
  let epoch := dw_compatibility_epoch desired in
  let generation := dw_reconcile_generation desired in
  lift (validate_compatibility_epoch epoch) ;;?
  lift (require (0 <=? generation) "workstation netboot reconcile generation must not be negative") ;;?
  lift (validate_desired desired (rc_trusted_public_key cfg) (rc_allow_private cfg)) ;;?
  let allow_private := negb (is_some (dw_bundle_transport_url desired)) && rc_allow_private cfg
    && negb (bool_decide (rc_manage_source_template cfg = MANAGE_SOURCE_URL_TEMPLATE)) in
  act (λ i w, (require (ri_manage_source i (rc_manage_source_template cfg)
                          (wd_manage_source_revision d) allow_private)
                 "verify packaged Tiaris source for workstation runtime", w)) ;;?
  let json := descriptor_to_string d in
  let descriptor_sha256 := sha256_bytes json in
  admit_reconcile_identity d descriptor_sha256 epoch generation ;;?
  ready ←? select (λ _ w, already_ready d descriptor_sha256 epoch generation w);
  if ready : bool then lift (Ok tt) else
  update (λ _ w, set_runtime (with_desired epoch json descriptor_sha256 generation "queued"
                                (Z.min (wd_size_bytes d) i64_max) "" "" (rw_runtime w)) w) ;;?
  held ←? lease_active;
  if held : bool then set_runtime_state "held" 0 0 (wd_size_bytes d) else
  existing ←? select (λ _ w, is_some (verified_at_epoch epoch (rw_bundles w !! wd_sha256 d)));
  if existing : bool then promote_existing d json descriptor_sha256 epoch generation else
  imported ←? import_bundle d epoch (dw_bundle_transport_url desired);
  if negb imported then lift (Ok tt) else
  promote_existing d json descriptor_sha256 epoch generation.

Definition reconcile_desired (desired : DesiredWorkstationNetboot) : rtask (result Failure unit) :=
  let epoch := dw_compatibility_epoch desired in
  let generation := dw_reconcile_generation desired in
  let descriptor_sha256 := descriptor_digest (dw_descriptor desired) in
  let identity := attempt_identity descriptor_sha256 (dw_bundle_transport_url desired) in
  is_due ←? reconcile_attempt_is_due epoch generation identity;
  if negb is_due then lift (Ok tt) else
  outcome ← reconcile_desired_inner desired;
  match outcome with
  | Err error =>
      let kind := classify_failure error in
      _ ← record_reconcile_attempt epoch generation identity kind;
      _ ← record_failure_for_attempt epoch generation descriptor_sha256 kind (safe_failure_message error);
      lift outcome
  | Ok _ =>
      _ ← clear_reconcile_attempt epoch generation identity;
      lift outcome
  end.

(** [Value::as_u64], [Value::as_i64]. *)
Definition as_u64 (v : Value) : option Z :=
  match v with Num (PosInt n) => Some n | _ => None end.
Definition as_i64 (v : Value) : option Z :=
  match v with
  | Num (PosInt n) => if n <=? i64_max then Some n else None
  | Num (NegInt n) => Some n
  | _ => None
  end.

Definition parsed_epoch (value : Value) : option Z :=
  match get "compatibility_epoch" value with
  | None => Some default_compatibility_epoch
  | Some v => match as_u64 v with
              | Some n => if in_range 1 u32_max n then Some n else None
              | None => None
              end
  end.

Definition desired_generation (value : Value) : option Z :=
  match get "reconcile_generation" value with
  | Some v => match as_i64 v with Some n => if 0 <=? n then Some n else None | None => None end
  | None => None
  end.

(** A statement on the runtime row, whose epoch must be positive. *)
Definition record_decode_failure (epoch : Z) (json sha256 : string) (generation : option Z)
    (total : Z) (kind message : string) : rtask (result Failure unit) :=
  stmt (λ _ w,
    if epoch <=? 0 then (Err database_failure, w) else
    (Ok tt, set_runtime (with_desired epoch json sha256
              (default (rr_generation (rw_runtime w)) generation) "failed" total kind message
              (rw_runtime w)) w)).

(** The row of a desired state that cannot be decoded: its identity is kept when
    the descriptor is still a valid one. *)
Definition record_desired_state (value : Value) (kind message : string) : rtask (result Failure unit) :=
  let cleared := record_decode_failure (default default_compatibility_epoch (parsed_epoch value))
    "" "" (desired_generation value) 0 kind message in
  match desired_from_value value with
  | Ok desired =>
      if (0 <=? dw_reconcile_generation desired)
         && is_ok (validate_desired desired (rc_trusted_public_key cfg) (rc_allow_private cfg))
      then record_decode_failure (dw_compatibility_epoch desired)
             (descriptor_to_string (dw_descriptor desired)) (descriptor_digest (dw_descriptor desired))
             (Some (dw_reconcile_generation desired))
             (Z.min (wd_size_bytes (dw_descriptor desired)) i64_max) kind message
      else cleared
  | Err _ => cleared
  end.

Definition record_desired_decode_failure (value : Value) (kind message : string)
    : rtask (result Failure unit) :=
  match parsed_epoch value, desired_generation value, get "descriptor" value with
  | Some epoch, Some generation, Some raw =>
      let identity := raw_attempt_identity (sha256_bytes (to_string raw))
                        (get "bundle_transport_url" value) in
      is_due ←? reconcile_attempt_is_due epoch generation identity;
      if negb is_due then lift (Ok tt) else
      record_reconcile_attempt epoch generation identity kind ;;?
      if bool_decide (kind = FAILURE_INVALID_DESCRIPTOR) then lift (Ok tt) else
      record_desired_state value kind message
  | _, _, _ => record_desired_state value kind message
  end.

End Store.
