(* ===== verification/RuntimeSessions.v ===== *)
(** * The workstation runtime: boot sessions and maintenance

    The rest of [src/netboot.rs]: boot sessions and the grant they carry, what is
    served and until when, the report, and the hourly maintenance that removes
    sessions, scrubs bundles, quarantines those that fail and prunes those that are
    no longer wanted. *)

From stdpp Require Import sorting base gmap list strings.
From Stdlib Require Import Ascii ZArith Lia.
From S2P Require Import Prelude Async RustStr RustText Json DbText Net NixBase32 NarInfo Multicast Boot BootStore Runtime RuntimeStore.

#[local] Open Scope Z_scope.
#[local] Open Scope nest_scope.

Section Sessions.
Context {deps : RuntimeDeps} {serde : Serde} {ed25519 : Ed25519} (cfg : RuntimeConfig).

(** ** Boot sessions *)

Record SessionRequest := {
  sq_mac : string;
  sq_profile_id : option string;
  sq_managed_device_id : option string;
  sq_reinstall_request_id : option string;
}.

Definition optional_uuid (label : string) (value : option string) : result Failure unit :=
  match value with
  | Some v => require (uuid_parses v) ("boot session " +:+ label +:+ " identity is invalid")
  | None => Ok tt
  end.

Definition check_session_request (q : SessionRequest) : result Failure unit :=
  _ ≔ require (is_ok (normalize_mac (sq_mac q))) "boot session MAC is invalid" ?;
  _ ≔ optional_uuid "profile" (sq_profile_id q) ?;
  _ ≔ optional_uuid "reinstall request" (sq_reinstall_request_id q) ?;
  _ ≔ require (match sq_managed_device_id q with
               | Some v => is_safe_control_plane_id v
               | None => true
               end) "boot session managed device identity is invalid" ?;
  _ ≔ require (uuid_parses (rc_organization_id cfg)) "boot session organization identity is invalid" ?;
  validate_organization_slug (rc_organization_slug cfg).

(** The verified active bundle of this epoch. *)
Definition active_bundle (w : RuntimeWorld) : option (string * BundleRow) :=
  let sha256 := rr_active (rw_runtime w) in
  match verified_at_epoch COMPATIBILITY_EPOCH (rw_bundles w !! sha256) with
  | Some b => Some (sha256, b)
  | None => None
  end.

(** The manifest of a stored bundle; a path elsewhere is read from there. *)
Definition read_manifest (i : RuntimeInput) (w : RuntimeWorld) (sha256 root_path : string)
    : result Failure string :=
  context "read active workstation netboot manifest"
    (if path_eq root_path (bundle_root cfg sha256)
     then match tree_at w sha256 with
          | DirTree entries => read_file entries "manifest.json"
          | _ => io_error
          end
     else some_or "elsewhere" (ri_elsewhere i)).

Definition grant_claims (q : SessionRequest) (device_id sha256 : string) (issued_at : Z)
    (nonce : string) : BootGrantClaims := {|
  bg_nest_device_id := device_id; bg_organization_id := rc_organization_id cfg;
  bg_organization_slug := rc_organization_slug cfg; bg_manage_api_url := rc_api_url cfg;
  bg_bundle_sha256 := sha256; bg_profile_id := sq_profile_id q; bg_mac := sq_mac q;
  bg_managed_device_id := sq_managed_device_id q;
  bg_reinstall_request_id := sq_reinstall_request_id q; bg_issued_at := issued_at;
  bg_expires_at := issued_at + BOOT_GRANT_LIFETIME_SECONDS; bg_nonce := nonce |}.

Definition boot_context (claims : BootGrantClaims) (signing_key : list Z) : BootContext := {|
  bx_api_url := bg_manage_api_url claims; bx_organization_slug := bg_organization_slug claims;
  bx_bundle_sha256 := bg_bundle_sha256 claims; bx_profile_id := bg_profile_id claims;
  bx_claims := claims; bx_signature := base64url (sign signing_key (boot_grant_message claims)) |}.

Definition session_row (q : SessionRequest) (id sha256 nonce : string) (nonce_bytes : list Z)
    (issued_at : Z) : SessionRow := {|
  sn_nonce_sha256 := sha256_bytes (text_of_bytes nonce_bytes);
  sn_join_token_sha256 := sha256_bytes (sha256_bytes (JOIN_SCHEMA +:+ nl +:+ nonce));
  sn_mac := sq_mac q; sn_profile_id := sq_profile_id q;
  sn_managed_device_id := sq_managed_device_id q;
  sn_reinstall_request_id := sq_reinstall_request_id q; sn_bundle := sha256;
  sn_context_path := context_file cfg id; sn_issued_at := issued_at;
  sn_expires_at := issued_at + BOOT_GRANT_LIFETIME_SECONDS;
  sn_cleanup_after := issued_at + BOOT_SESSION_RETENTION_SECONDS |}.

Definition launch (id sha256 template : string) (expires_at : Z) : BootSessionLaunch :=
  let asset name := rc_public_base_url cfg +:+ "/netboot/" +:+ sha256 +:+ "/" +:+ name in {|
  bl_schema := "tiaris.nest.kexec.v1"; bl_bundle_sha256 := sha256; bl_kernel_url := asset "bzImage"; bl_initrd_url := asset "initrd";
  bl_context_url := rc_public_base_url cfg +:+ "/boot-session/" +:+ id +:+ "/context.cpio";
  bl_squashfs_url := asset "nix-store.squashfs";
  bl_command_line := replace SQUASHFS_SLOT (asset "nix-store.squashfs") template;
  bl_expires_at := expires_at |}.

(** What is decided from the query of the active bundle to the [await] of the
    insertion, in one action with that query: the session, its row, its context and
    the launch.  In the code the answer of the query is awaited first, and time may
    pass before the clock is read; here it is read with the answer. *)
Definition prepare_session (q : SessionRequest) (i : RuntimeInput) (w : RuntimeWorld)
    : result Failure (string * SessionRow * string * BootSessionLaunch) :=
  active ≔ some_or "workstation netboot runtime has no verified active bundle" (active_bundle w) ?;
  let '(sha256, row) := active in
  d ≔ some_or "parse active netboot descriptor" (descriptor_from_str (bn_descriptor_json row)) ?;
  _ ≔ require (bool_decide (wd_sha256 d = sha256))
        "active workstation netboot identity is inconsistent" ?;
  body ≔ read_manifest i w sha256 (bn_root_path row) ?;
  _ ≔ require (bool_decide (sha256_bytes body = wd_manifest_sha256 d))
        "active workstation netboot manifest failed its identity check" ?;
  manifest ≔ parse_canonical_manifest body ?;
  _ ≔ validate_manifest manifest d ?;
  identity ≔ ri_identity i ?;
  _ ≔ require (is_safe_control_plane_id identity.1) "adopted Nest device identity is invalid" ?;
  let issued_at := seconds w in
  let nonce_bytes := fill_bytes 32 (ri_nonce i) in
  let session_bytes := fill_bytes 16 (ri_session i) in
  let nonce := base64url nonce_bytes in
  let id := base64url session_bytes in
  let claims := grant_claims q identity.1 sha256 issued_at nonce in
  let body := context_to_vec (boot_context claims identity.2) in
  archive ≔ newc_context_archive body issued_at ?;
  _ ≔ require (len archive <=? BOOT_CONTEXT_MAX_BYTES) "Nest boot context archive exceeded 64 KiB" ?;
  Ok (id, session_row q id sha256 nonce nonce_bytes issued_at, body,
      launch id sha256 (wm_kernel_cmdline_template manifest) (bg_expires_at claims)).

Definition write_context (id body : string) (i : RuntimeInput) (w : RuntimeWorld)
    : result Failure unit * RuntimeWorld :=
  match ri_io i, rw_contexts w !! id with
  | None, None => (Ok tt, set_contexts (<[id := body]> (rw_contexts w)) w)
  | _, _ => (bail "create Nest boot session directory", w)
  end.

(** The keys of [nest_boot_sessions]: the session and the nonce. *)
Definition session_fits (id : string) (row : SessionRow) (w : RuntimeWorld) : bool :=
  negb (is_some (rw_sessions w !! id))
  && forallb (λ e : string * SessionRow, negb (bool_decide (sn_nonce_sha256 e.2 = sn_nonce_sha256 row)))
       (map_to_list (rw_sessions w)).

Definition create_boot_session (q : SessionRequest) : rtask (result Failure BootSessionLaunch) :=
  lift (check_session_request q) ;;?
  prepared ←? stmt (λ i w,
    match prepare_session q i w with
    | Err e => (Err e, w)
    | Ok (id, row, body, l) =>
        let '(written, w) := write_context id body i w in
        (match written with Ok _ => Ok (id, row, l) | Err e => Err e end, w)
    end);
  let '(id, row, l) := prepared in
  inserted ← stmt (λ _ w,
    if session_fits id row w
    then (Ok tt, set_sessions (<[id := row]> (rw_sessions w)) w)
    else (Err database_failure, w));
  match inserted with
  | Err e =>
      act (λ i w, (Ok tt, match ri_io i with
                          | Some _ => w
                          | None => set_contexts (delete id (rw_contexts w)) w
                          end)) ;;? lift (Err e)
  | Ok _ => files (λ _ w, (Ok tt, w)) ;;? lift (Ok l)
  end.

(** ** Serving *)

Record Served := { sv_content_type : string; sv_cache_control : option string;
                   sv_etag : option string; sv_body : string }.

Definition or_sqlx {A} (r : result Failure A) : AppResult A :=
  match r with Ok a => Ok a | Err _ => Err Sqlx end.

Definition serve_context (id : string) : rtask (AppResult Served) :=
  if negb (valid_session_id id) then Ret (Err NotFound) else
  row ← select (λ _ w, option_map (λ s, (sn_context_path s, sn_expires_at s)) (rw_sessions w !! id));
  match row with
  | Err _ => Ret (Err Sqlx)
  | Ok None => Ret (Err NotFound)
  | Ok (Some (path, expires_at)) =>
      served ← act (λ _ w,
        (Ok (if expires_at <? seconds w then Err NotFound
             else if negb (path_eq path (context_file cfg id)) then Err NotFound
             else match rw_contexts w !! id with
                  | Some body => Ok {| sv_content_type := "application/vnd.tiaris.boot-context";
                                       sv_cache_control := Some "no-store, max-age=0";
                                       sv_etag := None; sv_body := body |}
                  | None => Err NotFound
                  end), w));
      Ret (match served with Ok r => r | Err _ => Err Io end)
  end.

Definition live_session (sha256 : string) (now : Z) (w : RuntimeWorld) : bool :=
  existsb (λ e : string * SessionRow, bool_decide (sn_bundle e.2 = sha256) && (now <=? sn_expires_at e.2))
    (map_to_list (rw_sessions w)).

Definition component_allowed (sha256 : string) (now : Z) (w : RuntimeWorld) : bool :=
  is_some (verified_at_epoch COMPATIBILITY_EPOCH (rw_bundles w !! sha256))
  && (bool_decide (sha256 = rr_active (rw_runtime w)) || bool_decide (sha256 = rr_previous (rw_runtime w))
      || live_session sha256 now w).

Definition component_type (name : string) : string :=
  if bool_decide (name = "bzImage") then "application/vnd.tiaris.kernel"
  else if bool_decide (name = "initrd") then "application/vnd.tiaris.initrd"
  else "application/vnd.tiaris.squashfs".

Definition serve_component (sha256 name : string) : rtask (AppResult Served) :=
  if negb (is_ok (validate_sha256 sha256 "bundle SHA-256")) || negb (bool_decide (name ∈ COMPONENT_NAMES))
  then Ret (Err NotFound) else
  allowed ← select (λ _ w, component_allowed sha256 (seconds w) w);
  match allowed with
  | Err _ => Ret (Err Sqlx)
  | Ok false => Ret (Err NotFound)
  | Ok true =>
      served ← act (λ _ w,
        (match tree_at w sha256 with
         | DirTree entries => read_file entries name
         | _ => io_error
         end, w));
      Ret (match served with
           | Ok body => Ok {| sv_content_type := component_type name; sv_cache_control := None;
                              sv_etag := Some (String dquote (sha256 +:+ "-" +:+ name +:+ String dquote ""));
                              sv_body := body |}
           | Err _ => Err NotFound
           end)
  end.

(** ** The report *)

Record WorkstationNetbootReport := {
  rp_epoch : Z;
  rp_generation : Z;
  rp_state : string;
  rp_progress : Z;
  rp_bytes : Z;
  rp_total : Z;
  rp_failure_kind : string;
  rp_failure_message : string;
  rp_warning_kind : option string;
  rp_warning_message : option string;
  rp_desired_bundle : string;
  rp_active_bundle : string;
  rp_previous_bundle : string;
  rp_runtime_version : string;
  rp_last_verified : option Stamp;
}.

(** The bundle of a column when it is a verified one of this epoch. *)
Definition compatible (sha256 : string) (w : RuntimeWorld) : option BundleRow :=
  verified_at_epoch COMPATIBILITY_EPOCH (rw_bundles w !! sha256).

Definition report_of (w : RuntimeWorld) : WorkstationNetbootReport :=
  let r := rw_runtime w in
  let active := compatible (rr_active r) w in
  let active_sha := if is_some active then rr_active r else "" in
  let previous_sha := if is_some (compatible (rr_previous r) w) then rr_previous r else "" in
  let ready := bool_decide (rr_state r = "ready") in
  let incompatible_ready := ready && is_empty active_sha in
  let kind := normalize_failure_kind (rr_failure_kind r) in
  let message := normalize_failure_message (rr_failure_message r) in
  let ready_warning := ready && negb incompatible_ready && negb (is_empty kind) in {|
  rp_epoch := if in_range 0 u32_max (rr_epoch r) then rr_epoch r else default_compatibility_epoch;
  rp_generation := rr_generation r;
  rp_state := if incompatible_ready then "failed" else rr_state r;
  rp_progress := rr_progress r; rp_bytes := rr_bytes r; rp_total := rr_total r;
  rp_failure_kind := if incompatible_ready then FAILURE_COMPATIBILITY_EPOCH_UNSUPPORTED
                     else if ready_warning then "" else kind;
  rp_failure_message := if incompatible_ready
                        then "active workstation runtime belongs to another compatibility epoch"
                        else if ready_warning then "" else message;
  rp_warning_kind := if ready_warning then Some kind else None;
  rp_warning_message := if ready_warning then Some message else None;
  rp_desired_bundle := match descriptor_from_str (rr_descriptor_json r) with
                       | Some d => wd_sha256 d
                       | None => ""
                       end;
  rp_active_bundle := active_sha; rp_previous_bundle := previous_sha;
  rp_runtime_version := match active with Some b => bn_runtime_version b | None => "" end;
  rp_last_verified := rr_last_verified r |}.

Definition runtime_report : rtask (result Failure WorkstationNetbootReport) := select (λ _ w, report_of w).

(** ** Maintenance *)

(** Rows in the order of a key, the input deciding where keys agree. *)
Definition row_le {A} (key : A → Z) (tie : A → Z) (a b : A) : Prop :=
  key a < key b ∨ (key a = key b ∧ tie a ≤ tie b).
#[global] Instance row_le_dec {A} (key tie : A → Z) a b : base.Decision (row_le key tie a b).
Proof. unfold row_le. apply _. Defined.

Definition order_by {A} (key : A → Z) (tie : A → Z) (rows : list A) : list A :=
  merge_sort (row_le key tie) rows.

Definition expired_sessions (i : RuntimeInput) (now : Z) (w : RuntimeWorld) : list (string * SessionRow) :=
  take 256 (order_by (λ e, sn_cleanup_after e.2) (λ e, ri_tie i e.1)
    (filter (λ e : string * SessionRow, sn_cleanup_after e.2 < now) (map_to_list (rw_sessions w)))).

(** Removes the directory of each session and then its row. *)
Fixpoint remove_sessions (now : Z) (rows : list (string * SessionRow)) (removed : nat)
    : rtask (result Failure nat) :=
  match rows with
  | [] => lift (Ok removed)
  | (id, row) :: rows =>
      if negb (valid_session_id id) || negb (path_eq (sn_context_path row) (context_file cfg id))
      then remove_sessions now rows removed else
      files (λ _ w, (Ok tt, set_contexts (delete id (rw_contexts w)) w)) ;;?
      update (λ _ w, match rw_sessions w !! id with
                     | Some s => if sn_cleanup_after s <? now
                                 then set_sessions (delete id (rw_sessions w)) w else w
                     | None => w
                     end) ;;?
      remove_sessions now rows (S removed)
  end.

Definition cleanup_expired_sessions : rtask (result Failure nat) :=
  rows ←? select (λ i w, (seconds w, expired_sessions i (seconds w) w));
  remove_sessions rows.1 rows.2 0.

(** *** Scrubbing *)

Definition verify_stored_bundle (sha256 json root_path : string) : rtask (result Failure unit) :=
  d ←? lift (_ ≔ validate_sha256 sha256 "stored bundle SHA-256" ?;
             d ≔ some_or "parse stored workstation descriptor" (descriptor_from_str json) ?;
             _ ≔ require (bool_decide (wd_sha256 d = sha256))
                   "stored workstation descriptor identity is inconsistent" ?;
             _ ≔ validate_descriptor_with_policy d (rc_trusted_public_key cfg) (rc_allow_private cfg) ?;
             _ ≔ require (path_eq root_path (bundle_root cfg sha256))
                   "stored workstation bundle path is inconsistent" ?;
             Ok d);
  files (λ _ w, (verify_extracted_tree (tree_at w sha256) d, w)).

Definition with_scrubbed (stamp : Stamp) (b : BundleRow) : BundleRow := {|
  bn_epoch := bn_epoch b; bn_runtime_version := bn_runtime_version b;
  bn_descriptor_json := bn_descriptor_json b; bn_root_path := bn_root_path b;
  bn_verified := bn_verified b; bn_verified_at := bn_verified_at b;
  bn_last_scrubbed := Some stamp; bn_retained_until := bn_retained_until b |}.

Definition quarantined (path : string) (b : BundleRow) : BundleRow := {|
  bn_epoch := bn_epoch b; bn_runtime_version := bn_runtime_version b;
  bn_descriptor_json := bn_descriptor_json b; bn_root_path := path;
  bn_verified := false; bn_verified_at := bn_verified_at b;
  bn_last_scrubbed := bn_last_scrubbed b; bn_retained_until := bn_retained_until b |}.

(** The path of a quarantined tree; its random part is left out. *)
Definition quarantine_path (sha256 : string) : string :=
  rc_boot_assets_dir cfg +:+ "/netboot-quarantine/" +:+ sha256.

(** The tree leaves the served directory; something else there is refused. *)
Definition take_tree (sha256 text : string) : rtask (result Failure unit) :=
  files (λ _ w, match tree_at w sha256 with
                | NotADir => (bail text, w)
                | _ => (Ok tt, set_trees (delete sha256 (rw_trees w)) w)
                end).

Definition mark_quarantined (sha256 : string) : rtask (result Failure unit) :=
  update (λ _ w, set_bundles (alter (quarantined (quarantine_path sha256)) sha256 (rw_bundles w)) w).

(** [netboot_multicast::cancel_for_bundle]. *)
Definition release_bundle : rtask (result Failure unit) := act (λ i w, (ri_cancel i, w)).

Definition quarantine_tree_only (sha256 root_path : string) : rtask (result Failure unit) :=
  release_bundle ;;?
  lift (require (path_eq root_path (bundle_root cfg sha256))
          "refusing to quarantine an unexpected workstation fallback path") ;;?
  take_tree sha256 "corrupt workstation fallback root is not a directory" ;;?
  mark_quarantined sha256.

(** [ORDER BY] the previous bundle first, then the newest verified. *)
Definition fallback_rows (i : RuntimeInput) (excluded : string) (w : RuntimeWorld)
    : list (string * BundleRow) :=
  take 8 (merge_sort (row_le (λ e : string * BundleRow,
                                 if bool_decide (e.1 = rr_previous (rw_runtime w)) then 0 else 1)
                       (λ e, - bn_verified_at e.2))
    (order_by (λ e, ri_tie i e.1) (λ _, 0)
      (filter (λ e : string * BundleRow,
                 e.1 ≠ excluded ∧ is_some (verified_at_epoch COMPATIBILITY_EPOCH (Some e.2)) = true)
         (map_to_list (rw_bundles w))))).

Definition adopt_fallback (now : Z) (b : BundleRow) : BundleRow :=
  with_scrubbed (AtSecs now) (set_retained None b).

Fixpoint first_verified (rows : list (string * BundleRow)) : rtask (result Failure (option string)) :=
  match rows with
  | [] => lift (Ok None)
  | (sha256, row) :: rows =>
      verification ← verify_stored_bundle sha256 (bn_descriptor_json row) (bn_root_path row);
      match verification with
      | Ok _ =>
          update (λ _ w, set_bundles (alter (adopt_fallback (seconds w)) sha256 (rw_bundles w)) w) ;;?
          lift (Ok (Some sha256))
      | Err _ => quarantine_tree_only sha256 (bn_root_path row) ;;? first_verified rows
      end
  end.

Definition find_verified_fallback (excluded : string) : rtask (result Failure (option string)) :=
  rows ←? select (λ i w, fallback_rows i excluded w);
  first_verified rows.

Definition update_runtime_after_active_quarantine (fallback : option string)
    : rtask (result Failure unit) :=
  update (λ _ w, set_runtime (with_failure "failed" "integrity_mismatch"
            "active workstation runtime failed integrity verification" 0 (default "" fallback) ""
            (rw_runtime w)) w).

Definition update_runtime_after_previous_quarantine : rtask (result Failure unit) :=
  update (λ _ w, let r := rw_runtime w in
            set_runtime (with_failure (rr_state r) "integrity_mismatch"
              "previous workstation runtime failed integrity verification" (rr_progress r)
              (rr_active r) "" r) w).

Definition quarantine_bundle (sha256 root_path : string) : rtask (result Failure unit) :=
  lift (validate_sha256 sha256 "quarantined bundle SHA-256") ;;?
  release_bundle ;;?
  lift (require (path_eq root_path (bundle_root cfg sha256))
          "refusing to quarantine an unexpected workstation bundle path") ;;?
  take_tree sha256 "corrupt workstation bundle root is not a directory" ;;?
  mark_quarantined sha256 ;;?
  runtime ←? select (λ _ w, (rr_active (rw_runtime w), rr_previous (rw_runtime w)));
  if bool_decide (runtime.1 = sha256) then
    fallback ←? find_verified_fallback sha256;
    update_runtime_after_active_quarantine fallback
  else if bool_decide (runtime.2 = sha256) then update_runtime_after_previous_quarantine
  else lift (Ok tt).

Definition stale (cutoff : Stamp) (stamp : option Stamp) : bool :=
  match stamp with None => true | Some s => stamp_lt s cutoff end.

Definition scrub_rows (i : RuntimeInput) (w : RuntimeWorld) : list (string * BundleRow) :=
  let r := rw_runtime w in
  let cutoff := AtSecs (seconds w - SCRUB_INTERVAL_SECONDS) in
  order_by (λ e : string * BundleRow, if bool_decide (e.1 = rr_active r) then 0 else 1)
    (λ e, ri_tie i e.1)
    (filter (λ e : string * BundleRow,
       bn_verified e.2 = true ∧ (e.1 = rr_active r ∨ e.1 = rr_previous r) ∧
       (stale cutoff (bn_last_scrubbed e.2) = true ∨
        (e.1 = rr_active r ∧ rr_state r = "ready" ∧ stale cutoff (rr_last_verified r) = true)))
      (map_to_list (rw_bundles w))).

Definition scrubbed (sha256 : string) (w : RuntimeWorld) : RuntimeWorld :=
  let stamp := AtMicros (rw_clock w) in
  let bundles := alter (λ b, if bn_verified b then with_scrubbed stamp b else b) sha256 (rw_bundles w) in
  let r := rw_runtime w in
  set_bundles bundles
    (if bool_decide (rr_state r = "ready") && bool_decide (rr_active r = sha256)
     then set_runtime (with_last_verified stamp r) w else w).

Fixpoint scrub_loop (rows : list (string * BundleRow)) (count : nat) : rtask (result Failure nat) :=
  match rows with
  | [] => lift (Ok count)
  | (sha256, row) :: rows =>
      verification ← verify_stored_bundle sha256 (bn_descriptor_json row) (bn_root_path row);
      match verification with
      | Ok _ => update (λ _ w, scrubbed sha256 w) ;;? scrub_loop rows (S count)
      | Err _ => quarantine_bundle sha256 (bn_root_path row) ;;? scrub_loop rows count
      end
  end.

Definition scrub_due_bundles : rtask (result Failure nat) :=
  rows ←? select (λ i w, scrub_rows i w);
  scrub_loop rows 0.

(** *** Pruning *)

Definition prunable (i : RuntimeInput) (w : RuntimeWorld) (e : string * BundleRow) : bool :=
  bn_verified e.2
  && match bn_retained_until e.2 with Some until => until <? seconds w | None => false end
  && negb (bool_decide (e.1 = rr_active (rw_runtime w)))
  && negb (bool_decide (e.1 = rr_previous (rw_runtime w)))
  && negb (live_session e.1 (seconds w) w) && negb (ri_transferring i e.1).

Definition prune_rows (i : RuntimeInput) (w : RuntimeWorld) : list (string * BundleRow) :=
  take 8 (order_by (λ e, default 0 (bn_retained_until e.2)) (λ e, ri_tie i e.1)
            (List.filter (prunable i w) (map_to_list (rw_bundles w)))).

(** The row that the [DELETE] removes. *)
Definition deletable (i : RuntimeInput) (sha256 : string) (now : Z) (w : RuntimeWorld) : bool :=
  match rw_bundles w !! sha256 with
  | Some b => bn_verified b
              && match bn_retained_until b with Some until => until <? now | None => false end
              && negb (ri_transferring i sha256)
  | None => false
  end.

Definition delete_row (sha256 : string) (now : Z) : rtask (result Failure bool) :=
  stmt (λ i w, if deletable i sha256 now w
               then (Ok true, set_bundles (delete sha256 (rw_bundles w)) w)
               else (Ok false, w)).

(** [fs::rename] of the tombstone back; a directory that has come there is kept. *)
Definition restore_tree (sha256 : string) (tombstone : option Tree) : rtask (result Failure unit) :=
  match tombstone with
  | None => lift (Ok tt)
  | Some t => files (λ _ w, match rw_trees w !! sha256 with
                            | Some _ => (io_error, w)
                            | None => (Ok tt, set_trees (<[sha256 := t]> (rw_trees w)) w)
                            end)
  end.

(** The directory becomes a tombstone; something else there skips the row. *)
Definition entomb (sha256 : string) : rtask (result Failure (option (option Tree))) :=
  files (λ _ w, match rw_trees w !! sha256 with
                | Some (DirTree entries) =>
                    (Ok (Some (Some (DirTree entries))), set_trees (delete sha256 (rw_trees w)) w)
                | Some NotADir => (Ok None, w)
                | _ => (Ok (Some None), w)
                end).

Fixpoint prune_loop (now : Z) (rows : list (string * BundleRow)) (removed : nat)
    : rtask (result Failure nat) :=
  match rows with
  | [] => lift (Ok removed)
  | (sha256, row) :: rows =>
      lift (validate_sha256 sha256 "pruned bundle SHA-256") ;;?
      if negb (path_eq (bn_root_path row) (bundle_root cfg sha256)) then prune_loop now rows removed else
      moved ←? entomb sha256;
      match moved with
      | None => prune_loop now rows removed
      | Some tombstone =>
          deleted ← delete_row sha256 now;
          match deleted with
          | Ok true => files (λ _ w, (Ok tt, w)) ;;? prune_loop now rows (S removed)
          | Ok false => restore_tree sha256 tombstone ;;? prune_loop now rows removed
          | Err e => restore_tree sha256 tombstone ;;? lift (Err e)
          end
      end
  end.

Definition prune_expired_bundles : rtask (result Failure nat) :=
  rows ←? select (λ i w, (seconds w, prune_rows i w));
  prune_loop rows.1 rows.2 0.

(** [cleanup_retained_transfers] is the coordinator's. *)
Definition maintain_once : rtask (result Failure unit) :=
  cleanup_expired_sessions ;;?
  act (λ i w, (ri_cancel i, w)) ;;?
  scrub_due_bundles ;;?
  prune_expired_bundles ;;?
  lift (Ok tt).

End Sessions.
