(* ===== verification/RuntimeProofs.v ===== *)
(** * The workstation runtime: watermarks

    The proofs that what was accepted is never taken back: the generation and the
    version watermarks under any interleaving of the handlers of [src/netboot.rs].
    [framed] is the frame rule of the files that follow: every action of a task
    relates the world before it to the world after it. *)

From stdpp Require Import base gmap list strings relations.
From Stdlib Require Import Ascii ZArith Lia.
From S2P Require Import Prelude Async RustStr RustText Json DbText Net NixBase32 NarInfo Multicast Boot BootStore Runtime RuntimeStore RuntimeSessions.

#[local] Open Scope Z_scope.
#[local] Open Scope nest_scope.

(** ** Frames *)

Fixpoint framed (P : relation RuntimeWorld) {A : Type} (p : rtask A) : Prop :=
  match p with
  | Ret _ => True
  | Step a k => ∀ i w, P w (a i w).2 ∧ framed P (k (a i w).1)
  | Spawn t k => framed P t ∧ framed P k
  end.

Create HintDb framed.

Section Frames.
Context (P : relation RuntimeWorld).

Lemma framed_bind {A B} (p : rtask A) (f : A → rtask B) :
  framed P p → (∀ a, framed P (f a)) → framed P (p ≫= f).
Proof.
  intros Hp Hf. induction p as [A a|A X a k IH|A t _ k IH]; simpl in *; [apply Hf| |].
  - intros i w. destruct (Hp i w) as [??]. split; [done|]. by apply IH.
  - destruct Hp as [??]. split; [done|]. by apply IH.
Qed.

Lemma framed_try {E A B} (p : rtask (result E A)) (f : A → rtask (result E B)) :
  framed P p → (∀ a, framed P (f a)) → framed P (try_bind p f).
Proof. intros Hp Hf. apply framed_bind; [done|]. by intros [a|e]. Qed.

Lemma framed_lift {A} (r : result Failure A) : framed P (lift r).
Proof. done. Qed.

Context `{!PreOrder P} (Ptick : ∀ i w, P w (tick i w)).

Lemma framed_act {B} (f : RuntimeInput → RuntimeWorld → result Failure B * RuntimeWorld) :
  (∀ i w, P w (f i w).2) → framed P (act f).
Proof. intros Hf i w. split; [|done]. etrans; [apply Ptick|apply Hf]. Qed.

Lemma framed_stmt {B} (f : RuntimeInput → RuntimeWorld → result Failure B * RuntimeWorld) :
  (∀ i w, P w (f i w).2) → framed P (stmt f).
Proof. intros Hf. apply framed_act. intros i w. destruct (ri_fault i); [reflexivity|apply Hf]. Qed.

Lemma framed_select {B} (f : RuntimeInput → RuntimeWorld → B) : framed P (select f).
Proof. apply framed_stmt. reflexivity. Qed.

Lemma framed_update (f : RuntimeInput → RuntimeWorld → RuntimeWorld) :
  (∀ i w, P w (f i w)) → framed P (update f).
Proof. intros Hf. apply framed_stmt. apply Hf. Qed.

Lemma framed_files {B} (f : RuntimeInput → RuntimeWorld → result Failure B * RuntimeWorld) :
  (∀ i w, P w (f i w).2) → framed P (files f).
Proof. intros Hf. apply framed_act. intros i w. destruct (ri_io i); [reflexivity|apply Hf]. Qed.

(** A task whose actions keep the invariant and evolve the world is safe, and
    leaves what is stable as it found it. *)
Lemma framed_safe (I : RuntimeWorld → Prop) (G : relation RuntimeWorld) `{!PreOrder G} {A} (p : rtask A)
    (S : RuntimeWorld → Prop) w0 :
  (∀ w w', I w → P w w' → I w' ∧ G w w') → (∀ w w', S w → G w w' → S w') →
  framed P p → S w0 → safe I G p (λ _ w, S w) w0.
Proof.
  intros HP HS. revert w0. induction p as [A a|A X a k IH|A t IHt k IH]; intros w0 Hp Hw0; simpl in *; [done| |].
  - intros i w HI HG. destruct (Hp i w) as [Hw Hk]. destruct (HP _ _ HI Hw) as [HI' HG'].
    split; [done|]. split; [done|]. apply IH; [done|]. eapply HS; [|exact HG'].
    by eapply HS; [|exact HG].
  - destruct Hp as [Ht Hk]. split; [|by apply IH]. eapply safe_mono; [|by apply IHt]. done.
Qed.

End Frames.

(** Splits a task into its actions, up to the tasks of the hint database. *)
Ltac framed_walk :=
  repeat first
    [ progress intros
    | solve [eauto with framed]
    | apply framed_lift | exact I
    | apply framed_select; [apply _|solve [eauto with framed]|..]
    | apply framed_try | apply framed_bind
    | apply framed_update; [apply _|solve [eauto with framed]|]
    | apply framed_files; [apply _|solve [eauto with framed]|]
    | apply framed_stmt; [apply _|solve [eauto with framed]|]
    | apply framed_act; [apply _|solve [eauto with framed]|]
    | progress cbv zeta
    | case_match ].

(** A text of one line. *)
Definition one_line (s : string) : bool := all_bytes (λ a, negb (bool_decide (a = "010"%char))) s.

(** ** What the libraries promise

    The order of [semver] is a total order that agrees with equality, versions,
    UUIDs and Base64 are written without line feeds, a UUID is not empty, and two
    descriptors with one SHA-256 are the same. *)
Class RuntimeLaws (deps : RuntimeDeps) : Prop := {
  compare_refl v : version_compare v v = Eq;
  compare_eq v v' : version_compare v v' = Eq → v = v';
  compare_opp v v' : version_compare v' v = CompOpp (version_compare v v');
  compare_trans v v' v'' : version_compare v v' = Lt → version_compare v' v'' = Lt →
    version_compare v v'' = Lt;
  version_line s v : version_parse s = Ok v → one_line s = true;
  uuid_line s : uuid_parses s = true → one_line s = true ∧ s ≠ "";
  base64url_line l : one_line (base64url l) = true;
  digest_injective d d' : descriptor_digest d = descriptor_digest d' → d = d';
}.

(** What is relied on of [URL_SAFE_NO_PAD]: its alphabet, the length of its texts, and that
    they decode to as many bytes as were encoded. *)
Class Base64Laws (deps : RuntimeDeps) : Prop := {
  base64url_text l : all_bytes (λ a, is_alnum a || byte_in "-_" a) (base64url l) = true;
  base64url_size l : len (base64url l) = (4 * Z.of_nat (length l) + 2) / 3;
  base64url_decodes l : base64url_length (base64url l) = Some (length l);
}.

Section Watermarks.
Context {deps : RuntimeDeps} {serde : Serde} {ed25519 : Ed25519} {laws : RuntimeLaws deps}.
Context (cfg : RuntimeConfig).

(** The generations and the descriptors that were accepted, in the order they are. *)
Definition generation_le (x y : Z * string) : Prop := x.1 < y.1 ∨ x = y.

(** The versions that were accepted, in the order of [semver]; one version stands
    for one descriptor. *)
Definition version_le (x y : string * string) : Prop :=
  x = y ∨ ∃ a b, version_parse x.1 = Ok a ∧ version_parse y.1 = Ok b ∧
    (version_compare a b = Lt ∨ (a = b ∧ x.2 = y.2)).

#[local] Instance generation_le_preorder : PreOrder generation_le.
Proof.
  split; [by right|]. intros x y z [?| ->] [?| <-]; [left; lia|by left|by left|by right].
Qed.

#[local] Instance version_le_preorder : PreOrder version_le.
Proof.
  split; [by left|]. intros x y z [->|(a & b & Ha & Hb & H1)] [<-|(b' & c & Hb' & Hc & H2)];
    [by left|right; eauto 10|right; eauto 10|]. rewrite Hb in Hb'. simplify_eq.
  right. exists a, c. split; [done|]. split; [done|].
  destruct H1 as [H1|[-> E1]], H2 as [H2|[-> E2]]; [left; by eapply compare_trans|by left|by left|].
  right. split; [done|congruence].
Qed.

(** What was accepted only grows; while the accepted identity of an epoch stays,
    only its own descriptor moves the version watermark. *)
Record advances (w w' : RuntimeWorld) : Prop := {
  adv_generations e x : rw_generations w !! e = Some x →
    ∃ y, rw_generations w' !! e = Some y ∧ generation_le x y;
  adv_watermarks k x : rw_watermarks w !! k = Some x →
    ∃ y, rw_watermarks w' !! k = Some y ∧ version_le x y;
  adv_same e g d fp arch :
    rw_generations w !! e = Some (g, d) → rw_generations w' !! e = Some (g, d) →
    rw_watermarks w' !! (e, fp, arch) = rw_watermarks w !! (e, fp, arch) ∨
    ∃ D, descriptor_digest D = d ∧ rw_watermarks w' !! (e, fp, arch) = Some (wd_runtime_version D, d);
}.

Lemma generation_between x y z : generation_le x y → generation_le y z → x = z → y = x.
Proof. intros [?|E] [?|E'] Exz; subst; [lia|lia|lia|done]. Qed.

#[local] Instance advances_preorder : PreOrder advances.
Proof.
  split.
  - intros w. split; eauto; eexists; (split; [done|reflexivity]).
  - intros w1 w2 w3 H12 H23. split.
    + intros e x Hx. destruct (adv_generations _ _ H12 _ _ Hx) as (y & Hy & ?).
      destruct (adv_generations _ _ H23 _ _ Hy) as (z & ? & ?). exists z. split; [done|by etrans].
    + intros k x Hx. destruct (adv_watermarks _ _ H12 _ _ Hx) as (y & Hy & ?).
      destruct (adv_watermarks _ _ H23 _ _ Hy) as (z & ? & ?). exists z. split; [done|by etrans].
    + intros e g d fp arch H1 H3. destruct (adv_generations _ _ H12 _ _ H1) as (y & Hy & Hle).
      destruct (adv_generations _ _ H23 _ _ Hy) as (z & Hz & Hle').
      assert (y = (g, d)) as -> by (eapply generation_between; [done..|congruence]).
      destruct (adv_same _ _ H23 _ _ _ fp arch Hy H3) as [->|?]; [|by right].
      by eapply (adv_same _ _ H12).
Qed.

(** *** Tasks that leave the watermarks alone *)

Definition quiet (w w' : RuntimeWorld) : Prop :=
  rw_generations w' = rw_generations w ∧ rw_watermarks w' = rw_watermarks w.

#[local] Instance quiet_preorder : PreOrder quiet.
Proof. split; [done|]. intros ??? [??] [??]. split; congruence. Qed.

Lemma quiet_tick i w : quiet w (tick i w).
Proof. done. Qed.
#[local] Hint Resolve quiet_tick : framed.

Lemma quiet_advances w w' : quiet w w' → advances w w'.
Proof.
  intros [Eg Ew]. split; rewrite ?Eg, ?Ew; eauto; intros ? x; exists x; (split; [done|reflexivity]).
Qed.

Ltac quiet_walk := framed_walk; try (repeat case_match; simplify_eq; done).

Lemma quiet_set_runtime_state status p b t : framed quiet (set_runtime_state status p b t).
Proof. unfold set_runtime_state. quiet_walk. Qed.
#[local] Hint Resolve quiet_set_runtime_state : framed.

Lemma quiet_persist c downloaded total force :
  framed quiet (persist_download_progress c downloaded total force).
Proof. unfold persist_download_progress, clock_now. quiet_walk. Qed.
#[local] Hint Resolve quiet_persist : framed.

Lemma quiet_chunks name total chunks downloaded c :
  framed quiet (download_chunks name total chunks downloaded c).
Proof.
  revert downloaded c. induction chunks as [|[chunk|] chunks IH]; intros downloaded c;
    cbn [download_chunks]; quiet_walk.
Qed.
#[local] Hint Resolve quiet_chunks : framed.

Lemma quiet_import d epoch transport : framed quiet (import_bundle cfg d epoch transport).
Proof.
  unfold import_bundle, discard_other_partials, download_bundle, clock_now, resume_offset, request,
    hash_part, remove_part, lease_active, extract_part, publish_verified_stage, insert_bundle.
  quiet_walk.
Qed.
#[local] Hint Resolve quiet_import : framed.

Lemma quiet_attempt epoch generation identity kind :
  framed quiet (record_reconcile_attempt epoch generation identity kind).
Proof. unfold record_reconcile_attempt. quiet_walk. Qed.
#[local] Hint Resolve quiet_attempt : framed.

Lemma quiet_decode_failure value kind message :
  framed quiet (record_desired_decode_failure cfg value kind message).
Proof.
  unfold record_desired_decode_failure, record_desired_state, record_decode_failure,
    reconcile_attempt_is_due. quiet_walk.
Qed.

Lemma quiet_session q : framed quiet (create_boot_session cfg q).
Proof. unfold create_boot_session, write_context. quiet_walk. Qed.

Lemma quiet_serve_context id : framed quiet (serve_context cfg id).
Proof. unfold serve_context. quiet_walk. Qed.

Lemma quiet_serve_component sha256 name : framed quiet (serve_component sha256 name).
Proof. unfold serve_component. quiet_walk. Qed.

Lemma quiet_remove_sessions now rows removed : framed quiet (remove_sessions cfg now rows removed).
Proof.
  revert removed. induction rows as [|[id row] rows IH]; intros removed; cbn [remove_sessions]; quiet_walk.
Qed.
#[local] Hint Resolve quiet_remove_sessions : framed.

Lemma quiet_verify sha256 json root : framed quiet (verify_stored_bundle cfg sha256 json root).
Proof. unfold verify_stored_bundle. quiet_walk. Qed.
#[local] Hint Resolve quiet_verify : framed.

Lemma quiet_fallback rows : framed quiet (first_verified cfg rows).
Proof.
  induction rows as [|[sha256 row] rows IH]; cbn [first_verified];
    unfold quarantine_tree_only, release_bundle, take_tree, mark_quarantined; quiet_walk.
Qed.
#[local] Hint Resolve quiet_fallback : framed.

Lemma quiet_quarantine sha256 root : framed quiet (quarantine_bundle cfg sha256 root).
Proof.
  unfold quarantine_bundle, find_verified_fallback, release_bundle, take_tree, mark_quarantined,
    update_runtime_after_active_quarantine, update_runtime_after_previous_quarantine. quiet_walk.
Qed.
#[local] Hint Resolve quiet_quarantine : framed.

Lemma quiet_scrub rows count : framed quiet (scrub_loop cfg rows count).
Proof.
  revert count. induction rows as [|[sha256 row] rows IH]; intros count; cbn [scrub_loop];
    unfold scrubbed; quiet_walk.
Qed.
#[local] Hint Resolve quiet_scrub : framed.

Lemma quiet_prune now rows removed : framed quiet (prune_loop cfg now rows removed).
Proof.
  revert removed. induction rows as [|[sha256 row] rows IH]; intros removed; cbn [prune_loop];
    unfold entomb, delete_row, restore_tree; quiet_walk.
Qed.
#[local] Hint Resolve quiet_prune : framed.

Lemma quiet_maintain : framed quiet (maintain_once cfg).
Proof.
  unfold maintain_once, cleanup_expired_sessions, scrub_due_bundles, prune_expired_bundles. quiet_walk.
Qed.

(** *** Admission and promotion *)

(** The descriptor was admitted: as long as it is the accepted one, no version
    above its own has been accepted. *)
Definition admitted (D : WorkstationNetbootDescriptor) (e g : Z) (fp : string) (w : RuntimeWorld) : Prop :=
  ∃ x, rw_generations w !! e = Some x ∧ generation_le (g, descriptor_digest D) x ∧
    (x = (g, descriptor_digest D) → ∀ y, rw_watermarks w !! (e, fp, wd_architecture D) = Some y →
       version_le y (wd_runtime_version D, descriptor_digest D)).

Lemma admitted_stable D e g fp w w' : admitted D e g fp w → advances w w' → admitted D e g fp w'.
Proof.
  intros (x & Hx & Hle & Hwm) Hadv. destruct (adv_generations _ _ Hadv _ _ Hx) as (y & Hy & Hxy).
  exists y. split; [done|]. split; [by etrans|]. intros -> z Hz.
  assert (x = (g, descriptor_digest D)) as -> by (by eapply generation_between).
  destruct (adv_same _ _ Hadv _ _ _ fp (wd_architecture D) Hx Hy) as [E|(D' & HD & E)].
  - apply Hwm; [done|]. by rewrite <-E.
  - apply digest_injective in HD as ->. rewrite E in Hz. by simplify_eq.
Qed.

Lemma enforce_version_le y D :
  enforce_watermark_precedence y.1 y.2 (wd_runtime_version D) (descriptor_digest D) = Ok tt →
  version_le y (wd_runtime_version D, descriptor_digest D).
Proof.
  unfold enforce_watermark_precedence.
  destruct (version_parse y.1) as [a|] eqn:Ea; [|done].
  destruct (version_parse (wd_runtime_version D)) as [b|] eqn:Eb; [|done]. simpl.
  rewrite (compare_opp a b). destruct (version_compare a b) eqn:E; simpl; [|intros _|done].
  - case_bool_decide; [|done]. intros _. right. exists a, b. apply compare_eq in E. eauto 10.
  - right. exists a, b. eauto 10.
Qed.

Abbreviation keeps p := (safe (λ _ : RuntimeWorld, True) advances p) (only parsing).

Lemma quiet_safe {A} (p : rtask A) (S : RuntimeWorld → Prop) w0 :
  (∀ w w', S w → advances w w' → S w') → framed quiet p → S w0 → keeps p (λ _ w, S w) w0.
Proof.
  intros HS. apply (framed_safe quiet); [apply _| |done].
  intros w w' _ Hq. split; [done|by apply quiet_advances].
Qed.

(** A task that is quiet, with what is stable available after it. *)
Lemma quiet_seq {A B} (p : rtask (result Failure A)) (f : A → rtask (result Failure B))
    (S : RuntimeWorld → Prop) w0 :
  (∀ w w', S w → advances w w' → S w') → framed quiet p → S w0 →
  (∀ a w, S w → keeps (f a) (λ _ _, True) w) → keeps (try_bind p f) (λ _ _, True) w0.
Proof.
  intros HS Hp Hw Hf. apply safe_try_bind. eapply safe_mono; [|by eapply quiet_safe].
  intros [a|e] w Hw'; [by apply Hf|done].
Qed.

Lemma lift_seq {A B} (r : result Failure A) (f : A → rtask (result Failure B)) w0 :
  (∀ a, r = Ok a → keeps (f a) (λ _ _, True) w0) → keeps (try_bind (lift r) f) (λ _ _, True) w0.
Proof. intros Hf. destruct r as [a|e]; [by apply Hf|done]. Qed.

Lemma safe_admit D e g w0 :
  keeps (admit_reconcile_identity cfg D (descriptor_digest D) e g)
    (λ r w, match r with
            | Ok _ => ∃ fp, key_fingerprint cfg = Ok fp ∧ admitted D e g fp w
            | Err _ => True
            end) w0.
Proof.
  unfold admit_reconcile_identity, lift. destruct (key_fingerprint cfg) as [fp|err] eqn:Efp; [|done].
  simpl. intros i w _ _. destruct (ri_fault i).
  { split; [done|]. split; [by apply quiet_advances|done]. }
  set (w1 := tick i w). cbv zeta.
  destruct (rbind _ _) as [[]|err] eqn:Echeck; simpl; [|split; [done|]; split; [by apply quiet_advances|done]].
  apply rbind_Ok in Echeck as ([] & Egen & Ewm).
  assert (∀ y, rw_watermarks w !! (e, fp, wd_architecture D) = Some y →
    version_le y (wd_runtime_version D, descriptor_digest D)) as Hle.
  { intros [v d] Hy. apply enforce_version_le. simpl in Ewm. by rewrite Hy in Ewm. }
  clear Ewm. split; [done|].
  change (rw_generations w1) with (rw_generations w) in *.
  destruct (rw_generations w !! e) as [[g0 d0]|] eqn:Eg; simpl in Egen.
  - destruct (Z.ltb_spec g g0); [done|].
    destruct (Z.ltb_spec g0 g).
    + split; [|exists fp; split; [done|]; eexists; split; [apply lookup_insert_eq|]; split; [reflexivity|by intros _]].
      split; [|intros k x; exists x; split; [done|reflexivity]|].
      * intros e' x Hx. destruct (decide (e' = e)) as [->|Hne]; simpl.
        -- rewrite lookup_insert_eq. eexists. split; [done|]. simplify_eq. by left.
        -- rewrite lookup_insert_ne by done. exists x. split; [done|reflexivity].
      * intros; by left.
    + assert (g = g0) as -> by lia. rewrite Z.eqb_refl in Egen. case_bool_decide as Ed; [|done]. subst d0.
      split; [by apply quiet_advances|]. exists fp. split; [done|]. exists (g0, descriptor_digest D).
      split; [done|]. split; [reflexivity|by intros _].
  - split; [|exists fp; split; [done|]; eexists; split; [apply lookup_insert_eq|]; split; [reflexivity|by intros _]].
    split; [|intros k x; exists x; split; [done|reflexivity]|intros; by left].
    intros e' x Hx. simpl. rewrite lookup_insert_ne by congruence. exists x. split; [done|reflexivity].
Qed.

Lemma safe_promote D e g fp w0 :
  key_fingerprint cfg = Ok fp → admitted D e g fp w0 →
  keeps (promote_existing cfg D (descriptor_to_string D) (descriptor_digest D) e g) (λ _ _, True) w0.
Proof.
  intros Efp Hadm. unfold promote_existing. rewrite Efp. apply lift_seq. intros fp' [= <-].
  apply (quiet_seq _ _ (admitted D e g fp)); [by intros; eapply admitted_stable|quiet_walk|done|].
  intros candidate w Hw. apply lift_seq. intros root _.
  apply (quiet_seq _ _ (admitted D e g fp)); [by intros; eapply admitted_stable|quiet_walk|done|].
  clear w Hw. intros _ w Hw i w' _ Hadv. cbv beta. destruct (ri_fault i).
  { split; [done|]. split; [by apply quiet_advances|done]. }
  case_bool_decide as Eg; cbn [negb]; [|split; [done|]; split; [by apply quiet_advances|done]].
  case_bool_decide; cbn [negb]; [|split; [done|]; split; [by apply quiet_advances|done]].
  split; [done|]. split; [|done]. destruct (admitted_stable _ _ _ _ _ _ Hw Hadv) as (x & Hx & _ & Hle).
  change (rw_generations w' !! e = Some (g, descriptor_digest D)) in Eg. simplify_eq.
  specialize (Hle eq_refl). split; simpl.
  - intros e' x Hx'. exists x. split; [done|reflexivity].
  - intros k x Hk. destruct (decide (k = (e, fp, wd_architecture D))) as [->|Hne].
    + rewrite lookup_insert_eq. eexists. split; [done|]. by apply Hle.
    + rewrite lookup_insert_ne by done. exists x. split; [done|reflexivity].
  - intros e' g' d' fp' arch' H1 H2.
    destruct (decide ((e', fp', arch') = (e, fp, wd_architecture D))) as [[= -> -> ->]|Hne].
    + right. exists D. rewrite lookup_insert_eq. rewrite Eg in H1. by simplify_eq.
    + left. by rewrite lookup_insert_ne.
Qed.

Lemma safe_reconcile_inner desired w0 :
  keeps (reconcile_desired_inner cfg desired) (λ _ _, True) w0.
Proof.
  unfold reconcile_desired_inner. set (D := dw_descriptor desired). cbv zeta.
  do 3 (apply lift_seq; intros _ _).
  apply (quiet_seq _ _ (λ _, True)); [done|quiet_walk|done|]. intros _ w1 _.
  apply safe_try_bind. eapply safe_mono; [|apply safe_admit].
  intros [[]|e] w2; [|done]. intros (fp & Efp & Hadm).
  assert (∀ w w', admitted D (dw_compatibility_epoch desired) (dw_reconcile_generation desired) fp w →
    advances w w' → admitted D (dw_compatibility_epoch desired) (dw_reconcile_generation desired) fp w')
    as Hst by (by intros; eapply admitted_stable).
  apply (quiet_seq _ _ _ _ Hst); [quiet_walk|done|]. intros [] w3 H3; [done|].
  apply (quiet_seq _ _ _ _ Hst); [quiet_walk|done|]. intros _ w4 H4.
  apply (quiet_seq _ _ _ _ Hst); [unfold lease_active; quiet_walk|done|]. intros [] w5 H5.
  { eapply safe_mono; [|apply (quiet_safe _ _ _ Hst); [apply quiet_set_runtime_state|done]]. done. }
  apply (quiet_seq _ _ _ _ Hst); [quiet_walk|done|]. intros [] w6 H6; [by eapply safe_promote|].
  apply (quiet_seq _ _ _ _ Hst); [apply quiet_import|done|]. intros [] w7 H7; [by eapply safe_promote|done].
Qed.

Lemma safe_then {A B} (p : rtask A) (f : A → rtask B) w0 :
  keeps p (λ _ _, True) w0 → (∀ a w, keeps (f a) (λ _ _, True) w) → keeps (p ≫= f) (λ _ _, True) w0.
Proof. intros Hp Hf. apply safe_bind. eapply safe_mono; [|exact Hp]. intros a w _. apply Hf. Qed.

Lemma quiet_keeps {A} (p : rtask A) w0 : framed quiet p → keeps p (λ _ _, True) w0.
Proof. intros Hp. by apply (quiet_safe p (λ _, True)). Qed.

Lemma safe_reconcile desired w0 : keeps (reconcile_desired cfg desired) (λ _ _, True) w0.
Proof.
  unfold reconcile_desired. cbv zeta.
  apply (quiet_seq _ _ (λ _, True)); [done|unfold reconcile_attempt_is_due; quiet_walk|done|].
  intros [] w _; [|done]. cbn [negb]. apply safe_then; [apply safe_reconcile_inner|].
  intros r w'. apply quiet_keeps. unfold record_failure_for_attempt, clear_reconcile_attempt. quiet_walk.
Qed.

(** The handlers of [src/netboot.rs]: a desired state that was decoded or could not
    be, a boot session, the routes, the report and a round of maintenance. *)
Inductive runtime_entry : rtask unit → Prop :=
| entry_reconcile desired : runtime_entry (reconcile_desired cfg desired ≫= λ _, Ret tt)
| entry_decode_failure value kind message :
    runtime_entry (record_desired_decode_failure cfg value kind message ≫= λ _, Ret tt)
| entry_session q : runtime_entry (create_boot_session cfg q ≫= λ _, Ret tt)
| entry_context id : runtime_entry (serve_context cfg id ≫= λ _, Ret tt)
| entry_component sha256 name : runtime_entry (serve_component sha256 name ≫= λ _, Ret tt)
| entry_report : runtime_entry (runtime_report ≫= λ _, Ret tt)
| entry_maintain : runtime_entry (maintain_once cfg ≫= λ _, Ret tt).

Lemma entry_keeps p w0 : runtime_entry p → keeps p (λ _ _, True) w0.
Proof.
  intros []; (apply safe_then; [|done]); [apply safe_reconcile|apply quiet_keeps..].
  - apply quiet_decode_failure.
  - apply quiet_session.
  - apply quiet_serve_context.
  - apply quiet_serve_component.
  - unfold runtime_report. quiet_walk.
  - apply quiet_maintain.
Qed.

(** C21. Whatever handlers of the workstation runtime run at once, and wherever they
    are interrupted, no accepted generation of an epoch is replaced by an older one
    or by another descriptor at the same generation, and no accepted version of a
    key and architecture by an older one or by another descriptor of the same
    version: a promotion that was overtaken does not take effect. *)
Theorem accepted_runtimes_never_go_back w ts w' :
  rtc (pstep runtime_entry) ([], w) (ts, w') →
  (∀ epoch accepted, rw_generations w !! epoch = Some accepted →
     ∃ now, rw_generations w' !! epoch = Some now ∧ generation_le accepted now) ∧
  (∀ key accepted, rw_watermarks w !! key = Some accepted →
     ∃ now, rw_watermarks w' !! key = Some now ∧ version_le accepted now).
Proof.
  intros Hrun.
  destruct (pool_invariant_empty (λ _, True) advances runtime_entry w ts w') as [_ Hadv]; [|done|done|].
  { intros p w0 Hp _. by apply entry_keeps. }
  split; [apply (adv_generations _ _ Hadv)|apply (adv_watermarks _ _ Hadv)].
Qed.

End Watermarks.
