(* ===== verification/DescriptorProofs.v ===== *)
(** * The workstation runtime: what a signature covers

    The text that is signed names every field of a descriptor, and the text of a
    boot grant every claim: two that agree on the text agree on what it says. *)

From stdpp Require Import base gmap list strings pretty.
From Stdlib Require Import Ascii ZArith Lia.
From S2P Require Import Prelude RustStr RustText Json DbText DbTextProofs Net NixBase32 NarInfo NarInfoProofs BootStore Runtime RuntimeStore RuntimeSessions RuntimeProofs.

#[local] Open Scope Z_scope.
#[local] Open Scope nest_scope.

Abbreviation line_feed := ("010"%char).

(** ** Lines *)

Lemma one_line_split s : one_line s = true → split line_feed s = [s].
Proof.
  intros Hs. apply split_no_byte. unfold any_byte. apply not_true_iff_false. intros H.
  apply existsb_exists in H as (a & Ha & Heq). apply Ascii.eqb_eq in Heq as <-.
  unfold one_line in Hs. rewrite all_bytes_forall in Hs. specialize (Hs _ Ha).
  by rewrite bool_decide_true in Hs.
Qed.

Lemma one_line_impl (p : ascii → bool) s :
  (∀ a, p a = true → a ≠ line_feed) → all_bytes p s = true → one_line s = true.
Proof.
  intros Hp. apply all_bytes_impl. intros a Ha. rewrite bool_decide_false; [done|by apply Hp].
Qed.

Lemma text_lines_split ls : split line_feed (text_lines ls) = (ls ≫= split line_feed) ++ [""].
Proof.
  induction ls as [|l ls IH]; [done|]. cbn [text_lines foldr mbind list_bind].
  change (l +:+ nl +:+ ?r) with (l +:+ String line_feed r). rewrite split_join_bytes.
  change (foldr _ "" ls) with (text_lines ls). rewrite IH. by rewrite app_assoc.
Qed.

Lemma lines_bind ls : Forall (λ s, one_line s = true) ls → ls ≫= split line_feed = ls.
Proof.
  induction 1 as [|l ls Hl _ IH]; [done|]. cbn [mbind list_bind].
  rewrite one_line_split by done. by rewrite IH.
Qed.

(** Lines before and after one field that may have several. *)
Lemma text_lines_inj front front' x x' back back' :
  Forall (λ s, one_line s = true) front → Forall (λ s, one_line s = true) front' →
  Forall (λ s, one_line s = true) back → Forall (λ s, one_line s = true) back' →
  length back = length back' → length front = length front' →
  text_lines (front ++ x :: back) = text_lines (front' ++ x' :: back') →
  front = front' ∧ x = x' ∧ back = back'.
Proof.
  intros Hf Hf' Hb Hb' Hlb Hlf H. apply (f_equal (split line_feed)) in H.
  rewrite !text_lines_split, !bind_app, !bind_cons in H.
  rewrite !(lines_bind front), !(lines_bind front'), !(lines_bind back), !(lines_bind back') in H by done.
  apply app_inj_2 in H as [H _]; [|done]. apply app_inj_1 in H as [-> H]; [|done].
  apply app_inj_2 in H as [Hx ->]; [|done]. split; [done|]. split; [|done].
  apply (f_equal (join (String line_feed ""))) in Hx. by rewrite !join_split in Hx.
Qed.

Lemma show_one_line z : one_line (show z) = true.
Proof.
  assert (∀ n, 0 ≤ n → one_line (show n) = true) as Hpos.
  { intros n Hn. destruct (show_digits n Hn) as [Hd _].
    eapply one_line_impl; [|exact Hd]. by intros a Ha ->. }
  destruct (decide (0 ≤ z)); [by apply Hpos|]. destruct z as [|p|p]; [lia|lia|].
  change (one_line (show (Zpos p)) = true). apply Hpos. lia.
Qed.
#[export] Instance show_inj : Inj (=) (=) show.
Proof. intros x y. unfold show. apply (inj pretty). Qed.

Lemma hex_one_line n s : lower_hex n s = true → one_line s = true.
Proof.
  intros [_ H]%andb_true_iff. eapply one_line_impl; [|exact H]. by intros a Ha ->.
Qed.

(** ** Valid descriptors *)

Section Valid.
Context {deps : RuntimeDeps} {ed25519 : Ed25519}.

(** What [validate_descriptor_with_policy] has checked of the fields that are
    signed. *)
Record descriptor_ok (d : WorkstationNetbootDescriptor) : Prop := {
  ok_schema : wd_schema d = DESCRIPTOR_SCHEMA;
  ok_version : ∃ v, version_parse (wd_runtime_version d) = Ok v;
  ok_revision : lower_hex 40 (wd_manage_source_revision d) = true;
  ok_source : validate_source_identity d = Ok tt;
  ok_nixpkgs : lower_hex 40 (wd_nixpkgs_revision d) = true;
  ok_architecture : wd_architecture d = ARCHITECTURE;
  ok_format : wd_format d = FORMAT;
  ok_protocol : wd_required_nest_protocol d = REQUIRED_NEST_PROTOCOL;
  ok_sha256 : lower_hex 64 (wd_sha256 d) = true;
  ok_manifest : lower_hex 64 (wd_manifest_sha256 d) = true;
  ok_bz_image : lower_hex 64 (cp_sha256 (cs_bz_image (wd_components d))) = true;
  ok_initrd : lower_hex 64 (cp_sha256 (cs_initrd (wd_components d))) = true;
  ok_squashfs : lower_hex 64 (cp_sha256 (cs_nix_store_squashfs (wd_components d))) = true;
}.

Lemma require_Ok b text x : require b text = Ok x ↔ b = true.
Proof. destruct x, b; done. Qed.

Lemma or_context_Ok {E A} text (r : result E A) x : or_context text r = Ok x ↔ r = Ok x.
Proof. destruct r; naive_solver. Qed.

Lemma some_or_Ok {A} text (o : option A) x : some_or text o = Ok x ↔ o = Some x.
Proof. destruct o; naive_solver. Qed.

End Valid.

(** Takes a chain of checks that succeeded apart. *)
Ltac checks H :=
  repeat match type of H with
  | rbind _ _ = Ok _ => let x := fresh "x" in let Hx := fresh "Hx" in
      apply rbind_Ok in H as (x & Hx & H); cbv beta zeta in H;
      try rewrite require_Ok in Hx; try rewrite some_or_Ok in Hx; try rewrite or_context_Ok in Hx
  end.

Section Signed.
Context {deps : RuntimeDeps} {ed25519 : Ed25519} {laws : RuntimeLaws deps}.

Lemma validated_descriptor_ok d trusted private :
  validate_descriptor_with_policy d trusted private = Ok tt → descriptor_ok d.
Proof.
  intros H. unfold validate_descriptor_with_policy in H. checks H.
  unfold validate_revision, validate_sha256 in *. rewrite require_Ok in *.
  apply bool_decide_eq_true in Hx. apply andb_true_iff in Hx4 as [[??]%andb_true_iff ?].
  bool_prop. clear H Hx9 Hx10 Hx11.
  cbn [validate_components COMPONENT_NAMES component] in Hx8. checks Hx8.
  unfold validate_sha256 in *. rewrite require_Ok in *.
  destruct x2. assert (x12 = cs_bz_image (wd_components d)) as -> by (by injection Hx4).
  assert (x15 = cs_initrd (wd_components d)) as -> by (by injection Hx11).
  assert (x18 = cs_nix_store_squashfs (wd_components d)) as -> by (by injection Hx14).
  split; eauto.
Qed.

(** The lines before the URL, which may be written over several. *)
Definition signed_front (d : WorkstationNetbootDescriptor) : list string :=
  [wd_architecture d; wd_format d; show (wd_required_nest_protocol d)]
  ++ component_lines (cs_bz_image (wd_components d))
  ++ component_lines (cs_initrd (wd_components d))
  ++ component_lines (cs_nix_store_squashfs (wd_components d))
  ++ [wd_manifest_sha256 d; show (wd_size_bytes d); wd_sha256 d].

Definition signed_head (d : WorkstationNetbootDescriptor) : list string :=
  [SIGNATURE_DOMAIN; wd_runtime_version d; wd_manage_source_revision d; wd_nixpkgs_revision d].

Lemma signature_message_lines d :
  signature_message d = text_lines ((signed_head d ++ source_identity d ++ signed_front d) ++ [wd_url d]).
Proof. unfold signature_message, signature_lines, signed_head, signed_front. by rewrite <-!app_assoc. Qed.

Lemma signed_lines_one_line d :
  descriptor_ok d →
  Forall (λ s, one_line s = true) (signed_head d ++ source_identity d ++ signed_front d).
Proof.
  intros []. destruct ok_version0 as [v Hv]. apply Forall_app. split.
  - repeat apply Forall_cons_2; [done|by eapply version_line|by eapply hex_one_line..|constructor].
  - apply Forall_app. split.
    + unfold validate_source_identity, validate_sha256 in ok_source0. unfold source_identity.
      destruct (wd_manage_source_sha256 d) as [s|], (wd_manage_source_size_bytes d) as [n|];
        try discriminate; [|constructor]. checks ok_source0.
      repeat apply Forall_cons_2; [apply show_one_line|by eapply hex_one_line|constructor].
    + unfold signed_front. rewrite ok_architecture0, ok_format0.
      repeat apply Forall_cons_2; try apply show_one_line; try done;
        try (by eapply hex_one_line).
Qed.

(** The line after the revisions tells whether a source archive is named. *)
Lemma source_identity_length d d' :
  descriptor_ok d → descriptor_ok d' →
  signature_message d = signature_message d' →
  length (source_identity d) = length (source_identity d').
Proof.
  intros Hd Hd' H. rewrite !signature_message_lines in H. apply (f_equal (split line_feed)) in H.
  pose proof (signed_lines_one_line d Hd) as Hl. pose proof (signed_lines_one_line d' Hd') as Hl'.
  rewrite !text_lines_split, !(bind_app _ _ [_]), (lines_bind _ Hl), (lines_bind _ Hl') in H.
  apply (f_equal (λ l, l !! 4%nat)) in H.
  unfold source_identity in *. pose proof (ok_source _ Hd) as Hs. pose proof (ok_source _ Hd') as Hs'.
  unfold validate_source_identity in Hs, Hs'.
  assert (∀ n, show n ≠ ARCHITECTURE) as Hne.
  { intros n E. pose proof (show_one_line n). destruct (decide (0 ≤ n)) as [Hn|Hn].
    - destruct (show_digits n Hn) as [Hdig _]. rewrite E in Hdig. by vm_compute in Hdig.
    - destruct n as [|p|p]; [lia|lia|].
      change (String "-" (show (Zpos p)) = ARCHITECTURE) in E. discriminate E. }
  destruct (wd_manage_source_sha256 d), (wd_manage_source_size_bytes d); try discriminate;
  destruct (wd_manage_source_sha256 d'), (wd_manage_source_size_bytes d'); try discriminate; try done;
  exfalso; lazy beta iota delta [signed_head signed_front app lookup list_lookup] in H; injection H as H.
  - rewrite (ok_architecture _ Hd') in H. exact (Hne _ H).
  - rewrite (ok_architecture _ Hd) in H. exact (Hne _ (eq_sym H)).
Qed.

(** A descriptor without its signature. *)
Definition unsigned (d : WorkstationNetbootDescriptor) : WorkstationNetbootDescriptor := {|
  wd_schema := wd_schema d; wd_runtime_version := wd_runtime_version d;
  wd_manage_source_revision := wd_manage_source_revision d;
  wd_manage_source_sha256 := wd_manage_source_sha256 d;
  wd_manage_source_size_bytes := wd_manage_source_size_bytes d;
  wd_nixpkgs_revision := wd_nixpkgs_revision d; wd_architecture := wd_architecture d;
  wd_format := wd_format d; wd_required_nest_protocol := wd_required_nest_protocol d;
  wd_url := wd_url d; wd_sha256 := wd_sha256 d; wd_size_bytes := wd_size_bytes d;
  wd_manifest_sha256 := wd_manifest_sha256 d; wd_components := wd_components d; wd_signature := "" |}.

Lemma source_identity_inj d d' :
  descriptor_ok d → descriptor_ok d' → source_identity d = source_identity d' →
  wd_manage_source_sha256 d = wd_manage_source_sha256 d' ∧
  wd_manage_source_size_bytes d = wd_manage_source_size_bytes d'.
Proof.
  intros Hd Hd'. pose proof (ok_source _ Hd) as Hs. pose proof (ok_source _ Hd') as Hs'.
  unfold validate_source_identity, source_identity in *.
  destruct (wd_manage_source_sha256 d), (wd_manage_source_size_bytes d); try discriminate;
  destruct (wd_manage_source_sha256 d'), (wd_manage_source_size_bytes d'); try discriminate; try done.
  by intros [= <-%(inj show) <-].
Qed.

(** C24. The signed text binds the descriptor.  Two descriptors that pass validation
    and have the same signed text are equal in every field but the signature, with or
    without a source archive, and even where the URL is written over several lines: a
    signature cannot be moved to another descriptor. *)
Theorem signature_binds_the_descriptor d d' trusted private trusted' private' :
  validate_descriptor_with_policy d trusted private = Ok tt →
  validate_descriptor_with_policy d' trusted' private' = Ok tt →
  signature_message d = signature_message d' → unsigned d = unsigned d'.
Proof.
  intros Hd%validated_descriptor_ok Hd'%validated_descriptor_ok H.
  pose proof (source_identity_length _ _ Hd Hd' H) as Hlen. rewrite !signature_message_lines in H.
  apply text_lines_inj in H as (Hf & Hurl & _); [|by apply signed_lines_one_line..|constructor|constructor|done|].
  2:{ rewrite !length_app, Hlen. done. }
  apply app_inj_1 in Hf as [Hhead Hf]; [|done]. apply app_inj_1 in Hf as [Hsrc Hfront]; [|done].
  destruct (source_identity_inj _ _ Hd Hd' Hsrc) as [Hs1 Hs2]. clear Hsrc Hlen.
  pose proof (ok_schema _ Hd). pose proof (ok_schema _ Hd').
  destruct d as [? ? ? ? ? ? ? ? ? ? ? ? ? [[] [] []] ?], d' as [? ? ? ? ? ? ? ? ? ? ? ? ? [[] [] []] ?].
  unfold signed_head, signed_front, component_lines, unsigned in *. simpl in *. simplify_eq. done.
Qed.

End Signed.

(** ** Boot grants *)

(** The claims that a session is granted: one line each but for the URL, which is
    configured, and no empty identity. *)
Record claims_ok (c : BootGrantClaims) : Prop := {
  ck_lines : Forall (λ s, one_line s = true)
    [bg_nest_device_id c; bg_organization_id c; bg_organization_slug c; bg_bundle_sha256 c;
     default "" (bg_profile_id c); bg_mac c; default "" (bg_managed_device_id c);
     default "" (bg_reinstall_request_id c); bg_nonce c];
  ck_profile : bg_profile_id c ≠ Some "";
  ck_device : bg_managed_device_id c ≠ Some "";
  ck_request : bg_reinstall_request_id c ≠ Some "";
}.

Lemma default_empty_inj (o o' : option string) :
  o ≠ Some "" → o' ≠ Some "" → default "" o = default "" o' → o = o'.
Proof. destruct o, o'; simpl; congruence. Qed.

Lemma grant_message_inj c c' :
  claims_ok c → claims_ok c' → boot_grant_message c = boot_grant_message c' → c = c'.
Proof.
  intros [Hl ? ? ?] [Hl' ? ? ?] H.
  change (boot_grant_message ?c) with (text_lines ([BOOT_GRANT_DOMAIN; bg_nest_device_id c; bg_organization_id c;
    bg_organization_slug c] ++ bg_manage_api_url c :: [bg_bundle_sha256 c; default "" (bg_profile_id c);
    bg_mac c; default "" (bg_managed_device_id c); default "" (bg_reinstall_request_id c);
    show (bg_issued_at c); show (bg_expires_at c); bg_nonce c])) in H.
  rewrite !Forall_cons in Hl, Hl'. destruct_and! Hl. destruct_and! Hl'.
  apply text_lines_inj in H as (Hf & Hu & Hb); [|repeat apply Forall_cons_2; try constructor;
    by (done || apply show_one_line)..|done|done].
  injection Hf as ? ? ?. injection Hb as ? Hp ? Hm Hr ?%(inj show) ?%(inj show) ?.
  apply default_empty_inj in Hp; [|done..]. apply default_empty_inj in Hm; [|done..].
  apply default_empty_inj in Hr; [|done..]. destruct c, c'; simpl in *; congruence.
Qed.
