(* ===== verification/SessionProofs.v ===== *)
(** * The workstation runtime: live sessions

    A boot session is good for ten minutes, and a bundle that is no longer the
    active one is kept for seven days.  Pruning selects bundles in one statement and
    deletes them in another, without looking at the sessions again; this file proves
    that it nevertheless never deletes a bundle that a live session boots. *)

From stdpp Require Import sorting base gmap list strings relations.
From Stdlib Require Import Ascii ZArith Lia.
From S2P Require Import Prelude Async RustStr RustText Json DbText Net NixBase32 NarInfo Multicast Boot BootStore Runtime RuntimeStore RuntimeSessions RuntimeProofs DescriptorProofs.

#[local] Open Scope Z_scope.
#[local] Open Scope nest_scope.

Section Sheltered.
Context {deps : RuntimeDeps} {serde : Serde} {ed25519 : Ed25519} (cfg : RuntimeConfig).

(** The bundle that a session issued at [t] boots is there, or the session is over. *)
Definition sheltered (b : string) (t : Z) (w : RuntimeWorld) : Prop :=
  t + BOOT_GRANT_LIFETIME_SECONDS < seconds w ∨
  ∃ row, rw_bundles w !! b = Some row ∧
    (bn_verified row = false ∨ rr_active (rw_runtime w) = b ∨ bn_retained_until row = None ∨
     ∃ until, bn_retained_until row = Some until ∧ t + BUNDLE_RETENTION_SECONDS ≤ until).

(** The bundle is not both active and due at [n]. *)
Definition guarded (b : string) (n : Z) (w : RuntimeWorld) : Prop :=
  ∀ row until, rw_bundles w !! b = Some row → bn_verified row = true →
    rr_active (rw_runtime w) = b → bn_retained_until row = Some until → n ≤ until.

Record shelters (w w' : RuntimeWorld) : Prop := {
  sh_clock : rw_clock w ≤ rw_clock w';
  sh_sheltered b t : t ≤ seconds w → sheltered b t w → sheltered b t w';
  sh_guarded b n : n ≤ seconds w → guarded b n w → guarded b n w';
}.

Lemma seconds_mono w w' : rw_clock w ≤ rw_clock w' → seconds w ≤ seconds w'.
Proof. intros. unfold seconds. apply Z.div_le_mono; lia. Qed.

#[export] Instance shelters_preorder : PreOrder shelters.
Proof.
  split; [done|]. intros w1 w2 w3 H12 H23.
  pose proof (seconds_mono _ _ (sh_clock _ _ H12)). split.
  - pose proof (sh_clock _ _ H12). pose proof (sh_clock _ _ H23). lia.
  - intros b t Ht Hb. apply (sh_sheltered _ _ H23); [lia|]. by apply (sh_sheltered _ _ H12).
  - intros b n Hn Hb. apply (sh_guarded _ _ H23); [lia|]. by apply (sh_guarded _ _ H12).
Qed.

Record sessions_ok (w : RuntimeWorld) : Prop := {
  so_named : rw_bundles w !! "" = None;
  so_sessions id s : rw_sessions w !! id = Some s →
    sn_expires_at s = sn_issued_at s + BOOT_GRANT_LIFETIME_SECONDS ∧
    sn_issued_at s ≤ seconds w ∧ sheltered (sn_bundle s) (sn_issued_at s) w;
}.

(** A step that keeps the sessions it finds. *)
Definition calm (w w' : RuntimeWorld) : Prop := sessions_ok w → sessions_ok w' ∧ shelters w w'.

#[export] Instance calm_preorder : PreOrder calm.
Proof.
  split; [done|]. intros w1 w2 w3 H12 H23 H1. destruct (H12 H1) as [H2 ?].
  destruct (H23 H2) as [? ?]. split; [done|by etrans].
Qed.

(** Steps along [shelters] that add no session keep the invariant. *)
Lemma shelters_calm w w' :
  (sessions_ok w → shelters w w' ∧ rw_bundles w' !! "" = None) →
  rw_sessions w' ⊆ rw_sessions w → calm w w'.
Proof.
  intros H Hsub Hok. destruct (H Hok) as [Hsh Hnamed]. split; [|done]. split; [done|].
  intros id s Hs. pose proof (lookup_weaken _ _ _ _ Hs Hsub) as Hs'.
  destruct (so_sessions _ Hok _ _ Hs') as (? & ? & ?). pose proof (seconds_mono _ _ (sh_clock _ _ Hsh)).
  split; [done|]. split; [lia|]. by apply (sh_sheltered _ _ Hsh).
Qed.

Lemma shelters_frame w w' :
  rw_clock w ≤ rw_clock w' → rr_active (rw_runtime w') = rr_active (rw_runtime w) →
  rw_bundles w' = rw_bundles w → shelters w w'.
Proof.
  intros Hc Ha Hb. pose proof (seconds_mono _ _ Hc).
  split; [done|unfold sheltered; intros b t Ht [Hover|Hrow]|unfold guarded; intros b n Hn].
  - left. lia.
  - right. by rewrite Ha, Hb.
  - by rewrite Ha, Hb.
Qed.

Lemma calm_frame w w' :
  rw_clock w ≤ rw_clock w' → rr_active (rw_runtime w') = rr_active (rw_runtime w) →
  rw_bundles w' = rw_bundles w → rw_sessions w' ⊆ rw_sessions w → calm w w'.
Proof.
  intros Hc Ha Hb Hs. apply shelters_calm; [|done]. intros Hok.
  split; [by apply shelters_frame|]. rewrite Hb. by apply so_named.
Qed.

Lemma calm_tick i w : calm w (tick i w).
Proof. apply calm_frame; simpl; [lia|done..]. Qed.
#[local] Hint Resolve calm_tick : framed.

(** *** Changes of bundles *)

Lemma calm_insert_bundle d epoch w : wd_sha256 d ≠ "" → calm w (insert_bundle cfg d epoch w).
Proof.
  intros Hd. unfold insert_bundle.
  assert (∀ row, bn_retained_until row = Some (retained_until w) →
    calm w (set_bundles (<[wd_sha256 d := row]> (rw_bundles w)) w)) as Hins.
  { intros row Hrow. apply shelters_calm; [|done]. intros Hok.
    split; [|simpl; rewrite lookup_insert_ne by done; by apply so_named].
    unfold retained_until in Hrow. split; [done|intros b t Ht [Hover|(r & Hr & Hcase)]|intros b n Hn Hg r until Hr Hv Ha Hu].
    - by left.
    - right. simpl. destruct (decide (b = wd_sha256 d)) as [->|Hne].
      + rewrite lookup_insert_eq. eexists. split; [done|]. right; right; right. eexists. split; [done|]. lia.
      + rewrite lookup_insert_ne by done. eauto.
    - simpl in *. destruct (decide (b = wd_sha256 d)) as [->|Hne].
      + rewrite lookup_insert_eq in Hr. simplify_eq.
        unfold BUNDLE_RETENTION_SECONDS. lia.
      + rewrite lookup_insert_ne in Hr by done. by eapply Hg. }
  destruct (rw_bundles w !! wd_sha256 d) as [b|]; [|by apply Hins].
  case_match; [by apply Hins|reflexivity].
Qed.

Lemma retain_verified_cases until b :
  (bn_verified b = false ∧ retain_verified until b = b) ∨
  (bn_verified b = true ∧ bn_verified (retain_verified until b) = true ∧
   bn_retained_until (retain_verified until b) = until).
Proof. unfold retain_verified. destruct (bn_verified b) eqn:E; [right|by left]. by rewrite <-E at 1. Qed.

Lemma promoted_lookup sha256 w b row :
  rw_bundles w !! b = Some row →
  ∃ row', promoted_bundles sha256 w !! b = Some row' ∧
    (b = sha256 → bn_verified row' = false ∨ bn_retained_until row' = None) ∧
    (b ≠ sha256 → rr_active (rw_runtime w) ≠ b → row' = row) ∧
    (b ≠ sha256 → rr_active (rw_runtime w) = b → b ≠ "" →
       bn_verified row' = false ∨ bn_retained_until row' = Some (retained_until w)).
Proof.
  intros Hrow. unfold promoted_bundles. set (old := rr_active (rw_runtime w)).
  destruct (decide (b = sha256)) as [->|Hne].
  - rewrite lookup_alter_eq.
    assert (∃ r, (if negb (is_empty old) && negb (bool_decide (old = sha256))
      then alter (retain_verified (Some (retained_until w))) old (rw_bundles w) else rw_bundles w)
      !! sha256 = Some r) as [r ->].
    { case_match; [|eauto]. destruct (decide (old = sha256)) as [->|].
      - rewrite bool_decide_true in * by done. by rewrite andb_false_r in *.
      - rewrite lookup_alter_ne by done. eauto. }
    eexists. split; [done|]. split; [|done].
    intros _. destruct (retain_verified_cases None r) as [[? ->]|(?&?&?)]; auto.
  - rewrite lookup_alter_ne by done. destruct (decide (old = b)) as [<-|Hold].
    + destruct (is_empty old) eqn:Ee; cbn [negb andb].
      * exists row. split; [done|]. split; [done|]. split; [done|]. intros _ _ Hb.
        apply bool_decide_eq_true in Ee. done.
      * rewrite bool_decide_false by done. cbn [negb]. rewrite lookup_alter_eq, Hrow. eexists. split; [done|].
        split; [done|]. split; [done|]. intros _ _ _.
        destruct (retain_verified_cases (Some (retained_until w)) row) as [[? ->]|(?&?&?)]; auto.
    + exists row. split; [|done]. case_match; [by rewrite lookup_alter_ne|done].
Qed.

Lemma promoted_none sha256 w b : rw_bundles w !! b = None → promoted_bundles sha256 w !! b = None.
Proof.
  intros Hb. unfold promoted_bundles. case_match;
    repeat (apply lookup_alter_None || (rewrite lookup_alter_None)); done.
Qed.

Lemma calm_promote sha256 r m w :
  rr_active r = sha256 →
  calm w (set_runtime r (set_watermarks m (set_bundles (promoted_bundles sha256 w) w))).
Proof.
  intros Hr. apply shelters_calm; [|done]. intros Hok.
  split; [|by apply promoted_none, so_named].
  split; [done|intros b t Ht [Hover|(row & Hrow & Hcase)]|intros b n Hn Hg row until Hrow Hv Ha Hu]; [by left| |].
  - right. destruct (promoted_lookup sha256 w b row Hrow) as (row' & Hrow' & Hsame & Hother & Hold).
    exists row'. split; [done|]. simpl. destruct (decide (b = sha256)) as [->|Hne].
    { destruct (Hsame eq_refl); auto. }
    destruct (decide (rr_active (rw_runtime w) = b)) as [Ea|Hna].
    + assert (b ≠ "") as Hb by (intros ->; by rewrite (so_named _ Hok) in Hrow).
      destruct (Hold Hne Ea Hb) as [?|E]; [by left|]. right; right; right. eexists. split; [done|].
      unfold retained_until. lia.
    + rewrite (Hother Hne Hna). destruct Hcase as [?|[?|?]]; auto. congruence.
  - simpl in *. subst b. rewrite Hr in Hrow.
    destruct (rw_bundles w !! sha256) as [row0|] eqn:E0; [|by rewrite promoted_none in Hrow].
    destruct (promoted_lookup sha256 w sha256 row0 E0) as (row' & Hrow' & Hsame & _).
    rewrite Hrow' in Hrow. simplify_eq. destruct (Hsame eq_refl); congruence.
Qed.

(** *** Tasks *)

Ltac calm_step :=
  first [ reflexivity
        | apply calm_frame; simpl; [lia|done|done|done]
        | apply calm_insert_bundle; done
        | apply calm_promote; done ].
Ltac calm_walk := framed_walk; try (repeat case_match; simplify_eq; calm_step).

Lemma calm_set_runtime_state status p b t : framed calm (set_runtime_state status p b t).
Proof. unfold set_runtime_state. calm_walk. Qed.
#[local] Hint Resolve calm_set_runtime_state : framed.

Lemma calm_persist c downloaded total force :
  framed calm (persist_download_progress c downloaded total force).
Proof. unfold persist_download_progress, clock_now. calm_walk. Qed.
#[local] Hint Resolve calm_persist : framed.

Lemma calm_chunks name total chunks downloaded c :
  framed calm (download_chunks name total chunks downloaded c).
Proof.
  revert downloaded c. induction chunks as [|[chunk|] chunks IH]; intros downloaded c;
    cbn [download_chunks]; calm_walk.
Qed.
#[local] Hint Resolve calm_chunks : framed.

Lemma calm_import d epoch transport :
  wd_sha256 d ≠ "" → framed calm (import_bundle cfg d epoch transport).
Proof.
  intros Hd. unfold import_bundle, discard_other_partials, download_bundle, clock_now, resume_offset,
    request, hash_part, remove_part, lease_active, extract_part, publish_verified_stage. calm_walk.
Qed.

Lemma calm_attempt epoch generation identity kind :
  framed calm (record_reconcile_attempt epoch generation identity kind).
Proof. unfold record_reconcile_attempt. calm_walk. Qed.
#[local] Hint Resolve calm_attempt : framed.

Lemma calm_decode_failure value kind message :
  framed calm (record_desired_decode_failure cfg value kind message).
Proof.
  unfold record_desired_decode_failure, record_desired_state, record_decode_failure,
    reconcile_attempt_is_due. calm_walk.
Qed.

Lemma calm_admit d sha256 epoch generation :
  framed calm (admit_reconcile_identity cfg d sha256 epoch generation).
Proof. unfold admit_reconcile_identity. calm_walk. Qed.
#[local] Hint Resolve calm_admit : framed.

Lemma calm_promote_existing d json sha256 epoch generation :
  framed calm (promote_existing cfg d json sha256 epoch generation).
Proof. unfold promote_existing. calm_walk. Qed.
#[local] Hint Resolve calm_promote_existing : framed.

Lemma framed_lift_try {A B} P (r : result Failure A) (f : A → rtask (result Failure B)) :
  (∀ a, r = Ok a → framed P (f a)) → framed P (try_bind (lift r) f).
Proof. intros Hf. destruct r as [a|e]; [by apply Hf|done]. Qed.

Lemma validated_sha256_nonempty desired trusted private :
  validate_desired desired trusted private = Ok tt → wd_sha256 (dw_descriptor desired) ≠ "".
Proof.
  intros H E. unfold validate_desired in H. checks H. destruct x.
  apply validated_descriptor_ok in Hx. pose proof (ok_sha256 _ Hx) as Hs. by rewrite E in Hs.
Qed.

Lemma calm_reconcile desired : framed calm (reconcile_desired cfg desired).
Proof.
  unfold reconcile_desired. cbv zeta. apply framed_try; [unfold reconcile_attempt_is_due; calm_walk|].
  intros []; [|done]. cbn [negb]. apply framed_bind.
  - unfold reconcile_desired_inner. cbv zeta. do 2 (apply framed_lift_try; intros _ _).
    apply framed_lift_try. intros [] Hv%validated_sha256_nonempty.
    pose proof (calm_import (dw_descriptor desired) (dw_compatibility_epoch desired)
                  (dw_bundle_transport_url desired) Hv).
    unfold lease_active. calm_walk.
  - unfold record_failure_for_attempt, clear_reconcile_attempt. calm_walk.
Qed.

Lemma calm_remove_sessions now rows removed : framed calm (remove_sessions cfg now rows removed).
Proof.
  revert removed. induction rows as [|[id row] rows IH]; intros removed; cbn [remove_sessions]; calm_walk.
  apply calm_frame; [done..|]. apply delete_subseteq.
Qed.
#[local] Hint Resolve calm_remove_sessions : framed.

(** *** Safety under interleaving *)

Abbreviation holds p := (safe sessions_ok shelters p) (only parsing).

Lemma calm_safe {A} (p : rtask A) (S : RuntimeWorld → Prop) w0 :
  (∀ w w', S w → shelters w w' → S w') → framed calm p → S w0 → holds p (λ _ w, S w) w0.
Proof.
  intros HS. apply (framed_safe calm); [apply _| |done]. intros w w' HI Hc. by apply Hc.
Qed.

Lemma calm_holds {A} (p : rtask A) w0 : framed calm p → holds p (λ _ _, True) w0.
Proof. intros Hp. by apply (calm_safe p (λ _, True)). Qed.

(** A statement, with what it establishes. *)
Lemma stmt_holds {B} (f : RuntimeInput → RuntimeWorld → result Failure B * RuntimeWorld)
    (Q : result Failure B → RuntimeWorld → Prop) w0 :
  (∀ w, Q (Err database_failure) w) →
  (∀ i w, sessions_ok w → shelters w0 w →
     sessions_ok (f i w).2 ∧ shelters w (f i w).2 ∧ Q (f i w).1 (f i w).2) →
  holds (stmt f) Q w0.
Proof.
  intros Herr Hf i w HI HG. destruct (calm_tick i w HI) as [HI' HG'].
  destruct (ri_fault i); [split; [done|]; split; [done|apply Herr]|].
  destruct (Hf i (tick i w) HI') as (? & ? & ?); [by etrans|]. split; [done|]. split; [by etrans|done].
Qed.

Lemma guarded_stable b n w w' :
  guarded b n w ∧ n ≤ seconds w → shelters w w' → guarded b n w' ∧ n ≤ seconds w'.
Proof.
  intros [Hg Hn] Hsh. pose proof (seconds_mono _ _ (sh_clock _ _ Hsh)). split; [by eapply sh_guarded|lia].
Qed.

(** The deletion of a bundle that is guarded takes it from no live session. *)
Lemma delete_shelters i b n w :
  guarded b n w → n ≤ seconds w → deletable i b n w = true →
  shelters w (set_bundles (delete b (rw_bundles w)) w).
Proof.
  intros Hg Hn Hdel. unfold deletable in Hdel.
  destruct (rw_bundles w !! b) as [row|] eqn:Hrow; [|done].
  destruct (bn_retained_until row) as [until|] eqn:Hu; [|by rewrite andb_false_r in Hdel].
  bool_prop. split; [done| |].
  - intros b' t Ht [Hover|(row' & Hrow' & Hcase)]; [by left|].
    destruct (decide (b' = b)) as [->|Hne].
    + left. simplify_eq. destruct Hcase as [?|[Ha|[?|(u & Eu & Hu')]]]; [congruence| |congruence|].
      * pose proof (Hg row until Hrow ltac:(done) Ha Hu). lia.
      * assert (u = until) as -> by congruence. change (t + BOOT_GRANT_LIFETIME_SECONDS < seconds w).
        unfold BOOT_GRANT_LIFETIME_SECONDS, BUNDLE_RETENTION_SECONDS in *. lia.
    + right. exists row'. simpl. by rewrite lookup_delete_ne.
  - intros b' n' Hn' Hg' row' u Hrow'. simpl in *. apply lookup_delete_Some in Hrow' as [_ Hrow'].
    by eapply Hg'.
Qed.

Definition all_guarded (n : Z) (rows : list (string * BundleRow)) (w : RuntimeWorld) : Prop :=
  Forall (λ e, guarded e.1 n w ∧ n ≤ seconds w) rows.

Lemma all_guarded_stable n rows w w' : all_guarded n rows w → shelters w w' → all_guarded n rows w'.
Proof. intros H Hsh. eapply Forall_impl; [exact H|]. intros e He. exact (guarded_stable _ _ _ _ He Hsh). Qed.

(** What is stable through a calm task. *)
Lemma calm_seq {A B} (p : rtask (result Failure A)) (f : A → rtask (result Failure B))
    (S : RuntimeWorld → Prop) w0 :
  (∀ w w', S w → shelters w w' → S w') → framed calm p → S w0 →
  (∀ a w, S w → holds (f a) (λ _ _, True) w) → holds (try_bind p f) (λ _ _, True) w0.
Proof.
  intros HS Hp Hw Hf. apply safe_try_bind. eapply safe_mono; [|by eapply calm_safe].
  intros [a|e] w Hw'; [by apply Hf|done].
Qed.

Lemma delete_row_holds b n w0 (S : RuntimeWorld → Prop) :
  (∀ w w', S w → shelters w w' → S w') → S w0 → guarded b n w0 ∧ n ≤ seconds w0 →
  holds (delete_row b n) (λ _ w, S w) w0.
Proof.
  intros HS Hw0 Hg i w HI HG. destruct (calm_tick i w HI) as [HI1 HG1]. set (w1 := tick i w) in *.
  pose proof (HS _ _ (HS _ _ Hw0 HG) HG1) as Hw1.
  destruct (guarded_stable _ _ _ _ (guarded_stable _ _ _ _ Hg HG) HG1) as [Hg1 Hn1].
  destruct (ri_fault i); [done|]. destruct (deletable i b n w1) eqn:Hdel; [|done]. simpl.
  pose proof (delete_shelters _ _ _ _ Hg1 Hn1 Hdel) as Hsh.
  destruct (shelters_calm w1 (set_bundles (delete b (rw_bundles w1)) w1)) as [? _]; [|done|done|].
  { intros Hok. split; [done|]. simpl. apply lookup_delete_None. right. by apply so_named. }
  split; [done|]. split; [by etrans|]. by eapply HS.
Qed.

Lemma prune_holds n rows removed w0 :
  all_guarded n rows w0 → holds (prune_loop cfg n rows removed) (λ _ _, True) w0.
Proof.
  revert removed w0. induction rows as [|[b row] rows IH]; intros removed w0 Hall; [done|].
  cbn [prune_loop]. apply Forall_cons in Hall as [Hb Hall].
  set (S := λ w, (guarded b n w ∧ n ≤ seconds w) ∧ all_guarded n rows w).
  assert (∀ w w', S w → shelters w w' → S w') as HS.
  { intros w w' [H1 H2] Hsh. split; [exact (guarded_stable _ _ _ _ H1 Hsh)|by eapply all_guarded_stable]. }
  assert (∀ w w', all_guarded n rows w → shelters w w' → all_guarded n rows w') as Hst.
  { intros w w'. apply all_guarded_stable. }
  apply (calm_seq _ _ S w0 HS); [apply framed_lift|done|]. intros _ w [H1 H2].
  case_match; [by apply IH|].
  apply (calm_seq _ _ S w HS); [unfold entomb; calm_walk|by split|]. intros [tombstone|] w1 [H3 H4]; [|by apply IH].
  apply safe_bind. eapply safe_mono; [|by eapply (delete_row_holds _ _ _ _ Hst)].
  intros [[]|e] w2 Hw2; (apply (calm_seq _ _ _ _ Hst); [unfold restore_tree; calm_walk|done|]);
    intros _ w3 Hw3; [by apply IH|by apply IH|done].
Qed.

Lemma prunable_guarded i w : all_guarded (seconds w) (prune_rows i w) w.
Proof.
  apply Forall_take. unfold order_by. rewrite merge_sort_Permutation. apply Forall_forall.
  intros [b row] Hin%list_elem_of_In. apply filter_In in Hin as [_ Hp]. unfold prunable in Hp.
  split; [|done]. intros row' until _ _ Ha _. simpl in *.
  apply andb_true_iff in Hp as [[[[_ Hp]%andb_true_iff _]%andb_true_iff _]%andb_true_iff _].
  by rewrite bool_decide_true in Hp.
Qed.

(** The row of a session that boots a bundle that is there. *)
Definition row_sheltered (s : SessionRow) (w : RuntimeWorld) : Prop :=
  sn_expires_at s = sn_issued_at s + BOOT_GRANT_LIFETIME_SECONDS ∧
  sn_issued_at s ≤ seconds w ∧ sheltered (sn_bundle s) (sn_issued_at s) w.

Lemma row_sheltered_stable s w w' : row_sheltered s w → shelters w w' → row_sheltered s w'.
Proof.
  intros (? & ? & ?) Hsh. pose proof (seconds_mono _ _ (sh_clock _ _ Hsh)).
  split; [done|]. split; [lia|]. by apply (sh_sheltered _ _ Hsh).
Qed.

Lemma active_bundle_Some w sha256 row :
  active_bundle w = Some (sha256, row) →
  sha256 = rr_active (rw_runtime w) ∧ rw_bundles w !! sha256 = Some row ∧
  bn_verified row = true ∧ bn_epoch row = COMPATIBILITY_EPOCH.
Proof.
  unfold active_bundle, verified_at_epoch. destruct (rw_bundles w !! _) as [b|] eqn:E; [|done].
  destruct (bn_verified b) eqn:Ev; [|done]. simpl. destruct (Z.eqb_spec (bn_epoch b) COMPATIBILITY_EPOCH); [|done].
  intros [= <- <-]. done.
Qed.

Lemma prepare_sheltered q i w id row body l :
  prepare_session cfg q i w = Ok (id, row, body, l) → row_sheltered row w.
Proof.
  intros H. unfold prepare_session in H. apply rbind_Ok in H as ([sha256 b] & Ha & H).
  cbv beta iota in H. checks H. injection H as <- <- <- <-. rewrite some_or_Ok in Ha.
  apply active_bundle_Some in Ha as (-> & Hb & _).
  split; [done|]. split; [done|]. right. exists b. simpl. auto.
Qed.

Lemma insert_session_ok id row w :
  sessions_ok w → row_sheltered row w → sessions_ok (set_sessions (<[id := row]> (rw_sessions w)) w).
Proof.
  intros Hok Hrow. split; [apply (so_named _ Hok)|]. intros id' s Hs. simpl in Hs.
  destruct (decide (id' = id)) as [->|Hne].
  - rewrite lookup_insert_eq in Hs. simplify_eq. apply Hrow.
  - rewrite lookup_insert_ne in Hs by done. apply (so_sessions _ Hok _ _ Hs).
Qed.

Lemma session_holds q w0 : holds (create_boot_session cfg q) (λ _ _, True) w0.
Proof.
  unfold create_boot_session. apply (calm_seq _ _ (λ _, True)); [done|apply framed_lift|done|].
  intros _ w1 _. apply safe_try_bind.
  apply safe_mono with (Q := λ r w, match r with Ok (_, row, _) => row_sheltered row w | Err _ => True end).
  2:{ apply stmt_holds; [done|]. intros i w HI _.
    destruct (prepare_session cfg q i w) as [[[[id row] body] l]|e] eqn:E; [|done].
    apply prepare_sheltered in E. unfold write_context.
    destruct (ri_io i), (rw_contexts w !! id); try done. simpl.
    destruct (calm_frame w (set_contexts (<[id:=body]> (rw_contexts w)) w)) as [? Hsh]; [done..|].
    split; [done|]. split; [done|]. by eapply row_sheltered_stable. }
  intros [[[id row] l]|e] w2 Hrow; [|done]. cbv beta iota. apply safe_bind.
  apply safe_mono with (Q := λ _ _, True).
  { intros [[]|e] w3 _; apply calm_holds; calm_walk. }
  apply stmt_holds; [done|]. intros i w HI Hsh. case_match; [|done]. simpl.
  split; [|split; [by apply shelters_frame|done]].
  apply insert_session_ok; [done|]. by eapply row_sheltered_stable.
Qed.

(** The handlers but for scrubbing, which may quarantine the active bundle. *)
Inductive boot_entry : rtask unit → Prop :=
| boot_reconcile desired : boot_entry (reconcile_desired cfg desired ≫= λ _, Ret tt)
| boot_decode_failure value kind message :
    boot_entry (record_desired_decode_failure cfg value kind message ≫= λ _, Ret tt)
| boot_session q : boot_entry (create_boot_session cfg q ≫= λ _, Ret tt)
| boot_context_route id : boot_entry (serve_context cfg id ≫= λ _, Ret tt)
| boot_component sha256 name : boot_entry (serve_component sha256 name ≫= λ _, Ret tt)
| boot_cleanup : boot_entry (cleanup_expired_sessions cfg ≫= λ _, Ret tt)
| boot_prune : boot_entry (prune_expired_bundles cfg ≫= λ _, Ret tt).

Lemma boot_entry_holds p w0 : boot_entry p → holds p (λ _ _, True) w0.
Proof.
  intros Hp.
  assert (∀ A (q : rtask A), holds q (λ _ _, True) w0 → holds (q ≫= λ _, Ret tt) (λ _ _, True) w0) as Hret.
  { intros A q Hq. apply safe_bind. eapply safe_mono; [|exact Hq]. done. }
  destruct Hp; apply Hret.
  - apply calm_holds, calm_reconcile.
  - apply calm_holds, calm_decode_failure.
  - apply session_holds.
  - apply calm_holds. unfold serve_context. calm_walk.
  - apply calm_holds. unfold serve_component. calm_walk.
  - apply calm_holds. unfold cleanup_expired_sessions. calm_walk.
  - unfold prune_expired_bundles. apply safe_try_bind.
    apply safe_mono with (Q := λ r w, match r with Ok rows => all_guarded rows.1 rows.2 w | Err _ => True end).
    { intros [rows|e] w; [apply prune_holds|done]. }
    apply stmt_holds; [done|]. intros i w HI _. split; [done|]. split; [done|]. apply prunable_guarded.
Qed.

(** C22. However reconciliations, boot requests, the routes, the removal of sessions
    and pruning interleave, the bundle of a session that has not expired is never
    deleted, though pruning does not look at the sessions again when it deletes: the
    row is still there and, unless it was quarantined, it is the active bundle, or
    one without an end of retention, or one retained for longer than the session
    lives.  A launch reads the clock in the step in which it finds the active bundle. *)
Theorem live_sessions_keep_their_bundle w ts w' id s :
  sessions_ok w → rtc (pstep boot_entry) ([], w) (ts, w') →
  rw_sessions w' !! id = Some s → seconds w' ≤ sn_expires_at s →
  ∃ row, rw_bundles w' !! sn_bundle s = Some row ∧
    (bn_verified row = true → rr_active (rw_runtime w') ≠ sn_bundle s →
     ∀ until, bn_retained_until row = Some until → sn_expires_at s < until).
Proof.
  intros Hw Hrun Hs Hlive.
  destruct (pool_invariant_empty sessions_ok shelters boot_entry w ts w') as [Hok _]; [|done|done|].
  { intros p w0 Hp _. by apply boot_entry_holds. }
  destruct (so_sessions _ Hok _ _ Hs) as (He & _ & [Hover|(row & Hrow & Hcase)]); [lia|].
  exists row. split; [done|]. intros Hv Ha until Hu.
  destruct Hcase as [?|[?|[?|(u & Eu & ?)]]]; [congruence|congruence|congruence|].
  assert (u = until) as -> by congruence. unfold BOOT_GRANT_LIFETIME_SECONDS, BUNDLE_RETENTION_SECONDS in *. lia.
Qed.

End Sheltered.
