(* ===== verification/QuarantineProofs.v ===== *)
(** * The workstation runtime: quarantine, retries and sessions

    What a handler that runs alone answers and leaves: the fallback after a bundle
    failed its verification, the bookkeeping of retries, and the session that a
    launch opens.  [post] is the weakest precondition of a task. *)

From stdpp Require Import sorting base gmap list strings.
From Stdlib Require Import Ascii ZArith Lia.
From S2P Require Import Prelude Async RustStr RustText Json DbText Net NixBase32 NarInfo Multicast Boot BootStore Runtime RuntimeStore RuntimeSessions RuntimeProofs DescriptorProofs SessionProofs.

#[local] Open Scope Z_scope.
#[local] Open Scope nest_scope.

(** ** Weakest preconditions *)

Definition post {A} (p : rtask A) (Q : A → RuntimeWorld → Prop) (w : RuntimeWorld) : Prop :=
  ∀ env n, Q (run env n p w).1.1 (run env n p w).1.2.

Lemma post_mono {A} (p : rtask A) (Q Q' : A → RuntimeWorld → Prop) w :
  post p Q w → (∀ a w', Q a w' → Q' a w') → post p Q' w.
Proof. intros H HQ env n. apply HQ, H. Qed.

Lemma post_bind {A B} (p : rtask A) (f : A → rtask B) Q w :
  post p (λ a w', post (f a) Q w') w → post (p ≫= f) Q w.
Proof.
  intros H env n. rewrite run_bind. specialize (H env n).
  destruct (run env n p w) as [[a w1] n1]. apply H.
Qed.

Lemma post_try {A B} (p : rtask (result Failure A)) (f : A → rtask (result Failure B)) Q w :
  post p (λ r w', match r with Ok a => post (f a) Q w' | Err e => Q (Err e) w' end) w →
  post (try_bind p f) Q w.
Proof.
  intros H. apply post_bind. eapply post_mono; [exact H|].
  intros [a|e] w' HQ; [exact HQ|]. intros env n. exact HQ.
Qed.

Lemma post_lift {A} (r : result Failure A) (Q : result Failure A → RuntimeWorld → Prop) w :
  Q r w → post (lift r) Q w.
Proof. intros H env n. exact H. Qed.

Lemma post_act {B} (f : RuntimeInput → RuntimeWorld → result Failure B * RuntimeWorld) Q w :
  (∀ i, Q (f i (tick i w)).1 (f i (tick i w)).2) → post (act f) Q w.
Proof.
  intros H env n. specialize (H (env n)). unfold act, atomic, run.
  destruct (f (env n) (tick (env n) w)) as [b w']. exact H.
Qed.

Lemma post_stmt {B} (f : RuntimeInput → RuntimeWorld → result Failure B * RuntimeWorld) Q w :
  (∀ i, Q (Err database_failure) (tick i w)) →
  (∀ i, Q (f i (tick i w)).1 (f i (tick i w)).2) → post (stmt f) Q w.
Proof. intros He H. apply post_act. intros i. destruct (ri_fault i); [apply He|apply H]. Qed.

Lemma post_files {B} (f : RuntimeInput → RuntimeWorld → result Failure B * RuntimeWorld) Q w :
  (∀ i text, Q (bail text) (tick i w)) →
  (∀ i, Q (f i (tick i w)).1 (f i (tick i w)).2) → post (files f) Q w.
Proof. intros He H. apply post_act. intros i. destruct (ri_io i); [apply He|apply H]. Qed.

(** For postconditions that only speak of success. *)
Definition on_ok {A} (Q : A → RuntimeWorld → Prop) (r : result Failure A) (w : RuntimeWorld) : Prop :=
  match r with Ok a => Q a w | Err _ => True end.

Lemma ok_try {A B} (p : rtask (result Failure A)) (f : A → rtask (result Failure B)) Q w :
  post p (on_ok (λ a w', post (f a) (on_ok Q) w')) w → post (try_bind p f) (on_ok Q) w.
Proof. intros H. apply post_try. eapply post_mono; [exact H|]. by intros [a|e]. Qed.

Lemma ok_lift {A} (r : result Failure A) (Q : A → RuntimeWorld → Prop) w :
  (∀ a, r = Ok a → Q a w) → post (lift r) (on_ok Q) w.
Proof. intros H. apply post_lift. destruct r; [by apply H|done]. Qed.

Lemma ok_select {B} (f : RuntimeInput → RuntimeWorld → B) (Q : B → RuntimeWorld → Prop) w :
  (∀ i, Q (f i (tick i w)) (tick i w)) → post (select f) (on_ok Q) w.
Proof. intros H. apply post_stmt; [done|]. intros i. apply H. Qed.

Lemma ok_update (f : RuntimeInput → RuntimeWorld → RuntimeWorld) (Q : unit → RuntimeWorld → Prop) w :
  (∀ i, Q tt (f i (tick i w))) → post (update f) (on_ok Q) w.
Proof. intros H. apply post_stmt; [done|]. intros i. apply H. Qed.

Lemma ok_files {B} (f : RuntimeInput → RuntimeWorld → result Failure B * RuntimeWorld)
    (Q : B → RuntimeWorld → Prop) w :
  (∀ i a, (f i (tick i w)).1 = Ok a → Q a (f i (tick i w)).2) → post (files f) (on_ok Q) w.
Proof. intros H. apply post_files; [done|]. intros i. specialize (H i). destruct (f i _) as [[a|e] w']; [by apply H|done]. Qed.

Lemma ok_act {B} (f : RuntimeInput → RuntimeWorld → result Failure B * RuntimeWorld)
    (Q : B → RuntimeWorld → Prop) w :
  (∀ i a, (f i (tick i w)).1 = Ok a → Q a (f i (tick i w)).2) → post (act f) (on_ok Q) w.
Proof. intros H. apply post_act. intros i. specialize (H i). destruct (f i _) as [[a|e] w']; [by apply H|done]. Qed.

(** ** Falling back *)

Section Fallback.
Context {deps : RuntimeDeps} {serde : Serde} {ed25519 : Ed25519} (cfg : RuntimeConfig).

(** A bundle that boots: a verified row of this epoch, with a valid descriptor that
    its tree satisfies. *)
Definition bootable (sha256 : string) (w : RuntimeWorld) : Prop :=
  ∃ row d, rw_bundles w !! sha256 = Some row ∧ bn_verified row = true ∧
    bn_epoch row = COMPATIBILITY_EPOCH ∧ descriptor_from_str (bn_descriptor_json row) = Some d ∧
    wd_sha256 d = sha256 ∧
    validate_descriptor_with_policy d (rc_trusted_public_key cfg) (rc_allow_private cfg) = Ok tt ∧
    verify_extracted_tree (tree_at w sha256) d = Ok tt.

(** What falling back leaves of a bundle: nothing served of it. *)
Definition withdrawn (sha256 : string) (w : RuntimeWorld) : Prop :=
  ∀ row, rw_bundles w !! sha256 = Some row → bn_verified row = false.

(** The part of the world that falling back does not change. *)
Definition same_active (w w' : RuntimeWorld) : Prop :=
  rr_active (rw_runtime w') = rr_active (rw_runtime w) ∧
  rr_previous (rw_runtime w') = rr_previous (rw_runtime w).

(** What verifying does not change. *)
Definition same_store (w w' : RuntimeWorld) : Prop :=
  rw_bundles w' = rw_bundles w ∧ rw_runtime w' = rw_runtime w ∧ rw_trees w' = rw_trees w.

Lemma verify_stored_post sha256 json root w :
  post (verify_stored_bundle cfg sha256 json root)
    (λ r w', same_store w w' ∧
       (is_ok r = true → ∃ d, descriptor_from_str json = Some d ∧ wd_sha256 d = sha256 ∧
          validate_descriptor_with_policy d (rc_trusted_public_key cfg) (rc_allow_private cfg) = Ok tt ∧
          verify_extracted_tree (tree_at w sha256) d = Ok tt)) w.
Proof.
  unfold verify_stored_bundle. apply post_try, post_lift.
  match goal with |- match ?r with _ => _ end => destruct r as [d|e] eqn:H end; [|done].
  checks H. injection H as <-. destruct x2. apply bool_decide_eq_true in Hx1.
  apply post_files; [done|]. intros i. split; [done|]. simpl. change (tree_at (tick i w) sha256) with (tree_at w sha256).
  destruct (verify_extracted_tree _ x0) as [[]|e] eqn:Ev; [|done]. eauto 10.
Qed.

(** One bundle is withdrawn; the others stay. *)
Lemma quarantine_tree_post sha256 root w :
  post (quarantine_tree_only cfg sha256 root)
    (on_ok (λ _ w', rw_runtime w' = rw_runtime w ∧
       rw_bundles w' = alter (quarantined (quarantine_path cfg sha256)) sha256 (rw_bundles w))) w.
Proof.
  unfold quarantine_tree_only, release_bundle, take_tree, mark_quarantined.
  apply ok_try, ok_act. intros i [] _. apply ok_try, ok_lift. intros [] _.
  apply ok_try, ok_files. intros i2 [] _. apply ok_update. intros i3. by destruct (tree_at _ sha256).
Qed.

Definition fallback_row (b : string) (w : RuntimeWorld) (e : string * BundleRow) : Prop :=
  e.1 ≠ b ∧ rw_bundles w !! e.1 = Some e.2 ∧ bn_verified e.2 = true ∧ bn_epoch e.2 = COMPATIBILITY_EPOCH.

Lemma first_verified_post rows w b :
  NoDup rows.*1 → Forall (fallback_row b w) rows → withdrawn b w →
  post (first_verified cfg rows)
    (on_ok (λ o w', withdrawn b w' ∧ same_active w w' ∧
                    match o with Some s => s ≠ b ∧ bootable s w' | None => True end)) w.
Proof.
  revert w. induction rows as [|[s row] rows IH]; intros w Hnd Hrows Hb; cbn [first_verified].
  { by apply post_lift. }
  apply Forall_cons in Hrows as [(Hsb & Hs & Hv & He) Hrows]. apply NoDup_cons in Hnd as [Hnin Hnd].
  simpl in Hsb, Hs, Hv, He.
  apply post_bind. eapply post_mono; [apply verify_stored_post|].
  intros [[]|e] w1 [(Eb & Er & Et) Hok]; cbv beta iota.
  - destruct Hok as (d & Hd & Esha & Hval & Htree); [done|]. apply ok_try, ok_update. intros i. apply post_lift.
    split; [|split; [by unfold same_active; simpl; rewrite Er|split; [done|]]].
    + intros r Hr. simpl in Hr. rewrite Eb, lookup_alter_ne in Hr by done. by apply Hb.
    + exists (adopt_fallback (seconds (tick i w1)) row), d. unfold tree_at in *. simpl.
      rewrite Eb, Et, lookup_alter_eq, Hs. done.
  - clear Hok. apply ok_try. eapply post_mono; [apply quarantine_tree_post|].
    intros [[]|e'] w2; [|done]. intros [Er2 Eb2]. rewrite Eb in Eb2. rewrite Er in Er2.
    eapply post_mono; [apply (IH w2)|].
    + done.
    + apply Forall_forall. intros [s' row'] Hin. rewrite Forall_forall in Hrows.
      destruct (Hrows _ Hin) as (? & ? & ? & ?). split; [done|]. simpl in *. rewrite Eb2, lookup_alter_ne; [done|].
      intros ->. apply Hnin. apply list_elem_of_fmap. by exists (s', row').
    + intros r Hr. rewrite Eb2, lookup_alter_ne in Hr by done. by apply Hb.
    + unfold same_active. by rewrite Er2.
Qed.

Lemma fallback_rows_ok i b w :
  NoDup (fallback_rows i b w).*1 ∧ Forall (fallback_row b w) (fallback_rows i b w).
Proof.
  unfold fallback_rows, order_by.
  set (rows := filter _ (map_to_list (rw_bundles w))).
  assert (merge_sort (row_le (λ e : string * BundleRow, if bool_decide (e.1 = rr_previous (rw_runtime w)) then 0 else 1)
    (λ e, - bn_verified_at e.2)) (merge_sort (row_le (λ e : string * BundleRow, ri_tie i e.1) (λ _, 0)) rows) ≡ₚ rows) as Hp.
  { by rewrite !merge_sort_Permutation. }
  assert (NoDup rows.*1) as Hnd.
  { apply NoDup_fmap_2_strong; [|apply NoDup_filter, NoDup_map_to_list].
    intros [k1 r1] [k2 r2] [_ H1%elem_of_map_to_list]%list_elem_of_filter
      [_ H2%elem_of_map_to_list]%list_elem_of_filter E. simpl in E. subst. congruence. }
  split.
  - rewrite fmap_take. eapply sublist_NoDup; [|apply sublist_take]. by rewrite Hp.
  - apply Forall_take. rewrite Hp. apply Forall_forall. intros [s row] Hin.
    apply list_elem_of_filter in Hin as [[Hne Hv] Hin%elem_of_map_to_list].
    unfold verified_at_epoch in Hv. simpl in *. destruct (bn_verified row) eqn:Ev; [|done]. simpl in Hv.
    destruct (Z.eqb_spec (bn_epoch row) COMPATIBILITY_EPOCH); [|done]. done.
Qed.

Lemma take_tree_post sha256 text w :
  post (take_tree sha256 text)
    (on_ok (λ _ w', rw_runtime w' = rw_runtime w ∧ rw_bundles w' = rw_bundles w)) w.
Proof. unfold take_tree. apply ok_files. intros i a _. by destruct (tree_at _ sha256). Qed.

Lemma withdrawn_alter path b w w' :
  rw_bundles w' = alter (quarantined path) b (rw_bundles w) → withdrawn b w'.
Proof.
  intros E r Hr. rewrite E, lookup_alter_eq in Hr.
  destruct (rw_bundles w !! b); simpl in Hr; [by simplify_eq|done].
Qed.

(** C26. A bundle that fails its verification is no longer booted.  Whenever
    quarantining it succeeds with nothing else running, its row is not a verified
    one and it is neither the active nor the previous bundle.  When it was the active
    one, there is no previous bundle any more, and either no active one or a verified
    one of this epoch, with a valid descriptor that the tree on disk satisfies; another
    active bundle stays. *)
Theorem quarantine_falls_back_to_a_bootable_bundle sha256 root w env n w' n' :
  run env n (quarantine_bundle cfg sha256 root) w = (Ok tt, w', n') →
  (∀ row, rw_bundles w' !! sha256 = Some row → bn_verified row = false) ∧
  rr_active (rw_runtime w') ≠ sha256 ∧ rr_previous (rw_runtime w') ≠ sha256 ∧
  (rr_active (rw_runtime w) = sha256 → rr_previous (rw_runtime w') = "" ∧
     (rr_active (rw_runtime w') = "" ∨ bootable (rr_active (rw_runtime w')) w')) ∧
  (rr_active (rw_runtime w) ≠ sha256 → rr_active (rw_runtime w') = rr_active (rw_runtime w)).
Proof.
  intros Hrun.
  assert (post (quarantine_bundle cfg sha256 root) (on_ok (λ _ w',
    withdrawn sha256 w' ∧ rr_active (rw_runtime w') ≠ sha256 ∧ rr_previous (rw_runtime w') ≠ sha256 ∧
    (rr_active (rw_runtime w) = sha256 → rr_previous (rw_runtime w') = "" ∧
       (rr_active (rw_runtime w') = "" ∨ bootable (rr_active (rw_runtime w')) w')) ∧
    (rr_active (rw_runtime w) ≠ sha256 → rr_active (rw_runtime w') = rr_active (rw_runtime w)))) w) as H.
  2:{ specialize (H env n). by rewrite Hrun in H. }
  clear. unfold quarantine_bundle, release_bundle, mark_quarantined.
  apply ok_try, ok_lift. intros [] Hsha. assert (sha256 ≠ "") as Hne by (by intros ->).
  apply ok_try, ok_act. intros i0 [] _. apply ok_try, ok_lift. intros [] _.
  apply ok_try. eapply post_mono; [apply take_tree_post|]. intros [[]|e] w1; [|done]. intros [Er Eb].
  apply ok_try, ok_update. intros i1. set (w2 := set_bundles _ _).
  assert (withdrawn sha256 w2) as Hw2 by (by eapply withdrawn_alter).
  change (rw_runtime w2 = rw_runtime w) in Er. clearbody w2. clear i0 i1 w1 Eb.
  apply ok_try, ok_select. intros i2. cbn [fst snd]. change (rw_runtime (tick i2 w2)) with (rw_runtime w2).
  rewrite Er. case_bool_decide as Ea.
  - unfold find_verified_fallback. apply ok_try, ok_try, ok_select. intros i3.
    destruct (fallback_rows_ok i3 sha256 (tick i3 (tick i2 w2))) as [Hnd Hrows].
    eapply post_mono; [by apply (first_verified_post _ _ sha256)|]. intros [o|e] w3; [|done].
    intros (Hwd & _ & Ho). apply ok_update. intros i4. split; [exact Hwd|]. split.
    { destruct o as [s|]; simpl; [by apply Ho|done]. }
    split; [done|]. split; [|done]. intros _. split; [done|]. destruct o as [s|]; [right|by left]. apply Ho.
  - case_bool_decide as Ep.
    + apply ok_update. intros i3. simpl. rewrite Er. split; [exact Hw2|]. done.
    + apply post_lift. simpl. rewrite Er. split; [exact Hw2|]. done.
Qed.

End Fallback.

(** ** Launches *)

Section Launches.
Context {deps : RuntimeDeps} {serde : Serde} {ed25519 : Ed25519} {laws : RuntimeLaws deps} {base64 : Base64Laws deps}.
Context (cfg : RuntimeConfig).

(** The identifier of a session is one that is served. *)
Lemma session_id_valid random : valid_session_id (base64url (fill_bytes 16 random)) = true.
Proof.
  unfold valid_session_id. rewrite base64url_text, base64url_size, base64url_decodes.
  unfold fill_bytes. rewrite length_fmap, length_seq. done.
Qed.

Lemma safe_id_one_line s : is_safe_control_plane_id s = true → one_line s = true ∧ s ≠ "".
Proof.
  unfold is_safe_control_plane_id. intros H.
  apply andb_true_iff in H as [[[He _]%andb_true_iff _]%andb_true_iff Hb]. split.
  - eapply one_line_impl; [|exact Hb]. by intros a Ha ->.
  - intros ->. done.
Qed.

Lemma slug_one_line s : validate_organization_slug s = Ok tt → one_line s = true.
Proof.
  unfold validate_organization_slug. rewrite require_Ok. intros H.
  apply negb_true_iff, orb_false_iff in H as [_ H]. apply negb_false_iff in H.
  eapply one_line_impl; [|exact H]. by intros a Ha ->.
Qed.

Lemma optional_uuid_ok label o :
  optional_uuid label o = Ok tt → one_line (default "" o) = true ∧ o ≠ Some "".
Proof.
  destruct o as [s|]; simpl; [|done]. rewrite require_Ok. intros [? ?]%uuid_line. split; [done|congruence].
Qed.

(** The claims of a request that was checked. *)
Lemma grant_claims_ok q device sha256 t nonce :
  check_session_request cfg q = Ok tt → is_safe_control_plane_id device = true →
  one_line (sq_mac q) = true → one_line sha256 = true →
  claims_ok (grant_claims cfg q device sha256 t (base64url nonce)).
Proof.
  intros H Hdev%safe_id_one_line Hmac Hsha. unfold check_session_request in H. checks H.
  destruct x0, x1. apply optional_uuid_ok in Hx0 as [??]. apply optional_uuid_ok in Hx1 as [??].
  apply uuid_line in Hx3 as [??]. apply slug_one_line in H.
  assert (one_line (default "" (sq_managed_device_id q)) = true ∧ sq_managed_device_id q ≠ Some "") as [??].
  { destruct (sq_managed_device_id q); [|done]. apply safe_id_one_line in Hx2 as [??]. split; [done|congruence]. }
  split; [|done..]. repeat apply Forall_cons_2; try done; [apply Hdev|apply base64url_line].
Qed.

(** What the grant in the context of a session says, and that it says it alone. *)
Definition grants (q : SessionRequest) (s : SessionRow) (body : string) : Prop :=
  ∃ claims key, body = context_to_vec (boot_context claims key) ∧
    bg_bundle_sha256 claims = sn_bundle s ∧ bg_mac claims = sq_mac q ∧
    bg_profile_id claims = sq_profile_id q ∧ bg_managed_device_id claims = sq_managed_device_id q ∧
    bg_reinstall_request_id claims = sq_reinstall_request_id q ∧
    bg_issued_at claims = sn_issued_at s ∧ bg_expires_at claims = sn_expires_at s ∧
    (one_line (sq_mac q) = true → one_line (sn_bundle s) = true → ∀ claims', claims_ok claims' →
       boot_grant_message claims' = boot_grant_message claims → claims' = claims).

Lemma prepare_spec q i w id s body l :
  check_session_request cfg q = Ok tt → prepare_session cfg q i w = Ok (id, s, body, l) →
  valid_session_id id = true ∧ (∃ row, active_bundle w = Some (sn_bundle s, row)) ∧ grants q s body ∧
  sn_issued_at s = seconds w ∧ sn_expires_at s = seconds w + BOOT_GRANT_LIFETIME_SECONDS ∧
  sn_context_path s = context_file cfg id ∧ bl_bundle_sha256 l = sn_bundle s ∧
  bl_expires_at l = sn_expires_at s ∧
  bl_context_url l = rc_public_base_url cfg +:+ "/boot-session/" +:+ id +:+ "/context.cpio".
Proof.
  intros Hq H. unfold prepare_session in H. apply rbind_Ok in H as ([sha256 row] & Ha & H).
  cbv beta iota in H. checks H. injection H as <- <- <- <-. rewrite some_or_Ok in Ha.
  split; [apply session_id_valid|]. split; [by exists row|]. split; [|done].
  eexists _, _. split; [done|]. do 7 (split; [done|]). intros Hmac Hsha claims' Hok Hmsg.
  apply grant_message_inj in Hmsg; [done|done|]. by apply grant_claims_ok.
Qed.

Lemma create_boot_session_post q w :
  post (create_boot_session cfg q) (on_ok (λ l w', ∃ id s body, valid_session_id id = true ∧
    (∃ row, active_bundle w = Some (sn_bundle s, row)) ∧
    rw_sessions w !! id = None ∧ rw_sessions w' = <[id := s]> (rw_sessions w) ∧
    rw_contexts w' !! id = Some body ∧ grants q s body ∧
    rw_clock w ≤ rw_clock w' ∧ sn_context_path s = context_file cfg id ∧
    sn_expires_at s = sn_issued_at s + BOOT_GRANT_LIFETIME_SECONDS ∧
    bl_bundle_sha256 l = sn_bundle s ∧ bl_expires_at l = sn_expires_at s ∧
    bl_context_url l = rc_public_base_url cfg +:+ "/boot-session/" +:+ id +:+ "/context.cpio")) w.
Proof.
  unfold create_boot_session. apply ok_try, ok_lift. intros [] Hq. apply ok_try, post_stmt; [done|].
  intros i. destruct (prepare_session cfg q i (tick i w)) as [[[[id s] body] l]|e] eqn:E; [|done].
  apply prepare_spec in E as (Hid & Ha & Hg & Hi & He & Hp & Hl1 & Hl2 & Hl3); [|done]. unfold write_context.
  destruct (ri_io i), (rw_contexts (tick i w) !! id); try done. cbn [fst snd on_ok].
  set (w1 := set_contexts _ _). apply post_bind, post_stmt.
  { intros i2. apply ok_try, ok_act. intros. by apply post_lift. }
  intros i2. destruct (session_fits id s (tick i2 w1)) eqn:Hfit; cbn [fst snd].
  2:{ apply ok_try, ok_act. intros. by apply post_lift. }
  apply ok_try, ok_files. intros i3 [] _. apply post_lift. exists id, s, body.
  split; [exact Hid|]. split; [exact Ha|]. split.
  { apply andb_true_iff in Hfit as [Hfit _]. simpl in Hfit. by destruct (rw_sessions w !! id). }
  split; [done|]. split; [simpl; apply lookup_insert_eq|]. split; [done|]. split; [simpl; lia|].
  split; [done|]. split; [congruence|done].
Qed.

(** C25. A launch opens a session for the verified active bundle, and the session
    serves its grant until it expires and not after.  When a boot session is created
    with nothing else running, a new session row names the active bundle, which is
    verified and of this epoch; the context that is served at the session's URL is
    the grant for that bundle, for the requested MAC and identities and for ten
    minutes (unless the statement that looks up the session fails).  When the MAC
    address and the bundle's name are texts of one line, as they are where the code
    calls it, the text that the appliance signed is the text of no other claims whose
    texts are of one line and whose optional identities are not empty texts. *)
Theorem launched_session_serves_its_grant q w env n l w' n' :
  run env n (create_boot_session cfg q) w = (Ok l, w', n') →
  ∃ id s body, (∃ row, active_bundle w = Some (bl_bundle_sha256 l, row)) ∧
    sn_bundle s = bl_bundle_sha256 l ∧ sn_expires_at s = bl_expires_at l ∧
    sn_expires_at s = sn_issued_at s + BOOT_GRANT_LIFETIME_SECONDS ∧
    bl_context_url l = rc_public_base_url cfg +:+ "/boot-session/" +:+ id +:+ "/context.cpio" ∧
    rw_sessions w !! id = None ∧ rw_sessions w' = <[id := s]> (rw_sessions w) ∧
    grants q s body ∧
    ∀ env2 m, ri_fault (env2 m) = false →
      let '(answer, w2, _) := run env2 m (serve_context cfg id) w' in
      if sn_expires_at s <? seconds w2 then answer = Err NotFound
      else ∃ served, answer = Ok served ∧ sv_body served = body.
Proof.
  intros Hrun. pose proof (create_boot_session_post q w env n) as H. rewrite Hrun in H.
  cbn [fst snd on_ok] in H.
  destruct H as (id & s & body & Hid & Ha & Hnone & Hs & Hc & Hg & _ & Hp & He & Hl1 & Hl2 & Hl3).
  exists id, s, body. rewrite Hl1, Hl2. do 8 (split; [done|]).
  intros env2 m Hf. unfold serve_context. rewrite Hid. cbn [negb].
  unfold select, stmt, act, atomic. cbn [mbind prog_bind run]. rewrite Hf. simpl.
  rewrite Hs, lookup_insert_eq. simpl. unfold seconds. simpl. case_match; [done|].
  rewrite Hp. unfold path_eq. rewrite bool_decide_true by done. simpl. rewrite Hc. eauto.
Qed.

End Launches.

(** ** Retries *)

Section Retries.
Context {deps : RuntimeDeps} {serde : Serde} {ed25519 : Ed25519} (cfg : RuntimeConfig).

Lemma retry_delay_bounds count :
  0 < count → RECONCILE_RETRY_BASE_SECONDS ≤ retry_delay count ≤ RECONCILE_RETRY_MAX_SECONDS.
Proof.
  intros Hc. unfold retry_delay, RECONCILE_RETRY_BASE_SECONDS, RECONCILE_RETRY_MAX_SECONDS.
  assert (1 ≤ 2 ^ Z.min count 6).
  { pose proof (Z.pow_pos_nonneg 2 (Z.min count 6)). lia. }
  lia.
Qed.

Lemma attempt_row_next now kind rowid old :
  (∀ a, old = Some a → 0 < ar_count a) →
  let row := attempt_row now kind rowid old in
  0 < ar_count row ∧ ar_failure_kind row = kind ∧
  if bool_decide (kind = FAILURE_INVALID_DESCRIPTOR)
  then ∀ t, attempt_due t (Some row) = false
  else ∃ next, now + RECONCILE_RETRY_BASE_SECONDS ≤ next ≤ now + RECONCILE_RETRY_MAX_SECONDS ∧
         ∀ t, attempt_due t (Some row) = (next <=? t).
Proof.
  intros Hold. unfold attempt_row. destruct old as [a|]; simpl.
  - pose proof (retry_delay_bounds (ar_count a) (Hold a eq_refl)).
    split; [specialize (Hold a eq_refl); lia|]. split; [done|].
    case_bool_decide; [done|]. eexists. split; [|done]. lia.
  - split; [done|]. split; [done|]. case_bool_decide; [done|]. eexists. split; [|done].
    unfold RECONCILE_RETRY_BASE_SECONDS, RECONCILE_RETRY_MAX_SECONDS. lia.
Qed.

Lemma newest_attempts_spec rows :
  (size (newest_attempts rows) ≤ MAX_RECONCILE_ATTEMPT_ROWS)%nat ∧ newest_attempts rows ⊆ rows.
Proof.
  unfold newest_attempts. set (kept := take _ _).
  assert (NoDup kept.*1) as Hnd.
  { unfold kept. rewrite fmap_take. eapply sublist_NoDup; [|apply sublist_take].
    rewrite merge_sort_Permutation. apply NoDup_fst_map_to_list. }
  split.
  - rewrite map_size_list_to_map by done. unfold kept. rewrite length_take. lia.
  - apply map_subseteq_spec. intros k r Hk%elem_of_list_to_map_2.
    apply elem_of_map_to_list. rewrite <-(merge_sort_Permutation newer).
    by eapply subseteq_take.
Qed.

(** The retry rows are counted from one. *)
Definition attempts_ok (w : RuntimeWorld) : Prop :=
  ∀ key row, rw_attempts w !! key = Some row → 0 < ar_count row.

(** Failed attempts back off and never accumulate.  When a failed attempt is
    recorded with nothing else running, at most 128 rows are left, the rows of other
    identities are as they were or gone, and the row of this one, if it is left, is
    never due again for an invalid descriptor, and otherwise becomes due between half
    a minute and half an hour after the failure and stays due. *)
Theorem failed_attempts_back_off epoch generation identity kind w env n w' n' :
  attempts_ok w →
  run env n (record_reconcile_attempt epoch generation identity kind) w = (Ok tt, w', n') →
  (size (rw_attempts w') ≤ MAX_RECONCILE_ATTEMPT_ROWS)%nat ∧ attempts_ok w' ∧
  (∀ key row, key ≠ (epoch, generation, identity) → rw_attempts w' !! key = Some row →
     rw_attempts w !! key = Some row) ∧
  (∀ row, rw_attempts w' !! (epoch, generation, identity) = Some row →
     if bool_decide (kind = FAILURE_INVALID_DESCRIPTOR)
     then ∀ t, attempt_due t (Some row) = false
     else ∃ next, ar_updated row + RECONCILE_RETRY_BASE_SECONDS ≤ next
                  ≤ ar_updated row + RECONCILE_RETRY_MAX_SECONDS ∧
            ∀ t, attempt_due t (Some row) = (next <=? t)).
Proof.
  intros Hw Hrun. set (key := (epoch, generation, identity)).
  assert (post (record_reconcile_attempt epoch generation identity kind) (on_ok (λ _ w', ∃ row now rowid,
    row = attempt_row now kind rowid (rw_attempts w !! key) ∧
    rw_attempts w' = newest_attempts (<[key := row]> (rw_attempts w)))) w) as H.
  { unfold record_reconcile_attempt. apply ok_try, post_stmt; [done|]. intros i. case_match; [done|].
    apply ok_update. intros i2. eexists _, _, _. split; [done|]. done. }
  specialize (H env n). rewrite Hrun in H. destruct H as (row & now & rowid & Erow & E). simpl in E. rewrite E.
  destruct (newest_attempts_spec (<[key := row]> (rw_attempts w))) as [Hsize Hsub].
  destruct (attempt_row_next now kind rowid (rw_attempts w !! key)) as (Hc & _ & Hnext); [by apply Hw|].
  assert (ar_updated row = now) as Eup by (subst row; unfold attempt_row; by destruct (rw_attempts w !! key)).
  rewrite <-Erow in Hc, Hnext. split; [done|].
  assert (∀ k r, newest_attempts (<[key:=row]> (rw_attempts w)) !! k = Some r →
    (k = key ∧ r = row) ∨ (k ≠ key ∧ rw_attempts w !! k = Some r)) as Hcases.
  { intros k r Hk. eapply lookup_weaken in Hk; [|exact Hsub]. apply lookup_insert_Some in Hk. naive_solver. }
  split; [|split].
  - intros k r Hk. rewrite E in Hk. destruct (Hcases k r Hk) as [[-> ->]|[_ ?]]; [done|by eapply Hw].
  - intros k r Hne Hk. destruct (Hcases k r Hk) as [[? _]|[_ ?]]; done.
  - intros r Hk. destruct (Hcases key r Hk) as [[_ ->]|[? _]]; [|done]. rewrite Eup. exact Hnext.
Qed.

(** A desired state that is not due is left alone. *)
Lemma not_due_does_nothing desired w env n :
  let identity := attempt_identity (descriptor_digest (dw_descriptor desired)) (dw_bundle_transport_url desired) in
  (∀ t, attempt_due t (rw_attempts w !! (dw_compatibility_epoch desired,
          dw_reconcile_generation desired, identity)) = false) →
  ∃ t, (run env n (reconcile_desired cfg desired) w).1.2 = set_clock t w.
Proof.
  intros identity Hdue. unfold reconcile_desired, reconcile_attempt_is_due, select, stmt, act, atomic.
  cbv zeta. rewrite run_try_bind. cbn [run]. destruct (ri_fault (env n)); [by eexists|].
  unfold identity in Hdue. simpl. rewrite Hdue. by eexists.
Qed.

End Retries.
