(* ===== verification/ReconcileQueue.v ===== *)
(** * The workstation runtime: the reconcile queue

    [RECONCILE_QUEUE] of [src/netboot.rs] holds at most one request, which a newer
    one replaces, and one worker drains it.  The queue is behind a mutex: an
    [enqueue], the worker's [take] and its decision to stop are one step each, and
    requests arrive at any time while the worker handles one. *)

From stdpp Require Import base gmap list strings relations.
From Stdlib Require Import Ascii ZArith Lia.
From S2P Require Import Prelude Async RustStr RustText Json NarInfo Runtime RuntimeStore.

Inductive RuntimeReconcileRequest :=
| Desired (desired : DesiredWorkstationNetboot)
| DecodeFailure (value : Value) (failure_kind failure_message : string).

Record RuntimeReconcileQueue := {
  rq_worker_running : bool;
  rq_pending : option RuntimeReconcileRequest;
}.

Definition new_queue : RuntimeReconcileQueue := {| rq_worker_running := false; rq_pending := None |}.

(** Whether a worker is to be started, and the queue. *)
Definition enqueue (request : RuntimeReconcileRequest) (q : RuntimeReconcileQueue)
    : bool * RuntimeReconcileQueue :=
  (negb (rq_worker_running q), {| rq_worker_running := true; rq_pending := Some request |}).

(** The section of the worker's loop under the lock: the next request, or the end. *)
Definition take_request (q : RuntimeReconcileQueue)
    : option RuntimeReconcileRequest * RuntimeReconcileQueue :=
  match rq_pending q with
  | Some request =>
      (Some request, {| rq_worker_running := rq_worker_running q; rq_pending := None |})
  | None => (None, {| rq_worker_running := false; rq_pending := None |})
  end.

(** What the worker does with a request. *)
Definition handle_request {deps : RuntimeDeps} {serde : Serde} {ed25519 : Ed25519} (cfg : RuntimeConfig)
    (request : RuntimeReconcileRequest) : rtask (result Failure unit) :=
  match request with
  | Desired desired => reconcile_desired cfg desired
  | DecodeFailure value kind message => record_desired_decode_failure cfg value kind message
  end.

(** ** The machine *)

Inductive Worker := Looping | Handling (request : RuntimeReconcileRequest).

(** [qs_received] and [qs_handled] are the requests in the order they came and in
    the order they were handled to the end. *)
Record QueueState := {
  qs_queue : RuntimeReconcileQueue;
  qs_workers : list Worker;
  qs_received : list RuntimeReconcileRequest;
  qs_handled : list RuntimeReconcileRequest;
}.

Definition initial : QueueState :=
  {| qs_queue := new_queue; qs_workers := []; qs_received := []; qs_handled := [] |}.

(** [queue_runtime_reconciliation]. *)
Definition receive (request : RuntimeReconcileRequest) (s : QueueState) : QueueState :=
  let '(start, q) := enqueue request (qs_queue s) in {|
  qs_queue := q; qs_workers := if start then qs_workers s ++ [Looping] else qs_workers s;
  qs_received := qs_received s ++ [request]; qs_handled := qs_handled s |}.

(** The steps of a worker. *)
Inductive worker_step : QueueState → QueueState → Prop :=
| step_take s l r request q :
    qs_workers s = l ++ Looping :: r → take_request (qs_queue s) = (Some request, q) →
    worker_step s {| qs_queue := q; qs_workers := l ++ Handling request :: r;
                     qs_received := qs_received s; qs_handled := qs_handled s |}
| step_stop s l r q :
    qs_workers s = l ++ Looping :: r → take_request (qs_queue s) = (None, q) →
    worker_step s {| qs_queue := q; qs_workers := l ++ r;
                     qs_received := qs_received s; qs_handled := qs_handled s |}
| step_handled s l r request :
    qs_workers s = l ++ Handling request :: r →
    worker_step s {| qs_queue := qs_queue s; qs_workers := l ++ Looping :: r;
                     qs_received := qs_received s; qs_handled := qs_handled s ++ [request] |}.

Inductive queue_step : QueueState → QueueState → Prop :=
| queue_receive request s : queue_step s (receive request s)
| queue_worker s s' : worker_step s s' → queue_step s s'.

(** ** Invariant *)

Definition handling (ws : list Worker) : list RuntimeReconcileRequest :=
  omap (λ w, match w with Handling r => Some r | Looping => None end) ws.

Arguments handling : simpl never.

(** The requests that were not replaced, oldest first. *)
Definition kept (s : QueueState) : list RuntimeReconcileRequest :=
  qs_handled s ++ handling (qs_workers s) ++ option_list (rq_pending (qs_queue s)).

Record queue_ok (s : QueueState) : Prop := {
  qo_workers : length (qs_workers s) = if rq_worker_running (qs_queue s) then 1 else 0;
  qo_pending : rq_pending (qs_queue s) ≠ None → rq_worker_running (qs_queue s) = true;
  qo_order : kept s `sublist_of` qs_received s;
  qo_last : last (kept s) = last (qs_received s);
}.

Lemma one_worker s l w r : queue_ok s → qs_workers s = l ++ w :: r →
  l = [] ∧ r = [] ∧ rq_worker_running (qs_queue s) = true.
Proof.
  intros Hok E. pose proof (qo_workers _ Hok) as Hlen. rewrite E, length_app in Hlen. simpl in Hlen.
  destruct (rq_worker_running (qs_queue s)); [|lia].
  destruct l, r; simpl in Hlen; try lia. done.
Qed.

Lemma handling_snoc ws : handling (ws ++ [Looping]) = handling ws.
Proof. unfold handling. rewrite omap_app. apply app_nil_r. Qed.

Lemma receive_ok request s : queue_ok s → queue_ok (receive request s).
Proof.
  intros Hok. destruct s as [[running pending] ws received handled]. destruct Hok as [Hw Hp Ho Hl].
  unfold receive, enqueue, kept in *. simpl in *. split; simpl.
  - destruct running; simpl; [done|]. by rewrite length_app, Hw.
  - done.
  - assert (handled ++ handling ws ++ [request] `sublist_of` received ++ [request]) as H.
    2:{ unfold kept. destruct running; simpl; [done|]. by rewrite handling_snoc. }
    rewrite app_assoc. apply sublist_app; [|done]. etrans; [|exact Ho].
    rewrite app_assoc. apply sublist_inserts_r. done.
  - unfold kept. simpl. by rewrite !app_assoc, !last_snoc.
Qed.

Lemma worker_ok s s' : worker_step s s' → queue_ok s → queue_ok s'.
Proof.
  intros Hstep Hok. destruct Hstep as [s l r request q E Et|s l r q E Et|s l r request E];
    destruct (one_worker _ _ _ _ Hok E) as (-> & -> & Hrun); simpl in E;
    destruct s as [[running pending] ws received handled]; destruct Hok as [Hw Hp Ho Hl];
    unfold take_request, kept in *; simpl in *; subst ws.
  - destruct pending as [p|]; [|done]. injection Et as -> <-. by split.
  - destruct pending as [p|]; [done|]. injection Et as <-. by split.
  - split; unfold kept; simpl; [done|done|by rewrite <-!app_assoc..].
Qed.

Lemma queue_invariant s : rtc queue_step initial s → queue_ok s.
Proof.
  intros H. refine (rtc_ind_r (R:=queue_step) queue_ok initial _ _ s H); [by split|].
  intros y z _ Hyz IH. destruct Hyz; [by apply receive_ok|by eapply worker_ok].
Qed.

(** ** Progress *)

(** The steps that a worker has before it stops. *)
Definition remaining (s : QueueState) : nat :=
  match qs_workers s with
  | [] => 0
  | Looping :: _ => if is_some (rq_pending (qs_queue s)) then 3 else 1
  | Handling _ :: _ => if is_some (rq_pending (qs_queue s)) then 4 else 2
  end.

Lemma worker_progress s :
  queue_ok s → qs_workers s ≠ [] → ∃ s', worker_step s s'.
Proof.
  intros Hok Hne. destruct (qs_workers s) as [|[|request] r] eqn:E; [done| |].
  - destruct (take_request (qs_queue s)) as [[request|] q] eqn:Et; eexists.
    + by apply (step_take s [] r).
    + by apply (step_stop s [] r).
  - eexists. by apply (step_handled s [] r).
Qed.

Lemma worker_decreases s s' :
  queue_ok s → worker_step s s' → (remaining s' < remaining s)%nat ∧ qs_received s' = qs_received s.
Proof.
  intros Hok Hstep. destruct Hstep as [s l r request q E Et|s l r q E Et|s l r request E];
    destruct (one_worker _ _ _ _ Hok E) as (-> & -> & _); (split; [|done]);
    unfold remaining, take_request in *; simpl in *; rewrite E.
  - destruct (rq_pending (qs_queue s)); [|done]. injection Et as -> <-. simpl. lia.
  - destruct (rq_pending (qs_queue s)); [done|]. simpl. lia.
  - destruct (rq_pending (qs_queue s)); simpl; lia.
Qed.

Lemma worker_run_bound s s' k :
  queue_ok s → nsteps worker_step k s s' →
  (k + remaining s' ≤ remaining s)%nat ∧ queue_ok s' ∧ qs_received s' = qs_received s.
Proof.
  intros Hok Hk. induction Hk as [s|k s1 s2 s3 H12 H23 IH]; [done|].
  destruct (worker_decreases _ _ Hok H12) as [??].
  destruct (IH (worker_ok _ _ H12 Hok)) as (? & ? & ?). split; [lia|]. split; [done|congruence].
Qed.

(** The worker converges on the newest request.  However requests arrive while it
    works, at most one worker runs, and the requests it handles are some of those that
    were received, in the order they were received; when no more arrive it always
    has a next step until it stops, it stops after at most four, and then the newest
    request is the one that was handled last. *)
Theorem worker_handles_the_newest_request s :
  rtc queue_step initial s →
  (length (qs_workers s) ≤ 1)%nat ∧ qs_handled s `sublist_of` qs_received s ∧
  (∀ k s', nsteps worker_step k s s' →
     (k ≤ 4)%nat ∧
     if decide (qs_workers s' = [])
     then last (qs_handled s') = last (qs_received s) ∧ rq_pending (qs_queue s') = None
     else ∃ s'', worker_step s' s'').
Proof.
  intros Hok%queue_invariant. split; [|split].
  - rewrite (qo_workers _ Hok). destruct (rq_worker_running (qs_queue s)); lia.
  - etrans; [|apply (qo_order _ Hok)]. apply sublist_inserts_r. done.
  - intros k s' Hk. destruct (worker_run_bound _ _ _ Hok Hk) as (Hle & Hok' & Er). split.
    + assert (remaining s ≤ 4)%nat; [|lia]. unfold remaining. repeat case_match; lia.
    + case_decide as Ew; [|by apply worker_progress]. pose proof (qo_last _ Hok') as Hl.
      pose proof (qo_workers _ Hok') as Hw. rewrite Ew in Hw. unfold kept in Hl. rewrite Ew, Er in Hl.
      destruct (rq_pending (qs_queue s')) as [p|] eqn:Ep.
      * rewrite (qo_pending _ Hok') in Hw by congruence. done.
      * rewrite !app_nil_r in Hl. done.
Qed.
