(* ===== verification/BundleProofs.v ===== *)
(** * The workstation runtime: imports

    What an import that succeeds has put in place, and that one that is held or
    fails has changed no bundle; and how a download that is resumed comes to hold
    exactly the bytes it must. *)

From stdpp Require Import sorting base gmap list strings.
From Stdlib Require Import Ascii ZArith Lia.
From S2P Require Import Prelude Async RustStr RustText Json DbText Net NixBase32 NarInfo Multicast Boot BootStore Runtime RuntimeStore RuntimeSessions RuntimeProofs DescriptorProofs SessionProofs QuarantineProofs.

#[local] Open Scope Z_scope.
#[local] Open Scope nest_scope.

(** A task relates the world it starts in to the one it leaves. *)
Lemma framed_post (P : relation RuntimeWorld) `{!PreOrder P} {A} (p : rtask A) w :
  framed P p → post p (λ _ w', P w w') w.
Proof.
  intros Hp env n. revert w n.
  induction p as [A a|A X a k IH|A t _ k IH]; intros w n; simpl in *; [reflexivity| |].
  - destruct (Hp (env n) w) as [Hw Hk]. destruct (a (env n) w) as [b w1]. simpl in *.
    etrans; [exact Hw|]. by apply IH.
  - destruct Hp as [_ Hk]. by apply IH.
Qed.

Section Bundles.
Context {deps : RuntimeDeps} {serde : Serde} {ed25519 : Ed25519} (cfg : RuntimeConfig).

(** ** Trees *)

(** The files of a tree are those that a descriptor names, with their digests. *)
Definition described (entries : list (option string * TreeFile)) (d : WorkstationNetbootDescriptor) : Prop :=
  (∀ name, name ∈ COMPONENT_NAMES → ∃ c body, component (wd_components d) name = Some c ∧
     read_file entries name = Ok body ∧ len body = cp_size_bytes c ∧ sha256_bytes body = cp_sha256 c) ∧
  (∃ body m, read_file entries "manifest.json" = Ok body ∧
     sha256_bytes body = wd_manifest_sha256 d ∧ parse_canonical_manifest body = Ok m ∧
     wm_components m = wd_components d ∧ wm_runtime_version m = wd_runtime_version d) ∧
  (∀ e, e ∈ entries → ∃ name, e.1 = Some name ∧ (name = "manifest.json" ∨ name ∈ COMPONENT_NAMES)) ∧
  NoDup entries.*1.

Lemma check_components_spec entries cs names :
  check_components entries cs names = Ok tt →
  ∀ name, name ∈ names → ∃ c body, component cs name = Some c ∧
    read_file entries name = Ok body ∧ len body = cp_size_bytes c ∧ sha256_bytes body = cp_sha256 c.
Proof.
  induction names as [|n names IH]; intros H name Hin; [by apply not_elem_of_nil in Hin|].
  cbn [check_components] in H. checks H. apply elem_of_cons in Hin as [->|Hin]; [|by apply IH].
  bool_prop. eauto 10.
Qed.

Lemma check_entries_spec entries names names' :
  check_entries entries names = Ok names' →
  (∀ e, e ∈ entries → ∃ name, e.1 = Some name ∧ name ∉ names ∧
     (name = "manifest.json" ∨ name ∈ COMPONENT_NAMES)) ∧ NoDup entries.*1.
Proof.
  revert names. induction entries as [|[o file] entries IH]; intros names H.
  { split; [|constructor]. intros e He. by apply not_elem_of_nil in He. }
  cbn [check_entries] in H. checks H. destruct (IH _ H) as [Hall Hnd]. subst o.
  bool_prop. unfold bundle_name in *. rewrite bool_decide_eq_true in *. split.
  - intros e [->|He]%elem_of_cons; [by exists x|]. destruct (Hall e He) as (name & ? & ? & ?).
    exists name. split; [done|]. split; [set_solver|done].
  - apply NoDup_cons. split; [|done]. intros Hin. apply list_elem_of_fmap in Hin as (e & Ee & He).
    destruct (Hall e He) as (name & Ee' & Hnot & _). rewrite <-Ee in Ee'. injection Ee' as <-. set_solver.
Qed.

Lemma verified_tree_described entries d :
  verify_extracted_tree (DirTree entries) d = Ok tt → described entries d.
Proof.
  intros H. cbn [verify_extracted_tree] in H. checks H.
  destruct (check_entries_spec _ _ _ Hx) as [Hall Hnd]. split; [by apply check_components_spec|].
  split; [|split; [|done]].
  - exists x1, x3. split; [done|]. apply andb_true_iff in Hx2 as [_ Hd%bool_decide_eq_true].
    split; [done|]. split; [done|]. apply rbind_Ok in Hx4 as (u & Hm & _).
    rewrite require_Ok in Hm. apply andb_true_iff in Hm as [Hm Hc%bool_decide_eq_true]. split; [done|].
    repeat (apply andb_true_iff in Hm as [Hm ?]). bool_prop. done.
  - intros e He. destruct (Hall e He) as (name & ? & _ & ?). eauto.
Qed.

(** ** Imports *)

Definition same_bundles (w w' : RuntimeWorld) : Prop :=
  rw_bundles w' = rw_bundles w ∧ rw_trees w' = rw_trees w.

#[local] Instance same_bundles_preorder : PreOrder same_bundles.
Proof. split; [done|]. intros ??? [??] [??]. split; congruence. Qed.

Lemma same_bundles_tick i w : same_bundles w (tick i w).
Proof. done. Qed.
#[local] Hint Resolve same_bundles_tick : framed.

Ltac bundles_walk := framed_walk; try (repeat case_match; simplify_eq; done).

Lemma bundles_set_state status p b t : framed same_bundles (set_runtime_state status p b t).
Proof. unfold set_runtime_state. bundles_walk. Qed.
#[local] Hint Resolve bundles_set_state : framed.

Lemma bundles_persist c downloaded total force :
  framed same_bundles (persist_download_progress c downloaded total force).
Proof. unfold persist_download_progress, clock_now. bundles_walk. Qed.
#[local] Hint Resolve bundles_persist : framed.

Lemma bundles_chunks name total chunks downloaded c :
  framed same_bundles (download_chunks name total chunks downloaded c).
Proof.
  revert downloaded c. induction chunks as [|[chunk|] chunks IH]; intros downloaded c;
    cbn [download_chunks]; bundles_walk.
Qed.
#[local] Hint Resolve bundles_chunks : framed.

Lemma bundles_download d name transport : framed same_bundles (download_bundle cfg d name transport).
Proof. unfold download_bundle, clock_now, resume_offset, request. bundles_walk. Qed.
#[local] Hint Resolve bundles_download : framed.

(** A step of the import before anything is published. *)
Lemma frame_try {A B} (p : rtask (result Failure A)) (f : A → rtask (result Failure B))
    (Q : result Failure B → RuntimeWorld → Prop) w0 w :
  same_bundles w0 w → framed same_bundles p →
  (∀ e w', same_bundles w0 w' → Q (Err e) w') →
  (∀ a w', same_bundles w0 w' → post (f a) Q w') → post (try_bind p f) Q w.
Proof.
  intros Hw Hp He Hf. apply post_try. eapply post_mono; [by apply (framed_post same_bundles)|].
  intros [a|e] w' Hw'; [apply Hf|apply He]; by etrans.
Qed.

Lemma extract_verifies archive d t :
  extract_and_verify archive d = Ok t →
  ∃ entries, t = DirTree entries ∧ verify_extracted_tree t d = Ok tt.
Proof.
  intros H. unfold extract_and_verify in H. checks H. injection H as <-.
  repeat match goal with x : unit |- _ => destruct x end. eauto.
Qed.

(** What an import leaves. *)
Definition import_outcome (d : WorkstationNetbootDescriptor) (epoch : Z) (w : RuntimeWorld)
    (r : result Failure bool) (w' : RuntimeWorld) : Prop :=
  match r with
  | Ok true =>
      ∃ row entries, rw_bundles w' !! wd_sha256 d = Some row ∧ bn_verified row = true ∧
        bn_epoch row = epoch ∧ bn_root_path row = bundle_root cfg (wd_sha256 d) ∧
        rw_trees w' !! wd_sha256 d = Some (DirTree entries) ∧ described entries d ∧
        ∀ k, k ≠ wd_sha256 d → rw_bundles w' !! k = rw_bundles w !! k
  | _ => rw_bundles w' = rw_bundles w
  end.

Lemma publish_post stage d w (Q : result Failure unit → RuntimeWorld → Prop) entries :
  stage = DirTree entries → verify_extracted_tree stage d = Ok tt →
  (∀ e w', rw_bundles w' = rw_bundles w → Q (Err e) w') →
  (∀ w' entries', rw_bundles w' = rw_bundles w → rw_trees w' !! wd_sha256 d = Some (DirTree entries') →
     described entries' d → Q (Ok tt) w') →
  post (publish_verified_stage stage d) Q w.
Proof.
  intros -> Hstage He Hok. unfold publish_verified_stage. apply post_try, post_files; [intros; by apply He|].
  intros i. destruct (is_ok _) eqn:E; cbn [fst snd].
  - change (tree_at (tick i w) (wd_sha256 d)) with (tree_at w (wd_sha256 d)) in E.
    destruct (verify_extracted_tree (tree_at w _) d) as [[]|] eqn:Ev; [|done]. unfold tree_at in Ev.
    destruct (rw_trees w !! wd_sha256 d) as [[| |entries']|] eqn:Et;
      [discriminate Ev|discriminate Ev| |discriminate Ev].
    apply post_files; [intros; by apply He|]. intros i2.
    eapply (Hok _ entries'); [done|done|]. by apply verified_tree_described.
  - apply post_try, post_files; [intros; by apply He|]. intros i2. simpl. rewrite lookup_delete_eq. cbn [fst snd].
    apply post_files; [intros; by apply He|]. intros i3.
    eapply (Hok _ entries); [done|simpl; apply lookup_insert_eq|by apply verified_tree_described].
Qed.

Lemma insert_outcome d epoch w w1 entries :
  (∀ row, rw_bundles w !! wd_sha256 d = Some row → bn_epoch row = epoch) →
  rw_bundles w1 = rw_bundles w → rw_trees w1 !! wd_sha256 d = Some (DirTree entries) → described entries d →
  import_outcome d epoch w (Ok true) (insert_bundle cfg d epoch w1).
Proof.
  intros Hep Eb Et Hd. unfold insert_bundle. rewrite Eb.
  assert (∀ b, bn_verified b = true → bn_epoch b = epoch → bn_root_path b = bundle_root cfg (wd_sha256 d) →
    import_outcome d epoch w (Ok true) (set_bundles (<[wd_sha256 d := b]> (rw_bundles w)) w1)) as Hins.
  { intros b ? ? ?. exists b, entries. simpl. rewrite lookup_insert_eq. do 6 (split; [done|]).
    intros k Hk. by apply lookup_insert_ne. }
  destruct (rw_bundles w !! wd_sha256 d) as [row|] eqn:Er; [|by apply Hins].
  rewrite (Hep _ eq_refl), Z.eqb_refl. by apply Hins.
Qed.

Ltac frame_step Hw :=
  eapply frame_try; [exact Hw| | |];
  [ unfold clock_now, discard_other_partials, hash_part, remove_part, lease_active; bundles_walk
  | by intros ? ? [? _] | clear Hw; cbv beta; intros ? ? Hw ].

Lemma import_post d epoch transport w :
  post (import_bundle cfg d epoch transport) (import_outcome d epoch w) w.
Proof.
  unfold import_bundle. cbv zeta. apply post_try, post_stmt; [done|]. intros i. cbn [fst snd].
  apply post_try, post_lift. change (rw_bundles (tick i w)) with (rw_bundles w).
  match goal with |- match ?r with _ => _ end => destruct r as [[]|e] eqn:Ee end; [|done].
  assert (∀ row, rw_bundles w !! wd_sha256 d = Some row → bn_epoch row = epoch) as Hep.
  { intros row Hrow. rewrite Hrow in Ee. simpl in Ee. by destruct (Z.eqb_spec (bn_epoch row) epoch). }
  clear Ee. assert (same_bundles w (tick i w)) as Hw by done.
  do 7 (frame_step Hw). case_match.
  { frame_step Hw. apply post_lift. apply Hw. }
  do 2 (frame_step Hw). case_match; [frame_step Hw; apply post_lift; apply Hw|].
  apply post_bind. eapply post_mono.
  { apply post_act. intros i1. instantiate (1 := λ r w1, same_bundles w w1 ∧
      match r with Ok t => ∃ entries, t = DirTree entries ∧ verify_extracted_tree t d = Ok tt | Err _ => True end).
    simpl. destruct (ri_io i1); [done|]. simpl. split; [done|].
    destruct (rw_parts _ !! _) as [body|]; [|done].
    destruct (extract_and_verify _ d) as [t|] eqn:E; [|done]. by apply extract_verifies in E. }
  clear Hw. intros [t|e] w1 [Hw Ht]; [|frame_step Hw; apply post_lift; apply Hw]. destruct Ht as (entries & Et & Hv).
  frame_step Hw. case_match; [do 2 (frame_step Hw); apply post_lift; apply Hw|].
  apply post_try. eapply publish_post; [done|done|intros e' w2 Eb; simpl; destruct Hw; congruence|].
  intros w2 entries' Eb2 Et2 Hd. destruct Hw as [Eb1 _].
  assert (rw_bundles w2 = rw_bundles w) as Eb by congruence. clear Eb1 Eb2 Et Hv.
  apply post_try. eapply post_mono; [apply (framed_post same_bundles); unfold remove_part; bundles_walk|].
  intros [[]|e] w3 [Eb3 Et3]; [|simpl; congruence]. rewrite Eb in Eb3. rewrite <-Et3 in Et2.
  apply post_try, post_stmt; [done|]. intros i2. apply post_lift. by eapply insert_outcome.
Qed.

(** C23. An import puts in place what was signed, or nothing.  Whatever the network,
    the disk and the database do while it runs alone, an import that succeeds leaves a
    verified row of its epoch for the bundle, and a tree whose files are exactly the
    manifest and the components of the descriptor, each of its signed size and
    SHA-256, and no other row has changed; an import that is held or fails has
    changed no row. *)
Theorem imported_bundle_is_the_signed_one d epoch transport w env n :
  let '(r, w', _) := run env n (import_bundle cfg d epoch transport) w in
  import_outcome d epoch w r w'.
Proof.
  pose proof (import_post d epoch transport w env n) as H.
  by destruct (run env n (import_bundle cfg d epoch transport) w) as [[r w'] n'].
Qed.

(** ** Downloads *)

Definition same_parts (w w' : RuntimeWorld) : Prop := rw_parts w' = rw_parts w.

#[local] Instance same_parts_preorder : PreOrder same_parts.
Proof. split; [done|]. intros ??? E1 E2. unfold same_parts in *. congruence. Qed.

Lemma same_parts_tick i w : same_parts w (tick i w).
Proof. done. Qed.
#[local] Hint Resolve same_parts_tick : framed.

Lemma parts_persist c downloaded total force :
  framed same_parts (persist_download_progress c downloaded total force).
Proof. unfold persist_download_progress, clock_now, set_runtime_state. bundles_walk. Qed.
#[local] Hint Resolve parts_persist : framed.

(** A step of the download that does not write the part. *)
Lemma parts_try {A B} (p : rtask (result Failure A)) (f : A → rtask (result Failure B))
    (Q : B → RuntimeWorld → Prop) w :
  framed same_parts p →
  (∀ a w', rw_parts w' = rw_parts w → post (f a) (on_ok Q) w') → post (try_bind p f) (on_ok Q) w.
Proof.
  intros Hp Hf. apply ok_try. eapply post_mono; [by apply (framed_post same_parts)|].
  intros [a|e] w' Hw'; [by apply Hf|done].
Qed.

(** The part after more bytes were written to it. *)
Definition part_is (name body : string) (w0 w : RuntimeWorld) : Prop :=
  rw_parts w !! name = Some body ∧ ∀ name', name' ≠ name → rw_parts w !! name' = rw_parts w0 !! name'.

Lemma part_is_append name body chunk w0 w w' :
  part_is name body w0 w → rw_parts w' = rw_parts (append_part name chunk w) →
  part_is name (body +:+ chunk) w0 w'.
Proof.
  intros [Hb Ho] E. unfold append_part in E. simpl in E. rewrite Hb in E. split; rewrite E; simpl.
  - apply lookup_insert_eq.
  - intros name' Hne. rewrite lookup_insert_ne by done. by apply Ho.
Qed.

Lemma download_chunks_post name total chunks downloaded c w0 body w :
  part_is name body w0 w → len body = downloaded →
  post (download_chunks name total chunks downloaded c)
    (on_ok (λ r w', ∃ rest, part_is name (body +:+ rest) w0 w' ∧ len (body +:+ rest) = r.1)) w.
Proof.
  revert downloaded c body w. induction chunks as [|[chunk|] chunks IH]; intros downloaded c body w Hw Hlen;
    cbn [download_chunks]; [|case_match; [by apply post_lift|]; case_match; [by apply post_lift|]|by apply post_lift].
  - apply post_lift. exists "". by rewrite str_app_nil_r.
  - apply ok_try, ok_files. intros i [] _. cbn [fst snd].
    apply parts_try; [apply parts_persist|]. intros c' w' Ew'.
    eapply post_mono; [apply (IH _ _ (body +:+ chunk))|].
    + eapply (part_is_append _ _ _ _ (tick i w)); [exact Hw|done].
    + rewrite len_app. lia.
    + intros [r|e] w2; [|done]. intros (rest & Hp & Hl). exists (chunk +:+ rest).
      rewrite str_app_assoc in Hp, Hl. done.
Qed.

(** The bytes that were there before a download are kept or dropped as a whole. *)
Definition resumed (name : string) (size : Z) (w w' : RuntimeWorld) : Prop :=
  ∃ kept rest, part_is name (kept +:+ rest) w w' ∧ len (kept +:+ rest) = size ∧
    (kept = "" ∨ rw_parts w !! name = Some kept).

Lemma resume_offset_post name d w :
  post (resume_offset name d)
    (on_ok (λ offset w', 0 ≤ offset ≤ Z.max 0 (wd_size_bytes d) ∧
       (∀ name', name' ≠ name → rw_parts w' !! name' = rw_parts w !! name') ∧
       (offset = 0 ∨ ∃ body, rw_parts w' = rw_parts w ∧ rw_parts w !! name = Some body ∧ len body = offset))) w.
Proof.
  unfold resume_offset. apply ok_files. intros i a Ha. simpl in *.
  destruct (rw_parts w !! name) as [body|] eqn:E; [|simpl in *; simplify_eq; split; [lia|auto]].
  destruct (ri_part_unsafe i); [done|]. pose proof (len_nonneg body).
  destruct (Z.ltb_spec (wd_size_bytes d) (len body)); simpl in *; simplify_eq.
  - split; [lia|]. split; [|by left]. intros name' Hne. by apply lookup_delete_ne.
  - split; [lia|]. split; [done|]. right. eauto.
Qed.

Lemma download_post d name transport w :
  0 < wd_size_bytes d →
  post (download_bundle cfg d name transport) (on_ok (λ _ w', resumed name (wd_size_bytes d) w w')) w.
Proof.
  intros Hsize. unfold download_bundle. cbv zeta. apply ok_try, ok_lift. intros _ _.
  apply parts_try; [unfold clock_now; bundles_walk|]. intros now w1 E1.
  apply ok_try. eapply post_mono; [apply resume_offset_post|]. intros [offset|e] w2; [|done].
  intros (Hoff & Hother & Hpart). rewrite E1 in Hpart.
  assert (∀ name', name' ≠ name → rw_parts w2 !! name' = rw_parts w !! name') as Ho by (rewrite <-E1; done).
  clear w1 E1 Hother. match goal with |- on_ok ?F (Ok ?a) ?w' => change (F a w') end. cbv beta.
  destruct (Z.eqb_spec offset (wd_size_bytes d)) as [->|Hne].
  { apply parts_try; [apply parts_persist|]. intros c w3 E3. apply post_lift.
    destruct Hpart as [Hz|(body & Eb & Hb & Hl)]; [lia|].
    exists body, "". rewrite str_app_nil_r. split; [|auto]. split; rewrite E3; [by rewrite Eb|done]. }
  apply parts_try; [case_match; [apply parts_persist|done]|]. intros c w3 E3.
  apply parts_try; [unfold request; bundles_walk|]. intros response w4 E4. rewrite E3 in E4. clear w3 E3.
  apply parts_try; [case_match; [apply parts_persist|done]|]. intros c2 w5 E5. rewrite E4 in E5. clear w4 E4.
  set (offset2 := if restart_from_zero d offset response then 0 else offset).
  apply ok_try, ok_lift. intros [] _. apply ok_try, ok_files. intros i [] _. cbn [fst snd].
  assert (∃ kept, part_is name kept w (if offset2 =? 0 then set_parts (<[name:=""]> (rw_parts (tick i w5))) (tick i w5)
                    else append_part name "" (tick i w5)) ∧ len kept = offset2 ∧
            (kept = "" ∨ rw_parts w !! name = Some kept)) as (kept & Hkept & Hlen & Hold).
  { destruct (Z.eqb_spec offset2 0) as [Ez|Hnz].
    - exists "". split; [|auto]. split; simpl; [apply lookup_insert_eq|].
      intros name' Hn. rewrite lookup_insert_ne, E5 by done. by apply Ho.
    - assert (offset2 = offset) as Eo by (unfold offset2 in *; by case_match).
      destruct Hpart as [Hz|(body & Eb & Hb & Hl)]; [lia|]. exists body. split; [|split; [lia|auto]].
      split; unfold append_part; simpl; rewrite E5, Eb.
      + rewrite Hb. simpl. by rewrite str_app_nil_r, lookup_insert_eq.
      + intros name' Hn. by rewrite lookup_insert_ne. }
  apply ok_try. eapply post_mono; [by eapply download_chunks_post|]. intros [[downloaded c3]|e] w6; [|done].
  intros (rest & Hrest & Hl2). cbv beta iota. simpl in Hl2.
  apply parts_try; [bundles_walk|]. intros _ w7 E7. apply ok_try, ok_lift. intros [] Hd.
  rewrite require_Ok in Hd. apply Z.eqb_eq in Hd.
  apply parts_try; [apply parts_persist|]. intros _ w8 E8. apply post_lift. exists kept, rest.
  split; [|split; [lia|done]]. unfold part_is in *. by rewrite E8, E7.
Qed.

(** A download that succeeds holds exactly the bytes it must.  Whatever the server
    answers and wherever earlier downloads stopped, after a download that succeeds
    with nothing else running the part is as long as the descriptor says, it is the
    earlier part in full with the new bytes after it or the new bytes alone, and no
    other part has changed. *)
Theorem download_completes_the_part d name transport w env n :
  0 < wd_size_bytes d →
  let '(r, w', _) := run env n (download_bundle cfg d name transport) w in
  is_ok r = true → resumed name (wd_size_bytes d) w w'.
Proof.
  intros Hsize. pose proof (download_post d name transport w Hsize env n) as H.
  destruct (run env n (download_bundle cfg d name transport) w) as [[[[]|e] w'] n']; done.
Qed.

End Bundles.
