(* ===== verification/RuntimeDemo.v ===== *)
(** * The workstation runtime: an appliance

    A concrete appliance on which the theorems about the workstation runtime are
    applied, and what the proofs showed of the code: an answer of the wrong length
    holds a runtime for good, and a quarantine can undo a promotion. *)

From stdpp Require Import sorting base gmap list strings relations countable.
From Stdlib Require Import Ascii ZArith Lia.
From S2P Require Import Prelude Async RustStr RustText Json DbText Net NixBase32 NarInfo Multicast Boot BootStore Runtime RuntimeStore RuntimeSessions RuntimeProofs DescriptorProofs SessionProofs QuarantineProofs ReconcileQueue BundleProofs.

#[local] Open Scope Z_scope.
#[local] Open Scope nest_scope.

(** ** Findings *)

Section Findings.
Context {deps : RuntimeDeps} {serde : Serde} {ed25519 : Ed25519} (cfg : RuntimeConfig).

(** An answer of the server whose length is not the signed one, or that does not
    state it, is taken for an invalid descriptor, and the desired state is never
    tried again. *)
Lemma wrong_length_is_never_retried d response :
  hr_status response = 200 → hr_content_length response ≠ Some (wd_size_bytes d) →
  ∃ e, download_answer d 0 response = Err e ∧ classify_failure e = FAILURE_INVALID_DESCRIPTOR ∧
    ∀ now rowid old t, attempt_due t (Some (attempt_row now (classify_failure e) rowid old)) = false.
Proof.
  intros Hs Hl. eexists. split; [|split].
  - unfold download_answer. rewrite Hs, Z.sub_0_r. rewrite bool_decide_false by done. reflexivity.
  - vm_compute. reflexivity.
  - intros now rowid old t. by destruct old.
Qed.

(** The last statement of a quarantine replaces whatever bundle is active by then. *)
Lemma quarantine_undoes_a_promotion env n w fallback :
  ri_fault (env n) = false →
  rr_active (rw_runtime (run env n (update_runtime_after_active_quarantine fallback) w).1.2)
  = default "" fallback.
Proof.
  intros Hf. unfold update_runtime_after_active_quarantine, update, stmt, act, atomic. cbn [run].
  by rewrite Hf.
Qed.

End Findings.

(** ** Libraries *)

Definition to_parts (d : WorkstationNetbootDescriptor) : list positive :=
  let c := wd_components d in
  [encode (wd_schema d); encode (wd_runtime_version d); encode (wd_manage_source_revision d);
   encode (wd_manage_source_sha256 d); encode (wd_manage_source_size_bytes d);
   encode (wd_nixpkgs_revision d); encode (wd_architecture d); encode (wd_format d);
   encode (wd_required_nest_protocol d); encode (wd_url d); encode (wd_sha256 d);
   encode (wd_size_bytes d); encode (wd_manifest_sha256 d);
   encode (cp_sha256 (cs_bz_image c)); encode (cp_size_bytes (cs_bz_image c));
   encode (cp_sha256 (cs_initrd c)); encode (cp_size_bytes (cs_initrd c));
   encode (cp_sha256 (cs_nix_store_squashfs c)); encode (cp_size_bytes (cs_nix_store_squashfs c));
   encode (wd_signature d)].

Definition of_parts (ps : list positive) : option WorkstationNetbootDescriptor :=
  match ps with
  | [a; b; c; e; f; g; h; i; j; k; l; m; n; o1; o2; p1; p2; q1; q2; s] =>
      a ← decode a; b ← decode b; c ← decode c; e ← decode e; f ← decode f; g ← decode g;
      h ← decode h; i ← decode i; j ← decode j; k ← decode k; l ← decode l; m ← decode m;
      n ← decode n; o1 ← decode o1; o2 ← decode o2; p1 ← decode p1; p2 ← decode p2;
      q1 ← decode q1; q2 ← decode q2; s ← decode s;
      Some {| wd_schema := a; wd_runtime_version := b; wd_manage_source_revision := c;
        wd_manage_source_sha256 := e; wd_manage_source_size_bytes := f; wd_nixpkgs_revision := g;
        wd_architecture := h; wd_format := i; wd_required_nest_protocol := j; wd_url := k; wd_sha256 := l;
        wd_size_bytes := m; wd_manifest_sha256 := n;
        wd_components := {| cs_bz_image := {| cp_sha256 := o1; cp_size_bytes := o2 |};
                            cs_initrd := {| cp_sha256 := p1; cp_size_bytes := p2 |};
                            cs_nix_store_squashfs := {| cp_sha256 := q1; cp_size_bytes := q2 |} |};
        wd_signature := s |}
  | _ => None
  end.

Lemma of_to_parts d : of_parts (to_parts d) = Some d.
Proof.
  unfold of_parts, to_parts. cbv zeta. rewrite !countable.decode_encode. cbn [mbind option_bind].
  by destruct d as [? ? ? ? ? ? ? ? ? ? ? ? ? [[] [] []] ?].
Qed.

Definition descriptor_text (d : WorkstationNetbootDescriptor) : string :=
  String "D" (bits (positives_flatten (to_parts d))).
Definition descriptor_of_text (s : string) : option WorkstationNetbootDescriptor :=
  match s with
  | String "D" s => ps ← positives_unflatten (from_bits s); of_parts ps
  | _ => None
  end.

Definition hex64 (c : ascii) : string := of_bytes (replicate 64 c).
Definition manifest_text : string := "M" +:+ nl.

(** A digest of the few texts of the example; a descriptor is its own. *)
Definition demo_digest (s : string) : string :=
  match s with
  | String "D" _ => s
  | _ => if bool_decide (s = manifest_text) then hex64 "d"
         else if bool_decide (s = "kernel") then hex64 "1"
         else if bool_decide (s = "ramdisk") then hex64 "2"
         else if bool_decide (s = "store") then hex64 "3"
         else ""
  end.

Definition demo_components : ComponentDescriptors := {|
  cs_bz_image := {| cp_sha256 := hex64 "1"; cp_size_bytes := 6 |};
  cs_initrd := {| cp_sha256 := hex64 "2"; cp_size_bytes := 7 |};
  cs_nix_store_squashfs := {| cp_sha256 := hex64 "3"; cp_size_bytes := 5 |} |}.

Definition hex40 (c : ascii) : string := of_bytes (replicate 40 c).

Definition demo_manifest : WorkstationNetbootManifest := {|
  wm_schema := MANIFEST_SCHEMA; wm_runtime_version := "2"; wm_architecture := ARCHITECTURE;
  wm_format := FORMAT; wm_required_nest_protocol := REQUIRED_NEST_PROTOCOL;
  wm_manage_source_revision := hex40 "a"; wm_nixpkgs_revision := hex40 "b";
  wm_source_date_epoch := 1; wm_toplevel := "/nix/store/system";
  wm_kernel_cmdline_template := "fetch={squashfs_url}"; wm_components := demo_components;
  wm_provenance := {[ "source" := "tiaris" ]} |}.

#[global] Instance demo_runtime_deps : RuntimeDeps := {
  release_url s := Some {| ru_scheme := "https"; ru_host := Some "releases"; ru_username := "";
                           ru_password := None; ru_segments := Some (split "/" s); ru_fragment := None |};
  version := Z;
  version_parse s := if one_line s then Ok (len s) else Err "bad version";
  version_compare := Z.compare;
  sha256_bytes := demo_digest;
  descriptor_to_string := descriptor_text;
  descriptor_from_str := descriptor_of_text;
  desired_from_value _ := Err "bad";
  u32_from_value _ := Err "bad";
  manifest_from_value _ := Some demo_manifest;
  context_to_vec c := "grant for " +:+ bx_bundle_sha256 c;
  verify _ _ _ := true;
  uuid_parses s := one_line s && negb (is_empty s);
  base64url l := of_bytes (replicate (Z.to_nat ((4 * Z.of_nat (length l) + 2) / 3)) "A"%char);
  base64url_length s := Some (Z.to_nat (3 * len s / 4));
  archive_entries _ := [];
}.

#[global] Instance demo_runtime_serde : Serde := { to_string _ := "M"; from_str _ := Some Null }.

#[global] Instance demo_runtime_keys : Ed25519 := {
  base64_decode _ := Some (replicate 32 0);
  base64_encode _ := "";
  verifying_key_from_bytes l := Some l;
  is_weak _ := false;
  signature_from_slice l := Some l;
  verify_strict _ _ _ := true;
  sign k _ := k;
}.

#[global] Instance demo_runtime_laws : RuntimeLaws demo_runtime_deps.
Proof.
  split; simpl.
  - apply Z.compare_refl.
  - apply Z.compare_eq.
  - intros v v'. apply Z.compare_antisym.
  - intros v v' v''. rewrite !Z.compare_lt_iff. lia.
  - intros s v. by destruct (one_line s).
  - intros s [? ?]%andb_true_iff. split; [done|]. by intros ->.
  - intros l. unfold one_line, all_bytes. rewrite bytes_of_bytes. generalize (Z.to_nat ((4 * Z.of_nat (length l) + 2) / 3)).
    intros n. by induction n.
  - intros d d' H. unfold descriptor_digest in H. simpl in H. unfold descriptor_text in H.
    injection H as H. apply (f_equal from_bits) in H. rewrite !from_bits_bits in H.
    apply (f_equal positives_unflatten) in H. rewrite !positives_unflatten_flatten in H.
    apply (f_equal (λ o, o ≫= of_parts)) in H. cbn [mbind option_bind] in H.
    rewrite !of_to_parts in H. by injection H.
Qed.

#[global] Instance demo_base64_laws : Base64Laws demo_runtime_deps.
Proof.
  split; intros l; cbn [base64url base64url_length demo_runtime_deps].
  - unfold all_bytes. rewrite bytes_of_bytes. generalize (Z.to_nat ((4 * Z.of_nat (length l) + 2) / 3)).
    intros n. by induction n.
  - rewrite len_bytes, bytes_of_bytes, length_replicate. apply Z2Nat.id, Z.div_pos; lia.
  - f_equal. rewrite len_bytes, bytes_of_bytes, length_replicate, Z2Nat.id by (apply Z.div_pos; lia).
    apply Nat2Z.inj. rewrite Z2Nat.id; [|apply Z.div_pos; [|lia]]; Z.to_euclidean_division_equations; lia.
Qed.

(** ** An appliance *)

Definition demo_descriptor (v : string) (sha : ascii) (signature : string) : WorkstationNetbootDescriptor := {|
  wd_schema := DESCRIPTOR_SCHEMA; wd_runtime_version := v; wd_manage_source_revision := hex40 "a";
  wd_manage_source_sha256 := None; wd_manage_source_size_bytes := None; wd_nixpkgs_revision := hex40 "b";
  wd_architecture := ARCHITECTURE; wd_format := FORMAT; wd_required_nest_protocol := REQUIRED_NEST_PROTOCOL;
  wd_url := "https://releases/tiaris-workstation-netboot-" +:+ v +:+ "-aaaaaaaaaaaa-x86_64-linux.tar.zst";
  wd_sha256 := hex64 sha; wd_size_bytes := 10; wd_manifest_sha256 := hex64 "d";
  wd_components := demo_components; wd_signature := signature |}.

Definition old_runtime := demo_descriptor "2" "a" "".
Definition fallback_runtime := demo_descriptor "2" "c" "".
Definition new_runtime := demo_descriptor "33" "b" "".

Definition demo_config : RuntimeConfig := {|
  rc_trusted_public_key := "key"; rc_allow_private := true;
  rc_manage_source_template := MANAGE_SOURCE_URL_TEMPLATE; rc_boot_assets_dir := "/srv/boot";
  rc_data_dir := "/var/lib/nest"; rc_organization_id := "org"; rc_organization_slug := "acme";
  rc_api_url := "https://manage"; rc_public_base_url := "http://nest" |}.

Definition demo_file (body : string) : TreeFile :=
  {| tf_is_file := true; tf_nlink := 1; tf_mode := 420; tf_contents := Some body |}.
Definition demo_tree : Tree := DirTree
  [(Some "bzImage", demo_file "kernel"); (Some "initrd", demo_file "ramdisk");
   (Some "manifest.json", demo_file manifest_text); (Some "nix-store.squashfs", demo_file "store")].

Definition demo_bundle (d : WorkstationNetbootDescriptor) (until : option Z) : BundleRow := {|
  bn_epoch := 1; bn_runtime_version := wd_runtime_version d; bn_descriptor_json := descriptor_text d;
  bn_root_path := bundle_root demo_config (wd_sha256 d); bn_verified := true; bn_verified_at := 0;
  bn_last_scrubbed := None; bn_retained_until := until |}.

Definition demo_world : RuntimeWorld := {|
  rw_clock := 1000000000;
  rw_runtime := {| rr_epoch := 1; rr_descriptor_json := descriptor_text old_runtime;
    rr_descriptor_sha256 := descriptor_digest old_runtime; rr_generation := 3; rr_state := "ready";
    rr_progress := 100; rr_bytes := 10; rr_total := 10; rr_failure_kind := ""; rr_failure_message := "";
    rr_active := hex64 "a"; rr_previous := hex64 "c"; rr_last_verified := None |};
  rw_bundles := {[ hex64 "a" := demo_bundle old_runtime None;
                   hex64 "c" := demo_bundle fallback_runtime (Some 2000000);
                   hex64 "b" := demo_bundle new_runtime (Some 2000000) ]};
  rw_generations := {[ 1 := (3, descriptor_digest old_runtime) ]};
  rw_watermarks := {[ (1, "", ARCHITECTURE) := ("2", descriptor_digest old_runtime) ]};
  rw_attempts := ∅; rw_sessions := ∅;
  rw_trees := {[ hex64 "a" := demo_tree; hex64 "b" := demo_tree; hex64 "c" := demo_tree ]};
  rw_parts := {[ "part" := "012" ]}; rw_contexts := ∅ |}.

Definition demo_runtime_input : RuntimeInput := {|
  ri_fault := false; ri_io := None; ri_now := 1001000000; ri_lease := Ok false;
  ri_manage_source _ _ _ := true; ri_space := Ok tt; ri_cancel := Ok tt; ri_transferring _ := false;
  ri_response := Ok {| hr_status := 206; hr_content_length := Some 7;
                       hr_content_range := Some "bytes 3-9/10"; hr_chunks := [Some "3456"; Some "789"] |};
  ri_part_unsafe := false; ri_elsewhere := None; ri_nonce _ := 0; ri_session _ := 0;
  ri_identity := Ok ("nest", []); ri_tie _ := 0 |}.
Definition demo_runtime_env : nat → RuntimeInput := λ _, demo_runtime_input.

Definition demo_desired : DesiredWorkstationNetboot := {|
  dw_compatibility_epoch := 1; dw_descriptor := new_runtime; dw_reconcile_generation := 4;
  dw_bundle_transport_url := None |}.

Definition reconciled : RuntimeWorld :=
  (run demo_runtime_env 0 (reconcile_desired demo_config demo_desired) demo_world).1.2.

(** The newer runtime was promoted, and the watermarks have moved on. *)
Lemma accepted_runtimes_never_go_back_witness :
  rr_active (rw_runtime reconciled) = hex64 "b" ∧
  ∃ now, rw_generations reconciled !! 1 = Some now ∧ generation_le (3, descriptor_digest old_runtime) now.
Proof.
  split; [vm_compute; reflexivity|].
  destruct (run_arrived (runtime_entry demo_config) [] (reconcile_desired demo_config demo_desired)
              demo_runtime_env 0 demo_world (entry_reconcile demo_config demo_desired)) as [ts Hts].
  apply (proj1 (accepted_runtimes_never_go_back demo_config demo_world ts reconciled Hts) 1).
  vm_compute. reflexivity.
Defined.

(** Two signatures of one descriptor. *)
Lemma signature_binds_the_descriptor_witness :
  validate_descriptor_with_policy (demo_descriptor "33" "b" "x") "key" true = Ok tt ∧
  unsigned (demo_descriptor "33" "b" "x") = unsigned (demo_descriptor "33" "b" "y").
Proof.
  split; [vm_compute; reflexivity|].
  apply (signature_binds_the_descriptor _ _ "key" true "key" true); vm_compute; reflexivity.
Defined.

Definition demo_request : SessionRequest := {|
  sq_mac := "02:00:00:00:00:01"; sq_profile_id := Some "p"; sq_managed_device_id := None;
  sq_reinstall_request_id := None |}.

Definition launched := run demo_runtime_env 0 (create_boot_session demo_config demo_request) demo_world.
Definition launched_world : RuntimeWorld := launched.1.2.

Definition demo_id : string := of_bytes (replicate 22 "A"%char).

Lemma demo_sessions_ok : sessions_ok demo_world.
Proof. split; [vm_compute; reflexivity|]. intros id s Hs. change (rw_sessions demo_world) with (∅ : gmap string SessionRow) in Hs.
  by rewrite lookup_empty in Hs. Qed.

Lemma demo_launch : ∃ ts, rtc (pstep (boot_entry demo_config)) ([], demo_world) (ts, launched_world).
Proof. unfold launched_world, launched. apply run_arrived, boot_session. Qed.

Lemma demo_launch_live s :
  rw_sessions launched_world !! demo_id = Some s → seconds launched_world ≤ sn_expires_at s.
Proof. intros Hs. vm_compute in Hs. injection Hs as <-. vm_compute. discriminate. Qed.

Lemma live_sessions_keep_their_bundle_witness :
  ∃ s row, rw_sessions launched_world !! demo_id = Some s ∧
    rw_bundles launched_world !! sn_bundle s = Some row.
Proof.
  destruct (rw_sessions launched_world !! demo_id) as [s|] eqn:Hs; [|vm_compute in Hs; discriminate Hs].
  destruct demo_launch as [ts Hts].
  destruct (live_sessions_keep_their_bundle demo_config demo_world ts launched_world demo_id s demo_sessions_ok Hts Hs
              (demo_launch_live s Hs)) as (row & Hrow & _).
  exists s, row. split; [exact eq_refl|exact Hrow].
Defined.

Definition quarantined_run :=
  run demo_runtime_env 0 (quarantine_bundle demo_config (hex64 "a") (bundle_root demo_config (hex64 "a"))) demo_world.

(** The previous runtime takes over. *)
Lemma quarantine_falls_back_to_a_bootable_bundle_witness :
  rr_active (rw_runtime quarantined_run.1.2) = hex64 "c" ∧
  rr_previous (rw_runtime quarantined_run.1.2) ≠ hex64 "a" ∧
  bootable demo_config (rr_active (rw_runtime quarantined_run.1.2)) quarantined_run.1.2.
Proof.
  assert (rr_active (rw_runtime quarantined_run.1.2) = hex64 "c") as E by (vm_compute; reflexivity).
  split; [exact E|].
  assert (quarantined_run = (Ok tt, quarantined_run.1.2, quarantined_run.2)) as Er.
  { assert (is_ok quarantined_run.1.1 = true) as Hok by (vm_compute; reflexivity).
    by destruct quarantined_run as [[[[]|e] w] n]. }
  destruct (quarantine_falls_back_to_a_bootable_bundle demo_config (hex64 "a")
    (bundle_root demo_config (hex64 "a")) demo_world demo_runtime_env 0%nat quarantined_run.1.2 quarantined_run.2 Er)
    as (_ & _ & Hp & H & _).
  split; [exact Hp|]. destruct (H eq_refl) as [_ [H'|H']]; [|exact H']. rewrite E in H'. vm_compute in H'. discriminate H'.
Defined.

Definition launch_of : BootSessionLaunch := match launched.1.1 with
  | Ok l => l
  | Err _ => {| bl_schema := ""; bl_bundle_sha256 := ""; bl_kernel_url := ""; bl_initrd_url := ""; bl_context_url := "";
                bl_squashfs_url := ""; bl_command_line := ""; bl_expires_at := 0 |}
  end.

(** The session boots the active runtime, and its grant is served until it expires. *)
Definition later_env (now : Z) (_ : nat) : RuntimeInput := {|
  ri_fault := false; ri_io := None; ri_now := now; ri_lease := Ok false;
  ri_manage_source _ _ _ := true; ri_space := Ok tt; ri_cancel := Ok tt; ri_transferring _ := false;
  ri_response := Err database_failure; ri_part_unsafe := false; ri_elsewhere := None; ri_nonce _ := 0; ri_session _ := 0;
  ri_identity := Ok ("nest", []); ri_tie _ := 0 |}.
Definition answer_at (now : Z) : AppResult Served * Z :=
  let '(answer, w2, _) := run (later_env now) 0 (serve_context demo_config demo_id) launched_world in (answer, seconds w2).

Lemma launched_session_serves_its_grant_witness :
  bl_bundle_sha256 launch_of = hex64 "a" ∧ bl_expires_at launch_of = 1601 ∧
  (∃ s, sn_bundle s = hex64 "a" ∧ grants demo_request s ("grant for " +:+ hex64 "a")) ∧
  (∃ served, (answer_at 1600000000).1 = Ok served ∧ sv_body served = "grant for " +:+ hex64 "a") ∧
  (answer_at 1602000000).1 = Err NotFound.
Proof.
  assert (launched = (Ok launch_of, launched_world, launched.2)) as E.
  { assert (is_ok launched.1.1 = true) as Hok by (vm_compute; reflexivity).
    unfold launched_world, launch_of. by destruct launched as [[[l|e] w] n]. }
  assert (bl_bundle_sha256 launch_of = hex64 "a") as Hb by (vm_compute; reflexivity).
  assert (bl_expires_at launch_of = 1601) as Hx by (vm_compute; reflexivity).
  split; [exact Hb|]. split; [exact Hx|].
  destruct (launched_session_serves_its_grant demo_config demo_request demo_world demo_runtime_env 0
    launch_of launched_world launched.2 E) as (id & s & body & _ & Hs & He & _ & _ & Hnone & Hss & Hg & Hserve).
  assert (id = demo_id) as ->.
  { assert (bool_decide (is_Some (rw_sessions launched_world !! demo_id)) = true) as H by (vm_compute; reflexivity).
    apply bool_decide_eq_true in H. rewrite Hss in H. apply lookup_insert_is_Some in H as [H|[_ H]]; [exact H|].
    change (rw_sessions demo_world) with (∅ : gmap string SessionRow) in H. rewrite lookup_empty in H. by destruct H. }
  assert (body = "grant for " +:+ hex64 "a") as ->.
  { destruct Hg as (claims & key & -> & Hc & _).
    change (context_to_vec (boot_context claims key)) with ("grant for " +:+ bg_bundle_sha256 claims).
    rewrite Hc, Hs, Hb. reflexivity. }
  split; [exists s; split; [congruence|exact Hg]|]. rewrite Hx in He. split.
  - specialize (Hserve (later_env 1600000000) 0%nat eq_refl).
    assert ((answer_at 1600000000).2 = 1600) as Ht by (vm_compute; reflexivity).
    unfold answer_at in Ht |- *. destruct (run _ _ _ _) as [[answer w2] m]. cbn [fst snd] in *. rewrite Ht, He in Hserve. exact Hserve.
  - specialize (Hserve (later_env 1602000000) 0%nat eq_refl).
    assert ((answer_at 1602000000).2 = 1602) as Ht by (vm_compute; reflexivity).
    unfold answer_at in Ht |- *. destruct (run _ _ _ _) as [[answer w2] m]. cbn [fst snd] in *. rewrite Ht, He in Hserve. exact Hserve.
Defined.

Definition attempted := run demo_runtime_env 0
  (record_reconcile_attempt 1 4 (hex64 "e") FAILURE_NETWORK_OR_SERVER) demo_world.

Lemma demo_attempts_ok : attempts_ok demo_world.
Proof.
  intros key row Hrow. change (rw_attempts demo_world) with (∅ : gmap AttemptKey AttemptRow) in Hrow.
  by rewrite lookup_empty in Hrow.
Qed.

(** A failed download is tried again half a minute later. *)
Lemma failed_attempts_back_off_witness :
  option_map ar_next (rw_attempts attempted.1.2 !! (1, 4, hex64 "e")) = Some (Some 1031) ∧
  (size (rw_attempts attempted.1.2) ≤ MAX_RECONCILE_ATTEMPT_ROWS)%nat.
Proof.
  split; [vm_compute; reflexivity|].
  assert (attempted = (Ok tt, attempted.1.2, attempted.2)) as E.
  { assert (is_ok attempted.1.1 = true) as Hok by (vm_compute; reflexivity).
    by destruct attempted as [[[[]|e] w] n]. }
  exact (proj1 (failed_attempts_back_off 1 4 (hex64 "e") FAILURE_NETWORK_OR_SERVER demo_world demo_runtime_env 0
           attempted.1.2 attempted.2 demo_attempts_ok E)).
Defined.

(** Two requests arrive, and the worker takes the newer one. *)
Definition two_requests : QueueState := receive (Desired demo_desired) (receive (DecodeFailure Null "kind" "text") initial).

Lemma worker_handles_the_newest_request_witness :
  length (qs_received two_requests) = 2%nat ∧ (length (qs_workers two_requests) ≤ 1)%nat.
Proof.
  split; [reflexivity|].
  apply (worker_handles_the_newest_request two_requests).
  eapply rtc_l; [apply queue_receive|]. eapply rtc_l; [apply queue_receive|]. apply rtc_refl.
Defined.

(** A part of three bytes is completed. *)
Lemma download_completes_the_part_witness :
  let w' := (run demo_runtime_env 0 (download_bundle demo_config new_runtime "part" None) demo_world).1.2 in
  rw_parts w' !! "part" = Some "0123456789" ∧ resumed "part" 10 demo_world w'.
Proof.
  cbv zeta. split; [vm_compute; reflexivity|].
  pose proof (download_completes_the_part demo_config new_runtime "part" None demo_world demo_runtime_env 0
                ltac:(done)) as H.
  assert (is_ok (run demo_runtime_env 0 (download_bundle demo_config new_runtime "part" None) demo_world).1.1 = true)
    as Hok by (vm_compute; reflexivity).
  destruct (run demo_runtime_env 0 (download_bundle demo_config new_runtime "part" None) demo_world) as [[r w'] n'].
  exact (H Hok).
Defined.
