(* ===== verification/ManagedBoot.v ===== *)
(** * Management: boot configuration and boot reports

    The half of [src/manage.rs] that keeps the boot tables in step with Tiaris:
    validation of the desired configuration, the transaction that applies it to the
    tables of [BootStore], the settings and the PXE inventory that follow it, and
    the reports of boot events.  A transaction is one action.  The HTTP answers, the
    clock and what can fail are inputs; the reports that Tiaris accepted are part of
    the world.  Only one synchronization runs at a time (an advisory file lock);
    nothing proved here relies on it. *)

From stdpp Require Import sorting base gmap list strings.
From Stdlib Require Import Ascii ZArith Lia.
From S2P Require Import Prelude Async RustStr RustText Json DbText Boot BootStore.

#[local] Open Scope Z_scope.
#[local] Open Scope nest_scope.

Definition TIARIS_COMPONENT_PROTOCOL_VERSION : Z := 4.
Definition TIARIS_MINIMUM_MANAGE_PROTOCOL_VERSION : Z := 4.
Definition TIARIS_MAXIMUM_MANAGE_PROTOCOL_VERSION : Z := 4.
Definition MAX_MANAGED_PROFILES : nat := 1000.
Definition MAX_DELETED_MANAGED_PROFILES : nat := 2000.
Definition MAX_MANAGED_CLIENTS : nat := 2000.
Definition MAX_DELETED_MANAGED_CLIENTS : nat := 2000.
Definition MAX_REPORT_CLIENTS : nat := 2000.
Definition MAX_REPORT_EVENTS : Z := 500.
Definition MAX_BOOT_REPORT_BODY_BYTES : Z := 3 * 1024 * 1024.
Definition MAX_PXE_DISCOVERY_BYTES : Z := 2 * 1024 * 1024.

(** ** The desired configuration *)

Record ComponentCompatibilityContract := {
  cc_protocol_version : Z;
  cc_minimum_nest_protocol : Z;
  cc_maximum_nest_protocol : Z;
  cc_manage_version : string;
  cc_manage_release : string;
  cc_workstation_runtime_epoch : option Z;
}.

(** The fields of the settings that are read. *)
Record ManagedBootSettings := {
  ms_public_base_url : string;
  ms_bootloader_filename : string;
  ms_menu_timeout_ms : Z;
}.

Record ManagedBootProfile := {
  mp_id : string;
  mp_name : string;
  mp_description : string;
  mp_profile_type : string;
  mp_enabled : bool;
  mp_is_default : bool;
  mp_one_time : bool;
  mp_raw_script : option string;
}.

Record ManagedBootClient := {
  mc_id : string;
  mc_mac : string;
  mc_hostname : option string;
  mc_serial_number : option string;
  mc_last_seen_at : option string;
  mc_default_profile_id : option string;
  mc_one_time_profile_id : option string;
  mc_managed_device_id : option string;
  mc_reinstall_request_id : option string;
  mc_notes : string;
  mc_tags : list string;
}.

(** [pxe_discovery::Desired]. *)
Record PxePeer := {
  pp_server_device_id : string;
  pp_address : string;
  pp_mac : string;
  pp_bootloader_filename : string;
  pp_proxy_capable : bool;
}.
Record PxeClient := { pc_mac : string; pc_server_device_id : option string }.
Record PxeDesired := {
  pd_schema : string;
  pd_server_device_id : string;
  pd_complete : bool;
  pd_peers : list PxePeer;
  pd_clients : list PxeClient;
}.

Record AgentBootConfigResponse := {
  bc_pxe_discovery : option PxeDesired;
  bc_compatibility : option ComponentCompatibilityContract;
  bc_settings : ManagedBootSettings;
  bc_profiles : list ManagedBootProfile;
  bc_profiles_complete : bool;
  bc_deleted_profile_ids : list string;
  bc_clients : list ManagedBootClient;
  bc_deleted_client_ids : list string;
  bc_clients_complete : bool;
}.

Record NormalizedManagedSettings := {
  ns_public_base_url : string;
  ns_bootloader_filename : string;
  ns_menu_timeout_ms : Z;
}.

(** What [Url::parse] says of a URL that [normalize_http_url] asks about. *)
Record SettingsUrl := {
  su_scheme : string;
  su_has_host : bool;
  su_username : string;
  su_has_password : bool;
  su_has_query : bool;
  su_has_fragment : bool;
}.

(** [anyhow::Result], by the text of the outermost error. *)
Abbreviation Result A := (result string A).
Definition bail {A} (text : string) : Result A := Err text.

(** [Display] of [AppError]; the details of database and file errors are left
    out. *)
Definition app_error_text (e : AppError) : string :=
  match e with
  | Sqlx => "database error"
  | Io => "io error"
  | Validation message => "invalid request: " +:+ message
  | NotFound => "not found"
  | Unauthorized => "unauthorized"
  | Forbidden => "forbidden"
  | Config message => "configuration error: " +:+ message
  | UnsafePath => "path is not allowed"
  end.
Definition or_text {A} (r : AppResult A) : Result A :=
  match r with Ok a => Ok a | Err e => Err (app_error_text e) end.

(** ** Validation *)

Definition validate_managed_id (value field : string) : Result unit :=
  _ ≔ ensure (negb (is_empty (trim value))) (field +:+ " is required") ?;
  ensure (bool_decide (trim value = value)) (field +:+ " must not contain surrounding whitespace").

Definition managed_profile_type (p : ManagedBootProfile) : Result BootProfileType :=
  match profile_type_from_str (mp_profile_type p) with
  | Ok t => Ok t
  | Err e => bail ("invalid managed profile type: " +:+ app_error_text e)
  end.

Definition validate_profile (p : ManagedBootProfile) : Result unit :=
  _ ≔ validate_managed_id (mp_id p) "managed boot profile id" ?;
  let name := trim (mp_name p) in
  _ ≔ ensure (negb (is_empty name)) "managed boot profile name is required" ?;
  _ ≔ ensure (len name <=? 120) "managed boot profile name must be 120 characters or fewer" ?;
  _ ≔ ensure (negb (existsb is_control (chars name)))
        "managed boot profile name must not contain control characters" ?;
  _ ≔ ensure (bool_decide (length (chars (mp_description p)) ≤ MAX_PROFILE_DESCRIPTION_CHARS)%nat)
        "managed boot profile description must be 2000 characters or fewer" ?;
  _ ≔ ensure (match mp_raw_script p with
              | Some value => len (trim value) <=? MAX_PROFILE_RAW_SCRIPT_BYTES
              | None => true
              end) "managed boot profile raw_script must be 65536 bytes or fewer" ?;
  profile_type ≔ managed_profile_type p ?;
  ensure (bool_decide (profile_type = CustomIpxe)
          || negb (match mp_raw_script p with
                   | Some value => negb (is_empty (trim value))
                   | None => false
                   end))
    "managed boot profile raw_script is only valid for custom_ipxe".

Definition managed_profile_has_boot_action (p : ManagedBootProfile) : bool :=
  if bool_decide (mp_profile_type p = "local_disk" ∨ mp_profile_type p = "nest_installer") then true
  else if bool_decide (mp_profile_type p = "custom_ipxe")
  then match mp_raw_script p with Some value => negb (is_empty (trim value)) | None => false end
  else false.

Definition validate_assignable_profile (p : ManagedBootProfile) (field : string) : Result unit :=
  _ ≔ ensure (mp_enabled p) (field +:+ " must target an enabled profile") ?;
  ensure (managed_profile_has_boot_action p)
    (field +:+ " must target a profile with a runnable boot action").

Definition validate_client_profile_reference (remote_id : option string)
    (profiles_by_id : gmap string ManagedBootProfile) : Result unit :=
  match remote_id with
  | None => Ok tt
  | Some remote_id =>
      if is_empty (trim remote_id) then Ok tt else
      match profiles_by_id !! remote_id with
      | None => bail "managed boot client references an unknown boot profile"
      | Some p => validate_assignable_profile p "managed boot client profile assignment"
      end
  end.

Definition validate_limited_text (value field : string) (max_chars : nat) (allow_control : bool)
    : Result unit :=
  _ ≔ ensure (bool_decide (length (chars value) ≤ max_chars)%nat)
        (field +:+ " must be " +:+ show (Z.of_nat max_chars) +:+ " characters or fewer") ?;
  ensure (allow_control || negb (existsb is_control (chars value)))
    (field +:+ " must not contain control characters").

Definition validate_limited_optional_text (value : option string) (field : string)
    (max_chars : nat) (allow_control : bool) : Result unit :=
  match value with
  | Some value => validate_limited_text value field max_chars allow_control
  | None => Ok tt
  end.

Fixpoint validate_tags (tags : list string) : Result unit :=
  match tags with
  | [] => Ok tt
  | tag :: tags =>
      _ ≔ validate_limited_text tag "managed boot client tag" MAX_DEVICE_TAG_CHARS false ?;
      validate_tags tags
  end.

Definition validate_client_tags (tags : list string) : Result unit :=
  _ ≔ ensure (bool_decide (length tags ≤ MAX_DEVICE_TAGS)%nat)
        "managed boot client tags must include 50 entries or fewer" ?;
  validate_tags tags.

Definition validate_client_metadata (c : ManagedBootClient) : Result unit :=
  _ ≔ validate_limited_optional_text (mc_hostname c) "managed boot client hostname"
        MAX_DEVICE_HOSTNAME_CHARS false ?;
  _ ≔ validate_limited_optional_text (mc_serial_number c) "managed boot client serial number"
        MAX_DEVICE_SERIAL_CHARS false ?;
  _ ≔ validate_limited_text (mc_notes c) "managed boot client notes" MAX_DEVICE_NOTES_CHARS true ?;
  validate_client_tags (clean_tags (mc_tags c)).

(** The loops of [validate_boot_config], with what they have seen. *)
Fixpoint validate_profiles (ps : list ManagedBootProfile) (by_id : gmap string ManagedBootProfile)
    (has_default : bool) : Result (gmap string ManagedBootProfile) :=
  match ps with
  | [] => Ok by_id
  | p :: ps =>
      _ ≔ validate_profile p ?;
      _ ≔ ensure (negb (bool_decide (is_Some (by_id !! mp_id p))))
            "duplicate managed boot profile id" ?;
      _ ≔ (if mp_is_default p then
             _ ≔ ensure (negb has_default)
                   "managed boot config includes multiple default profiles" ?;
             validate_assignable_profile p "managed default boot profile"
           else Ok tt) ?;
      validate_profiles ps (<[mp_id p := p]> by_id) (has_default || mp_is_default p)
  end.

Fixpoint validate_deleted_ids (ids : list string) (seen : gset string) (what : string)
    : Result unit :=
  match ids with
  | [] => Ok tt
  | id :: ids =>
      _ ≔ validate_managed_id id ("deleted managed boot " +:+ what +:+ " id") ?;
      _ ≔ ensure (negb (bool_decide (id ∈ seen)))
            ("duplicate deleted managed boot " +:+ what +:+ " id") ?;
      validate_deleted_ids ids ({[ id ]} ∪ seen) what
  end.

Fixpoint validate_clients (cs : list ManagedBootClient) (ids macs : gset string)
    (by_id : gmap string ManagedBootProfile) : Result unit :=
  match cs with
  | [] => Ok tt
  | c :: cs =>
      _ ≔ validate_managed_id (mc_id c) "managed boot client id" ?;
      _ ≔ ensure (negb (bool_decide (mc_id c ∈ ids))) "duplicate managed boot client id" ?;
      mac ≔ or_text (normalize_mac (mc_mac c)) ?;
      _ ≔ ensure (negb (bool_decide (mac ∈ macs))) "duplicate managed boot client mac" ?;
      _ ≔ validate_client_metadata c ?;
      _ ≔ validate_client_profile_reference (mc_default_profile_id c) by_id ?;
      _ ≔ validate_client_profile_reference (mc_one_time_profile_id c) by_id ?;
      validate_clients cs ({[ mc_id c ]} ∪ ids) ({[ mac ]} ∪ macs) by_id
  end.

Definition validate_boot_config (config : AgentBootConfigResponse) : Result unit :=
  _ ≔ ensure (bool_decide (length (bc_profiles config) ≤ MAX_MANAGED_PROFILES)%nat)
        "managed boot config includes too many profiles; max is 1000" ?;
  _ ≔ ensure (bool_decide (length (bc_deleted_profile_ids config) ≤ MAX_DELETED_MANAGED_PROFILES)%nat)
        "managed boot config includes too many deleted profiles; max is 2000" ?;
  _ ≔ ensure (bool_decide (length (bc_clients config) ≤ MAX_MANAGED_CLIENTS)%nat)
        "managed boot config includes too many clients; max is 2000" ?;
  _ ≔ ensure (bool_decide (length (bc_deleted_client_ids config) ≤ MAX_DELETED_MANAGED_CLIENTS)%nat)
        "managed boot config includes too many deleted clients; max is 2000" ?;
  profiles_by_id ≔ validate_profiles (bc_profiles config) ∅ false ?;
  _ ≔ validate_deleted_ids (bc_deleted_profile_ids config) ∅ "profile" ?;
  _ ≔ validate_clients (bc_clients config) ∅ ∅ profiles_by_id ?;
  validate_deleted_ids (bc_deleted_client_ids config) ∅ "client".

(** ** The transaction *)

Definition refused {A} (o : option A) : Result A := ok_or "error returned from database" o.

(** [DELETE FROM boot_profiles WHERE ...]. *)
Definition delete_profiles (gone : BootProfileRow → bool) (d : BootDb) : BootDb :=
  foldr (λ id d, (delete_profile_row id d).2) d
    (pr_id <$> List.filter gone (values_of (profiles d))).

Definition has_managed_id (remote_id : string) (row : BootProfileRow) : bool :=
  bool_decide (pr_managed_profile_id row = Some remote_id).

(** The second deletion of an identifier that is repeated finds nothing. *)
Definition sync_deleted_profiles (ids : list string) (d : BootDb) : BootDb :=
  fold_left (λ d id, delete_profiles (has_managed_id id) d) ids d.

Definition clear_synced_default_profiles (d : BootDb) : BootDb :=
  set_profiles (without_default <$> profiles d) d.

Definition find_managed_profile (remote_id : string) (d : BootDb) : option BootProfileRow :=
  List.find (has_managed_id remote_id) (values_of (profiles d)).

Definition managed_profile_row (p : ManagedBootProfile) (t : BootProfileType) (now : string) (id : Z)
    : BootProfileRow := {|
  pr_id := id; pr_managed_profile_id := Some (mp_id p); pr_name := trim (mp_name p);
  pr_description := mp_description p; pr_profile_type := profile_type_str t;
  pr_enabled := bool_to_i64 (mp_enabled p); pr_is_default := bool_to_i64 (mp_is_default p);
  pr_one_time := bool_to_i64 (mp_one_time p);
  pr_raw_script := clean_optional_string (mp_raw_script p);
  pr_created_at := now; pr_updated_at := now |}.

Definition synced_profile_row (p : ManagedBootProfile) (t : BootProfileType) (now : string)
    (row : BootProfileRow) : BootProfileRow := {|
  pr_id := pr_id row; pr_managed_profile_id := pr_managed_profile_id row;
  pr_name := trim (mp_name p); pr_description := mp_description p;
  pr_profile_type := profile_type_str t; pr_enabled := bool_to_i64 (mp_enabled p);
  pr_is_default := bool_to_i64 (mp_is_default p); pr_one_time := bool_to_i64 (mp_one_time p);
  pr_raw_script := clean_optional_string (mp_raw_script p);
  pr_created_at := pr_created_at row; pr_updated_at := now |}.

(** [now] is the time that was read for the row. *)
Definition sync_profile (now : string) (p : ManagedBootProfile) (d : BootDb) : Result BootDb :=
  t ≔ managed_profile_type p ?;
  match find_managed_profile (mp_id p) d with
  | Some row => refused (update_profile_row (pr_id row) (synced_profile_row p t now) d)
  | None => refused (snd <$> insert_profile (managed_profile_row p t now) d)
  end.

Fixpoint sync_each_profile (clock : string → string) (ps : list ManagedBootProfile) (d : BootDb)
    : Result BootDb :=
  match ps with
  | [] => Ok d
  | p :: ps => d ≔ sync_profile (clock (mp_id p)) p d ?; sync_each_profile clock ps d
  end.

Definition absent_profile (desired : list string) (row : BootProfileRow) : bool :=
  match pr_managed_profile_id row with
  | Some remote_id => negb (bool_decide (remote_id ∈ desired))
  | None => false
  end.

Definition SEEDED_DESCRIPTION : string :=
  "Return control to UEFI firmware so the next local boot target can start.".

Definition mentions (id : Z) (row : DeviceRow) : bool :=
  bool_decide (dr_default_profile_id row = Some id) || bool_decide (dr_one_time_profile_id row = Some id)
  || bool_decide (dr_last_selected_profile_id row = Some id).

Definition seeded_profile (d : BootDb) (row : BootProfileRow) : bool :=
  bool_decide (pr_managed_profile_id row = None) && bool_decide (pr_profile_type row = "local_disk")
  && bool_decide (pr_name row = "Local disk") && bool_decide (pr_description row = SEEDED_DESCRIPTION)
  && (pr_is_default row =? 0) && negb (existsb (mentions (pr_id row)) (values_of (devices d))).

Definition prune_seeded_local_disk_profile (ps : list ManagedBootProfile) (d : BootDb) : BootDb :=
  if existsb (λ p, bool_decide (mp_profile_type p = "local_disk")) ps
  then delete_profiles (seeded_profile d) d else d.

Definition sync_profiles (clock : string → string) (ps : list ManagedBootProfile)
    (profiles_complete : bool) (d : BootDb) : Result BootDb :=
  d ≔ sync_each_profile clock ps (clear_synced_default_profiles d) ?;
  let d := if profiles_complete then delete_profiles (absent_profile (mp_id <$> ps)) d else d in
  Ok (prune_seeded_local_disk_profile ps d).

(** [managed_profile_map]. *)
Definition profile_entry (row : BootProfileRow) : option (string * Z) :=
  remote_id ← pr_managed_profile_id row; Some (remote_id, pr_id row).
Definition managed_profile_map (d : BootDb) : gmap string Z :=
  list_to_map (omap profile_entry (values_of (profiles d))).

Definition local_profile_id (remote_id : option string) (profile_map : gmap string Z)
    : Result (option Z) :=
  match remote_id with
  | None => Ok None
  | Some remote_id =>
      if is_empty (trim remote_id) then Ok None
      else match profile_map !! remote_id with
           | Some id => Ok (Some id)
           | None => bail "managed client references an unknown boot profile"
           end
  end.

Definition has_client_id (remote_id : string) (row : DeviceRow) : bool :=
  bool_decide (dr_managed_client_id row = Some remote_id).

Definition sync_deleted_clients (ids : list string) (d : BootDb) : BootDb :=
  fold_left (λ d id, (delete_devices (has_client_id id) d).2) ids d.

(** The device of a client: the one that carries its identifier, else the one that
    has its address. *)
Definition find_client (remote_id mac : string) (d : BootDb) : option DeviceRow :=
  match List.find (has_client_id remote_id) (values_of (devices d)) with
  | Some row => Some row
  | None => find_mac mac d
  end.

Section Sync.
Context {serde : Serde}.

Definition managed_device_row (c : ManagedBootClient) (mac : string) (default_id one_time_id : option Z)
    (now : string) (id : Z) : DeviceRow := {|
  dr_id := id; dr_mac := mac; dr_hostname := clean_optional_string (mc_hostname c);
  dr_serial_number := clean_optional_string (mc_serial_number c);
  dr_last_seen_at := mc_last_seen_at c; dr_last_selected_profile_id := None;
  dr_notes := mc_notes c; dr_tags := tags_to_string (clean_tags (mc_tags c));
  dr_default_profile_id := default_id; dr_one_time_profile_id := one_time_id;
  dr_one_time_consumed_at := None; dr_created_at := now; dr_updated_at := now;
  dr_managed_client_id := Some (mc_id c);
  dr_managed_device_id := clean_optional_string (mc_managed_device_id c);
  dr_reinstall_request_id := clean_optional_string (mc_reinstall_request_id c) |}.

Definition synced_device_row (c : ManagedBootClient) (mac : string) (default_id one_time_id : option Z)
    (now : string) (row : DeviceRow) : DeviceRow := {|
  dr_id := dr_id row; dr_mac := mac; dr_hostname := clean_optional_string (mc_hostname c);
  dr_serial_number := clean_optional_string (mc_serial_number c);
  dr_last_seen_at := match mc_last_seen_at c with Some t => Some t | None => dr_last_seen_at row end;
  dr_last_selected_profile_id := dr_last_selected_profile_id row;
  dr_notes := mc_notes c; dr_tags := tags_to_string (clean_tags (mc_tags c));
  dr_default_profile_id := default_id; dr_one_time_profile_id := one_time_id;
  dr_one_time_consumed_at := if bool_decide (dr_one_time_profile_id row = one_time_id)
                             then dr_one_time_consumed_at row else None;
  dr_created_at := dr_created_at row; dr_updated_at := now;
  dr_managed_client_id := Some (mc_id c);
  dr_managed_device_id := clean_optional_string (mc_managed_device_id c);
  dr_reinstall_request_id := clean_optional_string (mc_reinstall_request_id c) |}.

Definition sync_client (now : string) (profile_map : gmap string Z) (c : ManagedBootClient) (d : BootDb)
    : Result BootDb :=
  mac ≔ or_text (normalize_mac (mc_mac c)) ?;
  default_id ≔ local_profile_id (mc_default_profile_id c) profile_map ?;
  one_time_id ≔ local_profile_id (mc_one_time_profile_id c) profile_map ?;
  match find_client (mc_id c) mac d with
  | Some row => refused (update_device_row (dr_id row) (λ _, true)
                           (synced_device_row c mac default_id one_time_id now) d)
  | None => refused (snd <$> insert_device (managed_device_row c mac default_id one_time_id now) d)
  end.

Fixpoint sync_each_client (clock : string → string) (profile_map : gmap string Z)
    (cs : list ManagedBootClient) (d : BootDb) : Result BootDb :=
  match cs with
  | [] => Ok d
  | c :: cs =>
      d ≔ sync_client (clock (mc_id c)) profile_map c d ?;
      sync_each_client clock profile_map cs d
  end.

Definition absent_client (desired : list string) (row : DeviceRow) : bool :=
  match dr_managed_client_id row with
  | Some remote_id => negb (bool_decide (remote_id ∈ desired))
  | None => false
  end.

Definition sync_clients (clock : string → string) (cs : list ManagedBootClient)
    (profile_map : gmap string Z) (clients_complete : bool) (d : BootDb) : Result BootDb :=
  d ≔ sync_each_client clock profile_map cs d ?;
  Ok (if clients_complete then (delete_devices (absent_client (mc_id <$> cs)) d).2 else d).

(** From [begin] to [commit]. *)
Definition sync_tables (clock : string → string) (config : AgentBootConfigResponse) (d : BootDb)
    : Result BootDb :=
  let d := sync_deleted_profiles (bc_deleted_profile_ids config) d in
  d ≔ sync_profiles clock (bc_profiles config) (bc_profiles_complete config) d ?;
  let profile_map := managed_profile_map d in
  let d := sync_deleted_clients (bc_deleted_client_ids config) d in
  sync_clients clock (bc_clients config) profile_map (bc_clients_complete config) d.

End Sync.

(** ** Settings *)

(** What is configured on the appliance. *)
Record ManageConfig := {
  mg_public_base_url : string;
  mg_bootloader_filename : string;
  mg_listen_addr : string;
  mg_tftp_dir : string;
  mg_boot_assets_dir : string;
  mg_version : string;
}.

Definition URL_REFUSED : list ascii :=
  bytes (String "034" "\;&|`$<>(){}@").

Definition refused_in_url (c : list ascii) : bool :=
  is_control c || is_whitespace c
  || match c with [b] => bool_decide (b ∈ URL_REFUSED) | _ => false end.

(** ** Reports *)

Record BootAgentSettingsReport := {
  sr_public_base_url : string;
  sr_listen_addr : string;
  sr_tftp_root : string;
  sr_http_root : string;
  sr_bootloader_filename : string;
  sr_menu_timeout_ms : Z;
  sr_version : string;
  sr_status : string;
  sr_state : Value;
}.

Record BootAgentClientReport := {
  cr_mac : string;
  cr_hostname : option string;
  cr_serial_number : option string;
  cr_last_seen_at : option string;
  cr_notes : string;
  cr_tags : list string;
}.

Record BootAgentEventReport := {
  er_source_event_id : Z;
  er_mac : option string;
  er_serial_number : option string;
  er_ip_address : option string;
  er_user_agent : option string;
  er_selected_profile_id : option string;
  er_selected_profile_name : option string;
  er_known_client : bool;
  er_created_at : string;
}.

Record BootAgentReportRequest := {
  ba_protocol_version : Z;
  ba_settings : BootAgentSettingsReport;
  ba_clients : list BootAgentClientReport;
  ba_events : list BootAgentEventReport;
}.

(** The parameters of the model: [Url::parse], the canonical spelling of a UUID, the
    encoding of a boot report and of the PXE inventory. *)
Class ManageDeps := {
  settings_url : string → option SettingsUrl;
  uuid_hyphenated : string → option string;
  boot_report_to_vec : BootAgentReportRequest → string;
  discovery_to_vec : Z → option PxeDesired → string;
}.

Section Settings.
Context {deps : ManageDeps}.

Definition normalize_http_url (field value : string) : Result string :=
  let url := trim_end_byte "/" (trim value) in
  _ ≔ ensure (negb (is_empty url)) (field +:+ " must not be empty") ?;
  _ ≔ ensure (negb (existsb refused_in_url (chars url))) (field +:+ " contains unsupported characters") ?;
  parsed ≔ ok_or (field +:+ " must be an absolute http:// or https:// URL") (settings_url url) ?;
  _ ≔ ensure (bool_decide (su_scheme parsed ∈ ["http"; "https"]))
        (field +:+ " must be an absolute http:// or https:// URL") ?;
  _ ≔ ensure (su_has_host parsed) (field +:+ " must include a host") ?;
  _ ≔ ensure (is_empty (su_username parsed) && negb (su_has_password parsed))
        (field +:+ " must not include embedded credentials") ?;
  _ ≔ ensure (negb (su_has_query parsed)) (field +:+ " must not include query parameters") ?;
  _ ≔ ensure (negb (su_has_fragment parsed)) (field +:+ " must not include fragments") ?;
  Ok url.

Definition normalize_bootloader_filename (value : string) : Result string :=
  let filename := trim value in
  _ ≔ ensure (negb (is_empty filename)) "boot.bootloader_filename must not be empty" ?;
  _ ≔ ensure (negb (starts_with "." filename)
              && all_bytes (λ b, is_alnum b || byte_in "._-" b) filename)
        "boot.bootloader_filename must be a simple filename such as snponly.efi" ?;
  Ok filename.

Definition validate_menu_timeout_ms (value : Z) : Result unit :=
  ensure ((value =? 0) || ((1000 <=? value) && (value <=? 600000)))
    "boot.menu_timeout_ms must be 0 or between 1000 and 600000".

Definition normalize_managed_settings_for_mode (settings : ManagedBootSettings) (cfg : ManageConfig)
    (managed_appliance : bool) : Result NormalizedManagedSettings :=
  public_base_url ≔
    (if managed_appliance || is_empty (trim (ms_public_base_url settings))
     then Ok (mg_public_base_url cfg)
     else normalize_http_url "managed boot settings public_base_url" (ms_public_base_url settings)) ?;
  _ ≔ ensure (negb (is_empty public_base_url)) "managed boot settings public_base_url is required" ?;
  bootloader_filename ≔
    (if is_empty (trim (ms_bootloader_filename settings)) then Ok (mg_bootloader_filename cfg)
     else normalize_bootloader_filename (ms_bootloader_filename settings)) ?;
  _ ≔ validate_menu_timeout_ms (ms_menu_timeout_ms settings) ?;
  Ok {| ns_public_base_url := public_base_url; ns_bootloader_filename := bootloader_filename;
        ns_menu_timeout_ms := ms_menu_timeout_ms settings |}.

Definition validate_component_compatibility (contract : option ComponentCompatibilityContract)
    : Result unit :=
  contract ≔ ok_or "managed protocol-4 compatibility is required" contract ?;
  ensure ((TIARIS_MINIMUM_MANAGE_PROTOCOL_VERSION <=? cc_protocol_version contract)
          && (cc_protocol_version contract <=? TIARIS_MAXIMUM_MANAGE_PROTOCOL_VERSION)
          && (cc_minimum_nest_protocol contract <=? TIARIS_COMPONENT_PROTOCOL_VERSION)
          && (TIARIS_COMPONENT_PROTOCOL_VERSION <=? cc_maximum_nest_protocol contract)
          && negb (bool_decide (cc_workstation_runtime_epoch contract = Some 0)))
    ("incompatible Tiaris protocol " +:+ show (cc_protocol_version contract)
     +:+ " (Nest protocol " +:+ show TIARIS_COMPONENT_PROTOCOL_VERSION
     +:+ ", supported Nest range " +:+ show (cc_minimum_nest_protocol contract)
     +:+ " through " +:+ show (cc_maximum_nest_protocol contract)
     +:+ ", Tiaris version " +:+ trim (cc_manage_version contract)
     +:+ ", release " +:+ trim (cc_manage_release contract) +:+ ")").

Definition is_safe_path_segment (value : string) : bool :=
  negb (is_empty value) && (len value <=? 128)
  && all_bytes (λ b, is_alnum b || byte_in "_-." b) value && negb (contains ".." value).

Definition optional_report_uuid (value : option string) : option string :=
  value ← value; uuid_hyphenated (trim value).

End Settings.

(** *** Fitting a report *)

Definition with_clients (clients : list BootAgentClientReport) (b : BootAgentReportRequest)
    : BootAgentReportRequest := {|
  ba_protocol_version := ba_protocol_version b; ba_settings := ba_settings b;
  ba_clients := clients; ba_events := ba_events b |}.
Definition with_events (events : list BootAgentEventReport) (b : BootAgentReportRequest)
    : BootAgentReportRequest := {|
  ba_protocol_version := ba_protocol_version b; ba_settings := ba_settings b;
  ba_clients := ba_clients b; ba_events := events |}.

(** The loop of [max_fitting_prefix_len]; [high - low] rounds are enough. *)
Fixpoint fitting_loop (fits : nat → bool) (fuel low high : nat) : nat :=
  match fuel with
  | O => low
  | S fuel =>
      if (high <=? low)%nat then low else
      let mid := ((low + high + 1) / 2)%nat in
      if fits mid then fitting_loop fits fuel mid high
      else fitting_loop fits fuel low (mid - 1)
  end.
Definition max_fitting_prefix_len (length_ : nat) (fits : nat → bool) : nat :=
  fitting_loop fits length_ 0 length_.

Section Reports.
Context {serde : Serde} {deps : ManageDeps}.

Definition boot_report_body_fits (max_bytes : Z) (b : BootAgentReportRequest) : bool :=
  len (boot_report_to_vec b) <=? max_bytes.

Definition fit_boot_report_body (b : BootAgentReportRequest) (max_bytes : Z)
    : Result BootAgentReportRequest :=
  if boot_report_body_fits max_bytes b then Ok b else
  let clients := ba_clients b in
  let b := with_clients (take (max_fitting_prefix_len (length clients) (λ count,
             boot_report_body_fits max_bytes (with_clients (take count clients) b))) clients) b in
  let events := ba_events b in
  let b := if boot_report_body_fits max_bytes b then b
           else with_events (take (max_fitting_prefix_len (length events) (λ count,
                  boot_report_body_fits max_bytes (with_events (take count events) b))) events) b in
  if boot_report_body_fits max_bytes b then Ok b
  else bail ("managed boot report base body exceeded " +:+ show max_bytes +:+ " bytes").

(** *** What is reported *)

(** [ORDER BY] a one-time boot first, then the most recent, then the address. *)
Definition client_report_le (x y : DeviceRow) : Prop :=
  let late r := if bool_decide (is_Some (dr_one_time_profile_id r)) then 0 else 1 in
  late x < late y ∨ (late x = late y ∧ device_list_le x y).
#[global] Instance client_report_le_dec : RelDecision client_report_le.
Proof. unfold client_report_le. intros x y. apply _. Defined.

Definition client_report (row : DeviceRow) : BootAgentClientReport := {|
  cr_mac := dr_mac row; cr_hostname := dr_hostname row; cr_serial_number := dr_serial_number row;
  cr_last_seen_at := dr_last_seen_at row; cr_notes := dr_notes row;
  cr_tags := clean_tags (parse_tags (dr_tags row)) |}.

Definition current_boot_client_reports : handler (list BootAgentClientReport) :=
  select (λ d, List.map client_report (merge_sort client_report_le (values_of (devices d)))).

Definition event_id_le (x y : BootEvent) : Prop := ev_id x ≤ ev_id y.
#[global] Instance event_id_le_dec : RelDecision event_id_le.
Proof. unfold event_id_le. intros x y. apply _. Defined.

Definition event_report (d : BootDb) (e : BootEvent) : BootAgentEventReport :=
  let n := ev_recorded e in {|
  er_source_event_id := ev_id e; er_mac := ne_mac n; er_serial_number := ne_serial_number n;
  er_ip_address := ne_ip_address n; er_user_agent := ne_user_agent n;
  er_selected_profile_id := optional_report_uuid (
    id ← ne_selected_profile_id n; row ← profiles d !! id; pr_managed_profile_id row);
  er_selected_profile_name := ne_selected_profile_name n; er_known_client := ne_known_device n;
  er_created_at := ev_created_at e |}.

Definition list_events_after (last_reported_event_id limit : Z) : handler (list BootAgentEventReport) :=
  select (λ d, List.map (event_report d) (take (Z.to_nat (clamp 1 MAX_REPORT_EVENTS limit))
    (merge_sort event_id_le
       (List.filter (λ e, last_reported_event_id <? ev_id e) (values_of (boot_events d)))))).

Definition has_unreported_known_profile_events (last_reported_event_id : option Z) : handler bool :=
  select (λ d, existsb (λ e, (default 0 last_reported_event_id <? ev_id e) && ne_known_device (ev_recorded e)
                             && bool_decide (is_Some (ne_selected_profile_id (ev_recorded e))))
                 (values_of (boot_events d))).

Definition boot_report_state (profile_count client_count : nat) (reliability : option Value) : Value :=
  let state := obj_insert "managed" (Bool true)
                 (obj_insert "profile_count" (Num (PosInt (Z.of_nat profile_count)))
                    (obj_insert "client_count" (Num (PosInt (Z.of_nat client_count))) [])) in
  Object (match reliability with Some v => obj_insert "reliability" v state | None => state end).

Definition reported_status (reliability : option Value) : string :=
  match v ← reliability; status ← get "status" v; as_str status with
  | Some status => if bool_decide (status = "healthy") then "online" else "warning"
  | None => "online"
  end.

End Reports.

(** ** The synchronization *)

Record ManagedState := {
  st_private_key_b64 : option string;
  st_public_key_b64 : option string;
  st_public_key_fingerprint : option string;
  st_device_id : option string;
  st_last_reported_event_id : option Z;
  st_active_report_cursor : option Z;
  st_terminal_report_cursor : option Z;
  st_rejection_report_cursor : option Z;
  st_cache_artifact_report_cursor : option Z;
  st_cache_report_instance_id : option string;
  st_cache_report_generation : option Z;
  st_report_rotation_round : Z;
  st_report_warning_fingerprint : option string;
}.

Definition with_reported (id : Z) (m : ManagedState) : ManagedState := {|
  st_private_key_b64 := st_private_key_b64 m; st_public_key_b64 := st_public_key_b64 m;
  st_public_key_fingerprint := st_public_key_fingerprint m; st_device_id := st_device_id m;
  st_last_reported_event_id := Some id;
  st_active_report_cursor := st_active_report_cursor m;
  st_terminal_report_cursor := st_terminal_report_cursor m;
  st_rejection_report_cursor := st_rejection_report_cursor m;
  st_cache_artifact_report_cursor := st_cache_artifact_report_cursor m;
  st_cache_report_instance_id := st_cache_report_instance_id m;
  st_cache_report_generation := st_cache_report_generation m;
  st_report_rotation_round := st_report_rotation_round m;
  st_report_warning_fingerprint := st_report_warning_fingerprint m |}.

(** The database, the settings in memory, the file for the PXE supervisor, the state
    file, and the boot reports that Tiaris has accepted. *)
Record SyncWorld := {
  sy_db : BootDb;
  sy_settings : NormalizedManagedSettings;
  sy_discovery : option (Z * option PxeDesired);
  sy_state : ManagedState;
  sy_accepted : list BootAgentReportRequest;
}.

(** What an action learns: what the boot handlers learn, the times of the rows of a
    transaction, whether this is the managed appliance, whether work on files fails,
    the clock, the answers of Tiaris, and the reliability file. *)
Record SyncInput := {
  si_boot : BootInput;
  si_clock : string → string;
  si_appliance : bool;
  si_io : option string;
  si_now : Z;
  si_config : Result AgentBootConfigResponse;
  si_posted : Result unit;
  si_reliability : option Value;
}.

Definition set_db (d : BootDb) (w : SyncWorld) : SyncWorld := {|
  sy_db := d; sy_settings := sy_settings w; sy_discovery := sy_discovery w;
  sy_state := sy_state w; sy_accepted := sy_accepted w |}.
Definition set_settings (s : NormalizedManagedSettings) (w : SyncWorld) : SyncWorld := {|
  sy_db := sy_db w; sy_settings := s; sy_discovery := sy_discovery w;
  sy_state := sy_state w; sy_accepted := sy_accepted w |}.
Definition set_discovery (p : option (Z * option PxeDesired)) (w : SyncWorld) : SyncWorld := {|
  sy_db := sy_db w; sy_settings := sy_settings w; sy_discovery := p;
  sy_state := sy_state w; sy_accepted := sy_accepted w |}.
Definition set_state (m : ManagedState) (w : SyncWorld) : SyncWorld := {|
  sy_db := sy_db w; sy_settings := sy_settings w; sy_discovery := sy_discovery w;
  sy_state := m; sy_accepted := sy_accepted w |}.
Definition accept_report (b : BootAgentReportRequest) (w : SyncWorld) : SyncWorld := {|
  sy_db := sy_db w; sy_settings := sy_settings w; sy_discovery := sy_discovery w;
  sy_state := sy_state w; sy_accepted := sy_accepted w ++ [b] |}.

Abbreviation synctask := (prog SyncInput SyncWorld).

Definition on_boot {A} (p : handler A) : prog SyncInput SyncWorld (AppResult A) :=
  embed si_boot sy_db set_db p.
Definition from_db {A} (p : handler A) : synctask (Result A) := on_boot p ≫= λ r, Ret (or_text r).
Definition ask {A} (f : SyncInput → SyncWorld → A) : synctask A := atomic (λ i w, (f i w, w)).
Definition file_work {A} (f : SyncInput → SyncWorld → Result A * SyncWorld) : synctask (Result A) :=
  atomic (λ i w, match si_io i with Some text => (bail text, w) | None => f i w end).

Section Synchronization.
Context {serde : Serde} {deps : ManageDeps} (cfg : ManageConfig).

Definition narrowed_discovery (config : AgentBootConfigResponse) : option PxeDesired :=
  (λ p, {| pd_schema := pd_schema p; pd_server_device_id := pd_server_device_id p;
           pd_complete := pd_complete p && (bc_clients_complete config && bc_profiles_complete config);
           pd_peers := pd_peers p; pd_clients := pd_clients p |}) <$> bc_pxe_discovery config.

(** [pxe_discovery::persist]. *)
Definition persist_discovery (desired : option PxeDesired) : synctask (Result unit) :=
  atomic (λ i w,
    if negb (si_appliance i) then (Ok tt, w)
    else if MAX_PXE_DISCOVERY_BYTES <? len (discovery_to_vec (si_now i) desired)
    then (bail "PXE discovery inventory exceeds bound", w)
    else match si_io i with
         | Some text => (bail text, w)
         | None => (Ok tt, set_discovery (Some (si_now i, desired)) w)
         end).

Definition apply_boot_config (config : AgentBootConfigResponse) : synctask (Result unit) :=
  settings ←? ask (λ i _, normalize_managed_settings_for_mode (bc_settings config) cfg (si_appliance i));
  (Ret (validate_boot_config config) : synctask (Result unit)) ;;?
  atomic (λ i w, if fault (si_boot i) then (bail "error returned from database", w)
                 else match sync_tables (si_clock i) config (sy_db w) with
                      | Ok d => (Ok tt, set_db d w)
                      | Err e => (Err e, w)
                      end) ;;?
  persist_discovery (narrowed_discovery config) ;;?
  atomic (λ _ w, (Ok tt, set_settings settings w)).

Definition managed_device_id (m : ManagedState) : Result string :=
  match st_device_id m with
  | Some value => if is_safe_path_segment value then Ok value else bail "missing managed device id"
  | None => bail "missing managed device id"
  end.

Definition fetch_boot_config (m : ManagedState) : synctask (Result AgentBootConfigResponse) :=
  device_id ←? Ret (managed_device_id m);
  config ←? ask (λ i _, si_config i);
  (Ret (validate_component_compatibility (bc_compatibility config)) : synctask (Result unit)) ;;?
  Ret (match bc_pxe_discovery config with
       | Some pxe => if bool_decide (pd_server_device_id pxe = device_id) then Ok config
                     else bail "PXE discovery inventory belongs to another appliance"
       | None => Ok config
       end).

Definition max_event_id (events : list BootAgentEventReport) : option Z :=
  match er_source_event_id <$> events with [] => None | id :: ids => Some (foldr Z.max id ids) end.

(** Returns the state whose cursor follows the events that were accepted. *)
Definition report_boot_state (m : ManagedState) : synctask (Result ManagedState) :=
  clients ←? from_db current_boot_client_reports;
  profiles ←? from_db list_profiles;
  events ←? from_db (list_events_after (default 0 (st_last_reported_event_id m)) MAX_REPORT_EVENTS);
  body ←? ask (λ i w, fit_boot_report_body {|
    ba_protocol_version := TIARIS_COMPONENT_PROTOCOL_VERSION;
    ba_settings := {|
      sr_public_base_url := ns_public_base_url (sy_settings w); sr_listen_addr := mg_listen_addr cfg;
      sr_tftp_root := mg_tftp_dir cfg; sr_http_root := mg_boot_assets_dir cfg;
      sr_bootloader_filename := ns_bootloader_filename (sy_settings w);
      sr_menu_timeout_ms := ns_menu_timeout_ms (sy_settings w); sr_version := mg_version cfg;
      sr_status := reported_status (si_reliability i);
      sr_state := boot_report_state (length profiles) (length clients) (si_reliability i) |};
    ba_clients := take MAX_REPORT_CLIENTS clients; ba_events := events |} MAX_BOOT_REPORT_BODY_BYTES);
  (Ret (managed_device_id m) : synctask (Result string)) ;;?
  atomic (λ i w, match si_posted i with
                 | Ok _ => (Ok (match max_event_id (ba_events body) with
                                | Some id => with_reported id m
                                | None => m
                                end), accept_report body w)
                 | Err e => (Err e, w)
                 end).

(** [retain_sync_failure]. *)
Definition retain (first : option string) (subsystem : string) {A} (r : Result A) : option string :=
  match r with
  | Ok _ => first
  | Err _ => match first with Some e => Some e | None => Some (subsystem +:+ " failed") end
  end.

Definition save_managed_state (m : ManagedState) : synctask (Result unit) :=
  file_work (λ _ w, (Ok tt, set_state m w)).

(** Report, and store the cursor. *)
Definition report_and_save (first : option string) (subsystem : string) (m : ManagedState)
    : synctask (option string * ManagedState) :=
  report_boot_state m ≫= λ reported,
  match reported with
  | Ok m => save_managed_state m ≫= λ saved, Ret (retain first "boot event cursor save" saved, m)
  | Err _ => Ret (retain first subsystem reported, m)
  end.

Definition sync_boot_foundation (m : ManagedState) : synctask (Result unit * ManagedState) :=
  from_db (has_unreported_known_profile_events (st_last_reported_event_id m)) ≫= λ pending,
  (match pending with
   | Ok true => report_and_save None "boot event pre-report" m
   | Ok false => Ret (None, m)
   | Err _ => Ret (retain None "boot event discovery" pending, m)
   end) ≫= λ '(first, m),
  fetch_boot_config m ≫= λ fetched,
  (match fetched with
   | Ok config => apply_boot_config config ≫= λ applied,
       Ret (retain first "boot desired configuration" applied)
   | Err _ => Ret (retain first "boot desired configuration fetch" fetched)
   end) ≫= λ first,
  report_and_save first "boot state report" m ≫= λ '(first, m),
  Ret (match first with Some e => Err e | None => Ok tt end, m).

(** The boot lane of [sync_once_with_outcome]: the state is read from its file, and
    stored again at the end. *)
Definition sync_boot_lane : synctask (Result unit) :=
  m ←? file_work (λ _ w, (Ok (sy_state w), w));
  (Ret (managed_device_id m) : synctask (Result string)) ;;?
  sync_boot_foundation m ≫= λ '(result, m),
  save_managed_state m ≫= λ saved,
  Ret (match result with Err e => bail "boot configuration and report failed" | Ok _ => saved end).

End Synchronization.
