(* ===== verification/ManagedBootProofs.v ===== *)
(** * Management: what a synchronization leaves

    The boot tables after a transaction hold exactly what Tiaris desired, and keep
    the invariant of [BootStoreProofs]; and every boot event below the cursor was in
    a report that Tiaris accepted, however synchronizations and boot requests
    interleave. *)

From stdpp Require Import sorting base gmap list strings.
From Stdlib Require Import Ascii ZArith Lia.
From S2P Require Import Prelude Async RustStr Json DbText DbTextProofs Boot BootProofs BootStore BootStoreProofs BootRoutes BootTheorems ManagedBoot.

#[local] Open Scope Z_scope.
#[local] Open Scope nest_scope.

(** The tables are written by the synchronization as well. *)
#[local] Instance all_writers : Writers := true.

Lemma ensured {E} b (e : E) : ensure b e = Ok tt ↔ b = true.
Proof. by destruct b. Qed.

(** Take a validation apart. *)
Ltac accepted :=
  repeat match goal with
  | H : rbind _ _ = Ok _ |- _ => apply rbind_Ok in H; destruct H as (? & ? & H)
  | H : ensure _ _ = Ok _ |- _ => apply ensured in H
  | u : unit |- _ => destruct u
  end.

(** ** Validation *)

(** A profile that may be booted without asking. *)
Definition assignable (p : ManagedBootProfile) : Prop :=
  mp_enabled p = true ∧ managed_profile_has_boot_action p = true.

Lemma validate_assignable_profile_Ok p field :
  validate_assignable_profile p field = Ok tt → assignable p.
Proof. unfold validate_assignable_profile. intros. by accepted. Qed.

Record profiles_valid (ps : list ManagedBootProfile) : Prop := {
  pv_each p : p ∈ ps → validate_profile p = Ok tt;
  pv_ids : NoDup (mp_id <$> ps);
  pv_default p : p ∈ ps → mp_is_default p = true → assignable p;
  pv_one_default p q : p ∈ ps → q ∈ ps → mp_is_default p = true → mp_is_default q = true → p = q;
}.

Lemma validate_profiles_spec ps by_id has_default by_id' :
  validate_profiles ps by_id has_default = Ok by_id' →
  profiles_valid ps ∧
  (∀ p, p ∈ ps → by_id !! mp_id p = None ∧ (has_default = true → mp_is_default p = false)) ∧
  (∀ id p, by_id' !! id = Some p → by_id !! id = Some p ∨ (p ∈ ps ∧ mp_id p = id)).
Proof.
  revert by_id has_default. induction ps as [|p ps IH]; intros by_id has_default; simpl.
  { intros [= <-]. split_and!; [|by intros p Hp; apply not_elem_of_nil in Hp|auto].
    split; [by intros p Hp; apply not_elem_of_nil in Hp|constructor|..];
      intros q; intros; exfalso; by eapply not_elem_of_nil. }
  intros H. accepted. destruct (IH _ _ H) as ([E N D O] & Hseen & Hby). clear IH H.
  match goal with H : negb _ = true |- _ => apply negb_true_iff, bool_decide_eq_false in H;
    rename H into Hnew end.
  assert (mp_is_default p = true → has_default = false ∧ assignable p) as Hdef.
  { match goal with H : (if mp_is_default p then _ else _) = Ok _ |- _ => revert H end.
    destruct (mp_is_default p); [|done]. intros H _. accepted. split; [by apply negb_true_iff|].
    by eapply validate_assignable_profile_Ok. }
  split_and!; [split|..].
  - intros q [->|Hq]%elem_of_cons; auto.
  - simpl. constructor; [|done]. intros (q & Eq & Hq)%list_elem_of_fmap. destruct (Hseen q Hq) as [Hn _].
    rewrite <-Eq, lookup_insert_eq in Hn. done.
  - intros q [->|Hq]%elem_of_cons Hqd; [by apply Hdef|auto].
  - intros q r [->|Hq]%elem_of_cons [->|Hr]%elem_of_cons Dq Dr; [done| | |auto].
    + destruct (Hseen r Hr) as [_ Hf]. rewrite Dq, orb_true_r in Hf. rewrite Hf in Dr by done. done.
    + destruct (Hseen q Hq) as [_ Hf]. rewrite Dr, orb_true_r in Hf. rewrite Hf in Dq by done. done.
  - intros q [->|Hq]%elem_of_cons.
    + split; [by apply eq_None_not_Some|]. intros ->. destruct (mp_is_default p); [|done]. by destruct Hdef.
    + destruct (Hseen q Hq) as [Hn Hf]. split; [by apply lookup_insert_None in Hn as [? _]|].
      intros ->. by apply Hf.
  - intros id q Hq. destruct (Hby id q Hq) as [Hq'|[Hq' Hi]]; [|right; set_solver].
    apply lookup_insert_Some in Hq' as [[<- <-]|[_ Hq']]; [right; set_solver|by left].
Qed.

(** The profile that a client names, if it names one. *)
Definition names_assignable (ps : list ManagedBootProfile) (remote : option string) : Prop :=
  ∀ r, remote = Some r → is_empty (trim r) = false → ∃ p, p ∈ ps ∧ mp_id p = r ∧ assignable p.

Lemma validate_client_profile_reference_Ok remote by_id ps :
  (∀ id p, by_id !! id = Some p → p ∈ ps ∧ mp_id p = id) →
  validate_client_profile_reference remote by_id = Ok tt → names_assignable ps remote.
Proof.
  intros Hby H r -> He. simpl in H. rewrite He in H.
  destruct (by_id !! r) as [p|] eqn:E; [|done]. destruct (Hby _ _ E). exists p.
  split_and!; [done|done|by eapply validate_assignable_profile_Ok].
Qed.

Record client_valid (ps : list ManagedBootProfile) (c : ManagedBootClient) : Prop := {
  cv_mac : ∃ m, normalize_mac (mc_mac c) = Ok m;
  cv_default : names_assignable ps (mc_default_profile_id c);
  cv_one_time : names_assignable ps (mc_one_time_profile_id c);
}.

Definition mac_of (c : ManagedBootClient) : string := default "" (ok (normalize_mac (mc_mac c))).

Lemma or_text_Ok {A} (r : AppResult A) a : or_text r = Ok a ↔ r = Ok a.
Proof. destruct r; naive_solver. Qed.

Lemma validate_clients_spec cs ids macs by_id ps :
  (∀ id p, by_id !! id = Some p → p ∈ ps ∧ mp_id p = id) →
  validate_clients cs ids macs by_id = Ok tt →
  (∀ c, c ∈ cs → client_valid ps c ∧ mc_id c ∉ ids ∧ mac_of c ∉ macs) ∧
  NoDup (mc_id <$> cs) ∧ NoDup (mac_of <$> cs).
Proof.
  intros Hby. revert ids macs. induction cs as [|c cs IH]; intros ids macs; simpl.
  { intros _. split_and!; [by intros c Hc; apply not_elem_of_nil in Hc|constructor..]. }
  intros H. accepted. destruct (IH _ _ H) as (Hc & Hi & Hm). clear IH H.
  match goal with H : or_text _ = Ok ?m |- _ => apply or_text_Ok in H; rename H into Hmac, m into mac end.
  assert (mac_of c = mac) as Em by (unfold mac_of; by rewrite Hmac).
  repeat match goal with H : negb (bool_decide _) = true |- _ =>
    apply negb_true_iff, bool_decide_eq_false in H end.
  split_and!.
  - intros c' [->|Hc']%elem_of_cons.
    + split_and!; [|done|by rewrite Em]. split; [eauto|by eapply validate_client_profile_reference_Ok..].
    + destruct (Hc c' Hc') as (? & ? & ?). split_and!; [done|set_solver..].
  - constructor; [|done]. intros (c' & Ec & Hc')%list_elem_of_fmap.
    destruct (Hc c' Hc') as (_ & Hn & _). rewrite <-Ec in Hn. set_solver.
  - constructor; [|done]. intros (c' & Ec & Hc')%list_elem_of_fmap.
    destruct (Hc c' Hc') as (_ & _ & Hn). rewrite <-Ec, Em in Hn. set_solver.
Qed.

Record config_valid (config : AgentBootConfigResponse) : Prop := {
  gv_profiles : profiles_valid (bc_profiles config);
  gv_clients c : c ∈ bc_clients config → client_valid (bc_profiles config) c;
  gv_client_ids : NoDup (mc_id <$> bc_clients config);
  gv_client_macs : NoDup (mac_of <$> bc_clients config);
}.

Lemma validate_boot_config_Ok config : validate_boot_config config = Ok tt → config_valid config.
Proof.
  unfold validate_boot_config. intros H. accepted.
  match goal with H : validate_profiles _ _ _ = Ok _ |- _ =>
    apply validate_profiles_spec in H as (Hp & _ & Hby) end.
  match goal with H : validate_clients _ _ _ _ = Ok _ |- _ =>
    apply (validate_clients_spec _ _ _ _ (bc_profiles config)) in H as (Hc & ? & ?) end.
  - split; [done| |done|done]. intros c Hin. by apply Hc.
  - intros id p Hp'. by destruct (Hby id p Hp') as [?|?].
Qed.

(** ** Profiles *)

(** What is left of a device in tables whose profiles are those of [d]: the whole row, without the
    references to profiles that are gone. *)
Definition present (d : BootDb) (o : option Z) : option Z := id ← o; _ ← profiles d !! id; Some id.
Definition surviving (d : BootDb) (row : DeviceRow) : DeviceRow := {|
  dr_id := dr_id row; dr_mac := dr_mac row; dr_hostname := dr_hostname row;
  dr_serial_number := dr_serial_number row; dr_last_seen_at := dr_last_seen_at row;
  dr_last_selected_profile_id := present d (dr_last_selected_profile_id row);
  dr_notes := dr_notes row; dr_tags := dr_tags row;
  dr_default_profile_id := present d (dr_default_profile_id row);
  dr_one_time_profile_id := present d (dr_one_time_profile_id row);
  dr_one_time_consumed_at := dr_one_time_consumed_at row;
  dr_created_at := dr_created_at row; dr_updated_at := dr_updated_at row;
  dr_managed_client_id := dr_managed_client_id row;
  dr_managed_device_id := dr_managed_device_id row;
  dr_reinstall_request_id := dr_reinstall_request_id row |}.

Definition devices_kept (d d' : BootDb) : Prop :=
  ∀ id row, devices d !! id = Some row → devices d' !! id = Some (surviving d' row).

Lemma present_id d o : references d o = true → present d o = o.
Proof. rewrite references_true. intros H. destruct o as [id|]; [|done]. by destruct (H id eq_refl) as [? E]; cbn; rewrite E. Qed.
Lemma surviving_id d row : device_refs d row → surviving d row = row.
Proof. intros (? & ? & ?). unfold surviving. rewrite !present_id by done. by destruct row. Qed.

Lemma devices_kept_same d d' : boot_ok d' → devices d' = devices d → devices_kept d d'.
Proof. intros Hd E id row Hr. rewrite <-E in Hr. rewrite surviving_id; [done|]. by eapply ok_device_refs. Qed.

Lemma present_present d1 d2 d3 o :
  boot_ok d1 → boot_evolves d1 d2 → boot_evolves d2 d3 → references d1 o = true →
  present d3 (present d2 o) = present d3 o.
Proof.
  rewrite references_true. intros Hd H12 H23 Ho. destruct o as [id|]; [|done].
  destruct (Ho id eq_refl) as [r1 H1]. apply (ok_profile_key d1 Hd) in H1 as [_ [_ Hle]].
  cbn. destruct (profiles d2 !! id) eqn:E2; [done|]. cbn. destruct (profiles d3 !! id) as [r3|] eqn:E3; [|done].
  destruct (ev_profiles _ _ H23 id r3 E3) as (r2 & ? & _); [|congruence].
  pose proof (ev_counters _ _ H12). lia.
Qed.
Lemma devices_kept_trans d1 d2 d3 :
  boot_ok d1 → step d1 d2 → step d2 d3 → devices_kept d1 d2 → devices_kept d2 d3 → devices_kept d1 d3.
Proof.
  intros Hd [_ H12] [_ H23] K12 K23 id row Hr. rewrite (K23 _ _ (K12 _ _ Hr)). f_equal.
  destruct (ok_device_refs d1 Hd id row Hr) as (? & ? & ?). unfold surviving. cbn -[present].
  by rewrite !(present_present d1) by done.
Qed.

Lemma step_trans d1 d2 d3 : step d1 d2 → step d2 d3 → step d1 d3.
Proof. intros [? H12] [? H23]. split; [done|by etrans]. Qed.

Lemma present_delete i d o :
  references d o = true → (id ← o; _ ← delete i (profiles d) !! id; Some id) = unless i o.
Proof.
  rewrite references_true. intros H. unfold unless. destruct o as [id|]; [|done]. cbn.
  destruct (H id eq_refl) as [r E]. case_bool_decide as Hi; simplify_eq.
  - by rewrite lookup_delete_eq.
  - rewrite lookup_delete_ne by congruence. by rewrite E.
Qed.
Lemma delete_profile_row_kept i d : boot_ok d → devices_kept d (delete_profile_row i d).2.
Proof.
  intros Hd id row Hr. destruct (ok_device_refs d Hd id row Hr) as (H1 & H2 & H3).
  unfold delete_profile_row. destruct (profiles d !! i); simpl.
  - rewrite lookup_fmap, Hr. cbn. f_equal. unfold surviving, forget_profile_device, present. cbn.
    by rewrite !present_delete.
  - by rewrite surviving_id.
Qed.

Lemma delete_ids_spec ids d :
  boot_ok d →
  let d' := foldr (λ id d, (delete_profile_row id d).2) d ids in
  step d d' ∧ devices_kept d d' ∧
  (∀ id, profiles d' !! id = if bool_decide (id ∈ ids) then None else profiles d !! id).
Proof.
  intros Hd. induction ids as [|i ids IH]; simpl.
  { split_and!; [by split|by apply devices_kept_same|]. done. }
  destruct IH as (Hs & Hk & Hp). set (d1 := foldr _ d ids) in *.
  split_and!.
  - eapply step_trans; [exact Hs|]. apply delete_profile_step, Hs.
  - apply (devices_kept_trans d d1); [done|done|apply delete_profile_step, Hs|done|].
    apply delete_profile_row_kept, Hs.
  - intros id. unfold delete_profile_row. destruct (profiles d1 !! i) eqn:E; simpl.
    + destruct (decide (i = id)) as [->|Hne].
      * rewrite lookup_delete_eq, bool_decide_true by set_solver. done.
      * rewrite lookup_delete_ne, Hp by done. do 2 case_bool_decide; set_solver.
    + rewrite Hp. rewrite Hp in E. repeat case_bool_decide; set_solver.
Qed.

Lemma delete_profiles_spec gone d :
  boot_ok d → let d' := delete_profiles gone d in
  step d d' ∧ devices_kept d d' ∧
  (∀ id row, profiles d' !! id = Some row ↔ profiles d !! id = Some row ∧ gone row = false).
Proof.
  intros Hd. destruct (delete_ids_spec (pr_id <$> List.filter gone (values_of (profiles d))) d Hd)
    as (Hs & Hk & Hp).
  split_and!; [done|done|]. intros id row. fold (delete_profiles gone d) in Hp. rewrite Hp.
  assert (∀ row, profiles d !! id = Some row →
    (id ∈ pr_id <$> List.filter gone (values_of (profiles d)) ↔ gone row = true)) as Hin.
  { intros r Hr. destruct (ok_profile_key d Hd id r Hr) as [Hk' _]. rewrite list_elem_of_fmap. split.
    - intros (r' & Ei & Hr'). apply elem_of_filter_list in Hr' as [Hr' Hg].
      apply values_of_elem in Hr' as [i Hi]. destruct (ok_profile_key d Hd i r' Hi) as [? _].
      congruence.
    - intros Hg. exists r. split; [done|]. apply elem_of_filter_list. split; [|done].
      apply values_of_elem. eauto. }
  case_bool_decide as Hc.
  - split; [done|]. intros [Hr Hg]. apply (Hin row Hr) in Hc. congruence.
  - split; [|by intros [? _]]. intros Hr. split; [done|]. apply not_true_iff_false. intros Hg.
    apply Hc. by apply (Hin row).
Qed.

Lemma sync_deleted_profiles_spec ids d :
  boot_ok d → let d' := sync_deleted_profiles ids d in
  step d d' ∧ devices_kept d d' ∧
  (∀ id row, profiles d' !! id = Some row → profiles d !! id = Some row ∧
     ∀ m, pr_managed_profile_id row = Some m → m ∉ ids).
Proof.
  revert d. induction ids as [|i ids IH]; intros d Hd; simpl.
  { split_and!; [by split|by apply devices_kept_same|]. intros id row ?. split; [done|set_solver]. }
  destruct (delete_profiles_spec (has_managed_id i) d Hd) as (Hs & Hk & Hp).
  destruct (IH (delete_profiles (has_managed_id i) d)) as (Hs' & Hk' & Hp'); [apply Hs|].
  split_and!; [by eapply step_trans|by eapply devices_kept_trans|].
  intros id row Hr. destruct (Hp' id row Hr) as [Hr1 Hm]. apply Hp in Hr1 as [? Hg]. split; [done|].
  intros m Em. rewrite not_elem_of_cons. split; [|by apply Hm].
  intros ->. unfold has_managed_id in Hg. by apply bool_decide_eq_false in Hg.
Qed.

(** The row that a desired profile becomes. *)
Definition profile_synced (p : ManagedBootProfile) (row : BootProfileRow) : Prop :=
  pr_managed_profile_id row = Some (mp_id p) ∧ pr_name row = trim (mp_name p) ∧
  pr_description row = mp_description p ∧ pr_profile_type row = mp_profile_type p ∧
  pr_enabled row = bool_to_i64 (mp_enabled p) ∧ pr_is_default row = bool_to_i64 (mp_is_default p) ∧
  pr_one_time row = bool_to_i64 (mp_one_time p) ∧
  pr_raw_script row = clean_optional_string (mp_raw_script p).

Lemma profile_type_from_str_Ok s t : profile_type_from_str s = Ok t → profile_type_str t = s.
Proof.
  unfold profile_type_from_str. repeat case_bool_decide; intros [= <-]; by subst.
Qed.

Lemma has_script_clean s :
  has_script (clean_optional_string s) = match s with Some v => negb (is_empty (trim v)) | None => false end.
Proof.
  destruct s as [v|]; [|done]. unfold clean_optional_string. simpl. destruct (is_empty (trim v)) eqn:E; [done|].
  unfold has_script. simpl. by rewrite trim_idemp, E.
Qed.

Lemma validate_profile_Ok p t :
  validate_profile p = Ok tt → managed_profile_type p = Ok t →
  validate_profile_name (mp_name p) = Ok tt ∧
  validate_profile_shape t (clean_optional_string (mp_raw_script p)) = Ok tt.
Proof.
  unfold validate_profile, validate_profile_name, validate_profile_shape, guard_valid.
  rewrite has_script_clean. intros H Ht.
  apply rbind_Ok in H as ([] & _ & H). apply rbind_Ok in H as ([] & Hname%ensured & H).
  apply rbind_Ok in H as ([] & Hlen%ensured & H). apply rbind_Ok in H as ([] & Hctl%ensured & H).
  do 2 apply rbind_Ok in H as ([] & _ & H). apply rbind_Ok in H as (t' & Ht' & H%ensured).
  assert (t' = t) as -> by congruence. rewrite H, Hctl. apply negb_true_iff in Hname. rewrite Hname.
  apply Z.leb_le in Hlen. destruct (120 <? len (trim (mp_name p))) eqn:E; [|done].
  apply Z.ltb_lt in E. lia.
Qed.

(** What the validation says of the row that will be written. *)
Lemma validated_managed_row p row t :
  validate_profile p = Ok tt → (mp_is_default p = true → assignable p) →
  managed_profile_type p = Ok t →
  pr_name row = trim (mp_name p) → pr_profile_type row = profile_type_str t →
  pr_enabled row = bool_to_i64 (mp_enabled p) → pr_is_default row = bool_to_i64 (mp_is_default p) →
  pr_one_time row = bool_to_i64 (mp_one_time p) →
  pr_raw_script row = clean_optional_string (mp_raw_script p) → profile_row_ok row.
Proof.
  intros Hv Hdef Ht Hn Hty He Hd Ho Hs. destruct (validate_profile_Ok p t Hv Ht) as [Vn Vs].
  eapply (validated_profile_row row (mp_name p) t (mp_enabled p) (mp_is_default p)); try done.
  - rewrite Ho. apply bool_to_i64_flag.
  - intros Hid. destruct (Hdef Hid) as [? Ha]. split; [done|].
    unfold managed_profile_type in Ht. destruct (profile_type_from_str (mp_profile_type p)) as [t'|] eqn:Ht';
      [|done]. assert (t' = t) as -> by congruence. apply profile_type_from_str_Ok in Ht'.
    unfold managed_profile_has_boot_action in Ha. unfold profile_fields_have_boot_action.
    rewrite has_script_clean. by destruct t; rewrite <-Ht' in Ha.
Qed.

Lemma find_managed_profile_Some m d row :
  boot_ok d → find_managed_profile m d = Some row →
  profiles d !! pr_id row = Some row ∧ pr_managed_profile_id row = Some m.
Proof.
  intros Hd [Hin Hm]%List.find_some. apply bool_decide_eq_true in Hm. split; [|done].
  apply list_elem_of_In, values_of_elem in Hin as [id Hr].
  by destruct (ok_profile_key d Hd id row Hr) as [-> _].
Qed.

Lemma refused_Ok {A} (o : option A) a : refused o = Ok a ↔ o = Some a.
Proof. destruct o; naive_solver. Qed.

(** One profile: its row is written, and no other. *)
Lemma sync_profile_spec now p d d' :
  boot_ok d → validate_profile p = Ok tt → (mp_is_default p = true → assignable p) →
  sync_profile now p d = Ok d' →
  step d d' ∧ devices d' = devices d ∧
  ∃ id row, profile_synced p row ∧ profiles d' = <[id := row]> (profiles d) ∧
    ∀ old, profiles d !! id = Some old → pr_managed_profile_id old = Some (mp_id p).
Proof.
  intros Hd Hv Hdef H. unfold sync_profile in H. apply rbind_Ok in H as (t & Ht & H).
  assert (profile_type_str t = mp_profile_type p) as Ety.
  { apply profile_type_from_str_Ok. unfold managed_profile_type in Ht. by destruct (profile_type_from_str _); simplify_eq. }
  destruct (find_managed_profile (mp_id p) d) as [old|] eqn:Ef; apply refused_Ok in H.
  - apply find_managed_profile_Some in Ef as [Hold Hm]; [|done]. split.
    { eapply update_profile_row_step; [done| |exact H]. intros row. split_and!; [done|done|].
      by eapply validated_managed_row. }
    unfold update_profile_row in H. rewrite Hold in H. destruct (profile_allowed _ _ _); [|done].
    injection H as <-. split; [done|]. exists (pr_id old), (synced_profile_row p t now old).
    split_and!; [by split_and!|done|]. intros old'. rewrite Hold. by intros [= <-].
  - destruct (insert_profile (managed_profile_row p t now) d) as [[id d1]|] eqn:E; [|done].
    injection H as <-. split.
    { eapply insert_profile_step; [done| |exact E]. intros i. split; [done|]. by eapply validated_managed_row. }
    unfold insert_profile in E. destruct (_ && _); [|done]. injection E as <- <-. split; [done|].
    exists (last_profile d + 1), (managed_profile_row p t now (last_profile d + 1)).
    split_and!; [by split_and!|done|]. intros old Ho. apply (ok_profile_key d Hd) in Ho as [_ ?]. lia.
Qed.

(** The rows are those of the profiles [ps], and only they are a default. *)
Definition holds_profiles (ps : list ManagedBootProfile) (d : BootDb) : Prop :=
  (∀ p, p ∈ ps → ∃ id row, profiles d !! id = Some row ∧ profile_synced p row) ∧
  (∀ id row, profiles d !! id = Some row → pr_is_default row = 1 →
     ∃ p, p ∈ ps ∧ mp_is_default p = true ∧ pr_managed_profile_id row = Some (mp_id p)).

Lemma sync_each_profile_spec clock ps done d d' :
  boot_ok d → profiles_valid (done ++ ps) → holds_profiles done d →
  sync_each_profile clock ps d = Ok d' →
  step d d' ∧ devices d' = devices d ∧ holds_profiles (done ++ ps) d'.
Proof.
  revert done d. induction ps as [|p ps IH]; intros done d Hd Hv Hh H; simpl in H.
  { injection H as <-. rewrite app_nil_r. split_and!; [by split|done|done]. }
  apply rbind_Ok in H as (d1 & H1 & H).
  assert (p ∈ done ++ p :: ps) as Hin by set_solver.
  destruct (sync_profile_spec _ _ _ _ Hd (pv_each _ Hv _ Hin) (pv_default _ Hv _ Hin) H1)
    as (Hs & Ed & id & row & Hrow & Ep & Hold).
  destruct (IH (done ++ [p]) d1) as (Hs' & Ed' & Hh').
  - apply Hs.
  - by rewrite <-app_assoc.
  - destruct Hh as [Hdone Hdef]. split.
    + intros q [Hq| ->%list_elem_of_singleton]%elem_of_app; [|exists id, row; by rewrite Ep, lookup_insert_eq].
      destruct (Hdone q Hq) as (i & r & Hr & Hsync). exists i, r. split; [|done].
      rewrite Ep, lookup_insert_ne; [done|]. intros ->. destruct Hsync as [Hm _].
      specialize (Hold r Hr). rewrite Hm in Hold. injection Hold as Eid.
      pose proof (pv_ids _ Hv) as Hnd. rewrite fmap_app in Hnd. simpl in Hnd.
      apply NoDup_app in Hnd as (_ & Hnd & _). apply (Hnd (mp_id q)); [by apply list_elem_of_fmap_2|].
      rewrite Eid. left.
    + intros i r Hr Hdr. rewrite Ep in Hr. apply lookup_insert_Some in Hr as [[<- <-]|[_ Hr]].
      * exists p. destruct Hrow as (Hm & _ & _ & _ & _ & Hdp & _). split_and!; [set_solver| |done].
        rewrite Hdp in Hdr. by destruct (mp_is_default p).
      * destruct (Hdef i r Hr Hdr) as (q & Hq & ?). exists q. split; [set_solver|done].
  - exact H.
  - rewrite <-app_assoc in Hh'. split_and!; [by eapply step_trans|congruence|exact Hh'].
Qed.

Lemma clear_default_profiles_spec d :
  boot_ok d → step d (clear_synced_default_profiles d) ∧
  devices (clear_synced_default_profiles d) = devices d ∧ holds_profiles [] (clear_synced_default_profiles d).
Proof.
  intros Hd. split_and!; [by apply clear_default_step|done|]. split; [set_solver|].
  intros id row [r [<- _]]%lookup_fmap_Some. done.
Qed.

(** Deleting rows that belong to none of the profiles. *)
Lemma delete_others_spec gone ps d :
  boot_ok d → holds_profiles ps d →
  (∀ p row, p ∈ ps → profile_synced p row → gone row = false) →
  step d (delete_profiles gone d) ∧ devices_kept d (delete_profiles gone d) ∧
  holds_profiles ps (delete_profiles gone d) ∧
  (∀ id row, profiles (delete_profiles gone d) !! id = Some row →
     profiles d !! id = Some row ∧ gone row = false).
Proof.
  intros Hd [Hh Hdef] Hgone. destruct (delete_profiles_spec gone d Hd) as (Hs & Hk & Hp).
  split_and!; [done|done| |intros id row; apply Hp]. split.
  - intros p Hin. destruct (Hh p Hin) as (id & row & Hr & Hsync). exists id, row.
    split; [apply Hp; eauto|done].
  - intros id row Hr. apply Hp in Hr as [Hr _]. eauto.
Qed.

Lemma sync_profiles_spec clock ps complete d d' :
  boot_ok d → profiles_valid ps → sync_profiles clock ps complete d = Ok d' →
  step d d' ∧ devices_kept d d' ∧ holds_profiles ps d' ∧
  (complete = true → ∀ id row m, profiles d' !! id = Some row →
     pr_managed_profile_id row = Some m → m ∈ mp_id <$> ps).
Proof.
  intros Hd Hv H. unfold sync_profiles in H. apply rbind_Ok in H as (d2 & H2 & H). injection H as <-.
  destruct (clear_default_profiles_spec d Hd) as (Hs1 & Ed1 & Hh1).
  destruct (sync_each_profile_spec _ _ [] _ _ (proj1 Hs1) Hv Hh1 H2) as (Hs2 & Ed2 & Hh2).
  assert (step d d2) as Hs12 by by eapply step_trans.
  assert (devices_kept d d2) as Hk2 by (apply devices_kept_same; [apply Hs2|congruence]).
  set (d3 := if complete then _ else _).
  assert (step d d3 ∧ devices_kept d d3 ∧ holds_profiles ps d3 ∧
    (complete = true → ∀ id row m, profiles d3 !! id = Some row →
     pr_managed_profile_id row = Some m → m ∈ mp_id <$> ps)) as (Hs3 & Hk3 & Hh3 & Hc3).
  { subst d3. destruct complete.
    - destruct (delete_others_spec (absent_profile (mp_id <$> ps)) ps d2) as (Hs & Hk & Hh & Hp);
        [apply Hs2|done| |].
      { intros p row Hp [Hm _]. unfold absent_profile. rewrite Hm.
        rewrite bool_decide_true; [done|]. by apply list_elem_of_fmap_2. }
      split_and!; [by apply (step_trans _ d2)|by apply (devices_kept_trans _ d2)|done|].
      intros _ id row m Hr Hm. apply Hp in Hr as [_ Hg]. unfold absent_profile in Hg. rewrite Hm in Hg.
      by bool_prop.
    - split_and!; [done|done|done|done]. }
  unfold prune_seeded_local_disk_profile. destruct (existsb _ ps); [|done].
  destruct (delete_others_spec (seeded_profile d3) ps d3) as (Hs & Hk & Hh & Hp); [apply Hs3|done| |].
  { intros p row _ [Hm _]. unfold seeded_profile. by rewrite Hm. }
  split_and!; [by apply (step_trans _ d3)|by apply (devices_kept_trans _ d3)|done|].
  intros Hc id row m Hr. apply Hp in Hr as [Hr _]. by eapply Hc3.
Qed.

(** ** Clients *)

Lemma managed_profile_map_Some d r id :
  boot_ok d → managed_profile_map d !! r = Some id →
  ∃ row, profiles d !! id = Some row ∧ pr_managed_profile_id row = Some r.
Proof.
  intros Hd H%elem_of_list_to_map_2. apply list_elem_of_omap in H as (row & Hrow & He).
  apply values_of_elem in Hrow as [i Hi]. destruct (ok_profile_key d Hd i row Hi) as [<- _].
  unfold profile_entry in He. destruct (pr_managed_profile_id row) as [m|] eqn:Hm; [|done]. simpl in He.
  injection He as <- <-. by exists row.
Qed.

(** The local profile that stands for the one a client names. *)
Definition assigned (d : BootDb) (remote : option string) (local : option Z) : Prop :=
  match remote with
  | Some r =>
      if is_empty (trim r) then local = None
      else ∃ id row, local = Some id ∧ profiles d !! id = Some row ∧
             pr_managed_profile_id row = Some r ∧ pr_enabled row = 1 ∧
             ∃ t, profile_type_from_str (pr_profile_type row) = Ok t ∧
               profile_fields_have_boot_action t (pr_raw_script row) = true
  | None => local = None
  end.

Lemma assignable_row p row :
  assignable p → profile_synced p row →
  pr_enabled row = 1 ∧ ∃ t, profile_type_from_str (pr_profile_type row) = Ok t ∧
    profile_fields_have_boot_action t (pr_raw_script row) = true.
Proof.
  intros [He Ha] (_ & _ & _ & Ht & Hen & _ & _ & Hs). rewrite Hen, He. split; [done|].
  rewrite Ht, Hs. unfold managed_profile_has_boot_action in Ha.
  destruct (decide (mp_profile_type p = "local_disk")) as [->|Hl]; [by exists LocalDisk|].
  destruct (decide (mp_profile_type p = "nest_installer")) as [->|Hn]; [by exists NestInstaller|].
  rewrite bool_decide_false in Ha by naive_solver.
  destruct (decide (mp_profile_type p = "custom_ipxe")) as [E|Hc]; rewrite ?E in *.
  - exists CustomIpxe. split; [done|]. simpl. rewrite has_script_clean. by rewrite bool_decide_true in Ha.
  - by rewrite bool_decide_false in Ha.
Qed.

Lemma local_profile_id_assigned d ps remote local :
  boot_ok d → holds_profiles ps d → names_assignable ps remote →
  local_profile_id remote (managed_profile_map d) = Ok local → assigned d remote local.
Proof.
  intros Hd [Hh _] Hn H. destruct remote as [r|]; simpl in *; [|congruence].
  destruct (is_empty (trim r)) eqn:Er; [congruence|].
  destruct (managed_profile_map d !! r) as [id|] eqn:Em; [|done]. injection H as <-.
  destruct (managed_profile_map_Some d r id Hd Em) as (row & Hr & Hm).
  destruct (Hn r eq_refl Er) as (p & Hp & Eid & Ha). destruct (Hh p Hp) as (id' & row' & Hr' & Hsync).
  assert (id' = id) as ->.
  { eapply (ok_managed_unique d Hd id' row' id row r); [done|done| |done]. rewrite <-Eid. apply Hsync. }
  assert (row' = row) as -> by congruence. exists id, row. destruct (assignable_row p row Ha Hsync).
  by split_and!.
Qed.

Section Clients.
Context {serde : Serde}.

(** The row that a desired client becomes. *)
Definition client_synced (d : BootDb) (c : ManagedBootClient) (row : DeviceRow) : Prop :=
  dr_managed_client_id row = Some (mc_id c) ∧ normalize_mac (mc_mac c) = Ok (dr_mac row) ∧
  dr_hostname row = clean_optional_string (mc_hostname c) ∧
  dr_serial_number row = clean_optional_string (mc_serial_number c) ∧
  dr_notes row = mc_notes c ∧ dr_tags row = tags_to_string (clean_tags (mc_tags c)) ∧
  dr_managed_device_id row = clean_optional_string (mc_managed_device_id c) ∧
  dr_reinstall_request_id row = clean_optional_string (mc_reinstall_request_id c) ∧
  assigned d (mc_default_profile_id c) (dr_default_profile_id row) ∧
  assigned d (mc_one_time_profile_id c) (dr_one_time_profile_id row).

Lemma find_client_Some m mac d row :
  boot_ok d → canonical_mac mac → find_client m mac d = Some row →
  devices d !! dr_id row = Some row ∧ (dr_managed_client_id row = Some m ∨ dr_mac row = mac).
Proof.
  intros Hd Hc. unfold find_client. destruct (List.find _ _) as [r|] eqn:E.
  - intros [= <-]. apply List.find_some in E as [Hin Hm]. apply bool_decide_eq_true in Hm.
    apply list_elem_of_In, values_of_elem in Hin as [id Hr].
    destruct (ok_device_key d Hd id r Hr) as [-> _]. auto.
  - intros H. apply find_mac_Some in H as [Hr Hm]; [|done]. split; [done|]. right.
    rewrite (canonical_lowercase mac) in Hm by done.
    rewrite canonical_lowercase in Hm; [done|]. by eapply ok_device_mac.
Qed.

(** One client: its row is written, and no other. *)
Lemma sync_client_spec now pm c d d' ps :
  boot_ok d → pm = managed_profile_map d → holds_profiles ps d → client_valid ps c →
  sync_client now pm c d = Ok d' →
  step d d' ∧ profiles d' = profiles d ∧
  ∃ id row, client_synced d c row ∧ devices d' = <[id := row]> (devices d) ∧
    ∀ old, devices d !! id = Some old → dr_managed_client_id old = Some (mc_id c) ∨ dr_mac old = mac_of c.
Proof.
  intros Hd -> Hh [_ Vd Vo] H. unfold sync_client in H. apply rbind_Ok in H as (mac & Hmac%or_text_Ok & H).
  apply rbind_Ok in H as (di & Hdi & H). apply rbind_Ok in H as (oi & Hoi & H).
  pose proof (normalize_mac_Ok _ _ Hmac) as Hcan. assert (mac_of c = mac) as Em by (unfold mac_of; by rewrite Hmac).
  pose proof (local_profile_id_assigned d ps _ _ Hd Hh Vd Hdi).
  pose proof (local_profile_id_assigned d ps _ _ Hd Hh Vo Hoi).
  destruct (find_client (mc_id c) mac d) as [old|] eqn:Ef; apply refused_Ok in H.
  - apply find_client_Some in Ef as [Hold Hm]; [|done|done]. split.
    { eapply change_device_row_step; [done| |exact H]. intros row. unfold same_device.
      split_and!; [done|done|by eexists|right; split; [done|by eexists]|done]. }
    unfold update_device_row in H. rewrite Hold in H. destruct (device_allowed _ _ _); [|done].
    injection H as <-. split; [done|]. exists (dr_id old), (synced_device_row c mac di oi now old).
    split_and!; [by split_and!|done|]. intros old'. rewrite Hold, Em. by intros [= <-].
  - destruct (insert_device (managed_device_row c mac di oi now) d) as [[id d1]|] eqn:E; [|done].
    injection H as <-. split.
    { eapply insert_device_step; [done| |exact E]. done. }
    unfold insert_device in E. destruct (_ && _); [|done]. injection E as <- <-. split; [done|].
    exists (last_device d + 1), (managed_device_row c mac di oi now (last_device d + 1)).
    split_and!; [by split_and!|done|]. intros old Ho. apply (ok_device_key d Hd) in Ho as [_ ?]. lia.
Qed.

Definition holds_clients (cs : list ManagedBootClient) (d : BootDb) : Prop :=
  ∀ c, c ∈ cs → ∃ id row, devices d !! id = Some row ∧ client_synced d c row.

(** A device that Tiaris does not manage and whose address it does not name. *)
Definition local_device (cs : list ManagedBootClient) (row : DeviceRow) : Prop :=
  dr_managed_client_id row = None ∧ dr_mac row ∉ mac_of <$> cs.

Lemma client_synced_profiles d d' c row :
  profiles d' = profiles d → client_synced d c row → client_synced d' c row.
Proof. intros E. unfold client_synced, assigned. by rewrite E. Qed.

Lemma client_synced_mac d c row : client_synced d c row → dr_mac row = mac_of c.
Proof. intros (_ & Hm & _). unfold mac_of. by rewrite Hm. Qed.

Lemma holds_profiles_profiles ps d d' :
  profiles d' = profiles d → holds_profiles ps d → holds_profiles ps d'.
Proof. intros E. unfold holds_profiles. by rewrite E. Qed.

Lemma NoDup_app_distinct {A} (l1 l2 : list A) x y :
  NoDup (l1 ++ x :: l2) → y ∈ l1 → y ≠ x.
Proof. intros (_ & H & _)%NoDup_app Hy ->. apply (H x Hy). left. Qed.

Lemma sync_each_client_spec clock pm cs done d d' ps :
  boot_ok d → pm = managed_profile_map d → holds_profiles ps d →
  (∀ c, c ∈ cs → client_valid ps c) → NoDup (mc_id <$> done ++ cs) → NoDup (mac_of <$> done ++ cs) →
  holds_clients done d → sync_each_client clock pm cs d = Ok d' →
  step d d' ∧ profiles d' = profiles d ∧ holds_clients (done ++ cs) d' ∧
  (∀ id row, devices d !! id = Some row → local_device cs row → devices d' !! id = Some row).
Proof.
  revert done d. induction cs as [|c cs IH]; intros done d Hd Hpm Hh Hv Hni Hnm Hdone H; simpl in H.
  { injection H as <-. rewrite app_nil_r. split_and!; [by split|done|done|done]. }
  apply rbind_Ok in H as (d1 & H1 & H).
  destruct (sync_client_spec _ _ _ _ _ ps Hd Hpm Hh (Hv c ltac:(left)) H1) as (Hs & Ep & id & row & Hrow & Ed & Hold).
  destruct (IH (done ++ [c]) d1) as (Hs' & Ep' & Hh' & Hl').
  - apply Hs.
  - unfold managed_profile_map in *. by rewrite Ep.
  - by eapply holds_profiles_profiles.
  - intros c' Hc'. apply Hv. by right.
  - by rewrite <-app_assoc.
  - by rewrite <-app_assoc.
  - intros q [Hq| ->%list_elem_of_singleton]%elem_of_app.
    + destruct (Hdone q Hq) as (i & r & Hr & Hsync). exists i, r.
      split; [|by eapply client_synced_profiles]. rewrite Ed, lookup_insert_ne; [done|]. intros ->.
      rewrite fmap_app in Hni, Hnm. simpl in Hni, Hnm. destruct (Hold r Hr) as [Hm|Hm].
      * destruct Hsync as [Hi _]. rewrite Hi in Hm. injection Hm as Hm.
        by apply (NoDup_app_distinct _ _ _ (mc_id q) Hni); [apply list_elem_of_fmap_2|].
      * rewrite (client_synced_mac _ _ _ Hsync) in Hm.
        by apply (NoDup_app_distinct _ _ _ (mac_of q) Hnm); [apply list_elem_of_fmap_2|].
    + exists id, row. rewrite Ed, lookup_insert_eq. split; [done|by eapply client_synced_profiles].
  - exact H.
  - rewrite <-app_assoc in Hh'. split_and!; [by eapply step_trans|congruence|exact Hh'|].
    intros i r Hr [Hn Hmac]. simpl in Hmac. apply not_elem_of_cons in Hmac as [Hne Hmac].
    apply Hl'; [|done]. rewrite Ed, lookup_insert_ne; [done|]. intros ->.
    destruct (Hold r Hr) as [?|?]; congruence.
Qed.

Lemma delete_devices_lookup gone d id row :
  devices (delete_devices gone d).2 !! id = Some row ↔ devices d !! id = Some row ∧ gone row = false.
Proof. unfold delete_devices. simpl. by rewrite map_lookup_filter_Some. Qed.

Lemma sync_deleted_clients_spec ids d :
  boot_ok d → let d' := sync_deleted_clients ids d in
  step d d' ∧ profiles d' = profiles d ∧
  (∀ id row, devices d !! id = Some row → dr_managed_client_id row = None → devices d' !! id = Some row).
Proof.
  revert d. induction ids as [|i ids IH]; intros d Hd; simpl; [split_and!; [by split|done..]|].
  destruct (IH (delete_devices (has_client_id i) d).2) as (Hs & Ep & Hl); [by apply delete_devices_step|].
  split_and!; [by eapply step_trans; [apply delete_devices_step|]|done|].
  intros id row Hr Hn. apply Hl; [|done]. apply delete_devices_lookup. split; [done|].
  unfold has_client_id. by rewrite Hn.
Qed.

Lemma sync_clients_spec clock cs complete d d' ps :
  boot_ok d → holds_profiles ps d → (∀ c, c ∈ cs → client_valid ps c) →
  NoDup (mc_id <$> cs) → NoDup (mac_of <$> cs) →
  sync_clients clock cs (managed_profile_map d) complete d = Ok d' →
  step d d' ∧ profiles d' = profiles d ∧ holds_clients cs d' ∧
  (complete = true → ∀ id row m, devices d' !! id = Some row →
     dr_managed_client_id row = Some m → m ∈ mc_id <$> cs) ∧
  (∀ id row, devices d !! id = Some row → local_device cs row → devices d' !! id = Some row).
Proof.
  intros Hd Hh Hv Hni Hnm H. unfold sync_clients in H. apply rbind_Ok in H as (d1 & H1 & H). injection H as <-.
  destruct (sync_each_client_spec clock (managed_profile_map d) cs [] d d1 ps) as (Hs & Ep & Hc & Hl); try done.
  { intros c Hc. by apply not_elem_of_nil in Hc. }
  destruct complete; [|by split_and!].
  split_and!.
  - eapply step_trans; [exact Hs|]. apply delete_devices_step, Hs.
  - exact Ep.
  - intros c Hin. destruct (Hc c Hin) as (id & row & Hr & Hsync). exists id, row.
    split; [|by apply (client_synced_profiles d1)]. apply delete_devices_lookup. split; [done|].
    unfold absent_client. destruct Hsync as [-> _].
    rewrite bool_decide_true; [done|by apply list_elem_of_fmap_2].
  - intros _ id row m Hr Hm. apply delete_devices_lookup in Hr as [_ Hg]. unfold absent_client in Hg.
    rewrite Hm in Hg. by bool_prop.
  - intros id row Hr Hloc. apply delete_devices_lookup. split; [by apply Hl|].
    unfold absent_client. by destruct Hloc as [-> _].
Qed.

(** ** The transaction *)

(** The tables [d'] are those that the configuration desires, starting from [d]. *)
Record desired_tables (config : AgentBootConfigResponse) (d d' : BootDb) : Prop := {
  dt_profiles : holds_profiles (bc_profiles config) d';
  dt_clients : holds_clients (bc_clients config) d';
  dt_no_other_profile : bc_profiles_complete config = true → ∀ id row m,
    profiles d' !! id = Some row → pr_managed_profile_id row = Some m → m ∈ mp_id <$> bc_profiles config;
  dt_no_other_client : bc_clients_complete config = true → ∀ id row m,
    devices d' !! id = Some row → dr_managed_client_id row = Some m → m ∈ mc_id <$> bc_clients config;
  dt_local : ∀ id row, devices d !! id = Some row → local_device (bc_clients config) row →
    devices d' !! id = Some (surviving d' row);
}.

Lemma sync_tables_spec clock config d d' :
  boot_ok d → validate_boot_config config = Ok tt → sync_tables clock config d = Ok d' →
  step d d' ∧ desired_tables config d d'.
Proof.
  intros Hd Hv%validate_boot_config_Ok H. destruct Hv as [Vp Vc Vi Vm]. unfold sync_tables in H.
  destruct (sync_deleted_profiles_spec (bc_deleted_profile_ids config) d Hd) as (Hs1 & Hk1 & _).
  apply rbind_Ok in H as (d2 & H2 & H).
  destruct (sync_profiles_spec _ _ _ _ _ (proj1 Hs1) Vp H2) as (Hs2 & Hk2 & Hh2 & Hc2).
  destruct (sync_deleted_clients_spec (bc_deleted_client_ids config) d2 (proj1 Hs2)) as (Hs3 & Ep3 & Hl3).
  set (d3 := sync_deleted_clients _ d2) in *.
  replace (managed_profile_map d2) with (managed_profile_map d3) in H
    by (unfold managed_profile_map; by rewrite Ep3).
  destruct (sync_clients_spec _ _ _ _ _ (bc_profiles config) (proj1 Hs3)
              (holds_profiles_profiles _ _ _ Ep3 Hh2) Vc Vi Vm H) as (Hs4 & Ep4 & Hh4 & Hc4 & Hl4).
  split; [by do 3 (eapply step_trans; [eassumption|])|]. split; [|done| |done|].
  - do 2 (eapply holds_profiles_profiles; [eassumption|]). done.
  - intros Hc id row m. rewrite Ep4, Ep3. by apply Hc2.
  - intros id row Hr [Hn Hm]. pose proof (devices_kept_trans d _ d2 Hd Hs1 Hs2 Hk1 Hk2 id row Hr) as Hr2.
    replace (surviving d' row) with (surviving d2 row) by (unfold surviving, present; by rewrite Ep4, Ep3).
    apply Hl4; [by apply Hl3|]. by split.
Qed.
End Clients.
