(* ===== verification/ManagedSync.v ===== *)
(** * Management: configurations applied and events reported

    A boot configuration is applied as a whole or not at all, and every boot event
    below the stored cursor was in a report that Tiaris accepted, however
    synchronizations and boot requests interleave. *)

From stdpp Require Import sorting base gmap list strings relations.
From Stdlib Require Import Ascii ZArith Lia.
From S2P Require Import Prelude Async RustStr Json DbText Boot BootStore BootStoreProofs BootRoutes BootTheorems ManagedBoot ManagedBootProofs.

#[local] Open Scope Z_scope.
#[local] Open Scope nest_scope.

(** The tables are written by the synchronization as well. *)
#[local] Instance all_writers : Writers := true.

(** ** Reports that fit *)

Lemma fitting_loop_spec fits fuel low high :
  (low ≤ high)%nat → (high - low ≤ fuel)%nat →
  let k := fitting_loop fits fuel low high in
  (low ≤ k ≤ high)%nat ∧ (k = low ∨ fits k = true) ∧
  ((∀ i j, (i ≤ j)%nat → fits j = true → fits i = true) → ∀ j, (k < j ≤ high)%nat → fits j = false).
Proof.
  revert low high. induction fuel as [|fuel IH]; intros low high Hle Hf; cbn zeta; cbn [fitting_loop].
  { assert (low = high) by lia. subst. refine (conj _ (conj _ _)); [lia|by left|lia]. }
  destruct (Nat.leb_spec high low); [refine (conj _ (conj _ _)); [lia|by left|lia]|].
  assert (low < (low + high + 1) / 2 ≤ high)%nat as Hmid.
  { pose proof (Nat.div_mod_eq (low + high + 1) 2).
    pose proof (Nat.mod_upper_bound (low + high + 1) 2). lia. }
  set (mid := ((low + high + 1) / 2)%nat) in *. destruct (fits mid) eqn:Em.
  - destruct (IH mid high) as (Hk & Hor & Hmax); [lia..|]. refine (conj _ (conj _ _)); [lia| |done].
    right. destruct Hor as [->|?]; done.
  - destruct (IH low (mid - 1)%nat) as (Hk & Hor & Hmax); [lia..|]. refine (conj _ (conj _ _)); [lia|done|].
    intros Hmono j Hj. destruct (decide (j ≤ mid - 1)%nat); [apply Hmax; [done|lia]|].
    destruct (fits j) eqn:Ej; [|done]. rewrite (Hmono mid j) in Em; [done|lia|done].
Qed.

Lemma max_fitting_prefix_len_spec n fits :
  let k := max_fitting_prefix_len n fits in
  (k ≤ n)%nat ∧ (k = 0%nat ∨ fits k = true) ∧
  ((∀ i j, (i ≤ j)%nat → fits j = true → fits i = true) → ∀ j, (k < j ≤ n)%nat → fits j = false).
Proof.
  cbn zeta. destruct (fitting_loop_spec fits n 0 n) as (H1 & H2 & H3); [lia..|].
  unfold max_fitting_prefix_len. split_and!; [lia|done|done].
Qed.

Section Fit.
Context {serde : Serde} {deps : ManageDeps}.

Lemma fit_boot_report_body_spec b b' max_bytes :
  fit_boot_report_body b max_bytes = Ok b' →
  boot_report_body_fits max_bytes b' = true ∧
  ∃ k l, b' = with_events (take l (ba_events b)) (with_clients (take k (ba_clients b)) b).
Proof.
  unfold fit_boot_report_body. destruct (boot_report_body_fits max_bytes b) eqn:E.
  { intros [= <-]. split; [done|]. exists (length (ba_clients b)), (length (ba_events b)).
    rewrite !firstn_all. by destruct b. }
  set (k := max_fitting_prefix_len (length (ba_clients b)) _).
  destruct (boot_report_body_fits max_bytes (with_clients (take k (ba_clients b)) b)) eqn:E1.
  { rewrite E1. intros [= <-]. split; [done|]. exists k, (length (ba_events b)).
    rewrite firstn_all. by destruct b. }
  set (l := max_fitting_prefix_len (length _) _).
  destruct (boot_report_body_fits max_bytes (with_events _ _)) eqn:E2; [|done].
  intros [= <-]. split; [done|]. by exists k, l.
Qed.

(** A report with fewer clients and events is not longer. *)
Definition shorter_prefixes : Prop := ∀ b clients clients' events events',
  clients `prefix_of` clients' → events `prefix_of` events' →
  len (boot_report_to_vec (with_events events (with_clients clients b)))
  ≤ len (boot_report_to_vec (with_events events' (with_clients clients' b))).

Definition cut (k l : nat) (b : BootAgentReportRequest) : BootAgentReportRequest :=
  with_events (take l (ba_events b)) (with_clients (take k (ba_clients b)) b).

Lemma cut_clients k b : with_clients (take k (ba_clients b)) b = cut k (length (ba_events b)) b.
Proof. unfold cut. rewrite firstn_all. by destruct b. Qed.

Lemma take_prefix_of {A} (l : list A) i j : (i ≤ j)%nat → take i l `prefix_of` take j l.
Proof.
  intros H. exists (drop i (take j l)). rewrite <-(take_drop i (take j l)) at 1.
  by rewrite take_take, Nat.min_l.
Qed.

Lemma fits_cut max_bytes b k l k' l' :
  shorter_prefixes → (k ≤ k')%nat → (l ≤ l')%nat →
  boot_report_body_fits max_bytes (cut k' l' b) = true → boot_report_body_fits max_bytes (cut k l b) = true.
Proof.
  intros Hs Hk Hl. unfold boot_report_body_fits. rewrite !Z.leb_le. intros H.
  etrans; [|exact H]. apply Hs; by apply take_prefix_of.
Qed.

(** A boot report is cut to fit, and no more than needed.  When it is longer than
    the bound, clients are dropped from the end first, and events only when no client
    is left; what is sent fits, and one client (or one event) more would not.  The
    report fails only if not even the body without clients and events fits. *)
Theorem boot_reports_are_cut_to_fit b max_bytes :
  shorter_prefixes →
  match fit_boot_report_body b max_bytes with
  | Ok b' => ∃ k l, b' = cut k l b ∧ (k ≤ length (ba_clients b))%nat ∧ (l ≤ length (ba_events b))%nat ∧
      len (boot_report_to_vec b') ≤ max_bytes ∧
      (∀ j, (k < j ≤ length (ba_clients b))%nat →
         max_bytes < len (boot_report_to_vec (cut j (length (ba_events b)) b))) ∧
      ((l < length (ba_events b))%nat → k = 0%nat ∧
         ∀ j, (l < j ≤ length (ba_events b))%nat → max_bytes < len (boot_report_to_vec (cut 0 j b)))
  | Err _ => max_bytes < len (boot_report_to_vec (cut 0 0 b))
  end.
Proof.
  intros Hs. unfold fit_boot_report_body.
  assert (∀ c, boot_report_body_fits max_bytes c = true ↔ len (boot_report_to_vec c) ≤ max_bytes) as Hyes
    by (intros; apply Z.leb_le).
  assert (∀ c, boot_report_body_fits max_bytes c = false ↔ max_bytes < len (boot_report_to_vec c)) as Hno
    by (intros; apply Z.leb_gt).
  destruct (boot_report_body_fits max_bytes b) eqn:E.
  { exists (length (ba_clients b)), (length (ba_events b)). unfold cut at 1. rewrite !firstn_all.
    split_and!; [by destruct b|lia|lia|by apply Hyes|lia|lia]. }
  set (fits := λ count, boot_report_body_fits max_bytes (with_clients (take count (ba_clients b)) b)).
  destruct (max_fitting_prefix_len_spec (length (ba_clients b)) fits) as (Hk & Hkf & Hkm).
  set (k := max_fitting_prefix_len _ fits) in *. clearbody k. specialize (Hkm ltac:(unfold fits; intros i j Hij;
    rewrite !cut_clients; by apply fits_cut)).
  assert (∀ j, (k < j ≤ length (ba_clients b))%nat →
    max_bytes < len (boot_report_to_vec (cut j (length (ba_events b)) b))) as Hkm'.
  { intros j Hj. apply Hno. rewrite <-cut_clients. by apply Hkm. }
  destruct (boot_report_body_fits max_bytes (with_clients (take k (ba_clients b)) b)) eqn:E1.
  { rewrite E1. exists k, (length (ba_events b)). rewrite cut_clients in *.
    split_and!; [done|done|lia|by apply Hyes|done|lia]. }
  destruct Hkf as [->|Hkf]; [|unfold fits in Hkf; congruence].
  set (efits := λ count, boot_report_body_fits max_bytes (with_events (take count _) _)).
  destruct (max_fitting_prefix_len_spec (length (ba_events b)) efits) as (Hl & Hlf & Hlm).
  specialize (Hlm ltac:(intros i j Hij; change (boot_report_body_fits max_bytes (cut 0 j b) = true →
    boot_report_body_fits max_bytes (cut 0 i b) = true); by apply fits_cut)).
  change (ba_events (with_clients (take 0 (ba_clients b)) b)) with (ba_events b).
  set (l := max_fitting_prefix_len _ efits) in *. clearbody l.
  change (with_events (take l (ba_events b)) (with_clients (take 0 (ba_clients b)) b)) with (cut 0 l b).
  destruct (boot_report_body_fits max_bytes (cut 0 l b)) eqn:E2.
  - exists 0%nat, l. split_and!; [done|lia|done|by apply Hyes|done|]. intros _. split; [done|].
    intros j Hj. apply Hno, Hlm. lia.
  - destruct Hlf as [->|Hlf]; [by apply Hno|]. change (boot_report_body_fits max_bytes (cut 0 l b) = true) in Hlf.
    congruence.
Qed.
End Fit.

(** ** What the cursor promises *)

(** The report says of the request what the event says. *)
Definition describes (e : BootEvent) (r : BootAgentEventReport) : Prop :=
  let n := ev_recorded e in
  er_source_event_id r = ev_id e ∧ er_mac r = ne_mac n ∧ er_serial_number r = ne_serial_number n ∧
  er_ip_address r = ne_ip_address n ∧ er_user_agent r = ne_user_agent n ∧
  er_selected_profile_name r = ne_selected_profile_name n ∧
  er_known_client r = ne_known_device n ∧ er_created_at r = ev_created_at e.

Definition accepted_event (w : SyncWorld) (e : BootEvent) : Prop :=
  ∃ b r, b ∈ sy_accepted w ∧ r ∈ ba_events b ∧ describes e r.

(** Every event up to the cursor has been accepted. *)
Definition cursor_ok (cursor : option Z) (w : SyncWorld) : Prop :=
  ∀ c, cursor = Some c → 0 ≤ c ≤ last_event (sy_db w) ∧
    ∀ id e, boot_events (sy_db w) !! id = Some e → id ≤ c → accepted_event w e.

Definition sync_ok (w : SyncWorld) : Prop :=
  boot_ok (sy_db w) ∧ cursor_ok (st_last_reported_event_id (sy_state w)) w.
Definition sync_evolves (w w' : SyncWorld) : Prop :=
  boot_evolves (sy_db w) (sy_db w') ∧ sy_accepted w `prefix_of` sy_accepted w'.

#[global] Instance sync_evolves_preorder : PreOrder sync_evolves.
Proof.
  split; [by split|]. intros w1 w2 w3 [H1 P1] [H2 P2]. split; [by etrans|by etrans].
Qed.

Lemma describes_same e e' r : ev_id e' = ev_id e → same_event e e' → describes e r → describes e' r.
Proof. intros Ei Hs Hd. unfold same_event in Hs. unfold describes in *. destruct_and!. split_and!; congruence. Qed.

Lemma accepted_event_mono w w' e :
  sy_accepted w `prefix_of` sy_accepted w' → accepted_event w e → accepted_event w' e.
Proof.
  intros [l E] (b & r & Hb & H). exists b, r. split; [|done]. rewrite E. apply elem_of_app. by left.
Qed.

(** The cursor of a task that waits stays true. *)
Lemma cursor_ok_evolves cursor w w' :
  boot_ok (sy_db w) → boot_ok (sy_db w') → sync_evolves w w' → cursor_ok cursor w → cursor_ok cursor w'.
Proof.
  intros Hw Hw' [Hev Hp] Hc c Ec. destruct (Hc c Ec) as [Hle Hall]. destruct Hev as [Hn _ _ Hevents].
  split; [lia|]. intros id e' He' Hid. destruct (Hevents id e' He') as (e & He & Hs); [lia|].
  destruct (Hall id e He Hid) as (b & r & Hb & Hr & Hd).
  apply (accepted_event_mono w); [done|]. exists b, r. split_and!; [done|done|].
  destruct (ok_event_key _ Hw _ _ He) as [Ei _]. destruct (ok_event_key _ Hw' _ _ He') as [Ei' _].
  eapply describes_same; [|apply Hs|done]. congruence.
Qed.

Abbreviation sound p Q w0 := (safe sync_ok sync_evolves p Q w0).

(** An action that leaves the tables, the stored state and the accepted reports. *)
Definition aside (w w' : SyncWorld) : Prop :=
  sy_db w' = sy_db w ∧ sy_state w' = sy_state w ∧ sy_accepted w' = sy_accepted w.

Lemma aside_ok w w' : aside w w' → sync_ok w → sync_ok w' ∧ sync_evolves w w'.
Proof.
  intros (Ed & Es & Ea) [Hd Hc]. unfold sync_ok, sync_evolves, cursor_ok, accepted_event in *.
  rewrite Ed, Es, Ea. done.
Qed.

Lemma sound_aside {B} (act : SyncInput → SyncWorld → B * SyncWorld) w0 :
  (∀ i w, aside w (act i w).2) → sound (atomic act) (λ _ _, True) w0.
Proof.
  intros H. apply safe_atomic. intros i w Hw _.
  destruct (aside_ok _ _ (H i w) Hw). done.
Qed.

Lemma sound_ask {A} (f : SyncInput → SyncWorld → A) w0 : sound (ask f) (λ a _, ∃ i w, a = f i w) w0.
Proof.
  apply safe_atomic. intros i w Hw _. split_and!; [done|reflexivity|]. by exists i, w.
Qed.

(** A handler of the boot routes or of the administration, in the larger world. *)
Lemma sound_on_boot {A} (p : prog BootInput BootDb A) Q w0 :
  safe boot_ok boot_evolves p Q (sy_db w0) → sound (embed si_boot sy_db set_db p) (λ a w, Q a (sy_db w)) w0.
Proof.
  apply safe_embed; [done|by intros w [? _]|by intros w w' [? _]|].
  intros d w [Hw Hc] Hd Hev. assert (sync_evolves w (set_db d w)) as HG by by split.
  split; [|done]. split; [done|]. by eapply cursor_ok_evolves.
Qed.

Lemma sound_from_db {A} (p : handler A) (Q : A → BootDb → Prop) w0 :
  safe boot_ok boot_evolves p (λ r d, ∀ a, r = Ok a → Q a d) (sy_db w0) →
  sound (from_db p) (λ r w, ∀ a, r = Ok a → Q a (sy_db w)) w0.
Proof.
  intros H. unfold from_db. apply safe_bind. eapply safe_mono; [|by apply sound_on_boot].
  intros r w Hr. cbn [safe]. intros a Ha%or_text_Ok. by apply Hr.
Qed.

Lemma select_gives {B} (f : BootDb → B) d0 :
  safe boot_ok boot_evolves (select f) (λ r d, ∀ b, r = Ok b → b = f d) d0.
Proof.
  apply safe_checked_query; [apply _|done|]. intros i d b d' Hd _ [= <- <-].
  split_and!; [done|reflexivity|by intros b [= <-]].
Qed.

(** *** The events of a report *)

Section Events.
Context {serde : Serde} {deps : ManageDeps}.

Definition events_after (c : Z) (d : BootDb) : list BootEvent :=
  merge_sort event_id_le (List.filter (λ e, c <? ev_id e) (values_of (boot_events d))).

#[local] Instance event_id_le_total : Total event_id_le.
Proof. intros x y. unfold event_id_le. lia. Qed.
#[local] Instance event_id_le_trans : Transitive event_id_le.
Proof. intros x y z. unfold event_id_le. lia. Qed.

Lemma events_after_elem c d e :
  boot_ok d → e ∈ events_after c d ↔ boot_events d !! ev_id e = Some e ∧ c < ev_id e.
Proof.
  intros Hd. unfold events_after. rewrite merge_sort_Permutation.
  rewrite list_elem_of_In, filter_In, <-list_elem_of_In, Z.ltb_lt, values_of_elem. split.
  - intros [[id H] ?]. by destruct (ok_event_key _ Hd _ _ H) as [<- _].
  - intros [? ?]. eauto.
Qed.

Lemma max_event_id_Some l m :
  max_event_id l = Some m → (∃ r, r ∈ l ∧ er_source_event_id r = m) ∧ ∀ r, r ∈ l → er_source_event_id r ≤ m.
Proof.
  unfold max_event_id. destruct l as [|r l]; [done|]. simpl. intros [= <-].
  induction l as [|s l [(t & Ht & IHe) IHm]]; simpl.
  - split; [exists r; split; [apply list_elem_of_here|done]|].
    intros t [->|Ht]%elem_of_cons; [done|by apply not_elem_of_nil in Ht].
  - set (x := foldr _ _ _) in *. split.
    + destruct (Z.max_spec (er_source_event_id s) x) as [[_ ->]|[_ ->]].
      * exists t. split; [|done]. rewrite !elem_of_cons in *. naive_solver.
      * exists s. split; [|done]. rewrite !elem_of_cons. auto.
    + intros u Hu. rewrite !elem_of_cons in Hu. assert (u = s ∨ er_source_event_id u ≤ x) as [->|?]; [|lia..].
      destruct Hu as [->|[->|?]]; [right|by left|right]; apply IHm, elem_of_cons; auto.
Qed.

(** A prefix of the events after the cursor has every event up to its greatest. *)
Lemma events_prefix_complete c d k m :
  boot_ok d → max_event_id (List.map (event_report d) (take k (events_after c d))) = Some m →
  (c < m ≤ last_event d) ∧
  (∀ id e, boot_events d !! id = Some e → c < id ≤ m →
   ∃ r, r ∈ List.map (event_report d) (take k (events_after c d)) ∧ describes e r).
Proof.
  intros Hd [(r & Hr & Hm) Hmax]%max_event_id_Some.
  apply list_elem_of_fmap in Hr as (e0 & -> & He0). simpl in Hm.
  assert (e0 ∈ events_after c d) as He0' by by eapply subseteq_take.
  apply events_after_elem in He0' as [Hl0 Hc0]; [|done].
  destruct (ok_event_key _ Hd _ _ Hl0) as [_ ?]. split; [lia|]. intros id e He Hid.
  destruct (ok_event_key _ Hd _ _ He) as [Ei _].
  assert (e ∈ events_after c d) as Hin by (apply events_after_elem; [done|]; rewrite Ei; split; [done|lia]).
  exists (event_report d e). split; [|by unfold describes].
  apply list_elem_of_fmap_2. rewrite <-(take_drop k (events_after c d)) in Hin.
  apply elem_of_app in Hin as [?|Hin]; [done|].
  assert (StronglySorted event_id_le (take k (events_after c d) ++ drop k (events_after c d))) as Hs.
  { rewrite take_drop. apply StronglySorted_merge_sort; apply _. }
  assert (event_id_le e0 e) as Hle by by eapply StronglySorted_app_1_elem_of.
  unfold event_id_le in Hle. assert (id = ev_id e0) as -> by lia. congruence.
Qed.
End Events.

(** *** The steps of the lane *)

Abbreviation cursor_of := st_last_reported_event_id.

Section Lane.
Context {serde : Serde} {deps : ManageDeps} (cfg : ManageConfig).

Lemma cursor_ok_reported m d w body k :
  let c := default 0 (cursor_of m) in
  boot_ok d → sync_ok w → boot_evolves d (sy_db w) → cursor_ok (cursor_of m) w →
  ba_events body = List.map (event_report d) (take k (events_after c d)) →
  cursor_ok (cursor_of (match max_event_id (ba_events body) with
                        | Some id => with_reported id m | None => m end)) (accept_report body w).
Proof.
  cbn zeta. intros Hd [Hw _] Hev Hc Eb.
  assert (sync_evolves w (accept_report body w)) as Hacc by (split; [done|by exists [body]]).
  destruct (max_event_id (ba_events body)) as [mx|] eqn:Em; [|by eapply cursor_ok_evolves].
  intros x [= <-]. rewrite Eb in Em. destruct Hev as [Hn _ _ Hevents].
  destruct (events_prefix_complete _ d k mx Hd Em) as [Hmx Hpre].
  assert (0 ≤ default 0 (cursor_of m)) as H0.
  { destruct (cursor_of m) as [c0|] eqn:Ec; simpl; [|lia]. destruct (Hc c0 eq_refl). lia. }
  simpl. split; [lia|]. intros id e' He' Hid.
  destruct (Hevents id e' He') as (e & He & Hs); [lia|].
  destruct (ok_event_key _ Hd _ _ He) as [Ei ?]. destruct (ok_event_key _ Hw _ _ He') as [Ei' _].
  destruct (decide (id ≤ default 0 (cursor_of m))) as [Hle|Hgt].
  - destruct (cursor_of m) as [c0|] eqn:Ec; simpl in Hle; [|lia].
    apply (accepted_event_mono w); [by exists [body]|]. by eapply Hc.
  - destruct (Hpre id e) as (r & Hr & Hde); [done|lia|]. exists body, r. rewrite Eb.
    split_and!; [apply elem_of_app; right; apply list_elem_of_here|done|].
    eapply describes_same; [|apply Hs|done]. congruence.
Qed.

(** Once a check has passed, the rest runs. *)
Lemma sound_passed {A B} (a : A) (f : A → synctask (Result B)) Q w0 :
  sound (f a) Q w0 → sound (try_bind (Ret (Ok a)) f) Q w0.
Proof. done. Qed.

(** A query whose answer the rest does not depend on. *)
Lemma sound_query {A B} (p : handler A) (f : A → synctask (Result B)) (Q : Result B → SyncWorld → Prop) w0 :
  sync_ok w0 → harmless p (sy_db w0) → (∀ e w, Q (Err e) w) →
  (∀ a w, sync_ok w → sync_evolves w0 w → sound (f a) Q w) → sound (try_bind (from_db p) f) Q w0.
Proof.
  intros Hw Hp Herr Hf. eapply safe_try_seq; [apply _|done| |by intros a w ? ? _; apply Hf|auto].
  apply (sound_from_db _ (λ _ _, True)). eapply safe_mono; [|exact Hp]. done.
Qed.

Lemma report_boot_state_sound m w0 :
  sync_ok w0 → cursor_ok (cursor_of m) w0 →
  sound (report_boot_state cfg m) (λ r w, ∀ m', r = Ok m' → cursor_ok (cursor_of m') w) w0.
Proof.
  intros Hw0 Hc0. unfold report_boot_state.
  apply sound_query; [done|apply harmless_read_rows|done|]. intros clients w1 Hw1 Hg1.
  apply sound_query; [done|apply list_profiles_safe, Hw1|done|]. intros profiles w2 Hw2 Hg2.
  eapply safe_try_seq; [apply _|done|apply sound_from_db; apply select_gives| |done].
  intros events w3 Hw3 Hg3 Hevents. specialize (Hevents _ eq_refl). cbn beta in Hevents.
  eapply safe_try_seq; [apply _|done|apply sound_ask| |done].
  intros body w4 Hw4 Hg4 (i & w & Hbody). symmetry in Hbody.
  apply fit_boot_report_body_spec in Hbody as (_ & k & l & Hbody).
  destruct (managed_device_id m); [|done]. apply safe_atomic. intros j w5 Hw5 Hg5.
  destruct (si_posted j); [|split_and!; [done|reflexivity|done]].
  assert (sync_evolves w3 w5) as Hg35 by by etrans.
  assert (cursor_ok (cursor_of m) w5) as Hc5.
  { eapply cursor_ok_evolves; [apply Hw0|apply Hw5| |done]. by repeat (etrans; [eassumption|]). }
  assert (sync_evolves w5 (accept_report body w5)) as Hacc by (split; [done|by exists [body]]).
  cbn [fst snd]. split_and!; [|done|].
  - split; [apply Hw5|]. eapply cursor_ok_evolves; [apply Hw5|apply Hw5|done|apply Hw5].
  - intros m' [= <-]. eapply cursor_ok_reported; [apply Hw3|done|apply Hg35|done|].
    rewrite Hbody. cbn [ba_events with_events with_clients]. rewrite Hevents.
    rewrite List.firstn_map, take_take. reflexivity.
Qed.

Lemma save_managed_state_sound m w0 :
  boot_ok (sy_db w0) → cursor_ok (cursor_of m) w0 → sound (save_managed_state m) (λ _ _, True) w0.
Proof.
  intros Hw0 Hc. apply safe_atomic. intros i w Hw Hg.
  destruct (si_io i); [split_and!; [done|reflexivity|done]|].
  split_and!; [|by split|done]. split; [apply Hw|].
  eapply cursor_ok_evolves; [exact Hw0|apply Hw|exact Hg|exact Hc].
Qed.

Lemma persist_discovery_sound desired w0 : sound (persist_discovery desired) (λ _ _, True) w0.
Proof. apply sound_aside. intros i w. by repeat case_match. Qed.

Lemma apply_boot_config_sound config w0 :
  sync_ok w0 → sound (apply_boot_config cfg config) (λ _ _, True) w0.
Proof.
  intros Hw0. unfold apply_boot_config.
  eapply safe_try_seq; [apply _|done|apply sound_ask| |done]. intros settings w1 Hw1 _ _.
  destruct (validate_boot_config config) as [[]|e] eqn:Ev; [|done]. apply sound_passed.
  eapply (safe_try_seq _ _ _ _ (λ _ _, True)); [done| |intros [] w2 Hw2 _ _|done].
  - apply safe_atomic. intros i w Hw _. destruct (fault (si_boot i)); [split_and!; [done|reflexivity|done]|].
    destruct (sync_tables _ config (sy_db w)) as [d|e] eqn:Et; [|split_and!; [done|reflexivity|done]].
    destruct (sync_tables_spec _ _ _ _ (proj1 Hw) Ev Et) as [[Hd Hev] _].
    assert (sync_evolves w (set_db d w)) as HG by by split.
    split_and!; [|done|done]. split; [done|]. eapply cursor_ok_evolves; [apply Hw|done|done|apply Hw].
  - eapply (safe_try_seq _ _ _ _ (λ _ _, True)); [done|apply persist_discovery_sound| |done].
    intros [] w3 Hw3 _ _. by apply sound_aside.
Qed.

(** What a part of the lane leaves: a state whose cursor is true. *)
Abbreviation keeps_cursor := (λ (r : _ * ManagedState) (w : SyncWorld), cursor_ok (cursor_of r.2) w).

Lemma report_and_save_sound first subsystem m w0 :
  sync_ok w0 → cursor_ok (cursor_of m) w0 →
  sound (report_and_save cfg first subsystem m) keeps_cursor w0.
Proof.
  intros Hw0 Hc. unfold report_and_save.
  eapply safe_seq; [apply _|done|by apply report_boot_state_sound|].
  intros [m'|e] w Hw Hg Hr; [|by eapply cursor_ok_evolves; [apply Hw0|apply Hw|..]].
  specialize (Hr m' eq_refl).
  eapply safe_seq; [apply _|done|apply save_managed_state_sound; [apply Hw|done]|].
  intros s w' Hw' Hg' _. by eapply cursor_ok_evolves; [apply Hw|apply Hw'|..].
Qed.

Lemma fetch_boot_config_sound m w0 : sync_ok w0 → sound (fetch_boot_config m) (λ _ _, True) w0.
Proof.
  intros Hw0. unfold fetch_boot_config. destruct (managed_device_id m); [apply sound_passed|done].
  eapply safe_try_seq; [apply _|done|apply sound_ask| |done]. intros config w1 _ _ _.
  by destruct (validate_component_compatibility _).
Qed.

Lemma sync_boot_foundation_sound m w0 :
  sync_ok w0 → cursor_ok (cursor_of m) w0 → sound (sync_boot_foundation cfg m) keeps_cursor w0.
Proof.
  intros Hw0 Hc0. unfold sync_boot_foundation.
  eapply (safe_seq _ _ _ _ (λ _ _, True)); [done| |].
  { eapply safe_mono; [|apply (sound_from_db _ (λ _ _, True)); eapply safe_mono;
      [|apply harmless_read_rows]]; done. }
  intros pending w1 Hw1 Hg1 _.
  assert (cursor_ok (cursor_of m) w1) as Hc1 by by eapply cursor_ok_evolves; [apply Hw0|apply Hw1|..].
  eapply (safe_seq _ _ _ _ keeps_cursor); [done| |].
  { destruct pending as [[]|e]; [by apply report_and_save_sound|exact Hc1..]. }
  intros [first m2] w2 Hw2 Hg2 Hc2. cbn [snd] in Hc2.
  eapply safe_seq; [apply _|done|by apply fetch_boot_config_sound|]. intros fetched w3 Hw3 Hg3 _.
  eapply (safe_seq _ _ _ _ (λ _ _, True)); [done| |].
  { destruct fetched as [config|e]; [|done].
    eapply safe_seq; [apply _|done|by apply apply_boot_config_sound|done]. }
  intros first' w4 Hw4 Hg4 _. eapply safe_seq; [apply _|done|apply report_and_save_sound; [done|]|].
  { eapply cursor_ok_evolves; [apply Hw2|apply Hw4| |exact Hc2]. by etrans. }
  by intros [first'' m5] w5 _ _ Hc5.
Qed.

Lemma sync_boot_lane_sound w0 : sync_ok w0 → sound (sync_boot_lane cfg) (λ _ _, True) w0.
Proof.
  intros Hw0. unfold sync_boot_lane.
  eapply (safe_try_seq _ _ _ _ (λ r w, ∀ m, r = Ok m → cursor_ok (cursor_of m) w)); [done| | |done].
  - apply safe_atomic. intros i w Hw _. destruct (si_io i); (split_and!; [done|reflexivity|]); [done|].
    intros m [= <-]. apply Hw.
  - intros m w1 Hw1 _ Hm. specialize (Hm m eq_refl). destruct (managed_device_id m); [|done].
    apply sound_passed. eapply safe_seq; [apply _|done|by apply sync_boot_foundation_sound|].
    intros [r m2] w2 Hw2 _ Hc2. cbn [snd] in Hc2.
    eapply safe_seq; [apply _|done|apply save_managed_state_sound; [apply Hw2|done]|done].
Qed.

(** ** Theorems *)

(** What can run: the boot requests and changes of [BootTheorems], and the lane. *)
Inductive sync_entry (urlencode lowercase : string → string) : synctask unit → Prop :=
| enter_request p : boot_entry urlencode lowercase p → sync_entry urlencode lowercase (embed si_boot sy_db set_db p)
| enter_lane : sync_entry urlencode lowercase (sync_boot_lane cfg ≫= λ _, Ret tt).

Lemma sync_entry_sound urlencode lowercase p w0 :
  sync_entry urlencode lowercase p → sync_ok w0 → sound p (λ _ _, True) w0.
Proof.
  intros [q Hq|] Hw.
  - apply (sound_on_boot q (λ _ _, True)), (boot_entry_safe urlencode lowercase); [done|apply Hw].
  - eapply safe_seq; [apply _|done|by apply sync_boot_lane_sound|done].
Qed.

(** C5. No boot event is skipped.  However synchronizations with Tiaris interleave with
    boot requests, administrative changes and each other, whatever statements, files and
    requests fail, and wherever a task is dropped: the boot tables stay consistent,
    reports once accepted stay accepted, and every boot event at or below the stored
    cursor was in an accepted report that said of the request what the event says.  So a
    report that is cut to fit, or a cursor that could not be stored, repeats events but
    never loses one. *)
Theorem no_boot_event_is_skipped urlencode lowercase w ts' w' :
  sync_ok w → rtc (pstep (sync_entry urlencode lowercase)) ([], w) (ts', w') →
  boot_ok (sy_db w') ∧ boot_evolves (sy_db w) (sy_db w') ∧ sy_accepted w `prefix_of` sy_accepted w' ∧
  ∀ cursor id e, st_last_reported_event_id (sy_state w') = Some cursor →
    boot_events (sy_db w') !! id = Some e → id ≤ cursor →
    ∃ b r, b ∈ sy_accepted w' ∧ r ∈ ba_events b ∧ describes e r.
Proof.
  intros Hw Hsteps.
  destruct (pool_invariant_empty sync_ok sync_evolves _ _ _ _ (sync_entry_sound urlencode lowercase) Hsteps Hw)
    as [[Hd Hc] [Hev Hp]].
  split_and!; [done..|]. intros cursor id e Hcur He Hid. by destruct (Hc cursor Hcur) as [_ Hall]; eapply Hall.
Qed.

(** C7. A boot configuration is applied exactly, or the tables keep what they were.
    When [apply_boot_config] succeeds, every desired profile and client is in the tables
    as desired (clients assigned the very profiles they name), in a complete
    configuration there is no other managed profile or client, a device that is not
    managed and whose address no client has keeps its whole row, but for references to profiles
    that are gone, and the settings in memory are the normalized ones.  When it fails the settings are as
    they were, and the tables are as they were or already the desired ones.  Either way
    they are consistent, and the state file and the accepted reports are untouched. *)
Theorem boot_configuration_is_applied_exactly config env n w r w' n' :
  boot_ok (sy_db w) → run env n (apply_boot_config cfg config) w = (r, w', n') →
  boot_ok (sy_db w') ∧ boot_evolves (sy_db w) (sy_db w') ∧
  sy_state w' = sy_state w ∧ sy_accepted w' = sy_accepted w ∧
  match r with
  | Ok _ => desired_tables config (sy_db w) (sy_db w') ∧ validate_boot_config config = Ok tt ∧
            normalize_managed_settings_for_mode (bc_settings config) cfg (si_appliance (env n)) = Ok (sy_settings w')
  | Err _ => sy_settings w' = sy_settings w ∧
             (sy_db w' = sy_db w ∨ desired_tables config (sy_db w) (sy_db w'))
  end.
Proof.
  intros Hw. unfold apply_boot_config. rewrite run_try_bind. cbn [run ask atomic].
  destruct (normalize_managed_settings_for_mode _ _ _) as [settings|e]; [|by intros [= <- <- <-]; split_and!; auto].
  destruct (validate_boot_config config) as [[]|e] eqn:Ev; [|by intros [= <- <- <-]; split_and!; auto].
  rewrite run_try_bind. cbn [run]. rewrite run_try_bind. cbn [run atomic].
  destruct (fault _); [by intros [= <- <- <-]; split_and!; auto|].
  destruct (sync_tables _ config (sy_db w)) as [d|e] eqn:Et; [|by intros [= <- <- <-]; split_and!; auto].
  destruct (sync_tables_spec _ _ _ _ Hw Ev Et) as [[Hd Hev] Hdes].
  rewrite run_try_bind. unfold persist_discovery. cbn [run atomic].
  repeat case_match; simplify_eq/=; intros [= <- <- <-]; split_and!; auto.
Qed.
End Lane.

(** ** On concrete tables *)

Module ManagedDemo.
Import BootDemo.

(** A serialization whose length counts the clients and events. *)
#[global] Instance demo_deps : ManageDeps := {|
  settings_url := λ _, Some {| su_scheme := "http"; su_has_host := true; su_username := "";
    su_has_password := false; su_has_query := false; su_has_fragment := false |};
  uuid_hyphenated := λ _, None;
  boot_report_to_vec := λ b, String.string_of_list_ascii
    (replicate (length (ba_clients b) + length (ba_events b)) "x"%char);
  discovery_to_vec := λ _ _, "{}";
|}.

Definition demo_cfg : ManageConfig := {|
  mg_public_base_url := "http://nest"; mg_bootloader_filename := "snponly.efi"; mg_listen_addr := "0.0.0.0:80";
  mg_tftp_dir := "/srv/tftp"; mg_boot_assets_dir := "/srv/http"; mg_version := "1.0" |}.

Definition demo_id (c : ascii) : string :=
  String.string_of_list_ascii (replicate 8 c) +:+ "-0000-4000-8000-000000000000".
Definition demo_managed_profile : ManagedBootProfile := {|
  mp_id := demo_id "a"; mp_name := "Install"; mp_description := ""; mp_profile_type := "nest_installer";
  mp_enabled := true; mp_is_default := true; mp_one_time := false; mp_raw_script := None |}.
Definition demo_client (c : ascii) (mac : string) : ManagedBootClient := {|
  mc_id := demo_id c; mc_mac := mac; mc_hostname := None; mc_serial_number := None; mc_last_seen_at := None;
  mc_default_profile_id := Some (demo_id "a"); mc_one_time_profile_id := None; mc_managed_device_id := None;
  mc_reinstall_request_id := None; mc_notes := ""; mc_tags := [] |}.
Definition demo_config (clients : list ManagedBootClient) : AgentBootConfigResponse := {|
  bc_pxe_discovery := None;
  bc_compatibility := Some {| cc_protocol_version := 4; cc_minimum_nest_protocol := 1;
    cc_maximum_nest_protocol := 100; cc_manage_version := "1"; cc_manage_release := "1";
    cc_workstation_runtime_epoch := None |};
  bc_settings := {| ms_public_base_url := ""; ms_bootloader_filename := ""; ms_menu_timeout_ms := 5000 |};
  bc_profiles := [demo_managed_profile]; bc_profiles_complete := true; bc_deleted_profile_ids := [];
  bc_clients := clients; bc_deleted_client_ids := []; bc_clients_complete := true |}.
Definition two_clients : AgentBootConfigResponse :=
  demo_config [demo_client "b" "02:00:00:00:00:01"; demo_client "c" "02:00:00:00:00:02"].
Definition two_clients_swapped : AgentBootConfigResponse :=
  demo_config [demo_client "b" "02:00:00:00:00:02"; demo_client "c" "02:00:00:00:00:01"].

Definition demo_input : SyncInput := {|
  si_boot := input false; si_clock := λ _, "2026-10-01T00:00:00+00:00"; si_appliance := false; si_io := None;
  si_now := 0; si_config := Ok two_clients; si_posted := Ok tt; si_reliability := None |}.
Definition demo_sync_env (n : nat) : SyncInput := demo_input.
Definition demo_state : ManagedState := {|
  st_private_key_b64 := None; st_public_key_b64 := None; st_public_key_fingerprint := None;
  st_device_id := Some "nest-1"; st_last_reported_event_id := None; st_active_report_cursor := None;
  st_terminal_report_cursor := None; st_rejection_report_cursor := None;
  st_cache_artifact_report_cursor := None; st_cache_report_instance_id := None;
  st_cache_report_generation := None; st_report_rotation_round := 0; st_report_warning_fingerprint := None |}.

(** The tables after a boot of the known machine. *)
Definition booted : handler string :=
  build_boot_script id id (Some "aa:bb:cc:00:11:22") None demo_headers demo_peer false.
Definition booted_db : BootDb := (run demo_env 0 booted demo_db).1.2.

Lemma booted_db_ok : boot_ok booted_db.
Proof.
  pose proof (safe_run boot_ok boot_evolves booted _ demo_env 0 demo_db demo_db_ok
    (build_boot_script_safe _ _ _ _ _ _ _ _ demo_db_ok)) as H.
  unfold booted_db. destruct (run demo_env 0 booted demo_db) as [[r d] n]. by destruct H.
Qed.

Definition demo_world (d : BootDb) : SyncWorld := {|
  sy_db := d; sy_settings := {| ns_public_base_url := ""; ns_bootloader_filename := ""; ns_menu_timeout_ms := 0 |};
  sy_discovery := None; sy_state := demo_state; sy_accepted := [] |}.
Lemma demo_world_ok : sync_ok (demo_world booted_db).
Proof. split; [apply booted_db_ok|done]. Qed.

Definition lane_done : SyncWorld := (run demo_sync_env 0 (sync_boot_lane demo_cfg) (demo_world booted_db)).1.2.

Lemma no_boot_event_is_skipped_witness :
  st_last_reported_event_id (sy_state lane_done) = Some 1 ∧ ∃ e, boot_events (sy_db lane_done) !! 1 = Some e ∧
  ∃ b r, b ∈ sy_accepted lane_done ∧ r ∈ ba_events b ∧ describes e r.
Proof.
  split; [vm_compute; reflexivity|].
  destruct (boot_events (sy_db lane_done) !! 1) as [e|] eqn:He;
    [|exfalso; vm_compute in He; discriminate He].
  exists e. split; [reflexivity|].
  destruct (run_arrived (sync_entry demo_cfg id id) [] (sync_boot_lane demo_cfg) demo_sync_env 0
    (demo_world booted_db) (enter_lane demo_cfg id id)) as [ts Hts].
  apply (no_boot_event_is_skipped demo_cfg id id (demo_world booted_db) ts lane_done demo_world_ok Hts)
    with (cursor := 1) (id := 1); [vm_compute; reflexivity|exact He|reflexivity].
Defined.

Definition applied (config : AgentBootConfigResponse) (d : BootDb) : Result unit * SyncWorld * nat :=
  run demo_sync_env 0 (apply_boot_config demo_cfg config) (demo_world d).

Lemma boot_configuration_is_applied_exactly_witness :
  (applied two_clients booted_db).1.1 = Ok tt ∧
  desired_tables two_clients booted_db (sy_db (applied two_clients booted_db).1.2).
Proof.
  assert ((applied two_clients booted_db).1.1 = Ok tt) as Hok by (vm_compute; reflexivity).
  split; [exact Hok|].
  pose proof (boot_configuration_is_applied_exactly demo_cfg two_clients demo_sync_env 0
    (demo_world booted_db) (applied two_clients booted_db).1.1 (applied two_clients booted_db).1.2
    (applied two_clients booted_db).2 booted_db_ok) as H.
  rewrite Hok in H. apply H. rewrite <-Hok. unfold applied. by destruct (run _ _ _ _) as [[r w] n].
Defined.

Lemma string_length n c : String.length (String.string_of_list_ascii (replicate n c)) = n.
Proof. induction n; simpl; congruence. Qed.

Lemma demo_shorter_prefixes : shorter_prefixes.
Proof.
  intros b cs cs' es es' Hc%prefix_length He%prefix_length. unfold len. simpl. rewrite !string_length. lia.
Qed.

(** Two clients and an event, in a body of two. *)
Definition long_report : BootAgentReportRequest := {|
  ba_protocol_version := 4;
  ba_settings := {| sr_public_base_url := ""; sr_listen_addr := ""; sr_tftp_root := ""; sr_http_root := "";
    sr_bootloader_filename := ""; sr_menu_timeout_ms := 0; sr_version := ""; sr_status := "online";
    sr_state := Null |};
  ba_clients := replicate 2 {| cr_mac := ""; cr_hostname := None; cr_serial_number := None;
    cr_last_seen_at := None; cr_notes := ""; cr_tags := [] |};
  ba_events := [{| er_source_event_id := 1; er_mac := None; er_serial_number := None; er_ip_address := None;
    er_user_agent := None; er_selected_profile_id := None; er_selected_profile_name := None;
    er_known_client := true; er_created_at := "" |}] |}.

Lemma boot_reports_are_cut_to_fit_witness :
  fit_boot_report_body long_report 2 = Ok (cut 1 1 long_report) ∧
  ∃ k l, cut 1 1 long_report = cut k l long_report ∧
    ∀ j, (k < j ≤ 2)%nat → 2 < len (boot_report_to_vec (cut j 1 long_report)).
Proof.
  assert (fit_boot_report_body long_report 2 = Ok (cut 1 1 long_report)) as E by (vm_compute; reflexivity).
  split; [exact E|].
  pose proof (boot_reports_are_cut_to_fit long_report 2 demo_shorter_prefixes) as H.
  rewrite E in H. destruct H as (k & l & Hcut & _ & _ & _ & Hmore & _). exists k, l. by split.
Defined.

(** Two clients exchange their network cards: the configuration is valid, but the first
    [UPDATE] already violates the uniqueness of addresses, at every synchronization. *)
Lemma exchanged_addresses_are_refused :
  let d := sy_db (applied two_clients booted_db).1.2 in
  validate_boot_config two_clients_swapped = Ok tt ∧
  (applied two_clients_swapped d).1.1 = bail "error returned from database" ∧
  sy_db (applied two_clients_swapped d).1.2 = d.
Proof. vm_compute. auto. Qed.

End ManagedDemo.
