(* ===== verification/ManagedReport.v ===== *)
(** * Management: the Nest report

    The report of build jobs and cache artifacts of [src/src/manage.rs]: what a report
    says of a job, the rotation of each group of jobs behind its cursor, the selection
    among the groups, the cutting of a body to the size Tiaris accepts, and how an
    accepted report advances the cursors ([report_nest_state] from the listed jobs to
    [accept_nest_report_response]).

    The parts of the body that are only sent (status of the cache, disk, host, netboot,
    appliance, software updates) are one field [nr_rest]; serialization is an argument. *)

From stdpp Require Import sorting base gmap list strings.
From Stdlib Require Import Ascii ZArith Lia.
From S2P Require Import Prelude Async RustStr Json DbText Boot BuildJobs CacheArtifacts Multicast MulticastHandlers ManagedBoot.

#[local] Open Scope Z_scope.
#[local] Open Scope nest_scope.

Definition MAX_REPORT_BUILD_JOBS : nat := 500.
Definition MAX_REPORT_CACHE_ARTIFACTS : nat := 2000.
Definition MAX_NEST_REPORT_BODY_BYTES : Z := 32 * 1024 * 1024.

(** ** Reports of jobs and artifacts *)

Record NestBuildJobReport := {
  nb_local_id : Z;
  nb_managed_job_id : option string;
  nb_requested_artifact_type : string;
  nb_build_spec : Value;
  nb_target : string;
  nb_system : string;
  nb_input_revision : string;
  nb_input_config_hash : string;
  nb_status : string;
  nb_progress_percent : option Z;
  nb_progress_stage : option string;
  nb_progress_message : option string;
  nb_logs : string;
  nb_error : string;
  nb_rejection_code : option string;
  nb_output_path : string;
  nb_output_sha256 : string;
  nb_output_size_bytes : Z;
  nb_exit_code : option Z;
  nb_cache_metadata : Value;
  nb_started_at : option string;
  nb_completed_at : option string;
  nb_cancel_requested_at : option string;
  nb_created_at : string;
  nb_updated_at : string;
}.

Record NestCacheArtifactReport := {
  na_local_id : Z;
  na_managed_artifact_id : option string;
  na_artifact_type : string;
  na_hash : string;
  na_size_bytes : Z;
  na_path : string;
  na_store_path : string;
  na_narinfo_path : string;
  na_nar_url : string;
  na_file_hash : string;
  na_nar_hash : string;
  na_nar_size_bytes : Z;
  na_closure_size_bytes : Z;
  na_closure_file_size_bytes : Z;
  na_compression : string;
  na_references : Value;
  na_serving_url : string;
  na_source_build_job_id : option string;
  na_cache_metadata : Value;
  na_created_at : string;
  na_updated_at : string;
}.

Section From.
Context {deps : ManageDeps}.

Definition build_job_report (job : BuildJob) : NestBuildJobReport :=
  let row := bj_row job in let i := job_inputs row in let o := job_output row in {|
  nb_local_id := job_id row; nb_managed_job_id := optional_report_uuid (job_managed_id row);
  nb_requested_artifact_type := ji_requested_artifact_type i; nb_build_spec := bj_build_spec job;
  nb_target := ji_target i; nb_system := ji_system i; nb_input_revision := ji_input_revision i;
  nb_input_config_hash := ji_input_config_hash i; nb_status := job_status row;
  nb_progress_percent := jp_percent (job_progress row);
  nb_progress_stage := jp_stage (job_progress row);
  nb_progress_message := jp_message (job_progress row);
  nb_logs := job_logs row; nb_error := job_error row;
  nb_rejection_code := if is_empty (job_rejection_code row) then None else Some (job_rejection_code row);
  nb_output_path := jo_path o; nb_output_sha256 := jo_sha256 o; nb_output_size_bytes := jo_size_bytes o;
  nb_exit_code := jo_exit_code o; nb_cache_metadata := bj_cache_metadata job;
  nb_started_at := job_started_at row; nb_completed_at := job_completed_at row;
  nb_cancel_requested_at := job_cancel_requested_at row; nb_created_at := job_created_at row;
  nb_updated_at := job_updated_at row |}.

Definition cache_artifact_report (artifact : CacheArtifact) : NestCacheArtifactReport :=
  let row := art_row artifact in let a := ca_data row in {|
  na_local_id := ca_id row; na_managed_artifact_id := optional_report_uuid (ad_managed_artifact_id a);
  na_artifact_type := ca_artifact_type row; na_hash := ca_hash row; na_size_bytes := ad_size_bytes a;
  na_path := ad_path a; na_store_path := ad_store_path a; na_narinfo_path := ad_narinfo_path a;
  na_nar_url := ad_nar_url a; na_file_hash := ad_file_hash a; na_nar_hash := ad_nar_hash a;
  na_nar_size_bytes := ad_nar_size_bytes a; na_closure_size_bytes := ad_closure_size_bytes a;
  na_closure_file_size_bytes := ad_closure_file_size_bytes a; na_compression := ad_compression a;
  na_references := art_references artifact; na_serving_url := ad_serving_url a;
  na_source_build_job_id := optional_report_uuid (ad_source_build_job_id a);
  na_cache_metadata := art_cache_metadata artifact; na_created_at := ca_created_at row;
  na_updated_at := ca_updated_at row |}.
End From.

(** [job.logs.clear()]. *)
Definition clear_logs (j : NestBuildJobReport) : NestBuildJobReport := {|
  nb_local_id := nb_local_id j; nb_managed_job_id := nb_managed_job_id j;
  nb_requested_artifact_type := nb_requested_artifact_type j; nb_build_spec := nb_build_spec j;
  nb_target := nb_target j; nb_system := nb_system j; nb_input_revision := nb_input_revision j;
  nb_input_config_hash := nb_input_config_hash j; nb_status := nb_status j;
  nb_progress_percent := nb_progress_percent j; nb_progress_stage := nb_progress_stage j;
  nb_progress_message := nb_progress_message j; nb_logs := ""; nb_error := nb_error j;
  nb_rejection_code := nb_rejection_code j; nb_output_path := nb_output_path j;
  nb_output_sha256 := nb_output_sha256 j; nb_output_size_bytes := nb_output_size_bytes j;
  nb_exit_code := nb_exit_code j; nb_cache_metadata := nb_cache_metadata j;
  nb_started_at := nb_started_at j; nb_completed_at := nb_completed_at j;
  nb_cancel_requested_at := nb_cancel_requested_at j; nb_created_at := nb_created_at j;
  nb_updated_at := nb_updated_at j |}.

(** ** Rotation and selection *)

Section Rotate.
Context {T : Type} (local_id : T → Z).

(** [sort_by_key(Reverse(local_id))]. *)
Definition newest_first (x y : T) : Prop := local_id y ≤ local_id x.
#[global] Instance newest_first_dec : RelDecision newest_first.
Proof. unfold newest_first. intros x y. apply _. Defined.

(** [partition_point]: how many items at the front satisfy [p]. *)
Fixpoint partition_point (p : T → bool) (items : list T) : nat :=
  match items with
  | [] => 0
  | x :: items => if p x then S (partition_point p items) else 0
  end.

Definition rotate_report_items_after_cursor (items : list T) (cursor : option Z) : list T :=
  let items := merge_sort newest_first items in
  match cursor with
  | None => items
  | Some cursor =>
      let split := partition_point (λ item, cursor <=? local_id item) items in
      if (split <? length items)%nat then drop split items ++ take split items else items
  end.
End Rotate.

Definition nest_cache_report_cursor (m : ManagedState) (inventory_instance_id : string)
    (inventory_generation : Z) (inventory_valid : bool) : option Z :=
  if inventory_valid
     && bool_decide (st_cache_report_instance_id m = Some inventory_instance_id)
     && bool_decide (st_cache_report_generation m = Some inventory_generation)
  then st_cache_artifact_report_cursor m else None.

Inductive NestReportPriority := ActiveBuilds | TerminalBuilds | RejectedBuilds | CacheArtifacts.

Definition from_round (round : Z) : NestReportPriority :=
  if round mod 4 =? 0 then ActiveBuilds
  else if round mod 4 =? 1 then TerminalBuilds
  else if round mod 4 =? 2 then RejectedBuilds
  else CacheArtifacts.

(** Active, rejected, ordinary terminal. *)
Definition build_group_order (p : NestReportPriority) : list nat :=
  match p with
  | ActiveBuilds => [0; 1; 2]
  | TerminalBuilds => [2; 1; 0]
  | RejectedBuilds => [1; 0; 2]
  | CacheArtifacts => [0; 1; 2]
  end%nat.

Definition nest_build_job_is_terminal (job : NestBuildJobReport) : bool := terminal_status (nb_status job).
Definition is_active (job : NestBuildJobReport) : bool := negb (nest_build_job_is_terminal job).
Definition is_rejected (job : NestBuildJobReport) : bool := bool_decide (is_Some (nb_rejection_code job)).
Definition is_ordinary (job : NestBuildJobReport) : bool :=
  nest_build_job_is_terminal job && negb (is_rejected job).

(** [take] and [selected] of the loop, and whether a round progressed. *)
Record Taking := { tk_take : list nat; tk_selected : nat; tk_progressed : bool }.

Definition take_one (lengths : list nat) (max_reports : nat) (t : Taking) (group : nat) : Taking :=
  if (tk_selected t =? max_reports)%nat then t
  else if (default 0 (tk_take t !! group) <? default 0 (lengths !! group))%nat
  then {| tk_take := alter S group (tk_take t); tk_selected := S (tk_selected t); tk_progressed := true |}
  else t.

Definition take_round (lengths : list nat) (max_reports : nat) (order : list nat) (t : Taking) : Taking :=
  fold_left (take_one lengths max_reports) order
    {| tk_take := tk_take t; tk_selected := tk_selected t; tk_progressed := false |}.

(** Every round but the last selects a job, so [max_reports] rounds are enough. *)
Fixpoint take_loop (fuel : nat) (lengths : list nat) (max_reports : nat) (order : list nat) (t : Taking) : Taking :=
  match fuel with
  | O => t
  | S fuel =>
      if (max_reports <=? tk_selected t)%nat then t else
      let t := take_round lengths max_reports order t in
      if tk_progressed t then take_loop fuel lengths max_reports order t else t
  end.

Definition select_build_job_reports (reports : list NestBuildJobReport)
    (active_cursor rejection_cursor terminal_cursor : option Z) (max_reports : nat)
    (priority : NestReportPriority) : list NestBuildJobReport :=
  let rotate := rotate_report_items_after_cursor nb_local_id in
  let active := rotate (List.filter is_active reports) active_cursor in
  let rejected := rotate (List.filter (λ r, negb (is_active r) && is_rejected r) reports) rejection_cursor in
  let terminal := rotate (List.filter (λ r, negb (is_active r) && negb (is_rejected r)) reports) terminal_cursor in
  let taking := take_loop max_reports [length active; length rejected; length terminal] max_reports
    (build_group_order priority) {| tk_take := [0; 0; 0]%nat; tk_selected := 0; tk_progressed := false |} in
  take (default 0 (tk_take taking !! 0))%nat active ++ take (default 0 (tk_take taking !! 1))%nat rejected
    ++ take (default 0 (tk_take taking !! 2))%nat terminal.

(** ** The body *)

Section Body.
Context {Rest Finding : Type}.

Record NestAgentReportRequest := {
  nr_build_jobs : list NestBuildJobReport;
  nr_cache_artifacts : list NestCacheArtifactReport;
  nr_cache_inventory_instance_id : string;
  nr_cache_inventory_generation : Z;
  nr_cache_artifacts_complete : bool;
  nr_workstation_multicast : option WorkstationMulticastReport;
  nr_software_update_findings : option (list Finding);
  nr_rest : Rest;
}.

Definition with_jobs (jobs : list NestBuildJobReport) (b : NestAgentReportRequest) : NestAgentReportRequest := {|
  nr_build_jobs := jobs; nr_cache_artifacts := nr_cache_artifacts b;
  nr_cache_inventory_instance_id := nr_cache_inventory_instance_id b;
  nr_cache_inventory_generation := nr_cache_inventory_generation b;
  nr_cache_artifacts_complete := nr_cache_artifacts_complete b;
  nr_workstation_multicast := nr_workstation_multicast b;
  nr_software_update_findings := nr_software_update_findings b; nr_rest := nr_rest b |}.
Definition with_artifacts (artifacts : list NestCacheArtifactReport) (complete : bool)
    (b : NestAgentReportRequest) : NestAgentReportRequest := {|
  nr_build_jobs := nr_build_jobs b; nr_cache_artifacts := artifacts;
  nr_cache_inventory_instance_id := nr_cache_inventory_instance_id b;
  nr_cache_inventory_generation := nr_cache_inventory_generation b;
  nr_cache_artifacts_complete := complete;
  nr_workstation_multicast := nr_workstation_multicast b;
  nr_software_update_findings := nr_software_update_findings b; nr_rest := nr_rest b |}.
Definition with_multicast (report : option WorkstationMulticastReport) (b : NestAgentReportRequest)
    : NestAgentReportRequest := {|
  nr_build_jobs := nr_build_jobs b; nr_cache_artifacts := nr_cache_artifacts b;
  nr_cache_inventory_instance_id := nr_cache_inventory_instance_id b;
  nr_cache_inventory_generation := nr_cache_inventory_generation b;
  nr_cache_artifacts_complete := nr_cache_artifacts_complete b;
  nr_workstation_multicast := report;
  nr_software_update_findings := nr_software_update_findings b; nr_rest := nr_rest b |}.
Definition without_findings (b : NestAgentReportRequest) : NestAgentReportRequest := {|
  nr_build_jobs := nr_build_jobs b; nr_cache_artifacts := nr_cache_artifacts b;
  nr_cache_inventory_instance_id := nr_cache_inventory_instance_id b;
  nr_cache_inventory_generation := nr_cache_inventory_generation b;
  nr_cache_artifacts_complete := nr_cache_artifacts_complete b;
  nr_workstation_multicast := nr_workstation_multicast b;
  nr_software_update_findings := None; nr_rest := nr_rest b |}.

(** [serde_json]. *)
Context (nest_report_to_vec : NestAgentReportRequest → string) (max_bytes : Z).

Definition nest_report_body_fits (b : NestAgentReportRequest) : bool :=
  len (nest_report_to_vec b) <=? max_bytes.

(** [Vec::remove(rposition(p))], when there is one. *)
Definition remove_last (p : NestBuildJobReport → bool) (jobs : list NestBuildJobReport)
    : option (list NestBuildJobReport) :=
  let n := length jobs in
  match partition_point (λ j, negb (p j)) (reverse jobs) with
  | k => if (k <? n)%nat then Some (take (n - S k) jobs ++ drop (n - k) jobs) else None
  end.

(** The loops of [trim_ordinary_terminal_reports], [trim_active_build_reports] and
    [trim_rejected_build_reports]; each round removes a job. *)
Fixpoint trim_jobs_loop (fuel : nat) (p : NestBuildJobReport → bool) (b : NestAgentReportRequest)
    : NestAgentReportRequest :=
  match fuel with
  | O => b
  | S fuel =>
      if nest_report_body_fits b then b else
      match remove_last p (nr_build_jobs b) with
      | None => b
      | Some jobs => trim_jobs_loop fuel p (with_jobs jobs b)
      end
  end.
Definition trim_jobs (p : NestBuildJobReport → bool) (b : NestAgentReportRequest) : NestAgentReportRequest :=
  trim_jobs_loop (length (nr_build_jobs b)) p b.
Definition trim_ordinary_terminal_reports := trim_jobs is_ordinary.
Definition trim_active_build_reports := trim_jobs is_active.
Definition trim_rejected_build_reports := trim_jobs is_rejected.

Definition with_event_list (events : list WorkstationMulticastTransferEvent) (r : WorkstationMulticastReport)
    : WorkstationMulticastReport := {|
  rp_schema := rp_schema r; rp_report_instance_id := rp_report_instance_id r;
  rp_snapshot := rp_snapshot r; rp_events := events |}.

Fixpoint trim_multicast_loop (fuel : nat) (b : NestAgentReportRequest) : NestAgentReportRequest :=
  match fuel with
  | O => b
  | S fuel =>
      if nest_report_body_fits b then b else
      match nr_workstation_multicast b with
      | None => b
      | Some r =>
          if bool_decide (rp_events r = []) then b
          else trim_multicast_loop fuel
                 (with_multicast (Some (with_event_list (take (pred (length (rp_events r))) (rp_events r)) r)) b)
      end
  end.
Definition trim_workstation_multicast_reports (b : NestAgentReportRequest) : NestAgentReportRequest :=
  trim_multicast_loop (match nr_workstation_multicast b with Some r => length (rp_events r) | None => 0 end) b.

Definition trim_cache_artifact_reports (b : NestAgentReportRequest) : NestAgentReportRequest :=
  if nest_report_body_fits b || bool_decide (nr_cache_artifacts b = []) then b else
  let fitting := max_fitting_prefix_len (length (nr_cache_artifacts b)) (λ count,
    nest_report_body_fits (with_artifacts (take count (nr_cache_artifacts b)) false b)) in
  with_artifacts (take fitting (nr_cache_artifacts b)) false b.

Definition trims (priority : NestReportPriority) (b : NestAgentReportRequest) : NestAgentReportRequest :=
  match priority with
  | ActiveBuilds => trim_active_build_reports (trim_rejected_build_reports
      (trim_cache_artifact_reports (trim_ordinary_terminal_reports b)))
  | TerminalBuilds => trim_ordinary_terminal_reports (trim_rejected_build_reports
      (trim_active_build_reports (trim_cache_artifact_reports b)))
  | RejectedBuilds => trim_rejected_build_reports (trim_active_build_reports
      (trim_cache_artifact_reports (trim_ordinary_terminal_reports b)))
  | CacheArtifacts => trim_cache_artifact_reports (trim_rejected_build_reports
      (trim_active_build_reports (trim_ordinary_terminal_reports b)))
  end.

Definition fit_nest_report_body (b : NestAgentReportRequest) (priority : NestReportPriority)
    : Result NestAgentReportRequest :=
  if nest_report_body_fits b then Ok b else
  let b := with_jobs (List.map clear_logs (nr_build_jobs b)) b in
  let b := if nest_report_body_fits b then b else without_findings b in
  let b := trims priority (trim_workstation_multicast_reports b) in
  if nest_report_body_fits b then Ok b
  else bail ("managed nest report base body exceeded " +:+ show max_bytes +:+ " bytes").

(** ** Acceptance *)

(** [.iter().rev().find(p)]. *)
Definition last_such (p : NestBuildJobReport → bool) (jobs : list NestBuildJobReport) : option Z :=
  nb_local_id <$> head (List.filter p (reverse jobs)).

Definition cache_cursor_after (m : ManagedState) (b : NestAgentReportRequest) : option Z * option string * option Z :=
  if (0 <=? nr_cache_inventory_generation b) && negb (is_empty (nr_cache_inventory_instance_id b)) then
    let same_generation :=
      bool_decide (st_cache_report_instance_id m = Some (nr_cache_inventory_instance_id b))
      && bool_decide (st_cache_report_generation m = Some (nr_cache_inventory_generation b)) in
    let cursor := if same_generation then st_cache_artifact_report_cursor m else None in
    let cursor := if nr_cache_artifacts_complete b then None
                  else match last (nr_cache_artifacts b) with
                       | Some artifact => Some (na_local_id artifact)
                       | None => cursor
                       end in
    (cursor, Some (nr_cache_inventory_instance_id b), Some (nr_cache_inventory_generation b))
  else (st_cache_artifact_report_cursor m, st_cache_report_instance_id m, st_cache_report_generation m).

Definition or_cursor (new old : option Z) : option Z := match new with Some c => Some c | None => old end.

Definition advance_nest_report_rotation (m : ManagedState) (b : NestAgentReportRequest) : ManagedState :=
  let '(cursor, instance, generation) := cache_cursor_after m b in {|
  st_private_key_b64 := st_private_key_b64 m; st_public_key_b64 := st_public_key_b64 m;
  st_public_key_fingerprint := st_public_key_fingerprint m; st_device_id := st_device_id m;
  st_last_reported_event_id := st_last_reported_event_id m;
  st_active_report_cursor := or_cursor (last_such is_active (nr_build_jobs b)) (st_active_report_cursor m);
  st_terminal_report_cursor := or_cursor (last_such is_ordinary (nr_build_jobs b)) (st_terminal_report_cursor m);
  st_rejection_report_cursor := or_cursor (last_such is_rejected (nr_build_jobs b)) (st_rejection_report_cursor m);
  st_cache_artifact_report_cursor := cursor; st_cache_report_instance_id := instance;
  st_cache_report_generation := generation;
  st_report_rotation_round := (st_report_rotation_round m + 1) mod 4;
  st_report_warning_fingerprint := st_report_warning_fingerprint m |}.

(** *** The answer of Tiaris *)

Inductive NestReportWarningCode :=
| NestApplianceReportInvalid | NestArtifactReportConflict | NestArtifactReportInvalid
| NestBuildReportConflict | NestBuildReportInvalid | NestCacheReportInvalid | NestDiskReportInvalid
| NestHostReportInvalid | NestReleaseJobIdentityMismatch | NestReleaseSourceContainsProtectedMaterial
| NestReleaseSourceIdentityMismatch | NestReleaseSourceLockMissing | UnknownWarning.

Definition warning_str (c : NestReportWarningCode) : string :=
  match c with
  | NestApplianceReportInvalid => "nest_appliance_report_invalid"
  | NestArtifactReportConflict => "nest_artifact_report_conflict"
  | NestArtifactReportInvalid => "nest_artifact_report_invalid"
  | NestBuildReportConflict => "nest_build_report_conflict"
  | NestBuildReportInvalid => "nest_build_report_invalid"
  | NestCacheReportInvalid => "nest_cache_report_invalid"
  | NestDiskReportInvalid => "nest_disk_report_invalid"
  | NestHostReportInvalid => "nest_host_report_invalid"
  | NestReleaseJobIdentityMismatch => "nest_release_job_identity_mismatch"
  | NestReleaseSourceContainsProtectedMaterial => "nest_release_source_contains_protected_material"
  | NestReleaseSourceIdentityMismatch => "nest_release_source_identity_mismatch"
  | NestReleaseSourceLockMissing => "nest_release_source_lock_missing"
  | UnknownWarning => "unknown"
  end.

Definition KNOWN_WARNINGS : list NestReportWarningCode :=
  [NestApplianceReportInvalid; NestArtifactReportConflict; NestArtifactReportInvalid;
   NestBuildReportConflict; NestBuildReportInvalid; NestCacheReportInvalid; NestDiskReportInvalid;
   NestHostReportInvalid; NestReleaseJobIdentityMismatch; NestReleaseSourceContainsProtectedMaterial;
   NestReleaseSourceIdentityMismatch; NestReleaseSourceLockMissing].

Definition from_untrusted (value : option string) : NestReportWarningCode :=
  default UnknownWarning (value ← value; List.find (λ c, bool_decide (warning_str c = value)) KNOWN_WARNINGS).

Record NestReportWarnings := { nw_codes : list NestReportWarningCode; nw_truncated : bool }.
Definition MAX_NEST_REPORT_WARNING_RECEIPTS : nat := 32.

(** [Deserialize for NestReportWarnings]. *)
Definition decode_warnings (value : Value) : NestReportWarnings :=
  match value with
  | Array receipts => {|
      nw_codes := List.map (λ receipt, from_untrusted (code ← get "diagnostic_code" receipt; as_str code))
                    (take MAX_NEST_REPORT_WARNING_RECEIPTS receipts);
      nw_truncated := (MAX_NEST_REPORT_WARNING_RECEIPTS <? length receipts)%nat |}
  | _ => {| nw_codes := []; nw_truncated := false |}
  end.

Inductive ReceiptState := Accepted | Rejected | Unavailable | UnknownReceipt.
Inductive ReceiptErrorCode := Missing | Invalid | Stale | StorageUnavailable | UnknownError.
Definition receipt_error_str (c : ReceiptErrorCode) : string :=
  match c with
  | Missing => "runtime_report_missing"
  | Invalid => "runtime_report_invalid"
  | Stale => "runtime_report_stale"
  | StorageUnavailable => "runtime_report_storage_unavailable"
  | UnknownError => "runtime_report_receipt_invalid"
  end.

Record NestReportResponse := {
  rr_status : string;
  rr_workstation_netboot : option (ReceiptState * option ReceiptErrorCode);
  rr_warnings : NestReportWarnings;
}.

Definition nest_report_warning_fingerprint (w : NestReportWarnings) : option string :=
  if bool_decide (nw_codes w = []) then None
  else Some ((if nw_truncated w then "true" else "false") +:+ ":"
             +:+ join "," (dedup (merge_sort String.le (List.map warning_str (nw_codes w))))).

Definition with_fingerprint (f : option string) (m : ManagedState) : ManagedState := {|
  st_private_key_b64 := st_private_key_b64 m; st_public_key_b64 := st_public_key_b64 m;
  st_public_key_fingerprint := st_public_key_fingerprint m; st_device_id := st_device_id m;
  st_last_reported_event_id := st_last_reported_event_id m;
  st_active_report_cursor := st_active_report_cursor m;
  st_terminal_report_cursor := st_terminal_report_cursor m;
  st_rejection_report_cursor := st_rejection_report_cursor m;
  st_cache_artifact_report_cursor := st_cache_artifact_report_cursor m;
  st_cache_report_instance_id := st_cache_report_instance_id m;
  st_cache_report_generation := st_cache_report_generation m;
  st_report_rotation_round := st_report_rotation_round m;
  st_report_warning_fingerprint := f |}.

(** Whether the warnings are logged, and the state that remembers them. *)
Definition log_nest_report_warnings (w : NestReportWarnings) (m : ManagedState) : bool * ManagedState :=
  match nest_report_warning_fingerprint w with
  | None => (false, with_fingerprint None m)
  | Some f =>
      if bool_decide (st_report_warning_fingerprint m = Some f) then (false, m)
      else (true, with_fingerprint (Some f) m)
  end.

Definition validate_nest_report_status (r : NestReportResponse) : Result unit :=
  ensure (bool_decide (rr_status r = "ok")) "Tiaris returned an invalid Nest report status".

Definition validate_workstation_netboot_report_receipt (r : NestReportResponse) : Result unit :=
  match rr_workstation_netboot r with
  | None => Ok tt
  | Some (Accepted, None) => Ok tt
  | Some (Rejected, Some code) | Some (Unavailable, Some code) =>
      match code with
      | UnknownError => bail "Tiaris returned an invalid workstation runtime report receipt"
      | _ => bail ("Tiaris did not accept workstation runtime evidence (" +:+ receipt_error_str code +:+ ")")
      end
  | Some _ => bail "Tiaris returned an invalid workstation runtime report receipt"
  end.

(** What is answered to the caller, and the state, which advances as soon as the
    status is good. *)
Definition accept_nest_report_response (r : NestReportResponse) (m : ManagedState) (b : NestAgentReportRequest)
    : Result unit * ManagedState :=
  match validate_nest_report_status r with
  | Err e => (Err e, m)
  | Ok _ =>
      let m := (log_nest_report_warnings (rr_warnings r) (advance_nest_report_rotation m b)).2 in
      (validate_workstation_netboot_report_receipt r, m)
  end.

(** ** The report of a state *)

Section State.
Context {deps : ManageDeps}.

(** The jobs of a report: from the page of the database, those with an identifier that
    Tiaris knows. *)
Definition reported_jobs (m : ManagedState) (page : list BuildJob) : list NestBuildJobReport :=
  select_build_job_reports
    (List.filter (λ job, bool_decide (is_Some (nb_managed_job_id job))) (List.map build_job_report page))
    (st_active_report_cursor m) (st_rejection_report_cursor m) (st_terminal_report_cursor m)
    MAX_REPORT_BUILD_JOBS (from_round (st_report_rotation_round m)).

(** [report_nest_state] from the listed jobs to the body that is sent; [base] is the
    body without its jobs. *)
Definition nest_report_body (m : ManagedState) (page : list BuildJob) (base : NestAgentReportRequest)
    : Result NestAgentReportRequest :=
  fit_nest_report_body (with_jobs (reported_jobs m page) base) (from_round (st_report_rotation_round m)).
End State.

End Body.
Arguments NestAgentReportRequest : clear implicits.

(** *** Multicast receipts *)

Definition workstation_multicast_receipt_matches_sent (receipt : string * Z) (sent_instance_id : string)
    (last_sent_event_id : option Z) : bool :=
  match last_sent_event_id with
  | Some event_id => bool_decide (receipt.1 = sent_instance_id) && (receipt.2 =? event_id)
  | None => false
  end.

(** *** The pace of synchronization *)

Definition cache_inventory_generation_for_peer (generation : Z)
    (cache_listing_valid cache_inventory_valid peer_supports_lane_isolation : bool) : Z :=
  if peer_supports_lane_isolation && (negb cache_listing_valid || negb cache_inventory_valid)
  then -1 else generation.

Definition TIARIS_DETECTED_COMMITS_PROTOCOL_VERSION : Z := 5.
Definition negotiated_report_protocol (contract : option ComponentCompatibilityContract) : Z :=
  match contract with
  | Some c =>
      if (cc_minimum_nest_protocol c <=? TIARIS_DETECTED_COMMITS_PROTOCOL_VERSION)
         && (TIARIS_DETECTED_COMMITS_PROTOCOL_VERSION <=? cc_maximum_nest_protocol c)
      then TIARIS_DETECTED_COMMITS_PROTOCOL_VERSION else TIARIS_COMPONENT_PROTOCOL_VERSION
  | None => TIARIS_COMPONENT_PROTOCOL_VERSION
  end.

Definition managed_sync_interval_seconds (sync_interval_seconds : Z) : Z := clamp 5 3600 sync_interval_seconds.
Definition active_managed_sync_interval_seconds (normal_interval : Z) (has_active_builds : bool) : Z :=
  if has_active_builds then Z.min normal_interval 5 else normal_interval.
Definition failed_sync_interval_seconds (sync_interval_seconds consecutive_failures : Z) : Z :=
  let normal := clamp 5 3600 sync_interval_seconds in
  let exponent := Z.min (Z.max 0 (consecutive_failures - 1)) 10 in
  clamp 5 (Z.max normal 5) (5 * Z.shiftl 1 exponent).
