(* ===== verification/ManagedReportProofs.v ===== *)
(** * Management: every job is reported

    The rotation behind a cursor, what is left of a group after selection and cutting,
    and the liveness that follows: no managed build job is starved, whatever else is
    reported and however large. *)

From stdpp Require Import sorting base gmap list strings.
From Stdlib Require Import Ascii ZArith Lia.
From S2P Require Import Prelude Async RustStr Json DbText Boot BuildJobs BuildJobsProofs CacheArtifacts BuildJobsTheorems MulticastHandlers ManagedBoot ManagedSync ManagedReport.

#[local] Open Scope Z_scope.
#[local] Open Scope nest_scope.

(** ** The rotation *)

(** The order of identifiers behind a cursor: older ones first, newest first in each turn. *)
Definition turn (cursor : option Z) (id : Z) : Z :=
  match cursor with None => 0 | Some c => if id <? c then 0 else 1 end.
Definition rotated (cursor : option Z) (x y : Z) : Prop :=
  turn cursor x < turn cursor y ∨ (turn cursor x = turn cursor y ∧ y ≤ x).

#[global] Instance rotated_trans cursor : Transitive (rotated cursor).
Proof. intros x y z. unfold rotated. lia. Qed.
#[global] Instance rotated_antisymm cursor : AntiSymm (=) (rotated cursor).
Proof. intros x y. unfold rotated. lia. Qed.

(** How far an identifier is behind the cursor, among those of [universe]. *)
Definition between (cursor : option Z) (x u : Z) : bool := bool_decide (rotated cursor u x).
Definition distance (universe : list Z) (cursor : option Z) (x : Z) : nat :=
  length (List.filter (between cursor x) universe).

Lemma filter_length_le {A} (p : A → bool) l : (length (List.filter p l) ≤ length l)%nat.
Proof. induction l as [|a l IH]; simpl; [lia|]. destruct (p a); simpl; lia. Qed.

Lemma filter_length_split {A} (p q r : A → bool) l :
  (∀ a, p a = true → q a = true → False) → (∀ a, p a = true → r a = true) → (∀ a, q a = true → r a = true) →
  (length (List.filter p l) + length (List.filter q l) ≤ length (List.filter r l))%nat.
Proof.
  intros Hd Hp Hq. induction l as [|a l IH]; simpl; [lia|]. specialize (Hd a). specialize (Hp a). specialize (Hq a).
  destruct (p a), (q a), (r a); simpl; try lia; intuition congruence.
Qed.

Lemma nodup_length_filter (l universe : list Z) :
  NoDup l → (∀ u, u ∈ l → u ∈ universe) → (length l ≤ length (List.filter (λ u, bool_decide (u ∈ l)) universe))%nat.
Proof.
  intros Hn Hin. apply submseteq_length, NoDup_submseteq; [done|].
  intros u Hu. rewrite list_elem_of_In, filter_In, <-list_elem_of_In. split; [by apply Hin|by apply bool_decide_eq_true].
Qed.

(** What is sent in front of [x] brings the cursor nearer to it. *)
Lemma distance_decreases universe cursor l k x c' :
  NoDup l → StronglySorted (rotated cursor) l → (∀ u, u ∈ l → u ∈ universe) → x ∈ l →
  x ∉ take k l → last (take k l) = Some c' →
  (distance universe (Some c') x + length (take k l) ≤ distance universe cursor x)%nat.
Proof.
  intros Hn Hs Hu Hx Hout Hlast. rewrite <-(take_drop k l) in Hn, Hs, Hx.
  apply elem_of_app in Hx as [?|Hx]; [done|]. apply NoDup_app in Hn as (Hn & Hdis & _).
  assert (∀ y, y ∈ take k l → rotated cursor y x ∧ y ≠ x) as Hbefore.
  { intros y Hy. split; [by eapply StronglySorted_app_1_elem_of|]. by intros ->. }
  apply last_Some in Hlast as [l' El].
  assert (∀ y, y ∈ take k l → rotated cursor y c') as Hc'.
  { intros y Hy. apply StronglySorted_app_1_l in Hs. rewrite El in Hs, Hy.
    apply elem_of_app in Hy as [Hy|Hy]; [|apply list_elem_of_singleton in Hy as ->; unfold rotated; lia].
    eapply StronglySorted_app_1_elem_of; [exact Hs|done|apply list_elem_of_here]. }
  assert (c' ∈ take k l) as Hc'in by (rewrite El; apply elem_of_app; right; apply list_elem_of_here).
  destruct (Hbefore c' Hc'in) as [Hcx Hne].
  etrans; [apply Nat.add_le_mono_l, (nodup_length_filter _ universe); [done|]|].
  { intros u Hin. apply Hu. by eapply subseteq_take. }
  apply filter_length_split.
  - intros u Hb Hin%bool_decide_eq_true. apply bool_decide_eq_true in Hb. specialize (Hc' u Hin).
    destruct (Hbefore u Hin) as [Hux Hneu]. unfold rotated, turn in *.
    destruct cursor as [c|]; repeat case_match; bool_prop; lia.
  - intros u Hb. unfold between in *. apply bool_decide_eq_true in Hb. apply bool_decide_eq_true.
    unfold rotated, turn in *. destruct cursor as [c|]; repeat case_match; bool_prop; lia.
  - intros u Hin%bool_decide_eq_true. apply bool_decide_eq_true. by apply Hbefore.
Qed.

Section Rotation.
Context {T : Type} (local_id : T → Z).

#[local] Instance newest_first_total : Total (newest_first local_id).
Proof. intros x y. unfold newest_first. lia. Qed.
#[local] Instance newest_first_trans : Transitive (newest_first local_id).
Proof. intros x y z. unfold newest_first. lia. Qed.

Lemma partition_point_spec (p : T → bool) l :
  let k := partition_point p l in
  (k ≤ length l)%nat ∧ (∀ x, x ∈ take k l → p x = true) ∧
  (∀ x, head (drop k l) = Some x → p x = false).
Proof.
  induction l as [|a l IH]; simpl; [split_and!; [lia|by intros x Hx%not_elem_of_nil|done]|].
  destruct (p a) eqn:E; simpl.
  - destruct IH as (? & H1 & H2). split_and!; [lia| |done]. intros x [->|Hx]%elem_of_cons; auto.
  - split_and!; [lia|by intros x Hx%not_elem_of_nil|]. by intros x [= <-].
Qed.

Lemma fmap_sorted (R : Z → Z → Prop) l :
  StronglySorted (λ x y, R (local_id x) (local_id y)) l → StronglySorted R (local_id <$> l).
Proof.
  induction 1 as [|x l Hs IH Hall]; simpl; constructor; [done|]. by apply Forall_fmap.
Qed.

Lemma rotate_Permutation items cursor :
  rotate_report_items_after_cursor local_id items cursor ≡ₚ items.
Proof.
  unfold rotate_report_items_after_cursor. destruct cursor as [c|]; [|apply merge_sort_Permutation].
  destruct (_ <? _)%nat; [|apply merge_sort_Permutation].
  rewrite (Permutation_app_comm (drop _ _)), take_drop. apply merge_sort_Permutation.
Qed.

Lemma StronglySorted_app_2 {A} (R : relation A) l1 l2 :
  StronglySorted R l1 → StronglySorted R l2 → (∀ x y, x ∈ l1 → y ∈ l2 → R x y) → StronglySorted R (l1 ++ l2).
Proof.
  intros H1 H2 H. induction H1 as [|x l1 Hs IH Hall]; [done|]. simpl. constructor.
  - apply IH. intros a b Ha. apply H. by apply elem_of_cons; right.
  - apply Forall_app. split; [done|]. apply Forall_forall. intros y Hy. apply H; [apply list_elem_of_here|done].
Qed.

Lemma StronglySorted_mono_elem {A} (R R' : relation A) l :
  (∀ x y, x ∈ l → y ∈ l → R x y → R' x y) → StronglySorted R l → StronglySorted R' l.
Proof.
  intros H Hs. induction Hs as [|x l Hs IH Hall]; constructor.
  - apply IH. intros a b Ha Hb. apply H; by apply elem_of_cons; right.
  - apply Forall_forall. intros y Hy. apply H; [apply list_elem_of_here|by apply elem_of_cons; right|].
    by eapply Forall_forall in Hall.
Qed.

Lemma rotate_sorted items cursor :
  StronglySorted (rotated cursor) (local_id <$> rotate_report_items_after_cursor local_id items cursor).
Proof.
  apply fmap_sorted. unfold rotate_report_items_after_cursor.
  assert (StronglySorted (newest_first local_id) (merge_sort (newest_first local_id) items)) as Hs
    by (apply StronglySorted_merge_sort; apply _).
  set (l := merge_sort _ items) in *. clearbody l.
  destruct cursor as [c|]; [|eapply StronglySorted_mono_elem; [|exact Hs]; intros; by right].
  destruct (partition_point_spec (λ item, c <=? local_id item) l) as (Hk & Htake & Hdrop).
  set (k := partition_point _ l) in *. clearbody k.
  rewrite <-(take_drop k l) in Hs.
  assert (∀ y, y ∈ drop k l → local_id y < c) as Hlow.
  { intros y Hy. destruct (drop k l) as [|z rest] eqn:Ed; [by apply not_elem_of_nil in Hy|].
    specialize (Hdrop z eq_refl). simpl in Hdrop. bool_prop.
    apply StronglySorted_app_1_r in Hs. inversion_clear Hs as [|? ? _ Hall].
    apply elem_of_cons in Hy as [->|Hy]; [done|]. eapply Forall_forall in Hall; [|done].
    unfold newest_first in Hall. lia. }
  assert (∀ y, y ∈ take k l → c ≤ local_id y) as Hhigh.
  { intros y Hy. specialize (Htake y Hy). simpl in Htake. by bool_prop. }
  pose proof (StronglySorted_app_1_l _ _ _ Hs) as H1. pose proof (StronglySorted_app_1_r _ _ _ Hs) as H2.
  assert (∀ x y, local_id x < c → local_id y < c → newest_first local_id x y → rotated (Some c) (local_id x) (local_id y)) as Hll.
  { intros x y Hx Hy H. right. unfold turn, newest_first in *.
    by rewrite !(proj2 (Z.ltb_lt _ _)) by done. }
  assert (∀ x y, c ≤ local_id x → c ≤ local_id y → newest_first local_id x y → rotated (Some c) (local_id x) (local_id y)) as Hhh.
  { intros x y Hx Hy H. right. unfold turn, newest_first in *.
    by rewrite !(proj2 (Z.ltb_ge _ _)) by done. }
  destruct (Nat.ltb_spec k (length l)).
  - apply StronglySorted_app_2; [eapply StronglySorted_mono_elem; [|exact H2]; auto|
      eapply StronglySorted_mono_elem; [|exact H1]; auto|].
    intros x y Hx%Hlow Hy%Hhigh. left. unfold turn.
    rewrite (proj2 (Z.ltb_lt _ _)), (proj2 (Z.ltb_ge _ _)) by lia. lia.
  - rewrite take_ge in H1, Hhigh by lia. eapply StronglySorted_mono_elem; [|exact H1]; auto.
Qed.

(** A list that is already in the order is left, by its identifiers. *)
Lemma rotate_id items cursor :
  StronglySorted (rotated cursor) (local_id <$> items) →
  local_id <$> rotate_report_items_after_cursor local_id items cursor = local_id <$> items.
Proof.
  intros Hs. eapply StronglySorted_unique; [apply _|apply rotate_sorted|exact Hs|].
  by rewrite rotate_Permutation.
Qed.
End Rotation.

(** ** The selection *)

(** The groups, as [select_build_job_reports] and the report page number them. *)
Definition in_group (g : nat) (j : NestBuildJobReport) : bool :=
  match g with
  | O => is_active j
  | S O => negb (is_active j) && is_rejected j
  | _ => negb (is_active j) && negb (is_rejected j)
  end.
Abbreviation group g l := (List.filter (in_group g) l).
Abbreviation ids l := (nb_local_id <$> l).

Lemma in_group_unique g g' j : (g < 3)%nat → (g' < 3)%nat → in_group g j = true → in_group g' j = true → g = g'.
Proof.
  intros. destruct g as [|[|[|]]], g' as [|[|[|]]]; try lia; unfold in_group in *;
    destruct (is_active j), (is_rejected j); done.
Qed.

Lemma filter_all {A} (p : A → bool) l : (∀ x, x ∈ l → p x = true) → List.filter p l = l.
Proof.
  induction l as [|a l IH]; intros H; simpl; [done|]. rewrite (H a) by apply list_elem_of_here.
  f_equal. apply IH. intros x Hx. apply H. by apply elem_of_cons; right.
Qed.
Lemma filter_none {A} (p : A → bool) l : (∀ x, x ∈ l → p x = false) → List.filter p l = [].
Proof.
  induction l as [|a l IH]; intros H; simpl; [done|]. rewrite (H a) by apply list_elem_of_here.
  apply IH. intros x Hx. apply H. by apply elem_of_cons; right.
Qed.
Lemma elem_of_listfilter {A} (p : A → bool) l x : x ∈ List.filter p l ↔ x ∈ l ∧ p x = true.
Proof. by rewrite !list_elem_of_In, filter_In. Qed.

(** What is taken only grows. *)
Abbreviation taken t g := (default 0%nat (tk_take t !! g)).

Lemma take_one_mono lengths max t g h : (taken t h ≤ taken (take_one lengths max t g) h)%nat.
Proof.
  unfold take_one. destruct (_ =? _)%nat; [lia|]. destruct (_ <? _)%nat; [|lia]. simpl.
  destruct (decide (g = h)) as [->|]; [rewrite list_lookup_alter_eq|by rewrite list_lookup_alter_ne].
  destruct (tk_take t !! h); simpl; lia.
Qed.
Lemma take_fold_mono lengths max order t h :
  (taken t h ≤ taken (fold_left (take_one lengths max) order t) h)%nat.
Proof.
  revert t. induction order as [|g order IH]; intros t; simpl; [lia|]. etrans; [apply take_one_mono|apply IH].
Qed.
Lemma take_round_mono lengths max order t h : (taken t h ≤ taken (take_round lengths max order t) h)%nat.
Proof. unfold take_round. etrans; [|apply take_fold_mono]. done. Qed.
Lemma take_loop_mono fuel lengths max order t h : (taken t h ≤ taken (take_loop fuel lengths max order t) h)%nat.
Proof.
  revert t. induction fuel as [|fuel IH]; intros t; simpl; [lia|]. destruct (_ <=? _)%nat; [lia|].
  destruct (tk_progressed _); [etrans; [apply (take_round_mono lengths max order)|apply IH]|apply take_round_mono].
Qed.

(** The group that has the turn is given a job when it has one. *)
Lemma take_loop_first fuel lengths max order g :
  (0 < fuel)%nat → (0 < max)%nat → (g < 3)%nat → (0 < default 0 (lengths !! g))%nat →
  (1 ≤ taken (take_loop fuel lengths max (g :: order)
     {| tk_take := [0; 0; 0]; tk_selected := 0; tk_progressed := false |}) g)%nat.
Proof.
  intros Hf Hm Hg Hl. destruct fuel as [|fuel]; [lia|]. cbn [take_loop tk_selected].
  destruct (Nat.leb_spec max 0); [lia|].
  assert (1 ≤ taken (take_round lengths max (g :: order)
     {| tk_take := [0; 0; 0]; tk_selected := 0; tk_progressed := false |}) g)%nat as H1.
  { unfold take_round. cbn [fold_left tk_take tk_selected].
    etrans; [|apply take_fold_mono]. unfold take_one. cbn [tk_selected tk_take].
    destruct (Nat.eqb_spec 0 max); [lia|].
    destruct g as [|[|[|]]]; try lia; cbn [lookup list_lookup default] in *;
      (rewrite (proj2 (Nat.ltb_lt _ _)) by exact Hl); simpl; lia. }
  destruct (tk_progressed _); [etrans; [exact H1|apply take_loop_mono]|exact H1].
Qed.

(** The cursor of each group. *)
Definition cursor_for (m : ManagedState) (g : nat) : option Z :=
  group_cursor (st_active_report_cursor m) (st_rejection_report_cursor m) (st_terminal_report_cursor m) g.

Abbreviation rotate := (rotate_report_items_after_cursor nb_local_id).

Lemma rotate_elem l c x : x ∈ rotate l c ↔ x ∈ l.
Proof. by rewrite (rotate_Permutation nb_local_id). Qed.

Lemma group_take_rotate g g' k l c :
  (g < 3)%nat → (g' < 3)%nat →
  group g (take k (rotate (group g' l) c)) = if decide (g = g') then take k (rotate (group g' l) c) else [].
Proof.
  intros Hg Hg'. destruct (decide (g = g')) as [->|Hne].
  - apply filter_all. intros x Hx%subseteq_take. apply rotate_elem in Hx. by apply elem_of_listfilter in Hx as [_ ?].
  - apply filter_none. intros x Hx%subseteq_take. apply rotate_elem, elem_of_listfilter in Hx as [_ Hx].
    destruct (in_group g x) eqn:E; [|done]. destruct Hne. by eapply in_group_unique.
Qed.

(** In every group a selection is a prefix of its rotation, and the group with the
    turn is not left out. *)
Lemma select_group reports a r t max priority g :
  (g < 3)%nat →
  ∃ k, group g (select_build_job_reports reports a r t max priority)
       = take k (rotate (group g reports) (group_cursor a r t g)) ∧
       ((0 < max)%nat → head (build_group_order priority) = Some g → group g reports ≠ [] → (0 < k)%nat).
Proof.
  intros Hg. unfold select_build_job_reports.
  change (List.filter is_active reports) with (group 0 reports).
  change (List.filter (λ r, negb (is_active r) && is_rejected r) reports) with (group 1 reports).
  change (List.filter (λ r, negb (is_active r) && negb (is_rejected r)) reports) with (group 2 reports).
  set (lengths := [length (rotate (group 0 reports) a); length (rotate (group 1 reports) r);
                   length (rotate (group 2 reports) t)]).
  set (taking := take_loop max lengths max _ _). rewrite !List.filter_app, !group_take_rotate by lia.
  assert (∀ order, build_group_order priority = g :: order → (0 < max)%nat → group g reports ≠ [] →
    (0 < taken taking g)%nat) as Hfirst.
  { intros order E Hm Hne. unfold taking. rewrite E. apply take_loop_first; [done|done|done|].
    assert (∀ c, (0 < length (rotate (group g reports) c))%nat) as Hlen.
    { intros c. rewrite (Permutation_length (rotate_Permutation nb_local_id _ c)).
      destruct (group g reports); [done|simpl; lia]. }
    unfold lengths. destruct g as [|[|[|]]]; try lia; apply Hlen. }
  exists (taken taking g). split.
  - destruct g as [|[|[|]]]; try lia; simpl; by rewrite ?app_nil_r.
  - intros Hm Hhead Hne. destruct (build_group_order priority) as [|g' order] eqn:E; [done|].
    injection Hhead as ->. by eapply Hfirst.
Qed.

(** ** The cutting *)

Section Cutting.
Context {Rest Finding : Type} (to_vec : NestAgentReportRequest Rest Finding → string) (max_bytes : Z).
Abbreviation body := (NestAgentReportRequest Rest Finding).
Abbreviation fits := (nest_report_body_fits to_vec max_bytes).

Lemma remove_last_Some p jobs jobs' :
  remove_last p jobs = Some jobs' →
  ∃ l1 x l2, jobs = l1 ++ x :: l2 ∧ p x = true ∧ (∀ y, y ∈ l2 → p y = false) ∧ jobs' = l1 ++ l2.
Proof.
  unfold remove_last. set (q := λ j, negb (p j)).
  destruct (partition_point_spec q (reverse jobs)) as (Hk & Htake & Hdrop).
  set (k := partition_point q (reverse jobs)) in *. clearbody k. rewrite length_reverse in Hk.
  destruct (Nat.ltb_spec k (length jobs)) as [Hlt|]; [|done]. intros [= <-].
  assert (jobs = take (length jobs - S k) jobs ++ drop (length jobs - S k) jobs) as E by by rewrite take_drop.
  destruct (drop (length jobs - S k) jobs) as [|x l2] eqn:Ed.
  { apply (f_equal length) in Ed. rewrite length_drop in Ed. simpl in Ed. lia. }
  assert (drop (length jobs - k) jobs = l2) as Ed2.
  { replace (length jobs - k)%nat with (1 + (length jobs - S k))%nat by lia.
    rewrite Nat.add_comm, <-drop_drop, Ed. done. }
  exists (take (length jobs - S k) jobs), x, l2. rewrite Ed2.
  assert (length l2 = k) as Hl2 by (rewrite <-Ed2, length_drop; lia).
  assert (reverse jobs = reverse l2 ++ x :: reverse (take (length jobs - S k) jobs)) as Er.
  { rewrite E at 1. rewrite reverse_app, reverse_cons, <-app_assoc. done. }
  split_and!; [done| | |done].
  - specialize (Hdrop x). rewrite Er, drop_app_length' in Hdrop by (by rewrite length_reverse).
    specialize (Hdrop eq_refl). unfold q in Hdrop. by apply negb_false_iff in Hdrop.
  - intros y Hy. specialize (Htake y). rewrite Er, take_app_length' in Htake by (by rewrite length_reverse).
    apply negb_true_iff, Htake. by apply elem_of_reverse.
Qed.

Lemma remove_last_None p jobs : remove_last p jobs = None → ∀ y, y ∈ jobs → p y = false.
Proof.
  unfold remove_last. set (q := λ j, negb (p j)).
  destruct (partition_point_spec q (reverse jobs)) as (Hk & Htake & _).
  set (k := partition_point q (reverse jobs)) in *. clearbody k. rewrite length_reverse in Hk.
  destruct (Nat.ltb_spec k (length jobs)); [done|]. intros _ y Hy. apply negb_true_iff.
  apply (Htake y). rewrite take_ge by (rewrite length_reverse; lia). by apply elem_of_reverse.
Qed.

(** What trimming the jobs of [p] leaves. *)
Record trimmed (p : NestBuildJobReport → bool) (b b' : body) : Prop := {
  tr_jobs : b' = with_jobs (nr_build_jobs b') b;
  tr_sub : ∀ y, y ∈ nr_build_jobs b' → y ∈ nr_build_jobs b;
  tr_other q : (∀ y, y ∈ nr_build_jobs b → q y = true → p y = false) →
    List.filter q (nr_build_jobs b') = List.filter q (nr_build_jobs b);
  tr_prefix q : (∀ y, y ∈ nr_build_jobs b → p y = q y) →
    List.filter q (nr_build_jobs b') `prefix_of` List.filter q (nr_build_jobs b);
  tr_done : fits b' = true ∨ ∀ y, y ∈ nr_build_jobs b' → p y = false;
  tr_noop : fits b = true → b' = b;
}.

Lemma with_jobs_eta (b : body) : b = with_jobs (nr_build_jobs b) b.
Proof. by destruct b. Qed.

Lemma trim_jobs_loop_spec fuel p b :
  (length (nr_build_jobs b) ≤ fuel)%nat → trimmed p b (trim_jobs_loop to_vec max_bytes fuel p b).
Proof.
  revert b. induction fuel as [|fuel IH]; intros b Hf; simpl.
  { split; try done; [apply with_jobs_eta|]. right. destruct (nr_build_jobs b); [|simpl in Hf; lia].
    by intros y Hy%not_elem_of_nil. }
  destruct (fits b) eqn:E; [split; try done; [apply with_jobs_eta|by left]|].
  destruct (remove_last p (nr_build_jobs b)) as [jobs'|] eqn:Er.
  - apply remove_last_Some in Er as (l1 & x & l2 & Ej & Hx & Hl2 & ->).
    assert (length (nr_build_jobs (with_jobs (l1 ++ l2) b)) ≤ fuel)%nat as Hf'.
    { rewrite Ej, length_app in Hf. simpl in *. rewrite length_app. lia. }
    destruct (IH _ Hf') as [J S O P D _]. cbn [nr_build_jobs with_jobs] in *.
    set (b' := trim_jobs_loop _ _ _ _ _) in *. clearbody b'.
    assert (∀ y, y ∈ l1 ++ l2 → y ∈ nr_build_jobs b) as Hsub.
    { intros y Hy. rewrite Ej. rewrite elem_of_app in *. rewrite elem_of_cons. tauto. }
    split; [by rewrite J| | | |done|congruence].
    + auto.
    + intros q Hq. rewrite O by auto. rewrite Ej, !List.filter_app. simpl.
      destruct (q x) eqn:Eq; [|done]. rewrite (Hq x) in Hx; [done| |done].
      rewrite Ej. apply elem_of_app. right. apply list_elem_of_here.
    + intros q Hq. etrans; [by apply P; auto|]. rewrite Ej, !List.filter_app. simpl.
      rewrite <-(Hq x), Hx by (rewrite Ej; apply elem_of_app; right; apply list_elem_of_here).
      rewrite (filter_none q l2); [apply prefix_app, prefix_nil|].
      intros y Hy. rewrite <-Hq, (Hl2 y Hy); [done|]. rewrite Ej. apply elem_of_app. right.
      by apply elem_of_cons; right.
  - split; try done; [apply with_jobs_eta|]. right. by apply remove_last_None.
Qed.

Lemma trim_jobs_spec p b : trimmed p b (trim_jobs to_vec max_bytes p b).
Proof. by apply trim_jobs_loop_spec. Qed.

(** The first job stays when the body with it alone fits. *)
Lemma trim_jobs_keeps_first p b x rest :
  nr_build_jobs b = x :: rest → (∀ y, y ∈ nr_build_jobs b → p y = true) → fits (with_jobs [x] b) = true →
  ∃ rest', nr_build_jobs (trim_jobs to_vec max_bytes p b) = x :: rest'.
Proof.
  unfold trim_jobs. generalize (length (nr_build_jobs b)). intros fuel. revert b rest.
  induction fuel as [|fuel IH]; intros b rest Ej Hp Hfit; simpl; [eauto|].
  destruct (fits b) eqn:E; [eauto|]. destruct (remove_last p (nr_build_jobs b)) as [jobs'|] eqn:Er; [|eauto].
  apply remove_last_Some in Er as (l1 & y & l2 & Ej2 & _ & Hl2 & ->).
  assert (l2 = []) as ->.
  { destruct l2 as [|z l2]; [done|]. specialize (Hl2 z (list_elem_of_here _ _)). rewrite Hp in Hl2; [done|].
    rewrite Ej2. apply elem_of_app. right. apply elem_of_cons. right. apply list_elem_of_here. }
  rewrite app_nil_r. rewrite Ej in Ej2. destruct l1 as [|z l1]; simpl in Ej2; injection Ej2 as -> Er'.
  - rewrite Er' in Ej. rewrite <-Ej, <-with_jobs_eta in Hfit. congruence.
  - apply (IH _ l1); [done| |done]. simpl. intros w Hw. apply Hp. rewrite Ej, Er'.
    apply elem_of_cons in Hw as [->|Hw]; [apply list_elem_of_here|].
    apply elem_of_cons. right. apply elem_of_app. by left.
Qed.

(** *** The other parts *)

Lemma trim_multicast_spec b :
  let b' := trim_workstation_multicast_reports to_vec max_bytes b in
  ∃ k, b' = with_multicast ((λ r, with_event_list (take k (rp_events r)) r) <$> nr_workstation_multicast b) b ∧
    (fits b' = true ∨ ∀ r, nr_workstation_multicast b' = Some r → rp_events r = []) ∧
    (fits b = true → b' = b).
Proof.
  cbn zeta. unfold trim_workstation_multicast_reports.
  assert (∀ fuel c, (match nr_workstation_multicast c with Some r => length (rp_events r) | None => 0 end ≤ fuel)%nat →
    let b' := trim_multicast_loop to_vec max_bytes fuel c in
    ∃ k, b' = with_multicast ((λ r, with_event_list (take k (rp_events r)) r) <$> nr_workstation_multicast c) c ∧
      (fits b' = true ∨ ∀ r, nr_workstation_multicast b' = Some r → rp_events r = []) ∧
      (fits c = true → b' = c)) as H; [|by apply H].
  assert (∀ c : body, ∃ k, c = with_multicast ((λ r, with_event_list (take k (rp_events r)) r) <$> nr_workstation_multicast c) c) as Hid.
  { intros c. exists (match nr_workstation_multicast c with Some r => length (rp_events r) | None => 0%nat end).
    destruct c as [? ? ? ? ? [[]|] ? ?]; simpl; unfold with_event_list; simpl; rewrite ?firstn_all; done. }
  induction fuel as [|fuel IH]; intros c Hf; simpl.
  { destruct (Hid c) as [k Ek]. exists k. split_and!; [done| |done]. right. intros r Er. rewrite Er in Hf.
    destruct (rp_events r); [done|simpl in Hf; lia]. }
  destruct (fits c) eqn:E; [destruct (Hid c) as [k Ek]; exists k; split_and!; [done|by left|done]|].
  destruct (nr_workstation_multicast c) as [r|] eqn:Em.
  2: { destruct (Hid c) as [k Ek]. exists k. rewrite Em in Ek. split_and!; [done|right; by rewrite Em|done]. }
  case_bool_decide as Ee.
  { destruct (Hid c) as [k Ek]. exists k. rewrite Em in Ek. split_and!; [done| |done]. right. rewrite Em.
    by intros r' [= <-]. }
  destruct (rp_events r) as [|e es] eqn:Ers; [done|].
  set (c' := with_multicast _ c). destruct (IH c') as (k & Ek & Hk & _).
  { simpl. rewrite length_take. simpl in Hf. simpl. lia. }
  exists (min k (length es)). split_and!; [|exact Hk|done]. rewrite Ek.
  unfold c', with_multicast, with_event_list.
  cbn [nr_workstation_multicast fmap option_fmap option_map rp_events]. rewrite take_take, Ers. done.
Qed.

Lemma trim_cache_spec b :
  let b' := trim_cache_artifact_reports to_vec max_bytes b in
  (b' = b ∨ ∃ k, b' = with_artifacts (take k (nr_cache_artifacts b)) false b) ∧
  (fits b' = true ∨ nr_cache_artifacts b' = []) ∧ (fits b = true → b' = b).
Proof.
  cbn zeta. unfold trim_cache_artifact_reports. destruct (fits b) eqn:E; simpl; [auto|].
  case_bool_decide as Ea; [auto|].
  set (f := λ count, fits (with_artifacts (take count (nr_cache_artifacts b)) false b)).
  destruct (max_fitting_prefix_len_spec (length (nr_cache_artifacts b)) f) as (_ & Hk & _).
  set (k := max_fitting_prefix_len _ f) in *. split_and!; [by eauto| |done].
  destruct Hk as [->|Hk]; [by right|by left].
Qed.

(** *** All together *)

(** Only finished jobs have a rejection code. *)
Definition codes_terminal (jobs : list NestBuildJobReport) : Prop :=
  ∀ j, j ∈ jobs → is_rejected j = true → is_active j = false.

Definition trim_pred (h : nat) : NestBuildJobReport → bool :=
  match h with O => is_active | S O => is_rejected | _ => is_ordinary end.

Lemma trim_pred_group jobs h j :
  codes_terminal jobs → j ∈ jobs → trim_pred h j = in_group h j.
Proof.
  intros Hc Hj. specialize (Hc j Hj). destruct h as [|[|h]]; simpl; [done|..].
  - destruct (is_rejected j), (is_active j); naive_solver.
  - unfold is_ordinary, is_active. by rewrite negb_involutive.
Qed.

(** What a part of the cutting leaves of a body. *)
Record cut_from (b b' : body) : Prop := {
  cf_group g : (g < 3)%nat → group g (nr_build_jobs b') `prefix_of` group g (nr_build_jobs b);
  cf_sub j : j ∈ nr_build_jobs b' → j ∈ nr_build_jobs b;
  cf_artifacts : nr_cache_artifacts b' `prefix_of` nr_cache_artifacts b;
  cf_complete : nr_cache_artifacts_complete b' = true →
    nr_cache_artifacts_complete b = true ∧ nr_cache_artifacts b' = nr_cache_artifacts b;
  cf_same : nr_cache_inventory_instance_id b' = nr_cache_inventory_instance_id b ∧
    nr_cache_inventory_generation b' = nr_cache_inventory_generation b ∧ nr_rest b' = nr_rest b;
}.

#[local] Instance cut_from_preorder : PreOrder cut_from.
Proof.
  split; [by split|]. intros b1 b2 b3 [G1 S1 A1 C1 (I1 & N1 & R1)] [G2 S2 A2 C2 (I2 & N2 & R2)]. split.
  - intros g Hg. etrans; [by apply G2|by apply G1].
  - auto.
  - by etrans.
  - intros Hc. destruct (C2 Hc) as [Hc2 E2]. destruct (C1 Hc2) as [Hc1 E1]. split; [done|congruence].
  - split_and!; congruence.
Qed.

Lemma codes_terminal_cut b b' : cut_from b b' → codes_terminal (nr_build_jobs b) → codes_terminal (nr_build_jobs b').
Proof. intros H Hc j Hj. apply Hc, H, Hj. Qed.

(** In a step of the cutting that spares group [g], what fits is left, and the rest is
    cut on only when something remains. *)
Record spares (g : nat) (b b' : body) : Prop := {
  sp_cut : cut_from b b';
  sp_noop : fits b = true → b' = b;
  sp_group : group g (nr_build_jobs b') = group g (nr_build_jobs b);
  sp_parts : nr_workstation_multicast b' = nr_workstation_multicast b ∧
    nr_software_update_findings b' = nr_software_update_findings b;
}.

#[local] Instance spares_trans g : Transitive (spares g).
Proof.
  intros b1 b2 b3 [K1 N1 G1 (M1 & F1)] [K2 N2 G2 (M2 & F2)]. split; [by etrans| |congruence|split; congruence].
  intros Hf. rewrite N2; [by apply N1|by rewrite N1].
Qed.

Lemma trim_group_cut h b :
  (h < 3)%nat → codes_terminal (nr_build_jobs b) → cut_from b (trim_jobs to_vec max_bytes (trim_pred h) b).
Proof.
  intros Hh Hc. destruct (trim_jobs_spec (trim_pred h) b) as [J S O P _ _].
  set (b' := trim_jobs _ _ _ b) in *. clearbody b'. split; [|done|by rewrite J|by rewrite J|by rewrite J].
  intros g Hg. destruct (decide (g = h)) as [->|Hne].
  - apply P. intros y Hy. by apply (trim_pred_group (nr_build_jobs b)).
  - rewrite O; [done|]. intros y Hy Hin. rewrite (trim_pred_group _ _ _ Hc Hy).
    destruct (in_group h y) eqn:E; [|done]. destruct Hne. by eapply in_group_unique.
Qed.

Lemma trim_group_spares h g b :
  (h < 3)%nat → (g < 3)%nat → g ≠ h → codes_terminal (nr_build_jobs b) →
  spares g b (trim_jobs to_vec max_bytes (trim_pred h) b) ∧
  (fits (trim_jobs to_vec max_bytes (trim_pred h) b) = true ∨
   group h (nr_build_jobs (trim_jobs to_vec max_bytes (trim_pred h) b)) = []).
Proof.
  intros Hh Hg Hne Hc. pose proof (trim_group_cut h b Hh Hc) as Hcut.
  destruct (trim_jobs_spec (trim_pred h) b) as [J S O P D N]. set (b' := trim_jobs _ _ _ b) in *. clearbody b'.
  split; [split; [done|done| |by rewrite J]|].
  - apply O. intros y Hy Hin. rewrite (trim_pred_group _ _ _ Hc Hy).
    destruct (in_group h y) eqn:E; [|done]. destruct Hne. by eapply in_group_unique.
  - destruct D as [D|D]; [by left|right]. apply filter_none. intros y Hy. rewrite <-(D y Hy). symmetry.
    apply (trim_pred_group (nr_build_jobs b)); auto.
Qed.

Lemma trim_cache_spares g b :
  spares g b (trim_cache_artifact_reports to_vec max_bytes b) ∧
  (fits (trim_cache_artifact_reports to_vec max_bytes b) = true ∨
   nr_cache_artifacts (trim_cache_artifact_reports to_vec max_bytes b) = []).
Proof.
  destruct (trim_cache_spec b) as (E & D & N). split; [|done]. set (b' := trim_cache_artifact_reports _ _ b) in *.
  clearbody b'. split; [|done|by destruct E as [->|[k ->]]|by destruct E as [->|[k ->]]].
  destruct E as [->|[k ->]]; [reflexivity|]. split; try done; simpl.
  apply prefix_take.
Qed.

Lemma trims_cut priority b : codes_terminal (nr_build_jobs b) → cut_from b (trims to_vec max_bytes priority b).
Proof.
  intros Hc.
  assert (∀ h c, (h < 3)%nat → cut_from b c → cut_from b (trim_jobs to_vec max_bytes (trim_pred h) c)) as Hj.
  { intros h c Hh Hcut. etrans; [exact Hcut|]. apply trim_group_cut; [done|]. by eapply codes_terminal_cut. }
  assert (∀ c, cut_from b c → cut_from b (trim_cache_artifact_reports to_vec max_bytes c)) as Ha.
  { intros c Hcut. etrans; [exact Hcut|]. apply (trim_cache_spares 0 c). }
  destruct priority; simpl; unfold trim_active_build_reports, trim_rejected_build_reports, trim_ordinary_terminal_reports.
  - apply (Hj 0%nat); [lia|]. apply (Hj 1%nat); [lia|]. apply Ha. apply (Hj 2%nat); [lia|]. reflexivity.
  - apply (Hj 2%nat); [lia|]. apply (Hj 1%nat); [lia|]. apply (Hj 0%nat); [lia|]. apply Ha. reflexivity.
  - apply (Hj 1%nat); [lia|]. apply (Hj 0%nat); [lia|]. apply Ha. apply (Hj 2%nat); [lia|]. reflexivity.
  - apply Ha. apply (Hj 1%nat); [lia|]. apply (Hj 0%nat); [lia|]. apply (Hj 2%nat); [lia|]. reflexivity.
Qed.

(** *** The group with the turn *)

(** A part of the cutting that spares [g] and ends when the body fits or [X] is gone. *)
Definition exhausts (g : nat) (X : body → Prop) (b b' : body) : Prop :=
  spares g b b' ∧ (fits b' = true ∨ X b') ∧ (∀ c, cut_from b' c → X b' → X c).

Lemma exhausts_trans g X Y b1 b2 b3 :
  exhausts g X b1 b2 → exhausts g Y b2 b3 → exhausts g (λ c, X c ∧ Y c) b1 b3.
Proof.
  intros (S1 & D1 & P1) (S2 & D2 & P2).
  split; [by etrans|]. split.
  - destruct D2 as [D2|D2]; [by left|]. destruct D1 as [D1|D1].
    + left. by rewrite (sp_noop _ _ _ S2 D1).
    + right. split; [|done]. apply P1; [apply S2|done].
  - intros c Hc [Hx Hy]. split; [|by apply P2]. destruct D1 as [D1|D1]; [|apply P1; [etrans; [apply S2|done]|done]].
    rewrite (sp_noop _ _ _ S2 D1) in Hx, Hc. by apply P1.
Qed.

Definition without_group (h : nat) (b : body) : Prop := group h (nr_build_jobs b) = [].
Definition without_artifacts (b : body) : Prop := nr_cache_artifacts b = [].

Lemma trim_group_exhausts h g b :
  (h < 3)%nat → (g < 3)%nat → g ≠ h → codes_terminal (nr_build_jobs b) →
  exhausts g (without_group h) b (trim_jobs to_vec max_bytes (trim_pred h) b).
Proof.
  intros Hh Hg Hne Hc. destruct (trim_group_spares h g b Hh Hg Hne Hc) as [S D]. split_and!; [done|done|].
  intros c Hcut. unfold without_group. intros E. apply prefix_nil_inv. rewrite <-E. by apply Hcut.
Qed.
Lemma trim_cache_exhausts g b :
  exhausts g without_artifacts b (trim_cache_artifact_reports to_vec max_bytes b).
Proof.
  destruct (trim_cache_spares g b) as [S D]. split_and!; [done|done|].
  intros c Hcut. unfold without_artifacts. intros E. apply prefix_nil_inv. rewrite <-E. apply Hcut.
Qed.

Definition other_groups (g : nat) (b : body) : Prop :=
  ∀ h, (h < 3)%nat → h ≠ g → without_group h b.

Lemma only_group g (b : body) : (g < 3)%nat → other_groups g b → group g (nr_build_jobs b) = nr_build_jobs b.
Proof.
  intros Hg Ho. apply filter_all. intros y Hy.
  assert (∃ h, (h < 3)%nat ∧ in_group h y = true) as (h & Hh & Hin).
  { destruct (is_active y) eqn:Ea; [exists 0%nat; split; [lia|done]|].
    destruct (is_rejected y) eqn:Er; [exists 1%nat|exists 2%nat]; simpl; rewrite Ea, Er; split; (lia || done). }
  destruct (decide (h = g)) as [->|Hne]; [done|]. specialize (Ho h Hh Hne). unfold without_group in Ho.
  assert (y ∈ group h (nr_build_jobs b)) as Hy' by by apply elem_of_listfilter.
  rewrite Ho in Hy'. by apply not_elem_of_nil in Hy'.
Qed.

(** The group that is cut last. *)
Definition last_group (priority : NestReportPriority) : option nat :=
  match priority with
  | ActiveBuilds => Some 0%nat
  | TerminalBuilds => Some 2%nat
  | RejectedBuilds => Some 1%nat
  | CacheArtifacts => None
  end.

Lemma trims_spare priority g b :
  last_group priority = Some g → codes_terminal (nr_build_jobs b) →
  ∃ b3, trims to_vec max_bytes priority b = trim_jobs to_vec max_bytes (trim_pred g) b3 ∧
    exhausts g (λ c, other_groups g c ∧ without_artifacts c) b b3.
Proof.
  intros Hl Hc.
  assert (∀ h c, (h < 3)%nat → (g < 3)%nat → g ≠ h → cut_from b c →
    exhausts g (without_group h) c (trim_jobs to_vec max_bytes (trim_pred h) c)) as Hj.
  { intros h c Hh Hg Hne Hcut. apply trim_group_exhausts; [done..|]. by eapply codes_terminal_cut. }
  pose proof (λ c, trim_cache_exhausts g c) as Ha.
  assert (∀ X Y c, exhausts g X b c → (∀ d, X d → Y d) → (∀ d, Y d → X d) → exhausts g Y b c) as Himp.
  { intros X Y c (S & D & P) H1 H2. split_and!; [done|destruct D; auto|]. intros d Hd Hy. apply H1, P; auto. }
  destruct priority; simpl in Hl; simplify_eq.
  - eexists. split; [reflexivity|].
    pose proof (Hj 2%nat b) as H1. specialize (H1 ltac:(lia) ltac:(lia) ltac:(lia) ltac:(reflexivity)).
    pose proof (exhausts_trans _ _ _ _ _ _ H1 (Ha _)) as H2.
    pose proof (exhausts_trans _ _ _ _ _ _ H2 (Hj 1%nat _ ltac:(lia) ltac:(lia) ltac:(lia) (sp_cut _ _ _ (proj1 H2)))) as H3.
    eapply Himp; [exact H3|..]; unfold other_groups.
    + intros d ((W2 & WA) & W1). split; [|done]. intros h Hh Hne. destruct h as [|[|[|]]]; try lia; done.
    + intros d [Ho WA]. split_and!; [apply Ho; lia|done|apply Ho; lia].
  - eexists. split; [reflexivity|].
    pose proof (Ha b) as H1.
    pose proof (exhausts_trans _ _ _ _ _ _ H1 (Hj 0%nat _ ltac:(lia) ltac:(lia) ltac:(lia) (sp_cut _ _ _ (proj1 H1)))) as H2.
    pose proof (exhausts_trans _ _ _ _ _ _ H2 (Hj 1%nat _ ltac:(lia) ltac:(lia) ltac:(lia) (sp_cut _ _ _ (proj1 H2)))) as H3.
    eapply Himp; [exact H3|..]; unfold other_groups.
    + intros d ((WA & W0) & W1). split; [|done]. intros h Hh Hne. destruct h as [|[|[|]]]; try lia; done.
    + intros d [Ho WA]. split_and!; [done|apply Ho; lia|apply Ho; lia].
  - eexists. split; [reflexivity|].
    pose proof (Hj 2%nat b) as H1. specialize (H1 ltac:(lia) ltac:(lia) ltac:(lia) ltac:(reflexivity)).
    pose proof (exhausts_trans _ _ _ _ _ _ H1 (Ha _)) as H2.
    pose proof (exhausts_trans _ _ _ _ _ _ H2 (Hj 0%nat _ ltac:(lia) ltac:(lia) ltac:(lia) (sp_cut _ _ _ (proj1 H2)))) as H3.
    eapply Himp; [exact H3|..]; unfold other_groups.
    + intros d ((W2 & WA) & W0). split; [|done]. intros h Hh Hne. destruct h as [|[|[|]]]; try lia; done.
    + intros d [Ho WA]. split_and!; [apply Ho; lia|done|apply Ho; lia].
Qed.

Lemma trims_keep priority g b x rest :
  last_group priority = Some g → codes_terminal (nr_build_jobs b) → group g (nr_build_jobs b) = x :: rest →
  (∀ c, fits b = false → cut_from b c → nr_build_jobs c = [x] → without_artifacts c →
     nr_workstation_multicast c = nr_workstation_multicast b →
     nr_software_update_findings c = nr_software_update_findings b → fits c = true) →
  ∃ rest', group g (nr_build_jobs (trims to_vec max_bytes priority b)) = x :: rest'.
Proof.
  intros Hl Hc Hx Hbare. assert (g < 3)%nat as Hg by (destruct priority; simpl in Hl; simplify_eq; lia).
  destruct (trims_spare priority g b Hl Hc) as (b3 & -> & S & D & _).
  pose proof (codes_terminal_cut _ _ (sp_cut _ _ _ S) Hc) as Hc3.
  destruct (fits b3) eqn:E3.
  { rewrite (tr_noop _ _ _ (trim_jobs_spec (trim_pred g) b3) E3), (sp_group _ _ _ S). eauto. }
  destruct D as [D|[Ho Ha]]; [congruence|]. pose proof (only_group g b3 Hg Ho) as Hall.
  rewrite (sp_group _ _ _ S), Hx in Hall. destruct (sp_parts _ _ _ S) as [Em Ef].
  destruct (trim_jobs_keeps_first (trim_pred g) b3 x rest) as [rest' Hr]; [done| | |].
  - intros y Hy. rewrite (trim_pred_group _ _ _ Hc3 Hy). rewrite <-Hall, <-Hx in Hy.
    by apply elem_of_listfilter in Hy as [_ ?].
  - apply Hbare; [|  |done|done|done|done].
    { destruct (fits b) eqn:E; [|done]. by rewrite (sp_noop _ _ _ S E), E in E3. }
    etrans; [apply (sp_cut _ _ _ S)|]. split; simpl; try done.
    + intros h Hh. simpl. destruct (in_group h x) eqn:E; [|apply prefix_nil].
      rewrite <-Hall. simpl. rewrite E. apply prefix_cons, prefix_nil.
    + intros j Hj. rewrite <-Hall. apply list_elem_of_singleton in Hj as ->. apply list_elem_of_here.
  - rewrite Hr. simpl. assert (x ∈ group g (nr_build_jobs b)) as Hin by (rewrite Hx; apply list_elem_of_here).
    apply elem_of_listfilter in Hin as [_ ->]. eauto.
Qed.

(** ** What is sent *)

Lemma in_group_clear_logs g j : in_group g (clear_logs j) = in_group g j.
Proof. done. Qed.

Lemma group_clear_logs g l : group g (List.map clear_logs l) = List.map clear_logs (group g l).
Proof. induction l as [|j l IH]; simpl; [done|]. rewrite in_group_clear_logs. destruct (in_group g j); simpl; by rewrite IH. Qed.

Lemma ids_clear_logs l : ids (List.map clear_logs l) = ids l.
Proof. induction l as [|j l IH]; simpl; [done|]. by f_equal. Qed.

(** The body with one job only, whose logs are dropped. *)
Definition lone (complete : bool) (x : NestBuildJobReport) (b : body) : body := {|
  nr_build_jobs := [clear_logs x]; nr_cache_artifacts := [];
  nr_cache_inventory_instance_id := nr_cache_inventory_instance_id b;
  nr_cache_inventory_generation := nr_cache_inventory_generation b;
  nr_cache_artifacts_complete := complete;
  nr_workstation_multicast := with_event_list [] <$> nr_workstation_multicast b;
  nr_software_update_findings := None; nr_rest := nr_rest b |}.

Record report_cut (b b' : body) : Prop := {
  rc_fits : len (to_vec b') ≤ max_bytes;
  rc_group g : (g < 3)%nat → ids (group g (nr_build_jobs b')) `prefix_of` ids (group g (nr_build_jobs b));
  rc_jobs j' : j' ∈ nr_build_jobs b' → ∃ j, j ∈ nr_build_jobs b ∧ (j' = j ∨ j' = clear_logs j);
  rc_artifacts : nr_cache_artifacts b' `prefix_of` nr_cache_artifacts b;
  rc_complete : nr_cache_artifacts_complete b' = true →
    nr_cache_artifacts_complete b = true ∧ nr_cache_artifacts b' = nr_cache_artifacts b;
  rc_same : nr_cache_inventory_instance_id b' = nr_cache_inventory_instance_id b ∧
    nr_cache_inventory_generation b' = nr_cache_inventory_generation b ∧ nr_rest b' = nr_rest b;
}.

(** The body from which the groups are cut. *)
Definition prepared (b : body) : body :=
  let b := with_jobs (List.map clear_logs (nr_build_jobs b)) b in
  let b := if fits b then b else without_findings b in
  trim_workstation_multicast_reports to_vec max_bytes b.

Lemma prepared_spec b :
  nr_build_jobs (prepared b) = List.map clear_logs (nr_build_jobs b) ∧
  cut_from (with_jobs (List.map clear_logs (nr_build_jobs b)) b) (prepared b) ∧
  (fits (prepared b) = false →
    nr_workstation_multicast (prepared b) = with_event_list [] <$> nr_workstation_multicast b ∧
    nr_software_update_findings (prepared b) = None).
Proof.
  unfold prepared. set (b1 := with_jobs _ b). set (b2 := if fits b1 then b1 else without_findings b1).
  destruct (trim_multicast_spec b2) as (k & E & D & N). cbn zeta in *. set (b3 := trim_workstation_multicast_reports _ _ b2) in *.
  assert (nr_build_jobs b2 = List.map clear_logs (nr_build_jobs b) ∧ cut_from b1 b2 ∧
          nr_workstation_multicast b2 = nr_workstation_multicast b ∧
          (fits b2 = false → nr_software_update_findings b2 = None)) as (Ej & Hcut & Em & Ef).
  { unfold b2. destruct (fits b1) eqn:E1; split_and!; (done || by split || (intros; congruence)). }
  split_and!; [rewrite E; exact Ej|etrans; [exact Hcut|]; rewrite E; by split|]. intros E3.
  destruct D as [D|D]; [congruence|]. split.
  - rewrite E. simpl. rewrite Em. destruct (nr_workstation_multicast b) as [r|] eqn:Emb; [|done]. simpl. f_equal.
    specialize (D (with_event_list (take k (rp_events r)) r)). rewrite E in D. simpl in D. rewrite Em in D.
    unfold with_event_list at 1. by rewrite (D eq_refl).
  - rewrite E. simpl. apply Ef. destruct (fits b2) eqn:E2; [|done]. rewrite (N eq_refl) in E3. congruence.
Qed.

Lemma codes_terminal_clear_logs l : codes_terminal l → codes_terminal (List.map clear_logs l).
Proof. intros H j Hj. apply list_elem_of_fmap in Hj as (j0 & -> & Hj). exact (H j0 Hj). Qed.

Lemma nest_reports_are_cut_by_group_lemma b priority b' :
  codes_terminal (nr_build_jobs b) → fit_nest_report_body to_vec max_bytes b priority = Ok b' →
  report_cut b b' ∧
  ∀ g x rest, last_group priority = Some g → group g (nr_build_jobs b) = x :: rest →
    (∀ complete, len (to_vec (lone complete x b)) ≤ max_bytes) →
    ∃ rest', ids (group g (nr_build_jobs b')) = nb_local_id x :: rest'.
Proof.
  intros Hc. unfold fit_nest_report_body. destruct (fits b) eqn:Eb.
  { intros [= <-]. split; [split; eauto; by apply Z.leb_le|]. intros g x rest _ -> _. by eexists. }
  fold (prepared b). destruct (prepared_spec b) as (Ej & Hprep & Hlast). set (b0 := prepared b) in *. clearbody b0.
  assert (codes_terminal (nr_build_jobs b0)) as Hc0 by (rewrite Ej; by apply codes_terminal_clear_logs).
  pose proof (trims_cut priority b0 Hc0) as Hcut. pose proof (transitivity Hprep Hcut) as [G S A C I].
  destruct (fits (trims _ _ priority b0)) eqn:Ef; [|done]. intros [= <-]. cbn [with_jobs nr_build_jobs] in *. split.
  - split; [by apply Z.leb_le| | |done|done|done].
    + intros g Hg. rewrite <-(ids_clear_logs (group g (nr_build_jobs b))), <-group_clear_logs.
      destruct (G g Hg) as [l ->]. rewrite fmap_app. apply prefix_app_r. done.
    + intros j' Hj'. apply S, list_elem_of_fmap in Hj' as (j & -> & Hj). eauto.
  - intros g x rest Hg Hx Hfit.
    destruct (trims_keep priority g b0 (clear_logs x) (List.map clear_logs rest)) as [rest' Hr]; [done|done| | |].
    + by rewrite Ej, group_clear_logs, Hx.
    + intros c E0 Hcc Hj Ha Em Ef'. destruct (Hlast E0) as [Hm Hf]. apply Z.leb_le.
      replace c with (lone (nr_cache_artifacts_complete c) x b); [apply Hfit|].
      destruct (cf_same _ _ (transitivity Hprep Hcc)) as (I1 & I2 & I3).
      destruct c. unfold lone, without_artifacts in *. simpl in *. congruence.
    + rewrite Hr. by eexists.
Qed.

(** C8. An oversized Nest report is cut by groups.  When only finished jobs carry a
    rejection code, as in the table: what is sent fits; of the active,
    the rejected and the finished jobs it holds a prefix each of what was selected, at
    most without their logs; the artifacts are a prefix, and declared complete only if
    none was dropped.  The group whose turn it is keeps at least its first job, so long
    as the report with that job alone fits. *)
Theorem nest_reports_are_cut_by_group b priority b' :
  codes_terminal (nr_build_jobs b) → fit_nest_report_body to_vec max_bytes b priority = Ok b' →
  report_cut b b' ∧
  ∀ g x rest, last_group priority = Some g → group g (nr_build_jobs b) = x :: rest →
    (∀ complete, len (to_vec (lone complete x b)) ≤ max_bytes) →
    ∃ rest', ids (group g (nr_build_jobs b')) = nb_local_id x :: rest'.
Proof. apply nest_reports_are_cut_by_group_lemma. Qed.
End Cutting.

(** ** The page of the database *)

Section Page.
Context {serde : Serde} {deps : ManageDeps}.

Abbreviation row_group g rows := (List.filter (λ row, Nat.eqb (report_group row) g) rows).

Lemma filter_omap_head g (order : list nat) (L : nat → list BuildJobRow) :
  NoDup order → g ∈ order → (∀ h row, row ∈ L h → report_group row = h) →
  row_group g (omap head (L <$> order)) = match L g with row :: _ => [row] | [] => [] end.
Proof.
  intros Hn Hin Hg. induction order as [|h order IH]; [by apply not_elem_of_nil in Hin|].
  apply NoDup_cons in Hn as [Hh Hn].
  assert (∀ row l, L h = row :: l → report_group row = h) as Hhead
    by (intros row l E; apply Hg; rewrite E; apply list_elem_of_here).
  apply elem_of_cons in Hin as [->|Hin].
  - assert (row_group h (omap head (L <$> order)) = []) as Hnone.
    { apply filter_none. intros row Hrow. apply list_elem_of_omap in Hrow as (l & Hl & E).
      apply list_elem_of_fmap in Hl as (h' & -> & Hh'). destruct (L h') as [|r l] eqn:El; [done|].
      injection E as ->. rewrite (Hg h' row) by (rewrite El; apply list_elem_of_here).
      apply Nat.eqb_neq. by intros ->. }
    simpl. destruct (L h) as [|row l] eqn:El; simpl; [exact Hnone|].
    rewrite (Hhead row l eq_refl), Nat.eqb_refl. f_equal. exact Hnone.
  - simpl. destruct (L h) as [|row l] eqn:El; simpl; [by apply IH|].
    rewrite (Hhead row l eq_refl). rewrite (proj2 (Nat.eqb_neq _ _)) by (by intros ->). by apply IH.
Qed.

Lemma interleave_filter fuel g (order : list nat) (L : nat → list BuildJobRow) :
  NoDup order → g ∈ order → (∀ h row, row ∈ L h → report_group row = h) →
  row_group g (interleave fuel (L <$> order)) = take fuel (L g).
Proof.
  intros Hn Hin. revert L. induction fuel as [|fuel IH]; intros L Hg; [done|].
  cbn [interleave]. rewrite List.filter_app, filter_omap_head by done.
  rewrite <-list_fmap_compose, (IH (tail ∘ L)).
  - simpl. by destruct (L g) as [|row l]; simpl; [rewrite take_nil|].
  - intros h row Hr. apply Hg. simpl in Hr. destruct (L h) as [|a l]; [done|].
    apply elem_of_cons. by right.
Qed.

Lemma group_order_spec round : NoDup (group_order round) ∧ ∀ g, (g < 3)%nat → g ∈ group_order round.
Proof.
  unfold group_order. repeat case_match; (split; [apply (bool_decide_unpack _); reflexivity|]);
    intros g Hg; destruct g as [|[|[|]]]; try lia; apply (bool_decide_unpack _); reflexivity.
Qed.

Lemma group_rotation_elem c g d row :
  jobs_ok d → row ∈ group_rotation c g d ↔
    jobs d !! job_id row = Some row ∧ is_Some (job_managed_id row) ∧ report_group row = g.
Proof.
  intros Hok. unfold group_rotation. rewrite (merge_sort_Permutation (rotation_le c)).
  rewrite elem_of_listfilter, elem_of_rows by done. rewrite andb_true_iff, bool_decide_eq_true, Nat.eqb_eq. done.
Qed.

#[local] Instance rotation_le_total c : Total (rotation_le c).
Proof. intros x y. unfold rotation_le. lia. Qed.
#[local] Instance rotation_le_trans c : Transitive (rotation_le c).
Proof. intros x y z. unfold rotation_le. lia. Qed.

Lemma group_rotation_sorted c g d : StronglySorted (rotated c) (job_id <$> group_rotation c g d).
Proof.
  apply (fmap_sorted job_id). apply StronglySorted_merge_sort; apply _.
Qed.

Lemma listfilter_sublist {A} (p : A → bool) l : List.filter p l `sublist_of` l.
Proof. induction l as [|a l IH]; simpl; [done|]. destruct (p a); [by apply sublist_skip|by apply sublist_cons]. Qed.

Lemma group_rotation_NoDup c g d : jobs_ok d → NoDup (job_id <$> group_rotation c g d).
Proof.
  intros Hok. unfold group_rotation. rewrite (merge_sort_Permutation (rotation_le c)).
  assert (NoDup (job_id <$> rows d)) as Hn.
  { unfold rows. rewrite <-list_fmap_compose.
    rewrite (list_fmap_ext (job_id ∘ snd) fst); [apply NoDup_fst_map_to_list|].
    intros i [id row] Hin%list_elem_of_lookup_2%elem_of_map_to_list. simpl. by destruct (jobs_ids _ Hok _ _ Hin). }
  eapply sublist_NoDup; [exact Hn|]. apply fmap_sublist.
  apply listfilter_sublist.
Qed.

Lemma report_order_group a r t round d g :
  jobs_ok d → (g < 3)%nat → row_group g (report_order a r t round d) = group_rotation (group_cursor a r t g) g d.
Proof.
  intros Hok Hg. unfold report_order. destruct (group_order_spec round) as [Hn Hin].
  rewrite (interleave_filter _ g _ (λ g, group_rotation (group_cursor a r t g) g d)); [|done|by apply Hin|].
  - apply take_ge. unfold group_rotation. rewrite (Permutation_length (merge_sort_Permutation _ _)).
    etrans; [apply filter_length_le|]. unfold rows. by rewrite length_fmap, length_map_to_list.
  - intros h row. rewrite group_rotation_elem by done. naive_solver.
Qed.

Lemma filter_prefix {A} (p : A → bool) l1 l2 :
  l1 `prefix_of` l2 → List.filter p l1 `prefix_of` List.filter p l2.
Proof. intros [l ->]. rewrite List.filter_app. by apply prefix_app_r. Qed.

Lemma in_group_report g job :
  (g < 3)%nat → in_group g (build_job_report job) = Nat.eqb (report_group (bj_row job)) g.
Proof.
  intros Hg. unfold report_group.
  assert (is_active (build_job_report job) = negb (terminal_status (job_status (bj_row job)))) as Ha by done.
  assert (is_rejected (build_job_report job) = negb (is_empty (job_rejection_code (bj_row job)))) as Hr
    by (unfold is_rejected; simpl; by destruct (is_empty _)).
  destruct g as [|[|[|]]]; try lia; simpl; rewrite ?Hr, Ha;
    by destruct (terminal_status _), (is_empty _).
Qed.

Lemma group_reports g page :
  (g < 3)%nat → ids (group g (List.map build_job_report page)) = job_id <$> row_group g (bj_row <$> page).
Proof.
  intros Hg. induction page as [|job page IH]; simpl; [done|]. rewrite in_group_report by done.
  destruct (Nat.eqb _ g); simpl; [by f_equal|done].
Qed.

(** ** A report that Tiaris accepts *)

Context {Rest Finding : Type} (to_vec : NestAgentReportRequest Rest Finding → string).
Abbreviation body := (NestAgentReportRequest Rest Finding).
Abbreviation too_long := MAX_NEST_REPORT_BODY_BYTES.

(** The rows are such that Tiaris can tell the jobs, and only finished ones are rejected. *)
Definition reportable (d : JobDb) : Prop := ∀ id row, jobs d !! id = Some row →
  (is_Some (job_managed_id row) → is_Some (optional_report_uuid (job_managed_id row))) ∧
  (job_rejection_code row ≠ "" → terminal_status (job_status row) = true).

Definition same_cursors (m m' : ManagedState) : Prop :=
  (∀ g, cursor_for m' g = cursor_for m g) ∧ st_report_rotation_round m' = st_report_rotation_round m.

(** The report [sent] was made of the tables [d] in state [m] and accepted, and the next
    report starts from [m']. *)
Record accepted_report (d : JobDb) (m : ManagedState) (base sent : body) (m' : ManagedState) : Prop := {
  ar_ok : jobs_ok d;
  ar_reportable : reportable d;
  ar_sent : ∃ page,
    list_build_jobs_report_page (st_active_report_cursor m) (st_rejection_report_cursor m)
      (st_terminal_report_cursor m) (st_report_rotation_round m) (Z.of_nat MAX_REPORT_BUILD_JOBS)
      MAX_NEST_REPORT_BODY_BYTES d = Ok page ∧
    nest_report_body to_vec too_long m page base = Ok sent ∧
    (∀ job complete, job ∈ page → len (to_vec (lone complete (build_job_report job) base)) ≤ too_long);
  ar_next : same_cursors (advance_nest_report_rotation m sent) m';
}.

Lemma last_such_spec p jobs : last_such p jobs = last (ids (List.filter p jobs)).
Proof.
  unfold last_such. induction jobs as [|j jobs IH] using rev_ind; [done|].
  rewrite reverse_app, !List.filter_app, fmap_app. simpl. destruct (p j) eqn:E; simpl.
  - by rewrite last_snoc.
  - by rewrite app_nil_r.
Qed.

Lemma cursor_after m (sent : body) g :
  (g < 3)%nat → codes_terminal (nr_build_jobs sent) →
  cursor_for (advance_nest_report_rotation m sent) g =
  or_cursor (last (ids (group g (nr_build_jobs sent)))) (cursor_for m g).
Proof.
  intros Hg Hc.
  assert (∀ h, List.filter (trim_pred h) (nr_build_jobs sent) = group h (nr_build_jobs sent)) as E.
  { intros h. assert (∀ l, (∀ j, j ∈ l → j ∈ nr_build_jobs sent) → List.filter (trim_pred h) l = group h l) as H; [|by apply H].
    induction l as [|j l IH]; intros Hl; simpl; [done|].
    rewrite (trim_pred_group (nr_build_jobs sent)) by (done || apply Hl, list_elem_of_here).
    rewrite IH; [done|]. intros k Hk. apply Hl. apply elem_of_cons. by right. }
  unfold cursor_for, advance_nest_report_rotation. destruct (cache_cursor_after m sent) as [[c i] n].
  rewrite <-E. destruct g as [|[|[|]]]; try lia; simpl; by rewrite last_such_spec.
Qed.

Lemma page_prefix a r t round n b d page g :
  jobs_ok d → (g < 3)%nat → list_build_jobs_report_page a r t round n b d = Ok page →
  (job_id <$> row_group g (bj_row <$> page)) `prefix_of` (job_id <$> group_rotation (group_cursor a r t g) g d) ∧
  (∀ job, job ∈ page → jobs d !! job_id (bj_row job) = Some (bj_row job) ∧ is_Some (job_managed_id (bj_row job))) ∧
  (head (group_order round) = Some g → group_rotation (group_cursor a r t g) g d ≠ [] →
   row_group g (bj_row <$> page) ≠ []).
Proof.
  intros Hok Hg Hpage. unfold list_build_jobs_report_page in Hpage. apply rows_to_models_rows in Hpage.
  set (order := report_order a r t round d) in *. set (n' := Z.min _ _) in Hpage. set (b' := Z.min _ _) in Hpage.
  destruct (within_page_spec estimated_bytes estimated_bytes_nonneg 1 0 n' b' order) as (rest & Horder & _); [done|].
  change (within_page estimated_bytes 1 0 n' b' order) with (within_bounds 1 0 n' b' order) in Horder.
  rewrite <-Hpage in Horder. pose proof (report_order_group a r t round d g Hok Hg) as Hgroup. fold order in Hgroup.
  split_and!.
  - rewrite <-Hgroup. destruct (filter_prefix (λ row, Nat.eqb (report_group row) g) (bj_row <$> page) order) as [l ->];
      [by exists rest|]. rewrite fmap_app. by apply prefix_app_r.
  - intros job Hj. apply (report_order_elem a r t round); [done|]. fold order. rewrite Horder.
    apply elem_of_app. left. by apply list_elem_of_fmap_2.
  - intros Hhead Hne. unfold order, report_order in Hpage, Hgroup.
    destruct (group_order round) as [|g' gs] eqn:Eo; [done|]. injection Hhead as ->.
    assert (0 < size (jobs d))%nat as Hsize.
    { destruct (group_rotation _ g d) as [|row l] eqn:Er; [done|].
      assert (row ∈ group_rotation (group_cursor a r t g) g d) as Hin by (rewrite Er; apply list_elem_of_here).
      apply group_rotation_elem in Hin as (Hin & _); [|done]. assert (size (jobs d) ≠ 0%nat); [|lia].
      apply (map_size_ne_0_lookup_2 _ (job_id row)). rewrite Hin. eauto. }
    destruct (size (jobs d)) as [|fuel]; [lia|]. cbn [interleave fmap list_fmap omap list_omap] in Hpage.
    destruct (group_rotation (group_cursor a r t g) g d) as [|row l] eqn:Er; [done|].
    cbn [head option_bind] in Hpage. simpl in Hpage. rewrite Hpage. simpl.
    assert (report_group row = g) as ->.
    { assert (row ∈ group_rotation (group_cursor a r t g) g d) as Hin by (rewrite Er; apply list_elem_of_here).
      by apply group_rotation_elem in Hin as (_ & _ & ?). }
    by rewrite Nat.eqb_refl.
Qed.

Lemma max_jobs_positive : (0 < MAX_REPORT_BUILD_JOBS)%nat.
Proof. unfold MAX_REPORT_BUILD_JOBS. lia. Qed.
#[local] Opaque MAX_REPORT_BUILD_JOBS MAX_NEST_REPORT_BODY_BYTES.

Lemma select_elem reports a r t n priority j :
  j ∈ select_build_job_reports reports a r t n priority → j ∈ reports.
Proof.
  unfold select_build_job_reports. rewrite !elem_of_app.
  by intros [H|[H|H]]; apply subseteq_take in H; apply rotate_elem, elem_of_listfilter in H as [? _].
Qed.

Lemma prefix_take_length {A} (l1 l2 : list A) : l1 `prefix_of` l2 → l1 = take (length l1) l2.
Proof. intros [l ->]. by rewrite take_app_length. Qed.

Lemma sorted_prefix c (l1 l2 : list Z) : l1 `prefix_of` l2 → StronglySorted (rotated c) l2 → StronglySorted (rotated c) l1.
Proof. intros [l ->]. apply StronglySorted_app_1_l. Qed.

Lemma turn_of_round round g :
  last_group (from_round round) = Some g →
  head (group_order round) = Some g ∧ head (build_group_order (from_round round)) = Some g.
Proof.
  unfold from_round, group_order. destruct (Z.eqb_spec (round mod 4) 0) as [->|]; [by intros [= <-]|].
  destruct (Z.eqb_spec (round mod 4) 1); [by intros [= <-]|].
  destruct (Z.eqb_spec (round mod 4) 2); by intros [= <-].
Qed.

(** What an accepted report sends of a group, and where it leaves the cursor. *)
Lemma accepted_report_step d m base sent m' g :
  (g < 3)%nat → accepted_report d m base sent m' →
  let R := job_id <$> group_rotation (cursor_for m g) g d in
  ∃ k, ids (group g (nr_build_jobs sent)) = take k R ∧
    cursor_for m' g = or_cursor (last (take k R)) (cursor_for m g) ∧
    (last_group (from_round (st_report_rotation_round m)) = Some g → R ≠ [] → take k R ≠ []).
Proof.
  intros Hg [Hok Hrep (page & Hpage & Hsent & Hlone) Hnext]. cbn zeta.
  destruct (page_prefix _ _ _ _ _ _ _ _ g Hok Hg Hpage) as (Hpre & Hrows & Hturn).
  set (R := job_id <$> _). fold (cursor_for m g) in Hpre, Hturn. fold R in Hpre.
  unfold nest_report_body, reported_jobs in Hsent.
  rewrite (filter_all _ (List.map build_job_report page)) in Hsent.
  2: { intros j Hj. apply list_elem_of_fmap in Hj as (job & -> & Hj). apply bool_decide_eq_true. simpl.
       destruct (Hrows job Hj) as [Hr Hm]. by apply (Hrep _ _ Hr). }
  set (reports := List.map build_job_report page) in *.
  set (sel := select_build_job_reports reports _ _ _ _ _) in *.
  assert (codes_terminal sel) as Hcodes.
  { intros j Hj. apply select_elem, list_elem_of_fmap in Hj as (job & -> & Hj). destruct (Hrows job Hj) as [Hr _].
    destruct (Hrep _ _ Hr) as [_ Hterm]. unfold is_rejected, is_active, nest_build_job_is_terminal. simpl.
    intros Hrej. rewrite Hterm; [done|]. intros E. by rewrite E in Hrej. }
  destruct (nest_reports_are_cut_by_group_lemma to_vec too_long (with_jobs sel base) _ _ Hcodes Hsent) as [Hcut Hkeep].
  cbn [nr_build_jobs with_jobs] in *.
  assert (codes_terminal (nr_build_jobs sent)) as Hcs.
  { intros j' Hj'. destruct (rc_jobs _ _ _ _ Hcut j' Hj') as (j & Hj & [E|E]); subst; exact (Hcodes j Hj). }
  assert (ids (group g reports) = job_id <$> row_group g (bj_row <$> page)) as Eids by by apply group_reports.
  destruct (select_group reports (st_active_report_cursor m) (st_rejection_report_cursor m)
    (st_terminal_report_cursor m) MAX_REPORT_BUILD_JOBS (from_round (st_report_rotation_round m)) g Hg) as (k & Ek & Hk).
  fold sel in Ek. fold (cursor_for m g) in Ek.
  assert (ids (group g sel) = take k (ids (group g reports))) as Esel.
  { rewrite Ek, fmap_take, (rotate_id nb_local_id); [done|]. rewrite Eids.
    eapply sorted_prefix; [exact Hpre|apply group_rotation_sorted]. }
  assert (ids (group g (nr_build_jobs sent)) `prefix_of` R) as Hs.
  { etrans; [by apply (rc_group _ _ _ _ Hcut)|]. simpl. rewrite Esel, Eids. etrans; [apply prefix_take|done]. }
  exists (length (ids (group g (nr_build_jobs sent)))). rewrite <-(prefix_take_length _ _ Hs). split_and!.
  - done.
  - rewrite (proj1 Hnext). by apply cursor_after.
  - intros Ht Hne. destruct (turn_of_round _ _ Ht) as [Hh1 Hh2].
    assert (group g reports ≠ []) as Hgr.
    { intros E. rewrite E in Eids. symmetry in Eids. apply fmap_nil_inv in Eids. apply Hturn in Eids; [done|done|].
      intros E'. unfold R in Hne. by rewrite E' in Hne. }
    specialize (Hk max_jobs_positive Hh2 Hgr).
    assert (group g sel ≠ []) as Hgs.
    { intros E. rewrite E in Esel. destruct (group g reports); [done|]. by destruct k; [lia|]. }
    destruct (group g sel) as [|x rest] eqn:Ex; [done|].
    destruct (Hkeep g x rest Ht Ex) as [rest' ->]; [|done]. intros complete.
    assert (x ∈ sel) as Hx. { apply (elem_of_listfilter (in_group g)). rewrite Ex. apply list_elem_of_here. }
    apply select_elem, list_elem_of_fmap in Hx as (job & -> & Hj). by apply Hlone.
Qed.

(** ** No job is starved *)

(** The job [x] is managed and belongs to group [g]; the managed jobs of the group are
    among [universe]. *)
Definition waits (universe : list Z) (g : nat) (x : Z) (d : JobDb) : Prop :=
  (∃ row, jobs d !! x = Some row ∧ is_Some (job_managed_id row) ∧ report_group row = g) ∧
  ∀ id row, jobs d !! id = Some row → is_Some (job_managed_id row) → report_group row = g → id ∈ universe.

Lemma report_group_lt row : (report_group row < 3)%nat.
Proof. unfold report_group. repeat case_match; lia. Qed.

Lemma accepted_distance universe g x d m base sent m' :
  accepted_report d m base sent m' → waits universe g x d → x ∉ ids (nr_build_jobs sent) →
  (distance universe (cursor_for m' g) x ≤ distance universe (cursor_for m g) x)%nat ∧
  (last_group (from_round (st_report_rotation_round m)) = Some g →
   (distance universe (cursor_for m' g) x < distance universe (cursor_for m g) x)%nat).
Proof.
  intros Ha [(row & Hrow & Hm & Hgr) Hu] Hnot. pose proof (ar_ok _ _ _ _ _ Ha) as Hok.
  assert (g < 3)%nat as Hg by (subst; apply report_group_lt).
  destruct (accepted_report_step _ _ _ _ _ g Hg Ha) as (k & Ek & Ec & Ht). cbn zeta in *.
  set (R := job_id <$> _) in *.
  assert (x ∈ R) as Hx.
  { apply list_elem_of_fmap. exists row. destruct (jobs_ids _ Hok _ _ Hrow) as [<- _]. split; [done|].
    by apply group_rotation_elem; [|split_and!]. }
  assert (∀ u, u ∈ R → u ∈ universe) as HR.
  { intros u Hin. apply list_elem_of_fmap in Hin as (r & -> & (Hr & Hmr & Hg')%group_rotation_elem); [|done]. by eapply Hu. }
  assert (x ∉ take k R) as Hout.
  { rewrite <-Ek. intros (j & -> & (Hj & _)%elem_of_listfilter)%list_elem_of_fmap. apply Hnot. by apply list_elem_of_fmap_2. }
  destruct (last (take k R)) as [c'|] eqn:El; simpl in Ec; rewrite Ec.
  - pose proof (distance_decreases universe (cursor_for m g) R k x c' (group_rotation_NoDup _ _ _ Hok)
      (group_rotation_sorted _ _ _) HR Hx Hout El) as Hd.
    assert (0 < length (take k R))%nat by (destruct (take k R); [done|simpl; lia]). lia.
  - apply last_None in El. split; [lia|]. intros Hturn. destruct Ht; [done| |done].
    intros E. rewrite E in Hx. by apply not_elem_of_nil in Hx.
Qed.

Lemma distance_positive universe c x : x ∈ universe → (1 ≤ distance universe c x)%nat.
Proof.
  intros Hx. unfold distance. assert (x ∈ List.filter (between c x) universe) as H.
  { apply elem_of_listfilter. split; [done|]. apply bool_decide_eq_true. unfold rotated. lia. }
  destruct (List.filter _ universe); [by apply not_elem_of_nil in H|simpl; lia].
Qed.

(** Every group has the turn once in four rounds. *)
Lemma turn_comes round g : (g < 3)%nat → ∃ j, 0 ≤ j < 4 ∧ last_group (from_round (round + j)) = Some g.
Proof.
  intros Hg. set (want := match g with O => 0 | S O => 2 | _ => 1 end).
  exists ((want - round) mod 4). split; [apply Z.mod_pos_bound; lia|].
  unfold from_round. replace ((round + (want - round) mod 4) mod 4) with want;
    [destruct g as [|[|[|]]]; try lia; done|].
  rewrite Zplus_mod_idemp_r. replace (round + (want - round)) with want by lia.
  symmetry. apply Z.mod_small. unfold want. destruct g as [|[|]]; lia.
Qed.

Lemma from_round_mod round round' : round mod 4 = round' mod 4 → from_round round = from_round round'.
Proof. intros E. unfold from_round. by rewrite E. Qed.

(** C6. Every managed build job is reported, when every managed identifier is a UUID.  Consider
    consecutive reports that Tiaris accepts, with a job that is present in the same group (active,
    rejected or finished) throughout, and [universe] the identifiers of the managed jobs of that
    group in that time.  The tables may change between the reports; at each of them the table of
    jobs is consistent, every managed identifier in it parses as a UUID (the report leaves out jobs
    with another one), only finished jobs carry a rejection code, the page of jobs is listed
    without an error and the report is built, and the report with a single job of the page, without
    logs, artifacts and events, fits the size bound.
    Then the job is in one of the first [4 * length universe] reports: neither the number nor the
    size of other jobs, nor the cutting of reports, nor jobs that come and go, can starve it. *)
Theorem every_build_job_is_reported universe g x n (d : nat → JobDb) (m : nat → ManagedState)
    (base sent : nat → body) :
  (∀ i, (i < n)%nat → accepted_report (d i) (m i) (base i) (sent i) (m (S i))) →
  (∀ i, (i < n)%nat → waits universe g x (d i)) →
  x ∈ universe → (4 * length universe ≤ n)%nat →
  ∃ i, (i < n)%nat ∧ x ∈ ids (nr_build_jobs (sent i)).
Proof.
  intros Ha Hw Hx Hn.
  destruct (decide (Exists (λ i, x ∈ ids (nr_build_jobs (sent i))) (seq 0 n))) as [He|He].
  { apply Exists_exists in He as (i & Hi%elem_of_seq & Hin). exists i. split; [lia|done]. }
  exfalso. assert (∀ i, (i < n)%nat → x ∉ ids (nr_build_jobs (sent i))) as Hnot.
  { intros i Hi Hin. apply He, Exists_exists. exists i. split; [apply elem_of_seq; lia|done]. }
  assert (0 < length universe)%nat as Hpos by (destruct universe; [by apply not_elem_of_nil in Hx|simpl; lia]).
  assert (g < 3)%nat as Hg.
  { destruct (Hw 0%nat) as [(row & _ & _ & <-) _]; [lia|]. apply report_group_lt. }
  set (D i := distance universe (cursor_for (m i) g) x).
  assert (∀ i, (i < n)%nat → (D (S i) ≤ D i)%nat ∧
    (last_group (from_round (st_report_rotation_round (m i))) = Some g → (D (S i) < D i)%nat)) as Hstep.
  { intros i Hi. apply (accepted_distance _ _ _ (d i) (m i) (base i) (sent i)); auto. }
  assert (∀ j i, (i + j ≤ n)%nat → (D (i + j) ≤ D i)%nat ∧
    st_report_rotation_round (m (i + j)%nat) mod 4 = (st_report_rotation_round (m i) + Z.of_nat j) mod 4) as Hmany.
  { induction j as [|j IH]; intros i Hi; [rewrite Nat.add_0_r, Z.add_0_r; done|].
    destruct (IH i) as [IHd IHr]; [lia|]. rewrite Nat.add_succ_r.
    destruct (Hstep (i + j)%nat) as [Hle _]; [lia|]. split; [lia|].
    destruct (ar_next _ _ _ _ _ (Ha (i + j)%nat ltac:(lia))) as [_ ->].
    unfold advance_nest_report_rotation. destruct (cache_cursor_after _ _) as [[? ?] ?]. simpl.
    rewrite Z.mod_mod by lia. rewrite Nat2Z.inj_succ, <-Z.add_1_r, Z.add_assoc.
    rewrite Z.add_mod, IHr, <-Z.add_mod by lia. done. }
  assert (∀ q, (4 * q ≤ n)%nat → (D (4 * q) + q ≤ length universe)%nat) as Hq.
  { induction q as [|q IH]; intros Hqn.
    { rewrite Nat.mul_0_r, Nat.add_0_r. apply filter_length_le. }
    specialize (IH ltac:(lia)). set (i := (4 * q)%nat) in *.
    destruct (turn_comes (st_report_rotation_round (m i)) g Hg) as (j & Hj & Ht).
    destruct (Hmany (Z.to_nat j) i) as [Hd Hr]; [lia|]. rewrite Z2Nat.id in Hr by lia.
    destruct (Hstep (i + Z.to_nat j)%nat) as [_ Hlt]; [lia|].
    rewrite (from_round_mod _ _ Hr) in Hlt. specialize (Hlt Ht).
    destruct (Hmany (3 - Z.to_nat j)%nat (S (i + Z.to_nat j))) as [Hrest _]; [lia|].
    replace (S (i + Z.to_nat j) + (3 - Z.to_nat j))%nat with (4 * S q)%nat in Hrest by lia. lia. }
  specialize (Hq (length universe) Hn).
  pose proof (distance_positive universe (cursor_for (m (4 * length universe)%nat) g) x Hx).
  unfold D in Hq. lia.
Qed.
End Page.

(** ** On a concrete table *)

Module ReportDemo.

#[local] Instance report_serde : Serde := {| to_string := λ _, "{}"; from_str := λ _, Some (Object []) |}.
#[local] Instance report_deps : ManageDeps := {|
  settings_url := λ _, None; uuid_hyphenated := Some; boot_report_to_vec := λ _, "";
  discovery_to_vec := λ _ _, "" |}.

Abbreviation demo_body := (NestAgentReportRequest unit unit).
(** A serialization whose length counts jobs and artifacts. *)
Definition demo_vec (b : demo_body) : string :=
  String.string_of_list_ascii (replicate (length (nr_build_jobs b) + length (nr_cache_artifacts b)) "x"%char).
Definition demo_base : demo_body := {|
  nr_build_jobs := []; nr_cache_artifacts := []; nr_cache_inventory_instance_id := "inventory";
  nr_cache_inventory_generation := 1; nr_cache_artifacts_complete := true;
  nr_workstation_multicast := None; nr_software_update_findings := None; nr_rest := tt |}.

Definition report_of (m : ManagedState) : demo_body :=
  match list_build_jobs_report_page (st_active_report_cursor m) (st_rejection_report_cursor m)
      (st_terminal_report_cursor m) (st_report_rotation_round m) (Z.of_nat MAX_REPORT_BUILD_JOBS)
      MAX_NEST_REPORT_BODY_BYTES JobsDemo.finished with
  | Ok page => default demo_base (ok (nest_report_body demo_vec MAX_NEST_REPORT_BODY_BYTES m page demo_base))
  | Err _ => demo_base
  end.
Fixpoint state_after (n : nat) : ManagedState :=
  match n with
  | O => ManagedDemo.demo_state
  | S n => advance_nest_report_rotation (state_after n) (report_of (state_after n))
  end.

Lemma demo_lone complete x : len (demo_vec (lone complete x demo_base)) ≤ MAX_NEST_REPORT_BODY_BYTES.
Proof. vm_compute. discriminate. Qed.

Lemma every_build_job_is_reported_witness :
  ∃ i, (i < 4)%nat ∧ 1 ∈ ids (nr_build_jobs (report_of (state_after i))).
Proof.
  apply (every_build_job_is_reported demo_vec [1] 2 1 4 (λ _, JobsDemo.finished) state_after
    (λ _, demo_base) (λ i, report_of (state_after i))).
  - intros i Hi. split; [apply JobsDemo.finished_ok| | |by split].
    + intros id row Hr. unfold JobsDemo.finished in Hr. cbn [jobs] in Hr.
      apply lookup_singleton_Some in Hr as [<- <-]. split; [by eexists|done].
    + destruct i as [|[|[|[|i]]]]; [eexists; split_and!; [vm_compute; reflexivity|vm_compute; reflexivity|
        intros; apply demo_lone]..|exfalso; lia].
  - intros i _. split.
    + eexists. split; [apply lookup_singleton_eq|]. split; [by eexists|reflexivity].
    + intros id row Hr _ _. unfold JobsDemo.finished in Hr. cbn [jobs] in Hr.
      apply lookup_singleton_Some in Hr as [<- _]. apply list_elem_of_here.
  - apply list_elem_of_here.
  - simpl. lia.
Defined.

Definition long_body : demo_body := with_jobs (nr_build_jobs (report_of ManagedDemo.demo_state)) demo_base.

Lemma nest_reports_are_cut_by_group_witness :
  ∃ b', fit_nest_report_body demo_vec 1 long_body TerminalBuilds = Ok b' ∧
    ids (nr_build_jobs b') = [1] ∧ report_cut demo_vec 1 long_body b'.
Proof.
  destruct (fit_nest_report_body demo_vec 1 long_body TerminalBuilds) as [b'|e] eqn:E;
    [|exfalso; apply (f_equal is_ok) in E; vm_compute in E; discriminate E].
  exists b'. split; [reflexivity|]. split.
  - apply (f_equal (λ r, match r with Ok b => ids (nr_build_jobs b) | Err _ => [] end)) in E.
    vm_compute in E. by symmetry.
  - apply (nest_reports_are_cut_by_group demo_vec 1 long_body TerminalBuilds b'); [|exact E].
    intros j Hj Hr.
    assert (forallb (λ j, negb (is_rejected j && is_active j)) (nr_build_jobs long_body) = true) as Hall
      by (vm_compute; reflexivity).
    rewrite forallb_forall in Hall. specialize (Hall j (proj1 (list_elem_of_In _ _) Hj)). rewrite Hr in Hall.
    by destruct (is_active j).
Defined.
End ReportDemo.
