(* ===== verification/BuildSpec.v ===== *)
(** * Build specifications and the admission of builds

    The part of [src/build.rs] that decides, before anything runs, whether a claimed
    job may be built: its specification, the identity of an installer target, the
    source of a replica copy, the configured target it is admitted at, the capacity
    of the node; and the classification of a build that failed.  Decoding a
    specification with serde, URL parsing and number formatting are arguments, next
    to those of [ProtectedMaterial] and [NarInfo]. *)

From stdpp Require Import sorting base gmap list strings.
From Stdlib Require Import Ascii ZArith Lia.
From S2P Require Import Prelude RustStr RustText Json DbText ProtectedText NixSource BuildJobs ProtectedMaterial NarInfo.

#[local] Open Scope Z_scope.
#[local] Open Scope nest_scope.

Definition BLUEPRINT_BUILD_INPUT_KIND : string := "blueprint_nixos_module".
Definition LEGACY_DESKTOP_EXPERIENCE_BUILD_INPUT_KIND : string := "desktop_experience_nixos_module".
Definition INSTALLER_TARGET_BUILD_SCHEMA_V1 : string := "tiaris.installer-target.build.v1".
Definition INSTALLER_TARGET_BUILD_SCHEMA : string := "tiaris.installer-target.build.v2".
Definition INSTALLER_TARGET_BUILD_SCHEMA_V3 : string := "tiaris.installer-target.build.v3".
Definition MAX_GENERATED_NIX_BYTES : Z := 1024 * 1024.
Definition MAX_DESKTOP_MODULE_NIX_BYTES : Z := 1024 * 1024.
Definition MAX_HARDWARE_MODULE_NIX_BYTES : Z := 1024 * 1024.
Definition MAX_TARGET_MODULE_NIX_BYTES : Z := 1024 * 1024.
Definition CAPACITY_ACCOUNTING_TOLERANCE_BYTES : Z := 1024 * 1024.
Definition CLOSURE_SOURCE_KIND_NEST_CACHE : string := "nest_cache".
Definition MAX_CLOSURE_SOURCE_MEMBERS : Z := 200000.
Definition MAX_CLOSURE_SOURCE_URL_BYTES : Z := 2048.

(** ** Specifications *)

Record BlueprintWallpaperAsset := {
  wa_schema : string;
  wa_id : string;
  wa_blueprint_revision_id : string;
  wa_name : string;
  wa_mime_type : string;
  wa_sha256 : string;
  wa_size_bytes : Z;
  wa_width : Z;
  wa_height : Z;
}.

(** [BlueprintBuildInput] and [ValidatedBlueprintBuildInput]: the same fields. *)
Record BlueprintBuildInput := {
  bi_kind : string;
  bi_generated_nix : string;
  bi_desktop_module_nix : option string;
  bi_expected_state : option Value;
  bi_blueprint_name : option string;
  bi_blueprint_revision : option Z;
  bi_hardware_module_nix : option string;
  bi_target_module_nix : option string;
  bi_manage_source_revision : option string;
  bi_installer_target : option Value;
  bi_wallpaper_asset : option BlueprintWallpaperAsset;
}.

Record ClosureSource := {
  cs_kind : string;
  cs_server_device_id : string;
  cs_cache_base_url : string;
  cs_public_key : string;
  cs_toplevel_store_path : string;
  cs_closure_store_paths_sha256 : string;
  cs_closure_member_count : Z;
  cs_evaluated_derivation : option string;
}.

(** [BuildSpec] and [ValidatedBuildSpec]: the latter drops the version. *)
Record BuildSpec := {
  bs_schema_version : Z;
  bs_artifact_type : string;
  bs_target : string;
  bs_system : string;
  bs_input_revision : string;
  bs_input_config_hash : string;
  bs_blueprint_id : option string;
  bs_blueprint_revision_id : option string;
  bs_blueprint_revision_config_hash : option string;
  bs_nixpkgs_commit : option string;
  bs_source_lock_sha256 : option string;
  bs_software_package_refs : list string;
  bs_build_input : option BlueprintBuildInput;
  bs_allow_source_builds : bool;
  bs_closure_source : option ClosureSource;
}.

Record BuildTargetConfig := {
  bt_artifact_type : string;
  bt_target : string;
  bt_system : string;
  bt_flake : string;
  bt_attr : string;
}.

(** [BuildConfig], as far as it is read. *)
Record BuildConfig := {
  bc_max_build_cores : Z;
  bc_max_nix_jobs : Z;
  bc_memory_per_build_bytes : Z;
  bc_minimum_memory_bytes : Z;
  bc_minimum_swap_bytes : Z;
  bc_max_artifact_size_bytes : Z;
  bc_allowed_systems : list string;
  bc_work_dir : string;
  bc_targets : list BuildTargetConfig;
}.

(** [reqwest::Url], as far as it is read. *)
Record SourceUrl := {
  su_scheme : string;
  su_host : option string;
  su_username : string;
  su_password : option string;
  su_query : option string;
  su_fragment : option string;
}.

Class BuildDeps := {
  (** [serde_json::from_value::<BuildSpec>]. *)
  decode_build_spec : Value → option BuildSpec;
  parse_source_url : string → option SourceUrl;
  (** How serde_json writes a number. *)
  number_text : Number → string;
}.

(** A check ends with an error, whose outermost message it is, or panics. *)
Inductive SpecError := Refused (text : string) | Crashed.
Definition Checked (A : Type) : Type := result SpecError A.
Definition refuse {A} (text : string) : Checked A := Err (Refused text).
Definition refuse_if (b : bool) (text : string) : Checked unit := ensure (negb b) (Refused text).
Definition needed {A} (text : string) (o : option A) : Checked A := ok_or (Refused text) o.
(** [.context(text)] on an error whose own message is not looked at. *)
Definition in_context {E A} (text : string) (r : result E A) : Checked A := needed text (ok r).
(** A result of [protected_material] under [?]. *)
Definition screened {A} (r : result Failure A) : Checked A :=
  match r with
  | Ok a => Ok a
  | Err (Protected e) => refuse (error_text e)
  | Err Panicked => Err Crashed
  end.
(** [.map(f).transpose()?]. *)
Definition transpose {A B} (f : A → Checked B) (o : option A) : Checked (option B) :=
  match o with Some a => b ≔ f a ?; Ok (Some b) | None => Ok None end.
(** A loop of checks. *)
Fixpoint each {A} (f : A → Checked unit) (l : list A) : Checked unit :=
  match l with [] => Ok tt | x :: l => _x ≔ f x ?; each f l end.
(** [.map(f).collect::<Result<Vec<_>>>()]. *)
Fixpoint collect {A B} (f : A → Checked B) (l : list A) : Checked (list B) :=
  match l with [] => Ok [] | x :: l => y ≔ f x ?; ys ≔ collect f l ?; Ok (y :: ys) end.
(** [a || b] whose operands can fail. *)
Definition or_else (a b : Checked bool) : Checked bool := x ≔ a ?; if x then Ok true else b.

(** ** Normal forms *)

Definition normalize_artifact_type (value : string) : Checked string :=
  let value := to_ascii_lowercase (trim value) in
  if bool_decide (value ∈ ["nixos_closure"; "netboot_artifact"; "desktop_image"; "system_generation"])
  then Ok value else refuse "unsupported artifact_type".

Definition normalize_target (value : string) : Checked string :=
  let value := to_ascii_lowercase (trim value) in
  if is_empty value || (64 <? len value)
     || existsb (λ p, starts_with p value) ["-"; "."; "_"]
     || existsb (λ p, ends_with p value) ["-"; "."; "_"]
     || negb (all_bytes (λ b, is_lower b || is_digit b || byte_in "-_." b) value)
  then refuse "invalid target" else Ok value.

Definition normalize_system (value : string) : Checked string :=
  let value := trim value in
  if is_empty value || (64 <? len value) || starts_with "-" value || ends_with "-" value
     || negb (all_bytes (λ b, is_alnum b || byte_in "-_" b) value)
  then refuse "invalid system" else Ok value.

Definition normalize_revision (value : string) : Checked string :=
  let value := trim value in
  if is_empty value || (256 <? len value) || existsb is_control (chars value)
  then refuse "invalid input_revision" else Ok value.

Definition normalize_sha256 (value : string) : Checked string :=
  let value := trim value in
  if negb (len value =? 64) || negb (all_bytes is_hexdigit value)
  then refuse "input_config_hash must be a SHA-256 hex digest" else Ok (to_ascii_lowercase value).

Definition normalize_nixpkgs_commit (value : string) : Checked string :=
  let value := to_ascii_lowercase (trim value) in
  if negb (len value =? 40) || negb (all_bytes (λ b, is_digit b || in_range 97 102 (byte b)) value)
  then refuse "nixpkgs_commit must be a lowercase 40-character commit" else Ok value.

Definition normalize_package_ref (value : string) : Checked string :=
  let value := trim value in
  if is_empty value || (192 <? len value) || starts_with "." value || ends_with "." value
     || existsb is_empty (split "." value)
     || negb (all_bytes (λ b, is_alnum b || byte_in "-_+." b) value)
  then refuse "invalid software package reference" else Ok value.

Definition normalize_optional_uuidish (field value : string) : Checked string :=
  let value := trim value in
  if is_empty value || (128 <? len value) || negb (all_bytes (λ b, is_alnum b || byte_in "-_." b) value)
  then refuse (field +:+ " is invalid") else Ok value.

Definition bounded_metadata_text (value : string) (max_chars : nat) : string :=
  let spaced := replace_byte "009" " " (replace_byte "013" " " (replace_byte "010" " " value)) in
  trim (take_chars max_chars spaced).

Definition has_control_or_space (value : string) : bool :=
  existsb (λ c, is_control c || is_whitespace c) (chars value).

Definition normalize_public_identifier (field value : string) (max_chars : nat) : Checked string :=
  if is_empty value || negb (bool_decide (value = trim value)) || (max_chars <? length (chars value))%nat
     || has_control_or_space value
  then refuse (field +:+ " is invalid") else Ok value.

Definition NIX_STORE : string := "/nix/store/".
Definition STORE_HASH_BYTES : string := "0123456789abcdfghijklmnpqrsvwxyz".

Definition valid_closure_source_store_path (value : string) : bool :=
  match strip_prefix NIX_STORE value with
  | None => false
  | Some rest =>
      match split_once "-" rest with
      | None => false
      | Some (hash, name) =>
          (len hash =? 32) && all_bytes (byte_in STORE_HASH_BYTES) hash
          && negb (is_empty name) && (len name <=? 211)
          && all_bytes (λ b, is_alnum b || byte_in "+-._?=" b) name
      end
  end.

Definition validate_bounded_nix_input (field value : string) (max_bytes : Z) : Checked unit :=
  _e ≔ refuse_if (is_empty (trim value)) (field +:+ " must not be empty") ?;
  _l ≔ refuse_if (max_bytes <? len value) (field +:+ " is too large") ?;
  refuse_if (any_byte (λ b, byte b =? 0) value) (field +:+ " must not contain NUL bytes").

(** [pinned_nixpkgs_revision]. *)
Definition pinned_nixpkgs_revision (flake : string) : Checked string :=
  revision ≔ needed "Blueprint build target flake must use github:NixOS/nixpkgs/<40-character-commit>"
               (strip_prefix "github:NixOS/nixpkgs/" flake) ?;
  if negb (len revision =? 40) || negb (all_bytes is_hexdigit revision)
  then refuse "Blueprint build target flake must pin an immutable 40-character nixpkgs commit"
  else Ok revision.

Section Spec.
Context {build : BuildDeps} {protected : ProtectedDeps} {ed25519 : Ed25519}.

(** ** Canonical JSON *)

Definition json_key (key : string) : string := json_string key.
(** The members of an object are visited in the order of their sorted keys; a key
    is looked up again, [object[key]]. *)
Fixpoint canonical_json (value : Value) : string :=
  match value with
  | Null => "null"
  | Bool b => if b then "true" else "false"
  | Num n => number_text n
  | Str s => json_string s
  | Array values => "[" +:+ join "," (canonical_json <$> values) +:+ "]"
  | Object object =>
      let texts := (λ kv : string * Value, (kv.1, canonical_json kv.2)) <$> object in
      let keys := merge_sort String.le object.*1 in
      let write_key key :=
        json_key key +:+ ":" +:+ default "" (snd <$> List.find (λ kv, bool_decide (kv.1 = key)) texts) in
      "{" +:+ join "," (write_key <$> keys) +:+ "}"
  end.

Definition canonical_json_sha256 (value : Value) : string := sha256_hex_of (canonical_json value).

(** ** The identity of an installer target *)

Definition normalize_canonical_uuid (field value : string) : Checked string :=
  canonical ≔ needed (field +:+ " must be a UUID") (uuid_hyphenated value) ?;
  if bool_decide (value = canonical) then Ok canonical
  else refuse (field +:+ " must be a canonical lowercase UUID").

Record InstallerTargetModuleDigests := {
  md_generated_nix : string;
  md_expected_state : option Value;
  md_hardware_module_nix : string;
  md_target_module_nix : string;
}.

Definition identity_text (object : list (string * Value)) (field : string) : Checked string :=
  needed ("installer_target." +:+ field +:+ " is required") (v ← obj_get field object; as_str v).

(** The keys of an object, as a set. *)
Definition has_keys (object : list (string * Value)) (expected : list string) : bool :=
  bool_decide ((list_to_set object.*1 : gset string) = list_to_set expected).

Definition COHORT_FIELDS : list string :=
  [ "schema"; "blueprint_id"; "blueprint_revision_id"; "blueprint_revision_config_hash";
    "generated_nix_sha256"; "expected_state_sha256"; "hardware_driver_policy";
    "hardware_module_sha256"; "target_module_sha256"; "manage_source_revision";
    "nixpkgs_revision"; "source_lock_sha256" ].
Definition COHORT_DIGESTS : list string :=
  [ "blueprint_revision_config_hash"; "generated_nix_sha256"; "expected_state_sha256";
    "hardware_module_sha256"; "target_module_sha256"; "source_lock_sha256" ].
Definition DRIVER_POLICIES : list string :=
  [ "auto"; "open_graphics"; "nvidia_open"; "nvidia_proprietary"; "disabled" ].

Definition uuid_field (object : list (string * Value)) (field : string) : Checked unit :=
  value ≔ identity_text object field ?;
  _u ≔ normalize_canonical_uuid field value ?; Ok tt.

Definition digest_matches (object : list (string * Value)) (field digest message : string) : Checked unit :=
  value ≔ identity_text object field ?;
  refuse_if (negb (bool_decide (value = digest))) message.

Definition valid_driver_policy (object : list (string * Value)) : Checked unit :=
  policy ≔ identity_text object "hardware_driver_policy" ?;
  refuse_if (negb (bool_decide (policy ∈ DRIVER_POLICIES)))
    "installer_target.hardware_driver_policy is invalid".

Definition revisions_match (object : list (string * Value)) (manage_revision : string) : Checked unit :=
  value ≔ identity_text object "manage_source_revision" ?;
  revision ≔ normalize_nixpkgs_commit value ?;
  _m ≔ refuse_if (negb (bool_decide (revision = manage_revision)))
         "installer target Tiaris revision fields do not match" ?;
  nixpkgs ≔ identity_text object "nixpkgs_revision" ?;
  _n ≔ normalize_nixpkgs_commit nixpkgs ?; Ok tt.

Definition validate_installer_target_cohort_identity (object : list (string * Value))
    (manage_revision : string) (digests : InstallerTargetModuleDigests) : Checked unit :=
  _k ≔ refuse_if (negb (has_keys object COHORT_FIELDS)) "installer_target does not match its schema" ?;
  _u ≔ each (uuid_field object) ["blueprint_id"; "blueprint_revision_id"] ?;
  _d ≔ each (λ field, value ≔ identity_text object field ?;
                      _s ≔ in_context ("normalize installer_target." +:+ field) (normalize_sha256 value) ?;
                      Ok tt) COHORT_DIGESTS ?;
  _g ≔ digest_matches object "generated_nix_sha256" (sha256_hex_of (md_generated_nix digests))
         "installer_target.generated_nix_sha256 does not match the Blueprint module" ?;
  _h ≔ digest_matches object "hardware_module_sha256" (sha256_hex_of (md_hardware_module_nix digests))
         "installer_target.hardware_module_sha256 does not match the hardware module" ?;
  _t ≔ digest_matches object "target_module_sha256" (sha256_hex_of (md_target_module_nix digests))
         "installer_target.target_module_sha256 does not match the target module" ?;
  state ≔ needed "installer target expected state is required" (md_expected_state digests) ?;
  _e ≔ digest_matches object "expected_state_sha256" (canonical_json_sha256 state)
         "installer_target.expected_state_sha256 does not match the expected state" ?;
  _r ≔ revisions_match object manage_revision ?;
  valid_driver_policy object.

Definition DEVICE_FIELDS : list string :=
  [ "schema"; "preparation_id"; "device_id"; "device_incarnation_id"; "blueprint_id";
    "blueprint_revision_id"; "hardware_facts_sha256"; "hardware_driver_policy";
    "disk_layout_sha256"; "nest_device_id"; "bundle_sha256"; "profile_id"; "managed_device_id";
    "reinstall_request_id"; "manage_source_revision"; "nixpkgs_revision"; "source_lock_sha256" ].
Definition DEVICE_UUIDS : list string :=
  [ "preparation_id"; "device_incarnation_id"; "blueprint_id"; "blueprint_revision_id"; "profile_id" ].
Definition DEVICE_DIGESTS : list string :=
  [ "hardware_facts_sha256"; "disk_layout_sha256"; "bundle_sha256"; "source_lock_sha256" ].

Definition is_null_field (object : list (string * Value)) (field : string) : bool :=
  match obj_get field object with Some Null => true | _ => false end.

Definition reinstall_field (object : list (string * Value)) (field : string) : Checked unit :=
  match v ← obj_get field object; as_str v with
  | Some value =>
      if bool_decide (field = "reinstall_request_id")
      then _u ≔ normalize_canonical_uuid field value ?; Ok tt
      else _i ≔ normalize_public_identifier field value 160 ?; Ok tt
  | None =>
      refuse_if (negb (is_null_field object field))
        ("installer_target." +:+ field +:+ " must be a string or null")
  end.

(** The identities of versions 1 and 2, which name a device. *)
Definition validate_device_identity (object : list (string * Value)) (schema manage_revision : string)
    : Checked unit :=
  let carries_config :=
    bool_decide (schema = INSTALLER_TARGET_BUILD_SCHEMA)
    || (bool_decide (schema = INSTALLER_TARGET_BUILD_SCHEMA_V1)
        && bool_decide (is_Some (obj_get "effective_config_sha256" object))) in
  let expected := if carries_config then "effective_config_sha256" :: DEVICE_FIELDS else DEVICE_FIELDS in
  _k ≔ refuse_if (negb (has_keys object expected)) "installer_target does not match its schema" ?;
  _u ≔ each (uuid_field object) DEVICE_UUIDS ?;
  _r ≔ each (reinstall_field object) ["managed_device_id"; "reinstall_request_id"] ?;
  _b ≔ refuse_if (negb (Bool.eqb (is_null_field object "managed_device_id")
                                 (is_null_field object "reinstall_request_id")))
         "installer_target reinstall bindings must both be present or both be null" ?;
  _i ≔ each (λ field, value ≔ identity_text object field ?;
                      _p ≔ normalize_public_identifier field value 160 ?; Ok tt)
         ["device_id"; "nest_device_id"] ?;
  _d ≔ each (λ field, value ≔ identity_text object field ?; _s ≔ normalize_sha256 value ?; Ok tt)
         DEVICE_DIGESTS ?;
  _c ≔ match obj_get "effective_config_sha256" object with
       | None => Ok tt
       | Some v =>
           text ≔ needed "installer_target.effective_config_sha256 must be a SHA-256 string" (as_str v) ?;
           _s ≔ in_context "normalize installer_target.effective_config_sha256" (normalize_sha256 text) ?;
           Ok tt
       end ?;
  _m ≔ revisions_match object manage_revision ?;
  valid_driver_policy object.

Definition validate_installer_target_identity (value : Value) (manage_revision : string)
    (digests : InstallerTargetModuleDigests) : Checked unit :=
  object ≔ needed "installer_target must be an object" (as_object value) ?;
  schema ≔ identity_text object "schema" ?;
  if bool_decide (schema = INSTALLER_TARGET_BUILD_SCHEMA_V3)
  then validate_installer_target_cohort_identity object manage_revision digests
  else if negb (bool_decide (schema ∈ [INSTALLER_TARGET_BUILD_SCHEMA_V1; INSTALLER_TARGET_BUILD_SCHEMA]))
  then refuse "unsupported installer_target schema"
  else validate_device_identity object schema manage_revision.

(** ** The input of a Blueprint *)

Definition validate_blueprint_wallpaper_asset (asset : BlueprintWallpaperAsset)
    : Checked BlueprintWallpaperAsset :=
  _s ≔ refuse_if (negb (bool_decide (wa_schema asset = "tiaris.blueprint-wallpaper.v1")))
         "build_input.wallpaper_asset has an unsupported schema" ?;
  id ≔ normalize_optional_uuidish "wallpaper_asset.id" (wa_id asset) ?;
  revision ≔ normalize_optional_uuidish "wallpaper_asset.blueprint_revision_id"
               (wa_blueprint_revision_id asset) ?;
  sha256 ≔ normalize_sha256 (wa_sha256 asset) ?;
  let name := bounded_metadata_text (wa_name asset) 160 in
  _n ≔ refuse_if (is_empty name) "build_input.wallpaper_asset.name is required" ?;
  _m ≔ refuse_if (negb (bool_decide (wa_mime_type asset = "image/jpeg")))
         "build_input.wallpaper_asset must be image/jpeg" ?;
  _z ≔ refuse_if ((wa_size_bytes asset =? 0) || (4 * 1024 * 1024 <? wa_size_bytes asset))
         "build_input.wallpaper_asset size is invalid" ?;
  _d ≔ refuse_if ((wa_width asset =? 0) || (wa_height asset =? 0)
                  || (3840 <? wa_width asset) || (2160 <? wa_height asset))
         "build_input.wallpaper_asset dimensions are invalid" ?;
  Ok {| wa_schema := wa_schema asset; wa_id := id; wa_blueprint_revision_id := revision;
        wa_name := name; wa_mime_type := wa_mime_type asset; wa_sha256 := sha256;
        wa_size_bytes := wa_size_bytes asset; wa_width := wa_width asset; wa_height := wa_height asset |}.

(** The path below [work_dir] an asset is cached at. *)
Definition wallpaper_asset_cache_path (sha256 : string) : Checked (list string) :=
  sha256 ≔ normalize_sha256 sha256 ?;
  Ok ["wallpaper-assets"; sha256 +:+ ".jpg"].

(** What [symlink_metadata] and [read] give at a path. *)
Record CachedFile := {
  cf_is_file : bool;
  cf_is_symlink : bool;
  cf_len : Z;
  cf_bytes : option string;
}.

Definition JPEG_START : string := of_bytes [char_of 255; char_of 216; char_of 255].
Definition JPEG_END : string := of_bytes [char_of 255; char_of 217].

Definition verify_cached_wallpaper_asset (files : list string → option CachedFile)
    (asset : BlueprintWallpaperAsset) : Checked (list string) :=
  path ≔ wallpaper_asset_cache_path (wa_sha256 asset) ?;
  file ≔ needed ("inspect Blueprint wallpaper asset") (files path) ?;
  _m ≔ refuse_if (negb (cf_is_file file) || cf_is_symlink file
                  || negb (cf_len file =? wa_size_bytes asset))
         "cached Blueprint wallpaper asset has an invalid file identity" ?;
  bytes ≔ needed ("read Blueprint wallpaper asset") (cf_bytes file) ?;
  _i ≔ refuse_if (negb (starts_with JPEG_START bytes) || negb (ends_with JPEG_END bytes)
                  || negb (bool_decide (sha256_hex_of bytes = wa_sha256 asset)))
         "cached Blueprint wallpaper asset failed its integrity check" ?;
  Ok path.

Definition pointer2 (key1 key2 : string) (v : Value) : option Value := d ← get key1 v; get key2 d.

Definition check_desktop_module (input : BlueprintBuildInput) (installer_target_build : bool) : Checked unit :=
  match bi_desktop_module_nix input with
  | Some desktop =>
      _e ≔ refuse_if (is_empty (trim desktop)) "build_input.desktop_module_nix must not be empty" ?;
      _l ≔ refuse_if (MAX_DESKTOP_MODULE_NIX_BYTES <? len desktop)
             "build_input.desktop_module_nix is too large" ?;
      _z ≔ refuse_if (any_byte (λ b, byte b =? 0) desktop)
             "build_input.desktop_module_nix must not contain NUL bytes" ?;
      state ≔ needed "build_input.expected_state must be an object when desktop_module_nix is supplied"
                (v ← bi_expected_state input; as_object v) ?;
      refuse_if (negb (bool_decide ((v ← obj_get "schema" state; as_str v)
                                    ∈ [Some "tiaris.blueprint.expected-state.v1";
                                       Some "tiaris.blueprint.expected-state.v2"])))
        "build_input.expected_state has an unsupported schema"
  | None =>
      refuse_if (bool_decide (is_Some (bi_expected_state input)) && negb installer_target_build)
        "build_input.expected_state requires desktop_module_nix"
  end.

(** What an installer target has to carry. *)
Definition check_installer_input (input : BlueprintBuildInput) : Checked unit :=
  hardware ≔ needed "installer target requires hardware_module_nix" (bi_hardware_module_nix input) ?;
  _h ≔ validate_bounded_nix_input "build_input.hardware_module_nix" hardware MAX_HARDWARE_MODULE_NIX_BYTES ?;
  _hs ≔ screened (validate_installer_target_non_blueprint_module
                    "build_spec.build_input.hardware_module_nix" hardware) ?;
  target ≔ needed "installer target requires target_module_nix" (bi_target_module_nix input) ?;
  _t ≔ validate_bounded_nix_input "build_input.target_module_nix" target MAX_TARGET_MODULE_NIX_BYTES ?;
  _ts ≔ screened (validate_installer_target_non_blueprint_module
                    "build_spec.build_input.target_module_nix" target) ?;
  revision ≔ needed "installer target requires manage_source_revision" (bi_manage_source_revision input) ?;
  _r ≔ in_context "normalize installer target Tiaris revision" (normalize_nixpkgs_commit revision) ?;
  identity ≔ needed "installer target identity is required" (bi_installer_target input) ?;
  _i ≔ validate_installer_target_identity identity revision
         {| md_generated_nix := bi_generated_nix input; md_expected_state := bi_expected_state input;
            md_hardware_module_nix := hardware; md_target_module_nix := target |} ?;
  expected_revision ≔ needed "installer target expected-state revision is required"
    (state ← bi_expected_state input; v ← pointer2 "deployment" "blueprint_revision_id" state; as_str v) ?;
  _m ≔ refuse_if (negb (bool_decide ((v ← get "blueprint_revision_id" identity; as_str v)
                                     = Some expected_revision)))
         "installer target Blueprint revision fields do not match" ?;
  refuse_if (bool_decide (is_Some (bi_desktop_module_nix input))
             || bool_decide (bi_expected_state input = None))
    "installer target must use the packaged Tiaris desktop module and requires expected state".

Definition validate_blueprint_build_input (input : BlueprintBuildInput) : Checked BlueprintBuildInput :=
  let kind := trim (bi_kind input) in
  _k ≔ refuse_if (negb (bool_decide (kind ∈ [BLUEPRINT_BUILD_INPUT_KIND;
                                             LEGACY_DESKTOP_EXPERIENCE_BUILD_INPUT_KIND;
                                             INSTALLER_TARGET_BUILD_INPUT_KIND])))
         "unsupported build_input kind" ?;
  let installer_target_build := bool_decide (kind = INSTALLER_TARGET_BUILD_INPUT_KIND) in
  _g ≔ (if installer_target_build then Ok tt
        else screened (validate_generated_nix (bi_generated_nix input))) ?;
  _d ≔ match bi_desktop_module_nix input with
       | Some desktop => screened (validate_desktop_module_nix desktop)
       | None => Ok tt
       end ?;
  _s ≔ match bi_expected_state input with
       | Some state =>
           if installer_target_build then
             _i ≔ screened (validate_installer_target_expected_state state) ?;
             screened (validate_installer_target_generated_nix (bi_generated_nix input) state)
           else screened (validate_expected_state state)
       | None => Ok tt
       end ?;
  _e ≔ refuse_if (is_empty (trim (bi_generated_nix input))) "build_input.generated_nix is required" ?;
  _l ≔ refuse_if (MAX_GENERATED_NIX_BYTES <? len (bi_generated_nix input))
         "build_input.generated_nix is too large" ?;
  _z ≔ refuse_if (any_byte (λ b, byte b =? 0) (bi_generated_nix input))
         "build_input.generated_nix must not contain NUL bytes" ?;
  _m ≔ check_desktop_module input installer_target_build ?;
  _t ≔ (if installer_target_build then check_installer_input input
        else refuse_if (bool_decide (is_Some (bi_hardware_module_nix input))
                        || bool_decide (is_Some (bi_target_module_nix input))
                        || bool_decide (is_Some (bi_manage_source_revision input))
                        || match bi_installer_target input with Some _ => true | None => false end)
               "installer target fields require installer_target_nixos_module") ?;
  wallpaper ≔ transpose validate_blueprint_wallpaper_asset (bi_wallpaper_asset input) ?;
  Ok {| bi_kind := kind; bi_generated_nix := bi_generated_nix input;
        bi_desktop_module_nix := bi_desktop_module_nix input;
        bi_expected_state := bi_expected_state input;
        bi_blueprint_name := filter_opt (λ v, negb (is_empty v))
                               ((λ v, bounded_metadata_text v 200) <$> bi_blueprint_name input);
        bi_blueprint_revision := filter_opt (λ v, 0 <? v) (bi_blueprint_revision input);
        bi_hardware_module_nix := bi_hardware_module_nix input;
        bi_target_module_nix := bi_target_module_nix input;
        bi_manage_source_revision := bi_manage_source_revision input;
        bi_installer_target := bi_installer_target input;
        bi_wallpaper_asset := wallpaper |}.

(** ** Replica copies *)

Definition plain_cache_url (cache_base_url : string) (url : SourceUrl) : bool :=
  (len cache_base_url <=? MAX_CLOSURE_SOURCE_URL_BYTES)
  && bool_decide (su_scheme url ∈ ["http"; "https"])
  && bool_decide (is_Some (su_host url))
  && is_empty (su_username url) && bool_decide (su_password url = None)
  && bool_decide (su_query url = None) && bool_decide (su_fragment url = None)
  && negb (ends_with "/" cache_base_url).

Definition source_derivation (value : string) : Checked string :=
  if valid_closure_source_store_path value && ends_with ".drv" value then Ok value
  else refuse "closure_source evaluated_derivation must be a .drv store path".

Definition validate_closure_source (source : ClosureSource) (target : string) : Checked ClosureSource :=
  _t ≔ refuse_if (negb (bool_decide (target = "installer_target")))
         "closure_source is only accepted for installer_target builds" ?;
  _k ≔ refuse_if (negb (bool_decide (cs_kind source = CLOSURE_SOURCE_KIND_NEST_CACHE)))
         "unsupported closure_source kind" ?;
  let server_device_id := trim (cs_server_device_id source) in
  _s ≔ refuse_if (is_empty server_device_id || (128 <? len server_device_id)
                  || has_control_or_space server_device_id)
         "closure_source server_device_id has an invalid shape" ?;
  let cache_base_url := trim (cs_cache_base_url source) in
  parsed ≔ needed "closure_source cache_base_url" (parse_source_url cache_base_url) ?;
  _u ≔ refuse_if (negb (plain_cache_url cache_base_url parsed))
         "closure_source cache_base_url must be a plain http(s) cache base URL" ?;
  let public_key := trim (cs_public_key source) in
  _p ≔ in_context "closure_source public_key" (parse_cache_public_key public_key) ?;
  let toplevel := trim (cs_toplevel_store_path source) in
  _v ≔ refuse_if (negb (valid_closure_source_store_path toplevel))
         "closure_source toplevel_store_path is not a store path" ?;
  paths_sha256 ≔ normalize_sha256 (cs_closure_store_paths_sha256 source) ?;
  _c ≔ refuse_if (negb (in_range 1 MAX_CLOSURE_SOURCE_MEMBERS (cs_closure_member_count source)))
         "closure_source closure_member_count is out of range" ?;
  derivation ≔ transpose source_derivation
                 (filter_opt (λ v, negb (is_empty v)) (trim <$> cs_evaluated_derivation source)) ?;
  Ok {| cs_kind := cs_kind source; cs_server_device_id := server_device_id;
        cs_cache_base_url := cache_base_url; cs_public_key := public_key;
        cs_toplevel_store_path := toplevel; cs_closure_store_paths_sha256 := paths_sha256;
        cs_closure_member_count := cs_closure_member_count source;
        cs_evaluated_derivation := derivation |}.

(** ** The whole specification *)

(** [expected != Some(identity_text(field)?)]. *)
Definition identity_differs (object : list (string * Value)) (expected : option string) (field : string)
    : Checked bool :=
  value ≔ identity_text object field ?; Ok (negb (bool_decide (expected = Some value))).

Definition PROVENANCE_MISMATCH : string := "installer target provenance fields do not match".

Definition validate_installer_target_build_binding (input_revision input_config_hash : string)
    (blueprint_id blueprint_revision_id blueprint_revision_config_hash : option string)
    (nixpkgs_commit source_lock_sha256 : option string)
    (build_input : BlueprintBuildInput) (raw_build_input : Value) : Checked unit :=
  _h ≔ refuse_if (negb (bool_decide (canonical_json_sha256 raw_build_input = input_config_hash)))
         "installer target build input does not match its canonical hash" ?;
  identity ≔ needed "installer target identity is required"
               (v ← bi_installer_target build_input; as_object v) ?;
  state ≔ needed "installer target expected state is required" (bi_expected_state build_input) ?;
  artifact_config_hash ≔ (text ≔ needed "installer target artifact config hash is required"
                                   (v ← pointer2 "deployment" "artifact_config_hash" state; as_str v) ?;
                          normalize_sha256 text) ?;
  differs ≔ or_else (identity_differs identity blueprint_id "blueprint_id")
           (or_else (identity_differs identity blueprint_revision_id "blueprint_revision_id")
           (or_else (Ok (negb (bool_decide (blueprint_revision_id = Some input_revision))))
           (or_else (identity_differs identity nixpkgs_commit "nixpkgs_revision")
           (or_else (identity_differs identity source_lock_sha256 "source_lock_sha256")
                    (Ok (negb (bool_decide (blueprint_revision_config_hash
                                            = Some artifact_config_hash)))))))) ?;
  _p ≔ refuse_if differs PROVENANCE_MISMATCH ?;
  if bool_decide ((v ← obj_get "schema" identity; as_str v) = Some INSTALLER_TARGET_BUILD_SCHEMA_V3) then
    differs ≔ identity_differs identity blueprint_revision_config_hash "blueprint_revision_config_hash" ?;
    refuse_if differs PROVENANCE_MISMATCH
  else Ok tt.

Definition validate_build_spec (config : BuildConfig) (job : BuildJob) : Checked BuildSpec :=
  let row := job_inputs (bj_row job) in
  _p ≔ screened (ProtectedMaterial.validate_build_spec (bj_build_spec job)) ?;
  let raw_build_input := get "build_input" (bj_build_spec job) in
  spec ≔ needed "build_spec does not match schema" (decode_build_spec (bj_build_spec job)) ?;
  _v ≔ refuse_if (negb (bs_schema_version spec =? 1)) "unsupported build spec schema_version" ?;
  artifact_type ≔ normalize_artifact_type (bs_artifact_type spec) ?;
  target ≔ normalize_target (bs_target spec) ?;
  system ≔ normalize_system (bs_system spec) ?;
  _s ≔ refuse_if (negb (bool_decide (system ∈ bc_allowed_systems config)))
         "system is not allowed on this Nest node" ?;
  input_revision ≔ normalize_revision (bs_input_revision spec) ?;
  input_config_hash ≔ normalize_sha256 (bs_input_config_hash spec) ?;
  _a ≔ refuse_if (negb (bool_decide (artifact_type = ji_requested_artifact_type row)))
         "build_spec artifact_type does not match job artifact type" ?;
  _t ≔ refuse_if (negb (bool_decide (target = ji_target row)) || negb (bool_decide (system = ji_system row)))
         "build_spec target/system does not match job row" ?;
  _r ≔ refuse_if (negb (bool_decide (input_revision = ji_input_revision row))
                  || negb (bool_decide (input_config_hash = ji_input_config_hash row)))
         "build_spec input revision/hash does not match job row" ?;
  blueprint_id ≔ transpose (normalize_optional_uuidish "blueprint_id") (bs_blueprint_id spec) ?;
  blueprint_revision_id ≔ transpose (normalize_optional_uuidish "blueprint_revision_id")
                            (bs_blueprint_revision_id spec) ?;
  revision_config_hash ≔ transpose normalize_sha256 (bs_blueprint_revision_config_hash spec) ?;
  build_input ≔ transpose validate_blueprint_build_input (bs_build_input spec) ?;
  let has_input := match build_input with Some _ => true | None => false end in
  _n ≔ refuse_if (has_input && negb (bool_decide (artifact_type = "nixos_closure")))
         "blueprint build_input requires artifact_type nixos_closure" ?;
  nixpkgs_commit ≔ transpose normalize_nixpkgs_commit (bs_nixpkgs_commit spec) ?;
  source_lock ≔ transpose normalize_sha256 (bs_source_lock_sha256 spec) ?;
  _l ≔ refuse_if (has_input && (bool_decide (nixpkgs_commit = None) || bool_decide (source_lock = None)))
         "Blueprint builds require nixpkgs_commit and source_lock_sha256" ?;
  _k ≔ refuse_if (128 <? length (bs_software_package_refs spec))%nat
         "software_package_refs exceeds 128 items" ?;
  package_refs ≔ collect normalize_package_ref (bs_software_package_refs spec) ?;
  _b ≔ (if bool_decide (target = "installer_target") then
          input ≔ needed "installer target requires its exact Blueprint build input" build_input ?;
          raw ≔ needed "installer target requires its exact raw Blueprint build input" raw_build_input ?;
          validate_installer_target_build_binding input_revision input_config_hash blueprint_id
            blueprint_revision_id revision_config_hash nixpkgs_commit source_lock input raw
        else Ok tt) ?;
  closure_source ≔ transpose (λ source, validate_closure_source source target) (bs_closure_source spec) ?;
  Ok {| bs_schema_version := bs_schema_version spec; bs_artifact_type := artifact_type;
        bs_target := target; bs_system := system; bs_input_revision := input_revision;
        bs_input_config_hash := input_config_hash; bs_blueprint_id := blueprint_id;
        bs_blueprint_revision_id := blueprint_revision_id;
        bs_blueprint_revision_config_hash := revision_config_hash;
        bs_nixpkgs_commit := nixpkgs_commit; bs_source_lock_sha256 := source_lock;
        bs_software_package_refs := package_refs; bs_build_input := build_input;
        bs_allow_source_builds := bs_allow_source_builds spec;
        bs_closure_source := closure_source |}.

End Spec.

(** ** Admission *)

(** [matches!((configured, requested), …)]: a renamed target answers to both names, and
    a Blueprint target builds installer targets. *)
Definition build_target_names_compatible (configured requested : string) : bool :=
  bool_decide (configured = requested)
  || bool_decide ((configured, requested) ∈ [ ("desktop_experience", "blueprint");
       ("blueprint", "desktop_experience"); ("blueprint", "installer_target");
       ("desktop_experience", "installer_target") ]).

Record AdmittedTarget := { at_target : BuildTargetConfig; at_nixpkgs_commit : option string }.

Definition target_matches (spec : BuildSpec) (t : BuildTargetConfig) : bool :=
  bool_decide (bt_artifact_type t = bs_artifact_type spec)
  && build_target_names_compatible (bt_target t) (bs_target spec)
  && bool_decide (bt_system t = bs_system spec).

Definition admit_build_target (config : BuildConfig) (spec : BuildSpec) (detected : option string)
    : Checked AdmittedTarget :=
  target ≔ needed "no configured build target matched artifact_type, target, and system"
             (List.find (target_matches spec) (bc_targets config)) ?;
  let target_pin := ok (pinned_nixpkgs_revision (bt_flake target)) in
  let commit := bs_nixpkgs_commit spec in
  commit ≔ match bs_build_input spec with
           | Some _ =>
               configured ≔ in_context "validate configured Blueprint nixpkgs pin"
                              (pinned_nixpkgs_revision (bt_flake target)) ?;
               if bool_decide (commit = Some configured)
                  || (bool_decide (is_Some detected) && bool_decide (commit = detected))
               then Ok commit
               else refuse "Blueprint nixpkgs_commit does not match this Nest target's reviewed source pin or a ready detected commit"
           | None =>
               if bool_decide (is_Some commit) && negb (bool_decide (commit = target_pin))
               then refuse "nixpkgs_commit does not match this Nest target's nixpkgs pin"
               else Ok target_pin
           end ?;
  Ok {| at_target := target; at_nixpkgs_commit := commit |}.

(** ** Capacity *)

Record BuildCapacity := { cap_memory_bytes : Z; cap_swap_bytes : Z }.

Definition capacity_meets_minimum (actual minimum : Z) : bool :=
  sat_sub minimum CAPACITY_ACCOUNTING_TOLERANCE_BYTES <=? actual.

Definition capacity_from_sysinfo_values (totalram totalswap mem_unit : Z) : BuildCapacity :=
  {| cap_memory_bytes := sat_mul u64_max totalram mem_unit;
     cap_swap_bytes := sat_mul u64_max totalswap mem_unit |}.

Definition parse_cgroup_limit (raw : string) : Checked (option Z) :=
  let raw := trim raw in
  if bool_decide (raw = "max") || is_empty raw then Ok None
  else value ≔ needed "cgroup limit is not an integer" (parse_unsigned u64_max raw) ?; Ok (Some value).

Definition meminfo_line (field line : string) : option Z :=
  '(name, rest) ← split_once ":" line;
  if negb (bool_decide (name = field)) then None
  else word ← head (split_whitespace rest); parse_unsigned u64_max word.

Fixpoint find_map {A B} (f : A → option B) (l : list A) : option B :=
  match l with [] => None | x :: l => match f x with Some y => Some y | None => find_map f l end end.

Definition parse_meminfo_bytes (raw field : string) : option Z :=
  value_kib ← find_map (meminfo_line field) (lines raw);
  try_unsigned u64_max (value_kib * 1024).

(** What the node says about its memory: the cgroup controller, two cgroup files
    ([None]: absent, [Some None]: unreadable), [/proc/meminfo] and [sysinfo(2)]. *)
Record CapacitySources := {
  so_resources : option (Z * Z);
  so_memory_max : option (option string);
  so_swap_max : option (option string);
  so_meminfo : option string;
  so_sysinfo : option (Z * Z * Z);
}.

Definition read_cgroup_limit (path : string) (file : option (option string)) : Checked (option Z) :=
  match file with
  | Some (Some raw) => in_context ("parse cgroup limit " +:+ path) (parse_cgroup_limit raw)
  | None => Ok None
  | Some None => refuse ("read cgroup limit " +:+ path)
  end.

Definition or_opt {A} (a b : option A) : option A := match a with Some _ => a | None => b end.

Definition build_capacity (s : CapacitySources) : Checked BuildCapacity :=
  match so_resources s with
  | Some (memory, swap) => Ok {| cap_memory_bytes := memory; cap_swap_bytes := swap |}
  | None =>
      let sysinfo := (λ v, capacity_from_sysinfo_values v.1.1 v.1.2 v.2) <$> so_sysinfo s in
      let meminfo field := raw ← so_meminfo s; parse_meminfo_bytes raw field in
      memory_limit ≔ read_cgroup_limit "/sys/fs/cgroup/memory.max" (so_memory_max s) ?;
      memory ≔ needed "memory limit and MemTotal were unavailable"
                 (or_opt (or_opt memory_limit (meminfo "MemTotal")) (cap_memory_bytes <$> sysinfo)) ?;
      swap_limit ≔ read_cgroup_limit "/sys/fs/cgroup/memory.swap.max" (so_swap_max s) ?;
      Ok {| cap_memory_bytes := memory;
            cap_swap_bytes := default 0 (or_opt (or_opt swap_limit (meminfo "SwapTotal"))
                                                (cap_swap_bytes <$> sysinfo)) |}
  end.

(** ** Failures *)

Definition SOURCE_BUILD_CANDIDATE_CAP : nat := 50.

Record WouldBuildDerivations := {
  wb_paths : list string;
  wb_marker_seen : bool;
  wb_overflowed : bool;
  wb_expected_count : Z;
  wb_malformed : bool;
}.

Definition usize_max : Z := u64_max.

(** The number of derivations a line announces. *)
Definition advertised (trimmed : string) : option Z :=
  if bool_decide (trimmed = "this derivation will be built:") then Some 1
  else rest ← strip_prefix "these " trimmed;
       count ← strip_suffix " derivations will be built:" rest;
       parse_unsigned usize_max count.

(** The loop's variables: what was parsed, whether a block is open, the paths seen. *)
Definition scan_line (cap : nat) (st : WouldBuildDerivations * bool * gset string) (line : string)
    : WouldBuildDerivations * bool * gset string :=
  let '(p, in_block, unique) := st in
  let trimmed := trim line in
  match advertised trimmed with
  | Some n =>
      let total := wb_expected_count p + n in
      let sum := if total <=? usize_max then total else usize_max in
      ({| wb_paths := wb_paths p; wb_marker_seen := true;
          wb_overflowed := wb_overflowed p || (usize_max <? total) || (Z.of_nat cap <? sum);
          wb_expected_count := sum; wb_malformed := wb_malformed p |}, true, unique)
  | None =>
      if in_block && starts_with NIX_STORE trimmed && ends_with ".drv" trimmed then
        let repeated := bool_decide (trimmed ∈ unique) in
        let room := (length (wb_paths p) <? cap)%nat in
        ({| wb_paths := if negb repeated && room then wb_paths p ++ [trimmed] else wb_paths p;
            wb_marker_seen := wb_marker_seen p;
            wb_overflowed := wb_overflowed p || (negb repeated && negb room);
            wb_expected_count := wb_expected_count p;
            wb_malformed := wb_malformed p || repeated |}, true, {[ trimmed ]} ∪ unique)
      else
        ({| wb_paths := wb_paths p; wb_marker_seen := wb_marker_seen p; wb_overflowed := wb_overflowed p;
            wb_expected_count := wb_expected_count p;
            wb_malformed := wb_malformed p || contains ".drv" trimmed |}, false, unique)
  end.

Definition no_derivations : WouldBuildDerivations :=
  {| wb_paths := []; wb_marker_seen := false; wb_overflowed := false; wb_expected_count := 0;
     wb_malformed := false |}.

Definition extract_would_build_derivations (text : string) (cap : nat) : WouldBuildDerivations :=
  let '(p, _, unique) := foldl (scan_line cap) (no_derivations, false, ∅) (lines text) in
  {| wb_paths := wb_paths p; wb_marker_seen := wb_marker_seen p; wb_overflowed := wb_overflowed p;
     wb_expected_count := wb_expected_count p;
     wb_malformed := wb_malformed p
       || (wb_marker_seen p && negb (wb_expected_count p =? Z.of_nat (size unique))) |}.

(** [nix_log::derivation_display_name]. *)
Definition derivation_display_name (drv_path : string) : string :=
  let file_name := rsplit_next "/" drv_path in
  let file_name := default file_name (strip_suffix ".drv" file_name) in
  match split_once "-" file_name with
  | Some (hash, rest) => if (len hash =? 32) && all_bytes is_alnum hash then rest else file_name
  | None => file_name
  end.

Definition SOURCE_ADVICE : string := "Review the listed derivations. For an administrator-authored Blueprint, preserve its package choices unless an administrator selects a cache-backed equivalent, chooses a pinned nixpkgs revision with substitutes, or explicitly enables " +:+ String dquote ("Allow building from source" +:+ String dquote " in the organization Software delivery policy.").

Definition source_build_blocked_message (candidates : list string) : string :=
  match candidates with
  | [] => "Blocked: this build requires compiling derivations from source, which is disabled by the organization Software delivery policy. " +:+ SOURCE_ADVICE
  | _ =>
      let count := Z.of_nat (length candidates) in
      let suffix := if 5 <? count then " (+" +:+ show (count - 5) +:+ " more)" else "" in
      "Blocked: " +:+ show count +:+ " derivation(s) are not available from the binary cache and would be compiled from source: "
      +:+ join ", " (take 5 candidates) +:+ suffix +:+ ". " +:+ SOURCE_ADVICE
  end.

Definition classify_nix_build_failure (logs : string) (oom_killed : bool) : string * string :=
  let lower := to_ascii_lowercase logs in
  if contains_one ["daemon-socket"; "cannot connect to socket"; "error connecting to the nix daemon"] lower
  then ("nix_daemon_unavailable", "The Nix daemon is unavailable; restore nix-daemon.socket and retry")
  else if oom_killed || contains_one ["out of memory"; "oom-kill"] lower
  then ("out_of_memory", "Nest exhausted its build memory; increase memory/swap or reduce max_build_cores")
  else if contains_one ["no space left on device"; "disk full"] lower
  then ("insufficient_disk_space", "Nest ran out of disk space while building the Nix closure")
  else if contains "unable to start any build" lower then
    ("source_build_blocked",
     source_build_blocked_message
       (derivation_display_name <$> wb_paths (extract_would_build_derivations logs SOURCE_BUILD_CANDIDATE_CAP)))
  else if contains_one ["builder for '"; "failed to build"; "dependencies of derivation"] lower
  then ("package_build_failed", "A package in the pinned nixpkgs revision failed to build; inspect the bounded build log")
  else ("nix_build_failed", "Nix failed to build the requested closure; inspect the bounded build log").
