(* ===== verification/BuildSpecProofs.v ===== *)
(** * Build specifications: proofs

    The text [src/build.rs] hashes a document by determines it: two documents have
    the same text exactly when they are equal as serde_json compares them, without
    regard to the order of members.  Then what an accepted specification is bound
    to. *)

From stdpp Require Import sorting base gmap list strings.
From Stdlib Require Import Ascii ZArith Lia.
From S2P Require Import Prelude RustStr RustText Json DbText ProtectedText NixSource BootProofs BuildJobs ProtectedMaterial ProtectedProofs NarInfo ManagedBootProofs BuildSpec.

#[local] Open Scope Z_scope.
#[local] Open Scope nest_scope.

(** ** Texts that delimit themselves *)

Definition head_is (p : ascii → bool) (s : string) : Prop :=
  match s with String a _ => p a = true | EmptyString => False end.
Definition no_head (p : ascii → bool) (s : string) : Prop :=
  match s with String a _ => p a = false | EmptyString => True end.

Lemma span_unique p x y r r' :
  all_bytes p x = true → all_bytes p y = true → no_head p r → no_head p r' →
  x +:+ r = y +:+ r' → x = y ∧ r = r'.
Proof.
  unfold all_bytes. revert y. induction x as [|a x IH]; intros [|b y] Hx Hy Hr Hr' Heq; simpl in *.
  - done.
  - exfalso. apply andb_true_iff in Hy as [Hb _].
    assert (r = String b (y +:+ r')) as -> by done. simpl in Hr. congruence.
  - exfalso. apply andb_true_iff in Hx as [Ha _].
    assert (r' = String a (x +:+ r)) as -> by done. simpl in Hr'. congruence.
  - rewrite !str_app_cons in Heq. simplify_eq. apply andb_true_iff in Hx as [_ Hx].
    apply andb_true_iff in Hy as [_ Hy]. destruct (IH y) as [-> ->]; done.
Qed.

Definition delimiter (a : ascii) : bool := byte_in ",]}" a.
(** What may follow a value. *)
Definition closes (r : string) : Prop := no_head (λ a, negb (delimiter a)) r.

(** What is written between the first item and the closing bracket. *)
Fixpoint tail_text (ts : list string) : string :=
  match ts with [] => "" | t :: ts => String "," (t +:+ tail_text ts) end.

Lemma join_tail t ts : join "," (t :: ts) = t +:+ tail_text ts.
Proof.
  revert t. induction ts as [|u ts IH]; intros t; [by rewrite str_app_nil_r|].
  rewrite join_cons_nonempty, IH by done. done.
Qed.

Section Items.
Context {A : Type} (f g : A → string) (R : A → A → Prop) (close : ascii).
Hypothesis Hclose : delimiter close = true.
Hypothesis Hcomma : close ≠ ","%char.

Lemma tail_closes ts r : closes (tail_text ts +:+ String close r).
Proof. unfold closes. destruct ts; simpl; [by rewrite Hclose|done]. Qed.

Lemma tails_unique xs ys r r' :
  (∀ x y s s', x ∈ xs → y ∈ ys → closes s → closes s' → f x +:+ s = g y +:+ s' → R x y ∧ s = s') →
  tail_text (f <$> xs) +:+ String close r = tail_text (g <$> ys) +:+ String close r' →
  Forall2 R xs ys ∧ r = r'.
Proof.
  revert ys. induction xs as [|x xs IH]; intros [|y ys] HR Heq;
    cbn [tail_text fmap list_fmap] in Heq; rewrite ?str_app_cons, ?str_app_assoc in Heq.
  - change (String close r = String close r') in Heq. by simplify_eq.
  - exfalso. apply Hcomma. injection Heq as Hh _. exact Hh.
  - exfalso. apply Hcomma. injection Heq as Hh _. by symmetry.
  - injection Heq as Heq.
    apply HR in Heq as [Hxy Heq]; try apply tail_closes; try by left.
    apply IH in Heq as [Hall ->]; [by split; [constructor|]|].
    intros x' y' s s' Hx' Hy'. by apply HR; right.
Qed.

(** A bracketed list of items determines them, and where it ends. *)
Lemma items_unique xs ys r r' :
  (∀ x y s s', x ∈ xs → y ∈ ys → closes s → closes s' → f x +:+ s = g y +:+ s' → R x y ∧ s = s') →
  (∀ x, x ∈ xs → no_head (Ascii.eqb close) (f x) ∧ f x ≠ "") →
  (∀ y, y ∈ ys → no_head (Ascii.eqb close) (g y) ∧ g y ≠ "") →
  join "," (f <$> xs) +:+ String close r = join "," (g <$> ys) +:+ String close r' →
  Forall2 R xs ys ∧ r = r'.
Proof.
  assert (∀ s t r0, no_head (Ascii.eqb close) s ∧ s ≠ "" → s +:+ t ≠ String close r0) as Hhead.
  { intros [|a s] t r0 [Hh Hne]; [done|]. simpl in Hh. rewrite str_app_cons.
    intros [= -> _]. by rewrite Ascii.eqb_refl in Hh. }
  intros HR Hf Hg Heq. destruct xs as [|x xs], ys as [|y ys]; cbn [fmap list_fmap] in Heq;
    rewrite ?join_tail, ?str_app_assoc in Heq.
  - change (String close r = String close r') in Heq. by simplify_eq.
  - exfalso. simpl in Heq. symmetry in Heq. revert Heq. apply Hhead, Hg. left.
  - exfalso. simpl in Heq. revert Heq. apply Hhead, Hf. left.
  - apply HR in Heq as [Hxy Heq]; try apply tail_closes; try by left.
    apply tails_unique in Heq as [Hall ->]; [by split; [constructor|]|].
    intros x' y' s s' Hx' Hy'. by apply HR; right.
Qed.
End Items.

(** ** Documents *)

(** The members of an object have different names. *)
Inductive distinct_keys : Value → Prop :=
| dk_null : distinct_keys Null
| dk_bool b : distinct_keys (Bool b)
| dk_pos n : 0 ≤ n → distinct_keys (Num (PosInt n))
| dk_neg n : n < 0 → distinct_keys (Num (NegInt n))
| dk_float n : distinct_keys (Num (Float n))
| dk_str s : distinct_keys (Str s)
| dk_array items : (∀ v, v ∈ items → distinct_keys v) → distinct_keys (Array items)
| dk_object fields : NoDup fields.*1 → (∀ key v, obj_get key fields = Some v → distinct_keys v) →
    distinct_keys (Object fields).

Fixpoint has_distinct_keys (v : Value) : bool :=
  match v with
  | Null | Bool _ | Str _ | Num (Float _) => true
  | Num (PosInt n) => 0 <=? n
  | Num (NegInt n) => n <? 0
  | Array items => forallb has_distinct_keys items
  | Object fields => bool_decide (NoDup fields.*1)
                     && forallb (λ kv : string * Value, has_distinct_keys kv.2) fields
  end.

(** [PartialEq] of [serde_json::Value]: objects are compared as maps. *)
Inductive json_eq : Value → Value → Prop :=
| je_null : json_eq Null Null
| je_bool b : json_eq (Bool b) (Bool b)
| je_num n : json_eq (Num n) (Num n)
| je_str s : json_eq (Str s) (Str s)
| je_array xs ys : Forall2 json_eq xs ys → json_eq (Array xs) (Array ys)
| je_object fs gs : (∀ key, option_Forall2 json_eq (obj_get key fs) (obj_get key gs)) →
    json_eq (Object fs) (Object gs).

(** What the text relies on: how JSON writes numbers and strings. *)
Definition number_byte (a : ascii) : bool := is_digit a || byte_in "+-.eE" a.
Class JsonLaws {build : BuildDeps} {protected : ProtectedDeps} : Prop := {
  number_text_bytes n : all_bytes number_byte (number_text n) = true ∧ number_text n ≠ "";
  number_text_inj n m : distinct_keys (Num n) → distinct_keys (Num m) →
    number_text n = number_text m → n = m;
  json_string_quoted s : ∃ t, json_string s = String dquote t;
  json_string_delimited s t r r' : json_string s +:+ r = json_string t +:+ r' → s = t ∧ r = r';
}.

Section Canonical.
Context {build : BuildDeps} {protected : ProtectedDeps} {laws : JsonLaws}.

Definition member (fields : list (string * Value)) (key : string) : string :=
  json_string key +:+ ":" +:+ default "" (canonical_json <$> obj_get key fields).

Lemma canonical_object fields :
  canonical_json (Object fields)
  = "{" +:+ join "," (member fields <$> merge_sort String.le fields.*1) +:+ "}".
Proof.
  cbn [canonical_json]. do 3 f_equal. apply list_fmap_ext. intros i key _.
  unfold member, json_key. do 3 f_equal.
  induction fields as [|[k v] fields IH]; [done|]. cbn [fmap list_fmap List.find obj_get fst snd].
  by case_bool_decide.
Qed.

Lemma obj_get_elem key v fields : obj_get key fields = Some v → (key, v) ∈ fields.
Proof.
  induction fields as [|[k u] fields IH]; [done|]. simpl. case_bool_decide; [|by right; apply IH].
  intros [= ->]. subst. left.
Qed.

Lemma has_distinct_keys_sound v : has_distinct_keys v = true → distinct_keys v.
Proof.
  induction v as [|b|[]|s|items IH|fields IH] using value_nested_ind; cbn; intros H;
    try (constructor; bool_prop; done).
  - constructor. intros u Hu. rewrite Forall_forall in IH. rewrite forallb_forall in H.
    apply IH; [done|]. by apply H, list_elem_of_In.
  - apply andb_true_iff in H as [Hnd H]. apply bool_decide_eq_true in Hnd. constructor; [done|].
    intros key u Hu. apply obj_get_elem in Hu. rewrite Forall_forall in IH. rewrite forallb_forall in H.
    apply (IH (key, u)); [done|]. by apply (H (key, u)), list_elem_of_In.
Qed.

Lemma obj_get_keys key fields : key ∈ fields.*1 ↔ is_Some (obj_get key fields).
Proof.
  induction fields as [|[k u] fields IH]; simpl; [split; [by intros ?%elem_of_nil|by intros [? ?]]|].
  rewrite elem_of_cons. case_bool_decide; [naive_solver|]. rewrite IH. naive_solver.
Qed.

Lemma sorted_keys key fields : key ∈ merge_sort String.le fields.*1 ↔ is_Some (obj_get key fields).
Proof. by rewrite <- obj_get_keys, merge_sort_Permutation. Qed.

(** The first byte tells what kind of value follows. *)
Definition kind_of (v : Value) : Z :=
  match v with Null => 0 | Bool _ => 1 | Num _ => 2 | Str _ => 3 | Array _ => 4 | Object _ => 5 end.
Definition kind_byte (a : ascii) : Z :=
  if Ascii.eqb a "n" then 0 else if byte_in "tf" a then 1 else if Ascii.eqb a dquote then 3
  else if Ascii.eqb a "[" then 4 else if Ascii.eqb a "{" then 5 else 2.

Lemma canonical_head v : ∃ a s, canonical_json v = String a s ∧ kind_byte a = kind_of v ∧ delimiter a = false.
Proof.
  destruct v as [|[]|n|s|items|fields]; try by (do 2 eexists).
  - cbn [canonical_json]. destruct (number_text_bytes n) as [Hb Hne].
    destruct (number_text n) as [|a s]; [done|]. exists a, s. split; [done|].
    unfold all_bytes in Hb. simpl in Hb. apply andb_true_iff in Hb as [Ha _]. clear -Ha.
    destruct a as [[] [] [] [] [] [] [] []]; done.
  - cbn [canonical_json]. destruct (json_string_quoted s) as [t ->]. by do 2 eexists.
Qed.

Lemma canonical_kind v v' r r' : canonical_json v +:+ r = canonical_json v' +:+ r' → kind_of v = kind_of v'.
Proof.
  destruct (canonical_head v) as (a & s & -> & <- & _), (canonical_head v') as (b & t & -> & <- & _).
  rewrite !str_app_cons. by intros [= -> _].
Qed.

Lemma canonical_opens v close : delimiter close = true →
  no_head (Ascii.eqb close) (canonical_json v) ∧ canonical_json v ≠ "".
Proof.
  intros Hc. destruct (canonical_head v) as (a & s & -> & _ & Ha). split; [|done]. simpl.
  apply Ascii.eqb_neq. intros ->. congruence.
Qed.

Lemma member_opens fields key : no_head (Ascii.eqb "}") (member fields key) ∧ member fields key ≠ "".
Proof. unfold member. by destruct (json_string_quoted key) as [t ->]. Qed.

#[local] Instance string_le_trans' : Transitive String.le.
Proof. apply (string_le_trans). Qed.

Lemma sorted_keys_unique (ks ks' : list string) :
  ks ≡ₚ ks' → merge_sort String.le ks = merge_sort String.le ks'.
Proof.
  intros Hp. apply (StronglySorted_unique String.le).
  - apply (StronglySorted_merge_sort _).
  - apply (StronglySorted_merge_sort _).
  - by rewrite !merge_sort_Permutation.
Qed.

Lemma json_eq_text v v' : distinct_keys v → distinct_keys v' → json_eq v v' →
  canonical_json v = canonical_json v'.
Proof.
  revert v'. induction v as [| | | |items IH|fields IH] using value_nested_ind;
    intros v' Hd Hd' He; inversion He as [| | | |? ys Hall|? gs Hget]; subst; try done.
  - inversion Hd as [| | | | | |? Hi|]; inversion Hd' as [| | | | | |? Hi'|]; subst. clear He Hd Hd'.
    cbn [canonical_json]. do 3 f_equal. revert IH Hi Hi'. induction Hall as [|x y xs ys Hxy _ IHl]; [done|].
    intros IH Hi Hi'. inversion IH; subst. cbn [fmap list_fmap]. f_equal.
    + apply H1; [apply Hi; left|apply Hi'; left|done].
    + apply IHl; [done| |]; intros u Hu; [apply Hi|apply Hi']; by right.
  - inversion Hd as [| | | | | | |? Hnd Hv]; inversion Hd' as [| | | | | | |? Hnd' Hv']; subst.
    rewrite !canonical_object.
    assert (fields.*1 ≡ₚ gs.*1) as Hp.
    { apply NoDup_Permutation; [done..|]. intros key. rewrite !obj_get_keys.
      specialize (Hget key). inversion Hget; naive_solver. }
    rewrite (sorted_keys_unique _ _ Hp). do 3 f_equal. apply list_fmap_ext. intros i key _.
    unfold member. do 2 f_equal. specialize (Hget key). inversion Hget as [x y Hxy Hx Hy|Hx Hy]; [|done].
    cbn. rewrite Forall_forall in IH. symmetry in Hx, Hy.
    apply (IH (key, x)); [by apply obj_get_elem|by eapply Hv|by eapply Hv'|done].
Qed.

Lemma canonical_unique v v' r r' :
  distinct_keys v → distinct_keys v' → closes r → closes r' →
  canonical_json v +:+ r = canonical_json v' +:+ r' → json_eq v v' ∧ r = r'.
Proof.
  revert v' r r'. induction v as [|b|n|s|items IH|fields IH] using value_nested_ind;
    intros v' r r' Hd Hd' Hr Hr' Heq; pose proof (canonical_kind _ _ _ _ Heq) as Hk;
    destruct v' as [|b'|m|s'|items'|gs]; try done; clear Hk.
  - injection Heq as Hrest. split; [constructor|exact Hrest].
  - destruct b, b'; try done; injection Heq as Hrest; (split; [constructor|exact Hrest]).
  - cbn [canonical_json] in Heq. destruct (number_text_bytes n), (number_text_bytes m).
    apply (span_unique number_byte) in Heq as [Hn ->]; [|done|done| |].
    + apply number_text_inj in Hn as ->; [|done..]. split; [constructor|done].
    + destruct r as [|a r]; [done|]. unfold closes in Hr. simpl in *. clear -Hr.
      destruct a as [[] [] [] [] [] [] [] []]; done.
    + destruct r' as [|a r']; [done|]. unfold closes in Hr'. simpl in *. clear -Hr'.
      destruct a as [[] [] [] [] [] [] [] []]; done.
  - cbn [canonical_json] in Heq. apply json_string_delimited in Heq as [-> ->]. split; [constructor|done].
  - inversion Hd as [| | | | | |? Hi|]; inversion Hd' as [| | | | | |? Hi'|]; subst.
    cbn [canonical_json] in Heq. rewrite !str_app_assoc in Heq. injection Heq as Heq.
    apply (items_unique _ _ json_eq "]") in Heq as [Hall ->]; [|done|done| | |].
    + split; [by constructor|done].
    + intros x y u u' Hx Hy Hu Hu' Hxy. rewrite Forall_forall in IH. apply IH in Hxy; auto.
    + intros x _. by apply canonical_opens.
    + intros x _. by apply canonical_opens.
  - inversion Hd as [| | | | | | |? Hnd Hv]; inversion Hd' as [| | | | | | |? Hnd' Hv']; subst.
    rewrite !canonical_object, !str_app_assoc in Heq.
    rewrite !(str_app_cons "{") in Heq. injection Heq as Heq.
    apply (items_unique _ _
             (λ k k', k = k' ∧ option_Forall2 json_eq (obj_get k fields) (obj_get k gs)) "}")
      in Heq as [Hall ->]; [|done|done| | |].
    + split; [|done]. constructor. intros key.
      assert (merge_sort String.le fields.*1 = merge_sort String.le gs.*1) as Hks.
      { clear -Hall. induction Hall as [|? ? ? ? [-> _] _ IHl]; [done|]. by rewrite IHl. }
      destruct (obj_get key fields) as [x|] eqn:Hx.
      * assert (key ∈ merge_sort String.le fields.*1) as Hkey by (apply sorted_keys; eauto).
        apply list_elem_of_lookup in Hkey as [i Hi].
        destruct (Forall2_lookup_l _ _ _ _ _ Hall Hi) as (k' & _ & <- & Ho). by rewrite Hx in Ho.
      * destruct (obj_get key gs) as [y|] eqn:Hy; [|constructor].
        assert (key ∈ merge_sort String.le gs.*1) as Hkey by (apply sorted_keys; eauto).
        rewrite <- Hks, sorted_keys, Hx in Hkey. by destruct Hkey.
    + intros k k' u u' Hk Hk' Hu Hu' Hm. unfold member in Hm. rewrite !str_app_assoc in Hm.
      apply json_string_delimited in Hm as [<- Hm]. rewrite !str_app_cons in Hm. injection Hm as Hm.
      apply sorted_keys in Hk as [x Hx], Hk' as [y Hy]. rewrite Hx, Hy in *. cbn in Hm.
      rewrite Forall_forall in IH.
      apply (IH (k, x) (obj_get_elem _ _ _ Hx)) in Hm as [He ->]; eauto. by repeat constructor.
    + intros k _. apply member_opens.
    + intros k _. apply member_opens.
Qed.

Lemma canonical_json_inj v v' : distinct_keys v → distinct_keys v' →
  canonical_json v = canonical_json v' → json_eq v v'.
Proof.
  intros Hd Hd' Heq. eapply (canonical_unique v v' "" ""); try done. by rewrite Heq.
Qed.

End Canonical.

(** ** Build specifications: what is admitted

    What an accepted specification of an installer target is bound to, that the
    identity of a cohort determines the inputs of its closure, and at which
    nixpkgs commit a job is admitted. *)

(** ** Taking a check apart *)

Lemma refuse_if_Ok b text u : refuse_if b text = Ok u ↔ b = false.
Proof. unfold refuse_if. destruct b, u; simpl; naive_solver. Qed.
Lemma needed_Ok {A} text (o : option A) a : needed text o = Ok a ↔ o = Some a.
Proof. destruct o; simpl; naive_solver. Qed.
Lemma in_context_Ok {E A} text (r : result E A) a : in_context text r = Ok a ↔ r = Ok a.
Proof. unfold in_context. rewrite needed_Ok. destruct r; simpl; naive_solver. Qed.
Lemma transpose_Some {A B} (f : A → Checked B) a r : transpose f (Some a) = Ok r ↔ ∃ b, f a = Ok b ∧ r = Some b.
Proof. unfold transpose. destruct (f a); cbn; naive_solver. Qed.
Lemma or_else_false a b : or_else a b = Ok false ↔ a = Ok false ∧ b = Ok false.
Proof. unfold or_else. destruct a as [[]|]; cbn; naive_solver. Qed.
Lemma identity_text_Ok object field text :
  identity_text object field = Ok text ↔ obj_get field object = Some (Str text).
Proof.
  unfold identity_text. rewrite needed_Ok, bind_Some. split.
  - by intros (v & Hv & ->%as_str_Some).
  - intros ->. by exists (Str text).
Qed.

Lemma identity_differs_false object expected field :
  identity_differs object expected field = Ok false ↔
  ∃ text, obj_get field object = Some (Str text) ∧ expected = Some text.
Proof.
  unfold identity_differs. split.
  - intros H. apply rbind_Ok in H as (text & H%identity_text_Ok & [= Hn]). apply negb_false_iff, bool_decide_eq_true in Hn. eauto.
  - intros (text & H & ->). apply identity_text_Ok in H. rewrite H. cbn.
    by rewrite bool_decide_true.
Qed.

(** ** Installer targets *)

Section Spec.
Context {build : BuildDeps} {protected : ProtectedDeps} {ed25519 : Ed25519}.

(** The digests a cohort's identity names are those of the modules. *)
Record cohort_bound (identity : list (string * Value)) (input : BlueprintBuildInput)
    (state : Value) (hardware target : string) : Prop := {
  cb_generated : obj_get "generated_nix_sha256" identity = Some (Str (sha256_hex_of (bi_generated_nix input)));
  cb_hardware : obj_get "hardware_module_sha256" identity = Some (Str (sha256_hex_of hardware));
  cb_target : obj_get "target_module_sha256" identity = Some (Str (sha256_hex_of target));
  cb_state : obj_get "expected_state_sha256" identity = Some (Str (canonical_json_sha256 state));
  cb_revision : ∃ text revision, obj_get "manage_source_revision" identity = Some (Str text) ∧
    normalize_nixpkgs_commit text = Ok revision ∧ bi_manage_source_revision input = Some revision;
}.

(** What an accepted installer target is bound to. *)
Record installer_bound (job : BuildJob) (spec : BuildSpec) (raw : Value) (input : BlueprintBuildInput)
    (identity : list (string * Value)) (state : Value) (hardware target : string) : Prop := {
  ib_raw : get "build_input" (bj_build_spec job) = Some raw;
  ib_hash : canonical_json_sha256 raw = ji_input_config_hash (job_inputs (bj_row job));
  ib_input : bs_build_input spec = Some input;
  ib_kind : bi_kind input = INSTALLER_TARGET_BUILD_INPUT_KIND;
  ib_identity : bi_installer_target input = Some (Object identity);
  ib_state : bi_expected_state input = Some state;
  ib_hardware : bi_hardware_module_nix input = Some hardware;
  ib_target : bi_target_module_nix input = Some target;
  ib_desktop : bi_desktop_module_nix input = None;
  ib_blueprint : ∃ id, obj_get "blueprint_id" identity = Some (Str id) ∧ bs_blueprint_id spec = Some id;
  ib_revision : ∃ id, obj_get "blueprint_revision_id" identity = Some (Str id) ∧
    bs_blueprint_revision_id spec = Some id ∧ ji_input_revision (job_inputs (bj_row job)) = id ∧
    (pointer2 "deployment" "blueprint_revision_id" state ≫= as_str) = Some id;
  ib_nixpkgs : ∃ commit, obj_get "nixpkgs_revision" identity = Some (Str commit) ∧
    bs_nixpkgs_commit spec = Some commit;
  ib_lock : ∃ lock, obj_get "source_lock_sha256" identity = Some (Str lock) ∧
    bs_source_lock_sha256 spec = Some lock;
  ib_config : ∃ text h, (pointer2 "deployment" "artifact_config_hash" state ≫= as_str) = Some text ∧
    normalize_sha256 text = Ok h ∧ bs_blueprint_revision_config_hash spec = Some h;
  ib_config_cohort : obj_get "schema" identity = Some (Str INSTALLER_TARGET_BUILD_SCHEMA_V3) →
    ∃ h, obj_get "blueprint_revision_config_hash" identity = Some (Str h) ∧
      bs_blueprint_revision_config_hash spec = Some h;
  ib_cohort : obj_get "schema" identity = Some (Str INSTALLER_TARGET_BUILD_SCHEMA_V3) →
    cohort_bound identity input state hardware target;
}.

Lemma digest_matches_Ok object field digest message u :
  digest_matches object field digest message = Ok u → obj_get field object = Some (Str digest).
Proof.
  unfold digest_matches. intros H. apply rbind_Ok in H as (v & Hv%identity_text_Ok & H).
  apply refuse_if_Ok, negb_false_iff, bool_decide_eq_true in H as ->. done.
Qed.

Lemma cohort_identity_bound identity revision digests u :
  validate_installer_target_cohort_identity identity revision digests = Ok u →
  ∃ state, md_expected_state digests = Some state ∧
    obj_get "generated_nix_sha256" identity = Some (Str (sha256_hex_of (md_generated_nix digests))) ∧
    obj_get "hardware_module_sha256" identity = Some (Str (sha256_hex_of (md_hardware_module_nix digests))) ∧
    obj_get "target_module_sha256" identity = Some (Str (sha256_hex_of (md_target_module_nix digests))) ∧
    obj_get "expected_state_sha256" identity = Some (Str (canonical_json_sha256 state)) ∧
    ∃ text, obj_get "manage_source_revision" identity = Some (Str text) ∧
            normalize_nixpkgs_commit text = Ok revision.
Proof.
  unfold validate_installer_target_cohort_identity. intros H.
  apply rbind_Ok in H as (? & _ & H). apply rbind_Ok in H as (? & _ & H). apply rbind_Ok in H as (? & _ & H).
  apply rbind_Ok in H as (? & Hg%digest_matches_Ok & H). apply rbind_Ok in H as (? & Hh%digest_matches_Ok & H).
  apply rbind_Ok in H as (? & Ht%digest_matches_Ok & H). apply rbind_Ok in H as (state & Hs & H).
  apply needed_Ok in Hs. apply rbind_Ok in H as (? & He%digest_matches_Ok & H).
  apply rbind_Ok in H as (? & Hr & _). exists state. repeat (split; [done|]).
  unfold revisions_match in Hr. apply rbind_Ok in Hr as (text & Htext & Hr).
  apply rbind_Ok in Hr as (rev & Hrev & Hr). apply rbind_Ok in Hr as (? & Hm & _).
  apply refuse_if_Ok, negb_false_iff, bool_decide_eq_true in Hm as ->.
  exists text. by rewrite identity_text_Ok in Htext.
Qed.

(** What the modules of an installer target satisfy. *)
Lemma installer_input_facts input u :
  check_installer_input input = Ok u →
  ∃ hardware target revision identity state id,
    bi_hardware_module_nix input = Some hardware ∧ bi_target_module_nix input = Some target ∧
    bi_manage_source_revision input = Some revision ∧ bi_installer_target input = Some (Object identity) ∧
    bi_expected_state input = Some state ∧ bi_desktop_module_nix input = None ∧
    (pointer2 "deployment" "blueprint_revision_id" state ≫= as_str) = Some id ∧
    obj_get "blueprint_revision_id" identity = Some (Str id) ∧
    (obj_get "schema" identity = Some (Str INSTALLER_TARGET_BUILD_SCHEMA_V3) →
     cohort_bound identity input state hardware target).
Proof.
  unfold check_installer_input. intros H.
  apply rbind_Ok in H as (hardware & Hh%needed_Ok & H). do 2 apply rbind_Ok in H as (? & _ & H).
  apply rbind_Ok in H as (target & Ht%needed_Ok & H). do 2 apply rbind_Ok in H as (? & _ & H).
  apply rbind_Ok in H as (revision & Hr%needed_Ok & H). apply rbind_Ok in H as (? & _ & H).
  apply rbind_Ok in H as (value & Hi%needed_Ok & H). apply rbind_Ok in H as (? & Hid & H).
  apply rbind_Ok in H as (id & Hrev%needed_Ok & H). apply rbind_Ok in H as (? & Hm%refuse_if_Ok & H).
  apply refuse_if_Ok, orb_false_iff in H as [Hd _]. apply bool_decide_eq_false in Hd.
  apply negb_false_iff, bool_decide_eq_true in Hm.
  unfold validate_installer_target_identity in Hid.
  apply rbind_Ok in Hid as (identity & Ho%needed_Ok & Hid). apply as_object_Some in Ho as ->.
  apply rbind_Ok in Hid as (schema & Hsc%identity_text_Ok & Hid).
  destruct (bi_expected_state input) as [state|] eqn:Hstate; [|done].
  exists hardware, target, revision, identity, state, id.
  split; [done|]. split; [done|]. split; [done|]. split; [done|]. split; [done|].
  split; [destruct (bi_desktop_module_nix input); [|done]; by destruct Hd|].
  split; [exact Hrev|]. split.
  { cbn in Hm. apply bind_Some in Hm as (v & Hv & ->%as_str_Some). done. }
  intros Hv3. rewrite Hsc in Hv3. injection Hv3 as ->. rewrite bool_decide_true in Hid by done.
  apply cohort_identity_bound in Hid as (s & [= ->] & Hg & Hhw & Htg & Hst & text & Htext & Hn).
  constructor; try done. by exists text, revision.
Qed.

Lemma build_input_facts input valid :
  validate_blueprint_build_input input = Ok valid →
  bi_installer_target valid = bi_installer_target input ∧ bi_expected_state valid = bi_expected_state input ∧
  bi_hardware_module_nix valid = bi_hardware_module_nix input ∧
  bi_target_module_nix valid = bi_target_module_nix input ∧
  bi_desktop_module_nix valid = bi_desktop_module_nix input ∧
  bi_manage_source_revision valid = bi_manage_source_revision input ∧
  bi_generated_nix valid = bi_generated_nix input ∧
  (bi_installer_target input = None ∨
   bi_kind valid = INSTALLER_TARGET_BUILD_INPUT_KIND ∧ check_installer_input input = Ok tt).
Proof.
  unfold validate_blueprint_build_input. intros H.
  do 8 apply rbind_Ok in H as (? & _ & H). apply rbind_Ok in H as ([] & Ht & H).
  apply rbind_Ok in H as (? & _ & H). injection H as <-. cbn. repeat (split; [done|]).
  case_bool_decide as Hk; [by right|left].
  apply refuse_if_Ok in Ht. destruct (bi_installer_target input); [|done].
  by rewrite orb_true_r in Ht.
Qed.

Lemma binding_facts revision hash blueprint blueprint_revision config_hash commit lock input raw u :
  validate_installer_target_build_binding revision hash blueprint blueprint_revision config_hash
    commit lock input raw = Ok u →
  canonical_json_sha256 raw = hash ∧ blueprint_revision = Some revision ∧
  ∃ identity state text h,
    bi_installer_target input = Some (Object identity) ∧ bi_expected_state input = Some state ∧
    (pointer2 "deployment" "artifact_config_hash" state ≫= as_str) = Some text ∧
    normalize_sha256 text = Ok h ∧ config_hash = Some h ∧
    (∃ id, obj_get "blueprint_id" identity = Some (Str id) ∧ blueprint = Some id) ∧
    (∃ id, obj_get "blueprint_revision_id" identity = Some (Str id) ∧ blueprint_revision = Some id) ∧
    (∃ c, obj_get "nixpkgs_revision" identity = Some (Str c) ∧ commit = Some c) ∧
    (∃ l, obj_get "source_lock_sha256" identity = Some (Str l) ∧ lock = Some l) ∧
    (obj_get "schema" identity = Some (Str INSTALLER_TARGET_BUILD_SCHEMA_V3) →
     ∃ h', obj_get "blueprint_revision_config_hash" identity = Some (Str h') ∧ config_hash = Some h').
Proof.
  unfold validate_installer_target_build_binding. intros H.
  apply rbind_Ok in H as (? & Hh%refuse_if_Ok & H). apply negb_false_iff, bool_decide_eq_true in Hh.
  apply rbind_Ok in H as (identity & Hi%needed_Ok & H). apply bind_Some in Hi as (v & Hi & ->%as_object_Some).
  apply rbind_Ok in H as (state & Hs%needed_Ok & H). apply rbind_Ok in H as (h & Hc & H).
  apply rbind_Ok in Hc as (text & Htext%needed_Ok & Hnorm).
  apply rbind_Ok in H as (differs & Hd & H). apply rbind_Ok in H as (? & ->%refuse_if_Ok & Hv3).
  rewrite !or_else_false, !identity_differs_false in Hd.
  destruct Hd as (H1 & H2 & [= H3] & H4 & H5 & [= H6]).
  apply negb_false_iff, bool_decide_eq_true in H3, H6.
  assert (obj_get "schema" identity = Some (Str INSTALLER_TARGET_BUILD_SCHEMA_V3) →
    ∃ h', obj_get "blueprint_revision_config_hash" identity = Some (Str h') ∧ config_hash = Some h') as H7.
  { intros Hs3. rewrite Hs3, bool_decide_true in Hv3 by done.
    apply rbind_Ok in Hv3 as (differs' & Hd' & ->%refuse_if_Ok). by apply identity_differs_false in Hd'. }
  split; [done|]. split; [done|]. exists identity, state, text, h. auto 20.
Qed.

(** An accepted installer target is bound to its document and its job. *)
Lemma accepted_is_bound config job spec :
  validate_build_spec config job = Ok spec → bs_target spec = "installer_target" →
  ∃ raw input identity state hardware target,
    installer_bound job spec raw input identity state hardware target.
Proof.
  unfold validate_build_spec. intros H Htarget.
  apply rbind_Ok in H as (? & _ & H). apply rbind_Ok in H as (d & _ & H).
  apply rbind_Ok in H as (? & _ & H). apply rbind_Ok in H as (artifact & _ & H).
  apply rbind_Ok in H as (target & _ & H). apply rbind_Ok in H as (system & _ & H).
  apply rbind_Ok in H as (? & _ & H). apply rbind_Ok in H as (revision & _ & H).
  apply rbind_Ok in H as (hash & _ & H). do 2 apply rbind_Ok in H as (? & _ & H).
  apply rbind_Ok in H as (? & Hrow%refuse_if_Ok & H). apply orb_false_iff in Hrow as [Hrow1 Hrow2].
  apply negb_false_iff, bool_decide_eq_true in Hrow1, Hrow2.
  apply rbind_Ok in H as (blueprint & _ & H). apply rbind_Ok in H as (blueprint_revision & _ & H).
  apply rbind_Ok in H as (config_hash & _ & H). apply rbind_Ok in H as (inputs & Hin & H).
  apply rbind_Ok in H as (? & _ & H). apply rbind_Ok in H as (commit & _ & H).
  apply rbind_Ok in H as (lock & _ & H). do 2 apply rbind_Ok in H as (? & _ & H).
  apply rbind_Ok in H as (refs & _ & H). apply rbind_Ok in H as (? & Hb & H).
  apply rbind_Ok in H as (source & _ & H). injection H as <-. cbn in Htarget. subst target.
  rewrite bool_decide_true in Hb by done.
  apply rbind_Ok in Hb as (input & ->%needed_Ok & Hb). apply rbind_Ok in Hb as (raw & Hraw%needed_Ok & Hb).
  apply binding_facts in Hb as (Hhash & Hrev & identity & state & text & h & Hid & Hst & Htext & Hn & Hcfg & Hbp & Hbr & Hc & Hl & Hcfg3).
  destruct (bs_build_input d) as [given|]; [|done].
  apply transpose_Some in Hin as (valid & Hvalid & [= ->]).
  apply build_input_facts in Hvalid as (E1 & E2 & E3 & E4 & E5 & E6 & E7 & [Hnone|[Hkind Hcheck]]); [congruence|].
  apply installer_input_facts in Hcheck as (hw & tg & rev & identity' & state' & id & F1 & F2 & F3 & F4 & F5 & F6 & F7 & F8 & F9).
  assert (identity' = identity) as -> by congruence. assert (state' = state) as -> by congruence.
  destruct Hbr as (id' & Hid' & Hbr). simplify_eq.
  exists raw, valid, identity, state, hw, tg. constructor; cbn; try congruence; eauto.
  intros Hv3. destruct (F9 Hv3) as [G1 G2 G3 G4 G5]. constructor; try congruence.
  destruct G5 as (t & r & ? & ? & ?). exists t, r. by rewrite E6.
Qed.

(** Two texts with one digest. *)
Definition collision (x y : string) : Prop := x ≠ y ∧ sha256_hex_of x = sha256_hex_of y.
Definition same_or_collision (x y : string) : Prop := x = y ∨ collision x y.
Lemma same_digest x y : sha256_hex_of x = sha256_hex_of y → same_or_collision x y.
Proof. intros H. destruct (decide (x = y)); [by left|right]. by split. Qed.

(** C12. The identity of a cohort determines the closure.  Two jobs for installer targets that
    were both accepted, whose specifications carry the same identity of version 3 and whose
    expected states repeat no key, have the same Tiaris revision, nixpkgs commit, source lock,
    Blueprint, revision and hash of the revision; and they have the same Blueprint module, hardware
    module and target module and expected states that are equal as documents, unless those two
    texts, or the canonical texts of those two states, are different and have one SHA-256 digest. *)
Theorem cohort_identity_determines_the_inputs {laws : JsonLaws} config1 config2 job1 job2 spec1 spec2 identity :
  validate_build_spec config1 job1 = Ok spec1 → validate_build_spec config2 job2 = Ok spec2 →
  bs_target spec1 = "installer_target" → bs_target spec2 = "installer_target" →
  get "schema" identity = Some (Str INSTALLER_TARGET_BUILD_SCHEMA_V3) →
  (bs_build_input spec1 ≫= bi_installer_target) = Some identity →
  (bs_build_input spec2 ≫= bi_installer_target) = Some identity →
  (∀ state, (bs_build_input spec1 ≫= bi_expected_state) = Some state → distinct_keys state) →
  (∀ state, (bs_build_input spec2 ≫= bi_expected_state) = Some state → distinct_keys state) →
  ∃ input1 input2 state1 state2 hardware1 hardware2 target1 target2,
    bs_build_input spec1 = Some input1 ∧ bs_build_input spec2 = Some input2 ∧
    bi_hardware_module_nix input1 = Some hardware1 ∧ bi_hardware_module_nix input2 = Some hardware2 ∧
    bi_target_module_nix input1 = Some target1 ∧ bi_target_module_nix input2 = Some target2 ∧
    bi_expected_state input1 = Some state1 ∧ bi_expected_state input2 = Some state2 ∧
    bi_desktop_module_nix input1 = None ∧ bi_desktop_module_nix input2 = None ∧
    same_or_collision (bi_generated_nix input1) (bi_generated_nix input2) ∧
    same_or_collision hardware1 hardware2 ∧ same_or_collision target1 target2 ∧
    (json_eq state1 state2 ∨ collision (canonical_json state1) (canonical_json state2)) ∧
    bi_manage_source_revision input1 = bi_manage_source_revision input2 ∧
    bs_nixpkgs_commit spec1 = bs_nixpkgs_commit spec2 ∧ is_Some (bs_nixpkgs_commit spec1) ∧
    bs_source_lock_sha256 spec1 = bs_source_lock_sha256 spec2 ∧
    bs_blueprint_id spec1 = bs_blueprint_id spec2 ∧
    bs_blueprint_revision_id spec1 = bs_blueprint_revision_id spec2 ∧
    bs_blueprint_revision_config_hash spec1 = bs_blueprint_revision_config_hash spec2 ∧
    is_Some (bs_blueprint_revision_config_hash spec1) ∧
    ji_input_revision (job_inputs (bj_row job1)) = ji_input_revision (job_inputs (bj_row job2)).
Proof.
  intros H1 H2 T1 T2 Hv3 I1 I2 D1 D2.
  destruct (accepted_is_bound _ _ _ H1 T1) as (raw1 & input1 & id1 & state1 & hw1 & tg1 & B1).
  destruct (accepted_is_bound _ _ _ H2 T2) as (raw2 & input2 & id2 & state2 & hw2 & tg2 & B2).
  destruct B1, B2. rewrite ib_input0 in I1, D1. rewrite ib_input1 in I2, D2. cbn in I1, I2, D1, D2.
  assert (identity = Object id1) as -> by congruence. assert (id2 = id1) as -> by congruence.
  cbn in Hv3. destruct (ib_cohort0 Hv3), (ib_cohort1 Hv3).
  assert (sha256_hex_of (bi_generated_nix input1) = sha256_hex_of (bi_generated_nix input2)) as Hg by congruence.
  assert (sha256_hex_of hw1 = sha256_hex_of hw2) as Hh by congruence.
  assert (sha256_hex_of tg1 = sha256_hex_of tg2) as Ht by congruence.
  assert (canonical_json_sha256 state1 = canonical_json_sha256 state2) as Hs by congruence.
  apply same_digest in Hg, Hh, Ht, Hs.
  exists input1, input2, state1, state2, hw1, hw2, tg1, tg2.
  assert (json_eq state1 state2 ∨ collision (canonical_json state1) (canonical_json state2)) as Hst.
  { destruct Hs as [Hs|]; [left|by right]. apply canonical_json_inj; [by apply D1|by apply D2|done]. }
  destruct (ib_config_cohort0 Hv3) as (? & ? & Hcfg), (ib_config_cohort1 Hv3) as (? & ? & ?).
  destruct cb_revision0 as (? & ? & ? & ? & ?), cb_revision1 as (? & ? & ? & ? & ?),
    ib_blueprint0 as (? & ? & ?), ib_blueprint1 as (? & ? & ?), ib_revision0 as (? & ? & ? & ? & ?),
    ib_revision1 as (? & ? & ? & ? & ?), ib_nixpkgs0 as (? & ? & Hc), ib_nixpkgs1 as (? & ? & ?),
    ib_lock0 as (? & ? & ?), ib_lock1 as (? & ? & ?).
  split_and!; first [done|congruence|by rewrite Hc|by rewrite Hcfg].
Qed.

(** An accepted job for an installer target is bound to its document: the hash in its row is
    that of the canonical text of the build input it carries, the input names an
    identity, an expected state, a hardware and a target module and no desktop module,
    and Blueprint, revision, nixpkgs commit and source lock of the specification are
    those of the identity, the revision is the one of the row and of the expected
    state, and the hash of the revision is the one of the expected state. *)
Theorem accepted_installer_targets_are_bound config job spec :
  validate_build_spec config job = Ok spec → bs_target spec = "installer_target" →
  ∃ raw input identity state hardware target,
    installer_bound job spec raw input identity state hardware target.
Proof. apply accepted_is_bound. Qed.

(** The text that is hashed identifies a document: two documents have the same canonical
    text exactly when they are equal without regard to the order of members. *)
Theorem canonical_json_identifies {laws : JsonLaws} v v' :
  distinct_keys v → distinct_keys v' → (canonical_json v = canonical_json v' ↔ json_eq v v').
Proof. split; [by apply canonical_json_inj|by apply json_eq_text]. Qed.
End Spec.

(** ** Admission *)

(** What a job is admitted at. *)
Definition reviewed (config : BuildConfig) (spec : BuildSpec) (detected : option string)
    (a : AdmittedTarget) : Prop :=
  at_target a ∈ bc_targets config ∧ target_matches spec (at_target a) = true ∧
  match bs_build_input spec with
  | Some _ => ∃ commit, at_nixpkgs_commit a = Some commit ∧ bs_nixpkgs_commit spec = Some commit ∧
                (pinned_nixpkgs_revision (bt_flake (at_target a)) = Ok commit ∨ detected = Some commit)
  | None => at_nixpkgs_commit a = ok (pinned_nixpkgs_revision (bt_flake (at_target a))) ∧
            (bs_nixpkgs_commit spec = None ∨ bs_nixpkgs_commit spec = at_nixpkgs_commit a)
  end.

Lemma admitted_is_reviewed config spec detected a :
  admit_build_target config spec detected = Ok a → reviewed config spec detected a.
Proof.
  unfold admit_build_target. intros H. apply rbind_Ok in H as (target & Hf%needed_Ok & H).
  apply List.find_some in Hf as [Hin Hm]. apply rbind_Ok in H as (commit & Hc & H). injection H as <-.
  split; [by apply list_elem_of_In|]. split; [done|]. cbn. destruct (bs_build_input spec).
  - apply rbind_Ok in Hc as (pin & Hpin%in_context_Ok & Hc).
    destruct (_ || _) eqn:E; [|done]. injection Hc as <-. apply orb_true_iff in E as [E|E]; bool_prop.
    + eauto 6.
    + destruct H as [c Hc]. exists c. rewrite H0. eauto.
  - destruct (_ && _) eqn:E; [done|]. injection Hc as <-. split; [done|].
    apply andb_false_iff in E as [E|E]; bool_prop; [left|by right].
    destruct (bs_nixpkgs_commit spec); [|done]. by destruct E.
Qed.
