(* ===== verification/BuildProfile.v ===== *)
(** * Build profiles

    [src/build/profile.rs]: the tool providers of one nixpkgs commit.  The reviewed
    commit has the built-in profile; a detected commit has one that is derived, which
    names for every reviewed provider the commit's own, and renders a script of the
    commit back to the reviewed script it stands for before its fingerprint is taken.
    Also the store paths and fingerprints of [src/build.rs] it uses. *)

From stdpp Require Import base gmap list strings.
From Stdlib Require Import Ascii ZArith Lia.
From S2P Require Import Prelude RustStr RustText Json DbText ProtectedText ProtectedMaterial BuildSpec BuildSpecProofs.

#[local] Open Scope Z_scope.
#[local] Open Scope nest_scope.

(** ** Store paths *)

Definition store_item_byte (a : ascii) : bool := is_alnum a || byte_in "._+-" a.

Definition safe_nix_store_path (value : string) : bool :=
  match strip_prefix NIX_STORE value with
  | None => false
  | Some relative =>
      let components := split "/" relative in
      match components with
      | [] => false
      | item :: subpath =>
          negb (existsb is_empty components)
          && negb (existsb (λ c, bool_decide (c = ".") || bool_decide (c = "..")) subpath)
          && match split_once "-" item with
             | None => false
             | Some (hash, name) =>
                 (len hash =? 32) && all_bytes (byte_in STORE_HASH_BYTES) hash
                 && negb (is_empty name)
                 && all_bytes (λ a, store_item_byte a || Ascii.eqb a "/") value
             end
      end
  end.

Definition normalize_store_path (path : string) : option string :=
  path ← (if starts_with NIX_STORE path then Some path
          else if negb (any_byte (Ascii.eqb "/") path) then Some (NIX_STORE +:+ path) else None);
  if safe_nix_store_path path then Some path else None.
Definition normalize_derivation_store_path (path : string) : option string :=
  path ← normalize_store_path path; if ends_with ".drv" path then Some path else None.

(** [store_item]: the first component. *)
Definition store_item (path : string) : option string :=
  relative ← strip_prefix NIX_STORE path;
  item ← head (split "/" relative);
  if is_empty item then None else Some item.
(** What follows the store item: [&path["/nix/store/".len() + item.len()..]]. *)
Definition subpath (path item : string) : string :=
  str_from (String.length NIX_STORE + String.length item) path.

(** ** Fingerprints of scripts *)

Definition EXECUTABLE_SUBPATHS : list string := ["/bin/"; "/sbin/"; "/libexec/"; "/nix-support/setup-hook"].

Definition drop_bytes (f : ascii → bool) (s : string) : string := of_bytes (drop_while f (bytes s)).
(** Whether [rest], behind the prefix, begins with a hash and a dash. *)
Definition hash_ahead (rest : string) : bool :=
  (32 <? len rest) && starts_with "-" (str_from 32 rest)
  && all_bytes (byte_in STORE_HASH_BYTES) (str_to 32 rest).
Definition executable_ahead (rest : string) : bool :=
  let behind := drop_bytes store_item_byte (str_from 33 rest) in
  existsb (λ p, starts_with p behind) EXECUTABLE_SUBPATHS.

(** The loop; a round reads a byte at least.  [None]: [bytes[index]] is out of range, a
    panic, when the text ends with the prefix. *)
Fixpoint script_loop (preserve_executables : bool) (rounds : nat) (script : string) : option string :=
  match rounds, script with
  | O, _ | _, EmptyString => Some ""
  | S rounds, String a tail =>
      match strip_prefix NIX_STORE script with
      | None => String a <$> script_loop preserve_executables rounds tail
      | Some rest =>
          if hash_ahead rest then
            behind ← script_loop preserve_executables rounds (str_from 32 rest);
            Some (NIX_STORE +:+ (if preserve_executables && executable_ahead rest then str_to 32 rest
                                 else "<hash>") +:+ behind)
          else
            match rest with
            | EmptyString => None
            | String b rest =>
                behind ← script_loop preserve_executables rounds rest;
                Some (NIX_STORE +:+ String b behind)
            end
      end
  end.
Definition normalized_script (preserve_executables : bool) (script : string) : option string :=
  script_loop preserve_executables (String.length script) script.

(** ** Identities *)

Definition BUILTIN_NIXPKGS_COMMIT : string := "74cc63f702f7d60a557e152a57b40fb1fd0f72ac".
Definition BUILTIN_NIXOS_RELEASE : string := "26.05".
Definition BUILTIN_LAST_MODIFIED : Z := 1783549019.
Definition MAX_TIARIS_PACKAGE_DERIVATIONS : nat := 256.
Definition nul : string := String "000" "".
Definition REPLACED_BUILTIN_PROVIDER : string := nul +:+ "replaced-built-in-provider".
Definition UNMAPPED_IDENTITY : string := nul +:+ "unmapped-commit-identity".

Record CommitIdentity := { ci_role : string; ci_path : string; ci_drv_path : option string }.
Definition identity (role path drv : string) : CommitIdentity :=
  {| ci_role := role; ci_path := path; ci_drv_path := Some drv |}.

Definition COMMIT_IDENTITIES : list CommitIdentity := [
    identity "stdenv.shell"
      "/nix/store/zh1ijdhb6gng1509b1zrilb6xlzx60j6-bash-5.3p9/bin/bash"
      "/nix/store/g7p7rs03xah2w00a142hzas9h4fkwpck-bash-5.3p9.drv";
    identity "stdenvNoCC"
      "/nix/store/pr27j8nm0xl52pq4ylncj9kwjw3b84mk-stdenv-linux"
      "/nix/store/bxlz3hzl8k02rnxpgml6krqkrnpird91-stdenv-linux.drv";
    identity "stdenv"
      "/nix/store/xknwpg5yjxxsffmwdmpys269543wpdy5-stdenv-linux"
      "/nix/store/l0x59a9gpwqh6rxxx2sxbl5nd72r4bc8-stdenv-linux.drv";
    identity "pkgsStatic.stdenv"
      "/nix/store/4hy0wmhgfmdh6zq0pjgyfavpa1n5lhbj-stdenv-linux"
      "/nix/store/ic3nh1yr6zjlbxwnmxp1r6jhkp816f4l-stdenv-linux.drv";
    {| ci_role := "substitute.sh"; ci_path := "/nix/store/6n31khdh5axal16074afb98p4839q786-substitute.sh"; ci_drv_path := None |};
    identity "buildEnv builder.pl"
      "/nix/store/b1lyn1hdqrr25d58chjxnbxsrvv64js7-builder.pl"
      "/nix/store/jy0p63d0qgl1z5sh8qah512zpbvblqw9-builder.pl.drv";
    identity "buildEnv perl"
      "/nix/store/k7kxg101ikkm0cyf8jcqhg948vy542af-perl-5.42.0/bin/perl"
      "/nix/store/fnbm2l40fm0a6rqhhpgnfl7317d4qyky-perl-5.42.0.drv";
    identity "dbus"
      "/nix/store/165rncxlyi4f9pjf1zk3hmj3mh2v881w-dbus-1.16.2"
      "/nix/store/33qh8fiidsm5bg722d1pirdhqwjp8d87-dbus-1.16.2.drv";
    identity "libxslt.bin"
      "/nix/store/498qnbvjw49sgap3z1fj81mrjm5r2kk8-libxslt-1.1.45-bin"
      "/nix/store/2dr63bld5k49y7jzsa9vnjj0s1p98vk4-libxslt-1.1.45.drv";
    identity "findXMLCatalogs"
      "/nix/store/93bjlzpa0w7cg6fmpkgxa7494ac9rwf8-find-xml-catalogs-hook"
      "/nix/store/6cgb46lcvnzjasl1qx1rkds76v00kyrl-find-xml-catalogs-hook.drv";
    identity "systemdMinimal"
      "/nix/store/rz3ss5filvbbwi9f36g1dw2f95sasqbq-systemd-minimal-260.2"
      "/nix/store/6fp0app8kf3sijhh8z6xpgyp39m3pfv0-systemd-minimal-260.2.drv";
    identity "remarshal"
      "/nix/store/mclvsxxbggf9v0lh98jpw8n79apb56v8-python3.13-remarshal-1.3.0"
      "/nix/store/9m8clx8fvsxzv5nrvxz59wwslv0r8lkp-python3.13-remarshal-1.3.0.drv";
    identity "makeInitrdNG"
      "/nix/store/qi6pv56kjs30bphl10iq4vvs9pbvc5kh-make-initrd-ng-0.1.0"
      "/nix/store/v5wn5ka72szkj6f66l03k98i4rj38bq1-make-initrd-ng-0.1.0.drv";
    identity "cpio"
      "/nix/store/bbfrw9pncsp5pvybrfp26swb93vy8f9g-cpio-2.15"
      "/nix/store/p5gqgqbr9jy12zw97kysdsplg77qilh0-cpio-2.15.drv";
    identity "installShellFiles"
      "/nix/store/4f9rxg7fl8fii4gmhfr2prs475hzz7jx-install-shell-files"
      "/nix/store/xk8m6ai5q00gr0h3vm8afc5dk1plpw9i-install-shell-files.drv";
    identity "makeBinaryWrapper"
      "/nix/store/jhidhrz2syhvmk8vxc2jcwi66sncghrp-make-binary-wrapper-hook"
      "/nix/store/2i32ilwfs86wl1wgp0f1672l1rj5niqc-make-binary-wrapper-hook.drv";
    identity "stdenv.cc"
      "/nix/store/xcnqqnhw9hb4j5rjgds2yjryi8qki5f3-gcc-wrapper-15.2.0"
      "/nix/store/bmwhgbaq6jk87imr4nsldixk9ccc1vl4-gcc-wrapper-15.2.0.drv";
    identity "ibus.dev"
      "/nix/store/vrhy5h1drqi3fjp6a9yksz0xz2la95bq-ibus-1.5.33-dev"
      "/nix/store/kk5gag58ji0f39p8bnraff7aq6h6gh2a-ibus-1.5.33.drv";
    identity "makeShellWrapper"
      "/nix/store/f16vss2p6m6r7h7a81473x31gqj8j4ha-make-shell-wrapper-hook"
      "/nix/store/426mziy0yn9wijy39xhacyajjnbqdngr-make-shell-wrapper-hook.drv";
    identity "ibus-with-plugins"
      "/nix/store/nc7gb32v570a0q1nb70a4gfqbzl6nfpb-ibus-with-plugins-1.5.33"
      "/nix/store/hijbcmvn08z6vxgqidgpflc3vbbna4xv-ibus-with-plugins-1.5.33.drv";
    identity "gtk3.dev"
      "/nix/store/yb5pprzzxvynv57a05axpap57r2kngfx-gtk+3-3.24.52-dev"
      "/nix/store/3bfxsr40gsd2gbq5z7az27gj931jm6n1-gtk+3-3.24.52.drv";
    identity "xorg.lndir"
      "/nix/store/ccihqmbbygsvx7jap8apl5jwp8ipy61y-lndir-1.0.5"
      "/nix/store/n7ayld0dgrjfmzc7cpawgcfcq70y6hx3-lndir-1.0.5.drv";
    identity "jq.dev"
      "/nix/store/3vavalljj18drsycygl361zqz4rryygd-jq-1.8.1-dev"
      "/nix/store/2y8ydpsl3rhv9b5a7w723jw2zznf7n7b-jq-1.8.1.drv";
    identity "dconf"
      "/nix/store/ajbhgix5hzsr75pr9dhlnpcvhm3kh8pj-dconf-0.49.0"
      "/nix/store/gpxwim44mis1367f7cfm8jvdg0rx516c-dconf-0.49.0.drv";
    identity "makeShellWrapper setup hook"
      "/nix/store/f16vss2p6m6r7h7a81473x31gqj8j4ha-make-shell-wrapper-hook/nix-support/setup-hook"
      "/nix/store/426mziy0yn9wijy39xhacyajjnbqdngr-make-shell-wrapper-hook.drv";
    identity "texinfo install-info"
      "/nix/store/c8mrrp6s3rjfbqn47ihlicazjabkji6j-texinfo-7.2/bin/install-info"
      "/nix/store/ajdsm2jxfsfwqjv6x1s1r88qk6jb63ch-texinfo-7.2.drv";
    identity "shared-mime-info update-mime-database"
      "/nix/store/hcgqddzbkw6w3zhk528mmwh3n0jqfas1-shared-mime-info-2.4/bin/update-mime-database"
      "/nix/store/i04wr7q7ydgwmc1pg0g9rmg4rj1z1dk1-shared-mime-info-2.4.drv";
    identity "desktop-file-utils update-desktop-database"
      "/nix/store/1gl5mj5cpi3j8ajp3wkkmkfl86vpiz6m-desktop-file-utils-0.28/bin/update-desktop-database"
      "/nix/store/s22cxhvrbmpcjvdj97nhbp0vyaabjn6g-desktop-file-utils-0.28.drv";
    identity "gtk3 gtk-update-icon-cache"
      "/nix/store/7c73fgj9w0k8qrpq3j1h8h976bk7gqsp-gtk+3-3.24.52/bin/gtk-update-icon-cache"
      "/nix/store/3bfxsr40gsd2gbq5z7az27gj931jm6n1-gtk+3-3.24.52.drv";
    identity "desktop-file-utils desktop-file-validate"
      "/nix/store/1gl5mj5cpi3j8ajp3wkkmkfl86vpiz6m-desktop-file-utils-0.28/bin/desktop-file-validate"
      "/nix/store/s22cxhvrbmpcjvdj97nhbp0vyaabjn6g-desktop-file-utils-0.28.drv";
    identity "coreutils"
      "/nix/store/sr26flm2nkfa12dkrwj2630kqsfakky4-coreutils-9.11"
      "/nix/store/yzawmmja3azkam2gyf3b0z5a8aafja9m-coreutils-9.11.drv";
    identity "logrotate"
      "/nix/store/ky2583b7y10vd6zfplg5vrmcynhb1myx-logrotate-3.22.0/sbin/logrotate"
      "/nix/store/6f0mayqvyhis7mmw6xd771azs0zksg7d-logrotate-3.22.0.drv";
    identity "nix"
      "/nix/store/b15733bsif8p914l2ps58mkq36k5xsym-nix-2.34.7/bin/nix"
      "/nix/store/033lbg2pw9b7xcfvxc22vq54shd2p40f-nix-2.34.7.drv";
    identity "systemd coredump sysctl"
      "/nix/store/rd05syhv5v5999907a2n1r37sgi19vpd-systemd-260.2/example/sysctl.d/50-coredump.conf"
      "/nix/store/4dxvg84cyfibqw5xx3vhcbi24c62yld9-systemd-260.2.drv";
    identity "systemd coredump substitution target"
      "/nix/store/1rnlk0fgkq8lqds32akkwzm69q6ybl78-systemd"
      "/nix/store/rd8x88f6xw7n98n9l1rn2zdg6qczrqfj-systemd.drv";
    identity "pkgsStatic.linuxHeaders"
      "/nix/store/w9kkr15qfa6avzxf3v9xx4nqd18jx6c5-linux-headers-static-6.18.7"
      "/nix/store/fpmnkyi3g09yf0kmvm33wryasx8gj3xv-linux-headers-static-6.18.7.drv";
    identity "security wrapper unsecvars"
      "/nix/store/iihn636xkv54vlp95abhjamywiw3lmvz-glibc-2.42-67-source-unsecvars"
      "/nix/store/iw8yjjhv5qnbj90n4lkmr2dj3wk8rfz2-glibc-2.42-67-source-unsecvars.drv";
    identity "xkbvalidate"
      "/nix/store/na9axm2h37fxjzadvvq547p4b4q7d6r0-xkbvalidate"
      "/nix/store/mz9jidx0yqq1zd5ywb2fd1fn6nmsffix-xkbvalidate.drv";
    identity "xkeyboard-config"
      "/nix/store/czwchfqv2v6v2gm545mhdj03smk50rw0-xkeyboard-config-2.47/etc/X11/xkb"
      "/nix/store/pql9n68whrzg5i1p31wasrbgddgsjg4g-xkeyboard-config-2.47.drv";
    identity "nixos-init"
      "/nix/store/wy0mh9ah0alglg3ab5djg3jv6f0garyc-nixos-init-0.1.0"
      "/nix/store/2r230dqp2pg1jpcxp3va7wvbx812zaaq-nixos-init-0.1.0.drv" ].

Record DerivedIdentity := { di_path : string; di_drv : option string }.

(** ** Reviewed content *)

Definition TRUSTED_STDENV_SOURCE_SHA256 : string :=
  "fda2f9599062ec0533741844a0b76ea6b5b12be613d8edcb5d445a14876ca809".
Definition TRUSTED_DEFAULT_BUILDER_SHA256 : string :=
  "21c4af68b16048dc99687b414d8d89e980b623cd0ce0f8106de5248f7af75619".
Definition TRUSTED_SUBSTITUTE_BUILDER_SHA256 : string :=
  "57f698eda1384c91aca909f1668331da8ac9928722f0c48ae75b433340a4f7cd".
Definition TRUSTED_SECURITY_WRAPPER_SHA256 : string :=
  "5d4752742d2e76e6a4e57dd061320d0ff96f52d65cc1e54c203dce12e8b741dc".
Definition TRUSTED_LINK_FARM_BUILDER_SHA256 : string :=
  "5b6a127611842e04d7cfccf1aefda34824bc01ac0ac300d465b317ea957b7654".
Definition PINNED_NIXOS_TOPLEVEL_GENERATOR_FINGERPRINT : string :=
  "c518c8ef32da2ce4eddc5812ee50a9ce43054202c903356fadbf3a2374958426".
Definition STOCK_WRITE_TEXT_COMMAND : string :=
  "target=$out$destination" +:+ nl +:+ "mkdir -p " +:+ dq +:+ "$(dirname " +:+ dq +:+ "$target" +:+ dq +:+ ")" +:+ dq +:+ nl +:+ nl +:+ "if [ -e " +:+ dq +:+ "$textPath" +:+ dq +:+ " ]; then" +:+ nl +:+ "  mv " +:+ dq +:+ "$textPath" +:+ dq +:+ " " +:+ dq +:+ "$target" +:+ dq +:+ nl +:+ "else" +:+ nl +:+ "  printf " +:+ dq +:+ "%s" +:+ dq +:+ " " +:+ dq +:+ "$text" +:+ dq +:+ " > " +:+ dq +:+ "$target" +:+ dq +:+ nl +:+ "fi" +:+ nl +:+ nl +:+ "if [ -n " +:+ dq +:+ "$executable" +:+ dq +:+ " ]; then" +:+ nl +:+ "  chmod +x " +:+ dq +:+ "$target" +:+ dq +:+ nl +:+ "fi" +:+ nl +:+ nl +:+ "eval " +:+ dq +:+ "$checkPhase" +:+ dq +:+ nl.
Definition STOCK_CONCAT_TEXT_COMMAND : string :=
  "file=$out$destination" +:+ nl +:+ "mkdir -p " +:+ dq +:+ "$(dirname " +:+ dq +:+ "$file" +:+ dq +:+ ")" +:+ dq +:+ nl +:+ "cat $files > " +:+ dq +:+ "$file" +:+ dq +:+ nl +:+ nl +:+ "if [ -n " +:+ dq +:+ "$executable" +:+ dq +:+ " ]; then" +:+ nl +:+ "  chmod +x " +:+ dq +:+ "$file" +:+ dq +:+ nl +:+ "fi" +:+ nl +:+ nl +:+ "eval " +:+ dq +:+ "$checkPhase" +:+ dq +:+ nl.
Definition STOCK_JSON_TO_TOML_COMMAND : string :=
  "valuePath=" +:+ dq +:+ "$TMPDIR/value" +:+ dq +:+ nl +:+ "printf " +:+ dq +:+ "%s" +:+ dq +:+ " " +:+ dq +:+ "$value" +:+ dq +:+ " > " +:+ dq +:+ "$valuePath" +:+ dq +:+ nl +:+ "json2toml " +:+ dq +:+ "$valuePath" +:+ dq +:+ " " +:+ dq +:+ "$out" +:+ dq +:+ nl.

Definition REVIEWED_BUILDER_FILES : list (string * string) :=
  [ ("source-stdenv.sh", TRUSTED_STDENV_SOURCE_SHA256); ("default-builder.sh", TRUSTED_DEFAULT_BUILDER_SHA256);
    ("substitute.sh", TRUSTED_SUBSTITUTE_BUILDER_SHA256); ("wrapper.c", TRUSTED_SECURITY_WRAPPER_SHA256);
    ("builder.pl", TRUSTED_LINK_FARM_BUILDER_SHA256) ].
Definition STOCK_COMMANDS : list string :=
  [ STOCK_WRITE_TEXT_COMMAND; STOCK_CONCAT_TEXT_COMMAND; STOCK_JSON_TO_TOML_COMMAND ].
Definition NORMALIZED_ONLY_FINGERPRINTS : list string := [ PINNED_NIXOS_TOPLEVEL_GENERATOR_FINGERPRINT ].

Record FingerprintCounterpart := {
  fc_role : string; fc_commit : string * string; fc_reviewed : string * string }.
Record StockCommandCounterpart := { sc_role : string; sc_commit : string; sc_reviewed : string }.
Record NormalizedCounterpart := { nc_role : string; nc_commit : string; nc_reviewed : string }.
Record BuilderFileCounterpart := { bf_role : string; bf_file : string; bf_sha256 : string }.
Record ReviewedContent := {
  rv_fingerprints : list FingerprintCounterpart;
  rv_stock_commands : list StockCommandCounterpart;
  rv_builder_files : list BuilderFileCounterpart;
  rv_normalized : list NormalizedCounterpart;
}.

Record RoleCounterparts := {
  rc_fingerprints : gmap (string * string) (string * string);
  rc_normalized : gmap string string;
  rc_stock_commands : gmap string string;
  rc_builder_files : gmap string string;
}.
Definition no_counterparts : RoleCounterparts :=
  {| rc_fingerprints := ∅; rc_normalized := ∅; rc_stock_commands := ∅; rc_builder_files := ∅ |}.

Record WorkstationBuildProfile := {
  wp_nixpkgs_commit : string;
  wp_builtin : bool;
  wp_items : gmap string string;
  wp_reviewed_items : gmap string string;
  wp_reviewed_labels : list (string * string);
  wp_tiaris_derivations : gset string;
  wp_counterparts : gmap string RoleCounterparts;
  wp_role : option string;
}.

(** Texts of dates by chrono. *)
Class ProfileDeps := {
  (** [from_timestamp(seconds, 0)?.format("%Y%m%d")]. *)
  date_label : Z → option string;
}.

(** Such a text consists of digits, and so has no NUL byte. *)
Class ProfileLaws {dates : ProfileDeps} := {
  date_no_nul last_modified date : date_label last_modified = Some date →
    all_bytes (λ a, negb (Ascii.eqb a "000")) date = true;
}.

Definition is_lower_hex_commit (commit : string) : bool := (len commit =? 40) && all_bytes is_lower_hex commit.
Definition is_sha256_hex (value : string) : bool := (len value =? 64) && all_bytes is_lower_hex value.

Section Profile.
Context {protected : ProtectedDeps} {dates : ProfileDeps}.

(** [hex::encode(Sha256::digest(normalized))]; [None]: a panic. *)
Definition normalized_script_sha256 (script : string) : option string :=
  sha256_hex_of <$> normalized_script false script.
Definition executable_pinned_script_sha256 (script : string) : option string :=
  sha256_hex_of <$> normalized_script true script.

Definition nixos_version_label (last_modified : Z) (commit : string) : option string :=
  date ← date_label last_modified;
  if (7 <=? len commit) && boundary 7 commit
  then Some (BUILTIN_NIXOS_RELEASE +:+ "." +:+ date +:+ "." +:+ str_to 7 commit) else None.

Definition builtin_items : gmap string string :=
  list_to_map ((λ item, (item, item)) <$>
    omap store_item (mjoin ((λ i, ci_path i :: option_list (ci_drv_path i)) <$> COMMIT_IDENTITIES))).
Definition builtin_profile : WorkstationBuildProfile := {|
  wp_nixpkgs_commit := BUILTIN_NIXPKGS_COMMIT; wp_builtin := true; wp_items := builtin_items;
  wp_reviewed_items := ∅; wp_reviewed_labels := []; wp_tiaris_derivations := ∅; wp_counterparts := ∅;
  wp_role := None |}.

(** ** The derived profile *)

Notation items := (gmap string string * gmap string string)%type.

Definition other (o : option string) (value : string) : bool :=
  match o with Some previous => negb (bool_decide (previous = value)) | None => false end.

(** The closure [map]: [items] and [reviewed_items] are extended by one pair. *)
Definition map_item (reviewed derived : string) (m : items) : Checked items :=
  match store_item reviewed, store_item derived with
  | Some reviewed_item, Some derived_item =>
      if negb (safe_nix_store_path derived)
         || negb (bool_decide (subpath reviewed reviewed_item = subpath derived derived_item))
         || negb (Bool.eqb (ends_with ".drv" reviewed_item) (ends_with ".drv" derived_item))
      then refuse ("derived identity " +:+ derived +:+ " does not have the reviewed shape") else
      if other (m.1 !! reviewed_item) derived_item || other (m.2 !! derived_item) reviewed_item
      then refuse "derived identities do not map store items one to one"
      else Ok (<[reviewed_item := derived_item]> m.1, <[derived_item := reviewed_item]> m.2)
  | _, _ => refuse "derived identity is not a store path"
  end.

Definition map_identity (identities : gmap string DerivedIdentity) (i : CommitIdentity) (m : items)
    : Checked items :=
  match identities !! ci_role i with
  | None => refuse ("derived build profile lacks " +:+ ci_role i)
  | Some derived =>
      m ≔ map_item (ci_path i) (di_path derived) m ?;
      match ci_drv_path i, di_drv derived with
      | Some reviewed, Some derived => map_item reviewed derived m
      | None, None => Ok m
      | _, _ => refuse ("derived identity " +:+ ci_role i +:+ " has the wrong derivation shape")
      end
  end.
Fixpoint map_identities (identities : gmap string DerivedIdentity) (l : list CommitIdentity) (m : items)
    : Checked items :=
  match l with
  | [] => Ok m
  | i :: l => m ≔ map_identity identities i m ?; map_identities identities l m
  end.

Definition valid_tiaris_derivation (path : string) : bool :=
  bool_decide (normalize_derivation_store_path path = Some path).

Definition derived (nixpkgs_commit : string) (last_modified : Z) (identities : gmap string DerivedIdentity)
    (tiaris_derivations : gset string) : Checked WorkstationBuildProfile :=
  _c ≔ refuse_if (negb (is_lower_hex_commit nixpkgs_commit))
         "detected nixpkgs commit must be 40 lowercase hex characters" ?;
  match nixos_version_label last_modified nixpkgs_commit,
        nixos_version_label BUILTIN_LAST_MODIFIED BUILTIN_NIXPKGS_COMMIT with
  | Some label, Some reviewed_label =>
      _n ≔ refuse_if ((last_modified <=? BUILTIN_LAST_MODIFIED)
                      || bool_decide (nixpkgs_commit = BUILTIN_NIXPKGS_COMMIT))
             "a detected commit must be newer than the built-in commit" ?;
      _i ≔ refuse_if (negb (size identities =? length COMMIT_IDENTITIES)%nat)
             "derived build profile must carry exactly the reviewed identities" ?;
      _t ≔ refuse_if ((MAX_TIARIS_PACKAGE_DERIVATIONS <? size tiaris_derivations)%nat
                      || negb (forallb valid_tiaris_derivation (elements tiaris_derivations)))
             "derived build profile lists invalid Tiaris package derivations" ?;
      m ≔ map_identities identities COMMIT_IDENTITIES (∅, ∅) ?;
      Ok {| wp_nixpkgs_commit := nixpkgs_commit; wp_builtin := false;
            wp_items := m.1; wp_reviewed_items := m.2;
            wp_reviewed_labels := [(nixpkgs_commit, BUILTIN_NIXPKGS_COMMIT); (label, reviewed_label)];
            wp_tiaris_derivations := tiaris_derivations; wp_counterparts := ∅; wp_role := None |}
  | _, _ => refuse "detected commit lastModified is out of range"
  end.

(** ** Counterparts *)

Definition valid_role (role : string) : bool :=
  negb (is_empty role) && (len role <=? 211)
  && all_bytes (λ a, is_alnum a || byte_in "+-._?=" a) role.

Notation counterparts := (gmap string RoleCounterparts).
Definition of_role (role : string) (c : counterparts) : RoleCounterparts := default no_counterparts (c !! role).

Definition add_fingerprint (e : FingerprintCounterpart) (c : counterparts) : Checked counterparts :=
  if negb (valid_role (fc_role e))
     || negb (forallb is_sha256_hex [(fc_commit e).1; (fc_commit e).2; (fc_reviewed e).1; (fc_reviewed e).2])
  then refuse "counterpart fingerprints must name a role and be sha256 hex" else
  let r := of_role (fc_role e) c in
  match rc_fingerprints r !! fc_commit e with
  | Some previous =>
      if bool_decide (previous = fc_reviewed e) then Ok (<[fc_role e := r]> c)
      else refuse "a counterpart fingerprint maps to two reviewed scripts"
  | None =>
      Ok (<[fc_role e := {| rc_fingerprints := <[fc_commit e := fc_reviewed e]> (rc_fingerprints r);
              rc_normalized := rc_normalized r; rc_stock_commands := rc_stock_commands r;
              rc_builder_files := rc_builder_files r |}]> c)
  end.

Definition add_stock_command (e : StockCommandCounterpart) (c : counterparts) : Checked counterparts :=
  if negb (bool_decide (sc_reviewed e ∈ STOCK_COMMANDS))
  then refuse "a counterpart command does not replace a stock command" else
  let r := of_role (sc_role e) c in
  if negb (valid_role (sc_role e)) || other (rc_stock_commands r !! sc_commit e) (sc_reviewed e)
  then refuse "a counterpart command maps to two stock commands" else
  Ok (<[sc_role e := {| rc_fingerprints := rc_fingerprints r; rc_normalized := rc_normalized r;
          rc_stock_commands := <[sc_commit e := sc_reviewed e]> (rc_stock_commands r);
          rc_builder_files := rc_builder_files r |}]> c).

Definition add_normalized (e : NormalizedCounterpart) (c : counterparts) : Checked counterparts :=
  if negb (valid_role (nc_role e)) || negb (is_sha256_hex (nc_commit e))
     || negb (bool_decide (nc_reviewed e ∈ NORMALIZED_ONLY_FINGERPRINTS))
  then refuse "a normalized counterpart must replace a script the pin admits by that half" else
  let r := of_role (nc_role e) c in
  if other (rc_normalized r !! nc_commit e) (nc_reviewed e)
  then refuse "a normalized counterpart maps to two reviewed scripts" else
  Ok (<[nc_role e := {| rc_fingerprints := rc_fingerprints r;
          rc_normalized := <[nc_commit e := nc_reviewed e]> (rc_normalized r);
          rc_stock_commands := rc_stock_commands r; rc_builder_files := rc_builder_files r |}]> c).

Definition add_builder_file (e : BuilderFileCounterpart) (c : counterparts) : Checked counterparts :=
  match list_find (λ f, f.1 = bf_file e) REVIEWED_BUILDER_FILES with
  | None => refuse (bf_file e +:+ " is not a reviewed builder file")
  | Some (_, (_, reviewed)) =>
      if negb (valid_role (bf_role e)) || negb (is_sha256_hex (bf_sha256 e))
      then refuse "counterpart builder file must name a role and be sha256 hex" else
      let r := of_role (bf_role e) c in
      Ok (<[bf_role e := {| rc_fingerprints := rc_fingerprints r; rc_normalized := rc_normalized r;
              rc_stock_commands := rc_stock_commands r;
              rc_builder_files := <[reviewed := bf_sha256 e]> (rc_builder_files r) |}]> c)
  end.

(** [for entry in entries]. *)
Fixpoint add_each {E} (add : E → counterparts → Checked counterparts) (l : list E) (c : counterparts)
    : Checked counterparts :=
  match l with [] => Ok c | e :: l => c ≔ add e c ?; add_each add l c end.

Definition with_counterparts (c : counterparts) (p : WorkstationBuildProfile) : WorkstationBuildProfile := {|
  wp_nixpkgs_commit := wp_nixpkgs_commit p; wp_builtin := wp_builtin p; wp_items := wp_items p;
  wp_reviewed_items := wp_reviewed_items p; wp_reviewed_labels := wp_reviewed_labels p;
  wp_tiaris_derivations := wp_tiaris_derivations p; wp_counterparts := c; wp_role := wp_role p |}.

Definition with_reviewed_content (content : ReviewedContent) (p : WorkstationBuildProfile)
    : Checked WorkstationBuildProfile :=
  _b ≔ refuse_if (wp_builtin p) "the built-in profile has no counterparts" ?;
  c ≔ add_each add_fingerprint (rv_fingerprints content) ∅ ?;
  c ≔ add_each add_stock_command (rv_stock_commands content) c ?;
  c ≔ add_each add_normalized (rv_normalized content) c ?;
  c ≔ add_each add_builder_file (rv_builder_files content) c ?;
  Ok (with_counterparts c p).

(** ** Scripts of the commit *)

Definition path (p : WorkstationBuildProfile) (reviewed : string) : string :=
  match store_item reviewed with
  | None => UNMAPPED_IDENTITY
  | Some item =>
      match wp_items p !! item with
      | Some mapped => NIX_STORE +:+ mapped +:+ subpath reviewed item
      | None => UNMAPPED_IDENTITY
      end
  end.
Definition is_path (p : WorkstationBuildProfile) (actual reviewed : string) : bool :=
  bool_decide (actual = path p reviewed).

(** [take_while] on the bytes of a store item. *)
Definition item_ahead (rest : string) : string := of_bytes (take_while store_item_byte (bytes rest)).

(** What is rendered for an item behind the prefix, and whether the prefix stays. *)
Definition render_item (p : WorkstationBuildProfile) (item : string) : string :=
  match wp_reviewed_items p !! item with
  | Some reviewed => NIX_STORE +:+ reviewed
  | None => if other (wp_items p !! item) item then REPLACED_BUILTIN_PROVIDER else NIX_STORE +:+ item
  end.
(** [text] is the script from [index] on; a round reads the prefix at least. *)
Fixpoint items_loop (render : string → string) (rounds : nat) (text : string) : string :=
  match rounds with
  | O => text
  | S rounds =>
      match find NIX_STORE text with
      | None => text
      | Some offset =>
          let rest := str_from (offset + String.length NIX_STORE) text in
          let item := item_ahead rest in
          str_to offset text +:+ render item
          +:+ items_loop render rounds (str_from (String.length item) rest)
      end
  end.
Definition reviewed_store_items (p : WorkstationBuildProfile) (script : string) : string :=
  items_loop (render_item p) (String.length script) script.

Definition replace_label (text : string) (label : string * string) : string :=
  if contains label.1 text then replace label.1 label.2 text else text.
Definition reviewed_script (p : WorkstationBuildProfile) (script : string) : string :=
  if wp_builtin p then script
  else foldl replace_label (reviewed_store_items p script) (wp_reviewed_labels p).

(** ** Roles *)

Fixpoint version_split (name : string) : option nat :=
  match name with
  | String a (String b _ as rest) =>
      if Ascii.eqb a "-" && is_digit b then Some 0%nat else S <$> version_split rest
  | _ => None
  end.
Definition package_name_with_version_split (name : string) : string :=
  match version_split name with Some index => str_to index name | None => name end.
Definition package_name (name : string) : string :=
  let name := package_name_with_version_split name in
  if starts_with "nixos-system-" name then "nixos-system" else name.

Definition derivation_role (p : WorkstationBuildProfile) (drv_path : string) : string :=
  package_name (reviewed_script p (derivation_display_name drv_path)).
Definition with_role (role : option string) (p : WorkstationBuildProfile) : WorkstationBuildProfile := {|
  wp_nixpkgs_commit := wp_nixpkgs_commit p; wp_builtin := wp_builtin p; wp_items := wp_items p;
  wp_reviewed_items := wp_reviewed_items p; wp_reviewed_labels := wp_reviewed_labels p;
  wp_tiaris_derivations := wp_tiaris_derivations p; wp_counterparts := wp_counterparts p; wp_role := role |}.
Definition for_derivation (p : WorkstationBuildProfile) (drv_path : string) : WorkstationBuildProfile :=
  if wp_builtin p then p else with_role (Some (derivation_role p drv_path)) p.

Definition role_counterparts (p : WorkstationBuildProfile) : option RoleCounterparts :=
  role ← wp_role p; wp_counterparts p !! role.
Definition builder_file_counterpart (p : WorkstationBuildProfile) (reviewed : string) : option string :=
  r ← role_counterparts p; rc_builder_files r !! reviewed.
Definition any_builder_file_counterparts (p : WorkstationBuildProfile) (reviewed : string) : list string :=
  omap (λ kv, rc_builder_files kv.2 !! reviewed) (map_to_list (wp_counterparts p)).
Definition stock_command (p : WorkstationBuildProfile) (command : string) : string :=
  default command (r ← role_counterparts p; rc_stock_commands r !! command).
Definition admits_tiaris_package (p : WorkstationBuildProfile) (drv_path : string) : bool :=
  bool_decide (drv_path ∈ wp_tiaris_derivations p).

(** The fingerprints of a script; [None]: a panic. *)
Definition fingerprints (p : WorkstationBuildProfile) (script : string) : option (string * string) :=
  let rendered := reviewed_script p script in
  normalized ← normalized_script_sha256 rendered;
  executable ← executable_pinned_script_sha256 rendered;
  let pair := (normalized, executable) in
  Some match role_counterparts p with
       | None => pair
       | Some role =>
           match rc_fingerprints role !! pair with
           | Some reviewed => reviewed
           | None => match rc_normalized role !! pair.1 with
                     | Some reviewed => (reviewed, pair.2)
                     | None => pair
                     end
           end
       end.

Definition for_build (admitted_commit : option string) (detected : option WorkstationBuildProfile)
    : option WorkstationBuildProfile :=
  commit ← admitted_commit;
  if bool_decide (commit = BUILTIN_NIXPKGS_COMMIT) then Some builtin_profile
  else filter_opt (λ p, negb (wp_builtin p) && bool_decide (wp_nixpkgs_commit p = commit)) detected.
End Profile.

(** ** Store items *)

Lemma store_item_Some path item :
  store_item path = Some item → path = NIX_STORE +:+ item +:+ subpath path item ∧ item ≠ "" ∧ "/"%char ∉ bytes item.
Proof.
  unfold store_item. intros (relative & Hr%strip_prefix_Some & (x & Hx & H)%bind_Some)%bind_Some.
  destruct (is_empty x) eqn:E; [done|]. injection H as ->. apply bool_decide_eq_false in E.
  assert (∃ tail, relative = item +:+ tail) as [tail ->].
  { rewrite <-(join_split "/" relative). destruct (split "/" relative) as [|y [|z l]]; [done| |]; injection Hx as ->.
    - exists "". by rewrite str_app_nil_r.
    - rewrite join_cons_nonempty; [by eexists|done]. }
  split_and!; [|done|].
  - rewrite Hr. unfold subpath. rewrite <-length_append, <-str_app_assoc, str_from_app. by rewrite str_app_assoc.
  - apply (split_pieces "/" (item +:+ tail)). destruct (split "/" _); [done|]. injection Hx as ->. by left.
Qed.

Lemma store_item_bytes path item :
  safe_nix_store_path path = true → store_item path = Some item → all_bytes store_item_byte item = true.
Proof.
  intros Hs (Hp & _ & Hn)%store_item_Some. unfold safe_nix_store_path in Hs.
  destruct (strip_prefix _ _); [|done]. destruct (split _ _) as [|x l]; [done|].
  apply andb_true_iff in Hs as [_ Hs]. destruct (split_once _ _) as [[]|]; [|done].
  apply andb_true_iff in Hs as [_ Hs]. rewrite Hp, !all_bytes_app in Hs.
  apply andb_true_iff in Hs as [_ [Hs _]%andb_true_iff].
  apply all_bytes_forall. intros a Ha. apply (proj1 (all_bytes_forall _ _) Hs) in Ha as Hb.
  apply orb_true_iff in Hb as [?|E%Ascii.eqb_eq]; [done|]. subst a. by apply list_elem_of_In in Ha.
Qed.

(** ** The maps of a derived profile *)

Section Maps.
Context {dates : ProfileDeps}.
Notation items := (gmap string string * gmap string string)%type.

(** [items] and [reviewed_items] are inverse to each other, on store items. *)
Definition one_to_one (m : items) : Prop := ∀ a b, m.1 !! a = Some b ↔ m.2 !! b = Some a.
Definition plain_items (m : items) : Prop :=
  ∀ a b, m.1 !! a = Some b → all_bytes store_item_byte a = true ∧ all_bytes store_item_byte b = true.
(** What [items] says of a reviewed path. *)
Definition renamed (m : gmap string string) (reviewed derived : string) : Prop :=
  ∃ item mapped, store_item reviewed = Some item ∧ m !! item = Some mapped ∧
    derived = NIX_STORE +:+ mapped +:+ subpath reviewed item.

Lemma other_false o value : other o value = false ↔ o = None ∨ o = Some value.
Proof.
  destruct o as [x|]; cbn; [|by split; [left|]]. rewrite negb_false_iff, bool_decide_eq_true. naive_solver.
Qed.

Lemma one_to_one_insert m a b :
  one_to_one m → (m.1 !! a = None ∨ m.1 !! a = Some b) → (m.2 !! b = None ∨ m.2 !! b = Some a) →
  one_to_one (<[a := b]> m.1, <[b := a]> m.2).
Proof.
  intros Hm Ha Hb x y. cbn. specialize (Hm x y).
  destruct (decide (x = a)) as [->|], (decide (y = b)) as [->|];
    rewrite ?lookup_insert_eq, ?lookup_insert_ne by done; naive_solver.
Qed.

Lemma map_item_spec reviewed derived m m' :
  map_item reviewed derived m = Ok m' → safe_nix_store_path reviewed = true →
  one_to_one m → plain_items m →
  one_to_one m' ∧ plain_items m' ∧ m.1 ⊆ m'.1 ∧ renamed m'.1 reviewed derived.
Proof.
  unfold map_item. intros H Hr Hm Hp.
  destruct (store_item reviewed) as [ri|] eqn:Eri; [|done].
  destruct (store_item derived) as [di|] eqn:Edi; [|done].
  destruct (_ || _ || _) eqn:Es in H; [done|]. destruct (_ || _) eqn:Eo in H; [done|].
  injection H as <-. apply orb_false_iff in Es as [[Hd%negb_false_iff Hs]%orb_false_iff _].
  apply negb_false_iff, bool_decide_eq_true in Hs.
  apply orb_false_iff in Eo as [H1%other_false H2%other_false]. split_and!.
  - by apply one_to_one_insert.
  - intros a b. cbn. rewrite lookup_insert_Some. intros [[<- <-]|[_ H]]; [|by apply Hp].
    split; [by eapply (store_item_bytes reviewed)|by eapply (store_item_bytes derived)].
  - cbn. apply map_subseteq_spec. intros a b H. rewrite lookup_insert_Some.
    destruct (decide (ri = a)) as [<-|]; [left|by right]. destruct H1; naive_solver.
  - exists ri, di. cbn [fst]. rewrite lookup_insert_eq, Hs. split_and!; [done..|].
    by apply store_item_Some in Edi as [? _].
Qed.

Lemma renamed_mono m m' reviewed derived : m ⊆ m' → renamed m reviewed derived → renamed m' reviewed derived.
Proof. intros Hm (a & b & ? & ? & ?). exists a, b. split_and!; [done|by eapply lookup_weaken|done]. Qed.

(** What the maps hold of an identity. *)
Definition identity_mapped (identities : gmap string DerivedIdentity) (m : gmap string string) (i : CommitIdentity) : Prop :=
  ∃ d, identities !! ci_role i = Some d ∧ renamed m (ci_path i) (di_path d) ∧
       match ci_drv_path i, di_drv d with
       | Some reviewed, Some derived => renamed m reviewed derived
       | None, None => True
       | _, _ => False
       end.
Definition safe_identity (i : CommitIdentity) : bool :=
  forallb safe_nix_store_path (ci_path i :: option_list (ci_drv_path i)).

Lemma map_identity_spec identities i m m' :
  map_identity identities i m = Ok m' → safe_identity i = true → one_to_one m → plain_items m →
  one_to_one m' ∧ plain_items m' ∧ m.1 ⊆ m'.1 ∧ identity_mapped identities m'.1 i.
Proof.
  unfold map_identity, identity_mapped, safe_identity. destruct (identities !! _) as [d|]; [|done].
  intros (m1 & H1 & H2)%rbind_Ok [Hs Hsd]%andb_true_iff Hm Hp.
  eapply map_item_spec in H1 as (Hm1 & Hp1 & Hi1 & Hr1); [|done..].
  destruct (ci_drv_path i), (di_drv d) eqn:Ed; try done.
  - apply andb_true_iff in Hsd as [Hsd _].
    eapply map_item_spec in H2 as (Hm2 & Hp2 & Hi2 & Hr2); [|done..].
    split_and!; [done|done|by etrans|]. exists d. rewrite Ed. split_and!; [done|by eapply renamed_mono|done].
  - injection H2 as <-. split_and!; [done..|]. exists d. by rewrite Ed.
Qed.

Lemma map_identities_spec identities l m m' :
  map_identities identities l m = Ok m' → forallb safe_identity l = true → one_to_one m → plain_items m →
  one_to_one m' ∧ plain_items m' ∧ m.1 ⊆ m'.1 ∧ Forall (identity_mapped identities m'.1) l.
Proof.
  revert m. induction l as [|i l IH]; intros m H Hs Hm Hp; cbn in *; [by injection H as <-|].
  apply rbind_Ok in H as (m1 & H1 & H). apply andb_true_iff in Hs as [Hi Hs].
  eapply map_identity_spec in H1 as (? & ? & Hi1 & (d & ? & Hr & Hd)); [|done..].
  destruct (IH m1) as (? & ? & Hi2 & ?); [done..|]. split_and!; [done|done|by etrans|].
  constructor; [|done]. exists d. split_and!; [done|by eapply renamed_mono|].
  destruct (ci_drv_path i), (di_drv d); try done. by eapply renamed_mono.
Qed.

Lemma commit_identities_safe : forallb safe_identity COMMIT_IDENTITIES = true.
Proof. vm_compute. reflexivity. Qed.
End Maps.

(** ** Rendering a script

    [reviewed_store_items] reads the store items of a script one after the other; its result has
    the same items at the same places, so that it can be read back. *)

(** No byte of a store item at the front. *)
Definition stops (s : string) : Prop := match s with EmptyString => True | String a _ => store_item_byte a = false end.
Definition no_nul (s : string) : bool := all_bytes (λ a, negb (Ascii.eqb a "000")) s.

Lemma item_ahead_split rest :
  ∃ tail, rest = item_ahead rest +:+ tail ∧ stops tail ∧ all_bytes store_item_byte (item_ahead rest) = true.
Proof.
  induction rest as [|a rest IH]; [by exists ""|]. unfold item_ahead, all_bytes in *. cbn [bytes take_while].
  destruct (store_item_byte a) eqn:E; [|by exists (String a rest)].
  destruct IH as (tail & Hr & Hs & Ha). exists tail. cbn [of_bytes]. split_and!; [|done|].
  - rewrite str_app_cons. by f_equal.
  - cbn [bytes forallb]. by rewrite E.
Qed.

Lemma item_ahead_app item tail :
  all_bytes store_item_byte item = true → stops tail → item_ahead (item +:+ tail) = item.
Proof.
  intros Hi Ht. induction item as [|a item IH]; unfold item_ahead, all_bytes in *.
  - destruct tail as [|b tail]; [done|]. cbn [stops] in Ht.
    change (of_bytes (take_while store_item_byte (b :: bytes tail)) = ""). cbn [take_while]. by rewrite Ht.
  - rewrite str_app_cons. cbn [bytes forallb] in Hi. apply andb_true_iff in Hi as [Ha Hi].
    cbn [bytes take_while]. rewrite Ha. cbn [of_bytes]. f_equal. by apply IH.
Qed.

Lemma starts_with_app p w u v :
  (String.length p ≤ String.length w)%nat → starts_with p (w +:+ u) = starts_with p (w +:+ v).
Proof.
  unfold starts_with. revert w. induction p as [|a p IH]; intros w H; [done|].
  destruct w as [|b w]; cbn in H; [lia|]. rewrite !str_app_cons. cbn. destruct (Ascii.eqb a b); [|done].
  apply IH. lia.
Qed.

Lemma find_first p s u v :
  find p (s +:+ p +:+ u) = Some (String.length s) → find p (s +:+ p +:+ v) = Some (String.length s).
Proof.
  induction s as [|a s IH].
  - intros _. change (find p (p +:+ v) = Some 0%nat). assert (starts_with p (p +:+ v) = true) as H.
    { apply starts_with_true. by exists v. }
    destruct (p +:+ v); cbn [find]; by rewrite H.
  - rewrite !str_app_cons. cbn [find String.length].
    replace (starts_with p (String a (s +:+ p +:+ v))) with (starts_with p (String a (s +:+ p +:+ u))).
    + destruct (starts_with p (String a _)); [done|]. destruct (find p (s +:+ p +:+ u)); [|done].
      cbn. intros [= ->]. by rewrite IH.
    + rewrite <-!str_app_assoc, <-!str_app_cons. apply starts_with_app. cbn. rewrite length_append. lia.
Qed.

Lemma find_split p s i : find p s = Some i → ∃ pre rest, s = pre +:+ p +:+ rest ∧ i = String.length pre.
Proof.
  intros H. exists (str_to i s), (str_from (i + String.length p) s). split; [by apply find_Some|].
  assert (i ≤ String.length s)%nat as Hi.
  { revert i H. induction s as [|a s IH]; intros i; cbn [find]; destruct (starts_with _ _); try (intros [= <-]; cbn; lia).
    destruct (find p s) as [j|]; [|done]. cbn. intros [= <-]. specialize (IH j eq_refl). lia. }
  clear H. revert i Hi. induction s as [|a s IH]; intros [|i] Hi; cbn in *; [done|lia|done|]. by rewrite <-IH by lia.
Qed.

Lemma items_loop_found render n pre item tail :
  find NIX_STORE (pre +:+ NIX_STORE +:+ item +:+ tail) = Some (String.length pre) →
  all_bytes store_item_byte item = true → stops tail →
  items_loop render (S n) (pre +:+ NIX_STORE +:+ item +:+ tail) = pre +:+ render item +:+ items_loop render n tail.
Proof.
  intros Hf Hi Ht. cbn [items_loop]. rewrite Hf, str_from_add, str_from_app, item_ahead_app, str_to_app by done.
  by rewrite str_from_app.
Qed.
Lemma items_loop_none render n s : find NIX_STORE s = None → items_loop render n s = s.
Proof. intros H. destruct n; [done|]. cbn [items_loop]. by rewrite H. Qed.

(** Replacing a text keeps the bytes outside of it. *)
Lemma replace_from_bytes f skip p r s :
  p ≠ "" → all_bytes f p = true → all_bytes f (str_to skip s) = true →
  all_bytes f (replace_from skip p r s) = true → all_bytes f s = true.
Proof.
  intros Hp Hf. revert skip. induction s as [|a s IH]; intros skip Hs H; [done|].
  destruct skip as [|skip]; cbn [replace_from str_to] in H, Hs.
  - destruct (starts_with p (String a s)) eqn:E.
    + apply starts_with_true in E as [t Ht]. destruct p as [|b p]; [done|].
      rewrite str_app_cons in Ht. injection Ht as -> ->. cbn [String.length pred] in *.
      rewrite all_bytes_app in H. apply andb_true_iff in H as [_ H].
      apply andb_true_iff in Hf as [Ha Hf]. apply andb_true_iff. split; [done|].
      eapply IH; [|exact H]. by rewrite str_to_app.
    + apply andb_true_iff in H as [Ha H]. apply andb_true_iff. split; [done|]. by eapply (IH 0%nat); [destruct s|].
  - apply andb_true_iff in Hs as [Ha Hs]. apply andb_true_iff. split; [done|]. by eapply IH.
Qed.
Lemma replace_label_no_nul label reviewed text :
  no_nul label = true ∧ label ≠ "" → no_nul (replace_label text (label, reviewed)) = true → no_nul text = true.
Proof.
  intros [Hl Hne]. unfold replace_label, replace. cbn [fst snd]. destruct (contains label text); [|done].
  intros H. eapply replace_from_bytes; [done|done| |exact H]. by destruct text.
Qed.

Section Rendering.
Context (p : WorkstationBuildProfile).

(** The commit's own text of a reviewed item. *)
Definition commit_item (item : string) : string := NIX_STORE +:+ default item (wp_items p !! item).
Definition commit_store_items (script : string) : string :=
  items_loop commit_item (String.length script) script.

Hypothesis inverse : one_to_one (wp_items p, wp_reviewed_items p).
Hypothesis plain : plain_items (wp_items p, wp_reviewed_items p).

Lemma render_item_back item :
  all_bytes store_item_byte item = true → no_nul (render_item p item) = true →
  ∃ reviewed, render_item p item = NIX_STORE +:+ reviewed ∧ all_bytes store_item_byte reviewed = true ∧
    commit_item reviewed = NIX_STORE +:+ item.
Proof.
  intros Hi. unfold render_item, commit_item. destruct (wp_reviewed_items p !! item) as [reviewed|] eqn:E.
  - intros _. apply inverse in E. cbn in E. exists reviewed. rewrite E. split_and!; [done| |done].
    by apply plain in E as [? _].
  - destruct (other _ _) eqn:Eo; [done|]. intros _. exists item. split_and!; [done..|].
    apply other_false in Eo as [->| ->]; done.
Qed.

Lemma items_loop_stops n s : stops s → stops (items_loop (render_item p) n s).
Proof.
  intros Hs. destruct n; [done|]. destruct (find NIX_STORE s) as [i|] eqn:E; [|by rewrite items_loop_none].
  apply find_split in E as E'. destruct E' as (pre & rest & -> & ->).
  destruct (item_ahead_split rest) as (tail & Hr & Ht & Hi). revert Hr Hi.
  generalize (item_ahead rest) as item. intros item -> Hi. rewrite items_loop_found by done. destruct pre as [|a pre]; [|done].
  change ("" +:+ ?x) with x. unfold render_item. by repeat case_match.
Qed.

Lemma items_loop_back n m s :
  (String.length s ≤ n)%nat → no_nul (items_loop (render_item p) n s) = true →
  (String.length (items_loop (render_item p) n s) ≤ m)%nat →
  items_loop commit_item m (items_loop (render_item p) n s) = s.
Proof.
  revert m s. induction n as [|n IH]; intros m s Hn Hz Hm.
  { destruct s; [by apply items_loop_none|cbn in Hn; lia]. }
  destruct (find NIX_STORE s) as [i|] eqn:E; [|by rewrite (items_loop_none _ _ s), items_loop_none by done].
  apply find_split in E as E'. destruct E' as (pre & rest & -> & ->).
  destruct (item_ahead_split rest) as (tail & Hr & Ht & Hi). revert Hr Hi.
  generalize (item_ahead rest) as item. intros item -> Hi.
  rewrite items_loop_found in Hz, Hm by done. rewrite items_loop_found by done. unfold no_nul in Hz. rewrite !all_bytes_app in Hz.
  apply andb_true_iff in Hz as [_ [Hz1 Hz2]%andb_true_iff].
  destruct (render_item_back item Hi Hz1) as (reviewed & Hrv & Hb & Hc). rewrite Hrv, str_app_assoc in Hm |- *.
  rewrite !length_append in Hn, Hm. change (String.length NIX_STORE) with 11%nat in Hn, Hm.
  destruct m as [|m]; [lia|]. rewrite items_loop_found; [|by eapply find_first|done|by apply items_loop_stops].
  rewrite Hc, IH, str_app_assoc; [done|lia|done|lia].
Qed.
End Rendering.

(** ** Fingerprints *)

Lemma script_loop_None b n s : script_loop b n s = None → ∃ t, s = t +:+ NIX_STORE.
Proof.
  revert s. induction n as [|n IH]; intros s H; [done|]. destruct s as [|a s]; [done|]. cbn [script_loop] in H.
  destruct (strip_prefix NIX_STORE (String a s)) as [rest|] eqn:E.
  - apply strip_prefix_Some in E as ->. destruct (hash_ahead rest).
    + destruct (script_loop b n _) eqn:L; [done|]. apply IH in L as [t Ht].
      exists (NIX_STORE +:+ str_to 32 rest +:+ t). rewrite <-(str_to_from 32 rest) at 1. by rewrite Ht, !str_app_assoc.
    + destruct rest as [|c rest]; [by exists ""|]. destruct (script_loop b n rest) eqn:L; [done|].
      apply IH in L as [t ->]. exists (NIX_STORE +:+ String c t). by rewrite !str_app_assoc, str_app_cons.
  - destruct (script_loop b n s) eqn:L; [done|]. apply IH in L as [t ->]. exists (String a t). by rewrite str_app_cons.
Qed.

Lemma normalized_script_total b s : ends_with NIX_STORE s = false → is_Some (normalized_script b s).
Proof.
  intros H. destruct (normalized_script b s) eqn:E; [done|]. apply script_loop_None in E as Ht.
  destruct Ht as [t Ht]. apply strip_suffix_Some in Ht. unfold ends_with in H. by rewrite Ht in H.
Qed.

(** ** Where counterparts come from *)

Section Counterparts.
Context (content : ReviewedContent).

Definition role_sourced (role : string) (r : RoleCounterparts) : Prop :=
  (∀ k v, rc_fingerprints r !! k = Some v →
     {| fc_role := role; fc_commit := k; fc_reviewed := v |} ∈ rv_fingerprints content) ∧
  (∀ k v, rc_normalized r !! k = Some v →
     {| nc_role := role; nc_commit := k; nc_reviewed := v |} ∈ rv_normalized content).
Definition sourced (c : gmap string RoleCounterparts) : Prop :=
  ∀ role r, c !! role = Some r → role_sourced role r.

Lemma sourced_of_role role c : sourced c → role_sourced role (of_role role c).
Proof. intros H. unfold of_role. destruct (c !! role) eqn:E; cbn; [by apply H|done]. Qed.
Lemma sourced_insert role r c : sourced c → role_sourced role r → sourced (<[role := r]> c).
Proof. intros Hc Hr role' r'. rewrite lookup_insert_Some. intros [[<- <-]|[_ ?]]; [done|by apply Hc]. Qed.

Lemma add_fingerprint_sourced e c c' :
  e ∈ rv_fingerprints content → add_fingerprint e c = Ok c' → sourced c → sourced c'.
Proof.
  intros He H Hc. unfold add_fingerprint in H. destruct (_ || _); [done|].
  destruct (sourced_of_role (fc_role e) c Hc) as [Hf Hn].
  destruct (rc_fingerprints _ !! _) as [previous|].
  - destruct (bool_decide _); [|done]. injection H as <-. by apply sourced_insert.
  - injection H as <-. apply sourced_insert; [done|]. split; [|done]. intros k v. cbn.
    rewrite lookup_insert_Some. intros [[<- <-]|[_ ?]]; [by destruct e|by apply Hf].
Qed.
Lemma add_normalized_sourced e c c' :
  e ∈ rv_normalized content → add_normalized e c = Ok c' → sourced c → sourced c'.
Proof.
  intros He H Hc. unfold add_normalized in H. destruct (_ || _); [done|]. destruct (other _ _); [done|].
  injection H as <-. destruct (sourced_of_role (nc_role e) c Hc) as [Hf Hn]. apply sourced_insert; [done|].
  split; [done|]. intros k v. cbn. rewrite lookup_insert_Some. intros [[<- <-]|[_ ?]]; [by destruct e|by apply Hn].
Qed.
Lemma add_stock_command_sourced e c c' : add_stock_command e c = Ok c' → sourced c → sourced c'.
Proof.
  intros H Hc. unfold add_stock_command in H. destruct (negb _) in H; [done|]. destruct (_ || _); [done|].
  injection H as <-. apply sourced_insert; [done|]. by apply (sourced_of_role (sc_role e)) in Hc.
Qed.
Lemma add_builder_file_sourced e c c' : add_builder_file e c = Ok c' → sourced c → sourced c'.
Proof.
  intros H Hc. unfold add_builder_file in H. destruct (list_find _ _) as [[? []]|]; [|done].
  destruct (_ || _); [done|]. injection H as <-. apply sourced_insert; [done|].
  by apply (sourced_of_role (bf_role e)) in Hc.
Qed.

Lemma add_each_sourced {E} (add : E → gmap string RoleCounterparts → Checked (gmap string RoleCounterparts)) l c c' :
  (∀ e c c', e ∈ l → add e c = Ok c' → sourced c → sourced c') → add_each add l c = Ok c' → sourced c → sourced c'.
Proof.
  revert c. induction l as [|e l IH]; intros c Hadd H Hc; cbn in H; [by injection H as <-|].
  apply rbind_Ok in H as (c1 & H1 & H). eapply IH; [|done|].
  - intros e' ? ? ?. apply Hadd. by right.
  - eapply Hadd; [by left|done|done].
Qed.

Lemma with_reviewed_content_Ok q p :
  with_reviewed_content content q = Ok p →
  wp_builtin q = false ∧ ∃ c, p = with_counterparts c q ∧ sourced c.
Proof.
  unfold with_reviewed_content. intros (_u & Hb%refuse_if_Ok & H)%rbind_Ok. split; [done|].
  apply rbind_Ok in H as (c1 & H1 & H). apply rbind_Ok in H as (c2 & H2 & H).
  apply rbind_Ok in H as (c3 & H3 & H). apply rbind_Ok in H as (c4 & H4 & H). injection H as <-.
  exists c4. split; [done|].
  eapply (add_each_sourced add_builder_file); [by intros; eapply add_builder_file_sourced|done|].
  eapply (add_each_sourced add_normalized); [by intros; eapply add_normalized_sourced|done|].
  eapply (add_each_sourced add_stock_command); [by intros; eapply add_stock_command_sourced|done|].
  eapply (add_each_sourced add_fingerprint); [by intros; eapply add_fingerprint_sourced|done|]. done.
Qed.
End Counterparts.

(** ** Theorems *)

Section Theorems.
Context {protected : ProtectedDeps} {dates : ProfileDeps}.

Lemma derived_Ok commit last_modified identities tiaris p :
  derived commit last_modified identities tiaris = Ok p →
  one_to_one (wp_items p, wp_reviewed_items p) ∧ plain_items (wp_items p, wp_reviewed_items p) ∧
  Forall (identity_mapped identities (wp_items p)) COMMIT_IDENTITIES ∧
  wp_builtin p = false ∧ wp_nixpkgs_commit p = commit ∧
  BUILTIN_LAST_MODIFIED < last_modified ∧ commit ≠ BUILTIN_NIXPKGS_COMMIT.
Proof.
  unfold derived. intros (_c & _ & H)%rbind_Ok.
  destruct (nixos_version_label last_modified commit); [|done].
  destruct (nixos_version_label BUILTIN_LAST_MODIFIED _); [|done].
  apply rbind_Ok in H as (_n & Hn%refuse_if_Ok & H). apply rbind_Ok in H as (_i & _ & H).
  apply rbind_Ok in H as (_t & _ & H). apply rbind_Ok in H as (m & Hm & H).
  apply orb_false_iff in Hn as [Hn1%Z.leb_gt Hn2%bool_decide_eq_false].
  eapply map_identities_spec in Hm as (? & ? & _ & ?); [|exact commit_identities_safe| |].
  - injection H as <-. cbn. destruct m. by split_and!.
  - intros a b. cbn. by rewrite !lookup_empty.
  - intros a b. cbn. by rewrite lookup_empty.
Qed.

Lemma derived_labels commit last_modified identities tiaris p :
  derived commit last_modified identities tiaris = Ok p →
  ∃ label reviewed_label, nixos_version_label last_modified commit = Some label ∧
    nixos_version_label BUILTIN_LAST_MODIFIED BUILTIN_NIXPKGS_COMMIT = Some reviewed_label ∧
    wp_reviewed_labels p = [(commit, BUILTIN_NIXPKGS_COMMIT); (label, reviewed_label)] ∧
    wp_builtin p = false ∧ is_lower_hex_commit commit = true.
Proof.
  unfold derived. intros (_c & Hc%refuse_if_Ok & H)%rbind_Ok. apply negb_false_iff in Hc.
  destruct (nixos_version_label last_modified commit) as [label|]; [|done].
  destruct (nixos_version_label BUILTIN_LAST_MODIFIED _) as [reviewed|]; [|done].
  do 3 apply rbind_Ok in H as (? & _ & H). apply rbind_Ok in H as (m & _ & H). injection H as <-.
  by exists label, reviewed.
Qed.

Lemma lower_hex_no_nul commit : is_lower_hex_commit commit = true → no_nul commit = true ∧ commit ≠ "".
Proof.
  intros [Hl Ha]%andb_true_iff. split; [|by intros ->]. unfold no_nul. rewrite all_bytes_forall in *.
  intros a Hin. specialize (Ha a Hin). by destruct (Ascii.eqb_spec a "000") as [->|].
Qed.
Lemma version_label_no_nul {laws : ProfileLaws} last_modified commit label :
  is_lower_hex_commit commit = true → nixos_version_label last_modified commit = Some label →
  no_nul label = true ∧ label ≠ "".
Proof.
  intros [Hc _]%lower_hex_no_nul H. unfold nixos_version_label in H.
  apply bind_Some in H as (date & Hd & H). destruct (_ && _); [|done]. injection H as <-. split; [|done].
  assert (all_bytes (λ a, negb (Ascii.eqb a "000")) (str_to 7 commit) = true) as H7.
  { unfold no_nul in Hc. rewrite <-(str_to_from 7 commit), all_bytes_app in Hc. by apply andb_true_iff in Hc as [? _]. }
  unfold no_nul. rewrite !all_bytes_app, (date_no_nul _ _ Hd). exact H7.
Qed.

Lemma renamed_path p reviewed derived :
  renamed (wp_items p) reviewed derived → path p reviewed = derived.
Proof. intros (item & mapped & Hi & Hm & ->). unfold path. by rewrite Hi, Hm. Qed.

(** C14. A derived profile renames the reviewed providers.  When a profile is derived for a
    detected commit, the commit is newer than the reviewed one and not it; the map from reviewed store
    items to the commit's and the map back are inverse to each other, so no provider stands for two
    reviewed ones and none is replaced by two; and for every reviewed identity the profile's path, and
    the path of its derivation, is the one that was evaluated for this role at the commit. *)
Theorem derived_profiles_rename_the_reviewed_providers commit last_modified identities tiaris p :
  derived commit last_modified identities tiaris = Ok p →
  BUILTIN_LAST_MODIFIED < last_modified ∧ commit ≠ BUILTIN_NIXPKGS_COMMIT ∧
  wp_nixpkgs_commit p = commit ∧ wp_builtin p = false ∧
  (∀ a b, wp_items p !! a = Some b ↔ wp_reviewed_items p !! b = Some a) ∧
  (∀ i, i ∈ COMMIT_IDENTITIES → ∃ d, identities !! ci_role i = Some d ∧
     path p (ci_path i) = di_path d ∧ path p <$> ci_drv_path i = di_drv d).
Proof.
  intros (Hm & _ & Hi & ? & ? & ? & ?)%derived_Ok. split_and!; [done..|exact Hm|].
  intros i (d & ? & Hp & Hd)%(proj1 (Forall_forall _ _) Hi). exists d.
  split_and!; [done|by apply renamed_path|].
  destruct (ci_drv_path i), (di_drv d); try done. cbn. f_equal. by apply renamed_path.
Qed.

(** C13. Rendering a script hides no provider.  For a profile derived for a commit and given its
    counterparts, for any derivation: a script that renders to a text without the NUL byte, which no
    reviewed script contains, comes from a text with the reviewed providers, from which the
    rendering differs only in that the commit's revision and then its version label have been
    replaced by the reviewed ones: the script is that text with each reviewed provider replaced by
    the commit's own, and nothing else changed.  So a built-in provider that the commit replaced, or a
    foreign one, never passes as the commit's. *)
Theorem rendering_hides_no_provider {laws : ProfileLaws}
    commit last_modified identities tiaris q content p drv_path script :
  derived commit last_modified identities tiaris = Ok q → with_reviewed_content content q = Ok p →
  let scoped := for_derivation p drv_path in
  no_nul (reviewed_script scoped script) = true →
  ∃ text label reviewed_label,
    nixos_version_label last_modified commit = Some label ∧
    nixos_version_label BUILTIN_LAST_MODIFIED BUILTIN_NIXPKGS_COMMIT = Some reviewed_label ∧
    reviewed_script scoped script =
      replace_label (replace_label text (commit, BUILTIN_NIXPKGS_COMMIT)) (label, reviewed_label) ∧
    script = commit_store_items scoped text.
Proof.
  intros Hd (_ & c & -> & _)%with_reviewed_content_Ok scoped Hz.
  destruct (derived_labels _ _ _ _ _ Hd) as (label & reviewed & Hl & Hr & Hlabels & Hb & Hhex).
  apply derived_Ok in Hd as (Hm & Hp & _).
  assert (wp_items scoped = wp_items q ∧ wp_reviewed_items scoped = wp_reviewed_items q ∧
    wp_reviewed_labels scoped = wp_reviewed_labels q ∧ wp_builtin scoped = false) as (E1 & E2 & E3 & E4).
  { subst scoped. unfold for_derivation. change (wp_builtin (with_counterparts c q)) with (wp_builtin q).
    rewrite Hb. by cbn. }
  unfold reviewed_script in Hz |- *. rewrite E4, E3, Hlabels in Hz |- *. cbn [foldl] in Hz |- *.
  exists (reviewed_store_items scoped script), label, reviewed. split_and!; [done..|].
  rewrite <-E1, <-E2 in Hm, Hp. symmetry. apply items_loop_back; [done|done|done| |done].
  apply replace_label_no_nul in Hz; [|by eapply version_label_no_nul].
  apply replace_label_no_nul in Hz; [done|]. by apply lower_hex_no_nul.
Qed.

(** C15. A counterpart admits only its own role.  The fingerprints under which a derivation's script is
    looked up among the reviewed ones are those of the rendered script, or those that an entry of the
    reviewed content gives for exactly these, or for exactly this normalized half, and this entry
    names the role of this derivation: content that was derived for one role admits nothing in
    another. *)
Theorem counterparts_stay_in_their_role content q p drv_path script normalized executable :
  with_reviewed_content content q = Ok p →
  fingerprints (for_derivation p drv_path) script = Some (normalized, executable) →
  ∃ n e, sha256_hex_of <$> normalized_script false (reviewed_script p script) = Some n ∧
    sha256_hex_of <$> normalized_script true (reviewed_script p script) = Some e ∧
    ((normalized, executable) = (n, e) ∨
     {| fc_role := derivation_role p drv_path; fc_commit := (n, e); fc_reviewed := (normalized, executable) |}
       ∈ rv_fingerprints content ∨
     executable = e ∧
     {| nc_role := derivation_role p drv_path; nc_commit := n; nc_reviewed := normalized |} ∈ rv_normalized content).
Proof.
  intros (Hb & c & -> & Hc)%with_reviewed_content_Ok. unfold fingerprints, for_derivation.
  change (wp_builtin (with_counterparts c q)) with (wp_builtin q). rewrite Hb.
  set (p := with_counterparts c q). change (reviewed_script (with_role _ p) script) with (reviewed_script p script).
  unfold normalized_script_sha256, executable_pinned_script_sha256.
  destruct (sha256_hex_of <$> normalized_script false _) as [n|]; [|done].
  destruct (sha256_hex_of <$> normalized_script true _) as [e|]; [|done].
  cbn [mbind option_bind]. intros H. exists n, e. split_and!; [done..|].
  unfold role_counterparts in H. cbn [wp_role with_role wp_counterparts mbind option_bind] in H.
  change (wp_counterparts p) with c in H. destruct (c !! derivation_role p drv_path) as [r|] eqn:Er.
  - apply Hc in Er as [Hf Hn]. destruct (rc_fingerprints r !! _) as [v|] eqn:Ef.
    + injection H as ->. right. left. by apply Hf.
    + destruct (rc_normalized r !! _) as [v|] eqn:En; [|left; by injection H as -> ->].
      injection H as -> ->. right. right. split; [done|]. by apply Hn.
  - left. by injection H as -> ->.
Qed.

(** The fingerprints of a script exist unless its rendering ends with the prefix of store paths. *)
Lemma fingerprints_total p script :
  ends_with NIX_STORE (reviewed_script p script) = false → is_Some (fingerprints p script).
Proof.
  intros H. destruct (normalized_script_total false _ H) as [n Hn], (normalized_script_total true _ H) as [e He].
  unfold fingerprints, normalized_script_sha256, executable_pinned_script_sha256. rewrite Hn, He. by eexists.
Qed.

(** A script that ends with the prefix of store paths makes the worker panic: the loop that
    normalizes it reads the byte behind the prefix. *)
Lemma trailing_store_prefix_panics : fingerprints builtin_profile "ls /nix/store/" = None.
Proof. reflexivity. Qed.
End Theorems.

(** ** A derived profile *)

Module ProfileDemo.
#[local] Instance dates : ProfileDeps := {|
  date_label s := if s =? BUILTIN_LAST_MODIFIED then Some "20260708" else Some "20260801" |}.
#[local] Instance dates_laws : ProfileLaws.
Proof. constructor. intros s date. cbn. destruct (s =? _); by intros [= <-]. Qed.
(** The providers of the commit: every hash is turned by one. *)
Definition turned (path : string) : string :=
  match strip_prefix NIX_STORE path with
  | Some (String a rest) => NIX_STORE +:+ str_to 31 rest +:+ String a (str_from 31 rest)
  | _ => path
  end.
Definition identities : gmap string DerivedIdentity :=
  list_to_map ((λ i, (ci_role i, {| di_path := turned (ci_path i); di_drv := turned <$> ci_drv_path i |}))
    <$> COMMIT_IDENTITIES).
Definition commit : string := "0123456789abcdef0123456789abcdef01234567".
Definition hash_a : string := of_bytes (replicate 64 "a"%char).
Definition hash_b : string := of_bytes (replicate 64 "b"%char).
Definition content : ReviewedContent := {|
  rv_fingerprints := [{| fc_role := "tool"; fc_commit := (hash_a, hash_b); fc_reviewed := (hash_b, hash_a) |}];
  rv_stock_commands := []; rv_builder_files := []; rv_normalized := [] |}.
Definition the_derived : Checked WorkstationBuildProfile := derived commit 1785542400 identities ∅.
Definition the_profile : Checked WorkstationBuildProfile := q ≔ the_derived ?; with_reviewed_content content q.

Example profile_derived : is_ok the_profile = true.
Proof. vm_compute. reflexivity. Qed.
(** A script of the commit renders to the reviewed one; one with the reviewed provider does not. *)
Definition cpio : string := "/nix/store/bbfrw9pncsp5pvybrfp26swb93vy8f9g-cpio-2.15".
Example rendered :
  (p ← ok the_profile; Some (reviewed_store_items p (turned cpio +:+ "/bin/cpio -o"),
                             no_nul (reviewed_store_items p (cpio +:+ "/bin/cpio -o"))))
  = Some (cpio +:+ "/bin/cpio -o", false).
Proof. vm_compute. reflexivity. Qed.
Example derived_ok : is_ok the_derived = true.
Proof. vm_compute. reflexivity. Qed.
Example cpio_of_the_commit : di_path <$> identities !! "cpio" = Some (turned cpio).
Proof. vm_compute. reflexivity. Qed.

Lemma derived_profiles_rename_the_reviewed_providers_witness :
  ∃ q, the_derived = Ok q ∧ path q cpio = turned cpio.
Proof.
  pose proof derived_ok as D. destruct the_derived as [q|e] eqn:E; [|discriminate D]. exists q. split; [reflexivity|].
  unfold the_derived in E. destruct (derived_profiles_rename_the_reviewed_providers commit 1785542400 identities ∅ q E)
    as (_ & _ & _ & _ & _ & Hi).
  destruct (Hi (identity "cpio" cpio "/nix/store/p5gqgqbr9jy12zw97kysdsplg77qilh0-cpio-2.15.drv")) as (d & Hd & Hp & _).
  - apply list_elem_of_lookup. exists 13%nat. reflexivity.
  - cbn [ci_role ci_path identity] in Hd, Hp. pose proof cpio_of_the_commit as C. rewrite Hd in C.
    injection C as C. rewrite Hp. exact C.
Defined.

(** The script of a derivation [tool], and its rendering. *)
Definition drv_of (name : string) : string := "/nix/store/1rnlk0fgkq8lqds32akkwzm69q6ybl78-" +:+ name +:+ "-1.0.drv".
Definition script : string := turned cpio +:+ "/bin/cpio -o".
Example tool_rendered :
  (p ← ok the_profile; Some (reviewed_script (for_derivation p (drv_of "tool")) script)) = Some (cpio +:+ "/bin/cpio -o").
Proof. vm_compute. reflexivity. Qed.

Lemma rendering_hides_no_provider_witness :
  ∃ p text, the_profile = Ok p ∧ script = commit_store_items (for_derivation p (drv_of "tool")) text.
Proof.
  pose proof tool_rendered as R. destruct the_profile as [p|e] eqn:Ep; [|discriminate R].
  cbn [ok mbind option_bind] in R. injection R as R.
  unfold the_profile in Ep. apply rbind_Ok in Ep as (q & Eq & Ep). unfold the_derived in Eq.
  destruct (rendering_hides_no_provider commit 1785542400 identities ∅ q content p (drv_of "tool") script Eq Ep)
    as (text & label & reviewed & _ & _ & _ & H); [rewrite R; reflexivity|].
  exists p, text. split; [reflexivity|exact H].
Defined.

(** Texts with and without hashes have different digests. *)
#[local] Instance digests : ProtectedDeps := {|
  url_parse _ := None; json_string_from_str := Some; json_string s := s; uuid_hyphenated := Some;
  sha256_hex_of s := if contains "<hash>" s then hash_a else hash_b |}.
(** The counterpart is used in its role, and not in another. *)
Example tool_fingerprints :
  (p ← ok the_profile; fingerprints (for_derivation p (drv_of "tool")) script) = Some (hash_b, hash_a).
Proof. vm_compute. reflexivity. Qed.
Example other_fingerprints :
  (p ← ok the_profile; fingerprints (for_derivation p (drv_of "other")) script) = Some (hash_a, hash_b).
Proof. vm_compute. reflexivity. Qed.

Lemma counterparts_stay_in_their_role_witness :
  ∃ p n e, the_profile = Ok p ∧ fingerprints (for_derivation p (drv_of "tool")) script = Some (hash_b, hash_a) ∧
    sha256_hex_of <$> normalized_script false (reviewed_script p script) = Some n ∧
    sha256_hex_of <$> normalized_script true (reviewed_script p script) = Some e.
Proof.
  pose proof tool_fingerprints as R. destruct the_profile as [p|e] eqn:Ep; [|discriminate R].
  cbn [ok mbind option_bind] in R.
  unfold the_profile in Ep. apply rbind_Ok in Ep as (q & Eq & Ep).
  destruct (counterparts_stay_in_their_role content q p (drv_of "tool") script hash_b hash_a Ep R)
    as (n & e & Hn & He & _).
  exists p, n, e. split; [reflexivity|]. split; [exact R|]. split; [exact Hn|exact He].
Defined.
End ProfileDemo.
