(* ===== verification/BuildLog.v ===== *)
(** * Logs of builds

    What a build prints on its way into the stored log: [src/bounded_io.rs] cuts a
    stream into lines, [src/nix_log.rs] reads the events Nix writes, and the
    [SharedLog] of [src/build.rs] redacts and bounds what is kept.  A stream is the
    chunks its reads return; a text from outside is a string of any bytes. *)

From stdpp Require Import base gmap list strings.
From Stdlib Require Import Ascii ZArith Lia.
From S2P Require Import Prelude RustStr RustText Json DbText ProtectedText ProtectedMaterial Redact BuildSpec.

#[local] Open Scope Z_scope.
#[local] Open Scope nest_scope.

(** ** Frames *)

Inductive Frame := Line (line : string) | Oversized | InvalidEncoding.

(** What is still to be read, and the error that ends it, if one does. *)
Record Reader := { rd_chunks : list string; rd_error : option string }.

Record Lines := { ln_pending : string; ln_discarding : bool }.
Definition new_lines : Lines := {| ln_pending := ""; ln_discarding := false |}.

(** [fill_buf]: what is buffered; nothing at the end. *)
Definition fill_buf (r : Reader) : result string string :=
  match rd_chunks r with
  | chunk :: _ => Ok chunk
  | [] => match rd_error r with Some e => Err e | None => Ok "" end
  end.
Definition consume (n : nat) (r : Reader) : Reader :=
  match rd_chunks r with
  | chunk :: chunks =>
      let rest := str_from n chunk in
      {| rd_chunks := if is_empty rest then chunks else rest :: chunks; rd_error := rd_error r |}
  | [] => r
  end.

Definition newline : ascii := "010".
(** [from_utf8]: a text that the lossy decoding does not change. *)
Definition is_utf8 (s : string) : bool := bool_decide (utf8_lossy (bytes s) = bytes s).

Definition finish_frame (pending : string) : Frame :=
  let line := strip_cr pending in
  if is_utf8 line then Line line else InvalidEncoding.

(** [Lines::next]; [None]: the rounds are used up. *)
Fixpoint next_frame (limit : Z) (rounds : nat) (s : Lines) (r : Reader)
    : option (result string (option Frame) * Lines * Reader) :=
  match rounds with
  | O => None
  | S rounds =>
      match fill_buf r with
      | Err e => Some (Err e, s, r)
      | Ok bytes =>
          if is_empty bytes then
            if is_empty (ln_pending s) || ln_discarding s then Some (Ok None, s, r)
            else Some (Ok (Some (finish_frame (ln_pending s))),
                       {| ln_pending := ""; ln_discarding := ln_discarding s |}, r)
          else
            let end_ := find_byte (Ascii.eqb newline) bytes in
            let length := default (String.length bytes) end_ in
            let consumed := match end_ with Some _ => S length | None => length end in
            let r' := consume consumed r in
            if ln_discarding s then
              next_frame limit rounds
                {| ln_pending := ln_pending s;
                   ln_discarding := match end_ with Some _ => false | None => true end |} r'
            else if limit <? len (ln_pending s) + Z.of_nat length then
              Some (Ok (Some Oversized),
                    {| ln_pending := ""; ln_discarding := match end_ with Some _ => false | None => true end |}, r')
            else
              let pending := ln_pending s +:+ str_to length bytes in
              match end_ with
              | Some _ => Some (Ok (Some (finish_frame pending)),
                                {| ln_pending := ""; ln_discarding := false |}, r')
              | None => next_frame limit rounds {| ln_pending := pending; ln_discarding := false |} r'
              end
      end
  end.

(** The bytes that are left: each round reads one at least. *)
Definition left_to_read (r : Reader) : nat := list_sum (String.length <$> rd_chunks r).

(** [while let Some(frame) = lines.next().await?]. *)
Fixpoint for_frames {A} (limit : Z) (body : Frame → A → A) (rounds : nat) (s : Lines) (r : Reader) (a : A)
    : option (result string unit * A) :=
  match rounds with
  | O => None
  | S rounds =>
      match next_frame limit (S (left_to_read r)) s r with
      | None => None
      | Some (Err e, _, _) => Some (Err e, a)
      | Some (Ok None, _, _) => Some (Ok tt, a)
      | Some (Ok (Some frame), s, r) => for_frames limit body rounds s r (body frame a)
      end
  end.

(** ** The captured log *)

Definition MAX_PENDING_LOG_LINE_BYTES : Z := 64 * 1024.

Record SharedLogState := { sl_text : string; sl_pending : string; sl_redact_following : nat }.
Definition new_log : SharedLogState := {| sl_text := ""; sl_pending := ""; sl_redact_following := 0 |}.

(** The first boundary of a character from [start] on; [rest] is the text from there. *)
Fixpoint next_boundary (rest : string) (start : nat) : nat :=
  match rest with
  | String a rest => if is_continuation a then next_boundary rest (S start) else start
  | EmptyString => start
  end.
Definition utf8_tail_start (value : string) (keep_bytes : Z) : nat :=
  if len value <=? keep_bytes then 0%nat else
  let start := Z.to_nat (len value - keep_bytes) in
  next_boundary (str_from start value) start.

Definition TRUNCATED : string := "[... earlier build log truncated ...]" +:+ nl.
Definition bound_captured_log (text : string) (max_bytes : Z) : string :=
  if len text <=? max_bytes then text else
  let keep := sat_sub max_bytes (len TRUNCATED) in
  TRUNCATED +:+ str_from (utf8_tail_start text keep) text.

(** One word: what is printed for it, and how many words behind it are withheld. *)
Definition redact_token (redact_following : nat) (token : string) : string * nat :=
  match redact_following with
  | S n => (REDACTION, n)
  | O =>
      let lower := to_ascii_lowercase token in
      if contains "authorization:" lower || contains "private-key" lower then (REDACTION, 2%nat)
      else if contains_sensitive_key_value token then (redact_sensitive_key_values token, 0%nat)
      else (token, 0%nat)
  end.
Fixpoint redact_tokens (redact_following : nat) (tokens : list string) : list string * nat :=
  match tokens with
  | [] => ([], redact_following)
  | token :: tokens =>
      let '(shown, n) := redact_token redact_following token in
      let '(rest, n) := redact_tokens n tokens in (shown :: rest, n)
  end.
Definition redact_log_line (line : string) (redact_following : nat) : string * nat :=
  let '(tokens, n) := redact_tokens redact_following (split_whitespace (redact_sensitive_key_values line)) in
  (join " " tokens, n).

Fixpoint redact_lines (lines : list string) (redact_following : nat) : list string * nat :=
  match lines with
  | [] => ([], redact_following)
  | line :: lines =>
      let '(line, n) := redact_log_line line redact_following in
      let '(rest, n) := redact_lines lines n in (line :: rest, n)
  end.
Definition redact_log_text (text : string) (redact_following : nat) : string * nat :=
  let '(lines, n) := redact_lines (split newline text) redact_following in (join nl lines, n).

Definition OVERSIZED_LINE : string := "[... oversized unbroken build log line redacted ...]" +:+ nl.

(** [SharedLog::append]; the lock makes it one action. *)
Definition append (max_bytes : Z) (inner : SharedLogState) (text : string) : SharedLogState :=
  let pending := sl_pending inner +:+ text in
  let inner :=
    match rfind newline pending with
    | Some last_newline =>
        let '(redacted, following) := redact_log_text (str_to (S last_newline) pending) (sl_redact_following inner) in
        {| sl_text := bound_captured_log (sl_text inner +:+ redacted) max_bytes;
           sl_pending := str_from (S last_newline) pending; sl_redact_following := following |}
    | None => {| sl_text := sl_text inner; sl_pending := pending;
                 sl_redact_following := sl_redact_following inner |}
    end in
  if MAX_PENDING_LOG_LINE_BYTES <? len (sl_pending inner) then
    {| sl_text := bound_captured_log (sl_text inner +:+ OVERSIZED_LINE) max_bytes;
       sl_pending := ""; sl_redact_following := 0 |}
  else inner.

Definition log_snapshot (max_bytes : Z) (inner : SharedLogState) : string :=
  bound_captured_log
    (sl_text inner +:+ (redact_log_text (sl_pending inner) (sl_redact_following inner)).1) max_bytes.

(** ** Events of Nix *)

Definition MAX_TRACKED_ACTIVITIES : nat := Z.to_nat 4096.
Definition MAX_ACTIVITY_NAME_BYTES : nat := 512.
Definition NIX_JSON_PREFIX : string := "@nix ".
Definition ACT_COPY_PATH : Z := 100.
Definition ACT_COPY_PATHS : Z := 103.
Definition ACT_BUILDS : Z := 104.
Definition ACT_BUILD : Z := 105.
Definition RES_BUILD_LOG_LINE : Z := 101.
Definition RES_PROGRESS : Z := 105.
Definition RES_SET_EXPECTED : Z := 106.
Definition RES_POST_BUILD_LOG_LINE : Z := 107.
Definition LVL_INFO : Z := 3.

Record NixJsonEvent := {
  ev_action : string; ev_id : Z; ev_activity_type : Z; ev_level : Z; ev_text : string; ev_msg : string;
  ev_fields : list Value;
}.
Record Activity := { av_activity_type : Z; av_build_name : string }.

(** [serde_json::from_str::<NixJsonEvent>]. *)
Class NixEvents := { event_from_str : string → option NixJsonEvent }.

Record BuildProgressSnapshot := {
  ps_builds_expected : Z; ps_builds_done : Z; ps_builds_running : Z;
  ps_fetches_expected : Z; ps_fetches_done : Z; ps_current_build : option string;
}.

(** [range_start + (span.saturating_mul(done) / expected) as i32], within the range. *)
Definition percent_in (range_start range_end done expected : Z) : Z :=
  let span := Z.max (range_end - range_start) 0 in
  let percent := range_start + sat_mul u64_max span done / expected in
  clamp range_start range_end percent.

Definition progress_update (s : BuildProgressSnapshot) (range_start range_end : Z) : option (Z * string) :=
  if (0 <? ps_builds_expected s) || (0 <? ps_builds_done s) || (0 <? ps_builds_running s) then
    let expected := Z.max (Z.max (ps_builds_expected s)
                             (sat_add u64_max (ps_builds_done s) (ps_builds_running s))) 1 in
    let done := Z.min (ps_builds_done s) expected in
    let message := "Built " +:+ show done +:+ "/" +:+ show expected +:+ " derivations" in
    let message := match ps_current_build s with
                   | Some current =>
                       message +:+ " · building " +:+ current +:+
                       (if 1 <? ps_builds_running s
                        then " (+" +:+ show (ps_builds_running s - 1) +:+ " more)" else "")
                   | None => message
                   end in
    Some (percent_in range_start range_end done expected, message)
  else if (0 <? ps_fetches_expected s) || (0 <? ps_fetches_done s) then
    let expected := Z.max (Z.max (ps_fetches_expected s) (ps_fetches_done s)) 1 in
    let done := Z.min (ps_fetches_done s) expected in
    Some (percent_in range_start range_end done expected,
          "Fetched " +:+ show done +:+ "/" +:+ show expected +:+ " store paths from cache")
  else None.

Record InternalJsonParser := {
  pr_activities : gmap Z Activity; pr_build_start_order : list Z;
  pr_observed_builds_done : Z; pr_observed_fetches_done : Z;
  pr_reported_builds_done : Z; pr_reported_builds_expected : Z;
  pr_reported_fetches_done : Z; pr_reported_fetches_expected : Z;
}.
Definition new_parser : InternalJsonParser := {|
  pr_activities := ∅; pr_build_start_order := [];
  pr_observed_builds_done := 0; pr_observed_fetches_done := 0;
  pr_reported_builds_done := 0; pr_reported_builds_expected := 0;
  pr_reported_fetches_done := 0; pr_reported_fetches_expected := 0 |}.

Definition with_activities (activities : gmap Z Activity) (order : list Z) (p : InternalJsonParser)
    : InternalJsonParser := {|
  pr_activities := activities; pr_build_start_order := order;
  pr_observed_builds_done := pr_observed_builds_done p;
  pr_observed_fetches_done := pr_observed_fetches_done p;
  pr_reported_builds_done := pr_reported_builds_done p;
  pr_reported_builds_expected := pr_reported_builds_expected p;
  pr_reported_fetches_done := pr_reported_fetches_done p;
  pr_reported_fetches_expected := pr_reported_fetches_expected p |}.
Definition with_observed (builds fetches : Z) (p : InternalJsonParser) : InternalJsonParser := {|
  pr_activities := pr_activities p; pr_build_start_order := pr_build_start_order p;
  pr_observed_builds_done := builds; pr_observed_fetches_done := fetches;
  pr_reported_builds_done := pr_reported_builds_done p;
  pr_reported_builds_expected := pr_reported_builds_expected p;
  pr_reported_fetches_done := pr_reported_fetches_done p;
  pr_reported_fetches_expected := pr_reported_fetches_expected p |}.
(** What is reported only grows. *)
Definition with_builds (done expected : Z) (p : InternalJsonParser) : InternalJsonParser := {|
  pr_activities := pr_activities p; pr_build_start_order := pr_build_start_order p;
  pr_observed_builds_done := pr_observed_builds_done p;
  pr_observed_fetches_done := pr_observed_fetches_done p;
  pr_reported_builds_done := Z.max (pr_reported_builds_done p) done;
  pr_reported_builds_expected := Z.max (pr_reported_builds_expected p) expected;
  pr_reported_fetches_done := pr_reported_fetches_done p;
  pr_reported_fetches_expected := pr_reported_fetches_expected p |}.
Definition with_fetches (done expected : Z) (p : InternalJsonParser) : InternalJsonParser := {|
  pr_activities := pr_activities p; pr_build_start_order := pr_build_start_order p;
  pr_observed_builds_done := pr_observed_builds_done p;
  pr_observed_fetches_done := pr_observed_fetches_done p;
  pr_reported_builds_done := pr_reported_builds_done p;
  pr_reported_builds_expected := pr_reported_builds_expected p;
  pr_reported_fetches_done := Z.max (pr_reported_fetches_done p) done;
  pr_reported_fetches_expected := Z.max (pr_reported_fetches_expected p) expected |}.

(** The last build that was started and is still tracked. *)
Definition current_build (p : InternalJsonParser) : option string :=
  av_build_name <$> head (omap (λ id, pr_activities p !! id) (reverse (pr_build_start_order p))).
Definition parser_snapshot (p : InternalJsonParser) : BuildProgressSnapshot := {|
  ps_builds_expected := pr_reported_builds_expected p;
  ps_builds_done := Z.max (pr_reported_builds_done p) (pr_observed_builds_done p);
  ps_builds_running := Z.of_nat (length (pr_build_start_order p));
  ps_fetches_expected := pr_reported_fetches_expected p;
  ps_fetches_done := Z.max (pr_reported_fetches_done p) (pr_observed_fetches_done p);
  ps_current_build := current_build p |}.

(** [while !name.is_char_boundary(end) { end -= 1 }]. *)
Fixpoint floor_boundary (n : nat) (s : string) : nat :=
  if boundary n s then n else match n with S n => floor_boundary n s | O => 0%nat end.
Definition short_name (name : string) : string :=
  str_to (floor_boundary (Nat.min (String.length name) MAX_ACTIVITY_NAME_BYTES) name) name.

Definition shown (level : Z) (text : string) : option string :=
  if (level <=? LVL_INFO) && negb (is_empty text) then Some text else None.

Definition tracked_types : list Z := [ACT_COPY_PATH; ACT_COPY_PATHS; ACT_BUILDS; ACT_BUILD].
Definition without_id (id : Z) (order : list Z) : list Z := List.filter (λ x, negb (x =? id)) order.

Definition build_name_of (fields : list Value) : string :=
  default "" (short_name <$> (derivation_display_name <$> (v ← head fields; as_str v))).

Definition handle_start (event : NixJsonEvent) (p : InternalJsonParser) : option string * InternalJsonParser :=
  let rendered := shown (ev_level event) (trim_end (ev_text event)) in
  let known := bool_decide (is_Some (pr_activities p !! ev_id event)) in
  if negb (bool_decide (ev_activity_type event ∈ tracked_types))
     || ((MAX_TRACKED_ACTIVITIES <=? size (pr_activities p))%nat && negb known)
  then (rendered, p)
  else
    let order := if known then without_id (ev_id event) (pr_build_start_order p) else pr_build_start_order p in
    let is_build := ev_activity_type event =? ACT_BUILD in
    let build_name := if is_build then build_name_of (ev_fields event) else "" in
    let order := if is_build then order ++ [ev_id event] else order in
    (rendered,
     with_activities
       (<[ev_id event := {| av_activity_type := ev_activity_type event; av_build_name := build_name |}]>
          (pr_activities p)) order p).

Definition handle_stop (event : NixJsonEvent) (p : InternalJsonParser) : option string * InternalJsonParser :=
  let counted :=
    match pr_activities p !! ev_id event with
    | Some activity =>
        let p := with_activities (delete (ev_id event) (pr_activities p)) (pr_build_start_order p) p in
        if av_activity_type activity =? ACT_BUILD then
          with_observed (sat_add u64_max (pr_observed_builds_done p) 1) (pr_observed_fetches_done p) p
        else if av_activity_type activity =? ACT_COPY_PATH then
          with_observed (pr_observed_builds_done p) (sat_add u64_max (pr_observed_fetches_done p) 1) p
        else p
    | None => p
    end in
  (None, with_activities (pr_activities counted)
           (without_id (ev_id event) (pr_build_start_order counted)) counted).

Definition log_line (event : NixJsonEvent) (p : InternalJsonParser) : option string :=
  text ← (v ← head (ev_fields event); as_str v);
  let line := trim_end text in
  if is_empty line then None else
  let prefix := match pr_activities p !! ev_id event with
                | Some activity => if is_empty (av_build_name activity) then ""
                                   else av_build_name activity +:+ "> "
                | None => ""
                end in
  Some (prefix +:+ line).

(** The first two numbers of an event. *)
Definition two_numbers (event : NixJsonEvent) : option (Z * Z) :=
  a ← (v ← head (ev_fields event); as_u64 v);
  b ← (v ← ev_fields event !! 1%nat; as_u64 v);
  Some (a, b).

Definition report_done (event : NixJsonEvent) (p : InternalJsonParser) : InternalJsonParser :=
  match pr_activities p !! ev_id event, two_numbers event with
  | Some activity, Some (done, expected) =>
      if av_activity_type activity =? ACT_BUILDS then with_builds done expected p
      else if av_activity_type activity =? ACT_COPY_PATHS then with_fetches done expected p
      else p
  | _, _ => p
  end.
Definition report_expected (event : NixJsonEvent) (p : InternalJsonParser) : InternalJsonParser :=
  match two_numbers event with
  | Some (expected_type, expected) =>
      if expected_type =? ACT_BUILD then with_builds (pr_reported_builds_done p) expected p
      else if expected_type =? ACT_COPY_PATH then with_fetches (pr_reported_fetches_done p) expected p
      else p
  | None => p
  end.

Definition handle_result (event : NixJsonEvent) (p : InternalJsonParser) : option string * InternalJsonParser :=
  let kind := ev_activity_type event in
  if (kind =? RES_BUILD_LOG_LINE) || (kind =? RES_POST_BUILD_LOG_LINE) then (log_line event p, p)
  else if kind =? RES_PROGRESS then (None, report_done event p)
  else if kind =? RES_SET_EXPECTED then (None, report_expected event p)
  else (None, p).

Section Events.
Context {events : NixEvents}.

Definition feed_line (line : string) (p : InternalJsonParser) : option string * InternalJsonParser :=
  match strip_prefix NIX_JSON_PREFIX line with
  | None => let trimmed := trim_end line in (if is_empty trimmed then None else Some trimmed, p)
  | Some payload =>
      match event_from_str payload with
      | None => (Some (trim_end line), p)
      | Some event =>
          if bool_decide (ev_action event = "start") then handle_start event p
          else if bool_decide (ev_action event = "stop") then handle_stop event p
          else if bool_decide (ev_action event = "result") then handle_result event p
          else if bool_decide (ev_action event = "msg") then
            (shown (ev_level event) (trim_end (ev_msg event)), p)
          else (None, p)
      end
  end.

(** ** The two readers of a build *)

Definition REDACTED_FRAME : string := "[... oversized or invalid build log frame redacted ...]" +:+ nl.

Definition log_frame (max_bytes : Z) (frame : Frame) (log : SharedLogState) : SharedLogState :=
  match frame with
  | Line line => append max_bytes log (line +:+ nl)
  | Oversized | InvalidEncoding => append max_bytes log REDACTED_FRAME
  end.
Definition read_log_stream (max_bytes : Z) (r : Reader) (log : SharedLogState)
    : option (result string unit * SharedLogState) :=
  for_frames MAX_PENDING_LOG_LINE_BYTES (log_frame max_bytes) (S (left_to_read r)) new_lines r log.

Definition json_frame (max_bytes : Z) (frame : Frame) (s : SharedLogState * InternalJsonParser)
    : SharedLogState * InternalJsonParser :=
  match frame with
  | Line line =>
      let '(rendered, parser) := feed_line line s.2 in
      match rendered with
      | Some text => (append max_bytes s.1 (text +:+ nl), parser)
      | None => (s.1, parser)
      end
  | Oversized | InvalidEncoding => (append max_bytes s.1 REDACTED_FRAME, s.2)
  end.
Definition read_internal_json_log_stream (max_bytes : Z) (r : Reader) (log : SharedLogState)
    (progress : InternalJsonParser) : option (result string unit * (SharedLogState * InternalJsonParser)) :=
  for_frames MAX_PENDING_LOG_LINE_BYTES (json_frame max_bytes) (S (left_to_read r)) new_lines r (log, progress).
End Events.
