(* ===== verification/BuildLogProofs.v ===== *)
(** * Logs of builds: proofs

    Lines do not depend on how a stream arrives, the captured log is the redacted
    whole of what was appended, cut at its front, and the reader of Nix events keeps
    within its bounds and shows the build that was started last. *)

From stdpp Require Import base gmap list strings.
From Stdlib Require Import Ascii ZArith Lia.
From S2P Require Import Prelude RustStr RustText Json DbText DbTextProofs AssetsProofs BootProofs NarInfo NarInfoProofs ProtectedText ProtectedMaterial Redact RedactProofs BuildSpec BuildLog.

#[local] Open Scope Z_scope.
#[local] Open Scope nest_scope.

(** ** Frames *)

(** The frames of a whole stream: each line by itself, and what follows the last
    line feed unless an error cut it off. *)
Definition frame_of (limit : Z) (line : string) : Frame :=
  if limit <? len line then Oversized else finish_frame line.
Definition tail_frames (limit : Z) (error : option string) (tail : string) : list Frame :=
  if limit <? len tail then [Oversized]
  else if is_empty tail || bool_decide (is_Some error) then [] else [finish_frame tail].
Fixpoint frames_from (limit : Z) (error : option string) (lines : list string) : list Frame :=
  match lines with
  | [] => []
  | [tail] => tail_frames limit error tail
  | line :: lines => frame_of limit line :: frames_from limit error lines
  end.
Definition frames_of (limit : Z) (error : option string) (stream : string) : list Frame :=
  frames_from limit error (split newline stream).

Definition stream_of (r : Reader) : string := foldr String.append "" (rd_chunks r).

Definition one_piece (x : string) : Prop := any_byte (Ascii.eqb newline) x = false.

Lemma one_piece_app x y : one_piece (x +:+ y) ↔ one_piece x ∧ one_piece y.
Proof. unfold one_piece. by rewrite any_byte_app, orb_false_iff. Qed.

Lemma frames_of_line limit error x y :
  one_piece x → frames_of limit error (x +:+ String newline y) = frame_of limit x :: frames_of limit error y.
Proof.
  intros Hx. unfold frames_of. rewrite split_app by done.
  pose proof (split_nonempty newline y). by destruct (split newline y).
Qed.
Lemma frames_of_tail limit error x :
  one_piece x → frames_of limit error x = tail_frames limit error x.
Proof. intros Hx. unfold frames_of. by rewrite split_no_byte. Qed.

Lemma frames_of_empty limit error : 0 ≤ limit → frames_of limit error "" = [].
Proof.
  intros H. rewrite frames_of_tail by done. unfold tail_frames. change (len "") with 0.
  by destruct (Z.ltb_spec limit 0); [lia|].
Qed.

Lemma find_newline s :
  match find_byte (Ascii.eqb newline) s with
  | Some n => ∃ x y, s = x +:+ String newline y ∧ one_piece x ∧ n = String.length x
  | None => one_piece s
  end.
Proof.
  unfold one_piece, any_byte. induction s as [|a s IH]; cbn [find_byte bytes existsb]; [done|].
  destruct (Ascii.eqb_spec newline a) as [<-|Hne]; [by exists "", s|].
  destruct (find_byte _ s) as [n|]; cbn; [|done].
  destruct IH as (x & y & -> & Hx & ->). exists (String a x), y. split_and!; [done| |done].
  cbn [bytes existsb]. rewrite Hx, orb_false_r. by apply Ascii.eqb_neq.
Qed.

Lemma str_to_all x : str_to (String.length x) x = x.
Proof. rewrite <- (str_app_nil_r x) at 2. apply str_to_app. Qed.
Lemma str_from_all x : str_from (String.length x) x = "".
Proof. rewrite <- (str_app_nil_r x) at 2. apply str_from_app. Qed.
Lemma str_from_line x y : str_from (S (String.length x)) (x +:+ String newline y) = y.
Proof. induction x as [|a x IH]; [done|]. rewrite str_app_cons. exact IH. Qed.

(** ** One round of reading *)

Definition reads (r : Reader) : Prop := Forall (λ chunk, chunk ≠ "") (rd_chunks r).

(** After [n] bytes of the first chunk. *)
Lemma consume_spec chunk chunks error n :
  chunk ≠ "" → Forall (λ chunk, chunk ≠ "") chunks → (0 < n ≤ String.length chunk)%nat →
  let r := {| rd_chunks := chunk :: chunks; rd_error := error |} in
  rd_error (consume n r) = error ∧ reads (consume n r) ∧
  stream_of (consume n r) = str_from n chunk +:+ foldr String.append "" chunks ∧
  (left_to_read (consume n r) < left_to_read r)%nat.
Proof.
  intros Hne Hcs Hn. unfold consume, reads, stream_of, left_to_read, is_empty. cbn [rd_chunks rd_error].
  pose proof (length_str_from n chunk). case_bool_decide as He; cbn [foldr fmap list_fmap list_sum].
  - rewrite He. split_and!; [done|done|done|]. destruct chunk; [done|]. cbn. unfold list_sum. lia.
  - split_and!; [done|by constructor|done|]. cbn. unfold list_sum. lia.
Qed.

(** What a reader still has to answer. *)
Definition awaited (limit : Z) (s : Lines) (r : Reader) : list Frame :=
  if ln_discarding s then
    match split_once newline (stream_of r) with
    | Some (_, rest) => frames_of limit (rd_error r) rest
    | None => []
    end
  else frames_of limit (rd_error r) (ln_pending s +:+ stream_of r).
Record lines_ok (limit : Z) (s : Lines) : Prop := {
  lo_line : one_piece (ln_pending s);
  lo_fits : len (ln_pending s) ≤ limit;
  lo_dropped : ln_discarding s = true → ln_pending s = "";
}.
Lemma lines_ok_limit limit s : lines_ok limit s → 0 ≤ limit.
Proof. intros [_ H _]. pose proof (len_nonneg (ln_pending s)). lia. Qed.
Lemma lines_ok_fresh limit discarding :
  0 ≤ limit → lines_ok limit {| ln_pending := ""; ln_discarding := discarding |}.
Proof. by split. Qed.
Definition frames_left (s : Lines) (r : Reader) : nat :=
  left_to_read r + (if is_empty (ln_pending s) then 0 else 1).
Lemma frames_left_fresh discarding s r r' :
  (left_to_read r' < left_to_read r)%nat →
  (frames_left {| ln_pending := ""; ln_discarding := discarding |} r' < frames_left s r)%nat.
Proof. unfold frames_left. intros. change (is_empty (ln_pending _)) with true at 1. cbv iota. lia. Qed.

Lemma split_once_None c s : split_once c s = None → any_byte (Ascii.eqb c) s = false.
Proof.
  unfold any_byte. induction s as [|a s IH]; cbn; [done|].
  destruct (Ascii.eqb_spec a c) as [->|Hne]; [done|]. destruct (split_once c s) as [[? ?]|]; [done|].
  intros _. rewrite IH by done. rewrite orb_false_r. apply Ascii.eqb_neq. congruence.
Qed.
Lemma split_once_skip x y :
  one_piece x → split_once newline (x +:+ y) = prod_map (String.append x) id <$> split_once newline y.
Proof.
  unfold one_piece, any_byte. induction x as [|a x IH]; cbn [bytes existsb].
  - intros _. change ("" +:+ y) with y. by destruct (split_once newline y) as [[? ?]|].
  - intros [Ha Hx]%orb_false_iff. rewrite str_app_cons. cbn [split_once]. rewrite Ascii.eqb_sym in Ha.
    rewrite Ha, IH by done. by destruct (split_once newline y) as [[? ?]|].
Qed.

(** A line that is too long is answered before its end is seen. *)
Lemma frames_of_oversized limit error x y :
  one_piece x → limit < len x →
  frames_of limit error (x +:+ y) =
  Oversized :: match split_once newline y with Some (_, rest) => frames_of limit error rest | None => [] end.
Proof.
  intros Hx Hl. pose proof (len_nonneg y).
  destruct (split_once newline y) as [[a b]|] eqn:E.
  - apply split_once_Some in E as [-> Ha]. rewrite <- str_app_assoc, frames_of_line.
    + unfold frame_of. pose proof (len_nonneg a). rewrite len_app. destruct (Z.ltb_spec limit (len x + len a)); [done|lia].
    + by apply one_piece_app.
  - apply split_once_None in E. rewrite frames_of_tail by by apply one_piece_app.
    unfold tail_frames. rewrite len_app. destruct (Z.ltb_spec limit (len x + len y)); [done|lia].
Qed.

(** An answer of [next_frame], for what was awaited. *)
Definition answers (limit : Z) (s : Lines) (r : Reader)
    (answer : option (result string (option Frame) * Lines * Reader)) : Prop :=
  ∃ res s' r', answer = Some (res, s', r') ∧
  match res with
  | Err e => rd_error r = Some e ∧ awaited limit s r = []
  | Ok None => rd_error r = None ∧ awaited limit s r = []
  | Ok (Some frame) => awaited limit s r = frame :: awaited limit s' r' ∧ lines_ok limit s' ∧
                       reads r' ∧ rd_error r' = rd_error r ∧ (frames_left s' r' < frames_left s r)%nat
  end.

Lemma answers_at_end limit rounds s error :
  lines_ok limit s → let r := {| rd_chunks := []; rd_error := error |} in
  answers limit s r (next_frame limit (S rounds) s r).
Proof.
  intros Hok r. pose proof (lines_ok_limit _ _ Hok) as H0. destruct Hok as [Hl Hf Hd]. cbn [next_frame]. unfold fill_buf. cbn [rd_chunks rd_error r].
  assert (awaited limit s r = if ln_discarding s then [] else tail_frames limit error (ln_pending s)) as Ha.
  { unfold awaited. destruct (ln_discarding s); [done|]. cbn. by rewrite str_app_nil_r, frames_of_tail. }
  assert ((limit <? len (ln_pending s)) = false) as Hlt by (apply Z.ltb_ge; lia).
  unfold tail_frames in Ha. rewrite Hlt in Ha.
  destruct error as [e|].
  - exists (Err e), s, r. split; [done|]. split; [done|]. rewrite Ha.
    destruct (ln_discarding s); [done|]. by rewrite bool_decide_eq_true_2, orb_true_r by by eexists.
  - cbn. rewrite (bool_decide_eq_false_2 (is_Some None)), orb_false_r in Ha by by intros [].
    destruct (is_empty (ln_pending s)) eqn:He; cbn [orb].
    { exists (Ok None), s, r. split_and!; [done..|]. rewrite Ha. by destruct (ln_discarding s). }
    destruct (ln_discarding s) eqn:Ed; cbn.
    { exists (Ok None), s, r. done. }
    eexists _, _, r. split; [done|]. cbn. split_and!; [|by apply lines_ok_fresh|by constructor|done|].
    + rewrite Ha. unfold awaited. cbn. by rewrite frames_of_empty.
    + unfold frames_left. cbn [ln_pending]. rewrite He. change (is_empty "") with true. cbn. lia.
Qed.

(** A round on a chunk: an answer, or a state in which the same is awaited. *)
Lemma answers_step limit rounds s chunk chunks error :
  let r := {| rd_chunks := chunk :: chunks; rd_error := error |} in
  lines_ok limit s → reads r →
  answers limit s r (next_frame limit (S rounds) s r) ∨
  ∃ s' r', next_frame limit (S rounds) s r = next_frame limit rounds s' r' ∧
    lines_ok limit s' ∧ reads r' ∧ rd_error r' = error ∧ awaited limit s' r' = awaited limit s r ∧
    (left_to_read r' < left_to_read r)%nat.
Proof.
  intros r Hok Hr. pose proof (lines_ok_limit _ _ Hok) as H0. destruct Hok as [Hl Hf Hd].
  apply Forall_cons in Hr as [Hne Hcs].
  assert (stream_of r = chunk +:+ foldr String.append "" chunks) as HR by done.
  assert (rd_error r = error) as HE by done. cbn [next_frame]. unfold fill_buf. cbn [rd_chunks r].
  rewrite (is_empty_false chunk) by done.
  pose proof (find_newline chunk) as Hfind.
  destruct (find_byte (Ascii.eqb newline) chunk) as [n|]; cbn [default from_option id].
  - destruct Hfind as (x & y & -> & Hx & ->).
    destruct (consume_spec (x +:+ String newline y) chunks error (S (String.length x))) as (He & Hr & Hs & Hlt); [done..| |].
    { rewrite <- (Nat2Z.id (String.length (_ +:+ _))). fold (len (x +:+ String newline y)). rewrite len_app.
      unfold len. cbn. lia. }
    rewrite str_from_line in Hs. set (r' := consume _ _) in *.
    destruct (ln_discarding s) eqn:Ed.
    { right. eexists _, r'. split; [done|]. split_and!; [rewrite (Hd eq_refl); by apply lines_ok_fresh|done..| |done].
      unfold awaited. rewrite Ed. cbn [ln_discarding ln_pending]. rewrite (Hd eq_refl), Hs, He, HR, HE, str_app_assoc. change (String newline y +:+ ?z) with (String newline (y +:+ z)).
      by rewrite split_once_app. }
    left. assert (awaited limit s r = frame_of limit (ln_pending s +:+ x) ::
      awaited limit {| ln_pending := ""; ln_discarding := false |} r') as Ha.
    { unfold awaited. rewrite Ed. cbn [ln_discarding ln_pending]. rewrite Hs, He, HR, HE, !str_app_assoc.
      change (String newline y +:+ ?z) with (String newline (y +:+ z)). rewrite <- str_app_assoc.
      rewrite frames_of_line by by apply one_piece_app. done. }
    unfold frame_of in Ha. rewrite len_app in Ha. fold (len x). rewrite str_to_app.
    destruct (limit <? _); eexists _, _, r'; (split; [done|]);
      (split_and!; [exact Ha|by apply lines_ok_fresh|done|done|by apply frames_left_fresh]).
  - destruct (consume_spec chunk chunks error (String.length chunk)) as (He & Hr & Hs & Hlt); [done..| |].
    { destruct chunk; [done|]. cbn. lia. }
    rewrite str_from_all in Hs. set (r' := consume _ _) in *. change ("" +:+ ?z) with z in Hs.
    destruct (ln_discarding s) eqn:Ed.
    { right. eexists _, r'. split; [done|]. split_and!; [rewrite (Hd eq_refl); by apply lines_ok_fresh|done..| |done].
      unfold awaited. rewrite Ed. cbn [ln_discarding]. rewrite Hs, He, HR, HE, split_once_skip by done.
      by destruct (split_once _ _) as [[? ?]|]. }
    fold (len chunk). destruct (Z.ltb_spec limit (len (ln_pending s) + len chunk)) as [Hover|Hfits].
    + left. eexists _, _, r'. split; [done|]. split_and!; [|by apply lines_ok_fresh|done|done|by apply frames_left_fresh].
      unfold awaited. rewrite Ed. cbn [ln_discarding ln_pending]. rewrite Hs, He, HR, HE, <- str_app_assoc.
      rewrite frames_of_oversized; [done|by apply one_piece_app|by rewrite len_app].
    + right. eexists _, r'. split; [done|]. rewrite str_to_all. split_and!; [|done..| |done].
      * split; cbn [ln_pending]; [by apply one_piece_app|by rewrite len_app|done].
      * unfold awaited. rewrite Ed. cbn [ln_discarding ln_pending]. by rewrite Hs, He, HR, HE, str_app_assoc.
Qed.

Lemma next_frame_spec limit rounds s r :
  lines_ok limit s → reads r → (left_to_read r < rounds)%nat → answers limit s r (next_frame limit rounds s r).
Proof.
  revert s r. induction rounds as [|rounds IH]; intros s r Hok Hr Hn; [lia|].
  destruct r as [[|chunk chunks] error].
  - by apply answers_at_end.
  - destruct (answers_step limit rounds s chunk chunks error Hok Hr) as [|(s' & r' & -> & Hok' & Hr' & He & Ha & Hlt)]; [done|].
    destruct (IH s' r' Hok' Hr') as (res & s2 & r2 & Heq & H); [lia|]. exists res, s2, r2. split; [done|].
    cbn [rd_error]. rewrite Ha, He in H. destruct res as [[frame|]|e]; [|done..].
    destruct H as (? & ? & ? & ? & H). split_and!; try done. unfold frames_left in *. destruct (is_empty (ln_pending s')), (is_empty (ln_pending s)); lia.
Qed.

Lemma for_frames_spec {A} limit (body : Frame → A → A) rounds s r a :
  lines_ok limit s → reads r → (frames_left s r < rounds)%nat →
  for_frames limit body rounds s r a =
  Some (match rd_error r with Some e => Err e | None => Ok tt end,
        foldl (λ a frame, body frame a) a (awaited limit s r)).
Proof.
  revert s r a. induction rounds as [|rounds IH]; intros s r a Hok Hr Hn; [lia|]. cbn [for_frames].
  destruct (next_frame_spec limit (S (left_to_read r)) s r Hok Hr) as (res & s' & r' & -> & H); [lia|].
  destruct res as [[frame|]|e].
  - destruct H as (Ha & Hok' & Hr' & He & Hlt). rewrite IH by (done || lia). by rewrite He, Ha.
  - destruct H as [-> ->]. done.
  - destruct H as [-> ->]. done.
Qed.

Lemma for_frames_of {A} limit (body : Frame → A → A) r a :
  0 ≤ limit → reads r →
  for_frames limit body (S (left_to_read r)) new_lines r a =
  Some (match rd_error r with Some e => Err e | None => Ok tt end,
        foldl (λ a frame, body frame a) a (frames_of limit (rd_error r) (stream_of r))).
Proof.
  intros Hl Hr. rewrite for_frames_spec; [done|by apply lines_ok_fresh|done|].
  unfold frames_left. change (is_empty (ln_pending new_lines)) with true. cbv iota. lia.
Qed.

(** ** The captured log *)

(** A text that begins with a character. *)
Definition starts_text (s : string) : Prop :=
  match s with String a _ => is_continuation a = false | EmptyString => True end.

Lemma starts_text_app x y : starts_text x → (x = "" → starts_text y) → starts_text (x +:+ y).
Proof. destruct x as [|a x]; intros Hx Hy; [by apply Hy|done]. Qed.

Lemma utf8_starts_text s : is_utf8 s = true → starts_text s.
Proof.
  unfold is_utf8, starts_text. destruct s as [|a s]; [done|]. intros H%bool_decide_eq_true.
  destruct (is_continuation a) eqn:Ea; [exfalso|done]. unfold is_continuation, in_range in Ea. bool_prop.
  cbn [bytes utf8_lossy] in H.
  assert ((byte a <? 128) = false) as E1 by lia. unfold byte_range, in_range in H. rewrite E1 in H.
  assert ((194 <=? byte a) = false) as E2 by lia. assert ((224 <=? byte a) = false) as E3 by lia.
  assert ((240 <=? byte a) = false) as E4 by lia. rewrite E2, E3, E4 in H. cbn in H. by simplify_eq.
Qed.

(** *** Cutting *)

Lemma next_boundary_shift rest start : next_boundary rest start = (start + next_boundary rest 0)%nat.
Proof.
  revert start. induction rest as [|a rest IH]; intros start; cbn; [lia|].
  destruct (is_continuation a); [|lia]. rewrite (IH (S start)), (IH 1%nat). lia.
Qed.

(** What is left of a text at the first character within its last [keep] bytes. *)
Fixpoint from_boundary (s : string) : string :=
  match s with
  | String a rest => if is_continuation a then from_boundary rest else s
  | EmptyString => ""
  end.
Definition tail_of (s : string) (keep : nat) : string :=
  from_boundary (str_from (String.length s - keep) s).

Definition continuations (s : string) : Prop := all_bytes is_continuation s = true.

Lemma from_boundary_spec s :
  ∃ c, s = c +:+ from_boundary s ∧ continuations c ∧ starts_text (from_boundary s).
Proof.
  unfold continuations, all_bytes. induction s as [|a s (c & Hs & Hc & Ht)]; [by exists ""|]. cbn [from_boundary].
  destruct (is_continuation a) eqn:Ea; [|by exists ""]. exists (String a c). split_and!; [|cbn; by rewrite Ea|done].
  rewrite str_app_cons. by f_equal.
Qed.
Lemma from_boundary_app c t : continuations c → starts_text t → from_boundary (c +:+ t) = t.
Proof.
  unfold continuations, all_bytes. induction c as [|a c IH]; cbn [bytes forallb].
  - intros _ Ht. change ("" +:+ t) with t. destruct t as [|b t]; [done|]. cbn in *. by rewrite Ht.
  - intros [Ha Hc]%andb_true_iff Ht. rewrite str_app_cons. cbn [from_boundary]. rewrite Ha. by apply IH.
Qed.

Lemma str_from_suffix x y keep :
  (keep ≤ String.length y)%nat →
  str_from (String.length (x +:+ y) - keep) (x +:+ y) = str_from (String.length y - keep) y.
Proof.
  intros H. rewrite length_append, <- Nat.add_sub_assoc by done. apply str_from_add.
Qed.
Lemma continuations_from n c : continuations c → continuations (str_from n c).
Proof.
  unfold continuations, all_bytes. revert n. induction c as [|a c IH]; intros [|n]; cbn; try done.
  intros [_ H]%andb_true_iff. by apply IH.
Qed.
Lemma str_from_split n x y :
  (n ≤ String.length x)%nat → str_from n (x +:+ y) = str_from n x +:+ y.
Proof.
  revert n. induction x as [|a x IH]; intros [|n] H; cbn in H; try done; [lia|].
  rewrite str_app_cons. cbn. apply IH. lia.
Qed.

(** A text that was cut, and then more: cut or not, it is the end of the whole. *)
Lemma tail_of_more x y keep :
  (keep < String.length x)%nat → starts_text y →
  (String.length (tail_of x keep) + String.length y ≤ keep)%nat →
  tail_of (x +:+ y) keep = tail_of x keep +:+ y.
Proof.
  intros Hk Hy Hfit. unfold tail_of in *.
  destruct (from_boundary_spec (str_from (String.length x - keep) x)) as (c & Hx & Hc & Ht).
  set (t := from_boundary _) in *. set (h := str_to (String.length x - keep) x).
  assert (x = h +:+ (c +:+ t)) as Ex by (rewrite <- Hx; symmetry; apply str_to_from).
  assert (String.length (c +:+ t) = keep) as Hl by (rewrite <- Hx, length_str_from; lia).
  rewrite Ex, str_app_assoc, str_from_suffix; rewrite length_append in Hl.
  - rewrite !length_append, str_app_assoc.
    rewrite str_from_split by lia. apply from_boundary_app; [by apply continuations_from|].
    apply starts_text_app; [done|]. by intros ->.
  - rewrite !length_append. lia.
Qed.
Lemma tail_of_again p x y keep :
  (keep < String.length x)%nat → (keep ≤ String.length (tail_of x keep) + String.length y)%nat →
  tail_of (p +:+ (tail_of x keep +:+ y)) keep = tail_of (x +:+ y) keep.
Proof.
  intros Hk Hfit.
  assert (∃ q, x = q +:+ tail_of x keep) as [q Ex].
  { unfold tail_of. destruct (from_boundary_spec (str_from (String.length x - keep) x)) as (c & Hx & _ & _).
    exists (str_to (String.length x - keep) x +:+ c). rewrite str_app_assoc, <- Hx. symmetry. apply str_to_from. }
  set (t := tail_of x keep) in *. clearbody t. subst x. unfold tail_of.
  rewrite (str_app_assoc q), (str_from_suffix p), (str_from_suffix q) by (rewrite length_append; lia). done.
Qed.

Lemma str_from_plus n m s : str_from (n + m) s = str_from m (str_from n s).
Proof.
  revert s. induction n as [|n IH]; intros s; [done|]. destruct s as [|a s]; cbn; [by destruct m|]. apply IH.
Qed.
Lemma next_boundary_from n s :
  str_from (next_boundary (str_from n s) n) s = from_boundary (str_from n s).
Proof.
  rewrite next_boundary_shift, str_from_plus. generalize (str_from n s). clear.
  induction s as [|a s IH]; cbn [next_boundary from_boundary]; [done|].
  destruct (is_continuation a); [|done]. by rewrite next_boundary_shift.
Qed.

Definition kept (max_bytes : Z) : nat := Z.to_nat (sat_sub max_bytes (len TRUNCATED)).

Lemma bound_cut text max_bytes :
  0 ≤ max_bytes → max_bytes < len text →
  bound_captured_log text max_bytes = TRUNCATED +:+ tail_of text (kept max_bytes) ∧
  (kept max_bytes < String.length text)%nat.
Proof.
  intros H0 Hlt. unfold bound_captured_log. destruct (Z.leb_spec (len text) max_bytes); [lia|].
  assert (0 ≤ sat_sub max_bytes (len TRUNCATED) < len text) as Hk.
  { unfold sat_sub. change (len TRUNCATED) with 38. lia. }
  unfold kept, len in *. split; [|lia]. f_equal. unfold utf8_tail_start, len.
  destruct (Z.leb_spec (Z.of_nat (String.length text)) (sat_sub max_bytes (Z.of_nat (String.length TRUNCATED)))); [lia|].
  rewrite Z2Nat.inj_sub, Nat2Z.id by lia. unfold tail_of.
  apply next_boundary_from.
Qed.

(** More text behind what was bounded, bounded again, is the whole bounded once. *)
Lemma bound_more x y max_bytes :
  0 ≤ max_bytes → starts_text y →
  bound_captured_log (bound_captured_log x max_bytes +:+ y) max_bytes = bound_captured_log (x +:+ y) max_bytes.
Proof.
  intros H0 Hy. pose proof (len_nonneg y). destruct (Z.le_gt_cases (len x) max_bytes) as [Hle|Hgt].
  { f_equal. f_equal. unfold bound_captured_log. by rewrite (proj2 (Z.leb_le _ _) Hle). }
  destruct (bound_cut x max_bytes) as [-> Hk]; [done..|].
  destruct (bound_cut (x +:+ y) max_bytes) as [-> _]; [done|rewrite len_app; lia|].
  set (t := tail_of x (kept max_bytes)).
  assert (Z.of_nat (kept max_bytes) = Z.max (max_bytes - 38) 0) as Hkept.
  { unfold kept, sat_sub. change (len TRUNCATED) with 38. lia. }
  rewrite str_app_assoc. set (z := TRUNCATED +:+ (t +:+ y)).
  assert (len z = 38 + (Z.of_nat (String.length t) + Z.of_nat (String.length y))) as Hz.
  { unfold z. rewrite !len_app. by change (len TRUNCATED) with 38. }
  destruct (Z.le_gt_cases (len z) max_bytes) as [Hfit|Hcut].
  - unfold bound_captured_log. rewrite (proj2 (Z.leb_le _ _) Hfit). unfold z. f_equal.
    symmetry. apply tail_of_more; [done..|]. fold t. lia.
  - destruct (bound_cut z max_bytes) as [-> _]; [done..|]. f_equal. apply tail_of_again; [done|]. fold t. lia.
Qed.

(** *** Redaction begins where its text begins *)

Lemma starts_text_to n s z : starts_text s → starts_text z → starts_text (str_to n s +:+ z).
Proof. intros Hs Hz. apply starts_text_app; [|done]. by destruct n, s. Qed.

Lemma starts_redact_loop next fuel s : starts_text s → starts_text (redact_loop next fuel s).
Proof.
  intros Hs. destruct fuel as [|fuel]; [done|]. cbn. destruct (next s) as [[i j]|]; [|done].
  by apply starts_text_to.
Qed.
Lemma starts_bearer_loop fuel s : starts_text s → starts_text (bearer_loop fuel s).
Proof.
  intros Hs. destruct fuel as [|fuel]; [done|]. cbn -[String.length]. destruct (find _ _) as [i|]; [|done].
  case_bool_decide; [by rewrite str_to_from|]. by apply starts_text_to.
Qed.
Lemma find_gt0_nonempty p s n i : find p s = Some i → (0 < n)%nat → p ≠ "" → str_to (i + n) s ≠ "".
Proof.
  intros Hf Hn Hp. assert (s ≠ "") as Hs by by eapply find_nonempty. destruct s; [done|]. by destruct i, n; try lia.
Qed.
Lemma starts_userinfo_loop fuel s : starts_text s → starts_text (userinfo_loop fuel s).
Proof.
  intros Hs. destruct fuel as [|fuel]; [done|]. cbn [userinfo_loop]. destruct (find "://" s) as [i|] eqn:E; [|done].
  apply starts_text_app; [by destruct (i + 3)%nat, s|]. intros He. exfalso. revert He.
  eapply find_gt0_nonempty; [exact E|lia|done].
Qed.
Lemma starts_redact s : starts_text s → starts_text (redact_sensitive_key_values s).
Proof.
  intros. unfold redact_sensitive_key_values, redact_modular_password_hashes, redact_url_userinfo,
    redact_bearer_values, redact_quoted_key_values, redact_assignments.
  by apply starts_redact_loop, starts_userinfo_loop, starts_bearer_loop, starts_redact_loop, starts_redact_loop.
Qed.

Lemma chars_start s : starts_text s → Forall starts_char (chars s).
Proof.
  intros Hs. unfold chars. destruct (chars_of_well_grouped (bytes s)) as [Hg Ht].
  destruct s as [|a s]; [constructor|]. cbn in Hs. pose proof (concat_chars_of (bytes (String a s))) as Hc.
  destruct (chars_of _) as [|g gs]; [constructor|]. constructor; [|done].
  inversion_clear Hg as [|? ? (b & cs & -> & _) _]. cbn in Hc. injection Hc as -> _. by exists a, cs.
Qed.
Lemma words_start cs word :
  Forall starts_char cs → Forall starts_char word →
  Forall (λ w, starts_text (of_chars w)) (words cs word).
Proof.
  assert (∀ w, Forall starts_char w → starts_text (of_chars w)) as Hone.
  { intros w Hw. destruct Hw as [|g w (a & cs' & -> & Ha)]; [done|]. exact Ha. }
  revert word. induction cs as [|c cs IH]; intros word Hcs Hw; cbn.
  - destruct word; [constructor|]. constructor; [|constructor]. apply Hone. by apply Forall_rev.
  - apply Forall_cons in Hcs as [Hc Hcs]. destruct (is_whitespace c); [|by apply IH; [|constructor]].
    destruct word; [by apply IH|]. constructor; [|by apply IH]. apply Hone. by apply Forall_rev.
Qed.
Lemma split_whitespace_start s : starts_text s → Forall starts_text (split_whitespace s).
Proof.
  intros Hs. unfold split_whitespace. apply Forall_fmap, words_start; [by apply chars_start|constructor].
Qed.

Lemma redact_tokens_start n tokens :
  Forall starts_text tokens → Forall starts_text (redact_tokens n tokens).1.
Proof.
  intros H. revert n. induction H as [|token tokens Ht _ IH]; intros n; [constructor|]. cbn.
  destruct (redact_token n token) as [shown m] eqn:E. specialize (IH m).
  destruct (redact_tokens m tokens) as [rest k]. constructor; [|done].
  unfold redact_token in E. destruct n; [|by simplify_eq].
  destruct (_ || _); [by simplify_eq|]. destruct (contains_sensitive_key_value token); simplify_eq; [|done].
  by apply starts_redact.
Qed.
Lemma join_start tokens : Forall starts_text tokens → starts_text (join " " tokens).
Proof.
  intros H. destruct H as [|t [|t' ts] Ht _]; [done|done|]. rewrite join_cons_nonempty by done.
  by apply starts_text_app.
Qed.
Lemma redact_line_start line n : starts_text line → starts_text (redact_log_line line n).1.
Proof.
  intros H. unfold redact_log_line. destruct (redact_tokens _ _) as [tokens m] eqn:E. cbn. apply join_start.
  change tokens with (tokens, m).1. rewrite <- E. by apply redact_tokens_start, split_whitespace_start, starts_redact.
Qed.

(** *** Line by line *)

Lemma redact_lines_app xs ys n :
  redact_lines (xs ++ ys) n =
  let '(a, m) := redact_lines xs n in let '(b, k) := redact_lines ys m in (a ++ b, k).
Proof.
  revert n. induction xs as [|x xs IH]; intros n; cbn.
  - by destruct (redact_lines ys n).
  - destruct (redact_log_line x n) as [line m]. rewrite IH. destruct (redact_lines xs m) as [a k].
    by destruct (redact_lines ys k).
Qed.
Lemma redact_empty_line n : redact_log_line "" n = ("", n).
Proof. done. Qed.
Lemma join_lines_app xs ys : ys ≠ [] → join nl (xs ++ ys) = join nl (xs ++ [""]) +:+ join nl ys.
Proof.
  intros Hy. induction xs as [|x xs IH]; [done|]. cbn [app].
  rewrite !join_cons_nonempty by (by destruct xs || by destruct xs, ys). rewrite IH. by rewrite !str_app_assoc.
Qed.

(** Text that ends with a line feed can be redacted before the rest. *)
Lemma redact_text_app x y n :
  redact_log_text (x +:+ nl +:+ y) n =
  let '(a, m) := redact_log_text (x +:+ nl) n in let '(b, k) := redact_log_text y m in (a +:+ b, k).
Proof.
  unfold redact_log_text. change (nl +:+ y) with (String newline y). change nl with (String newline "") at 2.
  rewrite !split_join_bytes, !redact_lines_app. cbn [split redact_lines].
  destruct (redact_lines (split newline x) n) as [a m] eqn:Ea. rewrite redact_empty_line.
  destruct (redact_lines (split newline y) m) as [b k] eqn:Eb. rewrite join_lines_app; [done|].
  intros ->. pose proof (split_nonempty newline y). destruct (split newline y) as [|z zs]; [done|]. cbn in Eb.
  destruct (redact_log_line z m), (redact_lines zs n0). done.
Qed.
Lemma redact_text_start x n : starts_text x → starts_text (redact_log_text (x +:+ nl) n).1.
Proof.
  intros Hx. unfold redact_log_text. change nl with (String newline "") at 1. rewrite split_join_bytes.
  assert (∃ p ps, split newline x = p :: ps ∧ starts_text p) as (p & ps & -> & Hp).
  { destruct (split newline x) as [|p ps] eqn:E; [by apply split_nonempty in E|]. exists p, ps. split; [done|].
    destruct x as [|a x]; [by simplify_eq/=|]. cbn in E. destruct (Ascii.eqb a newline); [by simplify_eq|].
    destruct (split newline x); by simplify_eq. }
  cbn [app redact_lines]. pose proof (redact_line_start p n Hp) as Hl. destruct (redact_log_line p n) as [line m].
  destruct (redact_lines (ps ++ _) m) as [rest k] eqn:E. cbn [fst].
  destruct rest as [|r rest]; [done|]. rewrite join_cons_nonempty by done. by apply starts_text_app.
Qed.

(** The text of what was appended. *)
Definition appended (texts : list string) : string := foldr (λ t rest, t +:+ nl +:+ rest) "" texts.

Lemma rfind_last t : rfind newline (t +:+ nl) = Some (String.length t).
Proof. induction t as [|a t IH]; [done|]. rewrite str_app_cons. cbn. by rewrite IH. Qed.

Lemma append_line max_bytes log t :
  sl_pending log = "" →
  append max_bytes log (t +:+ nl) =
  let '(redacted, following) := redact_log_text (t +:+ nl) (sl_redact_following log) in
  {| sl_text := bound_captured_log (sl_text log +:+ redacted) max_bytes; sl_pending := "";
     sl_redact_following := following |}.
Proof.
  intros Hp. unfold append. rewrite Hp. change ("" +:+ ?s) with s. rewrite rfind_last.
  assert (S (String.length t) = String.length (t +:+ nl)) as -> by (rewrite length_append; cbn; lia).
  rewrite str_to_all, str_from_all. by destruct (redact_log_text _ _).
Qed.

Lemma append_lines max_bytes texts log whole :
  0 ≤ max_bytes → Forall starts_text texts →
  sl_pending log = "" → sl_text log = bound_captured_log whole max_bytes →
  foldl (append max_bytes) log ((λ t, t +:+ nl) <$> texts) =
  let '(redacted, following) := redact_log_text (appended texts) (sl_redact_following log) in
  {| sl_text := bound_captured_log (whole +:+ redacted) max_bytes; sl_pending := "";
     sl_redact_following := following |}.
Proof.
  intros H0 Hts. revert log whole. induction Hts as [|t texts Ht Hts IH]; intros log whole Hp Htext.
  - cbn. rewrite str_app_nil_r. destruct log; cbn in *. by subst.
  - change (appended (t :: texts)) with (t +:+ nl +:+ appended texts).
    cbn [fmap list_fmap foldl]. rewrite append_line by done. rewrite redact_text_app.
    pose proof (redact_text_start t (sl_redact_following log) Ht) as Hstart.
    destruct (redact_log_text (t +:+ nl) _) as [r n].
    rewrite (IH _ (whole +:+ r)); cbn [sl_pending sl_text sl_redact_following]; [|done|].
    + destruct (redact_log_text (appended texts) n). by rewrite str_app_assoc.
    + rewrite Htext. by apply bound_more.
Qed.

(** *** No password hash *)

Lemma contains_suffix p x y : contains p (x +:+ y) = false → contains p y = false.
Proof.
  induction x as [|a x IH]; [done|]. rewrite str_app_cons. cbn [contains].
  intros [_ H]%orb_false_iff. by apply IH.
Qed.
Lemma starts_with_prefix p x y : starts_with p x = true → starts_with p (x +:+ y) = true.
Proof.
  rewrite !starts_with_true. intros [t ->]. exists (t +:+ y). by rewrite str_app_assoc.
Qed.
Lemma contains_prefix p x y : contains p (x +:+ y) = false → contains p x = false.
Proof.
  induction x as [|a x IH].
  - change ("" +:+ y) with y. by destruct p, y.
  - rewrite str_app_cons. cbn [contains]. intros [Hs H]%orb_false_iff. apply orb_false_iff. split; [|by apply IH].
    apply not_true_iff_false. intros Ht. apply not_true_iff_false in Hs. apply Hs.
    rewrite <- str_app_cons. by apply starts_with_prefix.
Qed.
Lemma no_hash_part x y z : no_hash (x +:+ y +:+ z) → no_hash y.
Proof.
  intros H p Hp. specialize (H p Hp). rewrite !lower_app in H.
  eapply contains_prefix, contains_suffix, H.
Qed.

Lemma words_part cs word w :
  w ∈ words cs word → ∃ a b, concat (rev word) ++ concat cs = a ++ concat w ++ b.
Proof.
  revert word. induction cs as [|c cs IH]; intros word; cbn.
  - destruct word as [|g word]; [by intros ?%not_elem_of_nil|]. intros ->%list_elem_of_singleton. by exists [], [].
  - destruct (is_whitespace c).
    + assert (w ∈ words cs [] → ∃ a b, concat (rev word) ++ c ++ concat cs = a ++ concat w ++ b) as Hrest.
      { intros (a & b & E)%IH. exists (concat (rev word) ++ c ++ a), b. cbn in E. rewrite E. by rewrite <- !app_assoc. }
      destruct word as [|g word]; [done|]. intros [->|H]%elem_of_cons; [|by apply Hrest]. by exists [], (c ++ concat cs).
    + intros (a & b & E)%IH. exists a, b. rewrite <- E. cbn. rewrite concat_app. cbn. by rewrite app_nil_r, <- app_assoc.
Qed.
Lemma no_hash_words s : no_hash s → Forall no_hash (split_whitespace s).
Proof.
  intros Hs. unfold split_whitespace. apply Forall_fmap, Forall_forall. intros w Hw.
  apply words_part in Hw as (a & b & E). cbn in E. unfold chars in E. rewrite concat_chars_of in E.
  apply (no_hash_part (of_bytes a) (of_chars w) (of_bytes b)). unfold of_chars.
  rewrite <- !of_bytes_app, <- E. by rewrite of_bytes_bytes.
Qed.

Lemma no_hash_REDACTION : no_hash REDACTION.
Proof. apply contains_hash_false. by vm_compute. Qed.
Lemma no_hash_redact s : no_hash (redact_sensitive_key_values s).
Proof. apply contains_hash_false, redacted_text_has_no_hash. Qed.

Lemma redact_tokens_no_hash n tokens : Forall no_hash tokens → Forall no_hash (redact_tokens n tokens).1.
Proof.
  intros H. revert n. induction H as [|token tokens Ht _ IH]; intros n; [constructor|]. cbn.
  destruct (redact_token n token) as [shown m] eqn:E. specialize (IH m).
  destruct (redact_tokens m tokens) as [rest k]. constructor; [|done].
  pose proof no_hash_REDACTION. unfold redact_token in E. destruct n; [|by simplify_eq].
  destruct (_ || _); [by simplify_eq|]. destruct (contains_sensitive_key_value token); simplify_eq; [|done].
  apply no_hash_redact.
Qed.

(** Joining at a byte that no prefix of a hash holds. *)
Lemma no_hash_join c texts :
  (∀ p, p ∈ MODULAR_PASSWORD_HASH_PREFIXES → c ∉ bytes p) → to_lower c = c →
  Forall no_hash texts → no_hash (join (String c "") texts).
Proof.
  intros Hc Hl H. induction H as [|t texts Ht Hts IH].
  - apply contains_hash_false. by vm_compute.
  - destruct texts as [|u us]; [done|]. rewrite join_cons_nonempty by done. intros p Hp.
    destruct (prefix_facts p Hp) as (Hne & _). rewrite !lower_app.
    assert (to_ascii_lowercase (String c "") = String c "") as -> by (unfold to_ascii_lowercase; cbn; by rewrite Hl).
    change (String c "" +:+ ?z) with (String c z). rewrite contains_app_sep by auto.
    by rewrite (Ht p Hp), (IH p Hp).
Qed.
Lemma not_in_prefixes c :
  forallb (λ p, negb (existsb (Ascii.eqb c) (bytes p))) MODULAR_PASSWORD_HASH_PREFIXES = true →
  ∀ p, p ∈ MODULAR_PASSWORD_HASH_PREFIXES → c ∉ bytes p.
Proof.
  rewrite forallb_forall. intros H p Hp Hin. apply list_elem_of_In in Hp. apply H, negb_true_iff in Hp.
  apply not_true_iff_false in Hp. apply Hp. apply existsb_exists. exists c. split; [by apply list_elem_of_In|apply Ascii.eqb_refl].
Qed.

Lemma redact_lines_no_hash lines n : Forall no_hash (redact_lines lines n).1.
Proof.
  revert n. induction lines as [|line lines IH]; intros n; [constructor|]. cbn.
  destruct (redact_log_line line n) as [l m] eqn:E. specialize (IH m).
  destruct (redact_lines lines m) as [rest k]. constructor; [|done].
  unfold redact_log_line in E. destruct (redact_tokens _ _) as [tokens j] eqn:Et. simplify_eq.
  apply no_hash_join; [by apply not_in_prefixes|done|]. change tokens with (tokens, m).1. rewrite <- Et.
  apply redact_tokens_no_hash, no_hash_words, no_hash_redact.
Qed.
Lemma redact_text_no_hash text n : no_hash (redact_log_text text n).1.
Proof.
  unfold redact_log_text. pose proof (redact_lines_no_hash (split newline text) n) as H.
  destruct (redact_lines _ _) as [lines m]. apply no_hash_join; [by apply not_in_prefixes|done..].
Qed.
Lemma bound_no_hash text max_bytes : no_hash text → no_hash (bound_captured_log text max_bytes).
Proof.
  intros H. unfold bound_captured_log. destruct (_ <=? _); [done|]. set (n := utf8_tail_start _ _).
  change (TRUNCATED +:+ ?z) with (join (String newline "") ["[... earlier build log truncated ...]"; z]).
  apply no_hash_join; [by apply not_in_prefixes|done|]. repeat constructor.
  - apply contains_hash_false. by vm_compute.
  - apply (no_hash_part (str_to n text) _ ""). by rewrite str_app_nil_r, str_to_from.
Qed.

(** What is shown of a text that has to fit: all of it, or a mark and the longest end
    of it that fits behind the mark and begins with a character. *)
Definition fitting_end (max_bytes : Z) (whole text : string) : Prop :=
  if len whole <=? max_bytes then text = whole else
  ∃ lost tail, whole = lost +:+ tail ∧ text = TRUNCATED +:+ tail ∧
    starts_text tail ∧ len tail ≤ sat_sub max_bytes (len TRUNCATED) ∧
    ∀ lost' tail', whole = lost' +:+ tail' → starts_text tail' →
      len tail' ≤ sat_sub max_bytes (len TRUNCATED) → len tail' ≤ len tail.

Lemma continuations_head c t : continuations c → c ≠ "" → ¬ starts_text (c +:+ t).
Proof.
  unfold continuations, all_bytes. destruct c as [|a c]; [done|]. cbn. intros [Ha _]%andb_true_iff _ Hs.
  rewrite str_app_cons in Hs. cbn in Hs. congruence.
Qed.

Lemma bound_fitting_end whole max_bytes :
  0 ≤ max_bytes → fitting_end max_bytes whole (bound_captured_log whole max_bytes).
Proof.
  intros H0. unfold fitting_end. destruct (Z.leb_spec (len whole) max_bytes) as [Hle|Hgt].
  { unfold bound_captured_log. by rewrite (proj2 (Z.leb_le _ _) Hle). }
  destruct (bound_cut whole max_bytes) as [-> Hk]; [done..|]. unfold tail_of.
  set (keep := kept max_bytes) in *.
  assert (sat_sub max_bytes (len TRUNCATED) = Z.of_nat keep) as ->.
  { unfold keep, kept, sat_sub. lia. }
  destruct (from_boundary_spec (str_from (String.length whole - keep) whole)) as (c & Hx & Hc & Ht).
  set (t := from_boundary _) in *. set (h := str_to (String.length whole - keep) whole).
  assert (whole = h +:+ (c +:+ t)) as Ex by (rewrite <- Hx; symmetry; apply str_to_from).
  assert (String.length (c +:+ t) = keep) as Hl by (rewrite <- Hx, length_str_from; lia).
  rewrite length_append in Hl. exists (h +:+ c), t. split_and!; [by rewrite str_app_assoc|done|done|unfold len; lia|].
  intros lost' tail' Ew Hs Hfit. apply Z.nlt_ge. intros Hlt. unfold len in *.
  assert (tail' = str_from (String.length c + String.length t - String.length tail') (c +:+ t)) as Et.
  { rewrite <- length_append. rewrite <- (str_from_suffix h) by (rewrite length_append; lia).
    rewrite <- Ex. rewrite Ew at 1 2. rewrite str_from_suffix by lia. by rewrite Nat.sub_diag. }
  rewrite Et, str_from_split in Hs by lia. revert Hs. apply continuations_head; [by apply continuations_from|].
  intros He. assert (String.length (str_from (String.length c + String.length t - String.length tail') c) = 0%nat) as Hz by by rewrite He.
  rewrite length_str_from in Hz. lia.
Qed.

(** C18. What is kept of a build's output.  Whatever lines the readers of its two streams
    append, in whatever order, the log that is stored is the redaction of all of them in
    that order, so that what one line withholds from the next is withheld across every
    append; when it does not fit it is cut at its front, to the longest end that fits
    and begins with a character.  It holds no password hash. *)
Theorem captured_log_is_the_redacted_whole max_bytes texts :
  0 ≤ max_bytes → Forall (λ t, is_utf8 t = true) texts →
  let snapshot := log_snapshot max_bytes (foldl (append max_bytes) new_log ((λ t, t +:+ nl) <$> texts)) in
  fitting_end max_bytes (redact_log_text (appended texts) 0).1 snapshot ∧
  contains_modular_password_hash snapshot = false.
Proof.
  intros H0 Hts snapshot.
  assert (snapshot = bound_captured_log (redact_log_text (appended texts) 0).1 max_bytes) as ->.
  { unfold snapshot. rewrite (append_lines _ _ _ ""); [|done| |done|].
    - cbn [sl_redact_following new_log]. destruct (redact_log_text (appended texts) 0) as [r n].
      unfold log_snapshot. cbn [sl_text sl_pending sl_redact_following fst].
      change ("" +:+ r) with r. change ((redact_log_text "" n).1) with "". rewrite bound_more by done.
      by rewrite str_app_nil_r.
    - eapply Forall_impl; [done|]. apply utf8_starts_text.
    - unfold bound_captured_log. change (len "") with 0. by rewrite (proj2 (Z.leb_le _ _) H0). }
  split; [by apply bound_fitting_end|]. apply contains_hash_false, bound_no_hash, redact_text_no_hash.
Qed.

(** ** Events of Nix *)

Definition is_u64 (z : Z) : Prop := 0 ≤ z ≤ u64_max.

(** The reader of events, as it should be at any time: the order of builds lists
    exactly the builds that are tracked. *)
Record parser_ok (p : InternalJsonParser) : Prop := {
  po_bounded : (size (pr_activities p) ≤ MAX_TRACKED_ACTIVITIES)%nat;
  po_order : NoDup (pr_build_start_order p);
  po_builds : ∀ id, id ∈ pr_build_start_order p ↔
                ∃ a, pr_activities p !! id = Some a ∧ av_activity_type a = ACT_BUILD;
  po_activities : ∀ id a, pr_activities p !! id = Some a →
                    av_activity_type a ∈ tracked_types ∧
                    (String.length (av_build_name a) ≤ MAX_ACTIVITY_NAME_BYTES)%nat;
  po_counts : Forall is_u64 [pr_observed_builds_done p; pr_observed_fetches_done p;
                pr_reported_builds_done p; pr_reported_builds_expected p;
                pr_reported_fetches_done p; pr_reported_fetches_expected p];
}.

Lemma elem_of_without_id id order x : x ∈ without_id id order ↔ x ∈ order ∧ x ≠ id.
Proof.
  unfold without_id. rewrite list_elem_of_In, filter_In, <- list_elem_of_In, negb_true_iff, Z.eqb_neq. done.
Qed.
Lemma NoDup_without_id id order : NoDup order → NoDup (without_id id order).
Proof. unfold without_id. rewrite !NoDup_ListNoDup. apply List.NoDup_filter. Qed.

Lemma str_to_length n s : (String.length (str_to n s) ≤ n)%nat.
Proof. revert s. induction n as [|n IH]; intros [|a s]; cbn; try lia. specialize (IH s). lia. Qed.
Lemma floor_boundary_le n s : (floor_boundary n s ≤ n)%nat.
Proof. induction n as [|n IH]; cbn; destruct (boundary _ s); lia. Qed.
Lemma build_name_short fields : (String.length (build_name_of fields) ≤ MAX_ACTIVITY_NAME_BYTES)%nat.
Proof.
  unfold build_name_of. destruct (v ← head fields; as_str v) as [d|]; cbn; [|unfold MAX_ACTIVITY_NAME_BYTES; lia].
  unfold short_name. set (name := derivation_display_name d).
  pose proof (str_to_length (floor_boundary (Nat.min (String.length name) MAX_ACTIVITY_NAME_BYTES) name) name).
  pose proof (floor_boundary_le (Nat.min (String.length name) MAX_ACTIVITY_NAME_BYTES) name). lia.
Qed.

Lemma handle_start_ok event p : parser_ok p → parser_ok (handle_start event p).2.
Proof.
  intros [Hb Ho Hbs Has Hc]. unfold handle_start. destruct (_ || _) eqn:Eskip; [done|].
  apply orb_false_iff in Eskip as [Ht%negb_false_iff%bool_decide_eq_true Hroom].
  set (id := ev_id event) in *. set (order := if bool_decide _ then _ else _).
  assert (NoDup order ∧ ∀ x, x ∈ order ↔ x ∈ pr_build_start_order p ∧ x ≠ id) as [Hord Hin].
  { unfold order. case_bool_decide as Hknown.
    - split; [by apply NoDup_without_id|apply elem_of_without_id].
    - split; [done|]. intros x. split; [|by intros []]. intros Hx. split; [done|]. intros ->.
      apply Hknown. apply Hbs in Hx as (a & Ha & _). by eexists. }
  split; cbn.
  - destruct (pr_activities p !! id) as [a|] eqn:E.
    + by rewrite map_size_insert_Some by by eexists.
    + rewrite map_size_insert_None by done. rewrite bool_decide_eq_false_2 in Hroom by by intros [].
      rewrite andb_true_r in Hroom. apply Nat.leb_gt in Hroom. lia.
  - destruct (_ =? _); [|done]. apply NoDup_app. split_and!; [done| |apply NoDup_singleton].
    intros x Hx ->%list_elem_of_singleton. by apply Hin in Hx as [].
  - intros x. destruct (decide (x = id)) as [->|Hne].
    + rewrite lookup_insert_eq. destruct (Z.eqb_spec (ev_activity_type event) ACT_BUILD) as [He|He].
      * split; [|intros _; apply elem_of_app; right; by left]. intros _. eexists. split; [done|]. exact He.
      * split; [by intros [_ []]%Hin|]. intros (a & [= <-] & ?). done.
    + rewrite lookup_insert_ne by done. rewrite <- Hbs. destruct (_ =? _).
      * rewrite elem_of_app, list_elem_of_singleton, Hin. naive_solver.
      * rewrite Hin. naive_solver.
  - intros x a. destruct (decide (x = id)) as [->|Hne].
    + rewrite lookup_insert_eq. intros [= <-]. cbn. split; [done|]. destruct (_ =? _); [apply build_name_short|].
      cbn. lia.
    + rewrite lookup_insert_ne by done. apply Has.
  - exact Hc.
Qed.

Lemma u64_sat_add z : is_u64 z → is_u64 (sat_add u64_max z 1).
Proof. unfold is_u64, sat_add. lia. Qed.

Lemma handle_stop_ok event p : parser_ok p → parser_ok (handle_stop event p).2.
Proof.
  intros [Hb Ho Hbs Has Hc]. unfold handle_stop. set (id := ev_id event). rewrite !Forall_cons in Hc.
  destruct Hc as (H1 & H2 & Hc). cbn [snd].
  destruct (pr_activities p !! id) as [a|] eqn:E.
  - match goal with |- parser_ok (with_activities (pr_activities ?q) _ ?q) => set (counted := q) end.
    assert (pr_activities counted = delete id (pr_activities p) ∧
            pr_build_start_order counted = pr_build_start_order p) as [Ha Hor].
    { unfold counted. by repeat (destruct (_ =? _)). }
    split; cbn [with_activities pr_activities pr_build_start_order]; rewrite ?Ha, ?Hor.
    + rewrite map_size_delete, E. etrans; [|exact Hb]. apply Nat.le_pred_l.
    + by apply NoDup_without_id.
    + intros x. rewrite elem_of_without_id, Hbs. destruct (decide (x = id)) as [->|Hne].
      * rewrite lookup_delete_eq. naive_solver.
      * rewrite lookup_delete_ne by done. naive_solver.
    + intros x b. rewrite lookup_delete_Some. intros [_ ?]. by eapply Has.
    + unfold counted. destruct (_ =? _); [|destruct (_ =? _)]; cbn -[sat_add]; rewrite !Forall_cons; auto using u64_sat_add.
  - split; cbn.
    + done.
    + by apply NoDup_without_id.
    + intros x. rewrite elem_of_without_id, Hbs. split; [naive_solver|]. intros (b & Hx & Ht). split; [by eexists|]. congruence.
    + done.
    + rewrite !Forall_cons. auto.
Qed.

(** Numbers of events are [u64]. *)
Definition numbers_are_u64 (fields : list Value) : Prop :=
  ∀ v n, v ∈ fields → as_u64 v = Some n → is_u64 n.
Class NixEventLaws `{NixEvents} :=
  event_numbers payload event : event_from_str payload = Some event → numbers_are_u64 (ev_fields event).

Lemma two_numbers_u64 event a b :
  numbers_are_u64 (ev_fields event) → two_numbers event = Some (a, b) → is_u64 a ∧ is_u64 b.
Proof.
  intros H. unfold two_numbers. destruct (ev_fields event) as [|v [|v' vs]]; cbn; [done| |].
  { by destruct (as_u64 v). }
  destruct (as_u64 v) as [x|] eqn:Ex; cbn; [|done]. destruct (as_u64 v') as [y|] eqn:Ey; cbn; [|done].
  intros [= <- <-]. split; eapply H; [by left|done|right; by left|done].
Qed.
Lemma u64_max_of x y : is_u64 x → is_u64 y → is_u64 (Z.max x y).
Proof. unfold is_u64. lia. Qed.
Lemma counts_ok p q :
  pr_activities q = pr_activities p → pr_build_start_order q = pr_build_start_order p →
  Forall is_u64 [pr_observed_builds_done q; pr_observed_fetches_done q; pr_reported_builds_done q;
    pr_reported_builds_expected q; pr_reported_fetches_done q; pr_reported_fetches_expected q] →
  parser_ok p → parser_ok q.
Proof. intros Ha Ho Hc [? ? ? ? _]. split; rewrite ?Ha, ?Ho; done. Qed.

Lemma handle_result_ok event p :
  numbers_are_u64 (ev_fields event) → parser_ok p → parser_ok (handle_result event p).2.
Proof.
  intros Hn Hp. unfold handle_result. destruct (_ || _); [done|].
  pose proof (po_counts p Hp) as Hc. rewrite !Forall_cons in Hc. destruct Hc as (H1 & H2 & H3 & H4 & H5 & H6 & _).
  destruct (_ =? _); [|destruct (_ =? _); [|done]]; cbn [snd].
  - unfold report_done. destruct (pr_activities p !! _) as [act|]; [|done].
    destruct (two_numbers event) as [[a b]|] eqn:E; [|done]. apply two_numbers_u64 in E as [Ha Hb]; [|done].
    repeat (destruct (_ =? _)); (apply (counts_ok p); [done..| |done]); rewrite !Forall_cons; cbn; auto 10 using u64_max_of.
  - unfold report_expected. destruct (two_numbers event) as [[a b]|] eqn:E; [|done].
    apply two_numbers_u64 in E as [Ha Hb]; [|done].
    repeat (destruct (_ =? _)); (apply (counts_ok p); [done..| |done]); rewrite !Forall_cons; cbn; auto 10 using u64_max_of.
Qed.

Lemma percent_in_range range_start range_end done expected :
  range_start ≤ range_end → range_start ≤ percent_in range_start range_end done expected ≤ range_end.
Proof. unfold percent_in, clamp. lia. Qed.

Section Feed.
Context {events : NixEvents}.

Lemma feed_line_ok {laws : NixEventLaws} line p : parser_ok p → parser_ok (feed_line line p).2.
Proof.
  intros Hp. unfold feed_line. destruct (strip_prefix _ _) as [payload|]; [|done].
  destruct (event_from_str payload) as [event|] eqn:E; [|done]. apply event_numbers in E.
  repeat case_bool_decide; [by apply handle_start_ok|by apply handle_stop_ok|by apply handle_result_ok|done..].
Qed.

(** The reader after some lines. *)
Definition fed (lines : list string) : InternalJsonParser :=
  foldl (λ p line, (feed_line line p).2) new_parser lines.

Lemma fed_ok {laws : NixEventLaws} lines : parser_ok (fed lines).
Proof.
  unfold fed. assert (parser_ok new_parser) as H.
  { split; cbn; [rewrite map_size_empty; apply Nat.le_0_l|constructor|by intros id; rewrite lookup_empty; set_solver|by intros id a; rewrite lookup_empty|].
    rewrite !Forall_cons. unfold is_u64, u64_max. repeat split; lia || constructor. }
  revert H. generalize new_parser. induction lines as [|line lines IH]; intros p Hp; [done|].
  cbn. by apply IH, feed_line_ok.
Qed.

Lemma current_build_last p :
  parser_ok p → current_build p = (id ← last (pr_build_start_order p); av_build_name <$> pr_activities p !! id).
Proof.
  intros Hp. unfold current_build. destruct (pr_build_start_order p) as [|id order _] eqn:E using rev_ind; [done|].
  rewrite reverse_snoc, last_snoc. cbn.
  destruct (proj1 (po_builds p Hp id)) as (a & -> & _); [|done].
  rewrite E. apply elem_of_app. right. by left.
Qed.

(** C19. The readers of a build's output do not depend on how it arrives.  However a
    stream is cut into the chunks that its reads return, each reader ends, and has
    handled the frames of the whole in order: for each line one frame, which is the line
    without its carriage return, or a mark when the line is longer than 64 KiB or no
    UTF-8; and the rest behind the last line feed likewise, unless an error ended the
    stream. *)
Theorem readers_see_the_lines_of_the_stream max_bytes r log parser :
  Forall (λ chunk, chunk ≠ "") (rd_chunks r) →
  let ended := match rd_error r with Some e => Err e | None => Ok tt end in
  let frames := frames_of MAX_PENDING_LOG_LINE_BYTES (rd_error r) (stream_of r) in
  read_log_stream max_bytes r log =
    Some (ended, foldl (λ log frame, log_frame max_bytes frame log) log frames) ∧
  read_internal_json_log_stream max_bytes r log parser =
    Some (ended, foldl (λ s frame, json_frame max_bytes frame s) (log, parser) frames).
Proof. intros Hr ended frames. split; by apply for_frames_of. Qed.

(** *** The order of builds *)

(** The builds that the lines start, by their identifiers and names; a build that is started again
    moves to the end. *)
Definition build_started (line : string) : option (Z * string) :=
  payload ← strip_prefix NIX_JSON_PREFIX line; event ← event_from_str payload;
  if bool_decide (ev_action event = "start") && (ev_activity_type event =? ACT_BUILD)
  then Some (ev_id event, build_name_of (ev_fields event)) else None.
Definition others (id : Z) (l : list (Z * string)) : list (Z * string) := List.filter (λ t, negb (t.1 =? id)) l.
Definition latest (starts : list (Z * string)) : list (Z * string) :=
  foldl (λ l s, others s.1 l ++ [s]) [] starts.
(** The builds that are tracked, with their names, in the reader's order. *)
Definition tracked_builds (p : InternalJsonParser) : list (Z * string) :=
  omap (λ id, a ← pr_activities p !! id; Some (id, av_build_name a)) (pr_build_start_order p).

Lemma others_sublist id l k : l `sublist_of` k → others id l `sublist_of` others id k.
Proof.
  unfold others. intros H. induction H as [|x l k H IH|x l k H IH]; cbn; [done| |]; destruct (negb _); try done.
  - by apply sublist_skip.
  - by apply sublist_cons.
Qed.
Lemma others_less id l : others id l `sublist_of` l.
Proof.
  induction l as [|x l IH]; cbn; [done|]. destruct (negb _); [by apply sublist_skip|by apply sublist_cons].
Qed.

(** Changing the activity of [id] does not change the others. *)
Lemma tracked_others (m m' : gmap Z Activity) (id : Z) (order : list Z) :
  (∀ x, x ≠ id → m !! x = m' !! x) →
  omap (λ x, a ← m !! x; Some (x, av_build_name a)) (without_id id order) =
  others id (omap (λ x, a ← m' !! x; Some (x, av_build_name a)) order).
Proof.
  intros Hm. unfold without_id, others. induction order as [|x order IH]; [done|]. cbn.
  destruct (Z.eqb_spec x id) as [->|Hne]; cbn.
  - rewrite IH. destruct (m' !! id); cbn; [|done]. by rewrite Z.eqb_refl.
  - rewrite (Hm x Hne), IH. destruct (m' !! x); cbn; [|done]. by rewrite (proj2 (Z.eqb_neq _ _) Hne).
Qed.
Lemma without_id_absent id order : id ∉ order → without_id id order = order.
Proof.
  intros Hid. unfold without_id. induction order as [|x order IH]; [done|]. cbn.
  apply not_elem_of_cons in Hid as [Hne Hid]. rewrite (proj2 (Z.eqb_neq _ _) (not_eq_sym Hne)). cbn. f_equal. by apply IH.
Qed.
Lemma without_id_removes id order : id ∉ without_id id order.
Proof. unfold without_id. rewrite list_elem_of_In, filter_In, Z.eqb_refl. cbn. by intros [_ ?]. Qed.

Definition next_start (l : list (Z * string)) (o : option (Z * string)) : list (Z * string) :=
  match o with Some s => others s.1 l ++ [s] | None => l end.

Lemma handle_start_order event p l :
  parser_ok p → tracked_builds p `sublist_of` l →
  tracked_builds (handle_start event p).2 `sublist_of`
    next_start l (if ev_activity_type event =? ACT_BUILD then Some (ev_id event, build_name_of (ev_fields event)) else None).
Proof.
  intros Hp Hl. unfold handle_start. set (id := ev_id event).
  assert (¬ is_Some (pr_activities p !! id) → id ∉ pr_build_start_order p) as Hunknown.
  { intros Hk Hin. apply Hk. apply (po_builds p Hp) in Hin as (a & Ha & _). by eexists. }
  set (order := if bool_decide (is_Some _) then _ else _).
  assert (omap (λ x, a ← pr_activities p !! x; Some (x, av_build_name a)) (without_id id (pr_build_start_order p))
          `sublist_of` others id l) as Hothers.
  { rewrite (tracked_others _ (pr_activities p)) by done. by apply others_sublist. }
  assert (∀ v, omap (λ x, a ← <[id := v]> (pr_activities p) !! x; Some (x, av_build_name a)) order `sublist_of` others id l) as Horder.
  { intros v. assert (id ∉ order) as Hid by (unfold order; case_bool_decide; [apply without_id_removes|auto]).
    rewrite <- (without_id_absent id order Hid), (tracked_others _ (pr_activities p)) by (intros x Hx; by rewrite lookup_insert_ne).
    unfold order. case_bool_decide; [|by apply others_sublist].
    etrans; [apply others_less|exact Hothers]. }
  destruct (_ || _) eqn:Eskip; cbn [snd].
  - destruct (Z.eqb_spec (ev_activity_type event) ACT_BUILD) as [Hb|]; [|done]. cbn [next_start fst].
    rewrite Hb in Eskip. cbn in Eskip. apply andb_true_iff in Eskip as [_ Hk%negb_true_iff%bool_decide_eq_false].
    fold id in Hk. rewrite without_id_absent in Hothers by by apply Hunknown.
    unfold tracked_builds. etrans; [exact Hothers|]. by apply sublist_inserts_r.
  - unfold tracked_builds. cbn. destruct (ev_activity_type event =? ACT_BUILD); cbn [next_start fst].
    + rewrite omap_app. cbn. rewrite lookup_insert_eq. cbn. by apply sublist_app.
    + etrans; [apply Horder|apply others_less].
Qed.

Lemma handle_stop_order event p l :
  tracked_builds p `sublist_of` l → tracked_builds (handle_stop event p).2 `sublist_of` l.
Proof.
  intros Hl. unfold handle_stop. set (id := ev_id event). cbn [snd].
  match goal with |- context [with_activities (pr_activities ?c) _ ?c] => set (counted := c) end.
  assert (pr_build_start_order counted = pr_build_start_order p ∧
          ∀ x, x ≠ id → pr_activities counted !! x = pr_activities p !! x) as [Ho Ha].
  { unfold counted. destruct (pr_activities p !! id); [|done].
    repeat (destruct (_ =? _)); (split; [done|]); intros x Hx; cbn; by rewrite lookup_delete_ne. }
  unfold tracked_builds. cbn [with_activities pr_activities pr_build_start_order]. rewrite Ho.
  rewrite (tracked_others _ (pr_activities p)) by done. etrans; [apply others_less|exact Hl].
Qed.

Lemma feed_line_order line p l :
  parser_ok p → tracked_builds p `sublist_of` l →
  tracked_builds (feed_line line p).2 `sublist_of` next_start l (build_started line).
Proof.
  intros Hp Hl. unfold feed_line, build_started. destruct (strip_prefix _ _) as [payload|]; [|done]. cbn [mbind option_bind].
  destruct (event_from_str payload) as [event|]; [|done]. cbn [mbind option_bind].
  case_bool_decide; [by apply handle_start_order|]. cbn [andb next_start].
  repeat case_bool_decide; [by apply handle_stop_order| |done|done].
  unfold handle_result, report_done, report_expected. repeat case_match; done.
Qed.

Lemma fed_order {laws : NixEventLaws} lines : tracked_builds (fed lines) `sublist_of` latest (omap build_started lines).
Proof.
  induction lines as [|line lines IH] using rev_ind; [done|].
  unfold fed. rewrite foldl_snoc. fold (fed lines).
  pose proof (feed_line_order line (fed lines) _ (fed_ok lines) IH) as H. rewrite omap_app.
  replace (omap build_started [line]) with (option_list (build_started line)) by (cbn; by destruct (build_started line)).
  unfold latest. rewrite foldl_app. by destruct (build_started line).
Qed.

Lemma current_build_tracked p : parser_ok p → current_build p = snd <$> last (tracked_builds p).
Proof.
  intros Hp. rewrite current_build_last by done. unfold tracked_builds.
  destruct (pr_build_start_order p) as [|id order _] eqn:E using rev_ind; [done|].
  rewrite omap_app, last_snoc. cbn.
  destruct (proj1 (po_builds p Hp id)) as (a & -> & _); [rewrite E; apply elem_of_app; right; by left|].
  cbn. by rewrite last_snoc.
Qed.

Lemma tracked_builds_ids p : parser_ok p → (tracked_builds p).*1 = pr_build_start_order p.
Proof.
  intros Hp. unfold tracked_builds.
  assert (∀ id, id ∈ pr_build_start_order p → is_Some (pr_activities p !! id)) as H.
  { intros id (a & Ha & _)%(po_builds p Hp). by eexists. }
  induction (pr_build_start_order p) as [|id order IH]; [done|]. cbn.
  destruct (H id) as [a ->]; [by left|]. cbn. f_equal. apply IH. intros. apply H. by right.
Qed.

(** A build that is started is shown at once. *)
Lemma started_is_last line p id name :
  (size (pr_activities p) < MAX_TRACKED_ACTIVITIES)%nat →
  build_started line = Some (id, name) → last (tracked_builds (feed_line line p).2) = Some (id, name).
Proof.
  intros Hsize. unfold build_started, feed_line. destruct (strip_prefix _ _) as [payload|]; [|done]. cbn [mbind option_bind].
  destruct (event_from_str payload) as [event|]; [|done]. cbn [mbind option_bind].
  case_bool_decide; [|done]. destruct (Z.eqb_spec (ev_activity_type event) ACT_BUILD) as [Hb|]; [|done]. cbn [andb]. intros [= <- <-].
  unfold handle_start. rewrite Hb. rewrite (proj2 (Nat.leb_gt _ _) Hsize). cbn [andb orb].
  replace (negb _) with false by done. cbn [snd]. rewrite Z.eqb_refl. unfold tracked_builds. cbn [orb snd with_activities pr_activities pr_build_start_order].
  rewrite omap_app. cbn. rewrite lookup_insert_eq. cbn. apply last_snoc.
Qed.

(** C20. The reader of Nix events is well formed whatever Nix prints: it tracks at most
    4096 activities, its list of running builds holds exactly the builds it tracks, each
    once, with names of at most 512 bytes, and its counters stay 64-bit numbers; the builds it
    tracks, with the names their events gave them, are in the order in which the lines started them
    (a build that is started again counts as started then), and the one it shows is the last of
    them, so that a build which a line starts is shown after this line, unless 4096 activities are
    tracked already; and the progress it reports lies in the range it is asked for. *)
Theorem nix_events_keep_the_reader_well_formed {laws : NixEventLaws} lines :
  let p := fed lines in
  parser_ok p ∧
  ps_builds_running (parser_snapshot p) ≤ 4096 ∧
  (tracked_builds p).*1 = pr_build_start_order p ∧
  tracked_builds p `sublist_of` latest (omap build_started lines) ∧
  ps_current_build (parser_snapshot p) = snd <$> last (tracked_builds p) ∧
  (∀ line id name, (size (pr_activities p) < MAX_TRACKED_ACTIVITIES)%nat → build_started line = Some (id, name) →
     ps_current_build (parser_snapshot (fed (lines ++ [line]))) = Some name) ∧
  ∀ range_start range_end percent message, range_start ≤ range_end →
    progress_update (parser_snapshot p) range_start range_end = Some (percent, message) →
    range_start ≤ percent ≤ range_end.
Proof.
  intros p. pose proof (fed_ok lines) as Hp. fold p in Hp. split_and!; [done| |by apply tracked_builds_ids|apply fed_order|by apply current_build_tracked| |].
  - cbn. assert (list_to_set (pr_build_start_order p) ⊆ dom (pr_activities p)) as Hsub.
    { intros id. rewrite elem_of_list_to_set, (po_builds p Hp), elem_of_dom. intros (a & Ha & _). by eexists. }
    apply subseteq_size in Hsub. rewrite size_list_to_set in Hsub by apply Hp. rewrite size_dom in Hsub.
    pose proof (po_bounded p Hp). unfold MAX_TRACKED_ACTIVITIES in *. lia.
  - intros line id name Hsize Hb. cbn [parser_snapshot ps_current_build]. rewrite current_build_tracked by apply fed_ok.
    unfold fed. rewrite foldl_snoc. fold (fed lines). fold p. by rewrite (started_is_last _ _ id name Hsize Hb).
  - intros rs re percent message Hr. unfold progress_update. repeat (destruct (_ || _); [intros [= <- _]; by apply percent_in_range|]). done.
Qed.
End Feed.

(** ** Applied *)

Module LogDemo.
Definition drv : string := "/nix/store/aaaaaaaaaaaaaaaaaaaaaaaaaaaaaaaa-hello-1.0.drv".
Definition drv2 : string := "/nix/store/bbbbbbbbbbbbbbbbbbbbbbbbbbbbbbbb-world-2.0.drv".
(** Three payloads: two builds that start, and an action that is not known. *)
#[local] Instance demo_events : NixEvents := {|
  event_from_str payload :=
    if bool_decide (payload = "start") then
      Some {| ev_action := "start"; ev_id := 7; ev_activity_type := ACT_BUILD; ev_level := 3;
              ev_text := "building"; ev_msg := ""; ev_fields := [Str drv] |}
    else if bool_decide (payload = "second") then
      Some {| ev_action := "start"; ev_id := 3; ev_activity_type := ACT_BUILD; ev_level := 3;
              ev_text := "building"; ev_msg := ""; ev_fields := [Str drv2] |}
    else if bool_decide (payload = "notice") then
      Some {| ev_action := "notice"; ev_id := 0; ev_activity_type := 0; ev_level := 0;
              ev_text := "disk is full"; ev_msg := "disk is full"; ev_fields := [] |}
    else None |}.
#[local] Instance demo_laws : NixEventLaws.
Proof.
  intros payload event. cbn. repeat case_bool_decide; intros [= <-] v n; cbn;
    try (by intros ?%not_elem_of_nil); by intros ->%list_elem_of_singleton.
Qed.

Definition demo_reader : Reader := {| rd_chunks := ["ab"; "c" +:+ nl +:+ "d"]; rd_error := None |}.

Lemma readers_see_the_lines_of_the_stream_witness :
  Forall (λ chunk, chunk ≠ "") (rd_chunks demo_reader) ∧
  frames_of MAX_PENDING_LOG_LINE_BYTES None (stream_of demo_reader) = [Line "abc"; Line "d"] ∧
  read_log_stream 100 demo_reader new_log =
    Some (Ok tt, foldl (λ log frame, log_frame 100 frame log) new_log
                   (frames_of MAX_PENDING_LOG_LINE_BYTES None (stream_of demo_reader))).
Proof.
  assert (Forall (λ chunk, chunk ≠ "") (rd_chunks demo_reader)) as H by (repeat constructor; done).
  split; [exact H|]. split; [vm_compute; reflexivity|].
  exact (proj1 (readers_see_the_lines_of_the_stream 100 demo_reader new_log new_parser H)).
Defined.

Definition demo_texts : list string := ["authorization: bearer"; "abc done"].
Lemma captured_log_is_the_redacted_whole_witness :
  (redact_log_text (appended demo_texts) 0).1 = "[REDACTED] [REDACTED]" +:+ nl +:+ "[REDACTED] done" +:+ nl ∧
  fitting_end 100 (redact_log_text (appended demo_texts) 0).1
    (log_snapshot 100 (foldl (append 100) new_log ((λ t, t +:+ nl) <$> demo_texts))).
Proof.
  split; [vm_compute; reflexivity|].
  apply (captured_log_is_the_redacted_whole 100 demo_texts); [lia|repeat constructor].
Defined.

Lemma nix_events_keep_the_reader_well_formed_witness :
  tracked_builds (fed ["@nix start"; "@nix second"]) = [(7, "hello-1.0"); (3, "world-2.0")] ∧
  parser_ok (fed ["@nix start"; "@nix second"]) ∧
  ps_current_build (parser_snapshot (fed ["@nix start"; "@nix second"])) = Some "world-2.0".
Proof.
  split; [vm_compute; reflexivity|].
  split; [exact (proj1 (nix_events_keep_the_reader_well_formed ["@nix start"; "@nix second"]))|].
  destruct (nix_events_keep_the_reader_well_formed ["@nix start"]) as (_ & _ & _ & _ & _ & Hstart & _).
  apply (Hstart "@nix second" 3); [|reflexivity]. apply Nat.leb_le. vm_compute. reflexivity.
Defined.

(** Lines are said to pass through when they are not understood, so that no output is
    lost; an event with an unknown action is dropped, with its text. *)
Lemma unknown_events_are_dropped : feed_line "@nix notice" new_parser = (None, new_parser).
Proof. reflexivity. Qed.
End LogDemo.
