(* ===== verification/BuildWorker.v ===== *)
(** * The build worker

    The workers of [src/build.rs]: claiming a job, validating and admitting it,
    checking the node, the source policy, the supervision of the Nix build, the
    copy of a replica, publication in the inventory, and the recovery from errors, as
    tasks over the job table of [BuildJobs] and the inventory of [CacheArtifacts].

    What happens outside the tables (leases, subprocesses, files, the network, the
    retention pass of [Retention]) is an input.  The world carries a log of what the
    workers did, which no task reads; the theorems are about it. *)

From stdpp Require Import base gmap list strings.
From Stdlib Require Import Ascii ZArith Lia.
From S2P Require Import Prelude Async RustStr RustText Json DbText BuildJobs CacheArtifacts ProtectedMaterial NarInfo BuildSpec BuildProfile.

#[local] Open Scope Z_scope.
#[local] Open Scope nest_scope.

(** ** Data *)

Definition BUILDING_PROGRESS_START : Z := 25.
Definition BUILDING_PROGRESS_END : Z := 79.

(** [software_updates::ReadyCommit]. *)
Record ReadyCommit := { rdy_commit : string; rdy_nar_hash : string; rdy_profile : WorkstationBuildProfile }.

Record NixOutputInfo := {
  no_output_path : string;
  no_output_sha256 : string;
  no_output_size_bytes : Z;
  no_closure_size_bytes : Z;
  no_evaluated_derivation : option string;
}.

Inductive ProcessOutcome := Succeeded (code : Z) | Failed (code : Z) | Cancelled | TimedOut.
(** [ExitStatus]: [success()] and [code()]. *)
Record ChildStatus := { ch_success : bool; ch_code : option Z }.

(** [CachedNixArtifact] without its lock. *)
Record CachedNixArtifact := {
  ca_artifact_hash : string;
  ca_size_bytes : Z;
  ca_nar_path : string;
  ca_narinfo_path : string;
  ca_nar_url : string;
  ca_store_path : string;
  ca_file_hash : string;
  ca_nar_hash : string;
  ca_nar_size_bytes : Z;
  ca_closure_size_bytes : Z;
  ca_closure_file_size_bytes : Z;
  ca_compression : string;
  ca_references : list string;
  ca_metadata : Value;
}.
Definition with_metadata (v : Value) (a : CachedNixArtifact) : CachedNixArtifact := {|
  ca_artifact_hash := ca_artifact_hash a; ca_size_bytes := ca_size_bytes a;
  ca_nar_path := ca_nar_path a; ca_narinfo_path := ca_narinfo_path a; ca_nar_url := ca_nar_url a;
  ca_store_path := ca_store_path a; ca_file_hash := ca_file_hash a; ca_nar_hash := ca_nar_hash a;
  ca_nar_size_bytes := ca_nar_size_bytes a; ca_closure_size_bytes := ca_closure_size_bytes a;
  ca_closure_file_size_bytes := ca_closure_file_size_bytes a; ca_compression := ca_compression a;
  ca_references := ca_references a; ca_metadata := v |}.

Record ReplicaClosureSummary := {
  rs_output_sha256 : string;
  rs_output_size_bytes : Z;
  rs_members : Z;
}.

Record WorkerConfig := {
  wc_build : BuildConfig;
  wc_timeout_seconds : Z;
  wc_public_base_url : string;
}.

(** What a worker did, in order. *)
Inductive Effect :=
| Claimed (job : BuildJob)
| Unreadable (id : Z)
| ReadyAnswered (id : Z) (commit : string) (ready : option ReadyCommit)
| Preflighted (id : Z) (profile : WorkstationBuildProfile) (offenders : list string)
| Built (job : BuildJob) (spec : BuildSpec) (admitted : AdmittedTarget)
| BuildEnded (id : Z) (outcome : ProcessOutcome)
| Mirrored (job : BuildJob) (spec : BuildSpec) (source : ClosureSource)
| Recorded (id : Z) (artifact : CachedNixArtifact)
| Finished (id : Z) (status : string)
| RecoveredJob (id : Z)
| TurnEnded (id : Z)
| Slept (seconds : Z).

Record BuildWorld := {
  bw_jobs : JobDb;
  bw_inventory : CacheDb;
  bw_log : list Effect;
  (** The monotonic clock, in milliseconds. *)
  bw_clock : Z;
}.
Definition set_job_table (d : JobDb) (w : BuildWorld) : BuildWorld :=
  {| bw_jobs := d; bw_inventory := bw_inventory w; bw_log := bw_log w; bw_clock := bw_clock w |}.
Definition set_inventory (c : CacheDb) (w : BuildWorld) : BuildWorld :=
  {| bw_jobs := bw_jobs w; bw_inventory := c; bw_log := bw_log w; bw_clock := bw_clock w |}.
Definition log (e : Effect) (w : BuildWorld) : BuildWorld :=
  {| bw_jobs := bw_jobs w; bw_inventory := bw_inventory w; bw_log := bw_log w ++ [e]; bw_clock := bw_clock w |}.
Definition set_clock (ms : Z) (w : BuildWorld) : BuildWorld :=
  {| bw_jobs := bw_jobs w; bw_inventory := bw_inventory w; bw_log := bw_log w; bw_clock := ms |}.

(** What an action learns from outside. *)
Record WorkInput := {
  wi_db_fails : bool;
  wi_now : string;
  (** [acquire_build_lease], [build_admission.try_acquire]. *)
  wi_lease : bool;
  wi_memory : bool;
  (** [ready_commit(..).unwrap_or(None)]. *)
  wi_ready : string → option ReadyCommit;
  wi_headroom : result string unit;
  wi_capacity : CapacitySources;
  wi_daemon : result string unit;
  (** [resources::job_peaks], [resources::oom_kills]. *)
  wi_peaks : Value;
  wi_oom_kills : Z;
  (** [nix_build_command_with_nixpkgs_nar_hash], which writes the inputs of the build. *)
  wi_command : result string unit;
  wi_preflight : result string (list string);
  (** By how many milliseconds a sleep is late. *)
  wi_late : nat;
  (** The directories and the child process; its status, its output. *)
  wi_spawned : result string unit;
  wi_child : result string (option ChildStatus);
  wi_log_due : bool;
  wi_log : string;
  wi_progress : option (Z * string);
  wi_drained : result string unit;
  wi_output : result string NixOutputInfo;
  wi_software_inventory : Value;
  wi_exported : result string CachedNixArtifact;
  wi_imported : result string (CachedNixArtifact * ReplicaClosureSummary);
  (** What retention removes from the inventory, and its result. *)
  wi_evicted : list Z;
  wi_retention : result string unit;
}.

Class WorkerDeps := {
  (** [urlencoding::encode]. *)
  url_encode : string → string;
}.

Notation btask A := (prog WorkInput BuildWorld (result SpecError A)).
#[global] Instance worker_faults : Faulty WorkInput SpecError :=
  {| fault := wi_db_fails; db_error := Refused "database" |}.

(** ** Result metadata *)

Definition json_number (n : Z) : Value := Num (PosInt n).
Definition json_opt (o : option string) : Value := match o with Some s => Str s | None => Null end.
Definition on_object (f : list (string * Value) → list (string * Value)) (v : Value) : Value :=
  match v with Object fields => Object (f fields) | _ => v end.

Section Worker.
Context {serde : Serde} {screening : Screening} {build : BuildDeps} {protected : ProtectedDeps}
  {ed25519 : Ed25519} {deps : WorkerDeps} (config : WorkerConfig).

Definition safe_error (text : string) : string := take_chars 1000 (redact_sensitive_key_values text).

Definition valid_nar_hash (value : string) : bool :=
  match strip_prefix "sha256-" value with
  | None => false
  | Some encoded =>
      (len encoded =? 44) && ends_with "=" encoded
      && all_bytes (λ b, is_alnum b || byte_in "+/" b) (str_to 43 encoded)
      && match base64_decode encoded with Some digest => (length digest =? 32)%nat | None => false end
  end.

Definition nixpkgs_flake_ref (commit : string) (nar_hash : option string) : Checked string :=
  commit ≔ normalize_nixpkgs_commit commit ?;
  match nar_hash with
  | None => Ok ("github:NixOS/nixpkgs/" +:+ commit)
  | Some nar_hash =>
      if negb (valid_nar_hash nar_hash) then refuse "nixpkgs narHash must be an SRI sha256 hash"
      else Ok ("github:NixOS/nixpkgs/" +:+ commit +:+ "?narHash=" +:+ url_encode nar_hash)
  end.

Definition build_result_metadata (peaks : Value) (job : BuildJob) (target : option BuildTargetConfig)
    (error_kind : option string) : Value :=
  let c := wc_build config in
  let m := default [] (as_object (bj_cache_metadata job)) in
  let m := obj_insert "result_schema" (Str "tiaris.nest.build.result.v1") m in
  let m := obj_insert "resource_phase_peaks" peaks m in
  let m := obj_insert "max_nix_jobs" (json_number (bc_max_nix_jobs c)) m in
  let m := obj_insert "memory_per_build_bytes" (json_number (bc_memory_per_build_bytes c)) m in
  let m := obj_insert "max_build_cores" (json_number (bc_max_build_cores c)) m in
  let m := obj_insert "minimum_memory_bytes" (json_number (bc_minimum_memory_bytes c)) m in
  let m := obj_insert "minimum_swap_bytes" (json_number (bc_minimum_swap_bytes c)) m in
  let m := match target with
           | None => m
           | Some t =>
               let m := obj_insert "nixpkgs_flake" (Str (bt_flake t)) m in
               match pinned_nixpkgs_revision (bt_flake t) with
               | Ok revision => obj_insert "nixpkgs_revision" (Str revision) m
               | Err _ => m
               end
           end in
  Object (match error_kind with
          | Some kind => obj_insert "error_kind" (Str kind) m
          | None => obj_remove "error_kind" m
          end).

Definition admitted_result_metadata (peaks : Value) (job : BuildJob) (target : BuildTargetConfig)
    (admitted_commit nixpkgs_nar_hash error_kind : option string) : Value :=
  let v := build_result_metadata peaks job (Some target) error_kind in
  match admitted_commit with
  | None => v
  | Some commit =>
      on_object (λ m,
        let m := obj_insert "nixpkgs_revision" (Str commit) m in
        match nixpkgs_flake_ref commit nixpkgs_nar_hash with
        | Ok flake => obj_insert "nixpkgs_flake" (Str flake) m
        | Err _ => m
        end) v
  end.

Definition success_result_metadata (peaks : Value) (job : BuildJob) (target : BuildTargetConfig)
    (spec : BuildSpec) (software_inventory : Value) (nixpkgs_nar_hash : option string) : Value :=
  on_object (λ m,
    let m := obj_insert "target" (Str (bs_target spec)) m in
    let m := obj_insert "system" (Str (bs_system spec)) m in
    let m := obj_insert "input_revision" (Str (bs_input_revision spec)) m in
    let m := obj_insert "input_config_hash" (Str (bs_input_config_hash spec)) m in
    let m := obj_insert "blueprint_id" (json_opt (bs_blueprint_id spec)) m in
    let m := obj_insert "blueprint_revision_id" (json_opt (bs_blueprint_revision_id spec)) m in
    let m := obj_insert "blueprint_revision_config_hash"
               (json_opt (bs_blueprint_revision_config_hash spec)) m in
    let m := obj_insert "build_input_kind" (json_opt (bi_kind <$> bs_build_input spec)) m in
    let m := match bs_build_input spec with
             | None => m
             | Some input =>
                 let m := match bi_manage_source_revision input with
                          | Some revision => obj_insert "manage_source_revision" (Str revision) m
                          | None => m
                          end in
                 match bi_installer_target input with
                 | Some target_identity => obj_insert "installer_target" target_identity m
                 | None => m
                 end
             end in
    let m := obj_insert "cache" (Str "exported") m in
    let m := match bs_nixpkgs_commit spec with
             | None => m
             | Some commit =>
                 let m := obj_insert "nixpkgs_revision" (Str commit) m in
                 obj_insert "nixpkgs_flake"
                   (Str (default ("github:NixOS/nixpkgs/" +:+ commit)
                           (ok (nixpkgs_flake_ref commit nixpkgs_nar_hash)))) m
             end in
    let m := obj_insert "source_lock_sha256" (json_opt (bs_source_lock_sha256 spec)) m in
    let m := obj_insert "software_inventory" software_inventory m in
    match bs_closure_source spec with
    | None => m
    | Some source =>
        obj_insert "closure_source"
          (Object [("cache_base_url", Str (cs_cache_base_url source));
                   ("kind", Str CLOSURE_SOURCE_KIND_NEST_CACHE);
                   ("server_device_id", Str (cs_server_device_id source))]) m
    end) (build_result_metadata peaks job (Some target) None).

(** [entry(key).or_insert]: what is there stays. *)
Definition merge_entry (m : list (string * Value)) (kv : string * Value) : list (string * Value) :=
  match obj_get kv.1 m with Some _ => m | None => obj_insert kv.1 kv.2 m end.
Definition merge_build_metadata (destination source : Value) : Value :=
  match source, destination with
  | Object source, Object destination => Object (foldl merge_entry destination source)
  | _, _ => destination
  end.

(** ** Statements *)

Definition id_of (job : BuildJob) : Z := job_id (bj_row job).

(** A statement on the job table. *)
Definition jobs_query {A} (f : string → JobDb → A * JobDb) : btask A :=
  atomic (λ i w, if wi_db_fails i then (Err db_error, w)
                 else let '(a, d) := f (wi_now i) (bw_jobs w) in (Ok a, set_job_table d w)).
(** Answers from outside. *)
Definition observe {A} (f : WorkInput → result string A) : prog WorkInput BuildWorld (result string A) :=
  read_input f.
Definition look {A} (f : WorkInput → A) : btask A := read_input (λ i, Ok (f i)).
Definition note (e : Effect) : btask unit := atomic (λ _ w, (Ok tt, log e w)).

Definition progress (job : BuildJob) (percent : Z) (stage message : string) : btask unit :=
  jobs_query (λ now d, (tt, update_build_job_progress (id_of job) (Some percent) stage message now d)).

Definition app_result {A} (r : AppResult A) : Checked unit :=
  match r with Ok _ => Ok tt | Err _ => refuse "database" end.

(** [finish_build_job(..).await?]; the metadata is built from the peaks at that time. *)
Definition finish (job : BuildJob) (status logs error output_path output_sha256 : string)
    (output_size_bytes : Z) (exit_code : option Z) (metadata : Value → Value) : btask unit :=
  atomic (λ i w,
    if wi_db_fails i then (Err db_error, w) else
    let metadata := Some (metadata (wi_peaks i)) in
    let '(r, d) := finish_build_job (id_of job) status logs error output_path output_sha256
                     output_size_bytes exit_code metadata (wi_now i) (bw_jobs w) in
    let w := set_job_table d w in
    (app_result r,
     if is_ok (validate_finish status logs error output_path output_sha256 output_size_bytes
                 exit_code metadata)
     then log (Finished (id_of job) status) w else w)).

(** ** Publication *)

(** [value as u64] of an [i64]. *)
Definition i64_as_u64 (x : Z) : Z := x mod 2 ^ 64.

Definition cache_base_url : string := wc_public_base_url config +:+ "/cache".

Definition artifact_request (job : BuildJob) (artifact_type : string) (a : CachedNixArtifact)
    : CreateCacheArtifactRequest := {|
  cr_artifact_type := artifact_type; cr_hash := ca_artifact_hash a; cr_size_bytes := ca_size_bytes a;
  cr_path := ca_nar_path a; cr_store_path := Some (ca_store_path a);
  cr_narinfo_path := Some (ca_narinfo_path a); cr_nar_url := Some (ca_nar_url a);
  cr_file_hash := Some (ca_file_hash a); cr_nar_hash := Some (ca_nar_hash a);
  cr_nar_size_bytes := Some (ca_nar_size_bytes a); cr_closure_size_bytes := Some (ca_closure_size_bytes a);
  cr_closure_file_size_bytes := Some (ca_closure_file_size_bytes a);
  cr_compression := Some (ca_compression a);
  cr_references := Some (Array (Str <$> ca_references a));
  cr_serving_url := Some (cache_base_url +:+ "/" +:+ trim_start_byte "/" (ca_nar_url a));
  cr_source_build_job_id := job_managed_id (bj_row job);
  cr_cache_metadata := Some (ca_metadata a) |}.

(** The row, then retention; both under the lock the artifact carries. *)
Definition record_cached_artifact (job : BuildJob) (artifact_type : string) (a : CachedNixArtifact)
    : btask unit :=
  atomic (λ i w,
    if wi_db_fails i then (Err db_error, w) else
    let '(r, c) := upsert_cache_artifact None (artifact_request job artifact_type a) (wi_now i)
                     (bw_inventory w) in
    match r with
    | Ok _ => (Ok tt, log (Recorded (id_of job) a) (set_inventory c w))
    | Err _ => (refuse "database", set_inventory c w)
    end) ;;?
  atomic (λ i w,
    (match wi_retention i with Ok _ => Ok tt | Err e => refuse e end,
     set_inventory (foldl (λ c id, delete_cache_artifact id c) (bw_inventory w) (wi_evicted i)) w)).

(** ** One job *)

Section Job.
Context (job : BuildJob) (spec : BuildSpec) (admitted : AdmittedTarget) (detected : option ReadyCommit).

Definition nixpkgs_nar_hash : option string := rdy_nar_hash <$> detected.
Definition admitted_metadata (kind : string) (peaks : Value) : Value :=
  admitted_result_metadata peaks job (at_target admitted) (at_nixpkgs_commit admitted)
    nixpkgs_nar_hash (Some kind).

(** A job that failed before it produced anything. *)
Definition fail_admitted (kind logs error : string) (exit_code : option Z) : btask unit :=
  finish job "failed" logs error "" "" 0 exit_code (admitted_metadata kind).

Definition execute_replica_copy (source : ClosureSource) : btask unit :=
  progress job 25 "copying"
    ("Mirroring the verified closure from Nest " +:+ cs_server_device_id source) ;;?
  imported ← atomic (λ i w, (wi_imported i, if is_ok (wi_imported i) then log (Mirrored job spec source) w else w));
  match imported with
  | Err e => fail_admitted "replica_copy_failed" "" ("replica copy failed: " +:+ safe_error e) None
  | Ok (cached, summary) =>
      if bc_max_artifact_size_bytes (wc_build config) <? i64_as_u64 (rs_output_size_bytes summary) then
        finish job "failed" "" "mirrored output exceeded max_artifact_size_bytes"
          (cs_toplevel_store_path source) (rs_output_sha256 summary) (rs_output_size_bytes summary) None
          (admitted_metadata "artifact_too_large")
      else
        progress job 90 "exporting" "Verified mirrored closure in Nest cache" ;;?
        inventory ←? look wi_software_inventory;
        peaks ←? look wi_peaks;
        let cached := with_metadata (merge_build_metadata (ca_metadata cached)
            (success_result_metadata peaks job (at_target admitted) spec inventory nixpkgs_nar_hash)) cached in
        progress job 96 "publishing" "Publishing cache artifact metadata" ;;?
        record_cached_artifact job (bs_artifact_type spec) cached ;;?
        finish job "succeeded"
          ("mirrored " +:+ show (rs_members summary) +:+ " closure members from "
             +:+ cs_cache_base_url source +:+ nl) ""
          (cs_toplevel_store_path source) (rs_output_sha256 summary) (rs_output_size_bytes summary) (Some 0)
          (λ peaks, success_result_metadata peaks job (at_target admitted) spec inventory nixpkgs_nar_hash)
  end.

(** [false] when the job has been failed. *)
Definition check_source_policy : btask bool :=
  progress job 18 "checking_cache" "Checking binary cache coverage" ;;?
  match for_build (at_nixpkgs_commit admitted) (rdy_profile <$> detected) with
  | None =>
      fail_admitted "source_build_blocked" ""
        ("Nest has no reviewed build profile for nixpkgs commit "
           +:+ default "(none)" (at_nixpkgs_commit admitted)
           +:+ ", so this source-disabled build was stopped") None ;;?
      Ret (Ok false)
  | Some profile =>
      checked ← atomic (λ i w, (wi_preflight i,
        match wi_preflight i with
        | Ok offenders => log (Preflighted (id_of job) profile offenders) w
        | Err _ => w
        end));
      match checked with
      | Ok [] => Ret (Ok true)
      | Ok offenders =>
          finish job "failed" "" (source_build_blocked_message offenders) "" "" 0 None
            (λ peaks, on_object (obj_insert "source_build_candidates" (Array (Str <$> offenders)))
                        (admitted_metadata "source_build_blocked" peaks)) ;;?
          Ret (Ok false)
      | Err e =>
          fail_admitted "source_policy_preflight_failed" ""
            ("Nest could not verify binary cache coverage, so this source-disabled build was stopped safely: "
               +:+ safe_error e) None ;;?
          Ret (Ok false)
      end
  end.

(** One round's persistence of log and progress; an error is only a warning.  The
    answer is the last progress that was sent. *)
Definition report_progress (last : option (Z * string)) : prog WorkInput BuildWorld (option (Z * string)) :=
  due ← read_input (λ i, (wi_log_due i, wi_log i, wi_progress i));
  let '(log_due, logs, update) := due in
  if negb log_due then Ret last else
  jobs_query (λ now d, (tt, update_build_job_logs (id_of job) logs now d)) ≫= λ _,
  match update with
  | None => Ret last
  | Some (percent, message) =>
      let percent := match last with Some (p, _) => Z.max percent p | None => percent end in
      if bool_decide (last = Some (percent, message)) then Ret last else
      sent ← progress job percent "building" message;
      match sent with Ok _ => Ret (Some (percent, message)) | Err _ => Ret last end
  end.

(** [Ok(true)]; an error is only a warning. *)
Definition cancel_requested : prog WorkInput BuildWorld bool :=
  atomic (λ i w, (negb (wi_db_fails i) && build_job_cancel_requested (id_of job) (bw_jobs w), w)).

(** [sleep(Duration::from_millis(ms))] ends when that time has passed, or later. *)
Definition sleep_millis (ms : Z) : prog WorkInput BuildWorld unit :=
  atomic (λ i w, (tt, set_clock (bw_clock w + ms + Z.of_nat (wi_late i)) w)).

(** The supervision, for at most [rounds] rounds; [None]: it goes on after them. *)
Fixpoint supervise (rounds : nat) (started : Z) (last : option (Z * string)) : btask (option ProcessOutcome) :=
  match rounds with
  | O => Ret (Ok None)
  | S rounds =>
      cancelled ← cancel_requested;
      if cancelled : bool then Ret (Ok (Some Cancelled)) else
      seen ← atomic (λ i w, ((bw_clock w - started, wi_child i), w));
      if wc_timeout_seconds config * 1000 <=? seen.1 then Ret (Ok (Some TimedOut)) else
      match seen.2 with
      | Err e => Ret (refuse e)
      | Ok (Some status) =>
          let code := default (-1) (ch_code status) in
          Ret (Ok (Some (if ch_success status then Succeeded code else Failed code)))
      | Ok None =>
          last ← report_progress last;
          sleep_millis 500 ≫= λ _,
          supervise rounds started last
      end
  end.
(** A round sleeps half a second, so that one more than [2 * timeout_seconds] of them are
    enough ([worker_supervise]). *)
Definition supervision_rounds : nat := S (Z.to_nat (2 * wc_timeout_seconds config)).

Definition fallible {A} (r : prog WorkInput BuildWorld (result string A)) : btask A :=
  r ≫= λ r, match r with Ok a => Ret (Ok a) | Err e => Ret (refuse e) end.

Definition run_nix_build : btask ProcessOutcome :=
  fallible (atomic (λ i w, (wi_spawned i, if is_ok (wi_spawned i) then log (Built job spec admitted) w else w))) ;;?
  started ←? atomic (λ _ w, (Ok (bw_clock w), w));
  ended ←? supervise supervision_rounds started None;
  match ended with
  | None => Ret (Err Crashed) (* not reached *)
  | Some outcome =>
  fallible (observe wi_drained) ;;?
  logs ←? look wi_log;
  jobs_query (λ now d, (tt, update_build_job_logs (id_of job) logs now d)) ;;?
  note (BuildEnded (id_of job) outcome) ;;?
  Ret (Ok outcome)
  end.

(** [ProcessOutcome::Succeeded]. *)
Definition publish_build (exit_code : Z) (logs : string) : btask unit :=
  progress job 80 "inspecting" "Inspecting build output" ;;?
  inspected ← observe wi_output;
  match inspected with
  | Err e =>
      fail_admitted "output_validation_failed" logs ("build output validation failed: " +:+ safe_error e)
        (Some exit_code)
  | Ok info =>
      if bc_max_artifact_size_bytes (wc_build config) <? i64_as_u64 (no_output_size_bytes info) then
        finish job "failed" logs "build output exceeded max_artifact_size_bytes"
          (no_output_path info) (no_output_sha256 info) (no_output_size_bytes info) (Some exit_code)
          (admitted_metadata "artifact_too_large")
      else
        inventory ←? look wi_software_inventory;
        progress job 90 "exporting" "Exporting closure to Nest cache" ;;?
        exported ← observe wi_exported;
        match exported with
        | Err e =>
            finish job "failed" logs ("cache export failed: " +:+ safe_error e)
              (no_output_path info) (no_output_sha256 info) (no_output_size_bytes info) (Some exit_code)
              (admitted_metadata "cache_export_failed")
        | Ok cached =>
            peaks ←? look wi_peaks;
            let cached := with_metadata (merge_build_metadata (ca_metadata cached)
              (success_result_metadata peaks job (at_target admitted) spec inventory nixpkgs_nar_hash)) cached in
            progress job 96 "publishing" "Publishing cache artifact metadata" ;;?
            record_cached_artifact job (bs_artifact_type spec) cached ;;?
            finish job "succeeded" logs "" (no_output_path info) (no_output_sha256 info)
              (no_output_size_bytes info) (Some exit_code)
              (λ peaks, success_result_metadata peaks job (at_target admitted) spec inventory nixpkgs_nar_hash)
        end
  end.

Definition execute_build : btask unit :=
  fallible (observe wi_command) ;;?
  cleared ←? (if bs_allow_source_builds spec then Ret (Ok true) else check_source_policy);
  if negb cleared then Ret (Ok tt) else
  progress job 25 "building" "Building NixOS closure" ;;?
  oom_kills_before ←? look wi_oom_kills;
  outcome ←? run_nix_build;
  oom_kills_after ←? look wi_oom_kills;
  logs ←? look wi_log;
  match outcome with
  | Succeeded exit_code => publish_build exit_code logs
  | Failed exit_code =>
      let '(error_kind, error) := classify_nix_build_failure logs (oom_kills_before <? oom_kills_after) in
      fail_admitted error_kind logs error (Some exit_code)
  | Cancelled =>
      finish job "cancelled" logs "build cancelled by Tiaris" "" "" 0 None (admitted_metadata "cancelled")
  | TimedOut => fail_admitted "build_timeout" logs "build exceeded configured timeout" None
  end.

Definition capacity_error (capacity : BuildCapacity) : option (string * string) :=
  let c := wc_build config in
  if negb (capacity_meets_minimum (cap_memory_bytes capacity) (bc_minimum_memory_bytes c)) then
    Some ("insufficient_memory",
          "Nest requires at least " +:+ show (bc_minimum_memory_bytes c)
          +:+ " bytes of memory for Build/Cache; detected " +:+ show (cap_memory_bytes capacity) +:+ " bytes")
  else if negb (capacity_meets_minimum (cap_swap_bytes capacity) (bc_minimum_swap_bytes c)) then
    Some ("insufficient_swap",
          "Nest requires at least " +:+ show (bc_minimum_swap_bytes c)
          +:+ " bytes of emergency swap for Build/Cache; detected " +:+ show (cap_swap_bytes capacity)
          +:+ " bytes")
  else None.

(** From the admission on. *)
Definition execute_admitted : btask unit :=
  progress job 12 "preparing" "Checking builder capacity and preparing inputs" ;;?
  headroom ← observe wi_headroom;
  match headroom with
  | Err e => fail_admitted "insufficient_disk_space" "" (safe_error e) None
  | Ok _ =>
      capacity ← read_input (λ i, build_capacity (wi_capacity i));
      match capacity with
      | Err Crashed => Ret (Err Crashed)
      | Err (Refused e) =>
          fail_admitted "capacity_check_failed" ""
            ("could not inspect Nest memory capacity: " +:+ safe_error e) None
      | Ok capacity =>
          match capacity_error capacity with
          | Some (error_kind, error) => fail_admitted error_kind "" error None
          | None =>
              daemon ← observe wi_daemon;
              match daemon with
              | Err e =>
                  fail_admitted "nix_daemon_unavailable" "" ("Nix daemon is unavailable: " +:+ safe_error e) None
              | Ok _ =>
                  match bs_closure_source spec with
                  | Some source => execute_replica_copy source
                  | None => execute_build
                  end
              end
          end
      end
  end.
End Job.

(** A job that was not admitted. *)
Definition fail_unadmitted (job : BuildJob) (kind error : string) : btask unit :=
  finish job "failed" "" error "" "" 0 None (λ peaks, build_result_metadata peaks job None (Some kind)).

(** [software_updates::ready_commit], whose answer is logged. *)
Definition ready_answer (job : BuildJob) (commit : string) : btask (option ReadyCommit) :=
  atomic (λ i w, (Ok (wi_ready i commit), log (ReadyAnswered (id_of job) commit (wi_ready i commit)) w)).

Definition execute_claimed_job (job : BuildJob) : btask unit :=
  match validate_build_spec (wc_build config) job with
  | Err Crashed => Ret (Err Crashed)
  | Err (Refused e) => fail_unadmitted job "invalid_build_spec" ("invalid build spec: " +:+ safe_error e)
  | Ok spec =>
      progress job 8 "validating" "Build spec validated" ;;?
      detected ←? match bs_build_input spec, bs_nixpkgs_commit spec with
                  | Some _, Some commit => ready_answer job commit
                  | _, _ => Ret (Ok None)
                  end;
      match admit_build_target (wc_build config) spec (rdy_commit <$> detected) with
      | Err Crashed => Ret (Err Crashed)
      | Err (Refused e) =>
          fail_unadmitted job "target_not_allowed" ("build target is not allowed: " +:+ safe_error e)
      | Ok admitted => execute_admitted job spec admitted detected
      end
  end.

(** ** The loop *)

Definition RECOVERY_REASON : string :=
  "Nest stopped the build safely after an internal worker error; retry the build.".

(** [(2 << (failures - 1).min(5)).min(60)], [(5 << (failures - 1).min(5)).min(120)]. *)
Definition recovery_delay (failures : Z) : Z := Z.min (Z.shiftl 2 (Z.min (sat_sub failures 1) 5)) 60.
Definition claim_delay (failures : Z) : Z := Z.min (Z.shiftl 5 (Z.min (sat_sub failures 1) 5)) 120.
Definition pause (seconds : Z) : btask unit := note (Slept seconds).

(** Until the statement succeeds; [false]: it still fails after [rounds] attempts. *)
Fixpoint recover_failed_job_execution (rounds : nat) (failures id : Z) : btask bool :=
  match rounds with
  | O => Ret (Ok false)
  | S rounds =>
      r ← atomic (λ i w, if wi_db_fails i then (Err db_error, w) else
            let '(recovered, d) := fail_running_build_job_after_worker_error id RECOVERY_REASON
                                     (wi_now i) (bw_jobs w) in
            (Ok recovered, log (RecoveredJob id) (set_job_table d w)));
      match r with
      | Ok _ => Ret (Ok true)
      | Err _ =>
          let failures := sat_add u32_max failures 1 in
          pause (recovery_delay failures) ;;?
          recover_failed_job_execution rounds failures id
      end
  end.

(** [claim_next_build_job]; a row that was claimed and cannot be read is logged. *)
Definition claim : btask (option BuildJob) :=
  atomic (λ i w, if wi_db_fails i then (Err db_error, w) else
    let '(r, d) := claim_next_build_job (wi_now i) (bw_jobs w) in
    let w' := set_job_table d w in
    match r with
    | Ok (Some job) => (Ok (Some job), log (Claimed job) w')
    | Ok None => (Ok None, w')
    | Err _ => (refuse "database",
                match (claim_statement (wi_now i) (bw_jobs w)).1 with
                | Some row => log (Unreadable (job_id row)) w'
                | None => w'
                end)
    end).

(** One turn of [worker_loop]: the number of failed claims before and after, or
    [None] when the worker goes on no more (it panicked, or still recovers). *)
Definition worker_turn (recovery_rounds : nat) (claim_failures : Z) : prog WorkInput BuildWorld (option Z) :=
  lease ← read_input wi_lease;
  if negb lease then pause 5 ≫= λ _, Ret (Some claim_failures) else
  memory ← read_input wi_memory;
  if negb memory then pause 2 ≫= λ _, Ret (Some claim_failures) else
  claimed ← claim;
  match claimed with
  | Ok (Some job) =>
      executed ← execute_claimed_job job;
      recovered ← match executed with
                  | Ok _ => Ret (Ok true)
                  | Err Crashed => Ret (Ok false)
                  | Err (Refused _) => recover_failed_job_execution recovery_rounds 0 (id_of job)
                  end;
      match recovered with
      | Ok true => note (TurnEnded (id_of job)) ≫= λ _, Ret (Some 0)
      | _ => Ret None
      end
  | Ok None => pause 2 ≫= λ _, Ret (Some 0)
  | Err _ =>
      let claim_failures := sat_add u32_max claim_failures 1 in
      pause (claim_delay claim_failures) ≫= λ _, Ret (Some claim_failures)
  end.

Fixpoint worker_loop (turns recovery_rounds : nat) (claim_failures : Z) : prog WorkInput BuildWorld unit :=
  match turns with
  | O => Ret tt
  | S turns =>
      next ← worker_turn recovery_rounds claim_failures;
      match next with
      | Some claim_failures => worker_loop turns recovery_rounds claim_failures
      | None => Ret tt
      end
  end.

(** [spawn]: what was running is failed before a worker starts; an error is only a
    warning. *)
Definition recover_at_start (fails : bool) (now : string) (w : BuildWorld) : BuildWorld :=
  if fails then w else
  set_job_table (recover_running_build_jobs
    "Nest restarted while this build was running; mark failed for explicit retry." now (bw_jobs w)).2 w.

(** ** What else changes the queue *)

Inductive QueueOp :=
| Create (r : CreateBuildJobRequest)
| Upsert (managed : string) (r : CreateBuildJobRequest)
| Reject (managed artifact : string) (target system : option string) (revision hash reason : string)
| CancelOne (id : Z)
| CancelManaged (ids : list string).

(** One operation of a request or a synchronization. *)
Definition queue_change (op : QueueOp) (now : string) (d : JobDb) : JobDb :=
  match op with
  | Create r => (create_build_job r now d).2
  | Upsert managed r => (upsert_managed_build_job managed r now d).2
  | Reject managed artifact target system revision hash reason =>
      (record_rejected_managed_build_job managed artifact target system revision hash reason now d).2
  | CancelOne id => cancel_statement id now d
  | CancelManaged ids => (cancel_managed_build_jobs ids now 0 d).2
  end.
Definition queue_task (op : QueueOp) : prog WorkInput BuildWorld unit :=
  jobs_query (λ now d, (tt, queue_change op now d)) ≫= λ _, Ret tt.

End Worker.
