(* ===== verification/BuildWorkerProofs.v ===== *)
(** * The build worker: what it guarantees

    Every interleaving of workers and queue operations is a run of the transition
    system of [BuildJobsProofs], so that its theorems hold of the program; a turn on a
    job ends with the job finished; nothing is built that was not accepted, admitted
    and, when it may not build from source, checked; and what is reported as succeeded
    was recorded. *)

From stdpp Require Import relations base gmap list strings.
From Stdlib Require Import Ascii ZArith Lia.
From S2P Require Import Prelude Async RustStr Json DbText BuildJobs BuildJobsProofs CacheArtifacts ProtectedMaterial NarInfo BuildSpec BuildSpecProofs BuildProfile BuildWorker.

#[local] Open Scope Z_scope.
#[local] Open Scope nest_scope.

(** ** The log *)

(** The jobs that are claimed and not finished. *)
Definition hold (h : list Z) (e : Effect) : list Z :=
  match e with
  | Claimed job => id_of job :: h
  | Unreadable id => id :: h
  | Finished id _ | RecoveredJob id => list_difference h [id]
  | _ => h
  end.
Definition held_in (w : BuildWorld) : list Z := foldl hold [] (bw_log w).
Definition pool_of (w : BuildWorld) : Pool := {| pool_db := bw_jobs w; held := held_in w |}.

Lemma held_log e w : held_in (log e w) = hold (held_in w) e.
Proof. unfold held_in. cbn. by rewrite foldl_app. Qed.

Lemma release_held (id : Z) h r : NoDup h → h ≡ₚ id :: r → list_difference h [id] ≡ₚ r.
Proof.
  intros Hnd Hp. apply NoDup_Permutation.
  - by apply NoDup_list_difference.
  - rewrite Hp in Hnd. by inversion Hnd.
  - intros x. rewrite list_elem_of_difference, Hp, !elem_of_cons, elem_of_nil.
    rewrite Hp in Hnd. inversion Hnd. split; [intros [[-> | ?] Hx]; [|done]|]; naive_solver.
Qed.

Lemma release_other (id : Z) h : NoDup h → id ∉ h → list_difference h [id] ≡ₚ h.
Proof.
  intros Hnd Hid. apply NoDup_Permutation; [by apply NoDup_list_difference|done|].
  intros x. rewrite list_elem_of_difference, list_elem_of_singleton. naive_solver.
Qed.

(** ** Invariant *)

Definition finished (id : Z) (d : JobDb) : Prop :=
  ∃ row, jobs d !! id = Some row ∧ terminal_status (job_status row) = true.
Definition left_queue (id : Z) (d : JobDb) : Prop :=
  ∃ row, jobs d !! id = Some row ∧ job_status row ≠ "queued".

Lemma finished_evolves id d d' : jobs_evolve d d' → finished id d → finished id d'.
Proof.
  intros He (row & Hr & Ht). destruct (He _ _ Hr) as (row' & Hr' & Hrow). exists row'.
  split; [done|]. by destruct (row_final _ _ Hrow Ht) as (-> & _).
Qed.
Lemma left_queue_evolves id d d' : jobs_evolve d d' → left_queue id d → left_queue id d'.
Proof.
  intros He (row & Hr & Ht). destruct (He _ _ Hr) as (row' & Hr' & Hrow). exists row'.
  split; [done|]. destruct (row_status _ _ Hrow) as [->|[?|[? ?]]]; congruence.
Qed.

Section Worker.
Context {serde : Serde} {screening : Screening} {build : BuildDeps} {protected : ProtectedDeps}
  {ed25519 : Ed25519} {deps : WorkerDeps} (config : WorkerConfig).

(** A specification was accepted and admitted at a target. *)
Definition accepted_at (job : BuildJob) (spec : BuildSpec) (admitted : AdmittedTarget)
    (detected : option ReadyCommit) : Prop :=
  validate_build_spec (wc_build config) job = Ok spec ∧
  admit_build_target (wc_build config) spec (rdy_commit <$> detected) = Ok admitted.

(** A detected commit is what [ready_commit] answered for the commit the specification asks for. *)
Definition detected_in (l : list Effect) (job : BuildJob) (spec : BuildSpec) (detected : option ReadyCommit) : Prop :=
  ∀ ready, detected = Some ready →
    ∃ commit, bs_nixpkgs_commit spec = Some commit ∧ ReadyAnswered (id_of job) commit (Some ready) ∈ l.

(** What has to have happened before an effect. *)
Definition justified (l : list Effect) (e : Effect) : Prop :=
  match e with
  | Built job spec admitted =>
      Claimed job ∈ l ∧ bs_closure_source spec = None ∧
      ∃ detected, accepted_at job spec admitted detected ∧ detected_in l job spec detected ∧
        (bs_allow_source_builds spec = true ∨
         ∃ profile, for_build (at_nixpkgs_commit admitted) (rdy_profile <$> detected) = Some profile ∧
                    Preflighted (id_of job) profile [] ∈ l)
  | Mirrored job spec source =>
      Claimed job ∈ l ∧ bs_closure_source spec = Some source ∧
      ∃ admitted detected, accepted_at job spec admitted detected
  | Recorded id _ =>
      (∃ job spec admitted code, id_of job = id ∧ Built job spec admitted ∈ l ∧
                                 BuildEnded id (Succeeded code) ∈ l) ∨
      (∃ job spec source, id_of job = id ∧ Mirrored job spec source ∈ l)
  | Finished id status =>
      (∃ job, Claimed job ∈ l ∧ id_of job = id) ∧ (status = "succeeded" → ∃ a, Recorded id a ∈ l)
  | RecoveredJob id => ∃ job, Claimed job ∈ l ∧ id_of job = id
  | TurnEnded id => (∃ status, Finished id status ∈ l) ∨ RecoveredJob id ∈ l
  | _ => True
  end.

Definition log_ok (l : list Effect) : Prop :=
  ∀ before e after, l = before ++ e :: after → justified before e.

Lemma log_ok_snoc l e : log_ok l → justified l e → log_ok (l ++ [e]).
Proof.
  intros Hl He before e' after Heq. destruct after as [|x after] using rev_ind.
  - apply app_inj_tail in Heq as [<- <-]. done.
  - clear IHafter. rewrite app_comm_cons, app_assoc in Heq. apply app_inj_tail in Heq as [-> _].
    by eapply Hl.
Qed.

Lemma justified_mono l l' e : justified l e → (∀ e', e' ∈ l → e' ∈ l') → justified l' e.
Proof.
  intros Hj Hl. destruct e; cbn in *; try done; try naive_solver.
  destruct Hj as (? & ? & detected & ? & Ha & Hp). split; [auto|]. split; [done|]. exists detected.
  split; [done|]. split; [|naive_solver]. intros ready Hr. destruct (Ha ready Hr) as (commit & ? & ?). eauto.
Qed.

Record work_ok (w : BuildWorld) : Prop := {
  wk_pool : pool_ok (pool_of w);
  wk_remediated : ∀ id, id ∈ remediated (bw_jobs w) → finished id (bw_jobs w);
  wk_log : log_ok (bw_log w);
  wk_claimed : ∀ job, Claimed job ∈ bw_log w → left_queue (id_of job) (bw_jobs w);
  wk_finished : ∀ id status, Finished id status ∈ bw_log w → finished id (bw_jobs w);
  wk_recovered : ∀ id, RecoveredJob id ∈ bw_log w → finished id (bw_jobs w);
}.

Definition work_evolves (w w' : BuildWorld) : Prop :=
  rtc job_step (pool_of w) (pool_of w') ∧ bw_log w `prefix_of` bw_log w' ∧ bw_clock w ≤ bw_clock w'.
#[global] Instance work_evolves_preorder : PreOrder work_evolves.
Proof.
  split; [intros w; split_and!; reflexivity|]. intros w1 w2 w3 (? & ? & ?) (? & ? & ?). split_and!; by etrans.
Qed.

Lemma known e w w' : work_evolves w w' → e ∈ bw_log w → e ∈ bw_log w'.
Proof. intros (_ & [l ->] & _) H. apply elem_of_app. by left. Qed.

Lemma job_step_keeps_remediated p p' : job_step p p' → remediated (pool_db p') = remediated (pool_db p).
Proof.
  assert (∀ mk d id d', insert_row mk d = Some (id, d') → remediated d' = remediated d) as Hins.
  { intros mk d id d'. unfold insert_row. case_match; [|done]. by intros [= <- <-]. }
  intros H. destruct H; try reflexivity; cbn.
  - unfold create_build_job. case_match; [|done]. case_match. case_match; [|done].
    case_match. cbn. eauto.
  - unfold upsert_managed_build_job. case_match; [|done]. do 2 case_match.
    case_match eqn:Hu; [|done]. cbn. unfold upsert_row in Hu. case_match; [by simplify_eq|].
    apply fmap_Some in Hu as ([? ?] & ? & ->). eauto.
  - unfold record_rejected_managed_build_job. repeat case_match; cbn; eauto.
  - generalize 0 as n. revert d. induction ids as [|id ids IH]; intros d n; cbn; [done|].
    case_match; [|done]. by rewrite IH.
  - unfold claim_statement in *. case_match; simplify_eq. done.
Qed.

(** A step of the table with nothing to log. *)
Lemma work_step w d :
  work_ok w → job_step (pool_of w) {| pool_db := d; held := held_in w |} →
  work_ok (set_job_table d w) ∧ work_evolves w (set_job_table d w).
Proof.
  intros [Hp Hr Hl Hc Hf Hre] Hs.
  destruct (job_step_ok _ _ Hp Hs) as [Hp' He]. apply job_step_keeps_remediated in Hs as Hrem. cbn in Hrem.
  split.
  - constructor; cbn; [exact Hp'|rewrite Hrem|done|..]; eauto using finished_evolves, left_queue_evolves.
  - split_and!; [by apply rtc_once|done|done].
Qed.

(** An effect that holds and releases nothing. *)
Definition plain (e : Effect) : Prop :=
  match e with Claimed _ | Unreadable _ | Finished _ _ | RecoveredJob _ => False | _ => True end.

Lemma held_plain e w : plain e → held_in (log e w) = held_in w.
Proof. rewrite held_log. by destruct e. Qed.

Lemma work_log e w :
  work_ok w → plain e → justified (bw_log w) e → work_ok (log e w) ∧ work_evolves w (log e w).
Proof.
  intros [Hp Hr Hl Hc Hf Hre] Hpl Hj. assert (pool_of (log e w) = pool_of w) as Heq.
  { unfold pool_of. by rewrite held_plain. }
  split.
  - constructor; cbn; [by rewrite Heq|done|by apply log_ok_snoc|..];
      intros *; rewrite elem_of_app, list_elem_of_singleton; intros [?|<-]; eauto; done.
  - split_and!; [by rewrite Heq| |done]. cbn. by apply prefix_app_r.
Qed.

Lemma work_inventory c w : work_ok w → work_ok (set_inventory c w) ∧ work_evolves w (set_inventory c w).
Proof. intros [Hp Hr Hl Hc Hf Hre]. split; [by constructor|]. split_and!; reflexivity. Qed.

Lemma work_clock ms w :
  work_ok w → bw_clock w ≤ ms → work_ok (set_clock ms w) ∧ work_evolves w (set_clock ms w).
Proof. intros [Hp Hr Hl Hc Hf Hre] Hms. split; [by constructor|]. by split_and!. Qed.

(** The table and an effect that changes what is held. *)
Lemma work_step_log w d e :
  work_ok w → job_step (pool_of w) {| pool_db := d; held := hold (held_in w) e |} →
  justified (bw_log w) e →
  match e with
  | Claimed job => left_queue (id_of job) d
  | Finished id _ | RecoveredJob id => finished id d
  | _ => True
  end →
  work_ok (log e (set_job_table d w)) ∧ work_evolves w (log e (set_job_table d w)).
Proof.
  intros [Hp Hr Hl Hc Hf Hre] Hs Hj Hd.
  assert (pool_of (log e (set_job_table d w)) = {| pool_db := d; held := hold (held_in w) e |}) as Heq.
  { unfold pool_of. by rewrite held_log. }
  destruct (job_step_ok _ _ Hp Hs) as [Hp' He]. apply job_step_keeps_remediated in Hs as Hrem. cbn in Hrem, He.
  split.
  - constructor; cbn; [by rewrite Heq|rewrite Hrem|by apply log_ok_snoc|..];
      [by eauto using finished_evolves| | |];
      intros *; rewrite elem_of_app, list_elem_of_singleton;
      (intros [?|Heq']; [by eauto using finished_evolves, left_queue_evolves|by subst e]).
  - split_and!; [rewrite Heq; by apply rtc_once| |done]. cbn. by apply prefix_app_r.
Qed.

(** ** Primitives *)

Notation task A := (prog WorkInput BuildWorld A).
Notation worker := (owned work_ok work_evolves held_in).

(** What a part of a turn on job [id] leaves before the job is finished. *)
Definition keeps (id : Z) {A} (R : A → BuildWorld → Prop) (r : result SpecError A) (o : list Z)
    (w : BuildWorld) : Prop :=
  o = [id] ∧ match r with Ok a => R a w | Err (Refused _) => True | Err Crashed => False end.

(** What the turn leaves: the job is finished, or the turn failed. *)
Definition settles (id : Z) {A} (r : result SpecError A) (o : list Z) (w : BuildWorld) : Prop :=
  match r with
  | Ok _ => o = [] ∧ ∃ status, Finished id status ∈ bw_log w
  | Err Crashed => False
  | Err (Refused _) => o = [id] ∨ o = [] ∧ ∃ status, Finished id status ∈ bw_log w
  end.

Lemma worker_try {A B} (p : task (result SpecError A)) (f : A → task (result SpecError B)) id R Q w0 :
  work_ok w0 → worker p [id] (keeps id R) w0 →
  (∀ a w, work_ok w → work_evolves w0 w → R a w → worker (f a) [id] Q w) →
  (∀ text w, Q (Err (Refused text)) [id] w) → worker (try_bind p f) [id] Q w0.
Proof.
  intros HI Hp Hf He. unfold try_bind. eapply owned_seq; [apply _|done|exact Hp|].
  intros r o w Hw Hg [-> Hr]. destruct r as [a|[text|]]; [by apply Hf|apply He|done].
Qed.

Lemma worker_bind {A B} (p : task A) (f : A → task B) o (R : A → BuildWorld → Prop) Q w0 :
  work_ok w0 → worker p o (λ a o' w, o' = o ∧ R a w) w0 →
  (∀ a w, work_ok w → work_evolves w0 w → R a w → worker (f a) o Q w) → worker (p ≫= f) o Q w0.
Proof.
  intros HI Hp Hf. eapply owned_seq; [apply _|done|exact Hp|]. intros a o' w Hw Hg [-> Hr]. by apply Hf.
Qed.

Lemma worker_read {B} (f : WorkInput → B) o w0 :
  worker (read_input f) o (λ _ o' _, o' = o ∧ True) w0.
Proof. apply owned_read; [apply _|done]. Qed.

Lemma worker_look {A} (f : WorkInput → A) id w0 : worker (look f) [id] (keeps id (λ _ _, True)) w0.
Proof. by apply owned_read; [apply _|]. Qed.

Lemma worker_fallible {A} (p : task (result string A)) id w0 :
  worker p [id] (λ _ o _, o = [id]) w0 → worker (fallible p) [id] (keeps id (λ _ _, True)) w0.
Proof.
  intros Hp. apply owned_bind. eapply owned_mono; [|exact Hp].
  intros [a|e] o w ->; cbn; done.
Qed.

Lemma worker_query {A} (f : string → JobDb → A * JobDb) o w0 :
  (∀ now d h, job_step {| pool_db := d; held := h |} {| pool_db := (f now d).2; held := h |}) →
  worker (jobs_query f) o (λ r o' _, o' = o ∧ r ≠ Err Crashed) w0.
Proof.
  intros Hf. apply owned_atomic. intros i w r HI _ Hr. destruct (wi_db_fails i).
  - split_and!; [done|reflexivity|]. by exists o.
  - specialize (Hf (wi_now i) (bw_jobs w) (held_in w)). destruct (f (wi_now i) (bw_jobs w)) as [a d]. cbn in *.
    destruct (work_step w d HI Hf). split_and!; [done|done|]. by exists o.
Qed.

Lemma worker_progress_spec job percent stage message o w0 :
  worker (progress job percent stage message) o (λ r o' _, o' = o ∧ r ≠ Err Crashed) w0.
Proof. apply worker_query. intros. constructor. Qed.

Lemma worker_progress_keeps job percent stage message id w0 :
  worker (progress job percent stage message) [id] (keeps id (λ _ _, True)) w0.
Proof. eapply owned_mono; [|apply worker_progress_spec]. by intros [|[]] o w [-> ?]. Qed.

Lemma worker_note e o w0 :
  plain e → justified (bw_log w0) e →
  worker (note e) o (λ r o' w, o' = o ∧ r = Ok tt ∧ e ∈ bw_log w) w0.
Proof.
  intros Hpl Hj. apply owned_atomic. intros i w r HI HG Hr. cbn [fst snd].
  destruct (work_log e w) as [H1 H2]; [done|done| |].
  { eapply justified_mono; [exact Hj|]. intros e' He'. by eapply known. }
  split_and!; [done|done|]. exists o. split; [by rewrite held_plain|]. split_and!; [done|done|].
  cbn. apply elem_of_app. right. by left.
Qed.

Lemma same_table w : set_job_table (bw_jobs w) w = w.
Proof. by destruct w. Qed.

Lemma running_unfinished id w : work_ok w → id ∈ held_in w → ¬ finished id (bw_jobs w).
Proof.
  intros Hw Hin (row & Hr & Ht). destruct (pool_held _ (wk_pool _ Hw) id Hin) as (row' & Hr' & Hs).
  cbn in Hr'. rewrite Hr in Hr'. simplify_eq. by rewrite Hs in Ht.
Qed.

Lemma held_row id w : work_ok w → id ∈ held_in w →
  ∃ row, jobs (bw_jobs w) !! id = Some row ∧ job_status row = "running" ∧ job_id row = id ∧
         id ∉ remediated (bw_jobs w).
Proof.
  intros Hw Hin. destruct (pool_held _ (wk_pool _ Hw) id Hin) as (row & Hr & Hs). exists row.
  split_and!; [done|done|by apply (jobs_ids _ (pool_jobs _ (wk_pool _ Hw)))|].
  intros Hrem. by eapply running_unfinished, (wk_remediated _ Hw).
Qed.

Lemma worker_finish job status logs error path sha size code metadata w0 :
  Claimed job ∈ bw_log w0 → (status = "succeeded" → ∃ a, Recorded (id_of job) a ∈ bw_log w0) →
  worker (finish job status logs error path sha size code metadata) [id_of job] (settles (id_of job)) w0.
Proof.
  intros Hc Hs. apply owned_atomic. intros i w r Hw Hg Hr. destruct (wi_db_fails i).
  { split_and!; [done|reflexivity|]. exists [id_of job]. split; [done|by left]. }
  unfold finish_build_job. set (m := Some (metadata (wi_peaks i))).
  destruct (validate_finish status logs error path sha size code m) as [f|e] eqn:Hv; cbn [fst snd is_ok].
  2:{ rewrite same_table. split_and!; [done|reflexivity|]. exists [id_of job]. split; [done|by left]. }
  assert (id_of job ∈ held_in w) as Hin by (rewrite Hr; left).
  destruct (held_row _ _ Hw Hin) as (row & Hrow & Hrun & Hid & Hrem).
  destruct (validate_finish_status _ _ _ _ _ _ _ _ _ Hv) as [Hst Hterm].
  destruct (work_step_log w (finish_statement (id_of job) f (wi_now i) (bw_jobs w)) (Finished (id_of job) status))
    as [Hok Hev]; [done|by eapply step_finish| | |].
  - split; [exists job; split; [by eapply known|done]|]. intros Hsucc. destruct (Hs Hsucc) as [a Ha].
    exists a. by eapply known.
  - exists (finish_row f (wi_now i) row). split; [by apply finish_statement_lookup|].
    apply finish_row_status. by rewrite Hst.
  - split_and!; [done|done|]. exists []. split.
    + rewrite held_log. apply release_held; [apply (pool_nodup _ (wk_pool _ Hw))|done].
    + assert (Finished (id_of job) status ∈ bw_log w ++ [Finished (id_of job) status]) as Hf
        by (apply elem_of_app; right; by left).
      destruct (get_build_job _ _); cbn; eauto.
Qed.

Lemma worker_claim w0 :
  worker claim [] (λ r o w, match r with
                            | Ok (Some job) => o = [id_of job] ∧ Claimed job ∈ bw_log w
                            | Ok None => o = []
                            | Err _ => True
                            end) w0.
Proof.
  apply owned_atomic. intros i w r Hw Hg Hr. destruct (wi_db_fails i).
  { split_and!; [done|reflexivity|]. by exists []. }
  unfold claim_next_build_job. destruct (claim_statement (wi_now i) (bw_jobs w)) as [[row|] d] eqn:Hc; cbn [fst].
  2:{ unfold claim_statement in Hc. case_match; simplify_eq. cbn. rewrite same_table.
      split_and!; [done|reflexivity|]. by exists []. }
  assert (left_queue (job_id row) d) as Hq.
  { unfold claim_statement in Hc. case_match; simplify_eq. eexists.
    split; [apply (lookup_insert_eq (jobs (bw_jobs w)))|done]. }
  pose proof (λ h, step_claim (wi_now i) (bw_jobs w) h row d Hc) as Hstep.
  destruct (try_from_row row) as [job|e] eqn:Hj; cbn [fst snd rbind].
  - assert (id_of job = job_id row) as Hid.
    { unfold try_from_row in Hj. apply rbind_Ok in Hj as (? & _ & Hj). apply rbind_Ok in Hj as (? & _ & [= <-]). done. }
    destruct (work_step_log w d (Claimed job)) as [Hok Hev]; [done| |done|by rewrite Hid|].
    { cbn. rewrite Hid. apply Hstep. }
    split_and!; [done|done|]. exists [id_of job]. split; [by rewrite held_log, <- Hr|].
    split; [done|]. apply elem_of_app. right. by left.
  - destruct (work_step_log w d (Unreadable (job_id row))) as [Hok Hev]; [done|apply Hstep|done|done|].
    split_and!; [done|done|]. exists [job_id row]. split; [|done]. rewrite held_log. cbn. by rewrite <- Hr.
Qed.

Lemma fail_running_finished id reason now d :
  jobs_ok d → left_queue id d → finished id (fail_running_build_job_after_worker_error id reason now d).2.
Proof.
  intros Hok (row & Hr & Hq). unfold fail_running_build_job_after_worker_error.
  destruct (update_where _ _ d) as [n d'] eqn:Hu. apply (f_equal snd) in Hu. cbn [snd] in Hu |- *.
  subst d'. unfold finished. rewrite update_where_lookup, Hr. cbn. eexists. split; [done|].
  destruct (jobs_ids _ Hok _ _ Hr) as [-> _]. rewrite Z.eqb_refl. unfold is_running. cbn.
  case_bool_decide as Hrun; [done|]. pose proof (jobs_status _ Hok _ _ Hr) as Hs.
  apply terminal_status_cases. unfold ALLOWED_BUILD_STATES in Hs. set_solver.
Qed.

Lemma worker_recover rounds failures job o w0 :
  work_ok w0 → Claimed job ∈ bw_log w0 →
  o = [id_of job] ∨ (o = [] ∧ ∃ status, Finished (id_of job) status ∈ bw_log w0) →
  worker (recover_failed_job_execution rounds failures (id_of job)) o
    (λ r _ w, r = Ok true → RecoveredJob (id_of job) ∈ bw_log w) w0.
Proof.
  revert failures w0. induction rounds as [|rounds IH]; intros failures w0 Hw0 Hc Ho; [by intros [=]|].
  cbn [recover_failed_job_execution].
  eapply (owned_seq _ _ _ _ _ _
    (λ r o' w, match r with Ok _ => RecoveredJob (id_of job) ∈ bw_log w | Err _ => o' = o end)); [done| |].
  - apply owned_atomic. intros i w r Hw Hg Hr. destruct (wi_db_fails i).
    { split_and!; [done|reflexivity|]. by exists o. }
    destruct (fail_running_build_job_after_worker_error (id_of job) RECOVERY_REASON (wi_now i) (bw_jobs w))
      as [b d] eqn:Hf. cbn [fst snd].
    assert (d = (fail_running_build_job_after_worker_error (id_of job) RECOVERY_REASON (wi_now i) (bw_jobs w)).2)
      as -> by by rewrite Hf.
    assert (Claimed job ∈ bw_log w) as Hcw by by eapply known.
    destruct (work_step_log w _ (RecoveredJob (id_of job)) Hw
                (step_fail (id_of job) RECOVERY_REASON (wi_now i) (bw_jobs w) (held_in w))) as [Hok Hev].
    + by exists job.
    + apply fail_running_finished; [apply (pool_jobs _ (wk_pool _ Hw))|by apply wk_claimed].
    + split_and!; [done|done|]. exists []. split; [|by apply elem_of_app; right; left].
      rewrite held_log. cbn [hold app]. pose proof (pool_nodup _ (wk_pool _ Hw)) as Hnd.
      destruct Ho as [->|[-> [status Hfin]]]; [by apply release_held|].
      etrans; [apply release_other; [exact Hnd|]|exact Hr]. intros Hin.
      exact (running_unfinished _ w Hw Hin (wk_finished _ Hw _ _ (known _ _ _ Hg Hfin))).
  - intros [b|e] o' w Hw Hg Hr; cbv beta iota zeta; [by intros _|]. subst o'. unfold try_bind, pause.
    eapply worker_bind; [done|eapply owned_mono; [|by apply worker_note]|].
    + intros r o' w' (Ho' & Hr' & _). exact (conj Ho' Hr').
    + intros a w' Hw' Hg' Ha. cbn beta in Ha. subst a. apply IH; [done|by eapply known; [|eapply known]|].
      destruct Ho as [Ho|[Ho [status Hf]]]; [by left|right]. split; [done|]. exists status.
      by eapply known; [|eapply known].
Qed.

(** An action that logs a plain effect when its answer is good. *)
Lemma worker_logged {A} act (f : WorkInput → A) (e : A → option Effect) o w0 :
  (∀ i w, act i w = (f i, match e (f i) with Some x => log x w | None => w end)) →
  (∀ a x, e a = Some x → plain x ∧ justified (bw_log w0) x) →
  worker (atomic act) o (λ a o' w, o' = o ∧ ∀ x, e a = Some x → x ∈ bw_log w) w0.
Proof.
  intros Hact He. apply owned_atomic. intros i w r Hw Hg Hr. rewrite Hact. cbn [fst snd].
  destruct (e (f i)) as [x|] eqn:Hx.
  - destruct (He _ _ Hx) as [Hp Hj]. destruct (work_log x w) as [H1 H2]; [done|done| |].
    { eapply justified_mono; [exact Hj|]. intros e' He'. by eapply known. }
    split_and!; [done|done|]. exists o. split; [by rewrite held_plain|]. split; [done|].
    intros y [= <-]. apply elem_of_app. right. by left.
  - split_and!; [done|reflexivity|]. by exists o.
Qed.

Lemma worker_record job artifact_type a w0 :
  work_ok w0 → justified (bw_log w0) (Recorded (id_of job) a) →
  worker (record_cached_artifact config job artifact_type a) [id_of job]
    (keeps (id_of job) (λ _ w, Recorded (id_of job) a ∈ bw_log w)) w0.
Proof.
  intros Hw0 Hj. eapply worker_try; [done| | |by intros e w].
  - apply owned_atomic. intros i w r Hw Hg Hr. destruct (wi_db_fails i).
    { split_and!; [done|reflexivity|]. by exists [id_of job]. }
    destruct (upsert_cache_artifact _ _ _ _) as [[x|x] c]; cbn [fst snd];
      destruct (work_inventory c w Hw) as [Hi Hgi].
    + destruct (work_log (Recorded (id_of job) a) (set_inventory c w)) as [H1 H2]; [done|done| |].
      { eapply justified_mono; [exact Hj|]. intros e' He'. exact (known _ _ _ Hgi (known _ _ _ Hg He')). }
      split_and!; [done|by etrans|]. exists [id_of job]. split; [by rewrite held_plain|]. split; [done|].
      instantiate (1 := λ _ w, Recorded (id_of job) a ∈ bw_log w). apply elem_of_app. right. by left.
    + split_and!; [done|done|]. by exists [id_of job].
  - intros [] w Hw Hg Hr. apply owned_atomic. intros i w' r Hw' Hg' Hr'. cbn [fst snd].
    destruct (work_inventory (foldl (λ c id, delete_cache_artifact id c) (bw_inventory w') (wi_evicted i)) w' Hw')
      as [Hi Hgi].
    split_and!; [done|done|]. exists [id_of job]. split; [done|]. split; [done|].
    destruct (wi_retention i); [|done]. exact (known _ _ _ Hgi (known _ _ _ Hg' Hr)).
Qed.

(** Neither the capacity nor the admission can panic. *)
Lemma build_capacity_steady sources : build_capacity sources ≠ Err Crashed.
Proof.
  unfold build_capacity, read_cgroup_limit, in_context, needed, ok_or, refuse.
  repeat (case_match; cbn; try done); intros [=].
Qed.
Lemma admit_steady c spec detected : admit_build_target c spec detected ≠ Err Crashed.
Proof.
  unfold admit_build_target, in_context, needed, ok_or, refuse.
  repeat (case_match; cbn; try done); intros [=].
Qed.

(** ** One job *)

Section Job.
Context (job : BuildJob) (spec : BuildSpec) (admitted : AdmittedTarget) (detected : option ReadyCommit).
Hypothesis Haccepted : accepted_at job spec admitted detected.
Notation jid := (id_of job).

Lemma settles_err {A} text w : settles (A:=A) jid (Err (Refused text)) [jid] w.
Proof. by left. Qed.
Hint Resolve settles_err : core.

Lemma worker_fail kind logs error code w0 :
  Claimed job ∈ bw_log w0 →
  worker (fail_admitted config job admitted detected kind logs error code) [jid] (settles jid) w0.
Proof. intros Hc. by apply worker_finish. Qed.

Lemma worker_progress_then {B} percent stage message (k : task (result SpecError B)) w0 :
  work_ok w0 → (∀ w, work_ok w → work_evolves w0 w → worker k [jid] (settles jid) w) →
  worker (progress job percent stage message ;;? k) [jid] (settles jid) w0.
Proof. intros Hw Hk. eapply worker_try; [done|apply worker_progress_keeps| |auto]. intros. by apply Hk. Qed.

Lemma worker_look_then {A B} (f : WorkInput → A) (k : A → task (result SpecError B)) w0 :
  work_ok w0 → (∀ a w, work_ok w → work_evolves w0 w → worker (k a) [jid] (settles jid) w) →
  worker (try_bind (look f) k) [jid] (settles jid) w0.
Proof. intros Hw Hk. eapply worker_try; [done|apply worker_look| |auto]. intros. by apply Hk. Qed.

Lemma worker_observe_then {A B} (f : WorkInput → A) (k : A → task (result SpecError B)) w0 :
  work_ok w0 → (∀ a w, work_ok w → work_evolves w0 w → worker (k a) [jid] (settles jid) w) →
  worker (read_input f ≫= k) [jid] (settles jid) w0.
Proof. intros Hw Hk. eapply worker_bind; [done|apply worker_read|]. intros. by apply Hk. Qed.

(** Recording the artifact, then the success. *)
Lemma worker_publish artifact_type a logs path sha size code metadata w0 :
  work_ok w0 → Claimed job ∈ bw_log w0 → justified (bw_log w0) (Recorded jid a) →
  worker (record_cached_artifact config job artifact_type a ;;?
          finish job "succeeded" logs "" path sha size code metadata) [jid] (settles jid) w0.
Proof.
  intros Hw Hc Hj. eapply worker_try; [done|by apply worker_record| |auto].
  intros [] w Hw' Hg Ha. cbn beta in Ha. apply worker_finish; [exact (known _ _ _ Hg Hc)|]. eauto.
Qed.

Lemma worker_replica source w0 :
  work_ok w0 → Claimed job ∈ bw_log w0 → bs_closure_source spec = Some source →
  worker (execute_replica_copy config job spec admitted detected source) [jid] (settles jid) w0.
Proof.
  intros Hw Hc Hs. unfold execute_replica_copy. apply worker_progress_then; [done|]. intros w1 Hw1 Hg1.
  eapply worker_bind; [done|eapply (worker_logged _ wi_imported
    (λ r, if is_ok r then Some (Mirrored job spec source) else None))|].
  { intros i w. by destruct (is_ok (wi_imported i)). }
  { intros a x Hx. destruct (is_ok a); simplify_eq. split; [done|]. split; [exact (known _ _ _ Hg1 Hc)|]. split; [done|].
    by exists admitted, detected. }
  intros imported w2 Hw2 Hg2 Hm. assert (work_evolves w0 w2) as Hg02 by by etrans.
  destruct imported as [[cached summary]|e]; [|exact (worker_fail _ _ _ _ _ (known _ _ _ Hg02 Hc))].
  specialize (Hm _ eq_refl). case_match; [apply worker_finish; [exact (known _ _ _ Hg02 Hc)|done]|].
  apply worker_progress_then; [done|]. intros w3 Hw3 Hg3. apply worker_look_then; [done|]. intros inv w4 Hw4 Hg4.
  apply worker_look_then; [done|]. intros peaks w5 Hw5 Hg5. apply worker_progress_then; [done|]. intros w6 Hw6 Hg6.
  assert (work_evolves w2 w6) as Hg26 by (do 3 (etrans; [eassumption|]); done).
  apply worker_publish; [done|exact (known _ _ _ Hg26 (known _ _ _ Hg02 Hc))|]. right. exists job, spec, source.
  split; [done|]. exact (known _ _ _ Hg26 Hm).
Qed.

(** The source policy was checked, or the job is finished. *)
Definition cleared (r : result SpecError bool) (o : list Z) (w : BuildWorld) : Prop :=
  match r with
  | Ok true => o = [jid] ∧ ∃ profile,
      for_build (at_nixpkgs_commit admitted) (rdy_profile <$> detected) = Some profile ∧
      Preflighted jid profile [] ∈ bw_log w
  | _ => settles jid r o w
  end.

Lemma worker_stop (p : task (result SpecError unit)) w0 :
  work_ok w0 → worker p [jid] (settles jid) w0 → worker (p ;;? Ret (Ok false)) [jid] cleared w0.
Proof.
  intros Hw Hp. apply owned_bind. eapply owned_mono; [|exact Hp]. intros [a|e] o w Hs; exact Hs.
Qed.

Lemma worker_policy w0 :
  work_ok w0 → Claimed job ∈ bw_log w0 →
  worker (check_source_policy config job admitted detected) [jid] cleared w0.
Proof.
  intros Hw Hc. unfold check_source_policy.
  eapply worker_try; [done|apply worker_progress_keeps| |intros e w; exact (settles_err (A:=bool) e w)].
  intros _ w1 Hw1 Hg1 _. assert (Claimed job ∈ bw_log w1) as Hc1 by exact (known _ _ _ Hg1 Hc).
  destruct (for_build _ _) as [profile|] eqn:Hf; [|apply worker_stop; [done|by apply worker_fail]].
  eapply worker_bind; [done|eapply (worker_logged _ wi_preflight
    (λ r, match r with Ok offenders => Some (Preflighted jid profile offenders) | Err _ => None end))|].
  { intros i w. by destruct (wi_preflight i). }
  { intros a x Hx. destruct a; simplify_eq. done. }
  intros checked w2 Hw2 Hg2 Hl. assert (Claimed job ∈ bw_log w2) as Hc2 by exact (known _ _ _ Hg2 Hc1).
  destruct checked as [[|offender offenders]|e].
  - cbn. split; [done|]. exists profile. split; [done|]. by apply Hl.
  - apply worker_stop; [done|]. by apply worker_finish.
  - apply worker_stop; [done|]. by apply worker_fail.
Qed.

Lemma supervise_eq rounds started last :
  supervise config job (S rounds) started last =
  (cancelled ← cancel_requested job;
   if cancelled : bool then Ret (Ok (Some Cancelled)) else
   seen ← atomic (λ i w, ((bw_clock w - started, wi_child i), w));
   if wc_timeout_seconds config * 1000 <=? seen.1 then Ret (Ok (Some TimedOut)) else
   match seen.2 with
   | Err e => Ret (refuse e)
   | Ok (Some status) =>
       let code := default (-1) (ch_code status) in
       Ret (Ok (Some (if ch_success status then Succeeded code else Failed code)))
   | Ok None =>
       last ← report_progress job last; sleep_millis 500 ≫= λ _, supervise config job rounds started last
   end).
Proof. reflexivity. Qed.

Lemma worker_report last w0 :
  work_ok w0 → worker (report_progress job last) [jid] (λ _ o _, o = [jid] ∧ True) w0.
Proof.
  intros Hw. unfold report_progress. eapply worker_bind; [done|apply worker_read|].
  intros [[due logs] update] w1 Hw1 _ _. destruct due; [|done]. cbn [negb].
  eapply (worker_bind _ _ _ (λ _ _, True)); [done| |].
  { eapply owned_mono; [|apply worker_query; intros; constructor]. intros r o w [-> _]. done. }
  intros _ w2 Hw2 _ _. destruct update as [[percent message]|]; [|done].
  case_bool_decide; [done|]. eapply (worker_bind _ _ _ (λ _ _, True)); [done| |].
  { eapply owned_mono; [|apply worker_progress_spec]. intros r o w [-> _]. done. }
  intros [] w3 Hw3 _ _; done.
Qed.

(** The supervision ends: after [k] rounds half a second each has passed. *)
Lemma worker_supervise_from rounds started last w0 :
  work_ok w0 → wc_timeout_seconds config * 1000 ≤ bw_clock w0 - started + 500 * Z.of_nat rounds →
  worker (supervise config job (S rounds) started last) [jid] (keeps jid (λ ended _, is_Some ended)) w0.
Proof.
  revert last w0. induction rounds as [|rounds IH]; intros last w0 Hw Ht.
  all: rewrite supervise_eq; eapply (worker_bind _ _ _ (λ _ _, True)); [done| |];
    [apply owned_atomic; intros i w r Hi Hg Hr; cbn; split_and!; [done|reflexivity|]; by exists [jid]|].
  all: intros [] w1 Hw1 Hg1 _; [by split|].
  all: eapply (worker_bind _ _ _ (λ seen w, seen.1 = bw_clock w - started)); [done| |];
    [apply owned_atomic; intros i w r Hi Hg Hr; cbn; split_and!; [done|reflexivity|]; by exists [jid]|].
  all: intros [elapsed child] w2 Hw2 Hg2 He; cbn [fst snd] in *; subst elapsed.
  all: assert (bw_clock w0 ≤ bw_clock w2) as Hmono by (etrans; [apply Hg1|apply Hg2]).
  all: destruct (Z.leb_spec (wc_timeout_seconds config * 1000) (bw_clock w2 - started)) as [|Hlt]; [by split|].
  - lia.
  - destruct child as [[status|]|e]; [by split| |by split].
    eapply worker_bind; [done|by apply worker_report|]. intros last' w3 Hw3 Hg3 _.
    eapply (worker_bind _ _ _ (λ _ w, bw_clock w3 + 500 ≤ bw_clock w)); [done| |].
    + apply owned_atomic. intros i w r Hi Hg Hr. cbn [fst snd].
      assert (bw_clock w3 ≤ bw_clock w) by apply Hg.
      destruct (work_clock (bw_clock w + 500 + Z.of_nat (wi_late i)) w) as [H1 H2]; [done|lia|].
      split_and!; [done|done|]. exists [jid]. split; [done|]. split; [done|]. cbn. lia.
    + intros [] w4 Hw4 Hg4 Hs. cbn beta in Hs. apply IH; [done|].
      assert (bw_clock w2 ≤ bw_clock w3) by apply Hg3. lia.
Qed.

Lemma worker_supervise started last w0 :
  work_ok w0 → started ≤ bw_clock w0 →
  worker (supervise config job (supervision_rounds config) started last) [jid] (keeps jid (λ ended _, is_Some ended)) w0.
Proof. intros Hw Hs. apply worker_supervise_from; [done|]. lia. Qed.

Lemma worker_build w0 :
  work_ok w0 → justified (bw_log w0) (Built job spec admitted) →
  worker (run_nix_build config job spec admitted) [jid]
    (keeps jid (λ outcome w, Built job spec admitted ∈ bw_log w ∧ BuildEnded jid outcome ∈ bw_log w)) w0.
Proof.
  intros Hw Hj. unfold run_nix_build.
  eapply (worker_try _ _ _ (λ _ w, Built job spec admitted ∈ bw_log w)); [done| | |done].
  { apply owned_bind. eapply owned_mono; [|eapply (worker_logged _ wi_spawned
      (λ r, if is_ok r then Some (Built job spec admitted) else None))].
    - intros [a|e] o w [-> Hl]; split; try done. by apply Hl.
    - intros i w. by destruct (is_ok (wi_spawned i)).
    - intros a x Hx. destruct (is_ok a); simplify_eq. done. }
  intros _ w0' Hw0' Hg0' Hb. cbn beta in Hb.
  eapply (worker_try _ _ _ (λ started w, started ≤ bw_clock w)); [done| | |done].
  { apply owned_atomic. intros i w r Hi Hg Hr. cbn. split_and!; [done|reflexivity|]. by exists [jid]. }
  intros started w1 Hw1 Hg1 Hst. cbn beta in Hst. apply (known _ _ _ Hg1) in Hb.
  eapply worker_try; [done|by apply worker_supervise| |done].
  intros [outcome|] w2 Hw2 Hg2 He2; [|by destruct He2]. clear He2. eapply worker_try; [done|apply worker_fallible, owned_read; [apply _|done]| |done].
  intros _ w3 Hw3 Hg3 _. eapply worker_try; [done|apply worker_look| |done]. intros logs w4 Hw4 Hg4 _.
  eapply (worker_try _ _ _ (λ _ _, True)); [done| | |done].
  { eapply owned_mono; [|apply worker_query; intros; constructor]. by intros [|[]] o w [-> ?]. }
  intros _ w5 Hw5 Hg5 _.
  eapply (worker_try _ _ _ (λ _ w, BuildEnded jid outcome ∈ bw_log w)); [done| | |done].
  { eapply owned_mono; [|by apply worker_note]. intros r o w (-> & -> & He). done. }
  intros [] w6 Hw6 Hg6 He. split; [done|]. split; [|done].
  do 5 (eapply known; [eassumption|]). done.
Qed.

Lemma worker_publish_build code logs w0 :
  work_ok w0 → Claimed job ∈ bw_log w0 → Built job spec admitted ∈ bw_log w0 →
  BuildEnded jid (Succeeded code) ∈ bw_log w0 →
  worker (publish_build config job spec admitted detected code logs) [jid] (settles jid) w0.
Proof.
  intros Hw Hc Hb He. unfold publish_build. apply worker_progress_then; [done|]. intros w1 Hw1 Hg1.
  apply worker_observe_then; [done|]. intros inspected w2 Hw2 Hg2. assert (work_evolves w0 w2) as Hg02 by by etrans.
  destruct inspected as [info|e]; [|exact (worker_fail _ _ _ _ _ (known _ _ _ Hg02 Hc))].
  case_match; [apply worker_finish; [exact (known _ _ _ Hg02 Hc)|done]|].
  apply worker_look_then; [done|]. intros inv w3 Hw3 Hg3. apply worker_progress_then; [done|]. intros w4 Hw4 Hg4.
  apply worker_observe_then; [done|]. intros exported w5 Hw5 Hg5.
  assert (work_evolves w0 w5) as Hg05 by (do 3 (etrans; [eassumption|]); done).
  destruct exported as [cached|e]; [|apply worker_finish; [exact (known _ _ _ Hg05 Hc)|done]].
  apply worker_look_then; [done|]. intros peaks w6 Hw6 Hg6. apply worker_progress_then; [done|]. intros w7 Hw7 Hg7.
  assert (work_evolves w0 w7) as Hg07 by (do 2 (etrans; [eassumption|]); done).
  apply worker_publish; [done|exact (known _ _ _ Hg07 Hc)|]. left. exists job, spec, admitted, code.
  split; [done|]. split; [exact (known _ _ _ Hg07 Hb)|exact (known _ _ _ Hg07 He)].
Qed.

Lemma worker_execute_build w0 :
  work_ok w0 → Claimed job ∈ bw_log w0 → detected_in (bw_log w0) job spec detected → bs_closure_source spec = None →
  worker (execute_build config job spec admitted detected) [jid] (settles jid) w0.
Proof.
  intros Hw Hc Hanswered Hs. unfold execute_build.
  eapply worker_try; [done|apply worker_fallible, owned_read; [apply _|done]| |auto]. intros _ w1 Hw1 Hg1 _.
  assert (Claimed job ∈ bw_log w1) as Hc1 by exact (known _ _ _ Hg1 Hc).
  unfold try_bind at 1. eapply owned_seq; [apply _|done| |].
  { instantiate (1 := λ r o w, match r with
      | Ok true => o = [jid] ∧ justified (bw_log w) (Built job spec admitted)
      | _ => settles jid r o w end).
    destruct (bs_allow_source_builds spec) eqn:Ha.
    - cbn. split; [done|]. split; [done|]. split; [done|]. exists detected. split; [done|]. split; [|by left].
      intros ready Hr. destruct (Hanswered ready Hr) as (commit & ? & ?). exists commit.
      split; [done|]. exact (known _ _ _ Hg1 ltac:(eassumption)).
    - eapply owned_mono; [|eapply owned_keep; [apply _|done|by apply worker_policy]].
      intros [[]|e] o w (Hw' & Hg & Hr); cbn in *; try done. destruct Hr as (-> & profile & Hf & Hp).
      split; [done|]. split; [exact (known _ _ _ Hg Hc1)|]. split; [done|]. exists detected. split; [done|].
      split; [|right; by exists profile]. intros ready Hr. destruct (Hanswered ready Hr) as (commit & ? & Hin).
      exists commit. split; [done|]. exact (known _ _ _ Hg (known _ _ _ Hg1 Hin)). }
  intros [[]|e] o w2 Hw2 Hg2 Hr; cbn [negb]; [|exact Hr|exact Hr]. destruct Hr as [-> Hj].
  apply worker_progress_then; [done|]. intros w3 Hw3 Hg3. apply worker_look_then; [done|]. intros before w4 Hw4 Hg4.
  eapply worker_try; [done|apply worker_build; [done|]| |auto].
  { eapply justified_mono; [exact Hj|]. intros e' He'. exact (known _ _ _ Hg4 (known _ _ _ Hg3 He')). }
  intros outcome w5 Hw5 Hg5 [Hb He]. apply worker_look_then; [done|]. intros after w6 Hw6 Hg6.
  apply worker_look_then; [done|]. intros logs w7 Hw7 Hg7.
  assert (work_evolves w5 w7) as Hg57 by by etrans.
  assert (Claimed job ∈ bw_log w7) as Hc7.
  { apply (known _ _ _ Hg57), (known _ _ _ Hg5), (known _ _ _ Hg4), (known _ _ _ Hg3), (known _ _ _ Hg2), Hc1. }
  destruct outcome as [code|code| |].
  - apply worker_publish_build; [done|done|exact (known _ _ _ Hg57 Hb)|exact (known _ _ _ Hg57 He)].
  - destruct (classify_nix_build_failure _ _). by apply worker_fail.
  - by apply worker_finish.
  - by apply worker_fail.
Qed.

Lemma worker_admitted w0 :
  work_ok w0 → Claimed job ∈ bw_log w0 → detected_in (bw_log w0) job spec detected →
  worker (execute_admitted config job spec admitted detected) [jid] (settles jid) w0.
Proof.
  intros Hw Hc Hanswered. unfold execute_admitted. apply worker_progress_then; [done|]. intros w1 Hw1 Hg1.
  apply worker_observe_then; [done|]. intros headroom w2 Hw2 Hg2.
  assert (Claimed job ∈ bw_log w2) as Hc2 by exact (known _ _ _ Hg2 (known _ _ _ Hg1 Hc)).
  destruct headroom; [|by apply worker_fail].
  eapply (worker_bind _ _ _ (λ r _, r ≠ Err Crashed)); [done| |].
  { apply owned_read; [apply _|]. intros i w _ _. split; [done|]. apply build_capacity_steady. }
  intros capacity w3 Hw3 Hg3 Hcap.
  assert (Claimed job ∈ bw_log w3) as Hc3 by exact (known _ _ _ Hg3 Hc2).
  destruct capacity as [capacity|[text|]]; [|by apply worker_fail|done].
  destruct (capacity_error config capacity) as [[kind error]|]; [by apply worker_fail|].
  apply worker_observe_then; [done|]. intros daemon w4 Hw4 Hg4.
  assert (Claimed job ∈ bw_log w4) as Hc4 by exact (known _ _ _ Hg4 Hc3).
  destruct daemon; [|by apply worker_fail].
  destruct (bs_closure_source spec) as [source|] eqn:Hs; [by apply worker_replica|].
  apply worker_execute_build; [done|done| |done]. intros ready Hr. destruct (Hanswered ready Hr) as (commit & ? & Hin).
  exists commit. split; [done|].
  exact (known _ _ _ Hg4 (known _ _ _ Hg3 (known _ _ _ Hg2 (known _ _ _ Hg1 Hin)))).
Qed.
End Job.

Lemma worker_ready job spec commit w0 :
  bs_nixpkgs_commit spec = Some commit →
  worker (ready_answer job commit) [id_of job]
    (keeps (id_of job) (λ detected w, detected_in (bw_log w) job spec detected)) w0.
Proof.
  intros Hcommit. apply owned_atomic. intros i w r Hw Hg Hr. cbn [fst snd].
  destruct (work_log (ReadyAnswered (id_of job) commit (wi_ready i commit)) w) as [H1 H2]; [done..|].
  split_and!; [done|done|]. exists [id_of job]. split; [by rewrite held_plain|]. split; [done|].
  intros ready Hready. exists commit. split; [done|]. rewrite Hready. apply elem_of_app. right. by left.
Qed.

(** ** The loop *)

(** What the execution leaves; it panics only where the specification cannot be read. *)
Definition executed (job : BuildJob) (r : result SpecError unit) (o : list Z) (w : BuildWorld) : Prop :=
  (r = Err Crashed ∧ validate_build_spec (wc_build config) job = Err Crashed) ∨ settles (id_of job) r o w.

Lemma worker_execute job w0 :
  work_ok w0 → Claimed job ∈ bw_log w0 →
  worker (execute_claimed_job config job) [id_of job] (executed job) w0.
Proof.
  intros Hw Hc. unfold execute_claimed_job, executed.
  destruct (validate_build_spec (wc_build config) job) as [spec|[text|]] eqn:Hv; [| |by left].
  2:{ eapply owned_mono; [|by apply worker_finish]. intros; by right. }
  eapply owned_mono; [intros; right; eassumption|].
  apply worker_progress_then; [done|]. intros w1 Hw1 Hg1.
  eapply (worker_try _ _ _ (λ detected w, detected_in (bw_log w) job spec detected)); [done| | |by left].
  { destruct (bs_build_input spec); [|by split]. destruct (bs_nixpkgs_commit spec) as [commit|] eqn:Hcommit; [|by split].
    apply worker_ready. done. }
  intros detected w2 Hw2 Hg2 Hanswered. cbn beta in Hanswered.
  assert (Claimed job ∈ bw_log w2) as Hc2 by exact (known _ _ _ Hg2 (known _ _ _ Hg1 Hc)).
  destruct (admit_build_target (wc_build config) spec (rdy_commit <$> detected)) as [admitted|[text|]] eqn:Ha.
  - by apply worker_admitted.
  - by apply worker_finish.
  - by destruct (admit_steady _ _ _ Ha).
Qed.

Lemma worker_sleep seconds o (r : option Z) w0 :
  work_ok w0 → worker (pause seconds ≫= λ _, Ret r) o (λ _ _ _, True) w0.
Proof.
  intros Hw. apply owned_bind. eapply owned_mono; [|by apply worker_note]. done.
Qed.

Lemma worker_turn_ok rounds failures o w0 :
  work_ok w0 → worker (worker_turn config rounds failures) o (λ _ _ _, True) w0.
Proof.
  intros Hw. rewrite <- (app_nil_l o). eapply owned_mono; [|apply owned_frame]; [done|].
  instantiate (1 := λ _ _ _, True). unfold worker_turn.
  eapply worker_bind; [done|apply worker_read|]. intros lease w1 Hw1 _ _.
  destruct lease; cbn [negb]; [|by apply worker_sleep].
  eapply worker_bind; [done|apply worker_read|]. intros memory w2 Hw2 _ _.
  destruct memory; cbn [negb]; [|by apply worker_sleep].
  eapply owned_seq; [apply _|done|apply worker_claim|].
  intros [[job|]|e] o' w3 Hw3 Hg3 Hr; [|by apply worker_sleep|by apply worker_sleep]. destruct Hr as [-> Hc].
  eapply owned_seq; [apply _|done|by apply worker_execute|]. intros executed o1 w4 Hw4 Hg4 Hex.
  assert (Claimed job ∈ bw_log w4) as Hc4 by exact (known _ _ _ Hg4 Hc).
  eapply (owned_seq _ _ _ _ _ _ (λ r o w, r = Ok true → justified (bw_log w) (TurnEnded (id_of job)))); [done| |].
  - destruct executed as [a|[text|]]; [| |by intros [=]].
    + intros _. destruct Hex as [[[=] _]|[_ Hf]]. by left.
    + eapply owned_mono; [|apply worker_recover; [done|done|]].
      * intros r o2 w Hr Heq. right. by apply Hr.
      * by destruct Hex as [[[=] _]|Hex].
  - intros [[]|] o2 w5 Hw5 Hg5 Hr; [|done|done]. apply owned_bind.
    eapply owned_mono; [|by apply worker_note; [|apply Hr]]. done.
Qed.

Lemma worker_loop_ok turns rounds failures o w0 :
  work_ok w0 → worker (worker_loop config turns rounds failures) o (λ _ _ _, True) w0.
Proof.
  revert failures o w0. induction turns as [|turns IH]; intros failures o w0 Hw; [done|].
  cbn [worker_loop]. eapply owned_seq; [apply _|done|by apply worker_turn_ok|].
  intros [n|] o' w Hw' _ _; [by apply IH|done].
Qed.

Lemma queue_task_ok op w0 : worker (queue_task op) [] (λ _ _ _, True) w0.
Proof.
  apply owned_bind. eapply owned_mono; [|apply worker_query]; [done|].
  intros now d h. destruct op; constructor.
Qed.

(** The start: a table in order, nothing held, and what was running failed. *)
Lemma start_ok fails now w :
  jobs_ok (bw_jobs w) → (∀ id, id ∈ remediated (bw_jobs w) → finished id (bw_jobs w)) → bw_log w = [] →
  work_ok (recover_at_start fails now w) ∧ work_evolves w (recover_at_start fails now w) ∧
  bw_log (recover_at_start fails now w) = [].
Proof.
  intros Hj Hr Hl.
  assert (held_in w = []) as Hh by (unfold held_in; by rewrite Hl).
  assert (work_ok w) as Hw.
  { constructor; rewrite ?Hl; [|done|by intros [] ? ?|intros *; by rewrite elem_of_nil..].
    unfold pool_of. rewrite Hh. constructor; cbn; [done|constructor|by intros ? ?%elem_of_nil]. }
  destruct fails; cbn; [by split_and!|].
  destruct (work_step w (recover_running_build_jobs
    "Nest restarted while this build was running; mark failed for explicit retry." now (bw_jobs w)).2) as [H1 H2];
    [done| |by split_and!].
  unfold pool_of. rewrite Hh. constructor.
Qed.

Definition worker_pool (ts : list (task unit)) : Prop :=
  ∀ p, p ∈ ts → ∃ turns rounds, p = worker_loop config turns rounds 0.
Definition queue_entry (p : task unit) : Prop := ∃ op, p = queue_task op.

Lemma workers_invariant fails now ts w ts' w' :
  jobs_ok (bw_jobs w) → (∀ id, id ∈ remediated (bw_jobs w) → finished id (bw_jobs w)) → bw_log w = [] →
  worker_pool ts → rtc (pstep queue_entry) (ts, recover_at_start fails now w) (ts', w') →
  work_ok w' ∧ work_evolves w w'.
Proof.
  intros Hj Hr Hl Hts Hsteps. destruct (start_ok fails now w Hj Hr Hl) as (Hok & Hev & Hlog).
  eapply (owned_pool_invariant work_ok work_evolves held_in) in Hsteps as [[Hok' _] Hev'].
  - split; [done|by etrans].
  - intros p w0 [op ->] _. apply queue_task_ok.
  - split; [done|]. exists (replicate (length ts) []), []. split.
    + apply Forall2_replicate_r; [done|]. apply Forall_forall. intros p Hp.
      destruct (Hts p Hp) as (turns & rounds & ->). eexists. split; [reflexivity|by apply worker_loop_ok].
    + unfold held_in. rewrite Hlog.
      assert (∀ n, concat (replicate n ([] : list Z)) = []) as -> by (intros n; by induction n). done.
Qed.
End Worker.
