(* ===== verification/BuildWorkerTheorems.v ===== *)
(** * The build worker: theorems

    What holds of every interleaving of workers and queue operations that begins with
    the recovery at a start, and a turn that builds a job. *)

From stdpp Require Import relations base gmap list strings pretty.
From Stdlib Require Import Ascii ZArith Lia.
From S2P Require Import Prelude Async RustStr Json DbText ProtectedText BuildJobs BuildJobsProofs ProtectedMaterial CacheArtifacts NarInfo BuildSpec BuildSpecProofs BuildProfile BuildWorker BuildWorkerProofs.

#[local] Open Scope Z_scope.
#[local] Open Scope nest_scope.

(** A profile for a build is one for the commit the build was admitted at. *)
Lemma for_build_commit commit detected profile :
  for_build commit detected = Some profile → commit = Some (wp_nixpkgs_commit profile).
Proof.
  unfold for_build. destruct commit as [c|]; [|done]. cbn. case_bool_decide; [by intros [= <-]; subst|].
  unfold filter_opt. destruct detected as [p|]; [|done]. cbn.
  destruct (_ && _) eqn:E; [|done]. intros [= <-]. bool_prop. congruence.
Qed.

Lemma for_build_source commit detected profile :
  for_build commit detected = Some profile → profile = builtin_profile ∨ detected = Some profile.
Proof.
  unfold for_build. destruct commit as [c|]; [|done]. cbn. case_bool_decide; [by intros [= <-]; left|].
  unfold filter_opt. destruct detected as [p|]; [|done]. cbn. destruct (_ && _); [|done]. intros [= <-]. by right.
Qed.

(** A task that runs alone in a pool of others. *)
Lemma run_alone {In W} (entry : prog In W unit → Prop) l r (p : prog In W unit) env n w :
  ∃ ts, rtc (pstep entry) (l ++ p :: r, w) (l ++ Ret tt :: r ++ ts, (run env n p w).1.2).
Proof.
  assert (∀ A (p : prog In W A) (HA : A = unit) r n w,
    ∃ ts, rtc (pstep entry) (l ++ eq_rect A (prog In W) p unit HA :: r, w)
                            (l ++ Ret tt :: r ++ ts, (run env n p w).1.2)) as H.
  { clear. intros A p. induction p as [A a|A X act k IH|A t _ k IH]; intros HA r n w; subst A; cbn.
    - destruct a. exists []. rewrite app_nil_r. apply rtc_refl.
    - destruct (act (env n) w) as [b w'] eqn:E. destruct (IH b eq_refl r (S n) w') as [ts Hts]. exists ts.
      eapply rtc_l; [apply (pstep_act entry l r X act _ (env n))|]. rewrite E. exact Hts.
    - destruct (IH eq_refl (r ++ [t]) n w) as [ts Hts]. exists (t :: ts).
      eapply rtc_l; [apply pstep_spawn|]. by rewrite <- app_assoc in Hts. }
  exact (H unit p eq_refl r n w).
Qed.

Section Theorems.
Context {serde : Serde} {screening : Screening} {build : BuildDeps} {protected : ProtectedDeps}
  {ed25519 : Ed25519} {deps : WorkerDeps} (config : WorkerConfig).

(** The end of a turn of a worker whose statements succeed. *)
Lemma recover_succeeds env n rounds failures id w :
  (∀ n, wi_db_fails (env n) = false) →
  ∃ w' m, run env n (recover_failed_job_execution (S rounds) failures id) w = (Ok true, w', m).
Proof.
  intros Hdb. cbn [recover_failed_job_execution]. rewrite run_bind. cbn. rewrite Hdb.
  destruct (fail_running_build_job_after_worker_error id RECOVERY_REASON (wi_now (env n)) (bw_jobs w)). cbn. eauto.
Qed.

(** Where a claimed job comes from. *)
Lemma claimed_row env n w job w' m :
  jobs_ok (bw_jobs w) → run env n claim w = (Ok (Some job), w', m) →
  ∃ id row, jobs (bw_jobs w) !! id = Some row ∧ job_inputs (bj_row job) = job_inputs row ∧
            from_str (ji_build_spec (job_inputs row)) = Some (bj_build_spec job).
Proof.
  intros Hok. cbn. destruct (wi_db_fails (env n)); [done|]. unfold claim_next_build_job.
  destruct (claim_statement _ _) as [[row|] d] eqn:Hc; [|done].
  destruct (claim_statement_Some _ _ _ _ Hok Hc) as (row0 & -> & Hr & _).
  destruct (try_from_row (claim_row (wi_now (env n)) row0)) as [j|] eqn:Hj; cbn; [|done]. intros [= <- _ _].
  exists (job_id row0), row0. split; [done|]. unfold try_from_row in Hj.
  apply rbind_Ok in Hj as (spec & Hspec & Hj). apply rbind_Ok in Hj as (? & _ & [= <-]). cbn. split; [done|].
  unfold metadata_from_db in Hspec. cbn in Hspec. destruct (from_str _) as [v|]; [|done].
  destruct (is_object v); by simplify_eq.
Qed.

Section Started.
Context (fails : bool) (now : string) (ts ts' : list (prog WorkInput BuildWorld unit)) (w w' : BuildWorld).
Hypothesis Hjobs : jobs_ok (bw_jobs w).
Hypothesis Hremediated : ∀ id, id ∈ remediated (bw_jobs w) → finished id (bw_jobs w).
Hypothesis Hlog : bw_log w = [].
Hypothesis Hworkers : worker_pool config ts.
Hypothesis Hsteps : rtc (pstep queue_entry) (ts, recover_at_start fails now w) (ts', w').

(** C11. The workers implement the queue.  Whatever the interleaving of any number of workers with
    each other and with operations on the queue, and whatever fails, the table and the jobs
    that are claimed and not finished evolve by steps of the transition system of the queue,
    in which a job is finished only by the worker that claimed it. *)
Theorem workers_refine_the_queue :
  rtc job_step {| pool_db := bw_jobs w; held := [] |} {| pool_db := bw_jobs w'; held := held_in w' |}.
Proof.
  destruct (workers_invariant config fails now ts w ts' w') as [_ [H _]]; [done..|].
  assert (held_in w = []) as Hh by (unfold held_in; by rewrite Hlog).
  unfold pool_of in H. by rewrite Hh in H.
Qed.

(** C16. When a worker has ended its turn on a job, the job is finished, however the turn
    went: an error that it could not record is recovered from, and nothing makes a finished
    job unfinished again. *)
Theorem turns_end_with_finished_jobs id :
  TurnEnded id ∈ bw_log w' → finished id (bw_jobs w').
Proof.
  intros Ht. destruct (workers_invariant config fails now ts w ts' w') as [Hok _]; [done..|].
  apply list_elem_of_split in Ht as (before & after & Hl).
  pose proof (wk_log _ _ Hok _ _ _ Hl) as [[status Hf]|Hr].
  - eapply (wk_finished _ _ Hok). rewrite Hl. apply elem_of_app. left. exact Hf.
  - eapply (wk_recovered _ _ Hok). rewrite Hl. apply elem_of_app. left. exact Hr.
Qed.

(** C9. No build starts unchecked.  When Nix is started for a job, the job was claimed before,
    its specification had been accepted and does not ask for a copy, the target is a
    configured one that matches, the nixpkgs commit is the target's pin or the commit that
    [ready_commit] had answered, for this job, when it was asked for the commit the specification
    names, and unless the specification allows builds from source, a profile for that very
    commit, the built-in one or the one of that answer, was found and the check of the binary cache
    under it had ended without a derivation that would be built from source. *)
Theorem no_build_starts_unchecked before job spec admitted after :
  bw_log w' = before ++ Built job spec admitted :: after →
  Claimed job ∈ before ∧ validate_build_spec (wc_build config) job = Ok spec ∧
  bs_closure_source spec = None ∧
  ∃ detected, reviewed (wc_build config) spec (rdy_commit <$> detected) admitted ∧
    (∀ ready, detected = Some ready → ∃ commit, bs_nixpkgs_commit spec = Some commit ∧
       ReadyAnswered (id_of job) commit (Some ready) ∈ before) ∧
    (bs_allow_source_builds spec = true ∨
     ∃ profile, at_nixpkgs_commit admitted = Some (wp_nixpkgs_commit profile) ∧
                (profile = builtin_profile ∨ rdy_profile <$> detected = Some profile) ∧
                Preflighted (id_of job) profile [] ∈ before).
Proof.
  intros Hl. destruct (workers_invariant config fails now ts w ts' w') as [Hok _]; [done..|].
  destruct (wk_log _ _ Hok _ _ _ Hl) as (Hc & Hs & detected & [Hv Ha] & Hans & Hp).
  split_and!; [done|done|done|]. exists detected. split_and!; [by apply admitted_is_reviewed|exact Hans|].
  destruct Hp as [?|(profile & Hf & Hp)]; [by left|right]. exists profile.
  split_and!; [by eapply for_build_commit|by eapply for_build_source|done].
Qed.

(** C10. Success is what was recorded.  When a job is reported as succeeded, an artifact had been
    recorded for it in the inventory before, and before that either its Nix build, which is
    covered by the checks above, had ended with success, or the closure it names had been
    mirrored from its approved source. *)
Theorem success_follows_publication before id after :
  bw_log w' = before ++ Finished id "succeeded" :: after →
  ∃ artifact earlier later, before = earlier ++ Recorded id artifact :: later ∧
    ((∃ job spec admitted code, id_of job = id ∧ Claimed job ∈ earlier ∧
        Built job spec admitted ∈ earlier ∧ BuildEnded id (Succeeded code) ∈ earlier) ∨
     (∃ job spec source, id_of job = id ∧ Mirrored job spec source ∈ earlier ∧
        validate_build_spec (wc_build config) job = Ok spec ∧ bs_closure_source spec = Some source)).
Proof.
  intros Hl. destruct (workers_invariant config fails now ts w ts' w') as [Hok _]; [done..|].
  pose proof (wk_log _ _ Hok) as Hlog'. destruct (Hlog' _ _ _ Hl) as [_ Hs].
  destruct (Hs eq_refl) as [artifact Ha]. apply list_elem_of_split in Ha as (earlier & later & Hb).
  exists artifact, earlier, later. split; [done|]. subst before. rewrite <- app_assoc in Hl. cbn in Hl.
  assert (∀ e, e ∈ earlier → ∃ b, (∀ x, x ∈ b → x ∈ earlier) ∧ justified config b e) as Hj.
  { intros e He. apply list_elem_of_split in He as (b & c & ->). exists b. split.
    - intros x Hx. apply elem_of_app. by left.
    - eapply Hlog'. rewrite <- app_assoc in Hl. exact Hl. }
  destruct (Hlog' _ _ _ Hl) as [(job & spec & admitted & code & Hid & Hbuilt & He)|(job & spec & source & Hid & Hm)].
  - left. exists job, spec, admitted, code. destruct (Hj _ Hbuilt) as (b & Hsub & Hc & _). auto.
  - right. exists job, spec, source. destruct (Hj _ Hm) as (b & _ & _ & Hsrc & ? & ? & Hv & _). auto.
Qed.
End Started.

(** C17. A turn comes to its end.  The supervision of a build polls the child until it ends, is
    cancelled, or the timeout of the configuration has passed; a round sleeps half a second of the
    clock, or longer.  So a worker whose database answers ends its turn and goes on to its next
    one, however long the child runs and whatever the answers from outside are, unless the
    screening of a stored specification panics.  Each single answer from outside (a subprocess that
    the code bounds by a timeout of its own, a file, the network) is taken to arrive. *)
Theorem turns_complete env n rounds failures w :
  (∀ n, wi_db_fails (env n) = false) →
  (∀ id row job, jobs (bw_jobs w) !! id = Some row → job_inputs (bj_row job) = job_inputs row →
     from_str (ji_build_spec (job_inputs row)) = Some (bj_build_spec job) →
     validate_build_spec (wc_build config) job ≠ Err Crashed) →
  work_ok config w →
  is_Some (run env n (worker_turn config (S rounds) failures) w).1.1.
Proof.
  intros Hdb Hv Hw. unfold worker_turn. rewrite run_bind. cbn [run read_input atomic].
  destruct (wi_lease (env n)); cbn [negb]; [|by rewrite run_bind].
  rewrite run_bind. cbn [run read_input atomic]. destruct (wi_memory _); cbn [negb]; [|by rewrite run_bind].
  rewrite run_bind.
  destruct (owned_run _ _ _ claim [] (held_in w) _ env (S (S n)) w Hw (reflexivity _) (worker_claim config w))
    as (claimed & w1 & m & Heq & Hw1 & _ & o & Hr & Hclaim). rewrite Heq.
  destruct claimed as [[job|]|e]; [|by rewrite run_bind|by rewrite run_bind]. destruct Hclaim as [-> Hc].
  rewrite run_bind.
  destruct (owned_run _ _ _ _ _ _ _ env m w1 Hw1 Hr (worker_execute config job w1 Hw1 Hc))
    as (executed & w2 & m2 & Heq2 & Hw2 & _ & o2 & _ & Hex). rewrite Heq2.
  rewrite run_bind. destruct executed as [[]|[text|]]; cbn [run].
  - by rewrite run_bind.
  - destruct (recover_succeeds env m2 rounds 0 (id_of job) w2 Hdb) as (w3 & m3 & ->). by rewrite run_bind.
  - destruct Hex as [[_ Hcrash]|[]].
    destruct (claimed_row _ _ _ _ _ _ (pool_jobs _ (wk_pool _ _ Hw)) Heq) as (id & row & H1 & H2 & H3).
    by destruct (Hv id row job H1 H2 H3).
Qed.
End Theorems.

(** ** Builds: an example

    An installer target that is accepted, a queue with one job, and a worker that builds
    it; the theorems on specifications and workers are applied to them.  The codecs are
    small ones that satisfy what is asked of the real ones. *)

Module BuildDemo.

(** ** JSON texts *)

Definition backslash : ascii := "092".
Fixpoint escape (s : string) : string :=
  match s with
  | EmptyString => ""
  | String a s => if Ascii.eqb a dquote || Ascii.eqb a backslash
                  then String backslash (String a (escape s)) else String a (escape s)
  end.
Definition quote (s : string) : string := String dquote (escape s +:+ String dquote "").

Definition number (n : Number) : string :=
  match n with PosInt z | NegInt z => show z | Float bits => show bits +:+ "e0" end.

Definition digest : string := "aaaaaaaaaaaaaaaaaaaaaaaaaaaaaaaaaaaaaaaaaaaaaaaaaaaaaaaaaaaaaaaa".

#[local] Instance demo_protected : ProtectedDeps := {|
  url_parse _ := None;
  json_string_from_str s := v ← strip_prefix (String dquote "") s; strip_suffix (String dquote "") v;
  json_string := quote;
  uuid_hyphenated s := Some s;
  sha256_hex_of _ := digest |}.
#[local] Instance demo_keys : Ed25519 := {|
  base64_decode _ := None; base64_encode _ := ""; verifying_key_from_bytes := Some; is_weak _ := false;
  signature_from_slice := Some; verify_strict _ _ _ := true; sign _ _ := [] |}.
#[local] Instance demo_worker : WorkerDeps := {| url_encode s := s |}.
#[local] Instance demo_screening : Screening := {|
  redact_sensitive_key_values s := s; BuildJobs.validate_build_spec _ := None;
  BuildJobs.validate_cache_metadata _ := None |}.

Lemma escape_delimited s t r r' :
  escape s +:+ String dquote r = escape t +:+ String dquote r' → s = t ∧ r = r'.
Proof.
  revert t. induction s as [|a s IH]; intros [|b t]; cbn [escape].
  - intros H. change (String dquote r = String dquote r') in H. by simplify_eq.
  - destruct (Ascii.eqb b dquote) eqn:Hb; cbn [orb]; [done|].
    destruct (Ascii.eqb b backslash); [done|]. rewrite str_app_cons. intros H. injection H as H _.
    apply Ascii.eqb_neq in Hb. congruence.
  - destruct (Ascii.eqb a dquote) eqn:Ha; cbn [orb]; [done|].
    destruct (Ascii.eqb a backslash); [done|]. rewrite str_app_cons. intros H. injection H as H _.
    apply Ascii.eqb_neq in Ha. congruence.
  - destruct (Ascii.eqb a dquote || Ascii.eqb a backslash) eqn:Ha,
      (Ascii.eqb b dquote || Ascii.eqb b backslash) eqn:Hb; rewrite !str_app_cons; intros H.
    + injection H as -> H. apply IH in H as [-> ->]. done.
    + injection H as H _. apply orb_false_iff in Hb as [_ Hb]. apply Ascii.eqb_neq in Hb. congruence.
    + injection H as H _. apply orb_false_iff in Ha as [_ Ha]. apply Ascii.eqb_neq in Ha. congruence.
    + injection H as -> H. apply IH in H as [-> ->]. done.
Qed.

Lemma show_bytes z : all_bytes number_byte (show z) = true ∧ show z ≠ "".
Proof.
  assert (∀ x, 0 ≤ x → all_bytes number_byte (show x) = true ∧ show x ≠ "") as Hpos.
  { intros x Hx. destruct (show_digits x Hx) as [H1 H2]. split; [|done].
    rewrite all_bytes_forall in *. intros a Ha. unfold number_byte. by rewrite (H1 a Ha). }
  destruct (Z.leb_spec 0 z) as [Hz|Hz]; [by apply Hpos|].
  destruct z as [|p|p]; [done|done|].
  change (show (Z.neg p)) with ("-" +:+ show (Z.pos p)). rewrite all_bytes_app.
  destruct (Hpos (Z.pos p)) as [-> _]; [done|]. done.
Qed.

Lemma show_no_e z : all_bytes (λ a, negb (Ascii.eqb a "e")) (show z) = true.
Proof.
  assert (∀ x, 0 ≤ x → all_bytes (λ a, negb (Ascii.eqb a "e")) (show x) = true) as Hpos.
  { intros x Hx. destruct (show_digits x Hx) as [H1 _]. rewrite all_bytes_forall in *.
    intros a Ha. specialize (H1 a Ha). by destruct (Ascii.eqb_spec a "e") as [->|]. }
  destruct (Z.leb_spec 0 z) as [Hz|Hz]; [by apply Hpos|].
  destruct z as [|p|p]; [done|done|].
  change (show (Z.neg p)) with ("-" +:+ show (Z.pos p)). by rewrite all_bytes_app, (Hpos (Z.pos p)).
Qed.

Lemma show_inj x y : show x = show y → x = y.
Proof. apply (inj (pretty : Z → string)). Qed.

Lemma float_apart z bits : show z ≠ show bits +:+ "e0".
Proof. intros H. pose proof (show_no_e z) as He. by rewrite H, all_bytes_app, andb_false_r in He. Qed.

(** ** An installer target *)

Definition module : string := "{ ... }:" +:+ nl +:+ "{" +:+ nl +:+ "}" +:+ nl.
Definition commit : string := BUILTIN_NIXPKGS_COMMIT.

Definition state : Value := Object
  [("checks", Array
      [Object [("expected", Object [("accounts", Array [])]);
               ("id", Str "identity.local-account.inventory");
               ("kind", Str "local-account-inventory")]]);
   ("compiler_version", Num (PosInt 2));
   ("deployment", Object [("artifact_config_hash", Str digest); ("blueprint_revision_id", Str "r1")]);
   ("schema", Str "tiaris.blueprint.expected-state.v2")].

Definition cohort : Value := Object
  [("blueprint_id", Str "b1"); ("blueprint_revision_config_hash", Str digest);
   ("blueprint_revision_id", Str "r1"); ("expected_state_sha256", Str digest);
   ("generated_nix_sha256", Str digest); ("hardware_driver_policy", Str "auto");
   ("hardware_module_sha256", Str digest); ("manage_source_revision", Str commit);
   ("nixpkgs_revision", Str commit); ("schema", Str INSTALLER_TARGET_BUILD_SCHEMA_V3);
   ("source_lock_sha256", Str digest); ("target_module_sha256", Str digest)].

Definition input : BlueprintBuildInput := {|
  bi_kind := INSTALLER_TARGET_BUILD_INPUT_KIND; bi_generated_nix := module; bi_desktop_module_nix := None;
  bi_expected_state := Some state; bi_blueprint_name := Some "Desk"; bi_blueprint_revision := Some 3;
  bi_hardware_module_nix := Some "{ hardware.enable = true; }"; bi_target_module_nix := Some "{ boot = { }; }";
  bi_manage_source_revision := Some commit; bi_installer_target := Some cohort; bi_wallpaper_asset := None |}.

Definition raw_input : Value := Object
  [("expected_state", state); ("generated_nix", Str module);
   ("hardware_module_nix", Str "{ hardware.enable = true; }"); ("installer_target", cohort);
   ("kind", Str INSTALLER_TARGET_BUILD_INPUT_KIND); ("manage_source_revision", Str commit);
   ("target_module_nix", Str "{ boot = { }; }")].

Definition installer_document : Value := Object
  [("artifact_type", Str "nixos_closure"); ("blueprint_id", Str "b1");
   ("blueprint_revision_config_hash", Str digest); ("blueprint_revision_id", Str "r1");
   ("build_input", raw_input); ("input_config_hash", Str digest); ("input_revision", Str "r1");
   ("nixpkgs_commit", Str commit); ("schema_version", Num (PosInt 1));
   ("source_lock_sha256", Str digest); ("system", Str "x86_64-linux"); ("target", Str "installer_target")].

Definition spec_with (target : string) (input : option BlueprintBuildInput) (commit lock : option string)
    (id revision hash : option string) : BuildSpec := {|
  bs_schema_version := 1; bs_artifact_type := "nixos_closure"; bs_target := target;
  bs_system := "x86_64-linux"; bs_input_revision := "r1"; bs_input_config_hash := digest;
  bs_blueprint_id := id; bs_blueprint_revision_id := revision; bs_blueprint_revision_config_hash := hash;
  bs_nixpkgs_commit := commit; bs_source_lock_sha256 := lock; bs_software_package_refs := [];
  bs_build_input := input; bs_allow_source_builds := false; bs_closure_source := None |}.
Definition installer_spec : BuildSpec :=
  spec_with "installer_target" (Some input) (Some commit) (Some digest) (Some "b1") (Some "r1") (Some digest).
Definition plain_spec : BuildSpec := spec_with "workstation" None None None None None None.

#[local] Instance demo_build : BuildDeps := {|
  decode_build_spec v := Some (match get "build_input" v with Some _ => installer_spec | None => plain_spec end);
  parse_source_url _ := None;
  number_text := number |}.

#[local] Instance demo_laws : JsonLaws.
Proof.
  constructor.
  - intros [n|n|n]; cbn [number_text demo_build number]; try apply show_bytes.
    destruct (show_bytes n) as [Hb Hne]. rewrite all_bytes_app, Hb. split; [done|].
    by destruct (show n).
  - intros n m Hn Hm. cbn [number_text demo_build number]. inversion Hn; inversion Hm; subst; intros H.
    all: cbn [number] in H.
    all: first [ apply show_inj in H; subst; first [done|lia]
               | by destruct (float_apart _ _ H)
               | by destruct (float_apart _ _ (eq_sym H)) | idtac ].
    pose proof (proj2 (strip_suffix_Some "e0" _ _) (eq_refl (show n0 +:+ "e0"))) as H1.
    rewrite H in H1. rewrite (proj2 (strip_suffix_Some "e0" _ _) eq_refl) in H1.
    injection H1 as H1. by apply show_inj in H1 as ->.
  - intros s. by eexists.
  - intros s t r r'. cbn [json_string demo_protected]. unfold quote. rewrite !str_app_cons, !str_app_assoc.
    intros H. injection H as H. change (escape s +:+ String dquote r = escape t +:+ String dquote r') in H.
    by apply escape_delimited.
Qed.

Definition plain_document : Value := Object
  [("artifact_type", Str "nixos_closure"); ("input_config_hash", Str digest); ("input_revision", Str "r1");
   ("schema_version", Num (PosInt 1)); ("system", Str "x86_64-linux"); ("target", Str "workstation")].

#[local] Instance demo_serde : Serde := {|
  to_string _ := "{}";
  from_str s := if bool_decide (s = "damaged") then None
                else Some (if bool_decide (s = "spec") then plain_document else Object []) |}.

Definition stored (document target status : string) : BuildJobRow := {|
  job_id := 1; job_managed_id := Some "m1";
  job_inputs := {| ji_requested_artifact_type := "nixos_closure"; ji_build_spec := document; ji_target := target;
                   ji_system := "x86_64-linux"; ji_input_revision := "r1"; ji_input_config_hash := digest |};
  job_status := status; job_progress := queued_progress; job_logs := ""; job_error := "";
  job_rejection_code := ""; job_output := no_output; job_cache_metadata := "{}"; job_started_at := None;
  job_completed_at := None; job_cancel_requested_at := None; job_created_at := "t0"; job_updated_at := "t0" |}.

Definition row : string → string → BuildJobRow := stored "spec".

Definition installer_job : BuildJob :=
  {| bj_row := row "installer_target" "running"; bj_build_spec := installer_document;
     bj_cache_metadata := Object [] |}.

Definition config : WorkerConfig := {|
  wc_build := {| bc_max_build_cores := 4; bc_max_nix_jobs := 0; bc_memory_per_build_bytes := 1;
                 bc_minimum_memory_bytes := 1; bc_minimum_swap_bytes := 0; bc_max_artifact_size_bytes := 1000;
                 bc_allowed_systems := ["x86_64-linux"]; bc_work_dir := "/var/lib/nest";
                 bc_targets := [ {| bt_artifact_type := "nixos_closure"; bt_target := "workstation";
                                    bt_system := "x86_64-linux";
                                    bt_flake := "github:NixOS/nixpkgs/" +:+ commit; bt_attr := "system" |} ] |};
  wc_timeout_seconds := 60; wc_public_base_url := "https://nest" |}.

Lemma cohort_identity_determines_the_inputs_witness :
  validate_build_spec (wc_build config) installer_job = Ok installer_spec ∧
  ∃ input1 input2 state1 state2,
    bs_build_input installer_spec = Some input1 ∧ bs_build_input installer_spec = Some input2 ∧
    bi_expected_state input1 = Some state1 ∧ bi_expected_state input2 = Some state2 ∧ json_eq state1 state2.
Proof.
  assert (validate_build_spec (wc_build config) installer_job = Ok installer_spec) as Hv
    by (vm_compute; reflexivity).
  assert (∀ s, (bs_build_input installer_spec ≫= bi_expected_state) = Some s → distinct_keys s) as Hd.
  { intros s [= <-]. apply has_distinct_keys_sound. vm_compute. reflexivity. }
  split; [exact Hv|].
  destruct (cohort_identity_determines_the_inputs (wc_build config) (wc_build config) installer_job installer_job
              installer_spec installer_spec cohort Hv Hv eq_refl eq_refl eq_refl eq_refl eq_refl Hd Hd)
    as (i1 & i2 & s1 & s2 & ? & ? & ? & ? & H1 & H2 & _ & _ & _ & _ & S1 & S2 & _ & _ & _ & _ & _ & [Hs|[Hne _]] & _).
  - exists i1, i2, s1, s2. tauto.
  - rewrite H1 in H2. injection H2 as <-. rewrite S1 in S2. injection S2 as <-. destruct Hne. reflexivity.
Defined.

Lemma accepted_installer_targets_are_bound_witness :
  ∃ raw i identity st hardware target,
    installer_bound installer_job installer_spec raw i identity st hardware target.
Proof.
  apply (accepted_installer_targets_are_bound (wc_build config) installer_job installer_spec);
    [vm_compute; reflexivity|reflexivity].
Defined.

Lemma canonical_json_identifies_witness :
  canonical_json (Object [("a", Num (PosInt 1)); ("b", Null)])
  = canonical_json (Object [("b", Null); ("a", Num (PosInt 1))]).
Proof.
  apply (canonical_json_identifies (Object [("a", Num (PosInt 1)); ("b", Null)])
           (Object [("b", Null); ("a", Num (PosInt 1))])).
  - apply has_distinct_keys_sound. vm_compute. reflexivity.
  - apply has_distinct_keys_sound. vm_compute. reflexivity.
  - constructor. intros key. cbn. repeat case_bool_decide; subst; simplify_eq; repeat constructor.
Defined.

(** ** A turn *)

Definition artifact : CachedNixArtifact := {|
  ca_artifact_hash := digest; ca_size_bytes := 12; ca_nar_path := "/var/cache/a"; ca_narinfo_path := "/var/cache/b";
  ca_nar_url := "nar/a"; ca_store_path := ""; ca_file_hash := ""; ca_nar_hash := ""; ca_nar_size_bytes := 12;
  ca_closure_size_bytes := 12; ca_closure_file_size_bytes := 12; ca_compression := "xz"; ca_references := [];
  ca_metadata := Object [] |}.

Definition no_sources : CapacitySources := {|
  so_resources := Some (1000, 1000); so_memory_max := None; so_swap_max := None; so_meminfo := None;
  so_sysinfo := None |}.

(** Everything works. *)
Definition fine : WorkInput := {|
  wi_db_fails := false; wi_now := "t1"; wi_lease := true; wi_memory := true; wi_ready := λ _, None;
  wi_headroom := Ok tt; wi_capacity := no_sources; wi_daemon := Ok tt; wi_peaks := Null; wi_oom_kills := 0;
  wi_command := Ok tt; wi_preflight := Ok []; wi_spawned := Ok tt; wi_late := 0;
  wi_child := Ok (Some {| ch_success := true; ch_code := Some 0 |}); wi_log_due := false; wi_log := "done";
  wi_progress := None; wi_drained := Ok tt;
  wi_output := Ok {| no_output_path := "/nix/store/a"; no_output_sha256 := digest; no_output_size_bytes := 12;
                     no_closure_size_bytes := 12; no_evaluated_derivation := None |};
  wi_software_inventory := Null; wi_exported := Ok artifact; wi_imported := Err "no source";
  wi_evicted := []; wi_retention := Ok tt |}.

Definition queued : BuildWorld := {|
  bw_jobs := {| jobs := {[ 1 := row "workstation" "queued" ]}; last_id := 1; remediated := ∅ |};
  bw_inventory := {| artifacts := ∅; last_artifact := 0; protections := ∅; instance_id := "nest-1"; generation := 0 |};
  bw_log := []; bw_clock := 0 |}.

Definition the_worker : prog WorkInput BuildWorld unit := worker_loop config 1 1 0.
Definition built : BuildWorld := (run (λ _, fine) 0 the_worker (recover_at_start false "t0" queued)).1.2.
Definition names (e : Effect) : string :=
  match e with
  | Claimed _ => "claimed" | Unreadable _ => "unreadable" | ReadyAnswered _ _ _ => "asked" | Preflighted _ _ _ => "preflighted"
  | Built _ _ _ => "built" | BuildEnded _ _ => "ended" | Mirrored _ _ _ => "mirrored" | Recorded _ _ => "recorded"
  | Finished _ status => status | RecoveredJob _ => "recovered" | TurnEnded _ => "turn" | Slept _ => "slept"
  end.
Example built_log : names <$> bw_log built =
  ["claimed"; "preflighted"; "built"; "ended"; "recorded"; "succeeded"; "turn"].
Proof. vm_compute. reflexivity. Qed.

(** A build that may not build from source; the end of job 1 with success. *)
Definition is_guarded_build (e : Effect) : bool :=
  match e with Built _ spec _ => negb (bs_allow_source_builds spec) | _ => false end.
Definition is_success (e : Effect) : bool :=
  match e with Finished id status => (id =? 1) && bool_decide (status = "succeeded") | _ => false end.
Example built_third : (is_guarded_build <$> (bw_log built !! 2%nat)) = Some true.
Proof. vm_compute. reflexivity. Qed.
Example built_sixth : (is_success <$> (bw_log built !! 5%nat)) = Some true.
Proof. vm_compute. reflexivity. Qed.

Lemma queued_work_ok : jobs_ok (bw_jobs queued).
Proof.
  split; cbn.
  - intros id r [<- <-]%lookup_singleton_Some. done.
  - intros id r [<- <-]%lookup_singleton_Some. unfold ALLOWED_BUILD_STATES. set_solver.
  - intros i1 i2 r1 r2 m [<- <-]%lookup_singleton_Some [<- <-]%lookup_singleton_Some. done.
Qed.

Lemma only_the_worker : worker_pool config [the_worker].
Proof. intros p ->%list_elem_of_singleton. by exists 1%nat, 1%nat. Qed.

Lemma built_alone : ∃ ts, rtc (pstep queue_entry) ([the_worker], recover_at_start false "t0" queued) (ts, built).
Proof.
  destruct (run_alone queue_entry [] [] the_worker (λ _, fine) 0 (recover_at_start false "t0" queued)) as [ts H].
  eexists. exact H.
Qed.

Lemma workers_refine_the_queue_witness :
  rtc job_step {| pool_db := bw_jobs queued; held := [] |} {| pool_db := bw_jobs built; held := held_in built |} ∧
  held_in built = [].
Proof.
  destruct built_alone as [ts H]. split; [|vm_compute; reflexivity].
  apply (workers_refine_the_queue config false "t0" [the_worker] ts queued built queued_work_ok); [|reflexivity| |exact H].
  - intros id Hid. apply elem_of_empty in Hid. destruct Hid.
  - exact only_the_worker.
Defined.

Lemma turns_end_with_finished_jobs_witness : finished 1 (bw_jobs built).
Proof.
  destruct built_alone as [ts H].
  apply (turns_end_with_finished_jobs config false "t0" [the_worker] ts queued built queued_work_ok); [|reflexivity| |exact H|].
  - intros id Hid. apply elem_of_empty in Hid. destruct Hid.
  - exact only_the_worker.
  - apply list_elem_of_lookup. exists 6%nat. vm_compute. reflexivity.
Defined.

Lemma no_build_starts_unchecked_witness :
  ∃ before job spec admitted after, bw_log built = before ++ Built job spec admitted :: after ∧
    Claimed job ∈ before ∧ bs_allow_source_builds spec = false ∧
    ∃ profile, at_nixpkgs_commit admitted = Some (wp_nixpkgs_commit profile) ∧
               Preflighted (id_of job) profile [] ∈ before.
Proof.
  destruct built_alone as [ts H].
  pose proof built_third as B.
  destruct (bw_log built) as [|e1 [|e2 [|e3 rest]]] eqn:E; try discriminate B.
  destruct e3 as [| | | |job spec admitted| | | | | | |]; try discriminate B.
  exists [e1; e2], job, spec, admitted, rest. split; [reflexivity|].
  destruct (no_build_starts_unchecked config false "t0" [the_worker] ts queued built queued_work_ok
              (λ id Hid, match proj1 (elem_of_empty id) Hid with end) eq_refl only_the_worker H
              [e1; e2] job spec admitted rest E) as (Hc & _ & _ & detected & _ & _ & Hs).
  assert (bs_allow_source_builds spec = false) as Ha.
  { cbn in B. by destruct (bs_allow_source_builds spec). }
  split; [exact Hc|]. split; [exact Ha|]. destruct Hs as [Hs|(profile & Hp & _ & Hs)]; [congruence|]. exists profile. split; [exact Hp|exact Hs].
Defined.

Lemma success_follows_publication_witness :
  ∃ before after, bw_log built = before ++ Finished 1 "succeeded" :: after ∧
    ∃ a earlier later, before = earlier ++ Recorded 1 a :: later.
Proof.
  destruct built_alone as [ts H].
  pose proof built_sixth as B.
  destruct (bw_log built) as [|e1 [|e2 [|e3 [|e4 [|e5 [|e6 rest]]]]]] eqn:E; try discriminate B.
  assert (e6 = Finished 1 "succeeded") as ->.
  { destruct e6; try discriminate B. cbn in B. injection B as [->%Z.eqb_eq ->%bool_decide_eq_true]%andb_true_iff. reflexivity. }
  exists [e1; e2; e3; e4; e5], rest. split; [reflexivity|].
  destruct (success_follows_publication config false "t0" [the_worker] ts queued built queued_work_ok
              (λ id Hid, match proj1 (elem_of_empty id) Hid with end) eq_refl only_the_worker H
              [e1; e2; e3; e4; e5] 1 rest E) as (a & earlier & later & Hb & _).
  exists a, earlier, later. exact Hb.
Defined.

(** A child that never ends. *)
Definition endless : WorkInput := {|
  wi_db_fails := false; wi_now := "t1"; wi_lease := true; wi_memory := true; wi_ready := λ _, None;
  wi_headroom := Ok tt; wi_capacity := no_sources; wi_daemon := Ok tt; wi_peaks := Null; wi_oom_kills := 0;
  wi_command := Ok tt; wi_preflight := Ok []; wi_spawned := Ok tt; wi_late := 0;
  wi_child := Ok None; wi_log_due := false; wi_log := ""; wi_progress := None; wi_drained := Ok tt;
  wi_output := Err ""; wi_software_inventory := Null; wi_exported := Err ""; wi_imported := Err "";
  wi_evicted := []; wi_retention := Ok tt |}.
Example timed_out :
  names <$> bw_log (run (λ _, endless) 0 the_worker (recover_at_start false "t0" queued)).1.2 =
  ["claimed"; "preflighted"; "built"; "ended"; "failed"; "turn"].
Proof. vm_compute. reflexivity. Qed.

Lemma turns_complete_witness :
  is_Some (run (λ _, endless) 0 (worker_turn config 1 0) (recover_at_start false "t0" queued)).1.1.
Proof.
  apply (turns_complete config (λ _, endless) 0 0 0 (recover_at_start false "t0" queued)).
  - reflexivity.
  - intros id r job Hr Hi Hs Hcrash.
    assert (job_inputs r = job_inputs (row "workstation" "queued")) as Hin.
    { cbn in Hr. rewrite map_fmap_singleton in Hr. apply lookup_singleton_Some in Hr as [_ <-]. reflexivity. }
    rewrite Hin in Hi, Hs. change (Some plain_document = Some (bj_build_spec job)) in Hs. injection Hs as Hs.
    unfold validate_build_spec in Hcrash. rewrite Hi, <- Hs in Hcrash. vm_compute in Hcrash. discriminate Hcrash.
  - refine (proj1 (start_ok config false "t0" queued queued_work_ok _ eq_refl)).
    intros id Hid. apply elem_of_empty in Hid. destruct Hid.
Defined.

(** ** A row that cannot be read *)

Definition damaged : BuildWorld := {|
  bw_jobs := {| jobs := {[ 1 := stored "damaged" "workstation" "queued" ]}; last_id := 1; remediated := ∅ |};
  bw_inventory := bw_inventory queued; bw_log := []; bw_clock := 0 |}.
Definition after_turns : BuildWorld := (run (λ _, fine) 0 (worker_loop config 4 1 0) damaged).1.2.

(** A queued row whose document cannot be decoded is marked as running by the statement
    that claims it, before it is decoded; the worker takes the error for a failed claim and
    goes on, so the job stays running, without a worker, until the next start. *)
Lemma unreadable_jobs_stay_running :
  (job_status <$> jobs (bw_jobs after_turns) !! 1) = Some "running" ∧
  names <$> bw_log after_turns = ["unreadable"; "slept"; "slept"; "slept"; "slept"].
Proof. split; vm_compute; reflexivity. Qed.
End BuildDemo.
